(* ===== verification/_CoqProject ===== *)
-Q . S2P
Prelude.v
MqttPacket.v
MqttPublish.v
MqttSubscribe.v
MqttConnect.v
MqttTopic.v
MqttClient.v
MqttClientProofs.v
MqttCommands.v
MqttSafety.v
MqttLinux.v
OvpnBuffer.v
OvpnFrame.v
OvpnPacketId.v
OvpnReliable.v
OvpnList.v
MqttWireProps.v
MqttClientProps.v
OvpnProps.v
OvpnFragment.v
OvpnFragmentProofs.v
OvpnCrypto.v
OvpnCryptoProofs.v
OvpnKey.v
OvpnKeyFile.v
OvpnKeyProofs.v
OvpnDataProps.v
OvpnKeyProps.v
OvpnStream.v
OvpnStreamProofs.v
OvpnStreamProps.v
OvpnBase64.v
OvpnMbuf.v
OvpnMbufProofs.v
OvpnTime.v
OvpnSchedule.v
OvpnScheduleProofs.v
OvpnScheduleProps.v
OvpnPool.v
OvpnPoolProofs.v
OvpnProto.v
OvpnProtoProofs.v
OvpnNatProofs.v
OvpnProtoProps.v
OvpnMroute.v
OvpnMrouteProofs.v
OvpnPf.v
OvpnPfProofs.v
OvpnMulti.v
OvpnMultiProofs.v
OvpnMultiOpsProofs.v
OvpnMultiProps.v
OvpnSwitch.v
OvpnSwitchProofs.v
OvpnSwitchProps.v
OvpnServer.v
OvpnServerLoop.v
OvpnServerProofs.v
OvpnServerOpsProofs.v
OvpnServerEventProofs.v
OvpnServerLoopProofs.v
OvpnServerProps.v
