(* ===== verification/Prelude.v ===== *)
(** * A verification library for openwrt-mqtt

    The repository packages three programs for OpenWrt: the Eclipse paho MQTT client for
    embedded systems ([src/paho/src], two layers: the packet library [MQTTPacket] and the
    client [MQTTClient-C]), OpenVPN ([src/openvpn/src/src/openvpn]) and a small UART tool,
    with LuCI pages.  This library models the parts of paho and OpenVPN that decide
    something, and proves what they promise.  File names below are those of the C sources
    and of the Rocq files of this directory.

    ** How C is modelled

    A function is a pure Rocq function from its arguments, and from the objects it may
    change, to an [outcome] ([Prelude.v]): [Ret] the results with the changed objects,
    [Undef] for behaviour C leaves undefined (an access outside an object, a signed
    overflow, use after free, a null dereference), [Abort] for a failed [ASSERT] or a fatal
    message, [NoFuel] for a loop whose budget ran out.  So "the function is computed", the
    conclusion [= Ret _] of most theorems, says that it stays inside its objects, does not
    overflow, does not abort and terminates.  Where much state is threaded through many
    calls (the client, buffers) the outcomes are wrapped in the state monad [M] of the
    prelude.

    Integers are [Z], with [wrap w] and [swrap w] where the code converts to a width and
    [int] where it computes in [int].  Memory is lists of bytes with offsets for pointers;
    what is shared or freed lives in a heap, a [gmap] from names, where freeing deletes.
    Loops over a list or a counter are [foldM], [for_] and [hash_walk]; other loops are
    [loop] with a budget.  Each budget is a number the text beside it gives (the length of
    the string walked, the bytes left, the entries of an array, the height of a treap), and
    each loop has a lemma that its budget is enough; the
    search of a place in the scheduler draws random numbers while two are equal, and takes
    a [fuel] that [lively] random numbers make enough; the
    loops of the MQTT client that wait take it as an argument [fuel], and
    [client_operations_return] says that more than the polls a timer allows ([span]) is
    enough on a platform where time passes and calls come back.  What the C code gets from outside ([now],
    random numbers, the answers of system calls, scripts and libraries) is an argument, or
    a type class when it is a set of operations, whose laws are a second class: [Platform]
    with [Stream], [Passing] and [Steady], [Kernel] with [KernelStream], [KernelPassing] and
    [KernelQuiet],
    [CipherOps] with [CipherLaws], [HmacOps] with [HmacLaws], [KtOps], [Hashable] with
    [HashLaws].  Every class is instantiated by a concrete one in the witnesses.

    ** MQTT

    - [MqttPacket.v] ([MQTTPacket.c], [MQTTPacket.h]), [MqttPublish.v]
      ([MQTTSerializePublish.c], [MQTTDeserializePublish.c]), [MqttSubscribe.v] (the four
      files on subscriptions), [MqttConnect.v] ([MQTTConnectClient.c],
      [MQTTConnectServer.c]): both directions of every packet.  [MqttWireProps.v]:
      serializers produce the packets of the protocol, deserializers read them back, the
      two readers ([MQTTPacket_read], [MQTTPacket_readnb]) reassemble packets, and which
      functions overrun their arrays.
    - [MqttTopic.v]: [isTopicMatched] of [MQTTClient.c], equal to a matcher by levels.
    - [MqttClient.v] ([MQTTClient.c]): the client over a [Platform]; [MqttLinux.v]
      ([linux/MQTTLinux.c]): the platform over a [Kernel].  [MqttClientProofs.v] and
      [MqttCommands.v] hold the contracts and the lemmas on the operations,
      [MqttSafety.v] a Hoare logic of total correctness for them;
      [MqttClientProps.v] what the commands send and return, and that every operation
      returns and keeps the invariant while the connection stays open and the packets of
      the broker fit the read buffer.  What happens otherwise is shown too: a longer packet
      overruns the buffer ([readPacket_correct]), and on a connection the peer has closed
      [linux_read] does not return ([linux_read_never_returns]).

    ** OpenVPN: buffers, crypto and the channels

    - [OvpnBuffer.v] ([buffer.c], [buffer.h], [integer.h]) and [OvpnFrame.v] ([mtu.c],
      [mtu.h], [interval.c]): the buffers every other part passes along, and how much room
      a packet may need around its payload.
    - [OvpnPacketId.v] ([packet_id.c]): replay protection.  [OvpnCrypto.v],
      [OvpnCryptoProofs.v] ([crypto.c]): sealing and opening packets with a cipher and a
      tag; it calls the replay window.  [OvpnFragment.v], [OvpnFragmentProofs.v]
      ([fragment.c]): datagrams in parts.  [OvpnDataProps.v]: what the receiver may take
      from any network, that an orderly network loses nothing, and that exactly the
      complete datagrams are reassembled.
    - [OvpnKey.v], [OvpnKeyFile.v], [OvpnKeyProofs.v], [OvpnKeyProps.v] ([crypto.c]): key
      files, keys sent to the peer, frame parameters.
    - [OvpnReliable.v] ([reliable.c], parts of [ssl.c]): the windows of the control
      channel; [OvpnProps.v] shows that sender, receiver and a bad network refine a queue.
      It also holds the theorems on replay, buffers and hash tables.
    - [OvpnStream.v], [OvpnStreamProofs.v], [OvpnStreamProps.v] ([socket.c], [ps.c]):
      packets over TCP.  [OvpnBase64.v] ([base64.c]).

    ** OpenVPN: the server

    - [OvpnList.v] ([list.c]): hash tables, over a class of keys.  [OvpnMbuf.v],
      [OvpnMbufProofs.v] ([mbuf.c]): the queue of packets for clients, counted references.
      [OvpnTime.v] ([otime.c], [shaper.c]): clocks.  [OvpnSchedule.v],
      [OvpnScheduleProofs.v], [OvpnScheduleProps.v] ([schedule.c]): the treap of wakeup
      times, a finite map from entries to times.  [OvpnPool.v], [OvpnPoolProofs.v]
      ([pool.c]): addresses leased to clients.
    - [OvpnProto.v], [OvpnProtoProofs.v], [OvpnNatProofs.v], [OvpnProtoProps.v] ([proto.c],
      [mss.c], [clinat.c]): headers of IP packets, the MSS option, address translation.
    - [OvpnMroute.v], [OvpnMrouteProofs.v] ([mroute.c]): addresses as keys, masks, the
      lengths of prefixes in use, and the addresses of a packet.  [OvpnPf.v],
      [OvpnPfProofs.v] ([pf.c]): the packet filters of clients.  [OvpnMulti.v]
      ([multi.c]): which client is behind an address.  It puts the tables of [OvpnList.v]
      over the addresses of [OvpnMroute.v], which are the instance of its class.
      [OvpnMultiProofs.v] and [OvpnMultiOpsProofs.v] hold the invariant [routing_ok] and
      that each operation keeps it; [OvpnMultiProps.v] makes the server a transition
      system and shows that no event of it fails and that lookups are longest-prefix
      routing, whatever was cached.
    - [OvpnSwitch.v], [OvpnSwitchProofs.v], [OvpnSwitchProps.v] ([multi.c],
      [pf-inline.h]): where a packet of a client or of the device goes.  It composes the
      routing table, the packet filters, the output queue and the list of clients; the
      properties say what is queued for whom, and that nothing passes with the address of
      somebody else.
    - [OvpnServer.v] ([multi.c], [multi.h], [mudp.c]): the clients of a UDP server, and what
      creates, authenticates, wakes, replaces and closes them.  Its [server] holds the
      switch, the table of transport addresses, the scheduler, the pool and the limit on
      connections, so the operations are those of all files above.  [OvpnServerLoop.v]
      ([multi_init]; [tunnel_server_udp_single_threaded] in [mudp.c]; [io_wait] in
      [forward.c]): one iteration of the loop, [server_turn].  [OvpnServerProofs.v] states
      the invariant [tracks] and shows that closing keeps it, [OvpnServerOpsProofs.v] that
      a connection and [multi_process_post] do, [OvpnServerEventProofs.v] that the creation
      of clients does ([running]), [OvpnServerLoopProofs.v] that every event and the
      iteration do.  [OvpnServerProps.v]: in every state the loop leads to the next
      iteration is computed and all tables agree on who is there; which client a packet is
      for, who is closed, what is read when.  An iteration is told by a [turn]: times,
      packets, what they decrypt to, signals, the outcome of TLS and the options of
      clients.  [turn_fits] asks that times are less than 2^31 seconds apart, that the
      system answers only events it was asked for, and that counters have room for what
      an iteration can add.  The check of stale routes is left out there ([tf_stale]);
      [OvpnMultiProps.v] shows what it does.

    Every file of the form [...Props.v], and the end of the smaller files, states the
    properties, each followed by a witness: the property applied at a concrete state.

    ** Not modelled

    - TLS and the negotiation of keys ([ssl.c], [ssl_verify.c], and the code over OpenSSL
      and PolarSSL): almost every step is a call of the library.
    - Of the server: TCP ([mtcp.c]), shutting down, [MANAGEMENT_DEF_AUTH], the status
      output, the file of the pool, the strings of pushed options ([push.c]) and [gremlin].
    - [options.c], [init.c], most of [forward.c], [push.c], [tun.c], [route.c], most of [socket.c],
      [manage.c], [proxy.c], [win32.c], [plugin.c], [error.c], [dhcp.c]: system calls,
      platform glue, option tables and text output.  Functions of these files that the
      parts above rest on are modelled with them.
    - In modelled files: printing, logging, [printf] beyond the formats listed in
      [OvpnKey.v], arenas of memory ([gc]), and reading and writing files, whose content is
      an argument.
    - The UART tool (terminal set-up), samples and tests of paho with the vendored cJSON,
      the Lua pages and the makefiles. *)
From Stdlib Require Export ZArith Lia.
From stdpp Require Export prelude.

#[global] Open Scope Z_scope.

(** * Shared vocabulary *)

(** ** Outcomes of C computations

    [Ret a]: the computation returns [a].  [Undef]: it performs an operation
    whose behaviour C leaves undefined (an access outside the object a pointer
    designates, a signed overflow, a null dereference).  [Abort]: the program
    ends itself, by a failed assertion or a fatal message.  [NoFuel]: the
    model's loop budget ran out; every loop comes with a lemma that this does
    not happen. *)
Inductive outcome (A : Type) : Type :=
| Ret (a : A)
| Undef
| Abort
| NoFuel.
Arguments Ret {A} a.
Arguments Undef {A}.
Arguments Abort {A}.
Arguments NoFuel {A}.

#[export] Instance outcome_ret : MRet outcome := @Ret.
#[export] Instance outcome_bind : MBind outcome := λ A B k m,
  match m with
  | Ret a => k a
  | Undef => Undef
  | Abort => Abort
  | NoFuel => NoFuel
  end.
#[export] Instance outcome_fmap : FMap outcome := λ A B f m,
  match m with
  | Ret a => Ret (f a)
  | Undef => Undef
  | Abort => Abort
  | NoFuel => NoFuel
  end.

(** [of_option o] turns a failed lookup into undefined behaviour. *)
Definition of_option {A} (o : option A) : outcome A :=
  match o with Some a => Ret a | None => Undef end.

(** [ASSERT(b)]. *)
Definition ASSERT (P : Prop) `{Decision P} : outcome unit :=
  if decide P then Ret tt else Abort.

(** ** Loops

    A C loop is [loop fuel body]: [body s] is one iteration; [inl s'] goes
    round again, [inr r] leaves the loop. *)
Fixpoint loop {St R : Type} (fuel : nat) (body : St → outcome (St + R))
    (s : St) : outcome R :=
  match fuel with
  | O => NoFuel
  | S n =>
      x ← body s;
      match x with
      | inl s' => loop n body s'
      | inr r => Ret r
      end
  end.

(** [for (i = 0; i < n; ++i) body]: [n] iterations from index [i]. *)
Fixpoint for_ {A : Type} (n i : nat) (body : nat → A → outcome A) (a : A) : outcome A :=
  match n with
  | O => Ret a
  | S n => a ← body i a; for_ n (S i) body a
  end.

(** A computation run on each element of a list in turn. *)
Fixpoint foldM {A B : Type} (f : B → A → outcome A) (l : list B) (a : A) : outcome A :=
  match l with
  | [] => Ret a
  | x :: l => a ← f x a; foldM f l a
  end.

(** [l[i]] and [l[i] = x] on an array: out of range is undefined. *)
Definition array_get {A} (l : list A) (i : nat) : outcome A := of_option (l !! i).
Definition array_set {A} (l : list A) (i : nat) (x : A) : outcome (list A) :=
  if decide (i < length l)%nat then Ret (<[i := x]> l) else Undef.

(** ** Machine integers *)

(** Conversion to an unsigned integer of [w] bits. *)
Definition wrap (w z : Z) : Z := z mod 2 ^ w.
Abbreviation u8 := (wrap 8).
Abbreviation u16 := (wrap 16).
Abbreviation u32 := (wrap 32).
Abbreviation u64 := (wrap 64).

(** Conversion to a two's complement integer of [w] bits. *)
Definition swrap (w z : Z) : Z := (z + 2 ^ (w - 1)) mod 2 ^ w - 2 ^ (w - 1).
Abbreviation s8 := (swrap 8).
Abbreviation s32 := (swrap 32).

Definition INT_MAX : Z := 2147483647.
Definition INT_MIN : Z := -2147483648.

(** The result of an [int] operation: overflow is undefined behaviour. *)
Definition int (z : Z) : outcome Z :=
  if decide (INT_MIN ≤ z ≤ INT_MAX) then Ret z else Undef.

(** [field w z] is what an unsigned bit-field of [w] bits holds after [z] is
    assigned to it. *)
Definition field (w z : Z) : Z := z mod 2 ^ w.

(** Bits [lo .. lo+w-1] of [z]. *)
Definition bits (lo w z : Z) : Z := Z.land (Z.shiftr z lo) (Z.ones w).

Definition is_byte (b : Z) : Prop := 0 ≤ b < 256.
Definition is_u16 (z : Z) : Prop := 0 ≤ z < 65536.
Definition is_u32 (z : Z) : Prop := 0 ≤ z < 4294967296.
#[export] Instance is_byte_dec b : Decision (is_byte b).
Proof. unfold is_byte. apply _. Defined.
#[export] Instance is_u16_dec z : Decision (is_u16 z).
Proof. unfold is_u16. apply _. Defined.

(** C truth values. *)
Definition c_bool (b : bool) : Z := if b then 1 else 0.

(** ** Byte strings *)

(** [slice l i n] is the [n] elements of [l] from index [i]. *)
Definition slice {A} (i n : nat) (l : list A) : list A := take n (drop i l).

(** [splice i bs l] overwrites [l] with [bs] from index [i]. *)
Definition splice {A} (i : nat) (bs l : list A) : list A :=
  take i l ++ bs ++ drop (i + length bs) l.

(** Big-endian 16 and 32 bit encodings. *)
Definition be16 (z : Z) : list Z := [u8 (z / 256); u8 z].
Definition be32 (z : Z) : list Z :=
  [u8 (z / 16777216); u8 (z / 65536); u8 (z / 256); u8 z].

(** ** A write cursor into an object

    [wmem] is the content of the object, [wpos] the offset of the pointer the
    code advances. *)
Record wcur := WCur { wmem : list Z; wpos : nat }.

(** [*p++ = b]. *)
Definition store (b : Z) (w : wcur) : outcome wcur :=
  if decide (wpos w < length (wmem w))%nat
  then Ret (WCur (<[wpos w := u8 b]> (wmem w)) (S (wpos w)))
  else Undef.

(** [memcpy(p, bs, n); p += n]. *)
Fixpoint put (bs : list Z) (w : wcur) : outcome wcur :=
  match bs with
  | [] => Ret w
  | b :: bs => w ← store b w; put bs w
  end.

(** ** Monad laws and inversion *)

Lemma bind_Ret {A B} (a : A) (k : A → outcome B) : (Ret a ≫= k) = k a.
Proof. done. Qed.

(** Runs a bind whose first computation returned. *)
Ltac bret := progress (repeat (rewrite bind_Ret; cbv beta iota)).

Lemma bind_assoc {A B C} (m : outcome A) (f : A → outcome B) (g : B → outcome C) :
  ((m ≫= f) ≫= g) = (m ≫= λ a, f a ≫= g).
Proof. by destruct m. Qed.

Lemma bind_Ret_inv {A B} (m : outcome A) (k : A → outcome B) b :
  (m ≫= k) = Ret b → ∃ a, m = Ret a ∧ k a = Ret b.
Proof. destruct m; cbn; intros; try discriminate. eauto. Qed.

Lemma bind_ext {A B} (m : outcome A) (f g : A → outcome B) :
  (∀ a, f a = g a) → (m ≫= f) = (m ≫= g).
Proof. destruct m; cbn; auto. Qed.

Lemma fmap_Ret_inv {A B} (f : A → B) (m : outcome A) b :
  f <$> m = Ret b → ∃ a, m = Ret a ∧ f a = b.
Proof. destruct m; cbn; intros; simplify_eq; eauto. Qed.

(** [inv_bind] opens every bind of a computation known to return. *)
Ltac inv_bind :=
  repeat match goal with
  | H : Ret _ = Ret _ |- _ => apply (inj Ret) in H || (injection H as H); subst
  | H : mbind _ _ = Ret _ |- _ => apply bind_Ret_inv in H as (? & ? & ?)
  | H : mret _ = Ret _ |- _ => unfold mret, outcome_ret in H
  | H : Undef = Ret _ |- _ => discriminate H
  | H : Abort = Ret _ |- _ => discriminate H
  | H : NoFuel = Ret _ |- _ => discriminate H
  end.

(** ** Loops *)

Section loop.
Context {St R : Type}.
Implicit Types (body : St → outcome (St + R)) (s : St) (r : R).

Lemma loop_S n body s :
  loop (S n) body s =
  (x ← body s; match x with inl s' => loop n body s' | inr r => Ret r end).
Proof. done. Qed.

(** More fuel never changes an outcome that did not run out of it. *)
Lemma loop_mono n m body s :
  loop n body s ≠ NoFuel → (n ≤ m)%nat → loop m body s = loop n body s.
Proof.
  revert m s. induction n as [|n IH]; intros [|m] s Hn Hle; cbn in *; try done; try lia.
  destruct (body s) as [[s'|r]| | |]; cbn in *; auto with lia.
Qed.

(** Total correctness: an invariant, a decreasing measure, a postcondition. *)
Lemma loop_total (Inv : St → Prop) (Q : R → Prop) (μ : St → nat) body :
  (∀ s, Inv s → ∃ x, body s = Ret x ∧
     match x with inl s' => Inv s' ∧ (μ s' < μ s)%nat | inr r => Q r end) →
  ∀ n s, Inv s → (μ s < n)%nat → ∃ r, loop n body s = Ret r ∧ Q r.
Proof.
  intros Hb. induction n as [|n IH]; intros s HI Hlt; [lia|].
  destruct (Hb s HI) as (x & Hx & Hpost). cbn. rewrite Hx. cbn.
  destruct x as [s'|r]; [|eauto].
  destruct Hpost. apply IH; [done|lia].
Qed.

(** Partial correctness, whatever the fuel. *)
Lemma loop_partial (Inv : St → Prop) (Q : R → Prop) body :
  (∀ s x, Inv s → body s = Ret x → match x with inl s' => Inv s' | inr r => Q r end) →
  ∀ n s r, Inv s → loop n body s = Ret r → Q r.
Proof.
  intros Hb. induction n as [|n IH]; intros s r HI Hl; [done|].
  cbn in Hl. destruct (body s) as [x| | |] eqn:E; cbn in Hl; try done.
  specialize (Hb s x HI E). destruct x as [s'|r']; [eauto|]. by injection Hl as <-.
Qed.
End loop.

(** A loop over the indices of an array is a fold over its elements. *)
Lemma for_list {A B} (f : B → A → outcome A) (l : list B) (a : A) :
  for_ (length l) 0 (λ i a, x ← array_get l i; f x a) a = foldM f l a.
Proof.
  assert (∀ pre, for_ (length l) (length pre) (λ i a, x ← array_get (pre ++ l) i; f x a) a
    = foldM f l a) as H; [|apply (H [])].
  revert a. induction l as [|x l IH]; intros a pre; [done|]. cbn [length for_ foldM].
  assert (array_get (pre ++ x :: l) (length pre) = Ret x) as Hx.
  { unfold array_get. by rewrite list_lookup_middle. }
  rewrite Hx, bind_Ret.
  destruct (f x a) as [a'| | |]; [|done..]. rewrite !bind_Ret.
  specialize (IH a' (pre ++ [x])). rewrite <- app_assoc, length_app in IH. cbn in IH.
  by rewrite Nat.add_1_r in IH.
Qed.

Lemma foldM_app {A B} (f : B → A → outcome A) l1 l2 a :
  foldM f (l1 ++ l2) a = (a ← foldM f l1 a; foldM f l2 a).
Proof.
  revert a. induction l1 as [|x l1 IH]; intros a; cbn [app foldM]; [by rewrite bind_Ret|].
  rewrite bind_assoc. apply bind_ext. intros. apply IH.
Qed.

Lemma for_ext {A} n i (f g : nat → A → outcome A) a :
  (∀ j a, (i ≤ j < i + n)%nat → f j a = g j a) → for_ n i f a = for_ n i g a.
Proof.
  revert i a. induction n as [|n IH]; intros i a H; [done|]. cbn.
  rewrite H by lia. apply bind_ext. intros a'. apply IH. intros. apply H. lia.
Qed.

Lemma array_set_ok {A} (l : list A) i x :
  (i < length l)%nat → array_set l i x = Ret (<[i := x]> l).
Proof. intros. unfold array_set. by rewrite decide_True. Qed.

(** ** Integer lemmas *)

Lemma wrap_range w z : 0 ≤ w → 0 ≤ wrap w z < 2 ^ w.
Proof. intros. unfold wrap. apply Z.mod_pos_bound. lia. Qed.

Lemma wrap_small w z : 0 ≤ z < 2 ^ w → wrap w z = z.
Proof. apply Z.mod_small. Qed.

Lemma wrap_wrap w z : wrap w (wrap w z) = wrap w z.
Proof. apply Zmod_mod. Qed.

Lemma u8_range z : is_byte (u8 z).
Proof. apply (wrap_range 8). lia. Qed.

Lemma u16_range z : is_u16 (u16 z).
Proof. apply (wrap_range 16). lia. Qed.

Lemma u8_id z : is_byte z → u8 z = z.
Proof. apply (wrap_small 8). Qed.

Lemma u8_idemp z : u8 (u8 z) = u8 z.
Proof. apply wrap_wrap. Qed.

Lemma u16_id z : is_u16 z → u16 z = z.
Proof. apply (wrap_small 16). Qed.

Lemma int_ok z : INT_MIN ≤ z ≤ INT_MAX → int z = Ret z.
Proof. intros. unfold int. by rewrite decide_True. Qed.

Lemma int_inv z z' : int z = Ret z' → z' = z ∧ INT_MIN ≤ z ≤ INT_MAX.
Proof. unfold int. case_decide; [|done]. by intros [= <-]. Qed.

#[export] Hint Resolve u8_range : core.

(** Unfolds the bounds that are names, for [lia]. *)
Ltac ints := unfold INT_MIN, INT_MAX, is_byte, is_u16 in *.

Lemma be16_bytes z : Forall is_byte (be16 z).
Proof. unfold be16. by rewrite !Forall_cons. Qed.

Lemma be32_bytes z : Forall is_byte (be32 z).
Proof. unfold be32. by rewrite !Forall_cons. Qed.

Lemma be16_decode z :
  256 * u8 (z / 256) + u8 z = u16 z.
Proof.
  unfold wrap. change (2 ^ 16) with (256 * 256). change (2 ^ 8) with 256.
  rewrite (Z.rem_mul_r z 256 256) by lia. lia.
Qed.

(** ** Lemmas on cursors *)

Lemma map_u8_id bs : Forall is_byte bs → map u8 bs = bs.
Proof.
  induction 1 as [|b bs Hb _ IH]; [done|]. cbn. by rewrite u8_id, IH.
Qed.

Lemma put_app bs1 bs2 w :
  put (bs1 ++ bs2) w = (w ← put bs1 w; put bs2 w).
Proof.
  revert w. induction bs1 as [|b bs1 IH]; intros w; [done|].
  cbn. destruct (store b w); cbn; auto.
Qed.

Lemma put_cons b bs w : put (b :: bs) w = (w ← store b w; put bs w).
Proof. done. Qed.

Lemma put_one b w : put [b] w = store b w.
Proof. cbn. by destruct (store b w). Qed.

Lemma length_splice {A} i (bs l : list A) :
  (i + length bs ≤ length l)%nat → length (splice i bs l) = length l.
Proof. intros. unfold splice. rewrite !length_app, length_take, length_drop. lia. Qed.

(** [put] succeeds exactly when the bytes fit, and then it splices them. *)
Lemma put_spec bs w :
  (wpos w + length bs ≤ length (wmem w))%nat →
  put bs w = Ret (WCur (splice (wpos w) (map u8 bs) (wmem w)) (wpos w + length bs)).
Proof.
  revert w. induction bs as [|b bs IH]; intros [m p] Hle; cbn in *.
  - unfold splice. cbn. rewrite Nat.add_0_r, take_drop. done.
  - unfold store. cbn. rewrite decide_True by lia. cbn.
    rewrite IH by (cbn; rewrite length_insert; lia). cbn.
    f_equal. f_equal; [|lia]. unfold splice. cbn. rewrite length_map.
    rewrite (take_S_r _ _ (u8 b)) by (apply list_lookup_insert_eq; lia).
    rewrite take_insert_ge, drop_insert_lt by lia.
    rewrite <- app_assoc. cbn. do 4 f_equal. lia.
Qed.

Lemma put_Undef bs w :
  (wpos w ≤ length (wmem w) < wpos w + length bs)%nat → put bs w = Undef.
Proof.
  revert w. induction bs as [|b bs IH]; intros [m p] Hlt; cbn in *; [lia|].
  unfold store. cbn. case_decide; [|done]. cbn.
  apply IH. cbn. rewrite length_insert. lia.
Qed.

Lemma put_u8 bs w : put (map u8 bs) w = put bs w.
Proof.
  revert w. induction bs as [|b bs IH]; intros w; cbn; [done|].
  unfold store. rewrite u8_idemp. case_decide; cbn; auto.
Qed.

(** Writing a whole object image from the start of a buffer. *)
Lemma put_start bs m :
  Forall is_byte bs → (length bs ≤ length m)%nat →
  put bs (WCur m 0) = Ret (WCur (bs ++ drop (length bs) m) (length bs)).
Proof.
  intros Hb Hle. rewrite put_spec by done. cbn. unfold splice. cbn.
  by rewrite (map_u8_id bs) by done.
Qed.

Lemma put_start_Undef bs m :
  (length m < length bs)%nat → put bs (WCur m 0) = Undef.
Proof. intros. apply put_Undef. cbn. lia. Qed.

(** Runs the additions of a computation that stay in range. *)
Ltac int_steps := repeat first [ bret | rewrite int_ok by (ints; lia) ].

Lemma foldM_put {A} (f : A → wcur → outcome wcur) (g : A → list Z) (P : A → Prop) l w :
  (∀ x w, P x → f x w = put (g x) w) → Forall P l →
  foldM f l w = put (concat (map g l)) w.
Proof.
  intros Hf Hl. revert w. induction Hl as [|x l Hx Hl IH]; intros w; [done|].
  cbn [foldM map concat]. rewrite Hf, put_app by done. apply bind_ext, IH.
Qed.

Lemma take_S_insert {A} (l : list A) n x :
  (n < length l)%nat → take (S n) (<[n := x]> l) = take n l ++ [x].
Proof.
  intros. rewrite (take_S_r _ _ x) by (by apply list_lookup_insert_eq).
  by rewrite take_insert_ge by lia.
Qed.

(** *** Filling a buffer from its start

    [filled buf pre] is the cursor after [pre] has been written to [buf]. *)
Definition filled (buf pre : list Z) : wcur :=
  WCur (pre ++ drop (length pre) buf) (length pre).

Lemma filled_start buf : WCur buf 0 = filled buf [].
Proof. done. Qed.

Lemma put_filled pre bs buf :
  Forall is_byte bs → (length pre + length bs ≤ length buf)%nat →
  put bs (filled buf pre) = Ret (filled buf (pre ++ bs)).
Proof.
  intros Hb Hl. unfold filled.
  rewrite put_spec by (cbn; rewrite length_app, length_drop; lia).
  cbn [wpos wmem]. unfold splice. rewrite map_u8_id by done.
  rewrite take_app_length, drop_app_add, drop_drop, length_app.
  by rewrite <- app_assoc.
Qed.

(** Writing past the end of the buffer. *)
Lemma put_filled_Undef pre bs buf :
  (length pre ≤ length buf < length pre + length bs)%nat →
  put bs (filled buf pre) = Undef.
Proof.
  intros. apply put_Undef. unfold filled. cbn. rewrite length_app, length_drop. lia.
Qed.

(** ** Lemmas on byte strings *)

Lemma length_be16 z : length (be16 z) = 2%nat.
Proof. done. Qed.

Lemma length_be32 z : length (be32 z) = 4%nat.
Proof. done. Qed.

Lemma drop_cons_lookup {A} (l : list A) p x s :
  drop p l = x :: s → l !! p = Some x ∧ drop (S p) l = s.
Proof.
  intros H. split.
  - rewrite <- (Nat.add_0_r p), <- lookup_drop, H. done.
  - rewrite <- Nat.add_1_r, <- drop_drop, H. done.
Qed.

Lemma drop_app_cut {A} (l : list A) p s t :
  drop p l = s ++ t → drop (p + length s) l = t.
Proof. intros H. rewrite <- drop_drop, H. apply drop_app_length. Qed.

Lemma drop_length_bound {A} (l : list A) p s :
  drop p l = s → s ≠ [] → length l = (p + length s)%nat.
Proof.
  intros <- Hne. rewrite length_drop.
  assert (p < length l)%nat; [|lia].
  destruct (decide (p < length l)%nat); [done|].
  by rewrite drop_ge in Hne by lia.
Qed.

(** A decidable fact about bytes, checked on all 256 of them. *)
Lemma byte_all (P : Z → bool) :
  forallb P (map Z.of_nat (seq 0 256)) = true → ∀ b, is_byte b → P b = true.
Proof.
  rewrite forallb_forall. intros H b [Hl Hh]. apply H.
  apply in_map_iff. exists (Z.to_nat b). split; [lia|]. apply in_seq. lia.
Qed.

Lemma byte_all2 (P : Z → Z → bool) :
  forallb (λ a, forallb (P a) (map Z.of_nat (seq 0 256))) (map Z.of_nat (seq 0 256)) = true →
  ∀ a b, is_byte a → is_byte b → P a b = true.
Proof.
  intros H a b Ha Hb. apply (byte_all (P a)); [|done].
  by apply (byte_all (λ a, forallb (P a) (map Z.of_nat (seq 0 256)))).
Qed.

Create HintDb bytes.
#[export] Hint Resolve u8_range be16_bytes be32_bytes Forall_nil_2 Forall_cons_2
  Forall_app_2 : bytes.

Create Rewrite HintDb len.
#[export] Hint Rewrite @length_app @length_take @length_drop @length_insert
  @length_replicate @length_map @length_cons @length_be16 @length_be32 : len.

(** Normalises lengths, then arithmetic. *)
Ltac len := autorewrite with len in *; cbn [length] in *; ints; lia.

(** Resolves the tests whose answer follows by arithmetic. *)
Ltac dec :=
  repeat match goal with
  | |- context [@decide ?P _] =>
      first [ rewrite (decide_True (P := P)) by (done || (ints; lia))
            | rewrite (decide_False (P := P)) by (done || (ints; lia)) ]
  end.

#[global] Arguments filled : simpl never.
#[global] Arguments put : simpl never.
#[global] Arguments be16 : simpl never.
#[global] Arguments be32 : simpl never.
#[global] Arguments wrap : simpl never.
#[global] Arguments swrap : simpl never.
#[global] Arguments loop : simpl never.

(** ** Stateful computations

    [M St A]: a computation on a state [St] that returns an [A]. *)
Definition M (St A : Type) : Type := St → outcome (A * St).

#[export] Instance M_ret {St} : MRet (M St) := λ A a s, Ret (a, s).
#[export] Instance M_bind {St} : MBind (M St) := λ A B k m s,
  '(a, s) ← m s; k a s.

(** The state, a function of it, a change of it; and a stateless computation. *)
Definition get {St} : M St St := λ s, Ret (s, s).
Definition gets {St A} (f : St → A) : M St A := λ s, Ret (f s, s).
Definition modify {St} (f : St → St) : M St unit := λ s, Ret (tt, f s).
Definition lift {St A} (o : outcome A) : M St A := λ s, a ← o; Ret (a, s).

(** A loop whose body changes the state. *)
Definition loopM {St A R} (fuel : nat) (body : A → M St (A + R)) (a : A) : M St R := λ s,
  loop fuel (λ '(a, s),
    '(x, s) ← body a s;
    Ret (match x with inl a' => inl (a', s) | inr r => inr (r, s) end)) (a, s).

Lemma bindM_run {St A B} (m : M St A) (k : A → M St B) s :
  (m ≫= k) s = ('(a, s) ← m s; k a s).
Proof. done. Qed.

Lemma bindM_Ret {St A B} (m : M St A) (k : A → M St B) s a s' :
  m s = Ret (a, s') → (m ≫= k) s = k a s'.
Proof. intros H. by rewrite bindM_run, H. Qed.

Lemma bindM_Ret_inv {St A B} (m : M St A) (k : A → M St B) s r :
  (m ≫= k) s = Ret r → ∃ a s', m s = Ret (a, s') ∧ k a s' = Ret r.
Proof.
  rewrite bindM_run. intros H. apply bind_Ret_inv in H as ([a s'] & H1 & H2). eauto.
Qed.

Lemma bindM_mret {St A B} (a : A) (k : A → M St B) s : (mret a ≫= k) s = k a s.
Proof. done. Qed.

Lemma mretM {St A} (a : A) (s : St) : mret (M := M St) a s = Ret (a, s).
Proof. done. Qed.

Lemma bindM_lift {St A B} (o : outcome A) (k : A → M St B) s a :
  o = Ret a → (lift o ≫= k) s = k a s.
Proof. by intros ->. Qed.

Lemma ASSERT_ok (P : Prop) `{Decision P} : P → ASSERT P = Ret tt.
Proof. intros. unfold ASSERT. by rewrite decide_True. Qed.

Lemma loopM_S {St A R} n (body : A → M St (A + R)) a s :
  loopM (S n) body a s =
  (body a ≫= λ x, match x with inl a => loopM n body a | inr r => mret r end) s.
Proof.
  unfold loopM at 1. rewrite loop_S, bind_assoc, bindM_run.
  destruct (body a s) as [[[a'|r] s']| | |]; done.
Qed.

Lemma loopM_inl {St A R} n (body : A → M St (A + R)) a s a' s' :
  body a s = Ret (inl a', s') → loopM (S n) body a s = loopM n body a' s'.
Proof. intros E. by rewrite loopM_S, bindM_run, E. Qed.

Lemma loopM_inr {St A R} n (body : A → M St (A + R)) a s r s' :
  body a s = Ret (inr r, s') → loopM (S n) body a s = Ret (r, s').
Proof. intros E. by rewrite loopM_S, bindM_run, E. Qed.

(** ** Reading and writing through a pointer

    A pointer into an object is an offset into the object's content. *)

Definition load (buf : list Z) (p : nat) : outcome Z := of_option (buf !! p).

(** The bytes [bs] stored at offset [p]. *)
Definition fill (p : nat) (bs buf : list Z) : outcome (list Z) :=
  w ← put bs (WCur buf p);
  Ret (wmem w).
#[global] Arguments load : simpl never.
#[global] Arguments fill : simpl never.
#[global] Arguments splice : simpl never.

Lemma fill_ok p bs buf :
  (p + length bs ≤ length buf)%nat → fill p bs buf = Ret (splice p (map u8 bs) buf).
Proof. intros. unfold fill. by rewrite put_spec. Qed.

Lemma fill_start bs buf :
  Forall is_byte bs → (length bs ≤ length buf)%nat →
  fill 0 bs buf = Ret (bs ++ drop (length bs) buf).
Proof. intros. unfold fill. by rewrite put_start. Qed.

Lemma s32_id z : INT_MIN ≤ z ≤ INT_MAX → s32 z = z.
Proof. intros. unfold swrap. ints. rewrite Z.mod_small; lia. Qed.

(** ** Facts about concrete data

    [decided] proves a decidable proposition without variables by running its
    decision procedure. *)
Ltac decided := apply (bool_decide_unpack _); vm_compute; exact I.
