(* ===== verification/MqttPacket.v ===== *)
(** * MQTT packets: the wire primitives

    Models [paho/src/MQTTPacket/src/MQTTPacket.c]: the header byte, the
    remaining-length code, integers and strings on the wire, and the two
    functions that read a whole packet, blocking and non-blocking.

    A [char *] into a buffer is an offset into the buffer's content; reading
    through it is [load], writing is [store].  An [MQTTString] that points into
    a buffer carries the bytes of the buffer from that point on. *)
From S2P Require Import Prelude.

(** ** Data *)

Definition MQTTPACKET_BUFFER_TOO_SHORT : Z := -2.
Definition MQTTPACKET_READ_ERROR : Z := -1.

Definition CONNECT : Z := 1.
Definition CONNACK : Z := 2.
Definition PUBLISH : Z := 3.
Definition PUBACK : Z := 4.
Definition PUBREC : Z := 5.
Definition PUBREL : Z := 6.
Definition PUBCOMP : Z := 7.
Definition SUBSCRIBE : Z := 8.
Definition SUBACK : Z := 9.
Definition UNSUBSCRIBE : Z := 10.
Definition UNSUBACK : Z := 11.
Definition PINGREQ : Z := 12.
Definition PINGRESP : Z := 13.
Definition DISCONNECT : Z := 14.

(** [MQTTHeader]: the byte with the given bit-fields, least significant first
    ([retain], [qos], [dup], [type]); and the fields of a byte. *)
Definition MQTTHeader_byte (type dup qos retain : Z) : Z :=
  field 1 retain + 2 * field 2 qos + 8 * field 1 dup + 16 * field 4 type.
Definition hdr_retain (b : Z) : Z := bits 0 1 b.
Definition hdr_qos (b : Z) : Z := bits 1 2 b.
Definition hdr_dup (b : Z) : Z := bits 3 1 b.
Definition hdr_type (b : Z) : Z := bits 4 4 b.

(** [cstring]: the characters before the terminating NUL, or a null pointer.
    [data]: the bytes of the object from the pointer to its end, or null. *)
Record MQTTString := {
  cstring : option (list Z);
  lenstring_len : Z;
  lenstring_data : option (list Z);
}.

Definition MQTTString_initializer : MQTTString :=
  {| cstring := None; lenstring_len := 0; lenstring_data := None |}.

(** ** The remaining-length code *)

Definition encode_body (s : Z * wcur) : outcome (Z * wcur + wcur) :=
  let '(length, w) := s in
  let d := Z.rem length 128 in
  let length := Z.quot length 128 in
  let d := if decide (0 < length) then Z.lor d 128 else d in
  w ← store d w;
  Ret (if decide (0 < length) then inl (length, w) else inr w).

(** Writes at the cursor; the C result is the distance the cursor moves. An
    [int] has at most five base-128 digits. *)
Definition MQTTPacket_encode (length : Z) (w : wcur) : outcome wcur :=
  loop 5 encode_body (length, w).

Definition MAX_NO_OF_REMAINING_LENGTH_BYTES : Z := 4.

(** [getcharfn src] is the callback's result, the character it stored and the
    source afterwards. *)
Definition decode_body {src : Type} (getcharfn : src → outcome (Z * Z * src))
    (s : Z * Z * Z * src) : outcome (Z * Z * Z * src + Z * Z * src) :=
  let '(len, multiplier, value, g) := s in
  let len := len + 1 in
  if decide (len > MAX_NO_OF_REMAINING_LENGTH_BYTES) then Ret (inr (len, value, g))
  else
    '(rc, c, g) ← getcharfn g;
    if decide (rc ≠ 1) then Ret (inr (len, value, g))
    else
      t ← int (Z.land c 127 * multiplier);
      value ← int (value + t);
      multiplier ← int (multiplier * 128);
      Ret (if decide (Z.land c 128 ≠ 0) then inl (len, multiplier, value, g)
           else inr (len, value, g)).

(** Returns the C result, [*value] and the source. *)
Definition MQTTPacket_decode {src : Type} (getcharfn : src → outcome (Z * Z * src))
    (g : src) : outcome (Z * Z * src) :=
  loop 5 (decode_body getcharfn) (0, 1, 0, g).

Definition MQTTPacket_len (rem_len : Z) : outcome Z :=
  rem_len ← int (rem_len + 1);
  if decide (rem_len < 128) then int (rem_len + 1)
  else if decide (rem_len < 16384) then int (rem_len + 2)
  else if decide (rem_len < 2097151) then int (rem_len + 3)
  else int (rem_len + 4).

(** ** Reading and writing through a pointer *)

(** [bufchar(&c, count)]; the static [bufptr] is the offset. *)
Fixpoint bufchar_loop (buf : list Z) (n : nat) (c : Z) (bufptr : nat) : outcome (Z * nat) :=
  match n with
  | O => Ret (c, bufptr)
  | S n => c ← load buf bufptr; bufchar_loop buf n c (S bufptr)
  end.
Definition bufchar (buf : list Z) (count : Z) (bufptr : nat) : outcome (Z * Z * nat) :=
  '(c, bufptr) ← bufchar_loop buf (Z.to_nat count) 0 bufptr;
  Ret (count, c, bufptr).

Definition MQTTPacket_decodeBuf (buf : list Z) (p : nat) : outcome (Z * Z) :=
  '(len, value, _) ← MQTTPacket_decode (bufchar buf 1) p;
  Ret (len, value).

Definition readInt (buf : list Z) (p : nat) : outcome (Z * nat) :=
  b0 ← load buf p;
  b1 ← load buf (p + 1);
  Ret (256 * b0 + b1, (p + 2)%nat).

(** [readChar] yields the byte; where the code uses the [char] as a number,
    [char_val] gives its value on a platform whose [char] is signed or not. *)
Definition readChar (buf : list Z) (p : nat) : outcome (Z * nat) :=
  c ← load buf p;
  Ret (c, S p).
Definition char_val (char_signed : bool) (c : Z) : Z := if char_signed then s8 c else c.

Definition writeChar (c : Z) (w : wcur) : outcome wcur := store c w.

Definition writeInt (anInt : Z) (w : wcur) : outcome wcur :=
  w ← store (Z.quot anInt 256) w;
  store (Z.rem anInt 256) w.

(** [strlen] converted to [int]. *)
Definition strlen (s : list Z) : Z := s32 (Z.of_nat (length s)).

(** [memcpy(p, src, n); p += n] for an [int] [n]; a negative one is a huge
    [size_t]. *)
Definition memcpy (src : list Z) (n : Z) (w : wcur) : outcome wcur :=
  if decide (0 ≤ n ≤ Z.of_nat (length src)) then put (take (Z.to_nat n) src) w
  else Undef.

Definition writeCString (string : list Z) (w : wcur) : outcome wcur :=
  let len := strlen string in
  w ← writeInt len w;
  memcpy string len w.

Definition getLenStringLen (buf : list Z) (p : nat) : outcome Z :=
  b0 ← load buf p;
  b1 ← load buf (p + 1);
  Ret (256 * b0 + b1).

Definition writeMQTTString (mqttstring : MQTTString) (w : wcur) : outcome wcur :=
  if decide (0 < lenstring_len mqttstring) then
    w ← writeInt (lenstring_len mqttstring) w;
    data ← of_option (lenstring_data mqttstring);
    memcpy data (lenstring_len mqttstring) w
  else
    match cstring mqttstring with
    | Some s => writeCString s w
    | None => writeInt 0 w
    end.

(** Returns the C result, the string and the advanced pointer. *)
Definition readMQTTLenString (mqttstring : MQTTString) (buf : list Z) (p enddata : nat) :
    outcome (Z * MQTTString * nat) :=
  if decide (Z.of_nat enddata - Z.of_nat p > 1) then
    '(len, p) ← readInt buf p;
    if decide (Z.of_nat p + len ≤ Z.of_nat enddata) then
      Ret (1, {| cstring := None; lenstring_len := len;
                 lenstring_data := Some (drop p buf) |}, (p + Z.to_nat len)%nat)
    else
      Ret (0, {| cstring := None; lenstring_len := len;
                 lenstring_data := lenstring_data mqttstring |}, p)
  else
    Ret (0, {| cstring := None; lenstring_len := lenstring_len mqttstring;
               lenstring_data := lenstring_data mqttstring |}, p).

Definition MQTTstrlen (mqttstring : MQTTString) : Z :=
  match cstring mqttstring with
  | Some s => strlen s
  | None => lenstring_len mqttstring
  end.

(** [strncmp(a, b, n) == 0] on the objects the two pointers designate. *)
Fixpoint strncmp_eq (n : nat) (a b : list Z) : outcome bool :=
  match n with
  | O => Ret true
  | S n =>
      match a, b with
      | x :: a, y :: b =>
          if decide (x ≠ y) then Ret false
          else if decide (x = 0) then Ret true
          else strncmp_eq n a b
      | _, _ => Undef
      end
  end.

Definition MQTTPacket_equals (a : MQTTString) (bptr : list Z) : outcome bool :=
  let '(aptr, alen) :=
    match cstring a with
    | Some s => (s ++ [0], strlen s)
    | None => (default [] (lenstring_data a), lenstring_len a)
    end in
  let blen := strlen bptr in
  if decide (alen = blen) then strncmp_eq (Z.to_nat alen) aptr (bptr ++ [0])
  else Ret false.

(** ** Reading a packet from a source

    [getfn g n] is the callback asked for [n] bytes: its result, the bytes it
    stored and the source afterwards. *)

(** The callback asked for one byte, as a [getcharfn]. *)
Definition getchar_of {src : Type} (getfn : src → Z → Z * list Z * src) (g : src) :
    outcome (Z * Z * src) :=
  let '(rc, bs, g) := getfn g 1 in
  Ret (rc, default 0 (head bs), g).

Definition MQTTPacket_read {src : Type} (getfn : src → Z → Z * list Z * src)
    (buf : list Z) (buflen : Z) (g : src) : outcome (Z * list Z * src) :=
  let '(r, bs, g) := getfn g 1 in
  buf ← fill 0 bs buf;
  if decide (r ≠ 1) then Ret (-1, buf, g)
  else
    '(_, rem_len, g) ← MQTTPacket_decode (getchar_of getfn) g;
    w ← MQTTPacket_encode rem_len (WCur buf 1);
    let buf := wmem w in
    let len := Z.of_nat (wpos w) in
    if decide (rem_len + len > buflen) then Ret (-1, buf, g)
    else
      let '(r, bs, g) := getfn g rem_len in
      buf ← fill (Z.to_nat len) bs buf;
      if decide (r ≠ rem_len) then Ret (-1, buf, g)
      else
        b ← load buf 0;
        Ret (hdr_type b, buf, g).

(** [MQTTTransport], without the callback; [sck] is the source. *)
Record MQTTTransport (src : Type) := {
  trp_sck : src;
  trp_multiplier : Z;
  trp_rem_len : Z;
  trp_len : Z;
  trp_state : Z;
}.
Arguments Build_MQTTTransport {src}.
Arguments trp_sck {src}.
Arguments trp_multiplier {src}.
Arguments trp_rem_len {src}.
Arguments trp_len {src}.
Arguments trp_state {src}.

Definition set_state {src} (st : Z) (t : MQTTTransport src) : MQTTTransport src :=
  Build_MQTTTransport (trp_sck t) (trp_multiplier t) (trp_rem_len t) (trp_len t) st.

Definition decodenb_body {src : Type} (getfn : src → Z → Z * list Z * src)
    (trp : MQTTTransport src) :
    outcome (MQTTTransport src + Z * MQTTTransport src) :=
  let trp := Build_MQTTTransport (trp_sck trp) (trp_multiplier trp) (trp_rem_len trp)
               (trp_len trp + 1) (trp_state trp) in
  if decide (trp_len trp > MAX_NO_OF_REMAINING_LENGTH_BYTES) then
    Ret (inr (MQTTPACKET_READ_ERROR, trp))
  else
    let '(frc, bs, g) := getfn (trp_sck trp) 1 in
    let trp := Build_MQTTTransport g (trp_multiplier trp) (trp_rem_len trp)
                 (trp_len trp) (trp_state trp) in
    if decide (frc = -1) then Ret (inr (MQTTPACKET_READ_ERROR, trp))
    else if decide (frc = 0) then Ret (inr (0, trp))
    else
      let c := default 0 (head bs) in
      t ← int (Z.land c 127 * trp_multiplier trp);
      rem_len ← int (trp_rem_len trp + t);
      multiplier ← int (trp_multiplier trp * 128);
      let trp := Build_MQTTTransport g multiplier rem_len (trp_len trp) (trp_state trp) in
      Ret (if decide (Z.land c 128 ≠ 0) then inl trp else inr (trp_len trp, trp)).

Definition MQTTPacket_decodenb {src : Type} (getfn : src → Z → Z * list Z * src)
    (trp : MQTTTransport src) : outcome (Z * MQTTTransport src) :=
  let trp :=
    if decide (trp_len trp = 0)
    then Build_MQTTTransport (trp_sck trp) 1 0 (trp_len trp) (trp_state trp)
    else trp in
  loop 5 (decodenb_body getfn) trp.

(** The [case] labels of [MQTTPacket_readnb], each falling through to the
    next.  [readnb_exit] is the code at label [exit]. *)
Definition readnb_exit {src} (rc : Z) (buf : list Z) (trp : MQTTTransport src) :
    outcome (Z * list Z * MQTTTransport src) :=
  Ret (rc, buf, set_state 0 trp).

Definition readnb_case2 {src : Type} (getfn : src → Z → Z * list Z * src)
    (buf : list Z) (buflen : Z) (trp : MQTTTransport src) :
    outcome (Z * list Z * MQTTTransport src) :=
  let '(frc, bs, g) := getfn (trp_sck trp) (trp_rem_len trp) in
  buf ← fill (Z.to_nat (trp_len trp)) bs buf;
  let trp := Build_MQTTTransport g (trp_multiplier trp) (trp_rem_len trp)
               (trp_len trp) (trp_state trp) in
  if decide (frc = -1) then readnb_exit (-1) buf trp
  else if decide (frc = 0) then Ret (0, buf, trp)
  else
    let trp := Build_MQTTTransport g (trp_multiplier trp) (trp_rem_len trp - frc)
                 (trp_len trp + frc) (trp_state trp) in
    if decide (trp_rem_len trp ≠ 0) then Ret (0, buf, trp)
    else
      b ← load buf 0;
      readnb_exit (hdr_type b) buf trp.

Definition readnb_case1 {src : Type} (getfn : src → Z → Z * list Z * src)
    (buf : list Z) (buflen : Z) (trp : MQTTTransport src) :
    outcome (Z * list Z * MQTTTransport src) :=
  '(frc, trp) ← MQTTPacket_decodenb getfn trp;
  if decide (frc = MQTTPACKET_READ_ERROR) then readnb_exit (-1) buf trp
  else if decide (frc = 0) then Ret (0, buf, trp)
  else
    w ← MQTTPacket_encode (trp_rem_len trp) (WCur buf 1);
    let trp := Build_MQTTTransport (trp_sck trp) (trp_multiplier trp) (trp_rem_len trp)
                 (Z.of_nat (wpos w)) (trp_state trp) in
    if decide (trp_rem_len trp + trp_len trp > buflen) then readnb_exit (-1) (wmem w) trp
    else readnb_case2 getfn (wmem w) buflen (set_state (trp_state trp + 1) trp).

Definition readnb_case0 {src : Type} (getfn : src → Z → Z * list Z * src)
    (buf : list Z) (buflen : Z) (trp : MQTTTransport src) :
    outcome (Z * list Z * MQTTTransport src) :=
  let '(frc, bs, g) := getfn (trp_sck trp) 1 in
  buf ← fill 0 bs buf;
  let trp := Build_MQTTTransport g (trp_multiplier trp) (trp_rem_len trp)
               (trp_len trp) (trp_state trp) in
  if decide (frc = -1) then readnb_exit (-1) buf trp
  else if decide (frc = 0) then Ret (0, buf, trp)
  else
    readnb_case1 getfn buf buflen
      (Build_MQTTTransport g (trp_multiplier trp) (trp_rem_len trp) 0 (trp_state trp + 1)).

Definition MQTTPacket_readnb {src : Type} (getfn : src → Z → Z * list Z * src)
    (buf : list Z) (buflen : Z) (trp : MQTTTransport src) :
    outcome (Z * list Z * MQTTTransport src) :=
  if decide (trp_state trp = 1) then readnb_case1 getfn buf buflen trp
  else if decide (trp_state trp = 2) then readnb_case2 getfn buf buflen trp
  else readnb_case0 getfn buf buflen (set_state 0 trp).

(** ** Reference definitions *)

(** The remaining-length code of MQTT: base-128 digits, least significant
    first, the top bit set on all but the last. *)
Fixpoint remaining_length (k : nat) (n : Z) : list Z :=
  match k with
  | O => []
  | S k => if decide (n < 128) then [n] else (n mod 128 + 128) :: remaining_length k (n / 128)
  end.
Definition rl_bytes (n : Z) : list Z := remaining_length 5 n.

(** The bytes of a string, and its encoding on the wire. *)
Definition MQTTString_bytes (s : MQTTString) : list Z :=
  if decide (0 < lenstring_len s)
  then take (Z.to_nat (lenstring_len s)) (default [] (lenstring_data s))
  else default [] (cstring s).
Definition utf_bytes (bs : list Z) : list Z := be16 (Z.of_nat (length bs)) ++ bs.
#[global] Arguments utf_bytes : simpl never.
#[global] Arguments rl_bytes : simpl never.

(** A source that holds bytes and never blocks. *)
Definition read_list (g : list Z) (n : Z) : Z * list Z * list Z :=
  let bs := take (Z.to_nat n) g in
  (Z.of_nat (length bs), bs, drop (Z.to_nat n) g).

#[global] Arguments MQTTPacket_encode : simpl never.
#[global] Arguments MQTTPacket_decode : simpl never.
#[global] Arguments MQTTPacket_decodeBuf : simpl never.
#[global] Arguments MQTTPacket_len : simpl never.
#[global] Arguments MQTTPacket_decodenb : simpl never.
#[global] Arguments readInt : simpl never.
#[global] Arguments readChar : simpl never.
#[global] Arguments readMQTTLenString : simpl never.
#[global] Arguments writeMQTTString : simpl never.
#[global] Arguments bits : simpl never.
#[global] Arguments field : simpl never.

(** ** Bit fields of the header byte *)

Lemma bits_0 w z : 0 ≤ w → bits 0 w z = z mod 2 ^ w.
Proof. intros. unfold bits. by rewrite Z.shiftr_0_r, Z.land_ones. Qed.

Lemma bits_div lo w z : 0 ≤ lo → 0 ≤ w → bits lo w z = (z / 2 ^ lo) mod 2 ^ w.
Proof. intros. unfold bits. by rewrite Z.shiftr_div_pow2, Z.land_ones. Qed.

Lemma MQTTHeader_byte_range t d q r : is_byte (MQTTHeader_byte t d q r).
Proof.
  unfold MQTTHeader_byte, field, is_byte. change (2 ^ 1) with 2.
  change (2 ^ 2) with 4. change (2 ^ 4) with 16.
  pose proof (Z.mod_pos_bound r 2). pose proof (Z.mod_pos_bound q 4).
  pose proof (Z.mod_pos_bound d 2). pose proof (Z.mod_pos_bound t 16). lia.
Qed.

Lemma MQTTHeader_fields t d q r :
  hdr_type (MQTTHeader_byte t d q r) = field 4 t ∧
  hdr_dup (MQTTHeader_byte t d q r) = field 1 d ∧
  hdr_qos (MQTTHeader_byte t d q r) = field 2 q ∧
  hdr_retain (MQTTHeader_byte t d q r) = field 1 r.
Proof.
  unfold hdr_type, hdr_dup, hdr_qos, hdr_retain. rewrite !bits_div by lia.
  unfold MQTTHeader_byte, field. change (2 ^ 0) with 1. change (2 ^ 1) with 2.
  change (2 ^ 2) with 4. change (2 ^ 3) with 8. change (2 ^ 4) with 16.
  pose proof (Z.mod_pos_bound r 2). pose proof (Z.mod_pos_bound q 4).
  pose proof (Z.mod_pos_bound d 2). pose proof (Z.mod_pos_bound t 16).
  repeat split; Z.to_euclidean_division_equations; lia.
Qed.

(** ** The remaining-length code *)

Lemma lor_128 d : 0 ≤ d < 128 → Z.lor d 128 = d + 128.
Proof.
  intros Hd. apply Z.eqb_eq.
  assert (H : (negb (d <? 128) || (Z.lor d 128 =? d + 128))%bool = true).
  { apply (byte_all (λ d, negb (d <? 128) || (Z.lor d 128 =? d + 128))%bool);
      [by vm_compute|ints; lia]. }
  apply orb_true_iff in H as [H|H]; [|done].
  apply negb_true_iff, Z.ltb_ge in H. lia.
Qed.

Lemma land_127 d : 0 ≤ d → Z.land d 127 = d mod 128.
Proof. intros. change 127 with (Z.ones 7). by rewrite Z.land_ones. Qed.

Lemma land_128 b : is_byte b → Z.land b 128 = if b <? 128 then 0 else 128.
Proof.
  intros Hb. apply Z.eqb_eq.
  apply (byte_all (λ b, Z.land b 128 =? if b <? 128 then 0 else 128)); [|done].
  by vm_compute.
Qed.

Lemma remaining_length_S k n :
  remaining_length (S k) n =
  if decide (n < 128) then [n] else (n mod 128 + 128) :: remaining_length k (n / 128).
Proof. done. Qed.

Lemma remaining_length_bytes k n : 0 ≤ n → Forall is_byte (remaining_length k n).
Proof.
  revert n. induction k as [|k IH]; intros n Hn; cbn; [constructor|].
  case_decide; apply Forall_cons; split.
  - ints. lia.
  - constructor.
  - pose proof (Z.mod_pos_bound n 128). ints. lia.
  - apply IH. apply Z.div_pos; lia.
Qed.

Lemma encode_body_small n w :
  0 ≤ n < 128 → encode_body (n, w) = (w ← store n w; Ret (inr w)).
Proof.
  intros. unfold encode_body.
  rewrite Z.quot_div_nonneg, Z.rem_mod_nonneg by lia.
  by rewrite (Z.div_small n 128), (Z.mod_small n 128) by lia.
Qed.

Lemma encode_body_large n w :
  128 ≤ n →
  encode_body (n, w) = (w ← store (n mod 128 + 128) w; Ret (inl (n / 128, w))).
Proof.
  intros. unfold encode_body.
  rewrite Z.quot_div_nonneg, Z.rem_mod_nonneg by lia.
  assert (0 < n / 128) by (apply Z.div_str_pos; lia).
  rewrite decide_True by done.
  rewrite lor_128 by (apply Z.mod_pos_bound; lia).
  apply bind_ext. intros w'. by rewrite decide_True.
Qed.

Lemma encode_loop_put k n w :
  0 ≤ n < 128 ^ Z.of_nat (S k) →
  loop (S k) encode_body (n, w) = put (remaining_length (S k) n) w.
Proof.
  revert n w. induction k as [|k IH]; intros n w Hn.
  - change (128 ^ Z.of_nat 1) with 128 in Hn.
    rewrite loop_S, encode_body_small by lia. cbn [remaining_length].
    rewrite decide_True, put_one by lia. by destruct (store n w).
  - rewrite loop_S. cbn [remaining_length]. destruct (decide (n < 128)).
    + rewrite encode_body_small, put_one by lia. by destruct (store n w).
    + rewrite encode_body_large, put_cons, bind_assoc by lia.
      apply bind_ext. intros w'. rewrite bind_Ret. apply IH.
      split; [apply Z.div_pos; lia|]. apply Z.div_lt_upper_bound; [lia|].
      rewrite <- Z.pow_succ_r by lia. rewrite <- Nat2Z.inj_succ. apply Hn.
Qed.

Lemma encode_put n w : 0 ≤ n ≤ INT_MAX → MQTTPacket_encode n w = put (rl_bytes n) w.
Proof.
  intros. apply encode_loop_put. change (128 ^ Z.of_nat 5) with 34359738368. ints. lia.
Qed.

(** A length of one digit. *)
Lemma encode_digit n w : 0 ≤ n < 128 → MQTTPacket_encode n w = put [n] w.
Proof.
  intros. rewrite encode_put by (ints; lia). unfold rl_bytes.
  rewrite remaining_length_S. by rewrite decide_True by lia.
Qed.

Lemma length_rl n :
  0 ≤ n ≤ INT_MAX →
  Z.of_nat (length (rl_bytes n)) =
    if decide (n < 128) then 1 else if decide (n < 16384) then 2
    else if decide (n < 2097152) then 3 else if decide (n < 268435456) then 4 else 5.
Proof.
  intros Hn. ints. unfold rl_bytes. cbn.
  repeat case_decide; try done; exfalso;
    repeat match goal with H : context [_ / _] |- _ => revert H end;
    Z.to_euclidean_division_equations; lia.
Qed.

Lemma rl_bytes_bytes n : 0 ≤ n → Forall is_byte (rl_bytes n).
Proof. apply remaining_length_bytes. Qed.

(** [feeds getc g bs g']: asked repeatedly, the callback delivers [bs]. *)
Fixpoint feeds {src : Type} (getc : src → outcome (Z * Z * src)) (g : src)
    (bs : list Z) (g' : src) : Prop :=
  match bs with
  | [] => g = g'
  | b :: bs => ∃ g1, getc g = Ret (1, b, g1) ∧ feeds getc g1 bs g'
  end.

Section decode.
Context {src : Type} (getc : src → outcome (Z * Z * src)).

(** One digit of the code, with [m = 128^i] the weight it has. *)
Lemma decode_body_digit len m v b g g1 :
  0 ≤ len < 4 → 0 ≤ v → is_byte b → 0 < m ≤ 2097152 → v + 127 * m ≤ 268435455 →
  getc g = Ret (1, b, g1) →
  decode_body getc (len, m, v, g) =
    Ret (if b <? 128 then inr (len + 1, v + b mod 128 * m, g1)
         else inl (len + 1, m * 128, v + b mod 128 * m, g1)).
Proof.
  intros Hl Hv Hb Hm Hvm Hg. unfold decode_body.
  unfold MAX_NO_OF_REMAINING_LENGTH_BYTES. rewrite decide_False by lia.
  rewrite Hg. cbn. rewrite land_127 by (ints; lia).
  pose proof (Z.mod_pos_bound b 128).
  assert (0 ≤ b mod 128 * m ≤ 127 * m) by nia.
  int_steps. rewrite land_128 by done.
  by destruct (b <? 128); dec.
Qed.

(** A loop whose iterations each consume one digit reads a whole number;
    [mk] and [fin] are its running and final states.  Shared by the blocking
    and the non-blocking decoder. *)
Lemma digits_loop {St R : Type} (body : St → outcome (St + R))
    (mk : Z → Z → Z → src → St) (fin : Z → Z → Z → src → R) :
  (∀ len m v b g g1,
     0 ≤ len < 4 → 0 ≤ v → is_byte b → 0 < m ≤ 2097152 → v + 127 * m ≤ 268435455 →
     getc g = Ret (1, b, g1) →
     body (mk len m v g) =
       Ret (if b <? 128 then inr (fin (len + 1) (m * 128) (v + b mod 128 * m) g1)
            else inl (mk (len + 1) (m * 128) (v + b mod 128 * m) g1))) →
  ∀ k n len m v g g',
  0 ≤ n < 128 ^ Z.of_nat (S k) → m * 128 ^ Z.of_nat (S k) ≤ 268435456 → 0 < m →
  len + Z.of_nat (S k) ≤ 4 → 0 ≤ len → 0 ≤ v < m →
  feeds getc g (remaining_length (S k) n) g' →
  loop (S k) body (mk len m v g) =
    Ret (fin (len + Z.of_nat (length (remaining_length (S k) n)))
          (m * 128 ^ Z.of_nat (length (remaining_length (S k) n))) (v + n * m) g').
Proof.
  intros Hbody. induction k as [|k IH]; intros n len m v g g' Hn Hm Hm0 Hl Hl0 Hv Hf.
  - change (128 ^ Z.of_nat 1) with 128 in *. rewrite remaining_length_S in *.
    rewrite decide_True in * by lia. destruct Hf as (g1 & Hg & <-).
    rewrite loop_S, (Hbody len m v n g g1) by (ints; done || lia).
    destruct (n <? 128) eqn:E; [|lia]. cbn. by rewrite Z.mod_small by lia.
  - assert (128 * 128 ^ Z.of_nat (S k) = 128 ^ Z.of_nat (S (S k))) as Hpow.
    { rewrite <- Z.pow_succ_r by lia. by rewrite <- Nat2Z.inj_succ. }
    assert (0 < 128 ^ Z.of_nat (S k)) by (apply Z.pow_pos_nonneg; lia).
    assert (1 ≤ 128 ^ Z.of_nat k) by (apply Z.lt_pred_le, Z.pow_pos_nonneg; lia).
    assert (128 * 128 ^ Z.of_nat k = 128 ^ Z.of_nat (S k)) as Hpow'.
    { rewrite <- Z.pow_succ_r by lia. by rewrite <- Nat2Z.inj_succ. }
    rewrite loop_S. rewrite (remaining_length_S (S k) n) in *.
    destruct (decide (n < 128)) as [Hs|Hs].
    + destruct Hf as (g1 & Hg & <-).
      rewrite (Hbody len m v n g g1) by (ints; done || nia).
      destruct (n <? 128) eqn:E; [|lia]. cbn. by rewrite Z.mod_small by lia.
    + destruct Hf as (g1 & Hg & Hf). pose proof (Z.mod_pos_bound n 128).
      rewrite (Hbody len m v (n mod 128 + 128) g g1) by (ints; done || nia).
      destruct (n mod 128 + 128 <? 128) eqn:E; [lia|]. rewrite bind_Ret.
      replace ((n mod 128 + 128) mod 128) with (n mod 128)
        by (Z.to_euclidean_division_equations; lia).
      rewrite IH with (n := n / 128) (g' := g'); [|..|exact Hf]; try nia.
      * cbn [length]. rewrite Nat2Z.inj_succ, Z.pow_succ_r by lia.
        f_equal. f_equal; [lia|lia|]. pose proof (Z.div_mod n 128). nia.
      * split; [apply Z.div_pos; lia|]. apply Z.div_lt_upper_bound; lia.
Qed.
End decode.

Lemma remaining_length_fuel k n :
  0 ≤ n < 128 ^ Z.of_nat (S k) → remaining_length (S (S k)) n = remaining_length (S k) n.
Proof.
  revert n. induction k as [|k IH]; intros n Hn.
  - change (128 ^ Z.of_nat 1) with 128 in Hn. cbn. by dec.
  - rewrite (remaining_length_S (S (S k)) n), (remaining_length_S (S k) n).
    destruct (decide (n < 128)) as [|Hs]; [done|]. f_equal. apply IH. split; [apply Z.div_pos; lia|].
    apply Z.div_lt_upper_bound; [lia|].
    rewrite <- Z.pow_succ_r by lia. rewrite <- Nat2Z.inj_succ. apply Hn.
Qed.

Section decode_spec.
Context {src : Type} (getc : src → outcome (Z * Z * src)).

(** The decoder inverts the encoder up to the largest MQTT length. *)
Lemma decode_rl n g g' :
  0 ≤ n < 268435456 → feeds getc g (rl_bytes n) g' →
  MQTTPacket_decode getc g = Ret (Z.of_nat (length (rl_bytes n)), n, g').
Proof.
  intros Hn Hf. unfold rl_bytes in *. rewrite remaining_length_fuel in * by done.
  assert (loop 4 (decode_body getc) (0, 1, 0, g) =
    Ret (0 + Z.of_nat (length (remaining_length 4 n)), 0 + n * 1, g')) as H.
  { apply (digits_loop getc (decode_body getc) (λ len m v g, (len, m, v, g))
      (λ len _ v g, (len, v, g))); try done; try lia. apply decode_body_digit. }
  unfold MQTTPacket_decode. rewrite (loop_mono 4 5) by (rewrite ?H; done || lia).
  rewrite H. do 3 f_equal. lia.
Qed.

(** On any input the decoder returns, and its results are bounded. *)
Lemma decode_total (I : src → Prop) g :
  (∀ g, I g → ∃ rc c g', getc g = Ret (rc, c, g') ∧ I g' ∧ is_byte c) → I g →
  ∃ len v g', MQTTPacket_decode getc g = Ret (len, v, g') ∧
    1 ≤ len ≤ 5 ∧ 0 ≤ v < 268435456 ∧ I g'.
Proof.
  intros Hc Hg.
  set (Inv := λ s : Z * Z * Z * src, let '(len, m, v, g) := s in
     0 ≤ len ≤ 4 ∧ m = 128 ^ len ∧ 0 ≤ v < m ∧ I g).
  set (Q := λ r : Z * Z * src, let '(len, v, g) := r in
     1 ≤ len ≤ 5 ∧ 0 ≤ v < 268435456 ∧ I g).
  set (μ := λ s : Z * Z * Z * src, let '(len, _, _, _) := s in Z.to_nat (4 - len)).
  destruct (loop_total Inv Q μ (decode_body getc)) with
    (n := 5%nat) (s := (0, 1, 0, g)) as ([[len v] g'] & Hr & HQ).
  - intros [[[len m] v] h] (Hl & -> & Hv & Hh).
    unfold decode_body, MAX_NO_OF_REMAINING_LENGTH_BYTES. case_decide.
    { assert (len = 4) as -> by lia. eexists. split; [done|].
      change (128 ^ 4) with 268435456 in Hv. cbn. repeat split; try lia. done. }
    destruct (Hc h Hh) as (rc & c & h' & -> & Hh' & Hcb). cbn.
    assert (128 ^ (len + 1) = 128 ^ len * 128) as Hp.
    { rewrite Z.add_1_r, Z.pow_succ_r by lia. lia. }
    assert (0 < 128 ^ len ≤ 2097152).
    { split; [apply Z.pow_pos_nonneg; lia|].
      change 2097152 with (128 ^ 3). apply Z.pow_le_mono_r; lia. }
    case_decide.
    { eexists. split; [done|]. cbn. repeat split; try lia. done. }
    rewrite land_127 by (ints; lia). pose proof (Z.mod_pos_bound c 128).
    assert (0 ≤ c mod 128 * 128 ^ len ≤ 127 * 128 ^ len) by nia.
    int_steps.
    case_decide; (eexists; split; [done|]); cbn.
    + repeat split; try lia; done.
    + repeat split; try lia; done.
  - cbn. repeat split; try lia. done.
  - cbn. lia.
  - exists len, v, g'. split; [done|]. apply HQ.
Qed.
End decode_spec.

(** ** [MQTTPacket_len] *)

(** The bytes a packet with remaining length [n] takes on the wire. *)
Definition packet_size (n : Z) : Z := 1 + Z.of_nat (length (rl_bytes n)) + n.

Lemma MQTTPacket_len_bounds n :
  0 ≤ n < 268435456 →
  ∃ L, MQTTPacket_len n = Ret L ∧ packet_size n ≤ L ≤ packet_size n + 1.
Proof.
  intros Hn. unfold MQTTPacket_len, packet_size. rewrite length_rl by (ints; lia).
  rewrite int_ok by (ints; lia). cbn.
  repeat case_decide; try lia; rewrite int_ok by (ints; lia); eexists; (split; [done|lia]).
Qed.

(** ** Strings on the wire *)

Lemma strlen_ok s : Z.of_nat (length s) ≤ INT_MAX → strlen s = Z.of_nat (length s).
Proof. intros. apply s32_id. ints. lia. Qed.

Lemma writeInt_put n w : is_u16 n → writeInt n w = put (be16 n) w.
Proof.
  intros Hn. unfold writeInt, be16.
  rewrite Z.quot_div_nonneg, Z.rem_mod_nonneg by (ints; lia).
  transitivity (put [n / 256; n mod 256] w).
  { cbn. apply bind_ext. intros w'. by destruct (store (n mod 256) w'). }
  rewrite <- put_u8. cbn [map].
  by replace (u8 (n mod 256)) with (u8 n) by (symmetry; apply Zmod_mod).
Qed.

Lemma memcpy_put bs n w :
  n = Z.of_nat (length bs) → memcpy bs n w = put bs w.
Proof. intros ->. unfold memcpy. dec. by rewrite Nat2Z.id, take_ge by lia. Qed.

Lemma memcpy_take bs n w :
  0 ≤ n ≤ Z.of_nat (length bs) → memcpy bs n w = put (take (Z.to_nat n) bs) w.
Proof. intros. unfold memcpy. by dec. Qed.

Lemma writeCString_put s w :
  Z.of_nat (length s) < 65536 → writeCString s w = put (utf_bytes s) w.
Proof.
  intros Hs. unfold writeCString, utf_bytes. rewrite strlen_ok by (ints; lia).
  rewrite put_app, writeInt_put by (ints; lia). apply bind_ext. intros w'.
  by apply memcpy_put.
Qed.

(** A string the writers can write: at most 65535 bytes, all of them there, and
    given in one of the two ways only. *)
Definition wf_string (s : MQTTString) : Prop :=
  Forall is_byte (MQTTString_bytes s) ∧
  Z.of_nat (length (MQTTString_bytes s)) < 65536 ∧
  0 ≤ lenstring_len s ∧
  (cstring s = None ∨ lenstring_len s = 0) ∧
  (0 < lenstring_len s →
     match lenstring_data s with
     | Some d => lenstring_len s ≤ Z.of_nat (length d)
     | None => False
     end).

#[export] Instance wf_string_dec s : Decision (wf_string s).
Proof. unfold wf_string. destruct (lenstring_data s); apply _. Defined.

Lemma writeMQTTString_put s w :
  wf_string s → writeMQTTString s w = put (utf_bytes (MQTTString_bytes s)) w.
Proof.
  intros (_ & Hs & _ & _ & Hd). unfold writeMQTTString, MQTTString_bytes in *. case_decide as Hl.
  - specialize (Hd Hl). destruct (lenstring_data s) as [d|]; [|done]. cbn in *.
    assert (length (take (Z.to_nat (lenstring_len s)) d) = Z.to_nat (lenstring_len s))
      as Hlen by (rewrite length_take; lia).
    rewrite writeInt_put by (ints; lia). unfold utf_bytes.
    rewrite Hlen, Z2Nat.id, put_app by lia. apply bind_ext. intros w'.
    apply memcpy_take. lia.
  - destruct (cstring s) as [c|]; cbn in *.
    + by apply writeCString_put.
    + by rewrite writeInt_put.
Qed.

Lemma MQTTstrlen_ok s :
  wf_string s → MQTTstrlen s = Z.of_nat (length (MQTTString_bytes s)).
Proof.
  intros (_ & Hl & Hl0 & Hor & Hd). unfold MQTTstrlen, MQTTString_bytes in *.
  destruct (cstring s) as [c|].
  - destruct Hor as [?|H0]; [done|]. rewrite H0 in *. rewrite decide_False in * by lia.
    cbn in *. apply strlen_ok. ints. lia.
  - case_decide as Hp; [|cbn; lia].
    specialize (Hd Hp). destruct (lenstring_data s) as [d|]; [|done]. cbn in *.
    rewrite length_take. lia.
Qed.

(** The strings the readers return are strings the writers accept. *)
Lemma wf_read_string bs s :
  Forall is_byte bs → Z.of_nat (length bs) < 65536 →
  wf_string
    {| cstring := None; lenstring_len := Z.of_nat (length bs);
       lenstring_data := Some (bs ++ s) |}.
Proof.
  intros Hb Hl. unfold wf_string, MQTTString_bytes. cbn [cstring lenstring_len lenstring_data].
  rewrite Nat2Z.id. cbn. rewrite take_app_length.
  repeat split; try lia; [by case_decide|by case_decide; cbn; lia|by left|].
  intros _. rewrite length_app. lia.
Qed.

Lemma utf_bytes_bytes bs : Forall is_byte bs → Forall is_byte (utf_bytes bs).
Proof. intros. apply Forall_app. split; [apply be16_bytes|done]. Qed.

Lemma length_utf bs : length (utf_bytes bs) = (2 + length bs)%nat.
Proof. done. Qed.
#[export] Hint Rewrite length_utf : len.

(** ** Reading back what was written

    [drop p buf = s] says that the bytes from the pointer on are [s]. *)

Lemma load_drop buf p b s : drop p buf = b :: s → load buf p = Ret b.
Proof. intros [H _]%drop_cons_lookup. unfold load. by rewrite H. Qed.

Lemma readChar_drop buf p b s : drop p buf = b :: s → readChar buf p = Ret (b, S p).
Proof. intros H. unfold readChar. by rewrite (load_drop _ _ _ _ H). Qed.

Lemma readInt_drop buf p n s :
  is_u16 n → drop p buf = be16 n ++ s → readInt buf p = Ret (n, (p + 2)%nat).
Proof.
  intros Hn H. unfold readInt, be16 in *. cbn in H.
  rewrite (load_drop _ _ _ _ H). cbn.
  apply drop_cons_lookup in H as [_ H]. rewrite <- Nat.add_1_r in H.
  rewrite (load_drop _ _ _ _ H). cbn. by rewrite be16_decode, u16_id.
Qed.

(** The string a reader returns for [bs] with [s] behind it in the buffer. *)
Definition read_string (bs s : list Z) : MQTTString :=
  {| cstring := None; lenstring_len := Z.of_nat (length bs);
     lenstring_data := Some (bs ++ s) |}.

Lemma readMQTTLenString_drop ms buf p e bs s :
  drop p buf = utf_bytes bs ++ s → Z.of_nat (length bs) < 65536 →
  (p + 2 + length bs ≤ e)%nat →
  readMQTTLenString ms buf p e = Ret (1, read_string bs s, (p + 2 + length bs)%nat).
Proof.
  intros H Hl He. unfold readMQTTLenString. dec.
  unfold utf_bytes in H. rewrite <- app_assoc in H.
  rewrite (readInt_drop _ _ (Z.of_nat (length bs)) (bs ++ s)) by (done || ints; lia).
  cbn. dec.
  apply drop_app_cut in H. rewrite length_be16 in H. rewrite H.
  by rewrite Nat2Z.id.
Qed.

Lemma MQTTString_bytes_read bs s : MQTTString_bytes (read_string bs s) = bs.
Proof.
  unfold MQTTString_bytes. cbn. case_decide.
  - by rewrite Nat2Z.id, take_app_length.
  - destruct bs; [done|cbn in *; lia].
Qed.

Lemma feeds_bufchar buf p bs s :
  drop p buf = bs ++ s → feeds (bufchar buf 1) p bs (p + length bs)%nat.
Proof.
  revert p. induction bs as [|b bs IH]; intros p H; cbn in *; [lia|].
  exists (S p). unfold bufchar. change (Z.to_nat 1) with 1%nat. cbn [bufchar_loop].
  rewrite (load_drop _ _ _ _ H). split; [done|].
  apply drop_cons_lookup in H as [_ H].
  replace (p + S (length bs))%nat with (S p + length bs)%nat by lia. auto.
Qed.

Lemma decodeBuf_drop buf p n s :
  0 ≤ n < 268435456 → drop p buf = rl_bytes n ++ s →
  MQTTPacket_decodeBuf buf p = Ret (Z.of_nat (length (rl_bytes n)), n).
Proof.
  intros Hn H. unfold MQTTPacket_decodeBuf.
  by rewrite (decode_rl _ _ _ _ Hn (feeds_bufchar _ _ _ _ H)).
Qed.

(** ** String comparison *)

Lemma strncmp_eq_take n a b :
  (n ≤ length a)%nat → (n ≤ length b)%nat → Forall (λ c, c ≠ 0) (take n b) →
  strncmp_eq n a b = Ret (bool_decide (take n a = take n b)).
Proof.
  revert a b. induction n as [|n IH]; intros [|x a] [|y b] Ha Hb Hz; cbn in *; try lia.
  - done.
  - done.
  - done.
  - done.
  - apply Forall_cons in Hz as [Hy Hz]. case_decide as Hxy.
    + rewrite bool_decide_eq_false_2; [done|]. by intros [= ? ?].
    + assert (x = y) as -> by (destruct (decide (x = y)); tauto).
      rewrite decide_False by done. rewrite IH by (done || lia). f_equal.
      apply bool_decide_ext. split; [by intros ->|by intros [=]].
Qed.

Lemma MQTTPacket_equals_spec a b :
  wf_string a → Forall (λ c, c ≠ 0) b → Z.of_nat (length b) ≤ INT_MAX →
  MQTTPacket_equals a b = Ret (bool_decide (MQTTString_bytes a = b)).
Proof.
  intros (_ & Hl & Hl0 & Hor & Hd) Hb Hlen.
  unfold MQTTPacket_equals, MQTTString_bytes in *.
  rewrite (strlen_ok b) by done.
  assert (take (length b) (b ++ [0]) = b) as Htb by apply take_app_length.
  destruct (cstring a) as [s|] eqn:Ec.
  - destruct Hor as [?|H0]; [done|]. rewrite H0 in *. rewrite decide_False in * by lia.
    cbn in *. rewrite strlen_ok by (ints; lia). case_decide as E.
    + rewrite E, Nat2Z.id. rewrite strncmp_eq_take by (rewrite ?Htb; try done; len).
      f_equal. apply bool_decide_ext. case_decide; [lia|].
      apply Nat2Z.inj in E. by rewrite Htb, <- E, take_app_length.
    + rewrite bool_decide_eq_false_2; [done|]. case_decide; [lia|]. by intros ->.
  - case_decide as Hp.
    + specialize (Hd Hp). destruct (lenstring_data a) as [d|]; [|done]. cbn in *.
      case_decide as E.
      * assert (Z.to_nat (lenstring_len a) = length b) as Hn by lia.
        rewrite Hn in *. rewrite strncmp_eq_take by (rewrite ?Htb; try done; len).
        by rewrite Htb.
      * rewrite bool_decide_eq_false_2; [done|]. intros <-. apply E.
        rewrite length_take. lia.
    + assert (lenstring_len a = 0) as -> by lia. case_decide as E.
      * destruct b; [|cbn in *; lia]. done.
      * rewrite bool_decide_eq_false_2; [done|]. cbn. intros <-. done.
Qed.

(** ** Reading a packet *)

(** The contract of a [getfn]: it stores at most the bytes asked for, all of
    them bytes, and returns their number unless it fails. *)
Definition getfn_ok {src : Type} (getfn : src → Z → Z * list Z * src) : Prop :=
  ∀ g n rc bs g', 0 ≤ n → getfn g n = (rc, bs, g') →
    Forall is_byte bs ∧ Z.of_nat (length bs) ≤ n ∧
    (rc = -1 ∨ rc = Z.of_nat (length bs)).

Lemma rl_bytes_length n :
  0 ≤ n < 268435456 → (1 ≤ length (rl_bytes n) ≤ 4)%nat.
Proof.
  intros Hn. pose proof (length_rl n ltac:(ints; lia)) as H.
  repeat case_decide; lia.
Qed.

Section read.
Context {src : Type} (getfn : src → Z → Z * list Z * src) (Hok : getfn_ok getfn).

Lemma getchar_of_ok g :
  ∃ rc c g', getchar_of getfn g = Ret (rc, c, g') ∧ True ∧ is_byte c.
Proof.
  unfold getchar_of. destruct (getfn g 1) as [[rc bs] g'] eqn:E.
  do 3 eexists. split; [done|]. split; [done|].
  destruct (Hok g 1 rc bs g' ltac:(lia) E) as (Hb & _).
  destruct Hb as [|b bs Hb]; [by ints|done].
Qed.

Lemma fill_byte g buf rc bs g' :
  getfn g 1 = (rc, bs, g') → (0 < length buf)%nat →
  ∃ buf', fill 0 bs buf = Ret buf' ∧ length buf' = length buf.
Proof.
  intros E Hl. destruct (Hok g 1 rc bs g' ltac:(lia) E) as (_ & Hn & _).
  exists (splice 0 (map u8 bs) buf). split.
  - apply fill_ok. lia.
  - apply length_splice. rewrite length_map. lia.
Qed.

Lemma encode_room n buf :
  0 ≤ n < 268435456 → (5 ≤ length buf)%nat →
  ∃ buf', MQTTPacket_encode n (WCur buf 1) =
    Ret (WCur buf' (1 + length (rl_bytes n))) ∧ length buf' = length buf.
Proof.
  intros Hn Hl. pose proof (rl_bytes_length n Hn).
  rewrite encode_put by (ints; lia). rewrite put_spec by (cbn; lia). cbn.
  eexists. split; [done|]. apply length_splice. rewrite length_map. lia.
Qed.

(** Whatever the source sends, the blocking reader stays inside a buffer of
    at least five bytes whose size it was told. *)
Lemma MQTTPacket_read_safe buf buflen g :
  (5 ≤ length buf)%nat → buflen ≤ Z.of_nat (length buf) →
  ∃ rc buf' g', MQTTPacket_read getfn buf buflen g = Ret (rc, buf', g') ∧
    -1 ≤ rc < 16 ∧ length buf' = length buf.
Proof.
  intros H5 Hbl. unfold MQTTPacket_read.
  destruct (getfn g 1) as [[r bs] g1] eqn:E1.
  destruct (fill_byte g buf r bs g1 E1 ltac:(lia)) as (buf1 & -> & Hl1). cbn.
  case_decide; [repeat eexists; lia|].
  destruct (decode_total (getchar_of getfn) (λ _, True) g1) as
    (len & v & g2 & -> & _ & Hv & _); [|done|]; cbn.
  { intros h _. apply getchar_of_ok. }
  destruct (encode_room v buf1) as (buf2 & -> & Hl2); [lia|lia|]. bret.
  cbn [wmem wpos]. case_decide; [repeat eexists; lia|].
  destruct (getfn g2 v) as [[r' bs'] g3] eqn:E3.
  destruct (Hok g2 v r' bs' g3 ltac:(lia) E3) as (_ & Hn & _).
  rewrite fill_ok by lia. cbn.
  assert (length (splice (Z.to_nat (Z.of_nat (S (length (rl_bytes v))))) (map u8 bs') buf2)
          = length buf) as Hl3.
  { rewrite length_splice; [lia|]. rewrite length_map. lia. }
  case_decide; [repeat eexists; lia|].
  unfold load. destruct (lookup_lt_is_Some_2 (splice (Z.to_nat (Z.of_nat
    (S (length (rl_bytes v))))) (map u8 bs') buf2) 0) as [b Hb]; [lia|].
  rewrite Hb. cbn. do 3 eexists. split; [done|]. split; [|done].
  unfold hdr_type. rewrite bits_div by lia.
  pose proof (Z.mod_pos_bound (b / 2 ^ 4) (2 ^ 4)). lia.
Qed.
End read.

(** *** The list source *)

Lemma read_list_exact bs s :
  read_list (bs ++ s) (Z.of_nat (length bs)) = (Z.of_nat (length bs), bs, s).
Proof. unfold read_list. by rewrite Nat2Z.id, take_app_length, drop_app_length. Qed.

Lemma read_list_ok g n rc bs g' :
  Forall is_byte g → 0 ≤ n → read_list g n = (rc, bs, g') →
  Forall is_byte bs ∧ Z.of_nat (length bs) ≤ n ∧ rc = Z.of_nat (length bs).
Proof.
  intros Hg Hn [= <- <- <-]. split; [by apply Forall_take|]. split; [|done].
  rewrite length_take. lia.
Qed.

Lemma read_list_1 b s : read_list (b :: s) 1 = (1, [b], s).
Proof. done. Qed.

Lemma feeds_read_list bs s : feeds (getchar_of read_list) (bs ++ s) bs s.
Proof.
  induction bs as [|b bs IH]; [done|]. cbn [feeds app]. exists (bs ++ s). split; [|done].
  unfold getchar_of. by rewrite read_list_1.
Qed.

(** The bytes of a packet: fixed header byte, remaining length, body. *)
Definition packet (h : Z) (body : list Z) : list Z :=
  h :: rl_bytes (Z.of_nat (length body)) ++ body.

(** What a serializer leaves: [pkt] at the start of the buffer and the rest of
    the buffer as it was, or the buffer untouched and an error, which is given
    only to a caller whose buffer is not larger than the packet. *)
Definition writes (r : outcome (Z * list Z)) (buf : list Z) (buflen : Z) (pkt : list Z) : Prop :=
  (r = Ret (Z.of_nat (length pkt), pkt ++ drop (length pkt) buf) ∧
     Z.of_nat (length pkt) ≤ buflen) ∨
  (r = Ret (MQTTPACKET_BUFFER_TOO_SHORT, buf) ∧ buflen ≤ Z.of_nat (length pkt)).

Lemma writes_estimate r buf buflen pkt :
  (∃ L, Z.of_nat (length pkt) ≤ L ≤ Z.of_nat (length pkt) + 1 ∧
     r = if decide (L > buflen) then Ret (MQTTPACKET_BUFFER_TOO_SHORT, buf)
         else Ret (Z.of_nat (length pkt), pkt ++ drop (length pkt) buf)) →
  writes r buf buflen pkt.
Proof.
  intros (L & HL & ->). unfold writes. case_decide; [right|left]; (split; [done|lia]).
Qed.

Lemma length_packet h body :
  Z.of_nat (length (packet h body)) = packet_size (Z.of_nat (length body)).
Proof. unfold packet, packet_size. cbn. rewrite length_app. lia. Qed.

Lemma packet_bytes h body :
  is_byte h → Forall is_byte body → Forall is_byte (packet h body).
Proof.
  intros. constructor; [done|]. apply Forall_app. split; [|done].
  apply rl_bytes_bytes. lia.
Qed.

Lemma hd_fill h (buf : list Z) :
  is_byte h → (1 ≤ length buf)%nat → fill 0 [h] buf = Ret (h :: drop 1 buf).
Proof. intros. by rewrite fill_start by (rewrite ?Forall_singleton; done). Qed.

Lemma encode_after_header h n buf :
  0 ≤ n < 268435456 → is_byte h → (1 + length (rl_bytes n) ≤ length buf)%nat →
  MQTTPacket_encode n (WCur (h :: drop 1 buf) 1) =
  Ret (WCur (h :: rl_bytes n ++ drop (1 + length (rl_bytes n)) buf)
         (1 + length (rl_bytes n))).
Proof.
  intros Hn Hh Hl. rewrite encode_put by (ints; lia).
  rewrite put_spec by (cbn [wpos wmem length]; rewrite length_drop; lia).
  cbn [wpos wmem]. unfold splice. rewrite map_u8_id by (apply rl_bytes_bytes; lia).
  do 2 f_equal. cbn. by rewrite drop_drop.
Qed.

Lemma fill_body h n body buf :
  n = Z.of_nat (length body) → n < 268435456 → Forall is_byte body →
  (length (packet h body) ≤ length buf)%nat →
  fill (1 + length (rl_bytes n)) body
    (h :: rl_bytes n ++ drop (1 + length (rl_bytes n)) buf) =
  Ret (packet h body ++ drop (length (packet h body)) buf).
Proof.
  intros -> Hn Hb Hl. unfold packet in *. cbn [length] in Hl. rewrite length_app in Hl.
  set (rl := rl_bytes _) in *.
  rewrite fill_ok by (cbn [length]; rewrite length_app, length_drop; lia).
  f_equal. unfold splice. rewrite map_u8_id by done.
  change (h :: rl ++ drop (1 + length rl) buf) with ((h :: rl) ++ drop (1 + length rl) buf).
  rewrite take_app_length' by done.
  change (1 + length rl + length body)%nat with (length (h :: rl) + length body)%nat.
  rewrite drop_app_add, drop_drop. cbn. rewrite <- app_assoc. do 4 f_equal.
  rewrite length_app. lia.
Qed.

Lemma MQTTPacket_read_packet h body rest buf buflen :
  is_byte h → Forall is_byte body →
  Z.of_nat (length body) < 268435456 →
  Z.of_nat (length (packet h body)) ≤ buflen ≤ Z.of_nat (length buf) →
  MQTTPacket_read read_list buf buflen (packet h body ++ rest) =
  Ret (hdr_type h, packet h body ++ drop (length (packet h body)) buf, rest).
Proof.
  intros Hh Hb Hn Hl. pose proof (length_packet h body) as Hlp.
  unfold packet_size in Hlp. set (n := Z.of_nat (length body)) in *.
  pose proof (rl_bytes_length n ltac:(lia)).
  unfold MQTTPacket_read.
  change (packet h body ++ rest) with (h :: ((rl_bytes n ++ body) ++ rest)).
  rewrite read_list_1.
  rewrite hd_fill by (done || lia). bret. dec.
  rewrite <- app_assoc.
  rewrite (decode_rl _ n _ _ ltac:(lia) (feeds_read_list _ _)). bret.
  rewrite encode_after_header by (done || lia). bret; cbn [wmem wpos]. dec.
  rewrite read_list_exact, Nat2Z.id, fill_body by (done || lia).
  bret. by dec.
Qed.

(** A packet that does not fit is refused with the buffer behind its length
    field untouched. *)
Lemma MQTTPacket_read_too_long h body rest buf buflen :
  is_byte h → Z.of_nat (length body) < 268435456 → (5 ≤ length buf)%nat →
  buflen < Z.of_nat (length (packet h body)) →
  MQTTPacket_read read_list buf buflen (packet h body ++ rest) =
  Ret (-1, h :: rl_bytes (Z.of_nat (length body)) ++
             drop (1 + length (rl_bytes (Z.of_nat (length body)))) buf, body ++ rest).
Proof.
  intros Hh Hn H5 Hl. pose proof (length_packet h body) as Hlp.
  unfold packet_size in Hlp. set (n := Z.of_nat (length body)) in *.
  pose proof (rl_bytes_length n ltac:(lia)).
  unfold MQTTPacket_read.
  change (packet h body ++ rest) with (h :: ((rl_bytes n ++ body) ++ rest)).
  rewrite read_list_1.
  rewrite hd_fill by (done || lia). bret. dec.
  rewrite <- app_assoc.
  rewrite (decode_rl _ n _ _ ltac:(lia) (feeds_read_list _ _)). bret.
  rewrite encode_after_header by (done || lia). bret; cbn [wmem wpos]. by dec.
Qed.

(** *** The non-blocking reader *)

(** A source that delivers its data in the given pieces; an empty piece is
    "call again", and the end of the list a closed connection. *)
Definition chunk_source (cs : list (list Z)) (n : Z) : Z * list Z * list (list Z) :=
  match cs with
  | [] => (-1, [], [])
  | c :: cs =>
      if decide (Z.of_nat (length c) ≤ n) then (Z.of_nat (length c), c, cs)
      else (n, take (Z.to_nat n) c, drop (Z.to_nat n) c :: cs)
  end.

(** The caller's polling loop: call until the result is not "call again". *)
Fixpoint readnb_poll {src : Type} (getfn : src → Z → Z * list Z * src) (k : nat)
    (buf : list Z) (buflen : Z) (trp : MQTTTransport src) :
    outcome (Z * list Z * MQTTTransport src) :=
  match k with
  | O => Ret (0, buf, trp)
  | S k =>
      '(rc, buf, trp) ← MQTTPacket_readnb getfn buf buflen trp;
      if decide (rc = 0) then readnb_poll getfn k buf buflen trp else Ret (rc, buf, trp)
  end.

Section nb.
Context {src : Type} (getfn : src → Z → Z * list Z * src).

Lemma decodenb_body_digit len m v b g g1 st :
  0 ≤ len < 4 → 0 ≤ v → is_byte b → 0 < m ≤ 2097152 → v + 127 * m ≤ 268435455 →
  getchar_of getfn g = Ret (1, b, g1) →
  decodenb_body getfn (Build_MQTTTransport g m v len st) =
    Ret (if b <? 128
         then inr (len + 1, Build_MQTTTransport g1 (m * 128) (v + b mod 128 * m) (len + 1) st)
         else inl (Build_MQTTTransport g1 (m * 128) (v + b mod 128 * m) (len + 1) st)).
Proof.
  intros Hl Hv Hb Hm Hvm Hg. unfold decodenb_body, getchar_of in *.
  unfold MAX_NO_OF_REMAINING_LENGTH_BYTES. cbn [trp_sck trp_len trp_multiplier trp_rem_len trp_state].
  dec. destruct (getfn g 1) as [[frc bs] g'] eqn:E. injection Hg as -> <- ->.
  cbv beta iota zeta. dec. cbn [trp_sck trp_len trp_multiplier trp_rem_len trp_state].
  rewrite land_127 by (ints; lia). pose proof (Z.mod_pos_bound (default 0 (head bs)) 128).
  assert (0 ≤ default 0 (head bs) mod 128 * m ≤ 127 * m) by nia.
  int_steps.
  rewrite land_128 by done. by destruct (default 0 (head bs) <? 128); dec.
Qed.

Lemma decodenb_rl n g g' m0 r0 st :
  0 ≤ n < 268435456 → feeds (getchar_of getfn) g (rl_bytes n) g' →
  MQTTPacket_decodenb getfn (Build_MQTTTransport g m0 r0 0 st) =
  Ret (Z.of_nat (length (rl_bytes n)),
       Build_MQTTTransport g' (128 ^ Z.of_nat (length (rl_bytes n))) n
         (Z.of_nat (length (rl_bytes n))) st).
Proof.
  intros Hn Hf. unfold rl_bytes in *. rewrite remaining_length_fuel in * by done.
  pose proof (digits_loop (getchar_of getfn) (decodenb_body getfn)
    (λ len m v g, Build_MQTTTransport g m v len st)
    (λ len m v g, (len, Build_MQTTTransport g m v len st))
    ltac:(intros; by apply decodenb_body_digit) 3 n 0 1 0 g g'
    ltac:(done) ltac:(done) ltac:(done) ltac:(done) ltac:(done) ltac:(done) Hf) as H.
  unfold MQTTPacket_decodenb. cbn [trp_sck trp_len trp_state]. dec.
  rewrite (loop_mono 4 5) by (rewrite ?H; done || lia).
  rewrite H. do 2 f_equal. f_equal; lia.
Qed.

(** While the length field is being read, "call again" uses up its budget of
    four bytes: after the fourth the reader fails without asking the source. *)
Lemma readnb_budget buf buflen g m v :
  MQTTPacket_readnb getfn buf buflen (Build_MQTTTransport g m v 4 1) =
  Ret (-1, buf, Build_MQTTTransport g m v 5 0).
Proof. reflexivity. Qed.

Lemma decodenb_body_stall g g' bs m v len st :
  0 ≤ len < 4 → getfn g 1 = (0, bs, g') →
  decodenb_body getfn (Build_MQTTTransport g m v len st) =
  Ret (inr (0, Build_MQTTTransport g' m v (len + 1) st)).
Proof.
  intros Hl Hg. unfold decodenb_body, MAX_NO_OF_REMAINING_LENGTH_BYTES.
  cbn [trp_state trp_len trp_sck trp_multiplier trp_rem_len]. dec. by rewrite Hg.
Qed.

Lemma readnb_stall buf buflen g g' bs m v len :
  0 < len < 4 → getfn g 1 = (0, bs, g') →
  MQTTPacket_readnb getfn buf buflen (Build_MQTTTransport g m v len 1) =
  Ret (0, buf, Build_MQTTTransport g' m v (len + 1) 1).
Proof.
  intros Hl Hg. unfold MQTTPacket_readnb, readnb_case1, MQTTPacket_decodenb.
  cbn [trp_state trp_len]. dec. rewrite loop_S.
  by rewrite (decodenb_body_stall _ g' bs) by (done || lia).
Qed.

(** The body arrives in pieces: the reader keeps what it has and asks for the
    rest.  [case2_state] is its state with [got] received of [h], [rl], [body]. *)
Definition case2_state (g : src) (m : Z) (got rem : list Z) : MQTTTransport src :=
  Build_MQTTTransport g m (Z.of_nat (length rem)) (Z.of_nat (length got)) 2.
End nb.

Lemma readnb_case2_piece c cs got rem junk buflen m :
  Forall is_byte rem → c `prefix_of` rem → (length rem ≤ length junk)%nat →
  readnb_case2 chunk_source (got ++ junk) buflen (case2_state (c :: cs) m got rem) =
  if decide (c = []) then Ret (0, got ++ junk, case2_state cs m got rem)
  else
    let got' := got ++ c in
    let buf' := got' ++ drop (length c) junk in
    if decide (c = rem)
    then b ← load buf' 0;
         Ret (hdr_type b, buf', set_state 0 (case2_state cs m got' []))
    else Ret (0, buf', case2_state cs m got' (drop (length c) rem)).
Proof.
  intros Hb [rem' ->] Hl. apply Forall_app in Hb as [Hc Hr]. rewrite length_app in Hl.
  unfold readnb_case2, case2_state.
  cbn [trp_sck trp_rem_len trp_len trp_multiplier trp_state chunk_source].
  rewrite length_app. dec. rewrite Nat2Z.id.
  rewrite fill_ok by (rewrite length_app; lia). bret. dec.
  unfold splice. rewrite map_u8_id by done.
  rewrite take_app_length, drop_app_add, app_assoc.
  destruct (decide (c = [])) as [->|Hne].
  { cbn. by rewrite app_nil_r, drop_0. }
  assert (0 < length c)%nat by (destruct c; cbn in *; [done|lia]).
  dec. destruct rem' as [|r rem'].
  - rewrite app_nil_r. cbn [length]. dec. apply bind_ext. intros b.
    unfold readnb_exit, set_state. cbn. repeat f_equal; rewrite ?length_app; lia.
  - cbn [length]. dec. rewrite decide_False.
    + rewrite drop_app_length, length_app. cbn [length]. do 4 f_equal; lia.
    + intros E. apply (f_equal length) in E. rewrite length_app in E. cbn in E. lia.
Qed.

Lemma readnb_at_case2 {src : Type} (getfn : src → Z → Z * list Z * src) buf buflen g m got rem :
  MQTTPacket_readnb getfn buf buflen (case2_state g m got rem) =
  readnb_case2 getfn buf buflen (case2_state g m got rem).
Proof. done. Qed.

Lemma readnb_poll_case2 cs m h got rem junk buflen :
  Forall is_byte rem → concat cs = rem → rem ≠ [] → (length rem ≤ length junk)%nat →
  hdr_type h ≠ 0 →
  ∃ cs', readnb_poll chunk_source (length cs) ((h :: got) ++ junk) buflen
           (case2_state cs m (h :: got) rem) =
         Ret (hdr_type h, ((h :: got) ++ rem) ++ drop (length rem) junk,
              set_state 0 (case2_state cs' m ((h :: got) ++ rem) [])).
Proof.
  intros Hb Hcs Hne Hl Hh. revert got rem junk Hb Hcs Hne Hl.
  induction cs as [|c cs IH]; intros got rem junk Hb Hcs Hne Hl; [by subst|].
  cbn [length readnb_poll]. rewrite readnb_at_case2. cbn [concat] in Hcs.
  rewrite readnb_case2_piece; [|done|exists (concat cs); done|done].
  destruct (decide (c = [])) as [->|Hc].
  { bret. dec. by apply IH. }
  cbv zeta. destruct (decide (c = rem)) as [->|Hcr].
  - rewrite (load_drop _ 0 h ((got ++ rem) ++ drop (length rem) junk)) by done.
    bret. rewrite decide_False by done. by exists cs.
  - bret. dec. subst rem. rewrite drop_app_length.
    apply Forall_app in Hb as [_ Hb].
    destruct (IH (got ++ c) (concat cs) (drop (length c) junk) Hb eq_refl) as [cs' H].
    + intros E. by rewrite E, app_nil_r in Hcr.
    + rewrite length_drop. rewrite length_app in Hl. lia.
    + exists cs'. rewrite !app_comm_cons, !app_assoc in *. cbn [app] in *.
      rewrite H. by rewrite drop_drop, length_app.
Qed.

Lemma feeds_chunks bs cs :
  feeds (getchar_of chunk_source) (map (λ b, [b]) bs ++ cs) bs cs.
Proof. induction bs as [|b bs IH]; [done|]. cbn [map app feeds]. by eexists. Qed.

(** One call takes the reader from a fresh transport to the body. *)
Lemma readnb_header h n cs buf buflen m0 r0 l0 body :
  n = Z.of_nat (length body) → n < 268435456 → is_byte h →
  Z.of_nat (length (packet h body)) ≤ buflen ≤ Z.of_nat (length buf) →
  MQTTPacket_readnb chunk_source buf buflen
    (Build_MQTTTransport ([h] :: map (λ b, [b]) (rl_bytes n) ++ cs) m0 r0 l0 0) =
  MQTTPacket_readnb chunk_source
    ((h :: rl_bytes n) ++ drop (1 + length (rl_bytes n)) buf) buflen
    (case2_state cs (128 ^ Z.of_nat (length (rl_bytes n))) (h :: rl_bytes n) body).
Proof.
  intros Hn Hlt Hh Hl. rewrite length_packet in Hl. unfold packet_size in Hl.
  rewrite <- Hn in Hl. pose proof (rl_bytes_length n ltac:(lia)).
  rewrite readnb_at_case2. unfold MQTTPacket_readnb, readnb_case0, set_state.
  cbn [trp_sck trp_rem_len trp_len trp_multiplier trp_state chunk_source length]. dec.
  rewrite hd_fill by (done || lia). bret. dec.
  unfold readnb_case1.
  rewrite (decodenb_rl _ n _ cs) by (lia || apply feeds_chunks). bret.
  unfold MQTTPACKET_READ_ERROR. dec.
  cbn [trp_sck trp_rem_len trp_len trp_multiplier trp_state].
  rewrite encode_after_header by (done || lia). bret; cbn [wmem wpos]. dec.
  unfold case2_state, set_state. cbn [trp_sck trp_rem_len trp_len trp_multiplier trp_state].
  by rewrite Hn.
Qed.

Lemma readnb_poll_packet h body cs buf buflen m0 r0 l0 :
  is_byte h → hdr_type h ≠ 0 → Forall is_byte body → body ≠ [] → concat cs = body →
  Z.of_nat (length body) < 268435456 →
  Z.of_nat (length (packet h body)) ≤ buflen ≤ Z.of_nat (length buf) →
  ∃ trp', readnb_poll chunk_source (length cs) buf buflen
      (Build_MQTTTransport
         ([h] :: map (λ b, [b]) (rl_bytes (Z.of_nat (length body))) ++ cs) m0 r0 l0 0) =
    Ret (hdr_type h, packet h body ++ drop (length (packet h body)) buf, trp') ∧
    trp_state trp' = 0.
Proof.
  intros Hh Ht Hb Hne Hcs Hn Hl. pose proof (length_packet h body) as Hlp.
  unfold packet_size in Hlp. set (n := Z.of_nat (length body)) in *.
  destruct (readnb_poll_case2 cs (128 ^ Z.of_nat (length (rl_bytes n))) h (rl_bytes n) body
    (drop (1 + length (rl_bytes n)) buf) buflen) as [cs' H]; try done.
  { rewrite length_drop. lia. }
  destruct cs as [|c cs]; [by subst|]. cbn [length readnb_poll] in *.
  rewrite (readnb_header h n (c :: cs) buf buflen m0 r0 l0 body) by (done || lia).
  rewrite H. match goal with |- ∃ _, Ret (_, _, ?t) = _ ∧ _ => exists t end.
  split; [|done]. do 3 f_equal.
  unfold packet. fold n. cbn [app]. f_equal. rewrite drop_drop. do 2 f_equal.
  cbn [length]. rewrite length_app. lia.
Qed.

(** A packet without a body is never delivered: asked for no byte, a source
    answers "none yet". *)
Lemma readnb_poll_empty {src : Type} (getfn : src → Z → Z * list Z * src) k buf buflen g m l rc buf' trp' :
  getfn_ok getfn →
  readnb_poll getfn k buf buflen (Build_MQTTTransport g m 0 l 2) = Ret (rc, buf', trp') →
  rc = 0 ∨ rc = -1.
Proof.
  intros Hok. revert buf g. induction k as [|k IH]; intros buf g; cbn [readnb_poll].
  { intros [= <- _ _]. by left. }
  unfold MQTTPacket_readnb. cbn [trp_state]. dec. unfold readnb_case2.
  cbn [trp_sck trp_rem_len trp_len trp_multiplier trp_state].
  destruct (getfn g 0) as [[frc bs] g'] eqn:E.
  destruct (Hok g 0 frc bs g' ltac:(lia) E) as (_ & Hl & Hrc).
  intros H. apply bind_Ret_inv in H as ([[rc1 buf1] trp1] & H1 & H2).
  apply bind_Ret_inv in H1 as (b1 & _ & H1).
  destruct Hrc as [->|Hrc].
  - rewrite decide_True in H1 by done. injection H1 as <- <- <-.
    rewrite decide_False in H2 by done. injection H2 as <- _ _. by right.
  - assert (frc = 0) as -> by lia. rewrite decide_False, decide_True in H1 by done.
    injection H1 as <- <- <-. rewrite decide_True in H2 by done. eauto.
Qed.

(** ** Automation for the serializers *)

Lemma writeChar_put c w : writeChar c w = put [c] w.
Proof. by rewrite put_one. Qed.

#[export] Hint Resolve MQTTHeader_byte_range utf_bytes_bytes packet_bytes : bytes.
#[export] Hint Extern 2 (is_byte _) => ints; lia : bytes.
#[export] Hint Extern 2 (Forall is_byte (rl_bytes _)) => apply rl_bytes_bytes; lia : bytes.

(** One write of a serializer: [lem] says which bytes the next operation
    writes, and they are appended to what the buffer holds. *)
Ltac wr lem :=
  rewrite lem by (done || (ints; lia));
  rewrite put_filled;
    [ bret
    | auto with bytes
    | autorewrite with len in *; cbn [length app] in *; autorewrite with len in *; lia ].

(** Closes a serializer: what the buffer holds is the packet [pkt], by the
    equations [eqs]. *)
Ltac wr_done pkt eqs :=
  match goal with
  | |- Ret (_, wmem (filled _ ?l)) = _ =>
      assert (l = pkt) as ->;
        [ unfold packet; eqs; cbn [app]; by rewrite <- ?app_assoc, ?app_nil_r
        | reflexivity ]
  end.

(** *** Decoding the fixed header

    [read_header] runs the three reads every deserializer starts with. *)
Lemma drop_packet_0 h body rest : drop 0 (packet h body ++ rest) = h :: (rl_bytes (Z.of_nat (length body)) ++ body ++ rest).
Proof. unfold packet. cbn. by rewrite <- app_assoc. Qed.

Lemma readChar_packet h body rest : readChar (packet h body ++ rest) 0 = Ret (h, 1%nat).
Proof. eapply readChar_drop. apply drop_packet_0. Qed.

Lemma decodeBuf_packet h body rest :
  Z.of_nat (length body) < 268435456 →
  MQTTPacket_decodeBuf (packet h body ++ rest) 1 =
  Ret (Z.of_nat (length (rl_bytes (Z.of_nat (length body)))), Z.of_nat (length body)).
Proof.
  intros. apply decodeBuf_drop with (s := body ++ rest); [lia|].
  by apply (drop_cons_lookup _ 0 h), drop_packet_0.
Qed.

Definition body_start (body : list Z) : nat :=
  (1 + Z.to_nat (Z.of_nat (length (rl_bytes (Z.of_nat (length body))))))%nat.

Lemma drop_body h body rest : drop (body_start body) (packet h body ++ rest) = body ++ rest.
Proof.
  unfold body_start. rewrite Nat2Z.id.
  apply drop_app_cut. by apply (drop_cons_lookup _ 0 h), drop_packet_0.
Qed.

Lemma body_start_fold body :
  (1 + Z.to_nat (Z.of_nat (length (rl_bytes (Z.of_nat (length body))))))%nat = body_start body.
Proof. done. Qed.

Lemma body_start_Z body :
  Z.of_nat (body_start body) = 1 + Z.of_nat (length (rl_bytes (Z.of_nat (length body)))).
Proof. unfold body_start. lia. Qed.
#[global] Opaque body_start.

Ltac read_header :=
  rewrite readChar_packet; bret; rewrite ?(proj1 (MQTTHeader_fields _ _ _ _));
  try rewrite decide_False by (intros []; done);
  rewrite decodeBuf_packet by lia; bret; rewrite ?body_start_fold, ?Nat2Z.id.
