(* ===== verification/MqttPublish.v ===== *)
(** * PUBLISH packets and acknowledgements

    Models [MQTTSerializePublish.c] and [MQTTDeserializePublish.c] of
    [paho/src/MQTTPacket/src].  A serializer takes the buffer and returns the C
    result with the buffer afterwards; a deserializer takes the caller's output
    variables and returns them with the C result. *)
From S2P Require Import Prelude MqttPacket.

(** ** PUBLISH *)

Definition MQTTSerialize_publishLength (qos : Z) (topicName : MQTTString) (payloadlen : Z) :
    outcome Z :=
  t ← int (2 + MQTTstrlen topicName);
  len ← int (t + payloadlen);
  if decide (qos > 0) then int (len + 2) else Ret len.

Definition MQTTSerialize_publish (buf : list Z) (buflen dup qos retained packetid : Z)
    (topicName : MQTTString) (payload : list Z) (payloadlen : Z) : outcome (Z * list Z) :=
  rem_len ← MQTTSerialize_publishLength qos topicName payloadlen;
  len ← MQTTPacket_len rem_len;
  if decide (len > buflen) then Ret (MQTTPACKET_BUFFER_TOO_SHORT, buf)
  else
    w ← writeChar (MQTTHeader_byte PUBLISH dup qos retained) (WCur buf 0);
    w ← MQTTPacket_encode rem_len w;
    w ← writeMQTTString topicName w;
    w ← (if decide (qos > 0) then writeInt packetid w else Ret w);
    w ← memcpy payload payloadlen w;
    Ret (Z.of_nat (wpos w), wmem w).

Record PublishData := {
  pub_dup : Z;
  pub_qos : Z;
  pub_retained : Z;
  pub_packetid : Z;
  pub_topicName : MQTTString;
  pub_payload : list Z;
  pub_payloadlen : Z;
}.

Definition MQTTDeserialize_publish (o : PublishData) (buf : list Z) (buflen : Z) :
    outcome (Z * PublishData) :=
  '(byte, curdata) ← readChar buf 0;
  if decide (hdr_type byte ≠ PUBLISH) then Ret (0, o)
  else
    let qos := hdr_qos byte in
    '(rc, mylen) ← MQTTPacket_decodeBuf buf curdata;
    let curdata := (curdata + Z.to_nat rc)%nat in
    let enddata := (curdata + Z.to_nat mylen)%nat in
    '(ok, topicName, curdata) ← readMQTTLenString (pub_topicName o) buf curdata enddata;
    let o :=
      {| pub_dup := hdr_dup byte; pub_qos := qos; pub_retained := hdr_retain byte;
         pub_packetid := pub_packetid o; pub_topicName := topicName;
         pub_payload := pub_payload o; pub_payloadlen := pub_payloadlen o |} in
    if decide (ok = 0 ∨ Z.of_nat enddata - Z.of_nat curdata < 0) then Ret (rc, o)
    else
      '(packetid, curdata) ←
        (if decide (qos > 0) then readInt buf curdata else Ret (pub_packetid o, curdata));
      Ret (1, {| pub_dup := pub_dup o; pub_qos := qos; pub_retained := pub_retained o;
                 pub_packetid := packetid; pub_topicName := topicName;
                 pub_payload := drop curdata buf;
                 pub_payloadlen := Z.of_nat enddata - Z.of_nat curdata |}).

(** ** Acknowledgements *)

Definition MQTTSerialize_ack (buf : list Z) (buflen packettype dup packetid : Z) :
    outcome (Z * list Z) :=
  if decide (buflen < 4) then Ret (MQTTPACKET_BUFFER_TOO_SHORT, buf)
  else
    w ← writeChar (MQTTHeader_byte packettype dup (if decide (packettype = PUBREL) then 1 else 0) 0)
          (WCur buf 0);
    w ← MQTTPacket_encode 2 w;
    w ← writeInt packetid w;
    Ret (Z.of_nat (wpos w), wmem w).

Definition MQTTSerialize_puback (buf : list Z) (buflen packetid : Z) :=
  MQTTSerialize_ack buf buflen PUBACK 0 packetid.

Definition MQTTSerialize_pubrel (buf : list Z) (buflen dup packetid : Z) :=
  MQTTSerialize_ack buf buflen PUBREL dup packetid.

Definition MQTTSerialize_pubcomp (buf : list Z) (buflen packetid : Z) :=
  MQTTSerialize_ack buf buflen PUBCOMP 0 packetid.

Record AckData := { ack_type : Z; ack_dup : Z; ack_packetid : Z }.

Definition MQTTDeserialize_ack (o : AckData) (buf : list Z) (buflen : Z) :
    outcome (Z * AckData) :=
  '(byte, curdata) ← readChar buf 0;
  let o := {| ack_type := hdr_type byte; ack_dup := hdr_dup byte;
              ack_packetid := ack_packetid o |} in
  '(rc, mylen) ← MQTTPacket_decodeBuf buf curdata;
  let curdata := (curdata + Z.to_nat rc)%nat in
  let enddata := (curdata + Z.to_nat mylen)%nat in
  if decide (Z.of_nat enddata - Z.of_nat curdata < 2) then Ret (rc, o)
  else
    '(packetid, _) ← readInt buf curdata;
    Ret (1, {| ack_type := ack_type o; ack_dup := ack_dup o; ack_packetid := packetid |}).

(** ** Reference: the packets of the protocol *)

(** The packet identifier, absent at QoS 0. *)
Definition opt_id (qos packetid : Z) : list Z :=
  if decide (qos > 0) then be16 packetid else [].

Definition publish_body (qos packetid : Z) (topic payload : list Z) : list Z :=
  utf_bytes topic ++ opt_id qos packetid ++ payload.

Definition publish_packet (dup qos retained packetid : Z) (topic payload : list Z) : list Z :=
  packet (MQTTHeader_byte PUBLISH dup qos retained) (publish_body qos packetid topic payload).

Definition ack_packet (type dup qos packetid : Z) : list Z :=
  packet (MQTTHeader_byte type dup qos 0) (be16 packetid).

(** ** Lemmas *)


Lemma length_ack_packet type dup qos packetid :
  length (ack_packet type dup qos packetid) = 4%nat.
Proof. done. Qed.

Lemma length_opt_id qos packetid :
  length (opt_id qos packetid) = if decide (qos > 0) then 2%nat else 0%nat.
Proof. unfold opt_id. by case_decide. Qed.

Lemma opt_id_bytes qos packetid : Forall is_byte (opt_id qos packetid).
Proof. unfold opt_id. case_decide; [apply be16_bytes|constructor]. Qed.

#[export] Hint Resolve opt_id_bytes : bytes.

Lemma writeInt_opt qos packetid w :
  is_u16 packetid →
  (if decide (qos > 0) then writeInt packetid w else Ret w) = put (opt_id qos packetid) w.
Proof. intros. unfold opt_id. case_decide; [by apply writeInt_put|done]. Qed.

Lemma length_publish_body qos packetid topic payload :
  length (publish_body qos packetid topic payload) =
  (2 + length topic + length (opt_id qos packetid) + length payload)%nat.
Proof. unfold publish_body. rewrite !length_app, length_utf. lia. Qed.
#[export] Hint Rewrite length_publish_body : len.

Lemma publish_body_bytes qos packetid topic payload :
  Forall is_byte topic → Forall is_byte payload →
  Forall is_byte (publish_body qos packetid topic payload).
Proof.
  intros. unfold publish_body. rewrite !Forall_app.
  auto using utf_bytes_bytes, opt_id_bytes.
Qed.

Lemma publishLength_ok qos packetid topic payload :
  wf_string topic → Z.of_nat (length payload) < 268435456 →
  MQTTSerialize_publishLength qos topic (Z.of_nat (length payload)) =
  Ret (Z.of_nat (length (publish_body qos packetid (MQTTString_bytes topic) payload))).
Proof.
  intros Ht Hp. pose proof Ht as (_ & Hl & _).
  unfold MQTTSerialize_publishLength. rewrite MQTTstrlen_ok by done.
  int_steps.
  rewrite length_publish_body, length_opt_id. case_decide; f_equal; lia.
Qed.

Lemma MQTTSerialize_publish_ok buf buflen dup qos retained packetid topic payload :
  let topic_bytes := MQTTString_bytes topic in
  let pkt := publish_packet dup qos retained packetid topic_bytes payload in
  wf_string topic → Forall is_byte payload → is_u16 packetid →
  Z.of_nat (length (publish_body qos packetid topic_bytes payload)) < 268435456 →
  buflen ≤ Z.of_nat (length buf) →
  ∃ L, Z.of_nat (length pkt) ≤ L ≤ Z.of_nat (length pkt) + 1 ∧
    MQTTSerialize_publish buf buflen dup qos retained packetid topic payload
      (Z.of_nat (length payload)) =
    if decide (L > buflen) then Ret (MQTTPACKET_BUFFER_TOO_SHORT, buf)
    else Ret (Z.of_nat (length pkt), pkt ++ drop (length pkt) buf).
Proof.
  cbv zeta. unfold publish_packet. intros Ht Hp Hid Hn Hl. pose proof Ht as (Htb & _).
  pose proof (length_publish_body qos packetid (MQTTString_bytes topic) payload) as Hlb.
  pose proof (publishLength_ok qos packetid topic payload Ht) as Hpl.
  remember (publish_body _ _ _ _) as body eqn:Hbody.
  destruct (MQTTPacket_len_bounds (Z.of_nat (length body))) as (L & HL & Hb); [lia|].
  pose proof (length_packet (MQTTHeader_byte PUBLISH dup qos retained) body) as Hsz.
  exists L. split; [lia|]. unfold MQTTSerialize_publish.
  rewrite Hpl by lia. bret. rewrite HL. bret.
  case_decide as Hgt; [done|]. unfold packet_size in *.
  rewrite filled_start.
  wr writeChar_put.
  wr encode_put.
  wr writeMQTTString_put.
  wr writeInt_opt.
  wr memcpy_put.
  wr_done (packet (MQTTHeader_byte PUBLISH dup qos retained) body)
    ltac:(rewrite Hbody; unfold publish_body).
Qed.

Lemma MQTTDeserialize_publish_ok o dup qos retained packetid topic payload rest buflen :
  0 ≤ dup < 2 → 0 ≤ qos < 4 → 0 ≤ retained < 2 → is_u16 packetid →
  Z.of_nat (length topic) < 65536 →
  Z.of_nat (length (publish_body qos packetid topic payload)) < 268435456 →
  MQTTDeserialize_publish o
    (publish_packet dup qos retained packetid topic payload ++ rest) buflen =
  Ret (1, {| pub_dup := dup; pub_qos := qos; pub_retained := retained;
             pub_packetid := if decide (qos > 0) then packetid else pub_packetid o;
             pub_topicName := read_string topic (opt_id qos packetid ++ payload ++ rest);
             pub_payload := payload ++ rest;
             pub_payloadlen := Z.of_nat (length payload) |}).
Proof.
  intros Hd Hq Hr Hid Ht Hn. unfold publish_packet, MQTTDeserialize_publish.
  pose proof (length_publish_body qos packetid topic payload) as Hlb.
  destruct (MQTTHeader_fields PUBLISH dup qos retained) as (Ety & Edup & Eq & Er).
  unfold field in *. change (2 ^ 1) with 2 in *. change (2 ^ 2) with 4 in *.
  rewrite Z.mod_small in Edup, Eq, Er by lia.
  assert (publish_body qos packetid topic payload ++ rest =
    utf_bytes topic ++ (opt_id qos packetid ++ payload ++ rest)) as Hsuf.
  { unfold publish_body. by rewrite <- !app_assoc. }
  remember (publish_body qos packetid topic payload) as body eqn:Hbody.
  pose proof (drop_body (MQTTHeader_byte PUBLISH dup qos retained) body rest) as Hdrop.
  rewrite Hsuf in Hdrop.
  read_header.
  rewrite Eq, Edup, Er. rewrite (readMQTTLenString_drop _ _ _ _ topic _ Hdrop) by lia. bret.
  rewrite decide_False by lia.
  apply drop_app_cut in Hdrop. rewrite length_utf in Hdrop. rewrite Nat.add_assoc in Hdrop.
  cbn [pub_dup pub_qos pub_retained pub_packetid].
  unfold opt_id in *. destruct (decide (qos > 0)) as [Hq0|Hq0].
  - rewrite (readInt_drop _ _ packetid (payload ++ rest)) by done. bret.
    apply drop_app_cut in Hdrop. rewrite length_be16 in *. rewrite Hdrop.
    do 3 f_equal. lia.
  - bret. cbn [app] in Hdrop. rewrite Hdrop. cbn [length] in *. do 3 f_equal. lia.
Qed.

(** When the topic does not fit in the packet the outputs are not written, but
    the result is the number of bytes of the length field: 1, "success", for
    every packet of less than 128 bytes. *)
Lemma MQTTDeserialize_publish_no_topic o dup qos retained b rest buflen :
  MQTTDeserialize_publish o
    (packet (MQTTHeader_byte PUBLISH dup qos retained) [b] ++ rest) buflen =
  Ret (1, {| pub_dup := field 1 dup; pub_qos := field 2 qos; pub_retained := field 1 retained;
             pub_packetid := pub_packetid o;
             pub_topicName := {| cstring := None;
                lenstring_len := lenstring_len (pub_topicName o);
                lenstring_data := lenstring_data (pub_topicName o) |};
             pub_payload := pub_payload o;
             pub_payloadlen := pub_payloadlen o |}).
Proof.
  unfold MQTTDeserialize_publish.
  destruct (MQTTHeader_fields PUBLISH dup qos retained) as (Ety & Ed & Eq & Er).
  rewrite readChar_packet. bret. rewrite Ety, Ed, Eq, Er, decide_False by (intros []; done).
  rewrite decodeBuf_packet by (rewrite ?length_be16; cbn [length]; lia). bret. rewrite body_start_fold, Nat2Z.id.
  cbn [length]. unfold readMQTTLenString. dec. bret. by rewrite decide_True by (by left).
Qed.

(** ** Acknowledgements *)

Lemma MQTTSerialize_ack_ok buf buflen type dup packetid :
  is_u16 packetid → buflen ≤ Z.of_nat (length buf) →
  MQTTSerialize_ack buf buflen type dup packetid =
  if decide (buflen < 4) then Ret (MQTTPACKET_BUFFER_TOO_SHORT, buf)
  else Ret (4, ack_packet type dup (if decide (type = PUBREL) then 1 else 0) packetid ++
               drop 4 buf).
Proof.
  intros Hid Hl. unfold MQTTSerialize_ack. case_decide as Hs; [done|].
  rewrite filled_start.
  wr writeChar_put.
  wr encode_digit.
  wr writeInt_put.
  done.
Qed.

Lemma MQTTDeserialize_ack_ok o type dup qos packetid rest buflen :
  0 ≤ type < 16 → 0 ≤ dup < 2 → is_u16 packetid →
  MQTTDeserialize_ack o (ack_packet type dup qos packetid ++ rest) buflen =
  Ret (1, {| ack_type := type; ack_dup := dup; ack_packetid := packetid |}).
Proof.
  intros Ht Hd Hid. unfold MQTTDeserialize_ack, ack_packet.
  destruct (MQTTHeader_fields type dup qos 0) as (Ety & Edup & _).
  unfold field in *. change (2 ^ 1) with 2 in *. change (2 ^ 4) with 16 in *.
  rewrite Z.mod_small in Ety, Edup by lia. rewrite readChar_packet. bret.
  rewrite decodeBuf_packet by (rewrite ?length_be16; cbn [length]; lia). bret. rewrite body_start_fold, Nat2Z.id.
  rewrite length_be16, Ety, Edup. rewrite decide_False by lia.
  rewrite (readInt_drop _ _ packetid rest) by (done || apply drop_body). by bret.
Qed.

(** A truncated acknowledgement is reported as success as well. *)
Lemma MQTTDeserialize_ack_short o type dup qos body rest buflen :
  (length body < 2)%nat →
  MQTTDeserialize_ack o (packet (MQTTHeader_byte type dup qos 0) body ++ rest) buflen =
  Ret (1, {| ack_type := field 4 type; ack_dup := field 1 dup;
             ack_packetid := ack_packetid o |}).
Proof.
  intros Hb. unfold MQTTDeserialize_ack.
  destruct (MQTTHeader_fields type dup qos 0) as (Ety & Ed & _).
  rewrite readChar_packet. bret. rewrite Ety, Ed, decodeBuf_packet by lia. bret.
  rewrite body_start_fold, Nat2Z.id. rewrite decide_True by lia.
  by destruct body as [|? [|? ?]]; cbn in *; try lia.
Qed.
