(* ===== verification/MqttSubscribe.v ===== *)
(** * SUBSCRIBE and UNSUBSCRIBE packets and their acknowledgements

    Models [MQTTSubscribeClient.c], [MQTTSubscribeServer.c],
    [MQTTUnsubscribeClient.c] and [MQTTUnsubscribeServer.c] of
    [paho/src/MQTTPacket/src].  The arrays a function fills are lists of the
    size the caller allocated; a store past their end is undefined. *)
From S2P Require Import Prelude MqttPacket MqttPublish.

(** ** SUBSCRIBE, from the client *)

Definition MQTTSerialize_subscribeLength (count : nat) (topicFilters : list MQTTString) :
    outcome Z :=
  for_ count 0 (λ i len,
    topic ← array_get topicFilters i;
    t ← int (2 + MQTTstrlen topic);
    t ← int (t + 1);
    int (len + t)) 2.

Definition MQTTSerialize_subscribe (buf : list Z) (buflen dup packetid : Z) (count : nat)
    (topicFilters : list MQTTString) (requestedQoSs : list Z) : outcome (Z * list Z) :=
  rem_len ← MQTTSerialize_subscribeLength count topicFilters;
  len ← MQTTPacket_len rem_len;
  if decide (len > buflen) then Ret (MQTTPACKET_BUFFER_TOO_SHORT, buf)
  else
    w ← writeChar (MQTTHeader_byte SUBSCRIBE dup 1 0) (WCur buf 0);
    w ← MQTTPacket_encode rem_len w;
    w ← writeInt packetid w;
    w ← for_ count 0 (λ i w,
          topic ← array_get topicFilters i;
          w ← writeMQTTString topic w;
          qos ← array_get requestedQoSs i;
          writeChar qos w) w;
    Ret (Z.of_nat (wpos w), wmem w).

Record SubackData := {
  suback_packetid : Z;
  suback_count : nat;
  suback_grantedQoSs : list Z;
}.

Definition suback_body (char_signed : bool) (maxcount : Z) (buf : list Z) (enddata : nat)
    (rc : Z) (s : nat * SubackData) : outcome (nat * SubackData + Z * SubackData) :=
  let '(curdata, o) := s in
  if decide (curdata < enddata)%nat then
    if decide (Z.of_nat (suback_count o) > maxcount) then Ret (inr (-1, o))
    else
      '(c, curdata) ← readChar buf curdata;
      granted ← array_set (suback_grantedQoSs o) (suback_count o) (char_val char_signed c);
      Ret (inl (curdata, {| suback_packetid := suback_packetid o;
                            suback_count := S (suback_count o);
                            suback_grantedQoSs := granted |}))
  else Ret (inr (1, o)).

Definition MQTTDeserialize_suback (char_signed : bool) (o : SubackData) (maxcount : Z)
    (buf : list Z) (buflen : Z) : outcome (Z * SubackData) :=
  '(byte, curdata) ← readChar buf 0;
  if decide (hdr_type byte ≠ SUBACK) then Ret (0, o)
  else
    '(rc, mylen) ← MQTTPacket_decodeBuf buf curdata;
    let curdata := (curdata + Z.to_nat rc)%nat in
    let enddata := (curdata + Z.to_nat mylen)%nat in
    if decide (Z.of_nat enddata - Z.of_nat curdata < 2) then Ret (rc, o)
    else
      '(packetid, curdata) ← readInt buf curdata;
      let o := {| suback_packetid := packetid; suback_count := 0;
                  suback_grantedQoSs := suback_grantedQoSs o |} in
      loop (S (enddata - curdata)) (suback_body char_signed maxcount buf enddata rc)
        (curdata, o).

(** ** SUBSCRIBE, at the server *)

Record SubscribeData := {
  sub_dup : Z;
  sub_packetid : Z;
  sub_count : nat;
  sub_topicFilters : list MQTTString;
  sub_requestedQoSs : list Z;
}.

Definition subscribe_body (char_signed : bool) (buf : list Z) (enddata : nat) (rc : Z)
    (s : nat * SubscribeData) : outcome (nat * SubscribeData + Z * SubscribeData) :=
  let '(curdata, o) := s in
  if decide (curdata < enddata)%nat then
    topic ← array_get (sub_topicFilters o) (sub_count o);
    '(ok, topic, curdata) ← readMQTTLenString topic buf curdata enddata;
    filters ← array_set (sub_topicFilters o) (sub_count o) topic;
    let o := {| sub_dup := sub_dup o; sub_packetid := sub_packetid o;
                sub_count := sub_count o; sub_topicFilters := filters;
                sub_requestedQoSs := sub_requestedQoSs o |} in
    if decide (ok = 0) then Ret (inr (rc, o))
    else if decide (enddata ≤ curdata)%nat then Ret (inr (rc, o))
    else
      '(c, curdata) ← readChar buf curdata;
      qoss ← array_set (sub_requestedQoSs o) (sub_count o) (char_val char_signed c);
      Ret (inl (curdata, {| sub_dup := sub_dup o; sub_packetid := sub_packetid o;
                            sub_count := S (sub_count o); sub_topicFilters := filters;
                            sub_requestedQoSs := qoss |}))
  else Ret (inr (1, o)).

(** The code never looks at [maxcount]. *)
Definition MQTTDeserialize_subscribe (char_signed : bool) (o : SubscribeData) (maxcount : Z)
    (buf : list Z) (buflen : Z) : outcome (Z * SubscribeData) :=
  '(byte, curdata) ← readChar buf 0;
  if decide (hdr_type byte ≠ SUBSCRIBE) then Ret (-1, o)
  else
    '(rc, mylen) ← MQTTPacket_decodeBuf buf curdata;
    let curdata := (curdata + Z.to_nat rc)%nat in
    let enddata := (curdata + Z.to_nat mylen)%nat in
    '(packetid, curdata) ← readInt buf curdata;
    let o := {| sub_dup := hdr_dup byte; sub_packetid := packetid; sub_count := 0;
                sub_topicFilters := sub_topicFilters o;
                sub_requestedQoSs := sub_requestedQoSs o |} in
    loop (S (enddata - curdata)) (subscribe_body char_signed buf enddata rc) (curdata, o).

Definition MQTTSerialize_suback (buf : list Z) (buflen packetid : Z) (count : nat)
    (grantedQoSs : list Z) : outcome (Z * list Z) :=
  len ← int (2 + Z.of_nat count);
  if decide (buflen < len) then Ret (MQTTPACKET_BUFFER_TOO_SHORT, buf)
  else
    w ← writeChar (MQTTHeader_byte SUBACK 0 0 0) (WCur buf 0);
    w ← MQTTPacket_encode len w;
    w ← writeInt packetid w;
    w ← for_ count 0 (λ i w, qos ← array_get grantedQoSs i; writeChar qos w) w;
    Ret (Z.of_nat (wpos w), wmem w).

(** ** UNSUBSCRIBE, from the client *)

Definition MQTTSerialize_unsubscribeLength (count : nat) (topicFilters : list MQTTString) :
    outcome Z :=
  for_ count 0 (λ i len,
    topic ← array_get topicFilters i;
    t ← int (2 + MQTTstrlen topic);
    int (len + t)) 2.

Definition MQTTSerialize_unsubscribe (buf : list Z) (buflen dup packetid : Z) (count : nat)
    (topicFilters : list MQTTString) : outcome (Z * list Z) :=
  rem_len ← MQTTSerialize_unsubscribeLength count topicFilters;
  len ← MQTTPacket_len rem_len;
  if decide (len > buflen) then Ret (MQTTPACKET_BUFFER_TOO_SHORT, buf)
  else
    w ← writeChar (MQTTHeader_byte UNSUBSCRIBE dup 1 0) (WCur buf 0);
    w ← MQTTPacket_encode rem_len w;
    w ← writeInt packetid w;
    w ← for_ count 0 (λ i w, topic ← array_get topicFilters i; writeMQTTString topic w) w;
    Ret (Z.of_nat (wpos w), wmem w).

(** Returns the C result and [*packetid]. *)
Definition MQTTDeserialize_unsuback (packetid : Z) (buf : list Z) (buflen : Z) :
    outcome (Z * Z) :=
  '(rc, o) ← MQTTDeserialize_ack {| ack_type := 0; ack_dup := 0; ack_packetid := packetid |}
               buf buflen;
  Ret (if decide (ack_type o = UNSUBACK) then 1 else rc, ack_packetid o).

(** ** UNSUBSCRIBE, at the server *)

Record UnsubscribeData := {
  unsub_dup : Z;
  unsub_packetid : Z;
  unsub_count : nat;
  unsub_topicFilters : list MQTTString;
}.

Definition unsubscribe_body (buf : list Z) (enddata : nat) (rc : Z)
    (s : nat * UnsubscribeData) : outcome (nat * UnsubscribeData + Z * UnsubscribeData) :=
  let '(curdata, o) := s in
  if decide (curdata < enddata)%nat then
    topic ← array_get (unsub_topicFilters o) (unsub_count o);
    '(ok, topic, curdata) ← readMQTTLenString topic buf curdata enddata;
    filters ← array_set (unsub_topicFilters o) (unsub_count o) topic;
    if decide (ok = 0) then
      Ret (inr (rc, {| unsub_dup := unsub_dup o; unsub_packetid := unsub_packetid o;
                       unsub_count := unsub_count o; unsub_topicFilters := filters |}))
    else
      Ret (inl (curdata, {| unsub_dup := unsub_dup o; unsub_packetid := unsub_packetid o;
                            unsub_count := S (unsub_count o);
                            unsub_topicFilters := filters |}))
  else Ret (inr (1, o)).

Definition MQTTDeserialize_unsubscribe (o : UnsubscribeData) (maxcount : Z)
    (buf : list Z) (len : Z) : outcome (Z * UnsubscribeData) :=
  '(byte, curdata) ← readChar buf 0;
  if decide (hdr_type byte ≠ UNSUBSCRIBE) then Ret (0, o)
  else
    '(rc, mylen) ← MQTTPacket_decodeBuf buf curdata;
    let curdata := (curdata + Z.to_nat rc)%nat in
    let enddata := (curdata + Z.to_nat mylen)%nat in
    '(packetid, curdata) ← readInt buf curdata;
    let o := {| unsub_dup := hdr_dup byte; unsub_packetid := packetid; unsub_count := 0;
                unsub_topicFilters := unsub_topicFilters o |} in
    loop (S (enddata - curdata)) (unsubscribe_body buf enddata rc) (curdata, o).

Definition MQTTSerialize_unsuback (buf : list Z) (buflen packetid : Z) : outcome (Z * list Z) :=
  if decide (buflen < 2) then Ret (MQTTPACKET_BUFFER_TOO_SHORT, buf)
  else
    w ← writeChar (MQTTHeader_byte UNSUBACK 0 0 0) (WCur buf 0);
    w ← MQTTPacket_encode 2 w;
    w ← writeInt packetid w;
    Ret (Z.of_nat (wpos w), wmem w).

(** ** Reference: the packets of the protocol *)

(** One entry of a SUBSCRIBE: topic filter and requested QoS. *)
Definition sub_entry (e : list Z * Z) : list Z := utf_bytes e.1 ++ [u8 e.2].

Definition subscribe_payload (packetid : Z) (es : list (list Z * Z)) : list Z :=
  be16 packetid ++ concat (map sub_entry es).
Definition subscribe_packet (dup packetid : Z) (es : list (list Z * Z)) : list Z :=
  packet (MQTTHeader_byte SUBSCRIBE dup 1 0) (subscribe_payload packetid es).

Definition suback_packet (packetid : Z) (codes : list Z) : list Z :=
  packet (MQTTHeader_byte SUBACK 0 0 0) (be16 packetid ++ codes).

Definition unsubscribe_payload (packetid : Z) (topics : list (list Z)) : list Z :=
  be16 packetid ++ concat (map utf_bytes topics).
Definition unsubscribe_packet (dup packetid : Z) (topics : list (list Z)) : list Z :=
  packet (MQTTHeader_byte UNSUBSCRIBE dup 1 0) (unsubscribe_payload packetid topics).

(** ** Serializers *)

(** Two arrays read at the same index are one array of pairs. *)
Lemma for_zip {A B W} (as_ : list A) (bs : list B) (f : A → B → W → outcome W) (w : W) :
  length as_ = length bs →
  for_ (length as_) 0 (λ i w, a ← array_get as_ i; b ← array_get bs i; f a b w) w =
  foldM (λ '(a, b) w, f a b w) (zip as_ bs) w.
Proof.
  intros Hl. rewrite <- for_list. rewrite length_zip_with, <- Hl, Nat.min_id.
  apply for_ext. intros i w' Hi. unfold array_get. rewrite lookup_zip_with.
  destruct (lookup_lt_is_Some_2 as_ i) as [a ->]; [lia|].
  destruct (lookup_lt_is_Some_2 bs i) as [b ->]; [lia|]. by cbn.
Qed.

Definition bytes_of (topics : list MQTTString) : list (list Z) := map MQTTString_bytes topics.

(** The length functions add up the sizes of the entries. *)
Lemma length_fold_ok (k : Z) (g : MQTTString → list Z) topics acc :
  0 ≤ k ≤ 3 →
  (∀ t, wf_string t → Z.of_nat (length (g t)) = k + MQTTstrlen t) →
  Forall wf_string topics → 0 ≤ acc →
  acc + Z.of_nat (length (concat (map g topics))) < 268435456 →
  ∀ f : MQTTString → Z → outcome Z,
  (∀ t len, 0 ≤ MQTTstrlen t < 65536 → 0 ≤ len → len + k + MQTTstrlen t < 268435456 →
     f t len = Ret (len + (k + MQTTstrlen t))) →
  foldM f topics acc = Ret (acc + Z.of_nat (length (concat (map g topics)))).
Proof.
  intros Hk Hg Hwf Ha Hlt f Hf. revert acc Ha Hlt.
  induction Hwf as [|t topics Ht Hwf IH]; intros acc Ha Hlt.
  - cbn. f_equal. lia.
  - cbn [map concat foldM] in *. rewrite length_app, Nat2Z.inj_add, (Hg t Ht) in *.
    pose proof (MQTTstrlen_ok t Ht) as Hlen. destruct Ht as (_ & Ht & _).
    rewrite Hf by lia. bret. rewrite IH by lia. f_equal. lia.
Qed.

Lemma subscribeLength_ok packetid topics qoss :
  length topics = length qoss → Forall wf_string topics →
  Z.of_nat (length (subscribe_payload packetid (zip (bytes_of topics) qoss))) < 268435456 →
  MQTTSerialize_subscribeLength (length topics) topics =
  Ret (Z.of_nat (length (subscribe_payload packetid (zip (bytes_of topics) qoss)))).
Proof.
  intros Hl Hwf. unfold subscribe_payload. rewrite length_app, length_be16.
  assert (length (concat (map sub_entry (zip (bytes_of topics) qoss))) =
    length (concat (map (λ t, sub_entry (MQTTString_bytes t, 0)) topics))) as ->.
  { revert qoss Hl. induction topics as [|t topics IH]; intros [|q qoss] Hl; try done.
    injection Hl as Hl. inversion_clear Hwf. cbn [bytes_of map zip zip_with concat].
    rewrite !length_app. f_equal; [|by apply IH].
    unfold sub_entry. cbn [fst]. by rewrite !length_app. }
  intros Hlt. unfold MQTTSerialize_subscribeLength. rewrite for_list.
  rewrite (length_fold_ok 3 (λ t, sub_entry (MQTTString_bytes t, 0))); try done; try lia.
  - f_equal. lia.
  - intros t Ht. unfold sub_entry. rewrite MQTTstrlen_ok by done.
    rewrite length_app, length_utf. cbn. lia.
  - intros t len Hs Hlen Hsum. int_steps. f_equal. lia.
Qed.

Lemma sub_entries_bytes es :
  Forall (λ e, Forall is_byte e.1) es → Forall is_byte (concat (map sub_entry es)).
Proof.
  induction 1 as [|e es He Hes IH]; [constructor|]. cbn [map concat].
  apply Forall_app. split; [|done]. unfold sub_entry. auto with bytes.
Qed.

Lemma foldM_zip_bytes topics qoss w :
  Forall wf_string topics →
  foldM (λ '(t, q) w, w ← writeMQTTString t w; writeChar q w) (zip topics qoss) w =
  put (concat (map sub_entry (zip (bytes_of topics) qoss))) w.
Proof.
  intros Hwf. revert qoss w. induction Hwf as [|t topics Ht _ IH]; intros [|q qoss] w; try done.
  cbn [bytes_of map zip zip_with foldM concat]. rewrite put_app.
  change (sub_entry (MQTTString_bytes t, q)) with (utf_bytes (MQTTString_bytes t) ++ [u8 q]).
  rewrite put_app, !bind_assoc. rewrite writeMQTTString_put by done.
  apply bind_ext. intros w'. rewrite writeChar_put.
  rewrite <- (put_u8 [q]). apply bind_ext. intros w''. apply IH.
Qed.

Lemma MQTTSerialize_subscribe_ok buf buflen dup packetid topics qoss :
  let es := zip (bytes_of topics) qoss in
  let pkt := subscribe_packet dup packetid es in
  length topics = length qoss → Forall wf_string topics → is_u16 packetid →
  Z.of_nat (length (subscribe_payload packetid es)) < 268435456 →
  buflen ≤ Z.of_nat (length buf) →
  ∃ L, Z.of_nat (length pkt) ≤ L ≤ Z.of_nat (length pkt) + 1 ∧
    MQTTSerialize_subscribe buf buflen dup packetid (length topics) topics qoss =
    if decide (L > buflen) then Ret (MQTTPACKET_BUFFER_TOO_SHORT, buf)
    else Ret (Z.of_nat (length pkt), pkt ++ drop (length pkt) buf).
Proof.
  cbv zeta. unfold subscribe_packet. intros Hlen Hwf Hid Hn Hl.
  pose proof (subscribeLength_ok packetid topics qoss Hlen Hwf Hn) as Hsl.
  assert (Forall (λ e, Forall is_byte e.1) (zip (bytes_of topics) qoss)) as Hb.
  { unfold bytes_of. clear -Hwf Hlen. revert qoss Hlen.
    induction Hwf as [|t topics (Ht & _) _ IH]; intros [|q qoss] Hlen; try done; constructor; auto. }
  apply sub_entries_bytes in Hb.
  assert (∀ w, for_ (length topics) 0 (λ i w,
          topic ← array_get topics i;
          w ← writeMQTTString topic w;
          qos ← array_get qoss i;
          writeChar qos w) w =
    put (concat (map sub_entry (zip (bytes_of topics) qoss))) w) as Hfor.
  { intros w. rewrite (for_ext _ _ _ (λ i w, topic ← array_get topics i;
      qos ← array_get qoss i; w ← writeMQTTString topic w; writeChar qos w)).
    - rewrite for_zip by done. rewrite foldM_zip_bytes by done. done.
    - intros j w' Hj. unfold array_get.
      destruct (lookup_lt_is_Some_2 topics j) as [t ->]; [lia|].
      destruct (lookup_lt_is_Some_2 qoss j) as [q ->]; [lia|]. cbn [of_option].
      rewrite !bind_Ret. by destruct (writeMQTTString t w'). }
  pose proof (length_packet (MQTTHeader_byte SUBSCRIBE dup 1 0)
    (subscribe_payload packetid (zip (bytes_of topics) qoss))) as Hsz.
  unfold subscribe_payload in *.
  remember (concat _) as es eqn:Hes. clear Hes.
  destruct (MQTTPacket_len_bounds (Z.of_nat (length (be16 packetid ++ es)))) as (L & HL & HLb); [lia|].
  exists L. split; [lia|]. unfold MQTTSerialize_subscribe.
  rewrite Hsl. bret. rewrite HL. bret. case_decide as Hgt; [done|]. unfold packet_size in *.
  rewrite length_app, length_be16 in *.
  rewrite filled_start.
  wr writeChar_put.
  wr encode_put.
  wr writeInt_put.
  wr Hfor.
  rewrite <- length_be16 with (z := packetid), <- length_app.
  wr_done (packet (MQTTHeader_byte SUBSCRIBE dup 1 0) (be16 packetid ++ es)) idtac.
Qed.

Lemma unsubscribeLength_ok packetid topics :
  Forall wf_string topics →
  Z.of_nat (length (unsubscribe_payload packetid (bytes_of topics))) < 268435456 →
  MQTTSerialize_unsubscribeLength (length topics) topics =
  Ret (Z.of_nat (length (unsubscribe_payload packetid (bytes_of topics)))).
Proof.
  intros Hwf. unfold unsubscribe_payload, bytes_of. rewrite map_map, length_app, length_be16.
  intros Hlt. unfold MQTTSerialize_unsubscribeLength. rewrite for_list.
  rewrite (length_fold_ok 2 (λ t, utf_bytes (MQTTString_bytes t))); try done; try lia.
  - f_equal. lia.
  - intros t Ht. rewrite MQTTstrlen_ok, length_utf by done. lia.
  - intros t len Hs Hlen Hsum. int_steps. done.
Qed.

Lemma MQTTSerialize_unsubscribe_ok buf buflen dup packetid topics :
  let pkt := unsubscribe_packet dup packetid (bytes_of topics) in
  Forall wf_string topics → is_u16 packetid →
  Z.of_nat (length (unsubscribe_payload packetid (bytes_of topics))) < 268435456 →
  buflen ≤ Z.of_nat (length buf) →
  ∃ L, Z.of_nat (length pkt) ≤ L ≤ Z.of_nat (length pkt) + 1 ∧
    MQTTSerialize_unsubscribe buf buflen dup packetid (length topics) topics =
    if decide (L > buflen) then Ret (MQTTPACKET_BUFFER_TOO_SHORT, buf)
    else Ret (Z.of_nat (length pkt), pkt ++ drop (length pkt) buf).
Proof.
  cbv zeta. unfold unsubscribe_packet. intros Hwf Hid Hn Hl.
  pose proof (unsubscribeLength_ok packetid topics Hwf Hn) as Hsl.
  assert (Forall is_byte (concat (map utf_bytes (bytes_of topics)))) as Hb.
  { unfold bytes_of. rewrite map_map. clear -Hwf.
    induction Hwf as [|t topics (Ht & _) _ IH]; [constructor|].
    apply Forall_app. auto with bytes. }
  assert (∀ w, for_ (length topics) 0
      (λ i w, topic ← array_get topics i; writeMQTTString topic w) w =
    put (concat (map utf_bytes (bytes_of topics))) w) as Hfor.
  { intros w. rewrite for_list. unfold bytes_of. rewrite map_map.
    apply (foldM_put _ (λ t, utf_bytes (MQTTString_bytes t)) wf_string); [|done].
    intros. by apply writeMQTTString_put. }
  pose proof (length_packet (MQTTHeader_byte UNSUBSCRIBE dup 1 0)
    (unsubscribe_payload packetid (bytes_of topics))) as Hsz.
  unfold unsubscribe_payload in *.
  remember (concat _) as es eqn:Hes. clear Hes.
  destruct (MQTTPacket_len_bounds (Z.of_nat (length (be16 packetid ++ es)))) as (L & HL & HLb); [lia|].
  exists L. split; [lia|]. unfold MQTTSerialize_unsubscribe.
  rewrite Hsl. bret. rewrite HL. bret. case_decide as Hgt; [done|]. unfold packet_size in *.
  rewrite length_app, length_be16 in *.
  rewrite filled_start.
  wr writeChar_put.
  wr encode_put.
  wr writeInt_put.
  wr Hfor.
  rewrite <- length_be16 with (z := packetid), <- length_app.
  wr_done (packet (MQTTHeader_byte UNSUBSCRIBE dup 1 0) (be16 packetid ++ es)) idtac.
Qed.

(** The acknowledgements need two (header) plus two (packet identifier) bytes
    more than their size checks ask for. *)
Lemma suback_codes_put codes w :
  Forall is_byte codes →
  for_ (length codes) 0 (λ i w, qos ← array_get codes i; writeChar qos w) w = put codes w.
Proof.
  intros Hc. rewrite for_list, (foldM_put _ (λ c, [c]) is_byte); [|by intros; apply writeChar_put|done].
  f_equal. clear Hc. induction codes; cbn; by f_equal.
Qed.

Lemma length_suback_packet packetid codes :
  Z.of_nat (length (suback_packet packetid codes)) = packet_size (2 + Z.of_nat (length codes)).
Proof. unfold suback_packet. rewrite length_packet, length_app, length_be16. f_equal. lia. Qed.

Lemma MQTTSerialize_suback_ok buf buflen packetid codes :
  let pkt := suback_packet packetid codes in
  Forall is_byte codes → is_u16 packetid →
  2 + Z.of_nat (length codes) < 268435456 →
  2 + Z.of_nat (length codes) ≤ buflen →
  (length pkt ≤ length buf)%nat →
  MQTTSerialize_suback buf buflen packetid (length codes) codes =
  Ret (Z.of_nat (length pkt), pkt ++ drop (length pkt) buf).
Proof.
  cbv zeta. intros Hb Hid Hn Hbl Hl. pose proof (length_suback_packet packetid codes) as Hsz.
  unfold packet_size in Hsz. unfold MQTTSerialize_suback.
  rewrite int_ok by (ints; lia). bret. rewrite decide_False by lia.
  rewrite filled_start.
  wr writeChar_put.
  wr encode_put.
  wr writeInt_put.
  wr suback_codes_put.
  wr_done (suback_packet packetid codes) ltac:(unfold suback_packet, packet;
    rewrite length_app, length_be16, Nat2Z.inj_add).
Qed.

Lemma MQTTSerialize_unsuback_ok buf buflen packetid :
  is_u16 packetid → 2 ≤ buflen → (4 ≤ length buf)%nat →
  MQTTSerialize_unsuback buf buflen packetid =
  Ret (4, ack_packet UNSUBACK 0 0 packetid ++ drop 4 buf).
Proof.
  intros Hid Hbl Hl. unfold MQTTSerialize_unsuback. rewrite decide_False by lia.
  rewrite filled_start.
  wr writeChar_put.
  wr encode_digit.
  wr writeInt_put.
  done.
Qed.

(** With a buffer of the size the check accepts, the store goes past its end. *)
Lemma MQTTSerialize_unsuback_overflow buf packetid :
  is_u16 packetid → (2 ≤ length buf < 4)%nat →
  MQTTSerialize_unsuback buf (Z.of_nat (length buf)) packetid = Undef.
Proof.
  intros Hid Hl. unfold MQTTSerialize_unsuback. rewrite decide_False by lia.
  rewrite filled_start.
  wr writeChar_put.
  wr encode_digit.
  rewrite writeInt_put by done. rewrite put_filled_Undef; [done|].
  cbn [app length]. rewrite length_be16. lia.
Qed.

Lemma MQTTSerialize_suback_overflow buf packetid codes :
  Forall is_byte codes → is_u16 packetid → (length codes < 126)%nat →
  (2 + length codes ≤ length buf < 4 + length codes)%nat →
  MQTTSerialize_suback buf (Z.of_nat (length buf)) packetid (length codes) codes = Undef.
Proof.
  intros Hb Hid Hn Hl. unfold MQTTSerialize_suback.
  rewrite int_ok by (ints; lia). bret. rewrite decide_False by lia.
  rewrite filled_start.
  wr writeChar_put.
  wr encode_digit.
  rewrite writeInt_put by done.
  destruct (decide (4 ≤ length buf)%nat).
  - rewrite put_filled; [|apply be16_bytes|cbn; rewrite length_be16; lia]. bret.
    rewrite suback_codes_put by done. rewrite put_filled_Undef; [done|].
    autorewrite with len. cbn. lia.
  - rewrite put_filled_Undef; [done|]. cbn [app length]. rewrite length_be16. lia.
Qed.

(** ** Deserializers *)

(** The entries delivered so far: the first [sub_count] cells of the arrays. *)
Definition sub_view (o : SubscribeData) : list (list Z) * list Z :=
  (map MQTTString_bytes (take (sub_count o) (sub_topicFilters o)),
   take (sub_count o) (sub_requestedQoSs o)).

Lemma sub_entries_length es :
  (3 * length es ≤ length (concat (map sub_entry es)))%nat.
Proof.
  induction es as [|e es IH]; [done|]. cbn [map concat length].
  rewrite length_app. unfold sub_entry at 1. rewrite length_app, length_utf. cbn. lia.
Qed.

Section subscribe.
Context (char_signed : bool).

(** One entry of the packet. *)
Lemma subscribe_body_entry buf e_ rc p o t q s :
  drop p buf = utf_bytes t ++ u8 q :: s → Z.of_nat (length t) < 65536 →
  (p + length (sub_entry (t, q)) ≤ e_)%nat →
  (sub_count o < length (sub_topicFilters o))%nat →
  (sub_count o < length (sub_requestedQoSs o))%nat →
  ∃ o', subscribe_body char_signed buf e_ rc (p, o) =
          Ret (inl ((p + length (sub_entry (t, q)))%nat, o')) ∧
    sub_dup o' = sub_dup o ∧ sub_packetid o' = sub_packetid o ∧
    sub_count o' = S (sub_count o) ∧
    length (sub_topicFilters o') = length (sub_topicFilters o) ∧
    length (sub_requestedQoSs o') = length (sub_requestedQoSs o) ∧
    sub_view o' = ((sub_view o).1 ++ [t], (sub_view o).2 ++ [char_val char_signed (u8 q)]).
Proof.
  intros Hd Ht He Hf Hq. unfold sub_entry in *. rewrite length_app, length_utf in *.
  cbn [fst snd length] in *. unfold subscribe_body. dec. unfold array_get.
  destruct (lookup_lt_is_Some_2 (sub_topicFilters o) (sub_count o)) as [ms ->]; [done|].
  cbn [of_option]. bret.
  rewrite (readMQTTLenString_drop _ _ _ _ t (u8 q :: s)) by (done || lia). bret.
  rewrite array_set_ok by done. bret. dec.
  apply drop_app_cut in Hd. rewrite length_utf, Nat.add_assoc in Hd.
  rewrite (readChar_drop _ _ _ _ Hd). bret.
  cbn [sub_dup sub_packetid sub_count sub_topicFilters sub_requestedQoSs].
  rewrite array_set_ok by done. bret. eexists. split; [do 3 f_equal; lia|].
  cbn [sub_dup sub_packetid sub_count sub_topicFilters sub_requestedQoSs].
  rewrite !length_insert. repeat split.
  unfold sub_view. cbn [sub_count sub_topicFilters sub_requestedQoSs fst snd].
  rewrite !take_S_insert by done. rewrite map_app. cbn [map].
  by rewrite MQTTString_bytes_read.
Qed.

Lemma subscribe_loop_ok buf e_ rc rest es fuel p o :
  drop p buf = concat (map sub_entry es) ++ rest →
  Forall (λ e, Z.of_nat (length e.1) < 65536) es →
  e_ = (p + length (concat (map sub_entry es)))%nat →
  (sub_count o + length es ≤ length (sub_topicFilters o))%nat →
  (sub_count o + length es ≤ length (sub_requestedQoSs o))%nat →
  (length es < fuel)%nat →
  ∃ o', loop fuel (subscribe_body char_signed buf e_ rc) (p, o) = Ret (1, o') ∧
    sub_dup o' = sub_dup o ∧ sub_packetid o' = sub_packetid o ∧
    sub_count o' = (sub_count o + length es)%nat ∧
    sub_view o' = ((sub_view o).1 ++ map fst es,
                   (sub_view o).2 ++ map (λ e, char_val char_signed (u8 e.2)) es).
Proof.
  intros Hd Hes. revert fuel p o Hd.
  induction Hes as [|[t q] es Ht Hes IH]; intros fuel p o Hd He Hf Hq Hfuel;
    (destruct fuel as [|fuel]; [cbn in *; lia|]).
  - rewrite loop_S. unfold subscribe_body. cbn [map concat length] in *.
    rewrite decide_False by lia. bret. exists o. repeat split; [lia|].
    rewrite !app_nil_r. by destruct (sub_view o).
  - cbn [map concat length] in *. rewrite length_app in He.
    rewrite <- app_assoc in Hd.
    pose proof Hd as Hd'. unfold sub_entry in Hd' at 1. rewrite <- app_assoc in Hd'.
    destruct (subscribe_body_entry buf e_ rc p o t q _ Hd') as
      (o1 & H1 & Hdup & Hid & Hc & Hl1 & Hl2 & Hv); [cbn in *; lia..|].
    rewrite loop_S, H1. bret. apply drop_app_cut in Hd.
    destruct (IH fuel _ o1 Hd) as (o' & Ho & Hdup' & Hid' & Hc' & Hv'); [lia..|].
    exists o'. split; [done|]. repeat split; [congruence|congruence|lia|].
    rewrite Hv', Hv. cbn [fst snd]. by rewrite <- !app_assoc.
Qed.

(** More entries than the arrays hold: the code writes past their end. *)
Lemma subscribe_loop_overflow buf e_ rc rest es fuel p o :
  drop p buf = concat (map sub_entry es) ++ rest →
  Forall (λ e, Z.of_nat (length e.1) < 65536) es →
  e_ = (p + length (concat (map sub_entry es)))%nat →
  length (sub_requestedQoSs o) = length (sub_topicFilters o) →
  (sub_count o ≤ length (sub_topicFilters o) < sub_count o + length es)%nat →
  (length es < fuel)%nat →
  loop fuel (subscribe_body char_signed buf e_ rc) (p, o) = Undef.
Proof.
  intros Hd Hes. revert fuel p o Hd.
  induction Hes as [|[t q] es Ht Hes IH]; intros fuel p o Hd He Hq Hf Hfuel;
    (destruct fuel as [|fuel]; [cbn in *; lia|]).
  - cbn in *. lia.
  - cbn [map concat length] in *. rewrite length_app in He.
    assert (0 < length (sub_entry (t, q)))%nat by (unfold sub_entry; len).
    rewrite loop_S.
    destruct (decide (sub_count o < length (sub_topicFilters o))%nat) as [Hlt|Hge].
    + rewrite <- app_assoc in Hd.
      pose proof Hd as Hd'. unfold sub_entry in Hd' at 1. rewrite <- app_assoc in Hd'.
      destruct (subscribe_body_entry buf e_ rc p o t q _ Hd') as
        (o1 & H1 & Hdup & Hid & Hc & Hl1 & Hl2 & Hv); [cbn in *; lia..|].
      rewrite H1. bret. apply drop_app_cut in Hd.
      rewrite (IH fuel _ o1 Hd); [done|lia..].
    + unfold subscribe_body. dec. unfold array_get.
      by rewrite lookup_ge_None_2 by lia.
Qed.

(** Both outcomes, from the packet. *)
Lemma MQTTDeserialize_subscribe_start o dup packetid es rest maxcount buflen :
  is_u16 packetid →
  Z.of_nat (length (subscribe_payload packetid es)) < 268435456 →
  let buf := subscribe_packet dup packetid es ++ rest in
  ∃ p rc, drop p buf = concat (map sub_entry es) ++ rest ∧
    MQTTDeserialize_subscribe char_signed o maxcount buf buflen =
    loop (S (length (concat (map sub_entry es))))
      (subscribe_body char_signed buf (p + length (concat (map sub_entry es))) rc)
      (p, {| sub_dup := field 1 dup; sub_packetid := packetid; sub_count := 0;
             sub_topicFilters := sub_topicFilters o;
             sub_requestedQoSs := sub_requestedQoSs o |}).
Proof.
  intros Hid Hn buf. unfold buf, subscribe_packet, MQTTDeserialize_subscribe.
  destruct (MQTTHeader_fields SUBSCRIBE dup 1 0) as (Ety & Edup & _).
  pose proof (drop_body (MQTTHeader_byte SUBSCRIBE dup 1 0) (subscribe_payload packetid es) rest)
    as Hdrop.
  assert (length (subscribe_payload packetid es) =
    2 + length (concat (map sub_entry es)))%nat as Hlen.
  { unfold subscribe_payload. by rewrite length_app, length_be16. }
  assert (subscribe_payload packetid es ++ rest =
    be16 packetid ++ concat (map sub_entry es) ++ rest) as Hsuf.
  { unfold subscribe_payload. by rewrite <- app_assoc. }
  rewrite Hsuf in Hdrop. remember (subscribe_payload packetid es) as body eqn:Hbody.
  rewrite readChar_packet. bret. rewrite Ety, Edup, decide_False by (intros []; done).
  rewrite decodeBuf_packet by lia. bret. rewrite body_start_fold, Nat2Z.id.
  rewrite (readInt_drop _ _ packetid _ Hid Hdrop). bret.
  apply drop_app_cut in Hdrop. rewrite length_be16 in Hdrop.
  exists (body_start body + 2)%nat, (Z.of_nat (length (rl_bytes (Z.of_nat (length body))))).
  split; [done|]. f_equal; [lia|]. f_equal. lia.
Qed.

Lemma subscribe_fuel es : (length es < S (length (concat (map sub_entry es))))%nat.
Proof. pose proof (sub_entries_length es). lia. Qed.

(** Arrays that have a cell for each entry receive the entries in order. *)
Lemma MQTTDeserialize_subscribe_ok o dup packetid es rest maxcount buflen :
  is_u16 packetid → 0 ≤ dup < 2 →
  Z.of_nat (length (subscribe_payload packetid es)) < 268435456 →
  Forall (λ e, Z.of_nat (length e.1) < 65536) es →
  (length es ≤ length (sub_topicFilters o))%nat →
  (length es ≤ length (sub_requestedQoSs o))%nat →
  ∃ o', MQTTDeserialize_subscribe char_signed o maxcount
          (subscribe_packet dup packetid es ++ rest) buflen = Ret (1, o') ∧
    sub_dup o' = dup ∧ sub_packetid o' = packetid ∧ sub_count o' = length es ∧
    sub_view o' = (map fst es, map (λ e, char_val char_signed (u8 e.2)) es).
Proof.
  intros Hid Hd Hn Hes H1 H2.
  destruct (MQTTDeserialize_subscribe_start o dup packetid es rest maxcount buflen)
    as (p & rc & Hp & ->); [done..|].
  edestruct subscribe_loop_ok as (o' & -> & Ed & Ei & Ec & Ev);
    [exact Hp|done|done|cbn; lia|cbn; lia|apply subscribe_fuel|].
  exists o'. rewrite Ed, Ei, Ec, Ev. cbn. split; [done|]. split; [|done].
  unfold field. by rewrite Z.mod_small.
Qed.

(** Arrays with fewer cells than the packet has entries are overrun, whatever
    [maxcount] says. *)
Lemma MQTTDeserialize_subscribe_overflow o dup packetid es rest maxcount buflen :
  is_u16 packetid →
  Z.of_nat (length (subscribe_payload packetid es)) < 268435456 →
  Forall (λ e, Z.of_nat (length e.1) < 65536) es →
  length (sub_requestedQoSs o) = length (sub_topicFilters o) →
  (length (sub_topicFilters o) < length es)%nat →
  MQTTDeserialize_subscribe char_signed o maxcount
    (subscribe_packet dup packetid es ++ rest) buflen = Undef.
Proof.
  intros Hid Hn Hes Hl Ho.
  destruct (MQTTDeserialize_subscribe_start o dup packetid es rest maxcount buflen)
    as (p & rc & Hp & ->); [done..|].
  eapply subscribe_loop_overflow; [exact Hp|done..| |apply subscribe_fuel]. cbn. lia.
Qed.
End subscribe.

(** Qualities of service below 128 are the same number as a [char] of either
    signedness. *)
Lemma char_val_small char_signed q : 0 ≤ q < 128 → char_val char_signed (u8 q) = q.
Proof.
  intros Hq. rewrite u8_id by (ints; lia). unfold char_val, swrap. destruct char_signed; [|done].
  change (2 ^ (8 - 1)) with 128. change (2 ^ 8) with 256. rewrite Z.mod_small; lia.
Qed.

Lemma zip_columns char_signed topics qoss :
  length topics = length qoss → Forall (λ q, 0 ≤ q < 128) qoss →
  let es := zip (bytes_of topics) qoss in
  length es = length topics ∧ map fst es = bytes_of topics ∧
  map (λ e, char_val char_signed (u8 e.2)) es = qoss.
Proof.
  intros Hl Hq. unfold bytes_of. cbv zeta. revert topics Hl.
  induction Hq as [|q qoss Hq Hqs IH]; intros [|t topics] Hl; cbn in *; try done.
  destruct (IH topics) as (-> & -> & ->); [lia|]. by rewrite char_val_small.
Qed.

Lemma wf_entries topics (qoss : list Z) :
  Forall wf_string topics →
  Forall (λ e, Z.of_nat (length e.1) < 65536) (zip (bytes_of topics) qoss).
Proof.
  intros Ht. revert qoss. induction Ht as [|t topics (_ & Hl & _) _ IH]; intros [|q qoss];
    cbn; auto.
Qed.

(** *** UNSUBSCRIBE *)

Definition unsub_view (o : UnsubscribeData) : list (list Z) :=
  map MQTTString_bytes (take (unsub_count o) (unsub_topicFilters o)).

Lemma unsubscribe_body_entry buf e_ rc p o t s :
  drop p buf = utf_bytes t ++ s → Z.of_nat (length t) < 65536 →
  (p + length (utf_bytes t) ≤ e_)%nat →
  (unsub_count o < length (unsub_topicFilters o))%nat →
  ∃ o', unsubscribe_body buf e_ rc (p, o) = Ret (inl ((p + length (utf_bytes t))%nat, o')) ∧
    unsub_dup o' = unsub_dup o ∧ unsub_packetid o' = unsub_packetid o ∧
    unsub_count o' = S (unsub_count o) ∧
    length (unsub_topicFilters o') = length (unsub_topicFilters o) ∧
    unsub_view o' = unsub_view o ++ [t].
Proof.
  intros Hd Ht He Hf. rewrite length_utf in *. unfold unsubscribe_body. dec. unfold array_get.
  destruct (lookup_lt_is_Some_2 (unsub_topicFilters o) (unsub_count o)) as [ms ->]; [done|].
  cbn [of_option]. bret.
  rewrite (readMQTTLenString_drop _ _ _ _ t s) by (done || lia). bret.
  rewrite array_set_ok by done. bret. dec. eexists. split; [do 3 f_equal; lia|].
  cbn [unsub_dup unsub_packetid unsub_count unsub_topicFilters].
  rewrite !length_insert. repeat split.
  unfold unsub_view. cbn [unsub_count unsub_topicFilters].
  rewrite !take_S_insert by done. rewrite map_app. cbn [map].
  by rewrite MQTTString_bytes_read.
Qed.

Lemma unsubscribe_loop_ok buf e_ rc rest ts fuel p o :
  drop p buf = concat (map utf_bytes ts) ++ rest →
  Forall (λ t, Z.of_nat (length t) < 65536) ts →
  e_ = (p + length (concat (map utf_bytes ts)))%nat →
  (unsub_count o + length ts ≤ length (unsub_topicFilters o))%nat →
  (length ts < fuel)%nat →
  ∃ o', loop fuel (unsubscribe_body buf e_ rc) (p, o) = Ret (1, o') ∧
    unsub_dup o' = unsub_dup o ∧ unsub_packetid o' = unsub_packetid o ∧
    unsub_count o' = (unsub_count o + length ts)%nat ∧
    unsub_view o' = unsub_view o ++ ts.
Proof.
  intros Hd Hts. revert fuel p o Hd.
  induction Hts as [|t ts Ht Hts IH]; intros fuel p o Hd He Hf Hfuel;
    (destruct fuel as [|fuel]; [cbn in *; lia|]).
  - rewrite loop_S. unfold unsubscribe_body. cbn [map concat length] in *.
    rewrite decide_False by lia. bret. exists o. repeat split; [lia|].
    by rewrite app_nil_r.
  - cbn [map concat length] in *. rewrite length_app in He. rewrite <- app_assoc in Hd.
    destruct (unsubscribe_body_entry buf e_ rc p o t _ Hd) as
      (o1 & H1 & Hdup & Hid & Hc & Hl1 & Hv); [lia..|].
    rewrite loop_S, H1. bret. apply drop_app_cut in Hd.
    destruct (IH fuel _ o1 Hd) as (o' & Ho & Hdup' & Hid' & Hc' & Hv'); [lia..|].
    exists o'. split; [done|]. repeat split; [congruence|congruence|lia|].
    rewrite Hv', Hv. by rewrite <- !app_assoc.
Qed.

Lemma MQTTDeserialize_unsubscribe_ok o dup packetid ts rest maxcount len :
  is_u16 packetid → 0 ≤ dup < 2 →
  Z.of_nat (length (unsubscribe_payload packetid ts)) < 268435456 →
  Forall (λ t, Z.of_nat (length t) < 65536) ts →
  (length ts ≤ length (unsub_topicFilters o))%nat →
  ∃ o', MQTTDeserialize_unsubscribe o maxcount (unsubscribe_packet dup packetid ts ++ rest) len
        = Ret (1, o') ∧
    unsub_dup o' = dup ∧ unsub_packetid o' = packetid ∧ unsub_count o' = length ts ∧
    unsub_view o' = ts.
Proof.
  intros Hid Hdup Hn Hts Hf. unfold unsubscribe_packet, MQTTDeserialize_unsubscribe.
  destruct (MQTTHeader_fields UNSUBSCRIBE dup 1 0) as (Ety & Edup & _).
  unfold field in Edup. rewrite Z.mod_small in Edup by done.
  pose proof (drop_body (MQTTHeader_byte UNSUBSCRIBE dup 1 0) (unsubscribe_payload packetid ts)
    rest) as Hdrop.
  assert (length (unsubscribe_payload packetid ts) =
    2 + length (concat (map utf_bytes ts)))%nat as Hlen.
  { unfold unsubscribe_payload. by rewrite length_app, length_be16. }
  assert (unsubscribe_payload packetid ts ++ rest =
    be16 packetid ++ concat (map utf_bytes ts) ++ rest) as Hsuf.
  { unfold unsubscribe_payload. by rewrite <- app_assoc. }
  rewrite Hsuf in Hdrop. remember (unsubscribe_payload packetid ts) as body eqn:Hbody.
  rewrite readChar_packet. bret. rewrite Ety, Edup, decide_False by (intros []; done).
  rewrite decodeBuf_packet by lia. bret. rewrite body_start_fold, Nat2Z.id.
  rewrite (readInt_drop _ _ packetid _ Hid Hdrop). bret.
  apply drop_app_cut in Hdrop. rewrite length_be16 in Hdrop.
  assert (2 * length ts ≤ length (concat (map utf_bytes ts)))%nat.
  { clear. induction ts as [|t ts IH]; [done|]. cbn [map concat length].
    rewrite length_app, length_utf. lia. }
  edestruct (unsubscribe_loop_ok) as (o' & Ho & Hd' & Hid' & Hc' & Hv'); [exact Hdrop|exact Hts|..].
  4: { exists o'. split; [exact Ho|]. done. }
  all: cbn [unsub_count unsub_topicFilters]; lia.
Qed.

(** *** SUBACK *)

Definition suback_view (o : SubackData) : list Z :=
  take (suback_count o) (suback_grantedQoSs o).

Section suback.
Context (char_signed : bool) (maxcount : Z) (buf : list Z) (e_ : nat) (rc : Z).

Lemma suback_body_code p o c s :
  drop p buf = c :: s → (p < e_)%nat →
  Z.of_nat (suback_count o) ≤ maxcount →
  suback_body char_signed maxcount buf e_ rc (p, o) =
  if decide (suback_count o < length (suback_grantedQoSs o))%nat then
    Ret (inl (S p, {| suback_packetid := suback_packetid o;
      suback_count := S (suback_count o);
      suback_grantedQoSs :=
        <[suback_count o := char_val char_signed c]> (suback_grantedQoSs o) |}))
  else Undef.
Proof.
  intros Hd He Hm. unfold suback_body. rewrite decide_True by done.
  rewrite decide_False by lia. rewrite (readChar_drop _ _ _ _ Hd). bret.
  unfold array_set. by case_decide.
Qed.

Lemma suback_loop_ok rest codes fuel p o :
  drop p buf = codes ++ rest → e_ = (p + length codes)%nat →
  Z.of_nat (suback_count o + length codes) ≤ maxcount + 1 →
  (suback_count o + length codes ≤ length (suback_grantedQoSs o))%nat →
  (length codes < fuel)%nat →
  ∃ o', loop fuel (suback_body char_signed maxcount buf e_ rc) (p, o) = Ret (1, o') ∧
    suback_packetid o' = suback_packetid o ∧
    suback_count o' = (suback_count o + length codes)%nat ∧
    suback_view o' = suback_view o ++ map (char_val char_signed) codes.
Proof.
  revert fuel p o. induction codes as [|c codes IH]; intros fuel p o Hd He Hm Hl Hf;
    (destruct fuel as [|fuel]; [cbn in *; lia|]); cbn [length map app] in *.
  - rewrite loop_S. unfold suback_body. rewrite decide_False by lia. bret.
    exists o. repeat split; [lia|]. by rewrite app_nil_r.
  - rewrite loop_S, (suback_body_code _ _ _ _ Hd) by lia. rewrite decide_True by lia. bret.
    apply drop_cons_lookup in Hd as [_ Hd].
    edestruct IH as (o' & Ho & Hid & Hc & Hv); [exact Hd|..|].
    5: { exists o'. split; [exact Ho|]. rewrite Hid, Hc, Hv. repeat split.
         - cbn [suback_count]. lia.
         - unfold suback_view. cbn [suback_count suback_grantedQoSs].
           rewrite take_S_insert by lia. by rewrite <- app_assoc. }
    all: cbn [suback_count suback_grantedQoSs]; rewrite ?length_insert; lia.
Qed.

(** With an array of [maxcount] cells, as the documentation asks, one code too
    many is stored past the end of the array. *)
Lemma suback_loop_overflow rest codes fuel p o :
  drop p buf = codes ++ rest → e_ = (p + length codes)%nat →
  maxcount = Z.of_nat (length (suback_grantedQoSs o)) →
  (suback_count o ≤ length (suback_grantedQoSs o) < suback_count o + length codes)%nat →
  (length codes < fuel)%nat →
  loop fuel (suback_body char_signed maxcount buf e_ rc) (p, o) = Undef.
Proof.
  revert fuel p o. induction codes as [|c codes IH]; intros fuel p o Hd He Hm Hl Hf;
    (destruct fuel as [|fuel]; [cbn in *; lia|]); cbn [length app] in *; [lia|].
  rewrite loop_S, (suback_body_code _ _ _ _ Hd) by lia. case_decide as Hlt; [|done]. bret.
  apply drop_cons_lookup in Hd as [_ Hd].
  rewrite IH; [done|done|..]; cbn [suback_count suback_grantedQoSs];
    rewrite ?length_insert; lia.
Qed.
End suback.

Lemma MQTTDeserialize_suback_start char_signed o packetid codes rest maxcount buflen :
  is_u16 packetid → 2 + Z.of_nat (length codes) < 268435456 →
  let buf := suback_packet packetid codes ++ rest in
  ∃ p rc, drop p buf = codes ++ rest ∧
    MQTTDeserialize_suback char_signed o maxcount buf buflen =
    loop (S (length codes)) (suback_body char_signed maxcount buf (p + length codes) rc)
      (p, {| suback_packetid := packetid; suback_count := 0;
             suback_grantedQoSs := suback_grantedQoSs o |}).
Proof.
  intros Hid Hn buf. unfold buf, suback_packet, MQTTDeserialize_suback.
  destruct (MQTTHeader_fields SUBACK 0 0 0) as (Ety & _).
  pose proof (drop_body (MQTTHeader_byte SUBACK 0 0 0) (be16 packetid ++ codes) rest) as Hdrop.
  assert (length (be16 packetid ++ codes) = 2 + length codes)%nat as Hlen by len.
  assert ((be16 packetid ++ codes) ++ rest = be16 packetid ++ codes ++ rest) as Hsuf
    by (by rewrite <- app_assoc).
  rewrite Hsuf in Hdrop. remember (be16 packetid ++ codes) as body eqn:Hbody.
  rewrite readChar_packet. bret. rewrite Ety, decide_False by (intros []; done).
  rewrite decodeBuf_packet by lia. bret. rewrite body_start_fold, Nat2Z.id.
  rewrite decide_False by lia.
  rewrite (readInt_drop _ _ packetid _ Hid Hdrop). bret.
  apply drop_app_cut in Hdrop. rewrite length_be16 in Hdrop.
  exists (body_start body + 2)%nat, (Z.of_nat (length (rl_bytes (Z.of_nat (length body))))).
  split; [done|]. f_equal; [lia|]. f_equal. lia.
Qed.

Lemma MQTTDeserialize_suback_ok char_signed o packetid codes rest maxcount buflen :
  is_u16 packetid → 2 + Z.of_nat (length codes) < 268435456 →
  Z.of_nat (length codes) ≤ maxcount + 1 →
  (length codes ≤ length (suback_grantedQoSs o))%nat →
  ∃ o', MQTTDeserialize_suback char_signed o maxcount (suback_packet packetid codes ++ rest) buflen
      = Ret (1, o') ∧
    suback_packetid o' = packetid ∧ suback_count o' = length codes ∧
    suback_view o' = map (char_val char_signed) codes.
Proof.
  intros Hid Hn Hm Hl.
  destruct (MQTTDeserialize_suback_start char_signed o packetid codes rest maxcount buflen)
    as (p & rc & Hp & ->); [done..|].
  edestruct (suback_loop_ok char_signed maxcount) as (o' & -> & Ei & Ec & Ev);
    [exact Hp|done|cbn; lia|cbn; lia|lia|]. by exists o'.
Qed.

Lemma MQTTDeserialize_suback_overflow char_signed o packetid codes rest maxcount buflen :
  is_u16 packetid → 2 + Z.of_nat (length codes) < 268435456 →
  maxcount = Z.of_nat (length (suback_grantedQoSs o)) →
  (length (suback_grantedQoSs o) < length codes)%nat →
  MQTTDeserialize_suback char_signed o maxcount (suback_packet packetid codes ++ rest) buflen =
  Undef.
Proof.
  intros Hid Hn Hm Hl.
  destruct (MQTTDeserialize_suback_start char_signed o packetid codes rest maxcount buflen)
    as (p & rc & Hp & ->); [done..|].
  eapply suback_loop_overflow; [exact Hp|done|done|cbn; lia|lia].
Qed.
