(* ===== verification/MqttConnect.v ===== *)
(** * CONNECT, CONNACK and the packets without a body

    Models [MQTTConnectClient.c] and [MQTTConnectServer.c] of
    [paho/src/MQTTPacket/src]. *)
From S2P Require Import Prelude MqttPacket MqttPublish.

(** ** Data *)

Record MQTTPacket_willOptions := {
  will_struct_id : list Z;
  will_struct_version : Z;
  will_topicName : MQTTString;
  will_message : MQTTString;
  will_retained : Z;
  will_qos : Z;
}.

Record MQTTPacket_connectData := {
  struct_id : list Z;
  struct_version : Z;
  MQTTVersion : Z;
  clientID : MQTTString;
  keepAliveInterval : Z;
  cleansession : Z;
  willFlag : Z;
  will : MQTTPacket_willOptions;
  username : MQTTString;
  password : MQTTString;
}.

Definition MQTTPacket_willOptions_initializer : MQTTPacket_willOptions :=
  {| will_struct_id := [77; 81; 84; 87]; will_struct_version := 0;
     will_topicName := MQTTString_initializer; will_message := MQTTString_initializer;
     will_retained := 0; will_qos := 0 |}.

Definition MQTTPacket_connectData_initializer : MQTTPacket_connectData :=
  {| struct_id := [77; 81; 84; 67]; struct_version := 0; MQTTVersion := 4;
     clientID := MQTTString_initializer; keepAliveInterval := 60; cleansession := 1;
     willFlag := 0; will := MQTTPacket_willOptions_initializer;
     username := MQTTString_initializer; password := MQTTString_initializer |}.

(** [MQTTConnectFlags]: least significant bit unused, then [cleansession],
    [will], [willQoS] (two bits), [willRetain], [password], [username]. *)
Definition MQTTConnectFlags_all (cs wf wq wr pw un : Z) : Z :=
  2 * field 1 cs + 4 * field 1 wf + 8 * field 2 wq + 32 * field 1 wr +
  64 * field 1 pw + 128 * field 1 un.
Definition fl_cleansession (b : Z) : Z := bits 1 1 b.
Definition fl_will (b : Z) : Z := bits 2 1 b.
Definition fl_willQoS (b : Z) : Z := bits 3 2 b.
Definition fl_willRetain (b : Z) : Z := bits 5 1 b.
Definition fl_password (b : Z) : Z := bits 6 1 b.
Definition fl_username (b : Z) : Z := bits 7 1 b.

(** [MQTTConnackFlags]: seven unused bits, then [sessionpresent]. *)
Definition MQTTConnackFlags_all (sessionpresent : Z) : Z := 128 * field 1 sessionpresent.
Definition fl_sessionpresent (b : Z) : Z := bits 7 1 b.

(** [s.cstring || s.lenstring.data]. *)
Definition supplied (s : MQTTString) : bool :=
  match cstring s, lenstring_data s with
  | None, None => false
  | _, _ => true
  end.

(** ** The client's side *)

Definition MQTTSerialize_connectLength (options : MQTTPacket_connectData) : outcome Z :=
  let len := if decide (MQTTVersion options = 3) then 12
             else if decide (MQTTVersion options = 4) then 10 else 0 in
  t ← int (MQTTstrlen (clientID options) + 2);
  len ← int (len + t);
  len ← (if decide (willFlag options ≠ 0) then
           t ← int (MQTTstrlen (will_topicName (will options)) + 2);
           t ← int (t + MQTTstrlen (will_message (will options)));
           t ← int (t + 2);
           int (len + t)
         else Ret len);
  len ← (if supplied (username options) then
           t ← int (MQTTstrlen (username options) + 2); int (len + t)
         else Ret len);
  if supplied (password options) then
    t ← int (MQTTstrlen (password options) + 2); int (len + t)
  else Ret len.

Definition str_MQTT : list Z := [77; 81; 84; 84].
Definition str_MQIsdp : list Z := [77; 81; 73; 115; 100; 112].

(** The connect flags byte of the options. *)
Definition connect_flags (options : MQTTPacket_connectData) : Z :=
  let w := if decide (willFlag options ≠ 0) then 1 else 0 in
  MQTTConnectFlags_all (cleansession options) w
    (if decide (w ≠ 0) then will_qos (will options) else 0)
    (if decide (w ≠ 0) then will_retained (will options) else 0)
    (c_bool (supplied (password options))) (c_bool (supplied (username options))).

Definition MQTTSerialize_connect (buf : list Z) (buflen : Z) (options : MQTTPacket_connectData) :
    outcome (Z * list Z) :=
  len ← MQTTSerialize_connectLength options;
  L ← MQTTPacket_len len;
  if decide (L > buflen) then Ret (MQTTPACKET_BUFFER_TOO_SHORT, buf)
  else
    w ← writeChar (MQTTHeader_byte CONNECT 0 0 0) (WCur buf 0);
    w ← MQTTPacket_encode len w;
    w ← (if decide (MQTTVersion options = 4)
         then w ← writeCString str_MQTT w; writeChar 4 w
         else w ← writeCString str_MQIsdp w; writeChar 3 w);
    w ← writeChar (connect_flags options) w;
    w ← writeInt (keepAliveInterval options) w;
    w ← writeMQTTString (clientID options) w;
    w ← (if decide (willFlag options ≠ 0) then
           w ← writeMQTTString (will_topicName (will options)) w;
           writeMQTTString (will_message (will options)) w
         else Ret w);
    w ← (if supplied (username options) then writeMQTTString (username options) w else Ret w);
    w ← (if supplied (password options) then writeMQTTString (password options) w else Ret w);
    Ret (Z.of_nat (wpos w), wmem w).

(** Returns the C result, [*sessionPresent] and [*connack_rc]. *)
Definition MQTTDeserialize_connack (sessionPresent connack_rc : Z) (buf : list Z) (buflen : Z) :
    outcome (Z * Z * Z) :=
  '(byte, curdata) ← readChar buf 0;
  if decide (hdr_type byte ≠ CONNACK) then Ret (0, sessionPresent, connack_rc)
  else
    '(rc, mylen) ← MQTTPacket_decodeBuf buf curdata;
    let curdata := (curdata + Z.to_nat rc)%nat in
    let enddata := (curdata + Z.to_nat mylen)%nat in
    if decide (Z.of_nat enddata - Z.of_nat curdata < 2) then
      Ret (rc, sessionPresent, connack_rc)
    else
      '(flags, curdata) ← readChar buf curdata;
      '(code, _) ← readChar buf curdata;
      Ret (1, fl_sessionpresent flags, code).

Definition MQTTSerialize_zero (buf : list Z) (buflen packettype : Z) : outcome (Z * list Z) :=
  if decide (buflen < 2) then Ret (MQTTPACKET_BUFFER_TOO_SHORT, buf)
  else
    w ← writeChar (MQTTHeader_byte packettype 0 0 0) (WCur buf 0);
    w ← MQTTPacket_encode 0 w;
    Ret (Z.of_nat (wpos w), wmem w).

Definition MQTTSerialize_disconnect (buf : list Z) (buflen : Z) :=
  MQTTSerialize_zero buf buflen DISCONNECT.

Definition MQTTSerialize_pingreq (buf : list Z) (buflen : Z) :=
  MQTTSerialize_zero buf buflen PINGREQ.

(** ** The server's side *)

(** [memcmp(a, b, n) == 0]. *)
Definition memcmp_eq (a b : list Z) (n : Z) : outcome bool :=
  if decide (0 ≤ n ≤ Z.of_nat (length a) ∧ n ≤ Z.of_nat (length b))
  then Ret (bool_decide (take (Z.to_nat n) a = take (Z.to_nat n) b))
  else Undef.

Definition c_min (a b : Z) : Z := if decide (a < b) then a else b.

Definition MQTTPacket_checkVersion (protocol : MQTTString) (version : Z) : outcome bool :=
  let data := default [] (lenstring_data protocol) in
  v3 ← (if decide (version = 3)
        then memcmp_eq data str_MQIsdp (c_min 6 (lenstring_len protocol)) else Ret false);
  if v3 : bool then Ret true
  else if decide (version = 4)
       then memcmp_eq data str_MQTT (c_min 4 (lenstring_len protocol)) else Ret false.

Definition set_will (d : MQTTPacket_connectData) (wf : Z) (w : MQTTPacket_willOptions) :
    MQTTPacket_connectData :=
  {| struct_id := struct_id d; struct_version := struct_version d;
     MQTTVersion := MQTTVersion d; clientID := clientID d;
     keepAliveInterval := keepAliveInterval d; cleansession := cleansession d;
     willFlag := wf; will := w; username := username d; password := password d |}.
Definition set_login (d : MQTTPacket_connectData) (u p : MQTTString) : MQTTPacket_connectData :=
  {| struct_id := struct_id d; struct_version := struct_version d;
     MQTTVersion := MQTTVersion d; clientID := clientID d;
     keepAliveInterval := keepAliveInterval d; cleansession := cleansession d;
     willFlag := willFlag d; will := will d; username := u; password := p |}.

(** The will fields of a CONNECT; [None] is the jump to [exit]. *)
Definition connect_read_will (data : MQTTPacket_connectData) (flags : Z) (buf : list Z)
    (curdata enddata : nat) :
    outcome (bool * MQTTPacket_connectData * nat) :=
  let data := set_will data (fl_will flags) (will data) in
  if decide (fl_will flags ≠ 0) then
    let w := will data in
    '(ok, topic, curdata) ← readMQTTLenString (will_topicName w) buf curdata enddata;
    let w := {| will_struct_id := will_struct_id w;
                will_struct_version := will_struct_version w;
                will_topicName := topic; will_message := will_message w;
                will_retained := fl_willRetain flags; will_qos := fl_willQoS flags |} in
    if decide (ok = 0) then Ret (false, set_will data (willFlag data) w, curdata)
    else
      '(ok, message, curdata) ← readMQTTLenString (will_message w) buf curdata enddata;
      let w := {| will_struct_id := will_struct_id w;
                  will_struct_version := will_struct_version w;
                  will_topicName := topic; will_message := message;
                  will_retained := will_retained w; will_qos := will_qos w |} in
      Ret (bool_decide (ok ≠ 0), set_will data (willFlag data) w, curdata)
  else Ret (true, data, curdata).

(** User name and password. *)
Definition connect_read_login (data : MQTTPacket_connectData) (flags : Z) (buf : list Z)
    (curdata enddata : nat) : outcome (Z * MQTTPacket_connectData) :=
  if decide (fl_username flags ≠ 0) then
    if decide (Z.of_nat enddata - Z.of_nat curdata < 3) then Ret (0, data)
    else
      '(ok, un, curdata) ← readMQTTLenString (username data) buf curdata enddata;
      let data := set_login data un (password data) in
      if decide (ok = 0) then Ret (0, data)
      else if decide (fl_password flags ≠ 0) then
        if decide (Z.of_nat enddata - Z.of_nat curdata < 3) then Ret (0, data)
        else
          '(ok, pw, curdata) ← readMQTTLenString (password data) buf curdata enddata;
          let data := set_login data (username data) pw in
          if decide (ok = 0) then Ret (0, data) else Ret (1, data)
      else Ret (1, data)
  else if decide (fl_password flags ≠ 0) then Ret (0, data)
  else Ret (1, data).

Definition MQTTDeserialize_connect (char_signed : bool) (data : MQTTPacket_connectData)
    (Protocol : MQTTString) (buf : list Z) (len : Z) : outcome (Z * MQTTPacket_connectData) :=
  let enddata := Z.to_nat len in
  '(byte, curdata) ← readChar buf 0;
  if decide (hdr_type byte ≠ CONNECT) then Ret (0, data)
  else
    '(n, _) ← MQTTPacket_decodeBuf buf curdata;
    let curdata := (curdata + Z.to_nat n)%nat in
    '(ok, Protocol, curdata) ← readMQTTLenString Protocol buf curdata enddata;
    if decide (ok = 0 ∨ Z.of_nat enddata - Z.of_nat curdata < 0) then Ret (0, data)
    else
      '(c, curdata) ← readChar buf curdata;
      good ← MQTTPacket_checkVersion Protocol (char_val char_signed c);
      if good : bool then
        '(flags, curdata) ← readChar buf curdata;
        '(keepalive, curdata) ← readInt buf curdata;
        '(ok, client, curdata) ← readMQTTLenString (clientID data) buf curdata enddata;
        let data :=
          {| struct_id := struct_id data; struct_version := struct_version data;
             MQTTVersion := MQTTVersion data; clientID := client;
             keepAliveInterval := keepalive; cleansession := fl_cleansession flags;
             willFlag := willFlag data; will := will data;
             username := username data; password := password data |} in
        if decide (ok = 0) then Ret (0, data)
        else
          '(ok, data, curdata) ← connect_read_will data flags buf curdata enddata;
          if ok : bool then connect_read_login data flags buf curdata enddata
          else Ret (0, data)
      else Ret (0, data).

Definition MQTTSerialize_connack (buf : list Z) (buflen connack_rc sessionPresent : Z) :
    outcome (Z * list Z) :=
  if decide (buflen < 2) then Ret (MQTTPACKET_BUFFER_TOO_SHORT, buf)
  else
    w ← writeChar (MQTTHeader_byte CONNACK 0 0 0) (WCur buf 0);
    w ← MQTTPacket_encode 2 w;
    w ← writeChar (MQTTConnackFlags_all sessionPresent) w;
    w ← writeChar connack_rc w;
    Ret (Z.of_nat (wpos w), wmem w).

(** ** Reference: the packets of the protocol *)

Definition opt_bytes (b : bool) (bs : list Z) : list Z := if b then utf_bytes bs else [].

Definition connect_body (o : MQTTPacket_connectData) : list Z :=
  (if decide (MQTTVersion o = 4) then utf_bytes str_MQTT ++ [4] else utf_bytes str_MQIsdp ++ [3]) ++
  [connect_flags o] ++ be16 (keepAliveInterval o) ++
  utf_bytes (MQTTString_bytes (clientID o)) ++
  opt_bytes (bool_decide (willFlag o ≠ 0)) (MQTTString_bytes (will_topicName (will o))) ++
  opt_bytes (bool_decide (willFlag o ≠ 0)) (MQTTString_bytes (will_message (will o))) ++
  opt_bytes (supplied (username o)) (MQTTString_bytes (username o)) ++
  opt_bytes (supplied (password o)) (MQTTString_bytes (password o)).

Definition connect_packet (o : MQTTPacket_connectData) : list Z :=
  packet (MQTTHeader_byte CONNECT 0 0 0) (connect_body o).

Definition connack_packet (flags code : Z) : list Z :=
  packet (MQTTHeader_byte CONNACK 0 0 0) [flags; code].

Definition zero_packet (type : Z) : list Z := packet (MQTTHeader_byte type 0 0 0) [].

(** Options the serializer can serialize. *)
Definition wf_options (o : MQTTPacket_connectData) : Prop :=
  (MQTTVersion o = 3 ∨ MQTTVersion o = 4) ∧ is_u16 (keepAliveInterval o) ∧
  wf_string (clientID o) ∧ wf_string (will_topicName (will o)) ∧
  wf_string (will_message (will o)) ∧ wf_string (username o) ∧ wf_string (password o).

#[export] Instance wf_options_dec o : Decision (wf_options o).
Proof. unfold wf_options. apply _. Defined.

(** ** The flag bytes *)

Lemma connect_flags_range o : is_byte (connect_flags o).
Proof.
  unfold connect_flags, MQTTConnectFlags_all, field, is_byte.
  change (2 ^ 1) with 2. change (2 ^ 2) with 4.
  repeat match goal with |- context [?a mod ?b] =>
    pose proof (Z.mod_pos_bound a b ltac:(lia)); generalize dependent (a mod b) end.
  lia.
Qed.
#[export] Hint Resolve connect_flags_range : bytes.

Lemma MQTTConnectFlags_fields cs wf wq wr pw un :
  let b := MQTTConnectFlags_all cs wf wq wr pw un in
  fl_cleansession b = field 1 cs ∧ fl_will b = field 1 wf ∧ fl_willQoS b = field 2 wq ∧
  fl_willRetain b = field 1 wr ∧ fl_password b = field 1 pw ∧ fl_username b = field 1 un.
Proof.
  cbv zeta. unfold fl_cleansession, fl_will, fl_willQoS, fl_willRetain, fl_password, fl_username.
  rewrite !bits_div by lia. unfold MQTTConnectFlags_all, field.
  change (2 ^ 1) with 2. change (2 ^ 2) with 4. change (2 ^ 3) with 8.
  change (2 ^ 5) with 32. change (2 ^ 6) with 64. change (2 ^ 7) with 128.
  repeat match goal with |- context [?a mod ?b] => is_var a;
    pose proof (Z.mod_pos_bound a b ltac:(lia)); generalize dependent (a mod b); intros end.
  repeat split; Z.to_euclidean_division_equations; lia.
Qed.

(** ** Serializing a CONNECT *)

Lemma length_opt b bs :
  Z.of_nat (length (opt_bytes b bs)) = if b then Z.of_nat (length bs) + 2 else 0.
Proof. unfold opt_bytes. destruct b; [rewrite length_utf; lia|done]. Qed.

Lemma opt_bytes_bytes b bs : Forall is_byte bs → Forall is_byte (opt_bytes b bs).
Proof. intros. unfold opt_bytes. destruct b; auto with bytes. Qed.
#[export] Hint Resolve opt_bytes_bytes : bytes.

Lemma writeMQTTString_opt (b : bool) s w :
  wf_string s → (if b then writeMQTTString s w else Ret w) = put (opt_bytes b (MQTTString_bytes s)) w.
Proof. intros. destruct b; [by apply writeMQTTString_put|done]. Qed.

Lemma write_will_put (P : Prop) `{Decision P} s1 s2 w :
  wf_string s1 → wf_string s2 →
  (if decide P then w ← writeMQTTString s1 w; writeMQTTString s2 w else Ret w) =
  put (opt_bytes (bool_decide P) (MQTTString_bytes s1) ++
       opt_bytes (bool_decide P) (MQTTString_bytes s2)) w.
Proof.
  intros H1 H2. destruct (decide P) as [Hp|Hp];
    [rewrite bool_decide_eq_true_2 by done|by rewrite bool_decide_eq_false_2].
  rewrite put_app. cbn [opt_bytes]. rewrite writeMQTTString_put by done.
  apply bind_ext. intros. by apply writeMQTTString_put.
Qed.

Definition protocol_bytes (v : Z) : list Z :=
  if decide (v = 4) then utf_bytes str_MQTT ++ [4] else utf_bytes str_MQIsdp ++ [3].

Lemma write_protocol_put v w :
  (if decide (v = 4) then w ← writeCString str_MQTT w; writeChar 4 w
   else w ← writeCString str_MQIsdp w; writeChar 3 w) = put (protocol_bytes v) w.
Proof.
  unfold protocol_bytes. case_decide; rewrite put_app;
    (rewrite writeCString_put by (cbn; lia)); apply bind_ext; intros; apply writeChar_put.
Qed.

Lemma protocol_bytes_bytes v : Forall is_byte (protocol_bytes v).
Proof.
  unfold protocol_bytes, str_MQTT, str_MQIsdp.
  case_decide; apply Forall_app; split; try (apply utf_bytes_bytes);
    repeat apply Forall_cons_2; try apply Forall_nil_2; ints; lia.
Qed.
#[export] Hint Resolve protocol_bytes_bytes : bytes.

Lemma length_protocol v :
  v = 3 ∨ v = 4 → Z.of_nat (length (protocol_bytes v)) = if decide (v = 3) then 9 else 7.
Proof. by intros [-> | ->]. Qed.

Lemma connect_body_eq o :
  connect_body o = protocol_bytes (MQTTVersion o) ++ [connect_flags o] ++
    be16 (keepAliveInterval o) ++ utf_bytes (MQTTString_bytes (clientID o)) ++
    (opt_bytes (bool_decide (willFlag o ≠ 0)) (MQTTString_bytes (will_topicName (will o))) ++
     opt_bytes (bool_decide (willFlag o ≠ 0)) (MQTTString_bytes (will_message (will o)))) ++
    opt_bytes (supplied (username o)) (MQTTString_bytes (username o)) ++
    opt_bytes (supplied (password o)) (MQTTString_bytes (password o)).
Proof. unfold connect_body, protocol_bytes. by rewrite <- !app_assoc. Qed.

Lemma length_connect_body o :
  Z.of_nat (length (connect_body o)) =
  Z.of_nat (length (protocol_bytes (MQTTVersion o))) + 3 +
  (Z.of_nat (length (MQTTString_bytes (clientID o))) + 2) +
  Z.of_nat (length (opt_bytes (bool_decide (willFlag o ≠ 0)) (MQTTString_bytes (will_topicName (will o))))) +
  Z.of_nat (length (opt_bytes (bool_decide (willFlag o ≠ 0)) (MQTTString_bytes (will_message (will o))))) +
  Z.of_nat (length (opt_bytes (supplied (username o)) (MQTTString_bytes (username o)))) +
  Z.of_nat (length (opt_bytes (supplied (password o)) (MQTTString_bytes (password o)))).
Proof. rewrite connect_body_eq. autorewrite with len. cbn [length]. lia. Qed.

Lemma connectLength_ok o :
  wf_options o →
  MQTTSerialize_connectLength o = Ret (Z.of_nat (length (connect_body o))) ∧
  Z.of_nat (length (connect_body o)) < 268435456.
Proof.
  intros (Hv & _ & Hc & Ht & Hm & Hu & Hp).
  rewrite length_connect_body, length_protocol, !length_opt by done.
  unfold MQTTSerialize_connectLength. rewrite !MQTTstrlen_ok by done.
  destruct Hc as (_ & Hc & _), Ht as (_ & Ht & _), Hm as (_ & Hm & _),
    Hu as (_ & Hu & _), Hp as (_ & Hp & _).
  assert (∃ base, (if decide (MQTTVersion o = 3) then 12
      else if decide (MQTTVersion o = 4) then 10 else 0) = base ∧
    (if decide (MQTTVersion o = 3) then 9 else 7) + 3 = base ∧ 0 ≤ base ≤ 12) as
    (base & -> & Hbase & Hr).
  { destruct Hv as [-> | ->]; [exists 12|exists 10]; done. }
  rewrite !(bool_decide_decide (willFlag o ≠ 0)).
  destruct (decide (willFlag o ≠ 0)), (supplied (username o)), (supplied (password o));
    int_steps; (split; [f_equal|]; lia).
Qed.

Lemma MQTTSerialize_connect_ok buf buflen o :
  let pkt := connect_packet o in
  wf_options o → buflen ≤ Z.of_nat (length buf) →
  ∃ L, Z.of_nat (length pkt) ≤ L ≤ Z.of_nat (length pkt) + 1 ∧
    MQTTSerialize_connect buf buflen o =
    if decide (L > buflen) then Ret (MQTTPACKET_BUFFER_TOO_SHORT, buf)
    else Ret (Z.of_nat (length pkt), pkt ++ drop (length pkt) buf).
Proof.
  cbv zeta. unfold connect_packet. intros Hwf Hl.
  destruct (connectLength_ok o Hwf) as [Hcl Hlt].
  destruct Hwf as (Hv & Hk & Hc & Ht & Hm & Hu & Hp).
  pose proof Hc as (Hcb & _). pose proof Ht as (Htb & _). pose proof Hm as (Hmb & _).
  pose proof Hu as (Hub & _). pose proof Hp as (Hpb & _).
  pose proof (length_connect_body o) as Hlb. pose proof (connect_body_eq o) as Hbody.
  remember (connect_body o) as body eqn:E. clear E.
  pose proof (length_packet (MQTTHeader_byte CONNECT 0 0 0) body) as Hsz.
  destruct (MQTTPacket_len_bounds (Z.of_nat (length body))) as (L & HL & HLb); [lia|].
  exists L. split; [lia|]. unfold MQTTSerialize_connect.
  rewrite Hcl. bret. rewrite HL. bret.
  destruct (decide (L > buflen)) as [Hgt|Hgt]; [done|]. unfold packet_size in *.
  rewrite filled_start.
  wr writeChar_put.
  wr encode_put.
  wr write_protocol_put.
  wr writeChar_put.
  wr writeInt_put.
  wr writeMQTTString_put.
  wr write_will_put.
  wr writeMQTTString_opt.
  wr writeMQTTString_opt.
  wr_done (packet (MQTTHeader_byte CONNECT 0 0 0) body) ltac:(rewrite Hbody).
Qed.

(** ** The small packets *)

Lemma MQTTSerialize_zero_ok buf buflen type :
  buflen ≤ Z.of_nat (length buf) →
  MQTTSerialize_zero buf buflen type =
  if decide (buflen < 2) then Ret (MQTTPACKET_BUFFER_TOO_SHORT, buf)
  else Ret (2, zero_packet type ++ drop 2 buf).
Proof.
  intros Hl. unfold MQTTSerialize_zero. case_decide; [done|].
  rewrite filled_start. wr writeChar_put. wr encode_digit. done.
Qed.

Lemma connack_flags_range sp : is_byte (MQTTConnackFlags_all sp).
Proof.
  unfold MQTTConnackFlags_all, field, is_byte. change (2 ^ 1) with 2.
  pose proof (Z.mod_pos_bound sp 2). lia.
Qed.
#[export] Hint Resolve connack_flags_range : bytes.

Lemma MQTTSerialize_connack_ok buf buflen code sp :
  is_byte code → 2 ≤ buflen → (4 ≤ length buf)%nat →
  MQTTSerialize_connack buf buflen code sp =
  Ret (4, connack_packet (MQTTConnackFlags_all sp) code ++ drop 4 buf).
Proof.
  intros Hc Hb Hl. unfold MQTTSerialize_connack. rewrite decide_False by lia.
  rewrite filled_start. wr writeChar_put. wr encode_digit. wr writeChar_put. wr writeChar_put.
  done.
Qed.

(** The size check asks for two bytes, the packet has four. *)
Lemma MQTTSerialize_connack_overflow buf code sp :
  is_byte code → (2 ≤ length buf < 4)%nat →
  MQTTSerialize_connack buf (Z.of_nat (length buf)) code sp = Undef.
Proof.
  intros Hc Hl. unfold MQTTSerialize_connack. rewrite decide_False by lia.
  rewrite filled_start. wr writeChar_put. wr encode_digit.
  rewrite writeChar_put. destruct (decide (3 ≤ length buf)%nat).
  - rewrite put_filled by (auto with bytes || (cbn; lia)). bret.
    rewrite writeChar_put, put_filled_Undef by (cbn; lia). done.
  - rewrite put_filled_Undef by (cbn; lia). done.
Qed.

Lemma MQTTDeserialize_connack_ok sp0 code0 flags code rest buflen :
  MQTTDeserialize_connack sp0 code0 (connack_packet flags code ++ rest) buflen =
  Ret (1, fl_sessionpresent flags, code).
Proof.
  unfold MQTTDeserialize_connack, connack_packet.
  destruct (MQTTHeader_fields CONNACK 0 0 0) as (Ety & _).
  rewrite readChar_packet. bret. rewrite Ety, decide_False by (intros []; done).
  rewrite decodeBuf_packet by (cbn; lia). bret. rewrite body_start_fold, Nat2Z.id.
  rewrite decide_False by (cbn [length]; lia).
  pose proof (drop_body (MQTTHeader_byte CONNACK 0 0 0) [flags; code] rest) as Hd.
  rewrite (readChar_drop _ _ _ _ Hd). bret.
  apply drop_cons_lookup in Hd as [_ Hd]. by rewrite (readChar_drop _ _ _ _ Hd).
Qed.

(** ** Deserializing a CONNECT *)

Definition protocol_name (v : Z) : list Z := if decide (v = 4) then str_MQTT else str_MQIsdp.

Lemma protocol_bytes_name v :
  v = 3 ∨ v = 4 → protocol_bytes v = utf_bytes (protocol_name v) ++ [v].
Proof. by intros [-> | ->]. Qed.

Lemma memcmp_eq_prefix name s n :
  n = Z.of_nat (length name) → memcmp_eq (name ++ s) name n = Ret true.
Proof.
  intros ->. unfold memcmp_eq. rewrite decide_True by len. f_equal.
  apply bool_decide_eq_true_2. by rewrite Nat2Z.id, take_app_length, take_ge.
Qed.

Lemma checkVersion_name char_signed v s :
  v = 3 ∨ v = 4 →
  MQTTPacket_checkVersion (read_string (protocol_name v) s) (char_val char_signed v) = Ret true.
Proof.
  intros Hv. assert (char_val char_signed v = v) as ->.
  { by destruct Hv as [-> | ->], char_signed. }
  unfold MQTTPacket_checkVersion, read_string. cbn [lenstring_data lenstring_len].
  change (default [] (Some (protocol_name v ++ s))) with (protocol_name v ++ s).
  destruct Hv as [-> | ->].
  - change (protocol_name 3) with str_MQIsdp. rewrite (decide_True (P := 3 = 3)) by done.
    rewrite memcmp_eq_prefix by done. by bret.
  - change (protocol_name 4) with str_MQTT. rewrite (decide_False (P := 4 = 3)) by done. bret.
    rewrite (decide_True (P := 4 = 4)) by done. by rewrite memcmp_eq_prefix.
Qed.

Lemma connect_read_will_ok d flags wf topic message buf p e_ s :
  fl_will flags = c_bool wf →
  drop p buf = opt_bytes wf topic ++ opt_bytes wf message ++ s →
  Z.of_nat (length topic) < 65536 → Z.of_nat (length message) < 65536 →
  (p + length (opt_bytes wf topic) + length (opt_bytes wf message) ≤ e_)%nat →
  ∃ d', connect_read_will d flags buf p e_ =
      Ret (true, d', (p + length (opt_bytes wf topic) + length (opt_bytes wf message))%nat) ∧
    clientID d' = clientID d ∧ keepAliveInterval d' = keepAliveInterval d ∧
    cleansession d' = cleansession d ∧ willFlag d' = c_bool wf ∧
    username d' = username d ∧ password d' = password d ∧
    (wf = true → MQTTString_bytes (will_topicName (will d')) = topic ∧
       MQTTString_bytes (will_message (will d')) = message ∧
       will_qos (will d') = fl_willQoS flags ∧ will_retained (will d') = fl_willRetain flags).
Proof.
  intros Hw Hd Ht Hm He. unfold connect_read_will. rewrite Hw.
  destruct wf; cbn [opt_bytes c_bool] in *.
  - rewrite length_utf in *. rewrite decide_True by done.
    rewrite (readMQTTLenString_drop _ _ _ _ topic _ Hd) by lia. bret.
    rewrite decide_False by done. apply drop_app_cut in Hd.
    rewrite length_utf, Nat.add_assoc in Hd.
    rewrite (readMQTTLenString_drop _ _ _ _ message _ Hd) by (rewrite ?length_utf in He; lia).
    bret. eexists. split; [rewrite length_utf; do 2 f_equal; lia|]. repeat split.
    + apply MQTTString_bytes_read.
    + apply MQTTString_bytes_read.
  - rewrite decide_False by lia. eexists. split; [do 3 f_equal; cbn; lia|].
    repeat split; done.
Qed.

Lemma connect_read_login_ok d flags un pw ubytes pbytes buf p e_ s :
  fl_username flags = c_bool un → fl_password flags = c_bool pw →
  (pw = true → un = true) → (un = true → ubytes ≠ []) → (pw = true → pbytes ≠ []) →
  drop p buf = opt_bytes un ubytes ++ opt_bytes pw pbytes ++ s →
  Z.of_nat (length ubytes) < 65536 → Z.of_nat (length pbytes) < 65536 →
  (p + length (opt_bytes un ubytes) + length (opt_bytes pw pbytes) ≤ e_)%nat →
  ∃ d', connect_read_login d flags buf p e_ = Ret (1, d') ∧
    clientID d' = clientID d ∧ keepAliveInterval d' = keepAliveInterval d ∧
    cleansession d' = cleansession d ∧ willFlag d' = willFlag d ∧ will d' = will d ∧
    (un = true → MQTTString_bytes (username d') = ubytes) ∧
    (pw = true → MQTTString_bytes (password d') = pbytes).
Proof.
  intros Hu Hp Hpu Hune Hpne Hd Hul Hpl He. unfold connect_read_login. rewrite Hu, Hp.
  assert (∀ l : list Z, l ≠ [] → (0 < length l)%nat) as Hne.
  { intros [|? ?] ?; [done|cbn; lia]. }
  destruct un; cbn [opt_bytes c_bool] in *.
  - specialize (Hne ubytes (Hune eq_refl)) as Hu0. rewrite length_utf in *. rewrite decide_True by done.
    rewrite decide_False by lia.
    rewrite (readMQTTLenString_drop _ _ _ _ ubytes _ Hd) by lia. bret.
    rewrite decide_False by done. destruct pw; cbn [opt_bytes c_bool] in *.
    + specialize (Hne pbytes (Hpne eq_refl)) as Hp0. rewrite length_utf in *.
      rewrite decide_True, decide_False by lia.
      apply drop_app_cut in Hd. rewrite length_utf, Nat.add_assoc in Hd.
      rewrite (readMQTTLenString_drop _ _ _ _ pbytes _ Hd) by lia. bret.
      eexists. split; [done|]. repeat split; intros _; apply MQTTString_bytes_read.
    + rewrite decide_False by lia. eexists. split; [done|].
      repeat split; [intros _; apply MQTTString_bytes_read|done].
  - destruct pw; [by specialize (Hpu eq_refl)|]. cbn [c_bool].
    eexists. split; [done|]. done.
Qed.

(** The login data of a CONNECT the server accepts. *)
Definition wf_login (o : MQTTPacket_connectData) : Prop :=
  (supplied (password o) = true → supplied (username o) = true) ∧
  (supplied (username o) = true → MQTTString_bytes (username o) ≠ []) ∧
  (supplied (password o) = true → MQTTString_bytes (password o) ≠ []).

#[export] Instance wf_login_dec o : Decision (wf_login o).
Proof. unfold wf_login. apply _. Defined.

Lemma connect_flags_fields o :
  let f := connect_flags o in let wf := bool_decide (willFlag o ≠ 0) in
  fl_cleansession f = field 1 (cleansession o) ∧ fl_will f = c_bool wf ∧
  fl_username f = c_bool (supplied (username o)) ∧
  fl_password f = c_bool (supplied (password o)) ∧
  (wf = true → fl_willQoS f = field 2 (will_qos (will o)) ∧
               fl_willRetain f = field 1 (will_retained (will o))).
Proof.
  cbv zeta. unfold connect_flags.
  destruct (MQTTConnectFlags_fields (cleansession o)
    (if decide (willFlag o ≠ 0) then 1 else 0)
    (if decide ((if decide (willFlag o ≠ 0) then 1 else 0) ≠ 0) then will_qos (will o) else 0)
    (if decide ((if decide (willFlag o ≠ 0) then 1 else 0) ≠ 0) then will_retained (will o) else 0)
    (c_bool (supplied (password o))) (c_bool (supplied (username o))))
    as (-> & -> & -> & -> & -> & ->).
  rewrite bool_decide_decide.
  destruct (decide (willFlag o ≠ 0)), (supplied (username o)), (supplied (password o)); done.
Qed.

Lemma MQTTDeserialize_connect_ok char_signed d P o rest len :
  wf_options o → wf_login o → Z.of_nat (length (connect_packet o)) ≤ len →
  ∃ d', MQTTDeserialize_connect char_signed d P (connect_packet o ++ rest) len = Ret (1, d') ∧
    cleansession d' = field 1 (cleansession o) ∧
    keepAliveInterval d' = keepAliveInterval o ∧
    MQTTString_bytes (clientID d') = MQTTString_bytes (clientID o) ∧
    willFlag d' = c_bool (bool_decide (willFlag o ≠ 0)) ∧
    (willFlag o ≠ 0 →
       MQTTString_bytes (will_topicName (will d')) = MQTTString_bytes (will_topicName (will o)) ∧
       MQTTString_bytes (will_message (will d')) = MQTTString_bytes (will_message (will o)) ∧
       will_qos (will d') = field 2 (will_qos (will o)) ∧
       will_retained (will d') = field 1 (will_retained (will o))) ∧
    (supplied (username o) = true →
       MQTTString_bytes (username d') = MQTTString_bytes (username o)) ∧
    (supplied (password o) = true →
       MQTTString_bytes (password d') = MQTTString_bytes (password o)).
Proof.
  intros Hwf (Hpu & Hune & Hpne) Hlen.
  destruct (connectLength_ok o Hwf) as [_ Hlt].
  destruct Hwf as (Hv & Hk & (_ & Hc & _) & (_ & Ht & _) & (_ & Hm & _) & (_ & Hu & _) & (_ & Hp & _)).
  unfold connect_packet in *. rewrite length_packet in Hlen. unfold packet_size in Hlen.
  pose proof (drop_body (MQTTHeader_byte CONNECT 0 0 0) (connect_body o) rest) as Hd.
  pose proof (length_connect_body o) as Hlb. pose proof (connect_body_eq o) as Hbody.
  rewrite protocol_bytes_name in Hbody, Hlb by done. rewrite length_app, length_utf in Hlb.
  cbn [length] in Hlb.
  destruct (connect_flags_fields o) as (Fcs & Fw & Fu & Fp & Fwq).
  destruct (MQTTHeader_fields CONNECT 0 0 0) as (Ety & _).
  remember (connect_body o) as body eqn:E. clear E.
  assert (body ++ rest = utf_bytes (protocol_name (MQTTVersion o)) ++ MQTTVersion o ::
    connect_flags o :: be16 (keepAliveInterval o) ++
    utf_bytes (MQTTString_bytes (clientID o)) ++
    opt_bytes (bool_decide (willFlag o ≠ 0)) (MQTTString_bytes (will_topicName (will o))) ++
    opt_bytes (bool_decide (willFlag o ≠ 0)) (MQTTString_bytes (will_message (will o))) ++
    opt_bytes (supplied (username o)) (MQTTString_bytes (username o)) ++
    opt_bytes (supplied (password o)) (MQTTString_bytes (password o)) ++ rest) as Hsuf.
  { rewrite Hbody. by rewrite <- !app_assoc. }
  rewrite Hsuf in Hd. clear Hbody Hsuf.
  unfold MQTTDeserialize_connect. rewrite readChar_packet. bret.
  rewrite Ety, decide_False by (intros []; done).
  rewrite decodeBuf_packet by lia. bret. rewrite body_start_fold.
  assert (Z.of_nat (body_start body) =
    1 + Z.of_nat (length (rl_bytes (Z.of_nat (length body))))) as Hbs by apply body_start_Z.
  assert (Z.of_nat (length (protocol_name (MQTTVersion o))) < 65536).
  { by destruct Hv as [-> | ->]. }
  rewrite (readMQTTLenString_drop _ _ _ _ _ _ Hd) by lia. bret. rewrite decide_False by lia.
  apply drop_app_cut in Hd. rewrite length_utf, Nat.add_assoc in Hd.
  rewrite (readChar_drop _ _ _ _ Hd). bret. rewrite checkVersion_name by done. bret.
  apply drop_cons_lookup in Hd as [_ Hd].
  rewrite (readChar_drop _ _ _ _ Hd). bret. apply drop_cons_lookup in Hd as [_ Hd].
  rewrite (readInt_drop _ _ _ _ Hk Hd). bret.
  apply drop_app_cut in Hd. rewrite length_be16 in Hd.
  rewrite (readMQTTLenString_drop _ _ _ _ _ _ Hd) by lia. bret. rewrite decide_False by done.
  apply drop_app_cut in Hd. rewrite length_utf, Nat.add_assoc in Hd.
  edestruct connect_read_will_ok as (d1 & -> & H1c & H1k & H1s & H1f & H1u & H1p & H1w);
    [exact Fw|exact Hd|lia|lia|lia|]. bret.
  rewrite app_assoc in Hd. apply drop_app_cut in Hd. rewrite length_app, Nat.add_assoc in Hd.
  edestruct connect_read_login_ok as (d2 & -> & H2c & H2k & H2s & H2f & H2w & H2u & H2p);
    [exact Fu|exact Fp|done|done|done|exact Hd|lia|lia|lia|].
  exists d2. split; [done|]. rewrite H2s, H1s, H2k, H1k, H2c, H1c, H2f, H1f, H2w.
  repeat split; try done.
  - apply MQTTString_bytes_read.
  - by apply H1w, bool_decide_eq_true_2.
  - by apply H1w, bool_decide_eq_true_2.
  - destruct H1w as (_ & _ & -> & _); [by apply bool_decide_eq_true_2|].
    by apply Fwq, bool_decide_eq_true_2.
  - destruct H1w as (_ & _ & _ & ->); [by apply bool_decide_eq_true_2|].
    by apply Fwq, bool_decide_eq_true_2.
Qed.

(** The version of the protocol is checked and never stored. *)
Lemma connect_read_will_version d flags buf p e ok d' p' :
  connect_read_will d flags buf p e = Ret (ok, d', p') → MQTTVersion d' = MQTTVersion d.
Proof.
  unfold connect_read_will. case_decide; [|by intros [= _ <- _]].
  intros ([[ok1 t] p1] & _ & E)%bind_Ret_inv. case_decide; [by injection E as _ <- _|].
  apply bind_Ret_inv in E as ([[ok2 m] p2] & _ & E). by injection E as _ <- _.
Qed.
Lemma connect_read_login_version d flags buf p e r d' :
  connect_read_login d flags buf p e = Ret (r, d') → MQTTVersion d' = MQTTVersion d.
Proof.
  unfold connect_read_login. repeat case_decide; try by intros [= _ <-].
  - intros ([[ok1 t] p1] & _ & E)%bind_Ret_inv. repeat case_decide; try by injection E as _ <-.
    apply bind_Ret_inv in E as ([[ok2 m] p2] & _ & E). case_decide; by injection E as _ <-.
  - intros ([[ok1 t] p1] & _ & E)%bind_Ret_inv. repeat case_decide; try by injection E as _ <-.
Qed.
Lemma MQTTDeserialize_connect_version char_signed d P buf len r d' :
  MQTTDeserialize_connect char_signed d P buf len = Ret (r, d') → MQTTVersion d' = MQTTVersion d.
Proof.
  unfold MQTTDeserialize_connect. intros ([byte p1] & _ & E)%bind_Ret_inv. case_decide; [by injection E as _ <-|].
  apply bind_Ret_inv in E as ([n n'] & _ & E). apply bind_Ret_inv in E as ([[ok P'] p2] & _ & E).
  case_decide; [by injection E as _ <-|]. apply bind_Ret_inv in E as ([c p3] & _ & E).
  apply bind_Ret_inv in E as ([] & _ & E); [|by injection E as _ <-].
  apply bind_Ret_inv in E as ([flags p4] & _ & E). apply bind_Ret_inv in E as ([ka p5] & _ & E).
  apply bind_Ret_inv in E as ([[ok2 cl] p6] & _ & E). case_decide; [by injection E as _ <-|].
  apply bind_Ret_inv in E as ([[ok3 d3] p7] & E3 & E). apply connect_read_will_version in E3. cbn in E3.
  destruct ok3; [|by injection E as _ <-]. apply connect_read_login_version in E. congruence.
Qed.
