(* ===== verification/MqttTopic.v ===== *)
(** * Topic matching

    Models [isTopicMatched] of [paho/src/MQTTClient-C/src/MQTTClient.c], which
    decides whether a subscription's topic filter covers the topic of a message,
    and compares it with a definition by topic levels. *)
From S2P Require Import Prelude MqttPacket.

Definition ch_slash : Z := 47.
Definition ch_plus : Z := 43.
Definition ch_hash : Z := 35.

(** [curn] after the inner loop: the last position of the level. *)
Definition skip_body (name : list Z) (curn_end : nat) (s : nat * nat) :
    outcome (nat * nat + nat) :=
  let '(curn, nextpos) := s in
  if decide (nextpos < curn_end)%nat then
    c ← array_get name nextpos;
    if decide (c ≠ ch_slash) then Ret (inl (S curn, S (S curn))) else Ret (inr curn)
  else Ret (inr curn).

(** One iteration of the outer loop. [curf] is the rest of the filter, [[]] its
    terminating NUL; [curn] an offset in the name. *)
Definition match_body (name : list Z) (curn_end : nat) (s : list Z * nat) :
    outcome (list Z * nat + list Z * nat) :=
  let '(curf, curn) := s in
  match curf with
  | [] => Ret (inr (curf, curn))
  | f :: curf' =>
      if decide (curn < curn_end)%nat then
        c ← array_get name curn;
        if decide (c = ch_slash ∧ f ≠ ch_slash) then Ret (inr (curf, curn))
        else if decide (f ≠ ch_plus ∧ f ≠ ch_hash ∧ f ≠ c) then Ret (inr (curf, curn))
        else
          curn ← (if decide (f = ch_plus)
                  then loop (S (curn_end - curn)) (skip_body name curn_end) (curn, S curn)
                  else if decide (f = ch_hash) then Ret (curn_end - 1)%nat
                  else Ret curn);
          Ret (inl (curf', S curn))
      else Ret (inr (curf, curn))
  end.

Definition isTopicMatched (topicFilter : list Z) (topicName : MQTTString) : outcome bool :=
  let name := default [] (lenstring_data topicName) in
  let curn_end := Z.to_nat (lenstring_len topicName) in
  '(curf, curn) ← loop (S (length topicFilter)) (match_body name curn_end) (topicFilter, 0%nat);
  Ret (bool_decide (curn = curn_end ∧ curf = [])).

(** ** Reference: matching by levels *)

(** Levels joined with slashes. *)
Fixpoint join (ls : list (list Z)) : list Z :=
  match ls with
  | [] => []
  | [l] => l
  | l :: ls => l ++ ch_slash :: join ls
  end.

(** [+] stands for one level, [#] for one or more; neither for an empty level. *)
Definition level_match (f t : list Z) : bool :=
  if decide (f = [ch_plus]) then bool_decide (t ≠ []) else bool_decide (f = t).
Fixpoint match_levels (fs ts : list (list Z)) : bool :=
  match fs, ts with
  | [], [] => true
  | f :: fs', t :: ts' =>
      if decide (f = [ch_hash]) then bool_decide (t ≠ [])
      else andb (level_match f t) (match_levels fs' ts')
  | _, _ => false
  end.

(** A level without a slash; a filter level; a filter, [#] only at its end. *)
Definition plain (t : list Z) : Prop := ch_slash ∉ t.
Definition wf_level (f : list Z) : Prop :=
  f = [ch_plus] ∨ (plain f ∧ (ch_plus ∉ f) ∧ (ch_hash ∉ f)).
Fixpoint wf_filter (fs : list (list Z)) : Prop :=
  match fs with
  | [] => False
  | [f] => f = [ch_hash] ∨ wf_level f
  | f :: fs => wf_level f ∧ wf_filter fs
  end.

#[export] Instance plain_dec t : Decision (plain t).
Proof. unfold plain. apply _. Defined.
#[export] Instance wf_level_dec f : Decision (wf_level f).
Proof. unfold wf_level. apply _. Defined.
#[export] Instance wf_filter_dec fs : Decision (wf_filter fs).
Proof.
  induction fs as [|f [|g fs] IH]; cbn [wf_filter]; apply _.
Defined.

(** ** The loop as a recursion on the filter *)

(** What is left of a name after the current level. *)
Fixpoint drop_level (n : list Z) : list Z :=
  match n with
  | [] => []
  | c :: n' => if decide (c = ch_slash) then n else drop_level n'
  end.

Fixpoint tm (f n : list Z) : bool :=
  match f, n with
  | [], [] => true
  | x :: f, c :: n =>
      if decide (x = ch_plus) then
        if decide (c = ch_slash) then false else tm f (drop_level n)
      else if decide (x = ch_hash) then
        if decide (c = ch_slash) then false else tm f []
      else if decide (x = c) then tm f n else false
  | _, _ => false
  end.

Section tm.
Context (name : list Z) (e : nat) (He : (e ≤ length name)%nat).

(** The part of the name from [p] to the end. *)
Definition from (p : nat) : list Z := drop p (take e name).

Lemma from_cons p : (p < e)%nat → ∃ c, array_get name p = Ret c ∧ from p = c :: from (S p).
Proof.
  intros Hp. destruct (lookup_lt_is_Some_2 name p) as [c Hc]; [lia|].
  exists c. unfold array_get, from. rewrite Hc. split; [done|].
  apply drop_S. by rewrite lookup_take_lt.
Qed.

Lemma from_end p : (e ≤ p)%nat → from p = [].
Proof. intros. unfold from. apply drop_ge. rewrite length_take. lia. Qed.

Lemma length_from p : length (from p) = (e - p)%nat.
Proof. unfold from. rewrite length_drop, length_take. lia. Qed.

Lemma skip_loop fuel curn :
  (curn < e)%nat → (e - curn < fuel)%nat →
  ∃ curn', loop fuel (skip_body name e) (curn, S curn) = Ret curn' ∧
    (curn ≤ curn' < e)%nat ∧ from (S curn') = drop_level (from (S curn)).
Proof.
  revert curn. induction fuel as [|fuel IH]; intros curn Hc Hf; [lia|].
  rewrite loop_S. cbn [skip_body].
  destruct (decide (S curn < e)%nat) as [Hlt|Hge].
  - destruct (from_cons (S curn) Hlt) as (c & -> & Hfr). bret. rewrite Hfr.
    cbn [drop_level]. destruct (decide (c = ch_slash)) as [->|Hne].
    + rewrite decide_False by tauto. bret. exists curn. rewrite Hfr. split; [done|]. split; [lia|done].
    + rewrite decide_True by done. bret.
      destruct (IH (S curn)) as (curn' & -> & ? & ?); [lia..|].
      exists curn'. repeat split; [lia|lia|done].
  - bret. exists curn. repeat split; [lia|lia|]. by rewrite from_end by lia.
Qed.

Lemma match_loop f fuel curn :
  (curn ≤ e)%nat → (length f < fuel)%nat →
  ∃ curf' curn', loop fuel (match_body name e) (f, curn) = Ret (curf', curn') ∧
    (bool_decide (curn' = e ∧ curf' = []) = tm f (from curn)).
Proof.
  revert fuel curn. induction f as [|x f IH]; intros [|fuel] curn Hc Hf; cbn [length] in *; try lia;
    rewrite loop_S; cbn [match_body].
  - bret. do 2 eexists. split; [done|]. destruct (decide (curn = e)) as [->|Hne].
    + rewrite from_end by done. by apply bool_decide_eq_true_2.
    + destruct (from_cons curn) as (c & _ & ->); [lia|].
      apply bool_decide_eq_false_2. tauto.
  - destruct (decide (curn < e)%nat) as [Hlt|Hge]; cycle 1.
    { bret. do 2 eexists. split; [done|]. rewrite from_end by lia.
      apply bool_decide_eq_false_2. intros [_ [=]]. }
    destruct (from_cons curn Hlt) as (c & -> & Hfr). bret. rewrite Hfr. cbn [tm].
    assert (∀ b, bool_decide (curn = e ∧ x :: f = []) = b ↔ b = false) as Hstop.
    { intros b. rewrite bool_decide_eq_false_2; [done|]. intros [_ [=]]. }
    destruct (decide (x = ch_plus)) as [->|Hp].
    { destruct (decide (c = ch_slash)) as [->|Hs].
      - rewrite decide_True by done. bret. do 2 eexists. split; [done|]. by apply Hstop.
      - rewrite decide_False by tauto. rewrite decide_False by tauto.
        destruct (skip_loop (S (e - curn)) curn) as (p & -> & Hpe & Hfp); [lia..|]. bret.
        destruct (IH fuel (S p)) as (f' & n' & Hl & Hb); [lia..|].
        exists f', n'. split; [exact Hl|]. by rewrite Hb, Hfp. }
    destruct (decide (x = ch_hash)) as [->|Hh].
    { destruct (decide (c = ch_slash)) as [->|Hs].
      - rewrite decide_True by done. bret. do 2 eexists. split; [done|]. by apply Hstop.
      - rewrite decide_False by tauto. rewrite decide_False by tauto. bret.
        destruct (IH fuel (S (e - 1))) as (f' & n' & Hl & Hb); [lia..|].
        exists f', n'. split; [exact Hl|]. by rewrite Hb, from_end by lia. }
    destruct (decide (x = c)) as [<-|Hxc].
    + rewrite decide_False by tauto. rewrite decide_False by tauto. bret.
      destruct (IH fuel (S curn)) as (f' & n' & Hl & Hb); [lia..|]. by exists f', n'.
    + destruct (decide (c = ch_slash ∧ x ≠ ch_slash)).
      * bret. do 2 eexists. split; [done|]. by apply Hstop.
      * rewrite decide_True by done. bret. do 2 eexists. split; [done|]. by apply Hstop.
Qed.
End tm.

(** ** Levels *)

Lemma drop_level_app t n :
  plain t → drop_level (t ++ ch_slash :: n) = ch_slash :: n.
Proof.
  intros Ht. induction t as [|c t IH]; cbn; [by rewrite decide_True|].
  apply not_elem_of_cons in Ht as [Hc Ht]. rewrite decide_False by done. auto.
Qed.

Lemma drop_level_plain t : plain t → drop_level t = [].
Proof.
  intros Ht. induction t as [|c t IH]; cbn; [done|].
  apply not_elem_of_cons in Ht as [Hc Ht]. rewrite decide_False by done. auto.
Qed.

(** The name left after its first level [t] when [ts] are the levels behind it. *)
Definition tail_of (ts : list (list Z)) : list Z :=
  match ts with [] => [] | _ => ch_slash :: join ts end.

Lemma join_cons t ts : join (t :: ts) = t ++ tail_of ts.
Proof. destruct ts; cbn; [by rewrite app_nil_r|done]. Qed.

Lemma drop_level_tail t ts : plain t → drop_level (t ++ tail_of ts) = tail_of ts.
Proof.
  intros Ht. destruct ts as [|t' ts]; cbn.
  - rewrite app_nil_r. by apply drop_level_plain.
  - by apply drop_level_app.
Qed.

(** A literal level matches itself and nothing else. *)
Lemma tm_literal f t fs ts :
  plain f → ch_plus ∉ f → ch_hash ∉ f → plain t →
  tm (f ++ tail_of fs) (t ++ tail_of ts) =
  (bool_decide (f = t) && tm (tail_of fs) (tail_of ts))%bool.
Proof.
  revert t. induction f as [|x f IH]; intros t Hf Hp Hh Ht.
  - destruct t as [|c t]; [done|]. cbn [app]. rewrite bool_decide_eq_false_2 by done.
    apply not_elem_of_cons in Ht as [Hc Ht].
    destruct fs as [|f' fs]; cbn [tail_of tm]; [done|].
    by rewrite !decide_False.
  - apply not_elem_of_cons in Hf as [Hxs Hf]. apply not_elem_of_cons in Hp as [Hxp Hp].
    apply not_elem_of_cons in Hh as [Hxh Hh]. cbn [app].
    destruct t as [|c t].
    + rewrite bool_decide_eq_false_2 by done. destruct ts as [|t' ts]; cbn [tail_of tm app]; [done|].
      by rewrite !decide_False.
    + apply not_elem_of_cons in Ht as [Hc Ht]. cbn [app tm].
      rewrite !(decide_False (P := x = _)) by done.
      destruct (decide (x = c)) as [->|Hne].
      * rewrite IH by done. f_equal. apply bool_decide_ext. split; [by intros ->|by intros [=]].
      * rewrite bool_decide_eq_false_2; [done|]. by intros [=].
Qed.

Lemma tm_plus t fs ts :
  plain t → tm (ch_plus :: tail_of fs) (t ++ tail_of ts) =
  (bool_decide (t ≠ []) && tm (tail_of fs) (tail_of ts))%bool.
Proof.
  intros Ht. destruct t as [|c t].
  - rewrite bool_decide_eq_false_2 by (intros []; done).
    by destruct ts as [|t' ts].
  - apply not_elem_of_cons in Ht as [Hc Ht]. rewrite bool_decide_eq_true_2 by done.
    cbn [app tm]. rewrite decide_True, decide_False by done. by rewrite drop_level_tail.
Qed.

Lemma tm_hash t ts :
  plain t → tm [ch_hash] (t ++ tail_of ts) = bool_decide (t ≠ []).
Proof.
  intros Ht. destruct t as [|c t].
  - rewrite bool_decide_eq_false_2 by (intros []; done). by destruct ts as [|t' ts].
  - apply not_elem_of_cons in Ht as [Hc Ht]. rewrite bool_decide_eq_true_2 by done.
    cbn [app tm]. by rewrite decide_False, decide_True, decide_False by done.
Qed.

Lemma tm_levels fs ts :
  wf_filter fs → ts ≠ [] → Forall plain ts → tm (join fs) (join ts) = match_levels fs ts.
Proof.
  intros Hfs Hne Hts. revert fs Hfs.
  induction Hts as [|t ts Ht Hts IH]; intros fs Hfs; [done|].
  destruct fs as [|f fs]; [done|]. rewrite !join_cons. cbn [match_levels].
  assert (Htail : wf_filter fs ∨ fs = [] →
      tm (tail_of fs) (tail_of ts) = match_levels fs ts).
  { intros Hw. destruct fs as [|f' fs], ts as [|t' ts]; try done.
    - destruct Hw as [Hw|[=]]. change (tail_of (f' :: fs)) with (ch_slash :: join (f' :: fs)).
      change (tail_of (t' :: ts)) with (ch_slash :: join (t' :: ts)).
      transitivity (tm (join (f' :: fs)) (join (t' :: ts))); [done|]. by apply IH. }
  assert (Hcase : (f = [ch_hash] ∧ fs = []) ∨ (wf_level f ∧ (wf_filter fs ∨ fs = []))).
  { destruct fs as [|f' fs]; cbn in Hfs; [|tauto]. destruct Hfs; tauto. }
  destruct Hcase as [[-> ->]|[[->|(Hpf & Hp & Hh)] Hw]].
  - rewrite decide_True by done. cbn [tail_of app]. by apply tm_hash.
  - rewrite (decide_False (P := [ch_plus] = _)) by done. unfold level_match.
    rewrite (decide_True (P := [ch_plus] = _)) by done. cbn [app].
    by rewrite tm_plus, Htail.
  - rewrite decide_False by (intros ->; apply Hh; by left).
    unfold level_match. rewrite decide_False by (intros ->; apply Hp; by left).
    by rewrite tm_literal, Htail.
Qed.

Lemma isTopicMatched_tm f ms d :
  lenstring_data ms = Some d → 0 ≤ lenstring_len ms ≤ Z.of_nat (length d) →
  isTopicMatched f ms = Ret (tm f (take (Z.to_nat (lenstring_len ms)) d)).
Proof.
  intros Hd Hl. unfold isTopicMatched. rewrite Hd.
  change (default [] (Some d)) with d. set (e := Z.to_nat (lenstring_len ms)).
  assert (e ≤ length d)%nat as He by lia.
  destruct (match_loop d e He f (S (length f)) 0) as (f' & n' & -> & Hb); [lia|lia|].
  bret. by rewrite Hb.
Qed.

(** On a well-formed filter and a topic name given by its levels, the scan of
    [isTopicMatched] decides the matching by levels. *)
Lemma isTopicMatched_levels fs ts rest :
  wf_filter fs → ts ≠ [] → Forall plain ts →
  isTopicMatched (join fs)
    (Build_MQTTString None (Z.of_nat (length (join ts))) (Some (join ts ++ rest)))
  = Ret (match_levels fs ts).
Proof.
  intros Hf Hn Ht. rewrite (isTopicMatched_tm _ _ (join ts ++ rest)); cbn; [|done|len].
  by rewrite Nat2Z.id, take_app_length, tm_levels.
Qed.
