(* ===== verification/MqttClient.v ===== *)
(** * The MQTT client

    Models [paho/src/MQTTClient-C/src/MQTTClient.c]: packet identifiers,
    sending and reading packets, dispatch of incoming packets, keep-alive, and
    the blocking commands.  The network and the timers are the interface
    [Platform]; [MqttLinux.v] implements it as [MQTTLinux.c] does.

    A command is a computation of the monad [M] on the client and the world.
    Message handlers act on the world only: one that calls the client again is
    outside the model. *)
From S2P Require Import Prelude MqttPacket MqttPublish MqttSubscribe MqttConnect.
From S2P Require Import MqttTopic.

(** ** The platform: timers, network, message handlers

    [mqttread len timeout]: the result, the bytes stored.  [mqttwrite bs]: the
    object from the pointer given, and the length.  *)
Class Platform (W : Type) := {
  timer : Type;
  handler : Type;
  InitTimer : timer;
  expired : timer → M W bool;
  left_ms : timer → M W Z;
  countdown_ms : Z → M W timer;
  countdown : Z → M W timer;
  mqttread : Z → Z → M W (Z * list Z);
  mqttwrite : list Z → Z → Z → M W Z;
  fp_call : handler → PublishData → W → W;
}.

Definition MAX_PACKET_ID : Z := 65535.
Definition MAX_MESSAGE_HANDLERS : nat := 5.
Definition FAILURE : Z := -1.
Definition SUCCESS : Z := 0.
Definition QOS0 : Z := 0.
Definition QOS1 : Z := 1.
Definition QOS2 : Z := 2.

(** An entry of [messageHandlers]: a topic filter and a function, or null. *)
Record MessageHandlers (H : Type) := MH { topicFilter : option (list Z); fp : option H }.
Arguments MH {H}.
Arguments topicFilter {H}.
Arguments fp {H}.

Section client.
Context {W : Type} `{Platform W}.

(** [buf] and [readbuf] are the contents of the objects; the sizes are those
    the caller declared. *)
Record Client := {
  next_packetid : Z;
  command_timeout_ms : Z;
  buf_size : Z;
  readbuf_size : Z;
  buf : list Z;
  readbuf : list Z;
  c_keepAliveInterval : Z;
  ping_outstanding : Z;
  isconnected : Z;
  messageHandlers : list (MessageHandlers handler);
  defaultMessageHandler : option handler;
  ping_timer : timer;
}.

Definition set_next_packetid (v : Z) (c : Client) : Client :=
  Build_Client v (command_timeout_ms c) (buf_size c) (readbuf_size c) (buf c) (readbuf c)
    (c_keepAliveInterval c) (ping_outstanding c) (isconnected c) (messageHandlers c)
    (defaultMessageHandler c) (ping_timer c).
Definition set_buf (v : list Z) (c : Client) : Client :=
  Build_Client (next_packetid c) (command_timeout_ms c) (buf_size c) (readbuf_size c) v
    (readbuf c) (c_keepAliveInterval c) (ping_outstanding c) (isconnected c)
    (messageHandlers c) (defaultMessageHandler c) (ping_timer c).
Definition set_readbuf (v : list Z) (c : Client) : Client :=
  Build_Client (next_packetid c) (command_timeout_ms c) (buf_size c) (readbuf_size c) (buf c)
    v (c_keepAliveInterval c) (ping_outstanding c) (isconnected c)
    (messageHandlers c) (defaultMessageHandler c) (ping_timer c).
Definition set_keepAliveInterval (v : Z) (c : Client) : Client :=
  Build_Client (next_packetid c) (command_timeout_ms c) (buf_size c) (readbuf_size c) (buf c)
    (readbuf c) v (ping_outstanding c) (isconnected c)
    (messageHandlers c) (defaultMessageHandler c) (ping_timer c).
Definition set_ping_outstanding (v : Z) (c : Client) : Client :=
  Build_Client (next_packetid c) (command_timeout_ms c) (buf_size c) (readbuf_size c) (buf c)
    (readbuf c) (c_keepAliveInterval c) v (isconnected c)
    (messageHandlers c) (defaultMessageHandler c) (ping_timer c).
Definition set_isconnected (v : Z) (c : Client) : Client :=
  Build_Client (next_packetid c) (command_timeout_ms c) (buf_size c) (readbuf_size c) (buf c)
    (readbuf c) (c_keepAliveInterval c) (ping_outstanding c) v
    (messageHandlers c) (defaultMessageHandler c) (ping_timer c).
Definition set_messageHandlers (v : list (MessageHandlers handler)) (c : Client) : Client :=
  Build_Client (next_packetid c) (command_timeout_ms c) (buf_size c) (readbuf_size c) (buf c)
    (readbuf c) (c_keepAliveInterval c) (ping_outstanding c) (isconnected c)
    v (defaultMessageHandler c) (ping_timer c).
Definition set_ping_timer (v : timer) (c : Client) : Client :=
  Build_Client (next_packetid c) (command_timeout_ms c) (buf_size c) (readbuf_size c) (buf c)
    (readbuf c) (c_keepAliveInterval c) (ping_outstanding c) (isconnected c)
    (messageHandlers c) (defaultMessageHandler c) v.

(** A command's state; a platform call; a change or use of the client. *)
Definition state : Type := Client * W.
Definition plat {A} (m : M W A) : M state A := λ s,
  '(a, w) ← m s.2; Ret (a, (s.1, w)).
Definition upd (f : Client → Client) : M state unit := λ s, Ret (tt, (f s.1, s.2)).
Definition client {A} (f : Client → A) : M state A := λ s, Ret (f s.1, s).

(** The loops' budget; what is on the stack where [cycle] declares [msg] and
    [topicName]; whether [char] is signed. *)
Context (fuel : nat) (junk : PublishData) (char_signed : bool).

Definition getNextPacketId : M state Z :=
  n ← client next_packetid;
  let n := if decide (n = MAX_PACKET_ID) then 1 else u32 (n + 1) in
  upd (set_next_packetid n);;
  mret n.

(** One iteration: [rc] and [sent]. The platform reads [length] bytes from
    [&c->buf[sent]]. *)
Definition sendPacket_body (length : Z) (t : timer) (s : Z * Z) :
    M state (Z * Z + Z * Z) :=
  let '(rc, sent) := s in
  if decide (sent < length) then
    e ← plat (expired t);
    if e : bool then mret (inr (rc, sent))
    else
      ms ← plat (left_ms t);
      b ← client buf;
      rc ← plat (mqttwrite (drop (Z.to_nat sent) b) length ms);
      if decide (rc < 0) then mret (inr (rc, sent))
      else
        sent ← lift (int (sent + rc));
        mret (inl (rc, sent))
  else mret (inr (rc, sent)).

Definition sendPacket (length : Z) (t : timer) : M state Z :=
  '(_, sent) ← loopM fuel (sendPacket_body length t) (FAILURE, 0);
  if decide (sent = length) then
    k ← client c_keepAliveInterval;
    pt ← plat (countdown k);
    upd (set_ping_timer pt);;
    mret SUCCESS
  else mret FAILURE.

(** The fields the constructor does not set come from [c]. *)
Definition MQTTClient (c : Client) (timeout : Z) (b : list Z) (bsize : Z) (rb : list Z)
    (rbsize : Z) : Client :=
  Build_Client (next_packetid c) timeout bsize rbsize b rb (c_keepAliveInterval c) 0 0
    (map (λ h, MH None (fp h)) (messageHandlers c)) None InitTimer.

(** [len], [*value], [multiplier]; the character last read is [i]. *)
Definition decodePacket_body (timeout : Z) (s : Z * Z * Z) :
    M state (Z * Z * Z + Z * Z) :=
  let '(len, value, multiplier) := s in
  let len := len + 1 in
  if decide (len > MAX_NO_OF_REMAINING_LENGTH_BYTES) then mret (inr (len, value))
  else
    '(rc, bs) ← plat (mqttread 1 timeout);
    if decide (rc ≠ 1) then mret (inr (len, value))
    else
      i ← lift (of_option (head bs));
      t ← lift (int (Z.land i 127 * multiplier));
      value ← lift (int (value + t));
      multiplier ← lift (int (multiplier * 128));
      mret (if decide (Z.land i 128 ≠ 0) then inl (len, value, multiplier)
            else inr (len, value)).

(** The C result and [*value]. *)
Definition decodePacket (timeout : Z) : M state (Z * Z) :=
  loopM 5 (decodePacket_body timeout) (0, 0, 1).

Definition readPacket (t : timer) : M state Z :=
  ms ← plat (left_ms t);
  '(r, bs) ← plat (mqttread 1 ms);
  b ← client readbuf;
  b ← lift (fill 0 bs b);
  upd (set_readbuf b);;
  if decide (r ≠ 1) then mret FAILURE
  else
    ms ← plat (left_ms t);
    '(_, rem_len) ← decodePacket ms;
    w ← lift (MQTTPacket_encode rem_len (WCur b 1));
    upd (set_readbuf (wmem w));;
    bad ← (if decide (rem_len > 0) then
             ms ← plat (left_ms t);
             '(r, bs) ← plat (mqttread rem_len ms);
             b ← lift (fill (wpos w) bs (wmem w));
             upd (set_readbuf b);;
             mret (bool_decide (r ≠ rem_len))
           else mret false);
    if bad : bool then mret FAILURE
    else
      b ← client readbuf;
      h ← lift (load b 0);
      mret (hdr_type h).

(** [MQTTPacket_equals(..) || isTopicMatched(..)]. *)
Definition topic_matches (f : list Z) (topicName : MQTTString) : outcome bool :=
  e ← MQTTPacket_equals topicName f;
  if e : bool then Ret true else isTopicMatched f topicName.

(** One iteration of the loop over the handlers, on [rc]. *)
Definition deliver_body (msg : PublishData) (h : MessageHandlers handler) (rc : Z) :
    M state Z :=
  match topicFilter h with
  | None => mret rc
  | Some f =>
      m ← lift (topic_matches f (pub_topicName msg));
      if m : bool then
        match fp h with
        | Some g => plat (λ w, Ret (tt, fp_call g msg w));; mret SUCCESS
        | None => mret rc
        end
      else mret rc
  end.

Fixpoint deliver_loop (msg : PublishData) (hs : list (MessageHandlers handler)) (rc : Z) :
    M state Z :=
  match hs with
  | [] => mret rc
  | h :: hs => rc ← deliver_body msg h rc; deliver_loop msg hs rc
  end.

(** The topic name and the message are the fields of [msg]. *)
Definition deliverMessage (msg : PublishData) : M state Z :=
  hs ← client messageHandlers;
  rc ← deliver_loop msg hs FAILURE;
  d ← client defaultMessageHandler;
  match d with
  | Some g =>
      if decide (rc = FAILURE) then
        plat (λ w, Ret (tt, fp_call g msg w));; mret SUCCESS
      else mret rc
  | None => mret rc
  end.

(** A serializer run on [c->buf]; its C result. *)
Definition serialize (f : list Z → Z → outcome (Z * list Z)) : M state Z :=
  b ← client buf;
  n ← client buf_size;
  '(len, b) ← lift (f b n);
  upd (set_buf b);;
  mret len.

Definition keepalive : M state Z :=
  k ← client c_keepAliveInterval;
  if decide (k = 0) then mret SUCCESS
  else
    pt ← client ping_timer;
    e ← plat (expired pt);
    po ← client ping_outstanding;
    if decide (e = true ∧ po = 0) then
      t ← plat (countdown_ms 1000);
      len ← serialize MQTTSerialize_pingreq;
      if decide (len > 0) then
        rc ← sendPacket len t;
        if decide (rc = SUCCESS) then
          upd (set_ping_outstanding 1);; mret rc
        else mret rc
      else mret FAILURE
    else mret FAILURE.

(** The [case PUBLISH] of [cycle]: [None] jumps to [exit] with [rc] still
    [SUCCESS], [Some rc] otherwise.  The [int] stored through a pointer to the
    [size_t] [msg.payloadlen] is taken for all of it. *)
Definition cycle_publish (t : timer) : M state (option Z) :=
  b ← client readbuf;
  n ← client readbuf_size;
  '(r, msg) ← lift (MQTTDeserialize_publish junk b n);
  if decide (r ≠ 1) then mret None
  else
    deliverMessage msg;;
    if decide (pub_qos msg ≠ QOS0) then
      len ← (if decide (pub_qos msg = QOS1) then
               serialize (λ b n, MQTTSerialize_ack b n PUBACK 0 (pub_packetid msg))
             else if decide (pub_qos msg = QOS2) then
               serialize (λ b n, MQTTSerialize_ack b n PUBREC 0 (pub_packetid msg))
             else mret 0);
      if decide (len ≤ 0) then mret (Some FAILURE)
      else rc ← sendPacket len t; mret (Some rc)
    else mret (Some SUCCESS).

(** The [case PUBREC] of [cycle]. *)
Definition ack_junk : AckData := {| ack_type := 0; ack_dup := 0; ack_packetid := 0 |}.
Definition cycle_pubrec (t : timer) : M state Z :=
  b ← client readbuf;
  n ← client readbuf_size;
  '(r, o) ← lift (MQTTDeserialize_ack ack_junk b n);
  if decide (r ≠ 1) then mret FAILURE
  else
    len ← serialize (λ b n, MQTTSerialize_ack b n PUBREL 0 (ack_packetid o));
    if decide (len ≤ 0) then mret FAILURE
    else
      rc ← sendPacket len t;
      if decide (rc ≠ SUCCESS) then mret FAILURE else mret rc.

(** [packet_type] is an [unsigned short]. *)
Definition cycle (t : timer) : M state Z :=
  r ← readPacket t;
  let packet_type := u16 r in
  let exit rc := mret (if decide (rc = SUCCESS) then packet_type else rc) in
  if decide (packet_type = PUBLISH) then
    rc ← cycle_publish t;
    match rc with
    | None => exit SUCCESS
    | Some rc => if decide (rc = FAILURE) then exit rc else keepalive;; exit rc
    end
  else if decide (packet_type = PUBREC) then
    rc ← cycle_pubrec t;
    if decide (rc = FAILURE) then exit rc else keepalive;; exit rc
  else
    (if decide (packet_type = PINGRESP) then upd (set_ping_outstanding 0) else mret tt);;
    keepalive;; exit SUCCESS.

Definition yield_body (t : timer) (_ : unit) : M state (unit + Z) :=
  e ← plat (expired t);
  if e : bool then mret (inr SUCCESS)
  else
    rc ← cycle t;
    mret (if decide (rc = FAILURE) then inr FAILURE else inl tt).
Definition MQTTYield (timeout_ms : Z) : M state Z :=
  t ← plat (countdown_ms (u32 timeout_ms));
  loopM fuel (yield_body t) tt.

Definition waitfor_body (packet_type : Z) (t : timer) (rc : Z) : M state (Z + Z) :=
  e ← plat (expired t);
  if e : bool then mret (inr rc)
  else
    rc ← cycle t;
    mret (if decide (rc ≠ packet_type) then inl rc else inr rc).
Definition waitfor (packet_type : Z) (t : timer) : M state Z :=
  loopM fuel (waitfor_body packet_type t) FAILURE.

Definition MQTTConnect (options : option MQTTPacket_connectData) : M state Z :=
  to ← client command_timeout_ms;
  t ← plat (countdown_ms to);
  k ← client isconnected;
  if decide (k ≠ 0) then mret FAILURE
  else
    let options := default MQTTPacket_connectData_initializer options in
    upd (set_keepAliveInterval (keepAliveInterval options));;
    pt ← plat (countdown (keepAliveInterval options));
    upd (set_ping_timer pt);;
    len ← serialize (λ b n, MQTTSerialize_connect b n options);
    rc ← (if decide (len ≤ 0) then mret FAILURE
          else
            rc ← sendPacket len t;
            if decide (rc ≠ SUCCESS) then mret rc
            else
              r ← waitfor CONNACK t;
              if decide (r = CONNACK) then
                b ← client readbuf;
                n ← client readbuf_size;
                '(r, _, code) ← lift (MQTTDeserialize_connack 0 255 b n);
                if decide (r = 1) then mret code else mret FAILURE
              else mret FAILURE);
    (if decide (rc = SUCCESS) then upd (set_isconnected 1) else mret tt);;
    mret rc.

Definition cstr (s : list Z) : MQTTString :=
  {| cstring := Some s; lenstring_len := 0; lenstring_data := None |}.

(** The first free entry of the table gets the filter and the function. *)
Fixpoint register (f : list Z) (g : option handler) (hs : list (MessageHandlers handler)) :
    option (list (MessageHandlers handler)) :=
  match hs with
  | [] => None
  | h :: hs =>
      match topicFilter h with
      | None => Some (MH (Some f) g :: hs)
      | Some _ => cons h <$> register f g hs
      end
  end.

Definition MQTTSubscribe (f : list Z) (qos : Z) (g : option handler) : M state Z :=
  to ← client command_timeout_ms;
  t ← plat (countdown_ms to);
  k ← client isconnected;
  if decide (k = 0) then mret FAILURE
  else
    id ← getNextPacketId;
    len ← serialize (λ b n, MQTTSerialize_subscribe b n 0 (u16 id) 1 [cstr f] [qos]);
    if decide (len ≤ 0) then mret FAILURE
    else
      rc ← sendPacket len t;
      if decide (rc ≠ SUCCESS) then mret rc
      else
        r ← waitfor SUBACK t;
        if decide (r = SUBACK) then
          b ← client readbuf;
          n ← client readbuf_size;
          '(r, o) ← lift (MQTTDeserialize_suback char_signed
                       {| suback_packetid := 0; suback_count := 0;
                          suback_grantedQoSs := [-1] |} 1 b n);
          rc ← (if decide (r = 1)
                then lift (array_get (suback_grantedQoSs o) 0) else mret rc);
          if decide (rc ≠ 128) then
            hs ← client messageHandlers;
            match register f g hs with
            | Some hs => upd (set_messageHandlers hs);; mret 0
            | None => mret rc
            end
          else mret rc
        else mret FAILURE.

Definition MQTTUnsubscribe (f : list Z) : M state Z :=
  to ← client command_timeout_ms;
  t ← plat (countdown_ms to);
  k ← client isconnected;
  if decide (k = 0) then mret FAILURE
  else
    id ← getNextPacketId;
    len ← serialize (λ b n, MQTTSerialize_unsubscribe b n 0 (u16 id) 1 [cstr f]);
    if decide (len ≤ 0) then mret FAILURE
    else
      rc ← sendPacket len t;
      if decide (rc ≠ SUCCESS) then mret rc
      else
        r ← waitfor UNSUBACK t;
        if decide (r = UNSUBACK) then
          b ← client readbuf;
          n ← client readbuf_size;
          '(r, _) ← lift (MQTTDeserialize_unsuback 0 b n);
          mret (if decide (r = 1) then 0 else rc)
        else mret FAILURE.

(** [MQTTMessage]: what [MQTTPublish] reads of it, and the identifier it sets. *)
Record MQTTMessage := {
  msg_qos : Z;
  msg_retained : Z;
  msg_id : Z;
  msg_payload : list Z;
  msg_payloadlen : Z;
}.
Definition set_msg_id (id : Z) (m : MQTTMessage) : MQTTMessage :=
  {| msg_qos := msg_qos m; msg_retained := msg_retained m; msg_id := id;
     msg_payload := msg_payload m; msg_payloadlen := msg_payloadlen m |}.

(** Waiting for the packet that ends a QoS 1 or 2 publication. *)
Definition publish_wait (type rc : Z) (t : timer) : M state Z :=
  r ← waitfor type t;
  if decide (r = type) then
    b ← client readbuf;
    n ← client readbuf_size;
    '(r, _) ← lift (MQTTDeserialize_ack ack_junk b n);
    mret (if decide (r ≠ 1) then FAILURE else rc)
  else mret FAILURE.

(** The C result and the message. *)
Definition MQTTPublish (topicName : list Z) (message : MQTTMessage) :
    M state (Z * MQTTMessage) :=
  to ← client command_timeout_ms;
  t ← plat (countdown_ms to);
  k ← client isconnected;
  if decide (k = 0) then mret (FAILURE, message)
  else
    message ← (if decide (msg_qos message = QOS1 ∨ msg_qos message = QOS2)
               then id ← getNextPacketId; mret (set_msg_id (u16 id) message)
               else mret message);
    len ← serialize (λ b n, MQTTSerialize_publish b n 0 (msg_qos message)
            (msg_retained message) (msg_id message) (cstr topicName)
            (msg_payload message) (s32 (msg_payloadlen message)));
    rc ← (if decide (len ≤ 0) then mret FAILURE
          else
            rc ← sendPacket len t;
            if decide (rc ≠ SUCCESS) then mret rc
            else if decide (msg_qos message = QOS1) then publish_wait PUBACK rc t
            else if decide (msg_qos message = QOS2) then publish_wait PUBCOMP rc t
            else mret rc);
    mret (rc, message).

Definition MQTTDisconnect : M state Z :=
  len ← serialize MQTTSerialize_disconnect;
  to ← client command_timeout_ms;
  t ← plat (countdown_ms to);
  rc ← (if decide (len > 0) then sendPacket len t else mret FAILURE);
  upd (set_isconnected 0);;
  mret rc.
End client.
