(* ===== verification/MqttClientProofs.v ===== *)
(** * The MQTT client: contracts and proofs

    The laws of a well-behaved platform ([Stream], [Passing]), the invariant of
    the client record, and the behaviour of the operations of [MqttClient.v]
    on a platform with the first of them. *)
From S2P Require Import Prelude MqttPacket MqttPublish MqttSubscribe MqttConnect.
From S2P Require Import MqttTopic MqttClient.

(** ** Running client code *)

Section run.
Context {W : Type} `{P : Platform W}.
Implicit Types (c : Client) (w : W).

Lemma run_plat {A B} (m : M W A) (k : A → M state B) c w a w' :
  m w = Ret (a, w') → (plat m ≫= k) (c, w) = k a (c, w').
Proof. intros E. unfold plat. rewrite bindM_run. cbn [snd fst]. by rewrite E. Qed.

Lemma run_upd {B} f (k : unit → M state B) c w : (upd f ≫= k) (c, w) = k tt (f c, w).
Proof. done. Qed.

Lemma run_client {A B} (f : Client → A) (k : A → M state B) c w :
  (client f ≫= k) (c, w) = k (f c) (c, w).
Proof. done. Qed.

Lemma run_lift {A B} (o : outcome A) (k : A → M state B) s a :
  o = Ret a → (lift o ≫= k) s = k a s.
Proof. by intros ->. Qed.

Lemma run_mret {A B} (a : A) (k : A → M state B) s : (mret a ≫= k) s = k a s.
Proof. done. Qed.

Lemma run_assoc {A B C} (m : M state A) (f : A → M state B) (g : B → M state C) s :
  ((m ≫= f) ≫= g) s = (m ≫= λ a, f a ≫= g) s.
Proof.
  rewrite !bindM_run. destruct (m s) as [[a s']| | |]; cbn; try done.
Qed.
End run.

(** Runs the steps that need no fact about the platform. *)
Ltac mstep :=
  repeat first
    [ rewrite run_assoc | rewrite run_mret | rewrite run_client | rewrite run_upd
    | progress cbv beta iota zeta | progress cbn [fst snd] ].

(** ** The invariant of the client record *)

Section wf.
Context {W : Type} `{P : Platform W}.

(** Identifiers fit in 16 bits, the table has its size, the flags are 0 or 1. *)
Definition wf_client (c : Client) : Prop :=
  0 ≤ next_packetid c ≤ MAX_PACKET_ID ∧
  length (messageHandlers c) = MAX_MESSAGE_HANDLERS ∧
  (ping_outstanding c = 0 ∨ ping_outstanding c = 1) ∧
  (isconnected c = 0 ∨ isconnected c = 1).

(** [m] keeps the invariant, whatever the platform does. *)
Definition keeps {A} (m : M state A) : Prop :=
  ∀ s a s', wf_client s.1 → m s = Ret (a, s') → wf_client s'.1.

Lemma keeps_mret {A} (a : A) : keeps (mret a).
Proof. by intros s a' s' Hs [= <- <-]. Qed.

Lemma keeps_bind {A B} (m : M state A) (k : A → M state B) :
  keeps m → (∀ a, keeps (k a)) → keeps (m ≫= k).
Proof.
  intros Hm Hk s b s' Hs E. apply bindM_Ret_inv in E as (a & s1 & E1 & E2).
  eapply Hk; [|exact E2]. by eapply Hm.
Qed.

Lemma keeps_plat {A} (m : M W A) : keeps (plat m).
Proof.
  intros [c w] a s' Hs E. unfold plat in E. cbn [snd fst] in E.
  apply bind_Ret_inv in E as ([a' w'] & _ & [= <- <-]). done.
Qed.

Lemma keeps_client {A} (f : Client → A) : keeps (client f).
Proof. by intros s a s' Hs [= <- <-]. Qed.

Lemma keeps_lift {A} (o : outcome A) : keeps (lift o).
Proof.
  intros s a s' Hs E. unfold lift in E. by apply bind_Ret_inv in E as (? & _ & [= <- <-]).
Qed.

Lemma keeps_upd f : (∀ c, wf_client c → wf_client (f c)) → keeps (upd f).
Proof. intros Hf s a s' Hs [= <- <-]. by apply Hf. Qed.

Lemma keeps_loop {A R} n (body : A → M state (A + R)) a :
  (∀ a, keeps (body a)) → keeps (loopM n body a).
Proof.
  intros Hb s r s' Hs E. unfold loopM in E.
  apply (loop_partial (λ x, wf_client x.2.1) (λ x, wf_client x.2.1)) in E; [done| |done].
  intros [a1 s1] x Hs1 E1. apply bind_Ret_inv in E1 as ([y s2] & E1 & [= <-]).
  destruct y; cbn in *; by eapply Hb.
Qed.

(** [getNextPacketId] reads before it writes, so the step is shown as one. *)
Lemma keeps_getNextPacketId : keeps getNextPacketId.
Proof.
  intros [c w] a s' (Hid & Hr) E. unfold getNextPacketId in E.
  rewrite run_client, run_upd in E. injection E as <- <-.
  split; [|exact Hr]. cbn in *. unfold MAX_PACKET_ID in *. case_decide; [lia|].
  unfold wrap. rewrite Z.mod_small by (change (2 ^ 32) with 4294967296; lia). lia.
Qed.

Lemma register_length f g hs hs' : register f g hs = Some hs' → length hs' = length hs.
Proof.
  revert hs'. induction hs as [|h hs IH]; intros hs' E; [done|]. cbn in E.
  destruct (topicFilter h); [|by injection E as <-].
  apply fmap_Some in E as (hs1 & E & ->). cbn. by rewrite (IH hs1).
Qed.
End wf.

Create HintDb keeps.
#[export] Hint Resolve keeps_mret keeps_plat keeps_client keeps_lift
  keeps_loop keeps_getNextPacketId : keeps.
#[export] Hint Extern 2 (keeps (upd _)) =>
  apply keeps_upd; intros ? (? & ? & ? & ?); repeat split; cbn in *; auto; lia : keeps.

(** Descends through the code to the updates. *)
Ltac keeps :=
  repeat (intros; cbv beta zeta;
    lazymatch goal with
    | |- keeps (mbind _ _) => first [solve [auto 1 with keeps] | apply keeps_bind]
    | |- keeps (loopM _ _ _) => apply keeps_loop
    | |- keeps (match ?x with _ => _ end) => destruct x
    | |- keeps _ => solve [auto with keeps]
    end).

Section commands.
Context {W : Type} `{P : Platform W}.
Context (fuel : nat) (junk : PublishData) (char_signed : bool).

Lemma keeps_sendPacket len t : keeps (sendPacket fuel len t).
Proof. unfold sendPacket, sendPacket_body. keeps. Qed.

Lemma keeps_readPacket t : keeps (readPacket t).
Proof. unfold readPacket, decodePacket, decodePacket_body. keeps. Qed.

Lemma keeps_serialize f : keeps (serialize f).
Proof. unfold serialize. keeps. Qed.

Lemma keeps_deliverMessage msg : keeps (deliverMessage msg).
Proof.
  assert (∀ hs rc, keeps (deliver_loop msg hs rc)) as Hl.
  { induction hs as [|h hs IH]; intros rc; cbn; [keeps|]. unfold deliver_body. keeps; apply IH. }
  unfold deliverMessage. keeps; apply Hl.
Qed.

#[local] Hint Resolve keeps_sendPacket keeps_readPacket keeps_serialize
  keeps_deliverMessage : keeps.

Lemma keeps_keepalive : keeps (keepalive fuel).
Proof. unfold keepalive. keeps. Qed.
#[local] Hint Resolve keeps_keepalive : keeps.

Lemma keeps_cycle t : keeps (cycle fuel junk t).
Proof. unfold cycle, cycle_publish, cycle_pubrec. keeps. Qed.
#[local] Hint Resolve keeps_cycle : keeps.

Lemma keeps_MQTTYield ms : keeps (MQTTYield fuel junk ms).
Proof. unfold MQTTYield, yield_body. keeps. Qed.

Lemma keeps_waitfor ty t : keeps (waitfor fuel junk ty t).
Proof. unfold waitfor, waitfor_body. keeps. Qed.
#[local] Hint Resolve keeps_waitfor : keeps.

Lemma keeps_MQTTConnect o : keeps (MQTTConnect fuel junk o).
Proof. unfold MQTTConnect. keeps. Qed.

Lemma keeps_MQTTUnsubscribe f : keeps (MQTTUnsubscribe fuel junk f).
Proof. unfold MQTTUnsubscribe. keeps. Qed.

Lemma keeps_MQTTPublish n m : keeps (MQTTPublish fuel junk n m).
Proof. unfold MQTTPublish, publish_wait. keeps. Qed.

Lemma keeps_MQTTDisconnect : keeps (MQTTDisconnect fuel).
Proof. unfold MQTTDisconnect. keeps. Qed.

(** The registration step writes a table of the same size. *)
Lemma keeps_register f g rc :
  keeps (hs ← client messageHandlers;
         match register f g hs with
         | Some hs => upd (set_messageHandlers hs);; mret 0
         | None => mret rc
         end).
Proof.
  intros [c w] a s' Hwf E. rewrite run_client in E.
  destruct (register f g (messageHandlers c)) as [hs|] eqn:Er; [|by injection E as <- <-].
  rewrite run_upd in E. injection E as <- <-. apply register_length in Er.
  destruct Hwf as (? & Hl & ? & ?). repeat split; cbn in *; auto; lia.
Qed.

Lemma keeps_MQTTSubscribe f q g : keeps (MQTTSubscribe fuel junk char_signed f q g).
Proof.
  pose proof keeps_register. unfold MQTTSubscribe. keeps.
Qed.
End commands.

(** ** A well-behaved platform

    [incoming] are the bytes still to be read, [outgoing] those written so
    far, [slack t w] a number of platform calls during which the timer [t] is
    sure not to expire.  [moves n rd wr w w']: at most [n] calls' worth of time
    passes, [rd] is read and [wr] written.  [grant ms] is the slack of a fresh
    timer of [ms] milliseconds; [timeout_ok] are the time limits a write takes. *)
Class Stream (W : Type) {P : Platform W} := {
  incoming : W → list Z;
  outgoing : W → list Z;
  slack : timer → W → nat;
  moves (n : nat) (rd wr : list Z) (w w' : W) :=
    incoming w = rd ++ incoming w' ∧ outgoing w' = outgoing w ++ wr ∧
    ∀ t, (slack t w ≤ n + slack t w')%nat;
  grant : Z → nat;
  timeout_ok : Z → Prop;
  incoming_bytes w : Forall is_byte (incoming w);
  expired_law t w : ∃ b w', expired t w = Ret (b, w') ∧ moves 1 [] [] w w' ∧
    ((0 < slack t w)%nat → b = false);
  left_ms_law t w : ∃ ms w', left_ms t w = Ret (ms, w') ∧ moves 1 [] [] w w' ∧
    ((0 < slack t w)%nat → timeout_ok ms);
  countdown_ms_law ms w : ∃ t w', countdown_ms ms w = Ret (t, w') ∧ moves 1 [] [] w w' ∧
    (grant ms ≤ slack t w')%nat;
  countdown_law s w : ∃ t w', countdown s w = Ret (t, w') ∧ moves 1 [] [] w w';
  mqttread_law n ms w : 0 ≤ n ≤ Z.of_nat (length (incoming w)) → n ≤ INT_MAX →
    ∃ w', mqttread n ms w = Ret (n, take (Z.to_nat n) (incoming w), w') ∧
      moves 1 (take (Z.to_nat n) (incoming w)) [] w w';
  mqttwrite_law bs n ms w : 0 < n ≤ Z.of_nat (length bs) → timeout_ok ms →
    ∃ w', mqttwrite bs n ms w = Ret (n, w') ∧ moves 1 [] (take (Z.to_nat n) bs) w w';
  fp_call_law g msg w : moves 1 [] [] w (fp_call g msg w);
}.
#[global] Arguments moves {W P _} n rd wr w w' /.

Section stream.
Context {W : Type} `{P : Platform W} `{S : !Stream W}.
Context (fuel : nat) (junk : PublishData) (char_signed : bool).
Implicit Types (c : Client) (w : W) (t : timer).

Lemma moves_refl w : moves 0 [] [] w w.
Proof. repeat split; [by rewrite app_nil_r|done]. Qed.

Lemma moves_trans n m rd rd' wr wr' w w1 w2 :
  moves n rd wr w w1 → moves m rd' wr' w1 w2 →
  moves (n + m) (rd ++ rd') (wr ++ wr') w w2.
Proof.
  intros (Hi & Ho & Ht) (Hi' & Ho' & Ht'). repeat split.
  - by rewrite Hi, Hi', app_assoc.
  - by rewrite Ho', Ho, app_assoc.
  - intros t. specialize (Ht t). specialize (Ht' t). lia.
Qed.

Lemma moves_incoming n rd wr w w' rest :
  moves n rd wr w w' → incoming w = rd ++ rest → incoming w' = rest.
Proof. intros (Hi & _) Hw. rewrite Hi in Hw. by apply app_inv_head in Hw. Qed.

Lemma moves_le n m rd wr w w' : moves n rd wr w w' → (n ≤ m)%nat → moves m rd wr w w'.
Proof.
  intros (Hi & Ho & Ht) Hle. repeat split; [done..|]. intros t. specialize (Ht t). lia.
Qed.

(** Reading what is known to be next. *)
Lemma read_next bs rest ms w :
  incoming w = bs ++ rest → Z.of_nat (length bs) ≤ INT_MAX →
  ∃ w', mqttread (Z.of_nat (length bs)) ms w = Ret (Z.of_nat (length bs), bs, w') ∧
    moves 1 bs [] w w' ∧ incoming w' = rest.
Proof.
  intros Hi Hmax. destruct (mqttread_law (Z.of_nat (length bs)) ms w) as (w' & Hr & Hm).
  { rewrite Hi. len. } { done. }
  rewrite Nat2Z.id, Hi, take_app_length in *. exists w'. split; [done|]. split; [done|].
  by eapply moves_incoming.
Qed.

(** One write takes everything that is left. *)
Lemma sendPacket_body_ok len t rc c w :
  0 < len ≤ Z.of_nat (length (buf c)) → len ≤ INT_MAX → (1 < slack t w)%nat →
  ∃ w', sendPacket_body len t (rc, 0) (c, w) = Ret (inl (len, len), (c, w')) ∧
    moves 3 [] (take (Z.to_nat len) (buf c)) w w'.
Proof.
  intros Hl Hmax Hs. unfold sendPacket_body. rewrite decide_True by lia.
  destruct (expired_law t w) as (b & w1 & He & Hm1 & Hb). rewrite Hb in He by lia.
  rewrite (run_plat _ _ _ _ _ _ He).
  destruct (left_ms_law t w1) as (ms & w2 & Hms & Hm2 & Hok).
  rewrite (run_plat _ _ _ _ _ _ Hms). mstep. rewrite drop_0.
  destruct (mqttwrite_law (buf c) len ms w2 Hl) as (w3 & Hw & Hm3).
  { apply Hok. destruct Hm1 as (_ & _ & Hm1). specialize (Hm1 t). lia. }
  rewrite (run_plat _ _ _ _ _ _ Hw), decide_False by lia.
  rewrite (run_lift _ _ _ (0 + len)) by (apply int_ok; ints; lia).
  exists w3. split; [done|].
  exact (moves_trans _ _ _ _ _ _ _ _ _ (moves_trans _ _ _ _ _ _ _ _ _ Hm1 Hm2) Hm3).
Qed.

Lemma sendPacket_ok len t c w :
  (2 ≤ fuel)%nat → 0 < len ≤ Z.of_nat (length (buf c)) → len ≤ INT_MAX →
  (1 < slack t w)%nat →
  ∃ pt w', sendPacket fuel len t (c, w) = Ret (SUCCESS, (set_ping_timer pt c, w')) ∧
    moves 4 [] (take (Z.to_nat len) (buf c)) w w'.
Proof.
  intros Hf Hl Hmax Hs. destruct fuel as [|[|n]]; [lia|lia|].
  destruct (sendPacket_body_ok len t FAILURE c w Hl Hmax Hs) as (w1 & Hb & Hm1).
  destruct (countdown_law (c_keepAliveInterval c) w1) as (pt & w2 & Hc & Hm2).
  unfold sendPacket.
  rewrite (bindM_Ret _ _ _ (len, len) (c, w1))
    by (rewrite (loopM_inl _ _ _ _ _ _ Hb); apply loopM_inr; unfold sendPacket_body;
        rewrite decide_False by lia; reflexivity).
  rewrite decide_True by lia. rewrite run_client, (run_plat _ _ _ _ _ _ Hc).
  exists pt, w2. split; [done|].
  pose proof (moves_trans _ _ _ _ _ _ _ _ _ Hm1 Hm2) as Hm. by rewrite !app_nil_r in Hm.
Qed.

(** *** Reading a packet *)

(** The platform as a source of characters. *)
Definition getc (ms : Z) (w : W) : outcome (Z * Z * W) :=
  '((rc, bs), w) ← mqttread 1 ms w;
  i ← of_option (head bs);
  Ret (rc, i, w).

Lemma feeds_stream ms bs rest w :
  incoming w = bs ++ rest →
  ∃ w', feeds (getc ms) w bs w' ∧ moves (length bs) bs [] w w' ∧ incoming w' = rest.
Proof.
  revert w. induction bs as [|b bs IH]; intros w Hi.
  - exists w. split; [done|]. split; [apply moves_refl|done].
  - destruct (read_next [b] (bs ++ rest) ms w Hi ltac:(done)) as (w1 & Hr & Hm & Hi1).
    destruct (IH w1 Hi1) as (w2 & Hf & Hm2 & Hi2). exists w2. split; [|split; [|done]].
    + exists w1. split; [|done]. unfold getc. change (Z.of_nat (length [b])) with 1 in Hr.
      by rewrite Hr.
    + exact (moves_trans _ _ _ _ _ _ _ _ _ Hm Hm2).
Qed.

Lemma decodePacket_digit ms c len m v b w w1 :
  0 ≤ len < 4 → 0 ≤ v → is_byte b → 0 < m ≤ 2097152 → v + 127 * m ≤ 268435455 →
  getc ms w = Ret (1, b, w1) →
  decodePacket_body ms (len, v, m) (c, w) =
    Ret (if b <? 128 then inr (len + 1, v + b mod 128 * m)
         else inl (len + 1, v + b mod 128 * m, m * 128), (c, w1)).
Proof.
  intros Hl Hv Hb Hm Hvm Hg. unfold decodePacket_body, MAX_NO_OF_REMAINING_LENGTH_BYTES.
  rewrite decide_False by lia. unfold getc in Hg.
  apply bind_Ret_inv in Hg as ([[rc bs] w2] & Hr & Hg).
  apply bind_Ret_inv in Hg as (i & Hi & [= -> -> ->]).
  rewrite (run_plat _ _ _ _ _ _ Hr), decide_False by (intros []; done).
  rewrite (run_lift _ _ _ _ Hi). rewrite land_127 by (ints; lia).
  pose proof (Z.mod_pos_bound b 128). assert (0 ≤ b mod 128 * m ≤ 127 * m) by nia.
  rewrite (run_lift _ _ _ (b mod 128 * m)) by (apply int_ok; ints; lia).
  rewrite (run_lift _ _ _ (v + b mod 128 * m)) by (apply int_ok; ints; lia).
  rewrite (run_lift _ _ _ (m * 128)) by (apply int_ok; ints; lia).
  rewrite land_128 by done. by destruct (b <? 128); dec.
Qed.

Lemma decodePacket_ok ms c w n w' :
  0 ≤ n < 268435456 → feeds (getc ms) w (rl_bytes n) w' →
  decodePacket ms (c, w) = Ret ((Z.of_nat (length (rl_bytes n)), n), (c, w')).
Proof.
  intros Hn Hf. unfold rl_bytes in *. rewrite remaining_length_fuel in * by done.
  unfold decodePacket, loopM.
  set (body := λ x : Z * Z * Z * state, _).
  assert (loop 4 body ((0, 0, 1), (c, w)) =
    Ret ((0 + Z.of_nat (length (remaining_length 4 n)), 0 + n * 1), (c, w'))) as E.
  { apply (digits_loop (getc ms) body (λ len m v w, ((len, v, m), (c, w)))
      (λ len _ v w, ((len, v), (c, w)))); try done; try lia.
    intros len m v b g g1 ? ? ? ? ? Hg. unfold body.
    rewrite (decodePacket_digit ms c len m v b g g1) by done. by destruct (b <? 128). }
  transitivity (loop 4 body (0, 0, 1, (c, w))); [|by rewrite Z.mul_1_r in E].
  apply loop_mono; [by rewrite E|lia].
Qed.

(** What [readPacket] does once it has the length [n] of the body, the buffer
    [b] and the offset [p] of the body in it. *)
Definition readPacket_rest (n : Z) (t : timer) (b : list Z) (p : nat) : M state Z :=
  bad ← (if decide (n > 0) then
           ms ← plat (left_ms t);
           '(r, bs) ← plat (mqttread n ms);
           b ← lift (fill p bs b);
           upd (set_readbuf b);;
           mret (bool_decide (r ≠ n))
         else mret false);
  if bad : bool then mret FAILURE
  else
    b ← client readbuf;
    h ← lift (load b 0);
    mret (hdr_type h).

(** [readbuf] when the header [h] and the length [n] have been stored. *)
Definition header_read (h n : Z) (rb : list Z) : list Z :=
  h :: rl_bytes n ++ drop (1 + length (rl_bytes n)) rb.

Lemma readPacket_head h body rest t c w :
  let n := Z.of_nat (length body) in
  incoming w = packet h body ++ rest → n < 268435456 →
  (1 + length (rl_bytes n) ≤ length (readbuf c))%nat →
  ∃ w', readPacket t (c, w) =
      readPacket_rest n t (header_read h n (readbuf c)) (1 + length (rl_bytes n))
        (set_readbuf (header_read h n (readbuf c)) c, w') ∧
    moves 8 (h :: rl_bytes n) [] w w' ∧ incoming w' = body ++ rest.
Proof.
  intros n Hi Hn Hl. pose proof (rl_bytes_length n ltac:(lia)) as Hrl.
  assert (is_byte h) as Hh.
  { pose proof (incoming_bytes w) as Hb. rewrite Hi in Hb. by inversion_clear Hb. }
  unfold readPacket.
  destruct (left_ms_law t w) as (ms & w1 & Hms & Hm1 & _). rewrite (run_plat _ _ _ _ _ _ Hms).
  assert (incoming w1 = [h] ++ rl_bytes n ++ body ++ rest) as Hi1.
  { apply (moves_incoming _ _ _ _ _ _ Hm1). rewrite Hi. unfold packet.
    cbn. by rewrite <- app_assoc. }
  destruct (read_next [h] _ ms w1 Hi1 ltac:(done)) as (w2 & Hr & Hm2 & Hi2).
  change (Z.of_nat (length [h])) with 1 in Hr. rewrite (run_plat _ _ _ _ _ _ Hr). mstep.
  rewrite (run_lift _ _ _ _ (hd_fill h (readbuf c) Hh ltac:(lia))). mstep.
  rewrite decide_False by (intros []; done).
  destruct (left_ms_law t w2) as (ms2 & w3 & Hms2 & Hm3 & _).
  rewrite (run_plat _ _ _ _ _ _ Hms2).
  assert (incoming w3 = rl_bytes n ++ body ++ rest) as Hi3
    by exact (moves_incoming _ _ _ _ _ _ Hm3 Hi2).
  destruct (feeds_stream ms2 _ _ w3 Hi3) as (w4 & Hf & Hm4 & Hi4).
  rewrite (bindM_Ret _ _ _ _ _ (decodePacket_ok ms2 _ _ n _ ltac:(lia) Hf)).
  rewrite (run_lift _ _ _ _ (encode_after_header h n (readbuf c) ltac:(lia) Hh ltac:(lia))).
  mstep. exists w4. split; [done|]. split; [|done].
  pose proof (moves_trans _ _ _ _ _ _ _ _ _ (moves_trans _ _ _ _ _ _ _ _ _
    (moves_trans _ _ _ _ _ _ _ _ _ Hm1 Hm2) Hm3) Hm4) as Hm.
  rewrite !app_nil_r in Hm. apply (moves_le _ 8) in Hm; [exact Hm|lia].
Qed.

(** Reading a body: the platform stores it behind the header. *)
Lemma readPacket_rest_read n body rest t b p c w :
  n = Z.of_nat (length body) → 0 < n < 268435456 → incoming w = body ++ rest →
  ∃ w', moves 2 body [] w w' ∧
    readPacket_rest n t b p (c, w) =
    (b ← lift (fill p body b); upd (set_readbuf b);;
     b ← client readbuf; h ← lift (load b 0); mret (hdr_type h)) (c, w').
Proof.
  intros -> Hn Hi. destruct (left_ms_law t w) as (ms & w1 & Hms & Hm1 & _).
  pose proof (moves_incoming _ _ _ _ _ _ Hm1 Hi) as Hi1.
  destruct (read_next body rest ms w1 Hi1 ltac:(ints; lia)) as (w2 & Hr & Hm2 & _).
  exists w2. split; [exact (moves_trans _ _ _ _ _ _ _ _ _ Hm1 Hm2)|].
  unfold readPacket_rest. rewrite decide_True by lia. rewrite run_assoc.
  rewrite (run_plat _ _ _ _ _ _ Hms). mstep. rewrite (run_plat _ _ _ _ _ _ Hr). mstep.
  rewrite !(bindM_run (lift _)). destruct (lift _ _) as [[b' s']| | |]; [|done..]. bret.
  destruct s'. mstep. by rewrite bool_decide_eq_false_2 by auto.
Qed.

(** A packet that fits in [readbuf] is read whole, and nothing beyond it. *)
Lemma readPacket_ok h body rest t c w :
  incoming w = packet h body ++ rest →
  Z.of_nat (length body) < 268435456 → (length (packet h body) ≤ length (readbuf c))%nat →
  ∃ w', readPacket t (c, w) =
      Ret (hdr_type h, (set_readbuf (packet h body ++
             drop (length (packet h body)) (readbuf c)) c, w')) ∧
    moves 10 (packet h body) [] w w' ∧ incoming w' = rest.
Proof.
  intros Hi Hn Hl. set (n := Z.of_nat (length body)) in *.
  pose proof (length_packet h body) as Hlp. unfold packet_size in Hlp. fold n in Hlp.
  assert (1 + length (rl_bytes n) ≤ length (readbuf c))%nat as Hroom by lia.
  destruct (readPacket_head h body rest t c w Hi Hn Hroom) as (w1 & -> & Hm1 & Hi1).
  fold n. destruct (decide (0 < n)) as [Hpos|].
  - destruct (readPacket_rest_read n body rest t (header_read h n (readbuf c))
      (1 + length (rl_bytes n)) (set_readbuf (header_read h n (readbuf c)) c) w1)
      as (w2 & Hm2 & ->); [done|lia|done|].
    pose proof (incoming_bytes w1) as Hb. rewrite Hi1 in Hb. apply Forall_app in Hb as [Hb _].
    unfold header_read at 1.
    rewrite (run_lift _ _ _ _ (fill_body h n body (readbuf c) eq_refl Hn Hb Hl)). mstep.
    rewrite (run_lift _ _ _ h) by done. exists w2. split; [done|].
    split; [exact (moves_trans _ _ _ _ _ _ _ _ _ Hm1 Hm2)|].
    exact (moves_incoming _ _ _ _ _ _ Hm2 Hi1).
  - assert (body = []) as -> by (destruct body; [done|cbn in n; lia]).
    exists w1. split; [|split; [|done]].
    + unfold readPacket_rest. rewrite decide_False by lia. mstep.
      rewrite (run_lift _ _ _ h) by done. unfold header_read, packet, n. cbn [length app].
      by rewrite app_nil_r.
    + apply (moves_le 8); [|lia]. unfold packet. by rewrite app_nil_r.
Qed.

(** [readbuf_size] is not consulted: a longer packet is stored past the end. *)
Lemma readPacket_too_long h body rest t c w :
  incoming w = packet h body ++ rest →
  Z.of_nat (length body) < 268435456 → (5 ≤ length (readbuf c))%nat →
  (length (readbuf c) < length (packet h body))%nat →
  readPacket t (c, w) = Undef.
Proof.
  intros Hi Hn H5 Hl. set (n := Z.of_nat (length body)) in *.
  pose proof (length_packet h body) as Hlp. unfold packet_size in Hlp. fold n in Hlp.
  pose proof (rl_bytes_length n ltac:(lia)) as Hrl.
  assert (1 + length (rl_bytes n) ≤ length (readbuf c))%nat as Hroom by lia.
  destruct (readPacket_head h body rest t c w Hi Hn Hroom) as (w1 & -> & Hm1 & Hi1).
  fold n. destruct (readPacket_rest_read n body rest t (header_read h n (readbuf c))
      (1 + length (rl_bytes n)) (set_readbuf (header_read h n (readbuf c)) c) w1)
      as (w2 & Hm2 & ->); [done|lia|done|].
  unfold fill. rewrite put_Undef; [done|]. unfold header_read. cbn [wpos wmem]. len.
Qed.

(** *** Keep-alive *)

(** [c'] is [c] but for the send buffer and the state of the pings. *)
Definition same_session c c' : Prop :=
  next_packetid c' = next_packetid c ∧ command_timeout_ms c' = command_timeout_ms c ∧
  buf_size c' = buf_size c ∧ readbuf_size c' = readbuf_size c ∧
  length (buf c') = length (buf c) ∧ readbuf c' = readbuf c ∧
  c_keepAliveInterval c' = c_keepAliveInterval c ∧ isconnected c' = isconnected c ∧
  messageHandlers c' = messageHandlers c ∧ defaultMessageHandler c' = defaultMessageHandler c.

(** The declared size of the send buffer is honest and takes the short packets. *)
Definition wf_buf c : Prop := 4 ≤ buf_size c ≤ Z.of_nat (length (buf c)).

Lemma same_session_refl c : same_session c c.
Proof. done. Qed.

Lemma same_session_trans c c1 c2 :
  same_session c c1 → same_session c1 c2 → same_session c c2.
Proof. unfold same_session. intros H1 H2. decompose [and] H1. decompose [and] H2. by repeat split; etransitivity; eauto. Qed.

Lemma same_session_wf_buf c c' : same_session c c' → wf_buf c → wf_buf c'.
Proof. intros (_ & _ & E & _ & E' & _) Hb. unfold wf_buf. by rewrite E, E'. Qed.

(** Sending a packet just serialized. *)
Lemma serialize_send (f : list Z → Z → outcome (Z * list Z)) pkt t c w :
  (2 ≤ fuel)%nat → (0 < length pkt ≤ length (buf c))%nat → Z.of_nat (length pkt) ≤ INT_MAX →
  f (buf c) (buf_size c) = Ret (Z.of_nat (length pkt), pkt ++ drop (length pkt) (buf c)) →
  (1 < slack t w)%nat →
  ∃ c1 pt w', serialize f (c, w) = Ret (Z.of_nat (length pkt), (c1, w)) ∧
    sendPacket fuel (Z.of_nat (length pkt)) t (c1, w) =
      Ret (SUCCESS, (set_ping_timer pt c1, w')) ∧
    same_session c (set_ping_timer pt c1) ∧ ping_outstanding c1 = ping_outstanding c ∧
    moves 4 [] pkt w w'.
Proof.
  intros Hf Hl Hmax Hs Ht. set (c1 := set_buf (pkt ++ drop (length pkt) (buf c)) c).
  assert (length (buf c1) = length (buf c)) as Hlen by (cbn; len).
  destruct (sendPacket_ok (Z.of_nat (length pkt)) t c1 w) as (pt & w' & E & Hm);
    [done|rewrite Hlen; lia|done|done|].
  exists c1, pt, w'. split.
  { unfold serialize. mstep. by rewrite (run_lift _ _ _ _ Hs). }
  split; [done|]. split; [repeat split; done|]. split; [done|].
  cbn in Hm. by rewrite Nat2Z.id, take_app_length in Hm.
Qed.

(** [keepalive] sends at most one PINGREQ and leaves the session alone. *)
Lemma keepalive_ok c w :
  (2 ≤ fuel)%nat → wf_buf c → (1 < grant 1000)%nat →
  ∃ rc c' w' p, keepalive fuel (c, w) = Ret (rc, (c', w')) ∧ same_session c c' ∧
    moves 6 [] p w w' ∧ (p = [] ∨ p = zero_packet PINGREQ).
Proof.
  intros Hf Hb Hg. unfold keepalive. mstep. destruct (decide (c_keepAliveInterval c = 0)).
  { exists SUCCESS, c, w, []. split; [done|]. split; [done|]. split; [|by left].
    apply (moves_le 0); [apply moves_refl|lia]. }
  mstep. destruct (expired_law (ping_timer c) w) as (b & w1 & He & Hm1 & _).
  rewrite (run_plat _ _ _ _ _ _ He). mstep.
  destruct (decide (b = true ∧ ping_outstanding c = 0)).
  2: { exists FAILURE, c, w1, []. split; [done|]. split; [done|]. split; [|by left].
       apply (moves_le 1); [done|lia]. }
  destruct (countdown_ms_law 1000 w1) as (t & w2 & Hc & Hm2 & Ht).
  rewrite (run_plat _ _ _ _ _ _ Hc).
  unfold wf_buf in Hb.
  destruct (serialize_send MQTTSerialize_pingreq (zero_packet PINGREQ) t c w2)
    as (c1 & pt & w3 & E1 & E2 & Hs & Hp & Hm3); [done|change (length (zero_packet PINGREQ)) with 2%nat; lia|done| |lia|].
  { unfold MQTTSerialize_pingreq. rewrite MQTTSerialize_zero_ok by lia. by dec. }
  rewrite (bindM_Ret _ _ _ _ _ E1). change (Z.of_nat (length (zero_packet PINGREQ))) with 2.
  rewrite decide_True by lia. rewrite (bindM_Ret _ _ _ _ _ E2). rewrite decide_True by done.
  mstep. eexists _, _, w3, _. split; [done|]. split; [done|]. split; [|by right].
  exact (moves_trans _ _ _ _ _ _ _ _ _ (moves_trans _ _ _ _ _ _ _ _ _ Hm1 Hm2) Hm3).
Qed.

(** *** Delivering a message *)

(** A filter covers a topic that equals it or that it matches. *)
Definition covers (f topic : list Z) : bool := (bool_decide (topic = f) || tm f topic)%bool.

(** The functions called for a topic, in the order of the table; the default
    handler when there is none. *)
Definition subscribers (topic : list Z) (hs : list (MessageHandlers handler)) :
    list handler :=
  omap (λ h, match topicFilter h with
             | Some f => if covers f topic then fp h else None
             | None => None
             end) hs.
Definition recipients (topic : list Z) c : list handler :=
  match subscribers topic (messageHandlers c) with
  | [] => option_list (defaultMessageHandler c)
  | gs => gs
  end.

Definition call_all (msg : PublishData) (gs : list handler) (w : W) : W :=
  foldl (λ w g, fp_call g msg w) w gs.

(** The filters are C strings. *)
Definition wf_handlers (hs : list (MessageHandlers handler)) : Prop :=
  Forall (λ h, match topicFilter h with
               | Some f => Forall (λ ch : Z, ch ≠ 0) f ∧ Z.of_nat (length f) ≤ INT_MAX
               | None => True
               end) hs.
#[export] Instance wf_handlers_dec hs : Decision (wf_handlers hs).
Proof.
  unfold wf_handlers. apply Forall_dec. intros h. destruct (topicFilter h); apply _.
Defined.

Lemma topic_matches_ok f topic s :
  Forall is_byte topic → Z.of_nat (length topic) < 65536 →
  Forall (λ ch : Z, ch ≠ 0) f → Z.of_nat (length f) ≤ INT_MAX →
  topic_matches f (read_string topic s) = Ret (covers f topic).
Proof.
  intros Ht Hl Hf Hfl. unfold topic_matches, covers.
  rewrite (MQTTPacket_equals_spec _ f) by (done || by apply wf_read_string). bret.
  rewrite MQTTString_bytes_read. case_bool_decide; [done|].
  rewrite (isTopicMatched_tm _ _ (topic ++ s)) by (cbn; len || done).
  cbn [lenstring_len read_string]. by rewrite Nat2Z.id, take_app_length.
Qed.

Lemma deliver_loop_ok msg topic s hs c w rc :
  pub_topicName msg = read_string topic s →
  Forall is_byte topic → Z.of_nat (length topic) < 65536 → wf_handlers hs →
  deliver_loop msg hs rc (c, w) =
  Ret (match subscribers topic hs with [] => rc | _ => SUCCESS end,
       (c, call_all msg (subscribers topic hs) w)).
Proof.
  intros Hm Ht Hl Hhs. revert w rc. induction Hhs as [|h hs Hh Hhs IH]; intros w rc; [done|].
  cbn [deliver_loop]. unfold deliver_body. rewrite Hm. unfold subscribers. cbn [omap list_omap].
  fold (subscribers topic hs). destruct (topicFilter h) as [f|]; [|by rewrite run_mret, IH].
  destruct Hh as [Hf Hfl]. rewrite run_assoc.
  rewrite (run_lift _ _ _ _ (topic_matches_ok f topic s Ht Hl Hf Hfl)).
  destruct (covers f topic), (fp h) as [g|]; mstep; rewrite ?IH; try done.
  rewrite (run_plat _ _ _ _ tt (fp_call g msg w)) by done. mstep. rewrite IH.
  cbn. by destruct (subscribers topic hs).
Qed.

Lemma deliverMessage_ok msg topic s c w :
  pub_topicName msg = read_string topic s →
  Forall is_byte topic → Z.of_nat (length topic) < 65536 → wf_handlers (messageHandlers c) →
  deliverMessage msg (c, w) =
  Ret (if decide (recipients topic c = []) then FAILURE else SUCCESS,
       (c, call_all msg (recipients topic c) w)).
Proof.
  intros Hm Ht Hl Hhs. unfold deliverMessage, recipients. mstep.
  rewrite (bindM_Ret _ _ _ _ _ (deliver_loop_ok msg topic s _ c w _ Hm Ht Hl Hhs)). mstep.
  destruct (subscribers topic (messageHandlers c)) as [|g gs];
    destruct (defaultMessageHandler c) as [d|]; done.
Qed.

Lemma moves_call_all msg gs w : moves (length gs) [] [] w (call_all msg gs w).
Proof.
  revert w. induction gs as [|g gs IH]; intros w; [apply moves_refl|].
  exact (moves_trans _ _ _ _ _ _ _ _ _ (fp_call_law g msg w) (IH _)).
Qed.

(** *** One cycle *)

(** What reading [pkt] leaves in the client. *)
Definition received (pkt : list Z) c : Client :=
  set_readbuf (pkt ++ drop (length pkt) (readbuf c)) c.

Lemma hdr_type_range h : 0 ≤ hdr_type h < 16.
Proof. unfold hdr_type. rewrite bits_div by lia. by apply Z.mod_pos_bound. Qed.

(** The pings a cycle may send. *)
Definition maybe_ping (p : list Z) : Prop := p = [] ∨ p = zero_packet PINGREQ.

(** [keepalive] after the switch: the cycle's result is the packet type. *)
Lemma cycle_exit (pt : Z) c w :
  (2 ≤ fuel)%nat → wf_buf c → (1 < grant 1000)%nat →
  ∃ c' w' p, (keepalive fuel;; mret pt) (c, w) = Ret (pt, (c', w')) ∧ same_session c c' ∧
    moves 6 [] p w w' ∧ maybe_ping p.
Proof.
  intros Hf Hb Hg. destruct (keepalive_ok c w Hf Hb Hg) as (rc & c' & w' & p & E & Hs & Hm & Hp).
  exists c', w', p. by rewrite (bindM_Ret _ _ _ _ _ E).
Qed.

Lemma cycle_other h body rest t c w :
  incoming w = packet h body ++ rest → hdr_type h ≠ PUBLISH → hdr_type h ≠ PUBREC →
  Z.of_nat (length body) < 268435456 → (length (packet h body) ≤ length (readbuf c))%nat →
  (2 ≤ fuel)%nat → wf_buf c → (1 < grant 1000)%nat →
  ∃ c' w' p, cycle fuel junk t (c, w) = Ret (hdr_type h, (c', w')) ∧
    same_session (received (packet h body) c) c' ∧ moves 16 (packet h body) p w w' ∧
    maybe_ping p ∧ incoming w' = rest.
Proof.
  intros Hi Hpub Hrec Hn Hl Hf Hb Hg.
  destruct (readPacket_ok h body rest t c w Hi Hn Hl) as (w1 & Hr & Hm1 & Hi1).
  unfold cycle. rewrite (bindM_Ret _ _ _ _ _ Hr).
  pose proof (hdr_type_range h). rewrite u16_id by (ints; lia).
  rewrite !decide_False by done. fold (received (packet h body) c).
  set (c1 := received (packet h body) c) in *.
  set (c2 := if decide (hdr_type h = PINGRESP) then set_ping_outstanding 0 c1 else c1).
  destruct (cycle_exit (hdr_type h) c2 w1) as (c' & w' & p & E & Hs & Hm2 & Hp);
    [done|by unfold c2; case_decide|done|].
  exists c', w', p. split.
  { rewrite <- E. unfold c2. by destruct (decide (hdr_type h = PINGRESP)). }
  split; [|split; [|split; [done|]]].
  - eapply same_session_trans; [|exact Hs]. unfold c2. by case_decide.
  - pose proof (moves_trans _ _ _ _ _ _ _ _ _ Hm1 Hm2) as Hm. by rewrite app_nil_r in Hm.
  - by apply (moves_incoming _ _ _ _ _ _ Hm2).
Qed.

(** The answer to a PUBLISH. *)
Definition answer (qos packetid : Z) : list Z :=
  if decide (qos = QOS1) then ack_packet PUBACK 0 0 packetid
  else if decide (qos = QOS2) then ack_packet PUBREC 0 0 packetid else [].

(** The message [cycle] passes to the handlers. *)
Definition published (dup qos retained packetid : Z) (topic payload rest : list Z) :
    PublishData :=
  {| pub_dup := dup; pub_qos := qos; pub_retained := retained;
     pub_packetid := if decide (qos > 0) then packetid else pub_packetid junk;
     pub_topicName := read_string topic (opt_id qos packetid ++ payload ++ rest);
     pub_payload := payload ++ rest;
     pub_payloadlen := Z.of_nat (length payload) |}.

Lemma ack_send type packetid t c w :
  (2 ≤ fuel)%nat → wf_buf c → is_u16 packetid → (1 < slack t w)%nat →
  let pkt := ack_packet type 0 (if decide (type = PUBREL) then 1 else 0) packetid in
  ∃ c1 pt w', serialize (λ b n, MQTTSerialize_ack b n type 0 packetid) (c, w) =
      Ret (4, (c1, w)) ∧
    sendPacket fuel 4 t (c1, w) = Ret (SUCCESS, (set_ping_timer pt c1, w')) ∧
    same_session c (set_ping_timer pt c1) ∧ moves 4 [] pkt w w'.
Proof.
  intros Hf Hb Hid Ht pkt. unfold wf_buf in Hb.
  destruct (serialize_send (λ b n, MQTTSerialize_ack b n type 0 packetid) pkt t c w)
    as (c1 & pt & w3 & E1 & E2 & Hs & _ & Hm3);
    [done|change (length pkt) with 4%nat; lia|done| |done|].
  { rewrite MQTTSerialize_ack_ok by (done || lia). by dec. }
  by exists c1, pt, w3.
Qed.

(** The answer to a message of any quality of service. *)
Lemma answer_send qos packetid t c w :
  (2 ≤ fuel)%nat → wf_buf c → is_u16 packetid → (1 < slack t w)%nat → 0 < qos < 3 →
  ∃ c1 pt w',
    (if decide (qos = QOS1) then serialize (λ b n, MQTTSerialize_ack b n PUBACK 0 packetid)
     else if decide (qos = QOS2) then serialize (λ b n, MQTTSerialize_ack b n PUBREC 0 packetid)
     else mret 0) (c, w) = Ret (4, (c1, w)) ∧
    sendPacket fuel 4 t (c1, w) = Ret (SUCCESS, (set_ping_timer pt c1, w')) ∧
    same_session c (set_ping_timer pt c1) ∧ moves 4 [] (answer qos packetid) w w'.
Proof.
  intros Hf Hb Hid Ht Hq. unfold answer, QOS1, QOS2.
  destruct (decide (qos = 1)) as [->|]; [exact (ack_send PUBACK packetid t c w Hf Hb Hid Ht)|].
  rewrite !decide_True by lia. exact (ack_send PUBREC packetid t c w Hf Hb Hid Ht).
Qed.

Lemma cycle_publish_ok dup qos retained packetid topic payload rest t c w :
  let pkt := publish_packet dup qos retained packetid topic payload in
  let tail := drop (length pkt) (readbuf c) in
  let msg := published dup qos retained packetid topic payload tail in
  0 ≤ dup < 2 → 0 ≤ qos < 3 → 0 ≤ retained < 2 → is_u16 packetid →
  Z.of_nat (length topic) < 65536 →
  Z.of_nat (length (publish_body qos packetid topic payload)) < 268435456 →
  incoming w = pkt ++ rest → (length pkt ≤ length (readbuf c))%nat →
  wf_handlers (messageHandlers c) → (2 ≤ fuel)%nat → wf_buf c → (1 < grant 1000)%nat →
  (11 + length (recipients topic c) < slack t w)%nat →
  ∃ c' w1 w' p, cycle fuel junk t (c, w) = Ret (PUBLISH, (c', w')) ∧
    same_session (received pkt c) c' ∧ moves 10 pkt [] w w1 ∧
    moves 10 [] (answer qos packetid ++ p) (call_all msg (recipients topic c) w1) w' ∧
    maybe_ping p ∧ incoming w' = rest.
Proof.
  intros pkt tail msg Hd Hq Hr Hid Ht Hn Hi Hl Hh Hf Hb Hg Hs.
  pose proof (incoming_bytes w) as Hbytes. rewrite Hi in Hbytes. unfold pkt, publish_packet,
    packet, publish_body, utf_bytes in Hbytes.
  rewrite Forall_app, Forall_cons, !Forall_app in Hbytes.
  destruct Hbytes as ((_ & _ & ((_ & Htb) & _)) & _).
  destruct (readPacket_ok _ _ rest t c w Hi Hn Hl) as (w1 & Hrd & Hm1 & Hi1).
  destruct (MQTTHeader_fields PUBLISH dup qos retained) as (Ety & _).
  unfold cycle. rewrite (bindM_Ret _ _ _ _ _ Hrd). rewrite Ety.
  change (u16 (field 4 PUBLISH)) with PUBLISH. rewrite decide_True by done.
  fold (publish_packet dup qos retained packetid topic payload). fold pkt.
  fold (received pkt c). set (c1 := received pkt c). unfold cycle_publish. mstep.
  rewrite (run_lift _ _ _ (1, msg))
    by (apply MQTTDeserialize_publish_ok; done || lia). mstep.
  rewrite (decide_False (P := 1 ≠ 1)) by auto. mstep.
  rewrite (bindM_Ret _ _ _ _ _ (deliverMessage_ok msg topic _ c1 w1 eq_refl Htb Ht Hh)).
  change (recipients topic c1) with (recipients topic c).
  pose proof (moves_call_all msg (recipients topic c) w1) as Hmc.
  set (w2 := call_all msg (recipients topic c) w1) in *.
  change (pub_qos msg) with qos. unfold QOS0.
  destruct (decide (qos = 0)) as [->|Hq0].
  - rewrite (decide_False (P := 0 ≠ 0)) by auto. mstep.
    rewrite (decide_False (P := SUCCESS = FAILURE)) by done.
    rewrite (decide_True (P := SUCCESS = SUCCESS)) by done.
    destruct (cycle_exit PUBLISH c1 w2 Hf Hb Hg) as (c' & w' & p & E & Hss & Hm2 & Hp).
    exists c', w1, w', p. split; [exact E|]. split; [done|]. split; [done|]. split; [|split; [done|]].
    + apply (moves_le 6); [exact Hm2|lia].
    + apply (moves_incoming _ _ _ _ _ _ Hm2). by apply (moves_incoming _ _ _ _ _ _ Hmc).
  - rewrite (decide_True (P := qos ≠ 0)) by done.
    change (pub_packetid msg) with (if decide (qos > 0) then packetid else pub_packetid junk).
    rewrite (decide_True (P := qos > 0)) by lia.
    assert (1 < slack t w2)%nat as Hs2.
    { destruct Hm1 as (_ & _ & Hm1), Hmc as (_ & _ & Hmc).
      specialize (Hm1 t). specialize (Hmc t). lia. }
    destruct (answer_send qos packetid t c1 w2 Hf Hb Hid Hs2 ltac:(lia))
      as (c2 & pt & w3 & E1 & E2 & Hs3 & Hm3).
    rewrite run_assoc, (bindM_Ret _ _ _ _ _ E1). mstep.
    rewrite (decide_False (P := 4 ≤ 0)) by lia. rewrite run_assoc, (bindM_Ret _ _ _ _ _ E2). mstep.
    rewrite (decide_False (P := SUCCESS = FAILURE)) by done.
    rewrite (decide_True (P := SUCCESS = SUCCESS)) by done.
    destruct (cycle_exit PUBLISH (set_ping_timer pt c2) w3 Hf) as (c' & w' & p & E & Hss & Hm4 & Hp);
      [by eapply same_session_wf_buf|done|].
    exists c', w1, w', p. split; [exact E|].
    split; [by eapply same_session_trans|]. split; [done|]. split; [|split; [done|]].
    + exact (moves_trans _ _ _ _ _ _ _ _ _ Hm3 Hm4).
    + apply (moves_incoming _ _ _ _ _ _ Hm4). apply (moves_incoming _ _ _ _ _ _ Hm3).
      by apply (moves_incoming _ _ _ _ _ _ Hmc).
Qed.

(** A PUBREC is answered by the PUBREL with its identifier. *)
Lemma cycle_pubrec_ok dup qos packetid rest t c w :
  let pkt := ack_packet PUBREC dup qos packetid in
  0 ≤ dup < 2 → is_u16 packetid →
  incoming w = pkt ++ rest → (4 ≤ length (readbuf c))%nat →
  (2 ≤ fuel)%nat → wf_buf c → (1 < grant 1000)%nat → (11 < slack t w)%nat →
  ∃ c' w' p, cycle fuel junk t (c, w) = Ret (PUBREC, (c', w')) ∧
    same_session (received pkt c) c' ∧
    moves 20 pkt (ack_packet PUBREL 0 1 packetid ++ p) w w' ∧
    maybe_ping p ∧ incoming w' = rest.
Proof.
  intros pkt Hd Hid Hi Hl Hf Hb Hg Hs.
  destruct (readPacket_ok (MQTTHeader_byte PUBREC dup qos 0) (be16 packetid) rest t c w Hi
    ltac:(by rewrite length_be16) Hl) as (w1 & Hrd & Hm1 & Hi1).
  destruct (MQTTHeader_fields PUBREC dup qos 0) as (Ety & _).
  unfold cycle. rewrite (bindM_Ret _ _ _ _ _ Hrd). rewrite Ety.
  change (u16 (field 4 PUBREC)) with PUBREC. rewrite decide_False, decide_True by done.
  fold (ack_packet PUBREC dup qos packetid). fold pkt.
  fold (received pkt c). set (c1 := received pkt c). unfold cycle_pubrec. mstep.
  rewrite (run_lift _ _ _ (1, {| ack_type := PUBREC; ack_dup := dup; ack_packetid := packetid |}))
    by (apply MQTTDeserialize_ack_ok; done || lia). mstep.
  rewrite (decide_False (P := 1 ≠ 1)) by auto. cbn [ack_packetid].
  assert (1 < slack t w1)%nat as Hs1 by (destruct Hm1 as (_ & _ & Hm1); specialize (Hm1 t); lia).
  destruct (ack_send PUBREL packetid t c1 w1 Hf Hb Hid Hs1) as (c2 & pt & w2 & E1 & E2 & Hs2 & Hm2).
  rewrite run_assoc, (bindM_Ret _ _ _ _ _ E1), (decide_False (P := 4 ≤ 0)) by lia.
  rewrite run_assoc, (bindM_Ret _ _ _ _ _ E2), (decide_False (P := SUCCESS ≠ SUCCESS)) by auto.
  mstep. rewrite (decide_False (P := SUCCESS = FAILURE)), (decide_True (P := SUCCESS = SUCCESS))
    by done.
  destruct (cycle_exit PUBREC (set_ping_timer pt c2) w2 Hf) as (c' & w' & p & E & Hss & Hm3 & Hp);
    [by eapply same_session_wf_buf|done|].
  exists c', w', p. split; [exact E|]. split; [by eapply same_session_trans|].
  split; [|split; [done|]].
  - pose proof (moves_trans _ _ _ _ _ _ _ _ _ (moves_trans _ _ _ _ _ _ _ _ _ Hm1 Hm2) Hm3) as Hm.
    by rewrite !app_nil_r in Hm.
  - apply (moves_incoming _ _ _ _ _ _ Hm3). by apply (moves_incoming _ _ _ _ _ _ Hm2).
Qed.

(** *** Commands *)

(** When the packet waited for is next, [waitfor] returns its type. *)
Lemma waitfor_ok h body rest t c w :
  incoming w = packet h body ++ rest → hdr_type h ≠ PUBLISH → hdr_type h ≠ PUBREC →
  Z.of_nat (length body) < 268435456 → (length (packet h body) ≤ length (readbuf c))%nat →
  (2 ≤ fuel)%nat → wf_buf c → (1 < grant 1000)%nat → (0 < slack t w)%nat →
  ∃ c' w' p, waitfor fuel junk (hdr_type h) t (c, w) = Ret (hdr_type h, (c', w')) ∧
    same_session (received (packet h body) c) c' ∧ moves 17 (packet h body) p w w' ∧
    maybe_ping p ∧ incoming w' = rest.
Proof.
  intros Hi Hpub Hrec Hn Hl Hf Hb Hg Hs.
  destruct (expired_law t w) as (b & w1 & He & Hm1 & Hb1). rewrite (Hb1 Hs) in He.
  pose proof (moves_incoming _ _ _ _ _ _ Hm1 Hi) as Hi1.
  destruct (cycle_other h body rest t c w1) as (c' & w' & p & E & Hss & Hm2 & Hp & Hi2); [done..|].
  exists c', w', p. split; [|split; [done|split; [|done]]].
  - unfold waitfor. destruct fuel as [|n]; [lia|]. apply loopM_inr. unfold waitfor_body.
    rewrite (run_plat _ _ _ _ _ _ He), (bindM_Ret _ _ _ _ _ E).
    by rewrite (decide_False (P := hdr_type h ≠ hdr_type h)) by auto.
  - exact (moves_trans _ _ _ _ _ _ _ _ _ Hm1 Hm2).
Qed.

(** The end of [MQTTConnect]: the return code of the CONNACK. *)
Lemma connack_wait_ok flags code rest t c w :
  incoming w = connack_packet flags code ++ rest → (4 ≤ length (readbuf c))%nat →
  (2 ≤ fuel)%nat → wf_buf c → (1 < grant 1000)%nat → (0 < slack t w)%nat →
  ∃ c' w' p,
    (r ← waitfor fuel junk CONNACK t;
     if decide (r = CONNACK) then
       b ← client readbuf;
       n ← client readbuf_size;
       '(r, _, code) ← lift (MQTTDeserialize_connack 0 255 b n);
       if decide (r = 1) then mret code else mret FAILURE
     else mret FAILURE) (c, w) = Ret (code, (c', w')) ∧
    same_session (received (connack_packet flags code) c) c' ∧
    moves 17 (connack_packet flags code) p w w' ∧ maybe_ping p ∧ incoming w' = rest.
Proof.
  intros Hi Hl Hf Hb Hg Hs. destruct (MQTTHeader_fields CONNACK 0 0 0) as (Ety & _).
  destruct (waitfor_ok (MQTTHeader_byte CONNACK 0 0 0) [flags; code] rest t c w)
    as (c' & w' & p & E & Hss & Hm & Hp & Hi'); [done|by rewrite Ety..|done|done|done|done|done|done|].
  rewrite Ety in E. change (field 4 CONNACK) with CONNACK in E.
  exists c', w', p. split; [|done]. rewrite (bindM_Ret _ _ _ _ _ E), decide_True by done. mstep.
  destruct Hss as (_ & _ & _ & _ & _ & -> & _). cbn [received set_readbuf readbuf].
  rewrite (run_lift _ _ _ (1, fl_sessionpresent flags, code))
    by apply MQTTDeserialize_connack_ok.
  mstep. by rewrite decide_True by done.
Qed.

Lemma MQTTConnect_ok o flags code rest c w :
  wf_options o → is_byte code →
  Z.of_nat (length (connect_packet o)) < buf_size c → wf_buf c → (4 ≤ length (readbuf c))%nat →
  (2 ≤ fuel)%nat → (1 < grant 1000)%nat → (5 < grant (command_timeout_ms c))%nat →
  isconnected c = 0 → incoming w = connack_packet flags code ++ rest →
  ∃ c' w' p, MQTTConnect fuel junk (Some o) (c, w) = Ret (code, (c', w')) ∧
    isconnected c' = (if decide (code = 0) then 1 else 0) ∧
    c_keepAliveInterval c' = keepAliveInterval o ∧
    outgoing w' = outgoing w ++ connect_packet o ++ p ∧ maybe_ping p ∧ incoming w' = rest.
Proof.
  intros Ho Hcode Hlen Hb Hrb Hf Hg Hto Hc Hi. unfold MQTTConnect. mstep.
  destruct (countdown_ms_law (command_timeout_ms c) w) as (t & w1 & Ht & Hm1 & Hsl).
  rewrite (run_plat _ _ _ _ _ _ Ht). mstep. rewrite Hc, (decide_False (P := 0 ≠ 0)) by auto.
  cbn [default from_option id]. mstep. set (c1 := set_keepAliveInterval _ c).
  destruct (countdown_law (keepAliveInterval o) w1) as (pt & w2 & Hpt & Hm2).
  rewrite (run_plat _ _ _ _ _ _ Hpt). mstep. set (c2 := set_ping_timer pt c1).
  pose proof Hb as Hb'. unfold wf_buf in Hb'.
  destruct (MQTTSerialize_connect_ok (buf c) (buf_size c) o Ho) as (L & HL & Hser); [lia|].
  rewrite decide_False in Hser by lia.
  assert (1 < slack t w2)%nat as Hs2 by (destruct Hm2 as (_ & _ & Hm2); specialize (Hm2 t); lia).
  destruct (connectLength_ok o Ho) as [_ Hbl].
  assert (0 < length (connect_packet o))%nat as Hpos by (unfold connect_packet, packet; cbn; lia).
  assert (Z.of_nat (length (connect_packet o)) ≤ INT_MAX) as Hmax.
  { unfold connect_packet. rewrite length_packet. unfold packet_size.
    pose proof (rl_bytes_length (Z.of_nat (length (connect_body o))) ltac:(lia)) as Hrl.
    unfold INT_MAX. lia. }
  destruct (serialize_send (λ b n, MQTTSerialize_connect b n o) (connect_packet o) t c2 w2 Hf)
    as (c3 & pt3 & w3 & E1 & E2 & Hss & _ & Hm3);
    [change (buf c2) with (buf c); lia|done|done|done|].
  rewrite (bindM_Ret _ _ _ _ _ E1).
  rewrite (decide_False (P := Z.of_nat (length (connect_packet o)) ≤ 0)) by lia.
  rewrite run_assoc, (bindM_Ret _ _ _ _ _ E2), (decide_False (P := SUCCESS ≠ SUCCESS)) by auto.
  set (c4 := set_ping_timer pt3 c3) in *.
  assert (moves 6 [] (connect_packet o) w w3) as Hm.
  { pose proof (moves_trans _ _ _ _ _ _ _ _ _ (moves_trans _ _ _ _ _ _ _ _ _ Hm1 Hm2) Hm3) as Hm.
    by rewrite !app_nil_l in Hm. }
  destruct (connack_wait_ok flags code rest t c4 w3) as (c5 & w5 & p & E3 & Hss5 & Hm5 & Hp & Hi5).
  { exact (moves_incoming _ _ _ _ _ _ Hm Hi). }
  { by destruct Hss as (_ & _ & _ & _ & _ & -> & _). }
  { done. } { by eapply same_session_wf_buf. } { done. }
  { destruct Hm2 as (_ & _ & Hm2), Hm3 as (_ & _ & Hm3). specialize (Hm2 t). specialize (Hm3 t).
    lia. }
  rewrite (bindM_Ret _ _ _ _ _ E3). destruct Hm as (_ & Ho3 & _), Hm5 as (_ & Ho5 & _).
  assert (outgoing w5 = outgoing w ++ connect_packet o ++ p) as Hout
    by (by rewrite Ho5, Ho3, app_assoc).
  assert (isconnected c5 = 0 ∧ c_keepAliveInterval c5 = keepAliveInterval o) as [Hc5 Hk5].
  { destruct Hss as (_ & _ & _ & _ & _ & _ & E4 & E5 & _),
      Hss5 as (_ & _ & _ & _ & _ & _ & E6 & E7 & _).
    change (isconnected c2) with (isconnected c) in E5.
    change (c_keepAliveInterval c2) with (keepAliveInterval o) in E4.
    split; [rewrite E7, <- Hc; exact E5|rewrite E6; exact E4]. }
  unfold SUCCESS. destruct (decide (code = 0)) as [->|]; mstep; eexists _, w5, p; done.
Qed.

(** A SUBACK with one return code, as [MQTTSubscribe] reads it. *)
Lemma suback_one packetid code rest n :
  is_u16 packetid →
  ∃ o, MQTTDeserialize_suback char_signed
      {| suback_packetid := 0; suback_count := 0; suback_grantedQoSs := [-1] |} 1
      (suback_packet packetid [code] ++ rest) n = Ret (1, o) ∧
    array_get (suback_grantedQoSs o) 0 = Ret (char_val char_signed code).
Proof.
  intros Hid.
  destruct (MQTTDeserialize_suback_start char_signed
    {| suback_packetid := 0; suback_count := 0; suback_grantedQoSs := [-1] |}
    packetid [code] rest 1 n Hid) as (p & rc & Hd & ->); [done|].
  destruct (suback_loop_ok char_signed 1 (suback_packet packetid [code] ++ rest)
    (p + length [code]) rc rest [code] 2 p
    {| suback_packetid := packetid; suback_count := 0; suback_grantedQoSs := [-1] |})
    as (o & Ho & _ & Hc & Hv); [done|done|cbn; lia|cbn; lia|cbn; lia|].
  exists o. split; [exact Ho|]. unfold suback_view in Hv. rewrite Hc in Hv. cbn in Hv.
  unfold array_get. destruct (suback_grantedQoSs o) as [|x l]; [done|]. cbn in Hv.
  by injection Hv as ->.
Qed.

(** Result and table after a SUBACK with return code [code]. *)
Definition subscribed (f : list Z) (g : option handler) (code : Z)
    (hs : list (MessageHandlers handler)) : Z * list (MessageHandlers handler) :=
  let q := char_val char_signed code in
  if decide (q = 128) then (128, hs)
  else match register f g hs with Some hs' => (0, hs') | None => (q, hs) end.

(** The end of [MQTTSubscribe]. *)
Lemma suback_wait_ok f g packetid code rest rc0 t c w :
  is_u16 packetid →
  incoming w = suback_packet packetid [code] ++ rest → (5 ≤ length (readbuf c))%nat →
  (2 ≤ fuel)%nat → wf_buf c → (1 < grant 1000)%nat → (0 < slack t w)%nat →
  ∃ c' w' p,
    (r ← waitfor fuel junk SUBACK t;
     if decide (r = SUBACK) then
       b ← client readbuf;
       n ← client readbuf_size;
       '(r, o) ← lift (MQTTDeserialize_suback char_signed
                    {| suback_packetid := 0; suback_count := 0;
                       suback_grantedQoSs := [-1] |} 1 b n);
       rc ← (if decide (r = 1)
             then lift (array_get (suback_grantedQoSs o) 0) else mret rc0);
       if decide (rc ≠ 128) then
         hs ← client messageHandlers;
         match register f g hs with
         | Some hs => upd (set_messageHandlers hs);; mret 0
         | None => mret rc
         end
       else mret rc
     else mret FAILURE) (c, w) =
    Ret ((subscribed f g code (messageHandlers c)).1, (c', w')) ∧
    messageHandlers c' = (subscribed f g code (messageHandlers c)).2 ∧
    next_packetid c' = next_packetid c ∧
    moves 17 (suback_packet packetid [code]) p w w' ∧ maybe_ping p.
Proof.
  intros Hid Hi Hl Hf Hb Hg Hs. destruct (MQTTHeader_fields SUBACK 0 0 0) as (Ety & _).
  destruct (waitfor_ok (MQTTHeader_byte SUBACK 0 0 0) (be16 packetid ++ [code]) rest t c w)
    as (c1 & w' & p & E & Hss & Hm & Hp & Hi'); [done|by rewrite Ety..|done|done|done|done|done|done|].
  rewrite Ety in E. change (field 4 SUBACK) with SUBACK in E.
  destruct Hss as (Hid1 & _ & _ & _ & _ & Erb & _ & _ & Ehs & _). cbn in Hid1, Ehs.
  destruct (suback_one packetid code (drop (length (suback_packet packetid [code])) (readbuf c))
    (readbuf_size c1) Hid) as (o & Ho & Hq).
  rewrite (bindM_Ret _ _ _ _ _ E), decide_True by done. mstep.
  rewrite Erb. cbn [received set_readbuf readbuf].
  rewrite (run_lift _ _ _ _ Ho). mstep. rewrite (decide_True (P := 1 = 1)) by done.
  rewrite (run_lift _ _ _ _ Hq). unfold subscribed. mstep.
  destruct (decide (char_val char_signed code = 128)) as [E8|E8].
  - rewrite decide_False by auto. rewrite E8. by exists c1, w', p.
  - rewrite decide_True by auto. mstep. rewrite Ehs.
    destruct (register f g (messageHandlers c)) as [hs|]; mstep; by eexists _, w', p.
Qed.

(** The identifier after [n]. *)
Definition next_id (n : Z) : Z := if decide (n = MAX_PACKET_ID) then 1 else n + 1.

Lemma next_id_range n : 0 ≤ n ≤ MAX_PACKET_ID → 0 < next_id n ≤ MAX_PACKET_ID.
Proof. unfold next_id, MAX_PACKET_ID. case_decide; lia. Qed.

Lemma getNextPacketId_ok c w :
  0 ≤ next_packetid c ≤ MAX_PACKET_ID →
  getNextPacketId (c, w) =
  Ret (next_id (next_packetid c), (set_next_packetid (next_id (next_packetid c)) c, w)).
Proof.
  intros Hn. unfold getNextPacketId, next_id, MAX_PACKET_ID in *. mstep.
  rewrite (wrap_small 32) by (change (2 ^ 32) with 4294967296; lia). by case_decide.
Qed.

(** A command's packet is on its way and its timer still runs. *)
Lemma command_send (f : list Z → Z → outcome (Z * list Z)) pkt t c w :
  (2 ≤ fuel)%nat → (0 < length pkt ≤ length (buf c))%nat → Z.of_nat (length pkt) ≤ INT_MAX →
  f (buf c) (buf_size c) = Ret (Z.of_nat (length pkt), pkt ++ drop (length pkt) (buf c)) →
  (4 < slack t w)%nat →
  ∃ c' w', (∀ A (fail : Z → M state A) (k : Z → M state A),
      (len ← serialize f;
       if decide (len ≤ 0) then fail FAILURE
       else rc ← sendPacket fuel len t;
            if decide (rc ≠ SUCCESS) then fail rc else k rc) (c, w) = k SUCCESS (c', w')) ∧
    same_session c c' ∧ moves 4 [] pkt w w' ∧ (0 < slack t w')%nat.
Proof.
  intros Hf Hl Hmax Hs Ht.
  destruct (serialize_send f pkt t c w Hf Hl Hmax Hs ltac:(lia))
    as (c1 & pt & w' & E1 & E2 & Hss & _ & Hm).
  exists (set_ping_timer pt c1), w'. split; [|split; [done|split; [done|]]].
  - intros A fail k. rewrite (bindM_Ret _ _ _ _ _ E1), decide_False by lia.
    by rewrite (bindM_Ret _ _ _ _ _ E2), decide_False by auto.
  - destruct Hm as (_ & _ & Hm). specialize (Hm t). lia.
Qed.

Lemma cstr_wf f : Forall is_byte f → Z.of_nat (length f) < 65536 → wf_string (cstr f).
Proof.
  intros Hb Hl. unfold wf_string, cstr, MQTTString_bytes. cbn. repeat split; try done; try lia; by right.
Qed.

Lemma MQTTSubscribe_ok f qos g packetid code rest c w :
  let id := next_id (next_packetid c) in
  let pkt := subscribe_packet 0 id [(f, qos)] in
  Forall is_byte f → Z.of_nat (length f) < 65536 → 0 ≤ next_packetid c ≤ MAX_PACKET_ID →
  Z.of_nat (length pkt) < buf_size c → wf_buf c → (5 ≤ length (readbuf c))%nat →
  (2 ≤ fuel)%nat → (1 < grant 1000)%nat → (4 < grant (command_timeout_ms c))%nat →
  isconnected c ≠ 0 → is_u16 packetid → incoming w = suback_packet packetid [code] ++ rest →
  ∃ c' w' p, MQTTSubscribe fuel junk char_signed f qos g (c, w) =
      Ret ((subscribed f g code (messageHandlers c)).1, (c', w')) ∧
    messageHandlers c' = (subscribed f g code (messageHandlers c)).2 ∧
    next_packetid c' = id ∧
    outgoing w' = outgoing w ++ pkt ++ p ∧ maybe_ping p ∧ incoming w' = rest.
Proof.
  intros id pkt Hfb Hfl Hnid Hlen Hb Hrb Hf Hg Hto Hc Hid Hi. unfold MQTTSubscribe. mstep.
  destruct (countdown_ms_law (command_timeout_ms c) w) as (t & w1 & Ht & Hm1 & Hsl).
  rewrite (run_plat _ _ _ _ _ _ Ht). mstep. rewrite (decide_False (P := isconnected c = 0)) by done.
  rewrite (bindM_Ret _ _ _ _ _ (getNextPacketId_ok c w1 Hnid)). fold id.
  pose proof (next_id_range _ Hnid) as Hidr. fold id in Hidr. unfold MAX_PACKET_ID in Hidr.
  rewrite u16_id by (ints; lia). set (c1 := set_next_packetid id c).
  pose proof Hb as Hb'. unfold wf_buf in Hb'. pose proof (cstr_wf f Hfb Hfl) as Hwf.
  assert (length (subscribe_payload id [(f, qos)]) = 5 + length f)%nat as Hpl
    by (unfold subscribe_payload, sub_entry, utf_bytes; cbn [map concat fst snd]; len).
  destruct (MQTTSerialize_subscribe_ok (buf c) (buf_size c) 0 id [cstr f] [qos]) as (L & HL & Hser);
    [done|by constructor|ints; lia| |lia|].
  { change (zip (bytes_of [cstr f]) [qos]) with [(f, qos)]. rewrite Hpl. lia. }
  change (zip (bytes_of [cstr f]) [qos]) with [(f, qos)] in *. fold pkt in HL, Hser.
  rewrite decide_False in Hser by lia.
  assert (0 < length pkt ≤ length (buf c))%nat as Hpos by (split; [unfold pkt; apply Nat.lt_0_succ|lia]).
  assert (Z.of_nat (length pkt) ≤ INT_MAX) as Hmax.
  { unfold pkt, subscribe_packet. rewrite length_packet, Hpl. unfold packet_size.
    pose proof (rl_bytes_length (Z.of_nat (5 + length f)) ltac:(lia)). unfold INT_MAX. lia. }
  destruct (command_send (λ b n, MQTTSerialize_subscribe b n 0 id 1 [cstr f] [qos]) pkt t c1 w1
    Hf Hpos Hmax Hser ltac:(lia)) as (c2 & w2 & Hrun & Hss & Hm2 & Hs2).
  rewrite (Hrun _ mret).
  destruct (suback_wait_ok f g packetid code rest SUCCESS t c2 w2 Hid)
    as (c' & w' & p & E & Hh & Hn & Hm3 & Hp); [|..|done|].
  { exact (moves_incoming _ _ _ _ _ _ Hm2 (moves_incoming _ _ _ _ _ _ Hm1 Hi)). }
  { by destruct Hss as (_ & _ & _ & _ & _ & -> & _). }
  { done. } { by eapply same_session_wf_buf. } { done. }
  destruct Hss as (Hn2 & _ & _ & _ & _ & _ & _ & _ & Hh2 & _). cbn in Hn2, Hh2.
  rewrite Hh2 in E, Hh. exists c', w', p. split; [exact E|]. split; [done|].
  split; [by rewrite Hn, Hn2|]. pose proof (moves_trans _ _ _ _ _ _ _ _ _
    (moves_trans _ _ _ _ _ _ _ _ _ Hm1 Hm2) Hm3) as Hm.
  split; [by destruct Hm as (_ & -> & _)|]. split; [done|].
  by apply (moves_incoming _ _ _ _ _ _ Hm).
Qed.
End stream.

(** ** Time passes *)

(** [ttl t w] bounds the number of times [t] can still be found running: every
    poll of a running timer counts, and no call gives a timer more. *)
Class Passing (W : Type) {P : Platform W} := {
  ttl : timer → W → nat;
  span : Z → nat;
  calm {A} (m : M W A) : Prop :=
    ∀ w a w', m w = Ret (a, w') → ∀ t, (ttl t w' ≤ ttl t w)%nat;
  expired_calm t : calm (expired t);
  expired_ttl t w w' : expired t w = Ret (false, w') → (ttl t w' < ttl t w)%nat;
  left_ms_calm t : calm (left_ms t);
  countdown_calm s : calm (countdown s);
  countdown_ms_calm ms : calm (countdown_ms ms);
  countdown_ms_ttl ms w t w' : countdown_ms ms w = Ret (t, w') → (ttl t w' ≤ span ms)%nat;
  mqttread_calm n ms : calm (mqttread n ms);
  mqttwrite_calm bs n ms : calm (mqttwrite bs n ms);
  fp_call_ttl g msg w t : (ttl t (fp_call g msg w) ≤ ttl t w)%nat;
}.
#[global] Arguments calm {W P _ A} m /.
