(* ===== verification/MqttCommands.v ===== *)
(** * The client's publications

    [MQTTPublish] and [MQTTDisconnect] of [MQTTClient.c] on the well-behaved
    platform of [MqttClientProofs.v]: what they send, which replies end them and
    what they return, for the three qualities of service. *)
From S2P Require Import Prelude MqttPacket MqttPublish MqttSubscribe MqttConnect.
From S2P Require Import MqttTopic MqttClient MqttClientProofs.

Section commands.
Context {W : Type} `{P : Platform W} `{S : !Stream W}.
Context (fuel : nat) (junk : PublishData).
Context (Hfuel : (2 ≤ fuel)%nat) (Hgrant : (1 < grant 1000)%nat).
Implicit Types (c : Client) (w : W) (t : timer).

(** ** Waiting *)

(** Whatever [waitfor] waits for, a round reads one packet of a type that needs
    no answer. *)
Lemma waitfor_body_ok type h body rest t c w rc :
  incoming w = packet h body ++ rest → hdr_type h ≠ PUBLISH → hdr_type h ≠ PUBREC →
  Z.of_nat (length body) < 268435456 → (length (packet h body) ≤ length (readbuf c))%nat →
  wf_buf c → (0 < slack t w)%nat →
  ∃ c' w' p, waitfor_body fuel junk type t rc (c, w) =
      Ret (if decide (hdr_type h ≠ type) then inl (hdr_type h) else inr (hdr_type h), (c', w')) ∧
    same_session (received (packet h body) c) c' ∧ moves 17 (packet h body) p w w' ∧
    maybe_ping p.
Proof.
  intros Hi Hpub Hrec Hn Hl Hb Hs.
  destruct (expired_law t w) as (b & w1 & He & Hm1 & Hb1). rewrite (Hb1 Hs) in He.
  pose proof (moves_incoming _ _ _ _ _ _ Hm1 Hi) as Hi1.
  destruct (cycle_other fuel junk h body rest t c w1) as (c' & w' & p & E & Hss & Hm2 & Hp & _);
    [done..|].
  exists c', w', p. split; [|split; [done|split; [|done]]].
  - unfold waitfor_body. rewrite (run_plat _ _ _ _ _ _ He), (bindM_Ret _ _ _ _ _ E).
    by case_decide.
  - exact (moves_trans _ _ _ _ _ _ _ _ _ Hm1 Hm2).
Qed.

(** A round that reads a PUBREC answers it and goes on. *)
Lemma waitfor_body_pubrec dup qos packetid rest t c w rc :
  let pkt := ack_packet PUBREC dup qos packetid in
  0 ≤ dup < 2 → is_u16 packetid →
  incoming w = pkt ++ rest → (4 ≤ length (readbuf c))%nat → wf_buf c → (12 < slack t w)%nat →
  ∃ c' w' p, waitfor_body fuel junk PUBCOMP t rc (c, w) = Ret (inl PUBREC, (c', w')) ∧
    same_session (received pkt c) c' ∧
    moves 21 pkt (ack_packet PUBREL 0 1 packetid ++ p) w w' ∧ maybe_ping p.
Proof.
  intros pkt Hd Hid Hi Hl Hb Hs.
  destruct (expired_law t w) as (b & w1 & He & Hm1 & Hb1). rewrite Hb1 in He by lia.
  pose proof (moves_incoming _ _ _ _ _ _ Hm1 Hi) as Hi1.
  destruct (cycle_pubrec_ok fuel junk dup qos packetid rest t c w1)
    as (c' & w' & p & E & Hss & Hm2 & Hp & _); [done..| |].
  { destruct Hm1 as (_ & _ & Hm1). specialize (Hm1 t). lia. }
  exists c', w', p. split; [|split; [done|split; [|done]]].
  - unfold waitfor_body. rewrite (run_plat _ _ _ _ _ _ He), (bindM_Ret _ _ _ _ _ E).
    by rewrite decide_True by done.
  - exact (moves_trans _ _ _ _ _ _ _ _ _ Hm1 Hm2).
Qed.

Lemma ack_type_not type dup qos : 0 ≤ type < 16 →
  hdr_type (MQTTHeader_byte type dup qos 0) = type.
Proof.
  intros Ht. destruct (MQTTHeader_fields type dup qos 0) as (-> & _).
  unfold field. change (2 ^ 4) with 16. by apply Z.mod_small.
Qed.

(** [publish_wait] ends with the acknowledgement it waits for, whatever the
    identifier in it. *)
Lemma publish_wait_end type rc t c w c' w' dup qos packetid tail :
  0 ≤ type < 16 → 0 ≤ dup < 2 → is_u16 packetid →
  waitfor fuel junk type t (c, w) = Ret (type, (c', w')) →
  readbuf c' = ack_packet type dup qos packetid ++ tail →
  publish_wait fuel junk type rc t (c, w) = Ret (rc, (c', w')).
Proof.
  intros Ht Hd Hid E Hr. unfold publish_wait.
  rewrite (bindM_Ret _ _ _ _ _ E), decide_True by done. mstep. rewrite Hr.
  rewrite (run_lift _ _ _ (1, Build_AckData type dup packetid))
    by (by apply MQTTDeserialize_ack_ok). mstep.
  by rewrite (decide_False (P := 1 ≠ 1)) by auto.
Qed.

(** QoS 1: the PUBACK. *)
Lemma publish_wait_puback rc dup qos packetid rest t c w :
  let pkt := ack_packet PUBACK dup qos packetid in
  0 ≤ dup < 2 → is_u16 packetid →
  incoming w = pkt ++ rest → (4 ≤ length (readbuf c))%nat → wf_buf c → (0 < slack t w)%nat →
  ∃ c' w' p, publish_wait fuel junk PUBACK rc t (c, w) = Ret (rc, (c', w')) ∧
    same_session (received pkt c) c' ∧ moves 17 pkt p w w' ∧ maybe_ping p.
Proof.
  intros pkt Hd Hid Hi Hl Hb Hs. pose proof (ack_type_not PUBACK dup qos ltac:(done)) as Ety.
  destruct (waitfor_body_ok PUBACK (MQTTHeader_byte PUBACK dup qos 0) (be16 packetid) rest t c w
    FAILURE) as (c' & w' & p & E & Hss & Hm & Hp); [done|by rewrite Ety..|done|done|done|done|].
  exists c', w', p. split; [|done].
  eapply publish_wait_end; [done|exact Hd|exact Hid| |].
  - unfold waitfor. destruct fuel as [|n]; [lia|]. apply loopM_inr. rewrite E, Ety.
    by rewrite (decide_False (P := PUBACK ≠ PUBACK)) by auto.
  - by destruct Hss as (_ & _ & _ & _ & _ & -> & _).
Qed.

(** QoS 2: the PUBREC, which is answered, and the PUBCOMP. *)
Lemma publish_wait_pubcomp rc d1 q1 id1 d2 q2 id2 rest t c w :
  let pkt1 := ack_packet PUBREC d1 q1 id1 in
  let pkt2 := ack_packet PUBCOMP d2 q2 id2 in
  0 ≤ d1 < 2 → is_u16 id1 → 0 ≤ d2 < 2 → is_u16 id2 →
  incoming w = pkt1 ++ pkt2 ++ rest → (4 ≤ length (readbuf c))%nat → wf_buf c →
  (21 < slack t w)%nat →
  ∃ c1 c' w' p1 p2, publish_wait fuel junk PUBCOMP rc t (c, w) = Ret (rc, (c', w')) ∧
    same_session (received pkt1 c) c1 ∧ same_session (received pkt2 c1) c' ∧
    moves 38 (pkt1 ++ pkt2) (ack_packet PUBREL 0 1 id1 ++ p1 ++ p2) w w' ∧
    maybe_ping p1 ∧ maybe_ping p2.
Proof.
  intros pkt1 pkt2 Hd1 Hid1 Hd2 Hid2 Hi Hl Hb Hs.
  pose proof (ack_type_not PUBCOMP d2 q2 ltac:(done)) as Ety.
  destruct (waitfor_body_pubrec d1 q1 id1 (pkt2 ++ rest) t c w FAILURE)
    as (c1 & w1 & p1 & E1 & Hs1 & Hm1 & Hp1); [done..|lia|].
  pose proof (moves_incoming _ _ _ _ _ _ Hm1 Hi) as Hi1.
  assert (readbuf c1 = pkt1 ++ drop 4 (readbuf c)) as Hr1
    by by destruct Hs1 as (_ & _ & _ & _ & _ & -> & _).
  destruct (waitfor_body_ok PUBCOMP (MQTTHeader_byte PUBCOMP d2 q2 0) (be16 id2) rest t c1 w1
    PUBREC) as (c' & w' & p2 & E2 & Hs2 & Hm2 & Hp2); [done|by rewrite Ety..|done| | | |].
  { rewrite Hr1, length_app. change (length pkt1) with 4%nat. cbn [length]. change (length (packet (MQTTHeader_byte PUBCOMP d2 q2 0) (be16 id2))) with 4%nat. lia. }
  { by eapply same_session_wf_buf. }
  { destruct Hm1 as (_ & _ & Hm1). specialize (Hm1 t). lia. }
  exists c1, c', w', p1, p2. split; [|split; [done|split; [done|split; [|done]]]].
  - eapply (publish_wait_end _ _ _ _ _ _ _ d2 q2 id2); [done|exact Hd2|exact Hid2| |].
    + unfold waitfor. destruct fuel as [|[|n]]; [lia|lia|].
      rewrite (loopM_inl _ _ _ _ _ _ E1). apply loopM_inr. rewrite E2, Ety.
      by rewrite (decide_False (P := PUBCOMP ≠ PUBCOMP)) by auto.
    + by destruct Hs2 as (_ & _ & _ & _ & _ & -> & _).
  - pose proof (moves_trans _ _ _ _ _ _ _ _ _ Hm1 Hm2) as Hm. by rewrite <- app_assoc in Hm.
Qed.

(** ** Publishing *)

(** The broker's replies to a publication: a PUBACK at QoS 1, a PUBREC and a
    PUBCOMP at QoS 2, with whatever identifiers. *)
Definition publish_replies (qos d1 q1 id1 d2 q2 id2 : Z) : list Z :=
  if decide (qos = QOS1) then ack_packet PUBACK d1 q1 id1
  else if decide (qos = QOS2) then ack_packet PUBREC d1 q1 id1 ++ ack_packet PUBCOMP d2 q2 id2
  else [].

(** What is sent in answer to them, with the pings in between. *)
Definition publish_answers (qos id1 : Z) (p1 p2 : list Z) : list Z :=
  (if decide (qos = QOS2) then ack_packet PUBREL 0 1 id1 else []) ++ p1 ++ p2.

(** The end of [MQTTPublish]. *)
Lemma publish_wait_ok qos rc d1 q1 id1 d2 q2 id2 rest t c w :
  let inp := publish_replies qos d1 q1 id1 d2 q2 id2 in
  0 ≤ d1 < 2 → is_u16 id1 → 0 ≤ d2 < 2 → is_u16 id2 →
  incoming w = inp ++ rest → (4 ≤ length (readbuf c))%nat → wf_buf c → (21 < slack t w)%nat →
  ∃ c' w' p1 p2,
    (if decide (qos = QOS1) then publish_wait fuel junk PUBACK rc t
     else if decide (qos = QOS2) then publish_wait fuel junk PUBCOMP rc t
     else mret rc) (c, w) = Ret (rc, (c', w')) ∧
    next_packetid c' = next_packetid c ∧ isconnected c' = isconnected c ∧
    messageHandlers c' = messageHandlers c ∧
    moves 38 inp (publish_answers qos id1 p1 p2) w w' ∧ maybe_ping p1 ∧ maybe_ping p2.
Proof.
  intros inp Hd1 Hid1 Hd2 Hid2 Hi Hl Hb Hs. unfold inp, publish_replies, publish_answers in *.
  destruct (decide (qos = QOS1)) as [->|].
  - destruct (publish_wait_puback rc d1 q1 id1 rest t c w) as (c' & w' & p & E & Hss & Hm & Hp);
      [done..|lia|]. exists c', w', p, [].
    destruct Hss as (E1 & _ & _ & _ & _ & _ & _ & E2 & E3 & _).
    split; [done|]. split; [done|]. split; [done|]. split; [done|].
    split; [|split; [done|by left]]. rewrite decide_False by done. rewrite app_nil_r.
    eapply moves_le; [exact Hm|lia].
  - destruct (decide (qos = QOS2)) as [->|].
    + rewrite <- app_assoc in Hi.
      destruct (publish_wait_pubcomp rc d1 q1 id1 d2 q2 id2 rest t c w)
        as (c1 & c' & w' & p1 & p2 & E & Hs1 & Hs2 & Hm & Hp); [done..|].
      exists c', w', p1, p2. destruct Hs1 as (E1 & _ & _ & _ & _ & _ & _ & E2 & E3 & _).
      destruct Hs2 as (F1 & _ & _ & _ & _ & _ & _ & F2 & F3 & _).
      split; [done|]. split; [exact (eq_trans F1 E1)|]. split; [exact (eq_trans F2 E2)|].
      split; [exact (eq_trans F3 E3)|done].
    + exists c, w, [], []. split; [done|]. do 3 (split; [done|]).
      split; [eapply moves_le; [apply moves_refl|lia]|]. by split; left.
Qed.

(** The identifier a publication gets, and the message as the caller finds it. *)
Definition publish_id (m : MQTTMessage) c : Z :=
  if decide (msg_qos m = QOS1 ∨ msg_qos m = QOS2) then next_id (next_packetid c) else msg_id m.

Lemma publish_id_step (m : MQTTMessage) c w :
  0 ≤ next_packetid c ≤ MAX_PACKET_ID → is_u16 (msg_id m) →
  let id := publish_id m c in is_u16 id ∧
  ∃ c1, (if decide (msg_qos m = QOS1 ∨ msg_qos m = QOS2)
         then id ← getNextPacketId; mret (set_msg_id (u16 id) m) else mret m) (c, w) =
      Ret (set_msg_id id m, (c1, w)) ∧
    next_packetid c1 = (if decide (msg_qos m = QOS1 ∨ msg_qos m = QOS2) then id
                        else next_packetid c) ∧
    c1 = set_next_packetid (next_packetid c1) c.
Proof.
  intros Hn Hm. unfold publish_id. pose proof (next_id_range _ Hn) as Hr. unfold MAX_PACKET_ID in Hr.
  case_decide.
  - split; [ints; lia|]. rewrite (bindM_Ret _ _ _ _ _ (getNextPacketId_ok c w Hn)).
    rewrite u16_id by (ints; lia). by eexists.
  - split; [done|]. exists c. by destruct m, c.
Qed.

Lemma publish_pkt_size qos id topic payload retained :
  let pkt := publish_packet 0 qos retained id topic payload in
  Z.of_nat (length (publish_body qos id topic payload)) < 268435456 →
  (0 < length pkt)%nat ∧ Z.of_nat (length pkt) ≤ INT_MAX.
Proof.
  intros pkt Hn. unfold pkt, publish_packet. rewrite length_packet. unfold packet_size.
  pose proof (rl_bytes_length (Z.of_nat (length (publish_body qos id topic payload))) ltac:(lia)).
  split; [unfold packet; cbn [length]; lia|]. unfold INT_MAX. lia.
Qed.

(** A publication sends its packet under a fresh identifier, answers the
    PUBREC, and succeeds when the last reply has come. *)
Lemma MQTTPublish_ok topic (m : MQTTMessage) d1 q1 id1 d2 q2 id2 rest c w :
  let qos := msg_qos m in
  let id := publish_id m c in
  let pkt := publish_packet 0 qos (msg_retained m) id topic (msg_payload m) in
  Forall is_byte topic → Z.of_nat (length topic) < 65536 → Forall is_byte (msg_payload m) →
  msg_payloadlen m = Z.of_nat (length (msg_payload m)) → is_u16 (msg_id m) →
  Z.of_nat (length (publish_body qos id topic (msg_payload m))) < 268435456 →
  0 ≤ next_packetid c ≤ MAX_PACKET_ID →
  Z.of_nat (length pkt) < buf_size c → wf_buf c → (4 ≤ length (readbuf c))%nat →
  (26 < grant (command_timeout_ms c))%nat → isconnected c ≠ 0 →
  0 ≤ d1 < 2 → is_u16 id1 → 0 ≤ d2 < 2 → is_u16 id2 →
  incoming w = publish_replies qos d1 q1 id1 d2 q2 id2 ++ rest →
  ∃ c' w' p1 p2, MQTTPublish fuel junk topic m (c, w) =
      Ret ((SUCCESS, set_msg_id id m), (c', w')) ∧
    next_packetid c' = (if decide (qos = QOS1 ∨ qos = QOS2) then id else next_packetid c) ∧
    isconnected c' = isconnected c ∧ messageHandlers c' = messageHandlers c ∧
    outgoing w' = outgoing w ++ pkt ++ publish_answers qos id1 p1 p2 ∧
    maybe_ping p1 ∧ maybe_ping p2 ∧ incoming w' = rest.
Proof.
  intros qos id pkt Htb Htl Hpb Hpl Hmid Hn Hnid Hlen Hb Hrb Hto Hc Hd1 Hid1 Hd2 Hid2 Hi.
  pose proof Hb as Hb'. unfold wf_buf in Hb'. pose proof (cstr_wf topic Htb Htl) as Hwf.
  destruct (publish_pkt_size qos id topic (msg_payload m) (msg_retained m) Hn) as [Hpos Hmax].
  fold pkt in Hpos, Hmax. rewrite length_publish_body in Hn.
  unfold MQTTPublish. mstep.
  destruct (countdown_ms_law (command_timeout_ms c) w) as (t & w1 & Ht & Hm1 & Hsl).
  rewrite (run_plat _ _ _ _ _ _ Ht). mstep. rewrite (decide_False (P := isconnected c = 0)) by done.
  destruct (publish_id_step m c w1 Hnid Hmid) as (Hid & c1 & Eid & Hc1 & Ec1).
  rewrite (bindM_Ret _ _ _ _ _ Eid). cbn [msg_qos msg_id msg_payload msg_payloadlen
    msg_retained set_msg_id]. fold id in Hid, Hc1 |- *. fold qos in Hc1 |- *.
  rewrite Hpl, s32_id by (ints; lia).
  destruct (MQTTSerialize_publish_ok (buf c) (buf_size c) 0 qos (msg_retained m) id (cstr topic)
    (msg_payload m)) as (L & HL & Hser);
    [done|done|done|rewrite length_publish_body; change (MQTTString_bytes (cstr topic)) with topic; lia|lia|].
  change (MQTTString_bytes (cstr topic)) with topic in *. fold pkt in HL, Hser.
  rewrite decide_False in Hser by lia.
  rewrite Ec1. set (c2 := set_next_packetid _ c).
  destruct (serialize_send fuel (λ b n, MQTTSerialize_publish b n 0 qos (msg_retained m) id (cstr topic)
    (msg_payload m) (Z.of_nat (length (msg_payload m)))) pkt t c2 w1 Hfuel)
    as (c3 & pt & w2 & E1 & E2 & Hss & _ & Hm2);
    [change (buf c2) with (buf c); lia|done|done|lia|].
  rewrite (bindM_Ret _ _ _ _ _ E1), (decide_False (P := Z.of_nat (length pkt) ≤ 0)) by lia.
  rewrite run_assoc, (bindM_Ret _ _ _ _ _ E2), (decide_False (P := SUCCESS ≠ SUCCESS)) by auto.
  pose proof (moves_trans _ _ _ _ _ _ _ _ _ Hm1 Hm2) as Hm. rewrite !app_nil_l in Hm.
  destruct (publish_wait_ok qos SUCCESS d1 q1 id1 d2 q2 id2 rest t (set_ping_timer pt c3) w2)
    as (c' & w' & p1 & p2 & E & F1 & F2 & F3 & Hm3 & Hp1 & Hp2); [done..| | | | |].
  { exact (moves_incoming _ _ _ _ _ _ Hm Hi). }
  { by destruct Hss as (_ & _ & _ & _ & _ & -> & _). }
  { by eapply same_session_wf_buf. }
  { destruct Hm2 as (_ & _ & Hm2). specialize (Hm2 t). lia. }
  rewrite (bindM_Ret _ _ _ _ _ E). exists c', w', p1, p2. split; [done|].
  destruct Hss as (G1 & _ & _ & _ & _ & _ & _ & G2 & G3 & _).
  split; [rewrite F1, G1; exact Hc1|]. split; [by rewrite F2, G2|]. split; [by rewrite F3, G3|].
  split; [|split; [done|split; [done|by apply (moves_incoming _ _ _ _ _ _ Hm3), (moves_incoming _ _ _ _ _ _ Hm)]]].
  destruct Hm as (_ & Ho & _), Hm3 as (_ & Ho3 & _). by rewrite Ho3, Ho, app_assoc.
Qed.

(** ** Unsubscribing *)

Lemma unsuback_wait_ok dup qos packetid rest rc t c w :
  let pkt := ack_packet UNSUBACK dup qos packetid in
  0 ≤ dup < 2 → is_u16 packetid →
  incoming w = pkt ++ rest → (4 ≤ length (readbuf c))%nat → wf_buf c → (0 < slack t w)%nat →
  ∃ c' w' p,
    (r ← waitfor fuel junk UNSUBACK t;
     if decide (r = UNSUBACK) then
       b ← client readbuf;
       n ← client readbuf_size;
       '(r, _) ← lift (MQTTDeserialize_unsuback 0 b n);
       mret (if decide (r = 1) then 0 else rc)
     else mret FAILURE) (c, w) = Ret (0, (c', w')) ∧
    same_session (received pkt c) c' ∧ moves 17 pkt p w w' ∧ maybe_ping p.
Proof.
  intros pkt Hd Hid Hi Hl Hb Hs. pose proof (ack_type_not UNSUBACK dup qos ltac:(done)) as Ety.
  destruct (waitfor_body_ok UNSUBACK (MQTTHeader_byte UNSUBACK dup qos 0) (be16 packetid) rest t c
    w FAILURE) as (c' & w' & p & E & Hss & Hm & Hp); [done|by rewrite Ety..|done|done|done|done|].
  exists c', w', p. split; [|done].
  rewrite (bindM_Ret _ _ _ UNSUBACK (c', w')).
  2: { unfold waitfor. destruct fuel as [|n]; [lia|]. apply loopM_inr. rewrite E, Ety.
       by rewrite (decide_False (P := UNSUBACK ≠ UNSUBACK)) by auto. }
  rewrite decide_True by done. mstep.
  assert (readbuf c' = pkt ++ drop 4 (readbuf c)) as -> by by destruct Hss as (_ & _ & _ & _ & _ & -> & _).
  rewrite (run_lift _ _ _ (1, packetid)); [done|]. unfold MQTTDeserialize_unsuback, pkt.
  rewrite MQTTDeserialize_ack_ok by done. bret. by rewrite decide_True by done.
Qed.

Lemma MQTTUnsubscribe_ok f dup qos packetid rest c w :
  let id := next_id (next_packetid c) in
  let pkt := unsubscribe_packet 0 id [f] in
  Forall is_byte f → Z.of_nat (length f) < 65536 → 0 ≤ next_packetid c ≤ MAX_PACKET_ID →
  Z.of_nat (length pkt) < buf_size c → wf_buf c → (4 ≤ length (readbuf c))%nat →
  (4 < grant (command_timeout_ms c))%nat → isconnected c ≠ 0 →
  0 ≤ dup < 2 → is_u16 packetid →
  incoming w = ack_packet UNSUBACK dup qos packetid ++ rest →
  ∃ c' w' p, MQTTUnsubscribe fuel junk f (c, w) = Ret (0, (c', w')) ∧
    next_packetid c' = id ∧ messageHandlers c' = messageHandlers c ∧
    outgoing w' = outgoing w ++ pkt ++ p ∧ maybe_ping p ∧ incoming w' = rest.
Proof.
  intros id pkt Hfb Hfl Hnid Hlen Hb Hrb Hto Hc Hd Hid Hi. unfold MQTTUnsubscribe. mstep.
  destruct (countdown_ms_law (command_timeout_ms c) w) as (t & w1 & Ht & Hm1 & Hsl).
  rewrite (run_plat _ _ _ _ _ _ Ht). mstep. rewrite (decide_False (P := isconnected c = 0)) by done.
  rewrite (bindM_Ret _ _ _ _ _ (getNextPacketId_ok c w1 Hnid)). fold id.
  pose proof (next_id_range _ Hnid) as Hidr. fold id in Hidr. unfold MAX_PACKET_ID in Hidr.
  rewrite u16_id by (ints; lia). set (c1 := set_next_packetid id c).
  pose proof Hb as Hb'. unfold wf_buf in Hb'. pose proof (cstr_wf f Hfb Hfl) as Hwf.
  assert (length (unsubscribe_payload id [f]) = 4 + length f)%nat as Hpl
    by (unfold unsubscribe_payload, utf_bytes; cbn [map concat]; len).
  destruct (MQTTSerialize_unsubscribe_ok (buf c) (buf_size c) 0 id [cstr f]) as (L & HL & Hser);
    [by constructor|ints; lia| |lia|].
  { change (bytes_of [cstr f]) with [f]. rewrite Hpl. lia. }
  change (bytes_of [cstr f]) with [f] in *. fold pkt in HL, Hser.
  rewrite decide_False in Hser by lia.
  assert (0 < length pkt ≤ length (buf c))%nat as Hpos by (split; [unfold pkt; apply Nat.lt_0_succ|lia]).
  assert (Z.of_nat (length pkt) ≤ INT_MAX) as Hmax.
  { unfold pkt, unsubscribe_packet. rewrite length_packet, Hpl. unfold packet_size.
    pose proof (rl_bytes_length (Z.of_nat (4 + length f)) ltac:(lia)). unfold INT_MAX. lia. }
  destruct (command_send fuel (λ b n, MQTTSerialize_unsubscribe b n 0 id 1 [cstr f]) pkt t c1 w1
    Hfuel Hpos Hmax Hser ltac:(lia)) as (c2 & w2 & Hrun & Hss & Hm2 & Hs2).
  rewrite (Hrun _ mret).
  pose proof (moves_trans _ _ _ _ _ _ _ _ _ Hm1 Hm2) as Hm. rewrite !app_nil_l in Hm.
  destruct (unsuback_wait_ok dup qos packetid rest SUCCESS t c2 w2 Hd Hid)
    as (c' & w' & p & E & Hss' & Hm3 & Hp); [| | |done|].
  { exact (moves_incoming _ _ _ _ _ _ Hm Hi). }
  { by destruct Hss as (_ & _ & _ & _ & _ & -> & _). }
  { by eapply same_session_wf_buf. }
  exists c', w', p. split; [exact E|].
  destruct Hss as (G1 & _ & _ & _ & _ & _ & _ & _ & G3 & _).
  destruct Hss' as (F1 & _ & _ & _ & _ & _ & _ & _ & F3 & _).
  split; [exact (eq_trans F1 G1)|]. split; [exact (eq_trans F3 G3)|].
  destruct Hm as (_ & Ho & _). split; [|split; [done|by apply (moves_incoming _ _ _ _ _ _ Hm3), (moves_incoming _ _ _ _ _ _ Hm2), (moves_incoming _ _ _ _ _ _ Hm1)]].
  destruct Hm3 as (_ & Ho3 & _). by rewrite Ho3, Ho, app_assoc.
Qed.

(** ** Disconnecting *)

Lemma MQTTDisconnect_ok c w :
  wf_buf c → (2 < grant (command_timeout_ms c))%nat →
  ∃ c' w', MQTTDisconnect fuel (c, w) = Ret (SUCCESS, (c', w')) ∧ isconnected c' = 0 ∧
    messageHandlers c' = messageHandlers c ∧
    outgoing w' = outgoing w ++ zero_packet DISCONNECT ∧ incoming w' = incoming w.
Proof.
  intros Hb Hto. unfold MQTTDisconnect. pose proof Hb as Hb'. unfold wf_buf in Hb'.
  set (c1 := set_buf (zero_packet DISCONNECT ++ drop 2 (buf c)) c).
  assert (serialize MQTTSerialize_disconnect (c, w) = Ret (2, (c1, w))) as E1.
  { unfold serialize. mstep. unfold MQTTSerialize_disconnect.
    rewrite (run_lift _ _ _ (2, zero_packet DISCONNECT ++ drop 2 (buf c))); [done|].
    rewrite MQTTSerialize_zero_ok by lia. by rewrite decide_False by lia. }
  rewrite (bindM_Ret _ _ _ _ _ E1). mstep.
  destruct (countdown_ms_law (command_timeout_ms c) w) as (t & w1 & Ht & Hm1 & Hsl).
  rewrite (run_plat _ _ _ _ _ _ Ht), (decide_True (P := 2 > 0)) by lia.
  assert (length (buf c1) = length (buf c)) as Hlen.
  { cbn [c1 buf set_buf]. change (zero_packet DISCONNECT) with [224; 0].
    rewrite length_app, length_drop. cbn [length]. lia. }
  destruct (sendPacket_ok fuel 2 t c1 w1) as (pt & w2 & E2 & Hm2); [done|lia|ints; lia|lia|].
  rewrite (bindM_Ret _ _ _ _ _ E2). mstep. eexists _, w2. split; [done|]. split; [done|].
  split; [done|].
  pose proof (moves_trans _ _ _ _ _ _ _ _ _ Hm1 Hm2) as (Hi & Ho & _). by split.
Qed.
End commands.
