(* ===== verification/MqttSafety.v ===== *)
(** * The MQTT client: every operation returns

    On a platform whose connection stays open ([Stream], [Passing], [Steady])
    and for packets that fit the read buffer, no operation of [MqttClient.v]
    runs out of its budget, leaves an object, or stops in the middle of a
    packet.  [safe] is a Hoare triple for total correctness. *)
From S2P Require Import Prelude MqttPacket MqttPublish MqttSubscribe MqttConnect.
From S2P Require Import MqttTopic MqttClient MqttClientProofs.

(** ** Platforms on which time limits can be given to a write *)

(** [patient t w]: what [t] has left is a time limit a write takes.  It is so
    for the timers of the durations [limit_ok], and stays so.  When nothing has
    come, a read gives up. *)
Class Steady (W : Type) {P : Platform W} {S : Stream W} := {
  patient : timer → W → Prop;
  limit_ok : Z → Prop;
  steady {A} (m : M W A) : Prop :=
    ∀ w a w', m w = Ret (a, w') → ∀ t, patient t w → patient t w';
  limit_1000 : limit_ok 1000;
  expired_steady t : steady (expired t);
  left_ms_steady t : steady (left_ms t);
  countdown_steady s : steady (countdown s);
  countdown_ms_steady ms : steady (countdown_ms ms);
  mqttread_steady n ms : steady (mqttread n ms);
  mqttwrite_steady bs n ms : steady (mqttwrite bs n ms);
  fp_call_patient g msg w t : patient t w → patient t (fp_call g msg w);
  left_ms_patient t w ms w' : patient t w → left_ms t w = Ret (ms, w') → timeout_ok ms;
  countdown_ms_patient ms w t w' :
    limit_ok ms → countdown_ms ms w = Ret (t, w') → patient t w';
  mqttread_quiet ms w : incoming w = [] →
    ∃ r w', mqttread 1 ms w = Ret ((r, []), w') ∧ r ≠ 1 ∧ incoming w' = [];
}.
#[global] Arguments steady {W P S _ A} m /.

(** ** What a broker sends *)

(** A packet by its header byte and its body.  A PUBLISH has the form of one, a
    SUBACK carries one return code, the others are free. *)
Definition acceptable (p : Z * list Z) : Prop :=
  Z.of_nat (length p.2) < 268435456 ∧
  (hdr_type p.1 = PUBLISH → ∃ dup qos retained packetid topic payload,
     0 ≤ dup < 2 ∧ 0 ≤ qos < 4 ∧ 0 ≤ retained < 2 ∧ is_u16 packetid ∧
     Z.of_nat (length topic) < 65536 ∧
     p = (MQTTHeader_byte PUBLISH dup qos retained, publish_body qos packetid topic payload)) ∧
  (hdr_type p.1 = SUBACK → ∃ packetid code, is_u16 packetid ∧
     p = (MQTTHeader_byte SUBACK 0 0 0, be16 packetid ++ [code])).

Definition wire (p : Z * list Z) : list Z := packet p.1 p.2.
Definition fits (n : nat) (p : Z * list Z) : Prop := acceptable p ∧ (length (wire p) ≤ n)%nat.

(** ** Deserializers on any acceptable packet *)

Lemma readInt_body h a b body rest :
  is_byte a → is_byte b →
  ∃ id, readInt (packet h (a :: b :: body) ++ rest) (body_start (a :: b :: body)) =
    Ret (id, (body_start (a :: b :: body) + 2)%nat) ∧ is_u16 id.
Proof.
  intros Ha Hb. pose proof (drop_body h (a :: b :: body) rest) as Hd. cbn [app] in Hd.
  unfold readInt. rewrite (load_drop _ _ _ _ Hd). bret.
  apply drop_cons_lookup in Hd as [_ Hd]. rewrite <- Nat.add_1_r in Hd.
  rewrite (load_drop _ _ _ _ Hd). bret. eexists. split; [done|]. ints. lia.
Qed.

(** Whatever is taken for an acknowledgement. *)
Lemma MQTTDeserialize_ack_total o h body rest n :
  Forall is_byte body → Z.of_nat (length body) < 268435456 → is_u16 (ack_packetid o) →
  ∃ r o', MQTTDeserialize_ack o (packet h body ++ rest) n = Ret (r, o') ∧
    is_u16 (ack_packetid o').
Proof.
  intros Hb Hn Ho. unfold MQTTDeserialize_ack. rewrite readChar_packet. bret.
  rewrite decodeBuf_packet by done. bret. rewrite body_start_fold, Nat2Z.id.
  destruct (decide _) as [|Hl]; [by eexists _, _|].
  destruct body as [|a [|b body]]; cbn [length] in Hl; [lia..|].
  rewrite !Forall_cons in Hb. destruct Hb as (Ha & Hb & _).
  destruct (readInt_body h a b body rest Ha Hb) as (id & -> & Hid). bret. by eexists _, _.
Qed.

Lemma MQTTDeserialize_unsuback_total id h body rest n :
  Forall is_byte body → Z.of_nat (length body) < 268435456 → is_u16 id →
  ∃ r, MQTTDeserialize_unsuback id (packet h body ++ rest) n = Ret r.
Proof.
  intros Hb Hn Hid. unfold MQTTDeserialize_unsuback.
  destruct (MQTTDeserialize_ack_total {| ack_type := 0; ack_dup := 0; ack_packetid := id |}
    h body rest n Hb Hn Hid) as (r & o & -> & _). bret. by eexists.
Qed.

Lemma MQTTDeserialize_connack_total sp code h body rest n :
  Z.of_nat (length body) < 268435456 →
  ∃ r, MQTTDeserialize_connack sp code (packet h body ++ rest) n = Ret r.
Proof.
  intros Hn. unfold MQTTDeserialize_connack. rewrite readChar_packet. bret.
  destruct (decide _); [by eexists|].
  rewrite decodeBuf_packet by done. bret. rewrite body_start_fold, Nat2Z.id.
  destruct (decide _) as [|Hl]; [by eexists|].
  destruct body as [|a [|b body]]; cbn [length] in Hl; [lia..|].
  pose proof (drop_body h (a :: b :: body) rest) as Hd. cbn [app] in Hd.
  rewrite (readChar_drop _ _ _ _ Hd). bret. apply drop_cons_lookup in Hd as [_ Hd].
  rewrite (readChar_drop _ _ _ _ Hd). bret. by eexists.
Qed.

(** ** Total correctness *)

Section safe.
Context {W : Type} `{P : Platform W} `{St : !Stream W} `{Pa : !Passing W} `{Sy : !Steady W}.
Context (fuel : nat) (junk : PublishData) (char_signed : bool).
Implicit Types (c : Client) (w : W) (t : timer).

(** The packets [pkts] are still to be read, and the client is ready for them
    and for its own commands. *)
Definition ready (pkts : list (Z * list Z)) c w : Prop :=
  wf_buf c ∧ buf_size c ≤ INT_MAX ∧ wf_handlers (messageHandlers c) ∧
  limit_ok (command_timeout_ms c) ∧ (span (command_timeout_ms c) < fuel)%nat ∧
  incoming w = concat (map wire pkts) ∧ Forall (fits (length (readbuf c))) pkts.

(** No timer is worse off. *)
Definition later w w' : Prop :=
  ∀ t, (patient t w → patient t w') ∧ (ttl t w' ≤ ttl t w)%nat.

Lemma later_refl w : later w w.
Proof. by intros t. Qed.

Lemma later_trans w w1 w2 : later w w1 → later w1 w2 → later w w2.
Proof.
  intros H1 H2 t. destruct (H1 t) as [P1 T1], (H2 t) as [P2 T2]. split; [auto|lia].
Qed.

(** [m] returns, having read whole packets only. *)
Definition safe t {A} (Pre : Client → Prop) (m : M state A) (Post : A → Client → Prop) : Prop :=
  ∀ pkts c w, ready pkts c w → patient t w → (ttl t w < fuel)%nat → Pre c →
    ∃ a c' w' pkts', m (c, w) = Ret (a, (c', w')) ∧ later w w' ∧
      pkts' `suffix_of` pkts ∧ ready pkts' c' w' ∧ Post a c'.

Lemma safe_mret t {A} (a : A) (Pre : Client → Prop) (Post : A → Client → Prop) :
  (∀ c, Pre c → Post a c) → safe t Pre (mret a) Post.
Proof.
  intros H pkts c w Hg _ _ Hp. exists a, c, w, pkts. split; [done|].
  split; [apply later_refl|]. auto.
Qed.

Lemma safe_bind t {A B} (m : M state A) (k : A → M state B) Pre Mid Post :
  safe t Pre m Mid → (∀ a, safe t (Mid a) (k a) Post) → safe t Pre (m ≫= k) Post.
Proof.
  intros Hm Hk pkts c w Hg Hp Ht Hc.
  destruct (Hm pkts c w Hg Hp Ht Hc) as (a & c1 & w1 & pkts1 & E & Hl & Hs & Hg1 & Hq).
  destruct (Hl t) as [Hp1 Ht1].
  destruct (Hk a pkts1 c1 w1) as (b & c2 & w2 & pkts2 & E2 & Hl2 & Hs2 & Hg2 & Hq2); [auto with lia..|].
  exists b, c2, w2, pkts2. rewrite (bindM_Ret _ _ _ _ _ E). split; [done|].
  split; [by eapply later_trans|]. split; [by etransitivity|done].
Qed.

Lemma safe_weaken t {A} (m : M state A) (Pre Pre' : Client → Prop) (Post Post' : A → Client → Prop) :
  safe t Pre m Post → (∀ c, Pre' c → Pre c) → (∀ a c, Post a c → Post' a c) →
  safe t Pre' m Post'.
Proof.
  intros Hm H1 H2 pkts c w Hg Hp Ht Hc.
  destruct (Hm pkts c w Hg Hp Ht (H1 c Hc)) as (a & c' & w' & pkts' & E & Hl & Hs & Hg' & Hq).
  exists a, c', w', pkts'. auto 6.
Qed.

Lemma safe_pure t {A} (φ : Prop) (Pre : Client → Prop) (m : M state A) Post :
  (φ → safe t Pre m Post) → safe t (λ c, φ ∧ Pre c) m Post.
Proof. intros Hm pkts c w Hg Hp Ht [Hφ Hc]. by apply Hm. Qed.

Lemma safe_client t {A} (f : Client → A) (Pre : Client → Prop) :
  safe t Pre (client f) (λ a c, a = f c ∧ Pre c).
Proof.
  intros pkts c w Hg _ _ Hc. exists (f c), c, w, pkts. split; [done|].
  split; [apply later_refl|]. auto.
Qed.

Lemma safe_upd t (f : Client → Client) (Pre Post : Client → Prop) :
  (∀ pkts c w, ready pkts c w → Pre c → ready pkts (f c) w ∧ Post (f c)) →
  safe t Pre (upd f) (λ _, Post).
Proof.
  intros Hf pkts c w Hg _ _ Hc. destruct (Hf pkts c w Hg Hc) as [Hg' Hq].
  exists tt, (f c), w, pkts. split; [done|]. split; [apply later_refl|]. auto.
Qed.

Lemma safe_lift t {A} (o : outcome A) (Pre : Client → Prop) (φ : A → Prop) :
  (∀ c, Pre c → ∃ a, o = Ret a ∧ φ a) →
  safe t Pre (lift o) (λ a c, φ a ∧ Pre c).
Proof.
  intros Ho pkts c w Hg _ _ Hc. destruct (Ho c Hc) as (a & -> & Hq).
  exists a, c, w, pkts. split; [done|]. split; [apply later_refl|]. auto.
Qed.

(** A call of the platform that does not read. *)
Lemma safe_plat t {A} (m : M W A) (Pre : Client → Prop) (φ : A → Prop) :
  calm m → steady m →
  (∀ w, patient t w → ∃ a w', m w = Ret (a, w') ∧ incoming w' = incoming w ∧ φ a) →
  safe t Pre (plat m) (λ a c, φ a ∧ Pre c).
Proof.
  intros Hc Hs Hm pkts c w Hg Hp _ Hpre. destruct (Hm w Hp) as (a & w' & E & Hi & Hφ).
  exists a, c, w', pkts. split; [unfold plat; cbn [snd fst]; by rewrite E|].
  split; [|split; [done|split; [|done]]].
  - intros t'. split; [by eapply Hs|]. by eapply Hc.
  - unfold ready. rewrite Hi. apply Hg.
Qed.

Lemma moves_quiet n wr w w' : moves n [] wr w w' → incoming w' = incoming w.
Proof. by intros (-> & _). Qed.

Lemma safe_expired t t' Pre : safe t Pre (plat (expired t')) (λ _, Pre).
Proof.
  eapply safe_weaken; [apply (safe_plat t _ Pre (λ _, True) (expired_calm t') (expired_steady t'))
    |done|by intros a c []].
  intros w _. destruct (expired_law t' w) as (b & w' & E & Hm & _).
  exists b, w'. by apply moves_quiet in Hm.
Qed.

Lemma safe_left_ms t Pre : safe t Pre (plat (left_ms t)) (λ ms c, timeout_ok ms ∧ Pre c).
Proof.
  apply safe_plat; [apply left_ms_calm|apply left_ms_steady|]. intros w Hp.
  destruct (left_ms_law t w) as (ms & w' & E & Hm & _). exists ms, w'.
  split; [done|]. split; [by apply moves_quiet in Hm|]. by eapply left_ms_patient.
Qed.

Lemma safe_countdown t s Pre : safe t Pre (plat (countdown s)) (λ _, Pre).
Proof.
  eapply safe_weaken; [apply (safe_plat t _ Pre (λ _, True) (countdown_calm s) (countdown_steady s))
    |done|by intros a c []].
  intros w _. destruct (countdown_law s w) as (b & w' & E & Hm).
  exists b, w'. by apply moves_quiet in Hm.
Qed.

Lemma fp_call_later g msg w : later w (fp_call g msg w).
Proof. intros t. split; [apply fp_call_patient|apply fp_call_ttl]. Qed.

Lemma safe_fp_call t g msg Pre :
  safe t Pre (plat (λ w, Ret (tt, fp_call g msg w))) (λ _, Pre).
Proof.
  intros pkts c w Hg Hp _ Hpre. exists tt, c, (fp_call g msg w), pkts. split; [done|].
  split; [apply fp_call_later|]. split; [done|]. split; [|done].
  unfold ready. rewrite (moves_quiet _ _ _ _ (fp_call_law g msg w)). apply Hg.
Qed.

(** The rest of a command runs on a timer of its own. *)
Lemma safe_countdown_ms t {A} ms (k : timer → M state A) Pre Post :
  limit_ok ms → (span ms < fuel)%nat → (∀ t', safe t' Pre (k t') Post) →
  safe t Pre (t' ← plat (countdown_ms ms); k t') Post.
Proof.
  intros Hms Hf Hk pkts c w Hg Hp _ Hpre.
  destruct (countdown_ms_law ms w) as (t' & w1 & E & Hm & _).
  rewrite (run_plat _ _ _ _ _ _ E).
  assert (later w w1) as Hl.
  { intros t2. split; [by eapply countdown_ms_steady|].
    by eapply countdown_ms_calm. }
  assert (ready pkts c w1) as Hg1 by (unfold ready; rewrite (moves_quiet _ _ _ _ Hm); apply Hg).
  pose proof (countdown_ms_ttl _ _ _ _ E).
  destruct (Hk t' pkts c w1 Hg1) as (a & c' & w' & pkts' & E' & Hl' & Hr);
    [by eapply countdown_ms_patient|lia|done|].
  exists a, c', w', pkts'. split; [done|]. split; [by eapply later_trans|done].
Qed.

(** A loop that polls its timer first. *)
Lemma safe_poll_loop t {A R} (r : A → R) (k : A → M state (A + R)) Inv Post a :
  (∀ a, safe t (Inv a) (k a) (λ x c, match x with inl a' => Inv a' c | inr r => Post r c end)) →
  (∀ a c, Inv a c → Post (r a) c) →
  safe t (Inv a) (loopM fuel (λ a, e ← plat (expired t);
    if e : bool then mret (inr (r a)) else k a) a) Post.
Proof.
  intros Hk Hr pkts c w Hg Hp Ht. revert a pkts c w Hg Hp Ht.
  enough (∀ n a pkts c w, (ttl t w < n)%nat → ready pkts c w → patient t w →
    (ttl t w < fuel)%nat → Inv a c → ∃ b c' w' pkts',
    loopM n (λ a, e ← plat (expired t); if e : bool then mret (inr (r a)) else k a) a (c, w) =
      Ret (b, (c', w')) ∧ later w w' ∧ pkts' `suffix_of` pkts ∧ ready pkts' c' w' ∧ Post b c')
    as Hn by (intros; by apply Hn).
  induction n as [|n IH]; intros a pkts c w Hn Hg Hp Ht Ha; [lia|].
  destruct (safe_expired t t (Inv a) pkts c w Hg Hp Ht Ha)
    as (e & c1 & w1 & pkts1 & E & Hl & Hs & Hg1 & Ha1).
  rewrite loopM_S, run_assoc, (bindM_Ret _ _ _ _ _ E).
  destruct e. { exists (r a), c1, w1, pkts1. auto 8. }
  assert (ttl t w1 < ttl t w)%nat as Hlt.
  { unfold plat in E. cbn [snd fst] in E. apply bind_Ret_inv in E as ([e w2] & E & [= -> <- <-]).
    by apply expired_ttl. }
  destruct (Hl t) as [Hp1 _].
  destruct (Hk a pkts1 c1 w1 Hg1) as (x & c2 & w2 & pkts2 & E2 & Hl2 & Hs2 & Hg2 & Hq);
    [auto|lia|done|].
  rewrite (bindM_Ret _ _ _ _ _ E2). destruct (Hl2 t) as [Hp2 Ht2]. destruct x as [a2|b].
  - destruct (IH a2 pkts2 c2 w2) as (b & c3 & w3 & pkts3 & E3 & Hl3 & Hs3 & Hr3); [auto with lia..|].
    exists b, c3, w3, pkts3. split; [done|].
    split; [by eapply later_trans, later_trans|]. split; [by etransitivity; [|etransitivity]|done].
  - exists b, c2, w2, pkts2. split; [done|]. split; [by eapply later_trans|].
    split; [by etransitivity|done].
Qed.

(** *** Steps of the descent *)

Definition any : Client → Prop := λ _, True.

Lemma safe_any t {A} (m : M state A) Pre Post :
  safe t any m Post → safe t Pre m Post.
Proof. intros Hm. by eapply safe_weaken; [exact Hm|..]. Qed.

Lemma safe_drop t {A} (m : M state A) Pre Post : safe t Pre m Post → safe t Pre m (λ _, any).
Proof. intros Hm. by eapply safe_weaken; [exact Hm|..]. Qed.

(** *** Sending *)

(** What a serializer leaves for [sendPacket]. *)
Definition sendable (len : Z) c : Prop := len ≤ Z.of_nat (length (buf c)) ∧ len ≤ INT_MAX.

(** [SUCCESS] or [FAILURE]. *)
Definition result (rc : Z) : Prop := rc = SUCCESS ∨ rc = FAILURE.

Lemma safe_sendPacket t len :
  safe t (λ c, 0 < len ∧ sendable len c) (sendPacket fuel len t) (λ rc _, result rc).
Proof.
  unfold sendPacket. eapply safe_bind with (Mid := λ _, any).
  2: { intros [rc sent]. destruct (decide _); [|apply safe_mret; by right].
       eapply safe_bind; [apply safe_client|]. intros k. apply safe_any.
       eapply safe_bind; [apply safe_countdown|]. intros pt.
       eapply safe_bind; [|intros; apply safe_mret; by left].
       by apply (safe_upd t (set_ping_timer pt) any any). }
  intros pkts c w Hg Hp Ht (Hpos & Hl & Hmax).
  destruct (safe_expired t t any pkts c w Hg Hp Ht I)
    as (e & c1 & w1 & pkts1 & E & Hl1 & Hs1 & Hg1 & _).
  unfold plat in E. cbn [snd fst] in E.
  apply bind_Ret_inv in E as ([e' w1'] & E & [= -> <- <-]).
  assert (sendPacket_body len t (FAILURE, 0) (c, w) =
    (if e then mret (inr (FAILURE, 0))
     else ms ← plat (left_ms t);
          b ← client buf;
          rc ← plat (mqttwrite (drop (Z.to_nat 0) b) len ms);
          if decide (rc < 0) then mret (inr (rc, 0))
          else sent ← lift (int (0 + rc)); mret (inl (rc, sent))) (c, w1')) as Eb.
  { unfold sendPacket_body. rewrite decide_True by lia. by rewrite (run_plat _ _ _ _ _ _ E). }
  destruct e.
  { exists (FAILURE, 0), c, w1', pkts1.
    split; [destruct fuel as [|n]; [lia|by apply loopM_inr]|]. by split; [|split; [|split]]. }
  pose proof (expired_ttl _ _ _ E) as Hlt.
  destruct (Hl1 t) as [Hp1 Ht1]. specialize (Hp1 Hp).
  destruct (safe_left_ms t any pkts1 c w1' Hg1 Hp1 ltac:(lia) I)
    as (ms & c2 & w2 & pkts2 & E2 & Hl2 & Hs2 & Hg2 & Hms & _).
  unfold plat in E2. cbn [snd fst] in E2.
  apply bind_Ret_inv in E2 as ([ms' w2'] & E2 & [= -> <- <-]).
  destruct (mqttwrite_law (buf c) len ms w2' ltac:(lia) Hms) as (w3 & E3 & Hm3).
  exists (len, len), c, w3, pkts2. split.
  - destruct fuel as [|[|n]]; [lia|lia|]. erewrite loopM_inl.
    2: { rewrite Eb, (run_plat _ _ _ _ _ _ E2). mstep. rewrite drop_0.
         rewrite (run_plat _ _ _ _ _ _ E3), decide_False by lia.
         by rewrite (run_lift _ _ _ (0 + len)) by (apply int_ok; ints; lia). }
    rewrite Z.add_0_l. apply loopM_inr. unfold sendPacket_body. by rewrite decide_False by lia.
  - split; [|split; [by etransitivity|split; [|done]]].
    + eapply later_trans; [exact Hl1|]. eapply later_trans; [exact Hl2|]. intros t'.
      split; [by eapply mqttwrite_steady|]. by eapply mqttwrite_calm.
    + unfold ready. rewrite (moves_quiet _ _ _ _ Hm3). exact Hg2.
Qed.

(** A serializer that keeps to the sizes. *)
Definition serializer (f : list Z → Z → outcome (Z * list Z)) : Prop :=
  ∀ b n, n ≤ Z.of_nat (length b) → ∃ pkt, writes (f b n) b n pkt.

Lemma safe_serialize t f Pre : serializer f → safe t Pre (serialize f) sendable.
Proof.
  intros Hf pkts c w Hg Hp Ht _. pose proof Hg as (Hb & Hmax & Hr). unfold wf_buf in Hb.
  assert (∃ len b, f (buf c) (buf_size c) = Ret (len, b) ∧ length b = length (buf c) ∧
    len ≤ buf_size c) as (len & b & E & Hlb & Hlen).
  { destruct (Hf (buf c) (buf_size c) ltac:(lia)) as (pkt & [[E Hl]|[E Hl]]).
    - eexists _, _. split; [exact E|]. split; [|done]. rewrite length_app, length_drop. lia.
    - eexists _, _. split; [exact E|]. unfold MQTTPACKET_BUFFER_TOO_SHORT. split; [done|lia]. }
  exists len, (set_buf b c), w, pkts. split.
  { unfold serialize. mstep. by rewrite (run_lift _ _ _ _ E). }
  split; [apply later_refl|]. split; [done|]. split.
  - unfold ready, wf_buf in *. cbn. by rewrite Hlb.
  - unfold sendable. cbn. lia.
Qed.

(** Serializing, and sending what came of it. *)
Lemma safe_send t {A} len (fail : M state A) (k : Z → M state A) Post :
  safe t any fail Post → (∀ rc, result rc → safe t any (k rc) Post) →
  safe t (sendable len) (if decide (len ≤ 0) then fail else rc ← sendPacket fuel len t; k rc) Post.
Proof.
  intros Hfail Hk. case_decide; [by apply safe_any|].
  eapply safe_bind.
  - eapply safe_weaken; [apply safe_sendPacket|..].
    + intros c Hc. split; [lia|done].
    + intros rc c Hr. exact (conj Hr (I : any c)).
  - intros rc. apply safe_pure, Hk.
Qed.

Lemma zero_serializer type : serializer (λ b n, MQTTSerialize_zero b n type).
Proof.
  intros b n Hn. exists (zero_packet type). rewrite MQTTSerialize_zero_ok by done.
  unfold writes. change (length (zero_packet type)) with 2%nat.
  case_decide; [right|left]; (split; [done|lia]).
Qed.

Lemma ack_serializer type packetid :
  is_u16 packetid → serializer (λ b n, MQTTSerialize_ack b n type 0 packetid).
Proof.
  intros Hid b n Hn. eexists. rewrite MQTTSerialize_ack_ok by done. unfold writes.
  rewrite length_ack_packet. case_decide; [right|left]; (split; [done|lia]).
Qed.

(** *** Receiving *)

(** [m] only takes steps of [R], whatever the platform does. *)
Definition stable (R : state → state → Prop) {A} (m : M state A) : Prop :=
  ∀ s a s', m s = Ret (a, s') → R s s'.

Lemma stable_bind R `{!Transitive R} {A B} (m : M state A) (k : A → M state B) :
  stable R m → (∀ a, stable R (k a)) → stable R (m ≫= k).
Proof.
  intros Hm Hk s b s' E. apply bindM_Ret_inv in E as (a & s1 & E1 & E2).
  etransitivity; [by eapply Hm|by eapply Hk].
Qed.

Lemma stable_mret R `{!Reflexive R} {A} (a : A) : stable R (mret a).
Proof. by intros s a' s' [= <- <-]. Qed.

Lemma stable_client R `{!Reflexive R} {A} (f : Client → A) : stable R (client f).
Proof. by intros s a s' [= <- <-]. Qed.

Lemma stable_lift R `{!Reflexive R} {A} (o : outcome A) : stable R (lift o).
Proof.
  intros s a s' E. unfold lift in E. by apply bind_Ret_inv in E as (? & _ & [= <- <-]).
Qed.

Lemma stable_loop R `{!PreOrder R} {A B} n (body : A → M state (A + B)) a :
  (∀ a, stable R (body a)) → stable R (loopM n body a).
Proof.
  intros Hb s r s' E. unfold loopM in E.
  apply (loop_partial (λ x, R s x.2) (λ x, R s x.2)) in E; [done| |by cbn].
  intros [a1 s1] x Hs1 E1. apply bind_Ret_inv in E1 as ([y s2] & E1 & [= <-]).
  apply Hb in E1. destruct y; cbn in *; by etransitivity.
Qed.

(** Descends through the code to the updates and the calls of the platform. *)
Ltac stable :=
  repeat (intros; cbv beta zeta;
    lazymatch goal with
    | |- stable _ (mbind _ _) => apply stable_bind; [apply _|..]
    | |- stable _ (loopM _ _ _) => apply stable_loop; [apply _|]
    | |- stable _ (match ?x with _ => _ end) => destruct x
    | |- stable _ (mret _) => apply stable_mret, _
    | |- stable _ (client _) => apply stable_client, _
    | |- stable _ (lift _) => apply stable_lift, _
    end).

(** No timer is worse off after [readPacket]. *)
Definition ages (s s' : state) : Prop := later s.2 s'.2.
#[local] Instance ages_preorder : PreOrder ages.
Proof. split; [by intros s; apply later_refl|intros s s1 s2; apply later_trans]. Qed.

Lemma ages_plat {A} (m : M W A) : calm m → steady m → stable ages (plat m).
Proof.
  intros Hc Hs s a s' E. unfold plat in E. apply bind_Ret_inv in E as ([a' w'] & E & [= <- <-]).
  intros t. cbn. split; [by eapply Hs|]. by eapply Hc.
Qed.

Lemma ages_upd f : stable ages (upd f).
Proof. intros s a s' [= <- <-]. apply later_refl. Qed.

Lemma ages_readPacket t : stable ages (readPacket t).
Proof.
  unfold readPacket, decodePacket, decodePacket_body. stable.
  all: first [ apply ages_upd | apply ages_plat ].
  all: auto using left_ms_calm, left_ms_steady, mqttread_calm, mqttread_steady.
Qed.

(** [keepalive] does not touch the packet received. *)
Definition same_readbuf (s s' : state) : Prop := readbuf s'.1 = readbuf s.1.
#[local] Instance same_readbuf_preorder : PreOrder same_readbuf.
Proof. split; [done|]. intros s s1 s2 E1 E2. unfold same_readbuf. by rewrite E2. Qed.

Lemma same_readbuf_plat {A} (m : M W A) : stable same_readbuf (plat m).
Proof.
  intros s a s' E. unfold plat in E. by apply bind_Ret_inv in E as ([a' w'] & E & [= <- <-]).
Qed.

Lemma same_readbuf_keepalive : stable same_readbuf (keepalive fuel).
Proof.
  unfold keepalive, serialize, sendPacket, sendPacket_body. stable.
  all: first [apply same_readbuf_plat | by intros s b s' [= <- <-]].
Qed.

Lemma safe_frame t {A} (m : M state A) (φ : list Z → Prop) Pre Post :
  stable same_readbuf m → safe t Pre m Post →
  safe t (λ c, Pre c ∧ φ (readbuf c)) m (λ a c, Post a c ∧ φ (readbuf c)).
Proof.
  intros Hq Hm pkts c w Hg Hp Ht [Hc Hφ].
  destruct (Hm pkts c w Hg Hp Ht Hc) as (a & c' & w' & pkts' & E & Hl & Hs & Hg' & Hpost).
  exists a, c', w', pkts'. do 4 (split; [done|]). split; [done|].
  apply Hq in E. unfold same_readbuf in E. cbn in E. by rewrite E.
Qed.

(** What [readPacket] leaves: nothing, or a packet of type [r]. *)
Definition arrived (r : Z) (b : list Z) : Prop :=
  r = FAILURE ∨ ∃ h body tail, b = packet h body ++ tail ∧ hdr_type h = r ∧
    acceptable (h, body) ∧ Forall is_byte body.

Lemma safe_readPacket t Pre : safe t Pre (readPacket t) (λ r c, arrived r (readbuf c)).
Proof.
  intros pkts c w Hg _ _ _. pose proof Hg as (Hb & Hmax & Hh & Hlim & Hsp & Hi & Hall).
  enough (∃ r c' w' pkts', readPacket t (c, w) = Ret (r, (c', w')) ∧
    pkts' `suffix_of` pkts ∧ ready pkts' c' w' ∧ arrived r (readbuf c')) as (r & c' & w' & pkts' & E & Hr).
  { exists r, c', w', pkts'. split; [done|]. split; [by apply (ages_readPacket t _ _ _ E)|done]. }
  destruct pkts as [|[h body] pkts].
  - destruct (left_ms_law t w) as (ms & w1 & E1 & Hm1 & _). apply moves_quiet in Hm1.
    destruct (mqttread_quiet ms w1) as (r & w2 & E2 & Hr & Hi2); [by rewrite Hm1, Hi|].
    exists FAILURE, (set_readbuf (readbuf c) c), w2, []. split.
    { unfold readPacket. rewrite (run_plat _ _ _ _ _ _ E1), (run_plat _ _ _ _ _ _ E2). mstep.
      rewrite (run_lift _ _ _ (readbuf c)) by done. mstep. by rewrite decide_True by done. }
    split; [done|]. split; [|by left].
    unfold ready. by rewrite Hi2.
  - apply Forall_cons in Hall as [[Ha Hfit] Hall]. cbn [map concat] in Hi. unfold wire in Hi at 1.
    pose proof Ha as (Hn & _). cbn [fst snd] in *.
    destruct (readPacket_ok h body (concat (map wire pkts)) t c w Hi Hn Hfit)
      as (w' & E & _ & Hi').
    pose proof (incoming_bytes w) as Hbs. rewrite Hi in Hbs. unfold packet in Hbs.
    rewrite Forall_app, Forall_cons, Forall_app in Hbs. destruct Hbs as ((_ & _ & Hbs) & _).
    exists (hdr_type h). eexists _, w', pkts. split; [exact E|].
    split; [by exists [(h, body)]|]. split.
    + unfold wire in Hfit. cbn [fst snd] in Hfit.
      assert (length (packet h body ++ drop (length (packet h body)) (readbuf c)) =
        length (readbuf c)) as Hlen by len.
      unfold ready. cbn [readbuf set_readbuf]. by rewrite Hlen.
    + right. exists h, body. by eexists.
Qed.

(** *** Delivering *)

Lemma safe_deliverMessage t msg topic s Pre :
  pub_topicName msg = read_string topic s → Forall is_byte topic →
  Z.of_nat (length topic) < 65536 →
  safe t Pre (deliverMessage msg) (λ _, any).
Proof.
  intros Hm Htb Hl pkts c w Hg _ _ _. pose proof Hg as (_ & _ & Hh & _).
  rewrite (deliverMessage_ok msg topic s c w Hm Htb Hl Hh).
  eexists _, c, _, pkts. split; [reflexivity|].
  assert (∀ gs w, later w (call_all msg gs w)) as Hlater.
  { induction gs as [|g gs IH]; intros w1; [apply later_refl|].
    exact (later_trans _ _ _ (fp_call_later g msg w1) (IH _)). }
  split; [apply Hlater|]. split; [done|]. split; [|done].
  unfold ready. rewrite (moves_quiet _ _ _ _ (moves_call_all msg (recipients topic c) w)). exact Hg.
Qed.

(** *** One cycle *)

Lemma safe_upd_any t f Pre :
  (∀ pkts c w, ready pkts c w → ready pkts (f c) w) → safe t Pre (upd f) (λ _, any).
Proof. intros Hf. apply safe_upd. intros pkts c w Hg _. split; [by apply Hf|done]. Qed.

Context (Hspan : (span 1000 < fuel)%nat).

Lemma safe_keepalive t Pre : safe t Pre (keepalive fuel) (λ _, any).
Proof.
  apply safe_any. unfold keepalive. eapply safe_bind; [apply safe_client|]. intros k.
  case_decide; [by apply safe_mret|]. eapply safe_bind; [apply safe_client|]. intros pt.
  eapply safe_bind; [apply safe_expired|]. intros e.
  eapply safe_bind; [apply safe_client|]. intros po.
  case_decide; [|by apply safe_mret].
  apply safe_countdown_ms; [apply limit_1000|done|]. intros t'.
  eapply safe_bind; [apply safe_serialize, (zero_serializer PINGREQ)|]. intros len.
  case_decide; [|by apply safe_mret].
  eapply safe_bind; [eapply safe_weaken; [apply safe_sendPacket|by split; [lia|]|done]|].
  intros rc. case_decide; [|by apply safe_mret].
  eapply safe_bind; [by apply safe_upd_any|]. intros []. by apply safe_mret.
Qed.

(** The result of [cycle_publish]. *)
Definition published_result (o : option Z) : Prop :=
  match o with Some rc => result rc | None => True end.

(** The answer to a message. *)
Lemma safe_answer t qos packetid :
  is_u16 packetid →
  safe t any
    (len ← (if decide (qos = QOS1) then serialize (λ b n, MQTTSerialize_ack b n PUBACK 0 packetid)
            else if decide (qos = QOS2)
            then serialize (λ b n, MQTTSerialize_ack b n PUBREC 0 packetid)
            else mret 0);
     if decide (len ≤ 0) then mret (Some FAILURE)
     else rc ← sendPacket fuel len t; mret (Some rc)) (λ o _, published_result o).
Proof.
  intros Hid. eapply safe_bind with (Mid := sendable).
  - repeat case_decide; try by apply safe_serialize, ack_serializer.
    apply safe_mret. intros c _. unfold sendable. ints. lia.
  - intros len. apply safe_send; [|intros rc Hr]; apply safe_mret; [by right|done].
Qed.

(** A message once it has been taken apart. *)
Lemma safe_handle t msg topic s :
  pub_topicName msg = read_string topic s → Forall is_byte topic →
  Z.of_nat (length topic) < 65536 → (pub_qos msg ≠ 0 → is_u16 (pub_packetid msg)) →
  safe t any
    (deliverMessage msg;;
     if decide (pub_qos msg ≠ QOS0) then
       len ← (if decide (pub_qos msg = QOS1) then
                serialize (λ b n, MQTTSerialize_ack b n PUBACK 0 (pub_packetid msg))
              else if decide (pub_qos msg = QOS2) then
                serialize (λ b n, MQTTSerialize_ack b n PUBREC 0 (pub_packetid msg))
              else mret 0);
       if decide (len ≤ 0) then mret (Some FAILURE)
       else rc ← sendPacket fuel len t; mret (Some rc)
     else mret (Some SUCCESS)) (λ o _, published_result o).
Proof.
  intros Hm Htb Htl Hid. eapply safe_bind; [by eapply safe_deliverMessage|]. intros rc.
  case_decide as Hq; [by apply safe_answer, Hid|apply safe_mret; by left].
Qed.

Lemma safe_cycle_publish t :
  safe t (λ c, arrived PUBLISH (readbuf c)) (cycle_publish fuel junk t)
    (λ rc _, published_result rc).
Proof.
  unfold cycle_publish. eapply safe_bind; [apply safe_client|]. intros b.
  eapply safe_bind; [apply safe_client|]. intros n. cbv beta.
  eapply safe_weaken with (Pre := λ c, arrived PUBLISH (readbuf c) ∧ b = readbuf c);
    [|tauto|exact (λ _ _ Hq, Hq)].
  intros pkts c w Hg Hp Ht ([?|(h & body & tail & Erb & Ety & (Hn & Hpub & _) & Hb)] & ->); [done|].
  destruct (Hpub Ety) as (dup & qos & retained & id & topic & payload & Hd & Hq & Hr & Hid & Htl & [= -> ->]).
  unfold publish_body, utf_bytes in Hb. rewrite !Forall_app in Hb. destruct Hb as ((_ & Htb) & _).
  rewrite Erb. change (packet _ _) with (publish_packet dup qos retained id topic payload).
  rewrite (run_lift _ _ _ _ (MQTTDeserialize_publish_ok junk dup qos retained id topic payload tail n
    Hd Hq Hr Hid Htl Hn)).
  cbv beta iota. rewrite (decide_False (P := 1 ≠ 1)) by auto.
  refine (safe_handle t (Build_PublishData _ _ _ _ _ _ _) topic _ eq_refl Htb Htl _ pkts c w Hg Hp Ht I).
  cbn [pub_qos pub_packetid]. intros Hq0. by rewrite decide_True by lia.
Qed.

(** What the acknowledgement in [readbuf] says. *)
Lemma arrived_ack r b n :
  arrived r b → r ≠ FAILURE →
  ∃ x, MQTTDeserialize_ack ack_junk b n = Ret x ∧ is_u16 (ack_packetid x.2).
Proof.
  intros [?|(h & body & tail & -> & _ & (Hn & _) & Hb)] Hr; [done|].
  destruct (MQTTDeserialize_ack_total ack_junk h body tail n Hb Hn) as (x & o & E & Hid);
    [by cbn; ints|]. by exists (x, o).
Qed.

Lemma safe_cycle_pubrec t :
  safe t (λ c, arrived PUBREC (readbuf c)) (cycle_pubrec fuel t) (λ rc _, result rc).
Proof.
  unfold cycle_pubrec. eapply safe_bind; [apply safe_client|]. intros b.
  eapply safe_bind; [apply safe_client|]. intros n.
  eapply safe_bind; [apply (safe_lift t _ _ (λ x, is_u16 (ack_packetid x.2)))|].
  { intros c (_ & -> & Ha). by apply (arrived_ack PUBREC). }
  intros [r o]. apply safe_pure. intros Hid. case_decide; [apply safe_mret; by right|].
  eapply safe_bind; [by apply safe_serialize, ack_serializer|]. intros len.
  apply safe_send; [apply safe_mret; by right|]. intros rc Hr.
  case_decide; apply safe_mret; [by right|done].
Qed.

(** The packets the commands wait for are in [readbuf] when [cycle] returns. *)
Definition awaited (r : Z) : Prop := r ∈ [CONNACK; PUBACK; PUBCOMP; SUBACK; UNSUBACK].
Definition heard (r : Z) (b : list Z) : Prop := awaited r → arrived r b.

#[local] Instance awaited_dec r : Decision (awaited r).
Proof. unfold awaited. apply _. Defined.

Lemma not_awaited (r : Z) b : ¬ awaited r → heard r b.
Proof. by intros Hr Ha. Qed.

(** A constant result that is not waited for. *)
Ltac unheard := apply safe_mret; intros ? _; apply not_awaited; decided.

Lemma arrived_type r b : arrived r b → r = FAILURE ∨ 0 ≤ r < 16.
Proof. intros [?|(h & _ & _ & _ & <- & _)]; [by left|right; apply hdr_type_range]. Qed.

(** The end of a cycle, on the packet type [pt]. *)
Lemma safe_exit t (pt : Z) (φ : list Z → Prop) Pre :
  safe t (λ c, Pre c ∧ φ (readbuf c)) (keepalive fuel;; mret pt)
    (λ r c, r = pt ∧ φ (readbuf c)).
Proof.
  eapply safe_bind; [eapply safe_frame; [apply same_readbuf_keepalive|apply safe_keepalive]|].
  intros rc. apply safe_mret. by intros c [_ ?].
Qed.

Lemma safe_exit_other t (pt : Z) Pre :
  ¬ awaited pt → safe t Pre (keepalive fuel;; mret pt) (λ r c, heard r (readbuf c)).
Proof.
  intros Hpt. eapply safe_weaken; [apply (safe_exit t pt (λ _, True) any)|done|].
  intros r c [-> _]. by apply not_awaited.
Qed.

Lemma safe_cycle t Pre : safe t Pre (cycle fuel junk t) (λ r c, heard r (readbuf c)).
Proof.
  unfold cycle. eapply safe_bind.
  { eapply safe_weaken; [apply safe_readPacket|intros c Hc; exact Hc|].
    intros r c Ha. exact (conj (arrived_type _ _ Ha) Ha). }
  intros r. apply safe_pure. intros Hr. cbv zeta.
  assert (r = FAILURE ∧ u16 r = 65535 ∨ u16 r = r) as Hpt.
  { destruct Hr as [->|Hr]; [by left|right; apply u16_id; ints; lia]. }
  set (pt := u16 r) in *. clearbody pt. destruct (decide (pt = PUBLISH)) as [->|Hpub].
  { destruct Hpt as [[_ ?]|<-]; [done|]. eapply safe_bind; [apply safe_cycle_publish|].
    intros o. eapply safe_weaken with (Pre := λ c, published_result o ∧ any c);
      [|done|exact (λ _ _ H, H)].
    apply safe_pure. intros Ho. destruct o as [rc|]; [|unheard].
    destruct Ho as [->| ->]; [apply safe_exit_other; decided|unheard]. }
  destruct (decide (pt = PUBREC)) as [->|Hrec].
  { destruct Hpt as [[_ ?]|<-]; [done|]. eapply safe_bind; [apply safe_cycle_pubrec|].
    intros rc. eapply safe_weaken with (Pre := λ c, result rc ∧ any c);
      [|done|exact (λ _ _ H, H)].
    apply safe_pure. intros Ho.
    destruct Ho as [->| ->]; [apply safe_exit_other; decided|unheard]. }
  eapply safe_bind with (Mid := λ _ c, any c ∧ arrived r (readbuf c)).
  { case_decide; [|by apply safe_mret]. apply safe_upd. by intros pkts c w Hg Ha. }
  intros []. eapply safe_weaken; [apply (safe_exit t pt (arrived r) any)|done|].
  intros r' c [-> Ha]. destruct Hpt as [[_ ->]|Hpt]; [apply not_awaited; decided|].
  by rewrite Hpt; intros _.
Qed.

Lemma safe_waitfor t (type : Z) Pre :
  awaited type →
  safe t Pre (waitfor fuel junk type t) (λ r c, r = type → arrived r (readbuf c)).
Proof.
  intros Hty. eapply safe_weaken with (Pre := λ _, FAILURE ≠ type);
    [|intros c _ <-; revert Hty; unfold FAILURE; decided|exact (λ _ _ H, H)].
  refine (safe_poll_loop t (λ rc : Z, rc)
    (λ _, rc ← cycle fuel junk t; mret (if decide (rc ≠ type) then inl rc else inr rc))
    (λ (rc : Z) _, rc ≠ type) _ FAILURE _ _); [|by intros rc c Hrc <-].
  intros r0. eapply safe_bind; [apply safe_cycle|]. intros rc. apply safe_mret.
  intros c Hc. case_decide as Hrc; [done|]. intros ->. by apply Hc.
Qed.

(** *** The commands *)

Lemma safe_MQTTYield_loop t Pre : safe t Pre (loopM fuel (yield_body fuel junk t) tt) (λ rc _, result rc).
Proof.
  apply safe_any.
  refine (safe_poll_loop t (λ _ : unit, SUCCESS)
    (λ _, rc ← cycle fuel junk t; mret (if decide (rc = FAILURE) then inr FAILURE else inl tt))
    (λ _, any) (λ rc _, result rc) tt _ _); [|by left].
  intros r0. eapply safe_bind; [apply safe_cycle|]. intros rc. apply safe_mret.
  intros c _. case_decide; [by right|done].
Qed.

(** Waiting for a packet and taking it apart. *)
Lemma safe_wait t type {A} (k fail : M state A) Post :
  awaited type → safe t (λ c, arrived type (readbuf c)) k Post → safe t any fail Post →
  safe t any (r ← waitfor fuel junk type t; if decide (r = type) then k else fail) Post.
Proof.
  intros Hty Hk Hfail. eapply safe_bind; [by apply safe_waitfor|]. intros r.
  case_decide as Hr; [|by eapply safe_weaken; [exact Hfail|..]].
  subst r. eapply safe_weaken; [exact Hk|by intros c Hc; apply Hc|done].
Qed.

Lemma safe_deserialize t type {A B} (f : list Z → Z → outcome A) (k : A → M state B) Post :
  (∀ b n, arrived type b → ∃ a, f b n = Ret a) → (∀ a, safe t any (k a) Post) →
  safe t (λ c, arrived type (readbuf c))
    (b ← client readbuf; n ← client readbuf_size; a ← lift (f b n); k a) Post.
Proof.
  intros Hf Hk. eapply safe_bind; [apply safe_client|]. intros b.
  eapply safe_bind; [apply safe_client|]. intros n.
  eapply safe_bind; [apply (safe_lift t _ _ (λ _, True))|intros a; by apply safe_any].
  intros c (_ & -> & Ha). destruct (Hf _ n Ha) as (a & E). by exists a.
Qed.

Lemma safe_getNextPacketId t Pre : safe t Pre getNextPacketId (λ _, any).
Proof.
  unfold getNextPacketId. eapply safe_bind; [apply safe_client|]. intros n. cbv zeta.
  eapply safe_bind; [by apply safe_upd_any|]. intros []. by apply safe_mret.
Qed.

Lemma connect_serializer o : wf_options o → serializer (λ b n, MQTTSerialize_connect b n o).
Proof.
  intros Ho b n Hn. exists (connect_packet o). by apply writes_estimate, MQTTSerialize_connect_ok.
Qed.

Lemma subscribe_serializer id f qos :
  Forall is_byte f → Z.of_nat (length f) < 65536 →
  serializer (λ b n, MQTTSerialize_subscribe b n 0 (u16 id) 1 [cstr f] [qos]).
Proof.
  intros Hb Hl b n Hn. eexists.
  refine (writes_estimate _ _ _ _ (MQTTSerialize_subscribe_ok b n 0 (u16 id) [cstr f] [qos] _ _ _ _ Hn)).
  - done.
  - constructor; [by apply cstr_wf|constructor].
  - apply u16_range.
  - change (zip (bytes_of [cstr f]) [qos]) with [(f, qos)].
    unfold subscribe_payload, sub_entry. cbn [map concat fst snd]. len.
Qed.

Lemma unsubscribe_serializer id f :
  Forall is_byte f → Z.of_nat (length f) < 65536 →
  serializer (λ b n, MQTTSerialize_unsubscribe b n 0 (u16 id) 1 [cstr f]).
Proof.
  intros Hb Hl b n Hn. eexists.
  refine (writes_estimate _ _ _ _ (MQTTSerialize_unsubscribe_ok b n 0 (u16 id) [cstr f] _ _ _ Hn)).
  - constructor; [by apply cstr_wf|constructor].
  - apply u16_range.
  - change (bytes_of [cstr f]) with [f]. unfold unsubscribe_payload. cbn [map concat]. len.
Qed.

Lemma publish_serializer qos retained id f payload :
  Forall is_byte f → Z.of_nat (length f) < 65536 → Forall is_byte payload → is_u16 id →
  Z.of_nat (length (publish_body qos id f payload)) < 268435456 →
  serializer (λ b n, MQTTSerialize_publish b n 0 qos retained id (cstr f) payload
    (s32 (Z.of_nat (length payload)))).
Proof.
  intros Hb Hl Hp Hid Hn b n Hbn. rewrite length_publish_body in Hn.
  rewrite s32_id by (ints; lia). eexists.
  refine (writes_estimate _ _ _ _ (MQTTSerialize_publish_ok b n 0 qos retained id (cstr f) payload
    _ Hp Hid _ Hbn)); [by apply cstr_wf|].
  rewrite length_publish_body. change (MQTTString_bytes (cstr f)) with f. lia.
Qed.

(** A computation on no timer yet. *)
Definition runs {A} (m : M state A) (φ : A → Prop) : Prop := ∀ pkts c w, ready pkts c w →
  ∃ a c' w' pkts', m (c, w) = Ret (a, (c', w')) ∧ φ a ∧ pkts' `suffix_of` pkts ∧
    ready pkts' c' w'.

Lemma runs_countdown {A} ms (k : timer → M state A) φ :
  limit_ok ms → (span ms < fuel)%nat → (∀ t, safe t any (k t) (λ a _, φ a)) →
  runs (t ← plat (countdown_ms ms); k t) φ.
Proof.
  intros Hms Hf Hk pkts c w Hg. destruct (countdown_ms_law ms w) as (t & w1 & E & Hm & _).
  rewrite (run_plat _ _ _ _ _ _ E).
  assert (ready pkts c w1) as Hg1 by (unfold ready; rewrite (moves_quiet _ _ _ _ Hm); apply Hg).
  pose proof (countdown_ms_ttl _ _ _ _ E).
  destruct (Hk t pkts c w1 Hg1) as (a & c' & w' & pkts' & E' & _ & Hs & Hg' & Hφ);
    [by eapply countdown_ms_patient|lia|done|].
  by exists a, c', w', pkts'.
Qed.

Lemma runs_command {A} (k : timer → M state A) Post :
  (∀ t, safe t any (k t) Post) →
  runs (to ← client command_timeout_ms; t ← plat (countdown_ms to); k t) (λ _, True).
Proof.
  intros Hk pkts c w Hg. pose proof Hg as (_ & _ & _ & Hlim & Hsp & _).
  mstep. apply (runs_countdown (command_timeout_ms c) k (λ _, True)); [done..| |done].
  intros t. by eapply safe_weaken.
Qed.

Lemma runs_MQTTYield ms :
  limit_ok (u32 ms) → (span (u32 ms) < fuel)%nat → runs (MQTTYield fuel junk ms) result.
Proof. intros Hl Hs. apply runs_countdown; [done..|]. intros t. apply safe_MQTTYield_loop. Qed.

Lemma runs_MQTTConnect o :
  wf_options (default MQTTPacket_connectData_initializer o) → runs (MQTTConnect fuel junk o) (λ _, True).
Proof.
  intros Ho. unfold MQTTConnect. apply (runs_command _ (λ _, any)). intros t.
  eapply safe_bind; [apply safe_client|]. intros k. apply safe_any. case_decide; [by apply safe_mret|].
  cbv zeta. eapply safe_bind; [by apply safe_upd_any|]. intros [].
  eapply safe_bind; [apply safe_countdown|]. intros pt.
  eapply safe_bind; [by apply safe_upd_any|]. intros [].
  eapply safe_bind; [by apply safe_serialize, connect_serializer|]. intros len.
  eapply safe_bind with (Mid := λ _, any).
  - apply safe_send; [by apply safe_mret|]. intros rc _. case_decide; [by apply safe_mret|].
    apply safe_wait; [decided| |by apply safe_mret].
    apply safe_deserialize; [|intros [[r sp] code]; case_decide; by apply safe_mret].
    intros b n [?|(h & body & tail & -> & _ & (Hn & _) & _)]; [done|].
    by apply MQTTDeserialize_connack_total.
  - intros rc. eapply safe_bind with (Mid := λ _, any); [|intros []; by apply safe_mret].
    case_decide; [by apply safe_upd_any|by apply safe_mret].
Qed.

(** What [waitfor] found is taken for an acknowledgement. *)
Lemma arrived_ack_total type b n :
  arrived type b → type ≠ FAILURE → ∃ x, MQTTDeserialize_ack ack_junk b n = Ret x.
Proof. intros Ha Ht. destruct (arrived_ack type b n Ha Ht) as (x & E & _). by exists x. Qed.

Lemma safe_publish_wait t type rc :
  awaited type → type ≠ FAILURE → safe t any (publish_wait fuel junk type rc t) (λ _, any).
Proof.
  intros Hty Hf. unfold publish_wait. apply safe_wait; [done| |by apply safe_mret].
  apply safe_deserialize; [|intros [r x]; by apply safe_mret].
  intros b n Ha. by eapply arrived_ack_total.
Qed.

Lemma runs_MQTTPublish topic (m : MQTTMessage) :
  Forall is_byte topic → Z.of_nat (length topic) < 65536 → Forall is_byte (msg_payload m) →
  msg_payloadlen m = Z.of_nat (length (msg_payload m)) → is_u16 (msg_id m) →
  Z.of_nat (length (publish_body (msg_qos m) 0 topic (msg_payload m))) < 268435456 →
  runs (MQTTPublish fuel junk topic m) (λ _, True).
Proof.
  intros Ht Htl Hp Hpl Hid Hn. unfold MQTTPublish. apply (runs_command _ (λ _, any)). intros t.
  eapply safe_bind; [apply safe_client|]. intros k. apply safe_any. case_decide; [by apply safe_mret|].
  eapply safe_bind with (Mid := λ m' _, is_u16 (msg_id m') ∧ m' = set_msg_id (msg_id m') m).
  { case_decide.
    - eapply safe_bind; [apply safe_getNextPacketId|]. intros id. apply safe_mret.
      intros c _. split; [apply u16_range|done].
    - apply safe_mret. intros c _. split; [done|by destruct m]. }
  intros m'. eapply safe_weaken with (Pre := λ c, (is_u16 (msg_id m') ∧ m' = set_msg_id (msg_id m') m) ∧ any c);
    [|done|exact (λ _ _ H, H)].
  apply safe_pure. intros [Hid' ->]. revert Hid'. cbn [msg_id set_msg_id]. generalize (msg_id m').
  intros id Hid'. cbn [msg_qos msg_retained msg_id msg_payload msg_payloadlen set_msg_id].
  assert (serializer (λ b n, MQTTSerialize_publish b n 0 (msg_qos m) (msg_retained m) id
    (cstr topic) (msg_payload m) (s32 (msg_payloadlen m)))) as Hser.
  { rewrite Hpl. apply publish_serializer; [assumption..|].
    rewrite length_publish_body, length_opt_id in *. lia. }
  eapply safe_bind; [exact (safe_serialize t _ any Hser)|].
  intros len. eapply safe_bind with (Mid := λ _, any); [|intros rc; by apply safe_mret].
  apply safe_send; [by apply safe_mret|]. intros rc _. case_decide; [by apply safe_mret|].
  case_decide; [apply safe_publish_wait; decided|].
  case_decide; [apply safe_publish_wait; decided|by apply safe_mret].
Qed.

(** A topic filter as a C string. *)
Definition wf_topic (f : list Z) : Prop :=
  Forall is_byte f ∧ Forall (λ ch : Z, ch ≠ 0) f ∧ Z.of_nat (length f) < 65536.

Lemma register_wf f g hs hs' :
  wf_topic f → wf_handlers hs → register f g hs = Some hs' → wf_handlers hs'.
Proof.
  intros (_ & Hf & Hl) Hhs. revert hs'. unfold wf_handlers in *.
  induction Hhs as [|h hs Hh Hhs IH]; intros hs' E; [done|]. cbn in E.
  destruct (topicFilter h) as [f0|] eqn:Ef.
  - apply fmap_Some in E as (hs1 & E & ->). constructor; [by rewrite Ef|by apply IH].
  - injection E as <-. constructor; [|done]. cbn. split; [done|ints; lia].
Qed.

(** A filter and its handler enter the table. *)
Lemma safe_register t f g rc :
  wf_topic f →
  safe t any (hs ← client messageHandlers;
              match register f g hs with
              | Some hs => upd (set_messageHandlers hs);; mret 0
              | None => mret rc
              end) (λ _, any).
Proof.
  intros Hf pkts c w Hg Hp Ht _. mstep. pose proof Hg as (Hb & Hmax & Hhs & Hr).
  destruct (register f g (messageHandlers c)) as [hs|] eqn:E.
  - exists 0, (set_messageHandlers hs c), w, pkts. split; [done|]. split; [apply later_refl|].
    split; [done|]. split; [|done].
    exact (conj Hb (conj Hmax (conj (register_wf f g _ _ Hf Hhs E) Hr))).
  - exists rc, c, w, pkts. split; [done|]. split; [apply later_refl|]. done.
Qed.

Lemma runs_MQTTSubscribe f qos g :
  wf_topic f → runs (MQTTSubscribe fuel junk char_signed f qos g) (λ _, True).
Proof.
  intros Hf. pose proof Hf as (Hb & _ & Hl). unfold MQTTSubscribe.
  apply (runs_command _ (λ _, any)). intros t.
  eapply safe_bind; [apply safe_client|]. intros k. apply safe_any. case_decide; [by apply safe_mret|].
  eapply safe_bind; [apply safe_getNextPacketId|]. intros id.
  eapply safe_bind; [by apply safe_serialize, subscribe_serializer|]. intros len.
  apply safe_send; [by apply safe_mret|]. intros rc _. case_decide; [by apply safe_mret|].
  apply safe_wait; [decided| |by apply safe_mret].
  eapply safe_bind; [apply safe_client|]. intros b.
  eapply safe_bind; [apply safe_client|]. intros n.
  eapply safe_bind with (Mid := λ a c, (a.1 = 1 ∧ ∃ q, array_get (suback_grantedQoSs a.2) 0 = Ret q) ∧ any c).
  { eapply safe_weaken; [apply (safe_lift t _ _
      (λ a, a.1 = 1 ∧ ∃ q, array_get (suback_grantedQoSs a.2) 0 = Ret q))|intros c Hc; exact Hc
      |intros a c [Ha _]; split; [exact Ha|done]].
    intros c (_ & -> & Ha). destruct Ha as [?|(h & body & tail & -> & Hh & (_ & _ & Hsub) & _)]; [done|].
    destruct (Hsub Hh) as (packetid & code & Hid & [= -> ->]).
    destruct (suback_one char_signed packetid code tail n Hid) as (o & E & Hq).
    exists (1, o). split; [exact E|]. split; [done|]. by eexists. }
  intros [r o]. apply safe_pure. intros [Hr (q & Hq)]. cbn [fst snd] in *. rewrite Hr.
  rewrite (decide_True (P := 1 = 1)) by done. rewrite Hq.
  eapply safe_bind; [apply (safe_lift t _ any (λ _, True)); intros; by eexists|]. intros q'.
  apply safe_any. case_decide; [by apply safe_register|by apply safe_mret].
Qed.

Lemma runs_MQTTUnsubscribe f : wf_topic f → runs (MQTTUnsubscribe fuel junk f) (λ _, True).
Proof.
  intros (Hb & _ & Hl). unfold MQTTUnsubscribe. apply (runs_command _ (λ _, any)). intros t.
  eapply safe_bind; [apply safe_client|]. intros k. apply safe_any. case_decide; [by apply safe_mret|].
  eapply safe_bind; [apply safe_getNextPacketId|]. intros id.
  eapply safe_bind; [by apply safe_serialize, unsubscribe_serializer|]. intros len.
  apply safe_send; [by apply safe_mret|]. intros rc _. case_decide; [by apply safe_mret|].
  apply safe_wait; [decided| |by apply safe_mret].
  apply safe_deserialize; [|intros [r x]; by apply safe_mret].
  intros b n [?|(h & body & tail & -> & _ & (Hn & _) & Hbs)]; [done|].
  apply MQTTDeserialize_unsuback_total; [done|done|by ints].
Qed.

(** [MQTTDisconnect] serializes before it sets its timer. *)
Lemma runs_MQTTDisconnect : runs (MQTTDisconnect fuel) (λ _, True).
Proof.
  intros pkts c w Hg. pose proof Hg as (Hb & Hmax & Hh & Hlim & Hsp & Hi & Hall).
  unfold wf_buf in Hb. set (b := zero_packet DISCONNECT ++ drop 2 (buf c)).
  assert (length b = length (buf c)) as Hlb.
  { unfold b. rewrite length_app, length_drop. change (length (zero_packet DISCONNECT)) with 2%nat. lia. }
  assert (serialize MQTTSerialize_disconnect (c, w) = Ret (2, (set_buf b c, w))) as E.
  { unfold serialize. mstep. unfold MQTTSerialize_disconnect.
    rewrite (run_lift _ _ _ (2, b)); [done|].
    rewrite MQTTSerialize_zero_ok by lia. by rewrite decide_False by lia. }
  unfold MQTTDisconnect. rewrite (bindM_Ret _ _ _ _ _ E). mstep.
  apply (runs_countdown (command_timeout_ms c) (λ t,
    rc ← (if decide (2 > 0) then sendPacket fuel 2 t else mret FAILURE);
    upd (set_isconnected 0);; mret rc) (λ _, True)); [done|done| |].
  - intros t. rewrite (decide_True (P := 2 > 0)) by lia. eapply safe_bind.
    + intros pkts1 c1 w1 Hg1 Hp1 Ht1 _. apply safe_sendPacket; [done..|].
      pose proof Hg1 as (Hb1 & _). unfold wf_buf, sendable in *. ints. lia.
    + intros rc. apply safe_any. eapply safe_bind; [by apply safe_upd_any|]. intros []. by apply safe_mret.
  - unfold ready, wf_buf. cbn [buf buf_size set_buf messageHandlers command_timeout_ms readbuf].
    rewrite Hlb. done.
Qed.

(** [m] returns from [c] and [w], and leaves everything in order for the next. *)
Definition returns pkts c w {A} (m : M state A) (φ : A → Prop) : Prop :=
  ∃ a c' w' pkts', m (c, w) = Ret (a, (c', w')) ∧ φ a ∧ pkts' `suffix_of` pkts ∧
    wf_client c' ∧ ready pkts' c' w'.

Lemma runs_returns {A} (m : M state A) φ pkts c w :
  runs m φ → keeps m → wf_client c → ready pkts c w → returns pkts c w m φ.
Proof.
  intros Hm Hk Hwf Hr. destruct (Hm pkts c w Hr) as (a & c' & w' & pkts' & E & Hφ & Hs & Hr').
  exists a, c', w', pkts'. do 3 (split; [done|]). split; [|done].
  exact (Hk (c, w) a (c', w') Hwf E).
Qed.

Lemma safe_returns {A} t (m : M state A) Post φ pkts c w :
  safe t any m Post → (∀ a c, Post a c → φ a) → keeps m → wf_client c → ready pkts c w →
  patient t w → (ttl t w < fuel)%nat → returns pkts c w m φ.
Proof.
  intros Hm Hpost Hk Hwf Hr Hp Ht.
  destruct (Hm pkts c w Hr Hp Ht I) as (a & c' & w' & pkts' & E & _ & Hs & Hr' & Hφ).
  exists a, c', w', pkts'. split; [done|]. split; [by eapply Hpost|]. split; [done|].
  split; [exact (Hk (c, w) a (c', w') Hwf E)|done].
Qed.
End safe.
