(* ===== verification/MqttLinux.v ===== *)
(** * The Linux platform of the MQTT client

    Models the timers and the reading and writing of
    [paho/src/MQTTClient-C/src/linux/MQTTLinux.c] over the system calls of
    [Kernel], and shows that they keep the contracts of [MqttClientProofs.v] and
    [MqttSafety.v] when the kernel keeps those of [KernelStream], [KernelPassing] and
    [KernelQuiet]. *)
From S2P Require Import Prelude MqttPacket MqttPublish MqttTopic MqttClient.
From S2P Require Import MqttClientProofs MqttSafety.

(** [struct timeval], and the macros of [<sys/time.h>]. *)
Record timeval := TV { tv_sec : Z; tv_usec : Z }.

Definition timersub (a b : timeval) : timeval :=
  let sec := tv_sec a - tv_sec b in
  let usec := tv_usec a - tv_usec b in
  if decide (usec < 0) then TV (sec - 1) (usec + 1000000) else TV sec usec.

Definition timeradd (a b : timeval) : timeval :=
  let sec := tv_sec a + tv_sec b in
  let usec := tv_usec a + tv_usec b in
  if decide (usec >= 1000000) then TV (sec + 1) (usec - 1000000) else TV sec usec.

Definition ENOTCONN : Z := 107.
Definition ECONNRESET : Z := 104.

(** The system calls, on the client's socket; [recv] gives its result, the
    bytes stored and [errno]. *)
Class Kernel (K : Type) := {
  gettimeofday : K → timeval * K;
  setsockopt_rcvtimeo : timeval → K → K;
  recv : Z → K → Z * list Z * Z * K;
  write : list Z → K → Z * K;
}.

Section linux.
Context {K : Type} `{Kernel K}.

Definition gettimeofdayM : M K timeval := λ k,
  let '(now, k) := gettimeofday k in Ret (now, k).

Definition linux_expired (end_time : timeval) : M K bool :=
  now ← gettimeofdayM;
  let res := timersub end_time now in
  mret (bool_decide (tv_sec res < 0 ∨ (tv_sec res = 0 ∧ tv_usec res ≤ 0))).

(** [timeout] is an [unsigned int]. *)
Definition linux_countdown_ms (timeout : Z) : M K timeval :=
  now ← gettimeofdayM;
  mret (timeradd now (TV (timeout / 1000) (timeout mod 1000 * 1000))).

Definition linux_countdown (timeout : Z) : M K timeval :=
  now ← gettimeofdayM;
  mret (timeradd now (TV timeout 0)).

Definition linux_left_ms (end_time : timeval) : M K Z :=
  now ← gettimeofdayM;
  let res := timersub end_time now in
  mret (if decide (tv_sec res < 0) then 0
        else s32 (tv_sec res * 1000 + Z.quot (tv_usec res) 1000)).

Definition linux_InitTimer : timeval := TV 0 0.

(** [bytes] and what has been stored so far. *)
Definition linux_read_body (len : Z) (s : Z * list Z) : M K (Z * list Z + Z * list Z) :=
  let '(bytes, got) := s in
  if decide (bytes < len) then λ k,
    let '(rc, bs, errno, k) := recv (len - bytes) k in
    if decide (rc = -1) then
      if decide (errno ≠ ENOTCONN ∧ errno ≠ ECONNRESET)
      then Ret (inr (-1, got), k)
      else Ret (inl (bytes, got), k)
    else
      bytes ← int (bytes + rc);
      Ret (inl (bytes, got ++ bs), k)
  else mret (inr (bytes, got)).

Definition linux_read (fuel : nat) (len timeout_ms : Z) : M K (Z * list Z) :=
  let interval := TV (Z.quot timeout_ms 1000) (Z.rem timeout_ms 1000 * 1000) in
  let interval :=
    if decide (tv_sec interval < 0 ∨ (tv_sec interval = 0 ∧ tv_usec interval ≤ 0))
    then TV 0 100 else interval in
  modify (setsockopt_rcvtimeo interval);;
  loopM fuel (linux_read_body len) (0, []).

(** [write] reads [len] bytes of the object [buffer] points into. *)
Definition linux_write (buffer : list Z) (len timeout_ms : Z) : M K Z :=
  usec ← lift (int (timeout_ms * 1000));
  modify (setsockopt_rcvtimeo (TV 0 usec));;
  if decide (0 ≤ len ≤ Z.of_nat (length buffer))
  then (λ k, let '(rc, k) := write (take (Z.to_nat len) buffer) k in Ret (rc, k)) : M K Z
  else lift Undef.
End linux.

(** The platform of [NewNetwork], with the handlers of the application.  A read
    that gets at least a byte per [recv] needs no more rounds than bytes. *)
#[export] Instance linux_platform {K} `{Kernel K} (h : Type)
    (call : h → PublishData → K → K) : Platform K := {
  timer := timeval;
  handler := h;
  InitTimer := linux_InitTimer;
  expired := linux_expired;
  left_ms := linux_left_ms;
  countdown_ms := linux_countdown_ms;
  countdown := linux_countdown;
  mqttread := λ n, linux_read (S (Z.to_nat n)) n;
  mqttwrite := linux_write;
  fp_call := call;
}.

(** ** Timers *)

Definition micros (t : timeval) : Z := tv_sec t * 1000000 + tv_usec t.
Definition normal (t : timeval) : Prop := 0 ≤ tv_usec t < 1000000.
#[export] Instance normal_dec t : Decision (normal t).
Proof. unfold normal. apply _. Defined.

Lemma timersub_micros a b : micros (timersub a b) = micros a - micros b.
Proof. unfold timersub, micros. case_decide; cbn; lia. Qed.

Lemma timersub_normal a b : normal a → normal b → normal (timersub a b).
Proof. unfold timersub, normal. case_decide; cbn; lia. Qed.

Lemma timeradd_micros a b : micros (timeradd a b) = micros a + micros b.
Proof. unfold timeradd, micros. case_decide; cbn; lia. Qed.

Lemma timeradd_normal a b : normal a → normal b → normal (timeradd a b).
Proof. unfold timeradd, normal. case_decide; cbn; lia. Qed.

Lemma expired_micros t : normal t →
  (tv_sec t < 0 ∨ (tv_sec t = 0 ∧ tv_usec t ≤ 0)) ↔ micros t ≤ 0.
Proof. unfold normal, micros. lia. Qed.

(** ** A kernel on which a healthy connection runs *)

(** [clock] in microseconds: a call takes at most [lag] of them, and reading
    the clock at least one.  [k_in] and [k_out] are the socket's streams. *)
Class KernelStream (K : Type) `{Kernel K} := {
  clock : K → Z;
  k_in : K → list Z;
  k_out : K → list Z;
  lag : Z;
  lag_pos : 0 < lag;
  k_in_bytes k : Forall is_byte (k_in k);
  gettimeofday_law k : ∃ tv k', gettimeofday k = (tv, k') ∧ normal tv ∧ micros tv = clock k ∧
    clock k < clock k' ≤ clock k + lag ∧ k_in k' = k_in k ∧ k_out k' = k_out k;
  setsockopt_law tv k : let k' := setsockopt_rcvtimeo tv k in
    clock k' = clock k ∧ k_in k' = k_in k ∧ k_out k' = k_out k;
  recv_law n k : 0 < n ≤ Z.of_nat (length (k_in k)) →
    ∃ e k', recv n k = (n, take (Z.to_nat n) (k_in k), e, k') ∧
      clock k ≤ clock k' ≤ clock k + lag ∧ k_in k' = drop (Z.to_nat n) (k_in k) ∧
      k_out k' = k_out k;
  write_law bs k : bs ≠ [] → ∃ k', write bs k = (Z.of_nat (length bs), k') ∧
    clock k ≤ clock k' ≤ clock k + lag ∧ k_in k' = k_in k ∧ k_out k' = k_out k ++ bs;
}.

Section stream.
Context {K : Type} `{KS : KernelStream K}.
Context (h : Type) (call : h → PublishData → K → K).
Context (Hcall : ∀ g msg k, let k' := call g msg k in
  clock k ≤ clock k' ≤ clock k + lag ∧ k_in k' = k_in k ∧ k_out k' = k_out k).

(** A timer's slack in calls; timers of more than [INT_MAX] microseconds have
    none, because [linux_write] cannot represent their time. *)
Definition short (t : timeval) (k : K) : Prop :=
  normal t ∧ micros t - clock k ≤ 2147483000.
#[local] Instance short_dec t k : Decision (short t k).
Proof. unfold short. apply _. Defined.
Definition linux_slack (t : timeval) (k : K) : nat :=
  if decide (short t k) then Z.to_nat ((micros t - clock k) / lag) else 0%nat.
Definition linux_grant (ms : Z) : nat :=
  if decide (0 ≤ ms ≤ 2147483) then Z.to_nat (ms * 1000 / lag - 1) else 0%nat.

Lemma slack_step t k k' :
  clock k ≤ clock k' ≤ clock k + lag → (linux_slack t k ≤ 1 + linux_slack t k')%nat.
Proof.
  intros Hc. unfold linux_slack. destruct (decide (short t k)) as [[Hn Hs]|]; [|lia].
  rewrite decide_True by (split; [done|lia]). pose proof lag_pos.
  assert ((micros t - clock k) / lag - 1 ≤ (micros t - clock k') / lag); [|lia].
  replace (_ / lag - 1) with ((micros t - clock k + (-1) * lag) / lag)
    by (rewrite Z.div_add by lia; lia).
  apply Z.div_le_mono; lia.
Qed.

Lemma slack_pos t k : (0 < linux_slack t k)%nat →
  normal t ∧ 0 < micros t - clock k ≤ 2147483000.
Proof.
  unfold linux_slack. pose proof lag_pos. case_decide as Hs; [|lia]. destruct Hs as [Hn Hs].
  intros Hp. split; [done|]. split; [|done]. destruct (decide (0 < micros t - clock k)); [done|].
  assert ((micros t - clock k) / lag ≤ 0); [|lia]. apply Z.div_le_upper_bound; lia.
Qed.

(** [now ← gettimeofday; ...]. *)
Lemma gettimeofdayM_ok {A} (f : timeval → A) k :
  ∃ tv k', (now ← gettimeofdayM; mret (f now)) k = Ret (f tv, k') ∧ normal tv ∧
    micros tv = clock k ∧ clock k < clock k' ≤ clock k + lag ∧
    k_in k' = k_in k ∧ k_out k' = k_out k.
Proof.
  destruct (gettimeofday_law k) as (tv & k' & E & Hl). exists tv, k'. split; [|done].
  rewrite bindM_run. unfold gettimeofdayM. by rewrite E.
Qed.

Lemma left_ms_range t tv :
  normal t → normal tv → 0 < micros t - micros tv ≤ 2147483000 →
  let res := timersub t tv in
  0 ≤ (if decide (tv_sec res < 0) then 0
       else s32 (tv_sec res * 1000 + Z.quot (tv_usec res) 1000)) ≤ 2147483.
Proof.
  intros Ht Hv Hr res. pose proof (timersub_micros t tv) as Hm.
  pose proof (timersub_normal t tv Ht Hv) as Hn. fold res in Hm, Hn.
  unfold micros in Hm at 1. unfold normal in Hn.
  rewrite decide_False by lia. rewrite s32_id; Z.to_euclidean_division_equations; ints; lia.
Qed.

(** A timer of [ms] milliseconds expires [1000 * ms] microseconds later, and
    until then tells the whole milliseconds left. *)
Lemma left_ms_micros t tv :
  normal t → normal tv → micros t - micros tv < 2147483648000 →
  let res := timersub t tv in
  (if decide (tv_sec res < 0) then 0
   else s32 (tv_sec res * 1000 + Z.quot (tv_usec res) 1000)) =
  Z.max 0 ((micros t - micros tv) / 1000).
Proof.
  intros Ht Hv Hr res. pose proof (timersub_micros t tv) as Hm.
  pose proof (timersub_normal t tv Ht Hv) as Hn. fold res in Hm, Hn. rewrite <- Hm in *.
  unfold micros, normal in *. case_decide as Hs.
  - rewrite Z.max_l; [done|]. assert ((tv_sec res * 1000000 + tv_usec res) / 1000 ≤ 0); [|lia].
    apply Z.div_le_upper_bound; lia.
  - rewrite s32_id; Z.to_euclidean_division_equations; ints; lia.
Qed.

Lemma linux_timer_ok ms k :
  0 ≤ ms →
  ∃ t k1, linux_countdown_ms ms k = Ret (t, k1) ∧ ∀ k2,
    let left := clock k + ms * 1000 - clock k2 in
    (∃ k3, linux_expired t k2 = Ret (bool_decide (left ≤ 0), k3)) ∧
    (left < 2147483648000 → ∃ k3, linux_left_ms t k2 = Ret (Z.max 0 (left / 1000), k3)).
Proof.
  intros Hms.
  destruct (gettimeofdayM_ok (λ now, timeradd now (TV (ms / 1000) (ms mod 1000 * 1000))) k)
    as (tv & k1 & E & Hn & Hm & _). pose proof (Z.mod_pos_bound ms 1000).
  assert (normal (TV (ms / 1000) (ms mod 1000 * 1000))) as Hnm by (unfold normal; cbn; lia).
  pose proof (timeradd_normal _ _ Hn Hnm) as Hnt. pose proof (timeradd_micros tv
    (TV (ms / 1000) (ms mod 1000 * 1000))) as Hmt.
  assert (micros (TV (ms / 1000) (ms mod 1000 * 1000)) = ms * 1000) as Hmm
    by (pose proof (Z.div_mod ms 1000); unfold micros; cbn; lia).
  rewrite Hmm, Hm in Hmt. exists (timeradd tv (TV (ms / 1000) (ms mod 1000 * 1000))), k1.
  split; [exact E|]. intros k2 left. set (t := timeradd _ _) in *. split.
  - destruct (gettimeofdayM_ok (λ now, let res := timersub t now in
      bool_decide (tv_sec res < 0 ∨ (tv_sec res = 0 ∧ tv_usec res ≤ 0))) k2)
      as (tv2 & k3 & E2 & Hn2 & Hm2 & _).
    exists k3. etransitivity; [exact E2|]. do 2 f_equal. apply bool_decide_ext.
    rewrite expired_micros by by apply timersub_normal. rewrite timersub_micros. unfold left. lia.
  - intros Hl. destruct (gettimeofdayM_ok (λ now, let res := timersub t now in
      if decide (tv_sec res < 0) then 0
      else s32 (tv_sec res * 1000 + Z.quot (tv_usec res) 1000)) k2)
      as (tv2 & k3 & E2 & Hn2 & Hm2 & _).
    exists k3. etransitivity; [exact E2|]. cbv zeta.
    rewrite left_ms_micros by (done || (unfold left in *; lia)). by rewrite Hmt, Hm2.
Qed.

Lemma linux_read_ok fuel n ms k :
  (Z.to_nat n < fuel)%nat → 0 ≤ n ≤ Z.of_nat (length (k_in k)) → n ≤ INT_MAX →
  ∃ k', linux_read fuel n ms k = Ret ((n, take (Z.to_nat n) (k_in k)), k') ∧
    clock k ≤ clock k' ≤ clock k + lag ∧ k_in k' = drop (Z.to_nat n) (k_in k) ∧
    k_out k' = k_out k.
Proof.
  intros Hfuel Hn Hmax. unfold linux_read. set (tv := if decide _ then _ else _).
  pose proof (setsockopt_law tv k) as (Hc & Hi & Ho). cbv zeta in *.
  rewrite (bindM_Ret _ _ _ tt (setsockopt_rcvtimeo tv k)) by done.
  set (k1 := setsockopt_rcvtimeo tv k) in *. pose proof lag_pos.
  destruct fuel as [|f]; [lia|]. destruct (decide (n = 0)) as [->|].
  - exists k1. split; [done|]. split; [lia|]. by rewrite drop_0.
  - destruct f as [|f]; [lia|]. destruct (recv_law n k1) as (e & k2 & E & Hc2 & Hi2 & Ho2); [rewrite Hi; lia|].
    exists k2. rewrite <- Hi. split; [|rewrite <- Hc, <- Ho; done].
    unfold loopM. rewrite loop_S. cbn [linux_read_body]. rewrite decide_True by lia.
    rewrite Z.sub_0_r, E, decide_False by lia. int_steps. rewrite loop_S. cbn [linux_read_body].
    by rewrite decide_False by lia.
Qed.

Lemma expired_linux_law t k :
  ∃ b k', linux_expired t k = Ret (b, k') ∧ clock k ≤ clock k' ≤ clock k + lag ∧
    k_in k' = k_in k ∧ k_out k' = k_out k ∧ ((0 < linux_slack t k)%nat → b = false).
Proof.
  destruct (gettimeofdayM_ok (λ now, let res := timersub t now in
    bool_decide (tv_sec res < 0 ∨ (tv_sec res = 0 ∧ tv_usec res ≤ 0))) k)
    as (tv & k' & E & Hn & Hm & Hc & Hi & Ho).
  eexists _, k'. split; [exact E|]. split; [lia|]. split; [done|]. split; [done|].
  intros Hs. apply slack_pos in Hs as [Hnt Hp]. apply bool_decide_eq_false_2.
  rewrite expired_micros by by apply timersub_normal. rewrite timersub_micros. lia.
Qed.

Lemma left_ms_linux_law t k :
  ∃ ms k', linux_left_ms t k = Ret (ms, k') ∧ clock k ≤ clock k' ≤ clock k + lag ∧
    k_in k' = k_in k ∧ k_out k' = k_out k ∧
    ((0 < linux_slack t k)%nat → 0 ≤ ms ≤ 2147483).
Proof.
  destruct (gettimeofdayM_ok (λ now, let res := timersub t now in
    if decide (tv_sec res < 0) then 0
    else s32 (tv_sec res * 1000 + Z.quot (tv_usec res) 1000)) k)
    as (tv & k' & E & Hn & Hm & Hc & Hi & Ho).
  eexists _, k'. split; [exact E|]. split; [lia|]. split; [done|]. split; [done|].
  intros Hs. apply slack_pos in Hs as [Hnt Hp]. apply left_ms_range; [done..|lia].
Qed.

Lemma countdown_ms_linux_law ms k :
  ∃ t k', linux_countdown_ms ms k = Ret (t, k') ∧ clock k ≤ clock k' ≤ clock k + lag ∧
    k_in k' = k_in k ∧ k_out k' = k_out k ∧ (linux_grant ms ≤ linux_slack t k')%nat.
Proof.
  destruct (gettimeofdayM_ok (λ now, timeradd now (TV (ms / 1000) (ms mod 1000 * 1000))) k)
    as (tv & k' & E & Hn & Hm & Hc & Hi & Ho).
  eexists _, k'. split; [exact E|]. split; [lia|]. split; [done|]. split; [done|].
  unfold linux_grant. destruct (decide (0 ≤ ms ≤ 2147483)); [|lia]. pose proof lag_pos.
  pose proof (Z.mod_pos_bound ms 1000). pose proof (Z.div_mod ms 1000).
  assert (micros (TV (ms / 1000) (ms mod 1000 * 1000)) = ms * 1000) as Hms
    by (unfold micros; cbn; lia).
  assert (normal (TV (ms / 1000) (ms mod 1000 * 1000))) as Hnm by (unfold normal; cbn; lia).
  unfold linux_slack. rewrite decide_True.
  2: { split; [by apply timeradd_normal|]. rewrite timeradd_micros. lia. }
  rewrite timeradd_micros, Hms, Hm.
  assert (ms * 1000 / lag - 1 ≤ (clock k + ms * 1000 - clock k') / lag); [|lia].
  replace (_ / lag - 1) with ((ms * 1000 + (-1) * lag) / lag) by (rewrite Z.div_add by lia; lia).
  apply Z.div_le_mono; lia.
Qed.

Lemma linux_write_ok bs n ms k :
  0 < n ≤ Z.of_nat (length bs) → 0 ≤ ms ≤ 2147483 →
  ∃ k', linux_write bs n ms k = Ret (n, k') ∧ clock k ≤ clock k' ≤ clock k + lag ∧
    k_in k' = k_in k ∧ k_out k' = k_out k ++ take (Z.to_nat n) bs.
Proof.
  intros Hn Hms. unfold linux_write.
  pose proof (setsockopt_law (TV 0 (ms * 1000)) k) as (Hc & Hi & Ho). cbv zeta in *.
  rewrite (bindM_Ret _ _ _ (ms * 1000) k) by (unfold lift; by rewrite int_ok by (ints; lia)).
  rewrite (bindM_Ret _ _ _ tt (setsockopt_rcvtimeo (TV 0 (ms * 1000)) k)) by done.
  rewrite decide_True by lia.
  destruct (write_law (take (Z.to_nat n) bs) (setsockopt_rcvtimeo (TV 0 (ms * 1000)) k))
    as (k' & E & Hc' & Hi' & Ho').
  { intros E. apply (f_equal length) in E. rewrite length_take in E. cbn in E. lia. }
  rewrite E. exists k'. rewrite Hc in Hc'. rewrite Hi', Ho', Hi, Ho, length_take.
  split; [|done]. do 2 f_equal. lia.
Qed.

(** The contract of the client's platform, kept. *)
#[export] Program Instance linux_stream : Stream K (P := linux_platform h call) := {
  incoming := k_in;
  outgoing := k_out;
  slack := linux_slack;
  grant := linux_grant;
  timeout_ok := λ ms, 0 ≤ ms ≤ 2147483;
}.
Next Obligation. apply k_in_bytes. Qed.
Next Obligation.
  intros t k. destruct (expired_linux_law t k) as (b & k' & E & Hc & Hi & Ho & Hb).
  exists b, k'. split; [exact E|]. split; [|done]. split; [done|].
  split; [by rewrite app_nil_r|]. intros. by apply slack_step.
Qed.
Next Obligation.
  intros t k. destruct (left_ms_linux_law t k) as (b & k' & E & Hc & Hi & Ho & Hb).
  exists b, k'. split; [exact E|]. split; [|done]. split; [done|].
  split; [by rewrite app_nil_r|]. intros. by apply slack_step.
Qed.
Next Obligation.
  intros ms k. destruct (countdown_ms_linux_law ms k) as (t & k' & E & Hc & Hi & Ho & Hb).
  exists t, k'. split; [exact E|]. split; [|done]. split; [done|].
  split; [by rewrite app_nil_r|]. intros. by apply slack_step.
Qed.
Next Obligation.
  intros s k. destruct (gettimeofdayM_ok (λ now, timeradd now (TV s 0)) k)
    as (tv & k' & E & Hn & Hm & Hc & Hi & Ho).
  eexists _, k'. split; [exact E|]. split; [done|].
  split; [by rewrite app_nil_r|]. intros. apply slack_step. lia.
Qed.
Next Obligation.
  intros n ms k Hn Hmax. destruct (linux_read_ok (S (Z.to_nat n)) n ms k ltac:(lia) Hn Hmax) as (k' & E & Hc & Hi & Ho).
  exists k'. split; [exact E|]. split; [by rewrite Hi, take_drop|].
  split; [by rewrite app_nil_r|]. intros. by apply slack_step.
Qed.
Next Obligation.
  intros bs n ms k Hn Hms. destruct (linux_write_ok bs n ms k Hn Hms) as (k' & E & Hc & Hi & Ho).
  exists k'. split; [exact E|]. split; [done|]. split; [done|]. intros. by apply slack_step.
Qed.
Next Obligation.
  intros g msg k. destruct (Hcall g msg k) as (Hc & Hi & Ho).
  split; [done|]. split; [by rewrite app_nil_r|]. intros. by apply slack_step.
Qed.
End stream.

(** ** A kernel on which time passes *)

(** The clock moves with every look at it, and never back. *)
Class KernelPassing (K : Type) `{Kernel K} := {
  p_clock : K → Z;
  p_gettimeofday k tv k' : gettimeofday k = (tv, k') →
    normal tv ∧ micros tv = p_clock k ∧ p_clock k < p_clock k';
  p_setsockopt tv k : p_clock k ≤ p_clock (setsockopt_rcvtimeo tv k);
  p_write bs k rc k' : write bs k = (rc, k') → p_clock k ≤ p_clock k';
  p_recv n k rc bs e k' : recv n k = (rc, bs, e, k') → p_clock k ≤ p_clock k';
}.

Section passing.
Context {K : Type} `{KP : KernelPassing K}.
Context (h : Type) (call : h → PublishData → K → K).
Context (Hcall : ∀ g msg k, p_clock k ≤ p_clock (call g msg k)).

(** An unexpired timer's second is not over. *)
Definition linux_ttl (t : timeval) (k : K) : nat :=
  Z.to_nat ((tv_sec t + 1) * 1000000 - p_clock k).
Definition linux_span (ms : Z) : nat := Z.to_nat ((ms / 1000 + 2) * 1000000).

Definition clock_forward {A} (m : M K A) : Prop :=
  ∀ k a k', m k = Ret (a, k') → p_clock k ≤ p_clock k'.

Lemma forward_ttl {A} (m : M K A) : clock_forward m →
  ∀ k a k', m k = Ret (a, k') → ∀ t, (linux_ttl t k' ≤ linux_ttl t k)%nat.
Proof. intros Hm k a k' E t. specialize (Hm k a k' E). unfold linux_ttl. lia. Qed.

Lemma clock_read {A} (f : timeval → A) k :
  ∃ tv k', (now ← gettimeofdayM; mret (f now)) k = Ret (f tv, k') ∧ normal tv ∧
    micros tv = p_clock k ∧ p_clock k < p_clock k'.
Proof.
  destruct (gettimeofday k) as [tv k'] eqn:E. pose proof (p_gettimeofday _ _ _ E).
  exists tv, k'. split; [|done]. rewrite bindM_run. unfold gettimeofdayM. by rewrite E.
Qed.

Lemma forward_clock_read {A} (f : timeval → A) :
  clock_forward (now ← gettimeofdayM; mret (f now)).
Proof.
  intros k a k2 E. destruct (clock_read f k) as (tv & k' & E' & _ & _ & Hc).
  rewrite E' in E. injection E as <- <-. lia.
Qed.

Lemma forward_expired t : clock_forward (linux_expired t).
Proof. apply (forward_clock_read (λ now, let res := timersub t now in bool_decide _)). Qed.

Lemma forward_left_ms t : clock_forward (linux_left_ms t).
Proof. apply (forward_clock_read (λ now, let res := timersub t now in if decide _ then _ else _)). Qed.

Lemma forward_countdown s : clock_forward (linux_countdown s).
Proof. apply (forward_clock_read (λ now, timeradd now _)). Qed.

Lemma forward_countdown_ms ms : clock_forward (linux_countdown_ms ms).
Proof. apply (forward_clock_read (λ now, timeradd now _)). Qed.

Lemma forward_write bs n ms : clock_forward (linux_write bs n ms).
Proof.
  intros k r k' E. unfold linux_write, lift, modify in E.
  apply bindM_Ret_inv in E as (u & k1 & E1 & E). apply bind_Ret_inv in E1 as (u' & _ & [= -> ->]).
  apply bindM_Ret_inv in E as ([] & k2 & [= <-] & E). case_decide; [|done].
  destruct (write _ _) as [rc k3] eqn:Ew. injection E as <- <-.
  apply p_write in Ew. pose proof (p_setsockopt (TV 0 u) k1). lia.
Qed.

Lemma forward_read fuel n ms : clock_forward (linux_read fuel n ms).
Proof.
  intros k a k' E. unfold linux_read in E. apply bindM_Ret_inv in E as ([] & k1 & [= <-] & E).
  unfold loopM in E.
  eapply (loop_partial (λ s, p_clock k ≤ p_clock s.2) (λ r, p_clock k ≤ p_clock r.2)) in E;
    [done| |apply p_setsockopt].
  intros [[bytes got] k2] x Hb Ex. cbn in Hb.
  apply bind_Ret_inv in Ex as ([y k4] & Ex & [= <-]). unfold linux_read_body in Ex.
  assert (p_clock k ≤ p_clock k4); [|by destruct y].
  destruct (decide (bytes < n)); [|by injection Ex as _ <-].
  destruct (recv _ _) as [[[rc bs] e] k3] eqn:Er. apply p_recv in Er.
  repeat case_decide; inv_bind; simplify_eq; lia.
Qed.

(** The contract of passing time, kept. *)
#[export] Program Instance linux_passing : Passing K (P := linux_platform h call) := {
  ttl := linux_ttl;
  span := linux_span;
}.
Next Obligation. intros t. exact (forward_ttl _ (forward_expired t)). Qed.
Next Obligation.
  intros t k k' E. destruct (clock_read (λ now, let res := timersub t now in
    bool_decide (tv_sec res < 0 ∨ (tv_sec res = 0 ∧ tv_usec res ≤ 0))) k)
    as (tv & k2 & E2 & Hn & Hm & Hc).
  change (linux_expired t k = Ret (false, k')) in E. unfold linux_expired in E.
  cbv zeta in *. rewrite E2 in E. injection E as Eb <-.
  apply bool_decide_eq_false in Eb. unfold linux_ttl, micros, normal in *.
  unfold timersub in Eb. case_decide; cbn in Eb; lia.
Qed.
Next Obligation. intros t. exact (forward_ttl _ (forward_left_ms t)). Qed.
Next Obligation. intros s. exact (forward_ttl _ (forward_countdown s)). Qed.
Next Obligation. intros ms. exact (forward_ttl _ (forward_countdown_ms ms)). Qed.
Next Obligation.
  intros ms k t k' E. destruct (clock_read
    (λ now, timeradd now (TV (ms / 1000) (ms mod 1000 * 1000))) k) as (tv & k2 & E2 & Hn & Hm & Hc).
  change (linux_countdown_ms ms k = Ret (t, k')) in E. unfold linux_countdown_ms in E.
  rewrite E2 in E. injection E as <- <-. unfold linux_ttl, linux_span, micros, normal in *.
  pose proof (Z.mod_pos_bound ms 1000). unfold timeradd. case_decide; cbn in *; lia.
Qed.
Next Obligation. intros n ms. exact (forward_ttl _ (forward_read _ n ms)). Qed.
Next Obligation. intros bs n ms. exact (forward_ttl _ (forward_write bs n ms)). Qed.
Next Obligation.
  intros g msg k t. pose proof (Hcall g msg k).
  change (linux_ttl t (call g msg k) ≤ linux_ttl t k)%nat. unfold linux_ttl. lia.
Qed.
End passing.

(** ** A kernel that says when there is nothing to read *)

Class KernelQuiet (K : Type) `{KS : KernelStream K} := {
  recv_quiet n k : k_in k = [] →
    ∃ bs e k', recv n k = (-1, bs, e, k') ∧ e ≠ ENOTCONN ∧ e ≠ ECONNRESET ∧ k_in k' = [];
}.

Section steady.
Context {K : Type} `{KS : KernelStream K} `{KP : !KernelPassing K} `{KQ : !KernelQuiet K}.
Context (h : Type) (call : h → PublishData → K → K).
Context (Hcall : ∀ g msg k, let k' := call g msg k in
  clock k ≤ clock k' ≤ clock k + lag ∧ k_in k' = k_in k ∧ k_out k' = k_out k).
Context (Hp : ∀ g msg k, p_clock k ≤ p_clock (call g msg k)).

(** What a timer has left is a number of microseconds [linux_write] can take. *)
Definition linux_patient (t : timeval) (k : K) : Prop :=
  normal t ∧ micros t - p_clock k ≤ 2147483000.

Lemma forward_patient {A} (m : M K A) : clock_forward m →
  ∀ k a k', m k = Ret (a, k') → ∀ t, linux_patient t k → linux_patient t k'.
Proof.
  intros Hm k a k' E t [Hn Hl]. specialize (Hm k a k' E). split; [done|lia].
Qed.

Lemma linux_read_quiet ms k : k_in k = [] →
  ∃ k', linux_read 2 1 ms k = Ret ((-1, []), k') ∧ k_in k' = [].
Proof.
  intros Hi. unfold linux_read. set (tv := if decide _ then _ else _).
  rewrite (bindM_Ret _ _ _ tt (setsockopt_rcvtimeo tv k)) by done.
  destruct (setsockopt_law tv k) as (_ & Hi1 & _). rewrite Hi in Hi1.
  destruct (recv_quiet (1 - 0) _ Hi1) as (bs & e & k' & E & He1 & He2 & Hk).
  exists k'. split; [|done]. apply loopM_inr. cbn [linux_read_body].
  rewrite decide_True by lia. rewrite E, decide_True by done. by rewrite decide_True by done.
Qed.

(** The contract on time limits and silence, kept. *)
#[export] Program Instance linux_steady :
    Steady K (P := linux_platform h call) (S := linux_stream h call Hcall) := {
  patient := linux_patient;
  limit_ok := λ ms, 0 ≤ ms ≤ 2147483;
}.
Next Obligation. cbv beta. lia. Qed.
Next Obligation. intros t. exact (forward_patient _ (forward_expired t)). Qed.
Next Obligation. intros t. exact (forward_patient _ (forward_left_ms t)). Qed.
Next Obligation. intros s. exact (forward_patient _ (forward_countdown s)). Qed.
Next Obligation. intros ms. exact (forward_patient _ (forward_countdown_ms ms)). Qed.
Next Obligation. intros n ms. exact (forward_patient _ (forward_read _ n ms)). Qed.
Next Obligation. intros bs n ms. exact (forward_patient _ (forward_write bs n ms)). Qed.
Next Obligation.
  intros g msg k t [Hn Hl]. pose proof (Hp g msg k). split; [done|].
  change (micros t - p_clock (call g msg k) ≤ 2147483000). lia.
Qed.
Next Obligation.
  intros t k ms k' [Hn Hl] E. destruct (clock_read (λ now, let res := timersub t now in
    if decide (tv_sec res < 0) then 0
    else s32 (tv_sec res * 1000 + Z.quot (tv_usec res) 1000)) k) as (tv & k2 & E2 & Hn2 & Hm & _).
  change (linux_left_ms t k = Ret (ms, k')) in E. unfold linux_left_ms in E.
  cbv zeta in *. rewrite E2 in E. injection E as <- _.
  change (0 ≤ (if decide (tv_sec (timersub t tv) < 0) then 0
    else s32 (tv_sec (timersub t tv) * 1000 + Z.quot (tv_usec (timersub t tv)) 1000)) ≤ 2147483).
  rewrite left_ms_micros by (done || lia).
  assert ((micros t - micros tv) / 1000 ≤ 2147483) by (apply Z.div_le_upper_bound; lia). lia.
Qed.
Next Obligation.
  intros ms k t k' Hms E. cbv beta in Hms. destruct (clock_read
    (λ now, timeradd now (TV (ms / 1000) (ms mod 1000 * 1000))) k) as (tv & k2 & E2 & Hn & Hm & Hc).
  change (linux_countdown_ms ms k = Ret (t, k')) in E. unfold linux_countdown_ms in E.
  rewrite E2 in E. injection E as <- <-. pose proof (Z.mod_pos_bound ms 1000) as Hb.
  pose proof (Z.div_mod ms 1000). split.
  - apply timeradd_normal; [done|]. unfold normal. cbn. lia.
  - rewrite timeradd_micros, Hm. unfold micros. cbn. lia.
Qed.
Next Obligation.
  intros ms k Hi. destruct (linux_read_quiet ms k Hi) as (k' & E & Hi'). by exists (-1), k'.
Qed.
End steady.

(** ** A closed connection *)

(** At the end of the stream [recv] returns 0, and [linux_read] goes on asking:
    no number of rounds is enough. *)
Lemma linux_read_closed {K} `{Kernel K} fuel n ms k :
  (∀ n k, ∃ e k', recv n k = (0, [], e, k')) → 0 < n →
  linux_read fuel n ms k = NoFuel.
Proof.
  intros Hr Hn. unfold linux_read. rewrite bindM_run. unfold modify. bret.
  generalize (setsockopt_rcvtimeo (if decide (tv_sec (TV (Z.quot ms 1000) (Z.rem ms 1000 * 1000)) < 0 ∨
    (tv_sec (TV (Z.quot ms 1000) (Z.rem ms 1000 * 1000)) = 0 ∧
     tv_usec (TV (Z.quot ms 1000) (Z.rem ms 1000 * 1000)) ≤ 0)) then TV 0 100
    else TV (Z.quot ms 1000) (Z.rem ms 1000 * 1000)) k). intros k1.
  unfold loopM. revert k1. induction fuel as [|f IH]; intros k1; [done|].
  rewrite loop_S. cbn [linux_read_body]. rewrite decide_True by lia.
  destruct (Hr (n - 0) k1) as (e & k2 & ->). rewrite decide_False by lia. int_steps. apply IH.
Qed.
