(* ===== verification/OvpnBuffer.v ===== *)
(** * OpenVPN: buffers, strings, buffer lists

    Models [openvpn/src/src/openvpn/buffer.c] with the inline functions of
    [buffer.h] and the helpers of [integer.h] it rests on.

    A [struct buffer] is a record; its operations are computations of [M
    buffer].  Offsets and lengths are [int]s whose sums stay below
    [BUF_SIZE_MAX] in a well-formed buffer ([wf_buf_sums]), so they are added
    as they are.  A C string is the memory from the pointer on. *)
From S2P Require Import Prelude.
#[local] Open Scope bool_scope.
#[local] Open Scope Z_scope.

(** ** [integer.h] *)

Definition max_int (x y : Z) : Z := if decide (x > y) then x else y.
Definition min_int (x y : Z) : Z := if decide (x < y) then x else y.

Definition modulo_add (x y mod_ : Z) : outcome Z :=
  sum ← int (x + y);
  ASSERT (0 ≤ x ∧ x < mod_ ∧ - mod_ ≤ y ∧ y ≤ mod_);;
  let sum := if decide (sum >= mod_) then sum - mod_ else sum in
  Ret (if decide (sum < 0) then sum + mod_ else sum).

Definition index_verify (index size : Z) : outcome Z :=
  if decide (index < 0 ∨ index >= size) then Abort else Ret index.

(** ** Buffers *)

Definition BUF_SIZE_MAX : Z := 1000000.

Record buffer := Buf { capacity : Z; offset : Z; len : Z; data : option (list Z) }.

Definition buf_defined (b : buffer) : bool := bool_decide (is_Some (data b)).
Definition buf_valid (b : buffer) : bool := bool_decide (is_Some (data b) ∧ 0 ≤ len b).

(** Pointers into the buffer are offsets from [data]. *)
Definition buf_bptr (b : buffer) : option Z := if buf_valid b then Some (offset b) else None.
Definition buf_len (b : buffer) : Z := if buf_valid b then len b else 0.
Definition buf_blast (b : buffer) : option Z :=
  if decide (0 < buf_len b) then (λ p, p + buf_len b - 1) <$> buf_bptr b else None.

(** An [int] passed as [size_t]: a negative one is huge. *)
Definition buf_size_valid (size : Z) : bool := bool_decide (0 ≤ size < BUF_SIZE_MAX).
Definition buf_size_valid_signed (size : Z) : bool :=
  bool_decide (- BUF_SIZE_MAX ≤ size < BUF_SIZE_MAX).

Definition buf_safe (b : buffer) (n : Z) : bool :=
  buf_valid b && buf_size_valid n && bool_decide (offset b + len b + n ≤ capacity b).
Definition buf_safe_bidir (b : buffer) (n : Z) : bool :=
  buf_valid b && buf_size_valid_signed n &&
  bool_decide (0 ≤ len b + n ∧ offset b + (len b + n) ≤ capacity b).
Definition buf_forward_capacity (b : buffer) : Z :=
  if buf_valid b then max_int (capacity b - (offset b + len b)) 0 else 0.
Definition buf_forward_capacity_total (b : buffer) : Z :=
  if buf_valid b then max_int (capacity b - offset b) 0 else 0.

Definition set_len (n : Z) (b : buffer) : buffer := Buf (capacity b) (offset b) n (data b).
Definition set_offset (n : Z) (b : buffer) : buffer := Buf (capacity b) n (len b) (data b).
Definition set_data (d : list Z) (b : buffer) : buffer :=
  Buf (capacity b) (offset b) (len b) (Some d).

(** The byte at an offset from [data], and bytes stored there. *)
Definition peek (p : Z) : M buffer Z := λ b,
  d ← of_option (data b);
  c ← (if decide (0 ≤ p) then load d (Z.to_nat p) else Undef);
  Ret (c, b).
Definition poke (p : Z) (bs : list Z) : M buffer unit := λ b,
  d ← of_option (data b);
  d ← (if decide (0 ≤ p) then fill (Z.to_nat p) bs d else Undef);
  Ret (tt, set_data d b).

(** [n] bytes from an offset, read by [memcpy]. *)
Definition peek_n (p n : Z) : M buffer (list Z) := λ b,
  d ← of_option (data b);
  if decide (0 ≤ p ∧ 0 ≤ n ∧ p + n ≤ Z.of_nat (length d))
  then Ret (slice (Z.to_nat p) (Z.to_nat n) d, b) else Undef.

Definition alloc_buf (size : Z) : outcome buffer :=
  if buf_size_valid size then Ret (Buf size 0 0 (Some (replicate (Z.to_nat size) 0))) else Abort.

Definition buf_init (off : Z) : M buffer bool := λ b,
  if decide (off < 0 ∨ off > capacity b ∨ data b = None) then Ret (false, b)
  else Ret (true, Buf (capacity b) off 0 (data b)).

Definition buf_inc_len (inc : Z) : M buffer bool := λ b,
  Ret (if buf_safe_bidir b inc then (true, set_len (len b + inc) b) else (false, b)).

Definition buf_prepend (size : Z) : M buffer (option Z) := λ b,
  Ret (if decide (buf_valid b = false ∨ size < 0 ∨ size > offset b) then (None, b)
       else let b := Buf (capacity b) (offset b - size) (len b + size) (data b) in
            (buf_bptr b, b)).

Definition buf_advance (size : Z) : M buffer bool := λ b,
  Ret (if decide (buf_valid b = false ∨ size < 0 ∨ len b < size) then (false, b)
       else (true, Buf (capacity b) (offset b + size) (len b - size) (data b))).

Definition buf_write_alloc (size : Z) : M buffer (option Z) := λ b,
  Ret (if buf_safe b size
       then ((λ p, p + len b) <$> buf_bptr b, set_len (len b + size) b)
       else (None, b)).

Definition buf_read_alloc (size : Z) : M buffer (option Z) := λ b,
  Ret (if decide (size < 0 ∨ len b < size) then (None, b)
       else (buf_bptr b, Buf (capacity b) (offset b + size) (len b - size) (data b))).

Definition buf_write (bs : list Z) : M buffer bool :=
  cp ← buf_write_alloc (Z.of_nat (length bs));
  match cp with
  | Some p => poke p bs;; mret true
  | None => mret false
  end.

Definition buf_write_prepend (bs : list Z) : M buffer bool :=
  cp ← buf_prepend (Z.of_nat (length bs));
  match cp with
  | Some p => poke p bs;; mret true
  | None => mret false
  end.

Definition buf_write_u8 (v : Z) : M buffer bool := buf_write [u8 v].
Definition buf_write_u16 (v : Z) : M buffer bool := buf_write (be16 v).
Definition buf_write_u32 (v : Z) : M buffer bool := buf_write (be32 v).

(** The bytes read, or [None] for the C [false]. *)
Definition buf_read (size : Z) : M buffer (option (list Z)) :=
  cp ← buf_read_alloc size;
  match cp with
  | Some p => bs ← peek_n p size; mret (Some bs)
  | None => mret None
  end.

Definition buf_read_u8 : M buffer Z := λ b,
  if decide (buf_len b < 1) then Ret (-1, b)
  else
    (c ← peek (offset b);
     buf_advance 1;;
     mret c) b.

Definition from_be (bs : list Z) : Z := foldl (λ a b, 256 * a + b) 0 bs.
Definition buf_read_u16 : M buffer Z :=
  bs ← buf_read 2;
  mret (match bs with Some bs => from_be bs | None => -1 end).
Definition buf_read_u32 : M buffer (option Z) :=
  bs ← buf_read 4;
  mret (from_be <$> bs).

(** ** [buffer.c]: whole buffers *)

Definition array_mult_safe (m1 m2 extra : Z) : outcome Z :=
  let limit := 4294967295 in
  let res := u64 (m1 * m2 + extra) in
  if decide (m1 > limit ∨ m2 > limit ∨ extra > limit ∨ res > limit) then Abort else Ret res.

Definition clone_buf (b : buffer) : outcome buffer :=
  '(bs, _) ← peek_n (offset b) (buf_len b) b;
  d ← fill (Z.to_nat (offset b)) bs (replicate (Z.to_nat (capacity b)) 0);
  Ret (Buf (capacity b) (offset b) (len b) (Some d)).

Definition buf_clear : M buffer unit := λ b,
  Ret (tt, Buf (capacity b) 0 0
             ((λ d, replicate (Z.to_nat (capacity b)) 0 ++ drop (Z.to_nat (capacity b)) d)
                <$> data b)).

Definition buf_assign (src : buffer) : M buffer bool :=
  ok ← buf_init (offset src);
  if ok : bool then
    '(bs, _) ← lift (peek_n (offset src) (buf_len src) src);
    buf_write bs
  else mret false.

(** The parent, and offset and size of the part in it; [None] is the null
    buffer. *)
Definition buf_sub (size : Z) (prepend : bool) : M buffer (option (Z * Z)) :=
  p ← (if prepend then buf_prepend size else buf_write_alloc size);
  mret ((λ p, (p, size)) <$> p).

(** [strlen] of the memory [d] from offset [p]: the distance to the NUL. *)
Fixpoint strlen_at (d : list Z) : outcome nat :=
  match d with
  | [] => Undef
  | c :: d => if decide (c = 0) then Ret O else n ← strlen_at d; Ret (S n)
  end.

(** [strncpynt (dest, src, maxlen)] for a C string [src]. *)
Definition strncpynt_bytes (src : list Z) (maxlen : nat) : list Z :=
  take (maxlen - 1) (src ++ replicate maxlen 0) ++ replicate (min maxlen 1) 0.

Definition buf_puts (str : list Z) : M buffer bool := λ b,
  let cap := buf_forward_capacity b in
  if decide (0 < cap) then
    let ptr := offset b + len b in
    (poke ptr (strncpynt_bytes str (Z.to_nat cap));;
     poke (capacity b - 1) [0];;
     d ← gets data;
     d ← lift (of_option d);
     n ← lift (strlen_at (drop (Z.to_nat ptr) d));
     modify (λ b, set_len (len b + Z.of_nat n) b);;
     mret true) b
  else Ret (false, b).

Definition buf_catrunc (str : list Z) : M buffer unit := λ b,
  if decide (buf_forward_capacity b ≤ 1) then
    let n := Z.of_nat (length str) + 1 in
    if decide (n < buf_forward_capacity_total b)
    then poke (capacity b - n) (strncpynt_bytes str (Z.to_nat n)) b
    else Ret (tt, b)
  else Ret (tt, b).

Definition to_one_line (c : Z) : Z := if decide (c = 10) then 124 else c.
Fixpoint convert_loop (n : nat) (cp : Z) : M buffer unit :=
  match n with
  | O => mret tt
  | S n => c ← peek cp; poke cp [to_one_line c];; convert_loop n (cp + 1)
  end.
Definition convert_to_one_line : M buffer unit := λ b,
  convert_loop (Z.to_nat (buf_len b)) (offset b) b.

Definition buf_rmtail (remove : Z) : M buffer unit := λ b,
  match buf_blast b with
  | Some p =>
      (c ← peek p;
       if decide (c = remove) then poke p [0];; modify (λ b, set_len (len b - 1) b)
       else mret tt) b
  | None => Ret (tt, b)
  end.

Definition buf_null_terminate : M buffer unit := λ b,
  done ← (match buf_blast b with
          | Some p => '(c, _) ← peek p b; Ret (bool_decide (c = 0))
          | None => Ret false
          end);
  if done : bool then Ret (tt, b)
  else
    ((if buf_safe b 1 then mret true else buf_inc_len (-1));;
     buf_write_u8 0;; mret tt) b.

(** ** Character classes *)

Definition between (lo hi c : Z) : bool := bool_decide (lo ≤ c ≤ hi).
Definition isdigit := between 48 57.
Definition isupper := between 65 90.
Definition islower := between 97 122.
Definition isalpha (c : Z) : bool := isupper c || islower c.
Definition isalnum (c : Z) : bool := isalpha c || isdigit c.
Definition isascii := between 0 127.
Definition iscntrl (c : Z) : bool := between 0 31 c || bool_decide (c = 127).
Definition isspace (c : Z) : bool := between 9 13 c || bool_decide (c = 32).
Definition ispunct (c : Z) : bool := between 33 126 c && negb (isalnum c).
Definition isxdigit (c : Z) : bool := isdigit c || between 65 70 c || between 97 102 c.

(** The tests of [char_class], by the bit of [flags] that asks for each: the
    functions of [<ctype.h>] in the C locale, then single characters. *)
Definition class_tests : list (Z * (Z → bool)) :=
  let eqc x c := bool_decide (c = x) in
  [ (1, eqc 0); (2, isalnum); (3, isalpha); (4, isascii); (5, iscntrl); (6, isdigit);
    (7, λ c, bool_decide (32 ≤ c ∧ c ≠ 127)); (8, ispunct); (9, isspace); (10, isxdigit);
    (11, λ c, eqc 32 c || eqc 9 c); (12, eqc 10); (13, eqc 13);
    (14, eqc 92); (15, eqc 95); (16, eqc 45); (17, eqc 46); (18, eqc 44); (19, eqc 58);
    (20, eqc 47); (21, eqc 39); (22, eqc 34); (23, eqc 96); (24, eqc 64); (25, eqc 61);
    (26, eqc 60); (27, eqc 62); (28, eqc 124); (29, eqc 63); (30, eqc 42) ].

Definition char_class (c flags : Z) : bool :=
  if decide (flags = 0) then false
  else if Z.testbit flags 0 then true
  else existsb (λ '(bit, test), Z.testbit flags bit && test c) class_tests.

Definition CC_NULL : Z := 2.
Definition CC_CR : Z := 8192.
Definition CC_NEWLINE : Z := 4096.
Definition CC_CRLF : Z := Z.lor CC_CR CC_NEWLINE.

Definition char_inc_exc (c inclusive exclusive : Z) : bool :=
  char_class c inclusive && negb (char_class c exclusive).

(** One round of [buf_chomp]'s loop. *)
Definition chomp_body (_ : unit) : M buffer (unit + unit) := λ b,
  match buf_blast b with
  | None => Ret (inr tt, b)
  | Some p =>
      (c ← peek p;
       if char_class c (Z.lor CC_CRLF CC_NULL) then
         ok ← buf_inc_len (-1);
         mret (if ok : bool then inl tt else inr tt)
       else mret (inr tt)) b
  end.
Definition buf_chomp : M buffer unit := λ b,
  (loopM (S (Z.to_nat (len b))) chomp_body tt;; buf_null_terminate) b.

(** ** [buffer.c]: C strings

    The memory [d] starts where the pointer points. *)

Fixpoint skip_leading_whitespace (str : list Z) : outcome (list Z) :=
  match str with
  | [] => Undef
  | c :: str' => if decide (c = 32 ∨ c = 9) then skip_leading_whitespace str' else Ret str
  end.

Definition string_null_terminate (str : list Z) (n cap : Z) : outcome (list Z) :=
  ASSERT (0 ≤ n ∧ n ≤ cap ∧ 0 < cap);;
  if decide (n < cap) then fill (Z.to_nat n) [0] str
  else if decide (n = cap) then fill (Z.to_nat (n - 1)) [0] str else Ret str.

(** One round of the loop; [inl] when a character was removed. *)
Definition rm_trailing_body (what_to_delete : list Z) (str : list Z) :
    outcome (list Z + list Z) :=
  n ← strlen_at str;
  match n with
  | O => Ret (inr str)
  | S m =>
      c ← load str m;
      if decide (c ∈ what_to_delete) then
        str ← fill m [0] str;
        Ret (inl str)
      else Ret (inr str)
  end.
Definition rm_trailing_chars (str what_to_delete : list Z) : outcome (list Z) :=
  loop (S (length str)) (rm_trailing_body what_to_delete) str.
Definition chomp (str : list Z) : outcome (list Z) := rm_trailing_chars str [13; 10].

Definition string_clear (str : list Z) : outcome (list Z) :=
  n ← strlen_at str;
  fill 0 (replicate n 0) str.

(** The pointers of an array, a null pointer last. *)
Fixpoint string_array_len {A} (array : list (option A)) : outcome Z :=
  match array with
  | [] => Undef
  | None :: _ => Ret 0
  | Some _ :: array => n ← string_array_len array; int (n + 1)
  end.

Fixpoint string_class (str : list Z) (inclusive exclusive : Z) : outcome bool :=
  match str with
  | [] => Undef
  | c :: str =>
      if decide (c = 0) then Ret true
      else if char_inc_exc c inclusive exclusive then string_class str inclusive exclusive
      else Ret false
  end.

(** One round of [string_mod]: [in] and [str] are offsets into the memory. *)
Definition string_mod_body (inclusive exclusive replace : Z) (s : nat * nat * bool * list Z) :
    outcome (nat * nat * bool * list Z + bool * list Z) :=
  let '(in_, str, ret, d) := s in
  c ← load d in_;
  if decide (c ≠ 0) then
    let '(c, ret) := if char_inc_exc c inclusive exclusive then (c, ret) else (replace, false) in
    if decide (c ≠ 0) then
      d ← fill str [c] d;
      Ret (inl (S in_, S str, ret, d))
    else Ret (inl (S in_, str, ret, d))
  else
    d ← fill str [0] d;
    Ret (inr (ret, d)).
Definition string_mod (d : list Z) (inclusive exclusive replace : Z) : outcome (bool * list Z) :=
  loop (S (length d)) (string_mod_body inclusive exclusive replace) (0%nat, 0%nat, true, d).

Fixpoint string_replace_leading (str : list Z) (match_ replace : Z) : outcome (list Z) :=
  ASSERT (match_ ≠ 0);;
  match str with
  | [] => Undef
  | c :: str' =>
      if decide (c = 0) then Ret str
      else if decide (c = match_) then
        d ← string_replace_leading str' match_ replace; Ret (replace :: d)
      else Ret str
  end.

(** ** [buffer.c]: comparing and parsing *)

(** [match] is a C string, given by its characters. *)
Definition buf_string_match_head_str (match_ : list Z) : M buffer bool := λ b,
  let size := Z.of_nat (length match_) in
  if decide (size < 0 ∨ size > len b) then Ret (false, b)
  else (bs ← peek_n (offset b) size; mret (bool_decide (bs = match_))) b.

Definition buf_string_compare_advance (match_ : list Z) : M buffer bool :=
  eq ← buf_string_match_head_str match_;
  if eq : bool then buf_advance (Z.of_nat (length match_));; mret true else mret false.

Definition substring_body (delim : Z) (i : Z) : M buffer (Z + Z) :=
  c ← buf_read_u8;
  mret (if decide (c >= 0) then if decide (c = delim) then inr (i + 1) else inl (i + 1)
        else inr (-1)).
(** The C function reads a copy of [b]. *)
Definition buf_substring_len (b : buffer) (delim : Z) : outcome Z :=
  '(n, _) ← loopM (S (Z.to_nat (buf_len b))) (substring_body delim) 0 b;
  Ret n.

(** One round of [buf_parse]: [n], [eol] and [line]. *)
Definition parse_body (delim size : Z) (s : Z * bool * list Z) :
    M buffer (Z * bool * list Z + bool * list Z) :=
  let '(n, eol, line) := s in
  c ← buf_read_u8;
  let eol := if decide (c < 0) then true else eol in
  let c := if decide (c ≤ 0 ∨ c = delim) then 0 else c in
  if decide (n >= size) then mret (inr (eol, line))
  else
    line ← lift (fill (Z.to_nat n) [c] line);
    mret (if decide (c ≠ 0) then inl (n + 1, eol, line) else inr (eol, line)).
Definition buf_parse (delim : Z) (line : list Z) (size : Z) : M buffer (bool * list Z) :=
  lift (ASSERT (0 < size));;
  '(eol, line) ← loopM (S (S (Z.to_nat size))) (parse_body delim size) (0, false, line);
  line ← lift (fill (Z.to_nat (size - 1)) [0] line);
  n ← lift (strlen_at line);
  mret (negb (eol && bool_decide (n = 0%nat)), line).

(** ** [struct buffer_list]

    The entries from [head] to [tail], and the fields [size] and [max_size]. *)
Record buffer_list := BL { bl_entries : list buffer; bl_size : Z; bl_max_size : Z }.

Definition buffer_list_new (max_size : Z) : buffer_list := BL [] 0 max_size.
Definition buffer_list_defined (ol : option buffer_list) : bool :=
  match ol with Some ol => bool_decide (bl_entries ol ≠ []) | None => false end.
Definition buffer_list_reset (ol : buffer_list) : buffer_list := BL [] 0 (bl_max_size ol).

(** An entry with the given bytes, of which [n] count. *)
Definition buffer_list_add (bs : list Z) (n : Z) (ol : buffer_list) : outcome buffer_list :=
  if decide (bl_max_size ol = 0 ∨ bl_size ol < bl_max_size ol) then
    b ← alloc_buf (Z.of_nat (length bs));
    d ← of_option (data b);
    d ← fill 0 bs d;
    Ret (BL (bl_entries ol ++ [Buf (capacity b) 0 n (Some d)]) (bl_size ol + 1) (bl_max_size ol))
  else Ret ol.
Definition buffer_list_push_data (bs : list Z) (ol : buffer_list) : outcome buffer_list :=
  buffer_list_add bs (s32 (Z.of_nat (length bs))) ol.
(** [str] is a C string; its NUL is stored and not counted. *)
Definition buffer_list_push (str : list Z) (ol : buffer_list) : outcome buffer_list :=
  buffer_list_add (str ++ [0]) (s32 (Z.of_nat (length str))) ol.

Definition buffer_list_peek (ol : option buffer_list) : option buffer :=
  match ol with Some ol => head (bl_entries ol) | None => None end.

(** The first loop of [buffer_list_aggregate]: how many entries, and their
    total size. *)
Fixpoint aggregate_count (es : list buffer) (size max : Z) : nat * Z :=
  match es with
  | e :: es =>
      if decide (size ≤ max) then
        let '(count, size) := aggregate_count es (size + buf_len e) max in (S count, size)
      else (0%nat, size)
  | [] => (0%nat, size)
  end.
(** The second: the contents of the entries copied into one. *)
Fixpoint aggregate_copy (es : list buffer) (f : buffer) : outcome buffer :=
  match es with
  | [] => Ret f
  | e :: es =>
      '(bs, _) ← peek_n (offset e) (buf_len e) e;
      '(_, f) ← buf_write bs f;
      aggregate_copy es f
  end.
Definition buffer_list_aggregate (max : Z) (bl : buffer_list) : outcome buffer_list :=
  let '(count, size) := aggregate_count (bl_entries bl) 0 max in
  if decide (2 ≤ count)%nat then
    f ← aggregate_copy (take count (bl_entries bl))
          (Buf size 0 0 (Some (replicate (Z.to_nat size) 0)));
    Ret (BL (f :: drop count (bl_entries bl)) (bl_size bl) (bl_max_size bl))
  else Ret bl.

Definition buffer_list_pop (ol : buffer_list) : buffer_list :=
  match bl_entries ol with
  | [] => ol
  | _ :: es => BL es (bl_size ol - 1) (bl_max_size ol)
  end.

Definition buffer_list_advance (n : Z) (ol : buffer_list) : outcome buffer_list :=
  match bl_entries ol with
  | [] => Ret ol
  | e :: es =>
      '(ok, e) ← buf_advance n e;
      ASSERT (ok = true);;
      let ol := BL (e :: es) (bl_size ol) (bl_max_size ol) in
      Ret (if decide (buf_len e = 0) then buffer_list_pop ol else ol)
  end.

(** ** Numbers on a circle *)

Lemma modulo_add_ok x y m :
  0 ≤ x < m → - m ≤ y ≤ m → m ≤ 65536 → modulo_add x y m = Ret ((x + y) mod m).
Proof.
  intros Hx Hy Hm. unfold modulo_add.
  rewrite int_ok by (ints; lia). bret. rewrite ASSERT_ok by lia. bret. f_equal.
  destruct (decide (x + y >= m)).
  - rewrite decide_False by lia. apply (Z.mod_unique_pos _ _ 1); lia.
  - destruct (decide (x + y < 0)).
    + apply (Z.mod_unique_pos _ _ (-1)); lia.
    + by rewrite Z.mod_small by lia.
Qed.

(** ** Well-formed buffers and their content *)

Definition wf_buf (b : buffer) : Prop :=
  match data b with
  | Some d => Z.of_nat (length d) = capacity b
  | None => False
  end ∧ 0 ≤ offset b ∧ 0 ≤ len b ∧ offset b + len b ≤ capacity b ∧ capacity b < BUF_SIZE_MAX.

Definition content (b : buffer) : list Z :=
  slice (Z.to_nat (offset b)) (Z.to_nat (len b)) (default [] (data b)).

(** No sum of offsets and lengths overflows an [int]. *)
Lemma wf_buf_sums b n :
  wf_buf b → - BUF_SIZE_MAX ≤ n < BUF_SIZE_MAX → INT_MIN ≤ offset b + len b + n ≤ INT_MAX.
Proof. unfold wf_buf, BUF_SIZE_MAX. ints. lia. Qed.

(** A well-formed buffer, by its parts. *)
Lemma wf_buf_inv b :
  wf_buf b → ∃ pre post,
    data b = Some (pre ++ content b ++ post) ∧ Z.of_nat (length pre) = offset b ∧
    Z.of_nat (length (content b)) = len b ∧
    capacity b = offset b + len b + Z.of_nat (length post).
Proof.
  intros (Hd & Ho & Hl & Hc & _). unfold content, slice.
  destruct (data b) as [d|]; [|done]. cbn [default from_option id].
  exists (take (Z.to_nat (offset b)) d),
    (drop (Z.to_nat (len b)) (drop (Z.to_nat (offset b)) d)).
  rewrite take_drop, take_drop. split; [done|].
  rewrite !length_drop, !length_take, length_drop. lia.
Qed.

(** The buffer with the given parts. *)
Definition mkbuf (pre c post : list Z) : buffer :=
  Buf (Z.of_nat (length pre + length c + length post)) (Z.of_nat (length pre))
    (Z.of_nat (length c)) (Some (pre ++ c ++ post)).

Lemma wf_buf_mk b :
  wf_buf b → ∃ pre post, b = mkbuf pre (content b) post ∧
    Z.of_nat (length pre + length (content b) + length post) < BUF_SIZE_MAX.
Proof.
  intros Hb. destruct (wf_buf_inv b Hb) as (pre & post & Hd & Ho & Hl & Hc).
  destruct Hb as (_ & _ & _ & _ & Hm). exists pre, post. split; [|lia].
  destruct b as [cp o l d]. cbn [data offset len capacity] in Hd, Ho, Hl, Hc.
  unfold mkbuf. rewrite <- Hd, !Nat2Z.inj_add, Ho, Hl. by f_equal.
Qed.

Lemma content_mk pre c post : content (mkbuf pre c post) = c.
Proof.
  unfold content, mkbuf, slice. cbn. rewrite !Nat2Z.id, drop_app_length, take_app_length. done.
Qed.

Lemma wf_mk pre c post :
  Z.of_nat (length pre + length c + length post) < BUF_SIZE_MAX → wf_buf (mkbuf pre c post).
Proof. intros. unfold wf_buf, mkbuf. cbn. rewrite !length_app. lia. Qed.

Lemma valid_mk pre c post : buf_valid (mkbuf pre c post) = true.
Proof. apply bool_decide_eq_true_2. cbn. split; [by eexists|lia]. Qed.

Lemma buf_len_mk pre c post : buf_len (mkbuf pre c post) = Z.of_nat (length c).
Proof. unfold buf_len. by rewrite valid_mk. Qed.

Lemma bptr_mk pre c post : buf_bptr (mkbuf pre c post) = Some (Z.of_nat (length pre)).
Proof. unfold buf_bptr. by rewrite valid_mk. Qed.

Lemma safe_mk pre c post n :
  Z.of_nat (length pre + length c + length post) < BUF_SIZE_MAX → 0 ≤ n →
  buf_safe (mkbuf pre c post) n = bool_decide (n ≤ Z.of_nat (length post)).
Proof.
  intros Hl Hn. unfold buf_safe, buf_size_valid. rewrite valid_mk. cbn [andb mkbuf offset len capacity].
  apply eq_true_iff_eq. rewrite andb_true_iff, !bool_decide_eq_true. lia.
Qed.

(** Storing over the middle of a list. *)
Lemma fill_mid pre old new post :
  Forall is_byte new → length new = length old →
  fill (length pre) new (pre ++ old ++ post) = Ret (pre ++ new ++ post).
Proof.
  intros Hb Hl. rewrite fill_ok by len. f_equal. unfold splice.
  rewrite map_u8_id, take_app_length by done. f_equal. f_equal.
  by rewrite Hl, drop_app_add, drop_app_length.
Qed.

Lemma fill_one l x y r : is_byte x → fill (length l) [x] (l ++ y :: r) = Ret (l ++ x :: r).
Proof. intros. apply (fill_mid l [y] [x] r); [by apply Forall_singleton|done]. Qed.

(** Appending. *)
Lemma buf_write_mk bs pre c post :
  Forall is_byte bs → Z.of_nat (length pre + length c + length post) < BUF_SIZE_MAX →
  (length bs ≤ length post)%nat →
  buf_write bs (mkbuf pre c post) = Ret (true, mkbuf pre (c ++ bs) (drop (length bs) post)).
Proof.
  intros Hb Hm Hl. unfold buf_write. rewrite bindM_run. unfold buf_write_alloc.
  rewrite safe_mk, bool_decide_eq_true_2, bptr_mk by lia. bret. cbn [fmap option_fmap option_map].
  rewrite bindM_run. unfold poke, set_len, set_data. cbn [data mkbuf of_option]. bret.
  cbn [mkbuf len offset]. rewrite decide_True by lia.
  replace (Z.to_nat _) with (length (pre ++ c)) by len.
  assert (pre ++ c ++ post = (pre ++ c) ++ take (length bs) post ++ drop (length bs) post) as ->
    by (by rewrite take_drop, app_assoc).
  rewrite fill_mid by (done || (rewrite length_take; lia)). bret.
  unfold mkbuf, mret, M_ret. cbn [capacity offset len data].
  assert (length post = length bs + length (drop (length bs) post))%nat as Hp by len.
  rewrite !length_app, Hp. do 2 f_equal. f_equal; [lia|lia|by rewrite <- !app_assoc].
Qed.

(** Refused, with the buffer unchanged. *)
Lemma buf_write_full bs b :
  buf_safe b (Z.of_nat (length bs)) = false → buf_write bs b = Ret (false, b).
Proof.
  intros H. unfold buf_write. rewrite bindM_run. unfold buf_write_alloc. by rewrite H.
Qed.

(** Taking from the front. *)
Lemma slice_mid (pre c post : list Z) :
  slice (length pre) (length c) (pre ++ c ++ post) = c.
Proof. unfold slice. by rewrite drop_app_length, take_app_length. Qed.

Lemma buf_read_mk pre bs c post :
  buf_read (Z.of_nat (length bs)) (mkbuf pre (bs ++ c) post) =
  Ret (Some bs, mkbuf (pre ++ bs) c post).
Proof.
  unfold buf_read. rewrite bindM_run. unfold buf_read_alloc. cbn [len mkbuf].
  rewrite decide_False by (rewrite length_app; lia). bret. fold (mkbuf pre (bs ++ c) post).
  rewrite bptr_mk, bindM_run. unfold peek_n. cbn [data mkbuf of_option offset capacity len]. bret.
  rewrite decide_True by (rewrite !length_app; lia). bret. rewrite !Nat2Z.id.
  rewrite <- app_assoc, slice_mid. unfold mret, M_ret, mkbuf. do 2 f_equal.
  f_equal; [rewrite !length_app; lia|rewrite length_app; lia|rewrite length_app; lia|].
  by rewrite <- !app_assoc.
Qed.

Lemma buf_read_short n pre c post :
  Z.of_nat (length c) < n → buf_read n (mkbuf pre c post) = Ret (None, mkbuf pre c post).
Proof.
  intros. unfold buf_read. rewrite bindM_run. unfold buf_read_alloc. cbn [len mkbuf].
  by rewrite decide_True by lia.
Qed.

(** Prepending. *)
Lemma buf_write_prepend_mk bs pre c post :
  Forall is_byte bs → (length bs ≤ length pre)%nat →
  buf_write_prepend bs (mkbuf pre c post) =
  Ret (true, mkbuf (take (length pre - length bs) pre) (bs ++ c) post).
Proof.
  intros Hb Hl. unfold buf_write_prepend. rewrite bindM_run. unfold buf_prepend.
  rewrite valid_mk. cbn [offset mkbuf]. rewrite decide_False by (intros [?|?]; [done|lia]). bret.
  set (k := (length pre - length bs)%nat).
  assert (length (take k pre) = k) as Hk by (rewrite length_take; lia).
  assert (pre ++ c ++ post = take k pre ++ drop k pre ++ c ++ post) as Hpre
    by (by rewrite (app_assoc (take k pre)), take_drop).
  unfold buf_bptr, buf_valid. rewrite bool_decide_eq_true_2 by (cbn; split; [by eexists|lia]).
  rewrite bindM_run. unfold poke, set_data. cbn [data of_option offset capacity len mkbuf]. bret.
  rewrite decide_True by lia. replace (Z.to_nat _) with (length (take k pre)) by lia.
  rewrite Hpre.
  rewrite fill_mid by (done || (rewrite length_drop; lia)). bret.
  unfold mret, M_ret, mkbuf. rewrite Hk, length_app. do 2 f_equal.
  f_equal; [lia|lia|lia|by rewrite <- app_assoc].
Qed.

Lemma buf_write_prepend_full bs pre c post :
  (length pre < length bs)%nat →
  buf_write_prepend bs (mkbuf pre c post) = Ret (false, mkbuf pre c post).
Proof.
  intros. unfold buf_write_prepend. rewrite bindM_run. unfold buf_prepend. cbn [offset mkbuf].
  by rewrite decide_True by (right; right; lia).
Qed.

Lemma buf_read_u8_mk pre x c post :
  buf_read_u8 (mkbuf pre (x :: c) post) = Ret (x, mkbuf (pre ++ [x]) c post).
Proof.
  unfold buf_read_u8. rewrite buf_len_mk, decide_False by (cbn; lia).
  rewrite bindM_run. unfold peek. cbn [data mkbuf of_option offset]. bret.
  rewrite decide_True, Nat2Z.id by lia. unfold load.
  rewrite (list_lookup_middle pre (c ++ post) x) by done. cbn [of_option]. bret.
  rewrite bindM_run. fold (mkbuf pre (x :: c) post). unfold buf_advance.
  rewrite valid_mk. cbn [len mkbuf]. rewrite decide_False by (cbn; intros [?|[?|?]]; [done|lia..]).
  bret. unfold mret, M_ret, mkbuf. cbn [capacity offset data]. do 2 f_equal. rewrite length_app.
  cbn [length]. f_equal; [lia|lia|lia|]. by rewrite <- app_assoc.
Qed.

Lemma buf_read_u8_end pre post :
  buf_read_u8 (mkbuf pre [] post) = Ret (-1, mkbuf pre [] post).
Proof. unfold buf_read_u8. by rewrite buf_len_mk, decide_True by done. Qed.

Lemma from_be_be16 z : from_be (be16 z) = u16 z.
Proof. unfold from_be, be16. cbn [foldl]. rewrite Z.mul_0_r, Z.add_0_l. apply be16_decode. Qed.

Lemma from_be_be32 z : from_be (be32 z) = u32 z.
Proof.
  unfold from_be, be32. cbn [foldl]. rewrite Z.mul_0_r, Z.add_0_l. unfold wrap.
  change (2 ^ 32) with 4294967296. change (2 ^ 8) with 256.
  Z.to_euclidean_division_equations. lia.
Qed.

(** *** Null termination and chomping *)

Lemma buf_blast_mk pre c post :
  buf_blast (mkbuf pre c post) =
  if decide (c = []) then None else Some (Z.of_nat (length pre + length c) - 1).
Proof.
  unfold buf_blast. rewrite buf_len_mk, bptr_mk. destruct c as [|x c]; [done|].
  rewrite decide_True, (decide_False (P := _ = [])) by (done || (cbn; lia)). cbn [fmap option_fmap option_map].
  f_equal. lia.
Qed.

Lemma peek_last pre c x post :
  peek (Z.of_nat (length pre + length (c ++ [x])) - 1) (mkbuf pre (c ++ [x]) post) =
  Ret (x, mkbuf pre (c ++ [x]) post).
Proof.
  unfold peek. cbn [data mkbuf of_option]. bret. rewrite length_app. cbn [length].
  rewrite decide_True by lia.
  replace (Z.to_nat _) with (length (pre ++ c)) by (rewrite length_app; lia).
  unfold load. rewrite <- (app_assoc c), (app_assoc pre c).
  cbn [app]. by rewrite list_lookup_middle.
Qed.

Lemma buf_inc_len_back pre c x post :
  Z.of_nat (length pre + length (c ++ [x]) + length post) < BUF_SIZE_MAX →
  buf_inc_len (-1) (mkbuf pre (c ++ [x]) post) = Ret (true, mkbuf pre c (x :: post)).
Proof.
  intros Hm. rewrite length_app in Hm. cbn [length] in Hm.
  unfold buf_inc_len, buf_safe_bidir. rewrite valid_mk. cbn [mkbuf len offset capacity].
  rewrite length_app. cbn [length]. rewrite !bool_decide_eq_true_2 by (unfold BUF_SIZE_MAX; lia).
  cbn [andb]. unfold set_len, mkbuf. cbn [capacity offset len data length]. do 2 f_equal.
  f_equal; [rewrite ?length_app; cbn; lia|lia|]. by rewrite <- app_assoc.
Qed.

(** The content without its trailing CR, LF and NUL characters. *)
Definition is_crlf (x : Z) : bool := char_class x (Z.lor CC_CRLF CC_NULL).
Fixpoint chomped (l : list Z) : list Z :=
  match l with
  | [] => []
  | x :: l => match chomped l with
              | [] => if is_crlf x then [] else [x]
              | l' => x :: l'
              end
  end.

Lemma chomped_snoc l x : chomped (l ++ [x]) = if is_crlf x then chomped l else l ++ [x].
Proof.
  induction l as [|y l IH]; cbn; [done|]. rewrite IH. destruct (is_crlf x); [done|].
  by destruct l.
Qed.

(** The characters the class of [buf_chomp] holds are these three. *)
Lemma is_crlf_spec x : is_byte x → is_crlf x = bool_decide (x = 10 ∨ x = 13 ∨ x = 0).
Proof.
  intros Hx. apply eqb_prop. revert x Hx.
  apply (byte_all (λ x, Bool.eqb (is_crlf x) (bool_decide (x = 10 ∨ x = 13 ∨ x = 0)))).
  by vm_compute.
Qed.

Lemma chomp_loop_mk n pre c post :
  (length c < n)%nat → Z.of_nat (length pre + length c + length post) < BUF_SIZE_MAX →
  ∃ post', loopM n chomp_body tt (mkbuf pre c post) = Ret (tt, mkbuf pre (chomped c) post') ∧
    (length (chomped c) + length post' = length c + length post)%nat.
Proof.
  revert n post. induction c as [|x c IH] using rev_ind; intros n post Hn Hm;
    (destruct n as [|n]; [len|]).
  - exists post. split; [|done]. apply loopM_inr. unfold chomp_body. by rewrite buf_blast_mk.
  - assert (chomp_body tt (mkbuf pre (c ++ [x]) post) =
      Ret (if is_crlf x then (inl tt, mkbuf pre c (x :: post))
           else (inr tt, mkbuf pre (c ++ [x]) post))) as E.
    { unfold chomp_body. rewrite buf_blast_mk, decide_False by (by destruct c).
      rewrite bindM_run, peek_last. bret. fold (is_crlf x). destruct (is_crlf x); [|done].
      by rewrite bindM_run, buf_inc_len_back. }
    rewrite chomped_snoc. destruct (is_crlf x).
    + destruct (IH n (x :: post)) as (post' & E' & Hl); [len|len|].
      exists post'. split; [by rewrite (loopM_inl _ _ _ _ _ _ E)|]. rewrite Hl. len.
    + exists post. split; [by rewrite (loopM_inr _ _ _ _ _ _ E)|done].
Qed.

Lemma chomped_last l : l = chomped l → ∀ x, last l = Some x → is_crlf x = false.
Proof.
  intros E x Hx. apply last_Some in Hx as [l' ->]. rewrite chomped_snoc in E.
  destruct (is_crlf x); [|done]. exfalso.
  assert (∀ l, length (chomped l) ≤ length l)%nat as Hle.
  { clear. induction l as [|y l IH]; cbn; [done|]. destruct (chomped l), (is_crlf y); cbn in *; lia. }
  specialize (Hle l'). rewrite <- E in Hle. rewrite length_app in Hle. cbn in Hle. lia.
Qed.

Lemma chomped_idem l : chomped (chomped l) = chomped l.
Proof.
  induction l as [|x l IH] using rev_ind; [done|].
  rewrite chomped_snoc. destruct (is_crlf x) eqn:E; [done|]. by rewrite chomped_snoc, E.
Qed.

(** A NUL is appended, over the last character when the buffer is full. *)
Definition null_terminated (c : list Z) (room : bool) : list Z :=
  match last c with
  | Some 0 => c
  | _ => (if room then c else removelast c) ++ [0]
  end.

Lemma buf_null_terminate_mk pre c post :
  Z.of_nat (length pre + length c + length post) < BUF_SIZE_MAX → (c ≠ [] ∨ post ≠ []) →
  ∃ post', buf_null_terminate (mkbuf pre c post) =
    Ret (tt, mkbuf pre (null_terminated c (bool_decide (post ≠ []))) post').
Proof.
  intros Hm Hne. unfold buf_null_terminate. rewrite buf_blast_mk.
  assert (∀ c post, Z.of_nat (length pre + length c + length post) < BUF_SIZE_MAX → post ≠ [] →
    buf_write_u8 0 (mkbuf pre c post) = Ret (true, mkbuf pre (c ++ [0]) (drop 1 post))) as Hw.
  { intros c1 post1 Hm1 Hp. unfold buf_write_u8. change (u8 0) with 0.
    apply buf_write_mk; [by repeat constructor|done|destruct post1; [done|cbn; lia]]. }
  induction c as [|x c _] using rev_ind.
  - rewrite decide_True by done. bret. destruct Hne as [|Hne]; [done|].
    rewrite safe_mk by (done || lia).
    rewrite !bool_decide_eq_true_2 by (done || (destruct post; [done|cbn; lia])).
    rewrite bindM_mret, bindM_run, Hw by done. bret.
    by exists (drop 1 post).
  - rewrite decide_False by (by destruct c). rewrite peek_last. bret.
    unfold null_terminated. rewrite last_snoc. destruct (decide (x = 0)) as [->|Hx].
    { rewrite bool_decide_eq_true_2 by done. by exists post. }
    rewrite bool_decide_eq_false_2 by done. rewrite safe_mk by (done || lia).
    assert ((match x with 0 => c ++ [x] | _ => (if bool_decide (post ≠ []) then c ++ [x]
        else removelast (c ++ [x])) ++ [0] end) =
      (if bool_decide (post ≠ []) then c ++ [x] else removelast (c ++ [x])) ++ [0]) as ->
      by (by destruct x).
    destruct (decide (post = [])) as [->|Hp].
    + rewrite (bool_decide_eq_false_2 (1 ≤ _)), bool_decide_eq_false_2 by (cbn; tauto || lia).
      rewrite bindM_run, buf_inc_len_back by done. bret.
      rewrite bindM_run, Hw by (try done; len). bret. rewrite removelast_last. by eexists.
    + rewrite !bool_decide_eq_true_2 by (done || (destruct post; [done|cbn; lia])).
      rewrite bindM_mret, bindM_run, Hw by done. bret.
      by exists (drop 1 post).
Qed.

Lemma chomped_length l : (length (chomped l) ≤ length l)%nat.
Proof. induction l as [|y l IH]; cbn; [done|]. destruct (chomped l), (is_crlf y); cbn in *; lia. Qed.

(** [buf_chomp] leaves the content without its line end, NUL-terminated. *)
Lemma buf_chomp_mk pre c post :
  Z.of_nat (length pre + length c + length post) < BUF_SIZE_MAX →
  (chomped c ≠ c ∨ post ≠ []) →
  ∃ post', buf_chomp (mkbuf pre c post) = Ret (tt, mkbuf pre (chomped c ++ [0]) post').
Proof.
  intros Hm Hroom. unfold buf_chomp. cbn [len mkbuf].
  destruct (chomp_loop_mk (S (Z.to_nat (Z.of_nat (length c)))) pre c post) as (post1 & E & Hl);
    [lia|done|].
  fold (mkbuf pre c post). rewrite (bindM_Ret _ _ _ _ _ E).
  assert (post1 ≠ []) as Hp.
  { pose proof (chomped_length c) as Hle. destruct Hroom as [Hne|Hne].
    - assert (length (chomped c) ≠ length c) as Hlt; [|destruct post1; [cbn in *; lia|done]].
      clear Hle. intros Heq. apply Hne. clear -Heq. induction c as [|x c IH] using rev_ind; [done|].
      rewrite chomped_snoc in *. destruct (is_crlf x); [|done].
      pose proof (chomped_length c). rewrite length_app in Heq. cbn in Heq. lia.
    - destruct post, post1; cbn in *; try done; lia. }
  destruct (buf_null_terminate_mk pre (chomped c) post1) as (post2 & E2); [lia|by right|].
  exists post2. rewrite E2. unfold null_terminated.
  destruct (last (chomped c)) as [y|] eqn:Ey; [|by rewrite bool_decide_eq_true_2].
  pose proof (chomped_last (chomped c) (eq_sym (chomped_idem c)) y Ey) as Hy.
  rewrite bool_decide_eq_true_2 by done. by destruct y.
Qed.

(** *** Lines *)

Lemma to_one_line_byte c : is_byte c → is_byte (to_one_line c).
Proof. unfold to_one_line. case_decide; ints; lia. Qed.

Lemma convert_loop_mk pre c1 c post :
  Forall is_byte c →
  convert_loop (length c) (Z.of_nat (length (pre ++ c1))) (mkbuf pre (c1 ++ c) post) =
  Ret (tt, mkbuf pre (c1 ++ map to_one_line c) post).
Proof.
  intros Hc. revert c1. induction Hc as [|x c Hx Hc IH]; intros c1; [done|].
  cbn [length convert_loop map]. rewrite bindM_run. unfold peek.
  cbn [data mkbuf of_option]. bret. rewrite decide_True, Nat2Z.id by lia. unfold load.
  assert (pre ++ (c1 ++ x :: c) ++ post = (pre ++ c1) ++ [x] ++ c ++ post) as E
    by (by rewrite <- !app_assoc).
  rewrite E. cbn [app]. rewrite list_lookup_middle by done. cbn [of_option]. bret.
  rewrite bindM_run. unfold poke, set_data. cbn [data of_option capacity offset len mkbuf].
  rewrite E. bret. rewrite decide_True, Nat2Z.id by lia.
  cbn [app]. rewrite fill_one by by apply to_one_line_byte. bret.
  specialize (IH (c1 ++ [to_one_line x])). rewrite <- app_assoc in IH. cbn [app] in IH.
  rewrite <- app_assoc in IH. cbn [app] in IH. rewrite <- IH.
  replace (Z.of_nat (length (pre ++ c1)) + 1)
    with (Z.of_nat (length (pre ++ c1 ++ [to_one_line x]))) by len.
  f_equal. unfold mkbuf. f_equal; [len|len|]. f_equal. by rewrite <- !app_assoc.
Qed.

Lemma convert_to_one_line_mk pre c post :
  Forall is_byte c →
  convert_to_one_line (mkbuf pre c post) = Ret (tt, mkbuf pre (map to_one_line c) post).
Proof.
  intros Hc. unfold convert_to_one_line. rewrite buf_len_mk, Nat2Z.id. cbn [offset mkbuf].
  pose proof (convert_loop_mk pre [] c post Hc) as E. rewrite app_nil_r in E. exact E.
Qed.

(** *** Parsing *)

(** The characters of a line before its end. *)
Definition plain_char (delim x : Z) : Prop := is_byte x ∧ x ≠ 0 ∧ x ≠ delim.

Lemma parse_char delim size n eol pre x c post l y line :
  plain_char delim x → Z.of_nat (length l) = n → n < size →
  parse_body delim size (n, eol, l ++ y :: line) (mkbuf pre (x :: c) post) =
  Ret (inl (n + 1, eol, (l ++ [x]) ++ line), mkbuf (pre ++ [x]) c post).
Proof.
  intros (Hb & H0 & Hd) Hn Hs. unfold parse_body. rewrite bindM_run, buf_read_u8_mk. bret.
  pose proof Hb as Hb'. unfold is_byte in Hb'.
  rewrite (decide_False (P := x < 0)), (decide_False (P := x ≤ 0 ∨ _)) by lia.
  rewrite (decide_False (P := n >= size)) by lia.
  rewrite bindM_run. unfold lift. rewrite <- Hn, Nat2Z.id.
  rewrite fill_one by done. bret.
  rewrite decide_True by done. by rewrite <- app_assoc.
Qed.

(** The character that ends a line. *)
Lemma parse_stop delim size n eol pre x c post l y line :
  (x = 0 ∨ x = delim) → 0 ≤ x → Z.of_nat (length l) = n → n < size →
  parse_body delim size (n, eol, l ++ y :: line) (mkbuf pre (x :: c) post) =
  Ret (inr (eol, l ++ 0 :: line), mkbuf (pre ++ [x]) c post).
Proof.
  intros Hx Hp Hn Hs. unfold parse_body. rewrite bindM_run, buf_read_u8_mk. bret.
  rewrite (decide_False (P := x < 0)), (decide_True (P := x ≤ 0 ∨ _)) by lia.
  rewrite (decide_False (P := n >= size)) by lia.
  rewrite bindM_run. unfold lift. rewrite <- Hn, Nat2Z.id.
  by rewrite fill_one by done.
Qed.

(** The end of the buffer ends a line too. *)
Lemma parse_end delim size n eol pre post l y line :
  Z.of_nat (length l) = n → n < size →
  parse_body delim size (n, eol, l ++ y :: line) (mkbuf pre [] post) =
  Ret (inr (true, l ++ 0 :: line), mkbuf pre [] post).
Proof.
  intros Hn Hs. unfold parse_body. rewrite bindM_run, buf_read_u8_end. bret.
  rewrite (decide_True (P := -1 < 0)), (decide_True (P := -1 ≤ 0 ∨ _)) by lia.
  rewrite (decide_False (P := n >= size)) by lia.
  rewrite bindM_run. unfold lift. rewrite <- Hn, Nat2Z.id.
  by rewrite fill_one by done.
Qed.

Lemma app_split_len {A} (l : list A) n :
  (n < length l)%nat → ∃ x l', drop n l = x :: l' ∧ l = take n l ++ x :: l'.
Proof.
  intros Hn. destruct (drop n l) as [|x l'] eqn:E.
  - apply (f_equal length) in E. rewrite length_drop in E. cbn in E. lia.
  - exists x, l'. split; [done|]. by rewrite <- E, take_drop.
Qed.

(** What the loop does with a line [w] and what follows it. *)
Lemma parse_loop_mk delim size w :
  ∀ fuel n eol pre tl post l line,
  Forall (plain_char delim) w → (tl = [] ∨ ∃ x r, tl = x :: r ∧ (x = 0 ∨ x = delim) ∧ 0 ≤ x) →
  Z.of_nat (length l) = n → n + Z.of_nat (length w) < size →
  (length w < length line)%nat → (length w < fuel)%nat →
  loopM fuel (parse_body delim size) (n, eol, l ++ line) (mkbuf pre (w ++ tl) post) =
  Ret ((if decide (tl = []) then true else eol, (l ++ w) ++ 0 :: drop (S (length w)) line),
       mkbuf (pre ++ w ++ take 1 tl) (drop 1 tl) post).
Proof.
  induction w as [|x w IH]; intros fuel n eol pre tl post l line Hw Htl Hn Hs Hl Hf;
    (destruct fuel as [|fuel]; [cbn in *; lia|]); (destruct line as [|y line]; [cbn in *; lia|]).
  - rewrite app_nil_r. cbn [app length drop]. destruct Htl as [->|(x & r & -> & Hx & Hp)].
    + rewrite (loopM_inr _ _ _ _ _ _ (parse_end delim size n eol pre post l y line Hn ltac:(cbn in *; lia))).
      by rewrite decide_True, app_nil_r by done.
    + rewrite (loopM_inr _ _ _ _ _ _
        (parse_stop delim size n eol pre x r post l y line Hx Hp Hn ltac:(cbn in *; lia))). done.
  - apply Forall_cons in Hw as [Hx Hw]. cbn [app].
    rewrite (loopM_inl _ _ _ _ _ _
      (parse_char delim size n eol pre x (w ++ tl) post l y line Hx Hn ltac:(cbn in *; lia))).
    rewrite IH by (done || len). cbn [length drop]. by rewrite <- !app_assoc.
Qed.

Lemma strlen_at_app s rest : Forall (λ c, c ≠ 0) s → strlen_at (s ++ 0 :: rest) = Ret (length s).
Proof.
  induction 1 as [|c s Hc Hs IH]; [done|]. cbn. rewrite decide_False by done. by rewrite IH.
Qed.

(** A line that fits is copied and NUL-terminated, and the input advances past
    its end; the result is false at the end of the input only. *)
Lemma buf_parse_mk delim size w pre tl post line :
  Forall (plain_char delim) w → (tl = [] ∨ ∃ x r, tl = x :: r ∧ (x = 0 ∨ x = delim) ∧ 0 ≤ x) →
  Z.of_nat (length w) < size ≤ Z.of_nat (length line) →
  ∃ line', buf_parse delim line size (mkbuf pre (w ++ tl) post) =
    Ret ((negb (bool_decide (tl = []) && bool_decide (w = [])), w ++ 0 :: line'),
         mkbuf (pre ++ w ++ take 1 tl) (drop 1 tl) post).
Proof.
  intros Hw Htl Hs. unfold buf_parse. rewrite (bindM_lift _ _ _ tt) by (apply ASSERT_ok; lia).
  pose proof (parse_loop_mk delim size w (S (S (Z.to_nat size))) 0 false pre tl post [] line
    Hw Htl eq_refl ltac:(lia) ltac:(lia) ltac:(lia)) as E. cbn [app] in E. rewrite (bindM_Ret _ _ _ _ _ E).
  set (line1 := drop (S (length w)) line).
  assert (Forall (λ c, c ≠ 0) w) as Hw0 by (eapply Forall_impl; [exact Hw|]; by intros ? (_ & ? & _)).
  assert (∃ l', fill (Z.to_nat (size - 1)) [0] (w ++ 0 :: line1) = Ret (w ++ 0 :: l')) as (l' & El).
  { destruct (decide (Z.to_nat (size - 1) = length w)) as [->|Hne].
    - exists line1. by apply fill_one.
    - assert (length line1 = length line - S (length w))%nat as Hl1 by (unfold line1; len).
      destruct (app_split_len line1 (Z.to_nat (size - 1) - S (length w))) as (y & r & _ & Hsp); [lia|].
      set (k := (Z.to_nat (size - 1) - S (length w))%nat) in *.
      exists (take k line1 ++ 0 :: r). rewrite Hsp at 1.
      replace (w ++ 0 :: take k line1 ++ y :: r) with ((w ++ 0 :: take k line1) ++ y :: r)
        by (by rewrite <- app_assoc).
      replace (Z.to_nat (size - 1)) with (length (w ++ 0 :: take k line1))
        by (rewrite length_app; cbn; rewrite length_take; lia).
      rewrite fill_one by done. by rewrite <- app_assoc. }
  rewrite (bindM_lift _ _ _ _ El), (bindM_lift _ _ _ _ (strlen_at_app w l' Hw0)).
  exists l'. unfold mret, M_ret. do 3 f_equal. f_equal.
  replace (bool_decide (length w = 0%nat)) with (bool_decide (w = []))
    by (apply bool_decide_ext; by destruct w).
  by destruct (decide (tl = [])), (bool_decide_reflect (tl = [])).
Qed.

(** *** Strings in place

    The C string [s] in memory with [rest] behind its NUL. *)
Definition cstring (s : list Z) : Prop := Forall (λ c, is_byte c ∧ c ≠ 0) s.

Lemma cstring_nz s : cstring s → Forall (λ c, c ≠ 0) s.
Proof. intros H. eapply Forall_impl; [exact H|]. by intros ? []. Qed.

Lemma cstring_bytes s : cstring s → Forall is_byte s.
Proof. intros H. eapply Forall_impl; [exact H|]. by intros ? []. Qed.

Lemma string_class_ok s rest inclusive exclusive :
  cstring s →
  string_class (s ++ 0 :: rest) inclusive exclusive =
  Ret (forallb (λ c, char_inc_exc c inclusive exclusive) s).
Proof.
  induction 1 as [|c s [_ Hc] Hs IH]; [done|]. cbn. rewrite decide_False by done.
  by destruct (char_inc_exc c inclusive exclusive).
Qed.

(** What [string_mod] makes of a character: kept, replaced, or dropped. *)
Definition mod_char (inclusive exclusive replace c : Z) : option Z :=
  if char_inc_exc c inclusive exclusive then Some c
  else if decide (replace = 0) then None else Some replace.
Definition modded (inclusive exclusive replace : Z) (s : list Z) : list Z :=
  omap (mod_char inclusive exclusive replace) s.

Section string_mod.
Context (inclusive exclusive replace : Z) (Hrep : is_byte replace).

Lemma string_mod_body_eq in_ str ret d :
  string_mod_body inclusive exclusive replace (in_, str, ret, d) =
  (c ← load d in_;
   if decide (c ≠ 0) then
     let '(c, ret) := if char_inc_exc c inclusive exclusive then (c, ret) else (replace, false) in
     if decide (c ≠ 0) then d ← fill str [c] d; Ret (inl (S in_, S str, ret, d))
     else Ret (inl (S in_, str, ret, d))
   else d ← fill str [0] d; Ret (inr (ret, d))).
Proof. done. Qed.

(** The part already rewritten is [out], then [gap] bytes of slack, then the
    part still to be read. *)
Lemma string_mod_loop_ok s : ∀ fuel out gap rest ret,
  cstring s → (length s < fuel)%nat →
  ∃ rest', loop fuel (string_mod_body inclusive exclusive replace)
    (length (out ++ gap), length out, ret, out ++ gap ++ s ++ 0 :: rest) =
  Ret (ret && forallb (λ c, char_inc_exc c inclusive exclusive) s,
       (out ++ modded inclusive exclusive replace s) ++ 0 :: rest').
Proof.
  induction s as [|c s IH]; intros fuel out gap rest ret Hs Hf;
    (destruct fuel as [|fuel]; [cbn in *; lia|]); rewrite loop_S, string_mod_body_eq;
    rewrite (app_assoc out gap); unfold load; cbn [app];
    rewrite list_lookup_middle by done; cbn [of_option]; bret.
  - rewrite decide_False by auto. rewrite <- app_assoc.
    assert (∃ y r, gap ++ 0 :: rest = y :: r) as (y & r & ->) by (destruct gap; cbn; eauto).
    rewrite fill_one by done. bret. exists r.
    by rewrite andb_true_r, app_nil_r.
  - apply Forall_cons in Hs as [[Hc Hc0] Hs]. rewrite decide_True by done.
    cbn [forallb modded omap list_omap]. unfold mod_char at 1.
    assert (∃ y r, gap ++ c :: s ++ 0 :: rest = y :: r ++ s ++ 0 :: rest ∧ length r = length gap)
      as (y & r & Egap & Hr).
    { destruct gap as [|y gap]; [by exists c, []|]. exists y, (gap ++ [c]).
      split; [cbn; by rewrite <- app_assoc|]. rewrite length_app. cbn. lia. }
    assert (∀ x, is_byte x → fill (length out) [x] (out ++ gap ++ c :: s ++ 0 :: rest) =
      Ret ((out ++ [x]) ++ r ++ s ++ 0 :: rest)) as Hkeep.
    { intros x Hx. rewrite Egap, fill_one by done. by rewrite <- app_assoc. }
    assert (∀ x, S (length (out ++ gap)) = length ((out ++ [x]) ++ r) ∧
      S (length out) = length (out ++ [x])) as Hlen by (intros; len).
    rewrite <- app_assoc. cbn [length] in Hf.
    destruct (char_inc_exc c inclusive exclusive).
    + rewrite decide_True, Hkeep by done. bret. destruct (Hlen c) as [-> ->].
      destruct (IH fuel (out ++ [c]) r rest ret Hs) as (rest' & E); [lia|].
      exists rest'. rewrite E. by rewrite <- (app_assoc out).
    + rewrite andb_false_r. destruct (decide (replace = 0)) as [Hr0|Hr0].
      * rewrite decide_False by auto. bret.
        destruct (IH fuel out (gap ++ [c]) rest false Hs) as (rest' & E); [lia|].
        exists rest'. refine (eq_trans _ E). rewrite <- !app_assoc. cbn [app].
        replace (length (out ++ gap ++ [c])) with (S (length (out ++ gap))) by len. done.
      * rewrite decide_True, Hkeep by done. bret. destruct (Hlen replace) as [-> ->].
        destruct (IH fuel (out ++ [replace]) r rest false Hs) as (rest' & E); [lia|].
        exists rest'. rewrite E. by rewrite <- (app_assoc out).
Qed.

Lemma string_mod_ok s rest :
  cstring s →
  ∃ rest', string_mod (s ++ 0 :: rest) inclusive exclusive replace =
  Ret (forallb (λ c, char_inc_exc c inclusive exclusive) s,
       modded inclusive exclusive replace s ++ 0 :: rest').
Proof.
  intros Hs. unfold string_mod.
  destruct (string_mod_loop_ok s (S (length (s ++ 0 :: rest))) [] [] rest true Hs) as (rest' & E);
    [len|].
  exists rest'. exact E.
Qed.
End string_mod.

(** [s] without its trailing characters in [what]. *)
Fixpoint stripped (what s : list Z) : list Z :=
  match s with
  | [] => []
  | x :: s => match stripped what s with
              | [] => if decide (x ∈ what) then [] else [x]
              | s' => x :: s'
              end
  end.

Lemma stripped_snoc what s x :
  stripped what (s ++ [x]) = if decide (x ∈ what) then stripped what s else s ++ [x].
Proof.
  induction s as [|y s IH]; cbn; [done|]. rewrite IH. destruct (decide (x ∈ what)); [done|].
  by destruct s.
Qed.

Lemma rm_trailing_chars_ok what s rest :
  cstring s →
  ∃ rest', rm_trailing_chars (s ++ 0 :: rest) what = Ret (stripped what s ++ 0 :: rest').
Proof.
  intros Hs. unfold rm_trailing_chars.
  assert (∀ fuel rest, (length s < fuel)%nat → ∃ rest',
    loop fuel (rm_trailing_body what) (s ++ 0 :: rest) = Ret (stripped what s ++ 0 :: rest'))
    as H; [|apply H; len].
  clear rest. induction s as [|x s IH] using rev_ind; intros fuel rest Hf;
    (destruct fuel as [|fuel]; [len|]); rewrite loop_S.
  - by exists rest.
  - unfold rm_trailing_body at 2. rewrite strlen_at_app by by apply cstring_nz. bret. rewrite stripped_snoc.
    apply Forall_app in Hs as [Hs Hx]. rewrite length_app, Nat.add_comm. cbn [length Nat.add].
    rewrite <- app_assoc. cbn [app]. unfold load. rewrite list_lookup_middle by done.
    cbn [of_option]. bret. destruct (decide (x ∈ what)).
    + rewrite fill_one by done. bret. apply IH; [done|]. len.
    + bret. exists rest. by rewrite <- app_assoc.
Qed.

(** *** Buffer lists *)

(** An entry: a well-formed buffer of bytes. *)
Definition wf_entry (e : buffer) : Prop := wf_buf e ∧ Forall is_byte (content e).

(** The bytes queued. *)
Definition queued (ol : buffer_list) : list Z := concat (map content (bl_entries ol)).

Lemma peek_content e : wf_entry e → peek_n (offset e) (buf_len e) e = Ret (content e, e).
Proof.
  intros [Hw _]. destruct (wf_buf_mk e Hw) as (pre & post & He & _).
  rewrite He. rewrite content_mk, buf_len_mk. unfold peek_n.
  cbn [data mkbuf of_option offset]. bret.
  rewrite decide_True by len. by rewrite !Nat2Z.id, slice_mid.
Qed.

Lemma buf_len_content e : wf_buf e → buf_len e = Z.of_nat (length (content e)).
Proof.
  intros Hw. destruct (wf_buf_mk e Hw) as (pre & post & He & _).
  rewrite He. by rewrite content_mk, buf_len_mk.
Qed.

Lemma aggregate_copy_ok es : ∀ c post,
  Forall wf_entry es → Z.of_nat (length c + length post) < BUF_SIZE_MAX →
  (length (concat (map content es)) ≤ length post)%nat →
  aggregate_copy es (mkbuf [] c post) =
  Ret (mkbuf [] (c ++ concat (map content es)) (drop (length (concat (map content es))) post)).
Proof.
  induction es as [|e es IH]; intros c post Hes Hm Hl; [by rewrite app_nil_r|].
  apply Forall_cons in Hes as [He Hes]. cbn [aggregate_copy map concat] in *.
  rewrite length_app in Hl. rewrite peek_content by done. bret.
  rewrite buf_write_mk by (try apply He; cbn; lia). bret.
  rewrite IH by (done || len). by rewrite <- app_assoc, drop_drop, length_app.
Qed.

(** The loop that counts stops when the size has passed [max]. *)
Lemma aggregate_count_ok es : ∀ size max count total,
  Forall wf_entry es → 0 ≤ size → aggregate_count es size max = (count, total) →
  total = size + Z.of_nat (length (concat (map content (take count es)))) ∧
  (count ≤ length es)%nat.
Proof.
  induction es as [|e es IH]; intros size max count total Hes Hs E; cbn in E.
  - injection E as <- <-. cbn. lia.
  - apply Forall_cons in Hes as [[He _] Hes]. rewrite (buf_len_content e He) in E.
    destruct (decide (size ≤ max)); [|injection E as <- <-; cbn; lia].
    destruct (aggregate_count es _ max) as [c t] eqn:E2. injection E as <- <-.
    apply IH in E2 as [-> Hc]; [|done|lia]. cbn. rewrite length_app. lia.
Qed.

Lemma content_nil_mk c post : mkbuf [] c post = Buf (Z.of_nat (length c + length post)) 0
  (Z.of_nat (length c)) (Some (c ++ post)).
Proof. done. Qed.

(** Aggregation keeps the bytes queued and leaves [size] alone. *)
Lemma buffer_list_aggregate_ok max bl :
  Forall wf_entry (bl_entries bl) → Z.of_nat (length (queued bl)) < BUF_SIZE_MAX →
  ∃ bl', buffer_list_aggregate max bl = Ret bl' ∧ queued bl' = queued bl ∧
    Forall wf_entry (bl_entries bl') ∧ bl_size bl' = bl_size bl ∧
    length (bl_entries bl') =
      (let count := (aggregate_count (bl_entries bl) 0 max).1 in
       if decide (2 ≤ count)%nat then S (length (bl_entries bl) - count)
       else length (bl_entries bl)).
Proof.
  intros Hes Hm. unfold buffer_list_aggregate.
  destruct (aggregate_count (bl_entries bl) 0 max) as [count total] eqn:E. cbn [fst].
  apply aggregate_count_ok in E as [Ht Hc]; [|done|lia]. rewrite Z.add_0_l in Ht. subst total.
  destruct (decide (2 ≤ count)%nat) as [H2|]; [|by exists bl].
  set (n := length (concat (map content (take count (bl_entries bl))))).
  assert (n ≤ length (queued bl))%nat as Hn.
  { unfold n, queued. rewrite <- (take_drop count (bl_entries bl)) at 2.
    rewrite map_app, concat_app, length_app. lia. }
  rewrite Nat2Z.id.
  assert (Buf (Z.of_nat n) 0 0 (Some (replicate n 0)) = mkbuf [] [] (replicate n 0)) as ->
    by (unfold mkbuf; cbn; by rewrite length_replicate).
  rewrite aggregate_copy_ok by (try (by apply Forall_take); cbn [length]; rewrite length_replicate; lia).
  bret. fold n. eexists. split; [done|]. cbn [app bl_entries bl_size].
  rewrite drop_ge by (rewrite length_replicate; lia). split; [|split; [|split; [done|]]].
  - unfold queued. cbn [map concat bl_entries]. rewrite content_mk.
    rewrite <- concat_app, <- map_app, take_drop. done.
  - constructor; [|by apply Forall_drop]. split; [apply wf_mk; cbn; fold n; lia|].
    rewrite content_mk. apply Forall_concat, Forall_map.
    eapply Forall_impl; [by apply Forall_take|]. by intros ? [].
  - cbn. by rewrite length_drop.
Qed.

(** Pushing at the back. *)
Lemma buffer_list_push_data_ok bs ol :
  Forall is_byte bs → bs ≠ [] → Z.of_nat (length bs) < BUF_SIZE_MAX →
  (bl_max_size ol = 0 ∨ bl_size ol < bl_max_size ol) →
  ∃ e, buffer_list_push_data bs ol =
      Ret (BL (bl_entries ol ++ [e]) (bl_size ol + 1) (bl_max_size ol)) ∧
    content e = bs ∧ wf_entry e.
Proof.
  intros Hb Hne Hl Hroom. unfold buffer_list_push_data, buffer_list_add.
  rewrite decide_True by done. unfold alloc_buf, buf_size_valid.
  rewrite bool_decide_eq_true_2 by lia. bret. cbn [data of_option capacity]. bret.
  rewrite fill_start by (done || (rewrite length_replicate; lia)). bret.
  rewrite drop_ge, app_nil_r by (rewrite length_replicate; lia).
  rewrite s32_id by (unfold BUF_SIZE_MAX in *; ints; lia).
  assert (Buf (Z.of_nat (length bs)) 0 (Z.of_nat (length bs)) (Some bs) = mkbuf [] bs []) as ->
    by (unfold mkbuf; cbn; by rewrite Nat.add_0_r, app_nil_r).
  eexists. split; [done|]. rewrite content_mk. split; [done|]. split; [|by rewrite content_mk].
  apply wf_mk. cbn. lia.
Qed.

(** ** The queue of bytes a buffer is *)

(** Appending, prepending and consuming, on any well-formed buffer. *)
Lemma buf_write_ok bs b :
  wf_buf b → Forall is_byte bs →
  if decide (Z.of_nat (length bs) ≤ capacity b - (offset b + len b))
  then ∃ b', buf_write bs b = Ret (true, b') ∧ wf_buf b' ∧ content b' = content b ++ bs ∧
         offset b' = offset b
  else buf_write bs b = Ret (false, b).
Proof.
  intros Hb Hbs. destruct (wf_buf_mk b Hb) as (pre & post & Heq & Hm). rewrite Heq.
  cbn [mkbuf capacity offset len]. case_decide.
  - rewrite buf_write_mk by (done || lia). eexists. split; [done|]. rewrite !content_mk.
    split; [|done]. apply wf_mk. rewrite length_app, length_drop. lia.
  - apply buf_write_full. rewrite safe_mk by (done || lia). apply bool_decide_eq_false_2. lia.
Qed.

Lemma buf_write_prepend_ok bs b :
  wf_buf b → Forall is_byte bs →
  if decide (Z.of_nat (length bs) ≤ offset b)
  then ∃ b', buf_write_prepend bs b = Ret (true, b') ∧ wf_buf b' ∧ content b' = bs ++ content b ∧
         offset b' = offset b - Z.of_nat (length bs)
  else buf_write_prepend bs b = Ret (false, b).
Proof.
  intros Hb Hbs. destruct (wf_buf_mk b Hb) as (pre & post & Heq & Hm). rewrite Heq.
  cbn [mkbuf capacity offset len]. case_decide.
  - rewrite buf_write_prepend_mk by (done || lia). eexists. split; [done|]. rewrite !content_mk.
    split; [apply wf_mk; rewrite length_take, length_app; lia|]. split; [done|].
    cbn [mkbuf offset]. rewrite length_take. lia.
  - apply buf_write_prepend_full. lia.
Qed.

Lemma buf_read_ok n b :
  wf_buf b → 0 ≤ n →
  if decide (n ≤ len b)
  then ∃ b', buf_read n b = Ret (Some (take (Z.to_nat n) (content b)), b') ∧ wf_buf b' ∧
         content b' = drop (Z.to_nat n) (content b)
  else buf_read n b = Ret (None, b).
Proof.
  intros Hb Hn. destruct (wf_buf_mk b Hb) as (pre & post & Heq & Hm). revert Heq Hm.
  generalize (content b) as c. intros c -> Hm. cbn [mkbuf len]. case_decide.
  - assert (n = Z.of_nat (length (take (Z.to_nat n) c))) as En by (rewrite length_take; lia).
    eexists. split; [|split].
    + rewrite <- (take_drop (Z.to_nat n) c) at 1. rewrite En at 1. apply buf_read_mk.
    + apply wf_mk. rewrite length_app, length_take, length_drop. lia.
    + apply content_mk.
  - apply buf_read_short. lia.
Qed.
