(* ===== verification/OvpnFrame.v ===== *)
(** * OpenVPN: packet geometry, timeouts, copies between buffers

    Models the sizes of [openvpn/src/src/openvpn/mtu.h] and [mtu.c], the
    [struct event_timeout] of [interval.h] and [interval.c], and the functions
    of [buffer.h] that copy from one buffer to another.  A frame's fields are
    [int]s whose sums stay small in a well-formed frame ([wf_frame]), so they
    are added as they are. *)
From S2P Require Import Prelude OvpnBuffer.
#[local] Open Scope bool_scope.
#[local] Open Scope Z_scope.

(** ** [struct frame] *)

Definition TUN_MTU_MIN : Z := 100.
Definition PAYLOAD_ALIGN : Z := 4.

Record frame := Frame {
  link_mtu : Z;
  link_mtu_dynamic : Z;
  extra_frame : Z;
  extra_buffer : Z;
  extra_tun : Z;
  extra_link : Z;
  align_flags : Z;
  align_adjust : Z;
}.

Definition TUN_LINK_DELTA (f : frame) : Z := extra_frame f + extra_tun f.
Definition TUN_MTU_SIZE (f : frame) : Z := link_mtu f - TUN_LINK_DELTA f.
Definition PAYLOAD_SIZE (f : frame) : Z := link_mtu f - extra_frame f.
Definition PAYLOAD_SIZE_DYNAMIC (f : frame) : Z := link_mtu_dynamic f - extra_frame f.
Definition EXPANDED_SIZE (f : frame) : Z := link_mtu f.
Definition EXPANDED_SIZE_MIN (f : frame) : Z := TUN_MTU_MIN + TUN_LINK_DELTA f.
Definition MAX_RW_SIZE_TUN (f : frame) : Z := PAYLOAD_SIZE f.
Definition MAX_RW_SIZE_LINK (f : frame) : Z := EXPANDED_SIZE f + extra_link f.
Definition FRAME_HEADROOM_BASE (f : frame) : Z :=
  TUN_LINK_DELTA f + extra_buffer f + extra_link f.
Definition BUF_SIZE (f : frame) : Z := TUN_MTU_SIZE f + FRAME_HEADROOM_BASE f * 2.

Definition FRAME_HEADROOM_MARKER_DECRYPT : Z := 1.
Definition FRAME_HEADROOM_MARKER_FRAGMENT : Z := 2.
Definition FRAME_HEADROOM_MARKER_READ_LINK : Z := 4.
Definition FRAME_HEADROOM_MARKER_READ_STREAM : Z := 8.

Definition frame_headroom (f : frame) (flag_mask : Z) : Z :=
  let offset := FRAME_HEADROOM_BASE f in
  let adjust := if decide (Z.land flag_mask (align_flags f) ≠ 0) then align_adjust f else 0 in
  let delta := Z.land (Z.shiftl PAYLOAD_ALIGN 24 - (offset + adjust)) (PAYLOAD_ALIGN - 1) in
  offset + delta.
Definition FRAME_HEADROOM (f : frame) : Z := frame_headroom f 0.
Definition FRAME_HEADROOM_ADJ (f : frame) (fm : Z) : Z := frame_headroom f fm.

Definition set_link_mtu (n : Z) (f : frame) : frame :=
  Frame n (link_mtu_dynamic f) (extra_frame f) (extra_buffer f) (extra_tun f) (extra_link f)
    (align_flags f) (align_adjust f).
Definition set_link_mtu_dynamic (n : Z) (f : frame) : frame :=
  Frame (link_mtu f) n (extra_frame f) (extra_buffer f) (extra_tun f) (extra_link f)
    (align_flags f) (align_adjust f).

Definition frame_add_to_link_mtu (n : Z) (f : frame) : frame := set_link_mtu (link_mtu f + n) f.
Definition frame_add_to_extra_frame (n : Z) (f : frame) : frame :=
  Frame (link_mtu f) (link_mtu_dynamic f) (extra_frame f + n) (extra_buffer f) (extra_tun f)
    (extra_link f) (align_flags f) (align_adjust f).
Definition frame_add_to_extra_tun (n : Z) (f : frame) : frame :=
  Frame (link_mtu f) (link_mtu_dynamic f) (extra_frame f) (extra_buffer f) (extra_tun f + n)
    (extra_link f) (align_flags f) (align_adjust f).
Definition frame_add_to_extra_link (n : Z) (f : frame) : frame :=
  Frame (link_mtu f) (link_mtu_dynamic f) (extra_frame f) (extra_buffer f) (extra_tun f)
    (extra_link f + n) (align_flags f) (align_adjust f).
Definition frame_add_to_extra_buffer (n : Z) (f : frame) : frame :=
  Frame (link_mtu f) (link_mtu_dynamic f) (extra_frame f) (extra_buffer f + n) (extra_tun f)
    (extra_link f) (align_flags f) (align_adjust f).
Definition set_align_adjust (n : Z) (f : frame) : frame :=
  Frame (link_mtu f) (link_mtu_dynamic f) (extra_frame f) (extra_buffer f) (extra_tun f)
    (extra_link f) (align_flags f) n.
Definition frame_add_to_align_adjust (n : Z) (f : frame) : frame :=
  set_align_adjust (align_adjust f + n) f.
Definition frame_align_to_extra_frame (f : frame) : frame :=
  set_align_adjust (extra_frame f + extra_link f) f.
Definition frame_or_align_flags (mask : Z) (f : frame) : frame :=
  Frame (link_mtu f) (link_mtu_dynamic f) (extra_frame f) (extra_buffer f) (extra_tun f)
    (extra_link f) (Z.lor (align_flags f) mask) (align_adjust f).
Definition frame_defined (f : frame) : bool := bool_decide (link_mtu f > 0).

Definition frame_finalize (link_mtu_defined : bool) (mtu : Z) (tun_mtu_defined : bool)
    (tun_mtu : Z) (f : frame) : outcome frame :=
  f ← (if tun_mtu_defined then
         ASSERT (link_mtu_defined = false);;
         Ret (set_link_mtu (tun_mtu + TUN_LINK_DELTA f) f)
       else
         ASSERT (link_mtu_defined = true);;
         Ret (set_link_mtu mtu f));
  if decide (TUN_MTU_SIZE f < TUN_MTU_MIN) then Abort
  else Ret (frame_add_to_extra_buffer PAYLOAD_ALIGN (set_link_mtu_dynamic (link_mtu f) f)).

Definition constrain_int (x min max : Z) : Z :=
  if decide (min > max) then min
  else if decide (x < min) then min
  else if decide (x > max) then max
  else x.

Definition SET_MTU_TUN : Z := 1.
Definition SET_MTU_UPPER_BOUND : Z := 2.
Definition frame_set_mtu_dynamic (mtu flags : Z) (f : frame) : outcome frame :=
  ASSERT (mtu >= 0);;
  let mtu := if decide (Z.land flags SET_MTU_TUN ≠ 0) then mtu + TUN_LINK_DELTA f else mtu in
  Ret (if decide (Z.land flags SET_MTU_UPPER_BOUND = 0 ∨ mtu < link_mtu_dynamic f)
       then set_link_mtu_dynamic (constrain_int mtu (EXPANDED_SIZE_MIN f) (EXPANDED_SIZE f)) f
       else f).

Definition frame_subtract_extra (f src : frame) : frame :=
  frame_add_to_extra_tun (extra_frame src) (frame_add_to_extra_frame (- extra_frame src) f).

Definition alloc_buf_sock_tun (f : frame) (tuntap_buffer : bool) (align_mask : Z) :
    outcome buffer :=
  b ← alloc_buf (BUF_SIZE f);
  '(ok, b) ← buf_init (FRAME_HEADROOM_ADJ f align_mask) b;
  ASSERT (ok = true);;
  let b := set_len (if tuntap_buffer then MAX_RW_SIZE_TUN f else MAX_RW_SIZE_LINK f) b in
  ASSERT (buf_safe b 0 = true);;
  Ret b.

(** ** [struct event_timeout] *)

Record event_timeout := ET { et_defined : bool; et_n : Z; et_last : Z }.
Definition ETT_DEFAULT : Z := -1.

Definition event_timeout_clear : event_timeout := ET false 0 0.
Definition event_timeout_init (n local_now : Z) : event_timeout :=
  ET true (if decide (n >= 0) then n else 0) local_now.
Definition event_timeout_reset (now : Z) (et : event_timeout) : event_timeout :=
  if et_defined et then ET true (et_n et) now else et.
Definition event_timeout_modify_wakeup (n : Z) (et : event_timeout) : event_timeout :=
  if et_defined et then ET true (if decide (n >= 0) then n else 0) (et_last et) else et.

(** The result, the timer, and [*tv] in seconds and microseconds. *)
Definition event_timeout_trigger (now : Z) (et : event_timeout) (tv : option (Z * Z))
    (et_const_retry : Z) : outcome (bool * event_timeout * option (Z * Z)) :=
  if et_defined et then
    until ← int (s32 (et_last et) + et_n et);
    let wakeup := s32 (until - now) in
    let '(ret, et, wakeup) :=
      if decide (wakeup ≤ 0) then
        if decide (et_const_retry < 0) then (true, ET true (et_n et) now, et_n et)
        else (false, et, et_const_retry)
      else (false, et, wakeup) in
    Ret (ret, et,
      match tv with
      | Some (sec, usec) => if decide (wakeup < sec) then Some (wakeup, 0) else tv
      | None => None
      end)
  else Ret (false, et, tv).

(** ** Copying *)

Definition buf_set_write (d : list Z) (size : Z) : outcome buffer :=
  if buf_size_valid size then
    d ← (if decide (size > 0) then fill 0 [0] d else Ret d);
    Ret (Buf size 0 0 (Some d))
  else Abort.
Definition buf_set_read (d : list Z) (size : Z) : outcome buffer :=
  if buf_size_valid size then Ret (Buf size 0 size (Some d)) else Abort.

(** [src] is left alone by [buf_copy]; [buf_copy_n] consumes it. *)
Definition buf_copy (src : buffer) : M buffer bool := λ dest,
  '(bs, _) ← peek_n (offset src) (buf_len src) src;
  buf_write bs dest.

(** The result, [*dest] and [*src]. *)
Definition buf_copy_n (dest src : buffer) (n : Z) : outcome (bool * buffer * buffer) :=
  '(cp, src) ← buf_read_alloc n src;
  match cp with
  | None => Ret (false, dest, src)
  | Some p =>
      '(bs, src) ← peek_n p n src;
      '(ok, dest) ← buf_write bs dest;
      Ret (ok, dest, src)
  end.

Definition buf_copy_range (dest_index : Z) (src : buffer) (src_index src_len : Z) :
    M buffer bool := λ dest,
  if decide (src_index < 0 ∨ src_len < 0 ∨ src_index + src_len > len src ∨ dest_index < 0 ∨
             offset dest + dest_index + src_len > capacity dest)
  then Ret (false, dest)
  else
    '(bs, _) ← peek_n (offset src + src_index) src_len src;
    '(_, dest) ← poke (offset dest + dest_index) bs dest;
    Ret (true, if decide (dest_index + src_len > len dest)
               then set_len (dest_index + src_len) dest else dest).

(** The result, [*dest] and [*src]. *)
Definition buf_copy_excess (dest src : buffer) (n : Z) : outcome (bool * buffer * buffer) :=
  if decide (n < 0) then Ret (false, dest, src)
  else if decide (len src > n) then
    '(ok, b) ← buf_advance n src;
    let src := set_len n src in
    if ok : bool then
      '(ok, dest) ← buf_copy b dest;
      Ret (ok, dest, src)
    else Ret (false, dest, src)
  else Ret (true, dest, src).

(** ** Lemmas on geometry *)

Definition wf_frame (f : frame) : Prop :=
  0 ≤ extra_frame f ∧ 0 ≤ extra_tun f ∧ 0 ≤ extra_link f ∧ PAYLOAD_ALIGN ≤ extra_buffer f ∧
  TUN_MTU_MIN ≤ TUN_MTU_SIZE f ∧ EXPANDED_SIZE_MIN f ≤ link_mtu_dynamic f ≤ link_mtu f ∧
  BUF_SIZE f < BUF_SIZE_MAX.

(** Unfolds the sizes, for [lia]. *)
Ltac geometry :=
  unfold wf_frame, BUF_SIZE, FRAME_HEADROOM_BASE, EXPANDED_SIZE_MIN,
    MAX_RW_SIZE_TUN, MAX_RW_SIZE_LINK, EXPANDED_SIZE, PAYLOAD_SIZE, PAYLOAD_SIZE_DYNAMIC, TUN_MTU_SIZE,
    TUN_LINK_DELTA, TUN_MTU_MIN, PAYLOAD_ALIGN, BUF_SIZE_MAX in *.

Lemma land_align z : Z.land z (PAYLOAD_ALIGN - 1) = z mod 4.
Proof. apply (Z.land_ones z 2). lia. Qed.

(** The headroom is the space all layers may prepend, rounded up so that what
    starts [adjust] bytes after it is aligned. *)
Lemma frame_headroom_ok f m :
  FRAME_HEADROOM_BASE f ≤ frame_headroom f m < FRAME_HEADROOM_BASE f + PAYLOAD_ALIGN ∧
  (frame_headroom f m +
   (if decide (Z.land m (align_flags f) ≠ 0) then align_adjust f else 0)) mod PAYLOAD_ALIGN = 0.
Proof.
  unfold frame_headroom. rewrite land_align. change (Z.shiftl PAYLOAD_ALIGN 24) with 67108864.
  unfold PAYLOAD_ALIGN. set (adj := if decide _ then _ else _).
  pose proof (Z.mod_pos_bound (67108864 - (FRAME_HEADROOM_BASE f + adj)) 4 ltac:(lia)).
  split; [lia|]. Z.to_euclidean_division_equations. lia.
Qed.

(** A buffer of [BUF_SIZE] bytes holds the headroom, a packet of the largest
    size on either side, and at least one byte more. *)
Lemma frame_room f m :
  wf_frame f → 0 ≤ frame_headroom f m ∧
  frame_headroom f m + Z.max (PAYLOAD_SIZE f) (EXPANDED_SIZE f + extra_link f) < BUF_SIZE f.
Proof. intros Hf. destruct (frame_headroom_ok f m) as [Hh _]. geometry. lia. Qed.

Lemma constrain_int_ok x lo hi : lo ≤ hi → lo ≤ constrain_int x lo hi ≤ hi.
Proof. intros. unfold constrain_int. repeat case_decide; lia. Qed.

Lemma frame_finalize_ok ld lm td tm f :
  0 ≤ extra_frame f → 0 ≤ extra_tun f → 0 ≤ extra_link f → 0 ≤ extra_buffer f →
  ld = negb td →
  let mtu := if td then tm else lm - TUN_LINK_DELTA f in
  mtu + (FRAME_HEADROOM_BASE f + PAYLOAD_ALIGN) * 2 < BUF_SIZE_MAX →
  if decide (mtu < TUN_MTU_MIN) then frame_finalize ld lm td tm f = Abort
  else ∃ f', frame_finalize ld lm td tm f = Ret f' ∧ wf_frame f' ∧ TUN_MTU_SIZE f' = mtu ∧
         link_mtu_dynamic f' = link_mtu f'.
Proof.
  intros He Ht Hl Hb -> mtu Hs. unfold frame_finalize.
  assert ((if td then ASSERT (negb td = false);; Ret (set_link_mtu (tm + TUN_LINK_DELTA f) f)
           else ASSERT (negb td = true);; Ret (set_link_mtu lm f)) =
          Ret (set_link_mtu (mtu + TUN_LINK_DELTA f) f)) as ->.
  { unfold mtu. destruct td; cbn [negb]; rewrite ASSERT_ok by done; [done|]. cbn. do 2 f_equal. lia. }
  bret. assert (TUN_MTU_SIZE (set_link_mtu (mtu + TUN_LINK_DELTA f) f) = mtu) as ->
    by (unfold TUN_MTU_SIZE, TUN_LINK_DELTA; cbn; lia).
  case_decide; [done|]. eexists. split; [done|]. geometry. cbn. lia.
Qed.

Lemma frame_set_mtu_dynamic_ok mtu flags f :
  wf_frame f → 0 ≤ mtu →
  ∃ f', frame_set_mtu_dynamic mtu flags f = Ret f' ∧ wf_frame f' ∧
    link_mtu f' = link_mtu f ∧ TUN_MTU_SIZE f' = TUN_MTU_SIZE f.
Proof.
  intros Hf Hm. unfold frame_set_mtu_dynamic. rewrite ASSERT_ok by lia. bret.
  eexists. split; [done|]. set (m := if decide (Z.land flags SET_MTU_TUN ≠ 0) then _ else _).
  case_decide; [|done]. split; [|done].
  pose proof (constrain_int_ok m (EXPANDED_SIZE_MIN f) (EXPANDED_SIZE f)) as Hc.
  geometry. cbn. lia.
Qed.

Lemma buf_safe_wf b n :
  wf_buf b → 0 ≤ n → offset b + len b + n ≤ capacity b → buf_safe b n = true.
Proof.
  intros Hb Hn Hc. unfold wf_buf in Hb. unfold buf_safe, buf_valid, buf_size_valid.
  destruct (data b); [|by destruct Hb].
  rewrite !bool_decide_eq_true_2; [done|lia|lia|split; [by eexists|lia]].
Qed.

Lemma alloc_buf_sock_tun_ok f tun mask :
  wf_frame f →
  ∃ b, alloc_buf_sock_tun f tun mask = Ret b ∧ wf_buf b ∧ offset b = frame_headroom f mask ∧
    capacity b = BUF_SIZE f ∧ len b = (if tun then PAYLOAD_SIZE f else MAX_RW_SIZE_LINK f).
Proof.
  intros Hf. destruct (frame_room f mask Hf) as [Hh Hr]. unfold alloc_buf_sock_tun, alloc_buf.
  assert (0 ≤ BUF_SIZE f < BUF_SIZE_MAX) as Hs by (geometry; lia).
  assert (buf_size_valid (BUF_SIZE f) = true) as -> by (by apply bool_decide_eq_true_2). bret.
  unfold buf_init, FRAME_HEADROOM_ADJ. cbn [capacity data].
  assert (0 ≤ PAYLOAD_SIZE f ∧ 0 ≤ MAX_RW_SIZE_LINK f) as [HP HL] by (geometry; lia).
  change (EXPANDED_SIZE f + extra_link f) with (MAX_RW_SIZE_LINK f) in Hr.
  rewrite decide_False by (intros [?|[?|?]]; [lia|lia|done]).
  bret. rewrite (ASSERT_ok (true = true)) by done. bret. set (b := set_len _ _).
  assert (wf_buf b) as Hb.
  { unfold wf_buf, b. cbn. rewrite length_replicate.
    destruct tun; unfold MAX_RW_SIZE_TUN; lia. }
  rewrite ASSERT_ok; [|apply buf_safe_wf; [done|lia|destruct Hb as (_ & _ & _ & ? & _); lia]].
  bret. exists b. split; [done|]. split; [done|]. by destruct tun.
Qed.

(** ** Lemmas on copies *)

(** The bytes of a part of a buffer. *)
Lemma peek_n_mk pre c0 c1 c2 post :
  peek_n (Z.of_nat (length pre) + Z.of_nat (length c0)) (Z.of_nat (length c1))
    (mkbuf pre (c0 ++ c1 ++ c2) post) = Ret (c1, mkbuf pre (c0 ++ c1 ++ c2) post).
Proof.
  unfold peek_n. cbn [data mkbuf of_option]. bret.
  rewrite decide_True by (rewrite !length_app; lia). do 2 f_equal.
  rewrite Nat2Z.id, <- Nat2Z.inj_add, Nat2Z.id, <- length_app, <- !app_assoc, (app_assoc pre).
  apply slice_mid.
Qed.

Lemma peek_all_mk pre c post :
  peek_n (offset (mkbuf pre c post)) (buf_len (mkbuf pre c post)) (mkbuf pre c post) =
  Ret (c, mkbuf pre c post).
Proof.
  pose proof (peek_n_mk pre [] c [] post) as H. cbn [app length] in H.
  rewrite app_nil_r, Z.add_0_r in H. rewrite buf_len_mk. exact H.
Qed.

Lemma buf_copy_mk p bs q pre c post :
  Forall is_byte bs → Z.of_nat (length pre + length c + length post) < BUF_SIZE_MAX →
  (length bs ≤ length post)%nat →
  buf_copy (mkbuf p bs q) (mkbuf pre c post) =
  Ret (true, mkbuf pre (c ++ bs) (drop (length bs) post)).
Proof. intros. unfold buf_copy. rewrite peek_all_mk. bret. by apply buf_write_mk. Qed.

Lemma buf_copy_n_mk p bs rest q pre c post :
  Forall is_byte bs → Z.of_nat (length pre + length c + length post) < BUF_SIZE_MAX →
  (length bs ≤ length post)%nat →
  buf_copy_n (mkbuf pre c post) (mkbuf p (bs ++ rest) q) (Z.of_nat (length bs)) =
  Ret (true, mkbuf pre (c ++ bs) (drop (length bs) post), mkbuf (p ++ bs) rest q).
Proof.
  intros Hb Hm Hl. unfold buf_copy_n.
  pose proof (buf_read_mk p bs rest q) as Hr. unfold buf_read in Hr. rewrite bindM_run in Hr.
  destruct (buf_read_alloc _ _) as [[[cp|] b]| | |]; try done. bret. rewrite bind_Ret in Hr.
  rewrite bindM_run in Hr. destruct (peek_n cp _ b) as [[bs' b']| | |]; try done.
  bret. rewrite bind_Ret in Hr. unfold mret, M_ret in Hr. injection Hr as -> ->.
  by rewrite buf_write_mk by done.
Qed.

(** A part of [src] stored at an index of [dest], which may lie beyond the
    content of [dest]: what lies between then becomes content. *)
Lemma buf_copy_range_mk p bs q idx pre c post :
  Forall is_byte bs → (idx + length bs ≤ length c + length post)%nat →
  let mem := splice idx bs (c ++ post) in
  let n := Nat.max (length c) (idx + length bs) in
  buf_copy_range (Z.of_nat idx) (mkbuf p bs q) 0 (Z.of_nat (length bs)) (mkbuf pre c post) =
  Ret (true, mkbuf pre (take n mem) (drop n mem)).
Proof.
  intros Hb Hl mem n. unfold buf_copy_range. cbn [len offset capacity mkbuf].
  assert (length mem = length c + length post)%nat as Hm
    by (unfold mem; rewrite length_splice, length_app; rewrite ?length_app; lia).
  rewrite decide_False by lia. fold (mkbuf p bs q).
  pose proof (peek_n_mk p [] bs [] q) as Hp. cbn [app length] in Hp.
  rewrite app_nil_r in Hp. change (Z.of_nat 0) with 0 in Hp. rewrite Hp. bret.
  unfold poke, set_data. cbn [data mkbuf of_option]. bret. rewrite decide_True by lia.
  replace (Z.to_nat _) with (length pre + idx)%nat by lia.
  rewrite fill_ok by (rewrite !length_app; lia). bret. rewrite map_u8_id by done.
  assert (splice (length pre + idx) bs (pre ++ c ++ post) = pre ++ take n mem ++ drop n mem) as ->.
  { rewrite take_drop. unfold mem, splice. rewrite take_app_add, <- app_assoc. do 3 f_equal.
    by rewrite <- Nat.add_assoc, drop_app_add. }
  unfold mkbuf, set_len. cbn [capacity offset len data]. rewrite length_take, length_drop, Hm.
  do 2 f_equal. case_decide; f_equal; lia.
Qed.

Lemma buf_copy_range_full dest idx src n :
  capacity dest < offset dest + idx + n → buf_copy_range idx src 0 n dest = Ret (false, dest).
Proof. intros. unfold buf_copy_range. by rewrite decide_True by (do 4 right; lia). Qed.

(** The memory of a buffer of the frame's size. *)
Definition sized (n : Z) (b : buffer) : Prop :=
  ∃ d, data b = Some d ∧ Z.of_nat (length d) = capacity b ∧ capacity b = n.

Lemma buf_init_sized n b h :
  sized n b → 0 ≤ h ≤ n →
  ∃ pre post, buf_init h b = Ret (true, mkbuf pre [] post) ∧ Z.of_nat (length pre) = h ∧
    Z.of_nat (length post) = n - h.
Proof.
  intros (d & Ed & El & Ec) Hh. unfold buf_init.
  rewrite decide_False by (rewrite Ed; intros [?|[?|?]]; [lia|lia|done]).
  exists (take (Z.to_nat h) d), (drop (Z.to_nat h) d).
  rewrite length_take, length_drop. split; [|lia].
  unfold mkbuf. rewrite length_take, length_drop, Ed, app_nil_l, take_drop. cbn [length].
  do 2 f_equal. f_equal; lia.
Qed.

Lemma sized_mk pre c post :
  sized (Z.of_nat (length pre + length c + length post)) (mkbuf pre c post).
Proof. eexists. split; [done|]. cbn. split; [rewrite !length_app; lia|done]. Qed.

Lemma sized_eq pre c post n :
  n = Z.of_nat (length pre + length c + length post) → sized n (mkbuf pre c post).
Proof. intros ->. apply sized_mk. Qed.

(** Bytes stored behind the content, and then counted. *)
Lemma poke_append pre c post bs :
  Forall is_byte bs → (length bs ≤ length post)%nat →
  poke (Z.of_nat (length pre) + Z.of_nat (length c)) bs (mkbuf pre c post) =
  Ret (tt, mkbuf pre c (bs ++ drop (length bs) post)).
Proof.
  intros Hb Hl. unfold poke, set_data. cbn [data mkbuf of_option]. bret. rewrite decide_True by lia.
  replace (Z.to_nat _) with (length (pre ++ c)) by (rewrite length_app; lia).
  rewrite app_assoc, <- (take_drop (length bs) post), fill_mid by (done || (rewrite length_take; lia)).
  bret. unfold mkbuf. cbn [capacity offset len]. do 2 f_equal.
  rewrite drop_app_length' by (rewrite length_take; lia).
  f_equal; [rewrite !length_app, length_take, length_drop; lia|by rewrite <- !app_assoc].
Qed.

Lemma buf_inc_len_mk pre c bs post :
  Z.of_nat (length pre + length c + length (bs ++ post)) < BUF_SIZE_MAX →
  buf_inc_len (Z.of_nat (length bs)) (mkbuf pre c (bs ++ post)) = Ret (true, mkbuf pre (c ++ bs) post).
Proof.
  intros Hm. rewrite length_app in Hm. unfold buf_inc_len, buf_safe_bidir, buf_size_valid_signed.
  rewrite valid_mk. cbn [len offset capacity mkbuf]. rewrite length_app.
  rewrite !bool_decide_eq_true_2 by (unfold BUF_SIZE_MAX in *; lia). cbn [andb].
  unfold set_len, mkbuf. cbn [capacity offset len data]. rewrite !length_app. do 2 f_equal.
  f_equal; [lia|lia|by rewrite <- !app_assoc].
Qed.

Lemma buf_advance_mk pre c1 c2 post :
  buf_advance (Z.of_nat (length c1)) (mkbuf pre (c1 ++ c2) post) =
  Ret (true, mkbuf (pre ++ c1) c2 post).
Proof.
  unfold buf_advance. rewrite valid_mk. cbn [len mkbuf].
  rewrite decide_False by (rewrite length_app; intros [?|[?|?]]; [done|lia..]).
  unfold mkbuf. cbn [capacity offset len data]. rewrite !length_app. do 2 f_equal.
  f_equal; first [lia|by rewrite <- !app_assoc].
Qed.

(** Room made in front of the content, and bytes stored there. *)
Lemma prepend_poke_mk bs pre c post :
  Forall is_byte bs → (length bs ≤ length pre)%nat →
  ∃ p b, buf_prepend (Z.of_nat (length bs)) (mkbuf pre c post) = Ret (Some p, b) ∧
    poke p bs b = Ret (tt, mkbuf (take (length pre - length bs) pre) (bs ++ c) post).
Proof.
  intros Hb Hl. pose proof (buf_write_prepend_mk bs pre c post Hb Hl) as H.
  unfold buf_write_prepend in H. rewrite bindM_run in H.
  destruct (buf_prepend _ _) as [[[p|] b]| | |]; try done. exists p, b. split; [done|].
  rewrite bind_Ret, bindM_run in H. destruct (poke p bs b) as [[[] b']| | |]; try done.
  rewrite bind_Ret in H. unfold mret, M_ret in H. by injection H as ->.
Qed.

(** ** Lemmas on timeouts *)

(** A recurring timer fires exactly when its interval has passed, is then armed
    for the next, and never lets the caller sleep beyond it. *)
Lemma event_timeout_trigger_ok now et sec usec :
  et_defined et = true → 0 ≤ et_last et ≤ now → 0 ≤ et_n et → now + et_n et < 2147483648 →
  let until := et_last et + et_n et in
  event_timeout_trigger now et (Some (sec, usec)) ETT_DEFAULT =
  Ret (if decide (until ≤ now)
       then (true, ET true (et_n et) now,
             Some (if decide (et_n et < sec) then (et_n et, 0) else (sec, usec)))
       else (false, et,
             Some (if decide (until - now < sec) then (until - now, 0) else (sec, usec)))).
Proof.
  intros Hd Hl Hn Hm until. unfold event_timeout_trigger. rewrite Hd.
  rewrite (s32_id (et_last et)) by (ints; lia). rewrite int_ok by (ints; lia). bret.
  fold until. rewrite s32_id by (unfold until; ints; lia).
  destruct (decide (until ≤ now)).
  - rewrite (decide_True (P := until - now ≤ 0)) by lia.
    rewrite (decide_True (P := ETT_DEFAULT < 0)) by done. by case_decide.
  - rewrite (decide_False (P := until - now ≤ 0)) by lia. by case_decide.
Qed.
