(* ===== verification/OvpnPacketId.v ===== *)
(** * OpenVPN: packet identifiers and replay protection

    Models [openvpn/src/src/openvpn/packet_id.c], with the inline functions of
    [packet_id.h] and the circular lists of [circ_list.h].  The global [now] is
    an argument; [time_t] is a [Z]; the messages printed are left out. *)
From S2P Require Import Prelude OvpnBuffer.

(** ** Circular lists ([circ_list.h]) *)

Record seq_list := CL { x_head : Z; x_size : Z; x_cap : Z; x_list : list Z }.

Definition CIRC_LIST_ALLOC (size : Z) : seq_list :=
  CL 0 0 size (replicate (Z.to_nat size) 0).
Definition CIRC_LIST_PUSH (item : Z) (l : seq_list) : outcome seq_list :=
  head ← modulo_add (x_head l) (-1) (x_cap l);
  xs ← array_set (x_list l) (Z.to_nat head) item;
  Ret (CL head (min_int (x_size l + 1) (x_cap l)) (x_cap l) xs).
Definition CIRC_LIST_INDEX (l : seq_list) (index : Z) : outcome Z :=
  index ← index_verify index (x_size l);
  modulo_add (x_head l) index (x_cap l).
Definition CIRC_LIST_ITEM (l : seq_list) (index : Z) : outcome Z :=
  i ← CIRC_LIST_INDEX l index;
  array_get (x_list l) (Z.to_nat i).
Definition CIRC_LIST_SET (l : seq_list) (index item : Z) : outcome seq_list :=
  i ← CIRC_LIST_INDEX l index;
  xs ← array_set (x_list l) (Z.to_nat i) item;
  Ret (CL (x_head l) (x_size l) (x_cap l) xs).
Definition CIRC_LIST_RESET (l : seq_list) : seq_list := CL 0 0 (x_cap l) (x_list l).

(** ** Packet identifiers *)

Definition SEQ_UNSEEN : Z := 0.
Definition SEQ_EXPIRED : Z := 1.
Definition MAX_SEQ_BACKTRACK : Z := 65536.
Definition MAX_TIME_BACKTRACK : Z := 600.
Definition SEQ_REAP_INTERVAL : Z := 5.
Definition PACKET_ID_WRAP_TRIGGER : Z := 4278190080.

Record packet_id_net := PN { pin_id : Z; pin_time : Z }.

Record packet_id_rec := PR {
  last_reap : Z;
  rec_time : Z;
  rec_id : Z;
  seq_backtrack : Z;
  time_backtrack : Z;
  max_backtrack_stat : Z;
  initialized : bool;
  seqs : option seq_list;
}.
Record packet_id_send := PS { send_id : Z; send_time : Z }.
Record packet_id := PID { pid_send : packet_id_send; pid_rec : packet_id_rec }.

Definition set_rec (time id : Z) (sl : option seq_list) (p : packet_id_rec) : packet_id_rec :=
  PR (last_reap p) time id (seq_backtrack p) (time_backtrack p) (max_backtrack_stat p)
    (initialized p) sl.

Definition packet_id_zero : packet_id := PID (PS 0 0) (PR 0 0 0 0 0 0 false None).

Definition packet_id_init (tcp_mode : bool) (seq_bt time_bt : Z) : outcome packet_id :=
  if decide (seq_bt ≠ 0 ∧ tcp_mode = false) then
    ASSERT (0 ≤ seq_bt ∧ seq_bt ≤ MAX_SEQ_BACKTRACK);;
    ASSERT (0 ≤ time_bt ∧ time_bt ≤ MAX_TIME_BACKTRACK);;
    Ret (PID (PS 0 0) (PR 0 0 0 seq_bt time_bt 0 true (Some (CIRC_LIST_ALLOC seq_bt))))
  else Ret (PID (PS 0 0) (PR 0 0 0 0 0 0 true None)).

(** [packet_id_free] of a pointer: the structure is cleared. *)
Definition packet_id_free (p : option packet_id) : option packet_id :=
  (λ _, packet_id_zero) <$> p.

(** One round of [while (p->id < pin->id)]. *)
Definition add_body (pid : Z) (s : Z * seq_list) : outcome (Z * seq_list + Z * seq_list) :=
  let '(id, l) := s in
  if decide (id < pid) then
    l ← CIRC_LIST_PUSH SEQ_UNSEEN l;
    Ret (inl (u32 (id + 1), l))
  else Ret (inr (id, l)).

Definition packet_id_add (now : Z) (p : packet_id_rec) (pin : packet_id_net) :
    outcome packet_id_rec :=
  match seqs p with
  | Some l =>
      let bt := u32 (seq_backtrack p) in
      let '(time, id, l) :=
        if decide (x_size l = 0 ∨ pin_time pin > rec_time p ∨
                   (pin_id pin >= bt ∧ u32 (pin_id pin - bt) > rec_id p))
        then (pin_time pin, if decide (pin_id pin > bt) then u32 (pin_id pin - bt) else 0,
              CIRC_LIST_RESET l)
        else (rec_time p, rec_id p, l) in
      '(id, l) ← loop (S (Z.to_nat (pin_id pin - id))) (add_body (pin_id pin)) (id, l);
      let diff := u32 (id - pin_id pin) in
      l ← (if decide (diff < u32 (x_size l) ∧ now > SEQ_EXPIRED)
           then CIRC_LIST_SET l diff now else Ret l);
      Ret (set_rec time id (Some l) p)
  | None => Ret (set_rec (pin_time pin) (pin_id pin) None p)
  end.

(** The loop of [packet_id_reap] from index [i]. *)
Fixpoint reap_loop (now bt : Z) (n : nat) (i : Z) (expire : bool) (l : seq_list) :
    outcome seq_list :=
  match n with
  | O => Ret l
  | S n =>
      t ← CIRC_LIST_ITEM l i;
      if decide (t = SEQ_EXPIRED) then Ret l
      else
        let expire := if decide (expire = false ∧ t ≠ 0 ∧ t + bt < now) then true else expire in
        l ← (if expire : bool then CIRC_LIST_SET l i SEQ_EXPIRED else Ret l);
        reap_loop now bt n (i + 1) expire l
  end.

Definition packet_id_reap (now : Z) (p : packet_id_rec) : outcome packet_id_rec :=
  sl ← (if decide (time_backtrack p ≠ 0) then
          l ← of_option (seqs p);
          l ← reap_loop now (time_backtrack p) (Z.to_nat (x_size l)) 0 false l;
          Ret (Some l)
        else Ret (seqs p));
  Ret (PR now (rec_time p) (rec_id p) (seq_backtrack p) (time_backtrack p)
         (max_backtrack_stat p) (initialized p) sl).

Definition packet_id_reap_test (now : Z) (p : packet_id_rec) : outcome packet_id_rec :=
  if decide (last_reap p + SEQ_REAP_INTERVAL ≤ now) then packet_id_reap now p else Ret p.

Definition set_max_backtrack (n : Z) (p : packet_id_rec) : packet_id_rec :=
  PR (last_reap p) (rec_time p) (rec_id p) (seq_backtrack p) (time_backtrack p) n
    (initialized p) (seqs p).

(** The result, and the state with its statistics updated. *)
Definition packet_id_test (p : packet_id_rec) (pin : packet_id_net) :
    outcome (bool * packet_id_rec) :=
  ASSERT (initialized p = true);;
  if decide (pin_id pin = 0) then Ret (false, p)
  else if decide (seq_backtrack p ≠ 0) then
    if decide (pin_time pin = rec_time p) then
      if decide (pin_id pin > rec_id p) then Ret (true, p)
      else
        let diff := u32 (rec_id p - pin_id pin) in
        let p := if decide (s32 diff > max_backtrack_stat p)
                 then set_max_backtrack (s32 diff) p else p in
        l ← of_option (seqs p);
        if decide (diff >= u32 (x_size l)) then Ret (false, p)
        else
          v ← CIRC_LIST_ITEM l (s32 diff);
          Ret (bool_decide (v = 0), p)
    else if decide (pin_time pin < rec_time p) then Ret (false, p)
    else Ret (true, p)
  else
    if decide (pin_time pin = rec_time p) then
      Ret (bool_decide (rec_id p = 0 ∨ pin_id pin = u32 (rec_id p + 1)), p)
    else if decide (pin_time pin < rec_time p) then Ret (false, p)
    else Ret (bool_decide (pin_id pin = 1), p).

(** ** On the wire *)

Definition packet_id_read (long_form : bool) : M buffer (bool * packet_id_net) :=
  id ← buf_read_u32;
  match id with
  | None => mret (false, PN 0 0)
  | Some id =>
      if long_form then
        t ← buf_read_u32;
        mret (match t with None => (false, PN id 0) | Some t => (true, PN id t) end)
      else mret (true, PN id 0)
  end.

Definition packet_id_write (pin : packet_id_net) (long_form prepend : bool) : M buffer bool :=
  let net_id := be32 (pin_id pin) in
  let net_time := be32 (pin_time pin) in
  if prepend then
    ok ← (if long_form then buf_write_prepend net_time else mret true);
    if ok : bool then buf_write_prepend net_id else mret false
  else
    ok ← buf_write net_id;
    if ok : bool then if long_form then buf_write net_time else mret true
    else mret false.

Definition packet_id_size (long_form : bool) : Z := 4 + (if long_form then 4 else 0).
Definition packet_id_close_to_wrapping (p : packet_id_send) : bool :=
  bool_decide (send_id p >= PACKET_ID_WRAP_TRIGGER).

(** The outgoing identifier and the sender afterwards. *)
Definition packet_id_alloc_outgoing (now : Z) (p : packet_id_send) (long_form : bool) :
    outcome (packet_id_net * packet_id_send) :=
  let time := if decide (send_time p = 0) then now else send_time p in
  let id := u32 (send_id p + 1) in
  if decide (id = 0) then
    ASSERT (long_form = true);;
    Ret (PN 1 now, PS 1 now)
  else Ret (PN id time, PS id time).

Definition check_timestamp_delta (now remote max_delta : Z) : bool :=
  bool_decide (u32 (if decide (now >= remote) then now - remote else remote - now) ≤ max_delta).

(** ** Persistence *)

Record packet_id_persist := PP {
  filename : option (list Z);
  fd : Z;
  per_time : Z;
  per_id : Z;
  time_last_written : Z;
  id_last_written : Z;
}.

Definition packet_id_persist_enabled (p : packet_id_persist) : bool := bool_decide (fd p >= 0).
Definition packet_id_persist_init : packet_id_persist := PP None (-1) 0 0 0 0.
Definition packet_id_persist_close (p : packet_id_persist) : packet_id_persist :=
  if packet_id_persist_enabled p then packet_id_persist_init else p.

(** The file system: what [open] returns, whether [flock] fails, the image a
    [read] finds if it finds one; whether [lseek] and [write] succeed. *)
Definition packet_id_persist_load (open : Z) (flock_fails : bool)
    (image : option packet_id_net) (name : list Z) (p : packet_id_persist) :
    outcome packet_id_persist :=
  if packet_id_persist_enabled p then Ret p
  else if decide (open = -1) then
    Ret (PP (filename p) open (per_time p) (per_id p) (time_last_written p) (id_last_written p))
  else
    ASSERT (flock_fails = false);;
    Ret (match image with
         | Some i => PP (Some name) open (pin_time i) (pin_id i) (pin_time i) (pin_id i)
         | None => PP (Some name) open (per_time p) (per_id p) (time_last_written p)
                     (id_last_written p)
         end).

(** The structure, and what is written to the file. *)
Definition packet_id_persist_save (seek_ok write_ok : bool) (p : packet_id_persist) :
    packet_id_persist * option packet_id_net :=
  if decide (packet_id_persist_enabled p = true ∧ per_time p ≠ 0 ∧
             (per_time p ≠ time_last_written p ∨ per_id p ≠ id_last_written p)) then
    if seek_ok then
      if write_ok then
        (PP (filename p) (fd p) (per_time p) (per_id p) (per_time p) (per_id p),
         Some (PN (per_id p) (per_time p)))
      else (p, None)
    else (p, None)
  else (p, None).

Definition packet_id_persist_load_obj (p : packet_id_persist) (pid : packet_id) : packet_id :=
  if decide (packet_id_persist_enabled p = true ∧ per_time p ≠ 0)
  then PID (pid_send pid) (set_rec (per_time p) (per_id p) (seqs (pid_rec pid)) (pid_rec pid))
  else pid.

Definition packet_id_persist_save_obj (p : packet_id_persist) (pid : packet_id) :
    packet_id_persist :=
  if decide (packet_id_persist_enabled p = true ∧ rec_time (pid_rec pid) ≠ 0)
  then PP (filename p) (fd p) (rec_time (pid_rec pid)) (rec_id (pid_rec pid))
         (time_last_written p) (id_last_written p)
  else p.

(** ** Circular lists, by their items *)

Definition wf_cl (l : seq_list) : Prop :=
  0 < x_cap l ≤ MAX_SEQ_BACKTRACK ∧ Z.of_nat (length (x_list l)) = x_cap l ∧
  0 ≤ x_head l < x_cap l ∧ 0 ≤ x_size l ≤ x_cap l.

(** The item at distance [i] from the head. *)
Definition item (l : seq_list) (i : Z) : Z :=
  default 0 (x_list l !! Z.to_nat ((x_head l + i) mod x_cap l)).

Lemma item_lookup l i :
  wf_cl l → is_Some (x_list l !! Z.to_nat ((x_head l + i) mod x_cap l)).
Proof.
  intros (Hc & Hl & _). apply lookup_lt_is_Some_2.
  pose proof (Z.mod_pos_bound (x_head l + i) (x_cap l)). lia.
Qed.

Lemma CIRC_LIST_ITEM_ok l i : wf_cl l → 0 ≤ i < x_size l → CIRC_LIST_ITEM l i = Ret (item l i).
Proof.
  intros Hw Hi. destruct (item_lookup l i Hw) as [v Hv]. destruct Hw as (Hc & Hl & Hh & Hs).
  unfold CIRC_LIST_ITEM, CIRC_LIST_INDEX, index_verify. rewrite decide_False by lia. bret.
  rewrite modulo_add_ok by (unfold MAX_SEQ_BACKTRACK in *; lia). bret. unfold array_get, item. by rewrite Hv.
Qed.

(** Two distances below the capacity are different places. *)
Lemma index_inj l i j :
  wf_cl l → 0 ≤ i < x_cap l → 0 ≤ j < x_cap l →
  Z.to_nat ((x_head l + i) mod x_cap l) = Z.to_nat ((x_head l + j) mod x_cap l) → i = j.
Proof.
  intros (Hc & _) Hi Hj E.
  pose proof (Z.mod_pos_bound (x_head l + i) (x_cap l)).
  pose proof (Z.mod_pos_bound (x_head l + j) (x_cap l)).
  assert ((x_head l + i) mod x_cap l = (x_head l + j) mod x_cap l) as E' by lia.
  pose proof (Z.div_mod (x_head l + i) (x_cap l)). pose proof (Z.div_mod (x_head l + j) (x_cap l)).
  set (a := (x_head l + i) / x_cap l) in *. set (b := (x_head l + j) / x_cap l) in *.
  assert (x_cap l * (a - b) = i - j) by lia. assert (a - b = 0) by nia. lia.
Qed.

Lemma CIRC_LIST_SET_ok l i v :
  wf_cl l → 0 ≤ i < x_size l →
  ∃ l', CIRC_LIST_SET l i v = Ret l' ∧ wf_cl l' ∧ x_size l' = x_size l ∧ x_cap l' = x_cap l ∧
    ∀ j, 0 ≤ j < x_cap l → item l' j = if decide (j = i) then v else item l j.
Proof.
  intros Hw Hi. pose proof Hw as (Hc & Hl & Hh & Hs).
  unfold CIRC_LIST_SET, CIRC_LIST_INDEX, index_verify. rewrite decide_False by lia. bret.
  rewrite modulo_add_ok by (unfold MAX_SEQ_BACKTRACK in *; lia). bret. pose proof (Z.mod_pos_bound (x_head l + i) (x_cap l)).
  rewrite array_set_ok by lia. bret. eexists. split; [done|].
  split; [unfold wf_cl; cbn; rewrite length_insert; done|]. split; [done|]. split; [done|].
  intros j Hj. unfold item. cbn. case_decide as Hji.
  - subst j. by rewrite list_lookup_insert_eq by lia.
  - rewrite list_lookup_insert_ne; [done|]. intros E. apply Hji. symmetry.
    apply (index_inj l); [done|lia|lia|done].
Qed.

Lemma CIRC_LIST_PUSH_ok l v :
  wf_cl l →
  ∃ l', CIRC_LIST_PUSH v l = Ret l' ∧ wf_cl l' ∧ x_size l' = Z.min (x_size l + 1) (x_cap l) ∧
    x_cap l' = x_cap l ∧
    ∀ j, 0 ≤ j < x_cap l → item l' j = if decide (j = 0) then v else item l (j - 1).
Proof.
  intros Hw. pose proof Hw as (Hc & Hl & Hh & Hs). unfold CIRC_LIST_PUSH.
  rewrite modulo_add_ok by (unfold MAX_SEQ_BACKTRACK in *; lia). bret. pose proof (Z.mod_pos_bound (x_head l + -1) (x_cap l)).
  rewrite array_set_ok by lia. bret. eexists. split; [done|].
  assert (min_int (x_size l + 1) (x_cap l) = Z.min (x_size l + 1) (x_cap l)) as ->
    by (unfold min_int; case_decide; lia).
  split; [unfold wf_cl; cbn; rewrite length_insert; lia|]. split; [done|]. split; [done|].
  intros j Hj. unfold item. cbn.
  assert (((x_head l + -1) mod x_cap l + j) mod x_cap l = (x_head l + (j - 1)) mod x_cap l) as ->.
  { rewrite Zplus_mod_idemp_l. f_equal. lia. }
  case_decide as Hj0.
  - subst j. by rewrite list_lookup_insert_eq by lia.
  - rewrite list_lookup_insert_ne; [done|]. intros E.
    assert (x_cap l - 1 = j - 1) as E2; [|lia].
    apply (index_inj l); [done|lia|lia|]. rewrite <- E. f_equal.
    rewrite <- (Z.mod_add (x_head l + -1) 1) by lia. f_equal. lia.
Qed.

(** ** The window after new identifiers *)

Lemma add_loop_ok pid : ∀ fuel id l,
  wf_cl l → 0 ≤ id → pid < 4294967296 → (Z.to_nat (pid - id) < fuel)%nat →
  ∃ l', loop fuel (add_body pid) (id, l) = Ret (Z.max id pid, l') ∧ wf_cl l' ∧
    x_cap l' = x_cap l ∧
    x_size l' = Z.min (x_size l + Z.max 0 (pid - id)) (x_cap l) ∧
    ∀ j, 0 ≤ j < x_cap l →
      item l' j = if decide (j < pid - id) then 0 else item l (j - Z.max 0 (pid - id)).
Proof.
  induction fuel as [|fuel IH]; intros id l Hw Hid Hpid Hf; [lia|].
  rewrite loop_S. cbn [add_body]. destruct (decide (id < pid)).
  - destruct (CIRC_LIST_PUSH_ok l SEQ_UNSEEN Hw) as (l1 & -> & Hw1 & Hs1 & Hc1 & Hi1). bret.
    rewrite (wrap_small 32) by (change (2 ^ 32) with 4294967296; lia).
    destruct (IH (id + 1) l1) as (l2 & E & Hw2 & Hc2 & Hs2 & Hi2); [done|lia..|].
    exists l2. split; [rewrite E; do 2 f_equal; lia|]. split; [done|]. split; [congruence|].
    pose proof Hw as (_ & _ & _ & Hsz).
    split; [lia|]. intros j Hj. rewrite Hi2 by lia.
    destruct (decide (j < pid - (id + 1))); [by rewrite decide_True by lia|].
    rewrite Hi1 by lia. destruct (decide (j < pid - id)).
    + by rewrite decide_True by lia.
    + rewrite decide_False by lia. f_equal. lia.
  - bret. exists l. pose proof Hw as (_ & _ & _ & Hsz).
    split; [do 2 f_equal; lia|]. split; [done|]. split; [done|]. split; [lia|].
    intros j Hj. rewrite decide_False by lia. f_equal. lia.
Qed.

(** ** Rejection *)

Lemma u32_id z : is_u32 z → u32 z = z.
Proof. apply (wrap_small 32). Qed.

(** A receiver with a window: [--replay-window], as UDP uses it. *)
Definition wf_rec (p : packet_id_rec) : Prop :=
  initialized p = true ∧ is_u32 (rec_id p) ∧ 0 ≤ time_backtrack p ∧
  match seqs p with
  | Some l => wf_cl l ∧ x_cap l = seq_backtrack p ∧ (x_size l = 0 → rec_id p = 0)
  | None => False
  end.

(** The identifiers [packet_id_test] turns down. *)
Definition rejects (p : packet_id_rec) (x : packet_id_net) : Prop :=
  pin_time x < rec_time p ∨
  (pin_time x = rec_time p ∧ pin_id x ≤ rec_id p ∧
   match seqs p with
   | Some l => x_size l ≤ rec_id p - pin_id x ∨ item l (rec_id p - pin_id x) ≠ 0
   | None => False
   end).
#[export] Instance rejects_dec p x : Decision (rejects p x).
Proof. unfold rejects. destruct (seqs p); apply _. Defined.

Lemma rejects_Some p x l : seqs p = Some l →
  rejects p x ↔ pin_time x < rec_time p ∨
    (pin_time x = rec_time p ∧ pin_id x ≤ rec_id p ∧
     (x_size l ≤ rec_id p - pin_id x ∨ item l (rec_id p - pin_id x) ≠ 0)).
Proof. intros E. unfold rejects. by rewrite E. Qed.

(** [p'] is [p] but for the statistics. *)
Definition same_window (p p' : packet_id_rec) : Prop :=
  rec_time p' = rec_time p ∧ rec_id p' = rec_id p ∧ seq_backtrack p' = seq_backtrack p ∧
  time_backtrack p' = time_backtrack p ∧ initialized p' = initialized p ∧ seqs p' = seqs p.

Lemma same_window_rejects p p' x : same_window p p' → rejects p' x ↔ rejects p x.
Proof. intros (Et & Ei & _ & _ & _ & El). unfold rejects. by rewrite Et, Ei, El. Qed.

Lemma same_window_wf p p' : same_window p p' → wf_rec p → wf_rec p'.
Proof. intros (Et & Ei & Eb & Etb & Ein & El). unfold wf_rec. by rewrite Ei, Eb, Etb, Ein, El. Qed.

Lemma packet_id_test_ok p x :
  wf_rec p → 0 < pin_id x < 4294967296 →
  ∃ p', packet_id_test p x = Ret (negb (bool_decide (rejects p x)), p') ∧ same_window p p'.
Proof.
  intros (Hin & Hid & _ & Hw) Hx. destruct (seqs p) as [l|] eqn:El; [|done].
  destruct Hw as (Hw & Hcap & _). pose proof Hw as (Hc & _ & _ & Hs).
  unfold packet_id_test. rewrite ASSERT_ok by done. bret. rewrite decide_False by lia.
  rewrite decide_True by lia. pose proof (rejects_Some p x l El) as Hrej. unfold MAX_SEQ_BACKTRACK, is_u32 in *.
  destruct (decide (pin_time x = rec_time p)) as [Et|Et].
  - destruct (decide (pin_id x > rec_id p)).
    + exists p. split; [|done]. rewrite bool_decide_eq_false_2 by (rewrite Hrej; lia). done.
    + rewrite u32_id by (unfold is_u32; lia).
      set (p' := if decide _ then _ else p).
      assert (same_window p p') as Hsw by (unfold p'; case_decide; done).
      exists p'. split; [|done]. destruct Hsw as (_ & _ & _ & _ & _ & ->). rewrite El.
      cbn [of_option]. bret.
      rewrite u32_id by (unfold is_u32; lia).
      destruct (decide (rec_id p - pin_id x >= x_size l)).
      * rewrite bool_decide_eq_true_2 by (rewrite Hrej; lia). done.
      * rewrite s32_id by (ints; lia). rewrite CIRC_LIST_ITEM_ok by (done || lia). bret.
        do 2 f_equal. rewrite <- bool_decide_not. apply bool_decide_ext. rewrite Hrej. lia.
  - destruct (decide (pin_time x < rec_time p)).
    + exists p. split; [|done]. rewrite bool_decide_eq_true_2 by (rewrite Hrej; lia). done.
    + exists p. split; [|done]. rewrite bool_decide_eq_false_2 by (rewrite Hrej; lia). done.
Qed.

(** The window from which [packet_id_add] pushes: its own, or an empty one that
    starts a window's length below the new identifier. *)
Definition add_start (p : packet_id_rec) (x : packet_id_net) (l : seq_list) :
    Z * Z * seq_list :=
  if decide (x_size l = 0 ∨ pin_time x > rec_time p ∨
             (pin_id x >= x_cap l ∧ pin_id x - x_cap l > rec_id p))
  then (pin_time x, Z.max 0 (pin_id x - x_cap l), CIRC_LIST_RESET l)
  else (rec_time p, rec_id p, l).

Lemma packet_id_add_eq now p x l :
  seqs p = Some l → x_cap l = seq_backtrack p → wf_cl l → is_u32 (rec_id p) →
  0 < pin_id x < 4294967296 → 1 < now →
  let '(time, id0, l0) := add_start p x l in
  pin_id x - id0 ≤ x_cap l → (id0 - pin_id x < x_size l0 ∨ id0 < pin_id x) →
  ∃ l', packet_id_add now p x = Ret (set_rec time (Z.max id0 (pin_id x)) (Some l') p) ∧
    wf_cl l' ∧ x_cap l' = x_cap l ∧
    x_size l' = Z.min (x_size l0 + Z.max 0 (pin_id x - id0)) (x_cap l) ∧
    ∀ j, 0 ≤ j < x_cap l →
      item l' j = if decide (j = Z.max id0 (pin_id x) - pin_id x) then now
                  else if decide (j < pin_id x - id0) then 0
                  else item l0 (j - Z.max 0 (pin_id x - id0)).
Proof.
  intros El Hcap Hw Hid Hx Hnow. pose proof Hw as (Hc & Hlen & Hh & Hs).
  unfold MAX_SEQ_BACKTRACK, is_u32 in *.
  unfold packet_id_add. rewrite El, <- Hcap. rewrite (u32_id (x_cap l)) by (unfold is_u32; lia).
  assert ((if decide (x_size l = 0 ∨ pin_time x > rec_time p ∨
             (pin_id x >= x_cap l ∧ u32 (pin_id x - x_cap l) > rec_id p))
           then (pin_time x, if decide (pin_id x > x_cap l) then u32 (pin_id x - x_cap l) else 0,
                 CIRC_LIST_RESET l)
           else (rec_time p, rec_id p, l)) = add_start p x l) as ->.
  { unfold add_start. destruct (decide (pin_id x >= x_cap l)).
    - rewrite u32_id by (unfold is_u32; lia). repeat case_decide; try lia; f_equal; f_equal; lia.
    - rewrite (decide_False (P := pin_id x > x_cap l)) by lia.
      repeat case_decide; try lia; f_equal; f_equal; lia. }
  destruct (add_start p x l) as [[time id0] l0] eqn:Est. intros Hgap Hin.
  assert (wf_cl l0 ∧ 0 ≤ id0 < 4294967296 ∧ x_cap l0 = x_cap l) as (Hw0 & Hid0 & Hc0).
  { unfold add_start in Est. case_decide; injection Est as <- <- <-; [|done].
    split; [|unfold CIRC_LIST_RESET; cbn; lia]. unfold wf_cl, MAX_SEQ_BACKTRACK. cbn. lia. }
  destruct (add_loop_ok (pin_id x) (S (Z.to_nat (pin_id x - id0))) id0 l0) as
    (l1 & -> & Hw1 & Hc1 & Hs1 & Hi1); [done|lia..|]. bret.
  rewrite u32_id by (unfold is_u32; lia). pose proof Hw1 as (_ & _ & _ & Hsz1).
  rewrite u32_id by (unfold is_u32; lia).
  pose proof Hw0 as (_ & _ & _ & Hsz0).
  assert (id0 `max` pin_id x - pin_id x < x_size l1) as Hlt by lia.
  rewrite (decide_True (P := _ ∧ now > _)) by (unfold SEQ_EXPIRED; lia).
  destruct (CIRC_LIST_SET_ok l1 (Z.max id0 (pin_id x) - pin_id x) now) as
    (l2 & -> & Hw2 & Hs2 & Hc2 & Hi2); [done|lia|]. bret.
  exists l2. split; [done|]. split; [done|]. split; [congruence|]. split; [congruence|].
  intros j Hj. rewrite Hi2 by lia. case_decide; [done|]. by rewrite Hi1 by lia.
Qed.

(** An accepted identifier is rejected from then on, and so is all that was. *)
Lemma packet_id_add_ok now p x :
  wf_rec p → 0 < pin_id x < 4294967296 → ¬ rejects p x → 1 < now →
  ∃ p', packet_id_add now p x = Ret p' ∧ wf_rec p' ∧ rejects p' x ∧
    (∀ y, 0 < pin_id y → rejects p y → rejects p' y).
Proof.
  intros (Hin & Hid & Htb & Hw) Hx Hnr Hnow. destruct (seqs p) as [l|] eqn:El; [|done].
  destruct Hw as (Hw & Hcap & Hempty). pose proof Hw as (Hc & _ & _ & Hs).
  rewrite (rejects_Some p x l El) in Hnr.
  pose proof (packet_id_add_eq now p x l El Hcap Hw Hid Hx Hnow) as Hadd.
  unfold add_start in Hadd. unfold is_u32 in Hid.
  destruct (decide (x_size l = 0 ∨ pin_time x > rec_time p ∨
             (pin_id x >= x_cap l ∧ pin_id x - x_cap l > rec_id p))) as [Hreset|Hkeep].
  - destruct Hadd as (l' & -> & Hw' & Hc' & Hs' & Hi'); [lia|right; lia|].
    eexists. split; [done|]. cbn [x_size CIRC_LIST_RESET] in Hs'. split.
    { unfold wf_rec, is_u32. cbn. split; [done|]. split; [lia|]. split; [done|]. split; [done|].
      split; [congruence|lia]. }
    split; [|intros y Hy Hry].
    + rewrite (rejects_Some _ x l') by done. right. cbn. split; [done|]. split; [lia|]. right.
      rewrite Hi' by lia. rewrite decide_True by lia. lia.
    + rewrite (rejects_Some _ y l') by done. rewrite (rejects_Some p y l El) in Hry. cbn. lia.
  - destruct Hadd as (l' & -> & Hw' & Hc' & Hs' & Hi'); [lia|lia|].
    eexists. split; [done|]. split.
    { unfold wf_rec, is_u32. cbn. split; [done|]. split; [lia|]. split; [done|]. split; [done|].
      split; [congruence|lia]. }
    split; [|intros y Hy Hry].
    + rewrite (rejects_Some _ x l') by done. right. cbn. split; [lia|]. split; [lia|]. right.
      rewrite Hi' by lia. rewrite decide_True by lia. lia.
    + rewrite (rejects_Some _ y l') by done. rewrite (rejects_Some p y l El) in Hry. cbn.
      destruct Hry as [Hry|(Ht & Hiy & Hry)]; [by left|]. right. split; [done|]. split; [lia|].
      destruct (decide (x_size l' ≤ Z.max (rec_id p) (pin_id x) - pin_id y)); [by left|]. right.
      rewrite Hi' by lia. case_decide; [lia|].
      destruct (decide (Z.max (rec_id p) (pin_id x) - pin_id y < pin_id x - rec_id p)); [lia|].
      replace (_ - _ - _) with (rec_id p - pin_id y) by lia. lia.
Qed.

(** ** Expiry *)

Lemma reap_loop_ok now bt : ∀ n i expire l,
  wf_cl l → 0 ≤ i → i + Z.of_nat n = x_size l →
  ∃ l', reap_loop now bt n i expire l = Ret l' ∧ wf_cl l' ∧ x_size l' = x_size l ∧
    x_cap l' = x_cap l ∧
    ∀ j, 0 ≤ j < x_cap l → item l' j = item l j ∨ (i ≤ j ∧ item l' j = SEQ_EXPIRED).
Proof.
  induction n as [|n IH]; intros i expire l Hw Hi Hn; cbn [reap_loop].
  - exists l. split; [done|]. split; [done|]. split; [done|]. split; [done|]. by left.
  - rewrite CIRC_LIST_ITEM_ok by (done || lia). bret.
    destruct (decide (item l i = SEQ_EXPIRED)).
    { exists l. split; [done|]. split; [done|]. split; [done|]. split; [done|]. by left. }
    set (e := if decide (expire = false ∧ _) then true else expire). destruct e.
    + destruct (CIRC_LIST_SET_ok l i SEQ_EXPIRED) as (l1 & -> & Hw1 & Hs1 & Hc1 & Hi1); [done|lia|].
      bret. destruct (IH (i + 1) true l1) as (l2 & E & Hw2 & Hs2 & Hc2 & Hi2); [done|lia..|].
      exists l2. split; [done|]. split; [done|]. split; [congruence|]. split; [congruence|].
      intros j Hj. destruct (Hi2 j) as [E2|[? E2]]; [lia| |right; split; [lia|done]].
      rewrite E2, Hi1 by lia. case_decide; [right; split; [lia|done]|by left].
    + bret. destruct (IH (i + 1) false l) as (l2 & E & Hw2 & Hs2 & Hc2 & Hi2); [done|lia..|].
      exists l2. split; [done|]. split; [done|]. split; [done|]. split; [done|].
      intros j Hj. destruct (Hi2 j Hj) as [?|[? ?]]; [by left|right; split; [lia|done]].
Qed.

Lemma packet_id_reap_test_ok now p :
  wf_rec p →
  ∃ p', packet_id_reap_test now p = Ret p' ∧ wf_rec p' ∧
    (rec_time p' = rec_time p ∧ rec_id p' = rec_id p) ∧ ∀ y, rejects p y → rejects p' y.
Proof.
  intros Hwf. pose proof Hwf as (Hin & Hid & Htb & Hw).
  destruct (seqs p) as [l|] eqn:El; [|done].
  destruct Hw as (Hw & Hcap & Hempty). pose proof Hw as (Hc & _ & _ & Hs).
  unfold packet_id_reap_test. case_decide; [|by exists p].
  unfold packet_id_reap. rewrite El. cbn [of_option]. destruct (decide (time_backtrack p ≠ 0)).
  - bret. destruct (reap_loop_ok now (time_backtrack p) (Z.to_nat (x_size l)) 0 false l)
      as (l' & -> & Hw' & Hs' & Hc' & Hi'); [done|lia..|]. bret.
    eexists. split; [done|]. split.
    { unfold wf_rec. cbn. split; [done|]. split; [done|]. split; [done|]. split; [done|].
      split; [congruence|]. rewrite Hs'. done. }
    split; [done|]. intros y. rewrite (rejects_Some p y l El), (rejects_Some _ y l') by done. cbn.
    intros [?|(? & ? & Hy)]; [by left|]. right. split; [done|]. split; [done|].
    rewrite Hs'. destruct Hy as [?|Hy]; [by left|].
    destruct (decide (x_size l ≤ rec_id p - pin_id y)); [by left|]. right.
    destruct (Hi' (rec_id p - pin_id y)) as [->|[_ ->]]; [lia|done|done].
  - bret. eexists. split; [done|]. split.
    { unfold wf_rec. cbn. done. }
    split; [done|]. intros y. by rewrite (rejects_Some p y l El), (rejects_Some _ y l) by done.
Qed.

(** ** Receiving *)

(** What [openvpn_decrypt] does with the identifier of an authentic packet. *)
Definition receive (now : Z) (p : packet_id_rec) (x : packet_id_net) :
    outcome (bool * packet_id_rec) :=
  p ← packet_id_reap_test now p;
  '(ok, p) ← packet_id_test p x;
  if ok : bool then p ← packet_id_add now p x; Ret (true, p) else Ret (false, p).

Lemma receive_ok now p x :
  wf_rec p → 0 < pin_id x < 4294967296 → 1 < now →
  ∃ ok p', receive now p x = Ret (ok, p') ∧ wf_rec p' ∧
    (ok = true → ¬ rejects p x) ∧ rejects p' x ∧
    (∀ y, 0 < pin_id y → rejects p y → rejects p' y).
Proof.
  intros Hwf Hx Hnow. unfold receive.
  destruct (packet_id_reap_test_ok now p Hwf) as (p1 & -> & Hwf1 & _ & Hm1). bret.
  destruct (packet_id_test_ok p1 x Hwf1 Hx) as (p2 & -> & Hsw). bret.
  pose proof (same_window_wf _ _ Hsw Hwf1) as Hwf2.
  case_bool_decide as Hr; cbn [negb].
  - exists false, p2. split; [done|]. split; [done|]. split; [done|].
    split; [by rewrite (same_window_rejects _ _ _ Hsw)|].
    intros y _ Hy. rewrite (same_window_rejects _ _ _ Hsw). auto.
  - destruct (packet_id_add_ok now p2 x Hwf2 Hx) as (p3 & -> & Hwf3 & Hr3 & Hm3); [|done|].
    { by rewrite (same_window_rejects _ _ _ Hsw). }
    bret. exists true, p3. split; [done|]. split; [done|]. split; [auto|]. split; [done|].
    intros y Hy0 Hy. apply Hm3; [done|]. rewrite (same_window_rejects _ _ _ Hsw). auto.
Qed.

(** Identifier 0 is never used, and never accepted. *)
Lemma receive_zero now p x :
  wf_rec p → pin_id x = 0 →
  ∃ p', receive now p x = Ret (false, p') ∧ wf_rec p' ∧ ∀ y, rejects p y → rejects p' y.
Proof.
  intros Hwf Hx. unfold receive.
  destruct (packet_id_reap_test_ok now p Hwf) as (p1 & -> & Hwf1 & _ & Hm1). bret.
  unfold packet_id_test. rewrite ASSERT_ok by apply Hwf1. bret.
  rewrite decide_True by done. bret. by exists p1.
Qed.

(** The identifiers accepted from a sequence of packets and their arrival
    times. *)
Fixpoint run (p : packet_id_rec) (xs : list (Z * packet_id_net)) :
    outcome (list packet_id_net * packet_id_rec) :=
  match xs with
  | [] => Ret ([], p)
  | (now, x) :: xs =>
      '(ok, p) ← receive now p x;
      '(acc, p) ← run p xs;
      Ret (if ok : bool then x :: acc else acc, p)
  end.

Lemma run_ok xs : ∀ p,
  wf_rec p → Forall (λ '(now, x), 1 < now ∧ is_u32 (pin_id x)) xs →
  ∃ acc p', run p xs = Ret (acc, p') ∧ wf_rec p' ∧ NoDup acc ∧
    (∀ x, x ∈ acc → ¬ rejects p x ∧ 0 < pin_id x) ∧ acc `sublist_of` map snd xs.
Proof.
  induction xs as [|[now x] xs IH]; intros p Hwf Hxs; cbn [run map snd].
  { exists [], p. split; [done|]. split; [done|]. split; [constructor|].
    split; [by intros ? ?%not_elem_of_nil|done]. }
  apply Forall_cons in Hxs as [[Hnow Hx] Hxs]. unfold is_u32 in Hx.
  assert (∃ ok p1, receive now p x = Ret (ok, p1) ∧ wf_rec p1 ∧
    (ok = true → ¬ rejects p x ∧ rejects p1 x ∧ 0 < pin_id x) ∧
    (∀ y, 0 < pin_id y → rejects p y → rejects p1 y)) as (ok & p1 & -> & Hwf1 & Hok & Hm).
  { destruct (decide (pin_id x = 0)) as [E0|E0].
    - destruct (receive_zero now p x Hwf E0) as (p1 & -> & Hwf1 & Hm).
      exists false, p1. split; [done|]. split; [done|]. split; [done|auto].
    - destruct (receive_ok now p x Hwf ltac:(lia) Hnow) as (ok & p1 & -> & Hwf1 & Hok & Hrx & Hm).
      exists ok, p1. split; [done|]. split; [done|]. split; [|done]. intros ->.
      split; [by apply Hok|]. split; [done|lia]. }
  bret. destruct (IH p1 Hwf1 Hxs) as (acc & p2 & -> & Hwf2 & Hnd & Hacc & Hsub). bret.
  eexists _, p2. split; [done|]. split; [done|].
  assert (∀ y, y ∈ acc → ¬ rejects p y ∧ 0 < pin_id y) as Hacc'.
  { intros y Hy. destruct (Hacc y Hy) as [Hny Hp]. split; [|done]. intros Hry. apply Hny. auto. }
  destruct ok; [|split; [done|]; split; [done|by apply sublist_cons]].
  destruct Hok as (Hnr & Hr & Hpos); [done|]. split; [|split].
  - constructor; [|done]. intros Hin. by destruct (Hacc x Hin).
  - intros y [->|Hy]%elem_of_cons; auto.
  - by apply sublist_skip.
Qed.

(** ** Packets in order *)

(** [x] comes after the identifier [i] of time [t]. *)
Definition later (x : packet_id_net) (t i : Z) : Prop :=
  t < pin_time x ∨ (t = pin_time x ∧ i < pin_id x).
Fixpoint ascending (t i : Z) (xs : list packet_id_net) : Prop :=
  match xs with
  | [] => True
  | x :: xs => later x t i ∧ ascending (pin_time x) (pin_id x) xs
  end.

Lemma later_not_rejected p x : later x (rec_time p) (rec_id p) → ¬ rejects p x.
Proof. unfold later, rejects. destruct (seqs p); lia. Qed.

Lemma packet_id_add_later now p x :
  wf_rec p → 0 < pin_id x < 4294967296 → later x (rec_time p) (rec_id p) → 1 < now →
  ∃ p', packet_id_add now p x = Ret p' ∧ rec_time p' = pin_time x ∧ rec_id p' = pin_id x.
Proof.
  intros (_ & Hid & _ & Hw) Hx Hl Hnow. destruct (seqs p) as [l|] eqn:El; [|done].
  destruct Hw as (Hw & Hcap & _). pose proof Hw as (Hc & _ & _ & Hs).
  pose proof (packet_id_add_eq now p x l El Hcap Hw Hid Hx Hnow) as Hadd.
  unfold add_start in Hadd. unfold later in Hl. unfold is_u32 in Hid. case_decide.
  - destruct Hadd as (l' & -> & _); [lia|right; lia|]. eexists. split; [done|].
    unfold set_rec. cbn [rec_time rec_id]. lia.
  - destruct Hadd as (l' & -> & _); [lia|lia|]. eexists. split; [done|].
    unfold set_rec. cbn [rec_time rec_id]. lia.
Qed.

Lemma receive_later now p x :
  wf_rec p → 0 < pin_id x < 4294967296 → later x (rec_time p) (rec_id p) → 1 < now →
  ∃ p', receive now p x = Ret (true, p') ∧ wf_rec p' ∧
    rec_time p' = pin_time x ∧ rec_id p' = pin_id x.
Proof.
  intros Hwf Hx Hl Hnow. destruct (receive_ok now p x Hwf Hx Hnow) as (ok & p' & E & Hwf' & _).
  unfold receive in *.
  destruct (packet_id_reap_test_ok now p Hwf) as (p1 & E1 & Hwf1 & [Et Ei] & _).
  rewrite E1 in *. rewrite bind_Ret in *.
  rewrite <- Et, <- Ei in Hl.
  destruct (packet_id_test_ok p1 x Hwf1 Hx) as (p2 & E2 & Hsw). rewrite E2 in *.
  rewrite bool_decide_eq_false_2 in * by by apply later_not_rejected.
  pose proof (same_window_wf _ _ Hsw Hwf1) as Hwf2. destruct Hsw as (Et2 & Ei2 & _).
  rewrite <- Et2, <- Ei2 in Hl.
  destruct (packet_id_add_later now p2 x Hwf2 Hx Hl Hnow) as (p3 & E3 & Ht & Hi).
  cbn [negb] in *. rewrite bind_Ret, E3 in *. rewrite bind_Ret in *. injection E as <- <-.
  by exists p3.
Qed.

Lemma run_in_order nows : ∀ xs p,
  length nows = length xs → wf_rec p → Forall (λ now, 1 < now) nows →
  Forall (λ x, 0 < pin_id x < 4294967296) xs → ascending (rec_time p) (rec_id p) xs →
  ∃ p', run p (zip nows xs) = Ret (xs, p') ∧ wf_rec p'.
Proof.
  induction nows as [|now nows IH]; intros [|x xs] p Hlen Hwf Hnow Hx Ha; try done.
  { by exists p. }
  apply Forall_cons in Hnow as [Hn Hnow]. apply Forall_cons in Hx as [Hx Hxs].
  destruct Ha as [Hl Ha]. cbn [zip zip_with run].
  destruct (receive_later now p x Hwf Hx Hl Hn) as (p1 & -> & Hwf1 & Et & Ei). bret.
  destruct (IH xs p1) as (p2 & E & Hwf2); [by injection Hlen|done..|by rewrite Et, Ei|].
  change (zip_with pair nows xs) with (zip nows xs). rewrite E. bret. by exists p2.
Qed.

(** ** The sender *)

(** The identifiers of successive packets, sent at the given times. *)
Fixpoint alloc_run (long_form : bool) (p : packet_id_send) (nows : list Z) :
    outcome (list packet_id_net * packet_id_send) :=
  match nows with
  | [] => Ret ([], p)
  | now :: nows =>
      '(x, p) ← packet_id_alloc_outgoing now p long_form;
      '(xs, p) ← alloc_run long_form p nows;
      Ret (x :: xs, p)
  end.

(** An allocation moves forward, or stops the program at the end of the short
    form's identifiers. *)
Lemma packet_id_alloc_outgoing_ok now p long_form :
  is_u32 (send_id p) → 0 ≤ send_time p → 0 < now →
  (send_id p = 4294967295 → send_time p < now) →
  (send_id p = 4294967295 ∧ long_form = false ∧
     packet_id_alloc_outgoing now p long_form = Abort) ∨
  ∃ x, packet_id_alloc_outgoing now p long_form = Ret (x, PS (pin_id x) (pin_time x)) ∧
    later x (send_time p) (send_id p) ∧ 0 < pin_id x < 4294967296 ∧ 0 < pin_time x ∧
    (send_id p < 4294967295 → pin_id x = send_id p + 1).
Proof.
  unfold is_u32. intros Hid Ht Hn Hw. unfold packet_id_alloc_outgoing.
  destruct (decide (send_id p = 4294967295)) as [E|E].
  - rewrite E. change (u32 (4294967295 + 1)) with 0. rewrite (decide_True (P := 0 = 0)) by done.
    destruct long_form; [|by left]. right. exists (PN 1 now). split; [done|].
    unfold later. cbn. lia.
  - right. rewrite u32_id by (unfold is_u32; lia). rewrite (decide_False (P := _ + 1 = 0)) by lia.
    exists (PN (send_id p + 1) (if decide (send_time p = 0) then now else send_time p)).
    split; [done|]. unfold later. cbn [pin_id pin_time]. case_decide; lia.
Qed.

(** What the receiver reads of an identifier in the form used. *)
Definition on_wire (long_form : bool) (x : packet_id_net) : packet_id_net :=
  PN (pin_id x) (if long_form then pin_time x else 0).

Lemma alloc_run_ok long_form nows : ∀ p,
  is_u32 (send_id p) → 0 ≤ send_time p → Forall (λ now, 0 < now) nows →
  send_id p + Z.of_nat (length nows) < 4294967296 →
  ∃ xs p', alloc_run long_form p nows = Ret (xs, p') ∧ length xs = length nows ∧
    Forall (λ x, 0 < pin_id x < 4294967296) xs ∧
    ascending (if long_form then send_time p else 0) (send_id p) (map (on_wire long_form) xs).
Proof.
  induction nows as [|now nows IH]; intros p Hid Ht Hn Hlen; cbn [alloc_run length] in *.
  { by exists [], p. }
  apply Forall_cons in Hn as [Hn Hnows].
  destruct (packet_id_alloc_outgoing_ok now p long_form Hid Ht Hn) as
    [(E & _)|(x & E & Hl & Hx & Htx & Hix)]; [lia|lia|].
  rewrite E. bret. rewrite Hix in * by lia.
  destruct (IH (PS (send_id p + 1) (pin_time x))) as (xs & p' & E' & Hxs & Hf & Ha);
    [unfold is_u32; cbn; lia|cbn; lia|done|cbn; lia|].
  rewrite E'. bret. exists (x :: xs), p'. split; [done|]. split; [cbn; lia|].
  split; [constructor; [rewrite Hix; lia|done]|]. cbn [map ascending send_id send_time] in *.
  unfold later, on_wire in *. cbn [pin_id pin_time]. rewrite Hix by lia.
  destruct long_form; (split; [lia|done]).
Qed.

Lemma packet_id_init_ok seq_bt time_bt :
  0 < seq_bt ≤ MAX_SEQ_BACKTRACK → 0 ≤ time_bt ≤ MAX_TIME_BACKTRACK →
  ∃ p, packet_id_init false seq_bt time_bt = Ret p ∧ wf_rec (pid_rec p) ∧
    rec_time (pid_rec p) = 0 ∧ rec_id (pid_rec p) = 0 ∧ pid_send p = PS 0 0.
Proof.
  intros Hs Ht. unfold packet_id_init. rewrite decide_True by (split; [lia|done]).
  rewrite !ASSERT_ok by lia. bret. eexists. split; [done|]. split; [|done].
  unfold wf_rec, is_u32, wf_cl, MAX_SEQ_BACKTRACK in *. cbn. rewrite length_replicate.
  repeat split; lia.
Qed.

(** ** On the wire *)

Definition wire_bytes (long_form : bool) (x : packet_id_net) : list Z :=
  be32 (pin_id x) ++ if long_form then be32 (pin_time x) else [].

Lemma packet_id_write_append long_form x pre c post :
  Z.of_nat (length pre + length c + length post) < BUF_SIZE_MAX →
  packet_id_size long_form ≤ Z.of_nat (length post) →
  packet_id_write x long_form false (mkbuf pre c post) =
  Ret (true, mkbuf pre (c ++ wire_bytes long_form x)
               (drop (length (wire_bytes long_form x)) post)).
Proof.
  intros Hm Hr. unfold packet_id_write, packet_id_size, wire_bytes in *.
  assert (∀ z, length (be32 z) = 4%nat) as H4 by done. destruct long_form.
  - erewrite bindM_Ret by (apply buf_write_mk; [apply be32_bytes|done|rewrite H4; lia]).
    cbv beta iota. rewrite buf_write_mk; [|apply be32_bytes| |].
    + rewrite drop_drop, <- app_assoc. done.
    + rewrite length_app, length_drop, H4. lia.
    + rewrite length_drop, !H4. lia.
  - erewrite bindM_Ret by (apply buf_write_mk; [apply be32_bytes|done|rewrite H4; lia]).
    unfold mret, M_ret. by rewrite app_nil_r.
Qed.

Lemma packet_id_write_front long_form x pre c post :
  packet_id_size long_form ≤ Z.of_nat (length pre) →
  packet_id_write x long_form true (mkbuf pre c post) =
  Ret (true, mkbuf (take (length pre - length (wire_bytes long_form x)) pre)
               (wire_bytes long_form x ++ c) post).
Proof.
  intros Hr. unfold packet_id_write, packet_id_size, wire_bytes in *.
  assert (∀ z, length (be32 z) = 4%nat) as H4 by done. destruct long_form.
  - erewrite bindM_Ret by (apply buf_write_prepend_mk; [apply be32_bytes|rewrite H4; lia]).
    cbv beta iota. rewrite buf_write_prepend_mk; [|apply be32_bytes|rewrite length_take, !H4; lia].
    rewrite take_take, length_take, length_app, !H4, <- app_assoc. do 4 f_equal. lia.
  - rewrite (bindM_Ret _ _ _ true (mkbuf pre c post)) by done.
    cbv beta iota. rewrite buf_write_prepend_mk; [|apply be32_bytes|rewrite H4; lia].
    by rewrite app_nil_r.
Qed.

Lemma packet_id_read_front long_form x pre c post :
  is_u32 (pin_id x) → is_u32 (pin_time x) →
  packet_id_read long_form (mkbuf pre (wire_bytes long_form x ++ c) post) =
  Ret ((true, on_wire long_form x), mkbuf (pre ++ wire_bytes long_form x) c post).
Proof.
  intros Hi Ht. unfold packet_id_read, wire_bytes, on_wire.
  assert (∀ pre z c, is_u32 z → buf_read_u32 (mkbuf pre (be32 z ++ c) post) =
    Ret (Some z, mkbuf (pre ++ be32 z) c post)) as Hread.
  { intros pre' z c' Hz. unfold buf_read_u32. rewrite bindM_run.
    change 4 with (Z.of_nat (length (be32 z))). rewrite buf_read_mk. bret.
    unfold mret, M_ret. cbn [fmap option_fmap option_map]. by rewrite from_be_be32, u32_id. }
  rewrite <- app_assoc. erewrite bindM_Ret by by apply Hread. destruct long_form.
  - erewrite bindM_Ret by by apply Hread. unfold mret, M_ret. by rewrite <- app_assoc.
  - by rewrite app_nil_r.
Qed.

(** ** A window loaded from a file *)

Definition persisted (pp : packet_id_persist) : packet_id_net := PN (per_id pp) (per_time pp).
Definition after_persisted (pp : packet_id_persist) : packet_id_net :=
  PN (per_id pp + 1) (per_time pp).

(** The loaded window is empty.  The first packet after the stored identifier
    makes [packet_id_add] start a window below it, with nothing seen in it: the
    stored identifier itself is accepted again. *)
Lemma packet_id_persist_replay pp seq_bt time_bt now :
  packet_id_persist_enabled pp = true → per_time pp ≠ 0 → 0 < per_id pp < 4294967295 →
  2 ≤ seq_bt ≤ MAX_SEQ_BACKTRACK → 0 ≤ time_bt ≤ MAX_TIME_BACKTRACK → 1 < now →
  ∃ pid p1 p2 p3, packet_id_init false seq_bt time_bt = Ret pid ∧
    let p := pid_rec (packet_id_persist_load_obj pp pid) in
    packet_id_test p (persisted pp) = Ret (false, p) ∧
    packet_id_test p (after_persisted pp) = Ret (true, p1) ∧
    packet_id_add now p1 (after_persisted pp) = Ret p2 ∧
    packet_id_test p2 (persisted pp) = Ret (true, p3).
Proof.
  intros Hen Ht Hi Hs Htb Hnow. unfold MAX_SEQ_BACKTRACK, MAX_TIME_BACKTRACK in *.
  set (l := CIRC_LIST_ALLOC seq_bt).
  set (pid := PID (PS 0 0) (PR 0 0 0 seq_bt time_bt 0 true (Some l))).
  assert (packet_id_init false seq_bt time_bt = Ret pid) as Einit.
  { unfold packet_id_init. rewrite decide_True by (split; [lia|done]).
    by rewrite !ASSERT_ok by (unfold MAX_SEQ_BACKTRACK, MAX_TIME_BACKTRACK; lia). }
  set (p := PR 0 (per_time pp) (per_id pp) seq_bt time_bt 0 true (Some l)).
  assert (pid_rec (packet_id_persist_load_obj pp pid) = p) as Eload.
  { unfold packet_id_persist_load_obj. by rewrite decide_True by done. }
  assert (wf_cl l) as Hwl.
  { unfold wf_cl, l, CIRC_LIST_ALLOC, MAX_SEQ_BACKTRACK. cbn. rewrite length_replicate. lia. }
  pose proof (packet_id_add_eq now p (after_persisted pp) l eq_refl eq_refl Hwl
    ltac:(unfold is_u32; cbn; lia) ltac:(cbn; lia) Hnow) as Hadd.
  unfold add_start in Hadd. rewrite decide_True in Hadd by (by left).
  cbn [pin_id pin_time after_persisted x_size x_cap l CIRC_LIST_ALLOC CIRC_LIST_RESET] in Hadd.
  destruct Hadd as (l' & Eadd & Hw' & Hc' & Hs' & Hi'); [lia|lia|].
  set (p2 := set_rec _ _ _ _) in Eadd.
  destruct (packet_id_test_ok p2 (persisted pp)) as (p3 & E3 & _).
  { unfold wf_rec, is_u32, p2. cbn. split; [done|]. split; [lia|]. split; [lia|].
    split; [done|]. split; [done|]. lia. }
  { cbn. lia. }
  exists pid, p, p2, p3. split; [exact Einit|]. cbv zeta. rewrite Eload.
  split; [|split; [|split; [exact Eadd|]]].
  - unfold packet_id_test. rewrite ASSERT_ok by done. bret.
    change (pin_id (persisted pp)) with (per_id pp). change (pin_time (persisted pp)) with (per_time pp).
    change (seqs p) with (Some l). cbn [of_option].
    rewrite (decide_False (P := per_id pp = 0)) by lia.
    rewrite (decide_True (P := seq_backtrack p ≠ 0)) by (change (seq_bt ≠ 0); lia).
    rewrite (decide_True (P := per_time pp = rec_time p)) by done.
    change (rec_id p) with (per_id pp). rewrite (decide_False (P := per_id pp > per_id pp)) by lia.
    rewrite Z.sub_diag. change (u32 0) with 0. change (s32 0) with 0.
    change (max_backtrack_stat p) with 0. rewrite (decide_False (P := 0 > 0)) by lia.
    change (seqs p) with (Some l). cbn [of_option]. bret.
    rewrite (decide_True (P := 0 >= u32 (x_size l))); [done|].
    change (x_size l) with 0. change (u32 0) with 0. lia.
  - unfold packet_id_test. rewrite ASSERT_ok by done. bret.
    change (pin_id (after_persisted pp)) with (per_id pp + 1).
    change (pin_time (after_persisted pp)) with (per_time pp).
    rewrite (decide_False (P := per_id pp + 1 = 0)) by lia.
    rewrite (decide_True (P := seq_backtrack p ≠ 0)) by (change (seq_bt ≠ 0); lia).
    rewrite (decide_True (P := per_time pp = rec_time p)) by done.
    by rewrite (decide_True (P := per_id pp + 1 > rec_id p)) by (change (rec_id p) with (per_id pp); lia).
  - rewrite E3. rewrite bool_decide_eq_false_2; [done|].
    rewrite (rejects_Some p2 _ l') by done. unfold p2, persisted. cbn.
    rewrite Hi' by lia. rewrite decide_False by lia. rewrite decide_True by lia. lia.
Qed.
