(* ===== verification/OvpnReliable.v ===== *)
(** * OpenVPN: the reliability layer of the control channel

    Models [openvpn/src/src/openvpn/reliable.c] with [session_id.h], and the
    three places of [ssl.c] that drive it.  The global [now] is an argument;
    a [struct buffer *] into the array of a [struct reliable] is the index of
    its entry; a [struct reliable_ack] is the list of its identifiers, and the
    array of a [struct reliable] the list of its first [size] entries, the only
    ones the code looks at. *)
From S2P Require Import Prelude OvpnBuffer OvpnPacketId.

Definition RELIABLE_ACK_SIZE : Z := 8.
Definition RELIABLE_CAPACITY : Z := 8.
Definition BIG_TIMEOUT : Z := 604800.

(** ** Session identifiers *)

Definition SID_SIZE : Z := 8.
Definition session_id_equal (s1 s2 : list Z) : bool := bool_decide (s1 = s2).
Definition session_id_defined (s : list Z) : bool :=
  bool_decide (s ≠ replicate (Z.to_nat SID_SIZE) 0).
Definition session_id_read : M buffer (option (list Z)) := buf_read SID_SIZE.
Definition session_id_write (sid : list Z) : M buffer bool := buf_write sid.

(** ** Identifiers that wrap around *)

Definition reliable_pid_in_range1 (test base extent : Z) : bool :=
  if decide (test >= base) then bool_decide (u32 (test - base) < extent)
  else bool_decide (u32 (u32 (test + 2147483648) - u32 (base + 2147483648)) < extent).

Definition reliable_pid_in_range2 (test base extent : Z) : bool :=
  if decide (u32 (base + extent) >= base) then bool_decide (test < u32 (base + extent))
  else bool_decide (u32 (test + 2147483648) < u32 (u32 (base + 2147483648) + extent)).

Definition reliable_pid_min (p1 p2 : Z) : bool := negb (reliable_pid_in_range1 p1 p2 2147483648).

(** ** Acknowledgements *)

Definition reliable_ack_packet_id_present (ack : list Z) (pid : Z) : bool :=
  existsb (λ p, bool_decide (p = pid)) ack.

Definition reliable_ack_empty (ack : list Z) : bool := bool_decide (ack = []).

Definition reliable_ack_read_packet_id : M buffer (option Z) := buf_read_u32.

Definition reliable_ack_acknowledge_packet_id (ack : list Z) (pid : Z) : bool * list Z :=
  if negb (reliable_ack_packet_id_present ack pid) &&
     bool_decide (Z.of_nat (length ack) < RELIABLE_ACK_SIZE)
  then (true, ack ++ [pid]) else (false, ack).

(** The loop of [reliable_ack_read]. *)
Fixpoint read_ids (count : nat) (ack : list Z) : M buffer (bool * list Z) :=
  match count with
  | O => mret (true, ack)
  | S count =>
      net_pid ← buf_read_u32;
      match net_pid with
      | None => mret (false, ack)
      | Some pid =>
          if decide (Z.of_nat (length ack) >= RELIABLE_ACK_SIZE) then mret (false, ack)
          else read_ids count (ack ++ [pid])
      end
  end.

(** Success, and the record as it stands at the end, failed or not. *)
Definition reliable_ack_read (ack sid : list Z) : M buffer (bool * list Z) :=
  count ← buf_read 1;
  match count with
  | None => mret (false, ack)
  | Some count =>
      let count := from_be count in
      '(ok, ack) ← read_ids (Z.to_nat count) ack;
      if ok : bool then
        if decide (count ≠ 0) then
          remote ← session_id_read;
          mret (match remote with
                | None => (false, ack)
                | Some remote => (session_id_defined remote && session_id_equal remote sid, ack)
                end)
        else mret (true, ack)
      else mret (false, ack)
  end.

Definition ACK_SIZE (n : Z) : Z := 1 + (if decide (n ≠ 0) then SID_SIZE else 0) + 4 * n.

(** [ASSERT (buf_write (&sub, bs))] where [sub] is the part of the buffer of
    [size] bytes at offset [p] that already holds [n]: the new [n]. *)
Definition sub_write (p size n : Z) (bs : list Z) : M buffer Z :=
  lift (ASSERT (buf_size_valid (Z.of_nat (length bs)) = true ∧ n + Z.of_nat (length bs) ≤ size));;
  poke (p + n) bs;;
  mret (n + Z.of_nat (length bs)).

Fixpoint sub_write_ids (p size n : Z) (ids : list Z) : M buffer Z :=
  match ids with
  | [] => mret n
  | pid :: ids => n ← sub_write p size n (be32 pid); sub_write_ids p size n ids
  end.

Definition reliable_ack_write (ack sid : list Z) (max : Z) (prepend : bool) :
    M buffer (bool * list Z) :=
  let n := u8 (Z.of_nat (length ack)) in
  let n := if decide (n > max) then u8 max else n in
  sub ← buf_sub (ACK_SIZE n) prepend;
  match sub with
  | None => mret (false, ack)
  | Some (p, size) =>
      k ← sub_write p size 0 [n];
      k ← sub_write_ids p size k (take (Z.to_nat n) ack);
      if decide (n ≠ 0) then
        lift (ASSERT (session_id_defined sid = true));;
        sub_write p size k sid;;
        mret (true, drop (Z.to_nat n) ack)
      else mret (true, ack)
  end.

(** ** The window *)

Record reliable_entry := RE {
  active : bool;
  timeout : Z;
  next_try : Z;
  e_packet_id : Z;
  opcode : Z;
  e_buf : buffer;
}.
Record reliable := Rel {
  initial_timeout : Z;
  r_packet_id : Z;
  r_offset : Z;
  hold : bool;
  entries : list reliable_entry;
}.

Definition r_size (rel : reliable) : Z := Z.of_nat (length (entries rel)).

Definition set_active (a : bool) (e : reliable_entry) : reliable_entry :=
  RE a (timeout e) (next_try e) (e_packet_id e) (opcode e) (e_buf e).
Definition set_buf (b : buffer) (e : reliable_entry) : reliable_entry :=
  RE (active e) (timeout e) (next_try e) (e_packet_id e) (opcode e) b.
Definition set_entries (es : list reliable_entry) (rel : reliable) : reliable :=
  Rel (initial_timeout rel) (r_packet_id rel) (r_offset rel) (hold rel) es.
Definition set_packet_id (pid : Z) (rel : reliable) : reliable :=
  Rel (initial_timeout rel) pid (r_offset rel) (hold rel) (entries rel).
Definition set_entry (i : nat) (e : reliable_entry) (rel : reliable) : reliable :=
  set_entries (<[i := e]> (entries rel)) rel.

Definition reliable_init (buf_size offset array_size : Z) (hold : bool) : outcome reliable :=
  ASSERT (0 < array_size ∧ array_size ≤ RELIABLE_CAPACITY);;
  b ← alloc_buf buf_size;
  '(ok, b) ← buf_init offset b;
  ASSERT (ok = true);;
  Ret (Rel 0 0 offset hold (replicate (Z.to_nat array_size) (RE false 0 0 0 0 b))).

Definition reliable_set_timeout (timeout : Z) (rel : reliable) : reliable :=
  Rel timeout (r_packet_id rel) (r_offset rel) (hold rel) (entries rel).

Definition reliable_empty (rel : reliable) : bool := negb (existsb active (entries rel)).

Definition has_id (pid : Z) (e : reliable_entry) : bool :=
  active e && bool_decide (e_packet_id e = pid).

(** The inner loop of [reliable_send_purge]: the first match is deleted. *)
Fixpoint purge_one (pid : Z) (es : list reliable_entry) : list reliable_entry :=
  match es with
  | [] => []
  | e :: es => if has_id pid e then set_active false e :: es else e :: purge_one pid es
  end.
Definition reliable_send_purge (rel : reliable) (ack : list Z) : reliable :=
  set_entries (foldl (λ es pid, purge_one pid es) (entries rel) ack) rel.

Definition reliable_can_get (rel : reliable) : bool := existsb (negb ∘ active) (entries rel).

Definition reliable_not_replay (rel : reliable) (id : Z) : bool :=
  if reliable_pid_min id (r_packet_id rel) then false
  else negb (existsb (has_id id) (entries rel)).

Definition reliable_wont_break_sequentiality (rel : reliable) (id : Z) : bool :=
  reliable_pid_in_range2 id (r_packet_id rel) (r_size rel).

(** The index of the first entry that passes a test. *)
Fixpoint find_entry (test : reliable_entry → bool) (es : list reliable_entry) :
    option (nat * reliable_entry) :=
  match es with
  | [] => None
  | e :: es => if test e then Some (O, e) else (λ '(i, e), (S i, e)) <$> find_entry test es
  end.

Definition reliable_get_buf (rel : reliable) : outcome (option nat * reliable) :=
  match find_entry (negb ∘ active) (entries rel) with
  | Some (i, e) =>
      '(ok, b) ← buf_init (r_offset rel) (e_buf e);
      ASSERT (ok = true);;
      Ret (Some i, set_entry i (set_buf b e) rel)
  | None => Ret (None, rel)
  end.

(** One step of the search for the lowest active identifier. *)
Definition min_id_step (m : option Z) (e : reliable_entry) : option Z :=
  if active e && match m with None => true | Some m => reliable_pid_min (e_packet_id e) m end
  then Some (e_packet_id e) else m.

Definition reliable_get_buf_output_sequenced (rel : reliable) :
    outcome (option nat * reliable) :=
  match foldl min_id_step None (entries rel) with
  | Some min_id =>
      if reliable_pid_in_range1 (r_packet_id rel) min_id (r_size rel)
      then reliable_get_buf rel else Ret (None, rel)
  | None => reliable_get_buf rel
  end.

Definition reliable_get_buf_sequenced (rel : reliable) : option nat :=
  fst <$> find_entry (has_id (r_packet_id rel)) (entries rel).

Definition due (now : Z) (e : reliable_entry) : bool :=
  active e && bool_decide (now >= next_try e).

Definition reliable_can_send (now : Z) (rel : reliable) : bool :=
  let n_current := length (filter (λ e, due now e = true) (entries rel)) in
  bool_decide (0 < n_current)%nat && negb (hold rel).

Definition retry_body (es : list reliable_entry) (retry : Z) : outcome (Z + Z) :=
  Ret (if existsb (λ e, active e && bool_decide (next_try e = retry)) es
       then inl (retry + 1) else inr retry).
Definition reliable_unique_retry (rel : reliable) (retry : Z) : outcome Z :=
  loop (S (length (entries rel))) (retry_body (entries rel)) retry.

(** The search of [reliable_send] from index [i]. *)
Fixpoint send_best (now : Z) (i : nat) (best : option (nat * reliable_entry))
    (es : list reliable_entry) : option (nat * reliable_entry) :=
  match es with
  | [] => best
  | e :: es =>
      send_best now (S i)
        (if due now e &&
            match best with
            | None => true
            | Some (_, b) => reliable_pid_min (e_packet_id e) (e_packet_id b)
            end
         then Some (i, e) else best) es
  end.

(** The entry to send with its opcode, if there is one. *)
Definition reliable_send (now : Z) (rel : reliable) :
    outcome (option (nat * Z) * reliable) :=
  match send_best now 0 None (entries rel) with
  | None => Ret (None, rel)
  | Some (i, e) =>
      t ← reliable_unique_retry rel (now + timeout e);
      dbl ← int (timeout e * 2);
      Ret (Some (i, opcode e),
           set_entry i (RE (active e) dbl t (e_packet_id e) (opcode e) (e_buf e)) rel)
  end.

Definition reliable_schedule_now (now : Z) (rel : reliable) : reliable :=
  Rel (initial_timeout rel) (r_packet_id rel) (r_offset rel) false
    (map (λ e, if active e
               then RE true (initial_timeout rel) now (e_packet_id e) (opcode e) (e_buf e)
               else e) (entries rel)).

Fixpoint send_timeout (now : Z) (ret : Z) (es : list reliable_entry) : Z :=
  match es with
  | [] => ret
  | e :: es =>
      if active e then
        if decide (next_try e ≤ now) then 0
        else send_timeout now (min_int ret (s32 (next_try e - now))) es
      else send_timeout now ret es
  end.
Definition reliable_send_timeout (now : Z) (rel : reliable) : Z :=
  send_timeout now BIG_TIMEOUT (entries rel).

Definition reliable_mark_active_incoming (i : nat) (pid opcode : Z) (rel : reliable) :
    outcome reliable :=
  match entries rel !! i with
  | Some e =>
      ASSERT (reliable_pid_min pid (r_packet_id rel) = false);;
      Ret (set_entry i (RE true 0 0 pid opcode (e_buf e)) rel)
  | None => Abort
  end.

Definition reliable_mark_active_outgoing (i : nat) (opcode : Z) (rel : reliable) :
    outcome reliable :=
  match entries rel !! i with
  | Some e =>
      let pid := r_packet_id rel in
      '(ok, b) ← buf_write_prepend (be32 pid) (e_buf e);
      ASSERT (ok = true);;
      Ret (set_entry i (RE true (initial_timeout rel) 0 pid opcode b)
             (set_packet_id (u32 (pid + 1)) rel))
  | None => Abort
  end.

Definition reliable_mark_deleted (i : nat) (inc_pid : bool) (rel : reliable) :
    outcome reliable :=
  match entries rel !! i with
  | Some e =>
      let rel := set_entry i (set_active false e) rel in
      Ret (if inc_pid then set_packet_id (u32 (e_packet_id e + 1)) rel else rel)
  | None => Abort
  end.

(** ** Its use in [ssl.c] *)

Definition P_CONTROL_V1 : Z := 4.
Definition P_ACK_V1 : Z := 5.

Record key_state := KS {
  send_reliable : reliable;
  rec_reliable : reliable;
  rec_ack : list Z;
}.

(** An operation on the buffer of an entry. *)
Definition on_buf {A} (i : nat) (m : M buffer A) (rel : reliable) : outcome (A * reliable) :=
  e ← of_option (entries rel !! i);
  '(a, b) ← m (e_buf e);
  Ret (a, set_entry i (set_buf b e) rel).

(** The content of a packet stored under an identifier. *)
Definition store_incoming (payload : list Z) (id op : Z) (rel : reliable) : outcome reliable :=
  '(in_, rel) ← reliable_get_buf rel;
  match in_ with
  | None => Abort
  | Some i =>
      '(ok, rel) ← on_buf i (buf_write payload) rel;
      ASSERT (ok = true);;
      reliable_mark_active_incoming i id op rel
  end.

(** An authentic control packet: its acknowledgements, then its content.
    [None] is the jump to [error]. *)
Definition incoming (sid : list Z) (op : Z) (ks : key_state) : M buffer (option key_state) :=
  '(ok, send_ack) ← reliable_ack_read [] sid;
  if ok : bool then
    let snd := reliable_send_purge (send_reliable ks) send_ack in
    let rcv := rec_reliable ks in
    if negb (bool_decide (op = P_ACK_V1)) && reliable_can_get rcv then
      id ← reliable_ack_read_packet_id;
      match id with
      | Some id =>
          if reliable_wont_break_sequentiality rcv id then
            payload ← (λ b, peek_n (offset b) (buf_len b) b);
            rcv' ← (if reliable_not_replay rcv id
                    then lift (store_incoming payload id op rcv) else mret rcv);
            mret (Some (KS snd rcv' (reliable_ack_acknowledge_packet_id (rec_ack ks) id).2))
          else mret (Some (KS snd rcv (rec_ack ks)))
      | None => mret (Some (KS snd rcv (rec_ack ks)))
      end
    else mret (Some (KS snd rcv (rec_ack ks)))
  else mret None.

(** Ciphertext to the send window, if it has room: the TLS object writes
    [payload] to the buffer. *)
Definition outgoing (payload : list Z) (rel : reliable) : outcome (bool * reliable) :=
  '(buf, rel) ← reliable_get_buf_output_sequenced rel;
  match buf with
  | None => Ret (false, rel)
  | Some i =>
      '(ok, rel) ← on_buf i (buf_write payload) rel;
      ASSERT (ok = true);;
      rel ← reliable_mark_active_outgoing i P_CONTROL_V1 rel;
      Ret (true, rel)
  end.

(** The next packet in order to the TLS object, which takes it whole. *)
Definition deliver (rel : reliable) : outcome (option (list Z) * reliable) :=
  match reliable_get_buf_sequenced rel with
  | None => Ret (None, rel)
  | Some i =>
      e ← of_option (entries rel !! i);
      '(c, _) ← peek_n (offset (e_buf e)) (buf_len (e_buf e)) (e_buf e);
      rel ← reliable_mark_deleted i true rel;
      Ret (Some c, rel)
  end.

(** ** Serial arithmetic *)

Lemma wrap_sub_shift a b :
  u32 (u32 (a + 2147483648) - u32 (b + 2147483648)) = u32 (a - b).
Proof.
  unfold wrap. rewrite Zminus_mod_idemp_l, Zminus_mod_idemp_r. f_equal. lia.
Qed.

(** [in_range1] measures the distance from [base] to [test] modulo 2^32. *)
Lemma reliable_pid_in_range1_spec test base extent :
  reliable_pid_in_range1 test base extent = bool_decide (u32 (test - base) < extent).
Proof. unfold reliable_pid_in_range1. case_decide; [done|]. by rewrite wrap_sub_shift. Qed.

Lemma reliable_pid_min_spec p1 p2 :
  reliable_pid_min p1 p2 = bool_decide (2147483648 ≤ u32 (p1 - p2)).
Proof.
  unfold reliable_pid_min. rewrite reliable_pid_in_range1_spec, <- bool_decide_not.
  apply bool_decide_ext. lia.
Qed.

(** Where nothing wraps these are the comparisons of the integers. *)
Definition low (z : Z) : Prop := 0 ≤ z < 2147483648.

Lemma u32_sub_low a b : low a → low b → u32 (a - b) = if decide (b ≤ a) then a - b else a - b + 4294967296.
Proof.
  unfold low. intros. case_decide; [by apply u32_id; unfold is_u32; lia|].
  unfold wrap. change (2 ^ 32) with 4294967296. symmetry. apply (Z.mod_unique_pos _ _ (-1)); lia.
Qed.

Lemma pid_min_low a b : low a → low b → reliable_pid_min a b = bool_decide (a < b).
Proof.
  intros Ha Hb. rewrite reliable_pid_min_spec, u32_sub_low by done. unfold low in *.
  apply bool_decide_ext. case_decide; lia.
Qed.

Lemma in_range2_low test base extent :
  low base → low (base + extent) → 0 ≤ extent →
  reliable_pid_in_range2 test base extent = bool_decide (test < base + extent).
Proof.
  unfold low. intros. unfold reliable_pid_in_range2. rewrite u32_id by (unfold is_u32; lia).
  by rewrite decide_True by lia.
Qed.

(** ** The acknowledgement record *)

Definition ack_record (ids sid : list Z) : list Z :=
  Z.of_nat (length ids) :: concat (map be32 ids) ++ if decide (ids = []) then [] else sid.

Lemma length_be32s ids : length (concat (map be32 ids)) = (4 * length ids)%nat.
Proof. induction ids as [|x ids IH]; [done|]. cbn [map concat]. rewrite length_app, IH, length_be32. cbn [length]. lia. Qed.

Lemma be32s_bytes ids : Forall is_byte (concat (map be32 ids)).
Proof. induction ids; cbn; [done|]. apply Forall_app. split; [apply be32_bytes|done]. Qed.

Lemma length_ack_record ids sid :
  length sid = 8%nat → Z.of_nat (length (ack_record ids sid)) = ACK_SIZE (Z.of_nat (length ids)).
Proof.
  intros Hs. unfold ack_record, ACK_SIZE, SID_SIZE. cbn [length]. rewrite length_app, length_be32s.
  destruct ids as [|x ids]; [done|]. rewrite decide_False by done.
  rewrite decide_True by (cbn [length]; lia). cbn [length]. lia.
Qed.

Lemma sub_write_ok b pre dn todo post bs size :
  data b = Some (pre ++ (dn ++ todo) ++ post) → Forall is_byte bs →
  size = Z.of_nat (length dn + length todo) → size < BUF_SIZE_MAX → (length bs ≤ length todo)%nat →
  sub_write (Z.of_nat (length pre)) size (Z.of_nat (length dn)) bs b =
  Ret (Z.of_nat (length (dn ++ bs)),
       set_data (pre ++ ((dn ++ bs) ++ drop (length bs) todo) ++ post) b).
Proof.
  intros Hd Hb -> Hs Hle. unfold sub_write.
  rewrite (bindM_lift _ _ _ tt).
  2: { apply ASSERT_ok. split; [apply bool_decide_eq_true_2|]; lia. }
  rewrite bindM_run. unfold poke. rewrite Hd. cbn [of_option]. bret. rewrite decide_True by lia.
  replace (Z.to_nat _) with (length (pre ++ dn)) by len.
  rewrite <- (take_drop (length bs) todo) at 1.
  replace (pre ++ (dn ++ take (length bs) todo ++ drop (length bs) todo) ++ post)
    with ((pre ++ dn) ++ take (length bs) todo ++ (drop (length bs) todo ++ post))
    by (by rewrite <- !app_assoc).
  rewrite fill_mid by (done || (rewrite length_take; lia)). bret.
  unfold mret, M_ret. rewrite length_app, Nat2Z.inj_add. do 3 f_equal. by rewrite <- !app_assoc.
Qed.

Lemma sub_write_ids_ok ids : ∀ b pre dn todo post size,
  data b = Some (pre ++ (dn ++ todo) ++ post) →
  size = Z.of_nat (length dn + length todo) → size < BUF_SIZE_MAX →
  (4 * length ids ≤ length todo)%nat →
  sub_write_ids (Z.of_nat (length pre)) size (Z.of_nat (length dn)) ids b =
  Ret (Z.of_nat (length (dn ++ concat (map be32 ids))),
       set_data (pre ++ ((dn ++ concat (map be32 ids)) ++ drop (4 * length ids) todo) ++ post) b).
Proof.
  induction ids as [|pid ids IH]; intros b pre dn todo post size Hd Hs Hm Hle; cbn [sub_write_ids].
  - cbn [map concat length]. rewrite app_nil_r. unfold mret, M_ret. do 2 f_equal.
    cbn [Nat.mul drop]. destruct b. cbn in Hd. by subst.
  - cbn [length] in Hle. erewrite bindM_Ret by
      (apply sub_write_ok; [done|apply be32_bytes|done|done|rewrite length_be32; lia]).
    erewrite IH; [|done|rewrite length_app, length_drop, length_be32; lia|done|rewrite length_drop, length_be32; lia].
    cbn [map concat length]. rewrite <- !app_assoc, drop_drop.
    replace (length (be32 pid) + 4 * length ids)%nat with (4 * S (length ids))%nat by (rewrite length_be32; lia).
    by unfold set_data.
Qed.

(** Filling the part of the buffer that [buf_sub] set aside. *)
Lemma ack_fill ack sid k b pre todo post :
  let n := Z.of_nat k in
  data b = Some (pre ++ todo ++ post) → (k ≤ length ack)%nat → is_byte n →
  Z.of_nat (length todo) = ACK_SIZE n → Forall is_byte sid → length sid = 8%nat →
  session_id_defined sid = true →
  (x ← sub_write (Z.of_nat (length pre)) (ACK_SIZE n) 0 [n];
   x ← sub_write_ids (Z.of_nat (length pre)) (ACK_SIZE n) x (take (Z.to_nat n) ack);
   if decide (n ≠ 0) then
     lift (ASSERT (session_id_defined sid = true));;
     sub_write (Z.of_nat (length pre)) (ACK_SIZE n) x sid;;
     mret (true, drop (Z.to_nat n) ack)
   else mret (true, ack)) b =
  Ret ((true, drop k ack), set_data (pre ++ ack_record (take k ack) sid ++ post) b).
Proof.
  intros n Hd Hk Hn Ht Hsb Hs8 Hsd. subst n. rewrite Nat2Z.id.
  assert (ACK_SIZE (Z.of_nat k) = 1 + (if decide (k = 0%nat) then 0 else 8) + 4 * Z.of_nat k) as Hsz
    by (unfold ACK_SIZE, SID_SIZE; repeat case_decide; lia).
  pose proof (length_be32s (take k ack)) as Hl4. rewrite length_take in Hl4.
  erewrite bindM_Ret.
  2: { apply (sub_write_ok _ pre [] todo post); [done|by apply Forall_singleton|cbn [length]; lia| |].
       - unfold BUF_SIZE_MAX. ints. case_decide; lia.
       - cbn [length]. case_decide; lia. }
  cbn [app]. erewrite bindM_Ret.
  2: { apply (sub_write_ids_ok _ _ pre [Z.of_nat k] (drop 1 todo)); [done| | |].
       - rewrite length_drop. cbn [length]. case_decide; lia.
       - unfold BUF_SIZE_MAX. ints. case_decide; lia.
       - rewrite length_drop, length_take. case_decide; lia. }
  unfold ack_record. rewrite length_take, drop_drop.
  replace (k `min` length ack)%nat with k by lia.
  destruct (decide (k = 0%nat)) as [->|Hk0].
  - rewrite decide_False by lia. cbn. unfold mret, M_ret. rewrite drop_0. unfold set_data. cbn.
    rewrite drop_ge by lia. done.
  - rewrite decide_True by lia.
    assert (take k ack ≠ []) as Hne by (destruct k, ack; cbn in *; done || lia).
    rewrite decide_False by done. rewrite (bindM_lift _ _ _ tt) by by apply ASSERT_ok.
    erewrite bindM_Ret.
    2: { apply (sub_write_ok _ pre ([Z.of_nat k] ++ concat (map be32 (take k ack)))
            (drop (1 + 4 * k) todo)); [done|done| | |].
         - rewrite length_app, length_drop, Hl4. cbn [length]. lia.
         - unfold BUF_SIZE_MAX. ints. lia.
         - rewrite length_drop. lia. }
    unfold mret, M_ret, set_data. cbn. do 4 f_equal.
    rewrite drop_drop, drop_ge by lia. rewrite app_nil_r. by rewrite <- app_assoc.
Qed.

Definition ack_count (ack : list Z) (max : Z) : nat := length ack `min` Z.to_nat max.

Lemma ack_count_u8 ack max :
  (length ack ≤ 8)%nat → 0 ≤ max →
  (if decide (u8 (Z.of_nat (length ack)) > max) then u8 max else u8 (Z.of_nat (length ack))) =
  Z.of_nat (ack_count ack max).
Proof.
  intros Hl Hm. unfold ack_count. rewrite (u8_id (Z.of_nat (length ack))) by (ints; lia).
  case_decide; [rewrite u8_id by (ints; lia)|]; lia.
Qed.

Section ack_write.
Context (ack sid : list Z) (max : Z).
Hypothesis (Hack : (length ack ≤ 8)%nat) (Hmax : 0 ≤ max) (Hsb : Forall is_byte sid)
  (Hs8 : length sid = 8%nat) (Hsd : session_id_defined sid = true).
Let k := ack_count ack max.
Let r := ack_record (take k ack) sid.

Lemma ack_record_size : Z.of_nat (length r) = ACK_SIZE (Z.of_nat k) ∧ (length r ≤ 41)%nat.
Proof using Hs8 Hack.
  unfold r. pose proof (length_ack_record (take k ack) sid Hs8) as E. rewrite E, length_take.
  assert (k ≤ length ack)%nat by (unfold k, ack_count; lia).
  replace (k `min` length ack)%nat with k by lia. split; [done|].
  rewrite length_take in E. replace (k `min` length ack)%nat with k in E by lia.
  unfold ACK_SIZE, SID_SIZE in E. case_decide; lia.
Qed.

(** Written at the end of a buffer, or in front of it. *)
Lemma reliable_ack_write_append pre c post :
  Z.of_nat (length pre + length c + length post) < BUF_SIZE_MAX → (length r ≤ length post)%nat →
  reliable_ack_write ack sid max false (mkbuf pre c post) =
  Ret ((true, drop k ack), mkbuf pre (c ++ r) (drop (length r) post)).
Proof using Type*.
  intros Hb Hr. unfold reliable_ack_write. cbv zeta. rewrite ack_count_u8 by done. fold k.
  destruct ack_record_size as [Hsz H41].
  rewrite bindM_run. unfold buf_sub. rewrite bindM_run. unfold buf_write_alloc.
  rewrite <- Hsz, safe_mk, bool_decide_eq_true_2, bptr_mk by lia. bret.
  cbn [fmap option_fmap option_map]. rewrite mretM. bret. cbn [mkbuf len].
  rewrite <- Nat2Z.inj_add, <- length_app, Hsz.
  rewrite (ack_fill ack sid k _ (pre ++ c) (take (length r) post) (drop (length r) post)).
  - fold r. unfold set_data, set_len, mkbuf. cbn [capacity offset len data]. do 2 f_equal. rewrite !length_app, length_drop.
    f_equal; [lia|lia|]. by rewrite <- !app_assoc.
  - unfold set_len, mkbuf. cbn. by rewrite take_drop, app_assoc.
  - unfold k, ack_count. lia.
  - unfold k, ack_count. ints. lia.
  - rewrite length_take. lia.
  - done.
  - done.
  - done.
Qed.

Lemma reliable_ack_write_front pre c post :
  Z.of_nat (length pre + length c + length post) < BUF_SIZE_MAX → (length r ≤ length pre)%nat →
  reliable_ack_write ack sid max true (mkbuf pre c post) =
  Ret ((true, drop k ack), mkbuf (take (length pre - length r) pre) (r ++ c) post).
Proof using Type*.
  intros Hb Hr. unfold reliable_ack_write. cbv zeta. rewrite ack_count_u8 by done. fold k.
  destruct ack_record_size as [Hsz H41].
  rewrite bindM_run. unfold buf_sub. rewrite bindM_run. unfold buf_prepend.
  rewrite <- Hsz, valid_mk. cbn [mkbuf offset]. rewrite decide_False by (intros [?|?]; [done|lia]).
  bret. unfold buf_bptr, buf_valid. cbn [capacity offset len data].
  rewrite bool_decide_eq_true_2 by (cbn [mkbuf len data]; split; [by eexists|lia]).
  cbn [fmap option_fmap option_map]. rewrite mretM. bret.
  replace (Z.of_nat (length pre) - Z.of_nat (length r))
    with (Z.of_nat (length (take (length pre - length r) pre))) by (rewrite length_take; lia).
  rewrite Hsz.
  rewrite (ack_fill ack sid k _ (take (length pre - length r) pre)
             (drop (length pre - length r) pre) (c ++ post)).
  - fold r. unfold set_data, mkbuf. cbn [capacity offset len data]. do 2 f_equal. rewrite !length_app, !length_take.
    f_equal; [lia|lia|]. by rewrite <- !app_assoc.
  - cbn [mkbuf data]. rewrite (app_assoc (take _ _)), take_drop. done.
  - unfold k, ack_count. lia.
  - unfold k, ack_count. ints. lia.
  - rewrite length_drop. lia.
  - done.
  - done.
  - done.
Qed.
End ack_write.

(** ** Reading it back *)

Lemma buf_read_u32_mk pre x c post :
  is_u32 x → buf_read_u32 (mkbuf pre (be32 x ++ c) post) = Ret (Some x, mkbuf (pre ++ be32 x) c post).
Proof.
  intros Hx. unfold buf_read_u32. erewrite bindM_Ret by apply (buf_read_mk pre (be32 x)).
  unfold mret, M_ret. cbn [fmap option_fmap option_map]. by rewrite from_be_be32, u32_id.
Qed.

Lemma read_ids_mk ids : ∀ ack pre c post,
  Forall is_u32 ids → (length ack + length ids ≤ 8)%nat →
  read_ids (length ids) ack (mkbuf pre (concat (map be32 ids) ++ c) post) =
  Ret ((true, ack ++ ids), mkbuf (pre ++ concat (map be32 ids)) c post).
Proof.
  induction ids as [|x ids IH]; intros ack pre c post Hids Hl; cbn [length read_ids map concat].
  - by rewrite !app_nil_r.
  - apply Forall_cons in Hids as [Hx Hids]. cbn [length] in Hl. rewrite <- app_assoc.
    erewrite bindM_Ret by by apply buf_read_u32_mk. cbv beta iota.
    rewrite decide_False by (unfold RELIABLE_ACK_SIZE; lia).
    rewrite IH by (done || (rewrite length_app; cbn; lia)). by rewrite <- !app_assoc.
Qed.

(** A record of more identifiers than a peer ever sends is an error. *)
Lemma read_ids_full x ids ack pre c post :
  is_u32 x → length ack = 8%nat →
  read_ids (length (x :: ids)) ack (mkbuf pre (be32 x ++ c) post) =
  Ret ((false, ack), mkbuf (pre ++ be32 x) c post).
Proof.
  intros Hx Hl. cbn [length read_ids]. erewrite bindM_Ret by by apply buf_read_u32_mk. cbv beta iota.
  by rewrite decide_True by (unfold RELIABLE_ACK_SIZE; lia).
Qed.

Lemma reliable_ack_read_mk ids sid mine pre c post :
  Forall is_u32 ids → (length ids ≤ 8)%nat → Forall is_byte sid → length sid = 8%nat →
  session_id_defined sid = true →
  reliable_ack_read [] mine (mkbuf pre (ack_record ids sid ++ c) post) =
  Ret ((bool_decide (ids = [] ∨ sid = mine), ids), mkbuf (pre ++ ack_record ids sid) c post).
Proof.
  intros Hids Hl Hsb Hs8 Hsd. unfold reliable_ack_read, ack_record.
  set (n := Z.of_nat (length ids)). rewrite <- (app_comm_cons _ _ n).
  erewrite bindM_Ret by apply (buf_read_mk pre [n]). cbv beta iota zeta.
  assert (from_be [n] = n) as -> by (unfold from_be; cbn [foldl]; lia).
  assert (Z.to_nat n = length ids) as -> by (unfold n; lia).
  rewrite <- app_assoc. erewrite bindM_Ret by (apply read_ids_mk; [done|cbn; lia]). cbv beta iota.
  destruct ids as [|x ids].
  - rewrite decide_False by (unfold n; cbn [length]; lia). unfold mret, M_ret. cbn. do 2 f_equal.
    by rewrite decide_True, app_nil_r.
  - rewrite decide_True by (unfold n; cbn [length]; lia). rewrite decide_False by done.
    unfold session_id_read, SID_SIZE. replace 8 with (Z.of_nat (length sid)) by lia.
    erewrite bindM_Ret by apply buf_read_mk. unfold mret, M_ret. rewrite Hsd. cbn [andb].
    assert (session_id_equal sid mine = bool_decide (x :: ids = [] ∨ sid = mine)) as ->
      by (apply bool_decide_ext; split; [by right|by intros [?|?]]).
    do 3 f_equal. by rewrite <- !app_assoc.
Qed.

(** ** Entries *)

Lemma find_entry_Some t es i e :
  find_entry t es = Some (i, e) → es !! i = Some e ∧ t e = true.
Proof.
  revert i. induction es as [|x es IH]; intros i; cbn; [done|].
  destruct (t x) eqn:Ht; [by intros [= <- <-]|].
  destruct (find_entry t es) as [[j y]|]; cbn; [|done]. intros [= <- <-]. cbn. by apply IH.
Qed.

Lemma find_entry_None t es : find_entry t es = None → Forall (λ e, t e = false) es.
Proof.
  induction es as [|x es IH]; cbn; [done|]. destruct (t x) eqn:Ht; [done|].
  destruct (find_entry t es) as [[]|]; [done|]. auto.
Qed.

Lemma find_entry_exists t es : existsb t es = true → is_Some (find_entry t es).
Proof.
  induction es as [|x es IH]; cbn; [done|]. destruct (t x); [by eexists|]. cbn.
  intros [[j y] ->]%IH. by eexists.
Qed.

Lemma has_id_true pid e : has_id pid e = true ↔ active e = true ∧ e_packet_id e = pid.
Proof. unfold has_id. rewrite andb_true_iff, bool_decide_eq_true. done. Qed.

(** No two active entries have the same identifier. *)
Definition distinct (es : list reliable_entry) : Prop :=
  ∀ i j e e', es !! i = Some e → es !! j = Some e' → active e = true → active e' = true →
    e_packet_id e = e_packet_id e' → i = j.

Lemma distinct_tail x es : distinct (x :: es) → distinct es.
Proof. intros H i j e e' He He' Ha Ha' Hid. by injection (H (S i) (S j) e e' He He' Ha Ha' Hid). Qed.

(** An inactive entry becomes active with a new identifier. *)
Lemma distinct_insert es i e pid :
  distinct es → e_packet_id e = pid →
  (∀ j e', j ≠ i → es !! j = Some e' → active e' = true → e_packet_id e' ≠ pid) →
  distinct (<[i := e]> es).
Proof.
  intros Hd He Hnew j k e1 e2 H1 H2 Ha1 Ha2 Hid.
  apply list_lookup_insert_Some in H1 as [(<- & <- & _)|[Hj H1]];
    apply list_lookup_insert_Some in H2 as [(<- & <- & _)|[Hk H2]]; [done| | |by eapply Hd].
  - exfalso. eapply (Hnew k); [congruence|done|done|congruence].
  - exfalso. eapply (Hnew j); [congruence|done|done|congruence].
Qed.

(** Deactivating entries keeps the rest as it is. *)
Definition weaker (es es' : list reliable_entry) : Prop :=
  ∀ i e', es' !! i = Some e' → ∃ e, es !! i = Some e ∧ e_buf e' = e_buf e ∧
    (active e' = true → active e = true ∧ e_packet_id e' = e_packet_id e).

Lemma weaker_refl es : weaker es es.
Proof. intros i e He. by exists e. Qed.

Lemma weaker_trans es1 es2 es3 : weaker es1 es2 → weaker es2 es3 → weaker es1 es3.
Proof.
  intros H1 H2 i e3 He3. destruct (H2 i e3 He3) as (e2 & He2 & Hb2 & Ha2).
  destruct (H1 i e2 He2) as (e1 & He1 & Hb1 & Ha1). exists e1. split; [done|].
  split; [congruence|]. intros Ha. destruct (Ha2 Ha) as [Ha' ?]. destruct (Ha1 Ha'). split; [done|congruence].
Qed.

Lemma weaker_distinct es es' : weaker es es' → distinct es → distinct es'.
Proof.
  intros Hw Hd i j e1 e2 H1 H2 Ha1 Ha2 Hid.
  destruct (Hw _ _ H1) as (e1' & ? & _ & Hw1). destruct (Hw _ _ H2) as (e2' & ? & _ & Hw2).
  destruct (Hw1 Ha1), (Hw2 Ha2). eapply Hd; try done. congruence.
Qed.

Lemma weaker_map (f : reliable_entry → reliable_entry) es :
  (∀ e, e_buf (f e) = e_buf e ∧
     (active (f e) = true → active e = true ∧ e_packet_id (f e) = e_packet_id e)) →
  weaker es (map f es).
Proof.
  intros Hf i e' He'. apply list_lookup_fmap_Some_1 in He' as (e & -> & He). exists e.
  split; [done|]. apply Hf.
Qed.

Lemma weaker_insert es i e e' :
  es !! i = Some e → e_buf e' = e_buf e →
  (active e' = true → active e = true ∧ e_packet_id e' = e_packet_id e) →
  weaker es (<[i := e']> es).
Proof.
  intros He Hb Ha j x Hx. apply list_lookup_insert_Some in Hx as [(<- & <- & _)|[_ Hx]].
  - by exists e.
  - by exists x.
Qed.

(** ** Acknowledged packets leave the window *)

Definition acked (pids : list Z) (e : reliable_entry) : reliable_entry :=
  if decide (active e = true ∧ e_packet_id e ∈ pids) then set_active false e else e.

Lemma purge_one_map pid es : distinct es → purge_one pid es = map (acked [pid]) es.
Proof.
  induction es as [|e es IH]; intros Hd; cbn [purge_one map]; [done|]. unfold acked at 1.
  destruct (has_id pid e) eqn:He.
  - apply has_id_true in He as [Ha Hid]. rewrite decide_True by (split; [done|set_solver]).
    f_equal. rewrite <- (map_id es) at 1. apply map_ext_in. intros x Hx. unfold acked.
    rewrite decide_False; [done|]. intros [Hax Hidx]. apply list_elem_of_singleton in Hidx.
    apply list_elem_of_In, list_elem_of_lookup in Hx as [j Hj].
    by specialize (Hd O (S j) e x eq_refl Hj Ha Hax (eq_trans Hid (eq_sym Hidx))).
  - rewrite decide_False, IH; [done|by eapply distinct_tail|].
    intros [Ha Hid]. apply list_elem_of_singleton in Hid.
    by rewrite (proj2 (has_id_true pid e) (conj Ha Hid)) in He.
Qed.

Lemma acked_weaker pids es : weaker es (map (acked pids) es).
Proof. apply weaker_map. intros e. unfold acked. by case_decide. Qed.

Lemma reliable_send_purge_map rel pids :
  distinct (entries rel) →
  reliable_send_purge rel pids = set_entries (map (acked pids) (entries rel)) rel.
Proof.
  intros Hd. unfold reliable_send_purge. f_equal. revert Hd.
  generalize (entries rel). induction pids as [|pid pids IH]; intros es Hd; cbn [foldl].
  - symmetry. rewrite <- (map_id es) at 2. apply map_ext. intros e. unfold acked.
    rewrite decide_False; [done|]. by intros [_ ?%not_elem_of_nil].
  - rewrite purge_one_map by done. rewrite IH by (by eapply weaker_distinct; [apply acked_weaker|]).
    rewrite map_map. apply map_ext. intros e. unfold acked.
    destruct (decide (active e = true ∧ e_packet_id e ∈ [pid])) as [[Ha Hp]|Hn].
    + rewrite decide_False by (cbn; by intros []). rewrite decide_True; [done|]. split; [done|]. apply elem_of_cons. left. by apply list_elem_of_singleton in Hp.
    + apply decide_ext. rewrite elem_of_cons. rewrite list_elem_of_singleton in Hn. tauto.
Qed.

(** Whatever is acknowledged, entries are only deactivated. *)
Lemma purge_one_weaker pid es : weaker es (purge_one pid es).
Proof.
  induction es as [|x es IH]; intros i e' He'; cbn in *; [done|].
  destruct (has_id pid x), i as [|i]; cbn in *.
  - injection He' as <-. by exists x.
  - by exists e'.
  - injection He' as <-. by exists x.
  - by apply IH.
Qed.

Lemma reliable_send_purge_weaker rel pids :
  weaker (entries rel) (entries (reliable_send_purge rel pids)).
Proof.
  cbn. generalize (entries rel). induction pids as [|pid pids IH]; intros es; cbn [foldl].
  - apply weaker_refl.
  - eapply weaker_trans; [apply purge_one_weaker|apply IH].
Qed.

(** ** The buffers of the entries *)

(** Room in front of the payload, and for [n] bytes of it. *)
Definition room (off : Z) (b : buffer) : Z := capacity b - off.

Definition wf_rel (rel : reliable) : Prop :=
  4 ≤ r_offset rel ∧
  ∀ i e, entries rel !! i = Some e → wf_buf (e_buf e) ∧ r_offset rel ≤ capacity (e_buf e).

Lemma wf_rel_insert i e rel :
  wf_rel rel → wf_buf (e_buf e) → r_offset rel ≤ capacity (e_buf e) → wf_rel (set_entry i e rel).
Proof.
  intros [Ho Hw] Hb Hc. split; [done|]. intros j x Hx. cbn in Hx.
  apply list_lookup_insert_Some in Hx as [(_ & <- & _)|[_ Hx]]; [done|by eapply Hw].
Qed.

Lemma wf_rel_weaker es rel : wf_rel rel → weaker (entries rel) es → wf_rel (set_entries es rel).
Proof.
  intros [Ho Hw] Hwk. split; [done|]. intros j x Hx.
  destruct (Hwk j x Hx) as (e & He & -> & _). by eapply Hw.
Qed.

Lemma buf_init_ok b off :
  wf_buf b → 0 ≤ off ≤ capacity b →
  ∃ pre post, buf_init off b = Ret (true, mkbuf pre [] post) ∧ Z.of_nat (length pre) = off ∧
    capacity (mkbuf pre [] post) = capacity b ∧ capacity b < BUF_SIZE_MAX.
Proof.
  intros (Hd & Ho & Hl & Hc & Hm) Hoff. unfold buf_init. destruct (data b) as [d|] eqn:Ed; [|done].
  rewrite decide_False by (intros [?|[?|?]]; [lia|lia|done]).
  exists (take (Z.to_nat off) d), (drop (Z.to_nat off) d).
  assert (length (take (Z.to_nat off) d) + length (drop (Z.to_nat off) d) = length d)%nat
    by (rewrite <- length_app, take_drop; done).
  split; [|rewrite length_take; cbn [mkbuf capacity length]; lia].
  unfold mkbuf. cbn [app length]. rewrite take_drop. do 2 f_equal.
  f_equal; [lia|rewrite length_take; lia].
Qed.

(** A free buffer, emptied. *)
Lemma reliable_get_buf_ok rel :
  wf_rel rel →
  (reliable_can_get rel = false ∧ reliable_get_buf rel = Ret (None, rel)) ∨
  ∃ i e pre post, reliable_can_get rel = true ∧
    entries rel !! i = Some e ∧ active e = false ∧
    let b := mkbuf pre [] post in
    reliable_get_buf rel = Ret (Some i, set_entry i (set_buf b e) rel) ∧
    wf_buf b ∧ capacity b = capacity (e_buf e) ∧ Z.of_nat (length pre) = r_offset rel.
Proof.
  intros [Ho Hw]. unfold reliable_get_buf, reliable_can_get.
  destruct (find_entry (negb ∘ active) (entries rel)) as [[i e]|] eqn:E.
  - right. apply find_entry_Some in E as [He Ha]. apply negb_true_iff in Ha.
    destruct (Hw i e He) as [Hb Hc].
    destruct (buf_init_ok (e_buf e) (r_offset rel)) as (pre & post & -> & Hp & Hcap & Hm);
      [done|lia|]. bret.
    rewrite ASSERT_ok by done. bret. exists i, e, pre, post. split.
    { apply existsb_exists. exists e. split; [by eapply list_elem_of_In, list_elem_of_lookup_2|].
      by apply negb_true_iff. }
    split; [done|]. split; [done|]. split; [done|]. split; [|done]. apply wf_mk.
    cbn [mkbuf capacity] in Hcap. lia.
  - left. apply find_entry_None in E. split; [|done]. apply not_true_iff_false.
    intros (e & Hin & He)%existsb_exists. rewrite Forall_forall in E.
    rewrite E in He; [done|by apply list_elem_of_In].
Qed.

Lemma set_entry_twice i e e' rel : set_entry i e (set_entry i e' rel) = set_entry i e rel.
Proof. unfold set_entry, set_entries. cbn. by rewrite list_insert_insert_eq. Qed.

Lemma set_entry_packet_id i e e' pid rel :
  set_entry i e (set_packet_id pid (set_entry i e' rel)) = set_entry i e (set_packet_id pid rel).
Proof. unfold set_entry, set_entries, set_packet_id. cbn. by rewrite list_insert_insert_eq. Qed.

Lemma entries_set_entry i e rel x :
  entries rel !! i = Some x → entries (set_entry i e rel) !! i = Some e.
Proof. intros H. cbn. apply list_lookup_insert_eq. by eapply lookup_lt_Some. Qed.

(** Writing the payload to the buffer of entry [i]. *)
Lemma on_buf_write i e x rel pre post payload :
  entries rel !! i = Some x → wf_buf (mkbuf pre [] post) → Forall is_byte payload →
  on_buf i (buf_write payload) (set_entry i (set_buf (mkbuf pre [] post) e) rel) =
  if decide (length payload ≤ length post)%nat
  then Ret (true, set_entry i
         (set_buf (mkbuf pre payload (drop (length payload) post)) e) rel)
  else Ret (false, set_entry i (set_buf (mkbuf pre [] post) e) rel).
Proof.
  intros Hi Hb Hp. unfold on_buf. rewrite (entries_set_entry _ _ _ _ Hi). cbn [of_option]. bret.
  cbn [e_buf set_buf]. assert (Z.of_nat (length pre + 0 + length post) < BUF_SIZE_MAX).
  { destruct Hb as (_ & _ & _ & _ & Hm). cbn in Hm. lia. }
  case_decide.
  - rewrite buf_write_mk by (done || (cbn; lia)). bret. by rewrite set_entry_twice.
  - rewrite buf_write_full.
    + bret. by rewrite set_entry_twice.
    + rewrite safe_mk by (cbn; lia). apply bool_decide_eq_false_2. lia.
Qed.

(** ** Storing what arrives *)

(** The state after a packet is stored; [Abort] if it does not fit. *)
Lemma store_incoming_ok payload id op rel :
  wf_rel rel → Forall is_byte payload → reliable_can_get rel = true →
  reliable_pid_min id (r_packet_id rel) = false →
  ∃ i e, entries rel !! i = Some e ∧ active e = false ∧
    if decide (Z.of_nat (length payload) ≤ room (r_offset rel) (e_buf e))
    then ∃ b, store_incoming payload id op rel = Ret (set_entry i (RE true 0 0 id op b) rel) ∧
      wf_buf b ∧ content b = payload ∧ capacity b = capacity (e_buf e)
    else store_incoming payload id op rel = Abort.
Proof.
  intros Hw Hp Hcan Hmin. unfold store_incoming.
  destruct (reliable_get_buf_ok rel Hw) as [[? _]|(i & e & pre & post & _ & He & Ha & -> & Hb & Hc & Hpre)];
    [congruence|]. bret. exists i, e. split; [done|]. split; [done|].
  erewrite on_buf_write by done. cbn [mkbuf capacity length] in Hc. unfold room.
  destruct (decide (length payload ≤ length post)%nat).
  - rewrite decide_True by lia. bret. rewrite ASSERT_ok by done. bret.
    eexists. split.
    { unfold reliable_mark_active_incoming. rewrite (entries_set_entry _ _ _ _ He).
      rewrite ASSERT_ok by done. bret. by rewrite set_entry_twice. }
    cbn [e_buf set_buf]. rewrite content_mk. split; [|split; [done|]].
    + apply wf_mk. destruct Hb as (_ & _ & _ & _ & Hm). cbn [mkbuf capacity length] in Hm.
      rewrite length_drop. lia.
    + cbn [mkbuf capacity]. rewrite length_drop. lia.
  - rewrite decide_False by lia. bret. done.
Qed.

(** ** Sending in a window *)

(** How far an identifier lies behind the next one to assign. *)
Definition behind (rel : reliable) (id : Z) : Z := u32 (r_packet_id rel - id).

(** The identifiers in flight are the last [size] ones at most. *)
Definition in_window (rel : reliable) : Prop :=
  is_u32 (r_packet_id rel) ∧ r_size rel ≤ RELIABLE_CAPACITY ∧
  ∀ i e, entries rel !! i = Some e → active e = true →
    is_u32 (e_packet_id e) ∧ 1 ≤ behind rel (e_packet_id e) ≤ r_size rel.

Lemma behind_min rel a b :
  1 ≤ behind rel a ≤ 8 → 1 ≤ behind rel b ≤ 8 →
  reliable_pid_min a b = bool_decide (behind rel b < behind rel a).
Proof.
  intros Ha Hb. rewrite reliable_pid_min_spec. apply bool_decide_ext.
  assert (u32 (a - b) = u32 (behind rel b - behind rel a)) as ->.
  { unfold behind, wrap. rewrite Zminus_mod_idemp_l, Zminus_mod_idemp_r. f_equal. lia. }
  revert Ha Hb. generalize (behind rel a) (behind rel b). intros x y Hx Hy.
  unfold wrap. change (2 ^ 32) with 4294967296.
  destruct (decide (y < x)).
  - rewrite <- (Z.mod_unique_pos (y - x) 4294967296 (-1) (y - x + 4294967296)) by lia. lia.
  - rewrite Z.mod_small by lia. lia.
Qed.

Lemma behind_inj rel a b : is_u32 a → is_u32 b → behind rel a = behind rel b → a = b.
Proof.
  unfold is_u32, behind, wrap. change (2 ^ 32) with 4294967296. intros Ha Hb E.
  pose proof (Z.div_mod (r_packet_id rel - a) 4294967296).
  pose proof (Z.div_mod (r_packet_id rel - b) 4294967296).
  set (x := (r_packet_id rel - a) / _) in *. set (y := (r_packet_id rel - b) / _) in *.
  assert (4294967296 * (x - y) = b - a) by lia. assert (x - y = 0) by nia. lia.
Qed.

(** The fold finds the identifier furthest behind. *)
Lemma min_id_fold rel es :
  (∀ e, e ∈ es → active e = true → 1 ≤ behind rel (e_packet_id e) ≤ 8) → ∀ m,
  (∀ id, m = Some id → 1 ≤ behind rel id ≤ 8) →
  match foldl min_id_step m es with
  | Some id =>
      (∀ m', m = Some m' → behind rel m' ≤ behind rel id) ∧
      (∀ e, e ∈ es → active e = true → behind rel (e_packet_id e) ≤ behind rel id)
  | None => m = None ∧ ∀ e, e ∈ es → active e = false
  end.
Proof.
  induction es as [|e es IH]; intros Hes m Hm; cbn [foldl].
  - destruct m; [split; [by intros ? [= <-]|by intros ? ?%not_elem_of_nil]|].
    split; [done|]. by intros ? ?%not_elem_of_nil.
  - assert (∀ x, x ∈ es → active x = true → 1 ≤ behind rel (e_packet_id x) ≤ 8) as Hes'
      by (intros; apply Hes; [by apply list_elem_of_further|done]).
    specialize (IH Hes').
    assert (active e = true → 1 ≤ behind rel (e_packet_id e) ≤ 8) as He
      by (apply Hes, list_elem_of_here).
    destruct (active e) eqn:Ha; [specialize (He eq_refl)|].
    + assert (∃ id, min_id_step m e = Some id ∧ 1 ≤ behind rel id ≤ 8 ∧
        behind rel (e_packet_id e) ≤ behind rel id ∧
        ∀ m', m = Some m' → behind rel m' ≤ behind rel id) as (id0 & -> & H0 & He0 & Hm0).
      { unfold min_id_step. rewrite Ha. destruct m as [m|]; cbn [andb]; [|by eexists].
        specialize (Hm m eq_refl). rewrite (behind_min rel) by done.
        case_bool_decide; (eexists; split; [done|]; split; [done|]; split; [lia|]);
          intros ? [= <-]; lia. }
      specialize (IH (Some id0) ltac:(by intros ? [= <-])).
      destruct (foldl min_id_step (Some id0) es) as [id|]; [|by destruct IH].
      destruct IH as [IH1 IH2]. specialize (IH1 id0 eq_refl).
      split; [intros m' Hm'; specialize (Hm0 m' Hm'); lia|].
      intros x [->|Hx]%elem_of_cons Hax; [lia|auto].
    + assert (min_id_step m e = m) as -> by (unfold min_id_step; by rewrite Ha).
      specialize (IH m Hm). destruct (foldl min_id_step m es) as [id|]; destruct IH as [IH1 IH2].
      * split; [done|]. intros x [->|Hx]%elem_of_cons Hax; [congruence|auto].
      * split; [done|]. intros x [->|Hx]%elem_of_cons; auto.
Qed.

(** A buffer to send is given out only while the window has room. *)
Lemma reliable_get_buf_output_sequenced_ok rel :
  in_window rel →
  reliable_get_buf_output_sequenced rel = reliable_get_buf rel ∧
    (∀ i e, entries rel !! i = Some e → active e = true →
       behind rel (e_packet_id e) < r_size rel) ∨
  reliable_get_buf_output_sequenced rel = Ret (None, rel) ∧
    (∃ i e, entries rel !! i = Some e ∧ active e = true ∧
       behind rel (e_packet_id e) = r_size rel).
Proof.
  intros (Hid & Hs & Hw). unfold reliable_get_buf_output_sequenced, RELIABLE_CAPACITY in *.
  assert (∀ e, e ∈ entries rel → active e = true → 1 ≤ behind rel (e_packet_id e) ≤ 8) as Hes.
  { intros e [i He]%list_elem_of_lookup Ha. destruct (Hw i e He Ha). lia. }
  pose proof (min_id_fold rel (entries rel) Hes None ltac:(done)) as Hf.
  destruct (foldl min_id_step None (entries rel)) as [m|] eqn:Ef.
  - destruct Hf as [_ Hf]. rewrite reliable_pid_in_range1_spec. fold (behind rel m).
    case_bool_decide as Hr.
    + left. split; [done|]. intros i e He Ha. specialize (Hf e). 
      assert (e ∈ entries rel) by by eapply list_elem_of_lookup_2. specialize (Hf H Ha). lia.
    + right. split; [done|].
      assert (∃ e, e ∈ entries rel ∧ active e = true ∧ e_packet_id e = m) as (e & Hin & Ha & Hm).
      { clear - Ef. assert (∀ m0, foldl min_id_step m0 (entries rel) = Some m →
          m0 = Some m ∨ ∃ e, e ∈ entries rel ∧ active e = true ∧ e_packet_id e = m) as H.
        { clear. induction (entries rel) as [|e es IH]; intros m0 E; cbn [foldl] in E; [by left|].
          apply IH in E as [E|(x & ? & ? & ?)]; [|right; exists x; set_solver].
          unfold min_id_step in E. destruct (active e) eqn:Ha; cbn [andb] in E; [|by left].
          destruct (match m0 with None => true | Some _ => _ end); [|by left].
          right. injection E as <-. exists e. set_solver. }
        by destruct (H None Ef). }
      apply list_elem_of_lookup in Hin as [i He]. exists i, e. split; [done|]. split; [done|].
      destruct (Hw i e He Ha). rewrite Hm in *. lia.
  - left. split; [done|]. intros i e He Ha. destruct Hf as [_ Hf].
    specialize (Hf e ltac:(by eapply list_elem_of_lookup_2)). congruence.
Qed.

(** The state after a payload is accepted for sending. *)
Lemma outgoing_ok payload rel :
  wf_rel rel → in_window rel → Forall is_byte payload →
  outgoing payload rel = Ret (false, rel) ∨
  (∃ i e, entries rel !! i = Some e ∧ active e = false ∧
    (∀ j x, entries rel !! j = Some x → active x = true →
       behind rel (e_packet_id x) < r_size rel) ∧
    if decide (Z.of_nat (length payload) ≤ room (r_offset rel) (e_buf e))
    then ∃ b, outgoing payload rel =
        Ret (true, set_entry i (RE true (initial_timeout rel) 0 (r_packet_id rel) P_CONTROL_V1 b)
                     (set_packet_id (u32 (r_packet_id rel + 1)) rel)) ∧
      wf_buf b ∧ content b = be32 (r_packet_id rel) ++ payload ∧ capacity b = capacity (e_buf e)
    else outgoing payload rel = Abort).
Proof.
  intros Hw Hwin Hp. unfold outgoing.
  destruct (reliable_get_buf_output_sequenced_ok rel Hwin) as [[-> Hr]|[-> _]]; [|by left].
  destruct (reliable_get_buf_ok rel Hw) as [[_ ->]|(i & e & pre & post & _ & He & Ha & -> & Hb & Hc & Hpre)];
    [by left|]. right. bret. exists i, e. split; [done|]. split; [done|]. split; [done|].
  erewrite on_buf_write by done. cbn [mkbuf capacity length] in Hc. unfold room.
  destruct Hw as [Ho _].
  destruct (decide (length payload ≤ length post)%nat).
  - rewrite decide_True by lia. bret. rewrite ASSERT_ok by done. bret.
    eexists. split.
    { unfold reliable_mark_active_outgoing. rewrite (entries_set_entry _ _ _ _ He).
      cbn [e_buf set_buf]. rewrite buf_write_prepend_mk by (apply be32_bytes || (rewrite length_be32; lia)).
      bret. rewrite ASSERT_ok by done. bret. by rewrite set_entry_packet_id. }
    cbn [e_buf set_buf]. rewrite content_mk. split; [|split; [done|]].
    + apply wf_mk. destruct Hb as (_ & _ & _ & _ & Hm). cbn [mkbuf capacity length] in Hm.
      rewrite length_drop, length_take, length_app, length_be32. lia.
    + cbn [mkbuf capacity]. rewrite length_drop, length_take, length_app, length_be32. lia.
  - rewrite decide_False by lia. bret. done.
Qed.

(** The window after it. *)
Lemma in_window_outgoing rel i b to :
  in_window rel → (i < length (entries rel))%nat →
  (∀ j x, entries rel !! j = Some x → active x = true → behind rel (e_packet_id x) < r_size rel) →
  in_window (set_entry i (RE true to 0 (r_packet_id rel) P_CONTROL_V1 b)
               (set_packet_id (u32 (r_packet_id rel + 1)) rel)).
Proof.
  intros (Hid & Hs & Hw) Hi Hr. unfold in_window, r_size. cbn. rewrite length_insert.
  assert (∀ id, 0 ≤ behind rel id < 8 →
    u32 (u32 (r_packet_id rel + 1) - id) = behind rel id + 1) as Hb.
  { intros id Hd. unfold behind in *. unfold wrap in *. rewrite Zminus_mod_idemp_l.
    rewrite <- (Z.mod_small ((r_packet_id rel - id) mod 2 ^ 32 + 1) (2 ^ 32)) by
      (change (2 ^ 32) with 4294967296 in *; lia).
    rewrite Zplus_mod_idemp_l. f_equal. lia. }
  split; [apply (wrap_range 32); lia|]. split; [done|]. unfold RELIABLE_CAPACITY, r_size in *.
  intros j x [(<- & <- & _)|[_ Hx]]%list_lookup_insert_Some Ha; cbn [e_packet_id].
  - split; [done|]. unfold behind. cbn.
    assert (behind rel (r_packet_id rel) = 0) as E by (unfold behind; by rewrite Z.sub_diag).
    rewrite Hb by lia. lia.
  - destruct (Hw j x Hx Ha). specialize (Hr j x Hx Ha). split; [done|]. unfold behind at 1 2. cbn.
    rewrite Hb by lia. lia.
Qed.

(** ** Retransmission *)

Definition retry_used (es : list reliable_entry) (t : Z) : bool :=
  existsb (λ e, active e && bool_decide (next_try e = t)) es.

Definition retry_from (t : Z) (e : reliable_entry) : bool :=
  active e && bool_decide (t ≤ next_try e).

Fixpoint count (test : reliable_entry → bool) (es : list reliable_entry) : nat :=
  match es with [] => O | e :: es => (if test e then 1 else 0) + count test es end.

Lemma count_le t es : (count t es ≤ length es)%nat.
Proof. induction es; cbn; [lia|]. destruct (t a); lia. Qed.

Lemma count_retry es t :
  (count (retry_from (t + 1)) es + (if retry_used es t then 1 else 0) ≤ count (retry_from t) es)%nat.
Proof.
  induction es as [|e es IH]; [done|]. cbn [count retry_used existsb]. fold (retry_used es t).
  unfold retry_from at 1 3. destruct (active e); cbn [andb orb]; [|done].
  repeat case_bool_decide; cbn [orb]; destruct (retry_used es t); lia.
Qed.

(** The first point in time from [retry] on that no active entry uses. *)
Lemma reliable_unique_retry_ok rel retry :
  ∃ t, reliable_unique_retry rel retry = Ret t ∧ retry ≤ t ∧
    retry_used (entries rel) t = false ∧
    ∀ t', retry ≤ t' < t → retry_used (entries rel) t' = true.
Proof.
  unfold reliable_unique_retry. set (es := entries rel).
  apply (loop_total
    (λ s, retry ≤ s ∧ ∀ t', retry ≤ t' < s → retry_used es t' = true)
    (λ t, retry ≤ t ∧ retry_used es t = false ∧ ∀ t', retry ≤ t' < t → retry_used es t' = true)
    (λ s, count (retry_from s) es)).
  - intros s [Hs Hu]. eexists. split; [done|]. fold (retry_used es s).
    pose proof (count_retry es s). destruct (retry_used es s) eqn:E; [|done].
    split; [|lia]. split; [lia|]. intros t' Ht'. destruct (decide (t' = s)) as [->|]; [done|].
    apply Hu. lia.
  - split; [lia|]. intros. lia.
  - pose proof (count_le (retry_from retry) es). lia.
Qed.

Lemma send_best_none now es : ∀ i best,
  send_best now i best es = None ↔ best = None ∧ Forall (λ e, due now e = false) es.
Proof.
  induction es as [|e es IH]; intros i best; cbn [send_best]; [rewrite Forall_nil; tauto|].
  rewrite IH, Forall_cons. destruct (due now e) eqn:Hd; cbn [andb].
  - split; [|by intros [_ [? _]]]. destruct best as [[j b]|]; [|by intros [? _]].
    by destruct (reliable_pid_min _ _); intros [? _].
  - intuition congruence.
Qed.

Lemma send_best_lookup now es (all : list reliable_entry) : ∀ i best,
  (∀ j e, es !! j = Some e → all !! (i + j)%nat = Some e) →
  (∀ j e, best = Some (j, e) → all !! j = Some e ∧ due now e = true) →
  ∀ j e, send_best now i best es = Some (j, e) → all !! j = Some e ∧ due now e = true.
Proof.
  induction es as [|x es IH]; intros i best Hes Hbest j e; cbn [send_best]; [by apply Hbest|].
  apply IH.
  - intros k y Hy. rewrite <- (Hes (S k) y Hy). f_equal. lia.
  - intros k y. destruct (due now x && _) eqn:Hd; [|by apply Hbest].
    intros [= <- <-]. apply andb_true_iff in Hd as [Hd _]. split; [|done].
    specialize (Hes O x eq_refl). by rewrite Nat.add_0_r in Hes.
Qed.

(** [reliable_can_send] tells whether [reliable_send] will find an entry. *)
Lemma reliable_can_send_spec now rel :
  reliable_can_send now rel =
  negb (bool_decide (send_best now 0 None (entries rel) = None)) && negb (hold rel).
Proof.
  unfold reliable_can_send. f_equal. rewrite <- bool_decide_not. apply bool_decide_ext.
  rewrite send_best_none. induction (entries rel) as [|e es IH]; 
    [split; [rewrite filter_nil; cbn; lia|intros []; split; [done|apply Forall_nil_2]]|].
  rewrite filter_cons, Forall_cons. destruct (due now e) eqn:Hd.
  - rewrite decide_True by done. cbn [length]. split; [intros _ [_ [? _]]; congruence|lia].
  - rewrite decide_False by done. tauto.
Qed.

(** Among the entries that are due it takes the one furthest behind. *)
Lemma send_best_behind now rel es : ∀ i best,
  (∀ e, e ∈ es → active e = true → 1 ≤ behind rel (e_packet_id e) ≤ 8) →
  (∀ j b, best = Some (j, b) → 1 ≤ behind rel (e_packet_id b) ≤ 8) →
  ∀ j e, send_best now i best es = Some (j, e) →
    (∀ k b, best = Some (k, b) → behind rel (e_packet_id b) ≤ behind rel (e_packet_id e)) ∧
    (∀ x, x ∈ es → due now x = true → behind rel (e_packet_id x) ≤ behind rel (e_packet_id e)).
Proof.
  induction es as [|x es IH]; intros i best Hes Hbest j e; cbn [send_best].
  - intros ->. split; [by intros ? ? [= <- <-]|by intros ? ?%not_elem_of_nil].
  - assert (due now x = true → 1 ≤ behind rel (e_packet_id x) ≤ 8) as Hx.
    { intros [Ha _]%andb_true_iff. by apply Hes; [apply list_elem_of_here|]. }
    set (best' := if due now x && _ then Some (i, x) else best). intros E.
    assert ((∀ k b, best' = Some (k, b) → 1 ≤ behind rel (e_packet_id b) ≤ 8) ∧
      (∀ k b, best = Some (k, b) → ∃ k' b', best' = Some (k', b') ∧
         behind rel (e_packet_id b) ≤ behind rel (e_packet_id b')) ∧
      (due now x = true → ∃ k' b', best' = Some (k', b') ∧
         behind rel (e_packet_id x) ≤ behind rel (e_packet_id b'))) as (H1 & H2 & H3).
    { unfold best'. destruct (due now x) eqn:Hd; cbn [andb].
      - specialize (Hx eq_refl). destruct best as [[k b]|].
        + specialize (Hbest k b eq_refl). rewrite (behind_min rel) by done.
          case_bool_decide; (split; [by intros ? ? [= <- <-]|]); (split; [intros ? ? [= <- <-]|intros _]);
            (eexists _, _; split; [done|lia]).
        + split; [by intros ? ? [= <- <-]|]. split; [done|]. intros _. by exists i, x.
      - split; [done|]. split; [|done]. intros k b ->. by exists k, b. }
    destruct (IH (S i) best') with (j := j) (e := e) as [IH1 IH2]; [|done|done|].
    { intros y Hy. apply Hes. by apply list_elem_of_further. }
    split.
    + intros k b Hb. destruct (H2 k b Hb) as (k' & b' & Hb' & Hle). specialize (IH1 k' b' Hb'). lia.
    + intros y [->|Hy]%elem_of_cons Hdy; [|auto].
      destruct (H3 Hdy) as (k' & b' & Hb' & Hle). specialize (IH1 k' b' Hb'). lia.
Qed.

(** What [reliable_send] does: the oldest packet that is due is handed out, to
    be tried again at a time of its own. *)
Lemma reliable_send_ok now rel :
  in_window rel →
  (∀ i e, entries rel !! i = Some e → active e = true → 0 ≤ timeout e < 1073741824) →
  (reliable_send now rel = Ret (None, rel) ∧ Forall (λ e, due now e = false) (entries rel)) ∨
  ∃ i e t, entries rel !! i = Some e ∧ due now e = true ∧
    reliable_send now rel = Ret (Some (i, opcode e),
      set_entry i (RE (active e) (timeout e * 2) t (e_packet_id e) (opcode e) (e_buf e)) rel) ∧
    now + timeout e ≤ t ∧ retry_used (entries rel) t = false ∧
    ∀ x, x ∈ entries rel → due now x = true →
      behind rel (e_packet_id x) ≤ behind rel (e_packet_id e).
Proof.
  intros (_ & Hs & Hw) Ht. unfold reliable_send, RELIABLE_CAPACITY in *.
  destruct (send_best now 0 None (entries rel)) as [[i e]|] eqn:E.
  - right. destruct (send_best_lookup now (entries rel) (entries rel) 0 None) with (j := i) (e := e)
      as [He Hd]; [done|done|done|].
    pose proof Hd as [Ha _]%andb_true_iff. specialize (Ht i e He Ha).
    destruct (reliable_unique_retry_ok rel (now + timeout e)) as (t & -> & Hle & Hu & _). bret.
    rewrite int_ok by (ints; lia). bret. exists i, e, t. split; [done|]. split; [done|].
    split; [done|]. split; [done|]. split; [done|].
    eapply (send_best_behind now rel (entries rel) 0 None); [|done|done].
    intros x [j Hx]%list_elem_of_lookup Hax. destruct (Hw j x Hx Hax). lia.
  - left. split; [done|]. by apply send_best_none in E as [_ ?].
Qed.

(** ** Receiving in a window *)

(** What becomes of a packet with an identifier the window takes. *)
Definition accept (payload : list Z) (id op : Z) (rcv : reliable) : outcome reliable :=
  if reliable_can_get rcv && reliable_wont_break_sequentiality rcv id && reliable_not_replay rcv id
  then store_incoming payload id op rcv else Ret rcv.

Definition wf_acks (acks sid : list Z) : Prop :=
  Forall is_u32 acks ∧ (length acks ≤ 8)%nat ∧ Forall is_byte sid ∧ length sid = 8%nat ∧
  session_id_defined sid = true.

Lemma incoming_mk sid op ks acks asid id p pre post :
  wf_acks acks asid → is_u32 id → op ≠ P_ACK_V1 →
  ∃ b', incoming sid op ks (mkbuf pre (ack_record acks asid ++ be32 id ++ p) post) =
    if decide (acks = [] ∨ asid = sid) then
      rcv ← accept p id op (rec_reliable ks);
      Ret (Some (KS (reliable_send_purge (send_reliable ks) acks) rcv
        (if reliable_can_get (rec_reliable ks) &&
            reliable_wont_break_sequentiality (rec_reliable ks) id
         then (reliable_ack_acknowledge_packet_id (rec_ack ks) id).2 else rec_ack ks)), b')
    else Ret (None, b').
Proof.
  intros (Ha & Hal & Hab & Ha8 & Had) Hid Hop. unfold incoming.
  setoid_rewrite (bindM_Ret (reliable_ack_read [] sid));
    [|by apply reliable_ack_read_mk]. cbv beta iota.
  destruct (decide (acks = [] ∨ asid = sid)) as [Hs|Hs].
  2: { rewrite bool_decide_eq_false_2 by done. by eexists. }
  rewrite bool_decide_eq_true_2 by done. rewrite bool_decide_eq_false_2 by done. cbn [negb andb].
  unfold accept. destruct (reliable_can_get (rec_reliable ks)); cbn [andb]; [|by eexists].
  setoid_rewrite (bindM_Ret reliable_ack_read_packet_id);
    [|unfold reliable_ack_read_packet_id; by apply buf_read_u32_mk]. cbv beta iota.
  destruct (reliable_wont_break_sequentiality (rec_reliable ks) id); cbn [andb]; [|by eexists].
  eexists. rewrite bindM_run.
  set (b := mkbuf _ p post).
  assert (peek_n (offset b) (buf_len b) b = Ret (p, b)) as ->.
  { unfold b. rewrite buf_len_mk. unfold peek_n. cbn [data mkbuf of_option offset]. bret.
    rewrite decide_True by (rewrite !length_app; lia). rewrite !Nat2Z.id. by rewrite slice_mid. }
  bret. destruct (reliable_not_replay (rec_reliable ks) id); [|done].
  rewrite bindM_run. unfold lift. destruct (store_incoming p id op (rec_reliable ks)); done.
Qed.

(** The window of a receiver that has delivered [del]: the packets stored are
    of [sub], each at its place, at most [size] ahead. *)
Definition rcv_inv (sub : list (list Z)) (del : nat) (rel : reliable) : Prop :=
  wf_rel rel ∧ r_packet_id rel = Z.of_nat del ∧ 0 < r_size rel ≤ RELIABLE_CAPACITY ∧
  distinct (entries rel) ∧
  ∀ i e, entries rel !! i = Some e → active e = true →
    r_packet_id rel ≤ e_packet_id e < r_packet_id rel + r_size rel ∧
    sub !! Z.to_nat (e_packet_id e) = Some (content (e_buf e)).

Lemma accept_ok sub del rel p id op rel' :
  rcv_inv sub del rel → Z.of_nat del < 2147483640 → low id →
  sub !! Z.to_nat id = Some p → Forall is_byte p →
  accept p id op rel = Ret rel' → rcv_inv sub del rel'.
Proof.
  intros (Hw & Hpid & Hsz & Hd & He) Hdel Hid Hp Hb. unfold accept.
  destruct (reliable_can_get rel) eqn:Hcan; cbn [andb]; [|by intros [= <-]].
  destruct (reliable_wont_break_sequentiality rel id) eqn:Hwb; cbn [andb]; [|by intros [= <-]].
  destruct (reliable_not_replay rel id) eqn:Hnr; [|by intros [= <-]].
  unfold reliable_wont_break_sequentiality, RELIABLE_CAPACITY, r_size in *.
  rewrite in_range2_low in Hwb by (unfold low in *; lia). apply bool_decide_eq_true_1 in Hwb.
  unfold reliable_not_replay in Hnr. destruct (reliable_pid_min id (r_packet_id rel)) eqn:Hmin; [done|].
  destruct (store_incoming_ok p id op rel) as (i & e & Hi & Ha & Hst); try done.
  case_decide; [|by rewrite Hst]. destruct Hst as (b & -> & Hwb' & Hc & Hcap). intros [= <-].
  rewrite pid_min_low in Hmin by (unfold low in *; lia). apply bool_decide_eq_false_1 in Hmin.
  destruct Hw as [Ho Hw]. destruct (Hw i e Hi) as [_ Hcape].
  split; [apply wf_rel_insert; [done|done|cbn; lia]|]. split; [done|].
  split; [unfold r_size; cbn; by rewrite length_insert|]. split.
  - apply (distinct_insert _ _ _ id); [done|done|]. intros j x _ Hx Hax Hidx.
    apply negb_true_iff, not_true_iff_false in Hnr. apply Hnr, existsb_exists. exists x.
    split; [by eapply list_elem_of_In, list_elem_of_lookup_2|by apply has_id_true].
  - unfold r_size. cbn. rewrite length_insert.
    intros j x [(<- & <- & _)|[_ Hx]]%list_lookup_insert_Some Hax; [|by eapply He].
    cbn. rewrite Hc. split; [lia|done].
Qed.

Lemma peek_all b : wf_buf b → peek_n (offset b) (buf_len b) b = Ret (content b, b).
Proof.
  intros Hb. destruct (wf_buf_mk b Hb) as (pre & post & Heq & _). remember (content b) as c eqn:Hc.
  clear Hc. subst b. rewrite buf_len_mk. unfold peek_n. cbn [data mkbuf of_option offset]. bret.
  rewrite decide_True by (rewrite !length_app; lia). rewrite !Nat2Z.id. by rewrite slice_mid.
Qed.

(** Delivery is in order, and makes room. *)
Lemma deliver_ok sub del rel :
  rcv_inv sub del rel → Z.of_nat del < 2147483640 →
  (deliver rel = Ret (None, rel) ∧
     ∀ i e, entries rel !! i = Some e → active e = true → e_packet_id e ≠ r_packet_id rel) ∨
  ∃ p rel', deliver rel = Ret (Some p, rel') ∧ sub !! del = Some p ∧ rcv_inv sub (S del) rel'.
Proof.
  intros (Hw & Hpid & Hsz & Hd & He) Hdel. unfold deliver, reliable_get_buf_sequenced.
  destruct (find_entry (has_id (r_packet_id rel)) (entries rel)) as [[i e]|] eqn:E; cbn [fmap option_fmap option_map fst].
  - right. apply find_entry_Some in E as [Hi [Ha Hid]%has_id_true]. rewrite Hi. cbn [of_option]. bret.
    destruct (proj2 Hw i e Hi) as [Hb Hcap]. rewrite peek_all by done. bret.
    unfold reliable_mark_deleted. rewrite Hi. bret.
    destruct (He i e Hi Ha) as [Hrange Hsub]. exists (content (e_buf e)). eexists. split; [done|].
    split; [rewrite <- Hsub; f_equal; lia|].
    assert (weaker (entries rel) (<[i:=set_active false e]> (entries rel))) as Hwk
      by by eapply weaker_insert.
    split; [by apply (wf_rel_weaker _ rel)|].
    assert (u32 (e_packet_id e + 1) = Z.of_nat (S del)) as Hnew
      by (rewrite u32_id by (unfold is_u32; lia); lia).
    cbn [r_packet_id set_packet_id set_entry set_entries]. split; [done|].
    split; [unfold r_size in *; cbn; by rewrite length_insert|].
    split; [by eapply weaker_distinct|].
    unfold r_size. cbn. rewrite length_insert. fold (r_size rel). rewrite Hnew.
    intros j x [(<- & <- & _)|[Hj Hx]]%list_lookup_insert_Some Hax; [done|].
    destruct (He j x Hx Hax) as [Hr ?]. split; [|done].
    assert (e_packet_id x ≠ e_packet_id e); [|lia].
    intros Heq. apply Hj. symmetry. by eapply Hd.
  - left. split; [done|]. intros i e Hi Ha Hid. apply find_entry_None in E.
    rewrite Forall_lookup in E. specialize (E i e Hi). by rewrite (proj2 (has_id_true _ _)) in E.
Qed.

(** The window never deadlocks: there is always room for the packet that is
    delivered next. *)
Lemma next_fits sub del rel :
  rcv_inv sub del rel → Z.of_nat del < 2147483640 →
  (∀ i e, entries rel !! i = Some e → active e = true → e_packet_id e ≠ r_packet_id rel) →
  reliable_can_get rel = true ∧
  reliable_wont_break_sequentiality rel (r_packet_id rel) = true ∧
  reliable_not_replay rel (r_packet_id rel) = true.
Proof.
  intros (Hw & Hpid & Hsz & Hd & He) Hdel Hnot. unfold RELIABLE_CAPACITY in *.
  split; [|split].
  - apply not_false_iff_true. intros Hfull.
    assert (∀ i e, entries rel !! i = Some e → active e = true) as Hall.
    { intros i e Hi. destruct (active e) eqn:Ha; [done|].
      assert (reliable_can_get rel = true); [|congruence].
      apply existsb_exists. exists e. split; [by eapply list_elem_of_In, list_elem_of_lookup_2|].
      cbn. by rewrite Ha. }
    assert (NoDup (e_packet_id <$> entries rel)) as Hnd.
    { apply NoDup_alt. intros i j x Hi Hj. rewrite list_lookup_fmap in Hi, Hj.
      destruct (entries rel !! i) as [e|] eqn:Ei; [|done]. cbn in Hi.
      destruct (entries rel !! j) as [e'|] eqn:Ej; [|done]. cbn in Hj. simplify_eq.
      eapply Hd; eauto. }
    assert ((e_packet_id <$> entries rel) ⊆ seqZ (r_packet_id rel + 1) (r_size rel - 1)) as Hincl.
    { intros x (e & -> & Hin)%list_elem_of_fmap. apply list_elem_of_lookup in Hin as [i Hi].
      apply elem_of_seqZ. specialize (Hall i e Hi). destruct (He i e Hi Hall). specialize (Hnot i e Hi Hall).
      lia. }
    apply NoDup_submseteq, submseteq_length in Hincl; [|done].
    rewrite length_fmap, length_seqZ in Hincl. unfold r_size in *. lia.
  - unfold reliable_wont_break_sequentiality. rewrite in_range2_low by (unfold low; lia).
    apply bool_decide_eq_true_2. lia.
  - unfold reliable_not_replay. rewrite pid_min_low by (unfold low; lia).
    rewrite bool_decide_eq_false_2 by lia. apply negb_true_iff, not_true_iff_false.
    intros (e & Hin & [Ha Hid]%has_id_true)%existsb_exists.
    apply list_elem_of_In, list_elem_of_lookup in Hin as [i Hi]. by eapply Hnot.
Qed.

(** A packet that waits to be delivered is known. *)
Lemma stored_is_replay rel p rel' :
  deliver rel = Ret (Some p, rel') → reliable_not_replay rel (r_packet_id rel) = false.
Proof.
  unfold deliver, reliable_get_buf_sequenced, reliable_not_replay.
  destruct (find_entry (has_id (r_packet_id rel)) (entries rel)) as [[i e]|] eqn:E; [|done]. intros _.
  apply find_entry_Some in E as [Hi Hid]. destruct (reliable_pid_min _ _); [done|].
  apply negb_false_iff, existsb_exists. exists e. split; [|done]. by eapply list_elem_of_In, list_elem_of_lookup_2.
Qed.

(** The packet that is next in order, when it arrives, is delivered, unless it
    was already stored, and then that one is. *)
Lemma progress sub del rel p op :
  rcv_inv sub del rel → Z.of_nat del < 2147483640 →
  sub !! del = Some p → Forall is_byte p →
  (∀ i e, entries rel !! i = Some e → Z.of_nat (length p) ≤ room (r_offset rel) (e_buf e)) →
  ∃ rel1 rel2, accept p (Z.of_nat del) op rel = Ret rel1 ∧
    deliver rel1 = Ret (Some p, rel2) ∧ rcv_inv sub (S del) rel2.
Proof.
  intros Hinv Hdel Hp Hb Hroom. pose proof Hinv as (Hw & Hpid & Hsz & _).
  destruct (deliver_ok sub del rel Hinv Hdel) as [[_ Hnot]|(q & rel' & E & Hq & Hinv')].
  2: { exists rel, rel'. split; [|by simplify_eq]. unfold accept.
       assert (reliable_not_replay rel (Z.of_nat del) = false) as ->; [|by rewrite andb_false_r].
       rewrite <- Hpid. by eapply stored_is_replay. }
  destruct (next_fits sub del rel Hinv Hdel Hnot) as (Hcan & Hwb & Hnr).
  assert (reliable_pid_min (Z.of_nat del) (r_packet_id rel) = false) as Hmin.
  { rewrite pid_min_low by (unfold low; lia). apply bool_decide_eq_false_2. lia. }
  destruct (store_incoming_ok p (Z.of_nat del) op rel Hw Hb Hcan Hmin) as (i & e & Hi & Ha & Hst).
  rewrite decide_True in Hst by by eapply Hroom.
  destruct Hst as (b & Est & Hwf & Hc & Hcap).
  assert (accept p (Z.of_nat del) op rel =
    Ret (set_entry i (RE true 0 0 (Z.of_nat del) op b) rel)) as Eacc.
  { unfold accept. rewrite <- Hpid in *. by rewrite Hcan, Hwb, Hnr. }
  set (rel1 := set_entry _ _ _) in *.
  assert (rcv_inv sub del rel1) as Hinv1.
  { eapply accept_ok; [exact Hinv|done| |by rewrite Nat2Z.id|done|exact Eacc]. unfold low. lia. }
  destruct (deliver_ok sub del rel1 Hinv1 Hdel) as [[_ Hno]|(q & rel' & E & Hq & Hinv')].
  - exfalso. eapply (Hno i); [by eapply entries_set_entry|done|]. cbn. by rewrite Hpid.
  - exists rel1, rel'. split; [done|]. by simplify_eq.
Qed.

(** ** A sender, a network, a receiver

    One direction of a control channel: the send window of one side, the state
    of the other, the packets ever sent, the payloads submitted and the
    payloads delivered.  The network loses, duplicates, delays and reorders;
    acknowledgements may say anything. *)
Record system := Sys {
  sender : reliable;
  receiver : key_state;
  net : list (list Z);
  submitted : list (list Z);
  delivered : list (list Z);
}.

Inductive step (s : system) : system → Prop :=
| step_submit p snd' :
    Forall is_byte p → outgoing p (sender s) = Ret (true, snd') →
    step s (Sys snd' (receiver s) (net s) (submitted s ++ [p]) (delivered s))
| step_send now i op snd' e :
    reliable_send now (sender s) = Ret (Some (i, op), snd') → entries snd' !! i = Some e →
    step s (Sys snd' (receiver s) (content (e_buf e) :: net s) (submitted s) (delivered s))
| step_schedule now :
    step s (Sys (reliable_schedule_now now (sender s)) (receiver s) (net s) (submitted s) (delivered s))
| step_acked acks :
    step s (Sys (reliable_send_purge (sender s) acks) (receiver s) (net s) (submitted s) (delivered s))
| step_receive c acks asid sid op b b' rcv' :
    c ∈ net s → wf_acks acks asid → op ≠ P_ACK_V1 →
    wf_buf b → content b = ack_record acks asid ++ c →
    incoming sid op (receiver s) b = Ret (Some rcv', b') →
    step s (Sys (sender s) rcv' (net s) (submitted s) (delivered s))
| step_deliver p rel :
    deliver (rec_reliable (receiver s)) = Ret (Some p, rel) →
    step s (Sys (sender s) (KS (send_reliable (receiver s)) rel (rec_ack (receiver s))) (net s)
              (submitted s) (delivered s ++ [p])).

Definition snd_inv (sub : list (list Z)) (rel : reliable) : Prop :=
  wf_rel rel ∧ in_window rel ∧ distinct (entries rel) ∧
  r_packet_id rel = Z.of_nat (length sub) ∧
  ∀ i e, entries rel !! i = Some e → active e = true →
    ∃ p, sub !! Z.to_nat (e_packet_id e) = Some p ∧
      content (e_buf e) = be32 (e_packet_id e) ++ p.

(** A packet of the network carries the payload its identifier stands for. *)
Definition genuine (sub : list (list Z)) (c : list Z) : Prop :=
  ∃ id p, 0 ≤ id ∧ c = be32 id ++ p ∧ sub !! Z.to_nat id = Some p.

Definition sys_inv (s : system) : Prop :=
  snd_inv (submitted s) (sender s) ∧
  rcv_inv (submitted s) (length (delivered s)) (rec_reliable (receiver s)) ∧
  Forall (genuine (submitted s)) (net s) ∧ Forall (Forall is_byte) (submitted s) ∧
  delivered s `prefix_of` submitted s.

Definition short (s : system) : Prop := Z.of_nat (length (submitted s)) < 2147483640.

Lemma in_window_weaker es rel :
  in_window rel → length es = length (entries rel) → weaker (entries rel) es →
  in_window (set_entries es rel).
Proof.
  intros (Hid & Hs & Hw) Hl Hwk. unfold in_window, r_size, behind in *. cbn. rewrite Hl.
  split; [done|]. split; [done|]. intros i e He Ha. destruct (Hwk i e He) as (e0 & He0 & _ & Hae).
  destruct (Hae Ha) as [Ha0 ->]. by eapply Hw.
Qed.

Lemma snd_inv_weaker sub es rel :
  snd_inv sub rel → length es = length (entries rel) → weaker (entries rel) es →
  snd_inv sub (set_entries es rel).
Proof.
  intros (Hw & Hwin & Hd & Hpid & He) Hl Hwk.
  split; [by apply wf_rel_weaker|]. split; [by apply in_window_weaker|].
  split; [by eapply weaker_distinct|]. split; [done|]. cbn. intros i e Hi Ha.
  destruct (Hwk i e Hi) as (e0 & He0 & -> & Hae). destruct (Hae Ha) as [Ha0 ->]. by eapply He.
Qed.

Lemma length_purge pid es : length (purge_one pid es) = length es.
Proof. induction es as [|e es IH]; cbn; [done|]. destruct (has_id pid e); cbn; auto. Qed.

Lemma snd_inv_purge sub rel acks : snd_inv sub rel → snd_inv sub (reliable_send_purge rel acks).
Proof.
  intros H. apply snd_inv_weaker; [done| |apply reliable_send_purge_weaker].
  generalize (entries rel). induction acks as [|a acks IH]; intros es; cbn [foldl]; [done|].
  by rewrite IH, length_purge.
Qed.

(** A new payload takes the next identifier. *)
Lemma snd_inv_submit sub rel p rel' :
  snd_inv sub rel → Forall is_byte p → Z.of_nat (length sub) < 2147483640 →
  outgoing p rel = Ret (true, rel') → snd_inv (sub ++ [p]) rel'.
Proof.
  intros (Hw & Hwin & Hd & Hpid & He) Hp Hlen Hout.
  destruct (outgoing_ok p rel Hw Hwin Hp) as [E|(i & e & Hi & Ha & Hr & Hout')]; [congruence|].
  case_decide; [|congruence]. destruct Hout' as (b & E & Hwb & Hc & Hcap).
  rewrite E in Hout. injection Hout as <-. clear E.
  destruct Hw as [Ho Hw]. destruct (Hw i e Hi) as [_ Hcape].
  assert (u32 (r_packet_id rel + 1) = Z.of_nat (length (sub ++ [p]))) as Hnew.
  { rewrite length_app, u32_id by (unfold is_u32; lia). cbn. lia. }
  split.
  { apply wf_rel_insert; [done|done|cbn; lia]. }
  split; [by apply in_window_outgoing; [|eapply lookup_lt_Some|]|].
  split.
  { cbn. apply (distinct_insert _ _ _ (r_packet_id rel)); [done|done|].
    intros j x _ Hx Hax Hid. destruct Hwin as (_ & _ & Hwin). destruct (Hwin j x Hx Hax) as [_ Hb].
    rewrite Hid in Hb. unfold behind in Hb. rewrite Z.sub_diag in Hb. change (u32 0) with 0 in Hb. lia. }
  split; [done|]. cbn. intros j x [(<- & <- & _)|[_ Hx]]%list_lookup_insert_Some Hax; cbn.
  - exists p. split; [|done]. rewrite Hpid, Nat2Z.id. by rewrite lookup_app_r, Nat.sub_diag by lia.
  - destruct (He j x Hx Hax) as (q & Hq & ?). exists q. split; [|done].
    rewrite lookup_app_l; [done|by eapply lookup_lt_Some].
Qed.

(** A packet sent is genuine, and only its timer changes. *)
Lemma snd_inv_send sub rel now i op rel' e' :
  snd_inv sub rel → Z.of_nat (length sub) < 2147483640 →
  reliable_send now rel = Ret (Some (i, op), rel') → entries rel' !! i = Some e' →
  snd_inv sub rel' ∧ genuine sub (content (e_buf e')).
Proof.
  intros Hinv Hlen. unfold reliable_send.
  destruct (send_best now 0 None (entries rel)) as [[j e]|] eqn:E; [|done]. intros Hs.
  destruct (send_best_lookup now (entries rel) (entries rel) 0 None) with (j := j) (e := e)
    as [He Hd]; [done|done|done|].
  apply bind_Ret_inv in Hs as (t & _ & Hs). apply bind_Ret_inv in Hs as (dbl & _ & Hs).
  injection Hs as <- <- <-. pose proof Hd as [Ha _]%andb_true_iff.
  rewrite (entries_set_entry _ _ _ _ He). intros [= <-]. cbn [e_buf]. split.
  - apply snd_inv_weaker; [done|by rewrite length_insert|]. by eapply weaker_insert.
  - destruct Hinv as (_ & Hwin & _ & _ & Hc). destruct (Hc j e He Ha) as (p & Hp & ->).
    exists (e_packet_id e), p. split; [|done]. destruct Hwin as (_ & _ & Hwin).
    by destruct (Hwin j e He Ha) as [[? _] _].
Qed.

Lemma snd_inv_schedule sub rel now : snd_inv sub rel → snd_inv sub (reliable_schedule_now now rel).
Proof.
  intros Hinv. unfold reliable_schedule_now.
  set (f := λ e, if active e then _ else e). 
  assert (weaker (entries rel) (map f (entries rel))) as Hwk.
  { apply weaker_map. intros e. unfold f. destruct (active e) eqn:Ha; cbn; [done|].
    split; [done|congruence]. }
  destruct (snd_inv_weaker sub (map f (entries rel)) rel Hinv) as (Hw & Hwin & Hd & Hpid & He);
    [by rewrite length_map|done|]. done.
Qed.

Lemma genuine_more sub p c : genuine sub c → genuine (sub ++ [p]) c.
Proof.
  intros (id & q & Hid & -> & Hq). exists id, q. split; [done|]. split; [done|].
  rewrite lookup_app_l; [done|by eapply lookup_lt_Some].
Qed.

Lemma rcv_inv_more sub del rel p : rcv_inv sub del rel → rcv_inv (sub ++ [p]) del rel.
Proof.
  intros (Hw & Hpid & Hsz & Hd & He). do 4 (split; [done|]). intros i e Hi Ha.
  destruct (He i e Hi Ha) as [Hr Hs]. split; [done|].
  rewrite lookup_app_l; [done|by eapply lookup_lt_Some].
Qed.

(** Every step keeps the invariant. *)
Lemma step_inv s s' : step s s' → short s' → sys_inv s → sys_inv s'.
Proof.
  intros Hstep Hshort (Hs & Hr & Hn & Hb & Hpre). unfold short in Hshort.
  assert (length (delivered s) ≤ length (submitted s))%nat by by apply prefix_length.
  destruct Hstep as [p snd' Hp Hout|now i op snd' e Hsend He|now|acks
    |c acks asid sid op b b' rcv' Hc Hwa Hop Hwb Hcb Hin|p rel Hdel];
    cbn in Hshort; unfold sys_inv; cbn [sender receiver net submitted delivered].
  - rewrite length_app in Hshort. cbn in Hshort. split; [apply (snd_inv_submit _ (sender s)); done || lia|].
    split; [by apply rcv_inv_more|]. split; [eapply Forall_impl; [done|]; intros; by apply genuine_more|].
    split; [by apply Forall_app; split; [|apply Forall_singleton]|by apply prefix_app_r].
  - destruct (snd_inv_send _ _ _ _ _ _ _ Hs Hshort Hsend He) as [? ?]. split; [done|]. split; [done|].
    split; [by apply Forall_cons|done].
  - split; [by apply snd_inv_schedule|done].
  - split; [by apply snd_inv_purge|done].
  - split; [done|]. split; [|done]. rewrite Forall_forall in Hn.
    destruct (Hn c Hc) as (id & q & Hid & -> & Hq). pose proof (lookup_lt_Some _ _ _ Hq).
    destruct (wf_buf_mk b Hwb) as (pre & post & Heq & _). rewrite Heq, Hcb in Hin.
    destruct (incoming_mk sid op (receiver s) acks asid id q pre post Hwa) as [b2 E];
      [unfold is_u32; lia|done|]. rewrite E in Hin. case_decide; [|done].
    apply bind_Ret_inv in Hin as (rel & Hacc & Hin). injection Hin as <- _. cbn [rec_reliable].
    apply (accept_ok _ _ (rec_reliable (receiver s)) q id op); [done|lia|unfold low; lia|done| |done].
    rewrite Forall_forall in Hb. apply Hb. by eapply list_elem_of_lookup_2.
  - destruct (deliver_ok _ _ _ Hr) as [[E _]|(q & rel' & E & Hq & Hinv)]; [lia|congruence|].
    rewrite E in Hdel. injection Hdel as <- <-. split; [done|]. rewrite length_app, Nat.add_1_r.
    split; [done|]. split; [done|]. split; [done|].
    destruct Hpre as [k Hk]. rewrite Hk in Hq |- *.
    rewrite lookup_app_r, Nat.sub_diag in Hq by lia. destruct k as [|x k]; [done|].
    injection Hq as ->. exists k. by rewrite <- app_assoc.
Qed.

Lemma step_submitted s s' : step s s' → (length (submitted s) ≤ length (submitted s'))%nat.
Proof. destruct 1; cbn; rewrite ?length_app; lia. Qed.

Lemma steps_submitted s s' : rtc step s s' → (length (submitted s) ≤ length (submitted s'))%nat.
Proof. induction 1 as [|s1 s2 s3 H _ IH]; [lia|]. apply step_submitted in H. lia. Qed.

Lemma steps_inv s s' : rtc step s s' → short s' → sys_inv s → sys_inv s'.
Proof.
  induction 1 as [|s1 s2 s3 H Hrtc IH]; [done|]. intros Hsh Hinv. apply IH; [done|].
  apply (step_inv s1); [done| |done]. unfold short in *. apply steps_submitted in Hrtc. lia.
Qed.

(** ** The start *)

Lemma reliable_init_ok buf_size offset n hold :
  0 ≤ buf_size < BUF_SIZE_MAX → 4 ≤ offset ≤ buf_size → 0 < n ≤ RELIABLE_CAPACITY →
  ∃ rel, reliable_init buf_size offset n hold = Ret rel ∧ snd_inv [] rel ∧ rcv_inv [] 0 rel ∧
    r_size rel = n.
Proof.
  intros Hb Ho Hn. unfold reliable_init, alloc_buf, buf_size_valid.
  rewrite ASSERT_ok by lia. bret. rewrite bool_decide_eq_true_2 by lia. bret.
  set (b0 := Buf _ _ _ _). assert (wf_buf b0) as Hwf0.
  { unfold b0, wf_buf. cbn. rewrite length_replicate. lia. }
  destruct (buf_init_ok b0 offset Hwf0) as (pre & post & -> & Hpre & Hcap & Hm); [unfold b0; cbn; lia|].
  bret. rewrite ASSERT_ok by done. bret. eexists. split; [done|].
  assert (∀ i e, replicate (Z.to_nat n) (RE false 0 0 0 0 (mkbuf pre [] post)) !! i = Some e →
    e = RE false 0 0 0 0 (mkbuf pre [] post)) as Hrep by (by intros i e [-> _]%lookup_replicate).
  set (rel := Rel _ _ _ _ _).
  assert (wf_rel rel) as Hw.
  { split; [cbn; lia|]. cbn. intros i e ->%Hrep. cbn [e_buf]. split; [|rewrite Hcap; unfold b0; cbn; lia].
    apply wf_mk. cbn [mkbuf capacity] in Hcap. lia. }
  assert (r_size rel = n) as Hsz by (unfold r_size; cbn; rewrite length_replicate; lia).
  assert (∀ i e, entries rel !! i = Some e → active e = true → False) as Hno by (by intros i e ->%Hrep).
  assert (distinct (entries rel)) as Hd by (intros i j e e' He _ Ha; by destruct (Hno i e)).
  split; [|split; [|done]].
  - split; [done|]. split; [|split; [done|split; [done|intros i e He Ha; by destruct (Hno i e)]]].
    split; [by cbn; unfold is_u32|]. split; [lia|]. intros i e He Ha. by destruct (Hno i e).
  - split; [done|]. split; [done|]. split; [lia|]. split; [done|].
    intros i e He Ha. by destruct (Hno i e).
Qed.

(** A connection before its first packet. *)
Definition fresh (snd : reliable) (rcv : key_state) : system := Sys snd rcv [] [] [].

Lemma fresh_inv bs off n hold bs' off' n' hold' :
  0 ≤ bs < BUF_SIZE_MAX → 4 ≤ off ≤ bs → 0 < n ≤ RELIABLE_CAPACITY →
  0 ≤ bs' < BUF_SIZE_MAX → 4 ≤ off' ≤ bs' → 0 < n' ≤ RELIABLE_CAPACITY →
  ∃ snd rcv, reliable_init bs off n hold = Ret snd ∧ reliable_init bs' off' n' hold' = Ret rcv ∧
    ∀ other acks, sys_inv (fresh snd (KS other rcv acks)).
Proof.
  intros H1 H2 H3 H4 H5 H6.
  destruct (reliable_init_ok bs off n hold H1 H2 H3) as (snd & Es & Hs & _).
  destruct (reliable_init_ok bs' off' n' hold' H4 H5 H6) as (rcv & Er & _ & Hr & _).
  exists snd, rcv. split; [done|]. split; [done|]. intros other acks. split; [done|]. split; [done|]. split; [constructor|]. split; [constructor|done].
Qed.

(** The send window across wrap-around: a packet enters under the next
    identifier, and the identifiers in flight stay within the window. *)
Lemma outgoing_window payload rel rel' :
  wf_rel rel → in_window rel → Forall is_byte payload →
  outgoing payload rel = Ret (true, rel') →
  in_window rel' ∧ r_packet_id rel' = u32 (r_packet_id rel + 1) ∧
  ∃ i e, entries rel' !! i = Some e ∧ active e = true ∧ e_packet_id e = r_packet_id rel ∧
    content (e_buf e) = be32 (r_packet_id rel) ++ payload.
Proof.
  intros Hw Hin Hb E. destruct (outgoing_ok payload rel Hw Hin Hb) as [E'|(i & e & Hi & Ha & Hbe & Hc)].
  { rewrite E' in E. by injection E. }
  case_decide; [|by rewrite Hc in E]. destruct Hc as (b & E' & _ & Hcb & _).
  rewrite E' in E. injection E as <-. split; [|split; [done|]].
  - apply in_window_outgoing; [done|by eapply lookup_lt_Some|done].
  - eexists i, _. split; [by eapply entries_set_entry|]. done.
Qed.
