(* ===== verification/OvpnList.v ===== *)
(** * OpenVPN: hash tables

    Models [openvpn/src/src/openvpn/list.c] with the inline functions of
    [list.h], and [adjust_power_of_2] of [misc.c].  A bucket is the list of its
    elements, the head first; a pointer to an element is its index in the
    bucket the iterator has locked.  The two function pointers of a [struct
    hash] are the class [Hashable]. *)
From S2P Require Import Prelude OvpnBuffer OvpnPacketId.
#[local] Open Scope bool_scope.
#[local] Open Scope Z_scope.

(** ** Jenkins' hash function *)

(** [x -= y; x -= z; x ^= w]. *)
Definition mix_step (x y z w : Z) : Z := Z.lxor (u32 (u32 (x - y) - z)) w.
Definition shr (n x : Z) : Z := Z.shiftr x n.
Definition shl (n x : Z) : Z := u32 (Z.shiftl x n).

Definition mix_row (n1 n2 n3 : Z) (s : Z * Z * Z) : Z * Z * Z :=
  let '(a, b, c) := s in
  let a := mix_step a b c (shr n1 c) in
  let b := mix_step b c a (shl n2 a) in
  let c := mix_step c a b (shr n3 b) in
  (a, b, c).
Definition mix (s : Z * Z * Z) : Z * Z * Z := mix_row 3 10 15 (mix_row 12 16 5 (mix_row 13 8 13 s)).

(** The 32-bit word at [p], least significant byte first. *)
Definition word (k : list Z) (p : nat) : outcome Z :=
  k0 ← load k p;
  k1 ← load k (p + 1);
  k2 ← load k (p + 2);
  k3 ← load k (p + 3);
  Ret (u32 (k0 + shl 8 k1 + shl 16 k2 + shl 24 k3)).

Definition hash_body (k : list Z) (s : nat * Z * (Z * Z * Z)) :
    outcome (nat * Z * (Z * Z * Z) + nat * Z * (Z * Z * Z)) :=
  let '(p, len, (a, b, c)) := s in
  if decide (len >= 12) then
    x ← word k p;
    y ← word k (p + 4);
    z ← word k (p + 8);
    Ret (inl ((p + 12)%nat, len - 12, mix (u32 (a + x), u32 (b + y), u32 (c + z))))
  else Ret (inr (p, len, (a, b, c))).

(** [case i + 1:], entered when [len > i]: the byte [k[i]] shifted by [n]. *)
Definition tail_byte (k : list Z) (p : nat) (len : Z) (i : nat) (n x : Z) : outcome Z :=
  if decide (len > Z.of_nat i) then b ← load k (p + i); Ret (u32 (x + shl n b)) else Ret x.

Definition hash_func (k : list Z) (length initval : Z) : outcome Z :=
  let golden := 2654435769 in
  '(p, len, (a, b, c)) ← loop (S (Z.to_nat (length / 12))) (hash_body k)
                           (0%nat, length, (golden, golden, initval));
  let c := u32 (c + length) in
  c ← tail_byte k p len 10 24 c;
  c ← tail_byte k p len 9 16 c;
  c ← tail_byte k p len 8 8 c;
  b ← tail_byte k p len 7 24 b;
  b ← tail_byte k p len 6 16 b;
  b ← tail_byte k p len 5 8 b;
  b ← tail_byte k p len 4 0 b;
  a ← tail_byte k p len 3 24 a;
  a ← tail_byte k p len 2 16 a;
  a ← tail_byte k p len 1 8 a;
  a ← tail_byte k p len 0 0 a;
  Ret (mix (a, b, c)).2.

(** ** The table *)

Definition power_body (u ret : Z) : outcome (Z + Z) :=
  if decide (ret < u) then
    let ret := u64 (ret * 2) in
    ASSERT (0 < ret);;
    Ret (inl ret)
  else Ret (inr ret).
(** A [size_t] has 64 bits. *)
Definition adjust_power_of_2 (u : Z) : outcome Z := loop 66 (power_body u) 1.

(** The functions a table is made with. *)
Class Hashable (K : Type) := {
  hash_function : K → Z → Z;
  compare_function : K → K → bool;
}.

Section hash.
Context {K V : Type} `{Hashable K} `{EqDecision V}.

(** A null key marks an element for removal. *)
Record hash_element := HE { he_value : V; he_key : option K; he_hash_value : Z }.
Record hash := Hash {
  n_buckets : Z;
  n_elements : Z;
  mask : Z;
  iv : Z;
  buckets : list (list hash_element);
}.

Definition hash_init (n iv : Z) : outcome hash :=
  ASSERT (0 < n);;
  nb ← adjust_power_of_2 n;
  let nb := s32 nb in
  Ret (Hash nb 0 (nb - 1) iv (replicate (Z.to_nat nb) [])).

Definition hash_value (h : hash) (key : K) : Z := hash_function key (iv h).
Definition bucket_index (h : hash) (hv : Z) : nat := Z.to_nat (Z.land hv (mask h)).

Definition set_bucket (i : nat) (b : list hash_element) (n : Z) (h : hash) : hash :=
  Hash (n_buckets h) n (mask h) (iv h) (<[i := b]> (buckets h)).

(** The walk of [hash_lookup_fast] and [hash_remove_fast]: the index of the
    element found.  Comparing with a null key is undefined. *)
Fixpoint hash_search (key : K) (hv : Z) (b : list hash_element) : outcome (option nat) :=
  match b with
  | [] => Ret None
  | he :: b =>
      eq ← (if decide (hv = he_hash_value he)
            then k ← of_option (he_key he); Ret (compare_function key k) else Ret false);
      if eq : bool then Ret (Some O)
      else i ← hash_search key hv b; Ret (fmap (M := option) S i)
  end.

(** The element found is at the head of the bucket afterwards. *)
Definition hash_lookup_fast (key : K) (hv : Z) (b : list hash_element) :
    outcome (option hash_element * (list hash_element)) :=
  i ← hash_search key hv b;
  match i with
  | None => Ret (None, b)
  | Some O => Ret (head b, b)
  | Some i => he ← of_option (b !! i); Ret (Some he, he :: delete i b)
  end.

Definition hash_remove_fast (key : K) (hv : Z) (i : nat) (h : hash) : outcome (bool * hash) :=
  b ← of_option (buckets h !! i);
  j ← hash_search key hv b;
  match j with
  | None => Ret (false, h)
  | Some j => n ← int (n_elements h - 1); Ret (true, set_bucket i (delete j b) n h)
  end.

Definition hash_add_fast (i : nat) (key : K) (hv : Z) (value : V) (h : hash) : outcome hash :=
  b ← of_option (buckets h !! i);
  n ← int (n_elements h + 1);
  Ret (set_bucket i (HE value (Some key) hv :: b) n h).

Definition hash_lookup (key : K) (h : hash) : outcome (option V * hash) :=
  let hv := hash_value h key in
  let i := bucket_index h hv in
  b ← of_option (buckets h !! i);
  '(he, b) ← hash_lookup_fast key hv b;
  Ret (fmap (M := option) he_value he, set_bucket i b (n_elements h) h).

Definition hash_remove (key : K) (h : hash) : outcome (bool * hash) :=
  let hv := hash_value h key in
  hash_remove_fast key hv (bucket_index h hv) h.

Definition hash_add (key : K) (value : V) (replace : bool) (h : hash) : outcome (bool * hash) :=
  let hv := hash_value h key in
  let i := bucket_index h hv in
  b ← of_option (buckets h !! i);
  '(he, b) ← hash_lookup_fast key hv b;
  match he with
  | Some he =>
      Ret (replace, set_bucket i
             (if replace then HE value (he_key he) (he_hash_value he) :: tail b else b)
             (n_elements h) h)
  | None => h ← hash_add_fast i key hv value h; Ret (true, h)
  end.

(** ** Iteration *)

Record hash_iterator := HI {
  hi_bucket_index : Z;
  hi_bucket : option nat;
  hi_elem : option nat;
  hi_last : option nat;
  hi_bucket_marked : bool;
  hi_bucket_index_end : Z;
}.

(** The bucket without the marked elements, and how many there were. *)
Fixpoint remove_marked (b : list hash_element) : (list hash_element) * Z :=
  match b with
  | [] => ([], 0)
  | he :: b =>
      let '(b, n) := remove_marked b in
      match he_key he with Some _ => (he :: b, n) | None => (b, n + 1) end
  end.
Definition hash_remove_marked (i : nat) (h : hash) : outcome hash :=
  b ← of_option (buckets h !! i);
  let '(b, n) := remove_marked b in
  Ret (set_bucket i b (n_elements h - n) h).

Definition hash_iterator_init_range (h : hash) (start_bucket end_bucket : Z) :
    outcome hash_iterator :=
  let end_bucket := if decide (end_bucket > n_buckets h) then n_buckets h else end_bucket in
  ASSERT (start_bucket >= 0 ∧ start_bucket ≤ end_bucket);;
  Ret (HI (start_bucket - 1) None None None false end_bucket).
Definition hash_iterator_init (h : hash) : outcome hash_iterator :=
  hash_iterator_init_range h 0 (n_buckets h).

Definition hash_iterator_lock (i : nat) (hi : hash_iterator) : hash_iterator :=
  HI (hi_bucket_index hi) (Some i) (hi_elem hi) None false (hi_bucket_index_end hi).

Definition hash_iterator_unlock (s : hash * hash_iterator) : outcome (hash * hash_iterator) :=
  let '(h, hi) := s in
  match hi_bucket hi with
  | Some i =>
      h ← (if hi_bucket_marked hi then hash_remove_marked i h else Ret h);
      Ret (h, HI (hi_bucket_index hi) None (hi_elem hi) None false (hi_bucket_index_end hi))
  | None => Ret (h, hi)
  end.
Definition hash_iterator_free (s : hash * hash_iterator) : outcome hash :=
  '(h, _) ← hash_iterator_unlock s; Ret h.

(** [elem->next] in the locked bucket. *)
Definition hash_iterator_advance (b : list hash_element) (i : nat) (hi : hash_iterator) :
    hash_iterator :=
  HI (hi_bucket_index hi) (hi_bucket hi)
    (if decide (S i < length b)%nat then Some (S i) else None) (Some i)
    (hi_bucket_marked hi) (hi_bucket_index_end hi).

Definition set_index (i : Z) (hi : hash_iterator) : hash_iterator :=
  HI i (hi_bucket hi) (hi_elem hi) (hi_last hi) (hi_bucket_marked hi) (hi_bucket_index_end hi).

(** One round of the search for a bucket with elements. *)
Definition next_body (s : hash * hash_iterator) :
    outcome (hash * hash_iterator + option hash_element * (hash * hash_iterator)) :=
  let '(h, hi) := s in
  let hi := set_index (hi_bucket_index hi + 1) hi in
  if decide (hi_bucket_index hi < hi_bucket_index_end hi) then
    '(h, hi) ← hash_iterator_unlock (h, hi);
    let i := Z.to_nat (hi_bucket_index hi) in
    b ← of_option (buckets h !! i);
    match b with
    | he :: _ =>
        let hi := hash_iterator_lock i hi in
        Ret (inr (Some he, (h, hash_iterator_advance b 0 hi)))
    | [] => Ret (inl (h, hi))
    end
  else Ret (inr (None, (h, hi))).

(** The element returned is the one at [hi_last]. *)
Definition hash_iterator_next (s : hash * hash_iterator) :
    outcome (option hash_element * (hash * hash_iterator)) :=
  let '(h, hi) := s in
  match hi_elem hi with
  | Some j =>
      i ← of_option (hi_bucket hi);
      b ← of_option (buckets h !! i);
      he ← of_option (b !! j);
      Ret (Some he, (h, hash_iterator_advance b j hi))
  | None => loop (S (length (buckets h))) next_body (h, hi)
  end.

Definition hash_iterator_delete_element (s : hash * hash_iterator) :
    outcome (hash * hash_iterator) :=
  let '(h, hi) := s in
  ASSERT (hi_last hi ≠ None);;
  j ← of_option (hi_last hi);
  i ← of_option (hi_bucket hi);
  b ← of_option (buckets h !! i);
  he ← of_option (b !! j);
  Ret (set_bucket i (<[j := HE (he_value he) None (he_hash_value he)]> b) (n_elements h) h,
       HI (hi_bucket_index hi) (hi_bucket hi) (hi_elem hi) (hi_last hi) true
         (hi_bucket_index_end hi)).

(** [while ((he = hash_iterator_next (&hi))) { ... }], where the body takes what the
    loop keeps and says whether it deletes the element. *)
Definition walk_body {A} (f : A → hash_element → outcome (A * bool)) (s : A * (hash * hash_iterator)) :
    outcome (A * (hash * hash_iterator) + A * (hash * hash_iterator)) :=
  let '(a, it) := s in
  '(he, it) ← hash_iterator_next it;
  match he with
  | None => Ret (inr (a, it))
  | Some he =>
      '(a, del) ← f a he;
      it ← (if del : bool then hash_iterator_delete_element it else Ret it);
      Ret (inl (a, it))
  end.
Definition hash_walk {A} (f : A → hash_element → outcome (A * bool)) (a : A) (h : hash) (hi : hash_iterator) : outcome (A * hash) :=
  '(a, s) ← loop (S (length (concat (buckets h)))) (walk_body f) (a, (h, hi));
  h ← hash_iterator_free s;
  Ret (a, h).

Definition remove_by_value_body (value : V) (u : unit) (he : hash_element) : outcome (unit * bool) :=
  Ret (u, bool_decide (he_value he = value)).
Definition hash_remove_by_value (value : V) (h : hash) : outcome hash :=
  hi ← hash_iterator_init h;
  '(_, h) ← hash_walk (remove_by_value_body value) tt h hi;
  Ret h.
End hash.
Arguments hash_element : clear implicits.
Arguments hash : clear implicits.

(** ** Keys that are pointers *)

Definition le_bytes (n : nat) (z : Z) : list Z :=
  map (λ i, u8 (Z.shiftr z (8 * Z.of_nat i))) (seq 0 n).
Definition void_ptr_hash_function (key iv : Z) : outcome Z := hash_func (le_bytes 8 key) 8 iv.
Definition void_ptr_compare_function (key1 key2 : Z) : bool := bool_decide (key1 = key2).

(** ** Jenkins' hash function: totality, and mixing is reversible *)

Lemma u32_range z : is_u32 (u32 z).
Proof. apply (wrap_range 32). lia. Qed.

Lemma lxor_u32 x y : is_u32 x → is_u32 y → is_u32 (Z.lxor x y).
Proof.
  unfold is_u32. intros Hx Hy.
  assert (0 ≤ Z.lxor x y) as H0 by (apply Z.lxor_nonneg; lia). split; [done|].
  change 4294967296 with (2 ^ 32). apply Z.log2_lt_cancel.
  destruct (decide (Z.lxor x y = 0)) as [->|Hne]; [done|].
  pose proof (Z.log2_lxor x y ltac:(lia) ltac:(lia)).
  change (Z.log2 (2 ^ 32)) with 32.
  assert (∀ z, 0 ≤ z < 4294967296 → Z.log2 z < 32) as Hl.
  { intros z Hz. destruct (decide (z = 0)) as [->|]; [done|]. apply Z.log2_lt_pow2; lia. }
  pose proof (Hl x Hx). pose proof (Hl y Hy). lia.
Qed.

Lemma shr_u32 n x : 0 ≤ n → is_u32 x → is_u32 (shr n x).
Proof.
  unfold is_u32, shr. intros Hn Hx. rewrite Z.shiftr_div_pow2 by done.
  pose proof (Z.pow_pos_nonneg 2 n). split; [apply Z.div_pos; lia|].
  apply Z.div_lt_upper_bound; [lia|]. nia.
Qed.

Lemma shl_u32 n x : is_u32 (shl n x).
Proof. apply u32_range. Qed.
Create HintDb u32.
#[local] Hint Resolve u32_range lxor_u32 shr_u32 shl_u32 : u32.

(** A step is undone by what it mixed in. *)
Definition unmix_step (x y z w : Z) : Z := u32 (Z.lxor x w + z + y).

Lemma unmix_mix_step x y z w : is_u32 x → unmix_step (mix_step x y z w) y z w = x.
Proof.
  intros Hx. unfold unmix_step, mix_step. rewrite Z.lxor_assoc, Z.lxor_nilpotent, Z.lxor_0_r.
  unfold wrap. rewrite Zminus_mod_idemp_l. rewrite <- Z.add_assoc, Zplus_mod_idemp_l.
  replace (x - y - z + (z + y)) with x by lia. by apply Z.mod_small.
Qed.

Lemma mix_step_u32 x y z w : is_u32 w → is_u32 (mix_step x y z w).
Proof. unfold mix_step. auto with u32. Qed.

Definition unmix_row (n1 n2 n3 : Z) (s : Z * Z * Z) : Z * Z * Z :=
  let '(a, b, c) := s in
  let c := unmix_step c a b (shr n3 b) in
  let b := unmix_step b c a (shl n2 a) in
  let a := unmix_step a b c (shr n1 c) in
  (a, b, c).
Definition unmix (s : Z * Z * Z) : Z * Z * Z :=
  unmix_row 13 8 13 (unmix_row 12 16 5 (unmix_row 3 10 15 s)).

Definition u32s (s : Z * Z * Z) : Prop := let '(a, b, c) := s in is_u32 a ∧ is_u32 b ∧ is_u32 c.

Lemma mix_row_u32 n1 n2 n3 s : 0 ≤ n1 → 0 ≤ n3 → u32s s → u32s (mix_row n1 n2 n3 s).
Proof.
  destruct s as [[a b] c]. intros Hn1 Hn3 (Ha & Hb & Hc). cbn [mix_row u32s].
  assert (is_u32 (mix_step a b c (shr n1 c))) as H1 by auto using mix_step_u32, shr_u32.
  set (a' := mix_step a b c _) in *.
  assert (is_u32 (mix_step b c a' (shl n2 a'))) as H2 by auto using mix_step_u32, shl_u32.
  split; [done|]. split; [done|]. auto using mix_step_u32, shr_u32.
Qed.

Lemma mix_u32 s : u32s s → u32s (mix s).
Proof. intros. unfold mix. repeat apply mix_row_u32; done || lia. Qed.

Lemma unmix_mix_row n1 n2 n3 s : u32s s → unmix_row n1 n2 n3 (mix_row n1 n2 n3 s) = s.
Proof.
  destruct s as [[a b] c]. intros (Ha & Hb & Hc). cbn [mix_row unmix_row].
  by rewrite !unmix_mix_step by done.
Qed.

Lemma unmix_mix s : u32s s → unmix (mix s) = s.
Proof.
  intros. unfold unmix, mix. rewrite !unmix_mix_row; try done.
  - apply mix_row_u32; done || lia.
  - repeat apply mix_row_u32; done || lia.
Qed.

Lemma load_ok k p : (p < length k)%nat → ∃ b, load k p = Ret b ∧ k !! p = Some b.
Proof. intros. destruct (lookup_lt_is_Some_2 k p) as [b Hb]; [done|]. exists b. unfold load. by rewrite Hb. Qed.

Lemma word_ok k p : (p + 4 ≤ length k)%nat → ∃ x, word k p = Ret x ∧ is_u32 x.
Proof.
  intros Hl. unfold word.
  destruct (load_ok k p) as (b0 & -> & _); [lia|]. destruct (load_ok k (p + 1)) as (b1 & -> & _); [lia|].
  destruct (load_ok k (p + 2)) as (b2 & -> & _); [lia|]. destruct (load_ok k (p + 3)) as (b3 & -> & _); [lia|].
  bret. eexists. split; [done|apply u32_range].
Qed.

Lemma tail_byte_ok k p len i n x :
  Z.of_nat p + len ≤ Z.of_nat (length k) → is_u32 x →
  ∃ y, tail_byte k p len i n x = Ret y ∧ is_u32 y.
Proof.
  intros Hl Hx. unfold tail_byte. case_decide; [|by eexists].
  destruct (load_ok k (p + i)) as (b & -> & _); [lia|]. bret. eexists. split; [done|apply u32_range].
Qed.

(** The key is read within its length, and the result is a [uint32_t]. *)
Lemma hash_func_ok k len initval :
  0 ≤ len ≤ Z.of_nat (length k) → is_u32 initval → ∃ h, hash_func k len initval = Ret h ∧ is_u32 h.
Proof.
  intros Hlen Hi. unfold hash_func.
  destruct (loop_total
    (λ s : nat * Z * (Z * Z * Z), let '(p, l, abc) := s in
       0 ≤ l ∧ Z.of_nat p + l ≤ Z.of_nat (length k) ∧ u32s abc)
    (λ s : nat * Z * (Z * Z * Z), let '(p, l, abc) := s in
       Z.of_nat p + l ≤ Z.of_nat (length k) ∧ u32s abc)
    (λ s : nat * Z * (Z * Z * Z), let '(p, l, abc) := s in Z.to_nat (l / 12)) (hash_body k))
    with (n := S (Z.to_nat (len / 12))) (s := (0%nat, len, (2654435769, 2654435769, initval)))
    as ([[p l] [[a b] c]] & -> & Hl & Ha & Hb & Hc).
  - intros [[p l] [[a b] c]] (Hl0 & Hl & Habc). cbn [hash_body]. case_decide.
    + destruct (word_ok k p) as (x & -> & Hx); [lia|]. destruct (word_ok k (p + 4)) as (y & -> & Hy); [lia|].
      destruct (word_ok k (p + 8)) as (z & -> & Hz); [lia|]. bret. eexists. split; [done|]. cbv beta iota.
      split; [split; [lia|split; [lia|]]|].
      * apply mix_u32. split; [|split]; apply u32_range.
      * assert (l / 12 = (l - 12) / 12 + 1) as ->; [|pose proof (Z.div_pos (l - 12) 12); lia].
        rewrite <- Z.div_add by lia. f_equal. lia.
    + eexists. split; [done|]. done.
  - split; [lia|]. split; [lia|]. by split; [|split].
  - lia.
  - bret. 
    pose proof (u32_range (c + len)) as Hc'. generalize dependent (u32 (c + len)). clear Hc c.
    intros c Hc. 
    repeat match goal with
    | |- context [tail_byte k p l ?i ?n ?x] =>
        destruct (tail_byte_ok k p l i n x) as (? & -> & ?); [done|done|]; bret
    end.
    eexists. split; [done|].
    match goal with |- is_u32 (mix ?s).2 => pose proof (mix_u32 s) as Hm; destruct (mix s) as [[? ?] ?] end.
    by apply Hm.
Qed.

(** ** What a table relies on: comparison is an equivalence that hashing respects *)

Class HashLaws (K : Type) `{Hashable K} := {
  compare_refl k : compare_function k k = true;
  compare_sym k k' : compare_function k k' = true → compare_function k' k = true;
  compare_trans k1 k2 k3 : compare_function k1 k2 = true → compare_function k2 k3 = true →
    compare_function k1 k3 = true;
  hash_compare k k' iv : compare_function k k' = true → hash_function k iv = hash_function k' iv;
}.

Section table.
Context {K V : Type} `{HashLaws K} `{EqDecision V}.
Implicit Types (h : hash K V) (b : list (hash_element K V)) (e : hash_element K V) (k : K).

Definition matches k e : bool :=
  match he_key e with Some k' => compare_function k k' | None => false end.
Definition hits k b : list (hash_element K V) := filter (λ e, matches k e = true) b.

Lemma hits_cons k e b : hits k (e :: b) = if matches k e then e :: hits k b else hits k b.
Proof.
  unfold hits. rewrite filter_cons. destruct (matches k e); [by rewrite decide_True|by rewrite decide_False].
Qed.

Lemma matches_compare k k' e : compare_function k k' = true → matches k e = matches k' e.
Proof.
  intros Hk. unfold matches. destruct (he_key e) as [x|]; [|done].
  destruct (compare_function k' x) eqn:E; [by eapply compare_trans|].
  apply not_true_iff_false. intros Hkx. apply not_true_iff_false in E. apply E.
  eapply compare_trans; [by apply compare_sym|done].
Qed.

(** The element found for [k] answers to the keys that compare with [k]. *)
Lemma matches_found k k' e : matches k e = true → matches k' e = compare_function k k'.
Proof.
  intros Hm. destruct (compare_function k k') eqn:E; [by rewrite <- (matches_compare k k' e E)|].
  apply not_true_iff_false. intros Hk'. apply not_true_iff_false in E. apply E.
  unfold matches in Hm, Hk'. destruct (he_key e) as [x|]; [|done].
  eapply compare_trans; [done|by apply compare_sym].
Qed.

(** At most one element of a bucket answers to a key: then its order does not
    matter. *)
Definition uniq b : Prop := ∀ k, (length (hits k b) ≤ 1)%nat.

Lemma hits_perm k b b' : b ≡ₚ b' → uniq b → hits k b = hits k b'.
Proof.
  intros Hp Hu. assert (hits k b ≡ₚ hits k b') as Hph by (unfold hits; by rewrite Hp).
  specialize (Hu k). destruct (hits k b) as [|x [|y l]]; cbn in Hu; [| |lia].
  - symmetry. by apply Permutation_nil.
  - symmetry. by apply Permutation_length_1_inv.
Qed.

Lemma uniq_perm b b' : b ≡ₚ b' → uniq b → uniq b'.
Proof. intros Hp Hu k. rewrite <- (hits_perm k b b') by done. apply Hu. Qed.

Lemma uniq_tail e b : uniq (e :: b) → uniq b.
Proof. intros Hu k. specialize (Hu k). rewrite hits_cons in Hu. destruct (matches k e); cbn in Hu; lia. Qed.

(** The elements of bucket [i]: each has its key, in the right place. *)
Definition wf_elem h (i : nat) e : Prop :=
  ∃ k, he_key e = Some k ∧ he_hash_value e = hash_value h k ∧ bucket_index h (hash_value h k) = i.
Definition wf_bucket h (i : nat) b : Prop := Forall (wf_elem h i) b ∧ uniq b.

Definition wf_hash h : Prop :=
  (∃ p, 0 ≤ p < 31 ∧ n_buckets h = 2 ^ p) ∧ mask h = n_buckets h - 1 ∧
  Z.of_nat (length (buckets h)) = n_buckets h ∧
  (n_elements h = Z.of_nat (length (concat (buckets h))) ∧ n_elements h ≤ INT_MAX) ∧
  ∀ i b, buckets h !! i = Some b → wf_bucket h i b.

(** The value stored under a key. *)
Definition key_index h k : nat := bucket_index h (hash_value h k).
Definition assoc h k : option V :=
  he_value <$> head (hits k (default [] (buckets h !! key_index h k))).

Lemma key_index_compare h k k' : compare_function k k' = true → key_index h k = key_index h k'.
Proof. intros Hk. unfold key_index, hash_value. by rewrite (hash_compare k k'). Qed.

Lemma key_index_lt h k : wf_hash h → (key_index h k < length (buckets h))%nat.
Proof.
  intros ((p & Hp & Hn) & Hm & Hl & _). unfold key_index, bucket_index. rewrite Hm, Hn.
  replace (2 ^ p - 1) with (Z.ones p) by (rewrite Z.ones_equiv; lia).
  rewrite Z.land_ones by lia. pose proof (Z.mod_pos_bound (hash_value h k) (2 ^ p)).
  assert (0 < 2 ^ p) by (apply Z.pow_pos_nonneg; lia). lia.
Qed.

Lemma bucket_of h k : wf_hash h → ∃ b, buckets h !! key_index h k = Some b ∧ wf_bucket h (key_index h k) b.
Proof.
  intros Hw. destruct (lookup_lt_is_Some_2 (buckets h) (key_index h k)) as [b Hb]; [by apply key_index_lt|].
  exists b. split; [done|]. by apply Hw.
Qed.

(** Changing bucket [i] changes what is stored under its keys only. *)
Lemma assoc_set_bucket h i b n k :
  (i < length (buckets h))%nat →
  assoc (set_bucket i b n h) k =
  if decide (key_index h k = i) then he_value <$> head (hits k b) else assoc h k.
Proof.
  intros Hi. unfold assoc. change (key_index (set_bucket i b n h) k) with (key_index h k).
  cbn [buckets set_bucket]. case_decide as Hk.
  - rewrite Hk. by rewrite list_lookup_insert_eq.
  - by rewrite list_lookup_insert_ne by done.
Qed.

Lemma concat_insert_length {A} (ls : list (list A)) i l l' :
  ls !! i = Some l →
  (length (concat (<[i := l']> ls)) + length l = length (concat ls) + length l')%nat.
Proof.
  revert i. induction ls as [|x ls IH]; intros [|i] Hi; [done|done| |].
  - injection Hi as ->. change (<[0%nat := l']> (l :: ls)) with (l' :: ls).
    cbn [concat]. rewrite !length_app. lia.
  - specialize (IH i Hi). change (<[S i := l']> (x :: ls)) with (x :: <[i := l']> ls).
    cbn [concat]. rewrite !length_app. lia.
Qed.

Lemma wf_set_bucket h i b b' n :
  wf_hash h → buckets h !! i = Some b → wf_bucket h i b' →
  n = n_elements h + Z.of_nat (length b') - Z.of_nat (length b) → n ≤ INT_MAX →
  wf_hash (set_bucket i b' n h).
Proof.
  intros (Hp & Hm & Hl & [Hn Hmax] & Hb) Hi Hb' -> Hle. split; [done|]. split; [done|].
  split; [cbn; by rewrite length_insert|]. split.
  - cbn [n_elements set_bucket buckets]. pose proof (concat_insert_length (buckets h) i b b' Hi). lia.
  - cbn. intros j x [(<- & <- & _)|[_ Hx]]%list_lookup_insert_Some; [done|by apply Hb].
Qed.

(** ** Searching a bucket *)

Lemma hash_search_ok h i key b :
  wf_bucket h i b →
  (hash_search key (hash_value h key) b = Ret None ∧ hits key b = []) ∨
  ∃ j e, hash_search key (hash_value h key) b = Ret (Some j) ∧ b !! j = Some e ∧
    matches key e = true ∧ hits key b = [e] ∧ e :: delete j b ≡ₚ b.
Proof.
  intros [Hf Hu]. induction b as [|e b IH]; [by left|]. cbn [hash_search].
  apply Forall_cons in Hf as [(k & Hk & Hhv & _) Hf]. rewrite Hhv, hits_cons.
  assert ((eq ← (if decide (hash_value h key = hash_value h k)
                 then k ← of_option (he_key e); Ret (compare_function key k) else Ret false);
           Ret eq) = Ret (matches key e)) as Hm.
  { unfold matches. rewrite Hk. cbn [of_option]. case_decide as Heq; bret; [done|].
    f_equal. symmetry. apply not_true_iff_false. intros Hc. apply Heq. by apply hash_compare. }
  assert (∀ B (f : bool → outcome B),
    ((if decide (hash_value h key = hash_value h k)
      then k ← of_option (he_key e); Ret (compare_function key k) else Ret false) ≫= f) = f (matches key e)) as ->.
  { intros B f. rewrite <- (bind_Ret (matches key e) f), <- Hm, bind_assoc. apply bind_ext. done. }
  specialize (Hu key) as Hu1. rewrite hits_cons in Hu1. destruct (matches key e) eqn:E.
  - right. exists 0%nat, e. split; [done|]. split; [done|]. split; [done|]. split; [|done].
    destruct (hits key b); [done|cbn in Hu1; lia].
  - destruct (IH Hf (uniq_tail _ _ Hu)) as [[-> Hh]|(j & x & -> & Hj & Hx & Hh & Hp)].
    + left. bret. done.
    + right. bret. exists (S j), x. split; [done|]. split; [done|]. split; [done|]. split; [done|].
      cbn. rewrite <- Hp at 2. apply Permutation_swap.
Qed.

Lemma wf_bucket_perm h i b b' : b ≡ₚ b' → wf_bucket h i b → wf_bucket h i b'.
Proof. intros Hp [Hf Hu]. split; [by rewrite <- Hp|by eapply uniq_perm]. Qed.

(** The element found comes to the front of the bucket. *)
Lemma hash_lookup_fast_ok h i key b :
  wf_bucket h i b →
  (hash_lookup_fast key (hash_value h key) b = Ret (None, b) ∧ hits key b = []) ∨
  ∃ e b', hash_lookup_fast key (hash_value h key) b = Ret (Some e, e :: b') ∧ e :: b' ≡ₚ b ∧
    hits key b = [e] ∧ matches key e = true.
Proof.
  intros Hw. unfold hash_lookup_fast.
  destruct (hash_search_ok h i key b Hw) as [[-> Hh]|(j & e & -> & Hj & Hm & Hh & Hp)]; bret; [by left|].
  right. destruct j as [|j].
  - destruct b as [|x b]; [done|]. injection Hj as ->. by exists e, b.
  - rewrite Hj. cbn [of_option]. bret. by exists e, (delete (S j) b).
Qed.

(** ** The operations, on what is stored *)

Definition small h : Prop := n_elements h < INT_MAX.

Lemma assoc_bucket h k k' b :
  buckets h !! key_index h k = Some b → key_index h k' = key_index h k →
  assoc h k' = he_value <$> head (hits k' b).
Proof. intros Hb Hk. unfold assoc. by rewrite Hk, Hb. Qed.

Lemma hits_compare k k' b : compare_function k k' = true → hits k' b = hits k b.
Proof. intros E. unfold hits. apply list_filter_iff. intros x. by rewrite (matches_compare k k' x E). Qed.

(** The bucket of a key after the search: its elements in another order, the one found at
    the head. *)
Definition found h k (he : option (hash_element K V)) b : Prop :=
  he_value <$> he = assoc h k ∧
  match he with Some e => ∃ b', b = e :: b' ∧ matches k e = true | None => hits k b = [] end.

Lemma lookup_bucket_ok h k :
  wf_hash h → ∃ b he b', buckets h !! key_index h k = Some b ∧ hash_lookup_fast k (hash_value h k) b = Ret (he, b') ∧
    found h k he b' ∧ wf_hash (set_bucket (key_index h k) b' (n_elements h) h) ∧
    buckets (set_bucket (key_index h k) b' (n_elements h) h) !! key_index h k = Some b' ∧
    ∀ k', assoc (set_bucket (key_index h k) b' (n_elements h) h) k' = assoc h k'.
Proof.
  intros Hw. destruct (bucket_of h k Hw) as (b & Hb & Hwb). exists b.
  assert (∃ he b', hash_lookup_fast k (hash_value h k) b = Ret (he, b') ∧ b' ≡ₚ b ∧ found h k he b') as (he & b' & E & Hp & Hfo).
  { unfold found. rewrite (assoc_bucket h k k b) by done.
    destruct (hash_lookup_fast_ok h _ k b Hwb) as [[-> Hh]|(e & b' & -> & Hp & Hh & Hm)].
    - exists None, b. by rewrite Hh.
    - exists (Some e), (e :: b'). rewrite Hh. split_and!; try done. by exists b'. }
  exists he, b'. split; [done|]. split; [done|]. split; [done|].
  pose proof (wf_bucket_perm _ _ _ _ (symmetry Hp) Hwb) as Hwb'.
  split; [eapply wf_set_bucket; [done|done|done|rewrite Hp; lia|apply Hw]|].
  split; [cbn [set_bucket buckets]; apply list_lookup_insert_eq; by apply key_index_lt|].
  intros k'. rewrite assoc_set_bucket by by apply key_index_lt. case_decide as Hk; [|done].
  rewrite (assoc_bucket h k k' b) by done. f_equal. f_equal. symmetry. apply hits_perm; [by symmetry|by apply Hwb].
Qed.

(** Looking up a key tells what is stored and changes nothing of it. *)
Lemma hash_lookup_ok h k :
  wf_hash h → ∃ h', hash_lookup k h = Ret (assoc h k, h') ∧ wf_hash h' ∧ iv h' = iv h ∧
    n_elements h' = n_elements h ∧ ∀ k', assoc h' k' = assoc h k'.
Proof.
  intros Hw. destruct (lookup_bucket_ok h k Hw) as (b & he & b' & Hb & E & [Ha _] & Hw' & _ & Has).
  unfold hash_lookup. fold (key_index h k). rewrite Hb. cbn [of_option]. bret. rewrite E. bret. rewrite Ha.
  eexists. split; [done|]. by split_and!.
Qed.

(** An element put before a bucket that has none for its key. *)
Lemma put_new h k v b :
  wf_hash h → small h → buckets h !! key_index h k = Some b → hits k b = [] →
  let h' := set_bucket (key_index h k) (HE v (Some k) (hash_value h k) :: b) (n_elements h + 1) h in
  hash_add_fast (key_index h k) k (hash_value h k) v h = Ret h' ∧ wf_hash h' ∧
  ∀ k', assoc h' k' = if compare_function k k' then Some v else assoc h k'.
Proof.
  intros Hw Hsm Hb Hh. pose proof Hw as (_ & _ & _ & [Hn _] & Hbs). pose proof (Hbs _ _ Hb) as [Hf Hu]. unfold small in Hsm.
  unfold hash_add_fast. rewrite Hb. cbn [of_option]. bret. rewrite int_ok by (ints; lia). bret.
  set (e := HE v (Some k) (hash_value h k)). cbv zeta.
  assert (∀ k', matches k' e = compare_function k' k) as Hme by done.
  assert (wf_bucket h (key_index h k) (e :: b)) as Hwe.
  { split.
    - apply Forall_cons. split; [|done]. by exists k.
    - intros k'. rewrite hits_cons, Hme. destruct (compare_function k' k) eqn:E; [|apply Hu].
      by rewrite <- (hits_compare k' k b E), Hh. }
  split; [done|]. split; [eapply wf_set_bucket; [done|done|done|cbn [length]; lia|lia]|].
  intros k'. rewrite assoc_set_bucket by by apply key_index_lt. rewrite hits_cons, Hme.
  destruct (compare_function k k') eqn:E.
  - rewrite (compare_sym _ _ E). rewrite decide_True; [done|]. symmetry. by apply key_index_compare.
  - assert (compare_function k' k = false) as ->.
    { apply not_true_iff_false. intros E2. apply compare_sym in E2. congruence. }
    case_decide as Hk; [|done]. by rewrite (assoc_bucket h k k' b).
Qed.

(** The element at the head replaced by one that answers to the same keys. *)
Lemma put_head h k k2 v e b :
  wf_hash h → buckets h !! key_index h k = Some (e :: b) → matches k e = true → compare_function k k2 = true →
  let h' := set_bucket (key_index h k) (HE v (Some k2) (he_hash_value e) :: b) (n_elements h) h in
  wf_hash h' ∧ ∀ k', assoc h' k' = if compare_function k k' then Some v else assoc h k'.
Proof.
  intros Hw Hb Hm Hk2. pose proof Hw as (_ & _ & _ & [_ Hmax] & Hbs). pose proof (Hbs _ _ Hb) as [Hf Hu].
  apply Forall_cons in Hf as [(k0 & Hk0 & Hhv & Hi) Hf]. set (e' := HE v (Some k2) (he_hash_value e)). cbv zeta.
  assert (compare_function k k0 = true) as Hkk0 by (unfold matches in Hm; by rewrite Hk0 in Hm).
  assert (∀ k', matches k' e' = matches k' e) as Hme.
  { intros k'. rewrite (matches_found k k' e Hm). apply (matches_found k k' e'). exact Hk2. }
  assert (wf_bucket h (key_index h k) (e' :: b)) as Hwe.
  { split.
    - apply Forall_cons. split; [|done]. exists k2. split; [done|].
      assert (hash_value h k2 = hash_value h k0) as E
        by (apply hash_compare; eapply compare_trans; [by apply compare_sym|done]).
      cbn [e' he_hash_value]. rewrite E. done.
    - intros k'. specialize (Hu k'). rewrite hits_cons in Hu |- *. rewrite Hme.
      destruct (matches k' e); cbn [length] in *; lia. }
  split; [eapply wf_set_bucket; [done|done|done|cbn [length]; lia|done]|].
  intros k'. rewrite assoc_set_bucket by by apply key_index_lt. pose proof (matches_found k k' e Hm) as Hmk.
  destruct (compare_function k k') eqn:E.
  - rewrite decide_True by (symmetry; by apply key_index_compare). by rewrite hits_cons, Hme, Hmk.
  - case_decide as Hk; [|done]. rewrite (assoc_bucket h k k' (e :: b)) by done. by rewrite !hits_cons, Hme, Hmk.
Qed.

(** A new key is stored. *)
Lemma hash_add_new h k v replace :
  wf_hash h → small h → assoc h k = None →
  ∃ h', hash_add k v replace h = Ret (true, h') ∧ wf_hash h' ∧ iv h' = iv h ∧
    n_elements h' = n_elements h + 1 ∧
    ∀ k', assoc h' k' = if compare_function k k' then Some v else assoc h k'.
Proof.
  intros Hw Hsm Hnone. destruct (bucket_of h k Hw) as (b & Hb & Hwb).
  unfold hash_add. fold (key_index h k). rewrite Hb. cbn [of_option]. bret.
  destruct (hash_lookup_fast_ok h _ k b Hwb) as [[-> Hh]|(e & b' & -> & Hp & Hh & _)]; bret.
  2: { by rewrite (assoc_bucket h k k b), Hh in Hnone. }
  destruct (put_new h k v b Hw Hsm Hb Hh) as (-> & Hw' & Ha). bret. eexists. by split_and!.
Qed.

(** An old key keeps its value, or gets the new one. *)
Lemma hash_add_old h k v v0 replace :
  wf_hash h → assoc h k = Some v0 →
  ∃ h', hash_add k v replace h = Ret (replace, h') ∧ wf_hash h' ∧ iv h' = iv h ∧
    n_elements h' = n_elements h ∧
    ∀ k', assoc h' k' = if replace && compare_function k k' then Some v else assoc h k'.
Proof.
  intros Hw Hsome. destruct (lookup_bucket_ok h k Hw) as (b & he & b' & Hb & E & [Hv Hfo] & Hw' & Hb' & Has).
  unfold hash_add. fold (key_index h k). rewrite Hb. cbn [of_option]. bret. rewrite E. bret.
  destruct he as [e|]; [|by rewrite Hsome in Hv]. destruct Hfo as (b2 & -> & Hm). cbn [tail].
  destruct replace; cbn [andb]; eexists; (split; [done|]).
  - assert (∃ k2, he_key e = Some k2 ∧ compare_function k k2 = true) as (k2 & -> & Hk2)
      by (unfold matches in Hm; destruct (he_key e) as [k2|]; [by exists k2|done]).
    destruct (put_head _ k k2 v e b2 Hw' Hb' Hm Hk2) as [Hw2 Ha]. unfold set_bucket in Hw2, Ha |- *. cbn in Hw2, Ha |- *.
    unfold key_index, hash_value in *. cbn in Hw2, Ha. rewrite list_insert_insert_eq in Hw2, Ha. split; [done|]. split; [done|]. split; [done|].
    intros k'. rewrite Ha. case_match; [done|]. apply Has.
  - by split_and!.
Qed.

(** A key is removed, and nothing else. *)
Lemma hash_remove_ok h k :
  wf_hash h → ∃ h', hash_remove k h = Ret (bool_decide (assoc h k ≠ None), h') ∧ wf_hash h' ∧
    iv h' = iv h ∧
    n_elements h' = n_elements h - (if decide (assoc h k = None) then 0 else 1) ∧
    ∀ k', assoc h' k' = if compare_function k k' then None else assoc h k'.
Proof.
  intros Hw. destruct (bucket_of h k Hw) as (b & Hb & Hwb).
  unfold hash_remove, hash_remove_fast. fold (key_index h k). rewrite Hb. cbn [of_option]. bret.
  destruct (hash_search_ok h _ k b Hwb) as [[-> Hh]|(j & e & -> & Hj & Hm & Hh & Hp)]; bret;
    rewrite (assoc_bucket h k k b), Hh by done; cbn [head fmap option_fmap option_map].
  - exists h. split; [done|]. split; [done|]. split; [done|].
    split; [by rewrite decide_True by done; lia|]. intros k'. destruct (compare_function k k') eqn:E; [|done].
    rewrite (assoc_bucket h k k' b) by (done || (symmetry; by apply key_index_compare)).
    by rewrite (hits_compare k k' b E), Hh.
  - rewrite decide_False, bool_decide_eq_true_2 by done.
    pose proof Hw as (_ & _ & Hl & [Hn Hmax] & _).
    assert (length b = S (length (delete j b))) as Hlb by (by rewrite <- Hp at 1).
    pose proof (concat_insert_length (buckets h) _ b [] Hb) as Hle. cbn [length] in Hle.
    rewrite int_ok by (ints; lia). bret. eexists. split; [done|].
    assert (wf_bucket h (key_index h k) (delete j b)) as Hwd.
    { destruct (wf_bucket_perm _ _ _ _ (symmetry Hp) Hwb) as [Hf2 Hu2].
      apply Forall_cons in Hf2 as [_ Hf2]. split; [done|by eapply uniq_tail]. }
    split; [eapply wf_set_bucket; [done|done|done|lia|lia]|]. split; [done|]. split; [done|].
    intros k'. rewrite assoc_set_bucket by by apply key_index_lt.
    assert (∀ k', hits k' b = if matches k' e then e :: hits k' (delete j b) else hits k' (delete j b)) as Hdel.
    { intros x. rewrite <- hits_cons. apply hits_perm; [by symmetry|apply Hwb]. }
    destruct (compare_function k k') eqn:E.
    + rewrite decide_True by (symmetry; by apply key_index_compare).
      pose proof (proj2 Hwb k') as Hu. rewrite Hdel, (matches_found k k' e), E in Hu by done.
      cbn [length] in Hu. destruct (hits k' (delete j b)); [done|cbn [length] in Hu; lia].
    + case_decide as Hk; [|done]. rewrite (assoc_bucket h k k' b) by done.
      by rewrite Hdel, (matches_found k k' e), E.
Qed.

(** ** Removal by value: the iterator visits every element once *)

Lemma hash_eta (h : hash K V) : Hash (n_buckets h) (n_elements h) (mask h) (iv h) (buckets h) = h.
Proof. by destruct h. Qed.

Section walk.
Context (P : V → Prop) `{∀ x, Decision (P x)} (lo hi : nat) (h0 : hash K V).
Hypothesis (Hw0 : wf_hash h0).
Let B0 := buckets h0.
Hypothesis (Hrange : (lo ≤ hi ≤ length B0)%nat).

Definition is_v e : bool := bool_decide (P (he_value e)).
Definition keep b : list (hash_element K V) := filter (λ e, ¬ P (he_value e)) b.
Definition mark e : hash_element K V :=
  if decide (P (he_value e)) then HE (he_value e) None (he_hash_value e) else e.

(** The buckets when those from [lo] to [m] have been cleaned. *)
Definition clean (m : nat) : list (list (hash_element K V)) :=
  imap (λ i b, if decide (lo ≤ i < m)%nat then keep b else b) B0.
Definition cleaned (m : nat) : hash K V :=
  Hash (n_buckets h0) (Z.of_nat (length (concat (clean m)))) (mask h0) (iv h0) (clean m).

Lemma length_clean m : length (clean m) = length B0.
Proof. apply length_imap. Qed.
Lemma clean_lookup m i : clean m !! i = (λ b, if decide (lo ≤ i < m)%nat then keep b else b) <$> B0 !! i.
Proof. apply list_lookup_imap. Qed.

Lemma clean_at m b : B0 !! m = Some b → clean m !! m = Some b.
Proof. intros Hb. rewrite clean_lookup, Hb. cbn. by rewrite decide_False by lia. Qed.

Lemma clean_S m b : (lo ≤ m)%nat → B0 !! m = Some b → clean (S m) = <[m := keep b]> (clean m).
Proof.
  intros Hm Hb. apply list_eq. intros i. rewrite clean_lookup. destruct (decide (i = m)) as [->|Hne].
  - rewrite list_lookup_insert_eq by (rewrite length_clean; by eapply lookup_lt_Some). rewrite Hb. cbn. by rewrite decide_True by lia.
  - rewrite list_lookup_insert_ne, clean_lookup by done. apply option_fmap_ext. intros c.
    destruct (decide (lo ≤ i < m)%nat); [by rewrite decide_True by lia|by rewrite decide_False by lia].
Qed.

Lemma remove_marked_mark b :
  Forall (λ e, he_key e ≠ None) b →
  remove_marked (map mark b) = (keep b, Z.of_nat (length b) - Z.of_nat (length (keep b))).
Proof.
  induction 1 as [|e b He _ IH]; [done|]. cbn [map remove_marked]. rewrite IH. unfold mark, keep.
  rewrite filter_cons. fold (keep b). destruct (decide (P (he_value e))) as [Hv|Hv].
  - cbn [he_key]. rewrite (decide_False (P := ¬ _)) by tauto. f_equal. cbn [length]. lia.
  - rewrite (decide_True (P := ¬ _)) by done. destruct (he_key e); [|done]. f_equal. cbn [length]. lia.
Qed.

Lemma keep_none b : existsb is_v b = false → keep b = b ∧ map mark b = b.
Proof.
  unfold keep. induction b as [|e b IH]; [done|]. cbn [existsb map]. intros [Hv Hb]%orb_false_iff.
  apply bool_decide_eq_false_1 in Hv. destruct (IH Hb) as [E1 E2]. rewrite filter_cons, decide_True by done.
  unfold mark at 1. by rewrite decide_False, E1, E2.
Qed.

Lemma keys_some m b : B0 !! m = Some b → Forall (λ e, he_key e ≠ None) b.
Proof.
  intros Hb. destruct Hw0 as (_ & _ & _ & _ & Hbk). destruct (Hbk m b Hb) as [Hf _].
  eapply Forall_impl; [done|]. intros e (k & Hk & _). by rewrite Hk.
Qed.

(** The table while bucket [m] is visited, [j] of its elements done. *)
Definition visiting (m : nat) b (j : nat) : hash K V :=
  set_bucket m (map mark (take j b) ++ drop j b) (n_elements (cleaned m)) (cleaned m).

Lemma visiting_0 m b : B0 !! m = Some b → visiting m b 0 = cleaned m.
Proof.
  intros Hb. unfold visiting, set_bucket, cleaned. cbn. f_equal. apply list_insert_id. by apply clean_at.
Qed.

Lemma visiting_at m b j : B0 !! m = Some b →
  buckets (visiting m b j) !! m = Some (map mark (take j b) ++ drop j b).
Proof.
  intros Hb. cbn. apply list_lookup_insert_eq. rewrite length_clean. by eapply lookup_lt_Some.
Qed.

Lemma set_visiting m b j b' : B0 !! m = Some b →
  set_bucket m b' (n_elements (visiting m b j)) (visiting m b j) =
  set_bucket m b' (n_elements (cleaned m)) (cleaned m).
Proof. intros Hb. unfold visiting, set_bucket. cbn. by rewrite list_insert_insert_eq. Qed.

(** Leaving a bucket that has been visited cleans it. *)
Lemma unlock_visited m b x el la nb :
  (lo ≤ m)%nat → B0 !! m = Some b →
  hash_iterator_unlock (visiting m b (length b), HI x (Some m) el la (existsb is_v b) nb) =
  Ret (cleaned (S m), HI x None el None false nb).
Proof.
  intros Hm Hb. cbn [hash_iterator_unlock hi_bucket hi_bucket_marked hi_bucket_index hi_elem hi_bucket_index_end].
  assert (map mark (take (length b) b) ++ drop (length b) b = map mark b) as Hall
    by (rewrite take_ge, drop_ge by lia; apply app_nil_r).
  pose proof (concat_insert_length (clean m) m b (keep b) (clean_at m b Hb)) as Hlen.
  destruct (existsb is_v b) eqn:Hex.
  - unfold hash_remove_marked. rewrite visiting_at by done. cbn [of_option]. bret.
    rewrite Hall, remove_marked_mark by by eapply keys_some. bret. do 2 f_equal.
    unfold visiting, set_bucket, cleaned. cbn [buckets n_buckets mask iv n_elements].
    rewrite list_insert_insert_eq, (clean_S m b) by done. f_equal. lia.
  - bret. do 2 f_equal. apply keep_none in Hex as [Hk Hmk]. unfold visiting. rewrite Hall, Hmk.
    unfold set_bucket, cleaned. cbn. rewrite (clean_S m b), Hk by done. f_equal.
    rewrite Hk in Hlen. lia.
Qed.

Let nb := Z.of_nat hi.

(** Between buckets: those below [m] are cleaned, or will be once the locked one is
    left. *)
Definition leaving (m : nat) (s : hash K V * hash_iterator) : Prop :=
  hi_elem s.2 = None ∧ hi_bucket_index s.2 = Z.of_nat m - 1 ∧ hi_bucket_index_end s.2 = nb ∧ length (buckets s.1) = length B0 ∧
  ∀ x, hash_iterator_unlock (s.1, set_index x s.2) = Ret (cleaned m, HI x None None None false nb).

(** Inside bucket [m], with [j] elements done and more to come. *)
Definition next_elem b (j : nat) : option nat := if decide (j < length b)%nat then Some j else None.
Definition inside (m : nat) b (j : nat) : hash K V * hash_iterator :=
  (visiting m b (S j),
   HI (Z.of_nat m) (Some m) (next_elem b (S j)) (Some j) (existsb is_v (take (S j) b)) nb).

Lemma leaving_inside m b j :
  (lo ≤ m)%nat → B0 !! m = Some b → length b = S j → leaving (S m) (inside m b j).
Proof.
  intros Hm Hb Hl. unfold leaving, inside. cbn [hi_elem hi_bucket_index hi_bucket_index_end fst snd].
  unfold next_elem. rewrite decide_False by lia. split; [done|]. split; [lia|]. split; [done|].
  split; [unfold visiting, set_bucket, cleaned; cbn [buckets]; by rewrite length_insert, length_clean|].
  intros x. unfold set_index. cbn [hi_bucket hi_elem hi_last hi_bucket_marked hi_bucket_index_end].
  rewrite take_ge by lia. rewrite <- Hl. by apply (unlock_visited m b x None (Some j) nb).
Qed.

Lemma leaving_empty m x : (lo ≤ m)%nat → B0 !! m = Some [] → x = Z.of_nat m →
  leaving (S m) (cleaned m, HI x None None None false nb).
Proof.
  intros Hm Hb ->. unfold leaving. cbn. split; [done|]. split; [lia|]. split; [done|]. split; [apply length_clean|]. intros y.
  do 2 f_equal. unfold cleaned. rewrite (clean_S m [] Hm Hb). unfold keep. rewrite filter_nil.
  rewrite list_insert_id by (by apply clean_at). done.
Qed.

(** The elements of the buckets from [m] on. *)
Definition rest (m : nat) : list (hash_element K V) := concat (drop m (take hi B0)).
Lemma rest_S m b : (m < hi)%nat → B0 !! m = Some b → rest m = b ++ rest (S m).
Proof. intros Hm Hb. unfold rest. rewrite (drop_S _ b m); [done|]. by rewrite lookup_take_lt. Qed.
Lemma rest_hi : rest hi = [].
Proof. unfold rest. by rewrite drop_ge by (rewrite length_take; lia). Qed.

(** The search for the next element. *)
Lemma scan fuel : ∀ m s,
  leaving m s → (lo ≤ m ≤ hi)%nat → (hi - m < fuel)%nat →
  (∃ m' e b, (lo ≤ m' < hi)%nat ∧ B0 !! m' = Some (e :: b) ∧ rest m = (e :: b) ++ rest (S m') ∧
     loop fuel next_body s = Ret (Some e, (cleaned m',
       HI (Z.of_nat m') (Some m') (next_elem (e :: b) 1) (Some 0%nat) false nb))) ∨
  (rest m = [] ∧ ∃ s', loop fuel next_body s = Ret (None, s') ∧ hash_iterator_free s' = Ret (cleaned hi)).
Proof.
  induction fuel as [|fuel IH]; intros m [h it] (He & Hi & Hend & Hlen & Hun) Hm Hf; [lia|].
  cbn [fst snd] in *. rewrite loop_S. cbn [next_body].
  change (hi_bucket_index (set_index (hi_bucket_index it + 1) it)) with (hi_bucket_index it + 1).
  change (hi_bucket_index_end (set_index (hi_bucket_index it + 1) it)) with (hi_bucket_index_end it).
  rewrite Hi, Hend. replace (Z.of_nat m - 1 + 1) with (Z.of_nat m) by lia. unfold nb. case_decide as Hlt.
  - rewrite Hun. bret. cbn [hi_bucket_index]. rewrite Nat2Z.id.
    destruct (lookup_lt_is_Some_2 B0 m) as [b Hb]; [lia|].
    change (buckets (cleaned m)) with (clean m). rewrite (clean_at m b Hb). cbn [of_option]. bret.
    rewrite (rest_S m b) by (done || lia). destruct b as [|e b]; bret.
    + destruct (IH (S m) (cleaned m, HI (Z.of_nat m) None None None false nb)) as
        [(m' & e & b & Hm' & Hb' & Hc & E)|(Hr & s' & E & Hfree)]; [by apply leaving_empty; [lia|..]|lia|lia| |].
      * left. by exists m', e, b.
      * right. split; [done|]. by exists s'.
    + left. exists m, e, b. split; [lia|]. done.
  - right. assert (m = hi) as -> by lia. split; [apply rest_hi|]. bret. eexists. split; [done|].
    unfold hash_iterator_free. rewrite Hun. by bret.
Qed.

(** Marking an element, or not. *)
Lemma visit_ok m b j e :
  B0 !! m = Some b → b !! j = Some e →
  (if bool_decide (P (he_value e)) then hash_iterator_delete_element else λ s, Ret s)
    (visiting m b j,
     HI (Z.of_nat m) (Some m) (next_elem b (S j)) (Some j) (existsb is_v (take j b)) nb) =
  Ret (inside m b j).
Proof.
  intros Hb He. pose proof (lookup_lt_Some _ _ _ He) as Hj. unfold inside.
  assert (length (map mark (take j b)) = j) as Hl by (rewrite length_map, length_take; lia).
  assert (map mark (take (S j) b) ++ drop (S j) b =
    <[j := mark e]> (map mark (take j b) ++ drop j b)) as Hins.
  { rewrite (take_S_r _ _ _ He), map_app, (drop_S _ _ _ He).
    rewrite insert_app_r_alt by lia. rewrite Hl, Nat.sub_diag. by rewrite <- app_assoc. }
  assert (visiting m b (S j) = set_bucket m (<[j := mark e]> (map mark (take j b) ++ drop j b))
    (n_elements (cleaned m)) (cleaned m)) as Hvis by (unfold visiting at 1; by rewrite Hins).
  assert (existsb is_v (take (S j) b) = existsb is_v (take j b) || is_v e) as Hex.
  { rewrite (take_S_r _ _ _ He), existsb_app. cbn. by rewrite orb_false_r. }
  rewrite Hex. unfold is_v at 3. destruct (decide (P (he_value e))) as [Hv|Hv].
  - rewrite bool_decide_eq_true_2, orb_true_r by done. cbn [hash_iterator_delete_element hi_last hi_bucket].
    rewrite ASSERT_ok by done. bret. cbn [of_option]. bret. rewrite visiting_at by done. cbn [of_option]. bret.
    assert ((map mark (take j b) ++ drop j b) !! j = Some e) as ->.
    { rewrite lookup_app_r by lia. rewrite Hl, Nat.sub_diag, lookup_drop. by rewrite Nat.add_0_r. }
    cbn [of_option]. bret. rewrite set_visiting, Hvis by done.
    assert (mark e = HE (he_value e) None (he_hash_value e)) as ->; [|done].
    unfold mark. by rewrite decide_True.
  - rewrite bool_decide_eq_false_2, orb_false_r, Hvis by done.
    assert (mark e = e) as -> by (unfold mark; by rewrite decide_False).
    rewrite list_insert_id; [done|]. rewrite lookup_app_r by lia.
    rewrite Hl, Nat.sub_diag, lookup_drop. by rewrite Nat.add_0_r.
Qed.

(** The loop, by the elements not visited yet. *)
Definition to_visit (l : list (hash_element K V)) (s : hash K V * hash_iterator) : Prop :=
  (∃ m, leaving m s ∧ (lo ≤ m ≤ hi)%nat ∧ l = rest m) ∨
  (∃ m b j, (lo ≤ m < hi)%nat ∧ B0 !! m = Some b ∧ (S j < length b)%nat ∧ s = inside m b j ∧
     l = drop (S j) b ++ rest (S m)).

Lemma to_visit_inside m b j :
  (lo ≤ m < hi)%nat → B0 !! m = Some b → (j < length b)%nat →
  to_visit (drop (S j) b ++ rest (S m)) (inside m b j).
Proof.
  intros Hm Hb Hj. destruct (decide (S j < length b)%nat).
  - right. by exists m, b, j.
  - left. exists (S m). split; [apply leaving_inside; [lia|done|lia]|]. split; [lia|]. by rewrite drop_ge by lia.
Qed.

Section body.
Context {A : Type} (f : A → hash_element K V → outcome (A * bool)) (Inv : A → list (hash_element K V) → Prop).
Hypothesis (Hf : ∀ a e l, Inv a (e :: l) → ∃ a', f a e = Ret (a', bool_decide (P (he_value e))) ∧ Inv a' l).

(** The next element is marked or not, and the iterator stands behind it. *)
Lemma walk_visit a e l s s0 s1 :
  Inv a (e :: l) → hash_iterator_next s = Ret (Some e, s0) →
  (if bool_decide (P (he_value e)) then hash_iterator_delete_element else λ s, Ret s) s0 = Ret s1 →
  ∃ a', walk_body f (a, s) = Ret (inl (a', s1)) ∧ Inv a' l.
Proof.
  intros Hi Hn Hd. destruct (Hf a e l Hi) as (a' & E & Hi'). exists a'. split; [|done].
  unfold walk_body. rewrite Hn. bret. rewrite E. bret. destruct (bool_decide _); rewrite Hd || (injection Hd as ->); done.
Qed.

Lemma walk_step a l s :
  to_visit l s → Inv a l →
  (∃ e l' a' s', l = e :: l' ∧ walk_body f (a, s) = Ret (inl (a', s')) ∧ to_visit l' s' ∧ Inv a' l') ∨
  (l = [] ∧ ∃ s', walk_body f (a, s) = Ret (inr (a, s')) ∧ hash_iterator_free s' = Ret (cleaned hi)).
Proof.
  intros [(m & Hlv & Hm & ->)|(m & b & j & Hm & Hb & Hj & -> & ->)] Hi.
  - destruct s as [h it]. pose proof Hlv as (He & _ & _ & Hlen & _). cbn [fst snd] in He, Hlen.
    assert (hash_iterator_next (h, it) = loop (S (length B0)) next_body (h, it)) as Hnx
      by (unfold hash_iterator_next; by rewrite He, Hlen).
    destruct (scan (S (length B0)) m (h, it) Hlv Hm) as
      [(m' & e & b & Hm' & Hb & Hc & E)|(Hr & s' & E & Hfree)]; [lia| |]; rewrite <- Hnx in E.
    + left. rewrite Hc in Hi |- *. cbn [app] in Hi |- *. rewrite <- (visiting_0 m' (e :: b)) in E by done.
      destruct (walk_visit a e _ _ _ _ Hi E (visit_ok m' (e :: b) 0 e Hb eq_refl)) as (a' & Ew & Hi').
      exists e, (b ++ rest (S m')), a', (inside m' (e :: b) 0). split; [done|]. split; [done|]. split; [|done].
      apply (to_visit_inside m' (e :: b) 0); [lia|done|cbn; lia].
    + right. split; [done|]. exists s'. split; [|done]. unfold walk_body. rewrite E. by bret.
  - left. destruct (lookup_lt_is_Some_2 b (S j) Hj) as [e He]. rewrite (drop_S _ _ _ He) in Hi |- *. cbn [app] in Hi |- *.
    assert (hash_iterator_next (inside m b j) = Ret (Some e, (visiting m b (S j),
      HI (Z.of_nat m) (Some m) (next_elem b (S (S j))) (Some (S j)) (existsb is_v (take (S j) b)) nb))) as E.
    { unfold hash_iterator_next, inside. unfold next_elem at 1. rewrite decide_True by done.
      cbn [hi_elem hi_bucket of_option]. bret. rewrite visiting_at by done. cbn [of_option]. bret.
      assert (length (map mark (take (S j) b)) = S j) as Hl by (rewrite length_map, length_take; lia).
      assert ((map mark (take (S j) b) ++ drop (S j) b) !! S j = Some e) as ->.
      { rewrite lookup_app_r by lia. rewrite Hl, Nat.sub_diag, lookup_drop. by rewrite Nat.add_0_r. }
      cbn [of_option]. bret. unfold hash_iterator_advance. cbn [hi_bucket_index hi_bucket hi_bucket_marked hi_bucket_index_end].
      assert (length (map mark (take (S j) b) ++ drop (S j) b) = length b) as ->
        by (rewrite length_app, length_map, <- length_app, take_drop; done). done. }
    destruct (walk_visit a e _ _ _ _ Hi E (visit_ok m b (S j) e Hb He)) as (a' & Ew & Hi').
    exists e, (drop (S (S j)) b ++ rest (S m)), a', (inside m b (S j)). split; [done|]. split; [done|]. split; [|done].
    by apply to_visit_inside.
Qed.

Lemma walk_loop l : ∀ fuel a s, to_visit l s → Inv a l → (length l < fuel)%nat →
  ∃ a' s', loop fuel (walk_body f) (a, s) = Ret (a', s') ∧ hash_iterator_free s' = Ret (cleaned hi) ∧ Inv a' [].
Proof.
  induction l as [|e l IH]; intros [|fuel] a s Hs Hi Hfu; cbn [length] in Hfu; try lia; rewrite loop_S;
    destruct (walk_step a _ s Hs Hi) as [(e' & l' & a' & s' & Hl & -> & Hs' & Hi')|(Hl & s' & -> & Hfree)];
    bret; try done.
  - by exists a, s'.
  - injection Hl as <- <-. apply IH; [done|done|lia].
Qed.

Lemma concat_length_drop (ls : list (list (hash_element K V))) n m : (length (concat (drop n (take m ls))) ≤ length (concat ls))%nat.
Proof.
  rewrite <- (take_drop m ls) at 2. rewrite <- (take_drop n (take m ls)) at 2. rewrite !concat_app, !length_app. lia.
Qed.

(** The walk from [lo] to [hi]. *)
Lemma hash_walk_ok a :
  Inv a (rest lo) →
  ∃ a', hash_walk f a h0 (HI (Z.of_nat lo - 1) None None None false nb) = Ret (a', cleaned hi) ∧ Inv a' [].
Proof.
  intros Hi. unfold hash_walk. change (buckets h0) with B0.
  assert (cleaned lo = h0) as Hc0.
  { assert (clean lo = B0) as Hcl.
    { apply list_eq. intros i. rewrite clean_lookup. destruct (B0 !! i); cbn; [|done]. by rewrite decide_False by lia. }
    destruct Hw0 as (_ & _ & _ & [Hne _] & _). unfold cleaned. rewrite Hcl. unfold B0. rewrite <- Hne. apply hash_eta. }
  destruct (walk_loop (rest lo) (S (length (concat B0))) a (h0, HI (Z.of_nat lo - 1) None None None false nb)) as (a' & s' & -> & Hfree & Hi').
  { left. exists lo. split; [|split; [lia|done]]. unfold leaving. cbn. split; [done|]. split; [done|]. split; [done|]. split; [done|].
    intros x. by rewrite Hc0. }
  { done. }
  { unfold rest. pose proof (concat_length_drop B0 lo hi). lia. }
  bret. rewrite Hfree. bret. by exists a'.
Qed.
End body.

Lemma hits_keep k b : hits k (keep b) = keep (hits k b).
Proof. unfold hits, keep. rewrite !list_filter_filter. apply list_filter_iff. tauto. Qed.

Lemma keep_bucket i b : wf_bucket h0 i b → wf_bucket h0 i (keep b).
Proof.
  intros [Hfo Hu]. split.
  - apply Forall_forall. intros e [_ He]%list_elem_of_filter. rewrite Forall_forall in Hfo. by apply Hfo.
  - intros k. rewrite hits_keep. specialize (Hu k). unfold keep.
    pose proof (length_filter (λ e, ¬ P (he_value e)) (hits k b)). lia.
Qed.

Lemma concat_clean m : (length (concat (clean m)) ≤ length (concat B0))%nat.
Proof.
  assert (∀ (g : nat → list (hash_element K V) → list (hash_element K V)) ls, (∀ i b, (length (g i b) ≤ length b)%nat) →
    (length (concat (imap g ls)) ≤ length (concat ls))%nat) as Hg.
  { intros g ls Hg. revert g Hg. induction ls as [|l ls IH]; intros g Hg; [done|]. rewrite imap_cons. cbn [concat]. rewrite !length_app.
    pose proof (IH (g ∘ S) (λ i b, Hg (S i) b)). specialize (Hg 0%nat l). lia. }
  apply Hg. intros i b. case_decide; [|done]. apply length_filter.
Qed.

Lemma cleaned_wf m : wf_hash (cleaned m).
Proof.
  destruct Hw0 as (Hp & Hm & Hl & [Hn Hmax] & Hb). split; [done|]. split; [done|].
  split; [cbn [cleaned buckets]; by rewrite length_clean|]. split.
  - split; [done|]. cbn [cleaned n_elements]. pose proof (concat_clean m). unfold B0 in *. lia.
  - intros i b. cbn [cleaned buckets]. rewrite clean_lookup. destruct (B0 !! i) as [b0|] eqn:Hi; cbn; [|done].
    intros [= <-]. case_decide; [apply keep_bucket|]; by apply Hb.
Qed.

(** What is left: the bindings outside the range, and those that are kept. *)
Lemma cleaned_assoc m k :
  assoc (cleaned m) k = (x ← assoc h0 k; if decide ((lo ≤ key_index h0 k < m)%nat ∧ P x) then None else Some x).
Proof.
  unfold assoc. change (key_index (cleaned _) k) with (key_index h0 k).
  cbn [buckets cleaned]. rewrite clean_lookup. destruct (bucket_of h0 k Hw0) as (b & Hb & Hwb).
  unfold B0. rewrite Hb. cbn [fmap option_fmap option_map default from_option id].
  destruct (decide (lo ≤ key_index h0 k < m)%nat) as [Hin|Hout].
  - rewrite hits_keep. pose proof (proj2 Hwb k) as Hu. unfold keep.
    destruct (hits k b) as [|e [|? ?]]; [done| |cbn in Hu; lia].
    rewrite filter_cons, filter_nil. cbn. destruct (decide (P (he_value e))) as [HP|HP].
    + rewrite (decide_False (P := ¬ _)) by tauto. by rewrite decide_True.
    + rewrite (decide_True (P := ¬ _)) by done. by rewrite decide_False by tauto.
  - destruct (head (hits k b)) as [e|]; [|done]. cbn. by rewrite decide_False by tauto.
Qed.
End walk.

Lemma hash_iterator_init_ok h : wf_hash h → hash_iterator_init h = Ret (HI (0 - 1) None None None false (n_buckets h)).
Proof.
  intros ((p & Hp & Hn) & _). unfold hash_iterator_init, hash_iterator_init_range.
  assert (0 < n_buckets h) by (rewrite Hn; apply Z.pow_pos_nonneg; lia).
  rewrite decide_False by lia. rewrite ASSERT_ok by lia. by bret.
Qed.

Lemma key_index_in h k : wf_hash h → (0 ≤ key_index h k < length (buckets h))%nat.
Proof. intros Hw. pose proof (key_index_lt h k Hw). lia. Qed.

Lemma hash_remove_by_value_ok v h :
  wf_hash h → ∃ h', hash_remove_by_value v h = Ret h' ∧ wf_hash h' ∧
    ∀ k, assoc h' k = (x ← assoc h k; if decide (x = v) then None else Some x).
Proof.
  intros Hw. exists (cleaned (λ x, x = v) 0 h (length (buckets h))).
  split; [|split; [apply (cleaned_wf _ 0 (length (buckets h))); done || lia|]].
  - unfold hash_remove_by_value. rewrite hash_iterator_init_ok by done. bret. destruct Hw as (? & ? & Hl & ?). rewrite <- Hl.
    destruct (hash_walk_ok (λ x, x = v) 0 (length (buckets h)) h ltac:(done) ltac:(lia) (remove_by_value_body v) (λ _ _, True)) with (a := tt)
      as (a' & E & _); [|done|].
    + intros a e l _. by eexists.
    + change (Z.of_nat 0) with 0 in E. rewrite E. by bret.
  - intros k. rewrite (cleaned_assoc _ 0 (length (buckets h))) by (done || lia). destruct (assoc h k) as [x|]; [|done]. cbn.
    pose proof (key_index_in h k Hw). destruct (decide (x = v)); [by rewrite decide_True|by rewrite decide_False by tauto].
Qed.

(** A walk that removes nothing visits every element and leaves the table. *)
Lemma hash_visit_ok {A} (f : A → hash_element K V → outcome (A * bool)) (Inv : A → list (hash_element K V) → Prop) h a :
  wf_hash h → (∀ a e l, Inv a (e :: l) → ∃ a', f a e = Ret (a', false) ∧ Inv a' l) → Inv a (concat (buckets h)) →
  ∃ hi a', hash_iterator_init h = Ret hi ∧ hash_walk f a h hi = Ret (a', h) ∧ Inv a' [].
Proof.
  intros Hw Hf Hi. exists (HI (0 - 1) None None None false (n_buckets h)). rewrite hash_iterator_init_ok by done.
  destruct (hash_walk_ok (λ _, False) 0 (length (buckets h)) h Hw ltac:(lia) f Inv) with (a := a) as (a' & E & Hi').
  - intros b e l Hb. destruct (Hf b e l Hb) as (b' & -> & Hb'). exists b'. by rewrite bool_decide_eq_false_2 by tauto.
  - unfold rest. by rewrite drop_0, firstn_all.
  - exists a'. split; [done|]. split; [|done]. pose proof Hw as (_ & _ & Hl & [Hn _] & _). rewrite Hl in E. change (Z.of_nat 0) with 0 in E. rewrite E.
    do 2 f_equal. assert (clean (λ _, False) 0 h (length (buckets h)) = buckets h) as Hc.
    { apply list_eq. intros j. rewrite clean_lookup. destruct (buckets h !! j) as [b|]; [|done]. cbn. f_equal. case_decide; [|done].
      unfold keep. induction b as [|e b IH]; [done|]. rewrite filter_cons, decide_True by tauto. by rewrite IH. }
    unfold cleaned. rewrite Hc, <- Hn. apply hash_eta.
Qed.

(** ** A new table *)

Lemma power_body_ok u p : 0 ≤ p ≤ 30 → 0 < u ≤ 2 ^ p → ∀ fuel q, 0 ≤ q ≤ p → 2 ^ q < 2 * u →
  (Z.to_nat (p - q) < fuel)%nat →
  ∃ r, loop fuel (power_body u) (2 ^ q) = Ret (2 ^ r) ∧ q ≤ r ≤ p ∧ u ≤ 2 ^ r < 2 * u.
Proof.
  intros Hp Hu. induction fuel as [|fuel IH]; intros q Hq Hlow Hf; [lia|].
  rewrite loop_S. change (power_body u (2 ^ q)) with
    (if decide (2 ^ q < u) then ASSERT (0 < u64 (2 ^ q * 2));; Ret (inl (u64 (2 ^ q * 2)))
     else Ret (inr (2 ^ q) : Z + Z)).
  case_decide as Hlt.
  - assert (q < p) as Hqp by (destruct (decide (q = p)); [subst; lia|lia]).
    assert (2 ^ (q + 1) = 2 ^ q * 2) as Hpow by (rewrite Z.pow_add_r by lia; done).
    assert (2 ^ (q + 1) ≤ 2 ^ 30) as Hle by (apply Z.pow_le_mono_r; lia).
    assert (0 < 2 ^ q) by (apply Z.pow_pos_nonneg; lia).
    rewrite (wrap_small 64) by (rewrite <- Hpow; change (2 ^ 30) with 1073741824 in Hle; lia).
    rewrite ASSERT_ok by lia. bret. rewrite <- Hpow.
    destruct (IH (q + 1)) as (r & -> & Hr & ?); [lia|lia|lia|]. exists r. split; [done|]. split; lia.
  - bret. exists q. split; [done|]. lia.
Qed.

Lemma adjust_power_of_2_ok u : 0 < u ≤ 2 ^ 30 →
  ∃ r, adjust_power_of_2 u = Ret (2 ^ r) ∧ 0 ≤ r ≤ 30 ∧ u ≤ 2 ^ r < 2 * u.
Proof.
  intros Hu. destruct (power_body_ok u 30 ltac:(lia) Hu 66 0) as (r & E & Hr); [lia|cbn; lia|lia|].
  exists r. done.
Qed.

Lemma hash_init_ok n iv : 0 < n ≤ 2 ^ 30 →
  ∃ h, hash_init n iv = Ret h ∧ wf_hash h ∧ n ≤ n_buckets h < 2 * n ∧ n_elements h = 0 ∧
    ∀ k, assoc h k = None.
Proof.
  intros Hn. unfold hash_init. rewrite ASSERT_ok by lia. bret.
  destruct (adjust_power_of_2_ok n Hn) as (r & -> & Hr & Hb). bret.
  assert (0 < 2 ^ r ≤ 2 ^ 30) as Hpow
    by (split; [apply Z.pow_pos_nonneg; lia|apply Z.pow_le_mono_r; lia]).
  change (2 ^ 30) with 1073741824 in Hpow. rewrite s32_id by (ints; lia).
  assert (∀ i b, replicate (Z.to_nat (2 ^ r)) ([] : list (hash_element K V)) !! i = Some b → b = [])
    as Hrep by (by intros i b [-> _]%lookup_replicate).
  assert (∀ m, concat (replicate m ([] : list (hash_element K V))) = []) as Hcat by (by induction m).
  eexists. split; [done|]. split; [|split; [cbn [n_buckets]; lia|split; [done|]]].
  - split; [exists r; split; [lia|done]|]. split; [done|]. split; [cbn; rewrite length_replicate; lia|].
    cbn [n_elements buckets]. rewrite Hcat. split; [split; [done|ints; lia]|].
    intros i b ->%Hrep. split; [done|]. intros k. unfold hits. rewrite filter_nil. cbn. lia.
  - intros k. unfold assoc. cbn [buckets]. destruct (replicate _ _ !! _) as [b|] eqn:E; [|done].
    by rewrite (Hrep _ _ E).
Qed.
End table.

(** ** Pointers as keys: [void_ptr_hash_function] and [void_ptr_compare_function] *)

Lemma void_ptr_hash_ok key iv : is_u32 iv → ∃ h, void_ptr_hash_function key iv = Ret h ∧ is_u32 h.
Proof. intros. by apply hash_func_ok. Qed.

Definition void_ptr : Type := Z.
#[export] Instance void_ptr_hashable : Hashable void_ptr := {|
  hash_function key iv := match void_ptr_hash_function key iv with Ret h => h | _ => 0 end;
  compare_function := void_ptr_compare_function;
|}.
#[export] Instance void_ptr_laws : HashLaws void_ptr.
Proof.
  split; cbn; unfold void_ptr_compare_function; intros *; rewrite ?bool_decide_eq_true;
    [congruence..|by intros ->].
Qed.
