(* ===== verification/MqttWireProps.v ===== *)
(** * Properties of the MQTT wire format

    Serializers against the packets of the protocol, deserializers against
    serializers, the two packet readers, and topic matching.  A theorem is
    followed by an instance of it on concrete data. *)
From S2P Require Import Prelude MqttPacket MqttPublish MqttSubscribe MqttConnect.
From S2P Require Import MqttTopic.

(** ** Sample data of the instances *)

Definition some_topic : MQTTString := Build_MQTTString (Some [97; 47; 98]) 0 None.
Definition no_publication : PublishData := Build_PublishData 0 0 0 0 MQTTString_initializer [] 0.
Definition no_ack : AckData := Build_AckData 0 0 0.
Definition no_subscription (n : nat) : SubscribeData :=
  Build_SubscribeData 0 0 0 (replicate n MQTTString_initializer) (replicate n 0).
Definition no_unsubscription (n : nat) : UnsubscribeData :=
  Build_UnsubscribeData 0 0 0 (replicate n MQTTString_initializer).
Definition no_suback (n : nat) : SubackData := Build_SubackData 0 0 (replicate n (-1)).
Definition some_options : MQTTPacket_connectData :=
  Build_MQTTPacket_connectData [77; 81; 84; 67] 0 4 some_topic 60 1 1
    (Build_MQTTPacket_willOptions [77; 81; 84; 87] 0 some_topic some_topic 0 1)
    some_topic some_topic.

(** ** Theorems *)

(** Remaining-length code.  For every length the protocol allows,
    [MQTTPacket_encode] stores between one and four bytes, leaves the rest of the
    buffer alone, and [MQTTPacket_decodeBuf] reads the same length back from them
    and reports how many bytes it took. *)
Theorem remaining_length_roundtrip n buf :
  0 ≤ n < 268435456 → (4 ≤ length buf)%nat →
  ∃ k buf', MQTTPacket_encode n (WCur buf 0) = Ret (WCur buf' k) ∧
    (1 ≤ k ≤ 4)%nat ∧ length buf' = length buf ∧ drop k buf' = drop k buf ∧
    MQTTPacket_decodeBuf buf' 0 = Ret (Z.of_nat k, n).
Proof.
  intros Hn Hl. pose proof (rl_bytes_length n Hn) as Hk.
  pose proof (rl_bytes_bytes n ltac:(lia)) as Hb.
  exists (length (rl_bytes n)), (rl_bytes n ++ drop (length (rl_bytes n)) buf).
  rewrite encode_put, filled_start, put_filled by (done || (ints; cbn [app length] in *; lia)).
  split; [done|]. split; [done|]. split; [rewrite length_app, length_drop; lia|].
  split; [by rewrite drop_app_length|]. by eapply decodeBuf_drop.
Qed.

Lemma remaining_length_roundtrip_witness :
  ∃ k buf', MQTTPacket_encode 321 (WCur (replicate 4 0) 0) = Ret (WCur buf' k) ∧
    MQTTPacket_decodeBuf buf' 0 = Ret (Z.of_nat k, 321).
Proof.
  destruct (remaining_length_roundtrip 321 (replicate 4 0)) as (k & b & H1 & _ & _ & _ & H2);
    [lia|by cbn; lia|]. by exists k, b.
Defined.

(** Reading a packet.  Given a packet of the protocol followed by anything,
    the blocking reader returns its type, puts exactly the packet in the buffer,
    and leaves the source behind it; a packet larger than the buffer it was told
    of is refused without a byte of the body being read. *)
Theorem MQTTPacket_read_correct h body rest buf buflen :
  is_byte h → Forall is_byte body → Z.of_nat (length body) < 268435456 →
  (5 ≤ length buf)%nat → buflen ≤ Z.of_nat (length buf) →
  ∃ rc buf' g, MQTTPacket_read read_list buf buflen (packet h body ++ rest) =
      Ret (rc, buf', g) ∧ length buf' = length buf ∧
    if decide (Z.of_nat (length (packet h body)) ≤ buflen)
    then rc = hdr_type h ∧ take (length (packet h body)) buf' = packet h body ∧
         drop (length (packet h body)) buf' = drop (length (packet h body)) buf ∧ g = rest
    else rc = -1 ∧ g = body ++ rest.
Proof.
  intros Hh Hb Hn H5 Hl. pose proof (length_packet h body) as Hlp.
  pose proof (rl_bytes_length (Z.of_nat (length body)) ltac:(lia)). unfold packet_size in Hlp.
  case_decide.
  - rewrite MQTTPacket_read_packet by done. do 3 eexists. split; [done|].
    rewrite take_app_length, drop_app_length. rewrite length_app, length_drop. by split; [lia|].
  - rewrite MQTTPacket_read_too_long by (done || lia). do 3 eexists. split; [done|].
    split; [|done]. cbn [length]. rewrite length_app, length_drop. lia.
Qed.

Lemma MQTTPacket_read_correct_witness :
  ∃ buf', MQTTPacket_read read_list (replicate 8 0) 8 (packet 48 [1; 2; 3] ++ [9]) =
    Ret (PUBLISH, buf', [9]) ∧ take 5 buf' = packet 48 [1; 2; 3].
Proof.
  destruct (MQTTPacket_read_correct 48 [1; 2; 3] [9] (replicate 8 0) 8)
    as (rc & b & g & H & _ & Hc); [decided..|].
  revert Hc. rewrite decide_True by decided. intros (-> & Ht & _ & ->). exists b.
  split; [exact H|exact Ht].
Defined.

(** Memory safety of the blocking reader.  Whatever a well-behaved source
    sends, the reader performs no undefined operation in a buffer of at least
    five bytes whose size it was told, keeps the buffer's size, and returns -1 or
    a packet type. *)
Theorem MQTTPacket_read_memory_safe {src : Type} (getfn : src → Z → Z * list Z * src) buf buflen g :
  getfn_ok getfn → (5 ≤ length buf)%nat → buflen ≤ Z.of_nat (length buf) →
  ∃ rc buf' g', MQTTPacket_read getfn buf buflen g = Ret (rc, buf', g') ∧
    -1 ≤ rc < 16 ∧ length buf' = length buf.
Proof. intros. by apply MQTTPacket_read_safe. Qed.

Lemma MQTTPacket_read_memory_safe_witness :
  ∃ rc buf' g', MQTTPacket_read (λ (g : unit) n, (0, [], g)) (replicate 5 0) 5 tt =
    Ret (rc, buf', g').
Proof.
  destruct (MQTTPacket_read_memory_safe (λ (g : unit) n, (0, [], g)) (replicate 5 0) 5 tt)
    as (rc & b & g' & H & _); [|by cbn; lia..|by exists rc, b, g'].
  intros g n rc bs g' Hn [= <- <- <-]. split; [done|]. cbn. lia.
Defined.

(** C34: reading a packet without blocking.  However the source cuts the body of a
    packet in pieces, empty ones included, polling [MQTTPacket_readnb] once per
    piece returns the packet's type with the whole packet in the buffer, and the
    transport is ready for the next packet. *)
Theorem MQTTPacket_readnb_reassembles h body cs buf buflen m0 r0 l0 :
  is_byte h → hdr_type h ≠ 0 → Forall is_byte body → body ≠ [] → concat cs = body →
  Z.of_nat (length body) < 268435456 →
  Z.of_nat (length (packet h body)) ≤ buflen ≤ Z.of_nat (length buf) →
  ∃ trp', readnb_poll chunk_source (length cs) buf buflen
      (Build_MQTTTransport
         ([h] :: map (λ b, [b]) (rl_bytes (Z.of_nat (length body))) ++ cs) m0 r0 l0 0) =
    Ret (hdr_type h, packet h body ++ drop (length (packet h body)) buf, trp') ∧
    trp_state trp' = 0.
Proof. apply readnb_poll_packet. Qed.

Lemma MQTTPacket_readnb_reassembles_witness :
  ∃ trp', readnb_poll chunk_source 3 (replicate 6 0) 6
      (Build_MQTTTransport ([48] :: [3] :: [1; 2] :: [] :: [3] :: []) 0 0 0 0) =
    Ret (PUBLISH, packet 48 [1; 2; 3] ++ [0], trp') ∧ trp_state trp' = 0.
Proof.
  exact (MQTTPacket_readnb_reassembles 48 [1; 2; 3] [[1; 2]; []; [3]] (replicate 6 0) 6 0 0 0
    ltac:(decided) ltac:(decided) ltac:(decided) ltac:(decided) eq_refl ltac:(decided)
    ltac:(decided)).
Defined.

(** A packet without a body is never delivered by the non-blocking reader:
    once it waits for the body it only reports "call again" or an error, however
    often it is polled. *)
Theorem MQTTPacket_readnb_empty_stuck {src : Type} (getfn : src → Z → Z * list Z * src)
    k buf buflen g m l rc buf' trp' :
  getfn_ok getfn →
  readnb_poll getfn k buf buflen (Build_MQTTTransport g m 0 l 2) = Ret (rc, buf', trp') →
  rc = 0 ∨ rc = -1.
Proof. intros Hok H. by eapply readnb_poll_empty. Qed.

Lemma read_list_getfn_ok : getfn_ok (λ (g : unit) (n : Z), (0, [] : list Z, g)).
Proof. intros g n rc bs g' Hn [= <- <- <-]. split; [done|]. cbn. lia. Defined.

Lemma MQTTPacket_readnb_empty_stuck_witness : (0 = 0 ∨ 0 = -1).
Proof.
  exact (MQTTPacket_readnb_empty_stuck (λ (g : unit) n, (0, [], g)) 3 [208; 0] 2 tt 128 2 0
    [208; 0] (Build_MQTTTransport tt 128 0 2 2) read_list_getfn_ok eq_refl).
Defined.

(** C22: PUBLISH.  The serializer writes exactly the packet of the protocol, or
    refuses a buffer that is too small and leaves it alone; and the deserializer
    gets every field back, whatever follows the packet in memory. *)
Theorem publish_roundtrip o buf buflen dup qos retained packetid topic payload :
  let pkt := publish_packet dup qos retained packetid (MQTTString_bytes topic) payload in
  0 ≤ dup < 2 → 0 ≤ qos < 4 → 0 ≤ retained < 2 → is_u16 packetid →
  wf_string topic → Forall is_byte payload →
  Z.of_nat (length (publish_body qos packetid (MQTTString_bytes topic) payload)) < 268435456 →
  buflen ≤ Z.of_nat (length buf) →
  writes (MQTTSerialize_publish buf buflen dup qos retained packetid topic payload
            (Z.of_nat (length payload))) buf buflen pkt ∧
  ∀ rest len, ∃ d, MQTTDeserialize_publish o (pkt ++ rest) len = Ret (1, d) ∧
    pub_dup d = dup ∧ pub_qos d = qos ∧ pub_retained d = retained ∧
    (0 < qos → pub_packetid d = packetid) ∧
    MQTTString_bytes (pub_topicName d) = MQTTString_bytes topic ∧
    take (Z.to_nat (pub_payloadlen d)) (pub_payload d) = payload.
Proof.
  cbv zeta. intros Hd Hq Hr Hid Ht Hp Hn Hl. split.
  - apply writes_estimate. by apply MQTTSerialize_publish_ok.
  - intros rest len. rewrite MQTTDeserialize_publish_ok by (done || by destruct Ht as (_ & ? & _)).
    eexists. split; [done|]. cbn [pub_dup pub_qos pub_retained pub_packetid pub_topicName
      pub_payload pub_payloadlen].
    rewrite MQTTString_bytes_read, Nat2Z.id, take_app_length. repeat split; [|done..].
    intros. by rewrite decide_True by lia.
Qed.


Lemma publish_roundtrip_witness :
  ∃ d, MQTTDeserialize_publish no_publication
         (publish_packet 0 1 0 7 [97; 47; 98] [1; 2] ++ []) 11 = Ret (1, d) ∧
    pub_packetid d = 7.
Proof.
  destruct (publish_roundtrip no_publication (replicate 20 0) 20 0 1 0 7 some_topic [1; 2])
    as (_ & H); [lia|lia|lia|decided..|].
  destruct (H [] 11) as (d & Hd & _ & _ & _ & Hid & _). exists d.
  split; [exact Hd|by apply Hid].
Defined.

(** Acknowledgements (PUBACK, PUBREC, PUBREL, PUBCOMP).  Every buffer of four
    bytes is enough and every smaller one is refused untouched; type, duplicate
    flag and packet identifier survive the round trip. *)
Theorem ack_roundtrip o buf buflen type dup packetid :
  let pkt := ack_packet type dup (if decide (type = PUBREL) then 1 else 0) packetid in
  0 ≤ type < 16 → 0 ≤ dup < 2 → is_u16 packetid → buflen ≤ Z.of_nat (length buf) →
  MQTTSerialize_ack buf buflen type dup packetid =
    (if decide (buflen < 4) then Ret (MQTTPACKET_BUFFER_TOO_SHORT, buf)
     else Ret (4, pkt ++ drop 4 buf)) ∧
  ∀ rest len, MQTTDeserialize_ack o (pkt ++ rest) len =
    Ret (1, Build_AckData type dup packetid).
Proof.
  cbv zeta. intros Ht Hd Hid Hl. split; [by apply MQTTSerialize_ack_ok|].
  intros. by apply MQTTDeserialize_ack_ok.
Qed.

Lemma ack_roundtrip_witness :
  MQTTDeserialize_ack no_ack (ack_packet PUBREL 0 1 513 ++ [0]) 5 =
    Ret (1, Build_AckData PUBREL 0 513).
Proof.
  destruct (ack_roundtrip no_ack (replicate 5 0) 5 PUBREL 0 513) as (_ & H); [decided..|].
  exact (H [0] 5).
Defined.

(** SUBSCRIBE.  The client's serializer writes the protocol's packet or
    refuses the buffer; the server's deserializer, given arrays with a cell for
    each entry, returns the topic filters and the requested qualities of service
    in order. *)
Theorem subscribe_roundtrip char_signed o buf buflen dup packetid topics qoss :
  let es := zip (bytes_of topics) qoss in
  let pkt := subscribe_packet dup packetid es in
  length topics = length qoss → Forall wf_string topics → Forall (λ q, 0 ≤ q < 128) qoss →
  0 ≤ dup < 2 → is_u16 packetid →
  Z.of_nat (length (subscribe_payload packetid es)) < 268435456 →
  buflen ≤ Z.of_nat (length buf) →
  (length topics ≤ length (sub_topicFilters o))%nat →
  (length topics ≤ length (sub_requestedQoSs o))%nat →
  writes (MQTTSerialize_subscribe buf buflen dup packetid (length topics) topics qoss)
    buf buflen pkt ∧
  ∀ rest maxcount len, ∃ o',
    MQTTDeserialize_subscribe char_signed o maxcount (pkt ++ rest) len = Ret (1, o') ∧
    sub_dup o' = dup ∧ sub_packetid o' = packetid ∧ sub_count o' = length topics ∧
    sub_view o' = (bytes_of topics, qoss).
Proof.
  cbv zeta. intros Hlen Ht Hq Hd Hid Hn Hl H1 H2.
  destruct (zip_columns char_signed topics qoss) as (Hz & Hf & Hs); [done..|].
  split; [apply writes_estimate; by apply MQTTSerialize_subscribe_ok|].
  intros rest maxcount len.
  destruct (MQTTDeserialize_subscribe_ok char_signed o dup packetid
    (zip (bytes_of topics) qoss) rest maxcount len) as (o' & E & Ed & Ei & Ec & Ev);
    [done|done|done|by apply wf_entries|lia|lia|].
  exists o'. by rewrite Ec, Ev, Hz, Hf, Hs.
Qed.

Lemma subscribe_roundtrip_witness :
  ∃ o', MQTTDeserialize_subscribe true (no_subscription 2) 2
      (subscribe_packet 0 9 [([97; 47; 98], 1)] ++ []) 10 = Ret (1, o') ∧
    sub_view o' = ([[97; 47; 98]], [1]).
Proof.
  destruct (subscribe_roundtrip true (no_subscription 2) (replicate 20 0) 20 0 9 [some_topic] [1])
    as (_ & H); [decided..|].
  destruct (H [] 2 10) as (o' & Ho & _ & _ & _ & Hv). exists o'. split; [exact Ho|exact Hv].
Defined.

(** SUBACK.  The server's serializer writes the protocol's packet into a
    buffer that holds it, and the client reads the granted codes back. *)
Theorem suback_roundtrip char_signed o buf buflen packetid codes :
  let pkt := suback_packet packetid codes in
  Forall (λ q, 0 ≤ q < 128) codes → is_u16 packetid →
  2 + Z.of_nat (length codes) < 268435456 →
  Z.of_nat (length pkt) ≤ buflen ≤ Z.of_nat (length buf) →
  (length codes ≤ length (suback_grantedQoSs o))%nat →
  MQTTSerialize_suback buf buflen packetid (length codes) codes =
    Ret (Z.of_nat (length pkt), pkt ++ drop (length pkt) buf) ∧
  ∀ rest len, ∃ o',
    MQTTDeserialize_suback char_signed o (Z.of_nat (length codes)) (pkt ++ rest) len = Ret (1, o') ∧
    suback_packetid o' = packetid ∧ suback_count o' = length codes ∧ suback_view o' = codes.
Proof.
  cbv zeta. intros Hc Hid Hn Hl Ho.
  pose proof (length_suback_packet packetid codes) as Hp.
  unfold packet_size in Hp.
  assert (Forall is_byte codes) as Hb
    by (eapply Forall_impl; [exact Hc|intros q Hq; cbn in Hq; ints; lia]).
  split; [apply MQTTSerialize_suback_ok; done || lia|]. intros rest len.
  destruct (MQTTDeserialize_suback_ok char_signed o packetid codes rest
    (Z.of_nat (length codes)) len) as (o' & E & Ei & Ec & Ev); [done|lia|lia|done|].
  exists o'. rewrite Ev. repeat split; [done..|]. rewrite <- (map_u8_id codes) at 1 by done.
  rewrite map_map. transitivity (map id codes); [|apply map_id].
  apply map_ext_Forall. eapply Forall_impl; [exact Hc|]. intros q Hq. by apply char_val_small.
Qed.

Lemma suback_roundtrip_witness :
  ∃ o', MQTTDeserialize_suback true (no_suback 2) 2 (suback_packet 9 [1; 0] ++ []) 6 =
      Ret (1, o') ∧ suback_view o' = [1; 0].
Proof.
  destruct (suback_roundtrip true (no_suback 2) (replicate 8 0) 8 9 [1; 0]) as (_ & H);
    [decided..|].
  destruct (H [] 6) as (o' & Ho & _ & _ & Hv). exists o'. split; [exact Ho|exact Hv].
Defined.

(** UNSUBSCRIBE, like SUBSCRIBE. *)
Theorem unsubscribe_roundtrip o buf buflen dup packetid topics :
  let pkt := unsubscribe_packet dup packetid (bytes_of topics) in
  Forall wf_string topics → 0 ≤ dup < 2 → is_u16 packetid →
  Z.of_nat (length (unsubscribe_payload packetid (bytes_of topics))) < 268435456 →
  buflen ≤ Z.of_nat (length buf) →
  (length topics ≤ length (unsub_topicFilters o))%nat →
  writes (MQTTSerialize_unsubscribe buf buflen dup packetid (length topics) topics)
    buf buflen pkt ∧
  ∀ rest maxcount len, ∃ o',
    MQTTDeserialize_unsubscribe o maxcount (pkt ++ rest) len = Ret (1, o') ∧
    unsub_dup o' = dup ∧ unsub_packetid o' = packetid ∧ unsub_count o' = length topics ∧
    unsub_view o' = bytes_of topics.
Proof.
  cbv zeta. intros Ht Hd Hid Hn Hl Ho.
  split; [apply writes_estimate; by apply MQTTSerialize_unsubscribe_ok|].
  intros rest maxcount len. assert (length (bytes_of topics) = length topics) as <-
    by apply length_map. apply MQTTDeserialize_unsubscribe_ok; try done.
  - unfold bytes_of. apply Forall_map. eapply Forall_impl; [exact Ht|]. by intros t (_ & ? & _).
  - unfold bytes_of. by rewrite length_map.
Qed.

Lemma unsubscribe_roundtrip_witness :
  ∃ o', MQTTDeserialize_unsubscribe (no_unsubscription 1) 1
      (unsubscribe_packet 0 9 [[97; 47; 98]] ++ []) 9 = Ret (1, o') ∧
    unsub_view o' = [[97; 47; 98]].
Proof.
  destruct (unsubscribe_roundtrip (no_unsubscription 1) (replicate 20 0) 20 0 9 [some_topic])
    as (_ & H); [decided..|].
  destruct (H [] 1 9) as (o' & Ho & _ & _ & _ & Hv). exists o'. split; [exact Ho|exact Hv].
Defined.

(** C23: CONNECT.  For options of either protocol version, with or without a will
    and a login, the serializer writes the protocol's packet or refuses the
    buffer, and the server's deserializer accepts the packet and recovers every
    option it carries but the version of the protocol: that is checked and not stored,
    the server's [MQTTVersion] stays what it was before. *)
Theorem connect_roundtrip char_signed o buf buflen :
  let pkt := connect_packet o in
  wf_options o → wf_login o → buflen ≤ Z.of_nat (length buf) →
  writes (MQTTSerialize_connect buf buflen o) buf buflen pkt ∧
  ∀ d P rest len, Z.of_nat (length pkt) ≤ len →
    ∃ d', MQTTDeserialize_connect char_signed d P (pkt ++ rest) len = Ret (1, d') ∧
    MQTTVersion d' = MQTTVersion d ∧
    cleansession d' = field 1 (cleansession o) ∧
    keepAliveInterval d' = keepAliveInterval o ∧
    MQTTString_bytes (clientID d') = MQTTString_bytes (clientID o) ∧
    willFlag d' = c_bool (bool_decide (willFlag o ≠ 0)) ∧
    (willFlag o ≠ 0 →
       MQTTString_bytes (will_topicName (will d')) = MQTTString_bytes (will_topicName (will o)) ∧
       MQTTString_bytes (will_message (will d')) = MQTTString_bytes (will_message (will o)) ∧
       will_qos (will d') = field 2 (will_qos (will o)) ∧
       will_retained (will d') = field 1 (will_retained (will o))) ∧
    (supplied (username o) = true →
       MQTTString_bytes (username d') = MQTTString_bytes (username o)) ∧
    (supplied (password o) = true →
       MQTTString_bytes (password d') = MQTTString_bytes (password o)).
Proof.
  cbv zeta. intros Ho Hlog Hl. split.
  - apply writes_estimate. by apply MQTTSerialize_connect_ok.
  - intros d P rest len Hlen. destruct (MQTTDeserialize_connect_ok char_signed d P o rest len) as (d' & E & H); [done..|].
    exists d'. split; [done|]. split; [by eapply MQTTDeserialize_connect_version|done].
Qed.

Lemma connect_roundtrip_witness :
  ∃ d', MQTTDeserialize_connect true MQTTPacket_connectData_initializer MQTTString_initializer
      (connect_packet some_options ++ []) 60 = Ret (1, d') ∧ keepAliveInterval d' = 60.
Proof.
  destruct (connect_roundtrip true some_options (replicate 60 0) 60) as (_ & H); [decided..|].
  destruct (H MQTTPacket_connectData_initializer MQTTString_initializer [] 60)
    as (d' & Hd & _ & _ & Hk & _); [decided|]. exists d'. split; [exact Hd|exact Hk].
Defined.

(** C37: topic filters.  On a well-formed filter and any topic name, both given by
    their levels, the character scan of [isTopicMatched] decides the matching by
    levels: [+] stands for one non-empty level and a final [#] for the rest. *)
Theorem isTopicMatched_correct fs ts rest :
  wf_filter fs → ts ≠ [] → Forall plain ts →
  isTopicMatched (join fs)
    (Build_MQTTString None (Z.of_nat (length (join ts))) (Some (join ts ++ rest)))
  = Ret (match_levels fs ts).
Proof. apply isTopicMatched_levels. Qed.

Lemma isTopicMatched_correct_witness :
  isTopicMatched [97; 47; 43; 47; 35] (Build_MQTTString None 7 (Some [97; 47; 98; 47; 99; 47; 100]))
  = Ret true.
Proof.
  exact (isTopicMatched_correct [[97]; [43]; [35]] [[97]; [98]; [99]; [100]] []
    ltac:(decided) ltac:(decided) ltac:(decided)).
Defined.

(** The size checks of the server's replies are too small.  A buffer that
    passes the check of [MQTTSerialize_connack], [_suback] or [_unsuback] but is
    shorter than the packet is written past its end. *)
Theorem server_replies_overrun buf packetid code sp codes :
  is_u16 packetid → is_byte code → Forall is_byte codes → (length codes < 126)%nat →
  ((2 ≤ length buf < 4)%nat →
     MQTTSerialize_connack buf (Z.of_nat (length buf)) code sp = Undef ∧
     MQTTSerialize_unsuback buf (Z.of_nat (length buf)) packetid = Undef) ∧
  ((2 + length codes ≤ length buf < 4 + length codes)%nat →
     MQTTSerialize_suback buf (Z.of_nat (length buf)) packetid (length codes) codes = Undef).
Proof.
  intros Hid Hc Hcs Hn. split; intros Hl.
  - split; [by apply MQTTSerialize_connack_overflow|by apply MQTTSerialize_unsuback_overflow].
  - by apply MQTTSerialize_suback_overflow.
Qed.

Lemma server_replies_overrun_witness :
  MQTTSerialize_connack [0; 0; 0] 3 0 0 = Undef.
Proof.
  destruct (server_replies_overrun [0; 0; 0] 7 0 0 [1]) as (H & _); [decided..|].
  destruct (H ltac:(cbn; lia)) as (Hc & _). exact Hc.
Defined.

(** The list deserializers overrun the caller's arrays.
    [MQTTDeserialize_suback], told the size of the array, stores one code more
    than fits, and [MQTTDeserialize_subscribe] never looks at the size. *)
Theorem list_deserializers_overrun char_signed sa so packetid codes dup es maxcount rest len :
  is_u16 packetid → 2 + Z.of_nat (length codes) < 268435456 →
  Z.of_nat (length (subscribe_payload packetid es)) < 268435456 →
  Forall (λ e, Z.of_nat (length e.1) < 65536) es →
  length (sub_requestedQoSs so) = length (sub_topicFilters so) →
  (length (suback_grantedQoSs sa) < length codes)%nat →
  (length (sub_topicFilters so) < length es)%nat →
  MQTTDeserialize_suback char_signed sa (Z.of_nat (length (suback_grantedQoSs sa)))
    (suback_packet packetid codes ++ rest) len = Undef ∧
  MQTTDeserialize_subscribe char_signed so maxcount
    (subscribe_packet dup packetid es ++ rest) len = Undef.
Proof.
  intros. split; [by apply MQTTDeserialize_suback_overflow|].
  by apply MQTTDeserialize_subscribe_overflow.
Qed.

Lemma list_deserializers_overrun_witness :
  MQTTDeserialize_suback true (no_suback 1) 1 (suback_packet 9 [0; 1] ++ []) 6 = Undef.
Proof.
  exact (proj1 (list_deserializers_overrun true (no_suback 1) (no_subscription 0) 9 [0; 1] 0
    [([97], 1)] 0 [] 6 ltac:(decided) ltac:(decided) ltac:(decided) ltac:(decided) eq_refl
    ltac:(decided) ltac:(decided))).
Defined.

(** Malformed packets are reported as success.  A PUBLISH too short for its
    topic and an acknowledgement too short for its identifier give the result 1
    with the identifier and the payload of the caller untouched. *)
Theorem malformed_packets_accepted o a dup qos retained type b body rest len :
  (length body < 2)%nat →
  (∃ d, MQTTDeserialize_publish o
      (packet (MQTTHeader_byte PUBLISH dup qos retained) [b] ++ rest) len = Ret (1, d) ∧
    pub_packetid d = pub_packetid o ∧ pub_payload d = pub_payload o ∧
    pub_payloadlen d = pub_payloadlen o) ∧
  (∃ d, MQTTDeserialize_ack a (packet (MQTTHeader_byte type dup qos 0) body ++ rest) len =
      Ret (1, d) ∧ ack_packetid d = ack_packetid a).
Proof.
  intros Hb. split.
  - rewrite MQTTDeserialize_publish_no_topic. by eexists.
  - rewrite MQTTDeserialize_ack_short by done. by eexists.
Qed.

Lemma malformed_packets_accepted_witness :
  ∃ d, MQTTDeserialize_ack no_ack (packet (MQTTHeader_byte PUBACK 0 0 0) [] ++ []) 2 = Ret (1, d).
Proof.
  destruct (malformed_packets_accepted no_publication no_ack 0 0 0 PUBACK 5 [] [] 2)
    as (_ & d & H & _); [decided|]. by exists d.
Defined.
