(* ===== verification/MqttClientProps.v ===== *)
(** * Properties of the MQTT client and its Linux platform

    What the client's operations do against a platform that keeps the contracts
    [Stream], [Passing] and [Steady], and the Linux platform that keeps them.  The
    instances run on [toy], a simulated kernel that meets the laws of all. *)
From S2P Require Import Prelude MqttPacket MqttPublish MqttSubscribe MqttConnect.
From S2P Require Import MqttTopic MqttClient MqttClientProofs MqttCommands MqttSafety MqttLinux.

(** ** A simulated kernel *)

(** A clock that ticks when it is read, bytes to come, bytes sent, and the
    payloads the application's handler has seen. *)
Record toy := Toy { toy_clock : Z; toy_in : list Z; toy_out : list Z; toy_log : list (list Z) }.

Definition EAGAIN : Z := 11.

#[export] Instance toy_kernel : Kernel toy := {
  gettimeofday k := (TV (toy_clock k / 1000000) (toy_clock k mod 1000000),
                     Toy (toy_clock k + 1) (toy_in k) (toy_out k) (toy_log k));
  setsockopt_rcvtimeo tv k := k;
  recv n k :=
    if decide (0 < n ≤ Z.of_nat (length (toy_in k)))
    then (n, take (Z.to_nat n) (map u8 (toy_in k)), 0,
          Toy (toy_clock k) (drop (Z.to_nat n) (toy_in k)) (toy_out k) (toy_log k))
    else (-1, [], EAGAIN, k);
  write bs k := (Z.of_nat (length bs),
                 Toy (toy_clock k) (toy_in k) (toy_out k ++ bs) (toy_log k));
}.

Definition toy_call (g : unit) (msg : PublishData) (k : toy) : toy :=
  Toy (toy_clock k) (toy_in k) (toy_out k)
    (take (Z.to_nat (pub_payloadlen msg)) (pub_payload msg) :: toy_log k).

#[export] Program Instance toy_kernel_stream : KernelStream toy := {
  clock := toy_clock;
  k_in k := map u8 (toy_in k);
  k_out := toy_out;
  lag := 1;
}.
Next Obligation. done. Qed.
Next Obligation. intros k. apply Forall_map, Forall_true. intros z. apply u8_range. Qed.
Next Obligation.
  intros k. eexists _, _. split; [reflexivity|]. unfold normal, micros.
  cbn [tv_sec tv_usec toy_clock toy_in toy_out].
  pose proof (Z.mod_pos_bound (toy_clock k) 1000000). pose proof (Z.div_mod (toy_clock k) 1000000).
  repeat split; lia.
Qed.
Next Obligation. done. Qed.
Next Obligation.
  intros n k Hn. cbv beta in Hn. rewrite length_map in Hn. cbn [recv toy_kernel]. rewrite decide_True by lia.
  eexists _, _. split; [reflexivity|]. cbn [toy_clock toy_in toy_out]. rewrite skipn_map.
  repeat split; lia.
Qed.
Next Obligation.
  intros bs k _. eexists. split; [reflexivity|]. cbn [toy_clock toy_in toy_out].
  repeat split; lia.
Qed.

#[export] Program Instance toy_kernel_passing : KernelPassing toy := { p_clock := toy_clock }.
Next Obligation.
  intros k tv k' [= <- <-]. unfold normal, micros. cbn [tv_sec tv_usec toy_clock].
  pose proof (Z.mod_pos_bound (toy_clock k) 1000000). pose proof (Z.div_mod (toy_clock k) 1000000).
  repeat split; lia.
Qed.
Next Obligation. done. Qed.
Next Obligation. by intros bs k rc k' [= <- <-]. Qed.
Next Obligation.
  intros n k rc bs e k' E. cbn [recv toy_kernel] in E.
  case_decide; injection E as <- <- <- <-; cbn [toy_clock]; lia.
Qed.

#[export] Program Instance toy_kernel_quiet : KernelQuiet toy.
Next Obligation.
  intros n k E. cbn in E. apply map_eq_nil in E. exists [], EAGAIN, k. cbn [recv toy_kernel].
  rewrite E, decide_False by (cbn; lia). cbn. by rewrite E.
Qed.

(** The platform on it. *)
#[export] Instance toy_platform : Platform toy := linux_platform unit toy_call.
Lemma toy_call_law (g : unit) msg k :
  let k' := toy_call g msg k in
  clock k ≤ clock k' ≤ clock k + lag ∧ k_in k' = k_in k ∧ k_out k' = k_out k.
Proof. cbn. repeat split; lia. Qed.
#[export] Instance toy_stream : Stream toy := linux_stream unit toy_call toy_call_law.
#[export] Instance toy_passing : Passing toy :=
  linux_passing unit toy_call (λ g msg k, Z.le_refl (toy_clock k)).
#[export] Instance toy_steady : Steady toy :=
  linux_steady unit toy_call toy_call_law (λ g msg k, Z.le_refl (toy_clock k)).

(** ** Sample data of the instances *)

Definition topic_ab : list Z := [97; 47; 98].
Definition sample_handler : handler (W := toy) := tt.
Definition sample_timer : timer (W := toy) := TV 6 0.
Definition sample_client (connected : Z) : Client (W := toy) :=
  Build_Client (W := toy) 65535 30000 100 100 (replicate 100 0) (replicate 100 0) 0 0 connected
    (MH (Some topic_ab) (Some tt) :: replicate 4 (MH None None)) None (TV 0 0).
Definition sample_world (bs : list Z) : toy := Toy 5000000 bs [] [].
Definition sample_options : MQTTPacket_connectData := MQTTPacket_connectData_initializer.
Definition sample_message (qos : Z) : MQTTMessage := Build_MQTTMessage qos 0 0 [1; 2] 2.
Definition sample_junk : PublishData := Build_PublishData 0 0 0 0 MQTTString_initializer [] 0.

(** Bounds on a timer's slack, by computation. *)
Ltac granted := apply Nat.ltb_lt; vm_compute; reflexivity.
Ltac sizes := unfold wf_buf, MAX_PACKET_ID; cbn; lia.

(** ** Theorems *)


Lemma toy_span ms : span (W := toy) ms = Z.to_nat ((ms / 1000 + 2) * 1000000).
Proof. done. Qed.

(** A budget for timers of up to thirty seconds. *)
Definition budget : nat := S (Z.to_nat 32000000).
Lemma within_budget ms : 0 ≤ ms ≤ 30000 → (span (W := toy) ms < budget)%nat.
Proof.
  intros Hms. rewrite toy_span. unfold budget.
  assert (ms / 1000 ≤ 30) by (apply Z.div_le_upper_bound; lia). lia.
Qed.


(** Packet identifiers.  The identifiers handed out run through 1 to 65535
    and start over; 0 is never used. *)
Theorem getNextPacketId_correct {W : Type} `{Platform W} (c : Client) (w : W) :
  0 ≤ next_packetid c ≤ MAX_PACKET_ID →
  let id := next_packetid c mod MAX_PACKET_ID + 1 in
  getNextPacketId (c, w) = Ret (id, (set_next_packetid id c, w)) ∧ 1 ≤ id ≤ MAX_PACKET_ID.
Proof.
  intros Hn id. rewrite getNextPacketId_ok by done. unfold id, MAX_PACKET_ID in *.
  replace (next_id (next_packetid c)) with (next_packetid c mod 65535 + 1).
  - split; [done|]. pose proof (Z.mod_pos_bound (next_packetid c) 65535). lia.
  - unfold next_id, MAX_PACKET_ID. case_decide as E; [by rewrite E|].
    by rewrite Z.mod_small by lia.
Qed.

Lemma getNextPacketId_correct_witness :
  getNextPacketId (sample_client 1, sample_world []) =
    Ret (1, (set_next_packetid 1 (sample_client 1), sample_world [])).
Proof.
  exact (proj1 (getNextPacketId_correct (sample_client 1) (sample_world []) ltac:(cbn; unfold MAX_PACKET_ID; lia))).
Defined.

(** C38: Reading a packet.  The next packet of the stream ends up in the read
    buffer and its type is returned; one that is longer than the buffer is
    written past its end, for the size of the buffer is never looked at. *)
Theorem readPacket_correct {W : Type} `{Stream W} h body rest t (c : Client) (w : W) :
  incoming w = packet h body ++ rest → Z.of_nat (length body) < 268435456 →
  (5 ≤ length (readbuf c))%nat →
  if decide (length (packet h body) ≤ length (readbuf c))%nat
  then ∃ w', readPacket t (c, w) = Ret (hdr_type h, (received (packet h body) c, w')) ∧
         incoming w' = rest ∧ outgoing w' = outgoing w
  else readPacket t (c, w) = Undef.
Proof.
  intros Hi Hn H5. case_decide.
  - destruct (readPacket_ok h body rest t c w) as (w' & E & Hm & Hi'); [done..|].
    exists w'. split; [exact E|]. split; [done|]. destruct Hm as (_ & -> & _). apply app_nil_r.
  - apply (readPacket_too_long h body rest); done || lia.
Qed.

Lemma readPacket_correct_witness :
  ∃ w', readPacket sample_timer (sample_client 1, sample_world [208; 0; 7]) =
    Ret (PINGRESP, (received [208; 0] (sample_client 1), w')).
Proof.
  pose proof (readPacket_correct 208 [] [7] sample_timer (sample_client 1) (sample_world [208; 0; 7])
    eq_refl ltac:(decided) ltac:(decided)) as Hw.
  revert Hw. rewrite decide_True by decided. intros (w' & Hr & _). exists w'. exact Hr.
Defined.

(** Connecting.  The CONNECT goes out, the CONNACK is consumed, its return
    code is the result, and the client is connected if and only if it is 0. *)
Theorem MQTTConnect_correct {W : Type} `{Stream W} fuel junk o flags code rest (c : Client) (w : W) :
  wf_options o → is_byte code →
  Z.of_nat (length (connect_packet o)) < buf_size c → wf_buf c → (4 ≤ length (readbuf c))%nat →
  (2 ≤ fuel)%nat → (1 < grant 1000)%nat → (5 < grant (command_timeout_ms c))%nat →
  isconnected c = 0 → incoming w = connack_packet flags code ++ rest →
  ∃ c' w' p, MQTTConnect fuel junk (Some o) (c, w) = Ret (code, (c', w')) ∧
    (isconnected c' = 1 ↔ code = 0) ∧
    c_keepAliveInterval c' = keepAliveInterval o ∧
    outgoing w' = outgoing w ++ connect_packet o ++ p ∧ maybe_ping p ∧ incoming w' = rest.
Proof.
  intros. destruct (MQTTConnect_ok fuel junk o flags code rest c w)
    as (c' & w' & p & E & Hc & Hr); [done..|].
  exists c', w', p. split; [done|]. split; [|done]. rewrite Hc. case_decide; lia.
Qed.

Lemma MQTTConnect_correct_witness :
  ∃ s', MQTTConnect 2 sample_junk (Some sample_options)
    (sample_client 0, sample_world [32; 2; 0; 0]) = Ret (0, s').
Proof.
  destruct (MQTTConnect_correct 2 sample_junk sample_options 0 0 [] (sample_client 0)
    (sample_world [32; 2; 0; 0])) as (c' & w' & p & E & _);
    [decided|decided|decided|cbn; unfold wf_buf; cbn; lia|cbn; lia|lia|apply Nat.ltb_lt; vm_compute; reflexivity|
     apply Nat.ltb_lt; vm_compute; reflexivity|reflexivity|reflexivity|].
  by exists (c', w').
Defined.

(** C24: publishing.  At each quality of service the PUBLISH goes out under the
    identifier the message then carries, a PUBREC is answered with a PUBREL for
    its identifier, and the command succeeds when the last reply has come. *)
Theorem MQTTPublish_correct {W : Type} `{Stream W} fuel junk topic (m : MQTTMessage)
    d1 q1 id1 d2 q2 id2 rest (c : Client) (w : W) :
  let qos := msg_qos m in
  let id := publish_id m c in
  let pkt := publish_packet 0 qos (msg_retained m) id topic (msg_payload m) in
  (2 ≤ fuel)%nat → (1 < grant 1000)%nat →
  Forall is_byte topic → Z.of_nat (length topic) < 65536 → Forall is_byte (msg_payload m) →
  msg_payloadlen m = Z.of_nat (length (msg_payload m)) → is_u16 (msg_id m) →
  Z.of_nat (length (publish_body qos id topic (msg_payload m))) < 268435456 →
  0 ≤ next_packetid c ≤ MAX_PACKET_ID →
  Z.of_nat (length pkt) < buf_size c → wf_buf c → (4 ≤ length (readbuf c))%nat →
  (26 < grant (command_timeout_ms c))%nat → isconnected c ≠ 0 →
  0 ≤ d1 < 2 → is_u16 id1 → 0 ≤ d2 < 2 → is_u16 id2 →
  incoming w = publish_replies qos d1 q1 id1 d2 q2 id2 ++ rest →
  ∃ c' w' p1 p2, MQTTPublish fuel junk topic m (c, w) =
      Ret ((SUCCESS, set_msg_id id m), (c', w')) ∧
    next_packetid c' = (if decide (qos = QOS1 ∨ qos = QOS2) then id else next_packetid c) ∧
    isconnected c' = isconnected c ∧ messageHandlers c' = messageHandlers c ∧
    outgoing w' = outgoing w ++ pkt ++ publish_answers qos id1 p1 p2 ∧
    maybe_ping p1 ∧ maybe_ping p2 ∧ incoming w' = rest.
Proof. intros qos id pkt Hf Hg. by apply MQTTPublish_ok. Qed.

Lemma MQTTPublish_correct_witness :
  ∃ s', MQTTPublish 2 sample_junk topic_ab (sample_message 2)
    (sample_client 1, sample_world [80; 2; 0; 1; 112; 2; 0; 1]) =
    Ret ((SUCCESS, set_msg_id 1 (sample_message 2)), s').
Proof.
  destruct (MQTTPublish_correct 2 sample_junk topic_ab (sample_message 2) 0 0 1 0 0 1 []
    (sample_client 1) (sample_world [80; 2; 0; 1; 112; 2; 0; 1]))
    as (c' & w' & p1 & p2 & E & _);
    [lia|granted|decided|decided|decided|reflexivity|decided|decided|sizes|decided|sizes|sizes
    |granted|cbn; lia|lia|decided|lia|decided|reflexivity|].
  by exists (c', w').
Defined.

(** Subscribing.  The SUBSCRIBE goes out under a fresh identifier; unless
    the broker refuses, the filter and its handler enter the first free slot of
    the table; the result is 128 for a refusal. *)
Theorem MQTTSubscribe_correct {W : Type} `{Stream W} fuel junk char_signed f qos g packetid code
    rest (c : Client) (w : W) :
  let id := next_id (next_packetid c) in
  let pkt := subscribe_packet 0 id [(f, qos)] in
  Forall is_byte f → Z.of_nat (length f) < 65536 → 0 ≤ next_packetid c ≤ MAX_PACKET_ID →
  Z.of_nat (length pkt) < buf_size c → wf_buf c → (5 ≤ length (readbuf c))%nat →
  (2 ≤ fuel)%nat → (1 < grant 1000)%nat → (4 < grant (command_timeout_ms c))%nat →
  isconnected c ≠ 0 → is_u16 packetid → incoming w = suback_packet packetid [code] ++ rest →
  ∃ c' w' p, MQTTSubscribe fuel junk char_signed f qos g (c, w) =
      Ret ((subscribed char_signed f g code (messageHandlers c)).1, (c', w')) ∧
    messageHandlers c' = (subscribed char_signed f g code (messageHandlers c)).2 ∧
    next_packetid c' = id ∧
    outgoing w' = outgoing w ++ pkt ++ p ∧ maybe_ping p ∧ incoming w' = rest.
Proof. by apply MQTTSubscribe_ok. Qed.

Lemma MQTTSubscribe_correct_witness :
  ∃ s', MQTTSubscribe 2 sample_junk true [35] 1 (Some sample_handler)
    (sample_client 1, sample_world [144; 3; 0; 1; 1]) = Ret (0, s').
Proof.
  destruct (MQTTSubscribe_correct 2 sample_junk true [35] 1 (Some sample_handler) 1 1 [] (sample_client 1)
    (sample_world [144; 3; 0; 1; 1])) as (c' & w' & p & E & _);
    [decided|decided|sizes|decided|sizes|sizes|lia|granted|granted|cbn; lia|decided|reflexivity|].
  by exists (c', w').
Defined.

(** Unsubscribing.  The UNSUBSCRIBE goes out under a fresh identifier and
    the command succeeds at the UNSUBACK; the handler table is left as it is. *)
Theorem MQTTUnsubscribe_correct {W : Type} `{Stream W} fuel junk f dup qos packetid rest
    (c : Client) (w : W) :
  let id := next_id (next_packetid c) in
  let pkt := unsubscribe_packet 0 id [f] in
  (2 ≤ fuel)%nat → (1 < grant 1000)%nat →
  Forall is_byte f → Z.of_nat (length f) < 65536 → 0 ≤ next_packetid c ≤ MAX_PACKET_ID →
  Z.of_nat (length pkt) < buf_size c → wf_buf c → (4 ≤ length (readbuf c))%nat →
  (4 < grant (command_timeout_ms c))%nat → isconnected c ≠ 0 →
  0 ≤ dup < 2 → is_u16 packetid →
  incoming w = ack_packet UNSUBACK dup qos packetid ++ rest →
  ∃ c' w' p, MQTTUnsubscribe fuel junk f (c, w) = Ret (0, (c', w')) ∧
    next_packetid c' = id ∧ messageHandlers c' = messageHandlers c ∧
    outgoing w' = outgoing w ++ pkt ++ p ∧ maybe_ping p ∧ incoming w' = rest.
Proof. intros id pkt Hf Hg. by apply MQTTUnsubscribe_ok. Qed.

Lemma MQTTUnsubscribe_correct_witness :
  ∃ s', MQTTUnsubscribe 2 sample_junk topic_ab
    (sample_client 1, sample_world [176; 2; 0; 1]) = Ret (0, s').
Proof.
  destruct (MQTTUnsubscribe_correct 2 sample_junk topic_ab 0 0 1 [] (sample_client 1)
    (sample_world [176; 2; 0; 1])) as (c' & w' & p & E & _);
    [lia|granted|decided|decided|sizes|decided|sizes|sizes|granted|cbn; lia|lia|decided
    |reflexivity|].
  by exists (c', w').
Defined.

(** C25: delivery.  A PUBLISH that arrives is passed, with its topic, payload and
    flags, to every handler whose filter covers the topic and to the default
    handler when there is none, each once and in table order, and then
    acknowledged as its quality of service asks: PUBACK, PUBREC or nothing. *)
Theorem cycle_delivers {W : Type} `{Stream W} fuel junk dup qos retained packetid topic payload
    rest t (c : Client) (w : W) :
  let pkt := publish_packet dup qos retained packetid topic payload in
  let tail := drop (length pkt) (readbuf c) in
  let msg := published junk dup qos retained packetid topic payload tail in
  0 ≤ dup < 2 → 0 ≤ qos < 3 → 0 ≤ retained < 2 → is_u16 packetid →
  Z.of_nat (length topic) < 65536 →
  Z.of_nat (length (publish_body qos packetid topic payload)) < 268435456 →
  incoming w = pkt ++ rest → (length pkt ≤ length (readbuf c))%nat →
  wf_handlers (messageHandlers c) → (2 ≤ fuel)%nat → wf_buf c → (1 < grant 1000)%nat →
  (11 + length (recipients topic c) < slack t w)%nat →
  ∃ c' w1 w' p, cycle fuel junk t (c, w) = Ret (PUBLISH, (c', w')) ∧
    same_session (received pkt c) c' ∧ moves 10 pkt [] w w1 ∧
    moves 10 [] (answer qos packetid ++ p) (call_all msg (recipients topic c) w1) w' ∧
    maybe_ping p ∧ incoming w' = rest.
Proof. by apply cycle_publish_ok. Qed.

Lemma cycle_delivers_witness :
  ∃ s', cycle 2 sample_junk sample_timer
    (sample_client 1, sample_world [50; 8; 0; 3; 97; 47; 98; 0; 7; 9]) = Ret (PUBLISH, s').
Proof.
  destruct (cycle_delivers 2 sample_junk 0 1 0 7 topic_ab [9] [] sample_timer (sample_client 1)
    (sample_world [50; 8; 0; 3; 97; 47; 98; 0; 7; 9])) as (c' & w1 & w' & p & E & _);
    [lia|lia|lia|decided|decided|decided|reflexivity|decided|decided|lia|sizes|granted|granted|].
  by exists (c', w').
Defined.

(** Timers of the Linux platform.  A timer of [ms] milliseconds is expired
    exactly when [1000 * ms] microseconds have passed since it was set, and
    otherwise tells the whole milliseconds left. *)
Theorem linux_timer_correct {K : Type} `{KernelStream K} ms (k : K) :
  0 ≤ ms →
  ∃ t k1, linux_countdown_ms ms k = Ret (t, k1) ∧ ∀ k2,
    let left := clock k + ms * 1000 - clock k2 in
    (∃ k3, linux_expired t k2 = Ret (bool_decide (left ≤ 0), k3)) ∧
    (left < 2147483648000 → ∃ k3, linux_left_ms t k2 = Ret (Z.max 0 (left / 1000), k3)).
Proof. apply linux_timer_ok. Qed.

Lemma linux_timer_correct_witness :
  ∃ t k1, linux_countdown_ms 1500 (sample_world []) = Ret (t, k1) ∧
    ∃ k3, linux_expired t (Toy 6500000 [] [] []) = Ret (true, k3).
Proof.
  destruct (linux_timer_correct 1500 (sample_world []) ltac:(lia)) as (t & k1 & E & Hx).
  exists t, k1. split; [exact E|]. destruct (Hx (Toy 6500000 [] [] [])) as [(k3 & E3) _].
  exists k3. exact E3.
Defined.

(** Reading and writing on the Linux platform.  [linux_read] delivers the
    next bytes of the stream and [linux_write] appends to it, each within one
    [lag] of the clock: what the client's theorems ask of a platform. *)
Theorem linux_transfer_correct {K : Type} `{KernelStream K} n ms bs len (k : K) :
  0 ≤ n ≤ Z.of_nat (length (k_in k)) → n ≤ INT_MAX → 0 ≤ ms ≤ 2147483 →
  0 < len ≤ Z.of_nat (length bs) →
  (∃ k', linux_read (S (Z.to_nat n)) n ms k = Ret ((n, take (Z.to_nat n) (k_in k)), k') ∧
     k_in k' = drop (Z.to_nat n) (k_in k) ∧ k_out k' = k_out k ∧ clock k' ≤ clock k + lag) ∧
  (∃ k', linux_write bs len ms k = Ret (len, k') ∧
     k_out k' = k_out k ++ take (Z.to_nat len) bs ∧ k_in k' = k_in k ∧ clock k' ≤ clock k + lag).
Proof.
  intros Hn Hmax Hms Hlen. split.
  - destruct (linux_read_ok (S (Z.to_nat n)) n ms k) as (k' & E & Hc & Hi & Ho); [lia|done..|].
    exists k'. by repeat split; [..|apply Hc].
  - destruct (linux_write_ok bs len ms k) as (k' & E & Hc & Hi & Ho); [done..|].
    exists k'. by repeat split; [..|apply Hc].
Qed.

Lemma linux_transfer_correct_witness :
  ∃ k', linux_read 3 2 100 (sample_world [1; 2; 3]) = Ret ((2, [1; 2]), k').
Proof.
  destruct (linux_transfer_correct 2 100 [9] 1 (sample_world [1; 2; 3])) as ((k' & E & _) & _);
    [cbn; lia|ints; lia|lia|cbn; lia|]. by exists k'.
Defined.

(** A closed connection.  When the peer has closed the stream [recv] returns
    0 and [linux_read] asks again: no number of rounds is enough. *)
Theorem linux_read_never_returns {K : Type} `{Kernel K} fuel n ms (k : K) :
  (∀ n k, ∃ e k', recv n k = (0, [], e, k')) → 0 < n →
  linux_read fuel n ms k = NoFuel.
Proof. apply linux_read_closed. Qed.

(** A kernel whose peer has gone. *)
Definition closed_kernel : Kernel unit := {|
  gettimeofday k := (TV 0 0, k);
  setsockopt_rcvtimeo tv k := k;
  recv n k := (0, [], 0, k);
  write bs k := (Z.of_nat (length bs), k);
|}.

Lemma linux_read_never_returns_witness :
  linux_read (H := closed_kernel) 1000 1 100 tt = NoFuel.
Proof.
  apply (linux_read_never_returns (H := closed_kernel)); [|lia]. intros n k. by exists 0, k.
Defined.
