(* ===== verification/OvpnProps.v ===== *)
(** * Properties of the OpenVPN core

    Replay protection, the reliability layer of the control channel, buffers and
    hash tables.  A theorem is followed by an instance of it on concrete data. *)
From S2P Require Import Prelude OvpnBuffer OvpnPacketId OvpnReliable OvpnList.

(** ** Sample data of the instances *)

(** A sender and a receiver with windows of four entries of 64 bytes. *)
Definition window4 : reliable :=
  Rel 0 0 16 false (replicate 4 (RE false 0 0 0 0 (mkbuf (replicate 16 0) [] (replicate 48 0)))).
Definition start : system := fresh window4 (KS window4 window4 []).
Definition sample_sid : list Z := [1; 2; 3; 4; 5; 6; 7; 8].
Definition stored_file : packet_id_persist := PP (Some [102]) 3 100 10 100 10.

(** A table of four buckets with one entry. *)
Definition table0 : hash void_ptr Z := Hash 4 0 3 7 (replicate 4 []).

Ltac decided_wf := unfold wf_buf, is_u32, BUF_SIZE_MAX; cbn; repeat split; lia.

(** ** Theorems *)

(** C12: replay protection.  From a fresh receiver with a window, whatever
    identifiers arrive, in whatever order, at whatever times, none is accepted
    twice, identifier 0 is never accepted, and what is accepted was received, in
    the order of reception.  Times are those of a running clock: 0 and 1 are marks of the
    code for "not received" and "expired". *)
Theorem replay_protection seq_bt time_bt xs :
  0 < seq_bt ≤ MAX_SEQ_BACKTRACK → 0 ≤ time_bt ≤ MAX_TIME_BACKTRACK →
  Forall (λ '(now, x), 1 < now ∧ is_u32 (pin_id x)) xs →
  ∃ p acc p', packet_id_init false seq_bt time_bt = Ret p ∧
    run (pid_rec p) xs = Ret (acc, p') ∧ NoDup acc ∧
    Forall (λ x, 0 < pin_id x) acc ∧ acc `sublist_of` map snd xs.
Proof.
  intros Hs Ht Hxs. destruct (packet_id_init_ok seq_bt time_bt Hs Ht) as (p & E & Hwf & _).
  destruct (run_ok xs (pid_rec p) Hwf Hxs) as (acc & p' & Er & _ & Hnd & Hacc & Hsub).
  exists p, acc, p'. repeat split; try done. apply Forall_forall. intros x Hx. by apply Hacc.
Qed.

Lemma replay_protection_witness :
  ∃ p acc p', packet_id_init false 64 15 = Ret p ∧
    run (pid_rec p) [(5, PN 2 9); (5, PN 1 9); (6, PN 2 9)] = Ret (acc, p') ∧ NoDup acc.
Proof.
  destruct (replay_protection 64 15 [(5, PN 2 9); (5, PN 1 9); (6, PN 2 9)])
    as (p & acc & p' & E1 & E2 & Hn & _);
    [unfold MAX_SEQ_BACKTRACK; lia|unfold MAX_TIME_BACKTRACK; lia| |by exists p, acc, p'].
  repeat constructor; unfold is_u32; cbn; lia.
Defined.

(** No false alarm.  What a fresh sender sends is accepted whole by a fresh
    receiver when it arrives in order, in the short and in the long form of
    identifiers, for as many packets as there are identifiers. *)
Theorem in_order_accepted long_form seq_bt time_bt sent_at received_at :
  0 < seq_bt ≤ MAX_SEQ_BACKTRACK → 0 ≤ time_bt ≤ MAX_TIME_BACKTRACK →
  Forall (λ t, 0 < t) sent_at → Forall (λ t, 1 < t) received_at →
  length received_at = length sent_at → Z.of_nat (length sent_at) < 4294967296 →
  ∃ p xs snd' rcv', packet_id_init false seq_bt time_bt = Ret p ∧
    alloc_run long_form (pid_send p) sent_at = Ret (xs, snd') ∧
    run (pid_rec p) (zip received_at (map (on_wire long_form) xs)) =
      Ret (map (on_wire long_form) xs, rcv').
Proof.
  intros Hs Ht Hsent Hrecv Hlen Hmax.
  destruct (packet_id_init_ok seq_bt time_bt Hs Ht) as (p & E & Hwf & Et & Ei & Esnd).
  destruct (alloc_run_ok long_form sent_at (PS 0 0)) as (xs & snd' & Ea & Hxs & Hids & Hasc);
    [unfold is_u32; cbn; lia|done|done|cbn; lia|].
  destruct (run_in_order received_at (map (on_wire long_form) xs) (pid_rec p)) as (rcv' & Er & _);
    [by rewrite length_map, Hxs|done|done|by apply Forall_map| |].
  - rewrite Et, Ei. by destruct long_form.
  - exists p, xs, snd', rcv'. rewrite Esnd. done.
Qed.

Lemma in_order_accepted_witness :
  ∃ p xs snd' rcv', packet_id_init false 64 15 = Ret p ∧
    alloc_run true (pid_send p) [7; 8] = Ret (xs, snd') ∧
    run (pid_rec p) (zip [9; 9] (map (on_wire true) xs)) = Ret (map (on_wire true) xs, rcv').
Proof.
  apply (in_order_accepted true 64 15 [7; 8] [9; 9]); try done.
  - repeat constructor.
  - repeat constructor.
Defined.

(** Identifiers on the wire.  Written at the front of a packet in the short
    or the long form, an identifier is read back from the front, and what follows
    it is what was there. *)
Theorem packet_id_wire_roundtrip long_form x pre c post :
  is_u32 (pin_id x) → is_u32 (pin_time x) →
  packet_id_size long_form ≤ Z.of_nat (length pre) →
  ∃ b b', packet_id_write x long_form true (mkbuf pre c post) = Ret (true, b) ∧
    packet_id_read long_form b = Ret ((true, on_wire long_form x), b') ∧
    content b' = c ∧ len b = len b' + packet_id_size long_form.
Proof.
  intros Hi Ht Hr. rewrite packet_id_write_front by done. eexists _, _. split; [done|].
  rewrite packet_id_read_front by done. split; [done|]. split; [apply content_mk|].
  cbn [mkbuf len]. unfold wire_bytes, packet_id_size. rewrite !length_app.
  change (length (be32 (pin_id x))) with 4%nat.
  destruct long_form; [change (length (be32 (pin_time x))) with 4%nat|cbn [length]]; lia.
Qed.

Lemma packet_id_wire_roundtrip_witness :
  ∃ b b', packet_id_write (PN 7 9) true true (mkbuf (replicate 8 0) [5] []) = Ret (true, b) ∧
    packet_id_read true b = Ret ((true, PN 7 9), b').
Proof.
  destruct (packet_id_wire_roundtrip true (PN 7 9) (replicate 8 0) [5] [])
    as (b & b' & H1 & H2 & _); [decided_wf|decided_wf|by cbn|]. by exists b, b'.
Defined.

(** A persisted window forgets.  After an identifier has been loaded from the
    file its replay is refused, but once the next packet has been accepted the
    same replay is accepted. *)
Theorem persisted_window_replay pp seq_bt time_bt now :
  packet_id_persist_enabled pp = true → per_time pp ≠ 0 → 0 < per_id pp < 4294967295 →
  2 ≤ seq_bt ≤ MAX_SEQ_BACKTRACK → 0 ≤ time_bt ≤ MAX_TIME_BACKTRACK → 1 < now →
  ∃ pid p1 p2 p3, packet_id_init false seq_bt time_bt = Ret pid ∧
    let p := pid_rec (packet_id_persist_load_obj pp pid) in
    packet_id_test p (persisted pp) = Ret (false, p) ∧
    packet_id_test p (after_persisted pp) = Ret (true, p1) ∧
    packet_id_add now p1 (after_persisted pp) = Ret p2 ∧
    packet_id_test p2 (persisted pp) = Ret (true, p3).
Proof. apply packet_id_persist_replay. Qed.

Lemma persisted_window_replay_witness :
  ∃ pid p1 p2 p3, packet_id_init false 64 15 = Ret pid ∧
    packet_id_test (pid_rec (packet_id_persist_load_obj stored_file pid)) (PN 11 100) = Ret (true, p1) ∧
    packet_id_add 200 p1 (PN 11 100) = Ret p2 ∧ packet_id_test p2 (PN 10 100) = Ret (true, p3).
Proof.
  destruct (persisted_window_replay stored_file 64 15 200) as (pid & p1 & p2 & p3 & H1 & _ & H2 & H3 & H4);
    [reflexivity|done|cbn; lia|unfold MAX_SEQ_BACKTRACK; lia|unfold MAX_TIME_BACKTRACK; lia|lia|].
  exists pid, p1, p2, p3. split; [exact H1|]. split; [exact H2|]. split; [exact H3|exact H4].
Defined.

(** The acknowledgement record.  [reliable_ack_write] puts the first [max]
    identifiers of the list, with the session identifier if there are any, at the
    front or at the end of a packet and keeps the rest; [reliable_ack_read] reads
    them back and accepts them if and only if there are none or the session is its
    own. *)
Theorem ack_record_roundtrip ack sid mine max (prepend : bool) pre c post :
  let k := ack_count ack max in
  let r := ack_record (take k ack) sid in
  Forall is_u32 ack → (length ack ≤ 8)%nat → 0 ≤ max → Forall is_byte sid → length sid = 8%nat →
  session_id_defined sid = true →
  Z.of_nat (length pre + length c + length post) < BUF_SIZE_MAX →
  (length r ≤ length (if prepend then pre else post))%nat →
  (∃ b, reliable_ack_write ack sid max prepend (mkbuf pre c post) = Ret ((true, drop k ack), b) ∧
     content b = if prepend then r ++ c else c ++ r) ∧
  ∃ b', reliable_ack_read [] mine (mkbuf pre (r ++ c) post) =
    Ret ((bool_decide (take k ack = [] ∨ sid = mine), take k ack), b') ∧ content b' = c.
Proof.
  intros k r Hu Hl Hm Hsb Hs8 Hsd Hsz Hroom. split.
  - destruct prepend.
    + rewrite reliable_ack_write_front by done. eexists. by rewrite content_mk.
    + rewrite reliable_ack_write_append by done. eexists. by rewrite content_mk.
  - unfold r. rewrite reliable_ack_read_mk; [eexists; split; [done|apply content_mk]|..]; try done.
    + by apply Forall_take.
    + rewrite length_take. lia.
Qed.

Lemma ack_record_roundtrip_witness :
  ∃ b', reliable_ack_read [] sample_sid
      (mkbuf [] (ack_record [3; 4] sample_sid ++ [9]) (replicate 20 0)) =
    Ret ((true, [3; 4]), b').
Proof.
  destruct (ack_record_roundtrip [3; 4; 5] sample_sid sample_sid 2 false [] [9] (replicate 20 0))
    as (_ & b & H & _).
  - repeat constructor; unfold is_u32; lia.
  - cbn; lia.
  - lia.
  - decided.
  - reflexivity.
  - reflexivity.
  - unfold BUF_SIZE_MAX. cbn. lia.
  - apply Nat.leb_le. reflexivity.
  - exists b. exact H.
Defined.

(** C13: reliable delivery.  Whatever the network loses, repeats, delays or
    reorders, whatever acknowledgements say, and however sending, timeouts and
    delivery interleave, the payloads delivered are a prefix of the payloads
    submitted, in every run that submits fewer than 2^31 - 8 payloads ([short]).
    Packets carry their number modulo 2^32 and the network keeps every packet for
    ever, so that without this bound the statement is false: a packet delayed past
    2^31 others is taken for a new one. *)
Theorem reliable_delivery bs off n hold bs' off' n' hold' other acks snd rcv s :
  0 ≤ bs < BUF_SIZE_MAX → 4 ≤ off ≤ bs → 0 < n ≤ RELIABLE_CAPACITY →
  0 ≤ bs' < BUF_SIZE_MAX → 4 ≤ off' ≤ bs' → 0 < n' ≤ RELIABLE_CAPACITY →
  reliable_init bs off n hold = Ret snd → reliable_init bs' off' n' hold' = Ret rcv →
  rtc step (fresh snd (KS other rcv acks)) s → short s →
  delivered s `prefix_of` submitted s.
Proof.
  intros H1 H2 H3 H4 H5 H6 Es Er Hrtc Hsh.
  destruct (fresh_inv bs off n hold bs' off' n' hold') as (snd0 & rcv0 & Es0 & Er0 & Hinv);
    [done..|]. rewrite Es in Es0. rewrite Er in Er0. injection Es0 as <-. injection Er0 as <-.
  by destruct (steps_inv _ _ Hrtc Hsh (Hinv other acks)) as (_ & _ & _ & _ & Hpre).
Qed.

(** The network steps of one packet from sender to receiver. *)
Lemma sample_run :
  ∃ s, rtc step start s ∧ short s ∧ submitted s = [[42]] ∧ delivered s = [[42]].
Proof.
  eexists. split; [|split; [|split]].
  - eapply rtc_l; [eapply (step_submit _ [42]); [decided|vm_compute; reflexivity]|].
    eapply rtc_l; [eapply (step_send _ 5); [vm_compute; reflexivity|vm_compute; reflexivity]|].
    eapply rtc_l.
    { eapply (step_receive _ [0; 0; 0; 0; 42] [] sample_sid sample_sid P_CONTROL_V1
        (mkbuf [] [0; 0; 0; 0; 0; 42] [])).
      - vm_compute. left.
      - repeat split; repeat constructor; cbn; lia.
      - done.
      - decided_wf.
      - reflexivity.
      - vm_compute. reflexivity. }
    eapply rtc_l; [eapply step_deliver; vm_compute; reflexivity|]. apply rtc_refl.
  - unfold short. cbn. lia.
  - reflexivity.
  - reflexivity.
Defined.

Lemma reliable_delivery_witness :
  ∃ s, submitted s = [[42]] ∧ delivered s = [[42]] ∧ delivered s `prefix_of` submitted s.
Proof.
  destruct sample_run as (s & Hr & Hs & Esub & Edel). exists s. split; [exact Esub|].
  split; [exact Edel|].
  apply (reliable_delivery 64 16 4 false 64 16 4 false window4 [] window4 window4 s);
    [unfold BUF_SIZE_MAX; lia|lia|unfold RELIABLE_CAPACITY; lia|unfold BUF_SIZE_MAX; lia|lia
    |unfold RELIABLE_CAPACITY; lia|reflexivity|reflexivity|exact Hr|exact Hs].
Defined.

(** C35: no deadlock.  In every state that a run with fewer than 2^31 - 8 payloads leads to,
    when a packet with the payload that is next in order reaches the receiver, it is
    taken, or known already, and that payload is delivered: the receive window always
    has a place for it, however full it is, provided its buffers are large enough for
    the payload and the acknowledgements with it, if any, are for this session. *)
Theorem reliable_progress bs off n hold bs' off' n' hold' other acks0 snd rcv s p acks asid sid op b :
  0 ≤ bs < BUF_SIZE_MAX → 4 ≤ off ≤ bs → 0 < n ≤ RELIABLE_CAPACITY →
  0 ≤ bs' < BUF_SIZE_MAX → 4 ≤ off' ≤ bs' → 0 < n' ≤ RELIABLE_CAPACITY →
  reliable_init bs off n hold = Ret snd → reliable_init bs' off' n' hold' = Ret rcv →
  rtc step (fresh snd (KS other rcv acks0)) s → short s →
  let r := rec_reliable (receiver s) in
  let next := length (delivered s) in
  submitted s !! next = Some p →
  (∀ i e, entries r !! i = Some e → Z.of_nat (length p) ≤ room (r_offset r) (e_buf e)) →
  wf_acks acks asid → op ≠ P_ACK_V1 → acks = [] ∨ asid = sid →
  wf_buf b → content b = ack_record acks asid ++ be32 (Z.of_nat next) ++ p →
  ∃ ks b' r2, incoming sid op (receiver s) b = Ret (Some ks, b') ∧ deliver (rec_reliable ks) = Ret (Some p, r2).
Proof.
  intros H1 H2 H3 H4 H5 H6 Es Er Hrtc Hsh r next Hp Hroom Hacks Hop Hsid Hw Hc.
  destruct (fresh_inv bs off n hold bs' off' n' hold') as (snd0 & rcv0 & Es0 & Er0 & Hinv);
    [done..|]. rewrite Es in Es0. rewrite Er in Er0. injection Es0 as <-. injection Er0 as <-.
  destruct (steps_inv _ _ Hrtc Hsh (Hinv other acks0)) as (_ & Hr & _ & Hb & Hpre).
  apply prefix_length in Hpre. unfold short in Hsh.
  destruct (progress (submitted s) next r p op Hr) as (r1 & r2 & Ha & Hd & _);
    [unfold next; lia|done|by eapply Forall_lookup_1|done|].
  destruct (wf_buf_mk b Hw) as (pre & post & -> & _). rewrite Hc.
  destruct (incoming_mk sid op (receiver s) acks asid (Z.of_nat next) p pre post Hacks) as [b' ->];
    [unfold is_u32, next; lia|done|]. rewrite decide_True by done. fold r. rewrite Ha. bret.
  eexists _, b', r2. split; [done|exact Hd].
Qed.

(** A state in which a payload has been submitted and not yet received. *)
Lemma sample_pending :
  ∃ s, rtc step start s ∧ short s ∧ submitted s = [[42]] ∧ delivered s = [] ∧
    rec_reliable (receiver s) = window4.
Proof.
  eexists. split; [|split; [|split; [|split]]].
  - eapply rtc_l; [eapply (step_submit _ [42]); [decided|vm_compute; reflexivity]|]. apply rtc_refl.
  - unfold short. cbn. lia.
  - reflexivity.
  - reflexivity.
  - reflexivity.
Defined.

Lemma reliable_progress_witness :
  ∃ s ks b' r2, submitted s = [[42]] ∧ delivered s = [] ∧
    incoming sample_sid P_CONTROL_V1 (receiver s) (mkbuf [] [0; 0; 0; 0; 0; 42] []) = Ret (Some ks, b') ∧
    deliver (rec_reliable ks) = Ret (Some [42], r2).
Proof.
  destruct sample_pending as (s & Hr & Hs & Esub & Edel & Erec).
  destruct (reliable_progress 64 16 4 false 64 16 4 false window4 [] window4 window4 s [42] [] sample_sid sample_sid
    P_CONTROL_V1 (mkbuf [] [0; 0; 0; 0; 0; 42] [])) as (ks & b' & r2 & Hi & Hd);
    [unfold BUF_SIZE_MAX; lia|lia|unfold RELIABLE_CAPACITY; lia|unfold BUF_SIZE_MAX; lia|lia
    |unfold RELIABLE_CAPACITY; lia|reflexivity|reflexivity|exact Hr|exact Hs
    |by rewrite Esub, Edel| |repeat split; repeat constructor; cbn; lia|done|by left|decided_wf|by rewrite Edel
    |by exists s, ks, b', r2].
  rewrite Erec. cbn [window4 entries r_offset]. intros i e [-> _]%lookup_replicate.
  unfold room. cbn. lia.
Defined.

(** What is sent next.  [reliable_send] chooses, among the packets that are
    due, the one submitted first, doubles its timeout and gives it a retry time
    that no other packet has; it finds none exactly when none is due. *)
Theorem reliable_send_correct now rel :
  in_window rel →
  (∀ i e, entries rel !! i = Some e → active e = true → 0 ≤ timeout e < 1073741824) →
  (reliable_send now rel = Ret (None, rel) ∧ Forall (λ e, due now e = false) (entries rel)) ∨
  ∃ i e t, entries rel !! i = Some e ∧ due now e = true ∧
    reliable_send now rel = Ret (Some (i, opcode e),
      set_entry i (RE (active e) (timeout e * 2) t (e_packet_id e) (opcode e) (e_buf e)) rel) ∧
    now + timeout e ≤ t ∧ retry_used (entries rel) t = false ∧
    ∀ x, x ∈ entries rel → due now x = true →
      behind rel (e_packet_id x) ≤ behind rel (e_packet_id e).
Proof. apply reliable_send_ok. Qed.

(** Identifiers about to wrap: 2^32-1 and 0 are in flight, 1 is next. *)
Definition wrapping : reliable :=
  Rel 2 1 16 false
    [RE true 2 5 0 4 (mkbuf [] [] []); RE true 2 5 4294967295 4 (mkbuf [] [] []);
     RE false 0 0 0 0 (mkbuf (replicate 16 0) [] (replicate 48 0));
     RE false 0 0 0 0 (mkbuf (replicate 16 0) [] (replicate 48 0))].

Lemma wrapping_in_window : in_window wrapping.
Proof.
  split; [unfold is_u32; cbn; lia|]. split; [vm_compute; discriminate|].
  intros [|[|[|[|i]]]] e He Ha; try done; injection He as <-; try done.
Defined.

Lemma reliable_send_correct_witness :
  ∃ i e t rel', due 9 e = true ∧ reliable_send 9 wrapping = Ret (Some (i, opcode e), rel') ∧
    11 ≤ t.
Proof.
  destruct (reliable_send_correct 9 wrapping wrapping_in_window)
    as [[_ H]|(i & e & t & Hi & Hd & E & Ht & _)].
  - intros [|[|[|[|i]]]] e He Ha; try done; injection He as <-; cbn; lia.
  - exfalso. inversion H as [|x l Hx]. by vm_compute in Hx.
  - do 4 eexists. split; [exact Hd|]. split; [exact E|]. revert Ht.
    destruct i as [|[|[|[|i]]]]; try done; injection Hi as <-; cbn in Hd |- *; by intros Ht.
Defined.

(** C39: the send window.  A payload enters the window under the next identifier,
    which precedes it in the packet; identifiers wrap from 2^32-1 to 0, and those
    in flight always lie within one window's length behind the next one. *)
Theorem outgoing_keeps_window payload rel rel' :
  wf_rel rel → in_window rel → Forall is_byte payload →
  outgoing payload rel = Ret (true, rel') →
  in_window rel' ∧ r_packet_id rel' = u32 (r_packet_id rel + 1) ∧
  ∃ i e, entries rel' !! i = Some e ∧ active e = true ∧ e_packet_id e = r_packet_id rel ∧
    content (e_buf e) = be32 (r_packet_id rel) ++ payload.
Proof. apply outgoing_window. Qed.

Definition last_id : reliable :=
  Rel 2 4294967295 16 false
    [RE false 0 0 0 0 (mkbuf (replicate 16 0) [] (replicate 48 0))].

Lemma outgoing_keeps_window_witness :
  ∃ rel', outgoing [42] last_id = Ret (true, rel') ∧ in_window rel' ∧ r_packet_id rel' = 0.
Proof.
  destruct (outgoing [42] last_id) as [[[] rel']| | |] eqn:E; try (vm_compute in E; discriminate).
  exists rel'. split; [done|].
  destruct (outgoing_keeps_window [42] last_id rel') as (Hw & Hid & _).
  - split; [cbn; lia|]. intros [|i] e He; [|done]. injection He as <-.
    split; [decided_wf|cbn; lia].
  - split; [unfold is_u32; cbn; lia|]. split; [vm_compute; discriminate|].
    intros [|i] e He Ha; [by injection He as <-|done].
  - decided.
  - exact E.
  - split; [exact Hw|exact Hid].
Defined.

(** The receive window's upper bound does not hold before identifiers wrap.
    In the upper half of the identifiers [reliable_wont_break_sequentiality] lets
    any identifier through that has already wrapped, however far beyond the
    window, and the replay test does not stop it. *)
Theorem window_bound_ignored rel id :
  2147483648 < r_packet_id rel → r_packet_id rel + r_size rel < 4294967296 →
  0 ≤ id < r_packet_id rel - 2147483648 → reliable_empty rel = true →
  reliable_wont_break_sequentiality rel id = true ∧ reliable_not_replay rel id = true ∧
  r_size rel ≤ u32 (id - r_packet_id rel).
Proof.
  intros Hb He Hid Hem.
  assert (0 ≤ r_size rel) as H0 by (unfold r_size; lia).
  assert (u32 (id - r_packet_id rel) = id - r_packet_id rel + 4294967296) as Hu.
  { unfold wrap. change (2 ^ 32) with 4294967296. symmetry. apply (Z.mod_unique_pos _ _ (-1)); lia. }
  split; [|split; [|lia]].
  - unfold reliable_wont_break_sequentiality, reliable_pid_in_range2.
    rewrite u32_id by (unfold is_u32; lia). rewrite decide_True by lia.
    apply bool_decide_eq_true_2. lia.
  - unfold reliable_not_replay. rewrite reliable_pid_min_spec, Hu.
    rewrite bool_decide_eq_false_2 by lia. apply negb_true_iff, not_true_iff_false.
    intros (e & Hin & [Ha _]%has_id_true)%existsb_exists.
    unfold reliable_empty in Hem. apply negb_true_iff, not_true_iff_false in Hem.
    apply Hem, existsb_exists. by exists e.
Qed.

Lemma window_bound_ignored_witness :
  reliable_wont_break_sequentiality (set_packet_id 4294967280 window4) 1000 = true ∧
  4 ≤ u32 (1000 - 4294967280).
Proof.
  destruct (window_bound_ignored (set_packet_id 4294967280 window4) 1000) as (H1 & _ & H2);
    [cbn; lia|vm_compute; reflexivity|cbn; lia|reflexivity|]. split; [exact H1|exact H2].
Defined.

(** C36: hash tables are finite maps.  Seen through [assoc], a lookup returns the
    key's value and changes nothing, an addition binds the key unless it was bound
    and is not to be replaced, a removal unbinds it; each says whether it did, the
    element count follows, and the invariant holds afterwards. *)
Theorem hash_refines_map {K V : Type} `{HashLaws K} `{EqDecision V} (h : hash K V) k v replace :
  wf_hash h → small h →
  (∃ h', hash_lookup k h = Ret (assoc h k, h') ∧ wf_hash h' ∧ n_elements h' = n_elements h ∧
     ∀ k', assoc h' k' = assoc h k') ∧
  (∃ h', hash_add k v replace h = Ret (bool_decide (assoc h k = None) || replace, h') ∧ wf_hash h' ∧
     n_elements h' = n_elements h + (if decide (assoc h k = None) then 1 else 0) ∧
     ∀ k', assoc h' k' =
       if (bool_decide (assoc h k = None) || replace) && compare_function k k'
       then Some v else assoc h k') ∧
  (∃ h', hash_remove k h = Ret (bool_decide (assoc h k ≠ None), h') ∧ wf_hash h' ∧
     n_elements h' = n_elements h - (if decide (assoc h k = None) then 0 else 1) ∧
     ∀ k', assoc h' k' = if compare_function k k' then None else assoc h k').
Proof.
  intros Hw Hs. split; [|split].
  - destruct (hash_lookup_ok h k Hw) as (h' & E & Hw' & _ & Hn & Ha). by exists h'.
  - destruct (assoc h k) as [v0|] eqn:Ek.
    + destruct (hash_add_old h k v v0 replace Hw Ek) as (h' & E & Hw' & _ & Hn & Ha).
      exists h'. rewrite decide_False by done. cbn. split; [done|]. split; [done|].
      split; [lia|done].
    + destruct (hash_add_new h k v replace Hw Hs Ek) as (h' & E & Hw' & _ & Hn & Ha).
      exists h'. by rewrite decide_True by done.
  - destruct (hash_remove_ok h k Hw) as (h' & E & Hw' & _ & Hn & Ha). by exists h'.
Qed.

Lemma table0_wf : wf_hash table0.
Proof.
  split; [exists 2; split; [lia|reflexivity]|]. split; [reflexivity|]. split; [reflexivity|].
  split; [split; [reflexivity|cbn; ints; lia]|].
  intros i b [-> _]%lookup_replicate. split; [constructor|]. intros k. cbn. lia.
Defined.

Lemma hash_refines_map_witness :
  ∃ h', hash_add (7 : void_ptr) 42 false table0 = Ret (true, h') ∧ assoc h' 7 = Some 42.
Proof.
  destruct (hash_refines_map table0 7 42 false table0_wf ltac:(unfold small; cbn; ints; lia))
    as (_ & (h' & E & _ & _ & Ha) & _).
  exists h'. split; [exact E|]. rewrite Ha. reflexivity.
Defined.

(** Removal by value.  [hash_remove_by_value], which walks the table with the
    iterator and deletes while it goes, removes exactly the bindings of the value
    and keeps every other. *)
Theorem hash_remove_by_value_correct {K V : Type} `{HashLaws K} `{EqDecision V} v (h : hash K V) :
  wf_hash h →
  ∃ h', hash_remove_by_value v h = Ret h' ∧ wf_hash h' ∧
    ∀ k, assoc h' k = (x ← assoc h k; if decide (x = v) then None else Some x).
Proof. apply hash_remove_by_value_ok. Qed.

Lemma hash_remove_by_value_correct_witness :
  ∃ h', hash_remove_by_value 42 table0 = Ret h' ∧ assoc h' 7 = None.
Proof.
  destruct (hash_remove_by_value_correct 42 table0 table0_wf) as (h' & E & _ & Ha).
  exists h'. split; [exact E|]. rewrite Ha. reflexivity.
Defined.

(** Buffers are queues of bytes with room at both ends.  Appending, prepending
    and consuming succeed exactly when there is room or data, act on the content
    as on a list, stay inside the object and keep the buffer well formed; a
    refused operation changes nothing. *)
Theorem buffer_queue bs n b :
  wf_buf b → Forall is_byte bs → 0 ≤ n →
  (if decide (Z.of_nat (length bs) ≤ capacity b - (offset b + len b))
   then ∃ b', buf_write bs b = Ret (true, b') ∧ wf_buf b' ∧ content b' = content b ++ bs
   else buf_write bs b = Ret (false, b)) ∧
  (if decide (Z.of_nat (length bs) ≤ offset b)
   then ∃ b', buf_write_prepend bs b = Ret (true, b') ∧ wf_buf b' ∧ content b' = bs ++ content b
   else buf_write_prepend bs b = Ret (false, b)) ∧
  (if decide (n ≤ len b)
   then ∃ b', buf_read n b = Ret (Some (take (Z.to_nat n) (content b)), b') ∧ wf_buf b' ∧
          content b' = drop (Z.to_nat n) (content b)
   else buf_read n b = Ret (None, b)).
Proof.
  intros Hb Hbs Hn. pose proof (buf_write_ok bs b Hb Hbs) as H1.
  pose proof (buf_write_prepend_ok bs b Hb Hbs) as H2. pose proof (buf_read_ok n b Hb Hn) as H3.
  split; [|split; [|exact H3]].
  - clear H2 H3. revert H1. case_decide; [|done]. intros (b' & ? & ? & ? & _). by exists b'.
  - clear H1 H3. revert H2. case_decide; [|done]. intros (b' & ? & ? & ? & _). by exists b'.
Qed.

Lemma buffer_queue_witness :
  ∃ b', buf_write [1; 2] (mkbuf [0] [7] [0; 0]) = Ret (true, b') ∧ content b' = [7; 1; 2].
Proof.
  destruct (buffer_queue [1; 2] 1 (mkbuf [0] [7] [0; 0])) as (H & _);
    [decided_wf|decided|lia|].
  revert H. rewrite decide_True by decided. intros (b' & E & _ & Hc). exists b'.
  split; [exact E|exact Hc].
Defined.

(** Reading lines.  [buf_parse] cuts the next line off a buffer: the characters
    before the delimiter, a NUL or the end, terminated by a NUL, with the
    delimiter consumed; it says no more exactly at the end of the buffer. *)
Theorem buf_parse_correct delim size w pre tl post line :
  Forall (plain_char delim) w → (tl = [] ∨ ∃ x r, tl = x :: r ∧ (x = 0 ∨ x = delim) ∧ 0 ≤ x) →
  Z.of_nat (length w) < size ≤ Z.of_nat (length line) →
  ∃ line' b', buf_parse delim line size (mkbuf pre (w ++ tl) post) =
    Ret ((negb (bool_decide (tl = []) && bool_decide (w = [])), w ++ 0 :: line'), b') ∧
    content b' = drop 1 tl.
Proof.
  intros Hw Ht Hs. destruct (buf_parse_mk delim size w pre tl post line Hw Ht Hs) as (line' & E).
  eexists line', _. split; [exact E|apply content_mk].
Qed.

Lemma buf_parse_correct_witness :
  ∃ line' b', buf_parse 10 (replicate 8 0) 8 (mkbuf [] [65; 66; 10; 67] []) =
    Ret ((true, 65 :: 66 :: 0 :: line'), b') ∧ content b' = [67].
Proof.
  apply (buf_parse_correct 10 8 [65; 66] [] [10; 67] [] (replicate 8 0)).
  - repeat (apply Forall_cons; split; [unfold plain_char; ints; lia|]). constructor.
  - right. exists 10, [67]. split; [done|]. split; [by right|lia].
  - cbn. lia.
Defined.
