(* ===== verification/OvpnFragment.v ===== *)
(** * OpenVPN: fragmentation of datagrams

    Models [openvpn/src/src/openvpn/fragment.c] and [fragment.h]: cutting an
    outgoing datagram in parts, and joining the parts of several incoming
    datagrams.  The global [now] is an argument, and so is what [get_random]
    returned.  A [struct fragment *] into the array of a [struct fragment_list]
    is an index.  [*buf = frag->buf] hands the reassembly buffer to the caller,
    who is done with it before the next packet arrives: it is copied. *)
From stdpp Require Import gmap sets functions.
From S2P Require Import Prelude OvpnBuffer OvpnFrame.
#[local] Open Scope bool_scope.
#[local] Open Scope Z_scope.

(** ** Data *)

Definition N_FRAG_BUF : Z := 25.
Definition FRAG_TTL_SEC : Z := 10.
Definition FRAG_WAKEUP_INTERVAL : Z := 5.
Definition FRAG_MAP_MASK : Z := 4294967295.
Definition MAX_FRAGS : Z := 32.
Definition N_SEQ_ID : Z := 256.

Record fragment := Frag {
  f_defined : bool;
  max_frag_size : Z;
  map_ : Z;
  timestamp : Z;
  f_buf : buffer;
}.
Record fragment_list := FL { fl_seq_id : Z; fl_index : Z; fragments : list fragment }.
Record fragment_master := FM {
  wakeup : event_timeout;
  received_os_mtu_hint : bool;
  outgoing_seq_id : Z;
  outgoing_frag_size : Z;
  outgoing_frag_id : Z;
  outgoing : buffer;
  outgoing_return : buffer;
  incoming : fragment_list;
}.

Definition FRAG_TYPE_MASK : Z := 3.
Definition FRAG_TYPE_SHIFT : Z := 0.
Definition FRAG_WHOLE : Z := 0.
Definition FRAG_YES_NOTLAST : Z := 1.
Definition FRAG_YES_LAST : Z := 2.
Definition FRAG_TEST : Z := 3.
Definition FRAG_SEQ_ID_MASK : Z := 255.
Definition FRAG_SEQ_ID_SHIFT : Z := 2.
Definition FRAG_ID_MASK : Z := 31.
Definition FRAG_ID_SHIFT : Z := 10.
Definition FRAG_SIZE_MASK : Z := 16383.
Definition FRAG_SIZE_SHIFT : Z := 15.
Definition FRAG_SIZE_ROUND_SHIFT : Z := 2.
Definition FRAG_SIZE_ROUND_MASK : Z := 3.

Definition null_buf : buffer := Buf 0 0 0 None.

Definition set_f_defined (d : bool) (f : fragment) : fragment :=
  Frag d (max_frag_size f) (map_ f) (timestamp f) (f_buf f).
Definition set_incoming (l : fragment_list) (f : fragment_master) : fragment_master :=
  FM (wakeup f) (received_os_mtu_hint f) (outgoing_seq_id f) (outgoing_frag_size f)
    (outgoing_frag_id f) (outgoing f) (outgoing_return f) l.
Definition set_outgoing (seq size id : Z) (out ret : buffer) (f : fragment_master) :
    fragment_master :=
  FM (wakeup f) (received_os_mtu_hint f) seq size id out ret (incoming f).

(** ** Initialisation *)

Definition fragment_list_buf_init (fr : frame) (l : fragment_list) : outcome fragment_list :=
  b ← alloc_buf (BUF_SIZE fr);
  Ret (FL (fl_seq_id l) (fl_index l)
         (map (λ f, Frag (f_defined f) (max_frag_size f) (map_ f) (timestamp f) b) (fragments l))).

(** The structure, and the frame that accounts for the header. *)
Definition fragment_init (now random : Z) (fr : frame) : fragment_master * frame :=
  (FM (event_timeout_init FRAG_WAKEUP_INTERVAL now) false
     (Z.land (s32 random) (N_SEQ_ID - 1)) 0 0 null_buf null_buf
     (FL 0 0 (replicate (Z.to_nat N_FRAG_BUF) (Frag false 0 0 0 null_buf))),
   frame_add_to_extra_frame 4 fr).

Definition fragment_frame_init (fr : frame) (f : fragment_master) : outcome fragment_master :=
  l ← fragment_list_buf_init fr (incoming f);
  out ← alloc_buf (BUF_SIZE fr);
  ret ← alloc_buf (BUF_SIZE fr);
  Ret (FM (wakeup f) (received_os_mtu_hint f) (outgoing_seq_id f) (outgoing_frag_size f)
         (outgoing_frag_id f) out ret l).

(** ** Incoming *)

Definition modulo_subtract (x y mod_ : Z) : outcome Z :=
  d1 ← int (x - y);
  d2 ← int ((if decide (x > y) then - mod_ else mod_) + d1);
  ASSERT (0 ≤ x ∧ x < mod_ ∧ 0 ≤ y ∧ y < mod_);;
  Ret (if decide (Z.abs d1 > Z.abs d2) then d2 else d1).

(** [while (diff > 0)]. *)
Fixpoint advance_loop (n : nat) (l : fragment_list) : outcome fragment_list :=
  match n with
  | O => Ret l
  | S n =>
      index ← modulo_add (fl_index l) 1 N_FRAG_BUF;
      fr ← array_get (fragments l) (Z.to_nat index);
      frs ← array_set (fragments l) (Z.to_nat index) (set_f_defined false fr);
      seq_id ← modulo_add (fl_seq_id l) 1 N_SEQ_ID;
      advance_loop n (FL seq_id index frs)
  end.

(** The index of the buffer for [seq_id], and the list. *)
Definition fragment_list_get_buf (l : fragment_list) (seq_id : Z) :
    outcome (nat * fragment_list) :=
  diff ← modulo_subtract seq_id (fl_seq_id l) N_SEQ_ID;
  let '(l, diff) :=
    if decide (Z.abs diff >= N_FRAG_BUF)
    then (FL seq_id 0 (map (set_f_defined false) (fragments l)), 0)
    else (l, diff) in
  l ← advance_loop (Z.to_nat diff) l;
  i ← modulo_add (fl_index l) (if decide (diff > 0) then 0 else diff) N_FRAG_BUF;
  Ret (Z.to_nat i, l).

Definition drop_packet (f : fragment_master) (b : buffer) : outcome (fragment_master * buffer) :=
  Ret (f, set_len 0 b).

(** The fragment [i] of the list, for a part [n] of [size] bytes; [None] when it
    does not fit. *)
Definition store_part (now : Z) (fr : frame) (frag_type n size : Z) (b : buffer)
    (frag : fragment) : outcome (bool * fragment) :=
  frag ←
    (if decide (f_defined frag = false ∨ max_frag_size frag ≠ size) then
       '(ok, fb) ← buf_init (FRAME_HEADROOM_ADJ fr FRAME_HEADROOM_MARKER_FRAGMENT) (f_buf frag);
       ASSERT (ok = true);;
       Ret (Frag true size 0 (timestamp frag) fb)
     else Ret frag);
  idx ← int (n * size);
  '(ok, fb) ← buf_copy_range idx b 0 (len b) (f_buf frag);
  if ok : bool then
    let bit := u32 (Z.shiftl (if decide (frag_type = FRAG_YES_LAST) then FRAG_MAP_MASK else 1) n) in
    Ret (true, Frag (f_defined frag) (max_frag_size frag) (Z.lor (map_ frag) bit) now fb)
  else Ret (false, frag).

Definition incoming_part (now : Z) (fr : frame) (flags frag_type : Z)
    (f : fragment_master) (b : buffer) : outcome (fragment_master * buffer) :=
  let seq_id := Z.land (Z.shiftr flags FRAG_SEQ_ID_SHIFT) FRAG_SEQ_ID_MASK in
  let n := Z.land (Z.shiftr flags FRAG_ID_SHIFT) FRAG_ID_MASK in
  let size :=
    if decide (frag_type = FRAG_YES_LAST)
    then Z.shiftl (Z.land (Z.shiftr flags FRAG_SIZE_SHIFT) FRAG_SIZE_MASK) FRAG_SIZE_ROUND_SHIFT
    else len b in
  '(i, l) ← fragment_list_get_buf (incoming f) seq_id;
  let f := set_incoming l f in
  if decide (Z.land size FRAG_SIZE_ROUND_MASK ≠ 0) then drop_packet f b
  else
    frag ← array_get (fragments l) i;
    '(ok, frag) ← store_part now fr frag_type n size b frag;
    let full := ok && bool_decide (Z.land (map_ frag) FRAG_MAP_MASK = FRAG_MAP_MASK) in
    let frag' := if full then set_f_defined false frag else frag in
    frs ← array_set (fragments l) i frag';
    let f := set_incoming (FL (fl_seq_id l) (fl_index l) frs) f in
    if full then Ret (f, f_buf frag) else drop_packet f b.

Definition fragment_incoming (now : Z) (fr : frame) (f : fragment_master) (b : buffer) :
    outcome (fragment_master * buffer) :=
  if decide (len b > 0) then
    '(flags, b) ← buf_read_u32 b;
    match flags with
    | None => drop_packet f b
    | Some flags =>
        let frag_type := Z.land (Z.shiftr flags FRAG_TYPE_SHIFT) FRAG_TYPE_MASK in
        if decide (frag_type = FRAG_WHOLE) then
          if decide (Z.land flags (Z.lor FRAG_SEQ_ID_MASK FRAG_ID_MASK) ≠ 0)
          then drop_packet f b else Ret (f, b)
        else if decide (frag_type = FRAG_YES_NOTLAST ∨ frag_type = FRAG_YES_LAST)
        then incoming_part now fr flags frag_type f b
        else drop_packet f b
    end
  else Ret (f, b).

(** ** Outgoing *)

Definition fragment_prepend_flags (type seq_id frag_id frag_size : Z) : M buffer unit := λ b,
  let flags :=
    Z.lor (Z.lor (Z.shiftl (Z.land type FRAG_TYPE_MASK) FRAG_TYPE_SHIFT)
                 (Z.shiftl (Z.land seq_id FRAG_SEQ_ID_MASK) FRAG_SEQ_ID_SHIFT))
          (Z.shiftl (Z.land frag_id FRAG_ID_MASK) FRAG_ID_SHIFT) in
  let flags :=
    if decide (type = FRAG_WHOLE ∨ type = FRAG_YES_NOTLAST) then flags
    else Z.lor flags
           (Z.shiftl (Z.land (Z.shiftr frag_size FRAG_SIZE_ROUND_SHIFT) FRAG_SIZE_MASK)
              FRAG_SIZE_SHIFT) in
  '(ok, b) ← buf_write_prepend (be32 (u32 flags)) b;
  ASSERT (ok = true);;
  Ret (tt, b).

Definition optimal_fragment_size (len max_frag_size : Z) : outcome Z :=
  let mfs_aligned := Z.land max_frag_size (Z.lnot FRAG_SIZE_ROUND_MASK) in
  if decide (mfs_aligned = 0) then Undef
  else
    let div := Z.quot len mfs_aligned in
    let mod_ := Z.rem len mfs_aligned in
    Ret (if decide (div > 0 ∧ mod_ > 0 ∧ mod_ < Z.quot (mfs_aligned * 3) 4)
         then min_int mfs_aligned
                (Z.land (max_frag_size - Z.quot (max_frag_size - mod_) (div + 1)
                         + FRAG_SIZE_ROUND_MASK) (Z.lnot FRAG_SIZE_ROUND_MASK))
         else mfs_aligned).

Definition fragment_outgoing_defined (f : fragment_master) : bool :=
  bool_decide (len (outgoing f) > 0).

(** The result, the state and [*buf]. *)
Definition fragment_ready_to_send (fr : frame) (f : fragment_master) (b : buffer) :
    outcome (bool * fragment_master * buffer) :=
  if fragment_outgoing_defined f then
    let last := bool_decide (len (outgoing f) ≤ outgoing_frag_size f) in
    let size := if last then len (outgoing f) else outgoing_frag_size f in
    '(ok, b) ← buf_init (FRAME_HEADROOM fr) (outgoing_return f);
    ASSERT (ok = true);;
    '(ok, b, out) ← buf_copy_n b (outgoing f) size;
    ASSERT (ok = true);;
    '(_, b) ← fragment_prepend_flags (if last then FRAG_YES_LAST else FRAG_YES_NOTLAST)
                (outgoing_seq_id f) (outgoing_frag_id f) (outgoing_frag_size f) b;
    ASSERT (last = false ∨ len out = 0);;
    let ret := Buf (capacity (outgoing_return f)) (offset (outgoing_return f))
                 (len (outgoing_return f)) (data b) in
    Ret (true, set_outgoing (outgoing_seq_id f) (outgoing_frag_size f) (outgoing_frag_id f + 1)
                 out ret f, b)
  else Ret (false, f, b).

Definition fragment_outgoing (fr : frame) (f : fragment_master) (b : buffer) :
    outcome (fragment_master * buffer) :=
  if decide (len b > 0) then
    if decide (len b > PAYLOAD_SIZE_DYNAMIC fr) then
      size ← optimal_fragment_size (len b) (PAYLOAD_SIZE_DYNAMIC fr);
      let f := set_outgoing (outgoing_seq_id f) size (outgoing_frag_id f) (outgoing f)
                 (outgoing_return f) f in
      if decide (len b > size * MAX_FRAGS) then drop_packet f b
      else
        '(ok, out) ← buf_init (FRAME_HEADROOM fr) (outgoing f);
        ASSERT (ok = true);;
        '(ok, out) ← buf_copy b out;
        ASSERT (ok = true);;
        seq ← modulo_add (outgoing_seq_id f) 1 N_SEQ_ID;
        let f := set_outgoing seq size 0 out (outgoing_return f) f in
        '(ok, f, b) ← fragment_ready_to_send fr f (set_len 0 b);
        ASSERT (ok = true);;
        Ret (f, b)
    else
      '(_, b) ← fragment_prepend_flags FRAG_WHOLE 0 0 0 b;
      Ret (f, b)
  else Ret (f, b).

(** ** Housekeeping *)

Definition reap_fragment (now : Z) (frag : fragment) : fragment :=
  if decide (f_defined frag = true ∧ timestamp frag + FRAG_TTL_SEC ≤ now)
  then set_f_defined false frag else frag.
Definition fragment_ttl_reap (now : Z) (f : fragment_master) : fragment_master :=
  set_incoming (FL (fl_seq_id (incoming f)) (fl_index (incoming f))
                  (map (reap_fragment now) (fragments (incoming f)))) f.
Definition fragment_wakeup (now : Z) (f : fragment_master) : fragment_master :=
  fragment_ttl_reap now f.
Definition set_wakeup (t : event_timeout) (f : fragment_master) : fragment_master :=
  FM t (received_os_mtu_hint f) (outgoing_seq_id f) (outgoing_frag_size f)
    (outgoing_frag_id f) (outgoing f) (outgoing_return f) (incoming f).
Definition fragment_housekeeping (now : Z) (tv : Z * Z) (f : fragment_master) :
    outcome (fragment_master * (Z * Z)) :=
  '(fire, t, tv) ← event_timeout_trigger now (wakeup f) (Some tv) ETT_DEFAULT;
  let f := set_wakeup t f in
  Ret (if fire : bool then fragment_wakeup now f else f, default (0, 0) tv).

