(* ===== verification/OvpnFragmentProofs.v ===== *)
(** * OpenVPN: fragmentation, proved

    The parts of a datagram and their headers, what the sender of OvpnFragment.v
    makes of a datagram ([send_ok]) and what the receiver makes of parts of many
    ([receive_all_ok]), by simulation with an abstract receiver that holds sets of
    parts ([arrive]). *)
From stdpp Require Import gmap sets functions.
From S2P Require Import Prelude OvpnBuffer OvpnFrame OvpnFragment.
#[local] Open Scope bool_scope.
#[local] Open Scope Z_scope.

(** How many parts of [size] bytes, and the [i]-th of them. *)
Definition n_parts (size : nat) (c : list Z) : nat := (length c + size - 1) / size.
Definition part (size : nat) (c : list Z) (i : nat) : list Z := slice (i * size) size c.

Definition part_flags (seq size : Z) (last : bool) (i : nat) : Z :=
  (if last then FRAG_YES_LAST else FRAG_YES_NOTLAST) + 4 * seq + 1024 * Z.of_nat i +
  (if last then 32768 * (size / 4) else 0).

(** What goes on the wire. *)
Definition wire_part (seq : Z) (size : nat) (c : list Z) (i : nat) : list Z :=
  be32 (part_flags seq (Z.of_nat size) (bool_decide (S i = n_parts size c)) i) ++ part size c i.

(** ** The header *)

Lemma lor_high a b n : 0 ≤ n → 0 ≤ a < 2 ^ n → Z.lor a (Z.shiftl b n) = a + b * 2 ^ n.
Proof.
  intros Hn Ha. rewrite <- Z.add_nocarry_lor; [by rewrite Z.shiftl_mul_pow2|].
  apply Z.bits_inj'. intros i Hi. rewrite Z.land_spec, Z.bits_0.
  destruct (decide (i < n)).
  - rewrite Z.shiftl_spec_low by lia. apply andb_false_r.
  - replace (Z.testbit a i) with false; [done|]. symmetry.
    destruct (decide (a = 0)) as [->|]; [apply Z.bits_0|]. apply Z.bits_above_log2; [lia|].
    apply Z.lt_le_trans with n; [|lia]. apply Z.log2_lt_pow2; lia.
Qed.

(** A field of [w] bits at bit [k]. *)
Lemma field_at z k w m : 0 ≤ w → 0 ≤ k → m = Z.ones w →
  Z.land (Z.shiftr z k) m = (z / 2 ^ k) mod 2 ^ w.
Proof. intros ? ? ->. by rewrite Z.land_ones, Z.shiftr_div_pow2 by done. Qed.

Lemma land_mask z w m : 0 ≤ z < 2 ^ w → 0 ≤ w → m = Z.ones w → Z.land z m = z.
Proof. intros ? ? ->. rewrite Z.land_ones by done. by apply Z.mod_small. Qed.

Lemma fragment_prepend_flags_ok type seq id size pre c post :
  (type = FRAG_YES_NOTLAST ∨ type = FRAG_YES_LAST) → 0 ≤ seq < 256 → 0 ≤ id < 32 →
  0 ≤ size < 65536 → (4 ≤ length pre)%nat →
  fragment_prepend_flags type seq id size (mkbuf pre c post) =
  Ret (tt, mkbuf (take (length pre - 4) pre)
             (be32 (type + 4 * seq + 1024 * id +
                    if decide (type = FRAG_YES_LAST) then 32768 * (size / 4) else 0) ++ c) post).
Proof.
  intros Ht Hs Hi Hz Hp. unfold fragment_prepend_flags.
  assert (Z.land type FRAG_TYPE_MASK = type) as -> by (by destruct Ht as [->| ->]).
  change (Z.shiftl type FRAG_TYPE_SHIFT) with (Z.shiftl type 0). rewrite Z.shiftl_0_r.
  rewrite (land_mask seq 8), (land_mask id 5), Z.shiftr_div_pow2 by (done || lia).
  change (2 ^ FRAG_SIZE_ROUND_SHIFT) with 4.
  rewrite (land_mask (size / 4) 14) by (done || (Z.to_euclidean_division_equations; lia)).
  unfold FRAG_SEQ_ID_SHIFT, FRAG_ID_SHIFT, FRAG_SIZE_SHIFT.
  assert (0 ≤ type < 4) by (destruct Ht as [->| ->]; done).
  rewrite (lor_high type) by (change (2 ^ 2) with 4; lia).
  rewrite lor_high by (change (2 ^ 2) with 4; change (2 ^ 10) with 1024; lia).
  change (2 ^ 2) with 4. change (2 ^ 10) with 1024.
  set (low := type + seq * 4 + id * 1024).
  assert ((if decide (type = FRAG_WHOLE ∨ type = FRAG_YES_NOTLAST) then low
           else Z.lor low (Z.shiftl (size / 4) 15)) =
          type + 4 * seq + 1024 * id +
          (if decide (type = FRAG_YES_LAST) then 32768 * (size / 4) else 0)) as ->.
  { destruct Ht as [-> | ->].
    - rewrite decide_True by (by right). rewrite decide_False by done. unfold low. lia.
    - rewrite decide_False by (by intros [?|?]). rewrite decide_True by done.
      rewrite lor_high by (change (2 ^ 15) with 32768; unfold low, FRAG_YES_LAST; lia).
      change (2 ^ 15) with 32768. unfold low. lia. }
  set (flags := type + 4 * seq + 1024 * id +
    (if decide (type = FRAG_YES_LAST) then 32768 * (size / 4) else 0)).
  assert (0 ≤ flags < 4294967296) as Hf.
  { unfold flags. case_decide; Z.to_euclidean_division_equations; lia. }
  rewrite (wrap_small 32) by exact Hf.
  rewrite buf_write_prepend_mk by (apply be32_bytes || (change (length (be32 flags)) with 4%nat; lia)).
  bret. by rewrite ASSERT_ok.
Qed.

(** The fields of a header. *)
Lemma part_flags_fields seq size last i :
  0 ≤ seq < 256 → (i < 32)%nat → 0 ≤ size < 65536 → size mod 4 = 0 →
  let f := part_flags seq size last i in
  0 ≤ f < 4294967296 ∧
  Z.land (Z.shiftr f FRAG_TYPE_SHIFT) FRAG_TYPE_MASK =
    (if last then FRAG_YES_LAST else FRAG_YES_NOTLAST) ∧
  Z.land (Z.shiftr f FRAG_SEQ_ID_SHIFT) FRAG_SEQ_ID_MASK = seq ∧
  Z.land (Z.shiftr f FRAG_ID_SHIFT) FRAG_ID_MASK = Z.of_nat i ∧
  (last = true →
   Z.shiftl (Z.land (Z.shiftr f FRAG_SIZE_SHIFT) FRAG_SIZE_MASK) FRAG_SIZE_ROUND_SHIFT = size).
Proof.
  intros Hs Hi Hz Hm f.
  rewrite (field_at f _ 2), (field_at f _ 8), (field_at f _ 5), (field_at f _ 14) by done.
  rewrite Z.shiftl_mul_pow2 by done.
  change (2 ^ FRAG_TYPE_SHIFT) with 1. change (2 ^ FRAG_SEQ_ID_SHIFT) with 4.
  change (2 ^ FRAG_ID_SHIFT) with 1024. change (2 ^ FRAG_SIZE_SHIFT) with 32768.
  change (2 ^ 2) with 4. change (2 ^ 8) with 256. change (2 ^ 5) with 32.
  change (2 ^ 14) with 16384. change (2 ^ FRAG_SIZE_ROUND_SHIFT) with 4.
  unfold f, part_flags, FRAG_YES_LAST, FRAG_YES_NOTLAST. clear f.
  destruct last; Z.to_euclidean_division_equations; lia.
Qed.

(** ** The size of the parts *)

Lemma align_down x : Z.land x (Z.lnot FRAG_SIZE_ROUND_MASK) = x - x mod 4.
Proof.
  rewrite Z.land_comm. change (Z.lnot FRAG_SIZE_ROUND_MASK) with (Z.lnot (Z.ones 2)).
  assert (x mod 4 = Z.land x (Z.ones 2)) as -> by (by rewrite Z.land_ones).
  pose proof (Z.add_nocarry_lor (Z.land x (Z.ones 2)) (Z.land (Z.lnot (Z.ones 2)) x)) as H.
  rewrite Z.land_comm in H.
  assert (Z.lor (Z.land x (Z.ones 2)) (Z.land (Z.lnot (Z.ones 2)) x) = x) as E.
  { apply Z.bits_inj'. intros i Hi. rewrite Z.lor_spec, !Z.land_spec, Z.lnot_spec by done.
    by destruct (Z.testbit x i), (Z.testbit (Z.ones 2) i). }
  rewrite E in H. enough (Z.land (Z.land (Z.lnot (Z.ones 2)) x) (Z.land x (Z.ones 2)) = 0) by lia.
  apply Z.bits_inj'. intros i Hi. rewrite !Z.land_spec, Z.lnot_spec, Z.bits_0 by done.
  by destruct (Z.testbit x i), (Z.testbit (Z.ones 2) i).
Qed.

(** The size chosen is a multiple of four, at most the largest allowed, and
    needs no more parts than the largest one does. *)
Lemma optimal_fragment_size_ok n m :
  0 < n → 4 ≤ m →
  ∃ s, optimal_fragment_size n m = Ret s ∧ 0 < s ≤ m - m mod 4 ∧ s mod 4 = 0 ∧
    (n + s - 1) / s = (n + (m - m mod 4) - 1) / (m - m mod 4).
Proof.
  intros Hn Hm. unfold optimal_fragment_size. rewrite align_down.
  set (a := m - m mod 4).
  assert (0 < a ≤ m ∧ m < a + 4 ∧ a mod 4 = 0) as (Ha & Ham & Ha4)
    by (unfold a; Z.to_euclidean_division_equations; lia).
  rewrite decide_False by lia. rewrite Z.quot_div_nonneg, Z.rem_mod_nonneg by lia.
  eexists. split; [done|]. destruct (decide _) as [(Hd & Hr & Hq)|_]; [|by repeat split; lia].
  set (d := n / a) in *. set (r := n mod a) in *.
  assert (n = a * d + r) as En by (apply Z.div_mod; lia).
  assert (0 ≤ r < a) as Hra by (apply Z.mod_pos_bound; lia).
  rewrite Z.quot_div_nonneg by lia. rewrite align_down. unfold FRAG_SIZE_ROUND_MASK, min_int.
  set (q := (m - r) / (d + 1)). set (s0 := m - q + 3 - (m - q + 3) mod 4).
  assert (q * (d + 1) ≤ m - r) as Hq1 by (unfold q; pose proof (Z.mul_div_le (m - r) (d + 1)); lia).
  assert (0 ≤ q) as Hq0 by (unfold q; apply Z.div_pos; lia).
  assert (m - q ≤ s0 ∧ s0 mod 4 = 0) as [Hs0 Hs4]
    by (unfold s0; Z.to_euclidean_division_equations; lia).
  assert (n ≤ (m - q) * (d + 1)) as Hcov by nia.
  assert (2 * q ≤ m - r) as H2q by nia.
  set (s := if decide (a < s0) then a else s0).
  assert (0 < s ≤ a ∧ s mod 4 = 0 ∧ n ≤ s * (d + 1)) as (Hs & Hsm & Hsc)
    by (unfold s; case_decide; nia).
  split; [done|]. split; [done|]. transitivity (d + 1).
  - symmetry. apply Z.div_unique with (n + s - 1 - s * (d + 1)); nia.
  - apply Z.div_unique with (r - 1); nia.
Qed.

(** ** Parts *)

Lemma n_parts_spec s c :
  (0 < s)%nat → c ≠ [] →
  (1 ≤ n_parts s c ∧ (n_parts s c - 1) * s < length c ≤ n_parts s c * s)%nat.
Proof.
  intros Hs Hc. assert (0 < length c)%nat by (destruct c; cbn; [done|lia]). unfold n_parts.
  pose proof (Nat.div_mod (length c + s - 1) s ltac:(lia)) as Hd.
  pose proof (Nat.mod_upper_bound (length c + s - 1) s ltac:(lia)).
  set (k := ((length c + s - 1) / s)%nat) in *. nia.
Qed.

Lemma n_parts_lt s c i :
  (0 < s)%nat → c ≠ [] → (i < n_parts s c ↔ i * s < length c)%nat.
Proof. intros Hs Hc. destruct (n_parts_spec s c Hs Hc). nia. Qed.

Lemma length_part s c i : length (part s c i) = Nat.min s (length c - i * s).
Proof. unfold part, slice. by rewrite length_take, length_drop. Qed.

Lemma part_last s c i :
  (0 < s)%nat → c ≠ [] → (i < n_parts s c)%nat →
  (S i = n_parts s c ↔ length c - i * s ≤ s)%nat.
Proof. intros Hs Hc Hi. destruct (n_parts_spec s c Hs Hc). nia. Qed.

Lemma part_drop s c i : drop (i * s) c = part s c i ++ drop (S i * s) c.
Proof.
  unfold part, slice. rewrite <- (take_drop s (drop (i * s) c)) at 1. f_equal.
  rewrite drop_drop. f_equal. lia.
Qed.

(** ** Sending *)

Definition wf_sender (fr : frame) (f : fragment_master) : Prop :=
  0 ≤ outgoing_seq_id f < N_SEQ_ID ∧ sized (BUF_SIZE fr) (outgoing f) ∧
  sized (BUF_SIZE fr) (outgoing_return f).

(** What the code relies on: the frame accounts for the header. *)
Definition frag_frame (fr : frame) : Prop :=
  wf_frame fr ∧ 4 ≤ extra_frame fr ∧ PAYLOAD_SIZE_DYNAMIC fr < 65536.

(** The first [i] parts of [c] have been sent. *)
Definition sending (fr : frame) (seq : Z) (size : nat) (c : list Z) (i : nat)
    (f : fragment_master) : Prop :=
  outgoing_seq_id f = seq ∧ outgoing_frag_size f = Z.of_nat size ∧
  outgoing_frag_id f = Z.of_nat i ∧ sized (BUF_SIZE fr) (outgoing_return f) ∧
  ∃ p q, outgoing f = mkbuf p (drop (i * size) c) q ∧ sized (BUF_SIZE fr) (outgoing f).

Section sending.
Context (fr : frame) (seq : Z) (size : nat) (c : list Z).
Context (Hfr : frag_frame fr) (Hseq : 0 ≤ seq < 256).
Context (Hsize : (0 < size)%nat) (Hmax : Z.of_nat size ≤ PAYLOAD_SIZE_DYNAMIC fr).
Context (Hc : c ≠ []) (Hb : Forall is_byte c) (Hn : (n_parts size c ≤ 32)%nat).

Lemma fragment_ready_to_send_ok i f b :
  sending fr seq size c i f → (i < n_parts size c)%nat →
  ∃ f' b', fragment_ready_to_send fr f b = Ret (true, f', b') ∧
    sending fr seq size c (S i) f' ∧ wf_buf b' ∧ content b' = wire_part seq size c i ∧
    incoming f' = incoming f ∧ wakeup f' = wakeup f.
Proof.
  intros (Es & Ez & Ei & Hret & p & q & Eo & Hso) Hi.
  destruct Hfr as (Hwf & Hx & Hd).
  pose proof (frame_room fr 0 Hwf) as [Hh0 Hroom]. fold (FRAME_HEADROOM fr) in *.
  assert (4 ≤ FRAME_HEADROOM fr) as Hh4
    by (destruct (frame_headroom_ok fr 0) as [? _]; unfold FRAME_HEADROOM; geometry; lia).
  assert (PAYLOAD_SIZE_DYNAMIC fr ≤ PAYLOAD_SIZE fr) as Hdy by (geometry; lia).
  assert (BUF_SIZE fr < BUF_SIZE_MAX) as Hbs by apply Hwf.
  destruct (buf_init_sized _ _ (FRAME_HEADROOM fr) Hret) as (pre & post & Einit & Hpre & Hpost);
    [lia|].
  pose proof (proj1 (n_parts_lt size c i Hsize Hc) Hi) as Hlt.
  set (bs := part size c i). set (rest := drop (S i * size) c).
  assert (length bs = Nat.min size (length c - i * size)) as Hlb by apply length_part.
  assert (drop (i * size) c = bs ++ rest) as Edrop by apply part_drop.
  assert (Forall is_byte bs) as Hbs' by (by apply Forall_take, Forall_drop).
  assert (length (drop (i * size) c) = (length c - i * size)%nat) as Hld by apply length_drop.
  pose proof (part_last size c i Hsize Hc Hi) as Hlast.
  unfold fragment_ready_to_send, fragment_outgoing_defined. rewrite Eo, Ez, Es, Ei. cbn [len mkbuf].
  rewrite Hld, bool_decide_eq_true_2 by lia.
  set (last := bool_decide (S i = n_parts size c)).
  assert (bool_decide (Z.of_nat (length c - i * size) ≤ Z.of_nat size) = last) as ->.
  { unfold last. apply bool_decide_ext. lia. }
  rewrite Einit. bret. rewrite (ASSERT_ok (true = true)) by done. bret.
  assert ((if last then Z.of_nat (length c - i * size) else Z.of_nat size) =
          Z.of_nat (length bs)) as ->.
  { unfold last. case_bool_decide; lia. }
  fold (mkbuf p (drop (i * size) c) q). rewrite Edrop, buf_copy_n_mk; [|done|cbn; lia|lia].
  bret. rewrite (ASSERT_ok (true = true)) by done. bret.
  rewrite fragment_prepend_flags_ok;
    [|by destruct last; [right|left]|done|lia|lia|lia].
  bret. cbn [len mkbuf].
  assert ((if last then FRAG_YES_LAST else FRAG_YES_NOTLAST) + 4 * seq + 1024 * Z.of_nat i +
          (if decide ((if last then FRAG_YES_LAST else FRAG_YES_NOTLAST) = FRAG_YES_LAST)
           then 32768 * (Z.of_nat size / 4) else 0) =
          part_flags seq (Z.of_nat size) last i) as ->
    by (unfold part_flags; by destruct last).
  rewrite ASSERT_ok.
  2:{ unfold last. case_bool_decide; [right|by left]. unfold rest. rewrite length_drop. lia. }
  bret. eexists _, _. split; [done|]. split; [|split; [|split; [|done]]].
  - split; [done|]. split; [done|]. split; [cbn; lia|]. split.
    + eexists. cbn [outgoing_return set_outgoing data capacity]. split; [done|].
      destruct Hret as (d & _ & _ & ->). split; [|done].
      rewrite !length_app, length_take, length_drop. rewrite length_be32. cbn [length]. lia.
    + eexists _, q. split; [done|]. cbn [outgoing set_outgoing]. revert Hso. rewrite Eo, Edrop.
      intros (d & Ed & El & Ec). apply sized_eq. rewrite <- Ec. cbn [capacity mkbuf].
      rewrite !length_app. lia.
  - apply wf_mk. rewrite length_app, length_take, length_drop. rewrite length_be32.
    cbn [length app]. lia.
  - apply content_mk.
Qed.

Lemma fragment_ready_to_send_done f b :
  sending fr seq size c (n_parts size c) f → fragment_ready_to_send fr f b = Ret (false, f, b).
Proof.
  intros (_ & _ & _ & _ & p & q & Eo & _). unfold fragment_ready_to_send, fragment_outgoing_defined.
  rewrite Eo. cbn [len mkbuf]. rewrite length_drop.
  destruct (n_parts_spec size c Hsize Hc). by rewrite bool_decide_eq_false_2 by lia.
Qed.
End sending.

(** All the packets a datagram gives rise to: the one [fragment_outgoing]
    returns, and those [fragment_ready_to_send] has afterwards. *)
Fixpoint drain (n : nat) (fr : frame) (f : fragment_master) (b : buffer) :
    outcome (list (list Z) * fragment_master) :=
  match n with
  | O => NoFuel
  | S n =>
      '(ok, f, b) ← fragment_ready_to_send fr f b;
      if ok : bool then '(ps, f) ← drain n fr f b; Ret (content b :: ps, f) else Ret ([], f)
  end.

Definition send (fr : frame) (f : fragment_master) (b : buffer) :
    outcome (list (list Z) * fragment_master) :=
  '(f, b) ← fragment_outgoing fr f b;
  if decide (len b > 0)
  then '(ps, f) ← drain (Z.to_nat MAX_FRAGS) fr f b; Ret (content b :: ps, f)
  else Ret ([], f).

Lemma drain_ok fr seq size c n i f b :
  frag_frame fr → 0 ≤ seq < 256 → (0 < size)%nat → Z.of_nat size ≤ PAYLOAD_SIZE_DYNAMIC fr →
  c ≠ [] → Forall is_byte c → (n_parts size c ≤ 32)%nat →
  sending fr seq size c i f → (i ≤ n_parts size c)%nat → (n_parts size c - i < n)%nat →
  ∃ f', drain n fr f b =
      Ret (map (wire_part seq size c) (List.seq i (n_parts size c - i)), f') ∧
    sending fr seq size c (n_parts size c) f' ∧
    incoming f' = incoming f ∧ wakeup f' = wakeup f.
Proof.
  intros Hfr Hs Hz Hm Hc Hb Hn. revert i f b.
  induction n as [|n IH]; intros i f b Hf Hi Hfuel; [lia|]. cbn [drain].
  destruct (decide (i = n_parts size c)) as [->|Hne].
  - rewrite (fragment_ready_to_send_done fr seq size c Hz Hc Hn f b Hf) || rewrite (fragment_ready_to_send_done fr seq size c Hz Hc f b Hf). bret.
    rewrite Nat.sub_diag. by exists f.
  - destruct (fragment_ready_to_send_ok fr seq size c Hfr Hs Hz Hm Hc Hb Hn i f b Hf)
      as (f1 & b1 & E & Hf1 & _ & Hb1 & Hi1 & Hw1); [lia|]. rewrite E. bret.
    destruct (IH (S i) f1 b1 Hf1) as (f2 & E2 & Hf2 & Hi2 & Hw2); [lia|lia|]. rewrite E2. bret.
    exists f2. split; [|by rewrite Hi2, Hw2].
    replace (n_parts size c - i)%nat with (S (n_parts size c - S i)) by lia.
    cbn [List.seq map]. by rewrite Hb1.
Qed.

Lemma content_pos b : wf_buf b → (0 < len b ↔ content b ≠ []).
Proof.
  intros (pre & post & _ & _ & Hl & _)%wf_buf_inv. destruct (content b); cbn in *; split; lia || done.
Qed.

(** Nothing is waiting to be sent. *)
Definition idle (fr : frame) (f : fragment_master) : Prop :=
  wf_sender fr f ∧ len (outgoing f) = 0.

Lemma sending_idle fr seq size c f :
  0 ≤ seq < 256 → (0 < size)%nat → c ≠ [] → sending fr seq size c (n_parts size c) f → idle fr f.
Proof.
  intros Hs Hz Hc (Es & _ & _ & Hr & p & q & Eo & Ho).
  split; [split; [by rewrite Es|done]|].
  rewrite Eo. cbn [len mkbuf]. rewrite length_drop. destruct (n_parts_spec size c Hz Hc). lia.
Qed.

Lemma n_parts_Z s c : (0 < s)%nat →
  Z.of_nat (n_parts s c) = (Z.of_nat (length c) + Z.of_nat s - 1) / Z.of_nat s.
Proof. intros. unfold n_parts. rewrite Nat2Z.inj_div. f_equal. lia. Qed.

Lemma fragment_prepend_whole pre c post :
  (4 ≤ length pre)%nat →
  fragment_prepend_flags FRAG_WHOLE 0 0 0 (mkbuf pre c post) =
  Ret (tt, mkbuf (take (length pre - 4) pre) (be32 0 ++ c) post).
Proof.
  intros Hp. unfold fragment_prepend_flags.
  change (be32 (u32 _)) with (be32 0).
  rewrite buf_write_prepend_mk by (apply be32_bytes || (change (length (be32 0)) with 4%nat; lia)).
  bret. by rewrite ASSERT_ok.
Qed.

Section send.
Context (fr : frame) (f : fragment_master) (b : buffer).
Context (Hfr : frag_frame fr) (Hidle : idle fr f) (Hb : wf_buf b) (Hbs : Forall is_byte (content b)).
Context (Hl : 0 < len b ≤ PAYLOAD_SIZE fr) (Ho : 4 ≤ offset b).
Let c := content b.

Lemma send_content : c ≠ [] ∧ len b = Z.of_nat (length c) ∧ ∃ pre post, b = mkbuf pre c post ∧
  Z.of_nat (length pre + length c + length post) < BUF_SIZE_MAX.
Proof using Hb Hl.
  destruct (wf_buf_mk b Hb) as (pre & post & Eb & Hm). fold c in Eb, Hm.
  split; [apply content_pos; [done|lia]|]. split; [by rewrite Eb|]. by exists pre, post.
Qed.

Lemma send_whole : len b ≤ PAYLOAD_SIZE_DYNAMIC fr → send fr f b = Ret ([be32 0 ++ c], f).
Proof using Hfr Hidle Hb Hbs Hl Ho.
  intros Hd. destruct send_content as (Hc & Elen & pre & post & Eb & Hm). destruct Hidle as [_ Hid].
  unfold send, fragment_outgoing. rewrite (decide_True (P := len b > 0)) by lia.
  rewrite (decide_False (P := len b > PAYLOAD_SIZE_DYNAMIC fr)) by lia.
  rewrite Eb, fragment_prepend_whole by (rewrite Eb in Ho; cbn in Ho; lia).
  bret. cbn [len mkbuf]. rewrite decide_True by (rewrite length_app, length_be32; lia).
  change (Z.to_nat MAX_FRAGS) with 32%nat. cbn [drain].
  unfold fragment_ready_to_send, fragment_outgoing_defined.
  rewrite Hid, bool_decide_eq_false_2 by lia. bret. by rewrite content_mk.
Qed.

Context (size : nat) (Hz : (0 < size)%nat) (Hzm : Z.of_nat size ≤ PAYLOAD_SIZE_DYNAMIC fr).
Context (Es : optimal_fragment_size (len b) (PAYLOAD_SIZE_DYNAMIC fr) = Ret (Z.of_nat size)).
Context (Hd : PAYLOAD_SIZE_DYNAMIC fr < len b).

Lemma send_dropped : (32 < n_parts size c)%nat →
  send fr f b = Ret ([], set_outgoing (outgoing_seq_id f) (Z.of_nat size) (outgoing_frag_id f)
    (outgoing f) (outgoing_return f) f).
Proof using Hb Hl Hz Es Hd.
  intros Hn. destruct send_content as (Hc & Elen & _). pose proof (n_parts_spec size c Hz Hc) as Hnp.
  unfold send, fragment_outgoing. rewrite (decide_True (P := len b > 0)) by lia.
  rewrite (decide_True (P := len b > PAYLOAD_SIZE_DYNAMIC fr)) by lia.
  rewrite Es. bret. rewrite decide_True by (unfold MAX_FRAGS; nia). unfold drop_packet. by bret.
Qed.

Let seq := (outgoing_seq_id f + 1) mod 256.

Lemma send_parts : (n_parts size c ≤ 32)%nat →
  ∃ f', send fr f b = Ret (map (wire_part seq size c) (List.seq 0 (n_parts size c)), f') ∧
    idle fr f' ∧ incoming f' = incoming f ∧ outgoing_seq_id f' = seq.
Proof using Hfr Hidle Hb Hbs Hl Hz Hzm Es Hd.
  intros Hn. destruct send_content as (Hc & Elen & pre & post & Eb & Hm).
  destruct Hidle as [(Hsq & Hout & Hret) Hid]. pose proof Hfr as (Hwf & _ & _).
  pose proof (frame_room fr 0 Hwf) as [Hh0 Hroom]. fold (FRAME_HEADROOM fr) in *.
  assert (BUF_SIZE fr < BUF_SIZE_MAX) as Hbsz by apply Hwf.
  assert (0 ≤ seq < 256) as Hseq by (by apply Z.mod_pos_bound).
  pose proof (n_parts_spec size c Hz Hc) as Hnp.
  unfold send, fragment_outgoing. rewrite (decide_True (P := len b > 0)) by lia.
  rewrite (decide_True (P := len b > PAYLOAD_SIZE_DYNAMIC fr)) by lia.
  rewrite Es. bret. rewrite decide_False by (unfold MAX_FRAGS; nia).
  set (f1 := set_outgoing (outgoing_seq_id f) (Z.of_nat size) (outgoing_frag_id f) (outgoing f)
               (outgoing_return f) f).
  destruct (buf_init_sized _ _ (FRAME_HEADROOM fr) Hout) as (p & q & Einit & Hp & Hq); [lia|].
  change (outgoing f1) with (outgoing f). change (outgoing_return f1) with (outgoing_return f).
  rewrite Einit. bret. rewrite (ASSERT_ok (true = true)) by done. bret.
  rewrite Eb. rewrite buf_copy_mk by (done || (cbn [length]; lia)). bret.
  rewrite (ASSERT_ok (true = true)) by done. bret.
  change (outgoing_seq_id f1) with (outgoing_seq_id f).
  rewrite modulo_add_ok by (unfold N_SEQ_ID in *; lia). bret. change N_SEQ_ID with 256. fold seq.
  set (f2 := set_outgoing seq (Z.of_nat size) 0 (mkbuf p ([] ++ c) (drop (length c) q))
               (outgoing_return f) f1).
  assert (sending fr seq size c 0 f2) as Hf2.
  { do 4 (split; [done|]). exists p, (drop (length c) q). split; [done|].
    destruct Hout as (d & _ & _ & Ecap). apply sized_eq. rewrite length_drop, app_nil_l. lia. }
  destruct (fragment_ready_to_send_ok fr seq size c Hfr Hseq Hz Hzm Hc Hbs Hn 0 f2
    (set_len 0 (mkbuf pre c post)) Hf2) as (f3 & b3 & E3 & Hf3 & Hb3 & Hc3 & Hi3 & Hw3); [lia|].
  rewrite E3. bret. rewrite ASSERT_ok by done. bret.
  rewrite (decide_True (P := len b3 > 0)) by (apply Z.lt_gt, content_pos; [done|by rewrite Hc3]).
  destruct (drain_ok fr seq size c 32 1 f3 b3 Hfr Hseq Hz Hzm Hc Hbs Hn Hf3)
    as (f4 & E4 & Hf4 & Hi4 & _); [lia|lia|].
  change (Z.to_nat MAX_FRAGS) with 32%nat. rewrite E4. bret.
  exists f4. split; [|split; [by eapply sending_idle|split; [by rewrite Hi4, Hi3|apply Hf4]]].
  rewrite Hc3. do 2 f_equal. replace (n_parts size c) with (S (n_parts size c - 1)) at 2 by lia.
  done.
Qed.
End send.

(** The largest multiple of four a part's payload may have. *)
Definition largest_part (fr : frame) : Z := PAYLOAD_SIZE_DYNAMIC fr - PAYLOAD_SIZE_DYNAMIC fr mod 4.

(** A datagram goes out whole under an empty header, or in parts of one size, a
    multiple of four bytes, under the next sequence number, as many as the
    largest parts would need, or not at all when that is more than 32. *)
Lemma send_ok fr f b :
  frag_frame fr → idle fr f → wf_buf b → Forall is_byte (content b) →
  0 < len b ≤ PAYLOAD_SIZE fr → 4 ≤ offset b →
  let c := content b in
  let seq := (outgoing_seq_id f + 1) mod 256 in
  if decide (len b ≤ PAYLOAD_SIZE_DYNAMIC fr) then send fr f b = Ret ([be32 0 ++ c], f)
  else ∃ size f', (0 < size)%nat ∧ Z.of_nat size ≤ PAYLOAD_SIZE_DYNAMIC fr ∧
    Z.of_nat size mod 4 = 0 ∧
    Z.of_nat (n_parts size c) = (len b + largest_part fr - 1) / largest_part fr ∧
    idle fr f' ∧ incoming f' = incoming f ∧
    if decide (n_parts size c ≤ 32)%nat
    then send fr f b = Ret (map (wire_part seq size c) (List.seq 0 (n_parts size c)), f') ∧
         outgoing_seq_id f' = seq
    else send fr f b = Ret ([], f').
Proof.
  intros Hfr Hidle Hb Hbs Hl Ho c seq.
  destruct (decide (len b ≤ PAYLOAD_SIZE_DYNAMIC fr)) as [Hd|Hd]; [by apply send_whole|].
  destruct (optimal_fragment_size_ok (len b) (PAYLOAD_SIZE_DYNAMIC fr)) as (s & Es & Hs & Hs4 & Hn);
    [lia|destruct Hfr as [Hwf _]; clear - Hwf; geometry; lia|].
  pose proof (Z.mod_pos_bound (PAYLOAD_SIZE_DYNAMIC fr) 4 ltac:(lia)).
  exists (Z.to_nat s). assert (Z.of_nat (Z.to_nat s) = s) as Ez by lia.
  assert (Z.of_nat (n_parts (Z.to_nat s) c) = (len b + largest_part fr - 1) / largest_part fr) as Hp.
  { unfold largest_part. rewrite <- Hn, n_parts_Z, Ez by lia. do 3 f_equal. symmetry.
    by destruct (send_content fr b Hb Hl) as (_ & ? & _). }
  assert (PAYLOAD_SIZE_DYNAMIC fr < len b) as Hd' by lia. rewrite <- Ez in Es.
  destruct (decide (n_parts (Z.to_nat s) c ≤ 32)%nat) as [Hnp|Hnp].
  - destruct (send_parts fr f b Hfr Hidle Hb Hbs Hl (Z.to_nat s) ltac:(lia) ltac:(lia) Es Hd' Hnp)
      as (f' & E & Hi & Hin & Hsq). exists f'. rewrite Ez. repeat (split; [done || lia|]). done.
  - pose proof (send_dropped fr f b Hb Hl (Z.to_nat s) ltac:(lia) Es Hd' ltac:(fold c; lia)) as E.
    eexists (set_outgoing _ _ _ _ _ f). rewrite E, Ez. split; [lia|]. split; [lia|]. split; [done|]. split; [done|].
    split; [exact Hidle|done].
Qed.

(** ** The map of the parts received *)

(** Bit [b] stands for part [b], and the bits from the last part on for it. *)
Definition map_of (k : nat) (S : gset nat) (m : Z) : Prop :=
  0 ≤ m < 4294967296 ∧
  ∀ b, (b < 32)%nat → Z.testbit m (Z.of_nat b) = bool_decide (Nat.min b (k - 1) ∈ S).

Lemma map_of_empty k : map_of k ∅ 0.
Proof.
  split; [lia|]. intros b _. rewrite Z.bits_0. symmetry. apply bool_decide_eq_false_2.
  by apply not_elem_of_empty.
Qed.

Definition part_bit (k i : nat) : Z :=
  u32 (Z.shiftl (if decide (S i = k) then FRAG_MAP_MASK else 1) (Z.of_nat i)).

Lemma part_bit_spec k i b :
  (i < k ≤ 32)%nat → (b < 32)%nat →
  Z.testbit (part_bit k i) (Z.of_nat b) = bool_decide (Nat.min b (k - 1) = i).
Proof.
  intros Hi Hb. unfold part_bit, wrap. rewrite Z.mod_pow2_bits_low by lia.
  rewrite Z.shiftl_spec by lia. case_decide as Hk.
  - change FRAG_MAP_MASK with (Z.ones 32). rewrite Z.testbit_ones by lia.
    destruct (decide (i ≤ b)%nat).
    + rewrite bool_decide_eq_true_2 by lia. lia.
    + rewrite bool_decide_eq_false_2 by lia. lia.
  - destruct (decide (b = i)) as [->|Hne].
    + rewrite Z.sub_diag. rewrite bool_decide_eq_true_2 by lia. done.
    + rewrite bool_decide_eq_false_2 by lia. destruct (decide (b < i)%nat).
      * by rewrite Z.testbit_neg_r by lia.
      * apply (Z.bits_above_log2 1); [lia|]. change (Z.log2 1) with 0. lia.
Qed.

Lemma map_of_add k S m i :
  (i < k ≤ 32)%nat → map_of k S m → map_of k (S ∪ {[i]}) (Z.lor m (part_bit k i)).
Proof.
  intros Hi [Hm Hb]. split.
  - pose proof (wrap_range 32 (Z.shiftl (if decide (Datatypes.S i = k) then FRAG_MAP_MASK else 1)
      (Z.of_nat i)) ltac:(lia)) as Hw. fold (part_bit k i) in Hw.
    change (2 ^ 32) with 4294967296 in Hw.
    split; [apply Z.lor_nonneg; lia|]. change 4294967296 with (2 ^ 32).
    destruct (decide (Z.lor m (part_bit k i) = 0)) as [->|]; [lia|].
    apply Z.log2_lt_pow2; [apply Z.le_neq; split; [apply Z.lor_nonneg; lia|done]|].
    rewrite Z.log2_lor by lia. apply Z.max_lub_lt.
    + destruct (decide (m = 0)) as [->|]; [cbn; lia|]. apply Z.log2_lt_pow2; lia.
    + destruct (decide (part_bit k i = 0)) as [->|]; [cbn; lia|]. apply Z.log2_lt_pow2; lia.
  - intros b Hlt. rewrite Z.lor_spec, Hb, part_bit_spec by done. apply eq_true_iff_eq.
    rewrite orb_true_iff, !bool_decide_eq_true, elem_of_union, elem_of_singleton. done.
Qed.

Lemma map_of_full k S m :
  (0 < k ≤ 32)%nat → (∀ i, i ∈ S → (i < k)%nat) → map_of k S m →
  Z.land m FRAG_MAP_MASK = FRAG_MAP_MASK ↔ S = set_seq 0 k.
Proof.
  intros Hk HS [Hm Hb]. change FRAG_MAP_MASK with (Z.ones 32).
  rewrite Z.land_ones, Z.mod_small by lia. split.
  - intros ->. apply leibniz_equiv. intros i. rewrite elem_of_set_seq. split.
    + intros Hi%HS. lia.
    + intros [_ Hi]. specialize (Hb i ltac:(lia)).
      rewrite Z.testbit_ones, Nat.min_l in Hb by lia.
      apply (bool_decide_eq_true_1 (i ∈ S)). rewrite <- Hb. lia.
  - intros ->. apply Z.bits_inj'. intros b Hb0. rewrite Z.testbit_ones by lia.
    destruct (decide (b < 32)).
    + pose proof (Hb (Z.to_nat b) ltac:(lia)) as Hx. rewrite Z2Nat.id in Hx by lia.
      rewrite Hx, bool_decide_eq_true_2 by (apply elem_of_set_seq; lia). lia.
    + rewrite Z.bits_above_log2; [lia|lia|]. apply Z.lt_le_trans with 32; [|lia].
      destruct (decide (m = 0)) as [->|]; [cbn; lia|]. apply Z.log2_lt_pow2; lia.
Qed.

(** ** Storing a part *)

(** The datagram in a reassembly buffer, of which the parts [S] are there. *)
Definition holding (fr : frame) (size : nat) (c : list Z) (S : gset nat) (frag : fragment) : Prop :=
  f_defined frag = true ∧ max_frag_size frag = Z.of_nat size ∧
  map_of (n_parts size c) S (map_ frag) ∧
  ∃ pre mem n, f_buf frag = mkbuf pre (take n mem) (drop n mem) ∧
    Z.of_nat (length pre) = FRAME_HEADROOM_ADJ fr FRAME_HEADROOM_MARKER_FRAGMENT ∧
    Z.of_nat (length pre + length mem) = BUF_SIZE fr ∧ (n ≤ length c)%nat ∧
    (∀ i, i ∈ S → i * size + length (part size c i) ≤ n)%nat ∧
    (∀ p, (p < length c)%nat → (p / size)%nat ∈ S → mem !! p = c !! p).

Section store.
Context (fr : frame) (size : nat) (c : list Z) (Hfr : frag_frame fr).
Context (Hsize : (0 < size)%nat) (Hsize4 : Z.of_nat size mod 4 = 0).
Context (Hmax : Z.of_nat size < 65536) (Hc : c ≠ []) (Hb : Forall is_byte c).
Context (Hlen : Z.of_nat (length c) ≤ PAYLOAD_SIZE fr) (Hn : (n_parts size c ≤ 32)%nat).

Lemma holding_start frag :
  sized (BUF_SIZE fr) (f_buf frag) →
  ∃ fb, buf_init (FRAME_HEADROOM_ADJ fr FRAME_HEADROOM_MARKER_FRAGMENT) (f_buf frag) =
      Ret (true, fb) ∧
    holding fr size c ∅ (Frag true (Z.of_nat size) 0 (timestamp frag) fb).
Proof.
  intros Hs. destruct Hfr as (Hwf & _). unfold FRAME_HEADROOM_ADJ.
  destruct (frame_room fr FRAME_HEADROOM_MARKER_FRAGMENT Hwf) as [H0 Hr].
  destruct (buf_init_sized _ _ (frame_headroom fr FRAME_HEADROOM_MARKER_FRAGMENT) Hs)
    as (pre & post & E & Hp & Hq); [lia|].
  exists (mkbuf pre [] post). split; [done|]. split; [done|]. split; [done|].
  split; [apply map_of_empty|]. exists pre, post, 0%nat. split; [done|]. split; [done|].
  split; [lia|]. split; [lia|]. split; [by intros i ?%not_elem_of_empty|].
  by intros p _ ?%not_elem_of_empty.
Qed.

Lemma part_lookup i p :
  (i * size ≤ p)%nat → (p < length c)%nat → (p / size)%nat = i →
  part size c i !! (p - i * size)%nat = c !! p.
Proof.
  intros Hi Hp Hd. pose proof (Nat.mod_upper_bound p size ltac:(lia)).
  pose proof (Nat.div_mod p size ltac:(lia)) as Hdm. rewrite Hd in Hdm.
  unfold part, slice. rewrite lookup_take_lt by nia. rewrite lookup_drop. f_equal. lia.
Qed.

Lemma div_part i p :
  (p < length c)%nat → (p / size)%nat = i ↔
  (i * size ≤ p < i * size + length (part size c i))%nat.
Proof.
  intros Hp. rewrite length_part. pose proof (Nat.mod_upper_bound p size ltac:(lia)).
  pose proof (Nat.div_mod p size ltac:(lia)) as Hdm. split; [intros <-; nia|].
  intros Hi. symmetry. apply (Nat.div_unique _ _ _ (p - i * size)); nia.
Qed.

Lemma holding_copy S frag i p q :
  holding fr size c S frag → (i < n_parts size c)%nat →
  ∃ fb, buf_copy_range (Z.of_nat (i * size)) (mkbuf p (part size c i) q) 0
      (Z.of_nat (length (part size c i))) (f_buf frag) = Ret (true, fb) ∧
    ∀ now, holding fr size c (S ∪ {[i]})
      (Frag true (Z.of_nat size) (Z.lor (map_ frag) (part_bit (n_parts size c) i)) now fb).
Proof.
  intros (_ & _ & Hm & pre & mem & n & Eb & Hpre & Hmem & Hnl & HS & Hp) Hi.
  destruct Hfr as (Hwf & _). destruct (frame_room fr FRAME_HEADROOM_MARKER_FRAGMENT Hwf) as [H0 Hr].
  fold (FRAME_HEADROOM_ADJ fr FRAME_HEADROOM_MARKER_FRAGMENT) in *.
  pose proof (proj1 (n_parts_lt size c i Hsize Hc) Hi) as Hlt.
  pose proof (length_part size c i) as Hlp.
  assert (length c ≤ length mem)%nat as Hcm by lia.
  assert (length (take n mem) = n) as Htn by (rewrite length_take; lia).
  assert (Forall is_byte (part size c i)) as Hbp by (by apply Forall_take, Forall_drop).
  rewrite Eb, buf_copy_range_mk; [|done|rewrite Htn, length_drop; lia].
  rewrite take_drop, Htn. set (mem' := splice (i * size) (part size c i) mem).
  set (n' := Nat.max n (i * size + length (part size c i))).
  exists (mkbuf pre (take n' mem') (drop n' mem')). split; [done|]. intros now.
  split; [done|]. split; [done|].
  split; [by apply map_of_add|]. exists pre, mem', n'. split; [done|]. split; [done|].
  assert (length mem' = length mem) as Elm by (unfold mem'; rewrite length_splice; lia).
  split; [lia|]. split; [lia|]. split.
  - intros j [Hj|Hj%elem_of_singleton]%elem_of_union; [specialize (HS j Hj); lia|subst; lia].
  - intros x Hx Hd. unfold mem', splice.
    pose proof (div_part i x Hx) as Hdi.
    destruct (decide (x < i * size)%nat).
    { rewrite lookup_app_l by (rewrite length_take; lia). rewrite lookup_take_lt by lia.
      apply Hp; [done|]. apply elem_of_union in Hd as [?|Hd%elem_of_singleton]; [done|lia]. }
    rewrite lookup_app_r, length_take, Nat.min_l by (rewrite ?length_take; lia).
    destruct (decide (x < i * size + length (part size c i))%nat).
    { rewrite lookup_app_l by lia. apply part_lookup; [lia|done|lia]. }
    rewrite lookup_app_r, lookup_drop by lia.
    replace (_ + _ + _)%nat with x by lia. apply Hp; [done|].
    apply elem_of_union in Hd as [?|Hd%elem_of_singleton]; [done|lia].
Qed.

(** The fragment type of a part, and the size told in its header. *)
Definition part_type (i : nat) : Z :=
  if bool_decide (Datatypes.S i = n_parts size c) then FRAG_YES_LAST else FRAG_YES_NOTLAST.

Lemma store_part_ok now S frag i p q :
  (holding fr size c S frag ∨
   (S = ∅ ∧ f_defined frag = false ∧ sized (BUF_SIZE fr) (f_buf frag))) →
  (i < n_parts size c)%nat →
  ∃ frag', store_part now fr (part_type i) (Z.of_nat i) (Z.of_nat size)
      (mkbuf p (part size c i) q) frag = Ret (true, frag') ∧
    holding fr size c (S ∪ {[i]}) frag'.
Proof.
  intros Hf Hi. unfold store_part.
  assert (∃ frag0, (if decide (f_defined frag = false ∨ max_frag_size frag ≠ Z.of_nat size)
    then '(ok, fb) ← buf_init (FRAME_HEADROOM_ADJ fr FRAME_HEADROOM_MARKER_FRAGMENT) (f_buf frag);
         ASSERT (ok = true);; Ret (Frag true (Z.of_nat size) 0 (timestamp frag) fb)
    else Ret frag) = Ret frag0 ∧ holding fr size c S frag0) as (frag0 & -> & Hf0).
  { destruct Hf as [Hf|(-> & Hd & Hs)].
    - pose proof Hf as (Hd & Hs & _). rewrite decide_False by (rewrite Hd, Hs; intros [?|?]; done).
      by exists frag.
    - rewrite decide_True by (by left). destruct (holding_start frag Hs) as (fb & -> & Hh). bret.
      rewrite ASSERT_ok by done. bret. by eexists. }
  bret. clear Hf frag. pose proof (proj1 (n_parts_lt size c i Hsize Hc) Hi) as Hlt.
  assert (Z.of_nat (length c) < BUF_SIZE_MAX).
  { destruct Hfr as (Hwf & _). destruct (frame_room fr 0 Hwf). destruct Hwf. lia. }
  rewrite int_ok by (ints; unfold BUF_SIZE_MAX in *; nia). bret.
  rewrite <- Nat2Z.inj_mul. cbn [len mkbuf].
  fold (mkbuf p (part size c i) q).
  destruct (holding_copy S frag0 i p q Hf0 Hi) as (fb & -> & Hh). bret.
  eexists. split; [done|]. pose proof Hf0 as (-> & -> & _).
  assert (u32 (Z.shiftl (if decide (part_type i = FRAG_YES_LAST) then FRAG_MAP_MASK else 1)
    (Z.of_nat i)) = part_bit (n_parts size c) i) as ->.
  { unfold part_bit, part_type. do 2 f_equal. case_bool_decide; repeat case_decide; done. }
  apply Hh.
Qed.

(** All parts together are the datagram. *)
Lemma holding_full frag :
  holding fr size c (set_seq 0 (n_parts size c)) frag → content (f_buf frag) = c ∧ wf_buf (f_buf frag).
Proof.
  intros (_ & _ & _ & pre & mem & n & -> & Hpre & Hmem & Hnl & HS & Hp).
  destruct Hfr as (Hwf & _). destruct (frame_room fr FRAME_HEADROOM_MARKER_FRAGMENT Hwf) as [H0 Hr].
  fold (FRAME_HEADROOM_ADJ fr FRAME_HEADROOM_MARKER_FRAGMENT) in *.
  pose proof (n_parts_spec size c Hsize Hc) as Hk.
  assert (n = length c) as ->.
  { specialize (HS (n_parts size c - 1)%nat). rewrite elem_of_set_seq, length_part in HS. nia. }
  rewrite content_mk. split.
  - apply list_eq. intros p. destruct (decide (p < length c)%nat) as [Hlt|Hge].
    + rewrite lookup_take_lt by done. apply Hp; [done|]. apply elem_of_set_seq.
      split; [lia|]. apply Nat.Div0.div_lt_upper_bound. nia.
    + rewrite lookup_take_ge, lookup_ge_None_2 by lia. done.
  - apply wf_mk. rewrite length_take, length_drop. destruct Hwf. lia.
Qed.
End store.

(** ** The window of sequence numbers *)

Lemma modulo_subtract_ok x y m :
  0 ≤ x < m → 0 ≤ y < m → m ≤ 65536 →
  ∃ d, modulo_subtract x y m = Ret d ∧ (y + d) mod m = x ∧ 2 * Z.abs d ≤ m.
Proof.
  intros Hx Hy Hm. unfold modulo_subtract. rewrite int_ok by (ints; lia). bret.
  rewrite int_ok by (ints; case_decide; lia). bret. rewrite ASSERT_ok by lia. bret.
  eexists. split; [done|]. destruct (decide (x > y)); case_decide; (split; [|lia]).
  - symmetry. apply (Z.mod_unique_pos _ _ (-1)); lia.
  - rewrite Z.mod_small; lia.
  - symmetry. apply (Z.mod_unique_pos _ _ 1); lia.
  - rewrite Z.mod_small; lia.
Qed.

(** Datagram [j] of a run has sequence number [s0 + j]. *)
Definition seq_no (s0 : Z) (j : nat) : Z := (s0 + Z.of_nat j) mod N_SEQ_ID.

Lemma seq_no_range s0 j : 0 ≤ seq_no s0 j < 256.
Proof. by apply Z.mod_pos_bound. Qed.

(** [P j frag]: how the fragment of datagram [j] must be; [hi] is the newest
    datagram seen. *)
Definition slot (l : fragment_list) (hi j : nat) : nat :=
  Z.to_nat ((fl_index l + (Z.of_nat j - Z.of_nat hi)) mod N_FRAG_BUF).

Definition windowed (fr : frame) (s0 : Z) (P : nat → fragment → Prop) (hi : nat)
    (l : fragment_list) : Prop :=
  (hi < 25)%nat ∧ fl_seq_id l = seq_no s0 hi ∧ 0 ≤ fl_index l < N_FRAG_BUF ∧
  length (fragments l) = 25%nat ∧
  (∀ i frag, fragments l !! i = Some frag → sized (BUF_SIZE fr) (f_buf frag)) ∧
  (∀ j frag, (j ≤ hi)%nat → fragments l !! slot l hi j = Some frag → P j frag) ∧
  (∀ j frag, (hi < j < 25)%nat → f_defined frag = false → sized (BUF_SIZE fr) (f_buf frag) →
     P j frag).

Lemma slot_lt l hi j : (slot l hi j < 25)%nat.
Proof.
  unfold slot, N_FRAG_BUF. pose proof (Z.mod_pos_bound (fl_index l + (Z.of_nat j - Z.of_nat hi)) 25).
  lia.
Qed.

Lemma slot_inj l hi j j' : (j < 25)%nat → (j' < 25)%nat → slot l hi j = slot l hi j' → j = j'.
Proof.
  unfold slot, N_FRAG_BUF. intros Hj Hj' E.
  pose proof (Z.mod_pos_bound (fl_index l + (Z.of_nat j - Z.of_nat hi)) 25).
  pose proof (Z.mod_pos_bound (fl_index l + (Z.of_nat j' - Z.of_nat hi)) 25).
  apply Z2Nat.inj in E; [|lia..]. Z.to_euclidean_division_equations. lia.
Qed.

(** The newest datagram moves on by one. *)
Lemma advance_one fr s0 P hi l :
  windowed fr s0 P hi l → (S hi < 25)%nat →
  ∃ l', advance_loop 1 l = Ret l' ∧ windowed fr s0 P (S hi) l' ∧
    ∀ j, (j < 25)%nat → slot l' (S hi) j = slot l hi j.
Proof.
  intros (Hhi & Hs & Hi & Hl & Hsz & HP & Hnew) Hlt. cbn [advance_loop].
  rewrite (modulo_add_ok (fl_index l)) by (unfold N_FRAG_BUF in *; lia). bret.
  set (index := (fl_index l + 1) mod N_FRAG_BUF).
  assert (0 ≤ index < 25) as Hix by (by apply Z.mod_pos_bound).
  assert (slot l hi (S hi) = Z.to_nat index) as Eslot.
  { unfold slot, index. do 2 f_equal. lia. }
  destruct (lookup_lt_is_Some_2 (fragments l) (Z.to_nat index)) as [frag Hf]; [lia|].
  unfold array_get. rewrite Hf. cbn [of_option]. bret. rewrite array_set_ok by lia. bret.
  rewrite modulo_add_ok, Hs by (rewrite ?Hs; pose proof (seq_no_range s0 hi); unfold N_SEQ_ID; lia).
  bret. set (l' := FL ((seq_no s0 hi + 1) mod N_SEQ_ID) index
                (<[Z.to_nat index := set_f_defined false frag]> (fragments l))).
  assert (∀ j, slot l' (S hi) j = slot l hi j) as Hslot.
  { intros j. unfold slot, l', index. cbn [fl_index]. f_equal. rewrite Zplus_mod_idemp_l. f_equal. lia. }
  exists l'. split; [done|]. split; [|auto]. split; [done|]. split; [|split; [done|split; [|split; [|split]]]].
  - unfold l'. cbn [fl_seq_id]. unfold seq_no. rewrite Zplus_mod_idemp_l. f_equal. lia.
  - unfold l'. cbn [fragments]. by rewrite length_insert.
  - intros i g. unfold l'. cbn [fragments]. intros [(<- & <- & _)|[_ Hg]]%list_lookup_insert_Some.
    + cbn [set_f_defined f_buf]. by eapply Hsz.
    + by eapply Hsz.
  - intros j g Hj. rewrite Hslot. unfold l'. cbn [fragments].
    intros [(Ei & <- & _)|[Hne Hg]]%list_lookup_insert_Some.
    + rewrite <- Eslot in Ei. apply slot_inj in Ei as <-; [|lia..].
      apply Hnew; [lia|done|]. cbn [set_f_defined f_buf]. by eapply Hsz.
    + assert (j ≠ S hi) by (intros ->; by rewrite <- Eslot in Hne). apply HP; [lia|done].
  - intros j g Hj. apply Hnew. lia.
Qed.

Lemma advance_loop_add n m l :
  advance_loop (n + m) l = (l ← advance_loop n l; advance_loop m l).
Proof.
  revert l. induction n as [|n IH]; intros l; [done|]. cbn [advance_loop Nat.add].
  rewrite !bind_assoc. apply bind_ext. intros index. rewrite !bind_assoc. apply bind_ext. intros g.
  rewrite !bind_assoc. apply bind_ext. intros gs. rewrite !bind_assoc. apply bind_ext. intros s.
  apply IH.
Qed.

Lemma advance_loop_ok fr s0 P n : ∀ hi l,
  windowed fr s0 P hi l → (hi + n < 25)%nat →
  ∃ l', advance_loop n l = Ret l' ∧ windowed fr s0 P (hi + n) l' ∧
    ∀ j, (j < 25)%nat → slot l' (hi + n) j = slot l hi j.
Proof.
  induction n as [|n IH]; intros hi l Hw Hn.
  { exists l. rewrite Nat.add_0_r. by split; [|split]. }
  destruct (advance_one fr s0 P hi l Hw) as (l1 & E1 & Hw1 & Hs1); [lia|].
  destruct (IH (S hi) l1 Hw1) as (l2 & E2 & Hw2 & Hs2); [lia|].
  exists l2. rewrite (advance_loop_add 1 n), E1. bret. replace (hi + S n)%nat with (S hi + n)%nat by lia.
  split; [done|]. split; [done|]. intros j Hj. by rewrite Hs2, Hs1.
Qed.

(** Each datagram of the window finds its own buffer. *)
Lemma get_buf_ok fr s0 P hi l j :
  windowed fr s0 P hi l → (j < 25)%nat →
  ∃ l' i frag, fragment_list_get_buf l (seq_no s0 j) = Ret (i, l') ∧
    windowed fr s0 P (Nat.max hi j) l' ∧ i = slot l' (Nat.max hi j) j ∧
    fragments l' !! i = Some frag ∧ P j frag.
Proof.
  intros Hw Hj. pose proof Hw as (Hhi & Hs & Hi & Hl & _). unfold fragment_list_get_buf.
  destruct (modulo_subtract_ok (seq_no s0 j) (seq_no s0 hi) N_SEQ_ID) as (d & Ed & Hd & Hab);
    [apply seq_no_range..|done|].
  assert (d = Z.of_nat j - Z.of_nat hi) as ->.
  { revert Hd Hab. unfold seq_no, N_SEQ_ID. rewrite Zplus_mod_idemp_l. clear - Hj Hhi.
    intros. Z.to_euclidean_division_equations. lia. }
  rewrite Hs, Ed. bret.
  rewrite (decide_False (P := Z.abs _ >= _)) by (unfold N_FRAG_BUF; lia). cbv beta iota.
  destruct (advance_loop_ok fr s0 P (j - hi) hi l Hw) as (l' & E & Hw' & Hs'); [lia|].
  replace (Z.to_nat (Z.of_nat j - Z.of_nat hi)) with (j - hi)%nat by lia. rewrite E. bret.
  replace (hi + (j - hi))%nat with (Nat.max hi j) in * by lia.
  pose proof Hw' as (_ & _ & Hi' & Hl' & _ & HP' & _).
  rewrite modulo_add_ok; [|done|unfold N_FRAG_BUF; case_decide; lia|done]. bret.
  assert (Z.to_nat ((fl_index l' + (if decide (Z.of_nat j - Z.of_nat hi > 0) then 0
            else Z.of_nat j - Z.of_nat hi)) mod N_FRAG_BUF) = slot l' (Nat.max hi j) j) as ->.
  { unfold slot. do 3 f_equal. case_decide; lia. }
  pose proof (slot_lt l' (Nat.max hi j) j) as Hlt.
  destruct (lookup_lt_is_Some_2 (fragments l') (slot l' (Nat.max hi j) j)) as [frag Hf]; [lia|].
  exists l', (slot l' (Nat.max hi j) j), frag. split; [done|]. split; [done|]. split; [done|].
  split; [done|]. apply HP'; [lia|done].
Qed.

(** The fragment of one datagram is replaced, and only what is asked of that
    datagram changes. *)
Lemma windowed_set fr s0 (P Q : nat → fragment → Prop) hi l j frag :
  windowed fr s0 P hi l → (j ≤ hi)%nat → sized (BUF_SIZE fr) (f_buf frag) → Q j frag →
  (∀ k g, k ≠ j → P k g → Q k g) →
  windowed fr s0 Q hi (FL (fl_seq_id l) (fl_index l) (<[slot l hi j := frag]> (fragments l))).
Proof.
  intros (Hhi & Hs & Hi & Hl & Hsz & HP & Hnew) Hj Hf HQ HPQ.
  split; [done|]. split; [done|]. split; [done|]. cbn [fragments].
  split; [by rewrite length_insert|]. split; [|split].
  - intros i g [(_ & <- & _)|[_ Hg]]%list_lookup_insert_Some; [done|by eapply Hsz].
  - intros k g Hk. change (slot _ hi k) with (slot l hi k).
    intros [(E & <- & _)|[Hne Hg]]%list_lookup_insert_Some.
    + by apply slot_inj in E as <-; [|lia..].
    + apply HPQ; [by intros ->|]. by apply HP.
  - intros k g Hk Hd Hb. apply HPQ; [lia|]. by apply Hnew.
Qed.

(** ** Reassembly

    A run of at most 25 datagrams, whose parts arrive in any order, any number
    of times.  The abstract receiver keeps the set of parts it has of each. *)
Record datagram := DG { dg_size : nat; dg_bytes : list Z }.

Definition wf_datagram (fr : frame) (d : datagram) : Prop :=
  (0 < dg_size d)%nat ∧ Z.of_nat (dg_size d) mod 4 = 0 ∧ Z.of_nat (dg_size d) < 65536 ∧
  dg_bytes d ≠ [] ∧ Forall is_byte (dg_bytes d) ∧
  Z.of_nat (length (dg_bytes d)) ≤ PAYLOAD_SIZE fr ∧
  (n_parts (dg_size d) (dg_bytes d) ≤ 32)%nat.

Definition dg_parts (d : datagram) : nat := n_parts (dg_size d) (dg_bytes d).

Definition arrive (ds : list datagram) (S : nat → gset nat) (j i : nat) :
    (nat → gset nat) * option nat :=
  let T := S j ∪ {[i]} in
  if decide (T = set_seq 0 (default 0%nat (dg_parts <$> ds !! j)))
  then (<[j := ∅]> S, Some j) else (<[j := T]> S, None).

Fixpoint arrivals (ds : list datagram) (S : nat → gset nat) (xs : list (nat * nat)) : list nat :=
  match xs with
  | [] => []
  | (j, i) :: xs => let '(T, o) := arrive ds S j i in option_list o ++ arrivals ds T xs
  end.

(** The fragment of a datagram of which the parts [S] have arrived. *)
Definition partly (fr : frame) (d : datagram) (S : gset nat) (frag : fragment) : Prop :=
  (S ≠ ∅ → holding fr (dg_size d) (dg_bytes d) S frag) ∧
  (S = ∅ → f_defined frag = false ∧ sized (BUF_SIZE fr) (f_buf frag)) ∧
  (∀ i, i ∈ S → i < dg_parts d)%nat.

Definition of_run (fr : frame) (ds : list datagram) (S : nat → gset nat) (j : nat)
    (frag : fragment) : Prop :=
  match ds !! j with Some d => partly fr d (S j) frag | None => True end.

(** A receiver in the middle of the run. *)
Definition receiving (fr : frame) (s0 : Z) (ds : list datagram) (S : nat → gset nat)
    (f : fragment_master) : Prop :=
  ∃ hi, windowed fr s0 (of_run fr ds S) hi (incoming f).

Definition part_packet (s0 : Z) (ds : list datagram) (j i : nat) (b : buffer) : Prop :=
  wf_buf b ∧ ∃ d, ds !! j = Some d ∧ (i < dg_parts d)%nat ∧
    content b = wire_part (seq_no s0 j) (dg_size d) (dg_bytes d) i.

(** What is delivered: the datagram that is complete, or nothing. *)
Definition delivers (ds : list datagram) (o : option nat) (b : buffer) : Prop :=
  match o with
  | Some j => wf_buf b ∧ ∃ d, ds !! j = Some d ∧ content b = dg_bytes d
  | None => len b = 0
  end.

Lemma holding_sized fr size c S frag : holding fr size c S frag → sized (BUF_SIZE fr) (f_buf frag).
Proof.
  intros (_ & _ & _ & pre & mem & n & -> & _ & Hm & _). apply sized_eq.
  rewrite length_take, length_drop. lia.
Qed.

Section reassembly.
Context (fr : frame) (s0 : Z) (ds : list datagram).
Context (Hfr : frag_frame fr) (Hds : Forall (wf_datagram fr) ds) (H25 : (length ds ≤ 25)%nat).

(** The bytes of a part are read as what they were written for. *)
Lemma fragment_incoming_part now f j i b d :
  wf_buf b → ds !! j = Some d → (i < dg_parts d)%nat →
  content b = wire_part (seq_no s0 j) (dg_size d) (dg_bytes d) i →
  ∃ p q flags, fragment_incoming now fr f b =
    incoming_part now fr flags (part_type (dg_size d) (dg_bytes d) i) f
      (mkbuf p (part (dg_size d) (dg_bytes d) i) q) ∧
    Z.land (Z.shiftr flags FRAG_SEQ_ID_SHIFT) FRAG_SEQ_ID_MASK = seq_no s0 j ∧
    Z.land (Z.shiftr flags FRAG_ID_SHIFT) FRAG_ID_MASK = Z.of_nat i ∧
    (if decide (part_type (dg_size d) (dg_bytes d) i = FRAG_YES_LAST)
     then Z.shiftl (Z.land (Z.shiftr flags FRAG_SIZE_SHIFT) FRAG_SIZE_MASK) FRAG_SIZE_ROUND_SHIFT
     else Z.of_nat (length (part (dg_size d) (dg_bytes d) i))) = Z.of_nat (dg_size d).
Proof.
  intros Hb Hd Hi Hcont.
  pose proof (proj1 (Forall_lookup _ _) Hds j d Hd) as (Hz & Hz4 & Hzm & Hne & Hby & Hln & Hnp).
  destruct (wf_buf_mk b Hb) as (pre & post & Eb & _). rewrite Hcont in Eb.
  set (last := bool_decide (S i = n_parts (dg_size d) (dg_bytes d))) in *.
  set (flags := part_flags (seq_no s0 j) (Z.of_nat (dg_size d)) last i).
  pose proof (part_flags_fields (seq_no s0 j) (Z.of_nat (dg_size d)) last i
    (seq_no_range s0 j) ltac:(unfold dg_parts in *; lia) ltac:(lia) Hz4)
    as (Hr & Htype & Hseq & Hid & Hsz). fold flags in Hr, Htype, Hseq, Hid, Hsz.
  exists (pre ++ be32 flags), post, flags. split; [|split; [done|split; [done|]]].
  - unfold fragment_incoming, wire_part in *. fold last flags in Eb.
    rewrite decide_True by (rewrite Eb; cbn [len mkbuf]; rewrite length_app, length_be32; lia).
    rewrite Eb. unfold buf_read_u32.
    erewrite bindM_Ret by (change 4 with (Z.of_nat (length (be32 flags))); apply buf_read_mk).
    rewrite mretM. bret. cbn [fmap option_fmap option_map].
    rewrite from_be_be32, (wrap_small 32) by exact Hr. rewrite Htype.
    unfold part_type. fold last. destruct last; [by rewrite decide_False, decide_True by auto|].
    by rewrite decide_False, decide_True by auto.
  - unfold part_type. fold last. destruct last eqn:El; [rewrite decide_True by done; auto|].
    rewrite decide_False by done. unfold last in El. apply bool_decide_eq_false in El.
    rewrite length_part. unfold dg_parts in Hi.
    pose proof (part_last (dg_size d) (dg_bytes d) i Hz Hne Hi). lia.
Qed.

(** One packet: the receiver does what the abstract one does. *)
Lemma incoming_step now S f j i b :
  receiving fr s0 ds S f → part_packet s0 ds j i b →
  let '(S', o) := arrive ds S j i in
  ∃ f' b', fragment_incoming now fr f b = Ret (f', b') ∧
    receiving fr s0 ds S' f' ∧ delivers ds o b'.
Proof.
  intros (hi & Hw) (Hb & d & Hd & Hi & Hcont).
  pose proof (proj1 (Forall_lookup _ _) Hds j d Hd) as (Hz & Hz4 & Hzm & Hne & Hby & Hln & Hnp).
  destruct (fragment_incoming_part now f j i b d Hb Hd Hi Hcont)
    as (p & q & flags & -> & Hseq & Hid & Hsz).
  pose proof (lookup_lt_Some _ _ _ Hd) as Hjl.
  destruct (get_buf_ok fr s0 _ hi (incoming f) j Hw ltac:(lia))
    as (l & k & frag & Eg & Hwl & -> & Hk & HP).
  unfold of_run in HP. rewrite Hd in HP. destruct HP as (HP1 & HP0 & HPlt).
  unfold incoming_part. rewrite Hseq, Hid. cbn [len mkbuf]. rewrite Hsz, Eg. bret.
  rewrite decide_False.
  2:{ intros H. apply H. change FRAG_SIZE_ROUND_MASK with (Z.ones 2). by rewrite Z.land_ones. }
  cbn [incoming set_incoming]. unfold array_get. rewrite Hk. cbn [of_option]. bret.
  fold (mkbuf p (part (dg_size d) (dg_bytes d) i) q).
  destruct (store_part_ok fr (dg_size d) (dg_bytes d) Hfr Hz Hzm Hne Hby Hln Hnp now (S j) frag i p q)
    as (frag' & -> & Hh); [|done|].
  { destruct (decide (S j = ∅)) as [E|E]; [right|left; auto]. by destruct (HP0 E). }
  bret. cbn [andb]. set (T := S j ∪ {[i]}) in *.
  assert (∀ x, x ∈ T → (x < dg_parts d)%nat) as HT.
  { intros x [Hx|Hx%elem_of_singleton]%elem_of_union; [auto|by subst]. }
  pose proof Hh as (_ & _ & Hmap & _).
  pose proof (map_of_full (dg_parts d) T _ ltac:(unfold dg_parts in *; lia) HT Hmap) as Hfull.
  pose proof Hwl as (Hhi & _ & _ & Hlen & _).
  assert (T ≠ ∅) as HT0.
  { intros E. apply (not_elem_of_empty (C := gset nat) i). rewrite <- E.
    by apply elem_of_union_r, elem_of_singleton. }
  unfold arrive. rewrite Hd. cbn [fmap option_fmap option_map default from_option id]. fold T.
  unfold dg_parts.
  rewrite (bool_decide_ext _ (T = set_seq 0 (n_parts (dg_size d) (dg_bytes d))) Hfull).
  rewrite array_set_ok by (rewrite Hlen; apply slot_lt). bret.
  case_bool_decide as HTf; [rewrite decide_True by done|rewrite decide_False by done].
  - eexists _, _. split; [done|]. rewrite HTf in Hh.
    destruct (holding_full fr (dg_size d) (dg_bytes d) Hfr Hz Hzm Hne Hln Hnp frag' Hh) as [Hc' Hb'].
    split; [|split; [done|by exists d]]. exists (Nat.max hi j). cbn [set_incoming incoming].
    apply (windowed_set fr s0 (of_run fr ds S)); [done|lia|exact (holding_sized _ _ _ _ _ Hh)| |].
    + unfold of_run. rewrite Hd. unfold partly. rewrite fn_lookup_insert.
      split; [done|]. split; [intros _; split; [done|exact (holding_sized _ _ _ _ _ Hh)]|].
      by intros x ?%not_elem_of_empty.
    + intros k' g Hne'. unfold of_run. by rewrite fn_lookup_insert_ne by done.
  - eexists _, _. split; [done|]. split; [|done]. exists (Nat.max hi j).
    cbn [set_incoming incoming].
    apply (windowed_set fr s0 (of_run fr ds S)); [done|lia|exact (holding_sized _ _ _ _ _ Hh)| |].
    + unfold of_run. rewrite Hd. unfold partly. rewrite fn_lookup_insert. done.
    + intros k' g Hne'. unfold of_run. by rewrite fn_lookup_insert_ne by done.
Qed.
End reassembly.

(** ** What the abstract receiver delivers *)

Section arrivals.
Context (ds : list datagram).

Definition all_parts (j : nat) : nat := default 0%nat (dg_parts <$> ds !! j).

(** Only parts that exist are held, and never all of them. *)
Definition incomplete (S : nat → gset nat) : Prop :=
  ∀ j, (∀ i, i ∈ S j → i < all_parts j)%nat ∧ (S j = set_seq 0 (all_parts j) → all_parts j = 0%nat).

Lemma full_iff j (T : gset nat) :
  (∀ i, i ∈ T → i < all_parts j)%nat →
  T = set_seq 0 (all_parts j) ↔ ∀ i, (i < all_parts j)%nat → i ∈ T.
Proof.
  intros HT. split.
  - intros -> i Hi. apply elem_of_set_seq. lia.
  - intros H. apply leibniz_equiv. intros i. rewrite elem_of_set_seq. split; [|intros; apply H; lia].
    intros Hi%HT. lia.
Qed.

Lemma arrive_lookup S j i S' o :
  arrive ds S j i = (S', o) →
  (∀ k, k ≠ j → S' k = S k) ∧
  ((o = Some j ∧ S' j = ∅ ∧ S j ∪ {[i]} = set_seq 0 (all_parts j)) ∨
   (o = None ∧ S' j = S j ∪ {[i]} ∧ S j ∪ {[i]} ≠ set_seq 0 (all_parts j))).
Proof.
  unfold arrive. case_decide; intros [= <- <-]; (split; [intros k Hk; by apply fn_lookup_insert_ne|]).
  - left. by rewrite fn_lookup_insert.
  - right. by rewrite fn_lookup_insert.
Qed.

Lemma arrive_bound S j i S' o :
  (∀ k x, x ∈ S k → x < all_parts k)%nat → (i < all_parts j)%nat → arrive ds S j i = (S', o) →
  ∀ k x, x ∈ S' k → (x < all_parts k)%nat.
Proof.
  intros HS Hi [Hne Hj]%arrive_lookup k x. destruct (decide (k = j)) as [->|]; [|rewrite Hne; auto].
  destruct Hj as [(_ & -> & _)|(_ & -> & _)]; [by intros ?%not_elem_of_empty|].
  intros [Hx|Hx%elem_of_singleton]%elem_of_union; [auto|by subst].
Qed.

(** Whatever is delivered has arrived whole. *)
Lemma arrivals_sound j xs : ∀ S,
  j ∈ arrivals ds S xs → ∀ i, (i < all_parts j)%nat → i ∈ S j ∨ (j, i) ∈ xs.
Proof.
  induction xs as [|[k x] xs IH]; intros S Hj i Hi; [by apply not_elem_of_nil in Hj|].
  cbn [arrivals] in Hj. destruct (arrive ds S k x) as [S' o] eqn:E.
  apply arrive_lookup in E as [Hne Hk]. rewrite elem_of_app in Hj.
  assert (j = k → S j ∪ {[x]} = set_seq 0 (all_parts j) → i ∈ S j ∨ (j, i) ∈ (k, x) :: xs) as Hfull.
  { intros <- Hf. assert (i ∈ S j ∪ {[x]}) as Hi' by (rewrite Hf; apply elem_of_set_seq; lia).
    apply elem_of_union in Hi' as [?|Hx%elem_of_singleton]; [by left|subst; right; left]. }
  destruct Hj as [Hj|Hj].
  - destruct Hk as [(-> & _ & Hf)|(-> & _ & _)]; [|by apply not_elem_of_nil in Hj].
    apply list_elem_of_singleton in Hj as ->. by apply Hfull.
  - destruct (IH S' Hj i Hi) as [Hin|Hin]; [|by right; right].
    destruct (decide (j = k)) as [->|Hjk]; [|left; by rewrite <- Hne].
    destruct Hk as [(_ & E & _)|(_ & E & _)]; rewrite E in Hin.
    + by apply not_elem_of_empty in Hin.
    + apply elem_of_union in Hin as [?|Hx%elem_of_singleton]; [by left|subst; right; left].
Qed.

(** Whatever has arrived whole is delivered. *)
Lemma arrivals_complete j xs : ∀ S,
  (∀ k x, x ∈ S k → x < all_parts k)%nat → Forall (λ '(k, x), x < all_parts k)%nat xs →
  S j ≠ set_seq 0 (all_parts j) →
  (∀ i, (i < all_parts j)%nat → i ∈ S j ∨ (j, i) ∈ xs) → j ∈ arrivals ds S xs.
Proof.
  induction xs as [|[k x] xs IH]; intros S HS Hxs Hnf Hall.
  { exfalso. apply Hnf, full_iff; [auto|]. intros i Hi.
    by destruct (Hall i Hi) as [?|?%not_elem_of_nil]. }
  apply Forall_cons in Hxs as [Hx Hxs]. cbn [arrivals].
  destruct (arrive ds S k x) as [S' o] eqn:E. pose proof (arrive_bound _ _ _ _ _ HS Hx E) as HS'.
  apply arrive_lookup in E as [Hne Hk]. rewrite elem_of_app.
  destruct (decide (j = k)) as [<-|Hjk].
  - destruct Hk as [(-> & _ & _)|(-> & E & Hf)]; [left; by apply list_elem_of_singleton|].
    right. apply IH; [done|done|by rewrite E|]. intros i Hi. rewrite E.
    destruct (Hall i Hi) as [?|[[= ->]|?]%elem_of_cons];
      [left; by apply elem_of_union_l|left; by apply elem_of_union_r, elem_of_singleton|by right].
  - right. rewrite <- Hne in Hnf by done. apply IH; [done|done|done|]. intros i Hi.
    rewrite Hne by done. destruct (Hall i Hi) as [?|[[= -> ->]|?]%elem_of_cons]; [by left|done|by right].
Qed.

(** Without repetitions a datagram is delivered once. *)
Lemma arrivals_once xs : ∀ S,
  (∀ k x, x ∈ S k → x < all_parts k)%nat → Forall (λ '(k, x), x < all_parts k)%nat xs →
  NoDup xs → NoDup (arrivals ds S xs).
Proof.
  induction xs as [|[k x] xs IH]; intros S HS Hxs Hnd; [constructor|].
  apply Forall_cons in Hxs as [Hx Hxs]. apply NoDup_cons in Hnd as [Hnx Hnd]. cbn [arrivals].
  destruct (arrive ds S k x) as [S' o] eqn:E. pose proof (arrive_bound _ _ _ _ _ HS Hx E) as HS'.
  apply arrive_lookup in E as [_ [(-> & E & _)|(-> & _ & _)]]; [|by apply IH].
  constructor; [|by apply IH]. intros Hin.
  destruct (arrivals_sound k xs S' Hin x Hx) as [Hi|Hi]; [|done].
  rewrite E in Hi. by apply not_elem_of_empty in Hi.
Qed.
End arrivals.

(** A sequence of packets with their arrival times. *)
Fixpoint receive_all (fr : frame) (f : fragment_master) (ps : list (Z * buffer)) :
    outcome (list (list Z) * fragment_master) :=
  match ps with
  | [] => Ret ([], f)
  | (now, b) :: ps =>
      '(f, b) ← fragment_incoming now fr f b;
      '(out, f) ← receive_all fr f ps;
      Ret (if decide (len b > 0) then content b :: out else out, f)
  end.

Lemma receive_all_ok fr s0 ds :
  frag_frame fr → Forall (wf_datagram fr) ds → (length ds ≤ 25)%nat →
  ∀ xs ps S f, receiving fr s0 ds S f →
  Forall2 (λ x p, part_packet s0 ds x.1 x.2 p.2) xs ps →
  ∃ f', receive_all fr f ps =
    Ret (omap (λ j, dg_bytes <$> ds !! j) (arrivals ds S xs), f').
Proof.
  intros Hfr Hds H25. induction xs as [|[j i] xs IH]; intros [|[now b] ps] S f Hf Hp;
    try by inversion Hp. { by exists f. }
  apply Forall2_cons in Hp as [Hb Hp]. cbn [fst snd] in Hb. cbn [receive_all arrivals].
  pose proof (incoming_step fr s0 ds Hfr Hds H25 now S f j i b Hf Hb) as Hstep.
  destruct (arrive ds S j i) as [S' o]. destruct Hstep as (f1 & b1 & -> & Hf1 & Hd). bret.
  destruct (IH ps S' f1 Hf1 Hp) as (f2 & ->). bret. exists f2. do 2 f_equal.
  destruct o as [k|]; cbn [option_list app delivers] in *.
  - destruct Hd as (Hb1 & d & Ed & Ec). change (option_list (Some k)) with [k].
    cbn [app omap list_omap]. rewrite Ed, Ec. cbn [fmap option_fmap option_map]. rewrite decide_True; [done|].
    apply Z.lt_gt, content_pos; [done|]. rewrite Ec.
    by destruct (proj1 (Forall_lookup _ _) Hds k d Ed) as (_ & _ & _ & ? & _).
  - by rewrite decide_False by lia.
Qed.

(** A receiver that holds no parts, and whose newest sequence number is one of
    the run's. *)
Definition ready (fr : frame) (s0 : Z) (f : fragment_master) : Prop :=
  (∃ hi, (hi < 25)%nat ∧ fl_seq_id (incoming f) = seq_no s0 hi) ∧
  0 ≤ fl_index (incoming f) < N_FRAG_BUF ∧ length (fragments (incoming f)) = 25%nat ∧
  Forall (λ g, f_defined g = false ∧ sized (BUF_SIZE fr) (f_buf g)) (fragments (incoming f)).

Lemma ready_receiving fr s0 ds f : ready fr s0 f → receiving fr s0 ds (λ _, ∅) f.
Proof.
  intros ((hi & Hhi & Es) & Hi & Hl & Hf). exists hi. rewrite Forall_lookup in Hf.
  assert (∀ j g, f_defined g = false → sized (BUF_SIZE fr) (f_buf g) →
    of_run fr ds (λ _, ∅) j g) as Hr.
  { intros j g Hd Hs. unfold of_run. destruct (ds !! j); [|done]. split; [done|]. split; [done|].
    by intros x ?%not_elem_of_empty. }
  split; [done|]. split; [done|]. split; [done|]. split; [done|]. split; [|split].
  - intros i g Hg. by apply (Hf i g).
  - intros j g _ Hg. destruct (Hf _ _ Hg). by apply Hr.
  - intros j g _. by apply Hr.
Qed.

(** A new receiver is ready for every run that begins with its number. *)
Lemma fragment_init_ready now random fr :
  wf_frame fr →
  ∃ f, fragment_frame_init fr (fragment_init now random fr).1 = Ret f ∧ ready fr 0 f ∧
    wf_sender fr f ∧ len (outgoing f) = 0.
Proof.
  intros Hf. assert (0 ≤ BUF_SIZE fr < BUF_SIZE_MAX) as Hs by (geometry; lia).
  unfold fragment_frame_init, fragment_list_buf_init, alloc_buf.
  assert (buf_size_valid (BUF_SIZE fr) = true) as -> by (by apply bool_decide_eq_true_2). bret.
  assert (sized (BUF_SIZE fr)
    (Buf (BUF_SIZE fr) 0 0 (Some (replicate (Z.to_nat (BUF_SIZE fr)) 0)))) as Hb.
  { eexists. split; [done|]. cbn. rewrite length_replicate. lia. }
  eexists. split; [done|]. split; [|split; [split; [|done]|done]].
  - split; [exists 0%nat; split; [lia|done]|]. split; [done|].
    cbn [incoming fragments fragment_init fst]. split; [done|].
    apply Forall_map, Forall_replicate. done.
  - cbn [outgoing_seq_id fragment_init fst]. change (N_SEQ_ID - 1) with (Z.ones 8).
    rewrite Z.land_ones by done. by apply Z.mod_pos_bound.
Qed.

(** ** From sender to receiver *)

Lemma concat_parts size c n : ∀ i, (0 < size)%nat → c ≠ [] → (i + n = n_parts size c)%nat →
  concat (map (part size c) (List.seq i n)) = drop (i * size) c.
Proof.
  induction n as [|n IH]; intros i Hz Hc Hn; cbn [List.seq map concat].
  - rewrite drop_ge; [done|]. destruct (n_parts_spec size c Hz Hc). rewrite Nat.add_0_r in Hn. nia.
  - rewrite IH by (done || lia). by rewrite <- part_drop.
Qed.

Lemma wire_part_inj s s' z z' c c' i i' :
  0 ≤ s < 256 → 0 ≤ s' < 256 → (i < 32)%nat → (i' < 32)%nat → Z.of_nat z < 65536 → Z.of_nat z' < 65536 →
  Z.of_nat z mod 4 = 0 → Z.of_nat z' mod 4 = 0 →
  wire_part s z c i = wire_part s' z' c' i' → s = s' ∧ i = i'.
Proof.
  intros Hs Hs' Hi Hi' Hz Hz' Hm Hm' E. unfold wire_part in E. apply (f_equal (take 4)) in E.
  rewrite !take_app_length' in E by done. apply (f_equal from_be) in E. rewrite !from_be_be32 in E.
  destruct (part_flags_fields s (Z.of_nat z) (bool_decide (S i = n_parts z c)) i Hs Hi ltac:(lia) Hm)
    as (Hr & _ & E1 & E2 & _).
  destruct (part_flags_fields s' (Z.of_nat z') (bool_decide (S i' = n_parts z' c')) i' Hs' Hi' ltac:(lia) Hm')
    as (Hr' & _ & E1' & E2' & _).
  rewrite !(wrap_small 32) in E by done. rewrite E in E1, E2. split; [congruence|]. lia.
Qed.

(** The packets of successive datagrams. *)
Fixpoint send_all (fr : frame) (f : fragment_master) (bs : list buffer) :
    outcome (list (list (list Z)) * fragment_master) :=
  match bs with
  | [] => Ret ([], f)
  | b :: bs =>
      '(ps, f) ← send fr f b;
      '(pss, f) ← send_all fr f bs;
      Ret (ps :: pss, f)
  end.

(** Datagrams that must be cut, and can. *)
Definition large (fr : frame) (b : buffer) : Prop :=
  wf_buf b ∧ Forall is_byte (content b) ∧ PAYLOAD_SIZE_DYNAMIC fr < len b ≤ PAYLOAD_SIZE fr ∧
  len b ≤ MAX_FRAGS * largest_part fr ∧ 4 ≤ offset b.

Definition dg_packets (s0 : Z) (j : nat) (d : datagram) : list (list Z) :=
  map (wire_part (seq_no s0 j) (dg_size d) (dg_bytes d)) (List.seq 0 (dg_parts d)).

Lemma send_all_ok fr s0 bs : ∀ j f,
  frag_frame fr → idle fr f → (outgoing_seq_id f + 1) mod 256 = seq_no s0 j → Forall (large fr) bs →
  ∃ ds f', send_all fr f bs = Ret (imap (λ k d, dg_packets s0 (j + k) d) ds, f') ∧ idle fr f' ∧
    incoming f' = incoming f ∧ map dg_bytes ds = map content bs ∧ Forall (wf_datagram fr) ds.
Proof.
  induction bs as [|b bs IH]; intros j f Hfr Hi Hs Hbs; cbn [send_all].
  { by exists [], f. }
  apply Forall_cons in Hbs as [(Hb & Hby & Hl & Hmax & Ho) Hbs].
  assert (TUN_MTU_MIN ≤ PAYLOAD_SIZE_DYNAMIC fr) as Hdyn by (destruct Hfr as [Hwf _]; geometry; lia).
  pose proof (Z.mod_pos_bound (PAYLOAD_SIZE_DYNAMIC fr) 4 ltac:(lia)). unfold TUN_MTU_MIN in Hdyn.
  pose proof (send_ok fr f b Hfr Hi Hb Hby ltac:(lia) Ho) as Hsend. cbn zeta in Hsend.
  rewrite decide_False in Hsend by lia. rewrite Hs in Hsend.
  destruct Hsend as (size & f1 & Hz & Hzm & Hz4 & Hn & Hi1 & Hin1 & Hsend).
  assert (n_parts size (content b) ≤ 32)%nat as Hn32.
  { unfold MAX_FRAGS, largest_part in *. set (a := PAYLOAD_SIZE_DYNAMIC fr - _) in *.
    apply Nat2Z.inj_le. rewrite Hn. change (Z.of_nat 32) with 32. apply Z.lt_succ_r.
    apply Z.div_lt_upper_bound; [unfold a; lia|]. unfold a in *. lia. }
  rewrite decide_True in Hsend by done. destruct Hsend as [-> Hs1]. bret.
  destruct (IH (S j) f1) as (ds & f2 & -> & Hi2 & Hin2 & Hd & Hwd); [done|done| |done|].
  { rewrite Hs1. unfold seq_no, N_SEQ_ID. rewrite Zplus_mod_idemp_l. f_equal. lia. }
  bret. exists (DG size (content b) :: ds), f2. split; [|split; [done|split; [congruence|split]]].
  - do 2 f_equal. cbn [imap]. f_equal.
    + unfold dg_packets, dg_parts. cbn [dg_size dg_bytes]. by rewrite Nat.add_0_r.
    + apply imap_ext. intros k d _. cbn. by rewrite Nat.add_succ_r.
  - cbn. by f_equal.
  - constructor; [|done]. destruct (send_content fr b Hb ltac:(lia)) as (Hc & Elen & _).
    unfold wf_datagram. cbn [dg_size dg_bytes]. destruct Hfr as (_ & _ & ?). repeat split; try done; lia.
Qed.
