(* ===== verification/OvpnCrypto.v ===== *)
(** * OpenVPN: the data channel's packets

    Models the packet functions of [openvpn/src/src/openvpn/crypto.c]:
    [openvpn_encrypt] and [openvpn_decrypt].  The cryptographic library behind
    [crypto_backend.h] is the classes [CipherOps] and [HmacOps], its operations on
    a context; the classes [CipherLaws] and [HmacLaws] say what its documentation
    promises: that a context for decrypting undoes one for encrypting with the same
    key, and that a tag depends on the key and the bytes only.  The global [now] and
    the bytes [prng_bytes] made are arguments; the messages printed are left out. *)
From S2P Require Import Prelude OvpnBuffer OvpnPacketId OvpnFrame.
#[local] Open Scope bool_scope.
#[local] Open Scope Z_scope.

(** ** The library *)

(** A failing call returns [None]; an output is the bytes stored. *)
Class CipherOps (C : Type) := {
  cipher_ctx_iv_length : C → Z;
  cipher_ctx_block_size : C → Z;
  (** of [cipher_ctx_get_cipher_kt ctx]: whether [cipher_kt_mode] is
      [OPENVPN_MODE_CBC], and the two predicates on modes. *)
  mode_is_cbc : C → bool;
  cipher_kt_mode_cbc : C → bool;
  cipher_kt_mode_ofb_cfb : C → bool;
  cipher_ctx_reset : list Z → C → option C;
  cipher_ctx_update : list Z → C → option (list Z * C);
  cipher_ctx_final : C → option (list Z * C);
  OPENVPN_MAX_IV_LENGTH : Z;
}.

Class HmacOps (H : Type) := {
  hmac_ctx_size : H → Z;
  hmac_ctx_reset : H → H;
  hmac_ctx_update : list Z → H → H;
  hmac_ctx_final : H → list Z * H;
}.

Definition MAX_HMAC_KEY_LENGTH : Z := 64.
Definition MAX_CIPHER_KEY_LENGTH : Z := 64.

(** ** Data *)

Definition CO_PACKET_ID_LONG_FORM : Z := 1.
Definition CO_USE_IV : Z := 2.
Definition CO_IGNORE_PACKET_ID : Z := 4.
Definition CO_MUTE_REPLAY_WARNINGS : Z := 8.

(** [opt->flags & flag]. *)
Definition has_flag (flags flag : Z) : bool := bool_decide (Z.land flags flag ≠ 0).

Section crypto.
Context {C H : Type} `{CipherOps C} `{HmacOps H}.

Record key_ctx := KC { kc_cipher : option C; kc_hmac : option H }.
Record key_ctx_bi := KCB { kc_encrypt : key_ctx; kc_decrypt : key_ctx }.
Record crypto_options := CO {
  co_key_ctx_bi : option key_ctx_bi;
  co_packet_id : option packet_id;
  co_pid_persist : option packet_id_persist;
  co_flags : Z;
}.

Definition set_encrypt (k : key_ctx) (opt : crypto_options) : crypto_options :=
  CO ((λ b, KCB k (kc_decrypt b)) <$> co_key_ctx_bi opt) (co_packet_id opt) (co_pid_persist opt)
    (co_flags opt).
Definition set_decrypt (k : key_ctx) (opt : crypto_options) : crypto_options :=
  CO ((λ b, KCB (kc_encrypt b) k) <$> co_key_ctx_bi opt) (co_packet_id opt) (co_pid_persist opt)
    (co_flags opt).
Definition set_packet_id (p : option packet_id) (opt : crypto_options) : crypto_options :=
  CO (co_key_ctx_bi opt) p (co_pid_persist opt) (co_flags opt).
Definition set_pid_persist (p : option packet_id_persist) (opt : crypto_options) : crypto_options :=
  CO (co_key_ctx_bi opt) (co_packet_id opt) p (co_flags opt).

(** ** Encryption *)

(** [packet_id_alloc_outgoing (&opt->packet_id->send, &pin, long_form)]. *)
Definition alloc_pin (now : Z) (p : packet_id) (long_form : bool) :
    outcome (packet_id_net * packet_id) :=
  '(pin, s) ← packet_id_alloc_outgoing now (pid_send p) long_form;
  Ret (pin, PID s (pid_rec p)).

(** The packet identifier at the head of the plaintext. *)
Definition prepend_pin (now : Z) (buf : buffer) (opt : crypto_options) :
    outcome (buffer * crypto_options) :=
  match co_packet_id opt with
  | None => Ret (buf, opt)
  | Some p =>
      let long := has_flag (co_flags opt) CO_PACKET_ID_LONG_FORM in
      '(pin, p) ← alloc_pin now p long;
      '(ok, buf) ← packet_id_write pin long true buf;
      ASSERT (ok = true);;
      Ret (buf, set_packet_id (Some p) opt)
  end.

(** The first [iv_size] bytes of [iv_buf], all that is used of it. *)
Definition clear_iv (iv_size : Z) : outcome (list Z) :=
  if decide (0 ≤ iv_size ≤ OPENVPN_MAX_IV_LENGTH)
  then Ret (replicate (Z.to_nat iv_size) 0) else Undef.

(** The IV, and the packet identifier in the plaintext or in it. *)
Definition make_iv (now : Z) (random : list Z) (c : C) (buf : buffer) (opt : crypto_options) :
    outcome (list Z * buffer * crypto_options) :=
  let iv_size := cipher_ctx_iv_length c in
  if cipher_kt_mode_cbc c then
    iv ← clear_iv iv_size;
    iv ← (if has_flag (co_flags opt) CO_USE_IV then fill 0 random iv else Ret iv);
    '(buf, opt) ← prepend_pin now buf opt;
    Ret (iv, buf, opt)
  else if cipher_kt_mode_ofb_cfb c then
    ASSERT (has_flag (co_flags opt) CO_USE_IV = true);;
    match co_packet_id opt with
    | None => Abort
    | Some p =>
        '(pin, p) ← alloc_pin now p true;
        iv ← clear_iv iv_size;
        b ← buf_set_write iv iv_size;
        '(ok, b) ← packet_id_write pin true false b;
        ASSERT (ok = true);;
        Ret (default [] (data b), buf, set_packet_id (Some p) opt)
    end
  else Abort.

(** [None] is [goto err]. *)
Definition encrypt_cipher (now : Z) (random : list Z) (fr : frame) (buf work : buffer)
    (ctx : key_ctx) (opt : crypto_options) : outcome (option buffer * key_ctx * buffer * crypto_options) :=
  match kc_cipher ctx with
  | None =>
      '(buf, opt) ← prepend_pin now buf opt;
      Ret (Some buf, ctx, buf, opt)
  | Some c =>
      '(iv, buf, opt) ← make_iv now random c buf opt;
      '(ok, work) ← buf_init (FRAME_HEADROOM fr) work;
      ASSERT (ok = true);;
      match cipher_ctx_reset iv c with
      | None => Abort
      | Some c =>
          if negb (buf_safe work (len buf + cipher_ctx_block_size c))
          then Ret (None, KC (Some c) (kc_hmac ctx), buf, opt)
          else
            '(plain, _) ← peek_n (offset buf) (buf_len buf) buf;
            match cipher_ctx_update plain c with
            | None => Abort
            | Some (out1, c) =>
                '(_, work) ← poke (offset work) out1 work;
                '(ok, work) ← buf_inc_len (Z.of_nat (length out1)) work;
                ASSERT (ok = true);;
                match cipher_ctx_final c with
                | None => Abort
                | Some (out2, c) =>
                    '(_, work) ← poke (offset work + Z.of_nat (length out1)) out2 work;
                    '(ok, work) ← buf_inc_len (Z.of_nat (length out2)) work;
                    ASSERT (ok = true);;
                    ASSERT (mode_is_cbc c = false ∨
                            Z.of_nat (length out2) = cipher_ctx_iv_length c);;
                    work ← (if has_flag (co_flags opt) CO_USE_IV then
                              '(ok, work) ← buf_write_prepend iv work;
                              ASSERT (ok = true);;
                              Ret work
                            else Ret work);
                    Ret (Some work, KC (Some c) (kc_hmac ctx), buf, opt)
                end
            end
      end
  end.

(** The authentication tag of the packet, in front of it. *)
Definition sign (work : buffer) (ctx : key_ctx) : outcome (buffer * key_ctx) :=
  match kc_hmac ctx with
  | None => Ret (work, ctx)
  | Some h =>
      '(bs, _) ← peek_n (offset work) (buf_len work) work;
      let h := hmac_ctx_update bs (hmac_ctx_reset h) in
      '(output, work) ← buf_prepend (hmac_ctx_size h) work;
      match output with
      | None => Abort
      | Some p =>
          let '(tag, h) := hmac_ctx_final h in
          '(_, work) ← poke p tag work;
          Ret (work, KC (kc_cipher ctx) (Some h))
      end
  end.

Definition openvpn_encrypt (now : Z) (random : list Z) (fr : frame) (buf work : buffer)
    (opt : crypto_options) : outcome (buffer * crypto_options) :=
  match co_key_ctx_bi opt with
  | Some bi =>
      if decide (len buf > 0) then
        '(res, ctx, buf, opt) ← encrypt_cipher now random fr buf work (kc_encrypt bi) opt;
        match res with
        | Some work =>
            '(work, ctx) ← sign work ctx;
            Ret (work, set_encrypt ctx opt)
        | None => Ret (set_len 0 buf, set_encrypt ctx opt)
        end
      else Ret (buf, opt)
  | None => Ret (buf, opt)
  end.

(** ** Decryption *)

Definition memcmp_constant_time (a b : list Z) : Z :=
  foldl Z.lor 0 (zip_with Z.lxor a b).

(** The packet without its tag; [None] is [CRYPT_ERROR]. *)
Definition check_hmac (buf : buffer) (ctx : key_ctx) : outcome (option buffer * key_ctx) :=
  match kc_hmac ctx with
  | None => Ret (Some buf, ctx)
  | Some h =>
      let h := hmac_ctx_reset h in
      let hmac_len := hmac_ctx_size h in
      if decide (len buf < hmac_len) then Ret (None, KC (kc_cipher ctx) (Some h))
      else
        '(bs, _) ← peek_n (offset buf + hmac_len) (buf_len buf - hmac_len) buf;
        let '(tag, h) := hmac_ctx_final (hmac_ctx_update bs h) in
        local_hmac ← fill 0 tag (replicate (Z.to_nat MAX_HMAC_KEY_LENGTH) 0);
        '(theirs, _) ← peek_n (offset buf) hmac_len buf;
        let ctx := KC (kc_cipher ctx) (Some h) in
        if decide (memcmp_constant_time (take (Z.to_nat hmac_len) local_hmac) theirs ≠ 0)
        then Ret (None, ctx)
        else
          '(ok, buf) ← buf_advance hmac_len buf;
          ASSERT (ok = true);;
          Ret (Some buf, ctx)
  end.

(** The IV of the packet, and what follows it. *)
Definition take_iv (iv_size : Z) (buf : buffer) (opt : crypto_options) :
    outcome (option (list Z * buffer)) :=
  iv ← clear_iv iv_size;
  if has_flag (co_flags opt) CO_USE_IV then
    if decide (len buf < iv_size) then Ret None
    else
      '(bs, _) ← peek_n (offset buf) iv_size buf;
      iv ← fill 0 bs iv;
      '(ok, buf) ← buf_advance iv_size buf;
      ASSERT (ok = true);;
      Ret (Some (iv, buf))
  else Ret (Some (iv, buf)).

(** [packet_id_read]: [None] is the C [false]. *)
Definition read_pin (long_form : bool) (b : buffer) :
    outcome (option packet_id_net * buffer) :=
  '(r, b) ← packet_id_read long_form b;
  Ret (if fst r : bool then Some (snd r) else None, b).

(** The packet identifier, from the plaintext or the IV: [Some None] when the
    packet has none. *)
Definition take_pin (c : C) (iv : list Z) (work : buffer) (opt : crypto_options) :
    outcome (option (option packet_id_net) * buffer) :=
  if cipher_kt_mode_cbc c then
    match co_packet_id opt with
    | None => Ret (Some None, work)
    | Some _ =>
        '(pin, work) ← read_pin (has_flag (co_flags opt) CO_PACKET_ID_LONG_FORM) work;
        Ret (fmap (M := option) Some pin, work)
    end
  else if cipher_kt_mode_ofb_cfb c then
    ASSERT (has_flag (co_flags opt) CO_USE_IV = true);;
    match co_packet_id opt with
    | None => Abort
    | Some _ =>
        b ← buf_set_read iv (cipher_ctx_iv_length c);
        '(pin, _) ← read_pin true b;
        Ret (fmap (M := option) Some pin, work)
    end
  else Abort.

(** The plaintext with the packet identifier, and [*buf] afterwards. *)
Definition decrypt_cipher (fr : frame) (buf work : buffer) (ctx : key_ctx)
    (opt : crypto_options) :
    outcome (option (option packet_id_net * buffer) * key_ctx * buffer) :=
  match kc_cipher ctx with
  | None =>
      match co_packet_id opt with
      | None => Ret (Some (None, buf), ctx, buf)
      | Some _ =>
          '(pin, work) ← read_pin (has_flag (co_flags opt) CO_PACKET_ID_LONG_FORM) buf;
          let have_pin := negb (has_flag (co_flags opt) CO_IGNORE_PACKET_ID) in
          Ret (fmap (M := option) (λ x, (if have_pin then Some x else None, work)) pin, ctx, buf)
      end
  | Some c =>
      '(ok, work) ← buf_init (FRAME_HEADROOM_ADJ fr FRAME_HEADROOM_MARKER_DECRYPT) work;
      ASSERT (ok = true);;
      r ← take_iv (cipher_ctx_iv_length c) buf opt;
      match r with
      | None => Ret (None, ctx, buf)
      | Some (iv, buf) =>
          if decide (len buf < 1) then Ret (None, ctx, buf)
          else
            match cipher_ctx_reset iv c with
            | None => Ret (None, ctx, buf)
            | Some c =>
                if negb (buf_safe work (len buf + cipher_ctx_block_size c))
                then Ret (None, KC (Some c) (kc_hmac ctx), buf)
                else
                  '(bs, _) ← peek_n (offset buf) (buf_len buf) buf;
                  match cipher_ctx_update bs c with
                  | None => Ret (None, KC (Some c) (kc_hmac ctx), buf)
                  | Some (out1, c) =>
                      '(_, work) ← poke (offset work) out1 work;
                      '(ok, work) ← buf_inc_len (Z.of_nat (length out1)) work;
                      ASSERT (ok = true);;
                      match cipher_ctx_final c with
                      | None => Ret (None, KC (Some c) (kc_hmac ctx), buf)
                      | Some (out2, c) =>
                          '(_, work) ← poke (offset work + Z.of_nat (length out1)) out2 work;
                          '(ok, work) ← buf_inc_len (Z.of_nat (length out2)) work;
                          ASSERT (ok = true);;
                          '(pin, work) ← take_pin c iv work opt;
                          Ret (fmap (M := option) (λ p, (p, work)) pin, KC (Some c) (kc_hmac ctx), buf)
                      end
                  end
            end
      end
  end.

(** The replay test: [false] is [goto error_exit]. *)
Definition check_pin (now : Z) (pin : option packet_id_net) (opt : crypto_options) :
    outcome (bool * crypto_options) :=
  match pin, co_packet_id opt with
  | Some x, Some p =>
      '(ok, r) ← receive now (pid_rec p) x;
      let p := PID (pid_send p) r in
      let opt := set_packet_id (Some p) opt in
      Ret (ok,
           if (ok : bool) && has_flag (co_flags opt) CO_PACKET_ID_LONG_FORM
           then set_pid_persist ((λ pp, packet_id_persist_save_obj pp p) <$> co_pid_persist opt) opt
           else opt)
  | Some _, None => Undef
  | None, _ => Ret (true, opt)
  end.

Definition openvpn_decrypt (now : Z) (fr : frame) (buf work : buffer) (opt : crypto_options) :
    outcome (bool * buffer * crypto_options) :=
  match co_key_ctx_bi opt with
  | Some bi =>
      if decide (len buf > 0) then
        '(r, ctx) ← check_hmac buf (kc_decrypt bi);
        match r with
        | None => Ret (false, set_len 0 buf, set_decrypt ctx opt)
        | Some buf =>
            '(r, ctx, buf) ← decrypt_cipher fr buf work ctx opt;
            let opt := set_decrypt ctx opt in
            match r with
            | None => Ret (false, set_len 0 buf, opt)
            | Some (pin, work) =>
                '(ok, opt) ← check_pin now pin opt;
                if ok : bool then Ret (true, work, opt) else Ret (false, set_len 0 buf, opt)
            end
        end
      else Ret (true, buf, opt)
  | None => Ret (true, buf, opt)
  end.
End crypto.
#[global] Arguments key_ctx : clear implicits.
#[global] Arguments key_ctx_bi : clear implicits.
#[global] Arguments crypto_options : clear implicits.

(** ** What the library promises

    [same_key e d]: [d] decrypts what [e] encrypts; [same_mac a b]: the two
    compute the same tags.  Using a context keeps its key. *)
Definition decrypts_to {C : Type} `{CipherOps C} (rel : relation C) (enc : C → bool) (e : C)
    (iv ct plain : list Z) : Prop :=
  ∀ d, rel e d → enc d = false → ∃ d1 p1 d2 p2 d3,
    cipher_ctx_reset iv d = Some d1 ∧ cipher_ctx_update ct d1 = Some (p1, d2) ∧
    cipher_ctx_final d2 = Some (p2, d3) ∧ p1 ++ p2 = plain.

Definition statics {C : Type} `{CipherOps C} (c : C) : Z * Z * (bool * bool * bool) :=
  (cipher_ctx_iv_length c, cipher_ctx_block_size c,
   (mode_is_cbc c, cipher_kt_mode_cbc c, cipher_kt_mode_ofb_cfb c)).

Class CipherLaws (C : Type) `{CipherOps C} := {
  same_key : relation C;
  #[global] same_key_equiv :: Equivalence same_key;
  same_key_statics e d : same_key e d → statics e = statics d;
  (** The direction the context was made for. *)
  encrypting : C → bool;
  iv_length_range (c : C) : 0 ≤ cipher_ctx_iv_length c ≤ OPENVPN_MAX_IV_LENGTH;
  max_iv_length : OPENVPN_MAX_IV_LENGTH < BUF_SIZE_MAX;
  block_size_range (c : C) : 0 ≤ cipher_ctx_block_size c;
  (** An OFB or CFB mode is not a CBC mode, and its IV holds a packet
      identifier. *)
  ofb_cfb_iv (c : C) : cipher_kt_mode_ofb_cfb c = true →
    8 ≤ cipher_ctx_iv_length c ∧ cipher_kt_mode_cbc c = false;
  encrypts (e : C) iv plain :
    encrypting e = true →
    Z.of_nat (length iv) = cipher_ctx_iv_length e → Forall is_byte plain → plain ≠ [] →
    ∃ e1 c1 e2 c2 e3,
      cipher_ctx_reset iv e = Some e1 ∧ cipher_ctx_update plain e1 = Some (c1, e2) ∧
      cipher_ctx_final e2 = Some (c2, e3) ∧ c1 ++ c2 ≠ [] ∧
      (mode_is_cbc e = true → Z.of_nat (length c2) = cipher_ctx_iv_length e) ∧
      decrypts_to same_key encrypting e iv (c1 ++ c2) plain;
  reset_key (c c' : C) iv :
    cipher_ctx_reset iv c = Some c' → same_key c c' ∧ encrypting c' = encrypting c;
  update_key (c c' : C) bs out :
    cipher_ctx_update bs c = Some (out, c') → same_key c c' ∧ encrypting c' = encrypting c;
  final_key (c c' : C) out :
    cipher_ctx_final c = Some (out, c') → same_key c c' ∧ encrypting c' = encrypting c;
  (** The outputs take at most one block more than the input. *)
  output_size (c c1 : C) bs out1 r : cipher_ctx_update bs c = Some (out1, c1) →
    (∃ iv c0, cipher_ctx_reset iv c0 = Some c) → cipher_ctx_final c1 = r →
    let out2 := match r with Some (out2, _) => out2 | None => [] end in
    Forall is_byte (out1 ++ out2) ∧
    Z.of_nat (length (out1 ++ out2)) ≤ Z.of_nat (length bs) + cipher_ctx_block_size c;
}.

(** The tag of a message. *)
Definition tag {H : Type} `{HmacOps H} (h : H) (bs : list Z) : list Z :=
  (hmac_ctx_final (hmac_ctx_update bs (hmac_ctx_reset h))).1.

Class HmacLaws (H : Type) `{HmacOps H} := {
  same_mac : relation H;
  #[global] same_mac_equiv :: Equivalence same_mac;
  same_mac_size a b : same_mac a b → hmac_ctx_size a = hmac_ctx_size b;
  same_mac_tag a b bs : same_mac a b → tag a bs = tag b bs;
  reset_mac h : same_mac h (hmac_ctx_reset h);
  update_mac h bs : same_mac h (hmac_ctx_update bs h);
  final_mac h : same_mac h (hmac_ctx_final h).2;
  mac_size (h : H) : 0 < hmac_ctx_size h ≤ MAX_HMAC_KEY_LENGTH;
  length_tag (h : H) bs : Z.of_nat (length (tag h bs)) = hmac_ctx_size h;
  tag_bytes (h : H) bs : Forall is_byte (tag h bs);
}.
