(* ===== verification/OvpnCryptoProofs.v ===== *)
(** * OpenVPN: the packet functions, proved

    How the functions of OvpnCrypto.v act: the tag ([check_hmac_ok]), encryption
    and decryption of one packet ([openvpn_encrypt_ok], [openvpn_decrypt_ok]), and
    of sequences of packets ([encrypt_all_ok], [decrypt_all_ok]).  [sealed] is what
    a packet is, on the wire. *)
From S2P Require Import Prelude OvpnBuffer OvpnPacketId OvpnFrame OvpnCrypto.
#[local] Open Scope bool_scope.
#[local] Open Scope Z_scope.

(** ** Comparing tags *)

Lemma fold_lor_zero l a : foldl Z.lor a l = 0 ↔ a = 0 ∧ Forall (λ x, x = 0) l.
Proof.
  revert a. induction l as [|x l IH]; intros a; cbn [foldl]; [rewrite Forall_nil; tauto|].
  rewrite IH, Z.lor_eq_0_iff, Forall_cons. tauto.
Qed.

Lemma memcmp_constant_time_ok a : ∀ b,
  length a = length b → memcmp_constant_time a b = 0 ↔ a = b.
Proof.
  unfold memcmp_constant_time. intros b Hl. rewrite fold_lor_zero.
  transitivity (Forall (λ x, x = 0) (zip_with Z.lxor a b)); [tauto|].
  revert b Hl. induction a as [|x a IH]; intros [|y b] Hl; try done.
  cbn [zip_with]. rewrite Forall_cons, Z.lxor_eq_0_iff, IH by (cbn in Hl; lia).
  split; [by intros [-> ->]|by intros [= -> ->]].
Qed.

Section laws.
Context {C H : Type} `{CipherLaws C} `{HmacLaws H}.

(** Two contexts with the same keys. *)
Definition same_ctx (a b : key_ctx C H) : Prop :=
  option_Forall2 same_key (kc_cipher a) (kc_cipher b) ∧
  option_Forall2 same_mac (kc_hmac a) (kc_hmac b).
#[export] Instance same_ctx_equiv : Equivalence same_ctx.
Proof.
  split.
  - done.
  - by intros a b [? ?].
  - intros a b c [? ?] [? ?]. split; by etrans.
Qed.

Lemma mac_used h bs : same_mac h (hmac_ctx_final (hmac_ctx_update bs (hmac_ctx_reset h))).2.
Proof. etrans; [apply reset_mac|]. etrans; [apply update_mac|apply final_mac]. Qed.

Lemma mac_size_used h bs :
  hmac_ctx_size (hmac_ctx_reset h) = hmac_ctx_size h ∧
  hmac_ctx_size (hmac_ctx_update bs (hmac_ctx_reset h)) = hmac_ctx_size h.
Proof.
  split; symmetry; apply same_mac_size; [apply reset_mac|].
  etrans; [apply reset_mac|apply update_mac].
Qed.

(** The cipher of [ctx], if any, was made for the direction. *)
Definition directed (enc : bool) (ctx : key_ctx C H) : Prop :=
  ∀ e, kc_cipher ctx = Some e → encrypting e = enc.

(** A whole use of a cipher. *)
Lemma cipher_used iv (c c1 c2 c3 : C) bs out1 out2 :
  cipher_ctx_reset iv c = Some c1 → cipher_ctx_update bs c1 = Some (out1, c2) →
  cipher_ctx_final c2 = Some (out2, c3) →
  statics c1 = statics c ∧ statics c3 = statics c ∧ same_key c c3 ∧ encrypting c3 = encrypting c ∧
  Forall is_byte (out1 ++ out2) ∧
  Z.of_nat (length (out1 ++ out2)) ≤ Z.of_nat (length bs) + cipher_ctx_block_size c.
Proof.
  intros E1 E2 E3. destruct (output_size c1 c2 bs out1 _ E2 ltac:(by eexists _, _) E3) as [Hb Hl].
  apply reset_key in E1 as [K1 D1]. apply update_key in E2 as [K2 D2]. apply final_key in E3 as [K3 D3].
  assert (statics c1 = statics c) as Es by (symmetry; by apply same_key_statics).
  assert (same_key c c3) as K by (etrans; [exact K1|]; by etrans).
  split; [done|]. split; [symmetry; by apply same_key_statics|]. split; [done|].
  split; [congruence|]. split; [done|]. unfold statics in Es. injection Es as _ Es _ _ _.
  by rewrite Es in Hl.
Qed.

(** ** Tags *)

Lemma sign_ok pre c post (ctx : key_ctx C H) :
  (∀ h, kc_hmac ctx = Some h → hmac_ctx_size h ≤ Z.of_nat (length pre)) →
  let t := match kc_hmac ctx with Some h => tag h c | None => [] end in
  ∃ ctx', sign (mkbuf pre c post) ctx =
      Ret (mkbuf (take (length pre - length t) pre) (t ++ c) post, ctx') ∧
    same_ctx ctx ctx' ∧ kc_cipher ctx' = kc_cipher ctx.
Proof.
  intros Hp t. unfold sign. destruct (kc_hmac ctx) as [h|] eqn:Eh.
  2:{ exists ctx. unfold t. cbn [length]. rewrite Nat.sub_0_r, take_ge by lia. done. }
  rewrite peek_all_mk. bret. destruct (mac_size_used h c) as [_ Es]. rewrite Es.
  pose proof (length_tag h c) as Hl. fold t in Hl. rewrite <- Hl.
  destruct (prepend_poke_mk t pre c post) as (p & b & -> & Ep);
    [apply tag_bytes|specialize (Hp h eq_refl); lia|].
  bret. pose proof (mac_used h c) as Hu. unfold t, tag in Ep |- *.
  destruct (hmac_ctx_final _) as [t' h']. cbn [fst snd] in *.
  rewrite Ep. bret. eexists. split; [done|]. split; [|done]. split; cbn [kc_cipher kc_hmac]; [done|].
  rewrite Eh. by constructor.
Qed.

(** The packet carries the tag of the rest of it. *)
Definition authentic (ctx : key_ctx C H) (c : list Z) : Prop :=
  match kc_hmac ctx with
  | Some h => take (Z.to_nat (hmac_ctx_size h)) c = tag h (drop (Z.to_nat (hmac_ctx_size h)) c)
  | None => True
  end.
#[export] Instance authentic_dec ctx c : Decision (authentic ctx c).
Proof. unfold authentic. destruct (kc_hmac ctx); apply _. Defined.

Definition tag_size (ctx : key_ctx C H) : nat :=
  match kc_hmac ctx with Some h => Z.to_nat (hmac_ctx_size h) | None => 0%nat end.

(** A packet with the right tag loses it; any other is refused. *)
Lemma check_hmac_ok pre c post (ctx : key_ctx C H) :
  ∃ ctx', same_ctx ctx ctx' ∧ kc_cipher ctx' = kc_cipher ctx ∧
    check_hmac (mkbuf pre c post) ctx =
    Ret (if decide (authentic ctx c)
         then Some (mkbuf (pre ++ take (tag_size ctx) c) (drop (tag_size ctx) c) post)
         else None, ctx').
Proof.
  unfold check_hmac, tag_size. destruct (kc_hmac ctx) as [h|] eqn:Eh.
  2:{ exists ctx. split; [done|]. split; [done|]. rewrite decide_True by (unfold authentic; by rewrite Eh).
      by rewrite take_0, drop_0, app_nil_r. }
  assert (authentic ctx c ↔ take (Z.to_nat (hmac_ctx_size h)) c =
    tag h (drop (Z.to_nat (hmac_ctx_size h)) c)) as Hau by (unfold authentic; by rewrite Eh).
  destruct (mac_size_used h c) as [-> _]. pose proof (mac_size h) as Hm. cbn [len mkbuf].
  fold (mkbuf pre c post). set (n := Z.to_nat (hmac_ctx_size h)).
  destruct (decide (Z.of_nat (length c) < hmac_ctx_size h)) as [Hlt|Hge].
  { exists (KC (kc_cipher ctx) (Some (hmac_ctx_reset h))).
    split; [split; [done|]; rewrite Eh; constructor; apply reset_mac|].
    split; [done|].
    rewrite decide_False; [done|]. intros E%Hau. apply (f_equal length) in E.
    fold n in E.
    pose proof (length_tag h (drop n c)). rewrite length_take in E. lia. }
  set (t := take n c). set (m := drop n c).
  assert (c = t ++ m) as Ec by (symmetry; apply take_drop).
  assert (hmac_ctx_size h = Z.of_nat (length t)) as Et by (unfold t; rewrite length_take; lia).
  assert (buf_len (mkbuf pre c post) - hmac_ctx_size h = Z.of_nat (length m)) as ->
    by (rewrite buf_len_mk; unfold m; rewrite length_drop; lia).
  pose proof (peek_n_mk pre t m [] post) as Hp. rewrite app_nil_r, <- Ec, <- Et in Hp.
  cbn [offset mkbuf] in Hp |- *. fold (mkbuf pre c post). rewrite Hp. bret.
  pose proof (length_tag h m) as Hlt. pose proof (tag_bytes h m) as Htb.
  pose proof (mac_used h m) as Hu. unfold tag in *.
  destruct (hmac_ctx_final (hmac_ctx_update m (hmac_ctx_reset h))) as [t' h'] eqn:Ef.
  cbn [fst snd] in *. change (Z.to_nat MAX_HMAC_KEY_LENGTH) with 64%nat.
  unfold MAX_HMAC_KEY_LENGTH in Hm. rewrite fill_start by (done || (rewrite length_replicate; lia)).
  bret. pose proof (peek_n_mk pre [] t m post) as Hp0. cbn [app length] in Hp0.
  change (Z.of_nat 0) with 0 in Hp0. rewrite Z.add_0_r, <- Ec, <- Et in Hp0. rewrite Hp0. bret.
  fold n. replace n with (length t') by lia. rewrite take_app_length.
  assert (length t' = length t) as Hll by lia.
  pose proof (memcmp_constant_time_ok t' t Hll) as Hcmp.
  exists (KC (kc_cipher ctx) (Some h')). split; [split; [done|]; rewrite Eh; by constructor|].
  split; [done|].
  replace (length t') with n by lia.
  destruct (decide (t = t')) as [E|E].
  - rewrite decide_False by (intros Hx; apply Hx, Hcmp; done).
    rewrite (decide_True (P := authentic ctx c)) by (apply Hau; fold n t m; by rewrite Ef).
    rewrite Et, Ec at 1. rewrite buf_advance_mk. bret. by rewrite ASSERT_ok by done.
  - rewrite (decide_False (P := authentic ctx c)) by
      (intros Ha%Hau; fold n t m in Ha; by rewrite Ef in Ha).
    rewrite decide_True by (intros Hx; apply E; symmetry; by apply Hcmp). done.
Qed.
(** ** What a packet without its tag opens to *)

Definition pin_bytes (long_form : bool) (pin : option packet_id_net) : list Z :=
  match pin with Some x => wire_bytes long_form x | None => [] end.

Definition opens (c : option C) (flags : Z) (pin : option packet_id_net)
    (body payload : list Z) : Prop :=
  let long := has_flag flags CO_PACKET_ID_LONG_FORM in
  match c with
  | None => body = pin_bytes long pin ++ payload
  | Some e =>
      ∃ iv ct plain,
        Z.of_nat (length iv) = cipher_ctx_iv_length e ∧ Forall is_byte iv ∧
        body = (if has_flag flags CO_USE_IV then iv else []) ++ ct ∧
        (has_flag flags CO_USE_IV = false →
         iv = replicate (Z.to_nat (cipher_ctx_iv_length e)) 0) ∧
        ct ≠ [] ∧ Forall is_byte plain ∧
        Z.of_nat (length ct) ≤ Z.of_nat (length plain) + cipher_ctx_block_size e ∧
        decrypts_to same_key encrypting e iv ct plain ∧
        if cipher_kt_mode_cbc e then plain = pin_bytes long pin ++ payload
        else cipher_kt_mode_ofb_cfb e = true ∧ has_flag flags CO_USE_IV = true ∧ plain = payload ∧
             ∃ x rest, pin = Some x ∧ iv = wire_bytes true x ++ rest
  end.

Definition pin_ok (pin : option packet_id_net) : Prop :=
  match pin with Some x => 0 < pin_id x < 4294967296 ∧ is_u32 (pin_time x) | None => True end.

(** The identifier allocated for the packet, and the sender afterwards. *)
Definition id_form (c : option C) (flags : Z) : bool :=
  match c with
  | Some e => if cipher_kt_mode_cbc e then has_flag flags CO_PACKET_ID_LONG_FORM else true
  | None => has_flag flags CO_PACKET_ID_LONG_FORM
  end.

Definition allocates (now : Z) (form : bool) (opt : crypto_options C H)
    (pin : option packet_id_net) (opt' : crypto_options C H) : Prop :=
  match co_packet_id opt with
  | None => pin = None ∧ opt' = opt
  | Some p => ∃ x s, packet_id_alloc_outgoing now (pid_send p) form = Ret (x, s) ∧
      pin_ok (Some x) ∧ pin = Some x ∧
      opt' = set_packet_id (Some (PID s (pid_rec p))) opt
  end.

Lemma allocates_flags now form opt pin opt' :
  allocates now form opt pin opt' →
  co_flags opt' = co_flags opt ∧ (is_Some (co_packet_id opt) ↔ is_Some pin).
Proof.
  unfold allocates. destruct (co_packet_id opt) as [p|] eqn:E.
  - intros (x & s & _ & _ & -> & ->). split; [done|]. split; by eexists.
  - by intros [-> ->].
Qed.

(** The modes the code accepts. *)
Definition supported (c : option C) (opt : crypto_options C H) : Prop :=
  match c with
  | None => True
  | Some e => cipher_kt_mode_cbc e = true ∨
      (cipher_kt_mode_ofb_cfb e = true ∧ has_flag (co_flags opt) CO_USE_IV = true ∧
       is_Some (co_packet_id opt))
  end.

(** The bytes the packet functions may add in front of a payload. *)
Definition pin_size (opt : crypto_options C H) : Z :=
  match co_packet_id opt with
  | Some _ => packet_id_size (has_flag (co_flags opt) CO_PACKET_ID_LONG_FORM)
  | None => 0
  end.
Definition cipher_overhead (ctx : key_ctx C H) (opt : crypto_options C H) : Z :=
  match kc_cipher ctx with
  | Some e => (if has_flag (co_flags opt) CO_USE_IV then cipher_ctx_iv_length e else 0) +
      cipher_ctx_block_size e
  | None => 0
  end.
Definition crypto_overhead (ctx : key_ctx C H) (opt : crypto_options C H) : Z :=
  pin_size opt + cipher_overhead ctx opt + Z.of_nat (tag_size ctx).

(** A frame that accounts for them, as [crypto_adjust_frame_parameters] makes
    it, and leaves room for one more block when decrypting. *)
Definition crypto_frame (fr : frame) (ctx : key_ctx C H) (opt : crypto_options C H) : Prop :=
  wf_frame fr ∧ crypto_overhead ctx opt ≤ extra_frame fr ∧
  match kc_cipher ctx with
  | Some e => pin_size opt + 2 * cipher_ctx_block_size e ≤ extra_frame fr
  | None => True
  end.

Lemma pin_size_range opt : 0 ≤ pin_size opt ≤ 8.
Proof.
  unfold pin_size, packet_id_size. destruct (co_packet_id opt); [|lia].
  destruct (has_flag (co_flags opt) CO_PACKET_ID_LONG_FORM); lia.
Qed.

Lemma length_pin_bytes opt pin opt' now form :
  allocates now form opt pin opt' →
  Z.of_nat (length (pin_bytes (has_flag (co_flags opt) CO_PACKET_ID_LONG_FORM) pin)) = pin_size opt.
Proof.
  unfold allocates, pin_size. destruct (co_packet_id opt).
  - intros (x & s & _ & _ & -> & _). cbn [pin_bytes]. unfold wire_bytes, packet_id_size.
    rewrite length_app, length_be32. by destruct (has_flag _ _).
  - by intros [-> _].
Qed.

Lemma wire_bytes_bytes long x : Forall is_byte (wire_bytes long x).
Proof. unfold wire_bytes. apply Forall_app_2; [apply be32_bytes|]. destruct long; [apply be32_bytes|constructor]. Qed.

Lemma length_wire_bytes long x : Z.of_nat (length (wire_bytes long x)) = packet_id_size long.
Proof. unfold wire_bytes, packet_id_size. rewrite length_app, length_be32. by destruct long. Qed.

Lemma prepend_pin_ok now opt pin opt' pre c post :
  allocates now (has_flag (co_flags opt) CO_PACKET_ID_LONG_FORM) opt pin opt' →
  pin_size opt ≤ Z.of_nat (length pre) →
  let bs := pin_bytes (has_flag (co_flags opt) CO_PACKET_ID_LONG_FORM) pin in
  prepend_pin now (mkbuf pre c post) opt =
    Ret (mkbuf (take (length pre - length bs) pre) (bs ++ c) post, opt').
Proof.
  unfold allocates, pin_size, prepend_pin. destruct (co_packet_id opt) as [p|] eqn:Ep.
  - intros (x & s & Ea & _ & -> & ->) Hp. unfold alloc_pin. rewrite Ea. bret.
    rewrite packet_id_write_front by done. bret. by rewrite ASSERT_ok.
  - intros [-> ->] _. cbn [pin_bytes length app]. by rewrite Nat.sub_0_r, take_ge by lia.
Qed.

Lemma clear_iv_ok (e : C) :
  clear_iv (cipher_ctx_iv_length e) = Ret (replicate (Z.to_nat (cipher_ctx_iv_length e)) 0).
Proof. unfold clear_iv. by rewrite decide_True by apply iv_length_range. Qed.

Lemma zeros_bytes n : Forall is_byte (replicate n 0).
Proof. apply Forall_replicate. unfold is_byte. lia. Qed.

(** The IV has the cipher's length; the plaintext is the payload, behind its
    identifier unless that is in the IV. *)
Lemma make_iv_ok now random e opt pin opt' pre c post :
  supported (Some e) opt → allocates now (id_form (Some e) (co_flags opt)) opt pin opt' →
  pin_size opt ≤ Z.of_nat (length pre) →
  Z.of_nat (length random) = cipher_ctx_iv_length e → Forall is_byte random →
  ∃ iv k plain, make_iv now random e (mkbuf pre c post) opt =
      Ret (iv, mkbuf (take k pre) plain post, opt') ∧
    Z.of_nat (length iv) = cipher_ctx_iv_length e ∧ Forall is_byte iv ∧
    (has_flag (co_flags opt) CO_USE_IV = false →
     iv = replicate (Z.to_nat (cipher_ctx_iv_length e)) 0) ∧
    Z.of_nat (length plain) ≤ Z.of_nat (length c) + pin_size opt ∧
    (Forall is_byte c → Forall is_byte plain) ∧ (c ≠ [] → plain ≠ []) ∧
    if cipher_kt_mode_cbc e
    then plain = pin_bytes (has_flag (co_flags opt) CO_PACKET_ID_LONG_FORM) pin ++ c
    else cipher_kt_mode_ofb_cfb e = true ∧ has_flag (co_flags opt) CO_USE_IV = true ∧ plain = c ∧
         ∃ x rest, pin = Some x ∧ iv = wire_bytes true x ++ rest.
Proof.
  intros Hs Ha Hp Hr Hrb. unfold make_iv. pose proof (iv_length_range e) as Hiv.
  unfold id_form, supported in *. destruct (cipher_kt_mode_cbc e) eqn:Ecbc.
  - rewrite clear_iv_ok. bret.
    assert (∃ iv, (if has_flag (co_flags opt) CO_USE_IV
                   then fill 0 random (replicate (Z.to_nat (cipher_ctx_iv_length e)) 0)
                   else Ret (replicate (Z.to_nat (cipher_ctx_iv_length e)) 0)) = Ret iv ∧
      Z.of_nat (length iv) = cipher_ctx_iv_length e ∧ Forall is_byte iv ∧
      (has_flag (co_flags opt) CO_USE_IV = false →
       iv = replicate (Z.to_nat (cipher_ctx_iv_length e)) 0)) as (iv & -> & Hl & Hb & Hz).
    { destruct (has_flag (co_flags opt) CO_USE_IV).
      - exists random. rewrite fill_start by (done || (rewrite length_replicate; lia)).
        rewrite drop_ge, app_nil_r by (rewrite length_replicate; lia). done.
      - eexists. split; [done|]. rewrite length_replicate. split; [lia|].
        split; [apply zeros_bytes|done]. }
    bret. pose proof (length_pin_bytes _ _ _ _ _ Ha) as Hlp.
    rewrite (prepend_pin_ok now opt pin opt') by done. bret. eexists iv, _, _.
    split; [done|]. split; [done|]. split; [done|]. split; [done|].
    split; [rewrite length_app; lia|]. split; [|split; [|done]].
    + intros Hc. apply Forall_app_2; [|done]. destruct pin; [apply wire_bytes_bytes|constructor].
    + intros Hc [_ ?]%app_eq_nil. done.
  - destruct Hs as [?|(Eofb & Eiv & p & Ep)]; [done|]. rewrite Eofb, Eiv, ASSERT_ok by done. bret.
    unfold allocates in Ha. rewrite Ep in *. destruct Ha as (x & s & Ea & Hx & -> & ->).
    unfold alloc_pin. rewrite Ea. bret. rewrite clear_iv_ok. bret.
    destruct (ofb_cfb_iv e Eofb) as [H8 _]. pose proof (max_iv_length (C := C)) as Hmax.
    unfold buf_set_write, buf_size_valid. rewrite bool_decide_eq_true_2 by lia.
    rewrite decide_True by lia. set (n := Z.to_nat (cipher_ctx_iv_length e)).
    rewrite fill_start by (apply (zeros_bytes 1) || (rewrite length_replicate; cbn; lia)). bret.
    assert ([0] ++ drop (length [0]) (replicate n 0) = replicate n 0) as ->.
    { destruct n eqn:En; [lia|]. cbn [replicate length]. by rewrite drop_S_cons || done. }
    assert (Buf (cipher_ctx_iv_length e) 0 0 (Some (replicate n 0)) = mkbuf [] [] (replicate n 0)) as ->.
    { unfold mkbuf. cbn [length app]. rewrite length_replicate. f_equal. lia. }
    rewrite packet_id_write_append; [|cbn [length]; rewrite length_replicate; lia
                                     |rewrite length_replicate; unfold packet_id_size; lia].
    bret. rewrite ASSERT_ok by done. bret. cbn [data mkbuf default from_option id app].
    pose proof (length_wire_bytes true x) as Hw. unfold packet_id_size in Hw.
    eexists _, (length pre), c. rewrite take_ge by lia. split; [done|].
    rewrite length_app, length_drop, length_replicate.
    split; [lia|]. split; [apply Forall_app_2; [apply wire_bytes_bytes|apply Forall_drop, zeros_bytes]|].
    split; [done|]. split; [pose proof (pin_size_range opt); lia|].
    split; [done|]. split; [done|]. split; [done|]. split; [done|]. split; [done|]. by eexists _, _.
Qed.


(** The content of a buffer the cipher has written its two outputs to. *)
Lemma cipher_output pre out1 out2 post :
  Forall is_byte (out1 ++ out2) → (length (out1 ++ out2) ≤ length post)%nat →
  Z.of_nat (length pre + length post) < BUF_SIZE_MAX →
  ∃ w1 w2, poke (offset (mkbuf pre [] post)) out1 (mkbuf pre [] post) = Ret (tt, w1) ∧
    buf_inc_len (Z.of_nat (length out1)) w1 = Ret (true, mkbuf pre out1 (drop (length out1) post)) ∧
    poke (Z.of_nat (length pre) + Z.of_nat (length out1)) out2
      (mkbuf pre out1 (drop (length out1) post)) = Ret (tt, w2) ∧
    buf_inc_len (Z.of_nat (length out2)) w2 =
      Ret (true, mkbuf pre (out1 ++ out2) (drop (length (out1 ++ out2)) post)).
Proof.
  intros [Hb1 Hb2]%Forall_app Hl Hm. rewrite length_app in Hl.
  pose proof (poke_append pre [] post out1 Hb1 ltac:(lia)) as Hp. cbn [length] in Hp.
  change (Z.of_nat 0) with 0 in Hp. rewrite Z.add_0_r in Hp.
  eexists _, _. split; [exact Hp|]. split.
  { rewrite buf_inc_len_mk; [done|]. rewrite length_app, length_drop. cbn [length]. lia. }
  split; [apply poke_append; [done|rewrite length_drop; lia]|].
  rewrite buf_inc_len_mk by (rewrite length_app, !length_drop; lia).
  by rewrite drop_drop, length_app.
Qed.

(** ** Encrypting *)

Lemma opens_same c c' flags pin body payload :
  option_Forall2 same_key c c' → opens c flags pin body payload → opens c' flags pin body payload.
Proof.
  intros [e e' He|]; [|done]. intros (iv & ct & plain & Hl & Hb & Hbody & Hz & Hct & Hpb & Hcl & Hd & Hp).
  pose proof (same_key_statics e e' He) as Es. unfold statics in Es. injection Es as Ei Eb _ Ec Eo.
  exists iv, ct, plain. rewrite <- Ei, <- Eb, <- Ec, <- Eo. repeat (split; [done|]).
  split; [|done]. intros d Hd' Hdd. apply Hd; [by etrans|done].
Qed.

Lemma encrypt_cipher_ok now random fr (ctx : key_ctx C H) opt pin opt' pre c post work :
  directed true ctx → crypto_frame fr ctx opt → supported (kc_cipher ctx) opt →
  allocates now (id_form (kc_cipher ctx) (co_flags opt)) opt pin opt' →
  (∀ e, kc_cipher ctx = Some e → Z.of_nat (length random) = cipher_ctx_iv_length e) →
  Forall is_byte random → Forall is_byte c → c ≠ [] → Z.of_nat (length c) ≤ PAYLOAD_SIZE fr →
  crypto_overhead ctx opt ≤ Z.of_nat (length pre) → sized (BUF_SIZE fr) work →
  ∃ pre' body post' ctx' buf',
    encrypt_cipher now random fr (mkbuf pre c post) work ctx opt =
      Ret (Some (mkbuf pre' body post'), ctx', buf', opt') ∧
    kc_hmac ctx' = kc_hmac ctx ∧ (tag_size ctx ≤ length pre')%nat ∧
    opens (kc_cipher ctx) (co_flags opt) pin body c ∧ same_ctx ctx ctx' ∧ directed true ctx'.
Proof.
  intros Hdir (Hfr & Hov & _) Hs Ha Hr Hrb Hcb Hc Hlc Hpre Hw.
  unfold encrypt_cipher, crypto_overhead, cipher_overhead in *.
  pose proof (pin_size_range opt) as Hpin.
  destruct (kc_cipher ctx) as [e|] eqn:Ee.
  2:{ cbn [id_form] in Ha. rewrite (prepend_pin_ok now opt pin opt') by (done || lia). bret.
      pose proof (length_pin_bytes _ _ _ _ _ Ha) as Hl. eexists _, _, _, ctx, _. split; [done|].
      split; [done|]. split; [rewrite length_take; lia|]. done. }
  pose proof (iv_length_range e) as Hiv. pose proof (block_size_range e) as Hbs.
  destruct (make_iv_ok now random e opt pin opt' pre c post) as
    (iv & k & plain & -> & Hivl & Hivb & Hz & Hpl & Hpb & Hpne & Hpay);
    [done..|destruct (has_flag _ CO_USE_IV); lia|by apply Hr|done|].
  bret. specialize (Hpb Hcb). specialize (Hpne Hc).
  destruct (frame_room fr 0 Hfr) as [Hh Hroom]. fold (FRAME_HEADROOM fr) in *.
  destruct (buf_init_sized (BUF_SIZE fr) work (FRAME_HEADROOM fr)) as (wp & wq & -> & Hwp & Hwq);
    [done|lia|]. bret. rewrite ASSERT_ok by done. bret.
  destruct (encrypts e iv plain (Hdir e Ee)) as
    (e1 & c1 & e2 & c2 & e3 & Ers & Hupd & Hfin & Hcne & Hcbc & Hdec); [done..|].
  destruct (cipher_used iv e e1 e2 e3 plain c1 c2 Ers Hupd Hfin)
    as (Hs1 & Hs3 & Hk3 & Hd3 & Hcb' & Hclen). rewrite (Hdir e Ee) in Hd3.
  unfold statics in Hs1, Hs3. injection Hs1 as _ Eb1 _ _ _. injection Hs3 as Ei3 _ Em3 _ _.
  rewrite Ers.
  assert (PAYLOAD_SIZE fr + extra_frame fr = link_mtu fr) as Hps by (unfold PAYLOAD_SIZE; lia).
  unfold EXPANDED_SIZE in Hroom. assert (wf_frame fr) as Hfr' by done. unfold wf_frame in Hfr.
  destruct (frame_headroom_ok fr 0) as [Hhead _]. fold (FRAME_HEADROOM fr) in *.
  rewrite (buf_safe_wf (mkbuf wp [] wq)); [|apply wf_mk; cbn [length]; lia| |].
  2:{ rewrite Eb1. cbn [len mkbuf]. lia. }
  2:{ rewrite Eb1. cbn [len offset capacity mkbuf length].
      destruct (has_flag (co_flags opt) CO_USE_IV); lia. }
  cbn [negb]. rewrite peek_all_mk. bret. rewrite Hupd.
  destruct (cipher_output wp c1 c2 wq) as (w1 & w2 & -> & Hi1 & Hp2 & Hi2); [done| |lia|].
  { destruct (has_flag (co_flags opt) CO_USE_IV); lia. }
  bret. rewrite Hi1. bret. rewrite ASSERT_ok by done. bret. rewrite Hfin.
  cbn [offset mkbuf]. fold (mkbuf wp c1 (drop (length c1) wq)). rewrite Hp2. bret. rewrite Hi2. bret.
  rewrite (ASSERT_ok (true = true)) by done. bret. rewrite ASSERT_ok.
  2:{ rewrite Em3, Ei3. destruct (mode_is_cbc e); [right; by apply Hcbc|by left]. }
  bret. destruct (allocates_flags _ _ _ _ _ Ha) as [-> _].
  assert (∃ wp', (if has_flag (co_flags opt) CO_USE_IV
     then '(ok, work) ← buf_write_prepend iv (mkbuf wp (c1 ++ c2) (drop (length (c1 ++ c2)) wq));
          ASSERT (ok = true);; Ret work
     else Ret (mkbuf wp (c1 ++ c2) (drop (length (c1 ++ c2)) wq))) =
    Ret (mkbuf wp' ((if has_flag (co_flags opt) CO_USE_IV then iv else []) ++ c1 ++ c2)
      (drop (length (c1 ++ c2)) wq)) ∧ (tag_size ctx ≤ length wp')%nat) as (wp' & -> & Hwp').
  { destruct (has_flag (co_flags opt) CO_USE_IV).
    - rewrite buf_write_prepend_mk by (done || (geometry; lia)). bret. rewrite ASSERT_ok by done. bret.
      eexists. split; [done|]. rewrite length_take. geometry. lia.
    - eexists. split; [done|]. geometry. lia. }
  bret. eexists _, _, _, _, _. split; [done|]. cbn [kc_hmac kc_cipher].
  split; [done|]. split; [done|]. split; [|split; [split; cbn [kc_cipher kc_hmac]; [rewrite Ee; by constructor|done]|by intros ? [= <-]]].
  exists iv, (c1 ++ c2), plain.
  destruct (cipher_kt_mode_cbc e); repeat (split; [done|]); [done|]. by destruct Hpay as (? & ? & ? & ?).
Qed.

(** ** Decrypting *)

(** The identifier the receiver sees. *)
Definition received (c : option C) (flags : Z) (pin : option packet_id_net) : option packet_id_net :=
  match c with
  | None => if has_flag flags CO_IGNORE_PACKET_ID then None
            else on_wire (id_form c flags) <$> pin
  | Some _ => on_wire (id_form c flags) <$> pin
  end.

Lemma read_pin_ok long x pre c post :
  pin_ok (Some x) →
  read_pin long (mkbuf pre (wire_bytes long x ++ c) post) =
    Ret (Some (on_wire long x), mkbuf (pre ++ wire_bytes long x) c post).
Proof.
  intros [? ?]. unfold read_pin. rewrite packet_id_read_front by (done || (unfold is_u32; lia)).
  by bret.
Qed.

Lemma take_iv_ok e (opt : crypto_options C H) pre iv ct post :
  Z.of_nat (length iv) = cipher_ctx_iv_length e →
  (has_flag (co_flags opt) CO_USE_IV = false →
   iv = replicate (Z.to_nat (cipher_ctx_iv_length e)) 0) →
  Forall is_byte iv →
  ∃ pre', take_iv (cipher_ctx_iv_length e)
      (mkbuf pre ((if has_flag (co_flags opt) CO_USE_IV then iv else []) ++ ct) post) opt =
    Ret (Some (iv, mkbuf pre' ct post)).
Proof.
  intros Hl Hz Hb. unfold take_iv. rewrite clear_iv_ok. bret.
  destruct (has_flag (co_flags opt) CO_USE_IV).
  2:{ exists pre. by rewrite Hz by done. }
  rewrite decide_False by (cbn [len mkbuf]; rewrite length_app; lia).
  pose proof (peek_n_mk pre [] iv ct post) as Hp. cbn [app length] in Hp.
  change (Z.of_nat 0) with 0 in Hp. rewrite Z.add_0_r, Hl in Hp. cbn [offset mkbuf].
  fold (mkbuf pre (iv ++ ct) post). rewrite Hp. bret.
  rewrite fill_start by (done || (rewrite length_replicate; lia)).
  rewrite drop_ge, app_nil_r by (rewrite length_replicate; lia). bret.
  rewrite <- Hl, buf_advance_mk. bret. rewrite ASSERT_ok by done. bret. by eexists.
Qed.

Lemma take_pin_ok e (opt : crypto_options C H) pin iv pre plain payload post :
  (is_Some (co_packet_id opt) ↔ is_Some pin) → pin_ok pin →
  Z.of_nat (length iv) = cipher_ctx_iv_length e →
  (if cipher_kt_mode_cbc e
   then plain = pin_bytes (has_flag (co_flags opt) CO_PACKET_ID_LONG_FORM) pin ++ payload
   else cipher_kt_mode_ofb_cfb e = true ∧ has_flag (co_flags opt) CO_USE_IV = true ∧
        plain = payload ∧ ∃ x rest, pin = Some x ∧ iv = wire_bytes true x ++ rest) →
  ∃ pre', take_pin e iv (mkbuf pre plain post) opt =
    Ret (Some (received (Some e) (co_flags opt) pin), mkbuf pre' payload post).
Proof.
  intros Hid Hpin Hl Hp. unfold take_pin, received, id_form.
  destruct (cipher_kt_mode_cbc e).
  - rewrite Hp. destruct (co_packet_id opt).
    + destruct pin as [x|]; [|by destruct (proj1 Hid (mk_is_Some _ _ eq_refl))].
      cbn [pin_bytes]. rewrite read_pin_ok by done. bret. by eexists.
    + destruct pin as [x|]; [by destruct (proj2 Hid (mk_is_Some _ _ eq_refl))|]. by eexists.
  - destruct Hp as (-> & -> & -> & x & rest & -> & ->). rewrite ASSERT_ok by done. bret.
    destruct (co_packet_id opt); [|by destruct (proj2 Hid (mk_is_Some _ _ eq_refl))].
    pose proof (iv_length_range e). pose proof (max_iv_length (C := C)).
    unfold buf_set_read, buf_size_valid. rewrite bool_decide_eq_true_2 by lia.
    assert (Buf (cipher_ctx_iv_length e) 0 (cipher_ctx_iv_length e) (Some (wire_bytes true x ++ rest)) =
            mkbuf [] (wire_bytes true x ++ rest) []) as ->.
    { unfold mkbuf. rewrite app_nil_r. cbn [length app]. rewrite <- Hl. f_equal. lia. }
    bret. rewrite read_pin_ok by done. bret. by eexists.
Qed.

Lemma decrypt_cipher_ok fr (ctx : key_ctx C H) opt pin pre body payload post work :
  directed false ctx → crypto_frame fr ctx opt →
  (is_Some (co_packet_id opt) ↔ is_Some pin) → pin_ok pin →
  opens (kc_cipher ctx) (co_flags opt) pin body payload →
  Z.of_nat (length payload) ≤ PAYLOAD_SIZE fr → sized (BUF_SIZE fr) work →
  ∃ pre' post' ctx' buf',
    decrypt_cipher fr (mkbuf pre body post) work ctx opt =
      Ret (Some (received (kc_cipher ctx) (co_flags opt) pin, mkbuf pre' payload post'), ctx', buf') ∧
    same_ctx ctx ctx' ∧ directed false ctx'.
Proof.
  intros Hdir (Hfr & _ & Hov) Hid Hpin Hop Hlp Hw. unfold decrypt_cipher.
  destruct (kc_cipher ctx) as [e|] eqn:Ed.
  2:{ cbn [opens] in Hop. subst body. unfold received, id_form. destruct (co_packet_id opt).
      - destruct pin as [x|]; [|by destruct (proj1 Hid (mk_is_Some _ _ eq_refl))].
        cbn [pin_bytes]. rewrite read_pin_ok by done. bret. eexists _, _, ctx, _.
        split; [|done]. by destruct (has_flag (co_flags opt) CO_IGNORE_PACKET_ID).
      - destruct pin as [x|]; [by destruct (proj2 Hid (mk_is_Some _ _ eq_refl))|].
        eexists _, _, ctx, _. split; [|done].
        by destruct (has_flag (co_flags opt) CO_IGNORE_PACKET_ID). }
  cbn [opens] in Hop.
  destruct Hop as (iv & ct & plain & Hivl & Hivb & -> & Hz & Hct & Hpb & Hcl & Hdec & Hpay).
  destruct (frame_room fr FRAME_HEADROOM_MARKER_DECRYPT Hfr) as [Hh Hroom].
  fold (FRAME_HEADROOM_ADJ fr FRAME_HEADROOM_MARKER_DECRYPT) in *.
  destruct (buf_init_sized (BUF_SIZE fr) work (FRAME_HEADROOM_ADJ fr FRAME_HEADROOM_MARKER_DECRYPT))
    as (wp & wq & -> & Hwp & Hwq); [done|lia|]. bret. rewrite ASSERT_ok by done. bret.
  destruct (take_iv_ok e opt pre iv ct post) as (pre' & ->); [done..|]. bret.
  rewrite decide_False by (cbn [len mkbuf]; destruct ct; [done|cbn [length]; lia]).
  destruct (Hdec e ltac:(done) (Hdir e Ed)) as (d1 & p1 & d2 & p2 & d3 & Ers & Hupd & Hfin & Epl).
  rewrite Ers. destruct (cipher_used iv e d1 d2 d3 ct p1 p2 Ers Hupd Hfin) as (Es1 & Es3 & Hk3 & Hd3 & _ & _).
  rewrite (Hdir e Ed) in Hd3. unfold statics in Es1, Es3. injection Es1 as _ Eb1 _ _ _.
  pose proof (block_size_range e) as Hbs.
  assert (Z.of_nat (length plain) ≤ PAYLOAD_SIZE fr + pin_size opt) as Hpl.
  { pose proof (pin_size_range opt). destruct (cipher_kt_mode_cbc e); [|destruct Hpay as (_ & _ & -> & _); lia].
    subst plain. rewrite length_app. destruct pin as [x|]; cbn [pin_bytes length]; [|lia].
    destruct (proj2 Hid (mk_is_Some _ _ eq_refl)) as [p Ep].
    pose proof (length_wire_bytes (has_flag (co_flags opt) CO_PACKET_ID_LONG_FORM) x).
    unfold pin_size in *. rewrite Ep in *. lia. }
  assert (PAYLOAD_SIZE fr + extra_frame fr = link_mtu fr) as Hps by (unfold PAYLOAD_SIZE; lia).
  unfold EXPANDED_SIZE in Hroom. assert (wf_frame fr) as Hfr' by done. unfold wf_frame in Hfr.
  rewrite (buf_safe_wf (mkbuf wp [] wq)); [|apply wf_mk; cbn [length]; lia| |].
  2:{ rewrite Eb1. cbn [len mkbuf]. lia. }
  2:{ rewrite Eb1. cbn [len offset capacity mkbuf length]. lia. }
  cbn [negb]. rewrite peek_all_mk. bret. rewrite Hupd.
  destruct (cipher_output wp p1 p2 wq) as (w1 & w2 & -> & Hi1 & Hp2 & Hi2);
    [by rewrite Epl|rewrite Epl; lia|lia|].
  bret. rewrite Hi1. bret. rewrite ASSERT_ok by done. bret. rewrite Hfin.
  cbn [offset mkbuf]. fold (mkbuf wp p1 (drop (length p1) wq)). rewrite Hp2. bret. rewrite Hi2. bret.
  rewrite (ASSERT_ok (true = true)) by done. bret. rewrite Epl.
  injection Es3 as Ei3 _ _ Ecbc3 Eofb3. rewrite <- Ei3 in Hivl. rewrite <- Ecbc3, <- Eofb3 in Hpay.
  destruct (take_pin_ok d3 opt pin iv wp plain payload (drop (length plain) wq))
    as (wp' & ->); [done..|]. bret.
  eexists _, _, (KC (Some d3) _), _. split; [unfold received, id_form; by rewrite Ecbc3|].
  split; [split; cbn [kc_cipher kc_hmac]; [rewrite Ed; by constructor|done]|by intros ? [= <-]].
Qed.

(** ** Packets *)

(** [w] carries [c] under the keys of [ctx]. *)
Definition sealed (ctx : key_ctx C H) (flags : Z) (pin : option packet_id_net) (w c : list Z) : Prop :=
  authentic ctx w ∧ opens (kc_cipher ctx) flags pin (drop (tag_size ctx) w) c ∧ pin_ok pin.

Lemma authentic_same a b w : same_ctx a b → authentic a w → authentic b w.
Proof.
  intros [_ Hm]. unfold authentic. destruct Hm as [x y Hm|]; [|done].
  by rewrite (same_mac_size x y Hm), (same_mac_tag x y _ Hm).
Qed.

Lemma tag_size_same a b : same_ctx a b → tag_size a = tag_size b.
Proof.
  intros [_ Hm]. unfold tag_size. destruct Hm as [x y Hm|]; [|done]. by rewrite (same_mac_size x y Hm).
Qed.

Lemma sealed_same a b flags pin w c : same_ctx a b → sealed a flags pin w c → sealed b flags pin w c.
Proof.
  intros Hs (Ha & Ho & Hp). split; [by eapply authentic_same|]. split; [|done].
  rewrite <- (tag_size_same a b Hs). by eapply opens_same; [apply Hs|].
Qed.

Lemma sealed_nonempty ctx flags x w c : sealed ctx flags (Some x) w c → w ≠ [].
Proof.
  intros (_ & Ho & _) ->. rewrite drop_nil in Ho. unfold opens in Ho.
  destruct (kc_cipher ctx) as [e|].
  - destruct Ho as (iv & ct & plain & _ & _ & E & _ & Hct & _). symmetry in E. apply app_eq_nil in E as [_ ?]. done.
  - symmetry in Ho. by apply app_eq_nil in Ho as [Hw _].
Qed.

#[export] Instance authentic_proper : Proper (same_ctx ==> (=) ==> iff) authentic.
Proof. intros a b Hab w ? <-. split; by apply authentic_same. Qed.

(** What depends on the keys only. *)
Lemma cipher_same (a b : key_ctx C H) opt : same_ctx a b →
  cipher_overhead a opt = cipher_overhead b opt ∧
  (supported (kc_cipher a) opt ↔ supported (kc_cipher b) opt) ∧
  (∀ flags, id_form (kc_cipher a) flags = id_form (kc_cipher b) flags) ∧
  ∀ flags pin, received (kc_cipher a) flags pin = received (kc_cipher b) flags pin.
Proof.
  intros [Hc _]. unfold cipher_overhead, supported, received, id_form.
  destruct Hc as [x y Hc|]; [|done]. pose proof (same_key_statics x y Hc) as Es.
  unfold statics in Es. by injection Es as -> -> _ -> ->.
Qed.

Lemma crypto_frame_same a b fr opt : same_ctx a b → crypto_frame fr a opt → crypto_frame fr b opt.
Proof.
  intros Hs (Hf & Ho & Hd). unfold crypto_frame, crypto_overhead in *.
  rewrite <- (tag_size_same a b Hs), <- (proj1 (cipher_same a b opt Hs)). split; [done|].
  split; [done|]. destruct Hs as [Hc _]. destruct Hc as [x y Hc|]; [|done].
  pose proof (same_key_statics x y Hc) as Es. unfold statics in Es. by injection Es as _ <- _ _ _.
Qed.

(** [openvpn_encrypt] seals the payload under the next identifier. *)
Lemma openvpn_encrypt_ok now random fr opt bi pin opt' pre c post work :
  let ctx := kc_encrypt bi in
  co_key_ctx_bi opt = Some bi → directed true ctx →
  crypto_frame fr ctx opt → supported (kc_cipher ctx) opt →
  allocates now (id_form (kc_cipher ctx) (co_flags opt)) opt pin opt' →
  (∀ e, kc_cipher ctx = Some e → Z.of_nat (length random) = cipher_ctx_iv_length e) →
  Forall is_byte random → Forall is_byte c → c ≠ [] → Z.of_nat (length c) ≤ PAYLOAD_SIZE fr →
  crypto_overhead ctx opt ≤ Z.of_nat (length pre) → sized (BUF_SIZE fr) work →
  ∃ pre' w post' ctx',
    openvpn_encrypt now random fr (mkbuf pre c post) work opt =
      Ret (mkbuf pre' w post', set_encrypt ctx' opt') ∧
    sealed ctx (co_flags opt) pin w c ∧ same_ctx ctx ctx' ∧ directed true ctx'.
Proof.
  intros ctx Ebi Hdir Hfr Hs Ha Hr Hrb Hcb Hc Hlc Hpre Hw. unfold openvpn_encrypt. rewrite Ebi.
  rewrite decide_True by (cbn [len mkbuf]; destruct c; [done|cbn [length]; lia]). fold ctx.
  destruct (encrypt_cipher_ok now random fr ctx opt pin opt' pre c post work)
    as (pre' & body & post' & ctx1 & buf' & -> & Eh & Htl & Hop & Hk1 & Hd1); [done..|]. bret.
  destruct (sign_ok pre' body post' ctx1) as (ctx2 & -> & Hk2 & Ec2).
  { intros h Eh1. unfold tag_size in Htl. rewrite <- Eh, Eh1 in Htl. pose proof (mac_size h). lia. }
  bret. eexists _, _, _, _. split; [done|]. split; [|split; [by etrans|]].
  2:{ unfold directed. rewrite Ec2. exact Hd1. }
  rewrite Eh. assert (pin_ok pin) as Hpin.
  { unfold allocates in Ha. destruct (co_packet_id opt); [by destruct Ha as (x & s & _ & ? & -> & _)|].
    by destruct Ha as [-> _]. }
  unfold sealed, authentic, tag_size. destruct (kc_hmac ctx) as [h|]; [|by rewrite drop_0].
  pose proof (length_tag h body) as Hl. pose proof (mac_size h).
  rewrite drop_app_length', take_app_length' by lia. done.
Qed.

(** What the receiver makes of the identifier of an authentic packet. *)
Definition accepts (now : Z) (pin : option packet_id_net) (p : option packet_id) :
    outcome (bool * option packet_id) :=
  match pin, p with
  | Some x, Some p => '(ok, r) ← receive now (pid_rec p) x; Ret (ok, Some (PID (pid_send p) r))
  | _, _ => Ret (true, p)
  end.

Lemma check_pin_ok now pin (opt : crypto_options C H) ok p' :
  (is_Some pin → is_Some (co_packet_id opt)) → accepts now pin (co_packet_id opt) = Ret (ok, p') →
  ∃ opt', check_pin now pin opt = Ret (ok, opt') ∧ co_packet_id opt' = p' ∧
    co_key_ctx_bi opt' = co_key_ctx_bi opt ∧ co_flags opt' = co_flags opt.
Proof.
  unfold check_pin, accepts. intros Hid. destruct pin as [x|].
  2:{ destruct (co_packet_id opt) eqn:E; (intros [= <- <-]; by exists opt). }
  destruct (co_packet_id opt) as [p|]; [|by destruct (Hid (mk_is_Some _ _ eq_refl))].
  destruct (receive now (pid_rec p) x) as [[ok1 r]| | |]; try done. bret. intros [= <- <-].
  eexists. split; [done|]. by destruct (ok1 && _).
Qed.

Lemma received_some c flags pin : is_Some (received c flags pin) → is_Some pin.
Proof.
  unfold received. destruct c as [e|]; [by rewrite fmap_is_Some|].
  destruct (has_flag flags CO_IGNORE_PACKET_ID); [by intros [? ?]|by rewrite fmap_is_Some].
Qed.

Lemma content_set_len_0 b : content (set_len 0 b) = [].
Proof. unfold content, slice, set_len. cbn. by rewrite take_0. Qed.

Lemma openvpn_decrypt_ok now fr opt bi pin ok p' pre w c post work :
  let ctx := kc_decrypt bi in
  co_key_ctx_bi opt = Some bi → directed false ctx → crypto_frame fr ctx opt →
  (is_Some (co_packet_id opt) ↔ is_Some pin) →
  sealed ctx (co_flags opt) pin w c → w ≠ [] →
  Z.of_nat (length c) ≤ PAYLOAD_SIZE fr → sized (BUF_SIZE fr) work →
  accepts now (received (kc_cipher ctx) (co_flags opt) pin) (co_packet_id opt) = Ret (ok, p') →
  ∃ b ctx' opt',
    openvpn_decrypt now fr (mkbuf pre w post) work opt = Ret (ok, b, opt') ∧
    content b = (if ok then c else []) ∧ co_packet_id opt' = p' ∧
    co_key_ctx_bi opt' = Some (KCB (kc_encrypt bi) ctx') ∧ same_ctx ctx ctx' ∧
    directed false ctx' ∧ co_flags opt' = co_flags opt.
Proof.
  intros ctx Ebi Hdir Hfr Hid (Hau & Hop & Hpin) Hne Hlc Hw Hac. unfold openvpn_decrypt. rewrite Ebi.
  rewrite decide_True by (cbn [len mkbuf]; destruct w; [done|cbn [length]; lia]). fold ctx.
  destruct (check_hmac_ok pre w post ctx) as (ctx1 & Hk1 & Ec1 & ->). rewrite decide_True by done. bret.
  assert (opens (kc_cipher ctx1) (co_flags opt) pin (drop (tag_size ctx) w) c) as Hop1
    by (by eapply opens_same; [apply Hk1|]).
  destruct (decrypt_cipher_ok fr ctx1 opt pin (pre ++ take (tag_size ctx) w) (drop (tag_size ctx) w)
    c post work) as (pre' & post' & ctx2 & buf' & -> & Hk2 & Hd2);
    [unfold directed; by rewrite Ec1|by eapply crypto_frame_same|done..|]. bret.
  destruct (cipher_same ctx ctx1 opt Hk1) as (_ & _ & _ & Hrec). rewrite <- Hrec.
  destruct (check_pin_ok now (received (kc_cipher ctx) (co_flags opt) pin) (set_decrypt ctx2 opt) ok p')
    as (opt' & -> & Ep & Ek & Ef); [|done|].
  { intros Hr. cbn [co_packet_id set_decrypt]. apply Hid. by eapply received_some. }
  bret. exists (if ok then mkbuf pre' c post' else set_len 0 buf'), ctx2, opt'.
  split; [by destruct ok|]. split; [destruct ok; [apply content_mk|apply content_set_len_0]|].
  split; [done|]. split; [rewrite Ek; cbn; by rewrite Ebi|]. split; [by etrans|done].
Qed.

(** A packet without the right tag is dropped, and moves no replay window. *)
Lemma openvpn_decrypt_forged now fr opt bi pre w post work :
  co_key_ctx_bi opt = Some bi → w ≠ [] → ¬ authentic (kc_decrypt bi) w →
  ∃ b ctx', openvpn_decrypt now fr (mkbuf pre w post) work opt = Ret (false, b, set_decrypt ctx' opt) ∧
    content b = [] ∧ same_ctx (kc_decrypt bi) ctx' ∧ kc_cipher ctx' = kc_cipher (kc_decrypt bi).
Proof.
  intros Ebi Hne Hau. unfold openvpn_decrypt. rewrite Ebi.
  rewrite decide_True by (cbn [len mkbuf]; destruct w; [done|cbn [length]; lia]).
  destruct (check_hmac_ok pre w post (kc_decrypt bi)) as (ctx1 & Hk1 & Ec1 & ->).
  rewrite decide_False by done. bret. eexists _, ctx1. split; [done|]. split; [|done].
  apply content_set_len_0.
Qed.

(** ** Sequences of packets *)

Fixpoint encrypt_all (fr : frame) (opt : crypto_options C H)
    (l : list (Z * list Z * buffer * buffer)) : outcome (list buffer * crypto_options C H) :=
  match l with
  | [] => Ret ([], opt)
  | (now, random, buf, work) :: l =>
      '(w, opt) ← openvpn_encrypt now random fr buf work opt;
      '(ws, opt) ← encrypt_all fr opt l;
      Ret (w :: ws, opt)
  end.

(** The payloads accepted. *)
Fixpoint decrypt_all (fr : frame) (opt : crypto_options C H) (l : list (Z * buffer * buffer)) :
    outcome (list (list Z) * crypto_options C H) :=
  match l with
  | [] => Ret ([], opt)
  | (now, buf, work) :: l =>
      '(ok, b, opt) ← openvpn_decrypt now fr buf work opt;
      '(out, opt) ← decrypt_all fr opt l;
      Ret (if ok : bool then content b :: out else out, opt)
  end.

(** Options that differ in state only. *)
Definition same_options (a b : crypto_options C H) : Prop :=
  co_flags a = co_flags b ∧ (is_Some (co_packet_id a) ↔ is_Some (co_packet_id b)).

Lemma pin_size_same a b : same_options a b → pin_size a = pin_size b.
Proof.
  intros [Hf Hp]. unfold pin_size. rewrite Hf.
  destruct (co_packet_id a), (co_packet_id b); try done;
    [by destruct (proj1 Hp (mk_is_Some _ _ eq_refl))|by destruct (proj2 Hp (mk_is_Some _ _ eq_refl))].
Qed.

Lemma overhead_same ctx a b : same_options a b → crypto_overhead ctx a = crypto_overhead ctx b.
Proof.
  intros Hs. unfold crypto_overhead, cipher_overhead. by rewrite (pin_size_same a b Hs), (proj1 Hs).
Qed.

Lemma crypto_frame_options fr ctx a b : same_options a b → crypto_frame fr ctx a → crypto_frame fr ctx b.
Proof. intros Hs. unfold crypto_frame. by rewrite (overhead_same ctx a b Hs), (pin_size_same a b Hs). Qed.

Lemma supported_options c a b : same_options a b → supported c a → supported c b.
Proof. intros [Hf Hp]. unfold supported. destruct c; [|done]. rewrite Hf. by rewrite Hp. Qed.

(** What may be sent: the time, the random bytes, the payload, with the room
    for its headers in front, and the work buffer. *)
Definition sendable (fr : frame) (ctx : key_ctx C H) (opt : crypto_options C H)
    (m : Z * list Z * buffer * buffer) : Prop :=
  let '(now, random, buf, work) := m in
  0 < now < 4294967296 ∧ Forall is_byte random ∧
  (∀ e, kc_cipher ctx = Some e → Z.of_nat (length random) = cipher_ctx_iv_length e) ∧
  wf_buf buf ∧ content buf ≠ [] ∧ Forall is_byte (content buf) ∧
  Z.of_nat (length (content buf)) ≤ PAYLOAD_SIZE fr ∧
  crypto_overhead ctx opt ≤ offset buf ∧ sized (BUF_SIZE fr) work.

Definition sent_at (m : Z * list Z * buffer * buffer) : Z := m.1.1.1.
Definition payload (m : Z * list Z * buffer * buffer) : list Z := content m.1.2.

Lemma allocates_next now form opt p :
  co_packet_id opt = Some p → is_u32 (send_id (pid_send p)) → is_u32 (send_time (pid_send p)) →
  0 < now < 4294967296 → send_id (pid_send p) + 1 < 4294967296 →
  ∃ x s, packet_id_alloc_outgoing now (pid_send p) form = Ret (x, s) ∧
    allocates now form opt (Some x) (set_packet_id (Some (PID s (pid_rec p))) opt) ∧
    send_id s = send_id (pid_send p) + 1 ∧ is_u32 (send_time s).
Proof.
  unfold is_u32. intros Ep Hi Ht Hn Hlt. set (s := pid_send p) in *.
  assert (∃ x s', packet_id_alloc_outgoing now s form = Ret (x, s') ∧ pin_ok (Some x) ∧
    send_id s' = send_id s + 1 ∧ 0 ≤ send_time s' < 4294967296) as (x & s' & E & Hx & Hs1 & Hs2).
  { unfold packet_id_alloc_outgoing. rewrite u32_id by (unfold is_u32; lia).
    rewrite (decide_False (P := send_id s + 1 = 0)) by lia.
    eexists _, _. split; [done|]. unfold pin_ok, is_u32. cbn. case_decide; lia. }
  exists x, s'. split; [done|]. split; [|done]. unfold allocates. rewrite Ep. by exists x, s'.
Qed.

Lemma encrypt_all_ok fr ctx opt0 l : ∀ opt bi p,
  co_key_ctx_bi opt = Some bi → directed true (kc_encrypt bi) → same_ctx ctx (kc_encrypt bi) → same_options opt0 opt →
  crypto_frame fr ctx opt0 → supported (kc_cipher ctx) opt0 →
  co_packet_id opt = Some p → is_u32 (send_id (pid_send p)) → is_u32 (send_time (pid_send p)) →
  send_id (pid_send p) + Z.of_nat (length l) < 4294967296 →
  Forall (sendable fr ctx opt0) l →
  ∃ ws opt' pins s, encrypt_all fr opt l = Ret (ws, opt') ∧
    alloc_run (id_form (kc_cipher ctx) (co_flags opt0)) (pid_send p) (map sent_at l) = Ret (pins, s) ∧
    Forall3 (λ m x w, sealed ctx (co_flags opt0) (Some x) (content w) (payload m)) l pins ws.
Proof.
  induction l as [|[[[now random] buf] work] l IH]; intros opt bi p Ebi Hdir Hk Ho Hfr Hs Ep Hi Ht Hn Hl.
  { eexists [], opt, [], _. split; [done|]. split; [done|]. constructor. }
  apply Forall_cons in Hl as [(Hnow & Hrb & Hr & Hb & Hne & Hcb & Hlen & Hoff & Hw) Hl].
  cbn [encrypt_all alloc_run map sent_at fst length] in *.
  destruct (cipher_same ctx (kc_encrypt bi) opt Hk) as (Hov & Hsup & Hform & _).
  pose proof (proj1 Ho) as Hf.
  destruct (allocates_next now (id_form (kc_cipher ctx) (co_flags opt)) opt p)
    as (x & s & Ea & Hal & Hsi & Hst); [done..|lia|].
  destruct (wf_buf_mk buf Hb) as (pre & post & Eb & Hm). rewrite Eb in Hoff. cbn [offset mkbuf] in Hoff.
  destruct (openvpn_encrypt_ok now random fr opt bi (Some x)
    (set_packet_id (Some (PID s (pid_rec p))) opt) pre (content buf) post work)
    as (pre' & w & post' & ctx' & Een & Hseal & Hk' & Hd'); try done.
  { eapply crypto_frame_options, crypto_frame_same; done. }
  { apply Hsup. by eapply supported_options. }
  { rewrite <- Hform. exact Hal. }
  { intros e Ee. destruct Hk as [Hk _]. rewrite Ee in Hk. inversion Hk as [e0 ? Hke E0|]; subst.
    rewrite (Hr e0) by done. pose proof (same_key_statics _ _ Hke) as Es. unfold statics in Es.
    by injection Es. }
  { rewrite <- (overhead_same _ opt0 opt) by done. unfold crypto_overhead, cipher_overhead in *.
    rewrite <- (tag_size_same _ _ Hk). rewrite <- Hf in Hov. lia. }
  rewrite <- Eb in Een. rewrite Een. bret. destruct (IH (set_encrypt ctx' (set_packet_id (Some (PID s (pid_rec p))) opt))
    (KCB ctx' (kc_decrypt bi)) (PID s (pid_rec p))) as (ws & opt' & pins & s' & -> & Eal & Hf3).
  all: try done.
  { cbn. by rewrite Ebi. }
  { by etrans. }
  { split; [done|]. split; [by eexists|]. intros _. apply Ho. by eexists. }
  { unfold is_u32 in *. cbn [pid_send]. lia. }
  { cbn [pid_send]. lia. }
  bret. eexists _, _, _, _. split; [done|]. rewrite <- Hf in Ea. rewrite Ea. bret.
  cbn [pid_send] in Eal. rewrite Eal. bret. split; [done|]. constructor; [|done].
  rewrite content_mk. rewrite <- Hf in Hseal. eapply sealed_same; [symmetry; exact Hk|exact Hseal].
Qed.

(** What arrives: a datagram at a time, and what it is a copy of; [None] is a
    datagram the peer did not seal. *)
Definition arrives (fr : frame) (ctx : key_ctx C H) (flags : Z) (a : Z * buffer * buffer)
    (o : option (nat * packet_id_net * list Z)) : Prop :=
  let '(now, buf, work) := a in
  1 < now ∧ wf_buf buf ∧ content buf ≠ [] ∧ sized (BUF_SIZE fr) work ∧
  match o with
  | Some (_, x, c) => sealed ctx flags (Some x) (content buf) c ∧ Z.of_nat (length c) ≤ PAYLOAD_SIZE fr
  | None => ¬ authentic ctx (content buf)
  end.

(** The identifiers the receiver tests, with their times. *)
Definition heard (form : bool) (a : Z * buffer * buffer) (o : option (nat * packet_id_net * list Z)) :
    option (Z * packet_id_net) :=
  (λ r, (a.1.1, on_wire form r.1.2)) <$> o.
Definition tested (form : bool) (arr : list (Z * buffer * buffer))
    (os : list (option (nat * packet_id_net * list Z))) : list (Z * packet_id_net) :=
  omap id (zip_with (heard form) arr os).

(** The receiver delivers the payloads of the packets whose identifiers its
    window accepts, and nothing else. *)
Lemma decrypt_all_ok fr ctx opt0 arr os : Forall2 (arrives fr ctx (co_flags opt0)) arr os →
  crypto_frame fr ctx opt0 →
  (kc_cipher ctx = None → has_flag (co_flags opt0) CO_IGNORE_PACKET_ID = false) →
  let form := id_form (kc_cipher ctx) (co_flags opt0) in
  ∀ opt bi p acc r,
  co_key_ctx_bi opt = Some bi → directed false (kc_decrypt bi) → same_ctx ctx (kc_decrypt bi) → same_options opt0 opt →
  co_packet_id opt = Some p → run (pid_rec p) (tested form arr os) = Ret (acc, r) →
  ∃ js opt', decrypt_all fr opt arr = Ret (map snd js, opt') ∧
    acc = map (λ j, on_wire form j.1.2) js ∧ js `sublist_of` omap id os.
Proof.
  intros Ha Hfr Hign form. induction Ha as [|[[now buf] work] o arr os Ha Hall IH];
    intros opt bi p acc r Ebi Hdir Hk Ho Ep Hrun.
  { injection Hrun as <- <-. by exists [], opt. }
  destruct Ha as (Hnow & Hb & Hne & Hw & Hcase). cbn [decrypt_all].
  destruct (wf_buf_mk buf Hb) as (pre & post & Eb & _).
  pose proof (proj1 Ho) as Hf. destruct o as [[[j x] c]|].
  - destruct Hcase as [Hseal Hlc]. unfold tested in Hrun. cbn [zip_with heard fmap option_fmap option_map omap list_omap id run fst snd] in Hrun.
    destruct (receive now (pid_rec p) (on_wire form x)) as [[ok r1]| | |] eqn:Erec; try done.
    rewrite bind_Ret in Hrun. fold (tested form arr os) in Hrun.
    destruct (run r1 (tested form arr os)) as [[acc1 r2]| | |] eqn:Erun; try done.
    rewrite bind_Ret in Hrun. injection Hrun as <- <-.
    destruct (cipher_same ctx (kc_decrypt bi) opt0 Hk) as (_ & _ & _ & Hrec).
    destruct (openvpn_decrypt_ok now fr opt bi (Some x) ok (Some (PID (pid_send p) r1)) pre
      (content buf) c post work) as (b & ctx' & opt1 & Ede & Hcb & Ep1 & Ek1 & Hk1 & Hd1 & Hf1); try done.
    { by eapply crypto_frame_options, crypto_frame_same. }
    { rewrite <- Hf. by eapply sealed_same. }
    { rewrite <- Hf, <- Hrec. assert (received (kc_cipher ctx) (co_flags opt0) (Some x) = Some (on_wire form x)) as ->.
      { unfold received, form. destruct (kc_cipher ctx); [done|]. by rewrite Hign. }
      cbn [accepts]. rewrite Ep, Erec. by bret. }
    rewrite <- Eb in Ede. rewrite Ede. bret.
    destruct (IH opt1 (KCB (kc_encrypt bi) ctx') (PID (pid_send p) r1) acc1 r2) as (js & opt' & -> & -> & Hsub);
      try done.
    { cbn [kc_decrypt]. by etrans. }
    { split; [congruence|]. rewrite Ep1. split; [by eexists|]. intros _. apply Ho. by eexists. }
    bret. rewrite Hcb. destruct ok.
    + exists ((j, x, c) :: js), opt'. split; [done|]. split; [done|]. by apply sublist_skip.
    + exists js, opt'. split; [done|]. split; [done|]. by apply sublist_cons.
  - destruct (openvpn_decrypt_forged now fr opt bi pre (content buf) post work)
      as (b & ctx' & Ede & _ & Hk1 & Ec1); [done|done| |].
    { by rewrite <- Hk. }
    rewrite <- Eb in Ede. rewrite Ede. bret.
    destruct (IH (set_decrypt ctx' opt) (KCB (kc_encrypt bi) ctx') p acc r) as (js & opt' & -> & -> & Hsub);
      try done.
    { cbn. by rewrite Ebi. }
    { unfold directed. cbn [kc_decrypt]. by rewrite Ec1. }
    { cbn [kc_decrypt]. by etrans. }
    bret. by exists js, opt'.
Qed.
End laws.
