(* ===== verification/OvpnKey.v ===== *)
(** * OpenVPN: keys

    Models what [openvpn/src/src/openvpn/crypto.c] does with key material: keys sent to
    the peer ([write_key], [read_key]), the checks on keys, the generator of IVs
    ([prng_bytes]), and the frame's share of the packet functions
    ([crypto_adjust_frame_parameters]); with [buf_printf] and [format_hex_ex] of
    [buffer.c], for the text a format produced.

    The library's description of ciphers and digests is the class [KtOps].  A
    [struct key2] is its number of keys and the bytes of its array, 64 of cipher
    and 64 of HMAC key each.  Memory got from [alloc_buf_gc] and not yet written
    is taken as zero: nothing reads it. *)
From S2P Require Import Prelude OvpnBuffer OvpnPacketId OvpnFrame OvpnCrypto.
#[local] Open Scope bool_scope.
#[local] Open Scope Z_scope.

(** ** Formatted output *)

(** [buf_printf], where the format and its arguments make the text [s]. *)
Definition buf_printf (s : list Z) : M buffer bool := λ b,
  if buf_defined b then
    let cap := buf_forward_capacity b in
    if decide (cap > 0) then
      let ptr := offset b + len b in
      (poke ptr (take (Z.to_nat (cap - 1)) s ++ [0]);;
       poke (capacity b - 1) [0];;
       d ← gets data;
       d ← lift (of_option d);
       n ← lift (strlen_at (drop (Z.to_nat ptr) d));
       modify (λ b, set_len (len b + Z.of_nat n) b);;
       mret (bool_decide (Z.of_nat (length s) < cap))) b
    else Ret (false, b)
  else Ret (false, b).

(** ["%x"] of one digit, ["%02x"] of a byte, ["%d"] of a natural number. *)
Definition hex_digit (n : Z) : Z := if decide (n < 10) then 48 + n else 87 + n.
Definition hex2 (b : Z) : list Z := [hex_digit (b / 16); hex_digit (b mod 16)].
Fixpoint decimal (fuel : nat) (n : Z) : list Z :=
  match fuel with
  | O => []
  | S fuel => (if decide (n < 10) then [] else decimal fuel (n / 10)) ++ [48 + n mod 10]
  end.

Definition hex_body (bs : list Z) (space_break : Z) (separator : option (list Z)) (i : nat)
    (out : buffer) : outcome buffer :=
  out ← (match separator with
         | Some sep =>
             if decide (space_break = 0 ∧ i ≠ 0%nat) then Undef
             else if decide (i ≠ 0%nat ∧ Z.rem (Z.of_nat i) space_break = 0)
             then '(_, out) ← buf_printf sep out; Ret out
             else Ret out
         | None => Ret out
         end);
  b ← array_get bs i;
  '(_, out) ← buf_printf (hex2 b) out;
  Ret out.

(** The memory of the string returned. *)
Definition format_hex_ex (bs : list Z) (maxoutput space_break : Z) (separator : option (list Z)) :
    outcome (list Z) :=
  size ←
    (if decide (maxoutput ≠ 0) then Ret maxoutput
     else
       sep ← of_option separator;
       if decide (space_break = 0) then Undef
       else int (Z.of_nat (length bs) * 2 +
                 Z.quot (Z.of_nat (length bs)) space_break * Z.of_nat (length sep) + 2));
  out ← alloc_buf size;
  out ← for_ (length bs) 0 (hex_body bs space_break separator) out;
  '(_, out) ← buf_catrunc [91; 109; 111; 114; 101; 46; 46; 46; 93] out;
  of_option (data out).

(** The C string at the start of a memory. *)
Definition c_string (d : list Z) : outcome (list Z) := n ← strlen_at d; Ret (take n d).

(** ** Keys *)

Class KtOps (CK MD : Type) := {
  cipher_kt_iv_size : CK → Z;
  cipher_kt_block_size : CK → Z;
  kt_mode_ofb_cfb : CK → bool;
  key_des_num_cblocks : CK → Z;
  key_des_check : list Z → Z → Z → bool;
  key_des_fixup : list Z → Z → Z → list Z;
  md_kt_size : MD → Z;
  (** [md_full]: the digest of a message. *)
  md_full : MD → list Z → list Z;
}.

Record key := Key { k_cipher : list Z; k_hmac : list Z }.
Definition key_clear : key :=
  Key (replicate (Z.to_nat MAX_CIPHER_KEY_LENGTH) 0) (replicate (Z.to_nat MAX_HMAC_KEY_LENGTH) 0).
Record key2 := Key2 { k2_n : Z; k2_keys : list Z }.
Definition onekeylen : Z := MAX_CIPHER_KEY_LENGTH + MAX_HMAC_KEY_LENGTH.
Definition keylen : Z := 2 * onekeylen.

Section keys.
Context {CK MD : Type} `{KtOps CK MD}.

Record key_type := KT {
  cipher_length : Z;
  hmac_length : Z;
  kt_cipher : option CK;
  kt_digest : option MD;
}.

(** The sum of the sizes is a [size_t] passed as an [int]. *)
Definition crypto_adjust_frame_parameters (f : frame) (kt : key_type)
    (cipher_defined use_iv packet_id packet_id_long_form : bool) : outcome frame :=
  c ← (if cipher_defined then
         c ← of_option (kt_cipher kt);
         Ret ((if use_iv then cipher_kt_iv_size c else 0) + cipher_kt_block_size c)
       else Ret 0);
  let crypto_overhead :=
    (if packet_id then packet_id_size packet_id_long_form else 0) + c + hmac_length kt in
  Ret (frame_add_to_extra_frame (s32 (wrap 64 crypto_overhead)) f).

(** Stops at the first byte that is not zero. *)
Definition key_is_zero (k : key) (kt : key_type) : outcome bool :=
  if forallb (λ b, bool_decide (b = 0)) (take (Z.to_nat (cipher_length kt)) (k_cipher k)) then
    if decide (cipher_length kt ≤ Z.of_nat (length (k_cipher k))) then Ret true else Undef
  else Ret false.

Definition check_key (k : key) (kt : key_type) : outcome bool :=
  match kt_cipher kt with
  | Some c =>
      zero ← key_is_zero k kt;
      if zero : bool then Ret false
      else
        let ndc := key_des_num_cblocks c in
        Ret (if decide (ndc ≠ 0) then key_des_check (k_cipher k) (cipher_length kt) ndc else true)
  | None => Ret true
  end.

Definition fixup_key (k : key) (kt : key_type) : key :=
  match kt_cipher kt with
  | Some c =>
      let ndc := key_des_num_cblocks c in
      if decide (ndc ≠ 0) then Key (key_des_fixup (k_cipher k) (cipher_length kt) ndc) (k_hmac k) else k
  | None => k
  end.

(** [cipher_kt_mode_ofb_cfb] of the backends is false of a null pointer. *)
Definition check_replay_iv_consistency (kt : key_type) (packet_id use_iv : bool) : outcome unit :=
  let ofb_cfb := match kt_cipher kt with Some c => kt_mode_ofb_cfb c | None => false end in
  if ofb_cfb && negb (packet_id && use_iv) then Abort else Ret tt.

(** The keys of a [struct key2], in its memory. *)
Definition get_key (k2 : key2) (i : nat) : key :=
  let o := (i * Z.to_nat onekeylen)%nat in
  Key (slice o (Z.to_nat MAX_CIPHER_KEY_LENGTH) (k2_keys k2))
      (slice (o + Z.to_nat MAX_CIPHER_KEY_LENGTH) (Z.to_nat MAX_HMAC_KEY_LENGTH) (k2_keys k2)).
Definition set_key (k : key) (i : nat) (k2 : key2) : outcome key2 :=
  mem ← fill (i * Z.to_nat onekeylen) (k_cipher k ++ k_hmac k) (k2_keys k2);
  Ret (Key2 (k2_n k2) mem).

Definition verify_body (kt : key_type) (i : nat) (k2 : key2) : outcome key2 :=
  let k := fixup_key (get_key k2 i) kt in
  k2 ← set_key k i k2;
  ok ← check_key k kt;
  if ok : bool then Ret k2 else Abort.
Definition verify_fix_key2 (k2 : key2) (kt : key_type) : outcome key2 :=
  for_ (Z.to_nat (k2_n k2)) 0 (verify_body kt) k2.

Definition must_have_n_keys (k2 : key2) (n : Z) : outcome unit :=
  if decide (k2_n k2 < n) then Abort else Ret tt.

(** *** Sending keys *)

(** A [uint8_t] of the key type, then the two keys. *)
Definition write_key (k : key) (kt : key_type) : M buffer bool := λ b,
  ASSERT (cipher_length kt ≤ MAX_CIPHER_KEY_LENGTH ∧ hmac_length kt ≤ MAX_HMAC_KEY_LENGTH);;
  '(ok, b) ← buf_write [u8 (cipher_length kt)] b;
  if negb ok then Ret (false, b) else
  '(ok, b) ← buf_write [u8 (hmac_length kt)] b;
  if negb ok then Ret (false, b) else
  '(ok, b) ← buf_write (take (Z.to_nat (cipher_length kt)) (k_cipher k)) b;
  if negb ok then Ret (false, b) else
  buf_write (take (Z.to_nat (hmac_length kt)) (k_hmac k)) b.

(** [n] bytes of the buffer into the array [dst]. *)
Definition read_into (n : Z) (dst : list Z) (b : buffer) : outcome (option (list Z) * buffer) :=
  '(bs, b) ← buf_read n b;
  match bs with
  | Some bs => dst ← fill 0 bs dst; Ret (Some dst, b)
  | None => Ret (None, b)
  end.
Definition read_byte (b : buffer) : outcome (option Z * buffer) :=
  '(bs, b) ← buf_read 1 b;
  Ret (bs ≫= head, b).

(** The C result, the key and the buffer. *)
Definition read_key (kt : key_type) (b : buffer) : outcome (Z * key * buffer) :=
  '(c, b) ← read_byte b;
  match c with
  | None => Ret (-1, key_clear, b)
  | Some c =>
      '(h, b) ← read_byte b;
      match h with
      | None => Ret (-1, key_clear, b)
      | Some h =>
          '(kc, b) ← read_into c (k_cipher key_clear) b;
          match kc with
          | None => Ret (-1, key_clear, b)
          | Some kc =>
              '(kh, b) ← read_into h (k_hmac key_clear) b;
              match kh with
              | None => Ret (-1, Key kc (k_hmac key_clear), b)
              | Some kh =>
                  Ret (if decide (c ≠ cipher_length kt ∨ h ≠ hmac_length kt) then 0 else 1, Key kc kh, b)
              end
          end
      end
  end.
End keys.
#[global] Arguments key_type : clear implicits.

(** ** Random bytes *)

Definition PRNG_NONCE_RESET_BYTES : Z := 1024.
Definition NONCE_SECRET_LEN_MIN : Z := 16.
Definition NONCE_SECRET_LEN_MAX : Z := 64.

Section prng.
Context {CK MD : Type} `{KtOps CK MD}.
(** The bytes the [n]th call of [rand_bytes] gives for a size, if it succeeds. *)
Context (rand_bytes : nat → Z → option (list Z)).

(** The globals, with [processed] of [prng_bytes] and the calls of [rand_bytes]. *)
Record prng := Prng {
  nonce_data : list Z;
  nonce_md : option MD;
  nonce_secret_len : Z;
  processed : Z;
  rand_calls : nat;
}.

Definition prng_reset_nonce (s : prng) : outcome prng :=
  md ← of_option (nonce_md s);
  match rand_bytes (rand_calls s) (md_kt_size md + nonce_secret_len s) with
  | Some bs =>
      Ret (Prng bs (nonce_md s) (nonce_secret_len s) (processed s) (S (rand_calls s)))
  | None => Abort
  end.

(** [md_kt_get (md_name)] is an argument, [None] where the name is null. *)
Definition prng_init (md : option MD) (nonce_secret_len_parm : Z) (s : prng) : outcome prng :=
  match md with
  | Some _ =>
      ASSERT (NONCE_SECRET_LEN_MIN ≤ nonce_secret_len_parm ∧ nonce_secret_len_parm ≤ NONCE_SECRET_LEN_MAX);;
      prng_reset_nonce (Prng [] md nonce_secret_len_parm (processed s) (rand_calls s))
  | None => Ret (Prng [] None 0 (processed s) (rand_calls s))
  end.

Definition prng_body (md : MD) (st : Z * list Z * prng) : outcome (Z * list Z * prng + list Z * prng) :=
  let '(len, output, s) := st in
  if decide (len > 0) then
    let md_size := md_kt_size md in
    let blen := Z.min len md_size in
    nonce ← fill 0 (md_full md (take (Z.to_nat (md_size + nonce_secret_len s)) (nonce_data s))) (nonce_data s);
    let n := u64 (processed s + blen) in
    let s := Prng nonce (nonce_md s) (nonce_secret_len s) n (rand_calls s) in
    s ← (if decide (n > PRNG_NONCE_RESET_BYTES)
         then
           s ← prng_reset_nonce s;
           Ret (Prng (nonce_data s) (nonce_md s) (nonce_secret_len s) 0 (rand_calls s))
         else Ret s);
    Ret (inl (len - blen, output ++ take (Z.to_nat blen) nonce, s))
  else Ret (inr (output, s)).

(** A digest of at least a byte leaves no more rounds than bytes. *)
Definition prng_bytes (len : Z) (s : prng) : outcome (list Z * prng) :=
  match nonce_md s with
  | Some md => loop (S (Z.to_nat len)) (prng_body md) (len, [], s)
  | None =>
      match rand_bytes (rand_calls s) len with
      | Some bs => Ret (bs, Prng (nonce_data s) None (nonce_secret_len s) (processed s) (S (rand_calls s)))
      | None => Abort
      end
  end.
End prng.
#[global] Arguments prng : clear implicits.
