(* ===== verification/OvpnKeyFile.v ===== *)
(** * OpenVPN: static key files

    Models [read_key_file], [write_key_file], [generate_key_random] without a key
    type, and the key direction functions of [openvpn/src/src/openvpn/crypto.c].

    What the system calls do is an argument: the content of the file read, and
    the random bytes of the keys made; the result of writing is the content of
    the file.  The parser's counters are at most the length of the file, which
    is an [int]. *)
From Stdlib Require Import String Ascii.
From S2P Require Import Prelude OvpnBuffer OvpnFrame OvpnCrypto OvpnKey.
#[local] Open Scope bool_scope.
#[local] Open Scope Z_scope.

Definition text (s : string) : list Z :=
  map (λ c, Z.of_nat (nat_of_ascii c)) (list_ascii_of_string s).

Definition static_key_head : list Z := text "-----BEGIN OpenVPN Static key V1-----".
Definition static_key_foot : list Z := text "-----END OpenVPN Static key V1-----".

(** ** Reading *)

Definition RKF_MUST_SUCCEED : Z := 1.
Definition RKF_INLINE : Z := 2.

Definition PARSE_INITIAL : Z := 0.
Definition PARSE_HEAD : Z := 1.
Definition PARSE_DATA : Z := 2.
Definition PARSE_DATA_COMPLETE : Z := 3.
Definition PARSE_FOOT : Z := 4.
Definition PARSE_FINISHED : Z := 5.

(** [hex_byte] up to [hb_index]; [out] as the distance [count] from [key2->keys]. *)
Record parser := Parser {
  p_hex : list Z;
  p_line_num : Z;
  p_line_index : Z;
  p_match : Z;
  p_count : Z;
  p_state : Z;
  p_keys : list Z;
}.

Definition set_state (m s : Z) (p : parser) : parser :=
  Parser (p_hex p) (p_line_num p) (p_line_index p) m (p_count p) s (p_keys p).

(** ["%x"] of hexadecimal digits. *)
Definition hex_val (c : Z) : Z :=
  if isdigit c then c - 48 else if isupper c then c - 55 else c - 87.

(** The first character of a line. *)
Definition first_char (c : Z) (p : parser) : parser :=
  if decide (p_line_index p = 0) then
    let s := if decide (p_state p = PARSE_HEAD) then PARSE_DATA else p_state p in
    let s := if decide ((s = PARSE_DATA ∨ s = PARSE_DATA_COMPLETE) ∧ c = 45) then PARSE_FOOT else s in
    set_state (p_match p) s p
  else p.

(** Comparing the line with [txt], to enter state [next] when all of it matched. *)
Definition compare_line (txt : list Z) (next c : Z) (p : parser) : parser :=
  let n := Z.of_nat (length txt) in
  if decide (p_line_index p < n ∧ txt !! Z.to_nat (p_line_index p) = Some c) then
    let m := p_match p + 1 in
    set_state m (if decide (m = n) then next else p_state p) p
  else p.

Definition read_digit (c : Z) (p : parser) : outcome parser :=
  if isxdigit c then
    match p_hex p with
    | [d] =>
        mem ← fill (Z.to_nat (p_count p)) [u8 (16 * hex_val d + hex_val c)] (p_keys p);
        let count := p_count p + 1 in
        Ret (Parser [] (p_line_num p) (p_line_index p) (p_match p) count
               (if decide (count = keylen) then PARSE_DATA_COMPLETE else p_state p) mem)
    | [] => Ret (Parser [c] (p_line_num p) (p_line_index p) (p_match p) (p_count p) (p_state p) (p_keys p))
    | _ => Abort
    end
  else if isspace c then Ret p
  else Abort.

Definition next_index (p : parser) : parser :=
  Parser (p_hex p) (p_line_num p) (p_line_index p + 1) (p_match p) (p_count p) (p_state p) (p_keys p).

Definition parse_char (c : Z) (p : parser) : outcome parser :=
  if decide (c = 10)
  then Ret (Parser (p_hex p) (p_line_num p + 1) 0 0 (p_count p) (p_state p) (p_keys p))
  else
    let p := first_char c p in
    let p := if decide (p_state p = PARSE_INITIAL)
             then compare_line static_key_head PARSE_HEAD c p else p in
    let p := if decide (p_state p = PARSE_FOOT)
             then compare_line static_key_foot PARSE_FINISHED c p else p in
    p ← (if decide (p_state p = PARSE_DATA) then read_digit c p else Ret p);
    Ret (next_index p).

(** The bytes to parse: a string with its NUL, or a file's content. *)
Definition key_bytes (flags : Z) (file : option (list Z)) : outcome (list Z) :=
  match file with
  | None => Abort
  | Some d =>
      if decide (Z.land flags RKF_INLINE ≠ 0) then
        n ← strlen_at d;
        size ← int (Z.of_nat n + 1);
        _ ← buf_set_read d size;
        Ret (take (n + 1) d)
      else if decide (Z.of_nat (length d) < 2048) then Ret d else Abort
  end.

Definition read_key_file (flags : Z) (file : option (list Z)) : outcome key2 :=
  bs ← key_bytes flags file;
  p ← foldM parse_char bs (Parser [] 1 0 0 0 PARSE_INITIAL (replicate (Z.to_nat keylen) 0));
  let n := Z.quot (p_count p) onekeylen in
  ASSERT (0 ≤ n ∧ n ≤ 2);;
  (if decide (Z.land flags RKF_MUST_SUCCEED ≠ 0)
   then if decide (n = 0 ∨ p_state p ≠ PARSE_FINISHED) then Abort else Ret tt
   else Ret tt);;
  Ret (Key2 n (p_keys p)).

(** ** Writing *)

(** [generate_key_random (&key, NULL)], with the random bytes. *)
Definition generate_key_random (r : list Z * list Z) : outcome key :=
  c ← fill 0 (fst r) (k_cipher key_clear);
  h ← fill 0 (snd r) (k_hmac key_clear);
  Ret (Key c h).

Definition bytes_per_line : Z := 16.

Definition write_body (r : list Z * list Z) (st : buffer * Z) : outcome (buffer * Z) :=
  let '(out, nbits) := st in
  k ← generate_key_random r;
  mem ← format_hex_ex (k_cipher k ++ k_hmac k) 0 bytes_per_line (Some [10]);
  fmt ← c_string mem;
  nbits ← int (nbits + onekeylen * 8);
  '(_, out) ← buf_printf (fmt ++ [10]) out;
  Ret (out, nbits).

(** [buf_write_string_file]: the bytes written. *)
Definition buf_string (b : buffer) : outcome (list Z) :=
  d ← of_option (data b);
  c_string (drop (Z.to_nat (offset b)) d).

(** The content of the file, and the number of random bits. *)
Definition write_key_file (random : list (list Z * list Z)) : outcome (list Z * Z) :=
  out ← alloc_buf 2048;
  nbits_head_text ← alloc_buf 128;
  '(_, out) ← buf_printf (static_key_head ++ [10]) out;
  '(out, nbits) ← foldM write_body random (out, 0);
  '(_, out) ← buf_printf (static_key_foot ++ [10]) out;
  '(_, nbits_head_text) ← buf_printf
    (text "#" ++ [10] ++ text "# " ++ decimal 10 nbits ++ text " bit OpenVPN static key" ++ [10] ++
     text "#" ++ [10]) nbits_head_text;
  s1 ← buf_string nbits_head_text;
  s2 ← buf_string out;
  Ret (s1 ++ s2, nbits).

(** ** Directions *)

Definition KEY_DIRECTION_BIDIRECTIONAL : Z := 0.
Definition KEY_DIRECTION_NORMAL : Z := 1.
Definition KEY_DIRECTION_INVERSE : Z := 2.

Definition ascii2keydirection (str : option (list Z)) : Z :=
  match str with
  | None => KEY_DIRECTION_BIDIRECTIONAL
  | Some s =>
      if decide (s = text "0") then KEY_DIRECTION_NORMAL
      else if decide (s = text "1") then KEY_DIRECTION_INVERSE
      else -1
  end.

Definition keydirection2ascii (kd : Z) (remote : bool) : outcome (option (list Z)) :=
  if decide (kd = KEY_DIRECTION_BIDIRECTIONAL) then Ret None
  else if decide (kd = KEY_DIRECTION_NORMAL) then Ret (Some (if remote then text "1" else text "0"))
  else if decide (kd = KEY_DIRECTION_INVERSE) then Ret (Some (if remote then text "0" else text "1"))
  else Abort.

Record key_direction_state := KDS { out_key : Z; in_key : Z; need_keys : Z }.
Definition key_direction_state_init (key_direction : Z) : outcome key_direction_state :=
  if decide (key_direction = KEY_DIRECTION_NORMAL) then Ret (KDS 0 1 2)
  else if decide (key_direction = KEY_DIRECTION_INVERSE) then Ret (KDS 1 0 2)
  else if decide (key_direction = KEY_DIRECTION_BIDIRECTIONAL) then Ret (KDS 0 0 1)
  else Abort.
