(* ===== verification/OvpnKeyProofs.v ===== *)
(** * OpenVPN: keys, proved

    How text is formatted, the static key file written ([key_file]) and what the
    parser makes of its parts. *)
From Stdlib Require Import String.
From S2P Require Import Prelude OvpnBuffer OvpnPacketId OvpnFrame OvpnCrypto OvpnKey OvpnKeyFile.
#[local] Open Scope string_scope.
#[local] Open Scope list_scope.
#[local] Open Scope bool_scope.
#[local] Open Scope Z_scope.

(** ** Formatted output *)

Definition no_nul (s : list Z) : Prop := Forall (λ c, 0 < c < 256) s.

Lemma c_string_nul s r : no_nul s → c_string (s ++ 0 :: r) = Ret s.
Proof.
  intros Hs. unfold c_string. rewrite strlen_at_app by (eapply Forall_impl; [exact Hs|]; cbn; lia). bret. by rewrite take_app_length.
Qed.

Lemma no_nul_bytes s : no_nul s → Forall is_byte s.
Proof. intros Hs. eapply Forall_impl; [exact Hs|]. unfold is_byte. cbn. lia. Qed.

(** The last byte of the memory is set to 0, which changes no text. *)
Lemma poke_last pre c s q :
  ∃ q', length q' = length q ∧
    poke (capacity (mkbuf pre c (s ++ 0 :: q)) - 1) [0] (mkbuf pre c (s ++ 0 :: q)) =
    Ret (tt, mkbuf pre c (s ++ 0 :: q')).
Proof.
  assert (∃ u x, 0 :: q = u ++ [x]) as (u & x & Eu).
  { destruct (exists_last (l := 0 :: q)) as (u & x & ->); [done|]. by exists u, x. }
  assert (∃ q', u ++ [0] = 0 :: q' ∧ length q' = length q) as (q' & Eq & Hl).
  { destruct u as [|y u]; injection Eu as <- Eu; [exists []; by rewrite Eu|].
    exists (u ++ [0]). split; [done|]. rewrite Eu, !length_app. done. }
  exists q'. split; [done|]. rewrite Eu, <- Eq. unfold poke, set_data, mkbuf.
  cbn [data capacity offset len of_option]. bret.
  rewrite decide_True by (rewrite !length_app; cbn [length]; lia).
  replace (Z.to_nat _) with (length (pre ++ c ++ s ++ u)) by (rewrite !length_app; cbn [length]; lia).
  assert (pre ++ c ++ s ++ u ++ [x] = (pre ++ c ++ s ++ u) ++ [x] ++ []) as ->
    by (by rewrite app_nil_r, <- !app_assoc).
  rewrite fill_mid by (done || (repeat constructor; unfold is_byte; lia)). bret. do 2 f_equal.
  f_equal; [rewrite !length_app; cbn [length]; lia|by rewrite app_nil_r, <- !app_assoc].
Qed.

Lemma buf_printf_mk s pre c post :
  no_nul s → (length s < length post)%nat →
  ∃ post', length (s ++ 0 :: post') = length post ∧
    buf_printf s (mkbuf pre c post) = Ret (true, mkbuf pre (c ++ s) (0 :: post')).
Proof.
  intros Hs Hl. unfold buf_printf.
  assert (buf_defined (mkbuf pre c post) = true) as -> by (by apply bool_decide_eq_true_2; eexists).
  assert (buf_forward_capacity (mkbuf pre c post) = Z.of_nat (length post)) as ->.
  { unfold buf_forward_capacity. rewrite valid_mk. unfold max_int. cbn [capacity offset len mkbuf].
    case_decide; lia. }
  rewrite decide_True by lia. rewrite take_ge by lia. cbn [offset len mkbuf].
  fold (mkbuf pre c post).
  erewrite bindM_Ret by (apply poke_append;
    [apply Forall_app; split; [by apply no_nul_bytes|repeat constructor; unfold is_byte; lia]
    |rewrite length_app; cbn [length]; lia]).
  rewrite <- app_assoc. cbn [app].
  destruct (poke_last pre c s (drop (length (s ++ [0])) post)) as (q & Hq & Ep).
  assert (capacity (mkbuf pre c (s ++ 0 :: drop (length (s ++ [0])) post)) = capacity (mkbuf pre c post))
    as Ec.
  { unfold mkbuf. cbn [capacity]. rewrite !length_app. cbn [length]. rewrite length_drop. cbn [length]. lia. }
  rewrite Ec in Ep.
  erewrite bindM_Ret by exact Ep. exists q. rewrite length_drop in Hq.
  split; [rewrite !length_app in *; cbn [length] in *; lia|].
  erewrite bindM_Ret by done. erewrite bindM_lift by done.
  erewrite bindM_lift.
  2:{ rewrite app_assoc, drop_app_length' by (rewrite length_app; lia).
      apply strlen_at_app. eapply Forall_impl; [exact Hs|]. cbn. lia. }
  erewrite bindM_Ret by done. rewrite mretM, bool_decide_eq_true_2 by lia. do 2 f_equal.
  unfold mkbuf, set_len. cbn [capacity offset len data].
  f_equal; [rewrite !length_app; cbn [length]; lia|rewrite length_app; lia|by rewrite <- !app_assoc].
Qed.

(** The line break in front of byte [i]. *)
Definition break (i : nat) : list Z :=
  if decide (i ≠ 0%nat ∧ Z.rem (Z.of_nat i) 16 = 0) then [10] else [].

(** The text of bytes [i], [S i], ... of a key, 16 to a line. *)
Fixpoint hex_from (i : nat) (bs : list Z) : list Z :=
  match bs with
  | [] => []
  | b :: bs =>
      break i ++ hex2 b ++ hex_from (S i) bs
  end.

Lemma hex_digit_range n : 0 ≤ n < 16 → 48 ≤ hex_digit n < 58 ∨ 97 ≤ hex_digit n < 103.
Proof. unfold hex_digit. case_decide; lia. Qed.

Lemma hex2_digits b : is_byte b → ∃ d e, hex2 b = [hex_digit d; hex_digit e] ∧
  0 ≤ d < 16 ∧ 0 ≤ e < 16 ∧ b = 16 * d + e.
Proof.
  intros Hb. exists (b / 16), (b mod 16). split; [done|]. unfold is_byte in Hb.
  Z.to_euclidean_division_equations. lia.
Qed.

Lemma hex_from_no_nul i bs : Forall is_byte bs → no_nul (hex_from i bs).
Proof.
  intros Hb. revert i. induction Hb as [|b bs Hb _ IH]; intros i; [constructor|]. cbn [hex_from].
  apply Forall_app. split; [unfold break; case_decide; repeat constructor; lia|].
  apply Forall_app. split; [|apply IH].
  destruct (hex2_digits b Hb) as (d & e & -> & Hd & He & _).
  pose proof (hex_digit_range d Hd). pose proof (hex_digit_range e He).
  repeat constructor; lia.
Qed.

Lemma length_hex_from i bs : length (hex_from i bs) = length (hex_from i (replicate (length bs) 0)).
Proof.
  revert i. induction bs as [|b bs IH]; intros i; [done|]. cbn [length replicate hex_from].
  rewrite !length_app, IH. done.
Qed.

Lemma hex2_no_nul b : is_byte b → no_nul (hex2 b).
Proof.
  intros Hb. destruct (hex2_digits b Hb) as (d & e & -> & Hd & He & _).
  pose proof (hex_digit_range d Hd). pose proof (hex_digit_range e He). repeat constructor; lia.
Qed.

Lemma hex_body_ok bs i b c q :
  bs !! i = Some b → is_byte b → (length (break i ++ hex2 b) < S (length q))%nat →
  ∃ q', hex_body bs 16 (Some [10]) i (mkbuf [] c (0 :: q)) =
      Ret (mkbuf [] (c ++ break i ++ hex2 b) (0 :: q')) ∧
    (length (break i ++ hex2 b) + length q' = length q)%nat.
Proof.
  intros Eb Hb Hl. unfold hex_body, break in *.
  rewrite (decide_False (P := 16 = 0 ∧ i ≠ 0%nat)) by lia. rewrite length_app in *.
  assert (∃ q1, (if decide (i ≠ 0%nat ∧ Z.rem (Z.of_nat i) 16 = 0)
    then '(_, out) ← buf_printf [10] (mkbuf [] c (0 :: q)); Ret out else Ret (mkbuf [] c (0 :: q))) =
    Ret (mkbuf [] (c ++ break i) (0 :: q1)) ∧ (length (break i) + length q1 = length q)%nat)
    as (q1 & -> & Hq1).
  { unfold break. case_decide.
    - destruct (buf_printf_mk [10] [] c (0 :: q)) as (q1 & Hq1 & ->); [repeat constructor; lia|cbn in *; lia|].
      bret. exists q1. cbn in *. split; [done|lia].
    - exists q. by rewrite app_nil_r. }
  bret. unfold array_get. rewrite Eb. cbn [of_option]. bret. fold (break i) in *.
  destruct (buf_printf_mk (hex2 b) [] (c ++ break i) (0 :: q1)) as (q2 & Hq2 & ->);
    [by apply hex2_no_nul|cbn in *; lia|].
  bret. exists q2. rewrite <- app_assoc. split; [done|]. cbn in *. lia.
Qed.

Lemma hex_body_loop bs n : ∀ i c q,
  Forall is_byte bs → (i + n = length bs)%nat → (length (hex_from i (drop i bs)) < S (length q))%nat →
  ∃ q', for_ n i (hex_body bs 16 (Some [10])) (mkbuf [] c (0 :: q)) =
      Ret (mkbuf [] (c ++ hex_from i (drop i bs)) (0 :: q')) ∧
    (length (hex_from i (drop i bs)) + length q' = length q)%nat.
Proof.
  induction n as [|n IH]; intros i c q Hb Hn Hl; cbn [for_].
  { rewrite drop_ge by lia. exists q. by rewrite app_nil_r. }
  destruct (lookup_lt_is_Some_2 bs i) as [b Eb]; [lia|].
  rewrite (drop_S _ _ _ Eb) in *. cbn [hex_from] in *. rewrite app_assoc, length_app in Hl.
  pose proof (Forall_lookup_1 _ _ _ _ Hb Eb) as Hbb.
  destruct (hex_body_ok bs i b c q Eb Hbb ltac:(lia)) as (q1 & -> & Hq1). bret.
  destruct (IH (S i) (c ++ break i ++ hex2 b) q1 Hb) as (q3 & -> & Hq3); [lia|lia|].
  exists q3. rewrite <- !app_assoc. split; [done|]. rewrite app_assoc, length_app. lia.
Qed.

Lemma format_hex_ex_ok bs :
  Forall is_byte bs → length bs = 128%nat →
  ∃ q, format_hex_ex bs 0 16 (Some [10]) = Ret (hex_from 0 bs ++ 0 :: q).
Proof.
  intros Hb Hl. unfold format_hex_ex. rewrite (decide_False (P := 0 ≠ 0)) by auto.
  cbn [of_option]. bret. rewrite decide_False by lia. rewrite Hl.
  change (int _) with (Ret 266). bret. unfold alloc_buf.
  change (buf_size_valid 266) with true. cbv iota. bret.
  change (Buf 266 0 0 (Some (replicate (Z.to_nat 266) 0))) with (mkbuf [] [] (0 :: replicate 265 0)).
  assert (length (hex_from 0 bs) = 263%nat) as Hh by (rewrite length_hex_from, Hl; by vm_compute).
  destruct (hex_body_loop bs 128 0 [] (replicate 265 0)) as (q & -> & Hq);
    [done|lia|rewrite drop_0, Hh, length_replicate; lia|].
  bret. rewrite drop_0 in *. unfold buf_catrunc.
  assert (length q = 2%nat) as Hq2 by (rewrite length_replicate in Hq; lia).
  rewrite decide_False.
  2:{ unfold buf_forward_capacity. rewrite valid_mk. unfold max_int. cbn [mkbuf capacity offset len app length].
      rewrite Hh, Hq2. case_decide; lia. }
  bret. cbn [data mkbuf of_option app]. by exists q.
Qed.

(** ** The file written *)

(** Random bytes for one key. *)
Definition for_key (r : list Z * list Z) : Prop :=
  length (fst r) = 64%nat ∧ length (snd r) = 64%nat ∧ Forall is_byte (fst r) ∧ Forall is_byte (snd r).
Definition key_mem (r : list Z * list Z) : list Z := fst r ++ snd r.
Definition key_text (r : list Z * list Z) : list Z := hex_from 0 (key_mem r) ++ [10].

Lemma key_mem_ok r : for_key r → length (key_mem r) = 128%nat ∧ Forall is_byte (key_mem r).
Proof.
  intros (H1 & H2 & H3 & H4). unfold key_mem. rewrite length_app. split; [lia|by apply Forall_app].
Qed.

Lemma length_key_text r : for_key r → length (key_text r) = 264%nat.
Proof.
  intros Hr. destruct (key_mem_ok r Hr) as [Hl _]. unfold key_text.
  rewrite length_app, length_hex_from, Hl. by vm_compute.
Qed.

Lemma key_text_no_nul r : for_key r → no_nul (key_text r).
Proof.
  intros Hr. apply Forall_app. split; [by apply hex_from_no_nul, key_mem_ok|repeat constructor; lia].
Qed.

Lemma length_key_clear : length (k_cipher key_clear) = 64%nat ∧ length (k_hmac key_clear) = 64%nat.
Proof. done. Qed.

Lemma write_body_ok r c q nbits :
  for_key r → (264 ≤ length q)%nat → 0 ≤ nbits < 1000000 →
  ∃ q', write_body r (mkbuf [] c (0 :: q), nbits) =
      Ret (mkbuf [] (c ++ key_text r) (0 :: q'), nbits + 1024) ∧ (264 + length q' = length q)%nat.
Proof.
  intros Hr Hq Hn. pose proof Hr as (H1 & H2 & H3 & H4). destruct (key_mem_ok r Hr) as [Hl Hb].
  unfold write_body, generate_key_random, bytes_per_line. cbv beta iota.
  destruct length_key_clear as [Hkc Hkh].
  rewrite (fill_start r.1), (fill_start r.2) by (done || lia). bret.
  rewrite !drop_ge, !app_nil_r by lia. cbn [k_cipher k_hmac]. fold (key_mem r).
  destruct (format_hex_ex_ok (key_mem r) Hb Hl) as (q1 & ->). bret.
  rewrite c_string_nul by (by apply hex_from_no_nul). bret.
  change (onekeylen * 8) with 1024. rewrite int_ok by (ints; lia). bret. fold (key_text r).
  pose proof (length_key_text r Hr) as Hlt.
  destruct (buf_printf_mk (key_text r) [] c (0 :: q)) as (q2 & Hq2 & ->);
    [by apply key_text_no_nul|cbn [length]; lia|].
  bret. exists q2. split; [done|]. rewrite length_app in Hq2. cbn [length] in Hq2. lia.
Qed.

Lemma write_keys_ok rs : ∀ c q nbits,
  Forall for_key rs → (264 * length rs ≤ length q)%nat → 0 ≤ nbits →
  nbits + 1024 * Z.of_nat (length rs) < 1000000 →
  ∃ q', foldM write_body rs (mkbuf [] c (0 :: q), nbits) =
      Ret (mkbuf [] (c ++ concat (map key_text rs)) (0 :: q'), nbits + 1024 * Z.of_nat (length rs)) ∧
    (264 * length rs + length q' = length q)%nat.
Proof.
  induction rs as [|r rs IH]; intros c q nbits Hrs Hq Hn Hm; cbn [foldM].
  { exists q. cbn. rewrite app_nil_r, Z.add_0_r. done. }
  apply Forall_cons in Hrs as [Hr Hrs]. cbn [length] in *.
  destruct (write_body_ok r c q nbits Hr) as (q1 & -> & Hq1); [lia|lia|]. bret.
  destruct (IH (c ++ key_text r) q1 (nbits + 1024) Hrs) as (q2 & -> & Hq2); [lia..|].
  exists q2. rewrite <- app_assoc. cbn [map concat]. split; [do 2 f_equal; lia|lia].
Qed.

(** The comment of a file of [n] keys. *)
Definition bits_text (n : nat) : list Z :=
  text "#" ++ [10] ++ text "# " ++ decimal 10 (1024 * Z.of_nat n) ++ text " bit OpenVPN static key" ++
  [10] ++ text "#" ++ [10].
Definition key_file (rs : list (list Z * list Z)) : list Z :=
  bits_text (length rs) ++ (static_key_head ++ [10]) ++ concat (map key_text rs) ++ static_key_foot ++ [10].

Lemma no_nul_dec s : bool_decide (no_nul s) = true → no_nul s.
Proof. apply bool_decide_eq_true_1. Qed.

Lemma write_key_file_ok rs :
  Forall for_key rs → (length rs = 1 ∨ length rs = 2)%nat →
  write_key_file rs = Ret (key_file rs, 1024 * Z.of_nat (length rs)) ∧ no_nul (key_file rs).
Proof.
  intros Hrs Hn. unfold write_key_file, alloc_buf.
  change (buf_size_valid 2048) with true. change (buf_size_valid 128) with true. cbv iota. bret.
  change (Buf 2048 0 0 (Some (replicate (Z.to_nat 2048) 0))) with (mkbuf [] [] (0 :: replicate 2047 0)).
  change (Buf 128 0 0 (Some (replicate (Z.to_nat 128) 0))) with (mkbuf [] [] (0 :: replicate 127 0)).
  assert (length (static_key_head ++ [10]) = 38%nat) as Hh by done.
  assert (length (static_key_foot ++ [10]) = 36%nat) as Hf by done.
  assert (no_nul (static_key_head ++ [10])) as Hnh by (by apply no_nul_dec).
  assert (no_nul (static_key_foot ++ [10])) as Hnf by (by apply no_nul_dec).
  assert (no_nul (concat (map key_text rs))) as Hnk.
  { apply Forall_concat, Forall_map. eapply Forall_impl; [exact Hrs|]. apply key_text_no_nul. }
  assert (no_nul (bits_text (length rs)) ∧ length (bits_text (length rs)) < 40)%nat as [Hnb Hlb].
  { destruct Hn as [-> | ->]; (split; [by apply no_nul_dec|vm_compute; lia]). }
  destruct (buf_printf_mk (static_key_head ++ [10]) [] [] (0 :: replicate 2047 0)) as (q1 & Hq1 & ->);
    [done|rewrite Hh; cbn [length]; rewrite length_replicate; lia|].
  bret. rewrite length_app, Hh in Hq1. cbn [length] in Hq1. rewrite length_replicate in Hq1.
  destruct (write_keys_ok rs ([] ++ static_key_head ++ [10]) q1 0 Hrs) as (q2 & -> & Hq2); [lia..|]. bret.
  destruct (buf_printf_mk (static_key_foot ++ [10]) []
    (([] ++ static_key_head ++ [10]) ++ concat (map key_text rs)) (0 :: q2)) as (q3 & Hq3 & ->);
    [done|rewrite Hf; cbn [length]; lia|].
  bret. rewrite Z.add_0_l.
  destruct (buf_printf_mk (bits_text (length rs)) [] [] (0 :: replicate 127 0)) as (q4 & Hq4 & E4);
    [done|cbn [length]; rewrite length_replicate; lia|].
  unfold bits_text in E4. rewrite E4. bret. fold (bits_text (length rs)).
  unfold buf_string. cbn [data mkbuf of_option offset length app]. bret. rewrite !drop_0.
  rewrite (c_string_nul (bits_text (length rs))) by done. bret. rewrite c_string_nul.
  2:{ apply Forall_app. split; [|done]. by apply Forall_app. }
  bret. unfold key_file. rewrite <- !app_assoc. split; [done|]. unfold no_nul in *. rewrite !Forall_app in *. tauto.
Qed.

(** ** Parsing *)

Lemma hex_digit_facts d : 0 ≤ d < 16 →
  isxdigit (hex_digit d) = true ∧ hex_val (hex_digit d) = d ∧ hex_digit d ≠ 10 ∧ hex_digit d ≠ 45.
Proof.
  intros Hd. assert (∃ n, d = Z.of_nat n ∧ (n < 16)%nat) as (n & -> & Hn) by (exists (Z.to_nat d); lia).
  clear Hd. do 16 (destruct n as [|n]; [by vm_compute|]). lia.
Qed.

(** Among the data: [m1] read, [m2] still to come. *)
Definition data_at (m1 m2 : list Z) (p : parser) : Prop :=
  p_hex p = [] ∧ p_count p = Z.of_nat (length m1) ∧ p_keys p = m1 ++ m2 ∧ 0 ≤ p_line_index p ∧
  p_state p = (if decide (m2 = []) then PARSE_DATA_COMPLETE else PARSE_DATA) ∧
  Z.of_nat (length m1 + length m2) = keylen.

(** A character of the data that is not the end of the line. *)
Lemma parse_data c p :
  p_state p = PARSE_DATA → c ≠ 10 → c ≠ 45 → parse_char c p = (p ← read_digit c p; Ret (next_index p)).
Proof.
  intros Es Hc Hd. unfold parse_char. rewrite decide_False by done.
  assert (first_char c p = p) as ->.
  { unfold first_char. case_decide; [|done]. rewrite Es. rewrite (decide_False (P := PARSE_DATA = PARSE_HEAD)) by done.
    rewrite decide_False by (by intros [_ ?]). unfold set_state. rewrite <- Es. by destruct p. }
  cbv zeta. rewrite (decide_False (P := p_state p = PARSE_INITIAL)) by (by rewrite Es).
  rewrite (decide_False (P := p_state p = PARSE_FOOT)) by (by rewrite Es).
  by rewrite decide_True by done.
Qed.

Lemma parse_byte b m1 x m2 p :
  data_at m1 (x :: m2) p → is_byte b →
  ∃ p', foldM parse_char (hex2 b) p = Ret p' ∧ data_at (m1 ++ [b]) m2 p'.
Proof.
  intros (Eh & Ec & Ek & Hi & Es & Hl) Hb. rewrite decide_False in Es by done.
  destruct (hex2_digits b Hb) as (d & e & -> & Hd & He & Eb).
  destruct (hex_digit_facts d Hd) as (Hx & Hv & Hn & Hm). destruct (hex_digit_facts e He) as (Hx' & Hv' & Hn' & Hm').
  cbn [foldM]. rewrite parse_data by done. unfold read_digit at 1. rewrite Hx, Eh. bret.
  rewrite parse_data by done. unfold read_digit at 1. rewrite Hx'.
  cbn [p_hex p_count p_keys p_state p_line_num p_line_index p_match next_index].
  rewrite Hv, Hv', Ec, Ek, Nat2Z.id, <- Eb, u8_id by done.
  change (x :: m2) with ([x] ++ m2). rewrite (fill_mid m1 [x] [b] m2) by (done || by apply Forall_singleton).
  bret. eexists. split; [done|]. unfold data_at, next_index. cbn [p_hex p_count p_keys p_state p_line_index].
  rewrite length_app. cbn [length] in *. split; [done|]. split; [lia|].
  split; [by rewrite <- app_assoc|]. split; [lia|]. rewrite Es. split; [|lia].
  destruct m2; [rewrite !decide_True by (done || (cbn in *; lia)); done|].
  rewrite !decide_False; [done|done|cbn in *; lia].
Qed.

Lemma parse_newline m1 m2 p :
  data_at m1 m2 p → ∃ p', parse_char 10 p = Ret p' ∧ data_at m1 m2 p' ∧ p_line_index p' = 0 ∧ p_match p' = 0.
Proof. intros (Eh & Ec & Ek & Hi & Es & Hl). eexists. split; [done|]. split; [|done]. by repeat (split; [done|]). Qed.

Lemma parse_break i m1 m2 p :
  data_at m1 m2 p → ∃ p', foldM parse_char (break i) p = Ret p' ∧ data_at m1 m2 p'.
Proof.
  intros Hp. unfold break. case_decide; [|by exists p]. cbn [foldM].
  destruct (parse_newline m1 m2 p Hp) as (p' & -> & Hp' & _). bret. by exists p'.
Qed.

Lemma parse_hex bs : ∀ i m1 m2 p,
  data_at m1 m2 p → Forall is_byte bs → (length bs ≤ length m2)%nat →
  ∃ p', foldM parse_char (hex_from i bs) p = Ret p' ∧ data_at (m1 ++ bs) (drop (length bs) m2) p'.
Proof.
  induction bs as [|b bs IH]; intros i m1 m2 p Hp Hb Hl; cbn [hex_from].
  { exists p. by rewrite app_nil_r. }
  apply Forall_cons in Hb as [Hb Hbs]. destruct m2 as [|x m2]; [cbn in Hl; lia|].
  destruct (parse_break i _ _ _ Hp) as (p1 & E1 & Hp1).
  destruct (parse_byte b _ _ _ _ Hp1 Hb) as (p2 & E2 & Hp2).
  destruct (IH (S i) _ _ _ Hp2 Hbs) as (p3 & E3 & Hp3); [cbn in Hl; lia|].
  rewrite !foldM_app, E1. bret. rewrite foldM_app, E2. bret. exists p3. split; [done|].
  by rewrite <- app_assoc in Hp3.
Qed.

Lemma parse_keys rs : ∀ m1 m2 p,
  data_at m1 m2 p → Forall for_key rs → (128 * length rs ≤ length m2)%nat → rs ≠ [] →
  ∃ p', foldM parse_char (concat (map key_text rs)) p = Ret p' ∧
    data_at (m1 ++ concat (map key_mem rs)) (drop (128 * length rs) m2) p' ∧
    p_line_index p' = 0 ∧ p_match p' = 0.
Proof.
  induction rs as [|r rs IH]; intros m1 m2 p Hp Hrs Hl Hne; [done|].
  apply Forall_cons in Hrs as [Hr Hrs]. destruct (key_mem_ok r Hr) as [Hkl Hkb]. cbn [length] in Hl.
  destruct (parse_hex (key_mem r) 0 m1 m2 p Hp Hkb) as (p1 & E1 & Hp1); [lia|].
  destruct (parse_newline _ _ _ Hp1) as (p2 & E2 & Hp2 & Hi & Hm).
  cbn [map concat]. unfold key_text at 1. rewrite !foldM_app, E1. bret. cbn [foldM]. rewrite E2. bret.
  rewrite Hkl in Hp2. destruct (decide (rs = [])) as [->|Hrs'].
  - exists p2. cbn [map concat foldM length]. rewrite app_nil_r. done.
  - destruct (IH _ _ _ Hp2 Hrs) as (p3 & E3 & Hp3 & Hi3 & Hm3); [rewrite length_drop; lia|done|].
    exists p3. split; [done|]. rewrite <- app_assoc, drop_drop in Hp3. cbn [length].
    by replace (128 * S (length rs))%nat with (128 + 128 * length rs)%nat by lia.
Qed.

(** The footer ends the file. *)
Lemma parse_foot m1 m2 p :
  data_at m1 m2 p → p_line_index p = 0 → p_match p = 0 →
  ∃ p', foldM parse_char (static_key_foot ++ [10]) p = Ret p' ∧ p_count p' = Z.of_nat (length m1) ∧
    p_keys p' = m1 ++ m2 ∧ p_state p' = PARSE_FINISHED ∧
    ∃ p'', parse_char 0 p' = Ret p'' ∧ p_count p'' = p_count p' ∧ p_keys p'' = p_keys p' ∧
      p_state p'' = PARSE_FINISHED.
Proof.
  intros (Eh & Ec & Ek & _ & Es & _) Ei Em. destruct p as [h ln li m c s ks].
  cbn [p_hex p_count p_keys p_state p_line_index p_match] in *. subst.
  generalize (Z.of_nat (length m1)) (m1 ++ m2). intros c ks.
  destruct (decide (m2 = [])); (eexists; split; [vm_compute; reflexivity|]);
    (split; [done|]); (split; [done|]); (split; [done|]);
    (eexists; split; [vm_compute; reflexivity|done]).
Qed.

Definition no_keys : list Z := replicate (Z.to_nat keylen) 0.

(** The comment and the header. *)
Lemma parse_head n :
  n = 1%nat ∨ n = 2%nat →
  foldM parse_char (bits_text n ++ static_key_head ++ [10]) (Parser [] 1 0 0 0 PARSE_INITIAL no_keys) =
  Ret (Parser [] 5 0 0 0 PARSE_HEAD no_keys).
Proof. by intros [-> | ->]; vm_compute. Qed.

(** The first line of data. *)
Lemma parse_start c cs n : c ≠ 10 →
  foldM parse_char (c :: cs) (Parser [] n 0 0 0 PARSE_HEAD no_keys) =
  foldM parse_char (c :: cs) (Parser [] n 0 0 0 PARSE_DATA no_keys).
Proof. intros Hc. cbn [foldM]. unfold parse_char. rewrite !(decide_False (P := c = 10)) by done. reflexivity. Qed.

(** ** What is written is read back *)

Lemma key_file_parsed rs :
  Forall for_key rs → (length rs = 1 ∨ length rs = 2)%nat →
  ∃ p, foldM parse_char (key_file rs) (Parser [] 1 0 0 0 PARSE_INITIAL no_keys) = Ret p ∧
    p_count p = 128 * Z.of_nat (length rs) ∧ p_state p = PARSE_FINISHED ∧
    p_keys p = concat (map key_mem rs) ++ replicate (256 - 128 * length rs) 0 ∧
    ∃ p', parse_char 0 p = Ret p' ∧ p_count p' = p_count p ∧ p_keys p' = p_keys p ∧
      p_state p' = PARSE_FINISHED.
Proof.
  intros Hrs Hn. unfold key_file.
  assert (Forall (λ r, length (key_mem r) = 128%nat) rs) as Hlen.
  { eapply Forall_impl; [exact Hrs|]. intros r Hr. by apply key_mem_ok. }
  assert (length (concat (map key_mem rs)) = 128 * length rs)%nat as Hcl.
  { clear Hrs Hn. induction Hlen as [|r rs Hr _ IH]; [done|]. cbn [map concat length].
    rewrite length_app, Hr, IH. lia. }
  assert (∃ c cs, concat (map key_text rs) = c :: cs ∧ c ≠ 10) as (c & cs & Ecs & Hc).
  { destruct Hrs as [|r rs Hr _]; [destruct Hn; done|]. destruct (key_mem_ok r Hr) as [Hl Hb].
    cbn [map concat]. unfold key_text. destruct (key_mem r) as [|b m]; [done|].
    apply Forall_cons in Hb as [Hb _]. cbn [hex_from]. change (break 0) with (@nil Z).
    destruct (hex2_digits b Hb) as (d & e & -> & Hd & _). eexists _, _. split; [reflexivity|].
    by destruct (hex_digit_facts d Hd) as (_ & _ & ? & _). }
  rewrite app_assoc, foldM_app. rewrite (parse_head (length rs)) by lia. bret.
  rewrite foldM_app, Ecs, parse_start, <- Ecs by done.
  destruct (parse_keys rs [] no_keys (Parser [] 5 0 0 0 PARSE_DATA no_keys)) as (p & -> & Hp & Hi & Hm);
    [by repeat (split; [done|])|done|unfold no_keys; rewrite length_replicate; change (Z.to_nat keylen) with 256%nat; lia
    |destruct Hn, rs; done|]. bret.
  destruct (parse_foot _ _ p Hp Hi Hm) as (p' & -> & Ec & Ek & Es & p'' & E'' & Ec'' & Ek'' & Es'').
  exists p'. split; [done|]. rewrite Ec, Ek. cbn [app]. split; [lia|]. split; [done|].
  unfold no_keys. rewrite drop_replicate. split; [done|].
  exists p''. rewrite E'', Ec'', Ek'', Ec, Ek. cbn [app]. unfold no_keys. by rewrite drop_replicate.
Qed.

Lemma length_key_file rs :
  Forall for_key rs → (length rs = 1 ∨ length rs = 2)%nat → (length (key_file rs) < 2000)%nat.
Proof.
  intros Hrs Hn. unfold key_file. rewrite !length_app.
  assert (length (concat (map key_text rs)) = 264 * length rs)%nat as ->.
  { clear Hn. induction Hrs as [|r rs Hr _ IH]; [done|]. cbn [map concat length].
    rewrite length_app, length_key_text, IH by done. lia. }
  destruct Hn as [-> | ->]; vm_compute; lia.
Qed.
