(* ===== verification/OvpnDataProps.v ===== *)
(** * OpenVPN: the theorems on the data channel

    What the packet functions of crypto.c and the fragmentation of fragment.c
    promise, over the whole of a run: sequences of packets and what the network
    makes of them.  The witnesses run on a toy cipher and a toy tag that meet the
    laws of [CipherLaws] and [HmacLaws]. *)
From stdpp Require Import gmap sets.
From S2P Require Import Prelude OvpnBuffer OvpnFrame OvpnPacketId OvpnFragment OvpnFragmentProofs OvpnCrypto OvpnCryptoProofs.
#[local] Open Scope bool_scope.
#[local] Open Scope Z_scope.

(** ** A toy library

    Bytes are shifted by the key; encrypting adds a block at the end. *)
Record toy_cipher := TC { tc_enc : bool; tc_key : Z }.
Record toy_hmac := TH { th_key : Z; th_in : list Z }.

Definition toy_update (bs : list Z) (c : toy_cipher) : list Z :=
  if tc_enc c then map (λ b, (b + tc_key c) mod 256) bs
  else map (λ b, (b - tc_key c) mod 256) (take (length bs - 4) bs).

#[export] Instance toy_cipher_ops : CipherOps toy_cipher := {
  cipher_ctx_iv_length _ := 4;
  cipher_ctx_block_size _ := 4;
  mode_is_cbc _ := true;
  cipher_kt_mode_cbc _ := true;
  cipher_kt_mode_ofb_cfb _ := false;
  cipher_ctx_reset _ c := Some c;
  cipher_ctx_update bs c := Some (toy_update bs c, c);
  cipher_ctx_final c := Some (if tc_enc c then [0; 0; 0; 0] else [], c);
  OPENVPN_MAX_IV_LENGTH := 16;
}.

#[export] Instance toy_hmac_ops : HmacOps toy_hmac := {
  hmac_ctx_size _ := 2;
  hmac_ctx_reset h := TH (th_key h) [];
  hmac_ctx_update bs h := TH (th_key h) (th_in h ++ bs);
  hmac_ctx_final h :=
    ([foldl Z.add (th_key h) (th_in h) mod 256; Z.of_nat (length (th_in h)) mod 256], h);
}.

Lemma mod_byte z : is_byte (z mod 256).
Proof. by apply Z.mod_pos_bound. Qed.

#[export, refine] Instance toy_cipher_laws : CipherLaws toy_cipher := {
  same_key a b := tc_key a = tc_key b;
  encrypting := tc_enc;
}.
Proof.
  - split; [done|by intros ? ?|by intros ? ? ? -> ->].
  - done.
  - by intros.
  - unfold OPENVPN_MAX_IV_LENGTH, BUF_SIZE_MAX. cbn. lia.
  - by intros.
  - done.
  - intros e iv plain He _ Hb Hne. cbn. eexists _, _, _, _, _. split; [done|]. split; [done|].
    split; [done|]. split; [by intros [_ ?]%app_eq_nil; rewrite He in *|].
    split; [by rewrite He|]. intros d Hk Hd. cbn. eexists _, _, _, _, _. split; [done|].
    split; [done|]. split; [done|]. rewrite He, Hd. unfold toy_update. rewrite He, Hd, app_nil_r.
    rewrite length_app, length_map. cbn [length]. replace (length plain + 4 - 4)%nat with (length plain) by lia.
    rewrite take_app_length' by (by rewrite length_map). rewrite map_map. clear Hne.
    induction Hb as [|b plain Hb _ IH]; [done|]. cbn [map]. rewrite IH. f_equal.
    unfold is_byte in Hb. rewrite <- Hk. Z.to_euclidean_division_equations. lia.
  - by intros c c' iv [= ->].
  - by intros c c' bs out [= _ <-].
  - by intros c c' out [= _ <-].
  - intros c c1 bs out1 r [= <- <-] _ <-. cbn. unfold toy_update. rewrite length_app.
    split.
    + apply Forall_app. split; destruct (tc_enc c); repeat constructor; unfold is_byte; try lia;
        apply Forall_map, Forall_true; intros; apply mod_byte.
    + destruct (tc_enc c); rewrite length_map; cbn [length]; [lia|]. rewrite length_take. lia.
Defined.

#[export, refine] Instance toy_hmac_laws : HmacLaws toy_hmac := {
  same_mac a b := th_key a = th_key b;
}.
Proof.
  - split; [done|by intros ? ?|by intros ? ? ? -> ->].
  - done.
  - intros a b bs E. unfold tag. cbn. by rewrite E.
  - done.
  - done.
  - done.
  - intros h. unfold MAX_HMAC_KEY_LENGTH. cbn. lia.
  - done.
  - intros h bs. unfold tag. cbn. repeat constructor; apply mod_byte.
Defined.

(** ** The data channel *)

(** Two ends with the same keys, each with its packet identifiers. *)
Definition peers {C H : Type} `{CipherLaws C} `{HmacLaws H} (opt_e opt_d : crypto_options C H)
    (be bd : key_ctx_bi C H) (pe pd : packet_id) : Prop :=
  co_key_ctx_bi opt_e = Some be ∧ co_key_ctx_bi opt_d = Some bd ∧
  directed true (kc_encrypt be) ∧ directed false (kc_decrypt bd) ∧
  same_ctx (kc_encrypt be) (kc_decrypt bd) ∧ co_flags opt_e = co_flags opt_d ∧
  co_packet_id opt_e = Some pe ∧ co_packet_id opt_d = Some pd ∧
  (kc_cipher (kc_encrypt be) = None → has_flag (co_flags opt_e) CO_IGNORE_PACKET_ID = false).

(** Frames with room for what the packet functions add, the receiver's for what
    the sender's lets through. *)
Definition frames {C H : Type} `{CipherLaws C} `{HmacLaws H} (fr fr' : frame)
    (ctx : key_ctx C H) (opt : crypto_options C H) : Prop :=
  crypto_frame fr ctx opt ∧ crypto_frame fr' ctx opt ∧ PAYLOAD_SIZE fr ≤ PAYLOAD_SIZE fr' ∧
  supported (kc_cipher ctx) opt.

(** A datagram that arrives in the buffer at a time. *)
Definition arriving (fr : frame) (a : Z * buffer * buffer) : Prop :=
  1 < a.1.1 ∧ wf_buf a.1.2 ∧ content a.1.2 ≠ [] ∧ sized (BUF_SIZE fr) a.2.

Lemma omap_id_elem {A} (x : A) (l : list (option A)) : x ∈ omap id l → Some x ∈ l.
Proof. rewrite list_elem_of_omap. by intros (o & Ho & E); cbn in E; subst. Qed.

(** A list of values and their indices. *)
Lemma indexed {A B} (f : nat → option B) (i : A → nat) (v : A → B) l :
  (∀ t, t ∈ l → f (i t) = Some (v t)) → map v l = omap f (map i l).
Proof.
  induction l as [|t l IH]; intros Hl; [done|]. cbn [map omap list_omap]. rewrite (Hl t) by left.
  f_equal. apply IH. intros u Hu. apply Hl. by right.
Qed.

Lemma sublist_full {A} (l k : list A) : l `sublist_of` k → (length k ≤ length l)%nat → l = k.
Proof.
  induction 1 as [|x l k Hs IH|x l k Hs IH]; intros Hl; [done| |].
  - f_equal. apply IH. cbn in Hl. lia.
  - apply sublist_length in Hs. cbn in Hl. lia.
Qed.

Section channel.
Context {C H : Type} `{CipherLaws C} `{HmacLaws H}.
Context (fr fr' : frame) (opt_e opt_d : crypto_options C H) (be bd : key_ctx_bi C H).
Context (pe pd : packet_id) (msgs : list (Z * list Z * buffer * buffer)).
Let ctx := kc_encrypt be.
Let form := id_form (kc_cipher ctx) (co_flags opt_e).

Lemma sent_packets :
  peers opt_e opt_d be bd pe pd → frames fr fr' ctx opt_e →
  is_u32 (send_id (pid_send pe)) → is_u32 (send_time (pid_send pe)) →
  send_id (pid_send pe) + Z.of_nat (length msgs) < 4294967296 → Forall (sendable fr ctx opt_e) msgs →
  ∃ ws opt' pins s, encrypt_all fr opt_e msgs = Ret (ws, opt') ∧
    alloc_run form (pid_send pe) (map sent_at msgs) = Ret (pins, s) ∧
    Forall3 (λ m x w, sealed ctx (co_flags opt_e) (Some x) (content w) (payload m)) msgs pins ws.
Proof.
  intros (Ee & _ & De & _ & _ & _ & Epe & _ & _) (Hfr & _ & _ & Hs) Hi Ht Hn Hm.
  by apply (encrypt_all_ok fr ctx opt_e msgs opt_e be pe).
Qed.

(** Every arrival is a copy of one of the packets or unauthenticated. *)
Lemma labelled pins ws arr :
  Forall3 (λ m x w, sealed ctx (co_flags opt_e) (Some x) (content w) (payload m)) msgs pins ws →
  frames fr fr' ctx opt_e → Forall (sendable fr ctx opt_e) msgs →
  Forall (λ a, arriving fr' a ∧ (content a.1.2 ∈ map content ws ∨ ¬ authentic ctx (content a.1.2))) arr →
  ∃ os, Forall2 (arrives fr' ctx (co_flags opt_e)) arr os ∧
    ∀ j x c, Some (j, x, c) ∈ os →
      payload <$> msgs !! j = Some c ∧ pins !! j = Some x ∧
      ∃ w, ws !! j = Some w ∧ content w ∈ map (λ a : Z * buffer * buffer, content a.1.2) arr.
Proof.
  intros H3' (_ & _ & Hps & _) Hm. induction 1 as [|[[now buf] work] arr [Ha Hc] Harr IH].
  { exists []. split; [constructor|]. by intros ? ? ? ?%not_elem_of_nil. }
  destruct IH as (os & Hos & Hl). destruct Ha as (Hnow & Hb & Hne & Hw). cbn [fst snd] in *.
  destruct Hc as [Hc|Hc].
  - apply list_elem_of_fmap in Hc as (w & Ew & Hw'). apply list_elem_of_lookup in Hw' as [j Hj].
    destruct (Forall3_lookup_r _ _ _ _ _ _ H3' Hj) as (m & x & Em & Ex & Hseal).
    exists (Some (j, x, payload m) :: os). split.
    + constructor; [|done]. do 4 (split; [done|]). rewrite Ew. split; [done|].
      rewrite Forall_lookup in Hm. pose proof (Hm j m Em) as Hmj. destruct m as [[[? ?] ?] ?].
      unfold payload. cbn [fst snd]. destruct Hmj as (_ & _ & _ & _ & _ & _ & ? & _). lia.
    + intros k y d [[= -> -> ->]|Hk]%elem_of_cons.
      * rewrite Em. split; [done|]. split; [done|]. exists w. split; [done|]. rewrite <- Ew. left.
      * destruct (Hl k y d Hk) as (? & ? & w' & ? & ?). split; [done|]. split; [done|].
        exists w'. split; [done|]. by right.
  - exists (None :: os). split; [by constructor|]. intros k y d [?|Hk]%elem_of_cons; [done|].
    destruct (Hl k y d Hk) as (? & ? & w' & ? & ?). split; [done|]. split; [done|].
    exists w'. split; [done|]. by right.
Qed.

(** The packets in order, each under its identifier. *)
Lemma in_order_arrivals pins ws arr :
  Forall3 (λ m x w, sealed ctx (co_flags opt_e) (Some x) (content w) (payload m)) msgs pins ws →
  PAYLOAD_SIZE fr ≤ PAYLOAD_SIZE fr' → Forall (sendable fr ctx opt_e) msgs →
  Forall2 (λ w a, arriving fr' a ∧ content a.1.2 = content w) ws arr →
  let os := zip_with (λ m x, Some (0%nat, x, payload m)) msgs pins in
  Forall2 (arrives fr' ctx (co_flags opt_e)) arr os ∧
  omap id os = zip_with (λ m x, (0%nat, x, payload m)) msgs pins ∧
  tested form arr os = zip (map (λ a : Z * buffer * buffer, a.1.1) arr) (map (on_wire form) pins).
Proof.
  intros H3' Hps. revert arr. induction H3' as [|m x w l pins ws Hseal H3' IH]; intros arr Hm Harr.
  { apply Forall2_nil_inv_l in Harr as ->. by split. }
  apply Forall_cons in Hm as [Hm Hl].
  apply Forall2_cons_inv_l in Harr as ([[now buf] work] & arr' & [(Hnow & Hb & Hne & Hw) Ec] & Harr & ->).
  destruct (IH arr' Hl Harr) as (Hos & Eo & Et). cbn [fst snd] in *.
  split; [|split].
  - constructor; [|done]. do 4 (split; [done|]). rewrite Ec. split; [done|].
    destruct m as [[[? ?] ?] ?]. unfold payload. destruct Hm as (_ & _ & _ & _ & _ & _ & ? & _).
    cbn [fst snd]. lia.
  - cbn. by f_equal.
  - unfold tested in *. cbn. by f_equal.
Qed.
End channel.

(** C3: the data channel.  Whatever the network loses, repeats, reorders or
    forges of the packets sent, the receiver never fails, drops everything the
    peer did not authenticate, and delivers payloads that were sent and arrived,
    each packet's at most once. *)
Theorem data_channel_safety {C H : Type} `{CipherLaws C} `{HmacLaws H} (fr fr' : frame)
    (opt_e opt_d : crypto_options C H) be bd pe pd msgs :
  peers opt_e opt_d be bd pe pd → frames fr fr' (kc_encrypt be) opt_e → wf_rec (pid_rec pd) →
  is_u32 (send_id (pid_send pe)) → is_u32 (send_time (pid_send pe)) →
  send_id (pid_send pe) + Z.of_nat (length msgs) < 4294967296 →
  Forall (sendable fr (kc_encrypt be) opt_e) msgs →
  ∃ ws opt_e', encrypt_all fr opt_e msgs = Ret (ws, opt_e') ∧ length ws = length msgs ∧
    ∀ arr, Forall (λ a, arriving fr' a ∧
      (content a.1.2 ∈ map content ws ∨ ¬ authentic (kc_encrypt be) (content a.1.2))) arr →
    ∃ js opt_d', decrypt_all fr' opt_d arr = Ret (omap (λ j, payload <$> msgs !! j) js, opt_d') ∧
      NoDup js ∧
      Forall (λ j, ∃ w, ws !! j = Some w ∧ content w ∈ map (λ a, content a.1.2) arr) js.
Proof.
  intros Hp Hf Hwf Hi Ht Hn Hm.
  destruct (sent_packets fr fr' opt_e opt_d be bd pe pd msgs Hp Hf Hi Ht Hn Hm)
    as (ws & opt' & pins & s & E & _ & Hf3). exists ws, opt'. split; [done|].
  split; [symmetry; by eapply Forall3_length_lr|].
  intros arr Harr.
  destruct (labelled fr fr' opt_e be msgs pins ws arr Hf3 Hf Hm Harr) as (os & Hos & Hl).
  assert (Forall (λ '(now, x), 1 < now ∧ is_u32 (pin_id x))
    (tested (id_form (kc_cipher (kc_encrypt be)) (co_flags opt_e)) arr os)) as Hrun.
  { clear - Hos. unfold tested. induction Hos as [|[[now buf] work] [[[j x] c]|] arr os Ha Hos IH]; [done| |done].
    destruct Ha as (Hnow & _ & _ & _ & (_ & _ & Hx & _) & _). constructor; [|done].
    cbn. unfold is_u32. lia. }
  destruct (run_ok _ (pid_rec pd) Hwf Hrun) as (acc & r & Er & _ & Hnd & _).
  destruct Hp as (_ & Ed & _ & Dd & Hk & Efl & Epe & Epd & Hign).
  destruct Hf as (_ & Hfr' & _). 
  destruct (decrypt_all_ok fr' (kc_encrypt be) opt_e arr os Hos Hfr' Hign opt_d bd pd acc r)
    as (js & opt'' & Ede & Eacc & Hsub); [done|done|done| |done|done|].
  { split; [done|]. rewrite Epe, Epd. split; by eexists. }
  assert (∀ t, t ∈ js → payload <$> msgs !! t.1.1 = Some t.2 ∧ pins !! t.1.1 = Some t.1.2 ∧
    ∃ w, ws !! t.1.1 = Some w ∧ content w ∈ map (λ a : Z * buffer * buffer, content a.1.2) arr) as Hjs.
  { intros [[j x] c] Hin. apply Hl, omap_id_elem. eapply elem_of_sublist; done. }
  exists (map (λ t, t.1.1) js), opt''. split; [|split].
  - rewrite Ede. do 2 f_equal. apply (indexed _ (λ t, t.1.1)). intros t Ht'. by apply Hjs.
  - eapply (NoDup_fmap_1 (λ j, on_wire (id_form (kc_cipher (kc_encrypt be)) (co_flags opt_e))
      (default (PN 0 0) (pins !! j)))).
    rewrite Eacc in Hnd. replace (_ <$> _) with
      (map (λ j, on_wire (id_form (kc_cipher (kc_encrypt be)) (co_flags opt_e)) j.1.2) js); [done|].
    rewrite <- list_fmap_compose. apply list_fmap_ext. intros i t Ht'. cbn.
    destruct (Hjs t) as (_ & -> & _); [by eapply list_elem_of_lookup_2|done].
  - apply Forall_map, Forall_forall. intros t Ht'. by apply Hjs.
Qed.


(** C27: no loss.  What a fresh sender sends reaches a fresh receiver whole when
    the network keeps order: every payload comes out, unchanged. *)
Theorem data_channel_in_order {C H : Type} `{CipherLaws C} `{HmacLaws H} (fr fr' : frame)
    (opt_e opt_d : crypto_options C H) be bd pe pd msgs :
  peers opt_e opt_d be bd pe pd → frames fr fr' (kc_encrypt be) opt_e →
  wf_rec (pid_rec pd) → rec_time (pid_rec pd) = 0 → rec_id (pid_rec pd) = 0 →
  pid_send pe = PS 0 0 → Z.of_nat (length msgs) < 4294967296 →
  Forall (sendable fr (kc_encrypt be) opt_e) msgs →
  ∃ ws opt_e', encrypt_all fr opt_e msgs = Ret (ws, opt_e') ∧
    ∀ arr, Forall2 (λ w a, arriving fr' a ∧ content a.1.2 = content w) ws arr →
    ∃ opt_d', decrypt_all fr' opt_d arr = Ret (map payload msgs, opt_d').
Proof.
  intros Hp Hf Hwf Hrt Hri Hps Hn Hm.
  destruct (sent_packets fr fr' opt_e opt_d be bd pe pd msgs) as (ws & opt' & pins & s & E & Eal & Hf3);
    [done|done|rewrite Hps; unfold is_u32; cbn; lia..|rewrite Hps; cbn; lia|done|].
  set (form := id_form (kc_cipher (kc_encrypt be)) (co_flags opt_e)) in *.
  exists ws, opt'. split; [done|]. intros arr Harr.
  pose proof (Forall3_length_lm _ _ _ _ Hf3) as Hl1. pose proof (Forall3_length_lr _ _ _ _ Hf3) as Hl2.
  pose proof (Forall2_length _ _ _ Harr) as Hl3.
  destruct (alloc_run_ok form (map sent_at msgs) (PS 0 0)) as (pins' & s' & Eal' & _ & Hids & Hasc);
    [unfold is_u32; cbn; lia|done| |rewrite length_map; cbn; lia|].
  { apply Forall_map. eapply Forall_impl; [exact Hm|]. intros [[[? ?] ?] ?] (? & _). unfold sent_at. cbn. lia. }
  rewrite Hps, Eal' in Eal. injection Eal as -> ->. cbn [send_time send_id] in Hasc.
  destruct (run_in_order (map (λ a : Z * buffer * buffer, a.1.1) arr) (map (on_wire form) pins) (pid_rec pd))
    as (r & Er & _); [rewrite !length_map; lia|done| |by apply Forall_map| |].
  { apply Forall_map. clear - Harr. induction Harr as [|? ? ? ? [[? _] _] _ IH]; by constructor. }
  { rewrite Hrt, Hri. by destruct form. }
  destruct (in_order_arrivals fr fr' opt_e be msgs pins ws arr) as (Hos & Eom & Et);
    [done|apply Hf|done|done|].
  destruct Hp as (_ & Ed & _ & Dd & Hk & Efl & Epe & Epd & Hign). destruct Hf as (_ & Hfr' & _).
  edestruct (decrypt_all_ok fr' (kc_encrypt be) opt_e arr) as (js & opt'' & Ede & Eacc & Hsub);
    [exact Hos|exact Hfr'|exact Hign|exact Ed|done|done| |exact Epd|rewrite Et; exact Er|].
  { split; [done|]. rewrite Epe, Epd. split; by eexists. }
  exists opt''. rewrite Ede. do 2 f_equal. rewrite Eom in Hsub.
  assert (js = zip_with (λ m x, (0%nat, x, payload m)) msgs pins) as ->.
  { apply sublist_full; [done|]. apply (f_equal length) in Eacc. rewrite !length_map in Eacc.
    rewrite length_zip_with. lia. }
  clear - Hl1. revert pins Hl1. induction msgs as [|m msgs IH]; intros [|x pins] Hl; try done.
  cbn. f_equal. apply IH. by injection Hl.
Qed.

(** ** A run of the toy library *)

Definition toy_frame : frame := Frame 124 120 16 8 0 0 0 0.
Definition toy_work : buffer := Buf 156 0 0 (Some (replicate 156 0)).
Definition toy_pid : packet_id :=
  match packet_id_init false 64 15 with Ret p => p | _ => PID (PS 0 0) (PR 0 0 0 0 0 0 false None) end.
Definition toy_ctx (enc : bool) : key_ctx toy_cipher toy_hmac := KC (Some (TC enc 5)) (Some (TH 3 [])).
Definition toy_keys : key_ctx_bi toy_cipher toy_hmac := KCB (toy_ctx true) (toy_ctx false).
Definition toy_opt : crypto_options toy_cipher toy_hmac := CO (Some toy_keys) (Some toy_pid) None CO_USE_IV.
Definition toy_msgs : list (Z * list Z * buffer * buffer) :=
  [(7, [1; 2; 3; 4], mkbuf (replicate 24 0) [10; 20; 30] [], toy_work);
   (8, [5; 6; 7; 8], mkbuf (replicate 24 0) [40] [1], toy_work)].

Lemma toy_pid_ok : wf_rec (pid_rec toy_pid) ∧ rec_time (pid_rec toy_pid) = 0 ∧
  rec_id (pid_rec toy_pid) = 0 ∧ pid_send toy_pid = PS 0 0.
Proof.
  destruct (packet_id_init_ok 64 15) as (p & E & Hp); [unfold MAX_SEQ_BACKTRACK; lia|unfold MAX_TIME_BACKTRACK; lia|].
  unfold toy_pid. by rewrite E.
Qed.

Lemma toy_peers : peers toy_opt toy_opt toy_keys toy_keys toy_pid toy_pid.
Proof.
  unfold peers. do 2 (split; [done|]). split; [by intros e [= <-]|]. split; [by intros e [= <-]|].
  split; [split; by constructor|]. by repeat (split; [done|]).
Qed.

Lemma toy_sized : sized 156 toy_work.
Proof. by exists (replicate 156 0). Qed.

Lemma toy_frames : frames toy_frame toy_frame (toy_ctx true) toy_opt.
Proof.
  assert (crypto_frame toy_frame (toy_ctx true) toy_opt) as Hc.
  { unfold crypto_frame, wf_frame, BUF_SIZE_MAX. vm_compute. repeat split; (done || by intros ?). }
  split; [done|]. split; [done|]. split; [done|by left].
Qed.

Lemma toy_sendable : Forall (sendable toy_frame (toy_ctx true) toy_opt) toy_msgs.
Proof.
  repeat constructor; try (unfold is_byte; lia); try (by intros e [= <-]); try done;
    try (by intros ?); try apply toy_sized.
Qed.

Definition toy_wire1 : list Z := [109; 15; 1; 2; 3; 4; 5; 5; 5; 6; 15; 25; 35; 0; 0; 0; 0].
Definition toy_wire2 : list Z := [96; 13; 5; 6; 7; 8; 5; 5; 5; 7; 45; 0; 0; 0; 0].

(** A datagram as it arrives. *)
Definition toy_arrival (w : list Z) : Z * buffer * buffer := (9, mkbuf [] w [], toy_work).

Lemma toy_arriving w : w ≠ [] → Z.of_nat (length w) < 100 → arriving toy_frame (toy_arrival w).
Proof.
  intros Hw Hl. unfold arriving, toy_arrival. cbn [fst snd]. rewrite content_mk. split; [lia|].
  split; [apply wf_mk; unfold BUF_SIZE_MAX; cbn [length]; lia|]. split; [done|apply toy_sized].
Qed.

(** The second datagram is the first one again, the third one is forged. *)
Lemma data_channel_safety_witness :
  ∃ js opt_d', decrypt_all toy_frame toy_opt
      (map toy_arrival [toy_wire2; toy_wire2; [1; 2; 3]; toy_wire1]) =
    Ret (omap (λ j, payload <$> toy_msgs !! j) js, opt_d') ∧ NoDup js.
Proof.
  destruct toy_pid_ok as (Hwf & _ & _ & Hs).
  destruct (data_channel_safety toy_frame toy_frame toy_opt toy_opt toy_keys toy_keys toy_pid toy_pid
    toy_msgs toy_peers toy_frames Hwf) as (ws & opt' & E & _ & Hall);
    [rewrite Hs; decided|rewrite Hs; decided|rewrite Hs; decided|apply toy_sendable|].
  assert (map content ws = [toy_wire1; toy_wire2]) as Ew by (vm_compute in E; by injection E as <- _).
  rewrite Ew in Hall. clear E Ew.
  edestruct Hall as (js & opt'' & Ed & Hn & _); [|exists js, opt''; split; [exact Ed|exact Hn]].
  repeat apply Forall_cons_2; try done; (split; [by apply toy_arriving|]).
  - left. by right; left.
  - left. by right; left.
  - right. intros Ha. vm_compute in Ha. done.
  - left. by left.
Defined.

Lemma data_channel_in_order_witness :
  ∃ opt_d', decrypt_all toy_frame toy_opt (map toy_arrival [toy_wire1; toy_wire2]) =
    Ret ([[10; 20; 30]; [40]], opt_d').
Proof.
  destruct toy_pid_ok as (Hwf & Ht & Hi & Hs).
  destruct (data_channel_in_order toy_frame toy_frame toy_opt toy_opt toy_keys toy_keys toy_pid toy_pid
    toy_msgs toy_peers toy_frames Hwf Ht Hi Hs) as (ws & opt' & E & Hall); [decided|apply toy_sendable|].
  assert (map content ws = [toy_wire1; toy_wire2]) as Ew by (vm_compute in E; by injection E as <- _).
  clear E. destruct ws as [|b1 [|b2 [|]]]; try done. injection Ew as E1 E2.
  edestruct Hall as (opt'' & Ed); [|exists opt''; exact Ed].
  repeat apply Forall2_cons_2; try done; (split; [by apply toy_arriving|done]).
Defined.

(** ** Fragmentation *)

(** Cutting.  A datagram goes out whole, or in parts of at most the dynamic
    payload size when that is less, as few as possible; the parts make up the
    datagram.  When more than 32 would be needed nothing is sent.  Either way the
    sender is ready for the next. *)
Theorem fragment_outgoing_correct fr f b :
  frag_frame fr → idle fr f → wf_buf b → Forall is_byte (content b) →
  0 < len b ≤ PAYLOAD_SIZE fr → 4 ≤ offset b →
  let n := if decide (len b ≤ PAYLOAD_SIZE_DYNAMIC fr) then 1
           else (len b + largest_part fr - 1) / largest_part fr in
  ∃ ps f', send fr f b = Ret (ps, f') ∧ idle fr f' ∧ incoming f' = incoming f ∧
    if decide (n ≤ MAX_FRAGS)
    then Z.of_nat (length ps) = n ∧ concat (map (drop 4) ps) = content b ∧
         Forall (λ p, Z.of_nat (length p) ≤ 4 + PAYLOAD_SIZE_DYNAMIC fr) ps
    else ps = [].
Proof.
  intros Hfr Hi Hb Hby Hl Ho n. pose proof (send_ok fr f b Hfr Hi Hb Hby Hl Ho) as Hs. cbn zeta in Hs.
  destruct (send_content fr b Hb Hl) as (Hc & Elen & _).
  unfold n. destruct (decide (len b ≤ PAYLOAD_SIZE_DYNAMIC fr)) as [Hd|Hd].
  { eexists _, f. split; [exact Hs|]. split; [done|]. split; [done|]. rewrite decide_True by done.
    split; [done|]. cbn [map concat]. rewrite app_nil_r.
    split; [by rewrite drop_app_length' by done|]. repeat constructor.
    rewrite length_app, length_be32. lia. }
  destruct Hs as (size & f' & Hz & Hzm & _ & <- & Hi' & Hin & Hs).
  destruct (decide (n_parts size (content b) ≤ 32)%nat) as [Hn|Hn].
  - destruct Hs as [Hs _]. eexists _, f'. split; [exact Hs|]. split; [done|]. split; [done|].
    rewrite decide_True by (unfold MAX_FRAGS; lia). rewrite length_map, length_seq. split; [done|].
    split.
    + rewrite map_map. erewrite map_ext; [by rewrite concat_parts|]. intros i. unfold wire_part.
      by rewrite drop_app_length'.
    + apply Forall_map, Forall_true. intros i. unfold wire_part.
      rewrite length_app, length_be32, length_part. lia.
  - exists [], f'. split; [exact Hs|]. split; [done|]. split; [done|].
    rewrite decide_False by (unfold MAX_FRAGS; lia). done.
Qed.

(** The content of part [i] of datagram [j], on the wire. *)
Definition packet_of (s0 : Z) (ds : list datagram) (x : nat * nat) : list Z :=
  default [] ((λ d, wire_part (seq_no s0 x.1) (dg_size d) (dg_bytes d) x.2) <$> ds !! x.1).

Lemma elem_of_concat {A} (x : A) ls : x ∈ concat ls ↔ ∃ l, x ∈ l ∧ l ∈ ls.
Proof.
  induction ls as [|l ls IH]; cbn [concat].
  - split; [by intros ?%not_elem_of_nil|by intros (l & _ & ?%not_elem_of_nil)].
  - rewrite elem_of_app, IH. split.
    + intros [Hx|(k & Hx & Hk)]; [exists l; split; [done|left]|exists k; split; [done|by right]].
    + intros (k & Hx & [->|Hk]%elem_of_cons); [by left|right; by exists k].
Qed.

Section labels.
Context (fr : frame) (s0 : Z) (ds : list datagram).
Context (Hds : Forall (wf_datagram fr) ds) (H25 : (length ds ≤ 25)%nat).

Lemma packet_of_inj x y :
  (x.1 < length ds)%nat → (y.1 < length ds)%nat →
  (x.2 < all_parts ds x.1)%nat → (y.2 < all_parts ds y.1)%nat →
  packet_of s0 ds x = packet_of s0 ds y → x = y.
Proof using Hds H25.
  destruct x as [j i], y as [k l]. unfold packet_of, all_parts. cbn [fst snd]. intros Hj Hk.
  apply lookup_lt_is_Some_2 in Hj as [d Ed]. apply lookup_lt_is_Some_2 in Hk as [e Ee].
  pose proof (lookup_lt_Some _ _ _ Ed). pose proof (lookup_lt_Some _ _ _ Ee).
  rewrite Ed, Ee. cbn. rewrite Forall_lookup in Hds.
  destruct (Hds j d Ed) as (_ & Hm & Hz & _ & _ & _ & Hp).
  destruct (Hds k e Ee) as (_ & Hm' & Hz' & _ & _ & _ & Hp'). unfold dg_parts. intros Hi Hl E.
  apply wire_part_inj in E as [E ->]; [|apply seq_no_range|apply seq_no_range|lia..].
  f_equal. unfold seq_no, N_SEQ_ID in E. Z.to_euclidean_division_equations. lia.
Qed.

(** Every packet of the run is part [i] of datagram [j] for some [j] and [i]. *)
Lemma label_arrivals (arr : list (Z * buffer)) :
  Forall (λ a, wf_buf a.2 ∧ content a.2 ∈ concat (imap (λ k d, dg_packets s0 k d) ds)) arr →
  ∃ xs, Forall2 (λ x p, part_packet s0 ds x.1 x.2 p.2) xs arr ∧
    map (content ∘ snd) arr = map (packet_of s0 ds) xs ∧
    Forall (λ x, x.1 < length ds ∧ x.2 < all_parts ds x.1)%nat xs.
Proof using H25.
  induction 1 as [|[now b] arr [Hb Hc] _ (xs & H2 & E & Hx)]; [exists []; by repeat constructor|].
  cbn [snd] in *. apply elem_of_concat in Hc as (ps & Hp & Hps).
  apply elem_of_lookup_imap in Hps as (j & d & -> & Ed).
  unfold dg_packets in Hp. apply list_elem_of_fmap in Hp as (i & Ei & Hi).
  apply elem_of_seq in Hi. exists ((j, i) :: xs). split; [|split].
  - constructor; [|done]. split; [done|]. exists d. split; [done|]. split; [cbn; lia|done].
  - cbn [map fst snd]. f_equal; [|done]. unfold packet_of. cbn [fst snd]. by rewrite Ed.
  - constructor; [|done]. split; [by eapply lookup_lt_Some|]. unfold all_parts. cbn [fst snd].
    rewrite Ed. cbn. lia.
Qed.
End labels.

(** C4: reassembly.  Of the packets of up to 25 datagrams, arriving in any
    order, mixed, lost and repeated, the receiver makes datagrams that were sent:
    exactly those of which every packet arrived, and each once if no packet is
    repeated. *)
Theorem fragments_reassembled fr f g bs :
  frag_frame fr → idle fr f → ready fr (outgoing_seq_id f + 1) g →
  (length bs ≤ 25)%nat → Forall (large fr) bs →
  ∃ pss f', send_all fr f bs = Ret (pss, f') ∧ idle fr f' ∧ length pss = length bs ∧
    ∀ arr, Forall (λ a, wf_buf a.2 ∧ content a.2 ∈ concat pss) arr →
    ∃ js g', receive_all fr g arr = Ret (omap (λ j, content <$> bs !! j) js, g') ∧
      (∀ j ps, pss !! j = Some ps → j ∈ js ↔ ∀ p, p ∈ ps → p ∈ map (content ∘ snd) arr) ∧
      (NoDup (map (content ∘ snd) arr) → NoDup js).
Proof.
  intros Hfr Hi Hg H25 Hbs. set (s0 := outgoing_seq_id f + 1) in *.
  destruct (send_all_ok fr s0 bs 0 f Hfr Hi) as (ds & f' & -> & Hi' & _ & Eb & Hds); [|done|].
  { unfold seq_no, s0, N_SEQ_ID. by rewrite Z.add_0_r. }
  assert (length ds = length bs) as Hl by (by rewrite <- (length_map dg_bytes), Eb, length_map).
  eexists _, f'. split; [done|]. split; [done|]. split; [by rewrite length_imap|].
  intros arr Harr. cbn [Nat.add] in *.
  destruct (label_arrivals s0 ds ltac:(lia) arr Harr) as (xs & H2 & Exs & Hxs).
  destruct (receive_all_ok fr s0 ds Hfr Hds ltac:(lia) xs arr (λ _, ∅) g (ready_receiving _ _ _ _ Hg) H2)
    as (g' & ->).
  assert (Forall (λ '(k, x), x < all_parts ds k)%nat xs) as Hx2.
  { eapply Forall_impl; [exact Hxs|]. by intros [k x] [_ ?]. }
  assert (∀ k x, x ∈ (∅ : gset nat) → x < all_parts ds k)%nat as H0 by (by intros ? ? ?%not_elem_of_empty).
  exists (arrivals ds (λ _, ∅) xs), g'. split; [|split].
  - do 2 f_equal. induction (arrivals ds (λ _, ∅) xs) as [|j js IH]; [done|].
    cbn [omap list_omap]. rewrite IH. change (dg_bytes <$> ds !! j) with (fmap (M := option) dg_bytes (ds !! j)).
    rewrite <- !list_lookup_fmap.
    change (fmap dg_bytes ds) with (map dg_bytes ds). change (fmap content bs) with (map content bs).
    by rewrite Eb.
  - intros j ps Hj. rewrite list_lookup_imap in Hj. apply fmap_Some in Hj as (d & Ed & ->).
    pose proof (lookup_lt_Some _ _ _ Ed) as Hjl.
    assert (all_parts ds j = dg_parts d) as Ep by (unfold all_parts; by rewrite Ed).
    rewrite Exs. unfold dg_packets. split.
    + intros Hin p Hp. apply list_elem_of_fmap in Hp as (i & -> & Hp). apply elem_of_seq in Hp.
      destruct (arrivals_sound ds j xs _ Hin i) as [?%not_elem_of_empty|Hji]; [lia|done|].
      apply list_elem_of_fmap. exists (j, i). split; [|done]. unfold packet_of. cbn. by rewrite Ed.
    + intros Hall. apply arrivals_complete; [done|done| |].
      * intros E. assert (0 < dg_parts d)%nat as Hpos.
        { rewrite Forall_lookup in Hds. destruct (Hds j d Ed) as (Hz & _ & _ & Hne & _).
          unfold dg_parts. pose proof (n_parts_spec (dg_size d) (dg_bytes d) Hz Hne).
          destruct (dg_bytes d); [done|]. cbn in *. nia. }
        apply (not_elem_of_empty (C := gset nat) 0%nat). rewrite E. apply elem_of_set_seq. lia.
      * intros i Hi'2. right. assert (packet_of s0 ds (j, i) ∈ map (packet_of s0 ds) xs) as Hin.
        { apply Hall. unfold packet_of. cbn [fst snd]. rewrite Ed. cbn. apply list_elem_of_fmap.
          exists i. split; [done|]. apply elem_of_seq. lia. }
        apply list_elem_of_fmap in Hin as ([k x] & E & Hin).
        rewrite Forall_forall in Hxs. destruct (Hxs _ Hin) as [Hk Hx].
        by rewrite (packet_of_inj fr s0 ds Hds ltac:(lia) (j, i) (k, x)).
  - rewrite Exs. intros Hnd%NoDup_fmap_1. by apply arrivals_once.
Qed.

(** One end that sends to itself, with room for parts of 100 bytes. *)
Definition small_frame : frame := Frame 110 104 4 4 0 0 0 0.
Definition small_end : fragment_master :=
  match fragment_frame_init small_frame (fragment_init 5 255 small_frame).1 with
  | Ret f => f
  | _ => (fragment_init 5 255 small_frame).1
  end.
Definition small_datagram : buffer := mkbuf (replicate 8 0) (replicate 104 7) [].

Lemma small_frame_ok : frag_frame small_frame.
Proof. split; [|by vm_compute]. unfold wf_frame, BUF_SIZE_MAX. vm_compute. repeat split; (done || by intros ?). Qed.

Lemma small_end_ok : idle small_frame small_end ∧
  ready small_frame (outgoing_seq_id small_end + 1) small_end.
Proof.
  assert (outgoing_seq_id small_end = 255) as -> by (by vm_compute).
  destruct (fragment_init_ready 5 255 small_frame) as (f & E & Hr & Hs & Hl); [apply small_frame_ok|].
  assert (small_end = f) as -> by (unfold small_end; by rewrite E).
  split; [done|]. destruct Hr as ((hi & Hhi & Es) & Hr). split; [|done]. exists hi. split; [done|].
  rewrite Es. unfold seq_no, N_SEQ_ID. by rewrite <- (Zplus_mod_idemp_l (255 + 1)).
Qed.

Lemma small_bytes : Forall is_byte (content small_datagram).
Proof. unfold small_datagram. rewrite content_mk. apply Forall_replicate. unfold is_byte. lia. Qed.

Lemma fragment_outgoing_correct_witness :
  ∃ ps f', send small_frame small_end small_datagram = Ret (ps, f') ∧ length ps = 2%nat ∧
    concat (map (drop 4) ps) = replicate 104 7.
Proof.
  destruct (fragment_outgoing_correct small_frame small_end small_datagram small_frame_ok)
    as (ps & f' & E & _ & _ & H);
    [apply small_end_ok|by apply wf_mk|apply small_bytes|by vm_compute|by vm_compute|].
  exists ps, f'. split; [done|]. rewrite decide_True in H by (by vm_compute).
  destruct H as (Hl & -> & _). split; [apply Nat2Z.inj; rewrite Hl; by vm_compute|by vm_compute].
Defined.

Definition small_packet (i : nat) : list Z := wire_part 0 52 (replicate 104 7) i.

(** The second part arrives first. *)
Lemma fragments_reassembled_witness :
  ∃ js g', receive_all small_frame small_end
      [(9, mkbuf [] (small_packet 1) []); (10, mkbuf [] (small_packet 0) [])] =
    Ret (omap (λ j, content <$> [small_datagram] !! j) js, g') ∧ NoDup js ∧ 0%nat ∈ js.
Proof.
  destruct small_end_ok as [Hi Hr].
  destruct (fragments_reassembled small_frame small_end small_end [small_datagram] small_frame_ok Hi Hr)
    as (pss & f' & E & _ & _ & Hall); [by vm_compute; lia| |].
  { constructor; [|done]. split; [by apply wf_mk|].
    split; [apply small_bytes|]. split; [by vm_compute|]. split; by vm_compute. }
  assert (match send_all small_frame small_end [small_datagram] with
          | Ret (pss, _) => pss | _ => [] end = [[small_packet 0; small_packet 1]]) as Ep by (by vm_compute).
  rewrite E in Ep. subst pss.
  destruct (Hall [(9, mkbuf [] (small_packet 1) []); (10, mkbuf [] (small_packet 0) [])])
    as (js & g' & E2 & Hjs & Hnd); [|exists js, g'; split; [exact E2|split]].
  - apply Forall_cons_2; [split; [by apply wf_mk|cbn [snd]; rewrite content_mk; right; left]|].
    apply Forall_cons_2; [split; [by apply wf_mk|cbn [snd]; rewrite content_mk; left]|constructor].
  - apply Hnd. apply NoDup_cons. split; [|apply NoDup_singleton].
    intros H%list_elem_of_singleton. vm_compute in H. discriminate H.
  - apply (Hjs 0%nat _ eq_refl). intros p [->|Hp]%elem_of_cons; [right; left|].
    apply list_elem_of_singleton in Hp as ->. left.
Defined.
