(* ===== verification/OvpnKeyProps.v ===== *)
(** * OpenVPN: the theorems on keys

    Static key files and keys sent to the peer are read back as written, key
    directions match, and the frame made for a key type fits the packet
    functions; [read_key_overflow] says for which messages of a peer a key is
    written past its end. *)
From Stdlib Require Import String.
From S2P Require Import Prelude OvpnBuffer OvpnPacketId OvpnFrame OvpnCrypto OvpnCryptoProofs OvpnKey OvpnKeyFile OvpnKeyProofs OvpnDataProps.
#[local] Open Scope string_scope.
#[local] Open Scope list_scope.
#[local] Open Scope bool_scope.
#[local] Open Scope Z_scope.

(** ** Files *)

Lemma must_succeed_ok flags n : 0 < n →
  (if decide (Z.land flags RKF_MUST_SUCCEED ≠ 0)
   then if decide (n = 0 ∨ PARSE_FINISHED ≠ PARSE_FINISHED) then Abort else Ret tt
   else Ret tt) = Ret tt.
Proof. intros Hn. case_decide; [|done]. by rewrite decide_False by (intros [?|?]; [lia|done]). Qed.

(** C28: The file [write_key_file] makes of one or two random keys fits its
    buffers and contains no NUL; [read_key_file] gets exactly these keys from it,
    as a file or inline with its NUL and whatever follows, whether or not it must
    succeed. *)
Theorem key_file_roundtrip rs flags :
  Forall for_key rs → (length rs = 1 ∨ length rs = 2)%nat →
  ∃ txt, write_key_file rs = Ret (txt, 1024 * Z.of_nat (length rs)) ∧ no_nul txt ∧
    let k2 := Key2 (Z.of_nat (length rs))
      (concat (map key_mem rs) ++ replicate (256 - 128 * length rs) 0) in
    (Z.land flags RKF_INLINE = 0 → read_key_file flags (Some txt) = Ret k2) ∧
    (Z.land flags RKF_INLINE ≠ 0 → ∀ rest, read_key_file flags (Some (txt ++ 0 :: rest)) = Ret k2).
Proof.
  intros Hrs Hn. destruct (write_key_file_ok rs Hrs Hn) as [Ew Hnn]. exists (key_file rs).
  destruct (key_file_parsed rs Hrs Hn) as (p & Ep & Ec & Es & Ek & p' & Ep' & Ec' & Ek' & Es').
  pose proof (length_key_file rs Hrs Hn) as Hl.
  split; [done|]. split; [done|]. cbv zeta.
  assert (∀ q, p_count q = 128 * Z.of_nat (length rs) → p_state q = PARSE_FINISHED →
    Z.quot (p_count q) onekeylen = Z.of_nat (length rs)) as Hq.
  { intros q -> _. change onekeylen with 128. rewrite Z.mul_comm. by apply Z.quot_mul. }
  split; intros Hf; [|intros rest]; unfold read_key_file, key_bytes.
  - rewrite decide_False by auto. rewrite decide_True by lia. bret. fold no_keys. rewrite Ep. bret.
    rewrite Hq by done. rewrite ASSERT_ok by lia. bret. rewrite Es, Ek.
    by rewrite must_succeed_ok by lia.
  - rewrite decide_True by done.
    rewrite strlen_at_app by (eapply Forall_impl; [exact Hnn|]; cbn; lia). bret.
    rewrite int_ok by (ints; lia). bret. unfold buf_set_read, buf_size_valid, BUF_SIZE_MAX.
    rewrite bool_decide_eq_true_2 by lia. bret.
    replace (length (key_file rs) + 1)%nat with (length (key_file rs ++ [0])) by (rewrite length_app; cbn; lia).
    change (key_file rs ++ 0 :: rest) with (key_file rs ++ [0] ++ rest).
    rewrite app_assoc, take_app_length, foldM_app. fold no_keys. rewrite Ep. bret. cbn [foldM].
    rewrite Ep'. bret. rewrite (Hq p' (eq_trans Ec' Ec) Es').
    rewrite ASSERT_ok by lia. bret. rewrite Es', Ek', Ek.
    by rewrite must_succeed_ok by lia.
Qed.

Definition toy_random : list Z * list Z := (replicate 64 165, map Z.of_nat (seq 0 64)).

Lemma key_file_roundtrip_witness :
  ∃ txt, write_key_file [toy_random] = Ret (txt, 1024) ∧
    read_key_file RKF_MUST_SUCCEED (Some txt) = Ret (Key2 1 (key_mem toy_random ++ replicate 128 0)).
Proof.
  destruct (key_file_roundtrip [toy_random] RKF_MUST_SUCCEED) as (txt & Ew & _ & Hr & _).
  - apply Forall_singleton. split; [done|]. split; [done|].
    split; [apply Forall_replicate; unfold is_byte; lia|].
    apply Forall_map, Forall_seq. intros. unfold is_byte. cbn. lia.
  - by left.
  - exists txt. split; [exact Ew|]. exact (Hr eq_refl).
Defined.

(** ** Directions *)

Definition opposite (kd : Z) : Z :=
  if decide (kd = KEY_DIRECTION_NORMAL) then KEY_DIRECTION_INVERSE
  else if decide (kd = KEY_DIRECTION_INVERSE) then KEY_DIRECTION_NORMAL else kd.

(** The direction shown for this end reads back as itself and the one shown
    for the remote end as the opposite one; with opposite directions each end
    sends with the key the other receives with, the two keys differ unless the
    direction is bidirectional, and both are among the keys asked for.  Other
    directions are refused. *)
Theorem key_directions_match kd :
  (0 ≤ kd ≤ 2 →
   ∃ local remote a b,
     keydirection2ascii kd false = Ret local ∧ ascii2keydirection local = kd ∧
     keydirection2ascii kd true = Ret remote ∧ ascii2keydirection remote = opposite kd ∧
     key_direction_state_init kd = Ret a ∧ key_direction_state_init (opposite kd) = Ret b ∧
     out_key a = in_key b ∧ in_key a = out_key b ∧ need_keys a = need_keys b ∧
     0 ≤ out_key a < need_keys a ∧ 0 ≤ in_key a < need_keys a ∧
     (out_key a = in_key a ↔ kd = KEY_DIRECTION_BIDIRECTIONAL)) ∧
  (¬ 0 ≤ kd ≤ 2 → key_direction_state_init kd = Abort ∧ ∀ r, keydirection2ascii kd r = Abort).
Proof.
  split.
  - intros Hk. assert (kd = 0 ∨ kd = 1 ∨ kd = 2) as [-> | [-> | ->]] by lia;
      (eexists _, _, _, _; repeat (split; [vm_compute; reflexivity|]);
       split; [vm_compute; by split|]; split; [vm_compute; by split|]; by split).
  - intros Hk. unfold key_direction_state_init, keydirection2ascii, KEY_DIRECTION_NORMAL, KEY_DIRECTION_INVERSE,
      KEY_DIRECTION_BIDIRECTIONAL. rewrite !decide_False by lia. split; [done|]. intros r.
    by rewrite !decide_False by lia.
Qed.

Lemma key_directions_match_witness :
  ∃ a b, key_direction_state_init 1 = Ret a ∧ key_direction_state_init 2 = Ret b ∧ out_key a = in_key b.
Proof.
  destruct (proj1 (key_directions_match 1)) as (l & r & a & b & _ & _ & _ & _ & Ea & Eb & E & _); [lia|].
  exists a, b. split; [exact Ea|]. split; [exact Eb|exact E].
Defined.

(** ** Keys sent to the peer *)

Section exchange.
Context {CK MD : Type} `{KtOps CK MD}.

(** Keys fit their arrays, and the type's lengths are within them. *)
Definition wf_key (k : key) : Prop :=
  length (k_cipher k) = 64%nat ∧ length (k_hmac k) = 64%nat ∧
  Forall is_byte (k_cipher k) ∧ Forall is_byte (k_hmac k).
Definition wf_key_type (kt : key_type CK MD) : Prop :=
  0 ≤ cipher_length kt ≤ MAX_CIPHER_KEY_LENGTH ∧ 0 ≤ hmac_length kt ≤ MAX_HMAC_KEY_LENGTH.

(** What is sent of a key, and the key with the other bytes clear. *)
Definition key_sent (k : key) (kt : key_type CK MD) : list Z :=
  [cipher_length kt; hmac_length kt] ++ take (Z.to_nat (cipher_length kt)) (k_cipher k) ++
  take (Z.to_nat (hmac_length kt)) (k_hmac k).
Definition cut (n : Z) (l : list Z) : list Z :=
  take (Z.to_nat n) l ++ replicate (64 - Z.to_nat n) 0.
Definition key_cut (k : key) (kt : key_type CK MD) : key :=
  Key (cut (cipher_length kt) (k_cipher k)) (cut (hmac_length kt) (k_hmac k)).

Lemma length_key_sent k kt :
  wf_key k → wf_key_type kt →
  length (key_sent k kt) = (2 + Z.to_nat (cipher_length kt) + Z.to_nat (hmac_length kt))%nat.
Proof.
  intros (Hc & Hh & _) [Hct Hht]. unfold MAX_CIPHER_KEY_LENGTH, MAX_HMAC_KEY_LENGTH in *.
  unfold key_sent. rewrite !length_app, !length_take. cbn [length]. lia.
Qed.

Lemma write_key_mk k kt pre c post :
  wf_key k → wf_key_type kt → Z.of_nat (length pre + length c + length post) < BUF_SIZE_MAX →
  (length (key_sent k kt) ≤ length post)%nat →
  write_key k kt (mkbuf pre c post) =
  Ret (true, mkbuf pre (c ++ key_sent k kt) (drop (length (key_sent k kt)) post)).
Proof.
  intros Hk Ht Hm Hl. pose proof Hk as (Hc & Hh & Hcb & Hhb). pose proof Ht as [Hct Hht].
  rewrite length_key_sent in * by done.
  unfold MAX_CIPHER_KEY_LENGTH, MAX_HMAC_KEY_LENGTH in *. unfold write_key.
  rewrite ASSERT_ok by (unfold MAX_CIPHER_KEY_LENGTH, MAX_HMAC_KEY_LENGTH; lia). bret.
  rewrite !u8_id by (unfold is_byte; lia).
  assert (length (take (Z.to_nat (cipher_length kt)) (k_cipher k)) = Z.to_nat (cipher_length kt)) as E1
    by (rewrite length_take; lia).
  assert (length (take (Z.to_nat (hmac_length kt)) (k_hmac k)) = Z.to_nat (hmac_length kt)) as E2
    by (rewrite length_take; lia).
  rewrite buf_write_mk by (repeat constructor; unfold is_byte; lia || (cbn [length]; lia)). bret. cbn [negb].
  rewrite buf_write_mk by
    (repeat constructor; unfold is_byte; lia || (rewrite ?length_app, ?length_drop; cbn [length]; lia)).
  bret. cbn [negb].
  rewrite buf_write_mk by
    (by apply Forall_take || (rewrite ?length_app, ?length_drop; cbn [length]; lia)).
  bret. cbn [negb].
  rewrite buf_write_mk by
    (by apply Forall_take || (rewrite ?length_app, ?length_drop; cbn [length]; lia)).
  rewrite E1, E2. rewrite !drop_drop. unfold key_sent. rewrite <- !app_assoc. cbn [length app].
  do 3 f_equal.
Qed.

Lemma read_byte_mk pre x c post :
  read_byte (mkbuf pre (x :: c) post) = Ret (Some x, mkbuf (pre ++ [x]) c post).
Proof. unfold read_byte. change (x :: c) with ([x] ++ c). change 1 with (Z.of_nat (length [x])).
  rewrite buf_read_mk. by bret. Qed.

Lemma read_byte_end pre post : read_byte (mkbuf pre [] post) = Ret (None, mkbuf pre [] post).
Proof. unfold read_byte. rewrite buf_read_short by (cbn; lia). by bret. Qed.

(** Into an array of 64 bytes, all clear. *)
Lemma read_into_mk n pre bs c post :
  n = Z.of_nat (length bs) → Forall is_byte bs → (length bs ≤ 64)%nat →
  read_into n (replicate 64 0) (mkbuf pre (bs ++ c) post) =
  Ret (Some (bs ++ replicate (64 - length bs) 0), mkbuf (pre ++ bs) c post).
Proof.
  intros -> Hb Hl. unfold read_into. rewrite buf_read_mk. bret.
  rewrite (fill_start bs) by (done || (rewrite length_replicate; lia)). bret. by rewrite drop_replicate.
Qed.

Lemma read_into_short n dst pre c post :
  Z.of_nat (length c) < n → read_into n dst (mkbuf pre c post) = Ret (None, mkbuf pre c post).
Proof. intros Hl. unfold read_into. rewrite buf_read_short by done. by bret. Qed.

Lemma read_into_long n pre bs c post :
  n = Z.of_nat (length bs) → (64 < length bs)%nat →
  read_into n (replicate 64 0) (mkbuf pre (bs ++ c) post) = Undef.
Proof.
  intros -> Hl. unfold read_into. rewrite buf_read_mk. bret. unfold fill.
  by rewrite put_start_Undef by (rewrite length_replicate; lia).
Qed.

Lemma read_key_mk k (kt kt' : key_type CK MD) pre post c :
  wf_key k → wf_key_type kt →
  read_key kt' (mkbuf pre (key_sent k kt ++ c) post) =
  Ret (if decide (cipher_length kt ≠ cipher_length kt' ∨ hmac_length kt ≠ hmac_length kt') then 0 else 1,
       key_cut k kt, mkbuf (pre ++ key_sent k kt) c post).
Proof.
  intros (Hc & Hh & Hcb & Hhb) [Hct Hht]. unfold MAX_CIPHER_KEY_LENGTH, MAX_HMAC_KEY_LENGTH in *.
  unfold read_key, key_sent. cbn [app]. rewrite read_byte_mk. bret. rewrite read_byte_mk. bret.
  rewrite <- !app_assoc. change (k_cipher key_clear) with (replicate 64 0).
  change (k_hmac key_clear) with (replicate 64 0).
  rewrite (read_into_mk _ _ (take _ (k_cipher k))) by (rewrite ?length_take; lia || by apply Forall_take). bret.
  rewrite (read_into_mk _ _ (take _ (k_hmac k))) by (rewrite ?length_take; lia || by apply Forall_take). bret.
  unfold key_cut, cut. rewrite !length_take, !Nat.min_l by lia. by rewrite <- !app_assoc.
Qed.

(** A key written with a type whose lengths fit the arrays takes exactly its
    lengths and its bytes, when the buffer has room; read with any type at the
    other end it gives the same key, cleared past the lengths, and leaves what
    follows, with result 1 when the lengths agree and 0 otherwise.  Lengths over
    64 fail the assertion. *)
Theorem key_exchange_roundtrip k (kt kt' : key_type CK MD) pre c post pre' rest post' :
  wf_key k →
  (wf_key_type kt → Z.of_nat (length pre + length c + length post) < BUF_SIZE_MAX →
   (2 + Z.to_nat (cipher_length kt) + Z.to_nat (hmac_length kt) ≤ length post)%nat →
   ∃ sent post1, write_key k kt (mkbuf pre c post) = Ret (true, mkbuf pre (c ++ sent) post1) ∧
     read_key kt' (mkbuf pre' (sent ++ rest) post') =
     Ret (if decide (cipher_length kt = cipher_length kt' ∧ hmac_length kt = hmac_length kt') then 1 else 0,
          Key (cut (cipher_length kt) (k_cipher k)) (cut (hmac_length kt) (k_hmac k)),
          mkbuf (pre' ++ sent) rest post')) ∧
  (64 < cipher_length kt ∨ 64 < hmac_length kt → write_key k kt (mkbuf pre c post) = Abort).
Proof.
  intros Hk. split.
  - intros Ht Hm Hl. rewrite <- (length_key_sent k kt) in Hl by done. eexists _, _.
    split; [by apply write_key_mk|]. rewrite read_key_mk by done. do 3 f_equal.
    do 2 case_decide; tauto.
  - intros Hl. unfold write_key, ASSERT. rewrite decide_False; [done|].
    unfold MAX_CIPHER_KEY_LENGTH, MAX_HMAC_KEY_LENGTH. lia.
Qed.

(** Lengths that send [read_key] past an array of the key. *)
Definition key_overflow (bs : list Z) : Prop :=
  ∃ c h rest, bs = c :: h :: rest ∧
    (64 < c ≤ Z.of_nat (length rest) ∨ (c ≤ 64 < h ∧ c + h ≤ Z.of_nat (length rest))).

Lemma split_at (n : Z) (l : list Z) :
  0 ≤ n ≤ Z.of_nat (length l) → ∃ a b, l = a ++ b ∧ n = Z.of_nat (length a).
Proof.
  intros Hn. exists (take (Z.to_nat n) l), (drop (Z.to_nat n) l). rewrite take_drop, length_take.
  split; [done|lia].
Qed.

Lemma read_key_cases (kt : key_type CK MD) pre bs post :
  Forall is_byte bs →
  (key_overflow bs ∧ read_key kt (mkbuf pre bs post) = Undef) ∨
  (¬ key_overflow bs ∧ ∃ r, read_key kt (mkbuf pre bs post) = Ret r).
Proof.
  intros Hb. unfold read_key. change (k_cipher key_clear) with (replicate 64 0).
  change (k_hmac key_clear) with (replicate 64 0).
  destruct bs as [|c bs].
  { right. split; [by intros (? & ? & ? & ? & _)|]. rewrite read_byte_end. bret. by eexists. }
  rewrite read_byte_mk. bret. destruct bs as [|h bs].
  { right. split; [by intros (? & ? & ? & ? & _)|]. rewrite read_byte_end. bret. by eexists. }
  rewrite read_byte_mk. bret. apply Forall_cons in Hb as [Hc Hb]. apply Forall_cons in Hb as [Hh Hb].
  unfold is_byte in Hc, Hh.
  assert (key_overflow (c :: h :: bs) ↔ 64 < c ≤ Z.of_nat (length bs) ∨
    (c ≤ 64 < h ∧ c + h ≤ Z.of_nat (length bs))) as ->.
  { split; [by intros (? & ? & ? & [= <- <- <-] & ?)|]. intros Ho. by exists c, h, bs. }
  destruct (decide (Z.of_nat (length bs) < c)).
  { right. split; [lia|]. rewrite read_into_short by done. bret. by eexists. }
  destruct (split_at c bs) as (x & y & -> & Ex); [lia|]. rewrite length_app.
  destruct (decide (64 < c)).
  { left. split; [lia|]. by rewrite read_into_long by (done || lia). }
  apply Forall_app in Hb as [Hx Hy]. rewrite read_into_mk by (done || lia). bret.
  destruct (decide (Z.of_nat (length y) < h)).
  { right. split; [lia|]. rewrite read_into_short by done. bret. by eexists. }
  destruct (split_at h y) as (u & v & -> & Eu); [lia|]. rewrite length_app.
  destruct (decide (64 < h)).
  { left. split; [lia|]. by rewrite read_into_long by (done || lia). }
  apply Forall_app in Hy as [Hu _]. rewrite read_into_mk by (done || lia). bret.
  right. split; [lia|by eexists].
Qed.

(** [read_key] checks the lengths a peer sends only after it has copied that
    many bytes: it writes past the cipher or the HMAC array of the key exactly
    when one of the two lengths is over 64 and the message is long enough, and
    returns on every other message. *)
Theorem read_key_overflow (kt : key_type CK MD) b :
  wf_buf b → Forall is_byte (content b) →
  (read_key kt b = Undef ↔ key_overflow (content b)) ∧ (¬ key_overflow (content b) → ∃ r, read_key kt b = Ret r).
Proof.
  intros Hw Hb. destruct (wf_buf_mk b Hw) as (pre & post & Eb & _).
  rewrite Eb. rewrite content_mk.
  destruct (read_key_cases kt pre (content b) post) as [[Ho E]|[Ho [r E]]].
  { done. }
  - by rewrite E.
  - rewrite E. split; [split; [done|by intros ?%Ho]|]. intros _. by exists r.
Qed.
End exchange.

Definition toy_key : key := Key (replicate 64 7) (replicate 64 9).
#[export] Instance toy_kt_ops : KtOps unit unit := {
  cipher_kt_iv_size _ := 4;
  cipher_kt_block_size _ := 4;
  kt_mode_ofb_cfb _ := false;
  key_des_num_cblocks _ := 0;
  key_des_check _ _ _ := true;
  key_des_fixup k _ _ := k;
  md_kt_size _ := 2;
  md_full _ bs := [Z.of_nat (length bs) mod 256; 0];
}.
Definition toy_key_type : key_type unit unit := KT 16 2 (Some tt) (Some tt).

Lemma key_exchange_roundtrip_witness :
  ∃ sent post1, write_key toy_key toy_key_type (mkbuf [] [] (replicate 40 0)) = Ret (true, mkbuf [] sent post1) ∧
    read_key toy_key_type (mkbuf [] (sent ++ []) []) =
    Ret (1, Key (replicate 16 7 ++ replicate 48 0) (replicate 2 9 ++ replicate 62 0), mkbuf sent [] []).
Proof.
  destruct (key_exchange_roundtrip toy_key toy_key_type toy_key_type [] [] (replicate 40 0) [] [] [])
    as [Hr _].
  - split; [done|]. split; [done|]. split; apply Forall_replicate; unfold is_byte; lia.
  - destruct Hr as (sent & post1 & Ew & Er); [by vm_compute|by vm_compute|vm_compute; lia|].
    exists sent, post1. split; [exact Ew|exact Er].
Defined.

Lemma read_key_overflow_witness :
  read_key toy_key_type (mkbuf [] (200 :: 0 :: replicate 200 65) []) = Undef.
Proof.
  apply (read_key_overflow toy_key_type).
  - split; [done|]. vm_compute. repeat split; congruence.
  - rewrite content_mk. repeat constructor; unfold is_byte; lia.
  - rewrite content_mk. exists 200, 0, (replicate 200 65). split; [done|]. left. vm_compute. split; congruence.
Defined.

(** ** The frame *)

Section frame.
Context {CK MD C H : Type} `{KtOps CK MD} `{CipherOps C} `{HmacOps H}.

(** The type describes the contexts made from it. *)
Definition describes (kt : key_type CK MD) (ctx : key_ctx C H) : Prop :=
  match kt_cipher kt, kc_cipher ctx with
  | Some c, Some e => cipher_kt_iv_size c = cipher_ctx_iv_length e ∧
      cipher_kt_block_size c = cipher_ctx_block_size e ∧
      0 ≤ cipher_ctx_iv_length e < 65536 ∧ 0 ≤ cipher_ctx_block_size e < 65536
  | None, None => True
  | _, _ => False
  end ∧ hmac_length kt = Z.of_nat (tag_size ctx) ∧ hmac_length kt < 256.

(** For a key type that describes the contexts,
    [crypto_adjust_frame_parameters] adds exactly the bytes [openvpn_encrypt] may
    put around a payload, and nothing else of the frame changes; if the frame is
    then well formed, it fits the packet functions whenever it leaves a second
    block for decrypting, as it does with an IV of at least a block. *)
Theorem crypto_adjust_frame_parameters_correct f (kt : key_type CK MD) (ctx : key_ctx C H) opt :
  describes kt ctx →
  ∃ f', crypto_adjust_frame_parameters f kt (bool_decide (is_Some (kc_cipher ctx)))
      (has_flag (co_flags opt) CO_USE_IV) (bool_decide (is_Some (co_packet_id opt)))
      (has_flag (co_flags opt) CO_PACKET_ID_LONG_FORM) = Ret f' ∧
    f' = frame_add_to_extra_frame (crypto_overhead ctx opt) f ∧
    (wf_frame f' → 0 ≤ extra_frame f →
     (∀ e, kc_cipher ctx = Some e →
       cipher_ctx_block_size e ≤ extra_frame f ∨
       (has_flag (co_flags opt) CO_USE_IV = true ∧ cipher_ctx_block_size e ≤ cipher_ctx_iv_length e)) →
     crypto_frame f' ctx opt).
Proof.
  intros (Hc & Hh & Hh'). pose proof (pin_size_range opt) as Hpin. unfold crypto_adjust_frame_parameters.
  assert ((if bool_decide (is_Some (kc_cipher ctx)) then
      c ← of_option (kt_cipher kt);
      Ret ((if has_flag (co_flags opt) CO_USE_IV then cipher_kt_iv_size c else 0) + cipher_kt_block_size c)
    else Ret 0) = Ret (cipher_overhead ctx opt) ∧ 0 ≤ cipher_overhead ctx opt < 131072) as [-> Hco].
  { unfold cipher_overhead. destruct (kt_cipher kt) as [c|], (kc_cipher ctx) as [e|]; try done.
    destruct Hc as (Ei & Eb & ? & ?). rewrite bool_decide_eq_true_2 by by eexists. cbn [of_option]. bret.
    rewrite Ei, Eb. split; [done|]. destruct (has_flag (co_flags opt) CO_USE_IV); lia. }
  bret. assert ((if bool_decide (is_Some (co_packet_id opt))
    then packet_id_size (has_flag (co_flags opt) CO_PACKET_ID_LONG_FORM) else 0) = pin_size opt) as ->.
  { unfold pin_size. destruct (co_packet_id opt); [by rewrite bool_decide_eq_true_2 by by eexists|].
    by rewrite bool_decide_eq_false_2 by (by intros [? [=]]). }
  eexists. split; [done|]. rewrite Hh. fold (crypto_overhead ctx opt).
  assert (0 ≤ crypto_overhead ctx opt < 2147483648) as Hov by (unfold crypto_overhead; lia).
  rewrite wrap_small, s32_id by (ints; lia). split; [done|].
  intros Hw Hf Hblock. split; [done|]. cbn [extra_frame frame_add_to_extra_frame]. split; [lia|].
  destruct (kc_cipher ctx) as [e|] eqn:Ee; [|done].
  destruct (kt_cipher kt) as [c|]; [|done]. destruct Hc as (_ & _ & ? & ?).
  unfold crypto_overhead, cipher_overhead. rewrite Ee.
  destruct (Hblock e eq_refl) as [?|[-> ?]]; [|lia].
  destruct (has_flag (co_flags opt) CO_USE_IV); lia.
Qed.
End frame.

Lemma crypto_adjust_frame_parameters_correct_witness :
  crypto_adjust_frame_parameters (Frame 124 120 2 8 0 0 0 0) toy_key_type true true true false = Ret toy_frame ∧
  crypto_frame toy_frame (toy_ctx true) toy_opt.
Proof.
  destruct (crypto_adjust_frame_parameters_correct (Frame 124 120 2 8 0 0 0 0) toy_key_type (toy_ctx true) toy_opt)
    as (f' & E & Ef & Hf).
  - split; [vm_compute; by repeat split|]. by vm_compute.
  - assert (f' = toy_frame) as Et by (rewrite Ef; vm_compute; reflexivity).
    rewrite Et in E, Hf. split; [exact E|]. apply Hf.
    + vm_compute. repeat split; congruence.
    + vm_compute. congruence.
    + intros e [= <-]. right. split; [reflexivity|]. vm_compute. congruence.
Defined.

(** ** Random bytes *)

Section prng.
Context {CK MD : Type} `{KtOps CK MD}.
Context (rand_bytes : nat → Z → option (list Z)).
(** The source never fails, and digests have the size of their type. *)
Context (rand_ok : ∀ n size, 0 ≤ size → ∃ bs, rand_bytes n size = Some bs ∧
  Z.of_nat (length bs) = size ∧ Forall is_byte bs).
Context (md_ok : ∀ md bs, 0 < md_kt_size md ≤ 64 ∧ Z.of_nat (length (md_full md bs)) = md_kt_size md ∧
  Forall is_byte (md_full md bs)).

Definition wf_prng (md : MD) (s : prng MD) : Prop :=
  nonce_md s = Some md ∧ Z.of_nat (length (nonce_data s)) = md_kt_size md + nonce_secret_len s ∧
  Forall is_byte (nonce_data s) ∧ 0 ≤ nonce_secret_len s ∧ 0 ≤ processed s ≤ PRNG_NONCE_RESET_BYTES.

Lemma prng_reset_ok md d n p c :
  0 ≤ n → ∃ bs, prng_reset_nonce rand_bytes (Prng d (Some md) n p c) = Ret (Prng bs (Some md) n p (S c)) ∧
    Z.of_nat (length bs) = md_kt_size md + n ∧ Forall is_byte bs.
Proof using rand_ok md_ok.
  intros Hn. destruct (md_ok md []) as [Hm _]. unfold prng_reset_nonce.
  cbn [nonce_md of_option rand_calls nonce_secret_len processed]. bret.
  destruct (rand_ok c (md_kt_size md + n)) as (bs & -> & Hl & Hb); [lia|]. by exists bs.
Qed.

(** What the generator has still to make, starting from [s0]. *)
Definition prng_inv (md : MD) (s0 : prng MD) (n : Z) (st : Z * list Z * prng MD) : Prop :=
  let '(l, out, s) := st in
  0 ≤ l ∧ Z.of_nat (length out) + l = n ∧ Forall is_byte out ∧ wf_prng md s ∧
  (rand_calls s0 ≤ rand_calls s)%nat ∧
  processed s0 + Z.of_nat (length out) ≤
    Z.of_nat (rand_calls s - rand_calls s0) * (PRNG_NONCE_RESET_BYTES + md_kt_size md) + processed s.

Lemma prng_body_ok md s0 n st :
  prng_inv md s0 n st → ∃ x, prng_body rand_bytes md st = Ret x ∧
    match x with
    | inl st' => prng_inv md s0 n st' ∧ (Z.to_nat st'.1.1 < Z.to_nat st.1.1)%nat
    | inr (out, s) => prng_inv md s0 n (0, out, s)
    end.
Proof using rand_ok md_ok.
  destruct st as [[l out] s]. intros (Hl & Ho & Hb & (Em & Hd & Hdb & Hn & Hp) & Hc & Hbound).
  unfold prng_body. case_decide as Hpos; [|exists (inr (out, s)); split; [done|];
    assert (l = 0) as -> by lia; unfold prng_inv, wf_prng; tauto].
  set (dig := md_full md _). destruct (md_ok md (take (Z.to_nat (md_kt_size md + nonce_secret_len s)) (nonce_data s)))
    as (Hm & Hdl & Hdigb). fold dig in Hdl, Hdigb. unfold PRNG_NONCE_RESET_BYTES in *.
  rewrite (fill_start dig) by (done || lia). bret. set (blen := Z.min l (md_kt_size md)).
  assert (take (Z.to_nat blen) (dig ++ drop (length dig) (nonce_data s)) = take (Z.to_nat blen) dig) as ->.
  { rewrite take_app_le; [done|]. lia. }
  rewrite (wrap_small 64) by lia. rewrite Em.
  assert (length (take (Z.to_nat blen) dig) = Z.to_nat blen) as Htl by (rewrite length_take; lia).
  assert (Forall is_byte (out ++ take (Z.to_nat blen) dig)) as Hob
    by (apply Forall_app; split; [done|by apply Forall_take]).
  assert (length (dig ++ drop (length dig) (nonce_data s)) = length (nonce_data s)) as Hnl
    by (rewrite length_app, length_drop; lia).
  case_decide as Hr.
  - destruct (prng_reset_ok md (dig ++ drop (length dig) (nonce_data s)) (nonce_secret_len s)
      (processed s + blen) (rand_calls s) Hn) as (bs & -> & Hbl & Hbb). bret.
    eexists. split; [done|]. unfold prng_inv, wf_prng, PRNG_NONCE_RESET_BYTES.
    cbn [nonce_data nonce_md nonce_secret_len processed rand_calls fst].
    rewrite length_app, Htl. repeat (split; [done || lia|]). split; [|lia].
    repeat (split; [done || lia|]).
    replace (S (rand_calls s) - rand_calls s0)%nat with (S (rand_calls s - rand_calls s0)) by lia. nia.
  - bret. eexists. split; [done|]. unfold prng_inv, wf_prng, PRNG_NONCE_RESET_BYTES.
    cbn [nonce_data nonce_md nonce_secret_len processed rand_calls fst].
    rewrite length_app, Htl, Hnl. repeat (split; [done || lia|]). split; [|lia].
    repeat (split; [done || lia|]).
    split; [|lia]. split; [done|]. split; [lia|]. split; [|lia].
    apply Forall_app. split; [done|by apply Forall_drop].
Qed.

(** Once initialised, the generator of IVs makes exactly the bytes asked
    for, whatever their number, and stays well formed; no nonce serves for more
    than 1024 bytes and a digest. *)
Theorem prng_bytes_correct md secret s len :
  NONCE_SECRET_LEN_MIN ≤ secret ≤ NONCE_SECRET_LEN_MAX → 0 ≤ len ≤ INT_MAX →
  0 ≤ processed s ≤ PRNG_NONCE_RESET_BYTES →
  ∃ s1 out s2, prng_init rand_bytes (Some md) secret s = Ret s1 ∧ wf_prng md s1 ∧
    prng_bytes rand_bytes len s1 = Ret (out, s2) ∧
    Z.of_nat (length out) = len ∧ Forall is_byte out ∧ wf_prng md s2 ∧
    processed s1 + len ≤
      Z.of_nat (rand_calls s2 - rand_calls s1) * (PRNG_NONCE_RESET_BYTES + md_kt_size md) + processed s2.
Proof using rand_ok md_ok.
  intros Hs Hl Hp. unfold prng_init. rewrite ASSERT_ok by done. bret.
  destruct (prng_reset_ok md [] secret (processed s) (rand_calls s)) as (bs & -> & Hbl & Hbb);
    [unfold NONCE_SECRET_LEN_MIN in Hs; lia|].
  set (s1 := Prng bs _ _ _ _). assert (wf_prng md s1) as Hw.
  { unfold wf_prng. cbn. unfold NONCE_SECRET_LEN_MIN in Hs. split_and!; done || lia. }
  destruct (loop_total (prng_inv md s1 len) (λ r, prng_inv md s1 len (0, r.1, r.2))
    (λ st, Z.to_nat st.1.1) (prng_body rand_bytes md)) with (n := S (Z.to_nat len)) (s := (len, @nil Z, s1))
    as ([out s2] & E & _ & Ho & Hob & Hw2 & _ & Hb).
  - intros st Hst. destruct (prng_body_ok md s1 len st Hst) as (x & -> & Hx). exists x. split; [done|].
    by destruct x as [|[]].
  - unfold prng_inv. cbn [length]. rewrite Nat.sub_diag. split_and!; done || lia.
  - cbn. lia.
  - exists s1, out, s2. split; [done|]. split; [done|]. unfold prng_bytes. cbn [nonce_md s1].
    split; [exact E|]. cbn [fst snd] in *. split; [lia|]. split; [done|]. split; [done|]. lia.
Qed.
End prng.

Lemma prng_bytes_correct_witness :
  ∃ s1 out s2,
    prng_init (λ _ n, Some (replicate (Z.to_nat n) 1)) (Some tt) 16 (Prng [] None 0 0 0) = Ret s1 ∧
    prng_bytes (λ _ n, Some (replicate (Z.to_nat n) 1)) 3000 s1 = Ret (out, s2) ∧
    Z.of_nat (length out) = 3000.
Proof.
  destruct (prng_bytes_correct (λ _ n, Some (replicate (Z.to_nat n) 1))) with (md := tt) (secret := 16)
    (s := Prng (MD := unit) [] None 0 0 0) (len := 3000) as (s1 & out & s2 & E1 & _ & E2 & El & _).
  - intros _ size Hs. exists (replicate (Z.to_nat size) 1). split; [reflexivity|].
    rewrite length_replicate. split; [lia|]. apply Forall_replicate. unfold is_byte. lia.
  - intros [] bs. split; [vm_compute; by split|]. split; [reflexivity|]. cbn [md_full toy_kt_ops].
    repeat constructor; (apply mod_byte || (unfold is_byte; lia)).
  - unfold NONCE_SECRET_LEN_MIN, NONCE_SECRET_LEN_MAX. lia.
  - ints. lia.
  - unfold PRNG_NONCE_RESET_BYTES. cbn. lia.
  - exists s1, out, s2. split; [exact E1|]. split; [exact E2|exact El].
Defined.
