(* ===== verification/OvpnStream.v ===== *)
(** * OpenVPN: packets over TCP

    Models the stream buffer of [openvpn/src/src/openvpn/socket.c], which cuts
    the bytes of a TCP connection into packets ([stream_buf_*],
    [link_socket_read_tcp]), with the length prefix [link_socket_write_tcp] adds
    and the port-sharing test of [ps.c].

    [buf_init], [buf] and [next] of a [struct stream_buf] are windows of one
    memory, the socket's [stream_buf_data]: it is the data of [buf], and the two
    others are their offset and length.  What [recv] answers is an argument. *)
From S2P Require Import Prelude OvpnBuffer OvpnFrame.
#[local] Open Scope bool_scope.
#[local] Open Scope Z_scope.

(** A window of the memory; the capacity is that of [buf]. *)
Record window := Window { w_offset : Z; w_len : Z }.

Definition PS_DISABLED : Z := 0.
Definition PS_ENABLED : Z := 1.
Definition PS_FOREIGN : Z := 2.

Record stream_buf := SB {
  sb_buf_init : window;
  sb_residual : buffer;
  sb_maxlen : Z;
  sb_residual_fully_formed : bool;
  sb_buf : buffer;
  sb_next : option window;
  sb_len : Z;
  sb_error : bool;
  sb_port_share_state : Z;
}.

(** The [struct buffer] of a window. *)
Definition window_buf (w : window) (b : buffer) : buffer :=
  Buf (capacity b) (w_offset w) (w_len w) (data b).

Definition set_residual (r : buffer) (sb : stream_buf) : stream_buf :=
  SB (sb_buf_init sb) r (sb_maxlen sb) (sb_residual_fully_formed sb) (sb_buf sb) (sb_next sb)
    (sb_len sb) (sb_error sb) (sb_port_share_state sb).
Definition set_fully_formed (x : bool) (sb : stream_buf) : stream_buf :=
  SB (sb_buf_init sb) (sb_residual sb) (sb_maxlen sb) x (sb_buf sb) (sb_next sb)
    (sb_len sb) (sb_error sb) (sb_port_share_state sb).
Definition set_buf (b : buffer) (sb : stream_buf) : stream_buf :=
  SB (sb_buf_init sb) (sb_residual sb) (sb_maxlen sb) (sb_residual_fully_formed sb) b (sb_next sb)
    (sb_len sb) (sb_error sb) (sb_port_share_state sb).
Definition set_next (w : option window) (sb : stream_buf) : stream_buf :=
  SB (sb_buf_init sb) (sb_residual sb) (sb_maxlen sb) (sb_residual_fully_formed sb) (sb_buf sb) w
    (sb_len sb) (sb_error sb) (sb_port_share_state sb).
Definition set_sb_len (n : Z) (sb : stream_buf) : stream_buf :=
  SB (sb_buf_init sb) (sb_residual sb) (sb_maxlen sb) (sb_residual_fully_formed sb) (sb_buf sb)
    (sb_next sb) n (sb_error sb) (sb_port_share_state sb).
Definition set_error (sb : stream_buf) : stream_buf :=
  SB (sb_buf_init sb) (sb_residual sb) (sb_maxlen sb) (sb_residual_fully_formed sb) (sb_buf sb)
    (sb_next sb) (sb_len sb) true (sb_port_share_state sb).
Definition set_port_share (n : Z) (sb : stream_buf) : stream_buf :=
  SB (sb_buf_init sb) (sb_residual sb) (sb_maxlen sb) (sb_residual_fully_formed sb) (sb_buf sb)
    (sb_next sb) (sb_len sb) (sb_error sb) n.

Definition stream_buf_reset (sb : stream_buf) : stream_buf :=
  SB (sb_buf_init sb) (sb_residual sb) (sb_maxlen sb) false (window_buf (sb_buf_init sb) (sb_buf sb))
    None (-1) (sb_error sb) (sb_port_share_state sb).

(** [port_share]: whether the socket flags and the protocol ask for it. *)
Definition stream_buf_init (buf : buffer) (port_share : bool) : outcome stream_buf :=
  residual ← alloc_buf (len buf);
  Ret (stream_buf_reset
    (SB (Window (offset buf) 0) residual (len buf) false buf None (-1) false
       (if port_share then PS_ENABLED else PS_DISABLED))).

Definition stream_buf_set_next (sb : stream_buf) : outcome stream_buf :=
  let b := sb_buf sb in
  let n := (if decide (sb_len sb >= 0) then sb_len sb else sb_maxlen sb) - len b in
  ASSERT (n > 0);;
  ASSERT (buf_safe b n = true);;
  Ret (set_next (Some (Window (offset b + len b) n)) sb).

(** [*buf] of the two functions that hand out a window. *)
Definition stream_buf_get_final (sb : stream_buf) : outcome buffer :=
  ASSERT (buf_defined (sb_buf sb) = true);;
  Ret (sb_buf sb).
Definition stream_buf_get_next (sb : stream_buf) : outcome window :=
  match sb_next sb with
  | Some w => ASSERT (buf_defined (sb_buf sb) = true);; Ret w
  | None => Abort
  end.

(** *** [ps.c] *)

Definition P_OPCODE_SHIFT : Z := 3.
Definition P_CONTROL_HARD_RESET_CLIENT_V2 : Z := 7.
Definition is_openvpn_protocol (b : buffer) : outcome bool :=
  let n := buf_len b in
  if decide (n >= 2) then
    '(p0, _) ← peek (offset b) b;
    '(p1, _) ← peek (offset b + 1) b;
    let ok := bool_decide (p0 = 0) && bool_decide (p1 >= 14) in
    if decide (n >= 3) then
      '(p2, _) ← peek (offset b + 2) b;
      Ret (ok && bool_decide (p2 = Z.shiftl P_CONTROL_HARD_RESET_CLIENT_V2 P_OPCODE_SHIFT))
    else Ret ok
  else Ret true.

(** *** Bytes added *)

Definition sizeof_packet_size_type : Z := 2.

(** The length prefix, once it is there; [false] when the function returns. *)
Definition take_length (sb : stream_buf) : outcome (bool * stream_buf) :=
  if decide (sb_len sb < 0 ∧ len (sb_buf sb) >= sizeof_packet_size_type) then
    '(go, sb) ←
      (if decide (sb_port_share_state sb = PS_ENABLED) then
         ok ← is_openvpn_protocol (sb_buf sb);
         if ok : bool then Ret (true, set_port_share PS_DISABLED sb)
         else Ret (false, set_error (set_port_share PS_FOREIGN sb))
       else Ret (true, sb));
    if negb go then Ret (false, sb) else
    '(bs, b) ← buf_read sizeof_packet_size_type (sb_buf sb);
    match bs with
    | None => Abort
    | Some net_size =>
        let sb := set_sb_len (from_be net_size) (set_buf b sb) in
        if decide (sb_len sb < 1 ∨ sb_len sb > sb_maxlen sb)
        then Ret (false, set_error (stream_buf_reset sb))
        else Ret (true, sb)
    end
  else Ret (true, sb).

Definition stream_buf_added (sb : stream_buf) (length_added : Z) : outcome (bool * stream_buf) :=
  let sb := if decide (length_added > 0)
            then set_buf (set_len (len (sb_buf sb) + length_added) (sb_buf sb)) sb else sb in
  '(go, sb) ← take_length sb;
  if negb go then Ret (false, sb) else
  if decide (sb_len sb > 0 ∧ len (sb_buf sb) >= sb_len sb) then
    '(ok, r) ← buf_init 0 (sb_residual sb);
    ASSERT (ok = true);;
    let sb := set_residual r sb in
    if decide (len (sb_buf sb) > sb_len sb) then
      '(ok, r, b) ← buf_copy_excess (sb_residual sb) (sb_buf sb) (sb_len sb);
      ASSERT (ok = true);;
      Ret (true, set_buf b (set_residual r sb))
    else Ret (true, sb)
  else
    sb ← stream_buf_set_next sb;
    Ret (false, sb).

Definition stream_buf_read_setup_dowork (sb : stream_buf) : outcome (bool * stream_buf) :=
  sb ←
    (if decide (len (sb_residual sb) ≠ 0 ∧ sb_residual_fully_formed sb = false) then
       '(ok, b) ← buf_copy (sb_residual sb) (sb_buf sb);
       ASSERT (ok = true);;
       '(ok, r) ← buf_init 0 (sb_residual sb);
       ASSERT (ok = true);;
       '(x, sb) ← stream_buf_added (set_residual r (set_buf b sb)) 0;
       Ret (set_fully_formed x sb)
     else Ret sb);
  sb ← (if sb_residual_fully_formed sb then Ret sb else stream_buf_set_next sb);
  Ret (negb (sb_residual_fully_formed sb), sb).

(** *** The socket *)

Record link_socket := LS { ls_stream_buf : stream_buf; ls_stream_reset : bool }.

(** What [recv] answers: the bytes it stored, or its result when not positive. *)
Inductive recv_result := Received (bs : list Z) | Failed (code : Z).

(** The C result and [*buf], when it is changed otherwise than in its length. *)
Definition link_socket_read_tcp (recv : Z → recv_result) (sock : link_socket) :
    outcome (Z * option buffer * link_socket) :=
  let sb := ls_stream_buf sock in
  let complete (x : bool) (sb : stream_buf) :=
    if x then
      b ← stream_buf_get_final sb;
      Ret (len b, Some b, LS (stream_buf_reset sb) (ls_stream_reset sock))
    else Ret (0, None, LS sb (ls_stream_reset sock)) in
  if sb_residual_fully_formed sb then complete true sb
  else
    frag ← stream_buf_get_next sb;
    match recv (buf_len (window_buf frag (sb_buf sb))) with
    | Received bs =>
        '(_, b) ← poke (w_offset frag) bs (sb_buf sb);
        if decide (bs = []) then Ret (0, None, LS (set_buf b sb) true)
        else
          '(x, sb) ← stream_buf_added (set_buf b sb) (Z.of_nat (length bs));
          complete x sb
    | Failed code => Ret (code, None, LS sb (if decide (code = 0) then true else ls_stream_reset sock))
    end.

Definition stream_buf_read_setup (connection_oriented : bool) (sock : link_socket) :
    outcome (bool * link_socket) :=
  if connection_oriented then
    '(x, sb) ← stream_buf_read_setup_dowork (ls_stream_buf sock);
    Ret (x, LS sb (ls_stream_reset sock))
  else Ret (true, sock).

(** [econnreset]: whether [errno] is [ECONNRESET]. *)
Definition socket_connection_reset (connection_oriented econnreset : bool) (sock : link_socket)
    (status : Z) : bool :=
  if connection_oriented then
    if ls_stream_reset sock || sb_error (ls_stream_buf sock) then true
    else if decide (status < 0) then econnreset else false
  else false.

(** The packet handed to [send]. *)
Definition link_socket_write_tcp (maxlen : Z) (b : buffer) : outcome buffer :=
  let n := u16 (buf_len b) in
  ASSERT (n ≤ maxlen);;
  '(ok, b) ← buf_write_prepend (be16 n) b;
  ASSERT (ok = true);;
  Ret b.

Definition socket_adjust_frame_parameters (f : frame) (connection_oriented : bool) : frame :=
  if connection_oriented then frame_add_to_extra_frame sizeof_packet_size_type f else f.
