(* ===== verification/OvpnStreamProofs.v ===== *)
(** * OpenVPN: packets over TCP, proved

    Between two calls a stream buffer holds bytes of the connection that are not
    yet a packet: in the residual after a packet ([fresh]), or in the buffer while
    one is read ([filling]).  What they amount to is [next_frame]. *)
From S2P Require Import Prelude OvpnBuffer OvpnFrame OvpnStream.
#[local] Open Scope bool_scope.
#[local] Open Scope Z_scope.

(** The head of a byte stream: a length that is refused, a packet and what
    follows it, or less than that. *)
Inductive parsed := Bad | More | Packet (p rest : list Z).
Definition next_frame (maxlen : Z) (s : list Z) : parsed :=
  match s with
  | a :: b :: r =>
      let n := from_be [a; b] in
      if decide (n < 1 ∨ n > maxlen) then Bad
      else if decide (n ≤ Z.of_nat (length r)) then Packet (take (Z.to_nat n) r) (drop (Z.to_nat n) r)
      else More
  | _ => More
  end.

(** Buffers by their parts. *)
Lemma buf_init_mk c q : buf_init 0 (mkbuf [] c q) = Ret (true, mkbuf [] [] (c ++ q)).
Proof.
  unfold buf_init. cbn [mkbuf capacity data length].
  rewrite decide_False by (intros [?|[?|?]]; [lia|lia|done]).
  unfold mkbuf. cbn [length app]. do 2 f_equal. f_equal. rewrite length_app. lia.
Qed.

Lemma set_len_mk pre x y post : set_len (Z.of_nat (length x)) (mkbuf pre (x ++ y) post) = mkbuf pre x (y ++ post).
Proof. unfold set_len, mkbuf. cbn [capacity offset data]. rewrite !length_app, <- !app_assoc. f_equal. lia. Qed.

Lemma set_len_grow pre c bs post :
  set_len (Z.of_nat (length c) + Z.of_nat (length bs)) (mkbuf pre c (bs ++ post)) = mkbuf pre (c ++ bs) post.
Proof. unfold set_len, mkbuf. cbn [capacity offset data]. rewrite !length_app, <- !app_assoc. f_equal; lia. Qed.

Lemma buf_copy_excess_mk c1 q1 pre x y post p1 :
  y ≠ [] → Forall is_byte y → Z.of_nat (length p1 + length c1 + length q1) < BUF_SIZE_MAX →
  (length y ≤ length q1)%nat →
  buf_copy_excess (mkbuf p1 c1 q1) (mkbuf pre (x ++ y) post) (Z.of_nat (length x)) =
  Ret (true, mkbuf p1 (c1 ++ y) (drop (length y) q1), mkbuf pre x (y ++ post)).
Proof.
  intros Hy Hb Hm Hl. unfold buf_copy_excess. rewrite decide_False by lia. cbn [len mkbuf].
  rewrite decide_True by (rewrite length_app; destruct y; [done|cbn [length]; lia]).
  fold (mkbuf pre (x ++ y) post). rewrite buf_advance_mk. bret.
  rewrite buf_copy_mk by done. bret. by rewrite set_len_mk.
Qed.

Section stream.
(** The geometry of the socket's buffer: offset, capacity and maximal length. *)
Context (o cap : nat) (M : Z).
Context (Hcap : Z.of_nat cap < BUF_SIZE_MAX) (HM : 2 < M) (Hroom : Z.of_nat o + 2 + M ≤ Z.of_nat cap).

Definition base (e : bool) (sb : stream_buf) : Prop :=
  sb_buf_init sb = Window (Z.of_nat o) 0 ∧ sb_maxlen sb = M ∧ sb_error sb = e ∧
  sb_port_share_state sb = PS_DISABLED.

(** The buffer with [c], and the residual with [r]. *)
Definition buf_is (b : buffer) (pre c post : list Z) : Prop :=
  b = mkbuf pre c post ∧ (length pre + length c + length post = cap)%nat.
Definition residual_is (r : list Z) (sb : stream_buf) : Prop :=
  ∃ q, sb_residual sb = mkbuf [] r q ∧ Z.of_nat (length r + length q) = M ∧ Forall is_byte r.

Definition fresh (e : bool) (r : list Z) (sb : stream_buf) : Prop :=
  base e sb ∧ residual_is r sb ∧ sb_residual_fully_formed sb = false ∧ sb_len sb = -1 ∧
  ∃ pre post, buf_is (sb_buf sb) pre [] post ∧ length pre = o.

(** The bytes [s] of the connection from the start of a packet, its length read
    or not. *)
Definition partial (e : bool) (s : list Z) (sb : stream_buf) : Prop :=
  base e sb ∧ residual_is [] sb ∧ sb_residual_fully_formed sb = false ∧ Forall is_byte s ∧
  ∃ pre c post, length pre = o ∧
    ((sb_len sb = -1 ∧ c = s ∧ Z.of_nat (length s) ≤ M ∧ buf_is (sb_buf sb) pre c post) ∨
     (∃ a b, s = a :: b :: c ∧ sb_len sb = from_be [a; b] ∧ 1 ≤ sb_len sb ≤ M ∧
        Z.of_nat (length c) ≤ M ∧ buf_is (sb_buf sb) (pre ++ [a; b]) c post)).

Definition filling (e : bool) (s : list Z) (sb : stream_buf) : Prop :=
  partial e s sb ∧ next_frame M s = More ∧ (sb_len sb = -1 → (length s < 2)%nat) ∧
  sb_next sb = Some (Window (offset (sb_buf sb) + len (sb_buf sb))
    ((if decide (sb_len sb >= 0) then sb_len sb else M) - len (sb_buf sb))).

Definition ready (e : bool) (p r : list Z) (sb : stream_buf) : Prop :=
  base e sb ∧ residual_is r sb ∧ p ≠ [] ∧
  ∃ pre post, buf_is (sb_buf sb) pre p post.

(** The window for the next read. *)
Lemma set_next_ok e s sb :
  partial e s sb → (sb_len sb = -1 → (length s < 2)%nat) → next_frame M s = More →
  ∃ sb', stream_buf_set_next sb = Ret sb' ∧ filling e s sb'.
Proof using Hcap HM Hroom.
  intros Hp H2 Hn. pose proof Hp as (Hb & Hr & Hf & Hsb & pre & c & post & Hpre & Hc).
  pose proof Hb as (_ & Em & _ & _). unfold stream_buf_set_next. rewrite Em.
  set (n := _ - len (sb_buf sb)).
  assert (0 < n ∧ offset (sb_buf sb) + len (sb_buf sb) + n ≤ Z.of_nat cap ∧
    buf_safe (sb_buf sb) n = true) as (Hn0 & _ & Hsafe).
  { destruct Hc as [(El & -> & _ & Eb & Hl)|(a & b & -> & El & Hl & Hc & Eb & Hbl)].
    - subst n. rewrite El, Eb. specialize (H2 El). cbn [mkbuf offset len].
      rewrite decide_False by lia. split; [lia|]. split; [lia|].
      fold (mkbuf pre s post). rewrite safe_mk by lia. apply bool_decide_eq_true_2. lia.
    - assert (Z.of_nat (length c) < sb_len sb) as Hlt.
      { unfold next_frame in Hn. rewrite <- El in Hn.
        rewrite (decide_False (P := sb_len sb < 1 ∨ sb_len sb > M)) in Hn by lia.
        case_decide; [done|lia]. }
      subst n. rewrite Eb. rewrite length_app in Hbl. cbn [mkbuf offset len length] in *.
      rewrite decide_True by lia. rewrite length_app. cbn [length]. split; [lia|]. split; [lia|].
      fold (mkbuf (pre ++ [a; b]) c post).
      rewrite safe_mk by (rewrite ?length_app; cbn [length]; lia). apply bool_decide_eq_true_2. lia. }
  rewrite (ASSERT_ok (n > 0)) by lia. bret. rewrite (ASSERT_ok (buf_safe _ n = true)) by done. bret. eexists. split; [done|].
  split; [done|]. split; [done|]. split; [done|]. done.
Qed.

Lemma buf_at_defined b pre c post : buf_is b pre c post → buf_defined b = true.
Proof. intros [-> _]. by apply bool_decide_eq_true_2; eexists. Qed.

(** Where the packets are cut. *)
Lemma from_be_bytes a b : is_byte a → is_byte b → 0 ≤ from_be [a; b] < 65536.
Proof. unfold is_byte, from_be. cbn [foldl]. lia. Qed.

(** [take_length] once the length can be read, or not yet. *)
Lemma take_length_ok e s sb :
  partial e s sb →
  match next_frame M s with
  | Bad => ∃ sb', take_length sb = Ret (false, sb') ∧ fresh true [] sb'
  | _ => ∃ sb', take_length sb = Ret (true, sb') ∧ partial e s sb' ∧ (sb_len sb' = -1 → (length s < 2)%nat)
  end.
Proof using Hcap HM Hroom.
  intros Hp. pose proof Hp as (Hb & Hr & Hf & Hsb & pre & c & post & Hpre & Hc).
  pose proof Hb as (Ei & Em & Ee & Es). unfold take_length, sizeof_packet_size_type.
  destruct Hc as [(El & -> & Hl & Eb & Hbl)|(a & b & -> & El & Hl & Hc & Eb & Hbl)].
  - assert (len (sb_buf sb) = Z.of_nat (length s)) as Hlen by by rewrite Eb.
    rewrite El, Hlen. destruct s as [|a [|b c]].
    1, 2: cbn [next_frame]; rewrite decide_False by (cbn; lia); exists sb; split; [done|]; split; [done|cbn; lia].
    rewrite decide_True by (cbn [length]; lia). rewrite Es. rewrite decide_False by done. bret. cbn [negb].
    apply Forall_cons in Hsb as [Ha Hsb]. apply Forall_cons in Hsb as [Hb2 Hsb].
    pose proof (from_be_bytes a b Ha Hb2) as Hn.
    rewrite Eb. pose proof (buf_read_mk pre [a; b] c post) as Er. cbn [length app] in Er.
    change (Z.of_nat 2) with 2 in Er. rewrite Er. bret. cbn [next_frame]. unfold set_sb_len, set_buf. cbn [sb_len sb_maxlen]. rewrite Em.
    case_decide as Hbad.
    + eexists. split; [done|]. split; [done|]. split; [done|]. split; [done|]. split; [done|].
      exists pre, (a :: b :: c ++ post). split; [|done].
      unfold stream_buf_reset, window_buf. cbn [sb_buf sb_buf_init set_error]. rewrite Ei.
      cbn [w_offset w_len mkbuf data capacity length] in *. split; [|cbn [length]; rewrite length_app; lia].
      unfold mkbuf. f_equal; [rewrite !length_app; cbn [length]; rewrite ?length_app; lia|lia|].
      cbn [app]. by rewrite <- app_assoc.
    + set (sb' := SB _ _ _ _ _ _ _ _ _). cbn [length] in *.
      assert (partial e (a :: b :: c) sb') as Hp'.
      { split; [done|]. split; [done|]. split; [done|]. split; [by rewrite !Forall_cons|].
        exists pre, c, post. split; [done|]. right. exists a, b. unfold sb'. cbn [sb_len sb_buf].
        split; [done|]. split; [done|]. split; [lia|]. split; [lia|]. split; [done|]. rewrite length_app. cbn [length]. lia. }
      case_decide; (exists sb'; split; [done|]; split; [done|]); subst sb'; cbn [sb_len]; lia.
  - rewrite decide_False by lia. unfold next_frame. rewrite <- El, decide_False by lia.
    case_decide; (exists sb; split; [done|]; split; [done|lia]).
Qed.

(** What the bytes held amount to. *)
Lemma added_ok e s sb :
  partial e s sb →
  match next_frame M s with
  | Bad => ∃ sb', stream_buf_added sb 0 = Ret (false, sb') ∧ fresh true [] sb'
  | More => ∃ sb', stream_buf_added sb 0 = Ret (false, sb') ∧ filling e s sb'
  | Packet p r => ∃ sb', stream_buf_added sb 0 = Ret (true, sb') ∧ ready e p r sb'
  end.
Proof using Hcap HM Hroom.
  intros Hp. pose proof (take_length_ok e s sb Hp) as Ht. unfold stream_buf_added.
  rewrite (decide_False (P := 0 > 0)) by lia.
  destruct (next_frame M s) as [| |p r] eqn:En.
  - destruct Ht as (sb' & -> & Hf). bret. cbn [negb]. by exists sb'.
  - destruct Ht as (sb' & -> & Hp' & H2). bret. cbn [negb].
    rewrite decide_False.
    2:{ destruct Hp' as (_ & _ & _ & _ & pre & c & post & _ & [(El & _)|(a & b & -> & El & Hl & _ & Eb & _)]).
        - rewrite El. lia.
        - rewrite Eb. cbn [len mkbuf]. unfold next_frame in En. rewrite <- El, decide_False in En by lia.
          case_decide; [done|lia]. }
    destruct (set_next_ok e s sb' Hp' H2 En) as (sb'' & -> & Hf). bret. by exists sb''.
  - destruct Ht as (sb' & -> & Hp' & H2). bret. cbn [negb].
    destruct Hp' as (Hb & (q & Er & Hq & _) & Hf & Hsb & pre & c & post & Hpre & Hc).
    destruct Hc as [(El & -> & _)|(a & b & -> & El & Hl & Hcm & Eb & Hbl)].
    { specialize (H2 El). destruct s as [|? [|? ?]]; [done|done|cbn in H2; lia]. }
    unfold next_frame in En. rewrite <- El, decide_False in En by lia.
    case_decide as Hn; [|done]. injection En as <- <-.
    assert (Z.of_nat (length (take (Z.to_nat (sb_len sb')) c)) = sb_len sb') as Hx by (rewrite length_take; lia).
    set (x := take _ c) in *. set (y := drop _ c). assert (c = x ++ y) as Ec by (symmetry; apply take_drop).
    assert (x ≠ []) as Hxne by (intros Ex; rewrite Ex in Hx; cbn in Hx; lia).
    apply Forall_cons in Hsb as [_ Hsb]. apply Forall_cons in Hsb as [_ Hsb].
    rewrite Ec in Hsb, Eb, Hbl, Hcm. apply Forall_app in Hsb as [_ Hy]. rewrite length_app in Hbl, Hcm.
    assert (len (sb_buf sb') = Z.of_nat (length x + length y)) as Hlen by (by rewrite Eb, <- length_app).
    rewrite decide_True by lia. rewrite Er, buf_init_mk. bret. rewrite ASSERT_ok by done. bret.
    unfold set_residual at 1 2. cbn [sb_buf sb_len]. cbn [length] in Hq.
    destruct y as [|z y'] eqn:Ey.
    + cbn [length] in Hlen. rewrite (decide_False (P := len (sb_buf sb') > sb_len sb')) by lia. eexists. split; [done|].
      split; [done|]. split; [by exists q|]. split; [done|]. rewrite app_nil_r in Eb.
      exists (pre ++ [a; b]), post. split; [done|]. rewrite !length_app in *. cbn [length] in *. lia.
    + rewrite <- Ey in *. assert (y ≠ []) as Hyne by (by rewrite Ey).
      assert (0 < length y)%nat by (rewrite Ey; cbn [length]; lia).
      rewrite (decide_True (P := len (sb_buf sb') > sb_len sb')) by lia.
      cbn [set_residual sb_residual sb_buf sb_len]. rewrite <- Hx, Eb. cbn [app] in *.
      rewrite buf_copy_excess_mk by (done || (cbn [length]; lia)). bret. rewrite ASSERT_ok by done. bret.
      eexists. split; [done|]. split; [done|].
      split; [exists (drop (length y) q); split; [done|]; split; [rewrite length_drop; cbn [length] in *; lia|done]|].
      split; [done|]. exists (pre ++ [a; b]), (y ++ post). split; [done|].
      rewrite !length_app in *. cbn [length] in *. lia.
Qed.

(** The bytes [s] not yet delivered, between two reads. *)
Definition holds (e : bool) (s : list Z) (sb : stream_buf) : Prop := fresh e s sb ∨ filling e s sb.

Lemma fresh_partial e sb : fresh e [] sb → partial e [] sb.
Proof using Hcap HM Hroom.
  intros (Hb & Hr & Hf & El & pre & post & Eb & Hpre). split; [done|]. split; [done|]. split; [done|].
  split; [done|]. exists pre, [], post. split; [done|]. left. split; [done|]. split; [done|]. split; [cbn; lia|done].
Qed.

Lemma partial_set_next e s sb w : partial e s sb → partial e s (set_next w sb).
Proof. done. Qed.

Lemma set_next_again e s sb :
  filling e s sb → ∃ sb', stream_buf_set_next (set_fully_formed false sb) = Ret sb' ∧ filling e s sb' ∧
    sb_residual_fully_formed sb' = false.
Proof using Hcap HM Hroom.
  intros (Hp & Hn & H2 & _).
  destruct (set_next_ok e s (set_fully_formed false sb)) as (sb' & E & Hf).
  - destruct Hp as (? & ? & ? & ? & ?). by repeat (split; [done|]).
  - done.
  - done.
  - exists sb'. split; [done|]. split; [done|]. by destruct Hf as ((_ & _ & ? & _) & _).
Qed.

(** Before a read: a packet already there, or the window to read into. *)
Lemma read_setup_ok e s sb :
  holds e s sb →
  match next_frame M s with
  | Packet p r => ∃ sb', stream_buf_read_setup_dowork sb = Ret (false, sb') ∧ ready e p r sb' ∧
      sb_residual_fully_formed sb' = true
  | More => ∃ sb', stream_buf_read_setup_dowork sb = Ret (true, sb') ∧ filling e s sb'
  | Bad => ∃ sb', stream_buf_read_setup_dowork sb = Ret (true, sb') ∧ filling true [] sb'
  end.
Proof using Hcap HM Hroom.
  intros [Hs|Hs]; unfold stream_buf_read_setup_dowork.
  2:{ pose proof Hs as ((_ & (q & Er & _) & Hf & _) & -> & _).
      rewrite decide_False by (rewrite Er; cbn; lia || by intros [? _]). bret. rewrite Hf.
      destruct (set_next_again e s sb Hs) as (sb' & E & Hf' & Hff).
      replace (set_fully_formed false sb) with sb in E by (rewrite <- Hf; by destruct sb).
      rewrite E. bret. rewrite Hff. by exists sb'. }
  pose proof Hs as (Hb & (q & Er & Hq & Hsb) & Hf & El & pre & post & (Eb & Hbl) & Hpre).
  destruct (decide (s = [])) as [->|Hne].
  - rewrite decide_False by (rewrite Er; by intros [? _]). bret. rewrite Hf. cbn [next_frame].
    destruct (set_next_ok e [] sb (fresh_partial e sb Hs)) as (sb' & -> & Hf'); [cbn; lia|done|].
    bret. exists sb'. destruct Hf' as (Hp' & Hrest). pose proof Hp' as (_ & _ & -> & _). done.
  - rewrite decide_True by (rewrite Er; split; [destruct s; [done|cbn [mkbuf len length]; lia]|done]).
    rewrite Er, Eb. cbn [length] in Hbl. rewrite buf_copy_mk by (done || (cbn [length]; lia)). bret.
    rewrite ASSERT_ok by done. bret. rewrite buf_init_mk. bret. rewrite ASSERT_ok by done. bret.
    set (sb1 := set_residual _ _). assert (partial e s sb1) as Hp.
    { split; [done|]. split; [exists (s ++ q); split; [done|]; split; [rewrite length_app; cbn; lia|done]|].
      split; [done|]. split; [done|]. exists pre, s, (drop (length s) post). split; [done|]. left.
      split; [done|]. split; [done|]. split; [lia|]. split; [done|]. rewrite length_drop. lia. }
    pose proof (added_ok e s sb1 Hp) as Ha. destruct (next_frame M s) as [| |p r].
    + destruct Ha as (sb2 & -> & Hfr). bret. cbn [sb_residual_fully_formed set_fully_formed].
      pose proof (fresh_partial true (set_fully_formed false sb2)) as Hp2.
      destruct (set_next_ok true [] (set_fully_formed false sb2)) as (sb' & -> & Hf'); [|cbn; lia|done|].
      { apply Hp2. by destruct Hfr as (? & ? & ? & ? & ?). }
      bret. exists sb'. destruct Hf' as (Hp' & Hrest). pose proof Hp' as (_ & _ & -> & _). done.
    + destruct Ha as (sb2 & -> & Hfi). bret. cbn [sb_residual_fully_formed set_fully_formed].
      destruct (set_next_again e s sb2 Hfi) as (sb' & -> & Hf' & Hff). bret. rewrite Hff. by exists sb'.
    + destruct Ha as (sb2 & -> & Hre). bret. cbn [sb_residual_fully_formed set_fully_formed]. bret.
      eexists. split; [done|]. by destruct Hre as (? & ? & ? & ?).
Qed.

(** The packet is handed out in place, and the stream starts again. *)
Lemma final_ok e p r sb :
  ready e p r sb →
  ∃ b, stream_buf_get_final sb = Ret b ∧ content b = p ∧ len b = Z.of_nat (length p) ∧ wf_buf b ∧
    fresh e r (stream_buf_reset sb).
Proof using Hcap HM Hroom.
  intros ((Ei & Em & Ee & Es) & Hr & Hp & pre & post & Eb & Hbl). unfold stream_buf_get_final.
  rewrite Eb, ASSERT_ok by (by apply bool_decide_eq_true_2; eexists). bret. eexists. split; [done|].
  split; [apply content_mk|]. split; [done|]. split; [apply wf_mk; lia|].
  split; [done|]. split; [done|]. split; [done|]. split; [done|].
  exists (take o (pre ++ p ++ post)), (drop o (pre ++ p ++ post)).
  unfold stream_buf_reset, window_buf. cbn [sb_buf]. rewrite Ei, Eb. cbn [w_offset w_len mkbuf data capacity].
  assert (length (take o (pre ++ p ++ post)) = o) as Ho by (rewrite length_take, !length_app; lia).
  split; [|done]. split; [|cbn [length]; rewrite Ho, length_drop, !length_app; lia].
  unfold mkbuf. cbn [app length]. rewrite take_drop, Ho, length_drop, !length_app. f_equal; lia.
Qed.

(** Whatever becomes of the memory after that. *)
Lemma fresh_clobber e r sb d :
  length d = cap → fresh e r sb → fresh e r (set_buf (set_data d (sb_buf sb)) sb).
Proof using Hcap HM Hroom.
  intros Hd (Hb & Hr & Hf & El & pre & post & (Eb & Hbl) & Hpre). cbn [length] in Hbl.
  split; [done|]. split; [done|]. split; [done|]. split; [done|].
  exists (take o d), (drop o d).
  assert (length (take o d) = o) as Ho by (rewrite length_take; lia).
  split; [|done]. split; [|cbn [length]; rewrite Ho, length_drop; lia].
  unfold set_data, mkbuf. cbn [sb_buf set_buf]. rewrite Eb. cbn [mkbuf capacity offset len app length].
  rewrite take_drop, Ho, length_drop. f_equal; lia.
Qed.

(** Bytes read into the window. *)
Lemma added_bytes e s sb w bs :
  filling e s sb → sb_next sb = Some w → Z.of_nat (length bs) ≤ w_len w → Forall is_byte bs → bs ≠ [] →
  ∃ b, poke (w_offset w) bs (sb_buf sb) = Ret (tt, b) ∧ capacity b = capacity (sb_buf sb) ∧
  match next_frame M (s ++ bs) with
  | Bad => ∃ sb', stream_buf_added (set_buf b sb) (Z.of_nat (length bs)) = Ret (false, sb') ∧ fresh true [] sb'
  | More => ∃ sb', stream_buf_added (set_buf b sb) (Z.of_nat (length bs)) = Ret (false, sb') ∧
      filling e (s ++ bs) sb'
  | Packet p r => ∃ sb', stream_buf_added (set_buf b sb) (Z.of_nat (length bs)) = Ret (true, sb') ∧
      ready e p r sb'
  end.
Proof using Hcap HM Hroom.
  intros (Hp & Hn & H2 & Ew) Ew' Hl Hb Hne. rewrite Ew in Ew'. injection Ew' as <-. cbn [w_offset w_len] in *.
  destruct Hp as (Hba & Hr & Hf & Hsb & pre & c & post & Hpre & Hc).
  assert (∃ pre2, buf_is (sb_buf sb) pre2 c post ∧
    (length bs ≤ length post)%nat ∧
    ∀ post', (length bs + length post' = length post)%nat →
      partial e (s ++ bs) (set_buf (mkbuf pre2 (c ++ bs) post') sb)) as (pre2 & (Eb & Hbl) & Hfit & Hpart).
  { destruct Hc as [(El & -> & Hls & Eb & Hbl)|(a & b & -> & El & Hl1 & Hcm & Eb & Hbl)].
    - exists pre. rewrite El, Eb in Hl. cbn [mkbuf len] in Hl. rewrite decide_False in Hl by lia.
      split; [done|]. split; [lia|]. intros post' Hp'. split; [done|]. split; [done|]. split; [done|].
      split; [by apply Forall_app|]. exists pre, (s ++ bs), post'. split; [done|]. left. rewrite length_app.
      split; [done|]. split; [done|]. split; [lia|]. split; [done|]. rewrite length_app. lia.
    - exists (pre ++ [a; b]). rewrite Eb in Hl. cbn [mkbuf len] in Hl. rewrite decide_True in Hl by lia.
      rewrite length_app in Hbl. cbn [length] in Hbl.
      split; [split; [done|rewrite length_app; cbn [length]; lia]|]. split; [lia|]. intros post' Hp'.
      split; [done|]. split; [done|]. split; [done|].
      split; [by apply Forall_app|]. exists pre, (c ++ bs), post'. split; [done|]. right. exists a, b.
      rewrite length_app. split; [done|]. split; [done|]. split; [done|]. split; [lia|]. split; [done|].
      rewrite !length_app. cbn [length]. lia. }
  rewrite Eb. cbn [mkbuf offset len]. fold (mkbuf pre2 c post). rewrite poke_append by done.
  eexists. split; [done|]. split; [cbn [mkbuf capacity]; rewrite length_app, length_drop; lia|].
  specialize (Hpart (drop (length bs) post)). rewrite length_drop in Hpart. specialize (Hpart ltac:(lia)).
  pose proof (added_ok e (s ++ bs) _ Hpart) as Ha.
  assert (stream_buf_added (set_buf (mkbuf pre2 c (bs ++ drop (length bs) post)) sb) (Z.of_nat (length bs)) =
    stream_buf_added (set_buf (mkbuf pre2 (c ++ bs) (drop (length bs) post)) sb) 0) as ->; [|exact Ha].
  unfold stream_buf_added. rewrite decide_True by (destruct bs; [done|cbn [length]; lia]).
  rewrite (decide_False (P := 0 > 0)) by lia. cbn [sb_buf set_buf].
  change (len (mkbuf pre2 c (bs ++ drop (length bs) post))) with (Z.of_nat (length c)).
  rewrite set_len_grow. done.
Qed.

(** A read: what it gives back and what is held then. *)
Lemma read_tcp_ok e s sb w bs rst (recv : Z → recv_result) :
  filling e s sb → sb_next sb = Some w → recv (w_len w) = Received bs →
  Z.of_nat (length bs) ≤ w_len w → Forall is_byte bs → bs ≠ [] →
  match next_frame M (s ++ bs) with
  | Bad => ∃ sb', link_socket_read_tcp recv (LS sb rst) = Ret (0, None, LS sb' rst) ∧ fresh true [] sb'
  | More => ∃ sb', link_socket_read_tcp recv (LS sb rst) = Ret (0, None, LS sb' rst) ∧ filling e (s ++ bs) sb'
  | Packet p r => ∃ b sb', link_socket_read_tcp recv (LS sb rst) =
      Ret (Z.of_nat (length p), Some b, LS sb' rst) ∧ content b = p ∧ wf_buf b ∧ fresh e r sb'
  end.
Proof using Hcap HM Hroom.
  intros Hf Ew Er Hl Hb Hne. pose proof Hf as ((_ & _ & Hff & _ & pre & c & post & _ & Hc) & _).
  assert (∃ pre2, buf_is (sb_buf sb) pre2 c post) as (pre2 & Eb & Hbl)
    by (destruct Hc as [(_ & _ & _ & ?)|(? & ? & _ & _ & _ & _ & ?)]; by eexists).
  unfold link_socket_read_tcp. cbn [ls_stream_buf ls_stream_reset]. rewrite Hff.
  unfold stream_buf_get_next. rewrite Ew.
  rewrite ASSERT_ok by (rewrite Eb; by apply bool_decide_eq_true_2; eexists). bret.
  assert (buf_len (window_buf w (sb_buf sb)) = w_len w) as ->.
  { unfold buf_len, buf_valid, window_buf. rewrite Eb. cbn [data len mkbuf].
    rewrite bool_decide_eq_true_2; [done|]. split; [by eexists|lia]. }
  rewrite Er. destruct (added_bytes e s sb w bs Hf Ew Hl Hb Hne) as (b & -> & _ & Ha). bret.
  rewrite (decide_False (P := bs = [])) by done.
  destruct (next_frame M (s ++ bs)) as [| |p r]; destruct Ha as (sb' & -> & Hs); bret.
  - by exists sb'.
  - by exists sb'.
  - destruct (final_ok e p r sb' Hs) as (f & -> & Hc' & Hl' & Hw & Hfr). bret. rewrite Hl'.
    by exists f, (stream_buf_reset sb').
Qed.

Lemma read_tcp_ready e p r sb rst recv :
  ready e p r sb → sb_residual_fully_formed sb = true →
  ∃ b sb', link_socket_read_tcp recv (LS sb rst) = Ret (Z.of_nat (length p), Some b, LS sb' rst) ∧
    content b = p ∧ wf_buf b ∧ fresh e r sb'.
Proof using Hcap HM Hroom.
  intros Hs Hff. unfold link_socket_read_tcp. cbn [ls_stream_buf ls_stream_reset]. rewrite Hff.
  destruct (final_ok e p r sb Hs) as (f & -> & Hc' & Hl' & Hw & Hfr). bret. rewrite Hl'.
  by exists f, (stream_buf_reset sb).
Qed.
End stream.
