(* ===== verification/OvpnStreamProps.v ===== *)
(** * OpenVPN: the theorems on packets over TCP

    However the network cuts and delays the bytes of the connection, reading
    gives the packets the length prefixes describe, up to the first length that
    is refused.  One event of a run is one round of the event loop on the socket:
    [stream_buf_read_setup], then, when the socket is readable or a packet is
    already there, [link_socket_read_tcp] and [socket_connection_reset]. *)
From S2P Require Import Prelude OvpnBuffer OvpnFrame OvpnStream OvpnStreamProofs.
#[local] Open Scope bool_scope.
#[local] Open Scope Z_scope.

(** ** The code driven by a connection *)

Definition window_size (sb : stream_buf) : Z := match sb_next sb with Some w => w_len w | None => 0 end.

(** [wire] are the bytes not read yet, [k] how many of them the next [recv] may
    give, and [mem] what becomes of the socket's memory while a packet read is
    processed in place. *)
Definition stream_event (k : nat) (mem : list Z) (sock : link_socket) (wire : list Z) :
    outcome (option (list Z) * link_socket * list Z) :=
  '(want, sock) ← stream_buf_read_setup true sock;
  if want && bool_decide (wire = []) then Ret (None, sock, wire)
  else
    let n := Nat.min k (Z.to_nat (window_size (ls_stream_buf sock))) in
    '(r, b, sock) ← link_socket_read_tcp (λ _, Received (take n wire)) sock;
    let wire := if want : bool then drop n wire else wire in
    if socket_connection_reset true false sock r then Ret (None, sock, wire)
    else
      match b with
      | Some b =>
          let sb := ls_stream_buf sock in
          Ret (Some (content b), LS (set_buf (set_data mem (sb_buf sb)) sb) (ls_stream_reset sock), wire)
      | None => Ret (None, sock, wire)
      end.

(** The run ends at the first error, when the connection is restarted. *)
Fixpoint stream_run (events : list (nat * list Z)) (sock : link_socket) (wire : list Z) :
    outcome (list (list Z) * link_socket * list Z) :=
  match events with
  | [] => Ret ([], sock, wire)
  | (k, mem) :: events =>
      if socket_connection_reset true false sock 0 then Ret ([], sock, wire)
      else
        '(p, sock, wire) ← stream_event k mem sock wire;
        '(ps, sock, wire) ← stream_run events sock wire;
        Ret (option_list p ++ ps, sock, wire)
  end.

(** ** What the bytes say *)

(** The packets [ps] at the head of [s], and what follows. *)
Inductive cuts (maxlen : Z) : list Z → list (list Z) → list Z → Prop :=
  | cuts_nil s : cuts maxlen s [] s
  | cuts_cons s p r ps t :
      next_frame maxlen s = Packet p r → cuts maxlen r ps t → cuts maxlen s (p :: ps) t.

Definition framed (p : list Z) : list Z := be16 (Z.of_nat (length p)) ++ p.

Lemma next_frame_app M s u :
  match next_frame M s with
  | Bad => next_frame M (s ++ u) = Bad
  | More => True
  | Packet p r => next_frame M (s ++ u) = Packet p (r ++ u) ∧ (3 + length r ≤ length s)%nat ∧ p ≠ []
  end.
Proof.
  destruct s as [|a [|b c]]; try done. cbn [next_frame app]. set (n := from_be [a; b]).
  case_decide as Hb; [done|].
  case_decide as Hn; [|done]. rewrite decide_True by (rewrite length_app; lia).
  rewrite take_app_le, drop_app_le by lia. split; [done|]. cbn [length]. rewrite length_drop. split; [lia|].
  intros E. apply (f_equal length) in E. rewrite length_take in E.
  change (length []) with 0%nat in E. lia.
Qed.

Lemma next_frame_framed M p r :
  1 ≤ Z.of_nat (length p) ≤ M → Z.of_nat (length p) < 65536 → next_frame M (framed p ++ r) = Packet p r.
Proof.
  intros Hp HM. pose proof (from_be_be16 (Z.of_nat (length p))) as En. rewrite (wrap_small 16) in En by lia.
  unfold framed, be16 in *. cbn [app next_frame]. rewrite En. rewrite decide_False by lia.
  rewrite decide_True by (rewrite length_app; lia). by rewrite Nat2Z.id, take_app_length, drop_app_length.
Qed.

Section run.
Context (o cap : nat) (M : Z).
Context (Hcap : Z.of_nat cap < BUF_SIZE_MAX) (HM : 2 < M) (Hroom : Z.of_nat o + 2 + M ≤ Z.of_nat cap).

Lemma filling_window e s sb :
  filling o cap M e s sb → ∃ w, sb_next sb = Some w ∧ 0 < w_len w.
Proof using Hcap HM Hroom.
  intros ((_ & _ & _ & _ & pre & c & post & _ & Hc) & Hn & H2 & Ew). rewrite Ew. eexists. split; [done|].
  cbn [w_len]. destruct Hc as [(El & -> & _ & Eb & _)|(a & b & -> & El & Hl & _ & Eb & _)].
  - rewrite El, Eb. cbn [mkbuf len]. rewrite decide_False by lia. specialize (H2 El). lia.
  - rewrite Eb. cbn [mkbuf len]. rewrite decide_True by lia. unfold next_frame in Hn.
    rewrite <- El, decide_False in Hn by lia. clear Ew. case_decide; [done|lia].
Qed.

(** One event. *)
Definition outcome_ok (s wire : list Z) (p : option (list Z)) (sock : link_socket) (wire' : list Z) : Prop :=
  ls_stream_reset sock = false ∧ (length wire' ≤ length wire)%nat ∧
  ((p = None ∧ sb_error (ls_stream_buf sock) = true ∧ next_frame M (s ++ wire) = Bad) ∨
   ∃ s', holds o cap M false s' (ls_stream_buf sock) ∧
     (2 * length wire' + length s' < 2 * length wire + length s ∨
      (wire = [] ∧ wire' = [] ∧ s' = s ∧ p = None ∧ next_frame M s = More))%nat ∧
     match p with
     | None => s' ++ wire' = s ++ wire
     | Some p => next_frame M (s ++ wire) = Packet p (s' ++ wire')
     end).

Lemma holds_error e s sb : holds o cap M e s sb → sb_error sb = e.
Proof using Hcap HM Hroom. by intros [((_ & _ & ? & _) & _)|(((_ & _ & ? & _) & _) & _)]. Qed.

(** What a read in an event does with the next bytes. *)
Lemma read_event e s k sb wire :
  filling o cap M e s sb → (0 < k)%nat → Forall is_byte wire → wire ≠ [] →
  let n := Nat.min k (Z.to_nat (window_size sb)) in
  let bs := take n wire in
  (0 < length bs)%nat ∧
  ∃ r b sb', link_socket_read_tcp (λ _, Received bs) (LS sb false) = Ret (r, b, LS sb' false) ∧ 0 ≤ r ∧
    match next_frame M (s ++ bs) with
    | Bad => b = None ∧ sb_error sb' = true
    | More => b = None ∧ filling o cap M e (s ++ bs) sb'
    | Packet p rest => ∃ f, b = Some f ∧ content f = p ∧ fresh o cap M e rest sb'
    end.
Proof using Hcap HM Hroom.
  intros Hf Hk Hw Hne n bs. destruct (filling_window e s sb Hf) as (w & Ew & Hpos).
  assert (0 < length bs)%nat as Hbs.
  { unfold bs, n, window_size. rewrite Ew, length_take. destruct wire; [done|cbn [length]; lia]. }
  split; [done|].
  pose proof (read_tcp_ok o cap M Hcap HM Hroom e s sb w bs false (λ _, Received bs) Hf Ew eq_refl) as Hr.
  assert (Z.of_nat (length bs) ≤ w_len w) as Hlen.
  { unfold bs, n, window_size. rewrite Ew, length_take. lia. }
  assert (bs ≠ []) as Hbne by (by destruct bs; [cbn in Hbs; lia|]).
  specialize (Hr Hlen (Forall_take _ _ _ Hw) Hbne).
  destruct (next_frame M (s ++ bs)) as [| |p rest].
  - destruct Hr as (sb' & -> & Hfr). exists 0, None, sb'. split; [done|]. split; [lia|]. split; [done|].
    by destruct Hfr as ((_ & _ & ? & _) & _).
  - destruct Hr as (sb' & -> & Hfr). exists 0, None, sb'. done.
  - destruct Hr as (f & sb' & -> & Hc & _ & Hfr). exists (Z.of_nat (length p)), (Some f), sb'.
    split; [done|]. split; [lia|]. by exists f.
Qed.

Lemma event_ok k mem s sb wire :
  holds o cap M false s sb → (0 < k)%nat → length mem = cap → Forall is_byte wire →
  ∃ p sock wire', stream_event k mem (LS sb false) wire = Ret (p, sock, wire') ∧
    outcome_ok s wire p sock wire' ∧ Forall is_byte wire'.
Proof using Hcap HM Hroom.
  intros Hs Hk Hmem Hw. unfold stream_event, stream_buf_read_setup.
  pose proof (read_setup_ok o cap M Hcap HM Hroom false s sb Hs) as Hset.
  pose proof (next_frame_app M s wire) as Happ. cbn [ls_stream_buf ls_stream_reset].
  destruct (next_frame M s) as [| |p r] eqn:En.
  - (* a bad length in the residual *)
    destruct Hset as (sb1 & -> & Hfi). bret. cbn [andb].
    assert (sb_error sb1 = true) as He1 by (apply (holds_error true []); by right).
    destruct wire as [|w0 wire0] eqn:Ewire; [rewrite bool_decide_eq_true_2 by done|rewrite bool_decide_eq_false_2 by done].
    { eexists _, _, _. split; [done|]. split; [|done]. split; [done|]. split; [done|]. by left. }
    rewrite <- Ewire in *. assert (wire ≠ []) as Hne by by rewrite Ewire. clear Ewire w0 wire0.
    destruct (read_event true [] k sb1 wire Hfi Hk Hw Hne) as (Hbs & r & b & sb2 & E & Hr & Hrest).
    cbn [ls_stream_buf]. rewrite E. bret. unfold socket_connection_reset. cbn [ls_stream_reset ls_stream_buf orb].
    assert (sb_error sb2 = true) as He2.
    { destruct (next_frame M ([] ++ _)) as [| |p' r']; [by destruct Hrest| |].
      - destruct Hrest as [_ Hh]. eapply (holds_error true); by right.
      - destruct Hrest as (f & _ & _ & Hh). eapply (holds_error true); by left. }
    rewrite He2. eexists _, _, _. split; [done|].
    split; [|by apply Forall_drop]. split; [done|]. split; [rewrite length_drop; lia|]. by left.
  - (* more is needed *)
    destruct Hset as (sb1 & -> & Hfi). bret. cbn [andb].
    destruct wire as [|w0 wire0] eqn:Ewire; [rewrite bool_decide_eq_true_2 by done|rewrite bool_decide_eq_false_2 by done].
    { eexists _, _, _. split; [done|]. split; [|done]. split; [done|]. split; [done|]. right. exists s.
      split; [by right|]. split; [by right|done]. }
    rewrite <- Ewire in *. assert (wire ≠ []) as Hne by by rewrite Ewire. clear Ewire w0 wire0.
    destruct (read_event false s k sb1 wire Hfi Hk Hw Hne) as (Hbs & r & b & sb2 & E & Hr & Hrest).
    cbn [ls_stream_buf]. rewrite E. bret. set (n := Nat.min k _) in *.
    assert (length (take n wire) + length (drop n wire) = length wire)%nat as Hlw
      by (by rewrite <- length_app, take_drop).
    pose proof (next_frame_app M (s ++ take n wire) (drop n wire)) as Happ2.
    rewrite <- app_assoc, take_drop in Happ2.
    unfold socket_connection_reset. cbn [ls_stream_reset ls_stream_buf orb].
    destruct (next_frame M (s ++ take n wire)) as [| |p r'].
    + destruct Hrest as (-> & He2). rewrite He2. eexists _, _, _. split; [done|]. split; [|by apply Forall_drop].
      split; [done|]. split; [lia|]. by left.
    + destruct Hrest as (-> & Hh). rewrite (holds_error false (s ++ take n wire) sb2) by by right.
      rewrite decide_False by lia. eexists _, _, _. split; [done|]. split; [|by apply Forall_drop].
      split; [done|]. split; [lia|]. right. exists (s ++ take n wire). split; [by right|].
      split; [left; rewrite length_app; lia|]. by rewrite <- app_assoc, take_drop.
    + destruct Hrest as (f & -> & Hc & Hh). rewrite (holds_error false r' sb2) by by left.
      rewrite decide_False by lia. eexists _, _, _. split; [done|]. split; [|by apply Forall_drop].
      split; [done|]. split; [lia|]. right. exists r'. destruct Happ2 as (Happ2 & Hl2 & _).
      rewrite length_app in Hl2.
      split; [left; by apply fresh_clobber|]. split; [left; lia|]. by rewrite Hc.
  - (* a packet in the residual *)
    destruct Hset as (sb1 & -> & Hre & Hff). bret. cbn [andb].
    destruct Happ as (Happ & Hlen & Hp).
    destruct (read_tcp_ready o cap M Hcap HM Hroom false p r sb1 false
      (λ _, Received (take (Nat.min k (Z.to_nat (window_size sb1))) wire)) Hre Hff)
      as (b & sb2 & E & Hc & _ & Hfr).
    cbn [ls_stream_buf]. rewrite E. bret. unfold socket_connection_reset. cbn [ls_stream_reset ls_stream_buf orb].
    pose proof Hfr as ((_ & _ & He & _) & _). rewrite He. rewrite decide_False by lia.
    eexists _, _, _. split; [done|]. split; [|done]. split; [done|]. split; [done|]. right. exists r.
    split; [left; by apply fresh_clobber|]. split; [left; lia|]. by rewrite Hc.
Qed.

Lemma stream_run_ok events : ∀ s sb wire,
  holds o cap M false s sb → Forall is_byte wire →
  Forall (λ ev, (0 < ev.1)%nat ∧ length ev.2 = cap) events →
  ∃ ps sock wire' t, stream_run events (LS sb false) wire = Ret (ps, sock, wire') ∧
    cuts M (s ++ wire) ps t ∧ ls_stream_reset sock = false ∧
    ((sb_error (ls_stream_buf sock) = true ∧ next_frame M t = Bad) ∨
     ∃ s', holds o cap M false s' (ls_stream_buf sock) ∧ t = s' ++ wire' ∧
       ((2 * length wire + length s < length events ∨ wire = [] ∧ next_frame M s = More)%nat →
        wire' = [] ∧ next_frame M s' = More)).
Proof using Hcap HM Hroom.
  induction events as [|[k mem] events IH]; intros s sb wire Hs Hw Hev; cbn [stream_run].
  { exists [], (LS sb false), wire, (s ++ wire). split; [done|]. split; [constructor|]. split; [done|]. right.
    exists s. split; [done|]. split; [done|]. intros [?|[-> ?]]; [cbn in *; lia|done]. }
  apply Forall_cons in Hev as [[Hk Hmem] Hev]. cbn [fst snd] in *.
  unfold socket_connection_reset at 1. cbn [ls_stream_reset ls_stream_buf orb].
  rewrite (holds_error false s sb Hs), decide_False by lia.
  destruct (event_ok k mem s sb wire Hs Hk Hmem Hw) as (p & sock & wire1 & -> & (Hr & Hlw & Hok) & Hw1). bret.
  destruct sock as [sb1 rst]. cbn [ls_stream_reset ls_stream_buf] in *. subst rst.
  destruct Hok as [(-> & He & Hbad)|(s1 & Hs1 & Hmu & Hp)].
  - assert (stream_run events (LS sb1 false) wire1 = Ret ([], LS sb1 false, wire1)) as ->.
    { destruct events as [|[] ?]; [done|]. cbn [stream_run]. unfold socket_connection_reset.
      cbn [ls_stream_reset ls_stream_buf]. by rewrite He. }
    bret. eexists _, _, _, (s ++ wire). split; [done|]. split; [constructor|]. split; [done|]. by left.
  - destruct (IH s1 sb1 wire1 Hs1 Hw1 Hev) as (ps & sock & wire' & t & -> & Hc & Hr' & Hend). bret.
    exists (option_list p ++ ps), sock, wire', t. split; [done|]. split.
    { destruct p as [p|]; [by econstructor|]. by rewrite <- Hp. }
    split; [done|]. destruct Hend as [?|(s' & Hs' & Et & Hq)]; [by left|]. right. exists s'.
    split; [done|]. split; [done|]. intros Hbig. apply Hq. cbn [length] in Hbig.
    destruct Hmu as [Hmu|(-> & -> & -> & _ & Hm)]; [|by right].
    destruct Hbig as [Hbig|[-> Hm]]; [left; lia|]. destruct wire1; [|cbn in Hlw; lia].
    right. split; [done|]. destruct p as [p|].
    + pose proof (next_frame_app M s []) as Ha. rewrite app_nil_r in *. congruence.
    + rewrite !app_nil_r in Hp. by subst.
Qed.

(** What [stream_buf_init] starts from. *)
Lemma stream_init_ok pre c post :
  length pre = o → Z.of_nat (length c) = M → (length pre + length c + length post = cap)%nat →
  ∃ sb, stream_buf_init (mkbuf pre c post) false = Ret sb ∧ holds o cap M false [] sb.
Proof using Hcap HM Hroom.
  intros Ho Hc Hl. unfold stream_buf_init. cbn [len mkbuf]. unfold alloc_buf, buf_size_valid.
  rewrite bool_decide_eq_true_2 by lia. bret. eexists. split; [done|]. left.
  split; [by repeat split; cbn; rewrite ?Ho|].
  split; [exists (replicate (length c) 0); rewrite Nat2Z.id; split;
    [unfold mkbuf; cbn [length app sb_residual stream_buf_reset]; by rewrite length_replicate|];
    rewrite length_replicate; cbn [length]; split; [lia|constructor]|].
  split; [done|]. split; [done|]. exists pre, (c ++ post). split; [|done].
  unfold stream_buf_reset, window_buf. cbn [sb_buf sb_buf_init w_offset w_len capacity data mkbuf].
  split; [|cbn [length]; rewrite length_app; lia]. unfold mkbuf. cbn [length app]. rewrite length_app. f_equal; lia.
Qed.
End run.

(** ** The theorems *)

(** Whatever is sent to the socket of a frame that leaves some room, the buffer
    it is read into is never overrun. *)
Definition stream_frame (f : frame) : Prop := wf_frame f ∧ 5 ≤ extra_buffer f ∧ 0 < MAX_RW_SIZE_LINK f.

Lemma frame_stream_ok f mask :
  stream_frame f →
  ∃ b sb o, alloc_buf_sock_tun f false mask = Ret b ∧ stream_buf_init b false = Ret sb ∧
    holds o (Z.to_nat (BUF_SIZE f)) (MAX_RW_SIZE_LINK f) false [] sb ∧
    Z.of_nat (Z.to_nat (BUF_SIZE f)) < BUF_SIZE_MAX ∧ 2 < MAX_RW_SIZE_LINK f ∧
    Z.of_nat o + 2 + MAX_RW_SIZE_LINK f ≤ Z.of_nat (Z.to_nat (BUF_SIZE f)).
Proof.
  intros (Hf & Hb & _). destruct (alloc_buf_sock_tun_ok f false mask Hf) as (b & E & Hw & Ho & Hc & Hl).
  destruct (frame_headroom_ok f mask) as [Hh _]. destruct (frame_room f mask Hf) as [Hh0 _].
  destruct (wf_buf_mk b Hw) as (pre & post & Eb & Hm).
  revert Eb Hm. generalize (content b). intros c -> Hm. cbn [mkbuf offset capacity len] in *.
  fold (mkbuf pre c post) in *.
  assert (Z.of_nat (Z.to_nat (BUF_SIZE f)) < BUF_SIZE_MAX) by lia.
  assert (2 < MAX_RW_SIZE_LINK f) by (geometry; lia).
  assert (Z.of_nat (length pre) + 2 + MAX_RW_SIZE_LINK f ≤ Z.of_nat (Z.to_nat (BUF_SIZE f))) by (geometry; lia).
  destruct (stream_init_ok (length pre) (Z.to_nat (BUF_SIZE f)) (MAX_RW_SIZE_LINK f)) with
    (pre := pre) (c := c) (post := post) as (sb & Es & Hs); [done||lia..|].
  exists (mkbuf pre c post), sb, (length pre). by repeat (split; [done|]).
Qed.

Definition good_events (f : frame) (events : list (nat * list Z)) : Prop :=
  Forall (λ ev, (0 < ev.1)%nat ∧ length ev.2 = Z.to_nat (BUF_SIZE f)) events.

Lemma stream_ok f mask events wire :
  stream_frame f → Forall is_byte wire → good_events f events →
  ∃ b sb ps sock wire' t,
    alloc_buf_sock_tun f false mask = Ret b ∧ stream_buf_init b false = Ret sb ∧
    stream_run events (LS sb false) wire = Ret (ps, sock, wire') ∧
    cuts (MAX_RW_SIZE_LINK f) wire ps t ∧ ls_stream_reset sock = false ∧
    if sb_error (ls_stream_buf sock) then next_frame (MAX_RW_SIZE_LINK f) t = Bad
    else ∃ held, t = held ++ wire' ∧
      ((2 * length wire < length events)%nat → wire' = [] ∧ next_frame (MAX_RW_SIZE_LINK f) held = More).
Proof.
  intros Hf Hw Hev. destruct (frame_stream_ok f mask Hf) as (b & sb & o & Eb & Es & Hs & Hcap & HM & Hroom).
  destruct (stream_run_ok o _ _ Hcap HM Hroom events [] sb wire Hs Hw Hev) as (ps & sock & wire' & t & Er & Hc & Hr & Hend).
  exists b, sb, ps, sock, wire', t. repeat (split; [done|]).
  destruct Hend as [[-> Hb]|(s' & Hs' & -> & Hq)]; [done|].
  rewrite (holds_error o _ _ Hcap HM Hroom false s' _ Hs'). exists s'. split; [done|]. intros Hlen. apply Hq.
  left. cbn [length]. lia.
Qed.

(** C11: On a socket set up for a well-formed frame, whatever bytes a peer sends
    and however the network cuts and delays them, reading never fails: the packets
    handed out are exactly those the length prefixes describe, in order, until a
    length is 0 or more than the frame allows, when the connection is marked for a
    restart and nothing else is handed out; with enough rounds everything that is
    complete has been handed out. *)
Theorem stream_framing f mask events wire :
  stream_frame f → Forall is_byte wire → good_events f events →
  ∃ b sb ps sock wire' t,
    alloc_buf_sock_tun f false mask = Ret b ∧ stream_buf_init b false = Ret sb ∧
    stream_run events (LS sb false) wire = Ret (ps, sock, wire') ∧
    cuts (MAX_RW_SIZE_LINK f) wire ps t ∧
    if sb_error (ls_stream_buf sock) then next_frame (MAX_RW_SIZE_LINK f) t = Bad
    else ∃ held, t = held ++ wire' ∧
      ((2 * length wire < length events)%nat → wire' = [] ∧ next_frame (MAX_RW_SIZE_LINK f) held = More).
Proof.
  intros Hf Hw Hev. destruct (stream_ok f mask events wire Hf Hw Hev)
    as (b & sb & ps & sock & wire' & t & Eb & Es & Er & Hc & _ & Hend).
  by exists b, sb, ps, sock, wire', t.
Qed.

(** A packet to send: bytes, with room for the prefix, no longer than allowed. *)
Definition stream_packet (maxlen : Z) (b : buffer) : Prop :=
  wf_buf b ∧ 2 ≤ offset b ∧ 1 ≤ Z.of_nat (length (content b)) ≤ maxlen ∧
  Z.of_nat (length (content b)) < 65536 ∧ Forall is_byte (content b).

Lemma write_tcp_ok maxlen b :
  stream_packet maxlen b →
  ∃ b', link_socket_write_tcp maxlen b = Ret b' ∧ content b' = framed (content b).
Proof.
  intros (Hw & Ho & Hl & Hl16 & Hb). destruct (wf_buf_mk b Hw) as (pre & post & Eb & Hm).
  revert Eb Hl Hl16 Hb. generalize (content b). intros c Eb Hl Hl16 Hb. subst b.
  unfold link_socket_write_tcp. rewrite buf_len_mk, (wrap_small 16) by lia.
  rewrite (ASSERT_ok (Z.of_nat (length c) ≤ maxlen)) by lia. bret. cbn [offset mkbuf] in Ho.
  fold (mkbuf pre c post). rewrite buf_write_prepend_mk; [|apply be16_bytes|unfold be16; cbn [length]; lia].
  bret. rewrite ASSERT_ok by done. bret. eexists. split; [done|]. by rewrite content_mk.
Qed.

Lemma cuts_framed M qs ps t :
  Forall (λ q, 1 ≤ Z.of_nat (length q) ≤ M ∧ Z.of_nat (length q) < 65536) qs →
  cuts M (concat (map framed qs)) ps t →
  match next_frame M t with Packet _ _ => True | _ => ps = qs ∧ t = [] end.
Proof.
  intros Hq Hc. remember (concat (map framed qs)) as s eqn:Es. revert qs Hq Es.
  induction Hc as [s|s p r ps t Hn Hc IH]; intros qs Hq ->.
  - destruct Hq as [|q qs [Hq Hq'] _]; [done|]. cbn [map concat]. by rewrite next_frame_framed.
  - destruct Hq as [|q qs [Hq Hq'] Hqs]; [done|]. cbn [map concat] in Hn.
    rewrite next_frame_framed in Hn by done. injection Hn as <- <-. specialize (IH qs Hqs eq_refl).
    destruct (next_frame M t); try done; by destruct IH as [-> ->].
Qed.

(** C29: Packets sent with [link_socket_write_tcp] and read at the other end come
    out complete, unchanged and in order, however the network cuts the stream and
    whatever is done to the receiver's memory in between. *)
Theorem stream_roundtrip maxlen f mask events bs :
  stream_frame f → maxlen ≤ MAX_RW_SIZE_LINK f → Forall (stream_packet maxlen) bs →
  ∃ outs, Forall2 (λ b b', link_socket_write_tcp maxlen b = Ret b') bs outs ∧
    let wire := concat (map content outs) in
    good_events f events → (2 * length wire < length events)%nat →
    ∃ b sb sock,
      alloc_buf_sock_tun f false mask = Ret b ∧ stream_buf_init b false = Ret sb ∧
      stream_run events (LS sb false) wire = Ret (map content bs, sock, []) ∧
      sb_error (ls_stream_buf sock) = false.
Proof.
  intros Hf Hmax Hbs.
  assert (∃ outs, Forall2 (λ b b', link_socket_write_tcp maxlen b = Ret b') bs outs ∧
    concat (map content outs) = concat (map framed (map content bs))) as (outs & Houts & Ewire).
  { clear Hf Hmax. induction Hbs as [|b bs Hb _ (outs & Ho & Ew)]; [by exists []|].
    destruct (write_tcp_ok maxlen b Hb) as (b' & E & Ec). exists (b' :: outs). split; [by constructor|].
    cbn [map concat]. by rewrite Ec, Ew. }
  exists outs. split; [done|]. cbv zeta. rewrite Ewire. intros Hev Hlen.
  assert (Forall is_byte (concat (map framed (map content bs)))) as Hw.
  { apply Forall_concat, Forall_map, Forall_map. eapply Forall_impl; [exact Hbs|].
    intros b (_ & _ & _ & _ & Hb). apply Forall_app. split; [apply be16_bytes|done]. }
  destruct (stream_ok f mask events _ Hf Hw Hev) as (b & sb & ps & sock & wire' & t & Eb & Es & Er & Hc & _ & Hend).
  assert (Forall (λ q, 1 ≤ Z.of_nat (length q) ≤ MAX_RW_SIZE_LINK f ∧ Z.of_nat (length q) < 65536) (map content bs))
    as Hq.
  { apply Forall_map. eapply Forall_impl; [exact Hbs|]. intros x (_ & _ & ? & ? & _). lia. }
  pose proof (cuts_framed _ _ _ _ Hq Hc) as Hcut. exists b, sb, sock. split; [done|]. split; [done|].
  destruct (sb_error (ls_stream_buf sock)).
  - rewrite Hend in Hcut. destruct Hcut as [_ ->]. done.
  - destruct Hend as (held & -> & Hq'). destruct (Hq' Hlen) as [-> Hm].
    rewrite app_nil_r, Hm in Hcut. destruct Hcut as [-> _]. done.
Qed.

(** *** Witnesses *)

Definition stream_toy_frame : frame := Frame 124 120 16 8 0 0 0 0.
Definition stream_toy_events (n : nat) : list (nat * list Z) := replicate n (3%nat, replicate 156 77).

Lemma stream_toy_frame_ok : stream_frame stream_toy_frame.
Proof. vm_compute. repeat split; congruence. Qed.

Lemma stream_toy_events_ok n : good_events stream_toy_frame (stream_toy_events n).
Proof. apply Forall_replicate. split; [cbn; lia|reflexivity]. Qed.

Lemma stream_framing_witness :
  ∃ b sb ps sock wire' t,
    alloc_buf_sock_tun stream_toy_frame false 8 = Ret b ∧ stream_buf_init b false = Ret sb ∧
    stream_run (stream_toy_events 20) (LS sb false) [0; 2; 5; 6; 0; 0; 1] = Ret (ps, sock, wire') ∧
    cuts 124 [0; 2; 5; 6; 0; 0; 1] ps t.
Proof.
  destruct (stream_framing stream_toy_frame 8 (stream_toy_events 20) [0; 2; 5; 6; 0; 0; 1])
    as (b & sb & ps & sock & wire' & t & Eb & Es & Er & Hc & _).
  - apply stream_toy_frame_ok.
  - repeat (apply Forall_cons_2; [unfold is_byte; lia|]). apply Forall_nil_2.
  - apply stream_toy_events_ok.
  - exists b, sb, ps, sock, wire', t. split; [exact Eb|]. split; [exact Es|]. split; [exact Er|exact Hc].
Defined.

Lemma stream_roundtrip_witness :
  ∃ outs, Forall2 (λ b b', link_socket_write_tcp 100 b = Ret b')
      [mkbuf [0; 0] [1; 2; 3] []; mkbuf [0; 0] [4] []] outs ∧
    ((2 * length (concat (map content outs)) < 20)%nat →
     ∃ b sb sock, alloc_buf_sock_tun stream_toy_frame false 8 = Ret b ∧ stream_buf_init b false = Ret sb ∧
      stream_run (stream_toy_events 20) (LS sb false) (concat (map content outs)) =
        Ret ([[1; 2; 3]; [4]], sock, []) ∧ sb_error (ls_stream_buf sock) = false).
Proof.
  destruct (stream_roundtrip 100 stream_toy_frame 8 (stream_toy_events 20)
    [mkbuf [0; 0] [1; 2; 3] []; mkbuf [0; 0] [4] []]) as (outs & Ho & Hr).
  - apply stream_toy_frame_ok.
  - vm_compute. congruence.
  - repeat (apply Forall_cons_2 || apply Forall_nil_2);
      (split; [vm_compute; repeat split; congruence|]; split; [vm_compute; congruence|];
       split; [vm_compute; split; congruence|]; split; [vm_compute; congruence|];
       rewrite content_mk; repeat (apply Forall_cons_2; [unfold is_byte; lia|]); apply Forall_nil_2).
  - exists outs. split; [exact Ho|]. intros Hlen.
    destruct (Hr (stream_toy_events_ok 20) Hlen) as (b & sb & sock & Eb & Es & Er & He).
    exists b, sb, sock. split; [exact Eb|]. split; [exact Es|]. split; [exact Er|exact He].
Defined.
