(* ===== verification/OvpnBase64.v ===== *)
(** * OpenVPN: base64

    Models [openvpn/src/src/openvpn/base64.c].  The memory [malloc] gives is
    taken as zero bytes, which the encoder overwrites up to the NUL it writes. *)
From Stdlib Require Import String.
From S2P Require Import Prelude OvpnBuffer OvpnKeyFile.
#[local] Open Scope bool_scope.
#[local] Open Scope Z_scope.

Definition base64_chars : list Z :=
  text "ABCDEFGHIJKLMNOPQRSTUVWXYZabcdefghijklmnopqrstuvwxyz0123456789+/".
Definition base64_char (i : Z) : outcome Z := array_get base64_chars (Z.to_nat i).

(** The byte at [i], or nothing past [size]. *)
Definition add_byte (q : list Z) (size i c : Z) : outcome Z :=
  if decide (i < size) then x ← array_get q (Z.to_nat i); Ret (c + x) else Ret c.

Definition encode_body (q : list Z) (size : Z) (st : Z * wcur) : outcome (Z * wcur + wcur) :=
  let '(i, p) := st in
  if decide (i < size) then
    c ← array_get q (Z.to_nat i);
    c ← add_byte q size (i + 1) (c * 256);
    c ← add_byte q size (i + 2) (c * 256);
    let i := i + 3 in
    p0 ← base64_char (Z.shiftr (Z.land c 16515072) 18);
    p1 ← base64_char (Z.shiftr (Z.land c 258048) 12);
    p2 ← base64_char (Z.shiftr (Z.land c 4032) 6);
    p3 ← base64_char (Z.shiftr (Z.land c 63) 0);
    let p3 := if decide (i > size) then 61 else p3 in
    let p2 := if decide (i > size + 1) then 61 else p2 in
    p ← put [p0; p1; p2; p3] p;
    Ret (inl (i, p))
  else Ret (inr p).

(** The length and the memory of the string. *)
Definition openvpn_base64_encode (q : list Z) (size : Z) : outcome (Z * list Z) :=
  if decide (size < 0) then Ret (-1, [])
  else
    n ← int (size * 4);
    n ← int (Z.quot n 3 + 4);
    p ← loop (S (Z.to_nat size)) (encode_body q size) (0, WCur (replicate (Z.to_nat n) 0) 0);
    p ← put [0] p;
    len ← strlen_at (wmem p);
    Ret (Z.of_nat len, wmem p).

Fixpoint index_of (c : Z) (l : list Z) (i : Z) : Z :=
  match l with
  | [] => -1
  | x :: l => if decide (x = c) then i else index_of c l (i + 1)
  end.
Definition pos (c : Z) : Z := index_of c base64_chars 0.

Definition DECODE_ERROR : Z := 4294967295.

(** The loop over the four characters, with [val] and [marker]. *)
Fixpoint token_loop (token : list Z) (val marker : Z) : option (Z * Z) :=
  match token with
  | [] => Some (val, marker)
  | c :: token =>
      let val := u32 (val * 64) in
      if decide (c = 61) then token_loop token val (marker + 1)
      else if decide (marker > 0) then None
      else token_loop token (u32 (val + pos c)) marker
  end.

(** [token] is the memory from the pointer on. *)
Definition token_decode (token : list Z) : outcome Z :=
  t0 ← array_get token 0;
  if decide (t0 = 0) then Ret DECODE_ERROR else
  t1 ← array_get token 1;
  if decide (t1 = 0) then Ret DECODE_ERROR else
  t2 ← array_get token 2;
  if decide (t2 = 0) then Ret DECODE_ERROR else
  t3 ← array_get token 3;
  if decide (t3 = 0) then Ret DECODE_ERROR else
  match token_loop [t0; t1; t2; t3] 0 0 with
  | None => Ret DECODE_ERROR
  | Some (val, marker) =>
      if decide (marker > 2) then Ret DECODE_ERROR
      else Ret (Z.lor (Z.shiftl marker 24) val)
  end.

(** [*q++ = b], or [None] for the overflow. *)
Definition put_byte (size b : Z) (q : wcur) : outcome (option wcur) :=
  if decide (size >= 0 ∧ Z.of_nat (wpos q) >= size) then Ret None
  else q ← put [b] q; Ret (Some q).

(** The result, with the memory it leaves: an error or the bytes written. *)
Definition decode_token_body (size : Z) (st : list Z * wcur) :
    outcome (list Z * wcur + Z * list Z) :=
  let '(p, q) := st in
  c ← array_get p 0;
  if decide (c ≠ 0 ∧ (c = 61 ∨ c ∈ base64_chars)) then
    val ← token_decode p;
    let marker := Z.land (Z.shiftr val 24) 255 in
    if decide (val = DECODE_ERROR) then Ret (inr (-1, wmem q)) else
    q1 ← put_byte size (Z.land (Z.shiftr val 16) 255) q;
    match q1 with
    | None => Ret (inr (-1, wmem q))
    | Some q =>
        q1 ← (if decide (marker < 2) then put_byte size (Z.land (Z.shiftr val 8) 255) q else Ret (Some q));
        match q1 with
        | None => Ret (inr (-1, wmem q))
        | Some q =>
            q1 ← (if decide (marker < 1) then put_byte size (Z.land val 255) q else Ret (Some q));
            match q1 with
            | None => Ret (inr (-1, wmem q))
            | Some q => Ret (inl (drop 4 p, q))
            end
        end
    end
  else Ret (inr (Z.of_nat (wpos q), wmem q)).

Definition openvpn_base64_decode (str data : list Z) (size : Z) : outcome (Z * list Z) :=
  loop (S (length str)) (decode_token_body size) (str, WCur data 0).

(** ** The encoding *)

(** The characters for the 24 bits [c]. *)
Definition sextet (c k : Z) : Z := (c / 2 ^ (6 * k)) mod 64.
Definition char_of (x : Z) : Z := default 0 (base64_chars !! Z.to_nat x).

Fixpoint base64 (bs : list Z) : list Z :=
  match bs with
  | [] => []
  | [a] => let c := a * 65536 in [char_of (sextet c 3); char_of (sextet c 2); 61; 61]
  | [a; b] =>
      let c := a * 65536 + b * 256 in
      [char_of (sextet c 3); char_of (sextet c 2); char_of (sextet c 1); 61]
  | a :: b :: d :: bs =>
      let c := a * 65536 + b * 256 + d in
      [char_of (sextet c 3); char_of (sextet c 2); char_of (sextet c 1); char_of (sextet c 0)] ++ base64 bs
  end.

(** The alphabet. *)
Lemma char_table :
  forallb (λ n, let x := Z.of_nat n in let c := char_of x in
    bool_decide (base64_chars !! n = Some c ∧ pos c = x ∧ c ≠ 0 ∧ c ≠ 61 ∧ c ∈ base64_chars ∧ 0 < c < 256))
    (seq 0 64) = true.
Proof. by vm_compute. Qed.

Lemma char_of_ok x : 0 ≤ x < 64 →
  base64_char x = Ret (char_of x) ∧ pos (char_of x) = x ∧ char_of x ≠ 0 ∧ char_of x ≠ 61 ∧
  char_of x ∈ base64_chars ∧ is_byte (char_of x).
Proof.
  intros Hx. pose proof char_table as Ht. rewrite forallb_forall in Ht.
  specialize (Ht (Z.to_nat x)). rewrite in_seq in Ht. specialize (Ht ltac:(lia)).
  apply bool_decide_eq_true_1 in Ht. rewrite Z2Nat.id in Ht by lia.
  destruct Ht as (E & ? & ? & ? & ? & ?). unfold base64_char, array_get. rewrite E. cbn.
  repeat (split; [done|]). unfold is_byte. lia.
Qed.

Lemma sextet_range c k : 0 ≤ sextet c k < 64.
Proof. unfold sextet. apply Z.mod_pos_bound. lia. Qed.

(** The masks of the code take out the sextets. *)
Lemma land_shift c k : 0 ≤ k → Z.shiftr (Z.land c (63 * 2 ^ (6 * k))) (6 * k) = sextet c k.
Proof.
  intros Hk. rewrite Z.shiftr_land. rewrite <- Z.shiftl_mul_pow2 by lia.
  rewrite Z.shiftr_shiftl_l, Z.sub_diag, Z.shiftl_0_r by lia. rewrite Z.shiftr_div_pow2 by lia.
  by rewrite (Z.land_ones _ 6) by lia.
Qed.

Lemma sextets c : 0 ≤ c < 16777216 →
  sextet c 3 * 262144 + sextet c 2 * 4096 + sextet c 1 * 64 + sextet c 0 = c.
Proof. intros. unfold sextet. cbn. Z.to_euclidean_division_equations. lia. Qed.

Lemma be24 a b d : is_byte a → is_byte b → is_byte d → 0 ≤ a * 65536 + b * 256 + d < 16777216.
Proof. unfold is_byte. lia. Qed.

Lemma length_base64 bs : Z.of_nat (length (base64 bs)) = 4 * ((Z.of_nat (length bs) + 2) / 3).
Proof.
  induction bs as [bs IH] using (induction_ltof1 _ (@length Z)).
  destruct bs as [|a [|b [|d bs]]]; [done|done|done|]. cbn [base64]. rewrite length_app.
  specialize (IH bs ltac:(unfold ltof; cbn; lia)). cbn [length]. rewrite Nat2Z.inj_add, IH, !Nat2Z.inj_succ.
  Z.to_euclidean_division_equations. lia.
Qed.

Lemma base64_bytes bs : Forall is_byte (base64 bs) ∧ Forall (λ c, c ≠ 0) (base64 bs).
Proof.
  assert (∀ c k, is_byte (char_of (sextet c k)) ∧ char_of (sextet c k) ≠ 0) as Hc.
  { intros c k. destruct (char_of_ok (sextet c k) (sextet_range c k)) as (_ & _ & ? & _ & _ & ?). done. }
  induction bs as [bs IH] using (induction_ltof1 _ (@length Z)).
  destruct bs as [|a [|b [|d bs]]]; cbn [base64]; [done|..].
  - rewrite !Forall_cons. split_and!; try apply Hc; done.
  - rewrite !Forall_cons. split_and!; try apply Hc; done.
  - destruct (IH bs ltac:(unfold ltof; cbn; lia)) as [H1 H2].
    split; (apply Forall_app; split; [|done]); rewrite !Forall_cons; split_and!; try apply Hc; done.
Qed.

(** One group of up to three bytes. *)
Lemma encode_group q size i c (p : wcur) x0 x1 x2 x3 :
  i < size → q !! Z.to_nat i = Some x0 →
  add_byte q size (i + 1) (x0 * 256) = Ret x1 → add_byte q size (i + 2) (x1 * 256) = Ret c →
  x2 = (if decide (i + 3 > size + 1) then 61 else char_of (sextet c 1)) →
  x3 = (if decide (i + 3 > size) then 61 else char_of (sextet c 0)) →
  encode_body q size (i, p) =
  (p ← put [char_of (sextet c 3); char_of (sextet c 2); x2; x3] p; Ret (inl (i + 3, p))).
Proof.
  intros Hi E0 E1 E2 -> ->. unfold encode_body. rewrite decide_True by done.
  unfold array_get. rewrite E0. cbn [of_option]. bret. rewrite E1. bret. rewrite E2. bret.
  pose proof (land_shift c 3 ltac:(lia)) as S3. pose proof (land_shift c 2 ltac:(lia)) as S2.
  pose proof (land_shift c 1 ltac:(lia)) as S1. pose proof (land_shift c 0 ltac:(lia)) as S0.
  change (63 * 2 ^ (6 * 3)) with 16515072 in S3. change (6 * 3) with 18 in S3.
  change (63 * 2 ^ (6 * 2)) with 258048 in S2. change (6 * 2) with 12 in S2.
  change (63 * 2 ^ (6 * 1)) with 4032 in S1. change (6 * 1) with 6 in S1.
  change (63 * 2 ^ (6 * 0)) with 63 in S0. change (6 * 0) with 0 in S0.
  rewrite S3, S2, S1, S0.
  rewrite !(fun k => proj1 (char_of_ok (sextet c k) (sextet_range c k))). by bret.
Qed.

Lemma add_byte_some q size i c x :
  i < size → q !! Z.to_nat i = Some x → add_byte q size i c = Ret (c + x).
Proof. intros Hi E. unfold add_byte, array_get. rewrite decide_True, E by done. done. Qed.
Lemma add_byte_none q size i c : size ≤ i → add_byte q size i c = Ret c.
Proof. intros Hi. unfold add_byte. by rewrite decide_False by lia. Qed.

(** The group at the end of [pre]. *)
Lemma encode_step pre g r out mem :
  g ≠ [] → (length g ≤ 3)%nat → (r ≠ [] → length g = 3%nat) → Forall is_byte g →
  (length out + 4 ≤ length mem)%nat →
  let q := pre ++ g ++ r in
  encode_body q (Z.of_nat (length q)) (Z.of_nat (length pre), filled mem out) =
  Ret (inl (Z.of_nat (length pre) + 3, filled mem (out ++ base64 g))).
Proof.
  intros Hg Hl Hr Hb Hm q. destruct (base64_bytes g) as [Hbb _].
  assert (Hq : ∀ k x, g !! k = Some x → q !! Z.to_nat (Z.of_nat (length pre) + Z.of_nat k) = Some x).
  { intros k x Hx. replace (Z.to_nat _) with (length pre + k)%nat by lia. unfold q.
    rewrite lookup_app_r, Nat.add_sub' by lia. by apply lookup_app_l_Some. }
  assert (Hn : Z.of_nat (length q) = Z.of_nat (length pre) + Z.of_nat (length g) + Z.of_nat (length r))
    by (unfold q; rewrite !length_app; lia).
  pose proof (Hq 0%nat) as H0. rewrite Z.add_0_r in H0. pose proof (Hq 1%nat) as H1. pose proof (Hq 2%nat) as H2.
  change (Z.of_nat 1) with 1 in H1. change (Z.of_nat 2) with 2 in H2.
  destruct g as [|a [|b [|d [|e g]]]]; [done| | | |cbn in Hl; lia]; cbn [length] in Hn.
  - assert (r = []) as -> by (destruct r; [done|by specialize (Hr ltac:(done))]). cbn [length] in Hn.
    erewrite encode_group; [|lia|by apply H0|apply add_byte_none; lia|apply add_byte_none; lia|done|done].
    rewrite !decide_True by lia. replace (a * 256 * 256) with (a * 65536) by lia.
    rewrite put_filled by (done || (cbn [length]; lia)). by bret.
  - assert (r = []) as -> by (destruct r; [done|by specialize (Hr ltac:(done))]). cbn [length] in Hn.
    erewrite encode_group; [|lia|by apply H0|by apply add_byte_some; [lia|apply H1]|apply add_byte_none; lia|done|done].
    rewrite decide_False, decide_True by lia.
    replace ((a * 256 + b) * 256) with (a * 65536 + b * 256) by lia.
    rewrite put_filled by (done || (cbn [length]; lia)). by bret.
  - erewrite encode_group; [|lia|by apply H0|by apply add_byte_some; [lia|apply H1]
      |by apply add_byte_some; [lia|apply H2]|done|done].
    rewrite !decide_False by lia.
    replace ((a * 256 + b) * 256 + d) with (a * 65536 + b * 256 + d) by lia.
    rewrite put_filled by (done || (cbn [length]; lia)). by bret.
Qed.

Lemma base64_group g r : (length g = 3)%nat → base64 (g ++ r) = base64 g ++ base64 r.
Proof. destruct g as [|a [|b [|d [|e g]]]]; done. Qed.

(** A list by groups of three bytes. *)
Lemma groups_ind (P : list Z → Prop) :
  P [] → (∀ g r, g ≠ [] → (length g ≤ 3)%nat → (r ≠ [] → length g = 3%nat) → P r → P (g ++ r)) → ∀ l, P l.
Proof.
  intros H0 Hg l. induction l as [l IH] using (induction_ltof1 _ (@length Z)).
  destruct (decide (l = [])) as [->|Hl]; [done|]. rewrite <- (take_drop 3 l).
  apply Hg; [by destruct l|rewrite length_take; lia| |].
  - intros Hd. rewrite length_take. destruct (decide (length l ≤ 3)%nat); [by rewrite drop_ge in Hd|lia].
  - apply IH. unfold ltof. rewrite length_drop. destruct l; [done|cbn [length]; lia].
Qed.

Lemma base64_group' g r : (r ≠ [] → length g = 3%nat) → base64 (g ++ r) = base64 g ++ base64 r.
Proof.
  intros Hr. destruct (decide (r = [])) as [->|Hne]; [by rewrite !app_nil_r|]. by apply base64_group, Hr.
Qed.

Lemma encode_loop rest : ∀ fuel pre out mem,
  (length rest < fuel)%nat → (length out + length (base64 rest) ≤ length mem)%nat → Forall is_byte rest →
  ∀ i, (rest ≠ [] → i = Z.of_nat (length pre)) → (rest = [] → Z.of_nat (length pre) ≤ i) →
  loop fuel (encode_body (pre ++ rest) (Z.of_nat (length (pre ++ rest)))) (i, filled mem out) =
  Ret (filled mem (out ++ base64 rest)).
Proof.
  induction rest as [|g r Hg Hl Hr IH] using groups_ind; intros fuel pre out mem Hf Hm Hb i Hi Hi'.
  - destruct fuel; [cbn in Hf; lia|]. rewrite loop_S. unfold encode_body. rewrite app_nil_r in *.
    rewrite decide_False by (specialize (Hi' eq_refl); lia). bret. cbn [base64]. by rewrite app_nil_r.
  - assert (g ++ r ≠ []) as Hgr by (by destruct g). rewrite (Hi Hgr).
    destruct fuel as [|fuel]; [lia|]. rewrite loop_S. apply Forall_app in Hb as [Hbg Hbr].
    rewrite base64_group', length_app in Hm by done.
    assert (length (base64 g) = 4)%nat as H4 by (destruct g as [|? [|? [|? [|]]]]; done || (cbn in Hl; lia)).
    rewrite encode_step by (done || lia). bret.
    rewrite (app_assoc pre g r). rewrite (IH fuel (pre ++ g)).
    + by rewrite base64_group', app_assoc.
    + rewrite length_app in Hf. destruct g; [done|cbn in Hf; lia].
    + rewrite length_app. lia.
    + done.
    + intros Hne. rewrite length_app, (Hr Hne). lia.
    + intros _. rewrite length_app. lia.
Qed.

Lemma openvpn_base64_encode_ok bs :
  Forall is_byte bs → Z.of_nat (length bs) * 4 ≤ INT_MAX - 16 →
  ∃ rest, openvpn_base64_encode bs (Z.of_nat (length bs)) =
    Ret (Z.of_nat (length (base64 bs)), base64 bs ++ 0 :: rest).
Proof.
  intros Hb Hl. unfold openvpn_base64_encode. rewrite decide_False by lia.
  pose proof (length_base64 bs) as H64. set (n := Z.of_nat (length bs)) in *.
  rewrite (int_ok (n * 4)) by (ints; lia). bret.
  assert (4 * ((n + 2) / 3) + 1 ≤ Z.quot (n * 4) 3 + 4) as Hroom.
  { rewrite Z.quot_div_nonneg by lia. Z.to_euclidean_division_equations. lia. }
  assert (Z.quot (n * 4) 3 + 4 ≤ INT_MAX) as Hmax
    by (rewrite Z.quot_div_nonneg by lia; ints; Z.to_euclidean_division_equations; lia).
  rewrite (int_ok (Z.quot (n * 4) 3 + 4)) by (ints; lia). bret.
  set (mem := replicate _ 0). assert (length mem = Z.to_nat (Z.quot (n * 4) 3 + 4)) as Hmem
    by apply length_replicate. rewrite filled_start.
  pose proof (encode_loop bs (S (Z.to_nat n)) [] [] mem) as He. cbn [app length] in He.
  rewrite He by (done || lia). bret.
  rewrite put_filled by ((cbn [length]; lia) || (apply Forall_singleton; unfold is_byte; lia)). bret.
  unfold filled. cbn [wmem]. destruct (base64_bytes bs) as [_ Hnz].
  eexists. rewrite <- app_assoc. cbn [app]. by rewrite strlen_at_app.
Qed.

(** ** The decoding *)

(** The value of a token, with the number of its [=]. *)
Lemma token_decode_ok c0 c1 c2 c3 val marker rest :
  c0 ≠ 0 → c1 ≠ 0 → c2 ≠ 0 → c3 ≠ 0 →
  token_loop [c0; c1; c2; c3] 0 0 = Some (val, marker) → 0 ≤ marker ≤ 2 → 0 ≤ val < 16777216 →
  token_decode (c0 :: c1 :: c2 :: c3 :: rest) = Ret (marker * 16777216 + val).
Proof.
  intros H0 H1 H2 H3 Et Hm Hv. unfold token_decode, array_get. cbn [lookup list_lookup of_option]. bret.
  rewrite (decide_False (P := c0 = 0)) by done. try bret. rewrite (decide_False (P := c1 = 0)) by done. try bret.
  rewrite (decide_False (P := c2 = 0)) by done. try bret. rewrite (decide_False (P := c3 = 0)) by done.
  rewrite Et, decide_False by lia. f_equal.
  rewrite Z.shiftl_mul_pow2 by lia. change (2 ^ 24) with 16777216.
  rewrite <- Z.add_lor_land. enough (Z.land (marker * 16777216) val = 0) as -> by lia.
  assert (val = val mod 2 ^ 24) as -> by (rewrite Z.mod_small; [done|exact Hv]).
  rewrite <- Z.land_ones by lia. rewrite (Z.land_comm val), Z.land_assoc, Z.land_ones by lia.
  change (2 ^ 24) with 16777216. by rewrite Z.mod_mul.
Qed.

(** The fields the loop takes out of it. *)
Lemma token_fields marker a b d :
  0 ≤ marker ≤ 2 → is_byte a → is_byte b → is_byte d →
  let val := marker * 16777216 + (a * 65536 + b * 256 + d) in
  Z.land (Z.shiftr val 24) 255 = marker ∧ Z.land (Z.shiftr val 16) 255 = a ∧
  Z.land (Z.shiftr val 8) 255 = b ∧ Z.land val 255 = d ∧ val ≠ DECODE_ERROR.
Proof.
  intros Hm Ha Hb Hd val. unfold DECODE_ERROR, is_byte in *.
  rewrite !(Z.land_ones _ 8), !Z.shiftr_div_pow2 by lia. subst val. cbn.
  split_and!; Z.to_euclidean_division_equations; lia.
Qed.

Lemma put_byte_ok (size : Z) b mem out :
  is_byte b → (length out < length mem)%nat → size < 0 ∨ Z.of_nat (length out) < size →
  put_byte size b (filled mem out) = Ret (Some (filled mem (out ++ [b]))).
Proof.
  intros Hb Hl Hs. unfold put_byte. change (wpos (filled mem out)) with (length out). rewrite decide_False by lia.
  rewrite put_filled; [by bret|by apply Forall_singleton|cbn [length]; lia].
Qed.

Lemma put_byte_full size b mem out :
  0 ≤ size ≤ Z.of_nat (length out) → put_byte size b (filled mem out) = Ret None.
Proof. intros Hs. unfold put_byte. change (wpos (filled mem out)) with (length out). by rewrite decide_True by lia. Qed.

Definition pad (g : list Z) : Z * Z * Z * Z :=
  match g with
  | [a] => (2, a, 0, 0)
  | [a; b] => (1, a, b, 0)
  | a :: b :: d :: _ => (0, a, b, d)
  | [] => (0, 0, 0, 0)
  end.

Lemma token_char c k t v :
  0 ≤ v < 262144 → token_loop (char_of (sextet c k) :: t) v 0 = token_loop t (v * 64 + sextet c k) 0.
Proof.
  intros Hv. pose proof (sextet_range c k) as Hx.
  destruct (char_of_ok (sextet c k) Hx) as (_ & Hp & _ & H61 & _). cbn [token_loop].
  rewrite (decide_False (P := char_of _ = 61)) by done. rewrite decide_False by lia. rewrite Hp.
  by rewrite (wrap_small 32 (v * 64)), wrap_small by lia.
Qed.

Lemma token_pad t v m : 0 ≤ v < 262144 → token_loop (61 :: t) v m = token_loop t (v * 64) (m + 1).
Proof. intros Hv. cbn [token_loop]. by rewrite decide_True, wrap_small by (done || lia). Qed.

Lemma sextet_3 c : 0 ≤ c < 16777216 → sextet c 3 = c / 262144.
Proof. intros. unfold sextet. cbn. Z.to_euclidean_division_equations. lia. Qed.

(** The three forms of a token. *)
Lemma token_values c : 0 ≤ c < 16777216 →
  let ch k := char_of (sextet c k) in
  token_loop [ch 3; ch 2; ch 1; ch 0] 0 0 = Some (c, 0) ∧
  (c mod 64 = 0 → token_loop [ch 3; ch 2; ch 1; 61] 0 0 = Some (c, 1)) ∧
  (c mod 4096 = 0 → token_loop [ch 3; ch 2; 61; 61] 0 0 = Some (c, 2)).
Proof.
  intros Hc ch. pose proof (sextets c Hc) as Hs. unfold ch.
  pose proof (sextet_range c 3). pose proof (sextet_range c 2). pose proof (sextet_range c 1).
  pose proof (sextet_range c 0).
  assert (sextet c 0 = c mod 64) as Hc0 by (unfold sextet; by rewrite Z.div_1_r).
  rewrite !token_char by lia. split; [cbn [token_loop]; do 2 f_equal; lia|]. split; intros Hm.
  - rewrite token_pad by lia. cbn [token_loop]. do 2 f_equal. lia.
  - rewrite !token_pad by lia. cbn [token_loop]. do 2 f_equal.
    assert (sextet c 1 = 0); [|assert (sextet c 0 = 0); [|lia]]; unfold sextet; cbn;
      Z.to_euclidean_division_equations; lia.
Qed.

(** The token of a group. *)
Lemma group_token g rest :
  g ≠ [] → (length g ≤ 3)%nat → Forall is_byte g →
  let '(marker, a, b, d) := pad g in
  0 ≤ marker ≤ 2 ∧ is_byte a ∧ is_byte b ∧ is_byte d ∧
  g = take (Z.to_nat (3 - marker)) [a; b; d] ∧
  token_decode (base64 g ++ rest) = Ret (marker * 16777216 + (a * 65536 + b * 256 + d)) ∧
  ∃ c cs, base64 g = c :: cs ∧ length cs = 3%nat ∧ c ≠ 0 ∧ c ∈ base64_chars.
Proof.
  intros Hg Hl Hb. assert (∀ c k, char_of (sextet c k) ≠ 0 ∧ char_of (sextet c k) ∈ base64_chars) as Hc.
  { intros c k. by destruct (char_of_ok (sextet c k) (sextet_range c k)) as (_ & _ & ? & _ & ? & _). }
  assert (is_byte 0) as Hz by (unfold is_byte; lia).
  destruct g as [|a [|b [|d [|e g]]]]; [done| | | |cbn in Hl; lia]; cbn [pad];
    repeat (apply Forall_cons in Hb as [? Hb]); (split; [lia|]); (split; [done|]); (split; [done|]);
    (split; [done|]); (split; [done|]);
    (split; [|eexists _, _; split; [done|]; split; [done|]; split; apply Hc]); cbn [base64 app].
  - assert (0 ≤ a * 65536 < 16777216) as Hr by (unfold is_byte in *; lia).
    destruct (token_values _ Hr) as (_ & _ & Ht).
    replace (a * 65536 + 0 * 256 + 0) with (a * 65536) by lia.
    apply token_decode_ok; try apply Hc; try done; try lia. apply Ht. Z.to_euclidean_division_equations. lia.
  - assert (0 ≤ a * 65536 + b * 256 < 16777216) as Hr by (unfold is_byte in *; lia).
    destruct (token_values _ Hr) as (_ & Ht & _). rewrite Z.add_0_r.
    apply token_decode_ok; try apply Hc; try done; try lia. apply Ht. Z.to_euclidean_division_equations. lia.
  - assert (0 ≤ a * 65536 + b * 256 + d < 16777216) as Hr by (unfold is_byte in *; lia).
    destruct (token_values _ Hr) as (Ht & _ & _).
    apply token_decode_ok; try apply Hc; try done; lia.
Qed.

(** A group decoded: its bytes are stored when there is room for all of them. *)
Lemma decode_group (size : Z) g rest mem out :
  g ≠ [] → (length g ≤ 3)%nat → Forall is_byte g → (length out + length g ≤ length mem)%nat →
  if decide (size < 0 ∨ Z.of_nat (length out + length g) ≤ size)
  then decode_token_body size (base64 g ++ rest, filled mem out) = Ret (inl (rest, filled mem (out ++ g)))
  else Z.of_nat (length out) ≤ size →
       ∃ m, decode_token_body size (base64 g ++ rest, filled mem out) = Ret (inr (-1, m)).
Proof.
  intros Hg Hl Hb Hm. pose proof (group_token g rest Hg Hl Hb) as Ht.
  destruct (pad g) as [[[marker a] b] d]. destruct Ht as (Hmk & Ha & Hbb & Hd & Eg & Et & c & cs & Ec & Hcs & Hc0 & Hcin).
  unfold decode_token_body.
  destruct (token_fields marker a b d Hmk Ha Hbb Hd) as (F1 & F2 & F3 & F4 & F5). cbv zeta in *.
  assert (drop 4 (base64 g ++ rest) = rest) as Hdrop by (rewrite Ec; by apply (drop_app_length' (c :: cs)); cbn; lia).
  assert ((base64 g ++ rest) !! 0%nat = Some c) as E0 by by rewrite Ec.
  unfold array_get. rewrite E0. cbn [of_option]. bret.
  rewrite (decide_True (P := c ≠ 0 ∧ (c = 61 ∨ c ∈ base64_chars))) by (split; [done|by right]).
  rewrite Et. bret. rewrite F1, F2, F3, F4, Hdrop.
  rewrite (decide_False (P := _ = DECODE_ERROR)) by done. clear E0 Ec Et F1 F2 F3 F4 F5 Hc0 Hcin Hdrop.
  assert (∀ x o, is_byte x → (length o < length mem)%nat → size < 0 ∨ Z.of_nat (length o) < size →
    put_byte size x (filled mem o) = Ret (Some (filled mem (o ++ [x])))) as Hyes by (by intros; apply put_byte_ok).
  assert (∀ x o, 0 ≤ size ≤ Z.of_nat (length o) → put_byte size x (filled mem o) = Ret None) as Hno
    by (by intros; apply put_byte_full).
  clear Hg Hb c cs Hcs.
  destruct (decide (size < 0 ∨ Z.of_nat (length out + length g) ≤ size)) as [Hroom|Hroom]; [|intros Ho];
    assert (marker = 2 ∨ marker = 1 ∨ marker = 0) as [-> | [-> | ->]] by lia;
    vm_compute in Eg; subst g; cbn [length] in *.
  - rewrite Hyes by (done || lia). bret. by rewrite !decide_False by lia; bret.
  - rewrite Hyes by (done || lia). bret. rewrite (decide_True (P := 1 < 2)) by lia.
    rewrite Hyes by (done || (rewrite length_app; cbn [length]; lia)). bret.
    rewrite decide_False by lia. bret. by rewrite <- app_assoc.
  - rewrite Hyes by (done || lia). bret. rewrite (decide_True (P := 0 < 2)) by lia.
    rewrite Hyes by (done || (rewrite length_app; cbn [length]; lia)). bret.
    rewrite (decide_True (P := 0 < 1)) by lia.
    rewrite Hyes by (done || (rewrite !length_app; cbn [length]; lia)). bret.
    by rewrite <- !app_assoc.
  - rewrite Hno by lia. bret. by eexists.
  - destruct (decide (Z.of_nat (length out) < size)); [|rewrite Hno by lia; bret; by eexists].
    rewrite Hyes by (done || lia). bret. rewrite (decide_True (P := 1 < 2)) by lia.
    rewrite Hno by (rewrite length_app; cbn [length]; lia). bret. by eexists.
  - destruct (decide (Z.of_nat (length out) < size)); [|rewrite Hno by lia; bret; by eexists].
    rewrite Hyes by (done || lia). bret. rewrite (decide_True (P := 0 < 2)) by lia.
    destruct (decide (Z.of_nat (length out) + 1 < size));
      [|rewrite Hno by (rewrite length_app; cbn [length]; lia); bret; by eexists].
    rewrite Hyes by (done || (rewrite length_app; cbn [length]; lia)). bret.
    rewrite (decide_True (P := 0 < 1)) by lia.
    rewrite Hno by (rewrite !length_app; cbn [length]; lia). bret. by eexists.
Qed.

Lemma decode_loop bs : ∀ fuel size mem out tail,
  (length (base64 bs) < fuel)%nat → Forall is_byte bs → (length out + length bs ≤ length mem)%nat →
  if decide (size < 0 ∨ Z.of_nat (length out + length bs) ≤ size)
  then loop fuel (decode_token_body size) (base64 bs ++ 0 :: tail, filled mem out) =
    Ret (Z.of_nat (length out + length bs), wmem (filled mem (out ++ bs)))
  else Z.of_nat (length out) ≤ size →
    ∃ m, loop fuel (decode_token_body size) (base64 bs ++ 0 :: tail, filled mem out) = Ret (-1, m).
Proof.
  induction bs as [|g r Hg Hl Hr IH] using groups_ind; intros fuel size mem out tail Hf Hb Hm.
  - destruct fuel as [|fuel]; [cbn in Hf; lia|]. rewrite loop_S. cbn [base64 app length]. rewrite Nat.add_0_r, app_nil_r.
    case_decide; [|lia]. unfold decode_token_body, array_get. cbn [lookup list_lookup of_option]. bret.
    rewrite decide_False by (by intros [? _]). by bret.
  - apply Forall_app in Hb as [Hbg Hbr]. rewrite base64_group' in * by done.
    assert (length (base64 g) = 4)%nat as H4 by (destruct g as [|? [|? [|? [|]]]]; done || (cbn in Hl; lia)).
    rewrite !length_app in *. destruct fuel as [|fuel]; [lia|]. rewrite loop_S, <- app_assoc.
    pose proof (decode_group size g (base64 r ++ 0 :: tail) mem out Hg Hl Hbg ltac:(lia)) as Hd.
    specialize (IH fuel size mem (out ++ g) tail ltac:(lia) Hbr ltac:(rewrite length_app; lia)).
    rewrite length_app in IH.
    destruct (decide (size < 0 ∨ Z.of_nat (length out + (length g + length r)) ≤ size)) as [Hs|Hs].
    + rewrite decide_True in Hd by lia. rewrite decide_True in IH by lia. rewrite Hd. bret. rewrite IH, <- app_assoc. do 2 f_equal. lia.
    + intros Ho. case_decide.
      * rewrite Hd. bret. rewrite decide_False in IH by lia. apply IH. lia.
      * destruct (Hd Ho) as [m ->]. bret. by exists m.
Qed.

(** ** The theorem *)

(** Data encoded with [openvpn_base64_encode] come out of
    [openvpn_base64_decode] unchanged, in a buffer that has room for them, whether
    the decoder is told its size or not; told a size that is too small it returns
    -1 without writing past it.  The string has four characters of the alphabet or
    paddings for every three bytes begun. *)
Theorem base64_roundtrip bs mem :
  Forall is_byte bs → Z.of_nat (length bs) * 4 ≤ INT_MAX - 16 → (length bs ≤ length mem)%nat →
  ∃ str, openvpn_base64_encode bs (Z.of_nat (length bs)) =
      Ret (4 * ((Z.of_nat (length bs) + 2) / 3), str) ∧
    ∀ size, size ≤ Z.of_nat (length mem) →
      if decide (size < 0 ∨ Z.of_nat (length bs) ≤ size)
      then openvpn_base64_decode str mem size =
        Ret (Z.of_nat (length bs), bs ++ drop (length bs) mem)
      else ∃ m, openvpn_base64_decode str mem size = Ret (-1, m).
Proof.
  intros Hb Hl Hm. destruct (openvpn_base64_encode_ok bs Hb Hl) as (rest & E).
  exists (base64 bs ++ 0 :: rest). rewrite E, length_base64. split; [done|]. intros size Hsize.
  unfold openvpn_base64_decode. rewrite filled_start.
  pose proof (decode_loop bs (S (length (base64 bs ++ 0 :: rest))) size mem [] rest) as Hd.
  rewrite length_app in *. specialize (Hd ltac:(lia) Hb ltac:(cbn [length]; lia)). cbn [length] in *.
  rewrite Nat.add_0_l in Hd. case_decide; [exact Hd|]. apply Hd. lia.
Qed.

Lemma base64_roundtrip_witness :
  ∃ str, openvpn_base64_encode [77; 97; 110; 255] 4 = Ret (8, str) ∧
    openvpn_base64_decode str (replicate 6 0) 6 = Ret (4, [77; 97; 110; 255; 0; 0]).
Proof.
  destruct (base64_roundtrip [77; 97; 110; 255] (replicate 6 0)) as (str & E & Hd).
  - repeat (apply Forall_cons_2; [unfold is_byte; lia|]). apply Forall_nil_2.
  - vm_compute. congruence.
  - vm_compute. lia.
  - exists str. split; [exact E|]. specialize (Hd 6 ltac:(vm_compute; congruence)).
    rewrite decide_True in Hd by (right; vm_compute; congruence). exact Hd.
Defined.

(** Only the first character of a token is checked: the two of ["A*=="] decode to
    a byte. *)
Example decode_accepts : openvpn_base64_decode (text "A*==" ++ [0]) [7] 1 = Ret (1, [255]).
Proof. reflexivity. Qed.
