(* ===== verification/OvpnMbuf.v ===== *)
(** * OpenVPN: queues of packets for several clients

    Models [openvpn/src/src/openvpn/mbuf.c] and [mbuf.h]: a circular queue of
    references to shared, counted packets.  Buffers live in a heap, where freeing
    one deletes it, so that its use after that is undefined; clients
    ([struct multi_instance]) are names.  An array element not yet written is
    [None].  The theorems are over the contents of the queue ([queue_is]) and the
    references held outside it. *)
From stdpp Require Import gmap.
From S2P Require Import Prelude OvpnBuffer OvpnList.
#[local] Open Scope bool_scope.
#[local] Open Scope Z_scope.

Record mbuf_buffer := MB { mb_buf : buffer; mb_refcount : Z; mb_flags : Z }.

Record mbuf_item := MI { mi_buffer : option nat; mi_instance : option nat }.
Record mbuf_set := MS {
  ms_head : Z;
  ms_len : Z;
  ms_capacity : Z;
  ms_max_queued : Z;
  ms_array : list (option mbuf_item);
}.

Definition MBUF_INDEX (head offset size : Z) : Z := Z.land (u32 (head + offset)) (u32 (size - 1)).

Definition mbuf_init (size : Z) : outcome mbuf_set :=
  c ← adjust_power_of_2 size;
  let c := u32 c in
  Ret (MS 0 0 c 0 (replicate (Z.to_nat c) None)).

Definition mbuf_alloc_buf (b : buffer) (h : gmap nat mbuf_buffer) : outcome (nat * gmap nat mbuf_buffer) :=
  b ← clone_buf b;
  let i := fresh (dom h) in
  Ret (i, <[i := MB b 1 0]> h).

Definition mbuf_free_buf (mb : option nat) (h : gmap nat mbuf_buffer) : outcome (gmap nat mbuf_buffer) :=
  match mb with
  | Some i =>
      m ← of_option (h !! i);
      n ← int (mb_refcount m - 1);
      Ret (if decide (n ≤ 0) then delete i h else <[i := MB (mb_buf m) n (mb_flags m)]> h)
  | None => Ret h
  end.

(** The element at an offset from the head, and an element stored there. *)
Definition get_item (ms : mbuf_set) (off : Z) : outcome mbuf_item :=
  x ← array_get (ms_array ms) (Z.to_nat (MBUF_INDEX (ms_head ms) off (ms_capacity ms)));
  of_option x.
Definition set_item (off : Z) (x : mbuf_item) (ms : mbuf_set) : outcome mbuf_set :=
  a ← array_set (ms_array ms) (Z.to_nat (MBUF_INDEX (ms_head ms) off (ms_capacity ms))) (Some x);
  Ret (MS (ms_head ms) (ms_len ms) (ms_capacity ms) (ms_max_queued ms) a).

Definition extract_body (ms : mbuf_set) : outcome (mbuf_set + option mbuf_item * mbuf_set) :=
  if decide (ms_len ms ≠ 0) then
    x ← array_get (ms_array ms) (Z.to_nat (ms_head ms));
    x ← of_option x;
    let ms := MS (MBUF_INDEX (ms_head ms) 1 (ms_capacity ms)) (u32 (ms_len ms - 1)) (ms_capacity ms)
                (ms_max_queued ms) (ms_array ms) in
    Ret (match mi_instance x with Some _ => inr (Some x, ms) | None => inl ms end)
  else Ret (inr (None, ms)).

(** [*item] where the C result is true. *)
Definition mbuf_extract_item (ms : mbuf_set) : outcome (option mbuf_item * mbuf_set) :=
  loop (S (Z.to_nat (ms_len ms))) extract_body ms.

Definition mbuf_add_item (item : mbuf_item) (ms : mbuf_set) (h : gmap nat mbuf_buffer) : outcome (mbuf_set * gmap nat mbuf_buffer) :=
  '(ms, h) ←
    (if decide (ms_len ms = ms_capacity ms) then
       '(rm, ms) ← mbuf_extract_item ms;
       match rm with
       | Some rm => h ← mbuf_free_buf (mi_buffer rm) h; Ret (ms, h)
       | None => Abort
       end
     else Ret (ms, h));
  ASSERT (ms_len ms < ms_capacity ms);;
  ms ← set_item (ms_len ms) item ms;
  let n := u32 (ms_len ms + 1) in
  let ms := MS (ms_head ms) n (ms_capacity ms)
              (if decide (n > ms_max_queued ms) then n else ms_max_queued ms) (ms_array ms) in
  i ← of_option (mi_buffer item);
  m ← of_option (h !! i);
  r ← int (mb_refcount m + 1);
  Ret (ms, <[i := MB (mb_buf m) r (mb_flags m)]> h).

Fixpoint peek_loop (n i : nat) (ms : mbuf_set) : outcome (option nat) :=
  match n with
  | O => Ret None
  | S n =>
      x ← get_item ms (Z.of_nat i);
      match mi_instance x with Some c => Ret (Some c) | None => peek_loop n (S i) ms end
  end.
Definition mbuf_peek_dowork (ms : mbuf_set) : outcome (option nat) := peek_loop (Z.to_nat (ms_len ms)) 0 ms.
Definition mbuf_defined (ms : option mbuf_set) : bool :=
  match ms with Some ms => negb (bool_decide (ms_len ms = 0)) | None => false end.
Definition mbuf_peek (ms : option mbuf_set) : outcome (option nat) :=
  match ms with
  | Some s => if mbuf_defined ms then mbuf_peek_dowork s else Ret None
  | None => Ret None
  end.
Definition mbuf_maximum_queued (ms : mbuf_set) : Z := s32 (ms_max_queued ms).

Definition dereference_body (mi : option nat) (i : nat) (st : mbuf_set * gmap nat mbuf_buffer) : outcome (mbuf_set * gmap nat mbuf_buffer) :=
  let '(ms, h) := st in
  x ← get_item ms (Z.of_nat i);
  if decide (mi_instance x = mi) then
    h ← mbuf_free_buf (mi_buffer x) h;
    ms ← set_item (Z.of_nat i) (MI None None) ms;
    Ret (ms, h)
  else Ret (ms, h).
Definition mbuf_dereference_instance (mi : option nat) (ms : mbuf_set) (h : gmap nat mbuf_buffer) : outcome (mbuf_set * gmap nat mbuf_buffer) :=
  for_ (Z.to_nat (ms_len ms)) 0 (dereference_body mi) (ms, h).

Definition free_body (ms : mbuf_set) (i : nat) (h : gmap nat mbuf_buffer) : outcome (gmap nat mbuf_buffer) :=
  x ← get_item ms (Z.of_nat i);
  mbuf_free_buf (mi_buffer x) h.
Definition mbuf_free (ms : option mbuf_set) (h : gmap nat mbuf_buffer) : outcome (gmap nat mbuf_buffer) :=
  match ms with
  | Some ms => for_ (Z.to_nat (ms_len ms)) 0 (free_body ms) h
  | None => Ret h
  end.
