(* ===== verification/OvpnMbufProofs.v ===== *)
(** * OpenVPN: queues of packets, proved

    A queue is the list of its elements, oldest first, [None] for one whose
    client is gone ([queue_is]); the counts of the heap are the references in
    the queue and those held outside it ([heap_counts]). *)
From stdpp Require Import gmap.
From S2P Require Import Prelude OvpnBuffer OvpnList OvpnMbuf.
#[local] Open Scope bool_scope.
#[local] Open Scope Z_scope.

(** The element of a packet and its client. *)
Definition item_of (e : option (nat * nat)) : mbuf_item :=
  match e with Some (b, c) => MI (Some b) (Some c) | None => MI None None end.

Definition slot (r head : Z) (i : nat) : nat := Z.to_nat ((head + Z.of_nat i) mod 2 ^ r).

Definition queue_at (r : Z) (ms : mbuf_set) (q : list (option (nat * nat))) : Prop :=
  0 ≤ r ≤ 30 ∧ ms_capacity ms = 2 ^ r ∧ Z.of_nat (length (ms_array ms)) = 2 ^ r ∧
  0 ≤ ms_head ms < 2 ^ r ∧ ms_len ms = Z.of_nat (length q) ∧ Z.of_nat (length q) ≤ 2 ^ r ∧
  ∀ i e, q !! i = Some e → ms_array ms !! slot r (ms_head ms) i = Some (Some (item_of e)).
Definition queue_is (ms : mbuf_set) (q : list (option (nat * nat))) : Prop := ∃ r, queue_at r ms q.

(** The references to a packet. *)
Definition ref (b : nat) (e : option (nat * nat)) : Z :=
  match e with Some (b', _) => if decide (b' = b) then 1 else 0 | None => 0 end.
Definition refs (b : nat) (q : list (option (nat * nat))) : Z := foldr Z.add 0 (map (ref b) q).

Definition heap_counts (h : gmap nat mbuf_buffer) (cnt : nat → Z) : Prop :=
  ∀ b, match h !! b with
       | Some m => mb_refcount m = cnt b ∧ 0 < cnt b ≤ INT_MAX
       | None => cnt b = 0
       end.

(** The oldest packet with a client, and what is after it. *)
Fixpoint drop_first (q : list (option (nat * nat))) : option (nat * nat * list (option (nat * nat))) :=
  match q with
  | [] => None
  | Some p :: q => Some (p, q)
  | None :: q => drop_first q
  end.

Lemma refs_cons b e q : refs b (e :: q) = ref b e + refs b q.
Proof. done. Qed.
Lemma refs_app b q1 q2 : refs b (q1 ++ q2) = refs b q1 + refs b q2.
Proof. induction q1 as [|e q1 IH]; [done|]. cbn [app]. rewrite !refs_cons. lia. Qed.
Lemma refs_nonneg b q : 0 ≤ refs b q.
Proof. induction q as [|[[b' c]|] q IH]; [done|..]; rewrite refs_cons; cbn [ref]; [case_decide|]; lia. Qed.

Lemma drop_first_refs q p q' b : drop_first q = Some (p, q') → refs b q = ref b (Some p) + refs b q'.
Proof.
  induction q as [|[x|] q IH]; intros E; [done| |].
  - by injection E as -> ->.
  - rewrite refs_cons. cbn [ref]. by rewrite IH.
Qed.
Lemma drop_first_none q b : drop_first q = None → refs b q = 0.
Proof. induction q as [|[x|] q IH]; intros E; [done|done|]. rewrite refs_cons. by rewrite IH. Qed.
Lemma drop_first_length q p q' : drop_first q = Some (p, q') → (length q' < length q)%nat.
Proof. induction q as [|[x|] q IH]; intros E; [done| |cbn; specialize (IH E); lia]. injection E as -> ->. cbn. lia. Qed.

(** ** The circle *)

Lemma pow_bound r : 0 ≤ r ≤ 30 → 0 < 2 ^ r ≤ 1073741824.
Proof.
  intros Hr. split; [apply Z.pow_pos_nonneg; lia|]. change 1073741824 with (2 ^ 30).
  apply Z.pow_le_mono_r; lia.
Qed.

Lemma MBUF_INDEX_ok r head off :
  0 ≤ r ≤ 30 → 0 ≤ head < 2 ^ r → 0 ≤ off ≤ 2 ^ r → MBUF_INDEX head off (2 ^ r) = (head + off) mod 2 ^ r.
Proof.
  intros Hr Hh Ho. pose proof (pow_bound r Hr). unfold MBUF_INDEX.
  rewrite !(wrap_small 32) by lia. replace (2 ^ r - 1) with (Z.ones r) by (rewrite Z.ones_equiv; lia).
  apply Z.land_ones. lia.
Qed.

Lemma circle_lt r head i : 0 ≤ r ≤ 30 → (Z.of_nat (slot r head i) < 2 ^ r)%Z.
Proof.
  intros Hr. pose proof (pow_bound r Hr). unfold slot.
  pose proof (Z.mod_pos_bound (head + Z.of_nat i) (2 ^ r) ltac:(lia)). lia.
Qed.

Lemma mod_inj m h x y : 0 ≤ x < m → 0 ≤ y < m → (h + x) mod m = (h + y) mod m → x = y.
Proof.
  intros Hx Hy E. pose proof (Z.div_mod (h + x) m ltac:(lia)). pose proof (Z.div_mod (h + y) m ltac:(lia)).
  assert ((h + x) / m = (h + y) / m) by nia. nia.
Qed.

Lemma circle_inj r head i j :
  0 ≤ r ≤ 30 → Z.of_nat i < 2 ^ r → Z.of_nat j < 2 ^ r → slot r head i = slot r head j → i = j.
Proof.
  intros Hr Hi Hj E. pose proof (pow_bound r Hr). unfold slot in E.
  pose proof (Z.mod_pos_bound (head + Z.of_nat i) (2 ^ r) ltac:(lia)).
  pose proof (Z.mod_pos_bound (head + Z.of_nat j) (2 ^ r) ltac:(lia)).
  assert ((head + Z.of_nat i) mod 2 ^ r = (head + Z.of_nat j) mod 2 ^ r) as Em by lia.
  apply Nat2Z.inj. eapply (mod_inj (2 ^ r)); [..|exact Em]; lia.
Qed.

Lemma slot_S r head i : 0 ≤ r ≤ 30 → slot r ((head + 1) mod 2 ^ r) i = slot r head (S i).
Proof.
  intros Hr. pose proof (pow_bound r Hr). unfold slot. rewrite Nat2Z.inj_succ, Zplus_mod_idemp_l.
  do 2 f_equal. lia.
Qed.

Lemma index_slot r ms q i :
  queue_at r ms q → (i ≤ length q)%nat →
  Z.to_nat (MBUF_INDEX (ms_head ms) (Z.of_nat i) (ms_capacity ms)) = slot r (ms_head ms) i.
Proof. intros (Hr & -> & _ & Hh & _ & Hq & _) Hi. by rewrite MBUF_INDEX_ok by lia. Qed.

Lemma get_item_ok r ms q i e :
  queue_at r ms q → q !! i = Some e → get_item ms (Z.of_nat i) = Ret (item_of e).
Proof.
  intros Hq He. pose proof (lookup_lt_Some _ _ _ He). unfold get_item.
  rewrite (index_slot r ms q i Hq) by lia. destruct Hq as (_ & _ & _ & _ & _ & _ & Ha).
  unfold array_get. rewrite (Ha i e He). cbn [of_option]. by bret.
Qed.

Lemma set_item_ok r ms q i e :
  queue_at r ms q → (i < length q)%nat →
  ∃ ms', set_item (Z.of_nat i) (item_of e) ms = Ret ms' ∧ queue_at r ms' (<[i := e]> q).
Proof.
  intros Hq Hi. unfold set_item. rewrite (index_slot r ms q i Hq) by lia.
  destruct Hq as (Hr & Hc & Hl & Hh & Hn & Hle & Ha). pose proof (circle_lt r (ms_head ms) i Hr).
  unfold array_set. rewrite decide_True by lia. bret. eexists. split; [done|].
  split; [done|]. split; [done|]. cbn [ms_array ms_head ms_len ms_capacity]. rewrite !length_insert.
  repeat (split; [done|]). intros j x Hj.
  destruct (decide (i = j)) as [<-|Hij].
  - rewrite list_lookup_insert_eq in Hj by done. injection Hj as <-. apply list_lookup_insert_eq. lia.
  - rewrite list_lookup_insert_ne in Hj by done. rewrite list_lookup_insert_ne; [by apply Ha|].
    intros E. apply Hij. pose proof (lookup_lt_Some _ _ _ Hj). eapply circle_inj; [done| | |done]; lia.
Qed.

(** ** The operations *)

Lemma extract_step r ms e q :
  queue_at r ms (e :: q) →
  ∃ ms', queue_at r ms' q ∧
    extract_body ms = Ret (match e with Some _ => inr (Some (item_of e), ms') | None => inl ms' end).
Proof.
  intros (Hr & Hc & Hl & Hh & Hn & Hle & Ha). pose proof (pow_bound r Hr). cbn [length] in *.
  unfold extract_body. rewrite decide_True by lia. unfold array_get.
  assert (Z.to_nat (ms_head ms) = slot r (ms_head ms) 0) as ->.
  { unfold slot. by rewrite Z.add_0_r, Z.mod_small. }
  rewrite (Ha 0%nat e eq_refl). cbn [of_option]. bret. rewrite Hc, MBUF_INDEX_ok by lia.
  rewrite (wrap_small 32) by lia. set (ms' := MS _ _ _ _ _). exists ms'. split.
  - split; [done|]. split; [done|]. split; [done|]. cbn [ms_head ms_len ms'].
    split; [apply Z.mod_pos_bound; lia|]. split; [lia|]. split; [lia|].
    intros i x Hx. rewrite slot_S by done. by apply Ha.
  - destruct e as [[b c]|]; done.
Qed.

Lemma extract_ok r q : ∀ ms fuel, queue_at r ms q → (length q < fuel)%nat →
  ∃ ms', loop fuel extract_body ms = Ret (match drop_first q with
      | Some (p, _) => Some (item_of (Some p)) | None => None end, ms') ∧
    queue_at r ms' (match drop_first q with Some (_, q') => q' | None => [] end).
Proof.
  induction q as [|e q IH]; intros ms fuel Hq Hf; (destruct fuel as [|fuel]; [cbn in Hf; lia|]); rewrite loop_S.
  - exists ms. split; [|done]. unfold extract_body. destruct Hq as (_ & _ & _ & _ & -> & _).
    by rewrite decide_False by (cbn; lia).
  - destruct (extract_step r ms e q Hq) as (ms' & Hq' & ->). bret. destruct e as [p|].
    + exists ms'. by destruct p.
    + cbn [drop_first]. apply IH; [done|cbn in Hf; lia].
Qed.

Lemma free_ok h cnt b cnt' :
  heap_counts h cnt → 0 < cnt b → (∀ x, cnt' x = cnt x - (if decide (b = x) then 1 else 0)) →
  ∃ h', mbuf_free_buf (Some b) h = Ret h' ∧ heap_counts h' cnt'.
Proof.
  intros Hh Hb Hc. pose proof (Hh b) as Hhb. unfold mbuf_free_buf.
  destruct (h !! b) as [m|] eqn:Em; [|lia]. destruct Hhb as [Er Hr]. cbn [of_option]. bret.
  rewrite int_ok by (ints; lia). bret. eexists. split; [done|]. intros x. rewrite Hc. specialize (Hh x).
  destruct (decide (mb_refcount m - 1 ≤ 0)) as [Hz|Hz]; destruct (decide (b = x)) as [<-|Hne].
  - rewrite lookup_delete_eq. lia.
  - rewrite lookup_delete_ne by done. by rewrite Z.sub_0_r.
  - rewrite lookup_insert_eq. cbn [mb_refcount]. lia.
  - rewrite lookup_insert_ne by done. by rewrite Z.sub_0_r.
Qed.

Lemma counts_ext h cnt cnt' : (∀ x, cnt' x = cnt x) → heap_counts h cnt → heap_counts h cnt'.
Proof. intros E H b. rewrite E. apply H. Qed.

(** Making room: an old packet gives way. *)
Definition make_room (cap : Z) (q : list (option (nat * nat))) : option (list (option (nat * nat))) :=
  if decide (Z.of_nat (length q) = cap) then snd <$> drop_first q else Some q.

Lemma append_ok r ms q e :
  queue_at r ms q → Z.of_nat (length q) < 2 ^ r →
  ∃ ms', set_item (ms_len ms) (item_of e) ms = Ret ms' ∧ ms_len ms' = ms_len ms ∧ ms_capacity ms' = 2 ^ r ∧
    ∀ mx, queue_at r (MS (ms_head ms') (u32 (ms_len ms + 1)) (ms_capacity ms') mx (ms_array ms')) (q ++ [e]).
Proof.
  intros Hq Hlt. unfold set_item. pose proof Hq as (_ & _ & _ & _ & -> & _).
  rewrite (index_slot r ms q (length q) Hq) by lia.
  destruct Hq as (Hr & Hc & Hl & Hh & Hn & Hle & Ha). pose proof (circle_lt r (ms_head ms) (length q) Hr).
  unfold array_set. rewrite decide_True by lia. bret. eexists. split; [done|]. split; [done|]. split; [done|].
  intros mx. pose proof (pow_bound r Hr). split; [done|].
  cbn [ms_array ms_head ms_len ms_capacity]. rewrite length_insert, length_app, (wrap_small 32) by lia.
  cbn [length]. split; [done|]. split; [done|]. split; [done|]. split; [lia|]. split; [lia|].
  intros j x Hj. destruct (decide (j = length q)) as [->|Hne].
  - rewrite list_lookup_middle in Hj by done. injection Hj as <-. apply list_lookup_insert_eq. lia.
  - pose proof (lookup_lt_Some _ _ _ Hj) as Hlj. rewrite length_app in Hlj. cbn [length] in Hlj.
    rewrite lookup_app_l in Hj by lia. rewrite list_lookup_insert_ne; [by apply Ha|].
    intros E. apply Hne. symmetry. eapply circle_inj; [done| | |done]; lia.
Qed.

(** A reference is added for the queue. *)
Lemma take_ref h cnt b cnt' :
  heap_counts h cnt → 0 < cnt b < INT_MAX → (∀ x, cnt' x = cnt x + (if decide (b = x) then 1 else 0)) →
  ∃ m, h !! b = Some m ∧ int (mb_refcount m + 1) = Ret (mb_refcount m + 1) ∧
    heap_counts (<[b := MB (mb_buf m) (mb_refcount m + 1) (mb_flags m)]> h) cnt'.
Proof.
  intros Hh Hb Hc. pose proof (Hh b) as Hhb. destruct (h !! b) as [m|] eqn:Em; [|lia]. exists m.
  split; [done|]. split; [apply int_ok; ints; lia|]. intros x. rewrite Hc. specialize (Hh x).
  destruct (decide (b = x)) as [<-|Hne].
  - rewrite lookup_insert_eq. cbn [mb_refcount]. lia.
  - rewrite lookup_insert_ne by done. by rewrite Z.add_0_r.
Qed.

Lemma add_ok r ms q h ext b c :
  queue_at r ms q → (∀ x, 0 ≤ ext x) → heap_counts h (λ x, refs x q + ext x) →
  0 < ext b → refs b q + ext b < INT_MAX →
  match make_room (2 ^ r) q with
  | None => mbuf_add_item (MI (Some b) (Some c)) ms h = Abort
  | Some q' => ∃ ms' h', mbuf_add_item (MI (Some b) (Some c)) ms h = Ret (ms', h') ∧
      queue_at r ms' (q' ++ [Some (b, c)]) ∧ heap_counts h' (λ x, refs x (q' ++ [Some (b, c)]) + ext x)
  end.
Proof.
  intros Hq Hext Hh Hb Hmax. pose proof Hq as (Hr & Hc & _ & _ & Hn & Hle & _). pose proof (pow_bound r Hr).
  unfold mbuf_add_item, make_room. rewrite Hn, Hc.
  assert (∀ ms1 q1 h1, queue_at r ms1 q1 → Z.of_nat (length q1) < 2 ^ r →
    heap_counts h1 (λ x, refs x q1 + ext x) → refs b q1 + ext b < INT_MAX →
    ∃ ms' h', (ASSERT (ms_len ms1 < ms_capacity ms1);;
      ms ← set_item (ms_len ms1) (MI (Some b) (Some c)) ms1;
      let n := u32 (ms_len ms + 1) in
      let ms := MS (ms_head ms) n (ms_capacity ms)
              (if decide (n > ms_max_queued ms) then n else ms_max_queued ms) (ms_array ms) in
      i ← of_option (mi_buffer (MI (Some b) (Some c)));
      m ← of_option (h1 !! i);
      r ← int (mb_refcount m + 1);
      Ret (ms, <[i := MB (mb_buf m) r (mb_flags m)]> h1)) = Ret (ms', h') ∧
      queue_at r ms' (q1 ++ [Some (b, c)]) ∧
      heap_counts h' (λ x, refs x (q1 ++ [Some (b, c)]) + ext x)) as Happ.
  { intros ms1 q1 h1 Hq1 Hlt Hh1 Hm1. pose proof Hq1 as (_ & Hc1 & _ & _ & Hn1 & _).
    rewrite (ASSERT_ok (ms_len ms1 < ms_capacity ms1)) by lia. bret.
    destruct (append_ok r ms1 q1 (Some (b, c)) Hq1 Hlt) as (ms2 & E2 & El2 & _ & Hq2). cbn [item_of] in E2.
    rewrite E2. bret. cbn [mi_buffer of_option]. bret.
    destruct (take_ref h1 _ b (λ x, refs x (q1 ++ [Some (b, c)]) + ext x) Hh1) as (m & -> & Ei & Hh2).
    { pose proof (refs_nonneg b q1). lia. }
    { intros x. rewrite refs_app, refs_cons. cbn [ref]. change (refs x []) with 0. lia. }
    cbn [of_option]. bret. rewrite Ei. bret. rewrite El2. eexists _, _. split; [done|]. split; [apply Hq2|done]. }
  case_decide as Hfull.
  - unfold mbuf_extract_item.
    destruct (extract_ok r q ms (S (Z.to_nat (ms_len ms))) Hq ltac:(lia)) as (ms1 & -> & Hq1). bret.
    destruct (drop_first q) as [[[b0 c0] q1]|] eqn:Ed; [|done]. cbn [fmap option_fmap option_map snd item_of mi_buffer].
    pose proof (drop_first_length _ _ _ Ed). pose proof (drop_first_refs q _ _ b0 Ed) as Hrf. cbn [ref] in Hrf.
    rewrite decide_True in Hrf by done. pose proof (refs_nonneg b0 q1). specialize (Hext b0) as He0.
    destruct (free_ok h _ b0 (λ x, refs x q1 + ext x) Hh) as (h1 & -> & Hh1).
    { lia. }
    { intros x. rewrite (drop_first_refs q _ _ x Ed). cbn [ref]. case_decide; lia. }
    bret. apply Happ; [done|lia|done|]. pose proof (drop_first_refs q _ _ b Ed) as Hrb. cbn [ref] in Hrb.
    case_decide; lia.
  - bret. apply Happ; [done|lia|done|lia].
Qed.

Lemma peek_ok r ms q n : ∀ i,
  queue_at r ms q → (i + n = length q)%nat →
  peek_loop n i ms = Ret (match drop_first (drop i q) with Some ((_, c), _) => Some c | None => None end).
Proof.
  induction n as [|n IH]; intros i Hq Hn; cbn [peek_loop]; [by rewrite drop_ge by lia|].
  destruct (lookup_lt_is_Some_2 q i) as [e He]; [lia|]. rewrite (get_item_ok r ms q i e Hq He). bret.
  rewrite (drop_S _ _ _ He). destruct e as [[b c]|]; [done|]. cbn [item_of mi_instance drop_first].
  apply IH; [done|lia].
Qed.

(** What a client leaves behind. *)
Definition forget (c : nat) (e : option (nat * nat)) : option (nat * nat) :=
  match e with Some (_, c') => if decide (c' = c) then None else e | None => None end.

Lemma dereference_ok r c ext : ∀ n i ms q h,
  queue_at r ms q → (i + n = length q)%nat → (∀ x, 0 ≤ ext x) → heap_counts h (λ x, refs x q + ext x) →
  ∃ ms' h', for_ n i (dereference_body (Some c)) (ms, h) = Ret (ms', h') ∧
    queue_at r ms' (take i q ++ map (forget c) (drop i q)) ∧
    heap_counts h' (λ x, refs x (take i q ++ map (forget c) (drop i q)) + ext x).
Proof.
  induction n as [|n IH]; intros i ms q h Hq Hn Hext Hh; cbn [for_].
  { rewrite drop_ge, take_ge by lia. cbn [map]. rewrite app_nil_r. by exists ms, h. }
  destruct (lookup_lt_is_Some_2 q i) as [e He]; [lia|].
  assert (∃ ms1 h1, dereference_body (Some c) i (ms, h) = Ret (ms1, h1) ∧
    queue_at r ms1 (<[i := forget c e]> q) ∧ heap_counts h1 (λ x, refs x (<[i := forget c e]> q) + ext x))
    as (ms1 & h1 & -> & Hq1 & Hh1).
  { unfold dereference_body. rewrite (get_item_ok r ms q i e Hq He). bret.
    destruct e as [[b c']|]; cbn [item_of mi_instance mi_buffer forget].
    2:{ rewrite decide_False by done. exists ms, h. by rewrite list_insert_id. }
    destruct (decide (c' = c)) as [->|Hne].
    - rewrite decide_True by done.
      assert (∀ x, refs x q = ref x (Some (b, c)) + refs x (<[i:=None]> q)) as Hrefs.
      { intros x. assert (refs x q = refs x (take i q ++ Some (b, c) :: drop (S i) q)) as ->
          by (f_equal; symmetry; by apply take_drop_middle).
        rewrite insert_take_drop by lia. rewrite !refs_app, !refs_cons. cbn [ref]. lia. }
      pose proof (Hrefs b) as Hrb. cbn [ref] in Hrb. rewrite decide_True in Hrb by done.
      pose proof (refs_nonneg b (<[i:=None]> q)). specialize (Hext b) as Heb.
      destruct (free_ok h _ b (λ x, refs x (<[i:=None]> q) + ext x) Hh) as (h1 & -> & Hh1); [lia| |].
      { intros x. rewrite (Hrefs x). cbn [ref]. case_decide; lia. }
      bret. destruct (set_item_ok r ms q i None Hq) as (ms1 & E & Hq1); [lia|]. cbn [item_of] in E.
      rewrite E. bret. by exists ms1, h1.
    - rewrite decide_False by (intros [= ?]; congruence). exists ms, h. by rewrite list_insert_id. }
  bret. destruct (IH (S i) ms1 (<[i := forget c e]> q) h1 Hq1) as (ms2 & h2 & -> & Hq2 & Hh2);
    [rewrite length_insert; lia|done|done|]. exists ms2, h2.
  assert (take (S i) (<[i := forget c e]> q) ++ map (forget c) (drop (S i) (<[i := forget c e]> q)) =
    take i q ++ map (forget c) (drop i q)) as Eq.
  { rewrite take_S_insert by lia. rewrite drop_insert_lt by lia. rewrite (drop_S _ _ _ He).
    by rewrite <- app_assoc. }
  by rewrite Eq in Hq2, Hh2.
Qed.

Lemma free_all_ok r ext : ∀ n i ms q h,
  queue_at r ms q → (i + n = length q)%nat → (∀ x, 0 ≤ ext x) →
  heap_counts h (λ x, refs x (drop i q) + ext x) →
  ∃ h', for_ n i (free_body ms) h = Ret h' ∧ heap_counts h' ext.
Proof.
  induction n as [|n IH]; intros i ms q h Hq Hn Hext Hh; cbn [for_].
  { rewrite drop_ge in Hh by lia. by exists h. }
  destruct (lookup_lt_is_Some_2 q i) as [e He]; [lia|]. rewrite (drop_S _ _ _ He) in Hh.
  assert (free_body ms i h = mbuf_free_buf (mi_buffer (item_of e)) h) as ->
    by (unfold free_body; by rewrite (get_item_ok r ms q i e Hq He)).
  destruct e as [[b c]|]; cbn [item_of mi_buffer].
  - destruct (free_ok h _ b (λ x, refs x (drop (S i) q) + ext x) Hh) as (h1 & -> & Hh1).
    { rewrite refs_cons. cbn [ref]. rewrite decide_True by done. pose proof (refs_nonneg b (drop (S i) q)).
      specialize (Hext b). lia. }
    { intros x. rewrite refs_cons. cbn [ref]. case_decide; lia. }
    bret. eapply IH; [done|lia|done|done].
  - cbn [mbuf_free_buf]. bret. eapply IH; [done|lia|done|done].
Qed.

Lemma mbuf_init_ok size : 0 < size ≤ 2 ^ 30 →
  ∃ ms, mbuf_init size = Ret ms ∧ queue_is ms [] ∧ size ≤ ms_capacity ms < 2 * size.
Proof.
  intros Hs. unfold mbuf_init. destruct (adjust_power_of_2_ok size Hs) as (r & -> & Hr & Hb). bret.
  pose proof (pow_bound r Hr). rewrite (wrap_small 32) by lia. eexists. split; [done|]. split; [|done].
  exists r. split; [done|]. split; [done|]. cbn [ms_array ms_head ms_len]. rewrite length_replicate.
  repeat (split; [done || lia|]). split; [cbn; lia|]. intros i e He. by rewrite lookup_nil in He.
Qed.

(** ** The theorems *)

(** C33: A set of packets is a bounded queue: for the packets [q] in it, oldest
    first, and the references [ext] held outside it, taking one out gives the
    oldest that still has a client; adding one appends it with a reference of its
    own, after the oldest with a client has given way when the set is full;
    dereferencing a client forgets exactly its packets; freeing the set leaves
    exactly the outside references.  No packet is used after it has been freed,
    and a packet is freed with its last reference. *)
Theorem mbuf_refines_queue ms q h ext :
  queue_is ms q → (∀ x, 0 ≤ ext x) → heap_counts h (λ x, refs x q + ext x) →
  (∃ ms', mbuf_extract_item ms = Ret ((λ p, item_of (Some p.1)) <$> drop_first q, ms') ∧
     queue_is ms' (from_option snd [] (drop_first q))) ∧
  mbuf_peek (Some ms) = Ret ((λ p, p.1.2) <$> drop_first q) ∧
  (∀ b c q', 0 < ext b → refs b q + ext b < INT_MAX → make_room (ms_capacity ms) q = Some q' →
     ∃ ms' h', mbuf_add_item (MI (Some b) (Some c)) ms h = Ret (ms', h') ∧
       queue_is ms' (q' ++ [Some (b, c)]) ∧ heap_counts h' (λ x, refs x (q' ++ [Some (b, c)]) + ext x)) ∧
  (∀ c, ∃ ms' h', mbuf_dereference_instance (Some c) ms h = Ret (ms', h') ∧
     queue_is ms' (map (forget c) q) ∧ heap_counts h' (λ x, refs x (map (forget c) q) + ext x)) ∧
  (∃ h', mbuf_free (Some ms) h = Ret h' ∧ heap_counts h' ext).
Proof.
  intros [r Hq] Hext Hh. pose proof Hq as (_ & Hc & _ & _ & Hn & _). rewrite Hc.
  split; [|split; [|split; [|split]]].
  - destruct (extract_ok r q ms (S (Z.to_nat (ms_len ms))) Hq ltac:(lia)) as (ms' & E & Hq').
    exists ms'. unfold mbuf_extract_item. rewrite E. destruct (drop_first q) as [[p q']|]; (split; [done|by exists r]).
  - unfold mbuf_peek, mbuf_defined, mbuf_peek_dowork. rewrite Hn, Nat2Z.id.
    rewrite (peek_ok r ms q (length q) 0 Hq) by lia. rewrite drop_0.
    destruct (decide (length q = 0%nat)) as [E|E].
    + rewrite E. by destruct q.
    + rewrite bool_decide_eq_false_2 by lia. cbn [negb]. by destruct (drop_first q) as [[[b c] q']|].
  - intros b c q' Hb Hm Eq'. pose proof (add_ok r ms q h ext b c Hq Hext Hh Hb Hm) as Ha. rewrite Eq' in Ha.
    destruct Ha as (ms' & h' & E & Hq' & Hh'). exists ms', h'. split; [done|]. split; [by exists r|done].
  - intros c. unfold mbuf_dereference_instance. rewrite Hn, Nat2Z.id.
    destruct (dereference_ok r c ext (length q) 0 ms q h Hq) as (ms' & h' & E & Hq' & Hh'); [lia|done|done|].
    rewrite drop_0, take_0 in *. cbn [app] in *. exists ms', h'. split; [done|]. split; [by exists r|done].
  - unfold mbuf_free. rewrite Hn, Nat2Z.id. apply (free_all_ok r ext (length q) 0 ms q h Hq); [lia|done|].
    by rewrite drop_0.
Qed.

(** When every packet of a full set belongs to a client that is gone, adding
    the next one fails an assertion, which ends the server. *)
Theorem mbuf_full_of_gone_aborts ms q h ext b c :
  queue_is ms q → (∀ x, 0 ≤ ext x) → heap_counts h (λ x, refs x q + ext x) →
  0 < ext b → ext b < INT_MAX →
  Z.of_nat (length q) = ms_capacity ms → (∀ e, e ∈ q → e = None) →
  mbuf_add_item (MI (Some b) (Some c)) ms h = Abort.
Proof.
  intros [r Hq] Hext Hh Hb Hm Hlen Hgone. pose proof Hq as (_ & Hc & _).
  assert (drop_first q = None) as Ed.
  { clear -Hgone. induction q as [|e q IH]; [done|]. rewrite (Hgone e) by left. cbn [drop_first].
    apply IH. intros x Hx. apply Hgone. by right. }
  pose proof (add_ok r ms q h ext b c Hq Hext Hh Hb) as Ha.
  rewrite (drop_first_none q b Ed) in Ha. specialize (Ha ltac:(lia)).
  unfold make_room in Ha. rewrite decide_True, Ed in Ha by congruence. exact Ha.
Qed.

(** *** Witnesses *)

Definition small_heap : gmap nat mbuf_buffer := {[ 5%nat := MB (mkbuf [] [1] []) 1 0 ]}.
Definition one_ext (x : nat) : Z := if decide (x = 5%nat) then 1 else 0.

Lemma small_counts q : (∀ x, refs x q = 0) → heap_counts small_heap (λ x, refs x q + one_ext x).
Proof.
  intros Hq x. unfold small_heap, one_ext. rewrite Hq. destruct (decide (x = 5%nat)) as [->|Hne].
  - rewrite lookup_singleton_eq. cbn. ints. lia.
  - by rewrite lookup_singleton_ne.
Qed.

Lemma mbuf_refines_queue_witness :
  ∃ ms ms' h', mbuf_init 2 = Ret ms ∧
    mbuf_add_item (MI (Some 5%nat) (Some 9%nat)) ms small_heap = Ret (ms', h') ∧
    queue_is ms' [Some (5%nat, 9%nat)].
Proof.
  destruct (mbuf_init_ok 2) as (ms & E & Hq & Hc); [vm_compute; split; congruence|].
  assert (ms_capacity ms = 2) as Hcap by (injection E as <-; reflexivity).
  destruct (mbuf_refines_queue ms [] small_heap one_ext Hq) as (_ & _ & Ha & _).
  - intros x. unfold one_ext. case_decide; lia.
  - by apply small_counts.
  - destruct (Ha 5%nat 9%nat []) as (ms' & h' & E' & Hq' & _).
    + vm_compute. reflexivity.
    + vm_compute. reflexivity.
    + unfold make_room. rewrite Hcap. reflexivity.
    + exists ms, ms', h'. split; [exact E|]. split; [exact E'|exact Hq'].
Defined.

Definition gone_set : mbuf_set := MS 1 2 2 2 [Some (MI None None); Some (MI None None)].

Lemma mbuf_full_of_gone_aborts_witness :
  mbuf_add_item (MI (Some 5%nat) (Some 9%nat)) gone_set small_heap = Abort.
Proof.
  apply (mbuf_full_of_gone_aborts gone_set [None; None] small_heap one_ext 5%nat 9%nat).
  - exists 1. split; [lia|]. split; [reflexivity|]. split; [reflexivity|]. split; [cbn; lia|].
    split; [reflexivity|]. split; [cbn; lia|]. intros [|[|i]] e He; [|..|done]; injection He as <-; reflexivity.
  - intros x. unfold one_ext. case_decide; lia.
  - by apply small_counts.
  - vm_compute. reflexivity.
  - vm_compute. reflexivity.
  - reflexivity.
  - intros e He. apply elem_of_cons in He as [->|He]; [done|]. by apply list_elem_of_singleton in He.
Defined.
