(* ===== verification/OvpnTime.v ===== *)
(** * OpenVPN: clocks, time arithmetic and rate limits

    Models [openvpn/src/src/openvpn/otime.h] and [otime.c], the [struct interval] of
    [interval.h] and the delays of [shaper.h] and [shaper.c].

    [time_t] is wide enough not to overflow: the seconds are integers.  The globals
    [now], [now_adj] and [now_usec] are a [clock]; what the system's clock says is an
    argument. *)
From Stdlib Require Import Sorted.
From S2P Require Import Prelude OvpnBuffer OvpnFrame.
#[local] Open Scope bool_scope.
#[local] Open Scope Z_scope.

(** ** [struct timeval] *)

Record timeval := TV { tv_sec : Z; tv_usec : Z }.

Definition tv_subtract (tv1 tv2 : timeval) (max_seconds : Z) : outcome Z :=
  max_usec ← int (s32 (u32 (max_seconds * 1000000)));
  let sec_diff := s32 (tv_sec tv1 - tv_sec tv2) in
  bound ← int (s32 max_seconds + 10);
  if decide (sec_diff > bound) then Ret max_usec
  else if decide (sec_diff < - bound) then Ret (- max_usec)
  else
    d ← int (sec_diff * 1000000);
    Ret (constrain_int (s32 (d + (tv_usec tv1 - tv_usec tv2))) (- max_usec) max_usec).

Definition TV_WITHIN_SIGMA_MAX_SEC : Z := 600.
Definition tv_within_sigma (t1 t2 : timeval) (sigma : Z) : outcome bool :=
  delta ← tv_subtract t1 t2 TV_WITHIN_SIGMA_MAX_SEC;
  Ret (bool_decide (- s32 sigma ≤ delta ∧ delta ≤ s32 sigma)).

Definition tv_add (dest src : timeval) : timeval :=
  let sec := tv_sec dest + tv_sec src in
  let usec := tv_usec dest + tv_usec src in
  let sec := sec + Z.shiftr usec 20 in
  let usec := Z.land usec 1048575 in
  if decide (usec >= 1000000) then TV (sec + 1) (usec - 1000000) else TV sec usec.

Definition tv_lt (t1 t2 : timeval) : bool :=
  if decide (tv_sec t1 < tv_sec t2) then true
  else if decide (tv_sec t1 > tv_sec t2) then false
  else bool_decide (tv_usec t1 < tv_usec t2).

Definition tv_le (t1 t2 : timeval) : bool :=
  if decide (tv_sec t1 < tv_sec t2) then true
  else if decide (tv_sec t1 > tv_sec t2) then false
  else bool_decide (tv_usec t1 ≤ tv_usec t2).
Definition tv_ge (t1 t2 : timeval) : bool :=
  if decide (tv_sec t1 > tv_sec t2) then true
  else if decide (tv_sec t1 < tv_sec t2) then false
  else bool_decide (tv_usec t1 >= tv_usec t2).
Definition tv_gt (t1 t2 : timeval) : bool :=
  if decide (tv_sec t1 > tv_sec t2) then true
  else if decide (tv_sec t1 < tv_sec t2) then false
  else bool_decide (tv_usec t1 > tv_usec t2).
Definition tv_eq (t1 t2 : timeval) : bool :=
  bool_decide (tv_sec t1 = tv_sec t2) && bool_decide (tv_usec t1 = tv_usec t2).

Definition tv_clear : timeval := TV 0 0.
Definition tv_defined (tv : timeval) : bool := bool_decide (tv_sec tv > 0) && bool_decide (tv_usec tv > 0).

(** The loop of [tv_delta]. *)
Definition tv_delta_body (st : Z * Z) : outcome (Z * Z + Z * Z) :=
  let '(sec, usec) := st in
  if decide (usec < 0) then
    usec ← int (usec + 1000000);
    sec ← int (sec - 1);
    Ret (inl (sec, usec))
  else Ret (inr (sec, usec)).
Definition tv_delta (fuel : nat) (t1 t2 : timeval) : outcome timeval :=
  '(sec, usec) ← loop fuel tv_delta_body (s32 (tv_sec t2 - tv_sec t1), s32 (tv_usec t2 - tv_usec t1));
  Ret (if decide (sec < 0) then TV 0 0 else TV sec usec).

(** ** The clock, with [TIME_BACKTRACK_PROTECTION] *)

Record clock := Clock { now : Z; now_adj : Z; now_usec : Z }.

Definition forward_threshold : Z := 86400.
Definition backward_trigger : Z := 10.
Definition update_now (system_time : Z) (c : clock) : clock :=
  let real_time := system_time + now_adj c in
  if decide (real_time > now c) then
    let overshoot := real_time - now c - 1 in
    if decide (overshoot > forward_threshold ∧ now_adj c >= overshoot)
    then Clock (real_time - overshoot) (now_adj c - overshoot) (now_usec c)
    else Clock real_time (now_adj c) (now_usec c)
  else if decide (real_time < now c - backward_trigger)
  then Clock (now c) (now_adj c + (now c - real_time)) (now_usec c)
  else c.

Definition update_now_usec (tv : timeval) (c : clock) : clock :=
  let last := now c in
  let c := update_now (tv_sec tv) c in
  if decide (now c > last ∨ (now c = last ∧ tv_usec tv > now_usec c))
  then Clock (now c) (now_adj c) (tv_usec tv) else c.

(** With the time of the system, [None] when [gettimeofday] fails: what it leaves in
    [tv], and the status. *)
Definition openvpn_gettimeofday (sys : option timeval) (tv : timeval) (c : clock) : bool * timeval * clock :=
  match sys with
  | None => (false, tv, c)
  | Some t => let c := update_now_usec t c in (true, TV (now c) (now_usec c), c)
  end.
Definition update_time (system_time : Z) (c : clock) : clock := update_now system_time c.
Definition openvpn_time (system_time : Z) (c : clock) : Z * clock :=
  let c := update_time system_time c in (now c, c).

(** ** [struct frequency_limit] *)

Record frequency_limit := FL { fl_max : Z; fl_per : Z; fl_n : Z; fl_reset : Z }.

Definition frequency_limit_init (max per : Z) : outcome frequency_limit :=
  _ ← ASSERT (max >= 0 ∧ per >= 0);
  Ret (FL max per 0 0).
Definition frequency_limit_event_allowed (now : Z) (f : frequency_limit) : outcome (bool * frequency_limit) :=
  if decide (fl_per f ≠ 0) then
    let f := if decide (now >= fl_reset f + fl_per f) then FL (fl_max f) (fl_per f) 0 now else f in
    n ← int (fl_n f + 1);
    Ret (bool_decide (n ≤ fl_max f), FL (fl_max f) (fl_per f) n (fl_reset f))
  else Ret (true, f).

(** ** [struct interval] *)

Record interval := Interval {
  refresh : Z;
  horizon : Z;
  future_trigger : Z;
  last_action : Z;
  last_test_true : Z;
}.

Definition interval_init (horizon refresh : Z) : interval := Interval refresh horizon 0 0 0.

Definition interval_test (now : Z) (top : interval) : bool * interval :=
  let trigger := bool_decide (future_trigger top ≠ 0 ∧ now >= future_trigger top) in
  let top := if trigger then Interval (refresh top) (horizon top) 0 (last_action top) (last_test_true top) else top in
  if decide (last_action top + horizon top > now ∨ last_test_true top + refresh top ≤ now ∨ trigger = true)
  then (true, Interval (refresh top) (horizon top) (future_trigger top) (last_action top) now)
  else (false, top).

(** The new [*wakeup]. *)
Definition interval_earliest_wakeup (wakeup at_ current : Z) : Z :=
  if decide (at_ > current) then
    let delta := s32 (at_ - current) in
    let wakeup := if decide (delta < wakeup) then delta else wakeup in
    if decide (wakeup < 0) then 0 else wakeup
  else wakeup.
Definition interval_schedule_wakeup (now : Z) (top : interval) (wakeup : Z) : Z :=
  let wakeup := interval_earliest_wakeup wakeup (last_test_true top + refresh top) now in
  interval_earliest_wakeup wakeup (future_trigger top) now.
Definition interval_future_trigger (now wakeup : Z) (top : interval) : interval :=
  if decide (wakeup ≠ 0)
  then Interval (refresh top) (horizon top) (now + wakeup) (last_action top) (last_test_true top)
  else top.
Definition interval_action (now : Z) (top : interval) : interval :=
  Interval (refresh top) (horizon top) (future_trigger top) now (last_test_true top).

(** ** The shaper *)

(** [if (delay < tv) tv = delay]: the time to wait, and whether it changed. *)
Definition shaper_soonest_event (tv : timeval) (delay : Z) : bool * timeval :=
  if decide (delay < 1000000) then
    if decide (tv_sec tv ≠ 0) then (true, TV 0 delay)
    else if decide (delay < tv_usec tv) then (true, TV (tv_sec tv) delay)
    else (false, tv)
  else
    let sec := Z.quot delay 1000000 in
    let usec := Z.rem delay 1000000 in
    if decide (sec < tv_sec tv) then (true, TV sec usec)
    else if decide (sec = tv_sec tv) then
      if decide (usec < tv_usec tv) then (true, TV (tv_sec tv) usec) else (false, tv)
    else (false, tv).

Definition SHAPER_MIN : Z := 100.
Definition SHAPER_MAX : Z := 100000000.
Definition SHAPER_MAX_TIMEOUT : Z := 10.

(** [factor] is [1000000.0 / bytes_per_second], a [double]. *)
Section shaper.
Context {double : Type} (divide : Z → double) (times : Z → double → Z).

Record shaper := Shaper { bytes_per_second : Z; wakeup : timeval; factor : double }.

Definition shaper_reset (s : shaper) (bps : Z) : shaper :=
  let bps := if decide (bps ≠ 0) then constrain_int bps SHAPER_MIN SHAPER_MAX else 0 in
  Shaper bps (wakeup s) (divide bps).
Definition shaper_reset_wakeup (s : shaper) : shaper := Shaper (bytes_per_second s) (TV 0 0) (factor s).
Definition shaper_init (s : shaper) (bps : Z) : shaper := shaper_reset_wakeup (shaper_reset s bps).

Definition shaper_delay (sys : option timeval) (s : shaper) (c : clock) : outcome (Z * clock) :=
  if tv_defined (wakeup s) then
    let '(ok, tv, c) := openvpn_gettimeofday sys (TV 0 0) c in
    _ ← ASSERT (ok = true);
    delay ← tv_subtract (wakeup s) tv SHAPER_MAX_TIMEOUT;
    Ret (if decide (delay > 0) then delay else 0, c)
  else Ret (0, c).

Definition shaper_wrote_bytes (nbytes : Z) (sys : option timeval) (s : shaper) (c : clock) : outcome (shaper * clock) :=
  let usec := min_int (times (max_int nbytes 100) (factor s)) (SHAPER_MAX_TIMEOUT * 1000000) in
  if decide (usec ≠ 0) then
    let '(ok, tv, c) := openvpn_gettimeofday sys (wakeup s) c in
    _ ← ASSERT (ok = true);
    Ret (Shaper (bytes_per_second s) (tv_add tv (TV 0 usec)) (factor s), c)
  else Ret (s, c).
End shaper.

(** The answers to a sequence of events, at these times. *)
Fixpoint allowed (ts : list Z) (f : frequency_limit) : outcome (list bool * frequency_limit) :=
  match ts with
  | [] => Ret ([], f)
  | t :: ts =>
      '(b, f) ← frequency_limit_event_allowed t f;
      '(bs, f) ← allowed ts f;
      Ret (b :: bs, f)
  end.
(** What the clock says after each reading of the system's. *)
Fixpoint readings (ts : list Z) (c : clock) : list Z :=
  match ts with
  | [] => []
  | t :: ts => let '(t', c) := openvpn_time t c in t' :: readings ts c
  end.

(** ** Lemmas *)

Definition us (tv : timeval) : Z := tv_sec tv * 1000000 + tv_usec tv.

Lemma update_now_mono t c : now c ≤ now (update_now t c).
Proof. unfold update_now. repeat case_decide; cbn; lia. Qed.

Lemma readings_ge ts c : Forall (λ t, now c ≤ t) (readings ts c).
Proof.
  revert c. induction ts as [|t ts IH]; intros c; [constructor|]. cbn.
  pose proof (update_now_mono t c) as Hm. constructor; [done|].
  eapply Forall_impl; [apply IH|]. cbn. unfold update_time. lia.
Qed.

Lemma event_allowed_ok t f :
  fl_per f ≠ 0 → 0 ≤ fl_n f < INT_MAX →
  let f' := if decide (t >= fl_reset f + fl_per f) then FL (fl_max f) (fl_per f) 1 t
            else FL (fl_max f) (fl_per f) (fl_n f + 1) (fl_reset f) in
  frequency_limit_event_allowed t f = Ret (bool_decide (fl_n f' ≤ fl_max f), f').
Proof.
  intros Hp Hn. unfold frequency_limit_event_allowed. rewrite (decide_True (P := fl_per f ≠ 0)) by done. cbv zeta.
  destruct (decide (t >= fl_reset f + fl_per f)); cbn [fl_n fl_max fl_per fl_reset];
    (rewrite int_ok by (ints; lia)); by bret.
Qed.

Definition count (bs : list bool) : Z := foldr Z.add 0 (map c_bool bs).

(** Once the count has been reset at or after the start of the window, it is not reset
    again in the window. *)
Lemma allowed_bound w ts : ∀ f bs f',
  fl_per f > 0 → 0 ≤ fl_max f → 0 ≤ fl_n f → fl_n f + Z.of_nat (length ts) ≤ INT_MAX →
  Forall (λ t, w ≤ t < w + fl_per f) ts →
  allowed ts f = Ret (bs, f') →
  count bs ≤ Z.max 0 (fl_max f - fl_n f) + if decide (w ≤ fl_reset f) then 0 else fl_max f.
Proof.
  induction ts as [|t ts IH]; intros f bs f' Hp Hm Hn Hl Hw H.
  { injection H as <- <-. cbn. case_decide; lia. }
  cbn [length] in Hl. apply Forall_cons in Hw as [Ht Hw]. cbn [allowed] in H.
  rewrite event_allowed_ok in H by (ints; lia). rewrite bind_Ret in H. cbv beta iota in H. inv_bind.
  destruct x as [bs1 f1]. cbv beta iota in *. inv_bind. simplify_eq.
  unfold count. cbn [map foldr]. fold (count bs1). destruct (decide (t >= fl_reset f + fl_per f)).
  - apply IH in H; cbn [fl_n fl_max fl_per fl_reset] in *; try lia; [|done].
    rewrite (decide_True (P := w ≤ t)) in H by lia. rewrite (decide_False (P := w ≤ fl_reset f)) by lia.
    unfold c_bool. case_bool_decide; lia.
  - apply IH in H; cbn [fl_n fl_max fl_per fl_reset] in *; try lia; [|done].
    unfold c_bool. case_bool_decide; lia.
Qed.

(** ** Properties *)

(** Tv_add adds exactly while the microseconds sum to less than 2^20; beyond, each
    carried second is worth 2^20 microseconds instead of a million, and the result
    falls short by 48576 microseconds for each. *)
Theorem tv_add_correct dest src :
  0 ≤ tv_usec dest + tv_usec src →
  us (tv_add dest src) = us dest + us src - 48576 * ((tv_usec dest + tv_usec src) / 2 ^ 20) ∧
  0 ≤ tv_usec (tv_add dest src) < 1000000.
Proof.
  intros Hu. unfold tv_add, us. set (u := tv_usec dest + tv_usec src) in *.
  change 1048575 with (Z.ones 20). rewrite Z.land_ones, Z.shiftr_div_pow2 by lia.
  pose proof (Z.div_mod u (2 ^ 20) ltac:(lia)) as Hdm. pose proof (Z.mod_pos_bound u (2 ^ 20) ltac:(lia)) as Hmod.
  change (2 ^ 20) with 1048576 in *. destruct (decide (u mod 1048576 >= 1000000)); cbn [tv_sec tv_usec]; lia.
Qed.

Lemma tv_add_correct_witness :
  us (tv_add (TV 1 600000) (TV 2 600000)) = 4200000 - 48576 ∧
  0 ≤ tv_usec (tv_add (TV 1 600000) (TV 2 600000)) < 1000000.
Proof. apply (tv_add_correct (TV 1 600000) (TV 2 600000)). vm_compute. discriminate. Defined.

(** Whatever the system's clock does, the program's clock never goes back; while
    the system's clock advances it follows exactly, and a jump back of more than ten
    seconds is made up for at the next reading. *)
Theorem clock_never_goes_back c ts :
  StronglySorted Z.le (now c :: readings ts c) ∧
  ∀ t d, 0 < d ≤ forward_threshold →
    (t + now_adj c = now c → now (update_now (t + d) c) = now c + d) ∧
    (t + now_adj c < now c - backward_trigger → now (update_now (t + d) (update_now t c)) = now c + d).
Proof.
  split.
  - revert c. induction ts as [|t ts IH]; intros c; [repeat constructor|].
    constructor; [|apply readings_ge]. cbn [readings openvpn_time]. apply IH.
  - intros t d Hd. unfold forward_threshold, backward_trigger in *. split; intros Ht.
    + unfold update_now, forward_threshold, backward_trigger. repeat case_decide; cbn in *; lia.
    + assert (update_now t c = Clock (now c) (now_adj c + (now c - (t + now_adj c))) (now_usec c)) as ->.
      { unfold update_now, forward_threshold, backward_trigger. repeat case_decide; cbn in *; try lia. done. }
      unfold update_now, forward_threshold, backward_trigger. cbn [now now_adj now_usec].
      repeat case_decide; cbn in *; lia.
Qed.

(** Of the events in any stretch of time as long as the period, a frequency limit
    lets at most twice its maximum through, and at most the maximum from its start. *)
Theorem frequency_limit_bounds f w ts bs f' :
  fl_per f > 0 → 0 ≤ fl_max f → 0 ≤ fl_n f → fl_n f + Z.of_nat (length ts) ≤ INT_MAX →
  Forall (λ t, w ≤ t < w + fl_per f) ts → allowed ts f = Ret (bs, f') →
  count bs ≤ 2 * fl_max f ∧ (w = fl_reset f → count bs ≤ fl_max f).
Proof.
  intros Hp Hm Hn Hl Hw H. pose proof (allowed_bound w ts f bs f' Hp Hm Hn Hl Hw H) as Hb.
  case_decide; lia.
Qed.

(** Shaper_soonest_event makes the time to wait the smaller of the two. *)
Theorem shaper_soonest_event_correct tv delay :
  0 ≤ tv_sec tv → 0 ≤ tv_usec tv < 1000000 → 0 ≤ delay ≤ INT_MAX →
  us (shaper_soonest_event tv delay).2 = Z.min (us tv) delay ∧
  (shaper_soonest_event tv delay).1 = bool_decide (delay < us tv).
Proof.
  intros Hs Hu Hd. ints. unfold shaper_soonest_event, us.
  rewrite Z.quot_div_nonneg, Z.rem_mod_nonneg by lia.
  pose proof (Z.div_mod delay 1000000 ltac:(lia)). pose proof (Z.mod_pos_bound delay 1000000 ltac:(lia)).
  repeat case_decide; cbn [fst snd tv_sec tv_usec]; (split; [lia|]); symmetry;
    first [apply bool_decide_eq_true; lia|apply bool_decide_eq_false; lia].
Qed.

Lemma clock_never_goes_back_witness :
  StronglySorted Z.le (now (Clock 1000 0 0) :: readings [1001; 900; 901] (Clock 1000 0 0)) ∧
  now (update_now 901 (update_now 900 (Clock 1000 0 0))) = 1001.
Proof.
  destruct (clock_never_goes_back (Clock 1000 0 0) [1001; 900; 901]) as [H1 H2].
  split; [exact H1|]. apply (H2 900 1); vm_compute; [split; congruence|reflexivity].
Defined.

Lemma frequency_limit_bounds_witness :
  count [true; false; true; false] ≤ 2 * 1 ∧ (105 = 100 → count [true; false; true; false] ≤ 1).
Proof.
  apply (frequency_limit_bounds (FL 1 10 0 100) 105 [106; 107; 112; 113] [true; false; true; false] (FL 1 10 2 112)).
  - reflexivity.
  - discriminate.
  - discriminate.
  - vm_compute. discriminate.
  - repeat constructor; vm_compute; congruence.
  - reflexivity.
Defined.

Lemma shaper_soonest_event_correct_witness :
  us (shaper_soonest_event (TV 5 3) 2500000).2 = 2500000 ∧ (shaper_soonest_event (TV 5 3) 2500000).1 = true.
Proof. apply (shaper_soonest_event_correct (TV 5 3) 2500000); vm_compute; intuition congruence. Defined.
