(* ===== verification/OvpnSchedule.v ===== *)
(** * OpenVPN: the scheduler

    Models [openvpn/src/src/openvpn/schedule.c] and [schedule.h], the treap of
    the wakeup times of clients.

    Entries are the nodes of a heap; a [struct schedule_entry *] is a name, and a
    null pointer [None].  [random] is the sequence of the draws of the C function.
    The loops of the treap take their number of rounds as an argument; the theorems
    say that enough rounds give the result. *)
From stdpp Require Import gmap.
From S2P Require Import Prelude OvpnTime.
#[local] Open Scope bool_scope.
#[local] Open Scope Z_scope.

(** ** The treap *)

Record schedule_entry := SE {
  se_tv : timeval;
  se_pri : Z;
  se_parent : option nat;
  se_lt : option nat;
  se_gt : option nat;
}.

(** With the heap the entries live in, and the number of draws so far. *)
Record schedule := Sched {
  s_earliest_wakeup : option nat;
  s_root : option nat;
  s_mem : gmap nat schedule_entry;
  s_draws : nat;
}.

Definition schedule_init (mem : gmap nat schedule_entry) (draws : nat) : schedule := Sched None None mem draws.

Definition get (e : nat) (s : schedule) : outcome schedule_entry := of_option (s_mem s !! e).
Definition upd (e : nat) (f : schedule_entry → schedule_entry) (s : schedule) : outcome schedule :=
  x ← get e s;
  Ret (Sched (s_earliest_wakeup s) (s_root s) (<[e := f x]> (s_mem s)) (s_draws s)).

Definition set_parent (p : option nat) (x : schedule_entry) : schedule_entry :=
  SE (se_tv x) (se_pri x) p (se_lt x) (se_gt x).
Definition set_lt (p : option nat) (x : schedule_entry) : schedule_entry :=
  SE (se_tv x) (se_pri x) (se_parent x) p (se_gt x).
Definition set_gt (p : option nat) (x : schedule_entry) : schedule_entry :=
  SE (se_tv x) (se_pri x) (se_parent x) (se_lt x) p.
Definition set_pri (n : Z) (x : schedule_entry) : schedule_entry :=
  SE (se_tv x) n (se_parent x) (se_lt x) (se_gt x).
Definition set_tv (t : timeval) (x : schedule_entry) : schedule_entry :=
  SE t (se_pri x) (se_parent x) (se_lt x) (se_gt x).
Definition set_root (r : option nat) (s : schedule) : schedule :=
  Sched (s_earliest_wakeup s) r (s_mem s) (s_draws s).
Definition set_earliest (r : option nat) (s : schedule) : schedule :=
  Sched r (s_root s) (s_mem s) (s_draws s).

Definition schedule_entry_compare (e1 e2 : schedule_entry) : Z :=
  if decide (tv_sec (se_tv e1) < tv_sec (se_tv e2)) then -1
  else if decide (tv_sec (se_tv e1) > tv_sec (se_tv e2)) then 1
  else if decide (tv_usec (se_tv e1) < tv_usec (se_tv e2)) then -1
  else if decide (tv_usec (se_tv e1) > tv_usec (se_tv e2)) then 1
  else if decide (se_pri e1 < se_pri e2) then -1
  else if decide (se_pri e1 > se_pri e2) then 1
  else 0.

Definition schedule_detach_parent (e : option nat) (s : schedule) : outcome schedule :=
  match e with
  | None => Ret s
  | Some e =>
      x ← get e s;
      match se_parent x with
      | Some p =>
          y ← get p s;
          s ← (if decide (se_lt y = Some e) then upd p (set_lt None) s
               else if decide (se_gt y = Some e) then upd p (set_gt None) s
               else Abort);
          upd e (set_parent None) s
      | None => Ret (if decide (s_root s = Some e) then set_root None s else s)
      end
  end.

Definition schedule_rotate_up (e : option nat) (s : schedule) : outcome schedule :=
  match e with
  | None => Ret s
  | Some e =>
      x ← get e s;
      match se_parent x with
      | None => Ret s
      | Some p =>
          let lt := se_lt x in
          let gt := se_gt x in
          y ← get p s;
          let gp := se_parent y in
          s ← (match gp with
               | Some g =>
                   z ← get g s;
                   if decide (se_gt z = Some p) then upd g (set_gt (Some e)) s
                   else if decide (se_lt z = Some p) then upd g (set_lt (Some e)) s
                   else Abort
               | None => Ret (set_root (Some e) s)
               end);
          s ← upd e (set_parent gp) s;
          s ← upd p (set_parent (Some e)) s;
          y ← get p s;
          if decide (se_gt y = Some e) then
            s ← upd e (set_lt (Some p)) s;
            s ← upd p (set_gt lt) s;
            match lt with Some c => upd c (set_parent (Some p)) s | None => Ret s end
          else if decide (se_lt y = Some e) then
            s ← upd e (set_gt (Some p)) s;
            s ← upd p (set_lt gt) s;
            match gt with Some c => upd c (set_parent (Some p)) s | None => Ret s end
          else Abort
      end
  end.

(** One round of the deletion; [inr] when [e] has no child. *)
Definition remove_body (e : nat) (s : schedule) : outcome (schedule + schedule) :=
  x ← get e s;
  match se_lt x, se_gt x with
  | None, None => Ret (inr s)
  | Some l, Some g =>
      y ← get l s;
      z ← get g s;
      s ← schedule_rotate_up (Some (if decide (se_pri y < se_pri z) then l else g)) s;
      Ret (inl s)
  | Some l, None => s ← schedule_rotate_up (Some l) s; Ret (inl s)
  | None, Some g => s ← schedule_rotate_up (Some g) s; Ret (inl s)
  end.
Definition schedule_remove_node (fuel : nat) (e : nat) (s : schedule) : outcome schedule :=
  s ← loop fuel (remove_body e) s;
  s ← schedule_detach_parent (Some e) s;
  upd e (set_pri 0) s.

Section random.
Context (random : nat → Z).

Definition schedule_set_pri (e : nat) (s : schedule) : outcome schedule :=
  let r := u32 (random (s_draws s)) in
  s ← upd e (set_pri (if decide (r < 1) then 1 else r)) s;
  Ret (Sched (s_earliest_wakeup s) (s_root s) (s_mem s) (S (s_draws s))).

(** At the node [c]. *)
Definition insert_body (e : nat) (st : nat * schedule) : outcome (nat * schedule + schedule) :=
  let '(c, s) := st in
  x ← get e s;
  y ← get c s;
  let comp := schedule_entry_compare x y in
  if decide (comp = -1) then
    match se_lt y with
    | Some l => Ret (inl (l, s))
    | None => s ← upd c (set_lt (Some e)) s; s ← upd e (set_parent (Some c)) s; Ret (inr s)
    end
  else if decide (comp = 1) then
    match se_gt y with
    | Some g => Ret (inl (g, s))
    | None => s ← upd c (set_gt (Some e)) s; s ← upd e (set_parent (Some c)) s; Ret (inr s)
    end
  else
    s ← schedule_set_pri e s;
    r ← of_option (s_root s);
    Ret (inl (r, s)).
Definition schedule_insert (fuel : nat) (e : nat) (s : schedule) : outcome schedule :=
  r ← of_option (s_root s);
  loop fuel (insert_body e) (r, s).

Definition up_body (e : nat) (s : schedule) : outcome (schedule + schedule) :=
  x ← get e s;
  match se_parent x with
  | Some p =>
      y ← get p s;
      if decide (se_pri y > se_pri x) then s ← schedule_rotate_up (Some e) s; Ret (inl s)
      else Ret (inr s)
  | None => Ret (inr s)
  end.

Definition schedule_add_modify (fuel : nat) (e : nat) (s : schedule) : outcome schedule :=
  x ← get e s;
  s ← (if decide (se_pri x ≠ 0) then schedule_remove_node fuel e s else Ret s);
  s ← schedule_set_pri e s;
  s ← (match s_root s with
       | Some _ => schedule_insert fuel e s
       | None => Ret (set_root (Some e) s)
       end);
  loop fuel (up_body e) s.

Definition schedule_add_entry (fuel : nat) (e : nat) (tv : timeval) (sigma : Z) (s : schedule) :
    outcome schedule :=
  x ← get e s;
  again ← (if decide (se_pri x = 0 ∨ sigma = 0) then Ret true
           else near ← tv_within_sigma tv (se_tv x) sigma; Ret (negb near));
  if again : bool then
    s ← upd e (set_tv tv) s;
    s ← schedule_add_modify fuel e s;
    Ret (set_earliest None s)
  else Ret s.
End random.

Definition schedule_remove_entry (fuel : nat) (e : nat) (s : schedule) : outcome schedule :=
  schedule_remove_node fuel e (set_earliest None s).

(** [inl] goes on to the left child. *)
Definition least_body (s : schedule) (e : nat) : outcome (nat + nat) :=
  x ← get e s;
  Ret (match se_lt x with Some l => inl l | None => inr e end).
Definition schedule_find_least (fuel : nat) (e : option nat) (s : schedule) : outcome (option nat) :=
  match e with
  | Some e => r ← loop fuel (least_body s) e; Ret (Some r)
  | None => Ret None
  end.

(** The entry, with its wakeup time. *)
Definition schedule_get_earliest_wakeup (fuel : nat) (s : schedule) :
    outcome (option (nat * timeval) * schedule) :=
  s ← (match s_earliest_wakeup s with
       | None => r ← schedule_find_least fuel (s_root s) s; Ret (set_earliest r s)
       | Some _ => Ret s
       end);
  match s_earliest_wakeup s with
  | Some e => x ← get e s; Ret (Some (e, se_tv x), s)
  | None => Ret (None, s)
  end.

(** ** The self check, of [SCHEDULE_TEST] *)

(** The assertions on the left and on the right child [c] of [e]. *)
Definition check_child (s : schedule) (e : nat) (x : schedule_entry) (c : option nat) (left : bool) : outcome unit :=
  match c with
  | None => Ret tt
  | Some c =>
      y ← get c s;
      _ ← ASSERT (se_parent y = Some e);
      _ ← (if left then ASSERT (schedule_entry_compare y x = -1) else ASSERT (schedule_entry_compare y x ≠ 0));
      ASSERT (se_pri y >= se_pri x)
  end.

(** With the depth returned, [*count] and [*least]. *)
Fixpoint schedule_debug_entry (fuel : nat) (s : schedule) (e : option nat) (depth count : Z)
    (least min max : timeval) : outcome (Z * Z * timeval) :=
  match fuel, e with
  | O, _ => NoFuel
  | S _, None => Ret (depth, count, least)
  | S fuel, Some e =>
      x ← get e s;
      _ ← ASSERT (Some e ≠ se_lt x);
      _ ← ASSERT (Some e ≠ se_gt x);
      _ ← ASSERT (Some e ≠ se_parent x);
      _ ← ASSERT (se_parent x = None ∨ se_parent x ≠ se_lt x);
      _ ← ASSERT (se_parent x = None ∨ se_parent x ≠ se_gt x);
      _ ← ASSERT (se_lt x = None ∨ se_lt x ≠ se_gt x);
      _ ← check_child s e x (se_lt x) true;
      _ ← check_child s e x (se_gt x) false;
      _ ← ASSERT (tv_le min (se_tv x) = true);
      _ ← ASSERT (tv_le (se_tv x) max = true);
      count ← int (count + 1);
      let least := if tv_lt (se_tv x) least then se_tv x else least in
      depth' ← int (depth + 1);
      '(d, count, least) ← schedule_debug_entry fuel s (se_lt x) depth' count least min (se_tv x);
      let maxdepth := if decide (d > depth) then d else depth in
      '(d, count, least) ← schedule_debug_entry fuel s (se_gt x) depth' count least (se_tv x) max;
      Ret (if decide (d > maxdepth) then d else maxdepth, count, least)
  end.
Definition schedule_debug (fuel : nat) (s : schedule) (count : Z) (least : timeval) : outcome (Z * Z * timeval) :=
  _ ← (match s_root s with
       | Some r => x ← get r s; ASSERT (se_parent x = None)
       | None => Ret tt
       end);
  schedule_debug_entry fuel s (s_root s) 0 count least (TV 0 0) (TV 0x7FFFFFFF 0x7FFFFFFF).
