(* ===== verification/OvpnScheduleProofs.v ===== *)
(** * OpenVPN: the scheduler, proved

    The heap of entries holds a binary tree ([treap_at]): [links] lists the three
    pointers each node must have, a zipper ([frame]) splits the tree at the node an
    operation works on, and the operations are steps on the zipper: [rotate_up_at],
    [remove_node_at], [insert_at] and [climb_at].  The order of the keys is that of
    the nodes from left to right ([ids]), which a rotation does not change; the order
    of the priorities is [heap_from]. *)
From Stdlib Require Import Sorted.
From stdpp Require Import gmap.
From S2P Require Import Prelude OvpnTime OvpnSchedule.
#[local] Open Scope bool_scope.
#[local] Open Scope Z_scope.

(** ** Trees and zippers *)

Inductive tree := L | N (l : tree) (e : nat) (r : tree).

Definition root (t : tree) : option nat := match t with L => None | N _ e _ => Some e end.
Fixpoint ids (t : tree) : list nat := match t with L => [] | N l e r => ids l ++ e :: ids r end.
Fixpoint size (t : tree) : nat := match t with L => 0 | N l _ r => S (size l + size r) end.

(** A node, the side of the hole below it ([true]: the left one), and the other child. *)
Record frame := F { f_left : bool; f_id : nat; f_sib : tree }.

Definition frame_in (fr : frame) (t : tree) : tree :=
  if f_left fr then N t (f_id fr) (f_sib fr) else N (f_sib fr) (f_id fr) t.
(** The innermost frame comes first. *)
Fixpoint plug (c : list frame) (t : tree) : tree :=
  match c with [] => t | fr :: c => plug c (frame_in fr t) end.

Fixpoint ids_left (c : list frame) : list nat :=
  match c with
  | [] => []
  | F true _ _ :: c => ids_left c
  | F false e t :: c => ids_left c ++ ids t ++ [e]
  end.
Fixpoint ids_right (c : list frame) : list nat :=
  match c with
  | [] => []
  | F true e t :: c => e :: ids t ++ ids_right c
  | F false _ _ :: c => ids_right c
  end.

Lemma ids_plug c t : ids (plug c t) = ids_left c ++ ids t ++ ids_right c.
Proof.
  revert t. induction c as [|[[] e s] c IH]; intros t; cbn.
  - by rewrite app_nil_r.
  - rewrite IH. cbn. by rewrite <- !app_assoc.
  - rewrite IH. cbn. by rewrite <- !app_assoc.
Qed.

Lemma size_ids t : length (ids t) = size t.
Proof. induction t as [|l IHl e r IHr]; [done|]. cbn. rewrite length_app. cbn. lia. Qed.

(** ** The pointers *)

Definition link : Type := option nat * option nat * option nat.
Definition link_of (x : schedule_entry) : link := (se_parent x, se_lt x, se_gt x).

Fixpoint links (p : option nat) (t : tree) : list (nat * link) :=
  match t with
  | L => []
  | N l e r => (e, (p, root l, root r)) :: links (Some e) l ++ links (Some e) r
  end.
Definition parent_of (c : list frame) : option nat :=
  match c with [] => None | fr :: _ => Some (f_id fr) end.
(** Those of the frames, around a subtree whose root is [r]. *)
Fixpoint frame_links (c : list frame) (r : option nat) : list (nat * link) :=
  match c with
  | [] => []
  | F b e t :: c =>
      (e, (parent_of c, if b then r else root t, if b then root t else r))
      :: links (Some e) t ++ frame_links c (Some e)
  end.
Definition root_of (c : list frame) (r : option nat) : option nat :=
  match last c with None => r | Some fr => Some (f_id fr) end.

Definition sat (m : gmap nat schedule_entry) (ls : list (nat * link)) : Prop :=
  Forall (λ '(e, k), link_of <$> m !! e = Some k) ls.

Lemma sat_app m l1 l2 : sat m (l1 ++ l2) ↔ sat m l1 ∧ sat m l2.
Proof. apply Forall_app. Qed.
Lemma sat_cons m e k ls : sat m ((e, k) :: ls) ↔ link_of <$> m !! e = Some k ∧ sat m ls.
Proof. unfold sat. by rewrite Forall_cons. Qed.

Lemma root_of_cons fr c r : root_of (fr :: c) r = root_of c (Some (f_id fr)).
Proof. unfold root_of. rewrite last_cons. by destruct (last c). Qed.
Lemma root_plug c t : root (plug c t) = root_of c (root t).
Proof.
  revert t. induction c as [|fr c IH]; intros t; [done|]. cbn [plug]. rewrite IH.
  rewrite root_of_cons. by destruct fr as [[]].
Qed.

Lemma sat_plug m c t :
  sat m (links None (plug c t)) ↔ sat m (frame_links c (root t)) ∧ sat m (links (parent_of c) t).
Proof.
  revert t. induction c as [|[b e s] c IH]; intros t; cbn [plug frame_links parent_of].
  - split; [intros; split; [constructor|done]|by intros []].
  - rewrite IH, sat_cons, sat_app. destruct b; cbn [frame_in f_left f_id f_sib links root];
      rewrite sat_cons, sat_app; intuition.
Qed.

Lemma links_fst p t i k : (i, k) ∈ links p t → i ∈ ids t.
Proof.
  revert p. induction t as [|l IHl e r IHr]; intros p; cbn; [by rewrite elem_of_nil|].
  rewrite elem_of_cons, !elem_of_app, elem_of_cons. intros [[= -> ->]|[]]; eauto.
Qed.

(** What a list of pointers says of a node survives a change of others. *)
Lemma sat_ext m m' ls :
  (∀ i k, (i, k) ∈ ls → link_of <$> m' !! i = link_of <$> m !! i) → sat m ls → sat m' ls.
Proof.
  intros H HS. apply Forall_forall. intros [i k] Hi. rewrite (H _ _ Hi).
  by apply (proj1 (Forall_forall _ _) HS (i, k)).
Qed.
Lemma sat_links_ext m m' p t :
  (∀ i, i ∈ ids t → link_of <$> m' !! i = link_of <$> m !! i) → sat m (links p t) → sat m' (links p t).
Proof. intros H. apply sat_ext. intros i k Hi. by apply H, (links_fst p _ _ k). Qed.

Definition frame_ids (c : list frame) : list nat := ids_left c ++ ids_right c.
Lemma frame_ids_cons b e t c :
  frame_ids (F b e t :: c) ≡ₚ e :: ids t ++ frame_ids c.
Proof. unfold frame_ids. destruct b; cbn [ids_left ids_right]; solve_Permutation. Qed.
Lemma ids_plug_perm c t : ids (plug c t) ≡ₚ ids t ++ frame_ids c.
Proof. rewrite ids_plug. unfold frame_ids. solve_Permutation. Qed.

Lemma frame_links_fst c r i k : (i, k) ∈ frame_links c r → i ∈ frame_ids c.
Proof.
  revert r. induction c as [|[b e t] c IH]; intros r; cbn [frame_links]; [by rewrite elem_of_nil|].
  rewrite frame_ids_cons, !elem_of_cons, !elem_of_app. intros [[= -> _]|[Hi|Hi]]; [by left|..].
  - right. left. by apply (links_fst (Some e) _ _ k).
  - right. right. by apply (IH (Some e)).
Qed.
Lemma sat_frame_ext m m' c r :
  (∀ i, i ∈ frame_ids c → link_of <$> m' !! i = link_of <$> m !! i) →
  sat m (frame_links c r) → sat m' (frame_links c r).
Proof. intros H. apply sat_ext. intros i k Hi. by apply H, (frame_links_fst c r _ k). Qed.

(** ** Writes *)

Definition lk (m : gmap nat schedule_entry) (i : nat) : option link := link_of <$> m !! i.
Definition data (x : schedule_entry) : timeval * Z := (se_tv x, se_pri x).

Lemma get_lk s e p l g :
  lk (s_mem s) e = Some (p, l, g) →
  ∃ x, s_mem s !! e = Some x ∧ get e s = Ret x ∧ se_parent x = p ∧ se_lt x = l ∧ se_gt x = g.
Proof.
  unfold lk, get. destruct (s_mem s !! e) as [x|]; [|done]. cbn. intros [= <- <- <-]. by exists x.
Qed.
Lemma upd_alter s e f :
  is_Some (lk (s_mem s) e) →
  upd e f s = Ret (Sched (s_earliest_wakeup s) (s_root s) (alter f e (s_mem s)) (s_draws s)).
Proof.
  unfold lk, upd, get. destruct (s_mem s !! e) as [x|] eqn:E; cbn; intros [k Hk]; [|done].
  do 2 f_equal. apply map_eq. intros i. destruct (decide (i = e)) as [->|].
  - by rewrite lookup_insert_eq, lookup_alter_eq, E.
  - by rewrite lookup_insert_ne, lookup_alter_ne.
Qed.

Definition on_parent (q : option nat) (k : link) : link := let '(_, l, g) := k in (q, l, g).
Definition on_lt (q : option nat) (k : link) : link := let '(p, _, g) := k in (p, q, g).
Definition on_gt (q : option nat) (k : link) : link := let '(p, l, _) := k in (p, l, q).

Lemma lk_alter f h i j m :
  (∀ x, link_of (f x) = h (link_of x)) →
  lk (alter f i m) j = (if decide (j = i) then h <$> lk m j else lk m j).
Proof.
  intros Hf. unfold lk. destruct (decide (j = i)) as [->|]; [|by rewrite lookup_alter_ne].
  rewrite lookup_alter_eq. destruct (m !! i); cbn; [|done]. by rewrite Hf.
Qed.
Lemma lk_parent q i j m :
  lk (alter (set_parent q) i m) j = (if decide (j = i) then on_parent q <$> lk m j else lk m j).
Proof. by apply lk_alter. Qed.
Lemma lk_lt q i j m : lk (alter (set_lt q) i m) j = (if decide (j = i) then on_lt q <$> lk m j else lk m j).
Proof. by apply lk_alter. Qed.
Lemma lk_gt q i j m : lk (alter (set_gt q) i m) j = (if decide (j = i) then on_gt q <$> lk m j else lk m j).
Proof. by apply lk_alter. Qed.

(** Nothing but the pointers of the nodes in [js] differs. *)
Definition relinked (js : list nat) (s s' : schedule) : Prop :=
  s_earliest_wakeup s' = s_earliest_wakeup s ∧ s_draws s' = s_draws s ∧
  (∀ i, data <$> s_mem s' !! i = data <$> s_mem s !! i) ∧
  (∀ i, i ∉ js → s_mem s' !! i = s_mem s !! i).

Lemma relinked_refl js s : relinked js s s.
Proof. done. Qed.
Lemma relinked_trans js s1 s2 s3 : relinked js s1 s2 → relinked js s2 s3 → relinked js s1 s3.
Proof.
  intros (H1 & H2 & H3 & H4) (H5 & H6 & H7 & H8). repeat split.
  - by rewrite H5.
  - by rewrite H6.
  - intros i. by rewrite H7.
  - intros i Hi. by rewrite H8, H4.
Qed.
Lemma relinked_root js s r : relinked js s (set_root r s).
Proof. done. Qed.
Lemma relinked_alter js s e f :
  (∀ x, data (f x) = data x) → e ∈ js →
  relinked js s (Sched (s_earliest_wakeup s) (s_root s) (alter f e (s_mem s)) (s_draws s)).
Proof.
  intros Hf He. repeat split; cbn.
  - intros i. destruct (decide (i = e)) as [->|]; [|by rewrite lookup_alter_ne].
    rewrite lookup_alter_eq. destruct (s_mem s !! e); cbn; [|done]. by rewrite Hf.
  - intros i Hi. rewrite lookup_alter_ne; [done|]. by intros ->.
Qed.

(** ** Rotation *)

Definition tree_at (s : schedule) (t : tree) : Prop :=
  s_root s = root t ∧ NoDup (ids t) ∧ sat (s_mem s) (links None t).

(** [upd] on a node whose pointers are known. *)
Lemma upd_lk s e f k :
  lk (s_mem s) e = Some k →
  upd e f s = Ret (Sched (s_earliest_wakeup s) (s_root s) (alter f e (s_mem s)) (s_draws s)).
Proof. intros H. apply upd_alter. by rewrite H. Qed.

(** Giving the hole of the frames another root. *)
Definition link_hole (c : list frame) (p e : nat) (s : schedule) : outcome schedule :=
  match parent_of c with
  | Some g =>
      z ← get g s;
      if decide (se_gt z = Some p) then upd g (set_gt (Some e)) s
      else if decide (se_lt z = Some p) then upd g (set_lt (Some e)) s
      else Abort
  | None => Ret (set_root (Some e) s)
  end.

Lemma root_not_in t p : p ∉ ids t → root t ≠ Some p.
Proof. destruct t as [|l x r]; [done|]. intros H [= ->]. apply H. cbn. set_solver. Qed.

Lemma link_hole_ok c p e s :
  NoDup (p :: frame_ids c) → e ∉ frame_ids c → s_root s = root_of c (Some p) →
  sat (s_mem s) (frame_links c (Some p)) →
  ∃ s', link_hole c p e s = Ret s' ∧ s_root s' = root_of c (Some e) ∧
    sat (s_mem s') (frame_links c (Some e)) ∧ relinked (frame_ids c) s s'.
Proof.
  unfold link_hole. destruct c as [|[b g t] c]; intros HN He Hr HS.
  { exists (set_root (Some e) s). split_and!; done. }
  cbn [parent_of f_id]. cbn [frame_links] in HS. rewrite sat_cons, sat_app in HS. destruct HS as (Hg & Ht & Hc).
  pose proof HN as HN'. rewrite frame_ids_cons in HN'.
  apply NoDup_cons in HN' as [Hp HN']. apply NoDup_cons in HN' as [Hg1 HN'].
  assert (root t ≠ Some p) as Hrt. { apply root_not_in. intros H. apply Hp. set_solver. }
  destruct (get_lk _ _ _ _ _ Hg) as (z & Hz & -> & Hzp & Hzl & Hzg). rewrite bind_Ret.
  set (f := if b then set_lt (Some e) else set_gt (Some e)).
  assert ((if decide (se_gt z = Some p) then upd g (set_gt (Some e)) s
           else if decide (se_lt z = Some p) then upd g (set_lt (Some e)) s else Abort)
          = upd g f s) as ->.
  { rewrite Hzl, Hzg. subst f. destruct b.
    - rewrite decide_False, decide_True by done. done.
    - by rewrite decide_True. }
  rewrite (upd_lk _ _ _ _ Hg). eexists. split; [done|]. cbn [s_root s_mem]. split_and!.
  - by rewrite Hr, !root_of_cons.
  - cbn [frame_links]. rewrite sat_cons, sat_app. split_and!.
    + change (link_of <$> ?m !! g) with (lk m g).
      assert (lk (s_mem s) g = Some (parent_of c, if b then Some p else root t, if b then root t else Some p)) as Hg' by done.
      destruct b; subst f; [rewrite lk_lt|rewrite lk_gt]; rewrite decide_True, Hg' by done; done.
    + revert Ht. apply sat_links_ext. intros i Hi. rewrite lookup_alter_ne; [done|]. set_solver.
    + revert Hc. apply sat_frame_ext. intros i Hi. rewrite lookup_alter_ne; [done|]. set_solver.
  - apply relinked_alter; [by destruct b|]. rewrite frame_ids_cons. set_solver.
Qed.

Lemma relinked_weaken js js' s s' : js ⊆ js' → relinked js s s' → relinked js' s s'.
Proof. intros Hs (? & ? & ? & H). split_and!; [done..|]. intros i Hi. apply H. set_solver. Qed.
#[export] Instance relinked_perm : Proper ((≡ₚ) ==> eq ==> eq ==> iff) relinked.
Proof. intros is1 is2 Hp s1 ? <- s2 ? <-. unfold relinked. by setoid_rewrite Hp. Qed.
Lemma relinked_lk js s s' i : relinked js s s' → i ∉ js → lk (s_mem s') i = lk (s_mem s) i.
Proof. intros (_ & _ & _ & H) Hi. unfold lk. by rewrite H. Qed.
Lemma relinked_links js s s' p t :
  relinked js s s' → (∀ i, i ∈ ids t → i ∉ js) → sat (s_mem s) (links p t) → sat (s_mem s') (links p t).
Proof. intros H Hd. apply sat_links_ext. intros i Hi. by apply (relinked_lk js s s'), Hd. Qed.
Lemma relinked_frames js s s' c r :
  relinked js s s' → (∀ i, i ∈ frame_ids c → i ∉ js) →
  sat (s_mem s) (frame_links c r) → sat (s_mem s') (frame_links c r).
Proof. intros H Hd. apply sat_frame_ext. intros i Hi. by apply (relinked_lk js s s'), Hd. Qed.

Lemma upd_ok s e f h k :
  lk (s_mem s) e = Some k → (∀ x, link_of (f x) = h (link_of x)) → (∀ x, data (f x) = data x) →
  ∃ s', upd e f s = Ret s' ∧ s_root s' = s_root s ∧ lk (s_mem s') e = Some (h k) ∧ relinked [e] s s'.
Proof.
  intros Hk Hl Hd. rewrite (upd_lk _ _ _ _ Hk). eexists. split; [done|]. split_and!; [done|..].
  - cbn [s_mem]. rewrite (lk_alter _ h) by done. by rewrite decide_True, Hk.
  - apply relinked_alter; [done|]. by apply list_elem_of_singleton.
Qed.

(** Giving a subtree another parent. *)
Definition hang (r : option nat) (q : option nat) (s : schedule) : outcome schedule :=
  match r with Some c => upd c (set_parent q) s | None => Ret s end.
Lemma hang_ok t q q' s :
  NoDup (ids t) → sat (s_mem s) (links q t) →
  ∃ s', hang (root t) q' s = Ret s' ∧ s_root s' = s_root s ∧ sat (s_mem s') (links q' t) ∧ relinked (ids t) s s'.
Proof.
  destruct t as [|l x r]; intros HN HS; [by exists s|].
  cbn [links root hang ids] in *. rewrite sat_cons, sat_app in HS. destruct HS as (Hx & Hl & Hr).
  apply NoDup_app in HN as (_ & Hd & HN). apply NoDup_cons in HN as [Hxr _].
  destruct (upd_ok s x (set_parent q') (on_parent q') _ Hx) as (s' & -> & Hroot & Hk & Hrel); [done..|].
  exists s'. split_and!; [done..| |].
  - rewrite sat_cons, sat_app. split_and!; [done|..].
    + apply (relinked_links _ _ _ _ _ Hrel); [|done].
      intros i Hi. rewrite list_elem_of_singleton. intros ->. apply (Hd _ Hi). by left.
    + apply (relinked_links _ _ _ _ _ Hrel); [|done].
      intros i Hi. rewrite list_elem_of_singleton. by intros ->.
  - apply (relinked_weaken [x]); [|done]. set_solver.
Qed.

(** [e] with children [a] and [r] turned above its parent [p]. *)
Definition turned (b : bool) (p : nat) (sib a : tree) (e : nat) (r : tree) : tree :=
  if b then N a e (N r p sib) else N (N sib p a) e r.

Lemma ids_turned b p sib a e r : ids (turned b p sib a e r) = ids (frame_in (F b p sib) (N a e r)).
Proof. destruct b; cbn; by rewrite <- app_assoc. Qed.
Lemma ids_turned_plug b c p sib a e r :
  ids (plug c (turned b p sib a e r)) = ids (plug (F b p sib :: c) (N a e r)).
Proof. rewrite (ids_plug c). cbn [plug]. by rewrite ids_turned, ids_plug. Qed.

Lemma tree_at_node s c a e r :
  tree_at s (plug c (N a e r)) ↔
  s_root s = root_of c (Some e) ∧ NoDup (e :: ids a ++ ids r ++ frame_ids c) ∧
  lk (s_mem s) e = Some (parent_of c, root a, root r) ∧
  sat (s_mem s) (links (Some e) a) ∧ sat (s_mem s) (links (Some e) r) ∧
  sat (s_mem s) (frame_links c (Some e)).
Proof.
  unfold tree_at. rewrite root_plug, sat_plug. cbn [root links]. rewrite sat_cons, sat_app.
  assert (ids (plug c (N a e r)) ≡ₚ e :: ids a ++ ids r ++ frame_ids c) as ->.
  { rewrite ids_plug_perm. cbn [ids]. solve_Permutation. }
  unfold lk. naive_solver.
Qed.

(** The writes of the rotation, after the parent of [p] has got [e] below it. *)
Definition relink (b : bool) (e p : nat) (gp mid : option nat) (s : schedule) : outcome schedule :=
  s ← upd e (set_parent gp) s;
  s ← upd p (set_parent (Some e)) s;
  s ← upd e (if b then set_gt (Some p) else set_lt (Some p)) s;
  s ← upd p (if b then set_lt mid else set_gt mid) s;
  hang mid (Some p) s.

Lemma relink_ok b e p gp k1 k2 mid s :
  NoDup (e :: p :: ids mid) →
  lk (s_mem s) e = Some k1 → lk (s_mem s) p = Some k2 → sat (s_mem s) (links (Some e) mid) →
  ∃ s', relink b e p gp (root mid) s = Ret s' ∧ s_root s' = s_root s ∧
    lk (s_mem s') e = Some ((if b then on_gt (Some p) else on_lt (Some p)) (on_parent gp k1)) ∧
    lk (s_mem s') p = Some ((if b then on_lt (root mid) else on_gt (root mid)) (on_parent (Some e) k2)) ∧
    sat (s_mem s') (links (Some p) mid) ∧ relinked (e :: p :: ids mid) s s'.
Proof.
  intros HN H1 H2 Hm. apply NoDup_cons in HN as [He HN]. apply NoDup_cons in HN as [Hp HN].
  assert (e ∉ [p] ∧ p ∉ [e] ∧ e ∉ ids mid) as (Hep & Hpe & Hem) by set_solver.
  unfold relink.
  destruct (upd_ok s e (set_parent gp) (on_parent gp) k1) as (s1 & -> & Hr1 & Hk1 & Hrel1); [done..|]. bret.
  rewrite <- (relinked_lk _ _ _ _ Hrel1 Hpe) in H2.
  destruct (upd_ok s1 p (set_parent (Some e)) (on_parent (Some e)) k2) as (s2 & -> & Hr2 & Hk2 & Hrel2); [done..|]. bret.
  rewrite <- (relinked_lk _ _ _ _ Hrel2 Hep) in Hk1.
  destruct (upd_ok s2 e (if b then set_gt (Some p) else set_lt (Some p))
    (if b then on_gt (Some p) else on_lt (Some p)) _ Hk1) as (s3 & -> & Hr3 & Hk3 & Hrel3); [by destruct b..|]. bret.
  rewrite <- (relinked_lk _ _ _ _ Hrel3 Hpe) in Hk2.
  destruct (upd_ok s3 p (if b then set_lt (root mid) else set_gt (root mid))
    (if b then on_lt (root mid) else on_gt (root mid)) _ Hk2) as (s4 & -> & Hr4 & Hk4 & Hrel4); [by destruct b..|]. bret.
  rewrite <- (relinked_lk _ _ _ _ Hrel4 Hep) in Hk3.
  assert (relinked [e; p] s s4) as Hrel.
  { eapply relinked_trans; [|eapply relinked_trans; [|eapply relinked_trans]];
      eapply relinked_weaken; try eassumption; set_solver. }
  apply (relinked_links _ _ _ _ _ Hrel) in Hm; [|set_solver].
  destruct (hang_ok mid (Some e) (Some p) s4) as (s5 & -> & Hr5 & Hm5 & Hrel5); [done..|].
  exists s5. rewrite !(relinked_lk _ _ _ _ Hrel5) by done. split_and!; [done|by congruence|done..|].
  eapply relinked_trans; eapply relinked_weaken; try eassumption; set_solver.
Qed.

(** What distinct nodes give a rotation. *)
Lemma turn_nodup (e p : nat) (a r t f : list nat) :
  NoDup (e :: a ++ r ++ p :: t ++ f) →
  e ≠ p ∧ NoDup (p :: f) ∧ e ∉ f ∧ e ∉ t ∧ NoDup (e :: p :: a) ∧ NoDup (e :: p :: r) ∧
  (∀ i, i ∈ a → i ∉ e :: p :: r ∧ i ∉ f) ∧ (∀ i, i ∈ r → i ∉ e :: p :: a ∧ i ∉ f) ∧
  (∀ i, i ∈ t → i ∉ e :: p :: a ∧ i ∉ e :: p :: r ∧ i ∉ f) ∧
  (∀ i, i ∈ f → i ∉ e :: p :: a ∧ i ∉ e :: p :: r).
Proof.
  intros H. apply NoDup_cons in H as [H1 H]. apply NoDup_app in H as (H2 & H3 & H).
  apply NoDup_app in H as (H4 & H5 & H). apply NoDup_cons in H as [H6 H].
  apply NoDup_app in H as (H7 & H8 & H).
  rewrite !elem_of_app, elem_of_cons, elem_of_app in H1.
  setoid_rewrite elem_of_app in H3. setoid_rewrite elem_of_cons in H3. setoid_rewrite elem_of_app in H3.
  setoid_rewrite elem_of_cons in H5. setoid_rewrite elem_of_app in H5. rewrite elem_of_app in H6.
  repeat setoid_rewrite elem_of_cons. rewrite !NoDup_cons, !elem_of_cons. split_and!; naive_solver.
Qed.

Lemma schedule_rotate_up_eq c b p sib a e r s :
  tree_at s (plug (F b p sib :: c) (N a e r)) →
  schedule_rotate_up (Some e) s =
  (s1 ← link_hole c p e s; relink b e p (parent_of c) (root (if b then r else a)) s1).
Proof.
  rewrite tree_at_node. intros (Hr & HN & He & Ha & Hc & Hf).
  cbn [frame_links] in Hf. rewrite sat_cons, sat_app in Hf. destruct Hf as (Hp & Hs & Hf).
  rewrite frame_ids_cons in HN. cbn [parent_of f_id] in He.
  apply turn_nodup in HN as (Hne & HNp & Hef & Hes & _).
  unfold schedule_rotate_up.
  destruct (get_lk _ _ _ _ _ He) as (x & _ & -> & Hxp & Hxl & Hxg). bret. rewrite Hxp, Hxl, Hxg.
  destruct (get_lk _ _ _ _ _ Hp) as (y & _ & -> & Hyp & _ & _). bret. rewrite Hyp.
  fold (link_hole c p e s).
  rewrite root_of_cons in Hr.
  destruct (link_hole_ok c p e s) as (s1 & -> & _ & _ & Hrel); [done..|]. bret. unfold relink.
  pose proof (proj1 (proj1 (NoDup_cons _ _) HNp)) as Hpf.
  rewrite <- (relinked_lk _ _ _ _ Hrel Hef) in He.
  change (link_of <$> s_mem s !! p) with (lk (s_mem s) p) in Hp. rewrite <- (relinked_lk _ _ _ _ Hrel Hpf) in Hp.
  destruct (upd_ok s1 e (set_parent (parent_of c)) (on_parent (parent_of c)) _ He) as (s2 & -> & _ & _ & Hrel2); [done..|]. bret.
  rewrite <- (relinked_lk _ _ _ p Hrel2) in Hp by set_solver.
  destruct (upd_ok s2 p (set_parent (Some e)) (on_parent (Some e)) _ Hp) as (s3 & -> & _ & Hk & _); [done..|]. bret.
  cbn [on_parent] in Hk. destruct (get_lk _ _ _ _ _ Hk) as (z & _ & -> & _ & Hzl & Hzg). bret.
  rewrite Hzl, Hzg. destruct b; [|by rewrite decide_True].
  rewrite decide_False, decide_True; [done|done|]. by apply root_not_in.
Qed.

Lemma rotate_up_at c b p sib a e r s :
  tree_at s (plug (F b p sib :: c) (N a e r)) →
  ∃ s', schedule_rotate_up (Some e) s = Ret s' ∧
    tree_at s' (plug c (turned b p sib a e r)) ∧
    relinked (ids (plug (F b p sib :: c) (N a e r))) s s'.
Proof.
  intros HT. rewrite (schedule_rotate_up_eq _ _ _ _ _ _ _ _ HT).
  pose proof (ids_plug_perm (F b p sib :: c) (N a e r)) as Hperm.
  rewrite tree_at_node in HT. destruct HT as (Hr & HN & He & Ha & Hc & Hf).
  cbn [frame_links] in Hf. rewrite sat_cons, sat_app in Hf. destruct Hf as (Hp & Hs & Hf).
  rewrite root_of_cons in Hr. cbn [f_id] in Hr. rewrite frame_ids_cons in HN, Hperm. pose proof HN as HN1.
  apply turn_nodup in HN as (Hne & HNp & Hef & Hes & HNa & HNr & Hda & Hdr & Hds & Hdf).
  pose proof (proj1 (proj1 (NoDup_cons _ _) HNp)) as Hpf.
  destruct (link_hole_ok c p e s) as (s1 & -> & Hr1 & Hf1 & Hrel1); [done..|]. bret.
  rewrite <- (relinked_lk _ _ _ _ Hrel1 Hef) in He.
  change (link_of <$> s_mem s !! p) with (lk (s_mem s) p) in Hp. rewrite <- (relinked_lk _ _ _ _ Hrel1 Hpf) in Hp.
  apply (relinked_links _ _ _ _ _ Hrel1) in Ha; [|naive_solver].
  apply (relinked_links _ _ _ _ _ Hrel1) in Hc; [|naive_solver].
  apply (relinked_links _ _ _ _ _ Hrel1) in Hs; [|naive_solver].
  destruct (relink_ok b e p (parent_of c) (Some p, root a, root r)
    (parent_of c, if b then Some e else root sib, if b then root sib else Some e) (if b then r else a) s1)
    as (s2 & -> & Hr2 & He2 & Hp2 & Hm2 & Hrel2); [by destruct b|done|done|by destruct b|].
  exists s2. split; [done|]. split.
  2:{ rewrite Hperm. cbn [ids].
      eapply relinked_trans; eapply relinked_weaken; try eassumption; clear; [set_solver|destruct b; set_solver]. }
  apply (relinked_links _ _ _ _ _ Hrel2) in Hs; [|destruct b; naive_solver].
  apply (relinked_frames _ _ _ _ _ Hrel2) in Hf1; [|destruct b; naive_solver].
  destruct b; cbn [turned]; rewrite tree_at_node; cbn [ids links root].
  - apply (relinked_links _ _ _ _ _ Hrel2) in Ha; [|naive_solver]. rewrite sat_cons, sat_app.
    split; [by rewrite Hr2|]. split; [by rewrite <- app_assoc|]. by auto 10.
  - apply (relinked_links _ _ _ _ _ Hrel2) in Hc; [|naive_solver]. rewrite sat_cons, sat_app.
    split; [by rewrite Hr2|]. split; [|by auto 10].
    assert ((ids sib ++ p :: ids a) ++ ids r ++ frame_ids c ≡ₚ ids a ++ ids r ++ p :: ids sib ++ frame_ids c)
      as -> by solve_Permutation. done.
Qed.

(** ** Priorities *)

Definition pri_of (s : schedule) (i : nat) : Z := from_option se_pri 0 (s_mem s !! i).

(** Every priority is at least that of the parent, and at least [lo]. *)
Fixpoint heap_from (pr : nat → Z) (lo : Z) (t : tree) : Prop :=
  match t with
  | L => True
  | N l e r => lo ≤ pr e ∧ heap_from pr (pr e) l ∧ heap_from pr (pr e) r
  end.
Definition bound (pr : nat → Z) (c : list frame) : Z :=
  match c with [] => 1 | fr :: _ => pr (f_id fr) end.
Fixpoint heap_frames (pr : nat → Z) (c : list frame) : Prop :=
  match c with
  | [] => True
  | fr :: c => bound pr c ≤ pr (f_id fr) ∧ heap_from pr (pr (f_id fr)) (f_sib fr) ∧ heap_frames pr c
  end.

Lemma heap_le pr lo lo' t : lo' ≤ lo → heap_from pr lo t → heap_from pr lo' t.
Proof. destruct t; [done|]. cbn. intros ? (? & ? & ?). split_and!; [lia|done..]. Qed.
Lemma heap_root pr lo t l e r : t = N l e r → heap_from pr lo t → ∀ lo', lo' ≤ pr e → heap_from pr lo' t.
Proof. intros ->. cbn. naive_solver. Qed.
Lemma heap_plug pr c t : heap_from pr 1 (plug c t) ↔ heap_frames pr c ∧ heap_from pr (bound pr c) t.
Proof.
  revert t. induction c as [|[b e s] c IH]; intros t; cbn [plug heap_frames bound f_id f_sib]; [naive_solver|].
  rewrite IH. destruct b; cbn; naive_solver.
Qed.
Lemma heap_ext pr pr' lo t : (∀ i, i ∈ ids t → pr' i = pr i) → heap_from pr lo t → heap_from pr' lo t.
Proof.
  revert lo. induction t as [|l IHl e r IHr]; intros lo H; [done|]. cbn in *. intros (? & ? & ?).
  setoid_rewrite elem_of_app in H. setoid_rewrite elem_of_cons in H.
  rewrite (H e) by auto. split_and!; [done|apply IHl|apply IHr]; auto.
Qed.

Lemma relinked_pri js s s' i : relinked js s s' → pri_of s' i = pri_of s i.
Proof.
  intros (_ & _ & H & _). specialize (H i). unfold pri_of.
  destruct (s_mem s' !! i), (s_mem s !! i); cbn in *; by simplify_eq.
Qed.

Lemma get_pri s e k : lk (s_mem s) e = Some k → ∃ x, get e s = Ret x ∧ link_of x = k ∧ se_pri x = pri_of s e.
Proof. unfold lk, get, pri_of. destruct (s_mem s !! e) as [x|]; [|done]. cbn. intros [= <-]. by exists x. Qed.

(** Brings sequences of nodes to one shape. *)
Ltac apps := repeat (rewrite <- app_assoc; cbn [app]).

(** ** Deletion *)

(** A child of [e] that may be turned above it, and what is left below [e]. *)
Lemma remove_round s c e a r pr :
  tree_at s (plug c (N a e r)) → (∀ i, pri_of s i = pr i) →
  heap_frames pr c → heap_from pr (bound pr c) a → heap_from pr (bound pr c) r →
  (a = L ∧ r = L ∧ remove_body e s = Ret (inr s)) ∨
  ∃ s' c' a' r', remove_body e s = Ret (inl s') ∧ tree_at s' (plug c' (N a' e r')) ∧
    relinked (ids (plug c (N a e r))) s s' ∧ ids (plug c' (N a' e r')) = ids (plug c (N a e r)) ∧
    heap_frames pr c' ∧ heap_from pr (bound pr c') a' ∧ heap_from pr (bound pr c') r' ∧
    (size a' + size r' < size a + size r)%nat.
Proof.
  intros HT Hpr Hc Ha Hr. pose proof (proj1 (tree_at_node _ _ _ _ _) HT) as (_ & _ & He & Hla & Hlr & _).
  unfold remove_body. destruct (get_lk _ _ _ _ _ He) as (x & _ & -> & _ & Hxl & Hxg). bret. rewrite Hxl, Hxg.
  assert (∀ l i g, a = N l i g → heap_from pr (pr i) r →
    ∃ s' c' a' r', schedule_rotate_up (Some i) s = Ret s' ∧ tree_at s' (plug c' (N a' e r')) ∧
      relinked (ids (plug c (N a e r))) s s' ∧ ids (plug c' (N a' e r')) = ids (plug c (N a e r)) ∧
      heap_frames pr c' ∧ heap_from pr (bound pr c') a' ∧ heap_from pr (bound pr c') r' ∧
      (size a' + size r' < size a + size r)%nat) as Hup_l.
  { intros l i g -> Hr'. destruct Ha as (Hi & Hl & Hg).
    destruct (rotate_up_at c true e r l i g s HT) as (s' & -> & HT' & Hrel).
    exists s', (F false i l :: c), g, r. cbn [turned] in HT'. split_and!; try done; [|cbn; lia].
    rewrite (ids_plug _ (N g e r)), (ids_plug _ (N (N l i g) e r)). cbn. apps. done. }
  assert (∀ l i g, r = N l i g → heap_from pr (pr i) a →
    ∃ s' c' a' r', schedule_rotate_up (Some i) s = Ret s' ∧ tree_at s' (plug c' (N a' e r')) ∧
      relinked (ids (plug c (N a e r))) s s' ∧ ids (plug c' (N a' e r')) = ids (plug c (N a e r)) ∧
      heap_frames pr c' ∧ heap_from pr (bound pr c') a' ∧ heap_from pr (bound pr c') r' ∧
      (size a' + size r' < size a + size r)%nat) as Hup_r.
  { intros l i g -> Ha'. destruct Hr as (Hi & Hl & Hg).
    destruct (rotate_up_at c false e a l i g s HT) as (s' & -> & HT' & Hrel).
    exists s', (F true i g :: c), a, l. cbn [turned] in HT'. split_and!; try done; [|cbn; lia].
    rewrite (ids_plug _ (N a e l)), (ids_plug _ (N a e (N l i g))). cbn. apps. done. }
  destruct a as [|al ai ag], r as [|rl ri rg]; cbn [root]; [by left|..]; right.
  - destruct (Hup_r rl ri rg eq_refl I) as (s' & c' & a' & r' & -> & H). by exists s', c', a', r'.
  - destruct (Hup_l al ai ag eq_refl I) as (s' & c' & a' & r' & -> & H). by exists s', c', a', r'.
  - cbn [links] in Hla, Hlr. rewrite sat_cons in Hla, Hlr. destruct Hla as [Hla _], Hlr as [Hlr _].
    destruct (get_pri _ _ _ Hla) as (y & -> & _ & Hy). destruct (get_pri _ _ _ Hlr) as (z & -> & _ & Hz). bret.
    rewrite Hy, Hz, !Hpr. destruct (decide (pr ai < pr ri)).
    + destruct (Hup_l al ai ag eq_refl) as (s' & c' & a' & r' & -> & H).
      { apply (heap_root pr _ _ _ _ _ eq_refl Hr). lia. }
      by exists s', c', a', r'.
    + destruct (Hup_r rl ri rg eq_refl) as (s' & c' & a' & r' & -> & H).
      { apply (heap_root pr _ _ _ _ _ eq_refl Ha). lia. }
      by exists s', c', a', r'.
Qed.

Lemma remove_loop pr e n : ∀ s c a r,
  (size a + size r < n)%nat → tree_at s (plug c (N a e r)) → (∀ i, pri_of s i = pr i) →
  heap_frames pr c → heap_from pr (bound pr c) a → heap_from pr (bound pr c) r →
  ∃ s' c', (∀ fuel, (n ≤ fuel)%nat → loop fuel (remove_body e) s = Ret s') ∧
    tree_at s' (plug c' (N L e L)) ∧ relinked (ids (plug c (N a e r))) s s' ∧
    ids (plug c' (N L e L)) = ids (plug c (N a e r)) ∧ heap_frames pr c'.
Proof.
  induction n as [|n IH]; intros s c a r Hn HT Hpr Hc Ha Hr; [lia|].
  destruct (remove_round s c e a r pr HT Hpr Hc Ha Hr)
    as [(-> & -> & Hb)|(s' & c' & a' & r' & Hb & HT' & Hrel & Hids & Hc' & Ha' & Hr' & Hs)].
  - exists s, c. split_and!; try done. intros [|fuel] Hf; [lia|]. by rewrite loop_S, Hb.
  - destruct (IH s' c' a' r') as (s'' & c'' & Hl & HT'' & Hrel' & Hids' & Hc''); [lia|done| |done..|].
    { intros i. by rewrite (relinked_pri _ _ _ _ Hrel). }
    exists s'', c''. split_and!; [|done| |congruence|done].
    + intros [|fuel] Hf; [lia|]. rewrite loop_S, Hb. bret. apply Hl. lia.
    + rewrite Hids in Hrel'. by eapply relinked_trans.
Qed.

(** A node without children leaves the tree. *)
Lemma detach_at c e s :
  tree_at s (plug c (N L e L)) →
  ∃ s', schedule_detach_parent (Some e) s = Ret s' ∧ tree_at s' (plug c L) ∧
    lk (s_mem s') e = Some (None, None, None) ∧ relinked (ids (plug c (N L e L))) s s'.
Proof.
  intros HT. pose proof (ids_plug_perm c (N L e L)) as Hperm. cbn [ids app] in Hperm.
  apply tree_at_node in HT as (Hr & HN & He & _ & _ & Hf). cbn [ids app root] in *.
  apply NoDup_cons in HN as [Hef HN].
  unfold schedule_detach_parent. destruct (get_lk _ _ _ _ _ He) as (x & _ & -> & Hxp & _ & _). bret. rewrite Hxp.
  destruct c as [|[b p t] c]; cbn [parent_of f_id] in *.
  { exists (set_root None s). rewrite decide_True by done. split_and!; [done| |done|apply relinked_root].
    split_and!; [done|constructor|]. by apply Forall_nil. }
  cbn [frame_links] in Hf. rewrite sat_cons, sat_app in Hf. destruct Hf as (Hp & Ht & Hf).
  rewrite frame_ids_cons in HN, Hef, Hperm. rewrite elem_of_cons, elem_of_app in Hef.
  pose proof HN as HN0. apply NoDup_cons in HN as [Hpf HN]. rewrite elem_of_app in Hpf.
  destruct (get_lk _ _ _ _ _ Hp) as (y & _ & -> & _ & Hyl & Hyg). bret.
  set (f := if b then set_lt None else set_gt None).
  assert ((if decide (se_lt y = Some e) then upd p (set_lt None) s
           else if decide (se_gt y = Some e) then upd p (set_gt None) s else Abort) = upd p f s) as ->.
  { rewrite Hyl, Hyg. subst f. destruct b; [by rewrite decide_True|].
    rewrite decide_False, decide_True; [done..|]. apply root_not_in. auto. }
  destruct (upd_ok s p f (if b then on_lt None else on_gt None) _ Hp) as (s1 & -> & Hr1 & Hp1 & Hrel1); [by destruct b..|].
  bret. rewrite <- (relinked_lk _ _ _ e Hrel1) in He by (rewrite list_elem_of_singleton; naive_solver).
  destruct (upd_ok s1 e (set_parent None) (on_parent None) _ He) as (s2 & -> & Hr2 & He2 & Hrel2); [done..|].
  exists s2. split; [done|]. split; [|split; [done|]].
  - split_and!.
    + rewrite Hr2, Hr1, Hr, root_plug, !root_of_cons. done.
    + rewrite ids_plug_perm, frame_ids_cons. done.
    + rewrite sat_plug. split; [|by apply Forall_nil]. cbn [frame_links].
      assert (∀ i, i ∈ ids t ∨ i ∈ frame_ids c → link_of <$> s_mem s2 !! i = link_of <$> s_mem s !! i) as Hsame.
      { intros i Hi. change (lk (s_mem s2) i = lk (s_mem s) i).
        rewrite (relinked_lk _ _ _ i Hrel2), (relinked_lk _ _ _ i Hrel1); [done|..];
          rewrite list_elem_of_singleton; naive_solver. }
      rewrite sat_cons, sat_app. split_and!.
      * change (lk (s_mem s2) p = Some (parent_of c, if b then None else root t, if b then root t else None)).
        rewrite (relinked_lk _ _ _ p Hrel2), Hp1 by (rewrite list_elem_of_singleton; naive_solver). by destruct b.
      * revert Ht. apply sat_links_ext. auto.
      * revert Hf. apply sat_frame_ext. auto.
  - rewrite Hperm. eapply relinked_trans; eapply relinked_weaken; try eassumption; clear; set_solver.
Qed.

(** An entry outside the tree: no pointers, priority zero. *)
Definition idle (s : schedule) (i : nat) : Prop := lk (s_mem s) i = Some (None, None, None) ∧ pri_of s i = 0.
Definition treap_at (s : schedule) (t : tree) : Prop :=
  tree_at s t ∧ heap_from (pri_of s) 1 t ∧ ∀ i, is_Some (s_mem s !! i) → i ∉ ids t → idle s i.

(** Nothing but pointers, and the priority of [e], differs. *)
Definition kept (e : nat) (s s' : schedule) : Prop :=
  s_earliest_wakeup s' = s_earliest_wakeup s ∧
  (∀ i, se_tv <$> s_mem s' !! i = se_tv <$> s_mem s !! i) ∧
  (∀ i, i ≠ e → data <$> s_mem s' !! i = data <$> s_mem s !! i).

Lemma relinked_kept js e s s' : relinked js s s' → kept e s s'.
Proof.
  intros (? & _ & H & _). split_and!; [done..| |auto].
  intros i. specialize (H i). destruct (s_mem s' !! i), (s_mem s !! i); cbn in *; unfold data in *; congruence.
Qed.
Lemma kept_trans e s1 s2 s3 : kept e s1 s2 → kept e s2 s3 → kept e s1 s3.
Proof.
  intros (H1 & H3 & H4) (H5 & H7 & H8). split_and!; [congruence|..].
  - intros i. by rewrite H7.
  - intros i Hi. by rewrite H8, H4.
Qed.
Lemma kept_pri e s s' i : kept e s s' → i ≠ e → pri_of s' i = pri_of s i.
Proof.
  intros (_ & _ & H) Hi. specialize (H i Hi). unfold pri_of.
  destruct (s_mem s' !! i), (s_mem s !! i); cbn in *; by simplify_eq.
Qed.
Lemma kept_some e s s' i : kept e s s' → is_Some (s_mem s' !! i) → is_Some (s_mem s !! i).
Proof. intros (_ & H & _) [x Hx]. specialize (H i). rewrite Hx in H. destruct (s_mem s !! i); [done|discriminate]. Qed.

Lemma plug_app c1 c2 t : plug (c1 ++ c2) t = plug c2 (plug c1 t).
Proof. revert t. induction c1 as [|fr c1 IH]; intros t; cbn; auto. Qed.
Lemma tree_split t e : e ∈ ids t → ∃ c a r, t = plug c (N a e r).
Proof.
  induction t as [|l IHl x r IHr]; cbn; [by rewrite elem_of_nil|].
  rewrite elem_of_app, elem_of_cons. intros [H|[<-|H]].
  - destruct (IHl H) as (c & a & b & ->). exists (c ++ [F true x r]), a, b. by rewrite plug_app.
  - by exists [], l, r.
  - destruct (IHr H) as (c & a & b & ->). exists (c ++ [F false x l]), a, b. by rewrite plug_app.
Qed.
Lemma size_plug_le c t : (size t ≤ size (plug c t))%nat.
Proof. rewrite <- !size_ids, ids_plug, !length_app. lia. Qed.
Lemma root_in t e : root t = Some e → e ∈ ids t.
Proof. destruct t; [done|]. cbn. intros [= ->]. rewrite elem_of_app, elem_of_cons. auto. Qed.

Lemma set_pri_kept s e n :
  is_Some (s_mem s !! e) →
  ∃ s', upd e (set_pri n) s = Ret s' ∧ s_root s' = s_root s ∧ s_draws s' = s_draws s ∧ kept e s s' ∧ pri_of s' e = n ∧
    (∀ i, lk (s_mem s') i = lk (s_mem s) i).
Proof.
  intros [x Hx]. unfold upd, get. rewrite Hx. eexists. split; [done|]. split; [done|]. split; [done|].
  unfold kept, pri_of, lk. cbn [s_mem s_earliest_wakeup s_draws]. split_and!; try done.
  - intros i. destruct (decide (i = e)) as [->|]; [|by rewrite lookup_insert_ne].
    by rewrite lookup_insert_eq, Hx.
  - intros i Hi. by rewrite lookup_insert_ne.
  - by rewrite lookup_insert_eq.
  - intros i. destruct (decide (i = e)) as [->|]; [|by rewrite lookup_insert_ne].
    by rewrite lookup_insert_eq, Hx.
Qed.

Lemma idle_kept e s s' i : idle s i → kept e s s' → i ≠ e → lk (s_mem s') i = lk (s_mem s) i → idle s' i.
Proof. intros [H1 H2] Hk Hi Hl. split; [by rewrite Hl|]. by rewrite (kept_pri _ _ _ _ Hk Hi). Qed.

Lemma tree_at_ext s s' t :
  s_root s' = s_root s → (∀ i, lk (s_mem s') i = lk (s_mem s) i) → tree_at s t → tree_at s' t.
Proof.
  intros Hr Hl (H1 & H2 & H3). split_and!; [congruence|done|]. revert H3. apply sat_links_ext.
  intros i _. apply Hl.
Qed.

Lemma remove_node_in s c a e r :
  treap_at s (plug c (N a e r)) →
  ∃ s' c', (∀ fuel, (size a + size r < fuel)%nat → schedule_remove_node fuel e s = Ret s') ∧
    treap_at s' (plug c' L) ∧ kept e s s' ∧ s_draws s' = s_draws s ∧ idle s' e ∧
    ids_left c' ++ e :: ids_right c' = ids (plug c (N a e r)).
Proof.
  intros (HT & Hh & Hi). apply heap_plug in Hh as (Hc & He & Ha & Hr).
  apply (heap_le _ _ (bound (pri_of s) c)) in Ha, Hr; [|done..].
  destruct (remove_loop (pri_of s) e (S (size a + size r)) s c a r)
    as (s1 & c' & Hl & HT1 & Hrel1 & Hids & Hc'); [lia|done..|].
  destruct (detach_at c' e s1 HT1) as (s2 & Hd & HT2 & He2 & Hrel2).
  rewrite Hids in Hrel2. pose proof (relinked_trans _ _ _ _ Hrel1 Hrel2) as Hrel.
  destruct (set_pri_kept s2 e 0) as (s3 & Hp & Hr3 & Hdr3 & Hk3 & He3 & Hlk).
  { unfold lk in He2. by destruct (s_mem s2 !! e). }
  pose proof (kept_trans _ _ _ _ (relinked_kept _ e _ _ Hrel) Hk3) as Hk.
  rewrite ids_plug in Hids. cbn [ids app] in Hids.
  pose proof (proj1 (proj2 HT)) as HN. rewrite <- Hids in HN.
  apply NoDup_app in HN as (_ & Hd1 & HN). apply NoDup_cons in HN as [Hd2 _].
  assert (e ∉ ids (plug c' L)) as Hout.
  { rewrite ids_plug. cbn [ids app]. rewrite elem_of_app. intros [H|H]; [|done]. apply (Hd1 _ H). by left. }
  assert (idle s3 e) as Hidle by (split; [by rewrite Hlk|done]).
  exists s3, c'. split_and!; [| |done|by rewrite Hdr3, (proj1 (proj2 Hrel))|done..].
  - intros fuel Hf. unfold schedule_remove_node. rewrite Hl by lia. bret. rewrite Hd. by bret.
  - split_and!.
    + by apply (tree_at_ext s2).
    + apply (heap_ext (pri_of s)).
      * intros i Hin. apply (kept_pri e); [done|]. by intros ->.
      * apply heap_plug. done.
    + intros i Hsome Hni. destruct (decide (i = e)) as [->|Hne]; [done|].
      apply (idle_kept e s); [|done|done|].
      * apply Hi; [by apply (kept_some e s s3)|]. rewrite <- Hids. rewrite ids_plug in Hni.
        cbn [ids app] in Hni. rewrite elem_of_app, elem_of_cons in *. naive_solver.
      * rewrite Hlk. apply (relinked_lk _ _ _ _ Hrel). rewrite <- Hids. rewrite ids_plug in Hni.
        cbn [ids app] in Hni. rewrite elem_of_app, elem_of_cons in *. naive_solver.
Qed.

Lemma filter_neq (e : nat) (l : list nat) : e ∉ l → filter (λ i, i ≠ e) l = l.
Proof.
  induction l as [|i l IH]; intros H; [done|]. rewrite elem_of_cons in H.
  rewrite filter_cons_True, IH by naive_solver. done.
Qed.

(** The deletion of any entry, in the tree or not. *)
Lemma remove_node_at s t e :
  treap_at s t → is_Some (s_mem s !! e) →
  ∃ s' t', (∀ fuel, (size t < fuel)%nat → schedule_remove_node fuel e s = Ret s') ∧
    treap_at s' t' ∧ kept e s s' ∧ s_draws s' = s_draws s ∧ idle s' e ∧ ids t' = filter (λ i, i ≠ e) (ids t).
Proof.
  intros HT Hs. destruct (decide (e ∈ ids t)) as [Hin|Hout].
  - destruct (tree_split t e Hin) as (c & a & r & ->).
    destruct (remove_node_in s c a e r HT) as (s' & c' & Hl & HT' & Hk & Hd' & Hi & Hids).
    exists s', (plug c' L). split_and!; try done.
    + intros fuel Hf. apply Hl. pose proof (size_plug_le c (N a e r)). cbn in *. lia.
    + pose proof (proj1 (proj2 (proj1 HT))) as HN. rewrite <- Hids in HN |- *.
      apply NoDup_app in HN as (_ & Hd & HN). apply NoDup_cons in HN as [Hd2 _].
      rewrite ids_plug, filter_app, filter_cons_False by auto. cbn [ids app].
      rewrite !filter_neq; [done|done|]. intros Hi'. apply (Hd e Hi'). by left.
  - destruct HT as (HT & Hh & Hid). pose proof (Hid e Hs Hout) as [Hk Hp].
    destruct (set_pri_kept s e 0 Hs) as (s' & Hu & Hr & Hdr & Hk' & Hp' & Hlk).
    exists s', t. split_and!; try done.
    + intros [|fuel] Hf; [lia|]. unfold schedule_remove_node. rewrite loop_S.
      destruct (get_lk _ _ _ _ _ Hk) as (x & _ & Hg & Hx1 & Hx2 & Hx3).
      assert (remove_body e s = Ret (inr s)) as ->.
      { unfold remove_body. rewrite Hg. bret. by rewrite Hx2, Hx3. }
      bret.
      unfold schedule_detach_parent. rewrite Hg. bret. rewrite Hx1.
      rewrite decide_False; [done|]. intros Hroot. apply Hout, root_in. by rewrite <- (proj1 HT).
    + split_and!; [by apply (tree_at_ext s)|..].
      * apply (heap_ext (pri_of s)); [|done]. intros i Hi. apply (kept_pri e); [done|]. by intros ->.
      * intros i Hsome Hni. destruct (decide (i = e)) as [->|Hne]; [by split; [rewrite Hlk|]|].
        apply (idle_kept e s); [|done..]. apply Hid; [by apply (kept_some e s s')|done].
    + split; [by rewrite Hlk|done].
    + by rewrite filter_neq.
Qed.

(** ** The order of the keys *)

Definition key_lt (a b : timeval * Z) : Prop :=
  tv_sec a.1 < tv_sec b.1 ∨
  tv_sec a.1 = tv_sec b.1 ∧
    (tv_usec a.1 < tv_usec b.1 ∨ tv_usec a.1 = tv_usec b.1 ∧ a.2 < b.2).
(** [i] comes before [j]. *)
Definition before (s : schedule) (i j : nat) : Prop :=
  match s_mem s !! i, s_mem s !! j with
  | Some x, Some y => key_lt (data x) (data y)
  | _, _ => False
  end.

Lemma compare_spec x y :
  (schedule_entry_compare x y = -1 ∧ key_lt (data x) (data y)) ∨
  (schedule_entry_compare x y = 1 ∧ key_lt (data y) (data x)) ∨
  (schedule_entry_compare x y = 0 ∧ data x = data y).
Proof.
  unfold schedule_entry_compare, key_lt, data. destruct x as [[a1 a2] a3 ? ? ?], y as [[b1 b2] b3 ? ? ?].
  cbn. repeat case_decide; try (left; lia); try (right; left; lia).
  right; right. split; [done|]. repeat f_equal; lia.
Qed.
Lemma before_trans s i j k : before s i j → before s j k → before s i k.
Proof.
  unfold before, key_lt. destruct (s_mem s !! i), (s_mem s !! j), (s_mem s !! k); try done. lia.
Qed.
Lemma before_data s s' i j :
  data <$> s_mem s' !! i = data <$> s_mem s !! i → data <$> s_mem s' !! j = data <$> s_mem s !! j →
  before s i j → before s' i j.
Proof.
  unfold before. destruct (s_mem s' !! i), (s_mem s !! i), (s_mem s' !! j), (s_mem s !! j); try done.
  cbn -[data]. intros H1 H2. apply (inj Some) in H1, H2. by rewrite H1, H2.
Qed.

Section sorted.
Context {A : Type} (R : A → A → Prop).

Lemma sorted_app l1 l2 :
  StronglySorted R (l1 ++ l2) ↔
  StronglySorted R l1 ∧ StronglySorted R l2 ∧ ∀ x y, x ∈ l1 → y ∈ l2 → R x y.
Proof.
  induction l1 as [|x l1 IH]; cbn.
  - setoid_rewrite elem_of_nil. split; [|by intros (_ & ? & _)]. intros H. split_and!; [constructor|done|done].
  - setoid_rewrite elem_of_cons. split.
    + intros [H1 H2]%StronglySorted_inv. apply IH in H1 as (H3 & H4 & H5). apply Forall_app in H2 as [H2 H6].
      split_and!; [by constructor|done|]. rewrite Forall_forall in H6. naive_solver.
    + intros ([H1 H2]%StronglySorted_inv & H3 & H4). constructor; [apply IH; naive_solver|].
      apply Forall_app. split; [done|]. apply Forall_forall. auto.
Qed.
Lemma sorted_cons x l : StronglySorted R (x :: l) ↔ StronglySorted R l ∧ ∀ y, y ∈ l → R x y.
Proof.
  rewrite <- Forall_forall. split; [apply StronglySorted_inv|]. intros []. by constructor.
Qed.
Lemma sorted_impl (R' : A → A → Prop) l :
  (∀ x y, x ∈ l → y ∈ l → R x y → R' x y) → StronglySorted R l → StronglySorted R' l.
Proof.
  intros H. induction 1 as [|x l HS IH HF]; [constructor|].
  setoid_rewrite elem_of_cons in H. constructor; [apply IH; auto|].
  rewrite Forall_forall in HF |- *. auto.
Qed.
Lemma sorted_filter (P : A → Prop) `{∀ x, Decision (P x)} l :
  StronglySorted R l → StronglySorted R (filter P l).
Proof.
  induction 1 as [|x l HS IH HF]; [constructor|]. rewrite filter_cons. case_decide; [|done].
  constructor; [done|]. rewrite Forall_forall in HF |- *. intros y [_ Hy]%list_elem_of_filter. auto.
Qed.
End sorted.

(** ** Insertion *)

(** A node becomes the child of one that has none there. *)
Lemma attach_at b c x t e s :
  tree_at s (plug (F b x t :: c) L) → e ∉ ids (plug (F b x t :: c) L) →
  lk (s_mem s) e = Some (None, None, None) →
  ∃ s', (s1 ← upd x (if b then set_lt (Some e) else set_gt (Some e)) s; upd e (set_parent (Some x)) s1) = Ret s' ∧
    tree_at s' (plug (F b x t :: c) (N L e L)) ∧ relinked (e :: ids (plug (F b x t :: c) L)) s s'.
Proof.
  intros HT Hout He. pose proof (ids_plug_perm (F b x t :: c) L) as Hperm. rewrite frame_ids_cons in Hperm.
  cbn [ids app] in Hperm. destruct HT as (Hr & HN & HS). rewrite Hperm in HN, Hout.
  rewrite elem_of_cons, elem_of_app in Hout. apply sat_plug in HS as [Hf _]. cbn [frame_links root] in Hf.
  rewrite sat_cons, sat_app in Hf. destruct Hf as (Hx & Ht & Hf).
  destruct (upd_ok s x (if b then set_lt (Some e) else set_gt (Some e))
    (if b then on_lt (Some e) else on_gt (Some e)) _ Hx) as (s1 & -> & Hr1 & Hx1 & Hrel1); [by destruct b..|]. bret.
  rewrite <- (relinked_lk _ _ _ e Hrel1) in He by (rewrite list_elem_of_singleton; naive_solver).
  destruct (upd_ok s1 e (set_parent (Some x)) (on_parent (Some x)) _ He) as (s2 & -> & Hr2 & He2 & Hrel2); [done..|].
  assert (relinked [x; e] s s2) as Hrel.
  { eapply relinked_trans; eapply relinked_weaken; try eassumption; clear; set_solver. }
  pose proof (proj1 (NoDup_cons _ _) HN) as [Hx0 HN0]. rewrite elem_of_app in Hx0.
  exists s2. split; [done|]. split; [|rewrite Hperm; apply (relinked_weaken [x; e]); [clear; set_solver|done]].
  apply tree_at_node. cbn [ids app root]. split_and!.
  - rewrite Hr2, Hr1, Hr, root_plug, !root_of_cons. done.
  - rewrite frame_ids_cons. apply NoDup_cons. rewrite elem_of_cons, elem_of_app. done.
  - done.
  - apply Forall_nil. done.
  - apply Forall_nil. done.
  - assert (∀ i, i ∈ ids t ∨ i ∈ frame_ids c → link_of <$> s_mem s2 !! i = link_of <$> s_mem s !! i) as Hsame.
    { intros i Hi. change (lk (s_mem s2) i = lk (s_mem s) i). apply (relinked_lk _ _ _ i Hrel).
      rewrite !elem_of_cons, elem_of_nil. naive_solver. }
    cbn [frame_links]. rewrite sat_cons, sat_app. split_and!.
    + change (lk (s_mem s2) x = Some (parent_of c, if b then Some e else root t, if b then root t else Some e)).
      rewrite (relinked_lk _ _ _ x Hrel2), Hx1 by (rewrite list_elem_of_singleton; naive_solver). by destruct b.
    + revert Ht. apply sat_links_ext. auto.
    + revert Hf. apply sat_frame_ext. auto.
Qed.

(** ** Where a key goes *)

Definition sorted (s : schedule) (t : tree) : Prop := StronglySorted (before s) (ids t).

(** The key of [e] lies between what is on the two sides of the hole. *)
Definition fits (s : schedule) (e : nat) (c : list frame) : Prop :=
  (∀ i, i ∈ ids_left c → before s i e) ∧ (∀ i, i ∈ ids_right c → before s e i).

Lemma sorted_node s c l x r :
  sorted s (plug c (N l x r)) →
  (∀ i, i ∈ ids l → before s i x) ∧ (∀ i, i ∈ ids r → before s x i).
Proof.
  unfold sorted. rewrite ids_plug. cbn [ids]. intros (_ & H & _)%sorted_app.
  apply sorted_app in H as (H & _). apply sorted_app in H as (_ & H1 & H2).
  apply sorted_cons in H1 as [_ H1]. split; [|done]. intros i Hi. apply H2; [done|by left].
Qed.
Lemma fits_lt s e c l x r :
  sorted s (plug c (N l x r)) → fits s e c → before s e x → fits s e (F true x r :: c).
Proof.
  intros HS [H1 H2] Hx. apply sorted_node in HS as [_ HS]. split; cbn [ids_left ids_right]; [done|].
  intros i. rewrite elem_of_cons, elem_of_app. intros [->|[Hi|Hi]]; [done| |auto].
  by apply (before_trans _ _ x); [|apply HS].
Qed.
Lemma fits_gt s e c l x r :
  sorted s (plug c (N l x r)) → fits s e c → before s x e → fits s e (F false x l :: c).
Proof.
  intros HS [H1 H2] Hx. apply sorted_node in HS as [HS _]. split; cbn [ids_left ids_right]; [|done].
  intros i. rewrite !elem_of_app, list_elem_of_singleton. intros [Hi|[Hi| ->]]; [auto| |done].
  by apply (before_trans _ _ x); [apply HS|].
Qed.

Section random.
Context (random : nat → Z).

(** The priority drawn at draw number [n]. *)
Definition drawn (n : nat) : Z := if decide (u32 (random n) < 1) then 1 else u32 (random n).

Lemma drawn_pos n : 1 ≤ drawn n.
Proof. unfold drawn. case_decide; lia. Qed.

Lemma set_pri_drawn s e :
  is_Some (s_mem s !! e) →
  ∃ s', schedule_set_pri random e s = Ret s' ∧ s_root s' = s_root s ∧ s_draws s' = S (s_draws s) ∧
    kept e s s' ∧ pri_of s' e = drawn (s_draws s) ∧ (∀ i, lk (s_mem s') i = lk (s_mem s) i).
Proof.
  intros Hs. destruct (set_pri_kept s e (drawn (s_draws s)) Hs) as (s1 & Hu & Hr & Hd & Hk & Hp & Hl).
  unfold schedule_set_pri. fold (drawn (s_draws s)). rewrite Hu. bret.
  eexists. split; [done|]. cbn [s_root s_draws]. rewrite Hd. by split_and!.
Qed.

(** What the walk from the node [x], the root of [t], comes to: [e] a leaf of the
    tree, or another draw. *)
Definition placed (s : schedule) (e : nat) (T : tree) (s' : schedule) : Prop :=
  ∃ c, tree_at s' (plug c (N L e L)) ∧ relinked (e :: ids T) s s' ∧
    plug c L = T ∧ fits s e c.
Definition redraw (fuel : nat) (e : nat) (s : schedule) : outcome schedule :=
  s ← schedule_set_pri random e s;
  r ← of_option (s_root s);
  loop fuel (insert_body random e) (r, s).
Definition collides (s : schedule) (e : nat) (T : tree) : Prop :=
  ∃ i, i ∈ ids T ∧ data <$> s_mem s !! i = data <$> s_mem s !! e.
Definition walked (s : schedule) (e : nat) (T t : tree) (x : nat) : Prop :=
  (∃ s', placed s e T s' ∧ ∀ fuel, (size t ≤ fuel)%nat → loop fuel (insert_body random e) (x, s) = Ret s') ∨
  (collides s e T ∧ ∃ k, (k ≤ size t)%nat ∧
    ∀ fuel, loop (k + fuel) (insert_body random e) (x, s) = redraw fuel e s).

Lemma walked_step s e T t t' x y :
  (size t < size t')%nat → insert_body random e (y, s) = Ret (inl (x, s)) →
  walked s e T t x → walked s e T t' y.
Proof.
  intros Hs Hb [(s' & Hp & Hl)|(Hc & k & Hk & Hl)]; [left|right].
  - exists s'. split; [done|]. intros [|fuel] Hf; [lia|]. rewrite loop_S, Hb. apply Hl. lia.
  - split; [done|]. exists (S k). split; [lia|]. intros fuel. cbn [Nat.add]. rewrite loop_S, Hb. apply Hl.
Qed.

Lemma placed_at s e b x t c :
  tree_at s (plug (F b x t :: c) L) → e ∉ ids (plug (F b x t :: c) L) →
  lk (s_mem s) e = Some (None, None, None) → fits s e (F b x t :: c) →
  ∃ s', (s1 ← upd x (if b then set_lt (Some e) else set_gt (Some e)) s; upd e (set_parent (Some x)) s1) = Ret s' ∧
    placed s e (plug (F b x t :: c) L) s'.
Proof.
  intros HT Hout He Hf. destruct (attach_at b c x t e s HT Hout He) as (s' & Hs' & HT' & Hrel).
  exists s'. split; [done|]. exists (F b x t :: c). by split_and!.
Qed.

Lemma insert_walk s e T t : ∀ c x, T = plug c t → root t = Some x →
  tree_at s T → e ∉ ids T → lk (s_mem s) e = Some (None, None, None) →
  sorted s T → fits s e c → walked s e T t x.
Proof.
  induction t as [|l IHl y r IHr]; intros c x HTe Hx HT Hout He HS Hf; [done|].
  cbn in Hx. injection Hx as ->. subst T.
  pose proof (proj1 (tree_at_node _ _ _ _ _) HT) as (_ & _ & Hxl & _).
  assert (∃ ex, get e s = Ret ex ∧ s_mem s !! e = Some ex) as (ex & Hge & Hme).
  { unfold lk in He. unfold get. destruct (s_mem s !! e); [|done]. eauto. }
  destruct (get_lk _ _ _ _ _ Hxl) as (yx & Hmx & Hgx & _ & Hl & Hr).
  destruct (compare_spec ex yx) as [[Hc Hk]|[[Hc Hk]|[Hc Hk]]].
  - assert (before s e x) as Hb by (unfold before; by rewrite Hme, Hmx).
    pose proof (fits_lt _ _ _ _ _ _ HS Hf Hb) as Hf'. destruct l as [|ll y rr].
    + destruct (placed_at s e true x r c) as (s' & Hu & Hp); [done..|].
      left. exists s'. split; [done|]. intros [|fuel] Hfu; [cbn in Hfu; lia|]. rewrite loop_S.
      assert (insert_body random e (x, s) = Ret (inr s')) as ->; [|by bret].
      unfold insert_body. rewrite Hge, bind_Ret, Hgx, bind_Ret. cbv zeta. rewrite Hc, Hl. cbn [root].
      rewrite decide_True by done. apply bind_Ret_inv in Hu as (s1 & -> & Hu). bret. by rewrite Hu.
    + apply (walked_step s e _ (N ll y rr) _ y); [cbn; lia| |apply (IHl (F true x r :: c)); done].
      unfold insert_body. rewrite Hge, bind_Ret, Hgx, bind_Ret. cbv zeta. rewrite Hc, Hl. done.
  - assert (before s x e) as Hb by (unfold before; by rewrite Hme, Hmx).
    pose proof (fits_gt _ _ _ _ _ _ HS Hf Hb) as Hf'. destruct r as [|ll y rr].
    + destruct (placed_at s e false x l c) as (s' & Hu & Hp); [done..|].
      left. exists s'. split; [done|]. intros [|fuel] Hfu; [cbn in Hfu; lia|]. rewrite loop_S.
      assert (insert_body random e (x, s) = Ret (inr s')) as ->; [|by bret].
      unfold insert_body. rewrite Hge, bind_Ret, Hgx, bind_Ret. cbv zeta. rewrite Hc, Hr. cbn [root].
      rewrite decide_False, decide_True by done. apply bind_Ret_inv in Hu as (s1 & -> & Hu). bret. by rewrite Hu.
    + apply (walked_step s e _ (N ll y rr) _ y); [cbn; lia| |apply (IHr (F false x l :: c)); done].
      unfold insert_body. rewrite Hge, bind_Ret, Hgx, bind_Ret. cbv zeta. rewrite Hc, Hr. done.
  - right. split.
    + exists x. split; [|by rewrite Hme, Hmx; cbn -[data]; f_equal].
      rewrite ids_plug, !elem_of_app. right; left. cbn. rewrite elem_of_app, elem_of_cons. auto.
    + exists 1%nat. split; [cbn; lia|]. intros fuel. cbn [Nat.add]. rewrite loop_S.
      assert (insert_body random e (x, s) =
        (s ← schedule_set_pri random e s; r ← of_option (s_root s); Ret (inl (r, s)))) as ->.
      { unfold insert_body. rewrite Hge, bind_Ret, Hgx, bind_Ret. cbv zeta. by rewrite Hc. }
      unfold redraw. destruct (schedule_set_pri random e s) as [s1| | |]; [|done..]. rewrite !bind_Ret.
      by destruct (s_root s1).
Qed.

Lemma kept_lk_data s e i : data <$> s_mem s !! i = data <$> s_mem s !! e → is_Some (s_mem s !! e) → pri_of s i = pri_of s e.
Proof.
  unfold pri_of. intros H [x Hx]. rewrite Hx in H |- *. destruct (s_mem s !! i); [|done].
  apply (inj Some) in H. unfold data in H. cbn. congruence.
Qed.
Lemma sorted_kept e s s' t : kept e s s' → e ∉ ids t → sorted s t → sorted s' t.
Proof.
  intros (_ & _ & Hk) Hout. apply sorted_impl. intros i j Hi Hj.
  apply before_data; apply Hk; by intros ->.
Qed.

(** After enough draws [e] finds its place. *)
Lemma insert_at e k T x n : ∀ s j, n = (k - j)%nat → (j ≤ k)%nat → root T = Some x →
  tree_at s T → e ∉ ids T → lk (s_mem s) e = Some (None, None, None) → sorted s T →
  s_draws s = S j → pri_of s e = drawn j → (∀ i, i ∈ ids T → pri_of s i ≠ drawn k) →
  ∃ s1 s' N, kept e s s1 ∧ (∃ m, pri_of s1 e = drawn m) ∧ (∀ i, lk (s_mem s1) i = lk (s_mem s) i) ∧
    placed s1 e T s' ∧ ∀ fuel, (N ≤ fuel)%nat → loop fuel (insert_body random e) (x, s) = Ret s'.
Proof.
  induction n as [n IH] using lt_wf_ind. intros s j Hn Hj Hx HT Hout He HS Hd Hp Hk.
  assert (fits s e []) as Hfit by (split; intros i; cbn; by rewrite elem_of_nil).
  destruct (insert_walk s e T T [] x eq_refl Hx HT Hout He HS Hfit) as [(s' & Hpl & Hl)|((i & Hi & Hdi) & n' & Hn' & Hl)].
  - exists s, s', (size T). split_and!; [done|by exists j|done|done|done].
  - assert (is_Some (s_mem s !! e)) as Hsome by (unfold lk in He; by destruct (s_mem s !! e)).
    pose proof (kept_lk_data s e i Hdi Hsome) as Hpi.
    assert (j ≠ k) as Hjk. { intros ->. apply (Hk i Hi). by rewrite Hpi. }
    destruct (set_pri_drawn s e Hsome) as (s1 & Hsp & Hr1 & Hd1 & Hk1 & Hp1 & Hl1).
    destruct (IH (k - S j)%nat ltac:(lia) s1 (S j)) as (s2 & s' & N & Hk2 & Hm & Hlk2 & Hpl & Hl2); try done; [lia|..].
    + by apply (tree_at_ext s).
    + by rewrite Hl1.
    + by apply (sorted_kept e s).
    + by rewrite Hd1, Hd.
    + by rewrite Hp1, Hd.
    + intros i' Hi'. rewrite (kept_pri e s s1); [by apply Hk|done|]. by intros ->.
    + exists s2, s', (n' + N)%nat. split_and!; try done.
      * by eapply kept_trans.
      * intros i'. by rewrite Hlk2.
      * intros fuel Hf. replace fuel with (n' + (fuel - n'))%nat by lia. rewrite Hl. unfold redraw.
        rewrite Hsp, bind_Ret, Hr1, (proj1 HT), Hx. cbn [of_option]. rewrite bind_Ret. apply Hl2. lia.
Qed.
End random.

(** ** Climbing to the place of the priority *)

Lemma climb_at pr e c : ∀ s a r,
  tree_at s (plug c (N a e r)) → (∀ i, pri_of s i = pr i) → 1 ≤ pr e → heap_frames pr c →
  heap_from pr (pr e) a → heap_from pr (pr e) r → heap_from pr (bound pr c) a → heap_from pr (bound pr c) r →
  ∃ s' t', (∀ fuel, (length c < fuel)%nat → loop fuel (up_body e) s = Ret s') ∧ tree_at s' t' ∧
    heap_from pr 1 t' ∧ ids t' = ids (plug c (N a e r)) ∧ relinked (ids (plug c (N a e r))) s s'.
Proof.
  induction c as [|[b p t] c IH]; intros s a r HT Hpr H1 Hc Ha Hr Ha' Hr';
    pose proof (proj1 (tree_at_node _ _ _ _ _) HT) as (_ & _ & He & _ & _ & Hf);
    destruct (get_pri _ _ _ He) as (x & Hg & Hlx & Hpx); injection Hlx as Hx _ _.
  - exists s, (N a e r). split_and!; try done. intros [|fuel] Hfu; [cbn in Hfu; lia|]. rewrite loop_S.
    assert (up_body e s = Ret (inr s)) as ->; [|done].
    unfold up_body. rewrite Hg. bret. by rewrite Hx.
  - destruct Hc as (Hb & Ht & Hc). cbn [bound f_id f_sib] in *.
    cbn [frame_links] in Hf. rewrite sat_cons in Hf. destruct Hf as [Hp _].
    destruct (get_pri _ _ _ Hp) as (y & Hgy & _ & Hpy). rewrite Hpr in Hpx, Hpy.
    assert (up_body e s = if decide (pr p > pr e) then s ← schedule_rotate_up (Some e) s; Ret (inl s) else Ret (inr s)) as Hbody.
    { unfold up_body. rewrite Hg. bret. rewrite Hx. cbn [parent_of f_id]. rewrite Hgy. bret. by rewrite Hpx, Hpy. }
    destruct (decide (pr p > pr e)) as [Hgt|Hle].
    + destruct (rotate_up_at c b p t a e r s HT) as (s1 & Hrot & HT1 & Hrel1). rewrite Hrot, bind_Ret in Hbody.
      assert (∃ a' r', turned b p t a e r = N a' e r' ∧ heap_from pr (pr e) a' ∧ heap_from pr (pr e) r' ∧
        heap_from pr (bound pr c) a' ∧ heap_from pr (bound pr c) r') as (a' & r' & Htu & H2 & H3 & H4 & H5).
      { destruct b; [exists a, (N r p t)|exists (N t p a), r]; cbn; split_and!; try done; try lia;
          by apply (heap_le _ (pr p)). }
      rewrite Htu in HT1. destruct (IH s1 a' r') as (s' & t' & Hl & HT' & Hh & Hids & Hrel); [done| |done..|].
      { intros i. by rewrite (relinked_pri _ _ _ _ Hrel1). }
      rewrite <- Htu, ids_turned_plug in Hids, Hrel.
      exists s', t'. split_and!; [|done..|by eapply relinked_trans].
      intros [|fuel] Hfu; [cbn in Hfu; lia|]. rewrite loop_S, Hbody, bind_Ret. apply Hl. cbn in Hfu. lia.
    + exists s, (plug (F b p t :: c) (N a e r)). split_and!; try done.
      * intros [|fuel] Hfu; [cbn in Hfu; lia|]. by rewrite loop_S, Hbody.
      * apply heap_plug. cbn [heap_frames bound f_id f_sib heap_from]. by split_and!.
Qed.

(** ** Adding an entry *)

Lemma heap_in pr lo t i : heap_from pr lo t → i ∈ ids t → lo ≤ pr i.
Proof.
  revert lo. induction t as [|l IHl e r IHr]; intros lo; cbn; [by rewrite elem_of_nil|].
  rewrite elem_of_app, elem_of_cons. intros (H & Hl & Hr) [Hi|[->|Hi]]; [|done|].
  - specialize (IHl _ Hl Hi). lia.
  - specialize (IHr _ Hr Hi). lia.
Qed.
Lemma tree_at_in s t i : tree_at s t → i ∈ ids t → is_Some (s_mem s !! i).
Proof.
  intros HT Hi. destruct (tree_split t i Hi) as (c & a & r & ->).
  apply tree_at_node in HT as (_ & _ & H & _). unfold lk in H. by destruct (s_mem s !! i).
Qed.

Section random.
Context (random : nat → Z).

(** A draw from now on is none of the priorities of the other entries. *)
Definition fresh_draw (s : schedule) (e : nat) : Prop :=
  ∃ k, (s_draws s ≤ k)%nat ∧ ∀ i, i ≠ e → is_Some (s_mem s !! i) → pri_of s i ≠ drawn random k.

(** [e] is put below the others, its place by its key. *)
Lemma place_at s t e k :
  treap_at s t → sorted s t → e ∉ ids t → is_Some (s_mem s !! e) →
  (s_draws s ≤ k)%nat → (∀ i, i ≠ e → is_Some (s_mem s !! i) → pri_of s i ≠ drawn random k) →
  ∃ s1 s' N, kept e s s1 ∧ (∃ m, pri_of s1 e = drawn random m) ∧ (∀ i, lk (s_mem s1) i = lk (s_mem s) i) ∧
    placed s1 e t s' ∧
    ∀ fuel, (N ≤ fuel)%nat →
      (s ← schedule_set_pri random e s;
       match s_root s with Some _ => schedule_insert random fuel e s | None => Ret (set_root (Some e) s) end) = Ret s'.
Proof.
  intros (HT & Hh & Hi) HS Hout Hsome Hd Hk.
  destruct (Hi e Hsome Hout) as [He _].
  destruct (set_pri_drawn random s e Hsome) as (s1 & Hsp & Hr1 & Hd1 & Hk1 & Hp1 & Hl1).
  setoid_rewrite Hsp. setoid_rewrite bind_Ret. rewrite Hr1, (proj1 HT). destruct (root t) as [x|] eqn:Hx.
  - destruct (insert_at random e k t x _ s1 (s_draws s) eq_refl) as (s2 & s' & N & Hk2 & Hm & Hl2 & Hpl & Hl); try done.
    + by apply (tree_at_ext s).
    + by rewrite Hl1.
    + by apply (sorted_kept e s).
    + intros i Hin. assert (i ≠ e) as Hne by (by intros ->).
      rewrite (kept_pri e s s1); [|done|done]. apply Hk; [done|]. by apply (tree_at_in s t).
    + exists s2, s', N. split_and!; [by eapply kept_trans|done| |done|].
      * intros i. by rewrite Hl2.
      * intros fuel Hf. unfold schedule_insert. rewrite Hr1, (proj1 HT), Hx. cbn [of_option]. rewrite bind_Ret. by apply Hl.
  - destruct t as [|]; [|done]. exists s1, (set_root (Some e) s1), 0%nat. split_and!; try done; [by exists (s_draws s)|].
    exists []. split_and!; [|done|done|..].
    + split_and!; [done|apply NoDup_singleton|]. cbn [plug links root]. apply sat_cons. split; [|by apply Forall_nil].
      change (lk (s_mem s1) e = Some (None, None, None)). by rewrite Hl1.
    + split; intros i; cbn; by rewrite elem_of_nil.
Qed.

(** An entry of the tree is taken out first. *)
Lemma taken_out s t e :
  treap_at s t → is_Some (s_mem s !! e) →
  ∃ s1 t1 N1, (∀ fuel, (N1 ≤ fuel)%nat →
      (x ← get e s; if decide (se_pri x ≠ 0) then schedule_remove_node fuel e s else Ret s) = Ret s1) ∧
    treap_at s1 t1 ∧ kept e s s1 ∧ s_draws s1 = s_draws s ∧ ids t1 = filter (λ i, i ≠ e) (ids t).
Proof.
  intros HT Hsome.
  assert (∃ x, get e s = Ret x ∧ se_pri x = pri_of s e) as (x & Hg & Hx).
  { unfold get, pri_of. destruct Hsome as [x ->]. by exists x. }
  setoid_rewrite Hg. setoid_rewrite bind_Ret. rewrite Hx. destruct (decide (pri_of s e ≠ 0)) as [Hp|Hp].
  - destruct (remove_node_at s t e HT Hsome) as (s' & t' & Hl & HT' & Hk' & Hd' & _ & Hids).
    exists s', t', (S (size t)). split_and!; try done.
  - exists s, t, 0%nat. split_and!; try done. rewrite filter_neq; [done|]. intros Hin.
    pose proof (heap_in _ _ _ e (proj1 (proj2 HT)) Hin). lia.
Qed.

Lemma fits_sorted s e c : fits s e c → sorted s (plug c L) → sorted s (plug c (N L e L)).
Proof.
  intros [HD HE]. unfold sorted. rewrite !ids_plug. cbn [ids app]. intros (HA & HB & HC)%sorted_app.
  apply sorted_app. split_and!; [done|by apply sorted_cons|].
  intros i j Hi. rewrite elem_of_cons. intros [->|Hj]; auto.
Qed.

Lemma add_modify_at s t e :
  treap_at s t → is_Some (s_mem s !! e) → StronglySorted (before s) (filter (λ i, i ≠ e) (ids t)) →
  fresh_draw s e →
  ∃ s' t' N, (∀ fuel, (N ≤ fuel)%nat → schedule_add_modify random fuel e s = Ret s') ∧
    treap_at s' t' ∧ sorted s' t' ∧ kept e s s' ∧ 1 ≤ pri_of s' e.
Proof.
  intros HT Hsome HS (k & Hdk & Hk).
  destruct (taken_out s t e HT Hsome) as (s1 & t1 & N1 & Hl1 & HT1 & Hk1 & Hd1 & Hids1).
  assert (e ∉ ids t1) as Hout1. { rewrite Hids1. by intros [[] _]%list_elem_of_filter. }
  assert (sorted s1 t1) as HS1.
  { unfold sorted. rewrite Hids1. revert HS. apply sorted_impl.
    intros i j [Hi _]%list_elem_of_filter [Hj _]%list_elem_of_filter. apply before_data; by apply Hk1. }
  assert (is_Some (s_mem s1 !! e)) as Hsome1.
  { destruct Hsome as [x Hx], Hk1 as (_ & H & _). specialize (H e). rewrite Hx in H. by destruct (s_mem s1 !! e). }
  destruct (place_at s1 t1 e k HT1 HS1 Hout1 Hsome1) as (s2 & s3 & N2 & Hk2 & (m & Hm) & Hlk2 & (c & HT3 & Hrel3 & <- & Hf) & Hl2).
  { by rewrite Hd1. }
  { intros i Hne Hi. rewrite (kept_pri e s s1) by done. apply Hk; [done|]. by apply (kept_some e s s1). }
  pose proof (drawn_pos random m) as Hpos.
  assert (heap_frames (pri_of s3) c) as Hhc.
  { assert (heap_from (pri_of s3) 1 (plug c L)) as H; [|by apply heap_plug in H as [H _]].
    apply (heap_ext (pri_of s1)); [|apply HT1]. intros i Hi. rewrite (relinked_pri _ _ _ _ Hrel3).
    apply (kept_pri e); [done|]. by intros ->. }
  assert (pri_of s3 e = drawn random m) as Hp3 by (by rewrite (relinked_pri _ _ _ _ Hrel3)).
  destruct (climb_at (pri_of s3) e c s3 L L) as (s4 & t4 & Hl4 & HT4 & Hh4 & Hids4 & Hrel4); try done; [lia|].
  assert (kept e s1 s4) as Hk4.
  { eapply kept_trans; [exact Hk2|]. eapply kept_trans; by eapply relinked_kept. }
  assert (∀ i, i ∈ ids t4 ↔ i = e ∨ i ∈ ids (plug c L)) as Hin4.
  { intros i. rewrite Hids4, !ids_plug, !elem_of_app. cbn. rewrite elem_of_cons, !elem_of_nil. tauto. }
  exists s4, t4, (N1 + N2 + S (length c))%nat. split_and!.
  - intros fuel Hfu. unfold schedule_add_modify. specialize (Hl1 fuel ltac:(lia)). specialize (Hl2 fuel ltac:(lia)).
    apply bind_Ret_inv in Hl1 as (x & -> & Hx). rewrite bind_Ret, Hx, bind_Ret.
    apply bind_Ret_inv in Hl2 as (s2' & -> & Hs2). rewrite bind_Ret, Hs2, bind_Ret. apply Hl4. lia.
  - split_and!; [done| |].
    + apply (heap_ext (pri_of s3)); [|done]. intros i _. by apply (relinked_pri _ _ _ _ Hrel4).
    + intros i Hi Hni. rewrite Hin4 in Hni. assert (i ≠ e ∧ i ∉ ids (plug c L)) as [Hne Hni'] by tauto.
      apply (idle_kept e s1); [|done|done|].
      * apply (proj2 (proj2 HT1)); [by apply (kept_some e s1 s4)|done].
      * rewrite (relinked_lk _ _ _ _ Hrel4), (relinked_lk _ _ _ _ Hrel3), Hlk2; [done|..].
        -- rewrite elem_of_cons. tauto.
        -- rewrite <- Hids4, Hin4. tauto.
  - assert (StronglySorted (before s2) (ids t4)) as HS4.
    { rewrite Hids4. by apply fits_sorted, (sorted_kept e s1). }
    revert HS4. apply sorted_impl. intros i j _ _. apply before_data.
    + rewrite (proj1 (proj2 (proj2 Hrel4))). apply Hrel3.
    + rewrite (proj1 (proj2 (proj2 Hrel4))). apply Hrel3.
  - by eapply kept_trans.
  - rewrite (relinked_pri _ _ _ _ Hrel4), Hp3. done.
Qed.
End random.

(** ** The earliest entry *)

Lemma least_at s l : ∀ c e r, tree_at s (plug c (N l e r)) →
  ∃ i, head (ids (N l e r)) = Some i ∧ ∀ fuel, (size l < fuel)%nat → loop fuel (least_body s) e = Ret i.
Proof.
  induction l as [|ll IH i lr _]; intros c e r HT;
    pose proof (proj1 (tree_at_node _ _ _ _ _) HT) as (_ & _ & He & _);
    destruct (get_lk _ _ _ _ _ He) as (x & _ & Hg & _ & Hx & _).
  - exists e. split; [done|]. intros [|fuel] Hf; [lia|]. rewrite loop_S.
    assert (least_body s e = Ret (inr e)) as ->; [|done]. unfold least_body. rewrite Hg. bret. by rewrite Hx.
  - destruct (IH (F true e r :: c) i lr) as (j & Hj & Hl); [done|].
    exists j. split.
    + cbn [ids] in *. by destruct (ids ll).
    + intros [|fuel] Hf; [lia|]. rewrite loop_S.
      assert (least_body s e = Ret (inl i)) as ->; [|bret; apply Hl; cbn in Hf; lia].
      unfold least_body. rewrite Hg. bret. by rewrite Hx.
Qed.
Lemma find_least_at s t :
  tree_at s t → ∀ fuel, (size t < fuel)%nat → schedule_find_least fuel (s_root s) s = Ret (head (ids t)).
Proof.
  intros HT fuel Hf. pose proof HT as [-> _]. destruct t as [|l e r]; [done|].
  destruct (least_at s l [] e r HT) as (i & -> & Hl). cbn [root schedule_find_least].
  rewrite Hl by (cbn in Hf; lia). done.
Qed.
