(* ===== verification/OvpnScheduleProps.v ===== *)
(** * OpenVPN: what the scheduler promises

    [treap_ok] is the state between two calls, [scheduled] what it stands for: the
    wakeup time of each scheduled entry.  [schedule_refines_map] relates every call
    to its effect on that map. *)
From Stdlib Require Import Sorted.
From stdpp Require Import gmap.
From S2P Require Import Prelude OvpnTime OvpnSchedule OvpnScheduleProofs.
#[local] Open Scope bool_scope.
#[local] Open Scope Z_scope.

Definition treap_ok (s : schedule) : Prop :=
  ∃ t, treap_at s t ∧ sorted s t ∧
    (s_earliest_wakeup s = None ∨ s_earliest_wakeup s = head (ids t)).
Definition scheduled (s : schedule) : gmap nat timeval :=
  omap (λ x, if decide (se_pri x = 0) then None else Some (se_tv x)) (s_mem s).

Inductive sched_op :=
| Add (e : nat) (tv : timeval) (sigma : Z)
| Remove (e : nat)
| Earliest.

Section random.
Context (random : nat → Z).

Definition run_op (fuel : nat) (op : sched_op) (s : schedule) : outcome (option (nat * timeval) * schedule) :=
  match op with
  | Add e tv sigma => s ← schedule_add_entry random fuel e tv sigma s; Ret (None, s)
  | Remove e => s ← schedule_remove_entry fuel e s; Ret (None, s)
  | Earliest => schedule_get_earliest_wakeup fuel s
  end.
(** The entry is one of the heap; a new key can be told from the others. *)
Definition can_run (op : sched_op) (s : schedule) : Prop :=
  match op with
  | Add e _ _ => is_Some (s_mem s !! e) ∧ fresh_draw random s e
  | Remove e => is_Some (s_mem s !! e)
  | Earliest => True
  end.
End random.

(** The wakeup time of an entry already close enough stays. *)
Definition near_enough (m : gmap nat timeval) (e : nat) (tv : timeval) (sigma : Z) : bool :=
  match m !! e with
  | Some tv0 => if decide (sigma = 0) then false else match tv_within_sigma tv tv0 sigma with Ret b => b | _ => false end
  | None => false
  end.
Definition spec_op (op : sched_op) (m : gmap nat timeval) (r : option (nat * timeval)) (m' : gmap nat timeval) : Prop :=
  match op with
  | Add e tv sigma => r = None ∧ m' = if near_enough m e tv sigma then m else <[e := tv]> m
  | Remove e => r = None ∧ m' = delete e m
  | Earliest =>
      m' = m ∧
      match r with
      | Some (e, tv) => m !! e = Some tv ∧ ∀ i tv', m !! i = Some tv' → tv_lt tv' tv = false
      | None => m = ∅
      end
  end.

Lemma lookup_scheduled s i :
  scheduled s !! i = (x ← s_mem s !! i; if decide (se_pri x = 0) then None else Some (se_tv x)).
Proof. unfold scheduled. by rewrite lookup_omap. Qed.
Lemma scheduled_pri s i : scheduled s !! i = None ↔ s_mem s !! i = None ∨ pri_of s i = 0.
Proof.
  rewrite lookup_scheduled. unfold pri_of. destruct (s_mem s !! i) as [x|]; cbn; [|naive_solver].
  case_decide; naive_solver.
Qed.
Lemma scheduled_kept e s s' i : kept e s s' → i ≠ e → scheduled s' !! i = scheduled s !! i.
Proof.
  intros (_ & _ & H) Hi. specialize (H i Hi). rewrite !lookup_scheduled.
  destruct (s_mem s' !! i), (s_mem s !! i); cbn in *; try discriminate; [|done].
  unfold data in H. injection H as -> ->. done.
Qed.
Lemma scheduled_same s s' : (∀ i, s_mem s' !! i = s_mem s !! i) → scheduled s' = scheduled s.
Proof. intros H. apply map_eq. intros i. by rewrite !lookup_scheduled, H. Qed.
Lemma scheduled_in s t i : treap_at s t → i ∈ ids t ↔ is_Some (scheduled s !! i).
Proof.
  intros (HT & Hh & Hi). rewrite <- not_eq_None_Some, scheduled_pri. split.
  - intros Hin [Hn|Hn]; [destruct (tree_at_in s t i HT Hin); congruence|].
    pose proof (heap_in _ _ _ _ Hh Hin). lia.
  - intros Hn. destruct (decide (i ∈ ids t)) as [|Hni]; [done|]. exfalso. apply Hn.
    destruct (s_mem s !! i) eqn:Hm; [right|by left]. apply Hi; [by rewrite Hm|done].
Qed.

Lemma tv_subtract_ok t1 t2 : ∃ z, tv_subtract t1 t2 TV_WITHIN_SIGMA_MAX_SEC = Ret z.
Proof.
  unfold tv_subtract. change (int (s32 (u32 (TV_WITHIN_SIGMA_MAX_SEC * 1000000)))) with (Ret 600000000). bret.
  change (int (s32 TV_WITHIN_SIGMA_MAX_SEC + 10)) with (Ret 610). cbv zeta. bret.
  repeat case_decide; [by eexists..|]. rewrite int_ok; [by eexists|]. ints. lia.
Qed.
Lemma within_sigma_ok t1 t2 sigma : ∃ b, tv_within_sigma t1 t2 sigma = Ret b.
Proof. unfold tv_within_sigma. destruct (tv_subtract_ok t1 t2) as [z ->]. by eexists. Qed.

Lemma tv_lt_spec a b :
  tv_lt a b = true ↔ tv_sec a < tv_sec b ∨ tv_sec a = tv_sec b ∧ tv_usec a < tv_usec b.
Proof. unfold tv_lt. repeat case_decide; rewrite ?bool_decide_eq_true; split; try done; lia. Qed.
Lemma before_tv s i j x y :
  s_mem s !! i = Some x → s_mem s !! j = Some y → before s i j → tv_lt (se_tv y) (se_tv x) = false.
Proof.
  intros Hx Hy. unfold before. rewrite Hx, Hy. intros H. apply not_true_is_false. rewrite tv_lt_spec.
  unfold key_lt in H. cbn in H. lia.
Qed.

Lemma scheduled_size s t : treap_at s t → size t = base.size (scheduled s).
Proof.
  intros HT. rewrite <- size_ids, <- size_dom.
  assert (dom (scheduled s) = list_to_set (ids t)) as ->.
  { apply set_eq. intros i. by rewrite elem_of_dom, elem_of_list_to_set, (scheduled_in s t). }
  symmetry. apply size_list_to_set. apply (proj1 HT).
Qed.
(** The heap has the same entries. *)
Definition same_entries (s s' : schedule) : Prop := ∀ i, is_Some (s_mem s' !! i) ↔ is_Some (s_mem s !! i).
Lemma kept_entries e s s' : kept e s s' → same_entries s s'.
Proof. intros (_ & H & _) i. rewrite <- (fmap_is_Some se_tv), H. by rewrite fmap_is_Some. Qed.

(** ** Each call *)

Section random.
Context (random : nat → Z).

Definition meets_spec (op : sched_op) (s : schedule) : Prop :=
  ∃ s' r N, (∀ fuel, (N ≤ fuel)%nat → run_op random fuel op s = Ret (r, s')) ∧
    match op with Add _ _ _ => True | _ => N = S (base.size (scheduled s)) end ∧
    treap_ok s' ∧ spec_op op (scheduled s) r (scheduled s') ∧ same_entries s s'.

Lemma treap_at_earliest s t r : treap_at s t → treap_at (set_earliest r s) t.
Proof. done. Qed.

Lemma add_entry_eq fuel e tv sigma s x :
  get e s = Ret x →
  schedule_add_entry random fuel e tv sigma s =
  if near_enough (scheduled s) e tv sigma then Ret s
  else (s ← upd e (set_tv tv) s; s ← schedule_add_modify random fuel e s; Ret (set_earliest None s)).
Proof.
  intros Hg. unfold schedule_add_entry, near_enough. rewrite Hg, lookup_scheduled.
  unfold get in Hg. destruct (s_mem s !! e) as [y|]; [|done]. injection Hg as ->. cbn.
  destruct (decide (se_pri x = 0)) as [H0|H0].
  - rewrite (decide_True (P := se_pri x = 0 ∨ sigma = 0)) by auto. by bret.
  - cbn. destruct (decide (sigma = 0)) as [->|Hs].
    + rewrite (decide_True (P := se_pri x = 0 ∨ 0 = 0)) by auto. by bret.
    + rewrite (decide_False (P := se_pri x = 0 ∨ sigma = 0)) by tauto.
      destruct (within_sigma_ok tv (se_tv x) sigma) as [[] ->]; by bret.
Qed.

Lemma add_meets_spec e tv sigma s :
  treap_ok s → can_run random (Add e tv sigma) s → meets_spec (Add e tv sigma) s.
Proof.
  intros (t & HT & HS & Hc) [[x Hx] Hfr]. unfold meets_spec.
  assert (get e s = Ret x) as Hg by (unfold get; by rewrite Hx).
  cbn [run_op spec_op]. setoid_rewrite (add_entry_eq _ _ _ _ _ _ Hg).
  destruct (near_enough (scheduled s) e tv sigma) eqn:Hnear.
  { exists s, None, 0%nat. split; [done|]. split; [done|]. split; [by exists t|done]. }
  set (s1 := Sched (s_earliest_wakeup s) (s_root s) (<[e := set_tv tv x]> (s_mem s)) (s_draws s)).
  assert (upd e (set_tv tv) s = Ret s1) as -> by (unfold upd; by rewrite Hg).
  assert (∀ i, i ≠ e → s_mem s1 !! i = s_mem s !! i) as Hother by (intros i Hi; cbn; by rewrite lookup_insert_ne).
  assert (∀ i, lk (s_mem s1) i = lk (s_mem s) i ∧ pri_of s1 i = pri_of s i) as Hsame.
  { intros i. unfold lk, pri_of. destruct (decide (i = e)) as [->|Hi]; [|by rewrite Hother].
    cbn [s1 s_mem]. by rewrite lookup_insert_eq, Hx. }
  assert (∀ i, is_Some (s_mem s1 !! i) → is_Some (s_mem s !! i)) as Hdom.
  { intros i. destruct (decide (i = e)) as [->|Hi]; [by rewrite Hx|by rewrite Hother]. }
  assert (treap_at s1 t) as HT1.
  { destruct HT as (H1 & H2 & H3). split_and!.
    - apply (tree_at_ext s); [done|apply Hsame|done].
    - revert H2. apply heap_ext. intros i _. apply Hsame.
    - intros i Hi Hni. destruct (H3 i (Hdom i Hi) Hni). split; [by rewrite (proj1 (Hsame i))|by rewrite (proj2 (Hsame i))]. }
  destruct (add_modify_at random s1 t e) as (s2 & t2 & N & Hl & HT2 & HS2 & Hk & Hp); [done| | | |].
  { cbn. by rewrite lookup_insert_eq. }
  { apply (sorted_impl (before s)); [|by apply sorted_filter].
    intros i j [Hi _]%list_elem_of_filter [Hj _]%list_elem_of_filter. apply before_data; by rewrite Hother. }
  { destruct Hfr as (k & Hk & Hfr). exists k. split; [done|]. intros i Hi Hi'. rewrite (proj2 (Hsame i)).
    apply Hfr; [done|]. by apply Hdom. }
  exists (set_earliest None s2), None, N. split; [|split; [done|split; [|split]]].
  - intros fuel Hf. rewrite bind_Ret, Hl by done. by bret.
  - exists t2. split; [by apply treap_at_earliest|]. split; [done|]. by left.
  - split; [done|]. apply map_eq. intros i. destruct (decide (i = e)) as [->|Hi].
    + rewrite lookup_insert_eq. change (scheduled (set_earliest None s2)) with (scheduled s2).
      rewrite lookup_scheduled. pose proof (proj1 (proj2 Hk) e) as Htv.
      unfold pri_of in Hp. cbn [s1 s_mem] in Htv. rewrite lookup_insert_eq in Htv.
      destruct (s_mem s2 !! e) as [y|]; [|done]. cbn in *. rewrite decide_False by lia. congruence.
    + rewrite lookup_insert_ne by done. change (scheduled (set_earliest None s2)) with (scheduled s2).
      rewrite (scheduled_kept e s1 s2) by done. rewrite !lookup_scheduled. by rewrite Hother.
  - intros i. rewrite (kept_entries e s1 s2 Hk i). destruct (decide (i = e)) as [->|Hi]; [|by rewrite Hother].
    cbn [s1 s_mem]. by rewrite lookup_insert_eq, Hx.
Qed.

Lemma remove_meets_spec e s : treap_ok s → can_run random (Remove e) s → meets_spec (Remove e) s.
Proof.
  intros (t & HT & HS & Hc) Hx. unfold meets_spec. cbn [run_op spec_op can_run] in *.
  destruct (remove_node_at (set_earliest None s) t e) as (s' & t' & Hl & HT' & Hk & _ & Hi & Hids); [done|done|].
  exists s', None, (S (size t)). split; [|split; [by rewrite (scheduled_size s t)|split; [|split]]].
  - intros fuel Hf. unfold schedule_remove_entry. rewrite Hl by lia. by bret.
  - exists t'. split; [done|]. split; [|left; apply Hk].
    unfold sorted. rewrite Hids. apply (sorted_impl (before s)); [|by apply sorted_filter].
    intros i j [Hi' _]%list_elem_of_filter [Hj _]%list_elem_of_filter.
    apply (before_data (set_earliest None s)); by apply Hk.
  - split; [done|]. apply map_eq. intros i. destruct (decide (i = e)) as [->|Hne].
    + rewrite lookup_delete_eq. apply scheduled_pri. right. apply Hi.
    + rewrite lookup_delete_ne by done. by rewrite (scheduled_kept e (set_earliest None s) s').
  - exact (kept_entries e _ _ Hk).
Qed.

Lemma head_least s t e :
  treap_at s t → sorted s t → head (ids t) = Some e →
  ∃ x, s_mem s !! e = Some x ∧ scheduled s !! e = Some (se_tv x) ∧
    ∀ i tv', scheduled s !! i = Some tv' → tv_lt tv' (se_tv x) = false.
Proof.
  intros HT HS He. destruct (ids t) as [|e' l] eqn:Hids; [done|]. injection He as ->.
  assert (∀ i tv, scheduled s !! i = Some tv → ∃ y, s_mem s !! i = Some y ∧ tv = se_tv y ∧ i ∈ e :: l) as Hsch.
  { intros i tv Hi. rewrite <- Hids. assert (i ∈ ids t) as Hin by (apply (scheduled_in s); [done|by rewrite Hi]).
    rewrite lookup_scheduled in Hi. destruct (s_mem s !! i) as [y|]; [|done]. cbn in Hi.
    case_decide; [done|]. injection Hi as <-. by exists y. }
  assert (is_Some (scheduled s !! e)) as [tv Htv].
  { apply (scheduled_in s t); [done|]. rewrite Hids. by left. }
  destruct (Hsch _ _ Htv) as (x & Hx & -> & _). exists x. split_and!; [done..|].
  intros i tv' Hi. destruct (Hsch _ _ Hi) as (y & Hy & -> & Hin). apply elem_of_cons in Hin as [->|Hin].
  - rewrite Hx in Hy. injection Hy as <-. apply not_true_is_false. rewrite tv_lt_spec. lia.
  - apply (before_tv s e i); [done..|]. unfold sorted in HS. rewrite Hids in HS.
    apply sorted_cons in HS as [_ HS]. auto.
Qed.

Lemma earliest_meets_spec s : treap_ok s → meets_spec Earliest s.
Proof.
  intros (t & HT & HS & Hc). unfold meets_spec. cbn [run_op spec_op].
  exists (set_earliest (head (ids t)) s), (e ← head (ids t); x ← s_mem s !! e; Some (e, se_tv x)), (S (size t)).
  split; [|split; [by rewrite (scheduled_size s t)|split; [|split; [|done]]]].
  - intros fuel Hf. unfold schedule_get_earliest_wakeup.
    assert ((match s_earliest_wakeup s with
       | None => r ← schedule_find_least fuel (s_root s) s; Ret (set_earliest r s)
       | Some _ => Ret s end) = Ret (set_earliest (head (ids t)) s)) as ->.
    { rewrite (find_least_at s t (proj1 HT)) by lia. destruct s as [ea ro me dr]. cbn in *.
      destruct Hc as [->| ->]; [done|]. by destruct (head (ids t)). }
    rewrite bind_Ret. cbn [set_earliest s_earliest_wakeup]. destruct (head (ids t)) as [e|] eqn:He; [|done].
    destruct (head_least s t e HT HS He) as (x & Hx & _). unfold get. cbn. by rewrite Hx.
  - exists t. split_and!; [by apply treap_at_earliest|done|by right].
  - split; [done|]. destruct (head (ids t)) as [e|] eqn:He; cbn.
    + destruct (head_least s t e HT HS He) as (x & Hx & Hs & Hle). rewrite Hx. done.
    + apply map_eq. intros i. rewrite lookup_empty. apply eq_None_not_Some. intros Hi.
      apply (scheduled_in s t) in Hi; [|done]. destruct (ids t); [by apply elem_of_nil in Hi|done].
Qed.
End random.

(** ** The self check *)

Lemma tv_le_spec a b :
  tv_le a b = true ↔ tv_sec a < tv_sec b ∨ tv_sec a = tv_sec b ∧ tv_usec a ≤ tv_usec b.
Proof. unfold tv_le. repeat case_decide; rewrite ?bool_decide_eq_true; split; try done; lia. Qed.

Definition tv_min (a b : timeval) : timeval := if tv_lt a b then a else b.

Section check.
Context (s : schedule).

Definition tv_of (i : nat) : timeval := from_option se_tv (TV 0 0) (s_mem s !! i).
Definition within (lo hi : timeval) (is_ : list nat) : Prop :=
  Forall (λ i, tv_le lo (tv_of i) = true ∧ tv_le (tv_of i) hi = true) is_.
(** The earliest of a list of entries and [least], in the order the check meets them. *)
Fixpoint least_of (t : tree) (least : timeval) : timeval :=
  match t with
  | L => least
  | N l e r => least_of r (least_of l (tv_min (tv_of e) least))
  end.

Lemma check_child_ok e x c l i r left pr lo :
  s_mem s !! e = Some x → tree_at s (plug c (N l i r)) → parent_of c = Some e →
  (∀ j, pri_of s j = pr j) → se_pri x ≤ lo → heap_from pr lo (N l i r) →
  (if left : bool then before s i e else before s e i) → check_child s e x (Some i) left = Ret tt.
Proof.
  intros Hx HT Hc Hpr Hlo (Hp & _) Hb. apply tree_at_node in HT as (_ & _ & Hi & _).
  unfold check_child. destruct (get_pri _ _ _ Hi) as (y & Hg & Hl & Hy). injection Hl as Hyp _ _.
  rewrite Hg, bind_Ret. rewrite (ASSERT_ok (se_parent y = Some e)) by congruence. bret.
  assert (s_mem s !! i = Some y) as Hmi by (unfold get in Hg; destruct (s_mem s !! i); [by injection Hg as ->|done]).
  unfold before in Hb. rewrite Hx, Hmi in Hb.
  assert ((if left then ASSERT (schedule_entry_compare y x = -1) else ASSERT (schedule_entry_compare y x ≠ 0)) = Ret tt) as ->.
  { destruct left; unfold ASSERT; (rewrite decide_True; [done|]);
      destruct (compare_spec y x) as [[-> Hk]|[[-> Hk]|[-> Hk]]]; try done; exfalso; unfold key_lt in *;
      [lia|rewrite Hk in Hb; lia|rewrite Hk in Hb; lia]. }
  bret. unfold ASSERT. rewrite decide_True; [done|]. rewrite Hy, Hpr. lia.
Qed.

Lemma before_tv_le i j x y :
  s_mem s !! i = Some x → s_mem s !! j = Some y → before s i j → tv_le (se_tv x) (se_tv y) = true.
Proof. intros Hx Hy. unfold before. rewrite Hx, Hy, tv_le_spec. unfold key_lt. cbn. lia. Qed.
Lemma before_tv_of i j : before s i j → tv_le (tv_of i) (tv_of j) = true.
Proof.
  intros Hb. pose proof Hb as H. unfold before in H. unfold tv_of.
  destruct (s_mem s !! i) eqn:Hx, (s_mem s !! j) eqn:Hy; try done. by apply (before_tv_le i j).
Qed.

(** The nodes around a node are different ones. *)
Lemma node_apart c l e r x :
  tree_at s (plug c (N l e r)) → link_of x = (parent_of c, root l, root r) →
  Some e ≠ se_lt x ∧ Some e ≠ se_gt x ∧ Some e ≠ se_parent x ∧
  (se_parent x = None ∨ se_parent x ≠ se_lt x) ∧ (se_parent x = None ∨ se_parent x ≠ se_gt x) ∧
  (se_lt x = None ∨ se_lt x ≠ se_gt x).
Proof.
  intros HT [= -> -> ->]. apply tree_at_node in HT as (_ & HN & _).
  apply NoDup_cons in HN as [He HN]. apply NoDup_app in HN as (_ & Hl & HN). apply NoDup_app in HN as (_ & Hr & _).
  rewrite !elem_of_app in He. setoid_rewrite elem_of_app in Hl.
  assert (∀ p, parent_of c = Some p → p ∈ frame_ids c) as Hp.
  { destruct c as [|[b p t] c]; [done|]. intros q [= <-]. cbn [f_id]. rewrite frame_ids_cons. by left. }
  split_and!.
  - intros H. apply He. left. by apply root_in.
  - intros H. apply He. right. left. by apply root_in.
  - intros H. apply He. right. right. auto.
  - destruct (parent_of c) as [p|]; [right|by left]. intros H. symmetry in H. apply (Hl p (root_in _ _ H)). auto.
  - destruct (parent_of c) as [p|]; [right|by left]. intros H. symmetry in H. apply (Hr p (root_in _ _ H)). auto.
  - destruct (root l) as [i|] eqn:Hi; [right|by left]. intros H. symmetry in H.
    apply (Hl i (root_in _ _ Hi)). left. by apply root_in.
Qed.

Lemma children_ok c l e r x :
  tree_at s (plug c (N l e r)) → sorted s (plug c (N l e r)) → heap_from (pri_of s) 1 (plug c (N l e r)) →
  s_mem s !! e = Some x →
  check_child s e x (root l) true = Ret tt ∧ check_child s e x (root r) false = Ret tt.
Proof.
  intros HT HS Hh Hx. apply sorted_node in HS as [HSl HSr]. apply heap_plug in Hh as (_ & _ & Hl & Hr).
  assert (se_pri x = pri_of s e) as Hp by (unfold pri_of; by rewrite Hx). split.
  - destruct l as [|ll i lr]; [done|].
    apply (check_child_ok e x (F true e r :: c) ll i lr true (pri_of s) (pri_of s e)); try done; [lia|].
    apply HSl, root_in. done.
  - destruct r as [|ll i lr]; [done|].
    apply (check_child_ok e x (F false e l :: c) ll i lr false (pri_of s) (pri_of s e)); try done; [lia|].
    apply HSr, root_in. done.
Qed.

Lemma debug_at t : ∀ c depth count least min max,
  tree_at s (plug c t) → sorted s (plug c t) → heap_from (pri_of s) 1 (plug c t) → within min max (ids t) →
  0 ≤ count → count + Z.of_nat (size t) ≤ INT_MAX → 0 ≤ depth → depth + Z.of_nat (size t) ≤ INT_MAX →
  ∃ d, depth ≤ d ≤ depth + Z.of_nat (size t) ∧ ∀ fuel, (size t < fuel)%nat →
    schedule_debug_entry fuel s (root t) depth count least min max =
    Ret (d, count + Z.of_nat (size t), least_of t least).
Proof.
  induction t as [|l IHl e r IHr]; intros c depth count least min max HT HS Hh Hw Hc Hc' Hd Hd'; cbn [size] in *.
  { exists depth. split; [lia|]. intros [|fuel] Hf; [lia|]. cbn. do 3 f_equal. lia. }
  pose proof (proj1 (tree_at_node _ _ _ _ _) HT) as (_ & _ & He & _).
  assert (∃ x, get e s = Ret x ∧ s_mem s !! e = Some x ∧ link_of x = (parent_of c, root l, root r)) as (x & Hg & Hx & Hlk).
  { unfold lk in He. unfold get. destruct (s_mem s !! e) as [x|]; [|done]. exists x. by apply (inj Some) in He. }
  destruct (node_apart c l e r x HT Hlk) as (A1 & A2 & A3 & A4 & A5 & A6).
  destruct (children_ok c l e r x HT HS Hh Hx) as [C1 C2]. injection Hlk as Hxp Hxl Hxg.
  assert (tv_of e = se_tv x) as Htv by (unfold tv_of; by rewrite Hx).
  pose proof (sorted_node _ _ _ _ _ HS) as [HSl HSr].
  unfold within in Hw. cbn [ids] in Hw. apply Forall_app in Hw as [Hwl Hwr]. apply Forall_cons in Hwr as [[He1 He2] Hwr].
  rewrite Htv in He1, He2.
  destruct (IHl (F true e r :: c) (depth + 1) (count + 1) (if tv_lt (se_tv x) least then se_tv x else least) min (se_tv x))
    as (d1 & Hd1 & Hl1); try done; try lia.
  { apply Forall_forall. intros i Hi. rewrite Forall_forall in Hwl. split; [by apply Hwl|].
    rewrite <- Htv. apply before_tv_of. auto. }
  destruct (IHr (F false e l :: c) (depth + 1) (count + 1 + Z.of_nat (size l))
    (least_of l (if tv_lt (se_tv x) least then se_tv x else least)) (se_tv x) max) as (d2 & Hd2 & Hl2); try done; try lia.
  { apply Forall_forall. intros i Hi. rewrite Forall_forall in Hwr. split; [|by apply Hwr].
    rewrite <- Htv. apply before_tv_of. auto. }
  set (d := if decide (d1 > depth) then d1 else depth).
  exists (if decide (d2 > d) then d2 else d). split; [subst d; repeat case_decide; lia|].
  intros [|fuel] Hf; [lia|].
  cbn [schedule_debug_entry root]. rewrite Hg, bind_Ret. rewrite !ASSERT_ok by done. bret.
  rewrite Hxl, C1, bind_Ret, Hxg, C2. bret.
  rewrite (int_ok (count + 1)) by (ints; lia). bret. rewrite (int_ok (depth + 1)) by (ints; lia). bret.
  rewrite Hl1 by lia. bret. rewrite Hl2 by lia. bret.
  cbn [least_of]. unfold tv_min. rewrite Htv. do 3 f_equal. lia.
Qed.
End check.

Lemma least_of_spec s t least :
  (least_of s t least = least ∨ ∃ i, i ∈ ids t ∧ least_of s t least = tv_of s i) ∧
  tv_lt least (least_of s t least) = false ∧
  ∀ i, i ∈ ids t → tv_lt (tv_of s i) (least_of s t least) = false.
Proof.
  assert (∀ a b, tv_lt a b = false ↔ tv_le b a = true) as Hle.
  { intros a b. rewrite <- not_true_iff_false, tv_lt_spec, tv_le_spec. lia. }
  assert (∀ a b c, tv_le a b = true → tv_le b c = true → tv_le a c = true) as Htr.
  { intros a b c. rewrite !tv_le_spec. lia. }
  setoid_rewrite Hle. revert least. induction t as [|l IHl e r IHr]; intros least; cbn [least_of ids].
  { split; [by left|]. split; [rewrite tv_le_spec; lia|]. intros i Hi. by apply elem_of_nil in Hi. }
  destruct (IHl (tv_min (tv_of s e) least)) as (A & B & C).
  destruct (IHr (least_of s l (tv_min (tv_of s e) least))) as (D & E & G).
  assert (tv_le (tv_min (tv_of s e) least) least = true ∧ tv_le (tv_min (tv_of s e) least) (tv_of s e) = true ∧
    (tv_min (tv_of s e) least = least ∨ tv_min (tv_of s e) least = tv_of s e)) as (M1 & M2 & M3).
  { unfold tv_min. destruct (tv_lt (tv_of s e) least) eqn:Hl.
    - apply tv_lt_spec in Hl. rewrite !tv_le_spec. split_and!; [lia|lia|by right].
    - apply Hle in Hl. split_and!; [|done|by left]. rewrite tv_le_spec. lia. }
  setoid_rewrite elem_of_app. setoid_rewrite elem_of_cons. split_and!.
  - destruct D as [D|(i & Hi & D)]; [|right; exists i; auto]. rewrite D.
    destruct A as [A|(i & Hi & A)]; [|right; exists i; auto]. rewrite A.
    destruct M3 as [M3|M3]; [by left|right; exists e; auto].
  - eauto.
  - intros i [Hi|[->|Hi]]; eauto.
Qed.

Lemma scheduled_tv s i tv : scheduled s !! i = Some tv → tv_of s i = tv.
Proof.
  rewrite lookup_scheduled. unfold tv_of. destruct (s_mem s !! i) as [x|]; [|done]. cbn.
  case_decide; [done|]. by intros [= <-].
Qed.

(** ** The properties *)

(** C14: the scheduler is a map from entries to wakeup times.  From a state between two
    calls, adding, removing and asking for the earliest entry terminate, whatever the
    shape of the treap and whatever priorities are drawn (as long as some draw is not
    the priority of another entry), and act on the map as insertion (left out when the
    new time is within sigma of the old one), deletion, and the choice of a minimum. *)
Theorem schedule_refines_map random op s :
  treap_ok s → can_run random op s →
  ∃ s' r N, (∀ fuel, (N ≤ fuel)%nat → run_op random fuel op s = Ret (r, s')) ∧
    treap_ok s' ∧ spec_op op (scheduled s) r (scheduled s').
Proof.
  intros Hs Hc. assert (meets_spec random op s) as (s' & r & N & E & _ & Hs' & Hsp & _); [|by exists s', r, N].
  destruct op as [e tv sigma|e|]; [by apply add_meets_spec|by apply remove_meets_spec|by apply earliest_meets_spec].
Qed.

(** C32: the self check of the code accepts every state the operations leave: all the
    assertions on links, order and priorities hold, the nodes counted are the scheduled
    entries and the least time found is the earliest wakeup. *)
Theorem schedule_debug_accepts s :
  treap_ok s → (∀ i tv, scheduled s !! i = Some tv → tv_le (TV 0 0) tv = true ∧ tv_le tv (TV 0x7FFFFFFF 0x7FFFFFFF) = true) →
  Z.of_nat (base.size (scheduled s)) ≤ INT_MAX →
  ∃ N depth least, (∀ fuel, (N ≤ fuel)%nat →
      schedule_debug fuel s 0 (TV 0x7FFFFFFF 0x7FFFFFFF) = Ret (depth, Z.of_nat (base.size (scheduled s)), least)) ∧
    0 ≤ depth ≤ Z.of_nat (base.size (scheduled s)) ∧
    (∀ i tv, scheduled s !! i = Some tv → tv_lt tv least = false) ∧
    (least = TV 0x7FFFFFFF 0x7FFFFFFF ∨ ∃ i, scheduled s !! i = Some least).
Proof.
  intros (t & HT & HS & _) Hw Hn. rewrite <- (scheduled_size s t HT) in *.
  assert (∀ i, i ∈ ids t → scheduled s !! i = Some (tv_of s i)) as Hin.
  { intros i Hi. apply (scheduled_in s) in Hi as [tv Htv]; [|done]. by rewrite (scheduled_tv _ _ _ Htv). }
  destruct (least_of_spec s t (TV 0x7FFFFFFF 0x7FFFFFFF)) as (HA & HB & HC).
  destruct (debug_at s t [] 0 0 (TV 0x7FFFFFFF 0x7FFFFFFF) (TV 0 0) (TV 0x7FFFFFFF 0x7FFFFFFF))
    as (d & Hd & Hdbg); try done; [apply HT|apply HT| |].
  { apply Forall_forall. intros i Hi. by apply (Hw i), Hin. }
  exists (S (size t)), d, (least_of s t (TV 0x7FFFFFFF 0x7FFFFFFF)). split_and!; [|lia|lia|..].
  - intros fuel Hf. unfold schedule_debug. destruct HT as [HT _]. pose proof HT as [-> _].
    assert ((match root t with Some r => x ← get r s; ASSERT (se_parent x = None) | None => Ret tt end) = Ret tt) as ->.
    { destruct t as [|l e r]; [done|]. cbn [root]. apply (tree_at_node s []) in HT as (_ & _ & He & _).
      destruct (get_lk _ _ _ _ _ He) as (x & _ & -> & Hx & _). bret. by rewrite ASSERT_ok. }
    bret. apply Hdbg. lia.
  - intros i tv Hi. rewrite <- (scheduled_tv _ _ _ Hi). apply HC. apply (scheduled_in s); [done|by rewrite Hi].
  - destruct HA as [HA|(i & Hi & HA)]; [by left|]. right. exists i. rewrite HA. auto.
Qed.

(** Entry 2 is scheduled, entry 1 is not. *)
Definition two_entries : schedule :=
  Sched None (Some 2%nat)
    (<[1%nat := SE (TV 0 0) 0 None None None]> {[2%nat := SE (TV 3 0) 9 None None None]}) 0.

Lemma two_entries_ok : treap_ok two_entries.
Proof.
  exists (N L 2%nat L). split; [|split; [|by left]].
  - split_and!.
    + split_and!; [done|apply NoDup_singleton|]. apply sat_cons. split; [done|by apply Forall_nil].
    + done.
    + intros i Hi Hni. cbn in Hni. rewrite list_elem_of_singleton in Hni. destruct (decide (i = 1%nat)) as [->|H1]; [done|].
      exfalso. cbn [two_entries s_mem] in Hi. rewrite lookup_insert_ne, lookup_singleton_ne in Hi by congruence.
      by apply is_Some_None in Hi.
  - repeat constructor.
Qed.

Lemma schedule_refines_map_witness :
  ∃ s' r N, (∀ fuel, (N ≤ fuel)%nat → run_op (λ n, Z.of_nat n + 7) fuel (Add 1%nat (TV 5 0) 0) two_entries = Ret (r, s')) ∧
    treap_ok s' ∧ spec_op (Add 1%nat (TV 5 0) 0) (scheduled two_entries) r (scheduled s').
Proof.
  apply (schedule_refines_map (λ n, Z.of_nat n + 7) (Add 1%nat (TV 5 0) 0) two_entries).
  - exact two_entries_ok.
  - split; [by eexists|]. exists 0%nat. split; [done|]. intros i Hi [x Hx].
    destruct (decide (i = 2%nat)) as [->|H2]; [by vm_compute|].
    cbn [two_entries s_mem] in Hx. rewrite lookup_insert_ne, lookup_singleton_ne in Hx by congruence. done.
Defined.

Lemma schedule_debug_accepts_witness :
  ∃ N depth least, (∀ fuel, (N ≤ fuel)%nat →
      schedule_debug fuel two_entries 0 (TV 0x7FFFFFFF 0x7FFFFFFF) = Ret (depth, Z.of_nat (base.size (scheduled two_entries)), least)) ∧
    0 ≤ depth ≤ Z.of_nat (base.size (scheduled two_entries)) ∧
    (∀ i tv, scheduled two_entries !! i = Some tv → tv_lt tv least = false) ∧
    (least = TV 0x7FFFFFFF 0x7FFFFFFF ∨ ∃ i, scheduled two_entries !! i = Some least).
Proof.
  apply (schedule_debug_accepts two_entries).
  - exact two_entries_ok.
  - intros i tv. rewrite lookup_scheduled. cbn [two_entries s_mem].
    destruct (decide (i = 1%nat)) as [->|H1]; [by rewrite lookup_insert_eq|].
    destruct (decide (i = 2%nat)) as [->|H2].
    + rewrite lookup_insert_ne, lookup_singleton_eq by done. cbn. by intros [= <-].
    + by rewrite lookup_insert_ne, lookup_singleton_ne by done.
  - vm_compute. discriminate.
Defined.
