(* ===== verification/OvpnPool.v ===== *)
(** * OpenVPN: the pool of client addresses

    Models [openvpn/src/src/openvpn/pool.c] and [pool.h], and [add_in6_addr] of
    [socket.c].

    Addresses are integers of 32 bits in host order, an IPv6 address is its 16 bytes,
    a common name its bytes before the null.  The clock is an argument. *)
From S2P Require Import Prelude.
#[local] Open Scope bool_scope.
#[local] Open Scope Z_scope.

Definition IFCONFIG_POOL_MAX : Z := 65536.
Definition IFCONFIG_POOL_30NET : Z := 0.
Definition IFCONFIG_POOL_INDIV : Z := 1.

Record ifconfig_pool_entry := IPE {
  in_use : bool;
  common_name : option (list Z);
  last_release : Z;
  fixed : bool;
}.

Record ifconfig_pool := Pool {
  base : Z;
  size : Z;
  type : Z;
  duplicate_cn : bool;
  ipv6 : bool;
  base_ipv6 : list Z;
  size_ipv6 : Z;
  plist : list ifconfig_pool_entry;
}.

Definition set_plist (l : list ifconfig_pool_entry) (p : ifconfig_pool) : ifconfig_pool :=
  Pool (base p) (size p) (type p) (duplicate_cn p) (ipv6 p) (base_ipv6 p) (size_ipv6 p) l.

(** One round of [add_in6_addr], at the byte [i]. *)
Definition add_in6_body (i : nat) (st : list Z * Z) : outcome (list Z * Z) :=
  let '(b, add) := st in
  h ← array_get b i;
  b ← array_set b i (Z.land (u32 (h + add)) 255);
  let carry := Z.shiftr (Z.land h 255 + Z.land add 255) 8 in
  Ret (b, u32 (Z.shiftr add 8 + carry)).
(** [n] bytes are left, the next is the byte [n - 1]. *)
Fixpoint add_in6_loop (n : nat) (st : list Z * Z) : outcome (list Z * Z) :=
  match n with
  | O => Ret st
  | S i => if decide (st.2 > 0) then st ← add_in6_body i st; add_in6_loop i st else Ret st
  end.
Definition add_in6_addr (b : list Z) (add : Z) : outcome (list Z) :=
  '(b, _) ← add_in6_loop 16 (b, u32 add);
  Ret b.

Definition ifconfig_pool_entry_free (now : Z) (hard : bool) (ipe : ifconfig_pool_entry) : ifconfig_pool_entry :=
  IPE false (if hard then None else common_name ipe) (if hard then 0 else now) (fixed ipe).

(** [earliest_release], [previous_usage] and [new_usage]. *)
Record search := Search { earliest_release : Z; previous_usage : Z; new_usage : Z }.

(** The loop of [ifconfig_pool_find] from the entry [i], with [n] left. *)
Fixpoint find_loop (pool : ifconfig_pool) (cn : option (list Z)) (n i : nat) (st : search) : outcome search :=
  match n with
  | O => Ret st
  | S n =>
      ipe ← array_get (plist pool) i;
      if in_use ipe then find_loop pool cn n (S i) st
      else if duplicate_cn pool
      then Ret (Search (earliest_release st) (previous_usage st) (Z.of_nat i))
      else
        let st :=
          if decide ((new_usage st = -1 ∨ last_release ipe < earliest_release st) ∧ fixed ipe = false)
          then Search (last_release ipe) (previous_usage st) (Z.of_nat i) else st in
        let st :=
          match cn, common_name ipe with
          | Some cn, Some name =>
              if decide (previous_usage st < 0 ∧ cn = name)
              then Search (earliest_release st) (Z.of_nat i) (new_usage st) else st
          | _, _ => st
          end in
        find_loop pool cn n (S i) st
  end.
Definition ifconfig_pool_find (pool : ifconfig_pool) (cn : option (list Z)) : outcome Z :=
  st ← find_loop pool cn (Z.to_nat (size pool)) 0 (Search 0 (-1) (-1));
  if decide (previous_usage st >= 0) then Ret (previous_usage st)
  else if decide (new_usage st >= 0) then Ret (new_usage st)
  else Ret (-1).

Definition ifconfig_pool_verify_range (start end_ : Z) : bool :=
  let ret := true in
  let ret := if decide (start > end_) then false else ret in
  if decide (u32 (end_ - start) >= IFCONFIG_POOL_MAX) then false else ret.

Definition ifconfig_pool_init (type start end_ : Z) (duplicate_cn ipv6_pool : bool) (ipv6_base : list Z)
    (ipv6_netbits : Z) : outcome ifconfig_pool :=
  _ ← ASSERT (start ≤ end_ ∧ u32 (end_ - start) < IFCONFIG_POOL_MAX);
  '(base, size) ←
    (if decide (type = IFCONFIG_POOL_30NET) then
       let base := Z.land start (u32 (Z.lnot 3)) in
       Ret (base, Z.shiftr (u32 (u32 (Z.lor end_ 3 + 1) - base)) 2)
     else if decide (type = IFCONFIG_POOL_INDIV) then Ret (start, s32 (u32 (u32 (end_ - start) + 1)))
     else Abort);
  '(base6, size6) ←
    (if ipv6_pool then
       size6 ← (if decide (ipv6_netbits > 96) then
                  if decide (ipv6_netbits > 128) then Undef else int (Z.shiftl 1 (128 - ipv6_netbits))
                else Ret IFCONFIG_POOL_MAX);
       _ ← ASSERT (u32 size < size6);
       Ret (ipv6_base, size6)
     else Ret (replicate 16 0, 0));
  Ret (Pool base size type duplicate_cn ipv6_pool base6 size6
         (replicate (Z.to_nat size) (IPE false None 0 false))).

(** What the caller gets besides the handle: [*local], [*remote] and [*remote_ipv6]. *)
Record lease := Lease { local : Z; remote : Z; remote_ipv6 : option (list Z) }.

Definition ifconfig_pool_acquire (now : Z) (want_ipv6 : bool) (cn : option (list Z)) (pool : ifconfig_pool) :
    outcome (Z * option lease * ifconfig_pool) :=
  i ← ifconfig_pool_find pool cn;
  if decide (i >= 0) then
    ipe ← array_get (plist pool) (Z.to_nat i);
    _ ← ASSERT (in_use ipe = false);
    let ipe := ifconfig_pool_entry_free now true ipe in
    let ipe := IPE true (if cn is Some cn then Some cn else common_name ipe) (last_release ipe) (fixed ipe) in
    l ← array_set (plist pool) (Z.to_nat i) ipe;
    let pool := set_plist l pool in
    '(local, remote) ←
      (if decide (type pool = IFCONFIG_POOL_30NET) then
         let b := u32 (base pool + Z.shiftl i 2) in Ret (u32 (b + 1), u32 (b + 2))
       else if decide (type pool = IFCONFIG_POOL_INDIV) then Ret (0, u32 (base pool + i))
       else Abort);
    r6 ← (if ipv6 pool && want_ipv6 then a ← add_in6_addr (base_ipv6 pool) i; Ret (Some a) else Ret None);
    Ret (i, Some (Lease local remote r6), pool)
  else Ret (i, None, pool).

Definition ifconfig_pool_release (now hand : Z) (hard : bool) (pool : ifconfig_pool) : outcome (bool * ifconfig_pool) :=
  if decide (hand >= 0 ∧ hand < size pool) then
    ipe ← array_get (plist pool) (Z.to_nat hand);
    l ← array_set (plist pool) (Z.to_nat hand) (ifconfig_pool_entry_free now hard ipe);
    Ret (true, set_plist l pool)
  else Ret (false, pool).

Definition ifconfig_pool_ip_base_to_handle (pool : ifconfig_pool) (addr : Z) : outcome Z :=
  ret ←
    (if decide (type pool = IFCONFIG_POOL_30NET) then Ret (s32 (Z.shiftr (u32 (addr - base pool)) 2))
     else if decide (type pool = IFCONFIG_POOL_INDIV) then Ret (s32 (u32 (addr - base pool)))
     else Abort);
  Ret (if decide (ret < 0 ∨ ret >= size pool) then -1 else ret).

Definition ifconfig_pool_handle_to_ip_base (pool : ifconfig_pool) (hand : Z) : outcome Z :=
  if decide (hand >= 0 ∧ hand < size pool) then
    if decide (type pool = IFCONFIG_POOL_30NET) then Ret (u32 (base pool + Z.shiftl hand 2))
    else if decide (type pool = IFCONFIG_POOL_INDIV) then Ret (u32 (base pool + hand))
    else Abort
  else Ret 0.

Definition ifconfig_pool_handle_to_ipv6_base (pool : ifconfig_pool) (hand : Z) : outcome (list Z) :=
  if decide (hand >= 0 ∧ hand < size_ipv6 pool) then add_in6_addr (base_ipv6 pool) hand
  else Ret (replicate 16 0).

Definition ifconfig_pool_set (now : Z) (cn : list Z) (addr : Z) (fixed : bool) (pool : ifconfig_pool) : outcome ifconfig_pool :=
  h ← ifconfig_pool_ip_base_to_handle pool addr;
  if decide (h >= 0) then
    l ← array_set (plist pool) (Z.to_nat h) (IPE false (Some cn) now fixed);
    Ret (set_plist l pool)
  else Ret pool.

(** [ifconfig_pool_list]: the lines, as the name and the addresses. *)
Fixpoint list_loop (pool : ifconfig_pool) (n i : nat) : outcome (list (list Z * Z * option (list Z))) :=
  match n with
  | O => Ret []
  | S n =>
      e ← array_get (plist pool) i;
      match common_name e with
      | Some cn =>
          ip ← ifconfig_pool_handle_to_ip_base pool (Z.of_nat i);
          ip6 ← (if ipv6 pool then a ← ifconfig_pool_handle_to_ipv6_base pool (Z.of_nat i); Ret (Some a) else Ret None);
          ls ← list_loop pool n (S i);
          Ret ((cn, ip, ip6) :: ls)
      | None => list_loop pool n (S i)
      end
  end.
Definition ifconfig_pool_list (pool : ifconfig_pool) : outcome (list (list Z * Z * option (list Z))) :=
  list_loop pool (Z.to_nat (size pool)) 0.
