(* ===== verification/OvpnPoolProofs.v ===== *)
(** * OpenVPN: the pool of client addresses, proved

    What [ifconfig_pool_find] looks for ([chosen]), the arithmetic of IPv6 addresses,
    and the leases held over a run of calls ([pool_step]). *)
From stdpp Require Import gmap.
From S2P Require Import Prelude OvpnPool.
#[local] Open Scope bool_scope.
#[local] Open Scope Z_scope.

(** ** Addresses *)

(** The number a string of bytes is, most significant first. *)
Definition be_val (b : list Z) : Z := foldl (λ a x, 256 * a + x) 0 b.

Lemma be_val_app b1 b2 : be_val (b1 ++ b2) = be_val b1 * 256 ^ Z.of_nat (length b2) + be_val b2.
Proof.
  unfold be_val. rewrite foldl_app. generalize (foldl (λ a x : Z, 256 * a + x) 0 b1).
  induction b2 as [|x b2 IH]; intros z; cbn [foldl length]; [cbn; lia|].
  rewrite IH, (IH (256 * 0 + x)). rewrite Nat2Z.inj_succ, Z.pow_succ_r by lia. lia.
Qed.
Lemma be_val_snoc b x : be_val (b ++ [x]) = 256 * be_val b + x.
Proof. unfold be_val. by rewrite foldl_app. Qed.
Lemma be_val_range b : Forall is_byte b → 0 ≤ be_val b < 256 ^ Z.of_nat (length b).
Proof.
  induction b as [|x b IH] using rev_ind; intros Hb; [cbn; lia|].
  apply Forall_app in Hb as [Hb Hx]. apply Forall_cons in Hx as [Hx _]. specialize (IH Hb). ints.
  rewrite be_val_snoc, length_app, Nat2Z.inj_add. cbn [length]. rewrite Z.pow_add_r by lia.
  change (256 ^ Z.of_nat 1) with 256. lia.
Qed.

Lemma add_in6_step b i h t add :
  length b = i → is_byte h → 0 ≤ add < 2 ^ 32 →
  add_in6_body i (b ++ h :: t, add) =
  Ret (b ++ (h + add) mod 256 :: t, (h + add) / 256).
Proof.
  intros Hb Hh Ha. unfold add_in6_body. unfold array_get. rewrite list_lookup_middle by done. cbn [of_option]. bret.
  rewrite array_set_ok by (rewrite length_app; cbn; lia). bret. rewrite <- Hb, insert_app_r_alt by lia.
  rewrite Nat.sub_diag. cbn [list_insert insert]. change 255 with (Z.ones 8). rewrite !Z.land_ones, !Z.shiftr_div_pow2 by lia.
  unfold wrap. change (2 ^ 8) with 256. rewrite (Z.mod_small h) by (ints; lia).
  do 2 f_equal.
  - do 2 f_equal. change (2 ^ 32) with (256 * 16777216). rewrite Z.rem_mul_r by lia.
    rewrite Z.add_mod, (Z.mul_comm 256), Z.mod_mul, Z.add_0_r, !Z.mod_mod by lia. done.
  - assert (add / 256 + (h + add mod 256) / 256 = (h + add) / 256) as ->.
    { pose proof (Z.div_mod add 256 ltac:(lia)) as H. rewrite H at 3.
      replace (h + (256 * (add / 256) + add mod 256)) with (h + add mod 256 + add / 256 * 256) by lia.
      rewrite Z.div_add by lia. lia. }
    apply Z.mod_small. split; [apply Z.div_pos; ints; lia|]. apply Z.div_lt_upper_bound; ints; lia.
Qed.

Lemma add_in6_loop_ok n : ∀ b t add,
  length b = n → Forall is_byte b → 0 ≤ add < 2 ^ 32 →
  ∃ b' add', add_in6_loop n (b ++ t, add) = Ret (b' ++ t, add') ∧ length b' = n ∧ Forall is_byte b' ∧
    be_val b' = (be_val b + add) mod 256 ^ Z.of_nat n.
Proof.
  induction n as [|n IH]; intros b t add Hl Hb Ha.
  { destruct b; [|done]. exists [], add. split_and!; [done..|]. cbn. by rewrite Z.mod_1_r. }
  cbn [add_in6_loop snd]. destruct (decide (add > 0)) as [Hp|Hp].
  - destruct (exists_last (l := b)) as (b1 & h & ->); [by destruct b|].
    rewrite length_app in Hl. cbn in Hl. apply Forall_app in Hb as [Hb Hh]. apply Forall_cons in Hh as [Hh _].
    rewrite <- app_assoc. cbn [app]. rewrite add_in6_step by (done || lia). bret.
    pose proof (Z.mod_pos_bound (h + add) 256 ltac:(lia)) as Hm.
    destruct (IH b1 ((h + add) mod 256 :: t) ((h + add) / 256)) as (b' & add' & -> & Hl' & Hb' & Hv); [lia|done| |].
    { split; [apply Z.div_pos; ints; lia|]. apply Z.div_lt_upper_bound; ints; lia. }
    exists (b' ++ [(h + add) mod 256]), add'. rewrite <- app_assoc. split_and!; [done| | |].
    + rewrite length_app. cbn. lia.
    + apply Forall_app. split; [done|]. by apply Forall_cons.
    + rewrite !be_val_snoc, Hv, Nat2Z.inj_succ, Z.pow_succ_r by lia.
      rewrite Z.rem_mul_r by (try apply Z.pow_pos_nonneg; lia).
      assert ((256 * be_val b1 + h + add) / 256 = be_val b1 + (h + add) / 256) as ->.
      { replace (256 * be_val b1 + h + add) with (h + add + be_val b1 * 256) by lia. rewrite Z.div_add by lia. lia. }
      assert ((256 * be_val b1 + h + add) mod 256 = (h + add) mod 256) as ->; [|lia].
      replace (256 * be_val b1 + h + add) with (h + add + be_val b1 * 256) by lia. by rewrite Z.mod_add.
  - exists b, add. assert (add = 0) as -> by lia. split_and!; [done..|]. rewrite Z.add_0_r, Z.mod_small; [done|].
    rewrite <- Hl. by apply be_val_range.
Qed.

Lemma add_in6_ok b add :
  length b = 16%nat → Forall is_byte b → 0 ≤ add < 2 ^ 32 →
  ∃ b', add_in6_addr b add = Ret b' ∧ length b' = 16%nat ∧ Forall is_byte b' ∧
    be_val b' = (be_val b + add) mod 2 ^ 128.
Proof.
  intros Hl Hb Ha. destruct (add_in6_loop_ok 16 b [] add Hl Hb Ha) as (b' & add' & E & H).
  rewrite !app_nil_r in E. exists b'. unfold add_in6_addr. rewrite wrap_small, E by done. by bret.
Qed.

(** ** The search *)

(** A free entry may be given to anyone unless it is fixed. *)
Definition eligible (l : list ifconfig_pool_entry) (i : nat) (e : ifconfig_pool_entry) : Prop :=
  l !! i = Some e ∧ in_use e = false ∧ fixed e = false.
(** The one released first, of the first [n]. *)
Definition oldest (l : list ifconfig_pool_entry) (n j : nat) : Prop :=
  ∃ e, eligible l j e ∧ (j < n)%nat ∧
    ∀ k e', (k < n)%nat → eligible l k e' →
      last_release e ≤ last_release e' ∧ ((k < j)%nat → last_release e < last_release e').
(** A free entry the name had before. *)
Definition named (l : list ifconfig_pool_entry) (cn : option (list Z)) (i : nat) : Prop :=
  ∃ e, l !! i = Some e ∧ in_use e = false ∧ is_Some cn ∧ common_name e = cn.
Definition free (l : list ifconfig_pool_entry) (i : nat) : Prop := ∃ e, l !! i = Some e ∧ in_use e = false.
Definition first (P : nat → Prop) (j : nat) : Prop := P j ∧ ∀ k, (k < j)%nat → ¬ P k.

(** The entry a name is given, if any. *)
Definition chosen (p : ifconfig_pool) (cn : option (list Z)) (r : option nat) : Prop :=
  let l := plist p in
  if duplicate_cn p then
    match r with Some i => first (free l) i | None => ∀ i, ¬ free l i end
  else
    match r with
    | Some i => first (named l cn) i ∨ ((∀ k, ¬ named l cn k) ∧ oldest l (length l) i)
    | None => (∀ k, ¬ named l cn k) ∧ ∀ k e, ¬ eligible l k e
    end.

Definition handle (r : option nat) : Z := match r with Some i => Z.of_nat i | None => -1 end.

Definition searched (l : list ifconfig_pool_entry) (cn : option (list Z)) (i : nat) (st : search) : Prop :=
  (previous_usage st = -1 ∧ (∀ k, (k < i)%nat → ¬ named l cn k) ∨
   ∃ j, previous_usage st = Z.of_nat j ∧ (j < i)%nat ∧ first (named l cn) j) ∧
  (new_usage st = -1 ∧ (∀ k e, (k < i)%nat → ¬ eligible l k e) ∨
   ∃ j e, new_usage st = Z.of_nat j ∧ l !! j = Some e ∧ earliest_release st = last_release e ∧ oldest l i j).

Lemma searched_used l cn i st e :
  l !! i = Some e → in_use e = true → searched l cn i st → searched l cn (S i) st.
Proof.
  intros Hi He [Hp Hn]. split.
  - destruct Hp as [[Hp Hk]|(j & Hp & Hj & Hf)]; [left|right].
    + split; [done|]. intros k Hki. destruct (decide (k = i)) as [->|]; [|apply Hk; lia].
      intros (e' & He' & Hu & _). congruence.
    + exists j. split_and!; [done|lia|done].
  - destruct Hn as [[Hn Hk]|(j & e' & Hn & Hj & Hr & e2 & He2 & Hlt & Hk)]; [left|right].
    + split; [done|]. intros k e' Hki. destruct (decide (k = i)) as [->|]; [|apply Hk; lia].
      intros (He' & Hu & _). congruence.
    + exists j, e'. split_and!; [done..|]. exists e2. split_and!; [done|lia|].
      intros k e3 Hki Hel. destruct (decide (k = i)) as [->|]; [|apply Hk; [lia|done]].
      destruct Hel as (He' & Hu & _). congruence.
Qed.

(** One free entry: first what becomes of [new_usage], then of [previous_usage]. *)
Lemma searched_new l cn i st e :
  l !! i = Some e → in_use e = false → searched l cn i st →
  let st' := if decide ((new_usage st = -1 ∨ last_release e < earliest_release st) ∧ fixed e = false)
             then Search (last_release e) (previous_usage st) (Z.of_nat i) else st in
  previous_usage st' = previous_usage st ∧
  (new_usage st' = -1 ∧ (∀ k e, (k < S i)%nat → ¬ eligible l k e) ∨
   ∃ j e, new_usage st' = Z.of_nat j ∧ l !! j = Some e ∧ earliest_release st' = last_release e ∧ oldest l (S i) j).
Proof.
  intros Hi He [_ Hn]. cbv zeta. case_decide as Hd.
  - split; [done|]. right. exists i, e. cbn. split_and!; [done..|]. destruct Hd as [Hd Hfix].
    exists e. split_and!; [done|lia|]. intros k e' Hk Hel. destruct (decide (k = i)) as [->|Hne].
    { destruct Hel as (He' & _). assert (e' = e) as -> by congruence. lia. }
    destruct Hn as [[Hn Hno]|(j & e2 & Hn & Hj & Hr & e3 & He3 & Hlt & Hb)].
    + destruct (Hno k e'); [lia|done].
    + destruct (Hb k e') as [H1 H2]; [lia|done|]. assert (e3 = e2) as -> by (destruct He3; congruence). lia.
  - split; [done|]. destruct Hn as [[Hn Hno]|(j & e2 & Hn & Hj & Hr & e3 & He3 & Hlt & Hb)]; [left|right].
    + split; [done|]. intros k e' Hk Hel. destruct (decide (k = i)) as [->|Hne]; [|apply (Hno k e'); [lia|done]].
      destruct Hel as (He' & _ & Hfix). assert (e' = e) as -> by congruence. tauto.
    + exists j, e2. split_and!; [done..|]. exists e3. split_and!; [done|lia|].
      intros k e' Hk Hel. destruct (decide (k = i)) as [->|Hne]; [|apply Hb; [lia|done]].
      destruct Hel as (He' & _ & Hfix). assert (e' = e) as -> by congruence.
      assert (e3 = e2) as -> by (destruct He3; congruence). destruct (decide (last_release e < earliest_release st)); [tauto|lia].
Qed.

Lemma searched_free l cn i st e :
  l !! i = Some e → in_use e = false → searched l cn i st →
  let st1 := if decide ((new_usage st = -1 ∨ last_release e < earliest_release st) ∧ fixed e = false)
             then Search (last_release e) (previous_usage st) (Z.of_nat i) else st in
  searched l cn (S i)
    match cn, common_name e with
    | Some cn, Some name =>
        if decide (previous_usage st1 < 0 ∧ cn = name)
        then Search (earliest_release st1) (Z.of_nat i) (new_usage st1) else st1
    | _, _ => st1
    end.
Proof.
  intros Hi He HS. destruct (searched_new l cn i st e Hi He HS) as [Hp Hn]. cbv zeta. revert Hp Hn.
  generalize (if decide ((new_usage st = -1 ∨ last_release e < earliest_release st) ∧ fixed e = false)
    then Search (last_release e) (previous_usage st) (Z.of_nat i) else st) as st1. intros st1 Hp Hn.
  destruct HS as [HP _]. rewrite <- Hp in HP.
  assert (named l cn i ∨ ¬ named l cn i) as Hdec.
  { destruct cn as [cn|]; [|right; intros (? & _ & _ & Hs & _); by destruct Hs].
    destruct (decide (common_name e = Some cn)) as [H|H]; [left; exists e; auto|].
    right. intros (e' & He' & _ & _ & Hc). congruence. }
  assert ((previous_usage st1 = -1 ∧ named l cn i ∧ 
      (match cn, common_name e with
       | Some cn, Some name => if decide (previous_usage st1 < 0 ∧ cn = name)
           then Search (earliest_release st1) (Z.of_nat i) (new_usage st1) else st1
       | _, _ => st1 end) = Search (earliest_release st1) (Z.of_nat i) (new_usage st1)) ∨
    ((previous_usage st1 = -1 → ¬ named l cn i) ∧
      (match cn, common_name e with
       | Some cn, Some name => if decide (previous_usage st1 < 0 ∧ cn = name)
           then Search (earliest_release st1) (Z.of_nat i) (new_usage st1) else st1
       | _, _ => st1 end) = st1)) as [(H1 & H2 & ->)|[H1 ->]].
  { destruct cn as [cn|]; [|right; split; [|done]; intros _ (? & _ & _ & Hs & _); by destruct Hs].
    destruct (common_name e) as [name|] eqn:Hc.
    - destruct (decide (previous_usage st1 < 0 ∧ cn = name)) as [[Hneg ->]|Hd]; [left|right].
      + destruct HP as [[HP _]|(j & HP & _)]; [|lia]. split_and!; [done| |done]. exists e. auto.
      + split; [|done]. intros Hm (e' & He' & _ & _ & Hc'). apply Hd. split; [lia|]. congruence.
    - right. split; [|done]. intros _ (e' & He' & _ & _ & Hc'). congruence. }
  - split; [|done]. right. exists i. cbn. split_and!; [done|lia|]. split; [done|].
    destruct HP as [[_ HP]|(j & HP & _)]; [done|lia].
  - split; [|done]. destruct HP as [[HP Hk]|(j & HP & Hj & Hf)]; [left|right].
    + split; [done|]. intros k Hki. destruct (decide (k = i)) as [->|]; [auto|apply Hk; lia].
    + exists j. split_and!; [done|lia|done].
Qed.

Lemma find_loop_ok p cn n : ∀ i st,
  duplicate_cn p = false → (i + n = length (plist p))%nat → searched (plist p) cn i st →
  ∃ st', find_loop p cn n i st = Ret st' ∧ searched (plist p) cn (length (plist p)) st'.
Proof.
  induction n as [|n IH]; intros i st Hdup Hl HS; cbn [find_loop].
  { exists st. split; [done|]. by replace (length (plist p)) with i by lia. }
  destruct (lookup_lt_is_Some_2 (plist p) i) as [e He]; [lia|].
  unfold array_get at 1. rewrite He. cbn [of_option]. bret. destruct (in_use e) eqn:Hu.
  - apply IH; [done|lia|]. by apply (searched_used _ _ _ _ e).
  - rewrite Hdup. apply IH; [done|lia|]. by apply (searched_free _ _ _ _ e).
Qed.

Lemma find_loop_dup p cn n : ∀ i st,
  duplicate_cn p = true → (i + n = length (plist p))%nat → new_usage st = -1 → previous_usage st = -1 →
  (∀ k, (k < i)%nat → ¬ free (plist p) k) →
  ∃ st' r, find_loop p cn n i st = Ret st' ∧ previous_usage st' = -1 ∧ new_usage st' = handle r ∧
    match r with Some i => first (free (plist p)) i | None => ∀ i, ¬ free (plist p) i end.
Proof.
  induction n as [|n IH]; intros i st Hdup Hl Hn Hp Hk; cbn [find_loop].
  { exists st, None. split_and!; [done..|]. intros k (e & He & Hu).
    apply (Hk k); [|by exists e]. apply lookup_lt_Some in He. lia. }
  destruct (lookup_lt_is_Some_2 (plist p) i) as [e He]; [lia|].
  unfold array_get at 1. rewrite He. cbn [of_option]. bret. destruct (in_use e) eqn:Hu.
  - apply IH; [done|lia|done|done|]. intros k Hki. destruct (decide (k = i)) as [->|]; [|apply Hk; lia].
    intros (e' & He' & Hu'). congruence.
  - rewrite Hdup. eexists _, (Some i). split_and!; [done..|]. split; [by exists e|done].
Qed.

Lemma find_ok p cn :
  Z.of_nat (length (plist p)) = size p →
  ∃ r, ifconfig_pool_find p cn = Ret (handle r) ∧ chosen p cn r.
Proof.
  intros Hl. unfold ifconfig_pool_find, chosen. rewrite <- Hl, Nat2Z.id.
  destruct (duplicate_cn p) eqn:Hdup.
  - destruct (find_loop_dup p cn (length (plist p)) 0 (Search 0 (-1) (-1)))
      as (st & r & -> & Hp & Hn & Hr); [done..|lia|]. bret.
    exists r. split; [|done]. rewrite Hp, Hn. rewrite decide_False by lia. by destruct r; cbn; case_decide; try lia.
  - destruct (find_loop_ok p cn (length (plist p)) 0 (Search 0 (-1) (-1))) as (st & -> & HP & HN); [done|lia| |].
    { split; left; (split; [done|]); intros; lia. }
    bret. destruct HP as [[HP Hk]|(j & HP & Hj & Hf)].
    + rewrite HP. rewrite decide_False by lia.
      assert (∀ k, ¬ named (plist p) cn k) as Hk'.
      { intros k Hnm. apply (Hk k); [|done]. destruct Hnm as (e & He & _). by apply lookup_lt_Some in He. }
      destruct HN as [[HN He]|(j & e & HN & He & _ & Ho)].
      * exists None. rewrite HN. split; [done|]. split; [done|]. intros k e' He'. apply (He k e'); [|done].
        destruct He' as (He' & _). by apply lookup_lt_Some in He'.
      * exists (Some j). rewrite HN. rewrite decide_True by lia. split; [done|]. by right.
    + exists (Some j). rewrite HP, decide_True by lia. split; [done|]. by left.
Qed.

(** ** A pool between two calls *)

Definition step_of (p : ifconfig_pool) : Z := if decide (type p = IFCONFIG_POOL_30NET) then 4 else 1.
Definition pool_ok (p : ifconfig_pool) : Prop :=
  Z.of_nat (length (plist p)) = size p ∧ size p ≤ 65536 ∧
  (type p = IFCONFIG_POOL_30NET ∨ type p = IFCONFIG_POOL_INDIV) ∧
  0 ≤ base p ∧ base p + step_of p * size p ≤ 2 ^ 32 ∧
  length (base_ipv6 p) = 16%nat ∧ Forall is_byte (base_ipv6 p).

(** The addresses of the entry [i]. *)
Definition local_of (p : ifconfig_pool) (i : Z) : Z :=
  if decide (type p = IFCONFIG_POOL_30NET) then base p + 4 * i + 1 else 0.
Definition remote_of (p : ifconfig_pool) (i : Z) : Z :=
  if decide (type p = IFCONFIG_POOL_30NET) then base p + 4 * i + 2 else base p + i.

(** The two layouts: a subnet of four addresses for each client, or one address. *)
Lemma layouts p :
  pool_ok p →
  (type p = IFCONFIG_POOL_30NET ∧ step_of p = 4) ∨
  (type p ≠ IFCONFIG_POOL_30NET ∧ type p = IFCONFIG_POOL_INDIV ∧ step_of p = 1).
Proof.
  intros (_ & _ & [Ht|Ht] & _); [left|right]; unfold step_of; rewrite Ht; done.
Qed.

Lemma handle_ip_ok p i :
  pool_ok p → 0 ≤ i < size p →
  ifconfig_pool_handle_to_ip_base p i = Ret (base p + step_of p * i) ∧
  ∀ a, base p + step_of p * i ≤ a < base p + step_of p * (i + 1) →
    ifconfig_pool_ip_base_to_handle p a = Ret i.
Proof.
  intros Hp Hi. pose proof Hp as (Hl & Hs & _ & Hb & Hr & _).
  unfold ifconfig_pool_handle_to_ip_base, ifconfig_pool_ip_base_to_handle.
  rewrite decide_True by lia. rewrite Z.shiftl_mul_pow2 by lia. change (2 ^ 2) with 4.
  assert (swrap 32 i = i) as Hsw by (unfold swrap; rewrite Z.mod_small; lia).
  split; [|intros a Ha]; destruct (layouts p Hp) as [[Ht Hst]|(Ht & Ht' & Hst)]; rewrite Hst in *.
  - rewrite (decide_True (P := type p = IFCONFIG_POOL_30NET)), wrap_small by done || lia. f_equal; lia.
  - rewrite (decide_False (P := type p = IFCONFIG_POOL_30NET)) by done.
    rewrite (decide_True (P := type p = IFCONFIG_POOL_INDIV)), wrap_small by done || lia. f_equal; lia.
  - rewrite (decide_True (P := type p = IFCONFIG_POOL_30NET)) by done.
    rewrite wrap_small, Z.shiftr_div_pow2 by lia. change (2 ^ 2) with 4.
    assert ((a - base p) / 4 = i) as -> by (symmetry; apply (Z.div_unique _ _ _ (a - base p - 4 * i)); lia).
    rewrite Hsw. bret. by rewrite decide_False by lia.
  - rewrite (decide_False (P := type p = IFCONFIG_POOL_30NET)) by done.
    rewrite (decide_True (P := type p = IFCONFIG_POOL_INDIV)), wrap_small by done || lia.
    replace (a - base p) with i by lia. rewrite Hsw. bret. by rewrite decide_False by lia.
Qed.

Lemma remote_handle p i : pool_ok p → 0 ≤ i < size p → ifconfig_pool_ip_base_to_handle p (remote_of p i) = Ret i.
Proof.
  intros Hp Hi. apply handle_ip_ok; [done..|]. unfold remote_of.
  destruct (layouts p Hp) as [[Ht ->]|(Ht & _ & ->)]; case_decide; done || lia.
Qed.

Definition leased (cn : option (list Z)) (e : ifconfig_pool_entry) : ifconfig_pool_entry := IPE true cn 0 (fixed e).

Lemma acquire_ok now want6 p cn :
  pool_ok p →
  ∃ r l p', ifconfig_pool_acquire now want6 cn p = Ret (handle r, l, p') ∧ chosen p cn r ∧
    match r with
    | None => l = None ∧ p' = p
    | Some i => ∃ e a6, plist p !! i = Some e ∧ in_use e = false ∧ p' = set_plist (<[i := leased cn e]> (plist p)) p ∧
        l = Some (Lease (local_of p (Z.of_nat i)) (remote_of p (Z.of_nat i)) a6) ∧
        match a6 with
        | Some b => ipv6 p = true ∧ want6 = true ∧ be_val b = (be_val (base_ipv6 p) + Z.of_nat i) mod 2 ^ 128 ∧
            length b = 16%nat ∧ Forall is_byte b
        | None => ipv6 p && want6 = false
        end
    end.
Proof.
  intros Hp. pose proof Hp as (Hl & Hs & Ht & Hb & Hr & H6l & H6).
  destruct (find_ok p cn Hl) as (r & Hf & Hc). unfold ifconfig_pool_acquire. rewrite Hf. bret.
  destruct r as [i|]; cbn [handle].
  2:{ rewrite decide_False by lia. exists None, None, p. done. }
  assert (∃ e, plist p !! i = Some e ∧ in_use e = false) as (e & He & Hu).
  { unfold chosen in Hc. destruct (duplicate_cn p); [apply Hc|].
    destruct Hc as [[(e & He & Hu & _) _]|[_ (e & (He & Hu & _) & _)]]; by exists e. }
  pose proof (lookup_lt_Some _ _ _ He) as Hlt.
  rewrite decide_True by lia. rewrite Nat2Z.id. unfold array_get at 1. rewrite He. cbn [of_option]. bret.
  rewrite Hu, ASSERT_ok by done. bret. rewrite array_set_ok by done. bret. cbv zeta.
  replace (IPE true _ _ _) with (leased cn e) by (by destruct cn).
  cbn [set_plist type base base_ipv6 ipv6].
  set (p' := set_plist (<[i := leased cn e]> (plist p)) p).
  assert ((if decide (type p = IFCONFIG_POOL_30NET) then
         Ret (u32 (u32 (base p + Z.shiftl (Z.of_nat i) 2) + 1), u32 (u32 (base p + Z.shiftl (Z.of_nat i) 2) + 2))
       else if decide (type p = IFCONFIG_POOL_INDIV) then Ret (0, u32 (base p + Z.of_nat i))
       else Abort) = Ret (local_of p (Z.of_nat i), remote_of p (Z.of_nat i))) as ->.
  { unfold local_of, remote_of. rewrite Z.shiftl_mul_pow2 by lia. change (2 ^ 2) with 4.
    destruct (layouts p Hp) as [[Hty Hst]|(Hty & Hty' & Hst)]; rewrite Hst in Hr.
    - rewrite !(decide_True (P := type p = IFCONFIG_POOL_30NET)) by done.
      rewrite (wrap_small 32 (base p + _)) by lia. rewrite !wrap_small by lia. do 2 f_equal; lia.
    - rewrite !(decide_False (P := type p = IFCONFIG_POOL_30NET)) by done.
      rewrite decide_True by done. by rewrite wrap_small by lia. }
  bret. destruct (ipv6 p && want6) eqn:H6w.
  - destruct (add_in6_ok (base_ipv6 p) (Z.of_nat i) H6l H6) as (b & -> & Hbl & Hbb & Hv); [lia|]. bret.
    apply andb_true_iff in H6w as [-> ->].
    exists (Some i). eexists _, p'. split; [done|]. split; [done|]. exists e, (Some b). done.
  - bret. exists (Some i). eexists _, p'. split; [done|]. split; [done|]. exists e, None. done.
Qed.

Lemma set_entry_ok i e p : pool_ok p → pool_ok (set_plist (<[i := e]> (plist p)) p).
Proof. unfold pool_ok, step_of. cbn. by rewrite length_insert. Qed.

Lemma mask_low x : 0 ≤ x < 2 ^ 32 → Z.land x (u32 (Z.lnot 3)) = 4 * (x / 4).
Proof.
  intros Hx. change (u32 (Z.lnot 3)) with (Z.ldiff (Z.ones 32) (Z.ones 2)).
  assert (Z.land x (Z.ldiff (Z.ones 32) (Z.ones 2)) = Z.ldiff (Z.land x (Z.ones 32)) (Z.ones 2)) as ->.
  { apply Z.bits_inj'. intros n _. rewrite !Z.ldiff_spec, !Z.land_spec, Z.ldiff_spec.
    destruct (Z.testbit x n), (Z.testbit (Z.ones 32) n), (Z.testbit (Z.ones 2) n); done. }
  rewrite Z.land_ones, Z.ldiff_ones_r, Z.shiftl_mul_pow2, Z.shiftr_div_pow2, Z.mod_small by lia.
  change (2 ^ 2) with 4. lia.
Qed.
Lemma or_low x : 0 ≤ x → Z.lor x 3 = 4 * (x / 4) + 3.
Proof.
  intros Hx. change 3 with (Z.ones 2) at 1.
  assert (Z.lor x (Z.ones 2) = Z.lor (Z.shiftl (x / 4) 2) (Z.ones 2)) as ->.
  { change 4 with (2 ^ 2). rewrite <- Z.shiftr_div_pow2 by lia. apply Z.bits_inj'. intros n Hn. rewrite !Z.lor_spec.
    destruct (decide (n < 2)).
    - rewrite Z.ones_spec_low by lia. by rewrite !orb_true_r.
    - rewrite Z.shiftl_spec, Z.shiftr_spec by lia. by replace (n - 2 + 2) with n by lia. }
  assert (Z.land (Z.shiftl (x / 4) 2) (Z.ones 2) = 0) as Hz.
  { rewrite Z.land_ones, Z.shiftl_mul_pow2 by lia. apply Z.mod_mul. lia. }
  rewrite <- Z.lxor_lor, <- Z.add_nocarry_lxor, Z.shiftl_mul_pow2 by done || lia. change (Z.ones 2) with 3. lia.
Qed.
(** The base of the IPv6 addresses, and how many there are. *)
Lemma base6_ok (b6 : list Z) (nb sz : Z) (b : list Z) (s6 : Z) :
  (size6 ← (if decide (nb > 96) then if decide (nb > 128) then Undef else int (Z.shiftl 1 (128 - nb)) else Ret IFCONFIG_POOL_MAX : outcome Z);
   _ ← ASSERT (u32 sz < size6); Ret (b6, size6)) = Ret (b, s6) →
  b = b6 ∧ (0 ≤ nb → nb ≤ 128 ∧ (0 ≤ sz ≤ 65536 → sz ≤ 2 ^ (128 - nb))).
Proof.
  intros (n & Hn & H)%bind_Ret_inv. apply bind_Ret_inv in H as ([] & HA & H). injection H as <- <-. split; [done|].
  intros Hnb. unfold ASSERT in HA. destruct (decide (u32 sz < n)) as [Hlt|]; [|done]. clear HA. case_decide.
  - case_decide; [done|]. apply int_inv in Hn as [-> _]. rewrite Z.shiftl_mul_pow2 in Hlt by lia.
    split; [lia|]. intros Hsz. rewrite wrap_small in Hlt by lia. lia.
  - injection Hn as <-. split; [lia|]. intros Hsz. rewrite wrap_small in Hlt by lia. unfold IFCONFIG_POOL_MAX in Hlt.
    assert (2 ^ 32 ≤ 2 ^ (128 - nb)) by (apply Z.pow_le_mono_r; lia). lia.
Qed.
Lemma init_ok ty start end_ dup v6 b6 nb p :
  0 ≤ start < 2 ^ 32 → 0 ≤ end_ < 2 ^ 32 → length b6 = 16%nat → Forall is_byte b6 →
  ifconfig_pool_init ty start end_ dup v6 b6 nb = Ret p →
  pool_ok p ∧ Forall (λ e, e = IPE false None 0 false) (plist p) ∧ 0 < size p ∧
  type p = ty ∧ start - start mod step_of p = base p ∧
  base p + step_of p * size p = end_ - end_ mod step_of p + step_of p ∧
  ipv6 p = v6 ∧ (v6 = true → base_ipv6 p = b6 ∧ (0 ≤ nb → nb ≤ 128 ∧ size p ≤ 2 ^ (128 - nb))).
Proof.
  intros Hst Hen Hb6 Hb H. unfold ifconfig_pool_init in H.
  apply bind_Ret_inv in H as ([] & HA & H). unfold ASSERT in HA.
  destruct (decide (start ≤ end_ ∧ u32 (end_ - start) < IFCONFIG_POOL_MAX)) as [Hle|]; [|done]. clear HA.
  rewrite wrap_small in Hle by lia. unfold IFCONFIG_POOL_MAX in Hle.
  apply bind_Ret_inv in H as ([bs sz] & Hbs & H). cbv beta iota in H.
  apply bind_Ret_inv in H as ([b s6] & H6 & H). cbv beta iota in H. injection H as <-.
  assert (length b = 16%nat ∧ Forall is_byte b) as [Hbl Hbb].
  { destruct v6.
    - apply bind_Ret_inv in H6 as (s6' & _ & H6). apply bind_Ret_inv in H6 as (? & _ & H6). by injection H6 as <- <-.
    - injection H6 as <- <-. split; [done|]. by repeat constructor. }
  assert (v6 = true → b = b6 ∧ (0 ≤ nb → nb ≤ 128 ∧ (0 ≤ sz ≤ 65536 → sz ≤ 2 ^ (128 - nb)))) as Hv6.
  { intros ->. exact (base6_ok b6 nb sz b s6 H6). }
  unfold pool_ok, step_of. cbn [plist size type base base_ipv6]. rewrite length_replicate.
  assert (∀ n, Forall (λ e, e = IPE false None 0 false) (replicate n (IPE false None 0 false))) as Hrep
    by (intros n; apply Forall_forall; intros e He; by apply elem_of_replicate in He as [-> _]).
  pose proof (Z.mod_pos_bound start 4 ltac:(lia)). pose proof (Z.mod_pos_bound end_ 4 ltac:(lia)).
  pose proof (Z.div_mod start 4 ltac:(lia)). pose proof (Z.div_mod end_ 4 ltac:(lia)).
  destruct (decide (ty = IFCONFIG_POOL_30NET)) as [->|Hty]; [|destruct (decide (ty = IFCONFIG_POOL_INDIV)) as [->|]; [|done]].
  - injection Hbs as <- <-. rewrite mask_low, or_low in * by lia.
    change (2 ^ 32) with (4 * 1073741824) in *.
    assert (Z.shiftr (u32 (u32 (4 * (end_ / 4) + 3 + 1) - 4 * (start / 4))) 2 = end_ / 4 - start / 4 + 1) as Esz.
    { rewrite Z.shiftr_div_pow2 by lia. change (2 ^ 2) with 4. unfold wrap. rewrite Zminus_mod_idemp_l.
      replace (4 * (end_ / 4) + 3 + 1 - 4 * (start / 4)) with (4 * (end_ / 4 - start / 4 + 1)) by lia.
      rewrite (Z.mul_comm 4), Z.mod_small, Z.div_mul by lia. done. }
    rewrite Esz in *. split_and!; try done; try lia. intros Hv. destruct (Hv6 Hv) as [E6 Hn6].
    split; [done|]. intros Hnb. destruct (Hn6 Hnb) as [? Hn]. split; [done|]. apply Hn. lia.
  - injection Hbs as <- <-. assert (s32 (u32 (u32 (end_ - start) + 1)) = end_ - start + 1) as Esz.
    { rewrite (wrap_small 32 (end_ - start)) by lia. rewrite (wrap_small 32) by lia. unfold swrap. rewrite Z.mod_small; lia. }
    rewrite Esz in *. rewrite !Z.mod_1_r. split_and!; try done; try lia. intros Hv. destruct (Hv6 Hv) as [E6 Hn6].
    split; [done|]. intros Hnb. destruct (Hn6 Hnb) as [? Hn]. split; [done|]. apply Hn. lia.
Qed.

(** ** Leases *)

Lemma offset_inj b i j n : 0 ≤ i < n → 0 ≤ j < n → (b + i) mod n = (b + j) mod n → i = j.
Proof.
  intros Hi Hj E. assert ((i - j) mod n = 0) as Hd.
  { replace (i - j) with ((b + i) - (b + j)) by lia. by rewrite Zminus_mod, E, Z.sub_diag, Zmod_0_l. }
  apply Z.mod_divide in Hd as [k Hk]; [|lia]. assert (-1 < k) by nia. assert (k < 1) by nia. nia.
Qed.
(** Within a network the offset does not reach the prefix. *)
Lemma prefix_kept b i n : 0 ≤ n ≤ 128 → b mod 2 ^ n = 0 → 0 ≤ i < 2 ^ n → 0 ≤ b < 2 ^ 128 → (b + i) mod 2 ^ 128 / 2 ^ n = b / 2 ^ n.
Proof.
  intros Hn Hz Hi Hb. pose proof (Z.pow_pos_nonneg 2 n). pose proof (Z.div_mod b (2 ^ n) ltac:(lia)) as Hd. rewrite Hz in Hd.
  assert (2 ^ 128 = 2 ^ n * 2 ^ (128 - n)) as Hp by (rewrite <- Z.pow_add_r by lia; f_equal; lia).
  assert (b / 2 ^ n < 2 ^ (128 - n)) by (apply Z.div_lt_upper_bound; lia).
  rewrite Z.mod_small by nia. rewrite Hd at 1. replace (2 ^ n * (b / 2 ^ n) + 0 + i) with (i + (b / 2 ^ n) * 2 ^ n) by lia.
  rewrite Z.div_add, (Z.div_small i) by lia. lia.
Qed.
(** Where the addresses of an entry are. *)
Lemma addresses_between p start end_ i :
  0 ≤ i < size p → start - start mod step_of p = base p →
  base p + step_of p * size p = end_ - end_ mod step_of p + step_of p →
  if decide (type p = IFCONFIG_POOL_30NET)
  then ∃ k, start / 4 ≤ k ≤ end_ / 4 ∧ local_of p i = 4 * k + 1 ∧ remote_of p i = 4 * k + 2
  else local_of p i = 0 ∧ start ≤ remote_of p i ≤ end_.
Proof.
  unfold step_of, local_of, remote_of. intros Hi. case_decide.
  - pose proof (Z.div_mod start 4 ltac:(lia)). pose proof (Z.div_mod end_ 4 ltac:(lia)). intros Hb1 Hb2. exists (start / 4 + i). lia.
  - rewrite !Z.mod_1_r. lia.
Qed.

(** A server with the leases it has given out and not taken back. *)
Inductive pool_step : ifconfig_pool * gmap nat lease → ifconfig_pool * gmap nat lease → Prop :=
| step_acquire now want6 cn p held h a p' :
    ifconfig_pool_acquire now want6 cn p = Ret (h, Some a, p') →
    pool_step (p, held) (p', <[Z.to_nat h := a]> held)
| step_refused now want6 cn p held h p' :
    ifconfig_pool_acquire now want6 cn p = Ret (h, None, p') → pool_step (p, held) (p', held)
| step_release now i hard p held b p' :
    is_Some (held !! i) → ifconfig_pool_release now (Z.of_nat i) hard p = Ret (b, p') →
    pool_step (p, held) (p', delete i held)
| step_set now cn addr fx p held p' :
    (∀ i, ifconfig_pool_ip_base_to_handle p addr = Ret (Z.of_nat i) → held !! i = None) →
    ifconfig_pool_set now cn addr fx p = Ret p' → pool_step (p, held) (p', held).

(** The addresses of a lease are those of the entry [i]. *)
Definition lease_of (p : ifconfig_pool) (i : Z) (a : lease) : Prop :=
  local a = local_of p i ∧ remote a = remote_of p i ∧
  ∀ b, remote_ipv6 a = Some b → ipv6 p = true ∧ be_val b = (be_val (base_ipv6 p) + i) mod 2 ^ 128.
Definition leases_ok (st : ifconfig_pool * gmap nat lease) : Prop :=
  let '(p, held) := st in
  pool_ok p ∧
  ∀ i, match held !! i with
       | Some a => (∃ e, plist p !! i = Some e ∧ in_use e = true) ∧ lease_of p (Z.of_nat i) a
       | None => ∀ e, plist p !! i = Some e → in_use e = false
       end.

(** The configuration of a pool stays as it is. *)
Definition same_net (p p' : ifconfig_pool) : Prop :=
  base p' = base p ∧ size p' = size p ∧ type p' = type p ∧ ipv6 p' = ipv6 p ∧ base_ipv6 p' = base_ipv6 p.

Lemma leases_insert p held i e e' o :
  leases_ok (p, held) → plist p !! i = Some e' →
  match o with
  | Some a => in_use e = true ∧ lease_of p (Z.of_nat i) a
  | None => in_use e = false
  end →
  leases_ok (set_plist (<[i := e]> (plist p)) p, partial_alter (λ _, o) i held).
Proof.
  intros [Hp Hh] Hi Ho. split; [by apply set_entry_ok|]. intros j. cbn [set_plist plist].
  destruct (decide (j = i)) as [->|Hne].
  - rewrite lookup_partial_alter_eq, list_lookup_insert_eq by (by eapply lookup_lt_Some).
    destruct o as [a|]; [destruct Ho as (Hu & Hlr); split; [by exists e|exact Hlr]|]. by intros e2 [= <-].
  - rewrite lookup_partial_alter_ne, list_lookup_insert_ne by done. apply Hh.
Qed.

Lemma release_ok now i hard p e :
  pool_ok p → plist p !! i = Some e →
  ifconfig_pool_release now (Z.of_nat i) hard p =
  Ret (true, set_plist (<[i := ifconfig_pool_entry_free now hard e]> (plist p)) p).
Proof.
  intros (Hl & _) He. pose proof (lookup_lt_Some _ _ _ He). unfold ifconfig_pool_release.
  rewrite decide_True, Nat2Z.id by lia. unfold array_get. rewrite He. cbn [of_option]. bret.
  rewrite array_set_ok by done. by bret.
Qed.
Lemma set_ok now cn addr fx p :
  pool_ok p →
  ∃ h, ifconfig_pool_ip_base_to_handle p addr = Ret h ∧
    (h = -1 ∧ ifconfig_pool_set now cn addr fx p = Ret p ∨
     ∃ i e, h = Z.of_nat i ∧ plist p !! i = Some e ∧
       ifconfig_pool_set now cn addr fx p = Ret (set_plist (<[i := IPE false (Some cn) now fx]> (plist p)) p)).
Proof.
  intros Hp. pose proof Hp as (Hl & _). unfold ifconfig_pool_set.
  assert (∃ z, ifconfig_pool_ip_base_to_handle p addr = Ret (if decide (z < 0 ∨ z >= size p) then -1 else z)) as [z Hz].
  { unfold ifconfig_pool_ip_base_to_handle. destruct (layouts p Hp) as [[Ht _]|(Ht & Ht' & _)].
    - rewrite (decide_True (P := type p = IFCONFIG_POOL_30NET)) by done. bret. by eexists.
    - rewrite (decide_False (P := type p = IFCONFIG_POOL_30NET)) by done.
      rewrite (decide_True (P := type p = IFCONFIG_POOL_INDIV)) by done. bret. by eexists. }
  rewrite Hz. eexists. split; [done|]. bret. destruct (decide (z < 0 ∨ z >= size p)) as [Hr|Hr]; [left|right].
  - split; [done|]. by rewrite decide_False by lia.
  - rewrite decide_True by lia. destruct (lookup_lt_is_Some_2 (plist p) (Z.to_nat z)) as [e He]; [lia|].
    exists (Z.to_nat z), e. rewrite array_set_ok by lia. bret. split_and!; [lia|done|done].
Qed.

Lemma pool_step_ok st st' : leases_ok st → pool_step st st' → leases_ok st' ∧ same_net st.1 st'.1.
Proof.
  intros Hok Hs. destruct Hs as [now want6 cn p held h a p' H|now want6 cn p held h p' H|now i hard p held b p' Hi H|now cn addr fx p held p' Hf H];
    pose proof (proj1 Hok) as Hp.
  - destruct (acquire_ok now want6 p cn Hp) as (r & l & p2 & E & _ & Hr). rewrite H in E. injection E as -> <- <-.
    destruct r as [i|]; [|by destruct Hr]. destruct Hr as (e & a6 & He & Hu & -> & Hl & H6). injection Hl as ->.
    cbn [handle]. rewrite Nat2Z.id. split; [|done]. apply (leases_insert p held i _ e (Some _)); [done|done|].
    split; [done|]. split; [done|]. split; [done|]. cbn [remote_ipv6]. intros b ->. by destruct H6 as (? & _ & ? & _).
  - destruct (acquire_ok now want6 p cn Hp) as (r & l & p2 & E & _ & Hr). rewrite H in E. injection E as -> <- <-.
    destruct r as [i|]; [by destruct Hr as (e & a6 & _ & _ & _ & Hl & _)|]. destruct Hr as [_ ->]. done.
  - destruct Hi as [a Ha]. pose proof (proj2 Hok i) as Hi. rewrite Ha in Hi. destruct Hi as [(e & He & Hu) _].
    rewrite (release_ok now i hard p e Hp He) in H. injection H as <- <-. split; [|done].
    by apply (leases_insert p held i _ e None).
  - destruct (set_ok now cn addr fx p Hp) as (h & Hh & [[_ E]|(i & e & -> & He & E)]); rewrite H in E; injection E as ->; [done|].
    split; [|done]. specialize (Hf i Hh). replace held with (partial_alter (λ _, None) i held).
    { by apply (leases_insert p held i _ e None). }
    rewrite <- (delete_id held i Hf) at 2. done.
Qed.

Lemma pool_run_ok st st' : rtc pool_step st st' → leases_ok st → leases_ok st' ∧ same_net st.1 st'.1.
Proof.
  induction 1 as [st|st1 st2 st3 H1 _ IH]; intros Hok; [done|].
  destruct (pool_step_ok _ _ Hok H1) as [Hok2 (A & B & C & C2 & C3)]. destruct (IH Hok2) as [Hok3 (D & E & G & G2 & G3)].
  split; [done|]. split_and!; congruence.
Qed.

Lemma remote_between p i :
  pool_ok p → 0 ≤ i < size p → base p + step_of p * i ≤ remote_of p i < base p + step_of p * (i + 1).
Proof. intros Hp Hi. unfold remote_of. destruct (layouts p Hp) as [[Ht ->]|(Ht & _ & ->)]; case_decide; done || lia. Qed.

(** ** Properties *)

(** Ifconfig_pool_acquire gives a free entry, if there is one for this name: the
    first it had before, else the one released first that is not fixed (with
    duplicate_cn simply the first free one); only that entry changes, and the remote
    address leads back to it. *)
Theorem pool_acquire_correct now want6 p cn :
  pool_ok p →
  ∃ r l p', ifconfig_pool_acquire now want6 cn p = Ret (handle r, l, p') ∧ chosen p cn r ∧
    match r with
    | None => l = None ∧ p' = p
    | Some i => ∃ e a6, plist p !! i = Some e ∧ in_use e = false ∧
        p' = set_plist (<[i := IPE true cn 0 (fixed e)]> (plist p)) p ∧
        l = Some (Lease (local_of p (Z.of_nat i)) (remote_of p (Z.of_nat i)) a6) ∧
        ifconfig_pool_ip_base_to_handle p' (remote_of p (Z.of_nat i)) = Ret (Z.of_nat i) ∧
        (∀ b, a6 = Some b → be_val b = (be_val (base_ipv6 p) + Z.of_nat i) mod 2 ^ 128)
    end.
Proof.
  intros Hp. destruct (acquire_ok now want6 p cn Hp) as (r & l & p' & E & Hc & Hr).
  exists r, l, p'. split; [done|]. split; [done|]. destruct r as [i|]; [|done].
  destruct Hr as (e & a6 & He & Hu & -> & -> & H6). exists e, a6. split_and!; [done..| |].
  - change (ifconfig_pool_ip_base_to_handle (set_plist ?l p) ?a) with (ifconfig_pool_ip_base_to_handle p a).
    apply remote_handle; [done|]. pose proof (lookup_lt_Some _ _ _ He). destruct Hp as (Hl & _). lia.
  - intros b ->. apply H6.
Qed.


(** Two subnets, from 10.8.0.4 to 10.8.0.11; the first was released by client [65]. *)
Definition small_pool : ifconfig_pool :=
  Pool 168296452 2 IFCONFIG_POOL_30NET false false (replicate 16 0) 0
    [IPE false (Some [65]) 1000 false; IPE false None 0 false].

Lemma small_pool_ok : pool_ok small_pool.
Proof.
  repeat split; try (vm_compute; congruence); [by left|]. repeat constructor; vm_compute; congruence.
Qed.

Lemma pool_acquire_correct_witness :
  ∃ r l p', ifconfig_pool_acquire 2000 false (Some [66]) small_pool = Ret (handle r, l, p') ∧ chosen small_pool (Some [66]) r ∧
    l = Some (Lease 168296457 168296458 None).
Proof.
  destruct (pool_acquire_correct 2000 false small_pool (Some [66]) small_pool_ok) as (r & l & p' & E & Hc & _).
  exists r, l, p'. split; [exact E|]. split; [exact Hc|]. vm_compute in E. injection E as _ <- _. reflexivity.
Defined.

(** The base fd00::, with a prefix of 112 bits. *)
Definition base_fd00 : list Z := 253 :: replicate 15 0.
Definition fresh_pool : ifconfig_pool :=
  Pool 168296452 2 IFCONFIG_POOL_30NET false true base_fd00 65536 (replicate 2 (IPE false None 0 false)).

