(* ===== verification/OvpnProto.v ===== *)
(** * OpenVPN: IP packets

    Models [openvpn/src/src/openvpn/proto.h] and [proto.c], the change of the MSS option
    of TCP of [mss.c], and the address translation of [clinat.c].

    A header is read through a pointer into the buffer; its fields of 16 and 32 bits have
    the byte order of the host, [little] or not, and everything below holds for both. *)
From S2P Require Import Prelude OvpnBuffer.
#[local] Open Scope bool_scope.
#[local] Open Scope Z_scope.

Definition DEV_TYPE_TUN : Z := 2.
Definition DEV_TYPE_TAP : Z := 3.

Definition sizeof_ethhdr : Z := 14.
Definition sizeof_iphdr : Z := 20.
Definition sizeof_ipv6hdr : Z := 40.
Definition sizeof_udphdr : Z := 8.
Definition sizeof_tcphdr : Z := 20.

Definition OPENVPN_ETH_P_IPV4 : Z := 2048.
Definition OPENVPN_ETH_P_IPV6 : Z := 34525.
Definition OPENVPN_IPH_GET_VER (v : Z) : Z := Z.land (Z.shiftr v 4) 15.
Definition OPENVPN_IPH_GET_LEN (v : Z) : Z := Z.shiftl (Z.land v 15) 2.
Definition OPENVPN_IP_OFFMASK : Z := 8191.
Definition OPENVPN_IPPROTO_TCP : Z := 6.
Definition OPENVPN_IPPROTO_UDP : Z := 17.
Definition OPENVPN_TCPH_GET_DOFF (d : Z) : Z := Z.shiftr (Z.land d 240) 2.
Definition OPENVPN_TCPH_SYN_MASK : Z := 2.
Definition OPENVPN_TCPOPT_EOL : Z := 0.
Definition OPENVPN_TCPOPT_NOP : Z := 1.
Definition OPENVPN_TCPOPT_MAXSEG : Z := 2.
Definition OPENVPN_TCPOLEN_MAXSEG : Z := 4.

(** Offsets of the fields. *)
Definition eth_proto : Z := 12.
Definition ip_version_len : Z := 0.
Definition ip_tot_len : Z := 2.
Definition ip_frag_off : Z := 6.
Definition ip_protocol : Z := 9.
Definition ip_check : Z := 10.
Definition ip_saddr : Z := 12.
Definition ip_daddr : Z := 16.
Definition ip6_payload_len : Z := 4.
Definition ip6_nexthdr : Z := 6.
Definition tcp_doff_res : Z := 12.
Definition tcp_flags : Z := 13.
Definition tcp_check : Z := 16.
Definition udp_check : Z := 6.

Definition ADJUST_CHECKSUM (acc cksum : Z) : outcome Z :=
  a ← int (acc + cksum);
  if decide (a < 0) then
    a ← int (- a);
    a ← int (Z.shiftr a 16 + Z.land a 65535);
    a ← int (a + Z.shiftr a 16);
    Ret (u16 (Z.lnot a))
  else
    a ← int (Z.shiftr a 16 + Z.land a 65535);
    a ← int (a + Z.shiftr a 16);
    Ret (u16 a).

(** [acc += x], [acc] an [int] and [x] unsigned. *)
Definition ADD_CHECKSUM_32 (acc x : Z) : Z := s32 (s32 (acc + Z.land x 65535) + Z.shiftr x 16).
Definition SUB_CHECKSUM_32 (acc x : Z) : Z := s32 (s32 (acc - Z.land x 65535) - Z.shiftr x 16).

Definition MTU_TO_MSS (mtu : Z) : Z := mtu - sizeof_iphdr - sizeof_tcphdr.

Section host.
Context (little : bool).

(** The integer that these bytes are in memory, and back. *)
Definition host (bs : list Z) : Z := from_be (if little then rev bs else bs).
Definition host16_bytes (v : Z) : list Z := if little then rev (be16 v) else be16 v.
Definition host32_bytes (v : Z) : list Z := if little then rev (be32 v) else be32 v.

Definition ntohs (v : Z) : Z := from_be (host16_bytes v).
Definition htons (v : Z) : Z := host (be16 v).

Definition load16 (p : Z) : M buffer Z := bs ← peek_n p 2; mret (host bs).
Definition load32 (p : Z) : M buffer Z := bs ← peek_n p 4; mret (host bs).
Definition store16 (p v : Z) : M buffer unit := poke p (host16_bytes v).
Definition store32 (p v : Z) : M buffer unit := poke p (host32_bytes v).

(** A copy of the buffer that shares its bytes: the operation is done on the copy. *)
Definition on_copy {A} (m : M buffer A) : M buffer A := λ b,
  '(x, b') ← m b;
  Ret (x, Buf (capacity b) (offset b) (len b) (data b')).

(** ** [proto.c] *)

Definition is_ipv_X (tunnel_type ip_ver : Z) : M buffer bool := λ b,
  '(off, b) ←
    (if decide (tunnel_type = DEV_TYPE_TUN) then
       Ret (if decide (buf_len b < sizeof_iphdr) then None else Some 0, b)
     else if decide (tunnel_type = DEV_TYPE_TAP) then
       if decide (buf_len b < sizeof_ethhdr + sizeof_iphdr) then Ret (None, b)
       else
         '(proto, b) ← load16 (offset b + eth_proto) b;
         Ret (if decide (ntohs proto ≠ (if decide (ip_ver = 6) then OPENVPN_ETH_P_IPV6 else OPENVPN_ETH_P_IPV4))
              then None else Some sizeof_ethhdr, b)
     else Ret (None, b));
  match off with
  | None => Ret (false, b)
  | Some off =>
      '(v, b) ← peek (offset b + off + ip_version_len) b;
      if decide (OPENVPN_IPH_GET_VER v = ip_ver) then buf_advance off b else Ret (false, b)
  end.
Definition is_ipv4 (tunnel_type : Z) : M buffer bool := is_ipv_X tunnel_type 4.
Definition is_ipv6 (tunnel_type : Z) : M buffer bool := is_ipv_X tunnel_type 6.

(** ** [mss.c] *)

(** An MSS option at [opt], in the segment at [tc]. *)
Definition lower_mss (maxmss tc opt : Z) : M buffer unit :=
  hi ← peek (opt + 2);
  lo ← peek (opt + 3);
  let mssval := u16 (Z.shiftl hi 8 + lo) in
  if decide (mssval > maxmss) then
    poke (opt + 2) [u8 (Z.land (Z.shiftr maxmss 8) 255)];;
    poke (opt + 3) [u8 (Z.land maxmss 255)];;
    accumulate ← lift (int (htons mssval - htons maxmss));
    check ← load16 (tc + tcp_check);
    check ← lift (ADJUST_CHECKSUM accumulate check);
    store16 (tc + tcp_check) check
  else mret tt.

(** One option; [inl] with what is left of them. *)
Definition option_body (maxmss tc : Z) (st : Z * Z) : M buffer (Z * Z + unit) :=
  let '(olen, opt) := st in
  if decide (olen > 0) then
    kind ← peek opt;
    if decide (kind = OPENVPN_TCPOPT_EOL) then mret (inr tt)
    else if decide (kind = OPENVPN_TCPOPT_NOP) then mret (inl (olen - 1, opt + 1))
    else
      optlen ← peek (opt + 1);
      if decide (optlen ≤ 0 ∨ optlen > olen) then mret (inr tt)
      else
        (if decide (kind = OPENVPN_TCPOPT_MAXSEG ∧ optlen = OPENVPN_TCPOLEN_MAXSEG)
         then lower_mss maxmss tc opt else mret tt);;
        mret (inl (olen - optlen, opt + optlen))
  else mret (inr tt).

Definition mss_fixup_dowork (maxmss : Z) : M buffer unit := λ b,
  _ ← ASSERT (buf_len b >= sizeof_tcphdr);
  let tc := offset b in
  '(doff, b) ← peek (tc + tcp_doff_res) b;
  let hlen := OPENVPN_TCPH_GET_DOFF doff in
  if decide (hlen ≤ sizeof_tcphdr ∨ hlen > buf_len b) then Ret (tt, b)
  else
    let olen := hlen - sizeof_tcphdr in
    loopM (S (Z.to_nat olen)) (option_body maxmss tc) (olen, tc + sizeof_tcphdr) b.

Definition mss_fixup_ipv4 (maxmss : Z) : M buffer unit := λ b,
  if decide (buf_len b < sizeof_iphdr) then Ret (tt, b)
  else
    let pip := offset b in
    '(version_len, b) ← peek (pip + ip_version_len) b;
    let hlen := OPENVPN_IPH_GET_LEN version_len in
    '(protocol, b) ← peek (pip + ip_protocol) b;
    '(tot_len, b) ← load16 (pip + ip_tot_len) b;
    '(frag_off, b) ← load16 (pip + ip_frag_off) b;
    if decide (protocol = OPENVPN_IPPROTO_TCP ∧ ntohs tot_len = buf_len b ∧
               Z.land (ntohs frag_off) OPENVPN_IP_OFFMASK = 0 ∧ hlen ≤ buf_len b ∧
               buf_len b - hlen >= sizeof_tcphdr)
    then
      on_copy
        (ok ← buf_advance hlen;
         if ok : bool then
           nb ← get;
           flags ← peek (offset nb + tcp_flags);
           if decide (Z.land flags OPENVPN_TCPH_SYN_MASK ≠ 0) then mss_fixup_dowork (u16 maxmss) else mret tt
         else mret tt) b
    else Ret (tt, b).

Definition mss_fixup_ipv6 (maxmss : Z) : M buffer unit := λ b,
  if decide (buf_len b < sizeof_ipv6hdr) then Ret (tt, b)
  else
    let pip6 := offset b in
    '(payload_len, b) ← load16 (pip6 + ip6_payload_len) b;
    if decide (buf_len b ≠ ntohs payload_len + 40) then Ret (tt, b)
    else
      '(nexthdr, b) ← peek (pip6 + ip6_nexthdr) b;
      if decide (nexthdr ≠ OPENVPN_IPPROTO_TCP) then Ret (tt, b)
      else
        on_copy
          (ok ← buf_advance 40;
           if ok : bool then
             nb ← get;
             flags ← peek (offset nb + tcp_flags);
             if decide (Z.land flags OPENVPN_TCPH_SYN_MASK ≠ 0) then mss_fixup_dowork (u16 (u16 maxmss - 20)) else mret tt
           else mret tt) b.

(** ** [clinat.c] *)

Definition MAX_CLIENT_NAT : Z := 64.
Definition CN_OUTGOING : Z := 0.
Definition CN_INCOMING : Z := 1.
Definition CN_SNAT : Z := 0.
Definition CN_DNAT : Z := 1.

(** The addresses are in network order, as in the packet. *)
Record client_nat_entry := CNE {
  cn_type : Z;
  network : Z;
  netmask : Z;
  foreign_network : Z;
}.

(** [n] entries. *)
Definition add_entry (dest : list client_nat_entry) (e : client_nat_entry) : bool * list client_nat_entry :=
  if decide (Z.of_nat (length dest) >= MAX_CLIENT_NAT) then (false, dest) else (true, dest ++ [e]).
Fixpoint copy_client_nat_option_list (dest src : list client_nat_entry) : list client_nat_entry :=
  match src with
  | [] => dest
  | e :: src => let '(ok, dest) := add_entry dest e in
                if ok then copy_client_nat_option_list dest src else dest
  end.

(** The words "snat" and "dnat", and [getaddr]. *)
Definition add_client_nat_to_option_list (getaddr : list Z → option Z) (dest : list client_nat_entry)
    (type network netmask foreign_network : list Z) : list client_nat_entry :=
  match (if decide (type = [115; 110; 97; 116]) then Some CN_SNAT
         else if decide (type = [100; 110; 97; 116]) then Some CN_DNAT else None) with
  | None => dest
  | Some ty =>
      match getaddr network, getaddr netmask, getaddr foreign_network with
      | Some n, Some m, Some f => (add_entry dest (CNE ty n m f)).2
      | _, _, _ => dest
      end
  end.

(** [accumulate] and [alog]. *)
Record nat_state := NS { accumulate : Z; alog : Z }.

(** One rule, on the packet at [h]. *)
Definition nat_body (h direction : Z) (e : client_nat_entry) (st : nat_state) : M buffer nat_state :=
  let '(addr_ptr, amask) :=
    if decide (Z.lxor (cn_type e) direction ≠ 0) then (h + ip_daddr, 2) else (h + ip_saddr, 1) in
  addr ← load32 addr_ptr;
  let '(from, to) := if decide (direction ≠ 0) then (foreign_network e, network e) else (network e, foreign_network e) in
  if decide (Z.land addr (netmask e) = from ∧ Z.land amask (alog st) = 0) then
    let acc := ADD_CHECKSUM_32 (accumulate st) addr in
    let addr := Z.lor (Z.land addr (u32 (Z.lnot (netmask e)))) to in
    let acc := SUB_CHECKSUM_32 acc addr in
    store32 addr_ptr addr;;
    mret (NS acc (Z.lor (alog st) amask))
  else mret st.
Fixpoint nat_loop (h direction : Z) (l : list client_nat_entry) (st : nat_state) : M buffer nat_state :=
  match l with
  | [] => mret st
  | e :: l => st ← nat_body h direction e st; nat_loop h direction l st
  end.

Definition adjust_at (p acc : Z) : M buffer unit :=
  check ← load16 p;
  check ← lift (ADJUST_CHECKSUM acc check);
  store16 p check.

Definition client_nat_transform (l : list client_nat_entry) (direction : Z) : M buffer unit := λ ipbuf,
  let h := offset ipbuf in
  (st ← nat_loop h direction l (NS 0 0);
   if decide (alog st ≠ 0) then
     adjust_at (h + ip_check) (accumulate st);;
     protocol ← peek (h + ip_protocol);
     ipbuf ← get;
     if decide (protocol = OPENVPN_IPPROTO_TCP) then
       if decide (buf_len ipbuf >= sizeof_iphdr + sizeof_tcphdr)
       then adjust_at (h + sizeof_iphdr + tcp_check) (accumulate st) else mret tt
     else if decide (protocol = OPENVPN_IPPROTO_UDP) then
       if decide (buf_len ipbuf >= sizeof_iphdr + sizeof_udphdr)
       then adjust_at (h + sizeof_iphdr + udp_check) (accumulate st) else mret tt
     else mret tt
   else mret tt) ipbuf.
End host.
