(* ===== verification/OvpnProtoProofs.v ===== *)
(** * OpenVPN: IP packets, proved

    The one's complement sum ([osum], modulo 65535) of a segment, the effect of
    [ADJUST_CHECKSUM] on it, and the walk over the TCP options ([mss_at]). *)
From S2P Require Import Prelude OvpnBuffer OvpnProto.
#[local] Open Scope bool_scope.
#[local] Open Scope Z_scope.

(** ** Access to a buffer by its parts *)

Lemma peek_mk pre c post i x :
  (c ++ post) !! i = Some x →
  peek (Z.of_nat (length pre) + Z.of_nat i) (mkbuf pre c post) = Ret (x, mkbuf pre c post).
Proof.
  intros H. unfold peek. cbn [mkbuf data of_option]. bret. rewrite decide_True by lia.
  unfold load. replace (Z.to_nat _) with (length pre + i)%nat by lia.
  rewrite lookup_app_r by lia. replace (length pre + i - length pre)%nat with i by lia. by rewrite H.
Qed.
Lemma peek_out pre c i :
  (length c ≤ i)%nat → peek (Z.of_nat (length pre) + Z.of_nat i) (mkbuf pre c []) = Undef.
Proof.
  intros H. unfold peek. cbn [mkbuf data of_option]. bret. rewrite decide_True by lia.
  unfold load. rewrite lookup_ge_None_2; [done|]. rewrite !length_app. cbn. lia.
Qed.
Lemma peek_n_at pre c post i n :
  (i + n ≤ length c)%nat →
  peek_n (Z.of_nat (length pre) + Z.of_nat i) (Z.of_nat n) (mkbuf pre c post) = Ret (slice i n c, mkbuf pre c post).
Proof.
  intros H. unfold peek_n. cbn [mkbuf data of_option]. bret. rewrite !length_app, decide_True by lia. unfold slice.
  replace (Z.to_nat (Z.of_nat (length pre) + Z.of_nat i)) with (length pre + i)%nat by lia.
  rewrite Nat2Z.id, drop_app_add, drop_app_le, take_app_le by (rewrite ?length_drop; lia). done.
Qed.
Lemma poke_mk pre c post i bs :
  Forall is_byte bs → (i + length bs ≤ length c)%nat →
  poke (Z.of_nat (length pre) + Z.of_nat i) bs (mkbuf pre c post) = Ret (tt, mkbuf pre (splice i bs c) post).
Proof.
  intros Hb H. unfold poke. cbn [mkbuf data of_option]. bret. rewrite decide_True by lia.
  replace (Z.to_nat _) with (length (pre ++ take i c)) by len.
  assert (pre ++ c ++ post = (pre ++ take i c) ++ take (length bs) (drop i c) ++ (drop (i + length bs) c ++ post)) as ->.
  { rewrite <- drop_drop, (app_assoc (take _ _)), take_drop. rewrite <- (app_assoc pre), (app_assoc (take i c)).
    by rewrite take_drop. }
  rewrite fill_mid by (done || (rewrite length_take, length_drop; lia)). bret.
  unfold set_data, splice. cbn [mkbuf capacity offset len]. f_equal. f_equal. unfold mkbuf. rewrite !length_app, length_take, length_drop.
  f_equal; [lia|lia|]. f_equal. by rewrite <- !app_assoc.
Qed.

(** ** One's complement sums *)

(** [even]: the first byte is the upper half of a word. *)
Fixpoint osum_from (even : bool) (l : list Z) : Z :=
  match l with [] => 0 | x :: l => (if even then 256 * x else x) + osum_from (negb even) l end.
(** The sum of the 16-bit words, in network order. *)
Definition osum (l : list Z) : Z := osum_from true l.
Definition weight (even : bool) (i : nat) : Z := if xorb even (Nat.odd i) then 256 else 1.

Lemma weight_S even i : weight (negb even) i = weight even (S i).
Proof. unfold weight. rewrite Nat.odd_succ, <- Nat.negb_odd. by destruct even, (Nat.odd i). Qed.
Lemma osum_insert even l i x y :
  l !! i = Some y → osum_from even (<[i := x]> l) = osum_from even l + weight even i * (x - y).
Proof.
  revert even i. induction l as [|z l IH]; intros even [|i] H; try discriminate.
  - injection H as ->. unfold weight. cbn. destruct even; cbn; lia.
  - change (<[S i := x]> (z :: l)) with (z :: <[i := x]> l). cbn [osum_from]. cbn in H. rewrite (IH (negb even) i H), weight_S. lia.
Qed.
Lemma osum_pair l i x1 x2 y1 y2 :
  l !! i = Some y1 → l !! S i = Some y2 → Nat.even i = true →
  osum (splice i [x1; x2] l) = osum l + (256 * x1 + x2) - (256 * y1 + y2).
Proof.
  intros H1 H2 He. pose proof (lookup_lt_Some _ _ _ H2) as Hl.
  assert (splice i [x1; x2] l = <[S i := x2]> (<[i := x1]> l)) as ->.
  { apply list_eq. intros j. unfold splice. cbn [length].
    destruct (decide (j = S i)) as [->|]; [|destruct (decide (j = i)) as [->|]].
    - rewrite list_lookup_insert_eq by (rewrite length_insert; lia).
      rewrite lookup_app_r by (rewrite length_take; lia). rewrite length_take.
      replace (S i - i `min` length l)%nat with 1%nat by lia. done.
    - rewrite list_lookup_insert_ne, list_lookup_insert_eq by lia.
      rewrite lookup_app_r by (rewrite length_take; lia). rewrite length_take.
      replace (i - i `min` length l)%nat with 0%nat by lia. done.
    - rewrite !list_lookup_insert_ne by done. destruct (decide (j < i)%nat).
      + rewrite lookup_app_l by (rewrite length_take; lia). by rewrite lookup_take_lt.
      + rewrite lookup_app_r by (rewrite length_take; lia). rewrite length_take.
        rewrite lookup_app_r by (cbn; lia). rewrite lookup_drop. f_equal. cbn. lia. }
  unfold osum. rewrite (osum_insert _ _ (S i) x2 y2) by (by rewrite list_lookup_insert_ne).
  rewrite (osum_insert _ _ i x1 y1) by done. unfold weight. rewrite Nat.odd_succ, He, <- Nat.negb_even, He. cbn. lia.
Qed.

(** Equal modulo 65535. *)
Definition same_sum (a b : Z) : Prop := a mod 65535 = b mod 65535.
#[export] Instance same_sum_equiv : Equivalence same_sum.
Proof. unfold same_sum. split; [done|by intros x y ->|by intros x y z -> ->]. Qed.
#[export] Instance same_sum_add : Proper (same_sum ==> same_sum ==> same_sum) Z.add.
Proof. intros a b H c d H'. unfold same_sum in *. by rewrite Z.add_mod, H, H', <- Z.add_mod. Qed.
#[export] Instance same_sum_sub : Proper (same_sum ==> same_sum ==> same_sum) Z.sub.
Proof. intros a b H c d H'. unfold same_sum in *. by rewrite Zminus_mod, H, H', <- Zminus_mod. Qed.
#[export] Instance same_sum_mul : Proper (same_sum ==> same_sum ==> same_sum) Z.mul.
Proof. intros a b H c d H'. unfold same_sum in *. by rewrite Z.mul_mod, H, H', <- Z.mul_mod. Qed.
Lemma same_sum_k a b k : a = b + 65535 * k → same_sum a b.
Proof. intros ->. unfold same_sum. by rewrite Z.mul_comm, Z.mod_add. Qed.
(** Swapping the bytes of every word multiplies by 256. *)
Lemma same_sum_swap a b : same_sum (256 * a) (256 * b) → same_sum a b.
Proof.
  intros H. assert (same_sum (256 * (256 * a)) (256 * (256 * b))) as H2 by (by rewrite H).
  assert (∀ x, same_sum (256 * (256 * x)) x) as Hx by (intros x; apply (same_sum_k _ _ x); lia).
  by rewrite !Hx in H2.
Qed.

Lemma fold_sum x :
  0 ≤ x < 2 ^ 31 →
  let a := Z.shiftr x 16 + Z.land x 65535 in
  0 ≤ a < 2 ^ 17 ∧ 0 ≤ a + Z.shiftr a 16 < 2 ^ 17 ∧ same_sum (u16 (a + Z.shiftr a 16)) x ∧
  same_sum (u16 (Z.lnot (a + Z.shiftr a 16))) (- x).
Proof.
  intros Hx. cbv zeta. change 65535 with (Z.ones 16). rewrite Z.land_ones, !Z.shiftr_div_pow2 by lia.
  pose proof (Z.div_mod x (2 ^ 16) ltac:(lia)) as Hd. pose proof (Z.mod_pos_bound x (2 ^ 16) ltac:(lia)) as Hm.
  assert (0 ≤ x / 2 ^ 16 < 2 ^ 15) as Hq.
  { split; [apply Z.div_pos; lia|apply Z.div_lt_upper_bound; lia]. }
  set (q := x / 2 ^ 16) in *. set (r := x mod 2 ^ 16) in *. change (2 ^ 16) with 65536 in *.
  change (2 ^ 15) with 32768 in *. change (2 ^ 17) with 131072. set (a := q + r) in *.
  assert (a / 65536 = if decide (a < 65536) then 0 else 1) as ->.
  { case_decide; [apply Z.div_small; lia|]. symmetry. apply (Z.div_unique _ _ _ (a - 65536)); lia. }
  split; [lia|]. split; [case_decide; lia|]. unfold wrap. change (2 ^ 16) with 65536. rewrite Z.lnot_eq_pred_opp. case_decide.
  - rewrite !Z.add_0_r. split.
    + rewrite Z.mod_small by lia. apply (same_sum_k _ _ (- q)). lia.
    + replace ((- a - 1) mod 65536) with (65535 - a).
      2:{ apply (Z.mod_unique _ _ (-1)); lia. }
      apply (same_sum_k _ _ (1 + q)). lia.
  - split.
    + replace ((a + 1) mod 65536) with (a + 1 - 65536).
      2:{ apply (Z.mod_unique _ _ 1); lia. }
      apply (same_sum_k _ _ (- 1 - q)). lia.
    + replace ((- (a + 1) - 1) mod 65536) with (131072 - a - 2).
      2:{ apply (Z.mod_unique _ _ (-2)); lia. }
      apply (same_sum_k _ _ (2 + q)). lia.
Qed.

Lemma ADJUST_ok acc cksum :
  is_u16 cksum → - 2 ^ 24 ≤ acc ≤ 2 ^ 24 →
  ∃ r, ADJUST_CHECKSUM acc cksum = Ret r ∧ is_u16 r ∧ same_sum r (cksum + acc).
Proof.
  intros Hc Ha. unfold ADJUST_CHECKSUM. ints. rewrite int_ok by (ints; lia). bret. case_decide as Hneg.
  - rewrite int_ok by (ints; lia). bret. destruct (fold_sum (- (acc + cksum))) as (H1 & H2 & _ & H3); [lia|].
    rewrite int_ok by (ints; lia). bret. rewrite int_ok by (ints; lia). bret. eexists. split; [done|].
    split; [apply (wrap_range 16); lia|]. rewrite H3. apply (same_sum_k _ _ 0). lia.
  - destruct (fold_sum (acc + cksum)) as (H1 & H2 & H3 & _); [lia|].
    rewrite int_ok by (ints; lia). bret. rewrite int_ok by (ints; lia). bret. eexists. split; [done|].
    split; [apply (wrap_range 16); lia|]. rewrite H3. apply (same_sum_k _ _ 0). lia.
Qed.

Lemma byte2 b1 b2 : is_byte b1 → is_byte b2 → Forall is_byte [b1; b2].
Proof. intros. apply Forall_cons. split; [done|]. by apply Forall_singleton. Qed.

(** ** Host order *)

Section host.
Context (little : bool).

Definition order : Z := if little then 256 else 1.

Lemma host_pair b1 b2 : same_sum (host little [b1; b2]) (order * (256 * b1 + b2)).
Proof.
  unfold host, from_be, order. destruct little; cbn.
  - apply (same_sum_k _ _ (- b1)). lia.
  - apply (same_sum_k _ _ 0). lia.
Qed.
Lemma host_u16 b1 b2 : is_byte b1 → is_byte b2 → is_u16 (host little [b1; b2]).
Proof. unfold host, from_be. ints. destruct little; cbn; lia. Qed.
Lemma order_cancel a b : same_sum (order * a) (order * b) → same_sum a b.
Proof. unfold order. destruct little; [apply same_sum_swap|]. by rewrite !Z.mul_1_l. Qed.

Lemma host16_bytes_ok v :
  is_u16 v → ∃ b1 b2, host16_bytes little v = [b1; b2] ∧ is_byte b1 ∧ is_byte b2 ∧ host little [b1; b2] = v.
Proof.
  intros Hv. pose proof (be16_decode v) as H. rewrite (u16_id v Hv) in H. unfold host16_bytes, host, from_be, be16.
  destruct little; cbn; eexists _, _; (split; [done|]); (split; [done|]); (split; [done|]); lia.
Qed.
Lemma htons_ok v : is_u16 v → htons little v = host little [v / 256; v mod 256].
Proof.
  intros Hv. unfold htons, be16. do 2 f_equal.
  apply u8_id. ints. split; [apply Z.div_pos; lia|apply Z.div_lt_upper_bound; lia].
Qed.

Lemma load16_mk pre c post i b1 b2 :
  c !! i = Some b1 → c !! S i = Some b2 →
  load16 little (Z.of_nat (length pre) + Z.of_nat i) (mkbuf pre c post) = Ret (host little [b1; b2], mkbuf pre c post).
Proof.
  intros H1 H2. pose proof (lookup_lt_Some _ _ _ H2) as Hl. unfold load16.
  pose proof (peek_n_at pre c post i 2 ltac:(lia)) as Hp. change (Z.of_nat 2) with 2 in Hp.
  rewrite bindM_run, Hp. bret. unfold mret, M_ret.
  assert (slice i 2 c = [b1; b2]) as ->; [|done]. unfold slice.
  rewrite (drop_S _ b1) by done. cbn [take]. rewrite (drop_S _ b2) by done. done.
Qed.
Lemma store16_mk pre c post i v :
  is_u16 v → (i + 2 ≤ length c)%nat →
  ∃ b1 b2, store16 little (Z.of_nat (length pre) + Z.of_nat i) v (mkbuf pre c post) = Ret (tt, mkbuf pre (splice i [b1; b2] c) post) ∧
    is_byte b1 ∧ is_byte b2 ∧ host little [b1; b2] = v.
Proof.
  intros Hv Hi. destruct (host16_bytes_ok v Hv) as (b1 & b2 & Hb & H1 & H2 & Hh). exists b1, b2.
  unfold store16. rewrite Hb, poke_mk; [done|by apply byte2|cbn; lia].
Qed.

(** ** Lowering the MSS *)

Definition mss_of (c : list Z) (o : nat) : Z := 256 * nth (o + 2) c 0 + nth (o + 3) c 0.

Lemma splice_lookup (i j : nat) (bs l : list Z) :
  (i + length bs ≤ length l)%nat →
  splice i bs l !! j = if decide (i ≤ j < i + length bs)%nat then bs !! (j - i)%nat else l !! j.
Proof.
  intros Hl. unfold splice. destruct (decide (j < i)%nat).
  { rewrite decide_False by lia. rewrite lookup_app_l by (rewrite length_take; lia). by rewrite lookup_take_lt. }
  rewrite lookup_app_r by (rewrite length_take; lia). rewrite length_take. replace (i `min` length l)%nat with i by lia.
  destruct (decide (i ≤ j < i + length bs)%nat).
  - by rewrite lookup_app_l by lia.
  - rewrite lookup_app_r, lookup_drop by lia. f_equal. lia.
Qed.
Lemma length_splice_in (i : nat) (bs l : list Z) : (i + length bs ≤ length l)%nat → length (splice i bs l) = length l.
Proof. intros. unfold splice. rewrite !length_app, length_take, length_drop. lia. Qed.

(** The MSS options at [os] of [c] are lowered in [c'], and the check follows. *)
Definition lowered (maxmss : Z) (os : list nat) (c c' : list Z) : Prop :=
  length c' = length c ∧ Forall is_byte c' ∧
  (∀ o, o ∈ os → mss_of c' o = Z.min (mss_of c o) maxmss) ∧
  (∀ i, i ≠ 16%nat → i ≠ 17%nat → (∀ o, o ∈ os → i ≠ (o + 2)%nat ∧ i ≠ (o + 3)%nat) → c' !! i = c !! i) ∧
  (Forall (λ o, Nat.even o = true) os → same_sum (osum c') (osum c)).

Lemma nth_lookup_eq (c c' : list Z) i : c !! i = c' !! i → nth i c 0 = nth i c' 0.
Proof. intros H. by rewrite !nth_lookup, H. Qed.

Lemma splice_snoc (i : nat) x y (l : list Z) :
  (i + 2 ≤ length l)%nat → splice (S i) [y] (splice i [x] l) = splice i [x; y] l.
Proof.
  intros Hl. assert (length (splice i [x] l) = length l) as Hl1 by (apply length_splice_in; cbn; lia).
  apply list_eq. intros j. rewrite !splice_lookup by (cbn; lia). cbn [length].
  repeat case_decide; try lia; try done.
  - replace (j - S i)%nat with 0%nat by lia. by replace (j - i)%nat with 1%nat by lia.
  - by replace (j - i)%nat with 0%nat by lia.
Qed.
Lemma div_mod_pair a b : is_byte b → [(256 * a + b) / 256; (256 * a + b) mod 256] = [a; b].
Proof.
  intros Hb. ints. f_equal; [|f_equal].
  - symmetry. apply (Z.div_unique _ _ _ b); lia.
  - symmetry. apply (Z.mod_unique _ _ a); lia.
Qed.

Lemma lower_mss_ok maxmss pre c post o :
  is_u16 maxmss → Forall is_byte c → (20 ≤ o)%nat → (o + 4 ≤ length c)%nat →
  ∃ c', lower_mss little maxmss (Z.of_nat (length pre)) (Z.of_nat (length pre) + Z.of_nat o) (mkbuf pre c post)
    = Ret (tt, mkbuf pre c' post) ∧ lowered maxmss [o] c c'.
Proof.
  intros Hm Hb H20 Ho.
  destruct (lookup_lt_is_Some_2 c (o + 2)) as [h Hh]; [lia|]. destruct (lookup_lt_is_Some_2 c (o + 3)) as [l Hl]; [lia|].
  destruct (lookup_lt_is_Some_2 c 16) as [k1 Hk1]; [lia|]. destruct (lookup_lt_is_Some_2 c 17) as [k2 Hk2]; [lia|].
  pose proof (proj1 (Forall_lookup _ _) Hb) as Hbyte.
  assert (is_byte h ∧ is_byte l ∧ is_byte k1 ∧ is_byte k2) as (Bh & Bl & B1 & B2) by (split_and!; eauto).
  assert (mss_of c o = 256 * h + l) as Hmss by (unfold mss_of; by rewrite !nth_lookup, Hh, Hl).
  assert (is_u16 (256 * h + l)) as Bm by (ints; lia).
  unfold lower_mss.
  replace (Z.of_nat (length pre) + Z.of_nat o + 2) with (Z.of_nat (length pre) + Z.of_nat (o + 2)) by lia.
  replace (Z.of_nat (length pre) + Z.of_nat o + 3) with (Z.of_nat (length pre) + Z.of_nat (o + 3)) by lia.
  erewrite bindM_Ret by (apply peek_mk; rewrite lookup_app_l by lia; exact Hh).
  erewrite bindM_Ret by (apply peek_mk; rewrite lookup_app_l by lia; exact Hl).
  rewrite Z.shiftl_mul_pow2, (Z.mul_comm h) by lia. change (2 ^ 8) with 256. rewrite u16_id by done.
  destruct (decide (256 * h + l > maxmss)) as [Hgt|Hle].
  2:{ exists c. split; [done|]. split; [done|]. split; [done|]. split; [|done].
      intros o' ->%list_elem_of_singleton. rewrite Hmss. lia. }
  assert (Z.land (Z.shiftr maxmss 8) 255 = maxmss / 256 ∧ Z.land maxmss 255 = maxmss mod 256) as [-> ->].
  { change 255 with (Z.ones 8). rewrite !Z.land_ones, Z.shiftr_div_pow2 by lia. change (2 ^ 8) with 256. split; [|done].
    apply Z.mod_small. ints. split; [apply Z.div_pos; lia|apply Z.div_lt_upper_bound; lia]. }
  set (m1 := maxmss / 256). set (m2 := maxmss mod 256).
  assert (is_byte m1 ∧ is_byte m2 ∧ maxmss = 256 * m1 + m2) as (Bm1 & Bm2 & Hmm).
  { subst m1 m2. ints. pose proof (Z.div_mod maxmss 256 ltac:(lia)). pose proof (Z.mod_pos_bound maxmss 256 ltac:(lia)). lia. }
  clearbody m1 m2. rewrite !u8_id by done. set (c1 := splice (o + 2) [m1; m2] c).
  assert (length c1 = length c) as Hl1 by (apply length_splice_in; cbn; lia).
  erewrite bindM_Ret by (apply poke_mk; [by apply Forall_singleton|cbn; lia]).
  erewrite bindM_Ret by (apply poke_mk; [by apply Forall_singleton|rewrite length_splice_in; cbn; lia]).
  replace (o + 3)%nat with (S (o + 2)) by lia. rewrite splice_snoc by lia. fold c1.
  assert (is_u16 (htons little (256 * h + l)) ∧ is_u16 (htons little maxmss)) as [Bo Bn].
  { rewrite !htons_ok by done. rewrite !(div_mod_pair h l), Hmm, (div_mod_pair m1 m2) by done. split; by apply host_u16. }
  erewrite bindM_lift by (apply int_ok; ints; lia).
  assert (c1 !! 16%nat = Some k1 ∧ c1 !! 17%nat = Some k2) as [Hc1 Hc2].
  { subst c1. rewrite !splice_lookup, !decide_False by (cbn; lia). done. }
  unfold tcp_check. change 16 with (Z.of_nat 16).
  erewrite bindM_Ret by (apply load16_mk; eassumption).
  destruct (ADJUST_ok (htons little (256 * h + l) - htons little maxmss) (host little [k1; k2]))
    as (r & Hr & Br & Hsum); [by apply host_u16|ints; lia|].
  erewrite bindM_lift by exact Hr.
  destruct (store16_mk pre c1 post 16 r Br) as (b1 & b2 & Hst & Bb1 & Bb2 & Hh12); [lia|].
  exists (splice 16 [b1; b2] c1). split; [exact Hst|].
  assert (length (splice 16 [b1; b2] c1) = length c) as Hl2 by (rewrite length_splice_in; cbn; lia).
  assert (∀ i, splice 16 [b1; b2] c1 !! i =
    if decide (i = 16)%nat then Some b1 else if decide (i = 17)%nat then Some b2
    else if decide (i = o + 2)%nat then Some m1 else if decide (i = o + 3)%nat then Some m2 else c !! i) as Hlk.
  { intros i. rewrite splice_lookup by (cbn; lia). subst c1. rewrite splice_lookup by (cbn; lia). cbn [length].
    repeat case_decide; try lia; try done.
    - by replace (i - 16)%nat with 0%nat by lia.
    - by replace (i - 16)%nat with 1%nat by lia.
    - by replace (i - (o + 2))%nat with 0%nat by lia.
    - by replace (i - (o + 2))%nat with 1%nat by lia. }
  split; [done|]. split; [|split; [|split]].
  - apply Forall_lookup. intros i x. rewrite Hlk. repeat case_decide; intros Hx; [injection Hx as <-; done..|]. by apply (Hbyte i).
  - intros o' ->%list_elem_of_singleton. rewrite Hmss. unfold mss_of. rewrite !nth_lookup, !Hlk.
    repeat case_decide; cbn; lia.
  - intros i H16 H17 Hi. destruct (Hi o) as [Hi2 Hi3]; [by apply list_elem_of_singleton|].
    rewrite Hlk. by repeat (rewrite decide_False by lia).
  - intros [Heven _]%Forall_cons. apply order_cancel.
    rewrite (osum_pair c1 16 b1 b2 k1 k2) by done. subst c1.
    rewrite (osum_pair c (o + 2) m1 m2 h l) by (done || (by replace (S (o + 2)) with (o + 3)%nat by lia) || (by rewrite Nat.even_add, Heven)).
    rewrite !htons_ok, (div_mod_pair h l), Hmm, (div_mod_pair m1 m2), <- Hh12, !host_pair in Hsum by done.
    set (S0 := osum c) in *.
    assert (order * (S0 + (256 * m1 + m2) - (256 * h + l) + (256 * b1 + b2) - (256 * k1 + k2)) =
      order * (256 * b1 + b2) + order * (S0 + (256 * m1 + m2) - (256 * h + l) - (256 * k1 + k2))) as -> by lia.
    rewrite Hsum. apply (same_sum_k _ _ 0). lia.
Qed.

(** ** The walk over the options *)

(** Where the MSS options are, in the memory [m], from [opt] on, [olen] bytes left. *)
Fixpoint mss_at (n : nat) (m : list Z) (olen opt : nat) : list nat :=
  match n with
  | O => []
  | S n =>
      if decide (olen = 0%nat) then [] else
      match m !! opt with
      | None => []
      | Some kind =>
          if decide (kind = 0) then []
          else if decide (kind = 1) then mss_at n m (olen - 1) (opt + 1)
          else
            match m !! (opt + 1)%nat with
            | None => []
            | Some optlen =>
                if decide (optlen ≤ 0 ∨ optlen > Z.of_nat olen) then []
                else (if decide (kind = 2 ∧ optlen = 4) then [opt] else []) ++
                     mss_at n m (olen - Z.to_nat optlen) (opt + Z.to_nat optlen)
            end
      end
  end.

Lemma mss_at_ext n : ∀ m m' olen opt,
  (∀ i, (opt ≤ i)%nat → m' !! i = m !! i) → mss_at n m' olen opt = mss_at n m olen opt.
Proof.
  induction n as [|n IH]; intros m m' olen opt H; [done|]. cbn [mss_at].
  destruct (decide (olen = 0%nat)); [done|]. rewrite (H opt) by lia. destruct (m !! opt) as [k|]; [|done].
  destruct (decide (k = 0)); [done|]. destruct (decide (k = 1)); [apply IH; intros; apply H; lia|].
  rewrite (H (opt + 1)%nat) by lia. destruct (m !! (opt + 1)%nat) as [ol|]; [|done].
  destruct (decide (ol ≤ 0 ∨ ol > Z.of_nat olen)); [done|]. f_equal. apply IH. intros; apply H; lia.
Qed.
Lemma mss_at_range n : ∀ m olen opt o, o ∈ mss_at n m olen opt → (opt ≤ o ∧ o + 4 ≤ opt + olen)%nat.
Proof.
  induction n as [|n IH]; intros m olen opt o Ho; cbn [mss_at] in Ho; [by apply elem_of_nil in Ho|].
  destruct (decide (olen = 0%nat)); [by apply elem_of_nil in Ho|].
  destruct (m !! opt) as [k|]; [|by apply elem_of_nil in Ho].
  destruct (decide (k = 0)); [by apply elem_of_nil in Ho|].
  destruct (decide (k = 1)); [apply IH in Ho; lia|].
  destruct (m !! (opt + 1)%nat) as [ol|]; [|by apply elem_of_nil in Ho].
  destruct (decide (ol ≤ 0 ∨ ol > Z.of_nat olen)); [by apply elem_of_nil in Ho|].
  apply elem_of_app in Ho as [Ho|Ho]; [|apply IH in Ho; lia].
  case_decide; [|by apply elem_of_nil in Ho]. apply list_elem_of_singleton in Ho as ->. lia.
Qed.

Lemma lowered_refl maxmss c : Forall is_byte c → lowered maxmss [] c c.
Proof.
  intros Hb. split; [done|]. split; [done|]. split; [|done]. intros o Ho. by apply elem_of_nil in Ho.
Qed.
(** One option, and then the others beyond it. *)
Lemma lowered_cons maxmss o os c c1 c2 :
  (20 ≤ o)%nat → (∀ o', o' ∈ os → (o + 4 ≤ o')%nat) →
  lowered maxmss [o] c c1 → lowered maxmss os c1 c2 → lowered maxmss (o :: os) c c2.
Proof.
  intros H20 Hos (L1 & B1 & M1 & K1 & S1) (L2 & B2 & M2 & K2 & S2).
  assert (∀ i, i ≠ 16%nat → i ≠ 17%nat → i ≠ (o + 2)%nat → i ≠ (o + 3)%nat → c1 !! i = c !! i) as K1'.
  { intros i H1 H2 H3 H4. apply K1; [done..|]. intros o' ->%list_elem_of_singleton. done. }
  split; [congruence|]. split; [done|]. split; [|split].
  - intros o' [->|Ho']%elem_of_cons.
    + rewrite <- (M1 o) by (by apply list_elem_of_singleton). unfold mss_of.
      rewrite !(nth_lookup_eq c2 c1); [done|..]; apply K2; try lia; intros o'' Ho'%Hos; lia.
    + rewrite (M2 o' Ho'). f_equal. unfold mss_of. pose proof (Hos o' Ho').
      rewrite !(nth_lookup_eq c1 c); [done|..]; apply K1'; lia.
  - intros i H1 H2 Hi. rewrite K2; [|done|done|].
    + apply K1'; [done|done|..]; apply (Hi o); by left.
    + intros o' Ho'. apply Hi. by right.
  - intros [He1 He2]%Forall_cons. rewrite S2 by done. apply S1. by apply Forall_singleton.
Qed.

Lemma option_body_at maxmss pre c post olen opt kind :
  (0 < olen)%nat → (c ++ post) !! opt = Some kind → kind ≠ 0 →
  option_body little maxmss (Z.of_nat (length pre)) (Z.of_nat olen, Z.of_nat (length pre) + Z.of_nat opt) (mkbuf pre c post) =
  (if decide (kind = 1) then Ret (inl (Z.of_nat (olen - 1), Z.of_nat (length pre) + Z.of_nat (opt + 1)), mkbuf pre c post)
   else (optlen ← peek (Z.of_nat (length pre) + Z.of_nat (opt + 1));
      if decide (optlen ≤ 0 ∨ optlen > Z.of_nat olen) then mret (inr tt)
      else
        (if decide (kind = OPENVPN_TCPOPT_MAXSEG ∧ optlen = OPENVPN_TCPOLEN_MAXSEG)
         then lower_mss little maxmss (Z.of_nat (length pre)) (Z.of_nat (length pre) + Z.of_nat opt) else mret tt);;
        mret (inl (Z.of_nat olen - optlen, Z.of_nat (length pre) + Z.of_nat opt + optlen))) (mkbuf pre c post)).
Proof.
  intros Hol Hk H0. unfold option_body. rewrite decide_True by lia.
  erewrite bindM_Ret by (by apply peek_mk). rewrite decide_False by done.
  change OPENVPN_TCPOPT_NOP with 1. destruct (decide (kind = 1)) as [H1|H1].
  - unfold mret, M_ret. do 4 f_equal; lia.
  - replace (Z.of_nat (length pre) + Z.of_nat opt + 1) with (Z.of_nat (length pre) + Z.of_nat (opt + 1)) by lia. done.
Qed.

Lemma options_ok maxmss n pre post : ∀ c olen opt,
  is_u16 maxmss → post ≠ [] → Forall is_byte (c ++ post) → (20 ≤ opt)%nat → (opt + olen ≤ length c)%nat → (olen < n)%nat →
  ∃ c', loopM n (option_body little maxmss (Z.of_nat (length pre))) (Z.of_nat olen, Z.of_nat (length pre) + Z.of_nat opt) (mkbuf pre c post)
    = Ret (tt, mkbuf pre c' post) ∧ lowered maxmss (mss_at n (c ++ post) olen opt) c c'.
Proof.
  induction n as [|n IH]; intros c olen opt Hm Hpost Hb H20 Hle Hn; [lia|]. pose proof Hb as [Hbc Hbp]%Forall_app.
  cbn [mss_at]. destruct (decide (olen = 0%nat)) as [->|Hol].
  { exists c. split; [|by apply lowered_refl]. erewrite loopM_inr; [done|]. done. }
  destruct (lookup_lt_is_Some_2 (c ++ post) opt) as [kind Hk]; [rewrite length_app; lia|]. rewrite Hk.
  destruct (decide (kind = 0)) as [->|H0].
  { exists c. split; [|by apply lowered_refl]. erewrite loopM_inr; [done|]. unfold option_body. rewrite decide_True by lia.
    erewrite bindM_Ret by (by apply peek_mk). done. }
  pose proof (option_body_at maxmss pre c post olen opt kind ltac:(lia) Hk H0) as Hbody.
  destruct (decide (kind = 1)) as [->|H1].
  { destruct (IH c (olen - 1)%nat (opt + 1)%nat) as (c' & Hl & Hlow); [done|done|done|lia|lia|lia|].
    exists c'. split; [|done]. by rewrite (loopM_inl _ _ _ _ _ _ Hbody). }
  destruct (lookup_lt_is_Some_2 (c ++ post) (opt + 1)) as [ol Hol1].
  { rewrite length_app. destruct post; [done|]. cbn. lia. }
  rewrite Hol1. erewrite bindM_Ret in Hbody by (by apply peek_mk).
  destruct (decide (ol ≤ 0 ∨ ol > Z.of_nat olen)) as [Hbad|Hgood].
  { exists c. split; [|by apply lowered_refl]. by rewrite (loopM_inr _ _ _ _ _ _ Hbody). }
  change OPENVPN_TCPOPT_MAXSEG with 2 in Hbody. change OPENVPN_TCPOLEN_MAXSEG with 4 in Hbody.
  assert (∃ c1, (if decide (kind = 2 ∧ ol = 4) then lower_mss little maxmss (Z.of_nat (length pre)) (Z.of_nat (length pre) + Z.of_nat opt)
      else mret tt) (mkbuf pre c post) = Ret (tt, mkbuf pre c1 post) ∧
    lowered maxmss (if decide (kind = 2 ∧ ol = 4) then [opt] else []) c c1 ∧
    (¬ (kind = 2 ∧ ol = 4) → c1 = c)) as (c1 & Hlm & Hlow1 & Hsame1).
  { destruct (decide (kind = 2 ∧ ol = 4)) as [[-> ->]|].
    - destruct (lower_mss_ok maxmss pre c post opt) as (c1 & H1' & H2'); [done|done|lia|lia|]. exists c1. tauto.
    - exists c. split; [done|]. split; [by apply lowered_refl|done]. }
  rewrite (bindM_Ret _ _ _ _ _ Hlm) in Hbody. unfold mret at 1, M_ret in Hbody.
  pose proof Hlow1 as (HL1 & HB1 & _ & HK1 & _).
  destruct (IH c1 (olen - Z.to_nat ol)%nat (opt + Z.to_nat ol)%nat) as (c' & Hl & Hlow); [done|done|by apply Forall_app|lia|lia|lia|].
  exists c'. split.
  - rewrite (loopM_inl _ _ _ _ _ _ Hbody). rewrite <- Hl. do 2 f_equal; [lia|]. lia.
  - assert (mss_at n (c1 ++ post) (olen - Z.to_nat ol) (opt + Z.to_nat ol) =
      mss_at n (c ++ post) (olen - Z.to_nat ol) (opt + Z.to_nat ol)) as Hsame.
    { apply mss_at_ext. intros i Hi. destruct (decide (i < length c)%nat).
      - rewrite !lookup_app_l by lia. apply HK1; [lia|lia|]. intros o Ho.
        destruct (decide (kind = 2 ∧ ol = 4)) as [[_ ->]|]; [|by apply elem_of_nil in Ho].
        apply list_elem_of_singleton in Ho as ->. lia.
      - rewrite !lookup_app_r, HL1 by lia. done. }
    rewrite Hsame in Hlow. destruct (decide (kind = 2 ∧ ol = 4)) as [[_ ->]|].
    + cbn [app]. apply (lowered_cons _ _ _ _ c1); [done| |done|done].
      intros o' Ho'%mss_at_range. lia.
    + cbn [app]. by rewrite <- (Hsame1 ltac:(done)) at 2.
Qed.

Lemma get_doff_le d : is_byte d → 0 ≤ OPENVPN_TCPH_GET_DOFF d ≤ 60.
Proof.
  intros Hd. pose proof (byte_all (λ d, (0 <=? OPENVPN_TCPH_GET_DOFF d) && (OPENVPN_TCPH_GET_DOFF d <=? 60)) eq_refl d Hd) as H.
  apply andb_true_iff in H. lia.
Qed.

(** The options of a segment: none when its header has no room for them. *)
Definition segment_mss (c post : list Z) : list nat :=
  let hlen := OPENVPN_TCPH_GET_DOFF (nth 12 c 0) in
  if decide (hlen ≤ 20 ∨ hlen > Z.of_nat (length c)) then []
  else mss_at (S (Z.to_nat (hlen - 20))) (c ++ post) (Z.to_nat (hlen - 20)) 20.

Lemma dowork_ok maxmss pre c post :
  is_u16 maxmss → post ≠ [] → Forall is_byte (c ++ post) → (20 ≤ length c)%nat →
  ∃ c', mss_fixup_dowork little maxmss (mkbuf pre c post) = Ret (tt, mkbuf pre c' post) ∧
    lowered maxmss (segment_mss c post) c c'.
Proof.
  intros Hm Hpost Hb Hc. pose proof Hb as [Hbc _]%Forall_app. unfold mss_fixup_dowork.
  rewrite buf_len_mk, ASSERT_ok by (unfold sizeof_tcphdr; lia). bret. cbv zeta.
  destruct (lookup_lt_is_Some_2 c 12) as [doff Hd]; [lia|].
  pose proof (peek_mk pre c post 12 doff ltac:(by rewrite lookup_app_l by lia)) as Hp.
  change (offset (mkbuf pre c post)) with (Z.of_nat (length pre)).
  change tcp_doff_res with (Z.of_nat 12). rewrite Hp. bret. rewrite buf_len_mk.
  unfold segment_mss. rewrite nth_lookup, Hd. cbn [default from_option id]. unfold sizeof_tcphdr.
  destruct (decide (OPENVPN_TCPH_GET_DOFF doff ≤ 20 ∨ OPENVPN_TCPH_GET_DOFF doff > Z.of_nat (length c))) as [Hbad|Hok].
  { exists c. split; [done|]. by apply lowered_refl. }
  destruct (options_ok maxmss (S (Z.to_nat (OPENVPN_TCPH_GET_DOFF doff - 20))) pre post c
    (Z.to_nat (OPENVPN_TCPH_GET_DOFF doff - 20)) 20) as (c' & Hl & Hlow); [done|done|done|lia|lia|lia|].
  exists c'. split; [|done]. rewrite <- Hl. rewrite Z2Nat.id by lia. done.
Qed.

(** ** Whole packets *)

Lemma on_copy_segment {A} (m : M buffer A) n pre c post x y t' :
  (n ≤ length c)%nat → length t' = length (drop n c) →
  m (mkbuf (pre ++ take n c) (drop n c) post) = Ret (x, mkbuf (pre ++ take n c) t' post) →
  on_copy (ok ← buf_advance (Z.of_nat n); if ok : bool then m else mret y) (mkbuf pre c post) =
  Ret (x, mkbuf pre (take n c ++ t') post).
Proof.
  intros Hn Ht Hm. unfold on_copy. rewrite bindM_run. unfold buf_advance.
  rewrite decide_False by (rewrite valid_mk; cbn [mkbuf len]; intros [?|[?|?]]; done || lia). bret.
  cbn [mkbuf capacity offset len data].
  assert (Buf (Z.of_nat (length pre + length c + length post)) (Z.of_nat (length pre) + Z.of_nat n) (Z.of_nat (length c) - Z.of_nat n)
    (Some (pre ++ c ++ post)) = mkbuf (pre ++ take n c) (drop n c) post) as ->.
  { unfold mkbuf. rewrite !length_app, length_take, length_drop. f_equal; [lia|lia|lia|].
    f_equal. rewrite <- app_assoc. f_equal. by rewrite app_assoc, take_drop. }
  rewrite Hm. bret. f_equal. f_equal. unfold mkbuf. cbn [data]. rewrite !length_app, length_take, Ht, length_drop.
  f_equal; [lia|lia|]. f_equal. by rewrite <- !app_assoc.
Qed.

(** A TCP segment that opens a connection, whole in an IPv4 packet. *)
Definition syn4 (c : list Z) : Prop :=
  let hlen := OPENVPN_IPH_GET_LEN (nth 0 c 0) in
  (20 ≤ length c)%nat ∧ nth 9 c 0 = 6 ∧ 256 * nth 2 c 0 + nth 3 c 0 = Z.of_nat (length c) ∧
  Z.land (256 * nth 6 c 0 + nth 7 c 0) 8191 = 0 ∧ hlen + 20 ≤ Z.of_nat (length c) ∧
  Z.land (nth (Z.to_nat hlen + 13) c 0) 2 ≠ 0.
(** The same in an IPv6 packet without extension headers. *)
Definition syn6 (c : list Z) : Prop :=
  (40 ≤ length c)%nat ∧ 256 * nth 4 c 0 + nth 5 c 0 + 40 = Z.of_nat (length c) ∧ nth 6 c 0 = 6 ∧
  Z.land (nth 53 c 0) 2 ≠ 0.

Lemma ntohs_host b1 b2 : is_byte b1 → is_byte b2 → ntohs little (host little [b1; b2]) = 256 * b1 + b2.
Proof.
  intros H1 H2. unfold ntohs. destruct (host16_bytes_ok (host little [b1; b2]) (host_u16 _ _ H1 H2)) as (x1 & x2 & -> & X1 & X2 & E).
  unfold host, from_be in *. ints. destruct little; cbn in *; lia.
Qed.
Lemma get_hlen v : is_byte v → 0 ≤ OPENVPN_IPH_GET_LEN v ≤ 60.
Proof.
  intros Hd. pose proof (byte_all (λ d, (0 <=? OPENVPN_IPH_GET_LEN d) && (OPENVPN_IPH_GET_LEN d <=? 60)) eq_refl v Hd) as H.
  apply andb_true_iff in H. lia.
Qed.

Lemma nth_byte c i : Forall is_byte c → (i < length c)%nat → c !! i = Some (nth i c 0) ∧ is_byte (nth i c 0).
Proof.
  intros Hb Hi. destruct (lookup_lt_is_Some_2 c i Hi) as [x Hx]. rewrite nth_lookup, Hx. split; [done|].
  by apply (proj1 (Forall_lookup _ _) Hb i).
Qed.
Lemma peek_field pre c post i :
  Forall is_byte c → (i < length c)%nat →
  peek (Z.of_nat (length pre) + Z.of_nat i) (mkbuf pre c post) = Ret (nth i c 0, mkbuf pre c post).
Proof. intros Hb Hi. apply peek_mk. rewrite lookup_app_l by done. by apply nth_byte. Qed.
Lemma load16_field pre c post i :
  Forall is_byte c → (S i < length c)%nat →
  load16 little (Z.of_nat (length pre) + Z.of_nat i) (mkbuf pre c post) =
  Ret (host little [nth i c 0; nth (S i) c 0], mkbuf pre c post).
Proof. intros Hb Hi. apply load16_mk; apply nth_byte; done || lia. Qed.

(** The flags are looked at, and the segment is worked on. *)
Lemma syn_ok maxmss pre t post :
  is_u16 maxmss → post ≠ [] → Forall is_byte (t ++ post) → (20 ≤ length t)%nat →
  ∃ t', (nb ← get; flags ← peek (offset nb + tcp_flags);
      if decide (Z.land flags OPENVPN_TCPH_SYN_MASK ≠ 0) then mss_fixup_dowork little maxmss else mret tt) (mkbuf pre t post)
    = Ret (tt, mkbuf pre t' post) ∧ length t' = length t ∧
    if decide (Z.land (nth 13 t 0) 2 ≠ 0) then lowered maxmss (segment_mss t post) t t' else t' = t.
Proof.
  intros Hm Hpost Hb Ht. pose proof Hb as [Hbt _]%Forall_app.
  rewrite bindM_run. unfold get. bret. change (offset (mkbuf pre t post)) with (Z.of_nat (length pre)).
  change tcp_flags with (Z.of_nat 13). erewrite bindM_Ret by (apply peek_field; done || lia).
  change OPENVPN_TCPH_SYN_MASK with 2. destruct (decide (Z.land (nth 13 t 0) 2 ≠ 0)).
  - destruct (dowork_ok maxmss pre t post) as (t' & -> & Hlow); [done..|]. exists t'. split; [done|]. split; [apply Hlow|done].
  - by exists t.
Qed.

Lemma ipv4_ok maxmss pre c post :
  post ≠ [] → Forall is_byte (c ++ post) →
  let hlen := Z.to_nat (OPENVPN_IPH_GET_LEN (nth 0 c 0)) in
  ∃ c', mss_fixup_ipv4 little maxmss (mkbuf pre c post) = Ret (tt, mkbuf pre c' post) ∧
    (¬ syn4 c → c' = c) ∧
    (syn4 c → take hlen c' = take hlen c ∧
       lowered (u16 maxmss) (segment_mss (drop hlen c) post) (drop hlen c) (drop hlen c')).
Proof.
  intros Hpost Hb. cbv zeta. pose proof Hb as [Hbc Hbp]%Forall_app. unfold mss_fixup_ipv4. rewrite buf_len_mk.
  change sizeof_iphdr with 20. destruct (decide (Z.of_nat (length c) < 20)) as [Hs|Hs].
  { exists c. split; [done|]. split; [done|]. unfold syn4. intros (H & _). lia. }
  change (offset (mkbuf pre c post)) with (Z.of_nat (length pre)).
  change ip_version_len with (Z.of_nat 0). change ip_protocol with (Z.of_nat 9).
  change ip_tot_len with (Z.of_nat 2). change ip_frag_off with (Z.of_nat 6).
  rewrite (peek_field pre c post 0) by (done || lia). bret. rewrite (peek_field pre c post 9) by (done || lia). bret.
  rewrite (load16_field pre c post 2) by (done || lia). bret. rewrite (load16_field pre c post 6) by (done || lia). bret.
  rewrite buf_len_mk. destruct (nth_byte c 0 Hbc ltac:(lia)) as [_ B0]. pose proof (get_hlen _ B0) as Hh.
  rewrite !ntohs_host by (apply nth_byte; done || lia).
  set (hlen := OPENVPN_IPH_GET_LEN (nth 0 c 0)) in *.
  change OPENVPN_IPPROTO_TCP with 6. change OPENVPN_IP_OFFMASK with 8191. change sizeof_tcphdr with 20.
  match goal with |- context [decide ?P] => destruct (decide P) as [(H1 & H2 & H3 & H4 & H5)|Hno] end.
  2:{ exists c. split; [done|]. split; [done|]. unfold syn4. fold hlen. intros (H1 & H2 & H3 & H4 & H5 & H6).
      exfalso. apply Hno. split_and!; done || lia. }
  assert (length (drop (Z.to_nat hlen) c) = (length c - Z.to_nat hlen)%nat) as Hld by (by rewrite length_drop).
  destruct (syn_ok (u16 maxmss) (pre ++ take (Z.to_nat hlen) c) (drop (Z.to_nat hlen) c) post) as (t' & Hrun & Hlt & Ht').
  { apply (wrap_range 16). lia. } { done. } { apply Forall_app. split; [by apply Forall_drop|done]. } { lia. }
  replace (buf_advance hlen) with (buf_advance (Z.of_nat (Z.to_nat hlen))) by (by rewrite Z2Nat.id by lia).
  rewrite (on_copy_segment _ (Z.to_nat hlen) pre c post tt tt t' ltac:(lia) Hlt Hrun).
  assert (take (Z.to_nat hlen) (take (Z.to_nat hlen) c ++ t') = take (Z.to_nat hlen) c ∧
    drop (Z.to_nat hlen) (take (Z.to_nat hlen) c ++ t') = t') as [Htake Hdrop].
  { rewrite take_app_length', drop_app_length' by (rewrite length_take; lia). done. }
  exists (take (Z.to_nat hlen) c ++ t'). split; [done|].
  rewrite Htake, Hdrop. rewrite nth_lookup, lookup_drop, <- nth_lookup in Ht'. split.
  - intros Hn. case_decide as Hf; [|by rewrite Ht', take_drop]. exfalso. apply Hn. unfold syn4. fold hlen. split_and!; done || lia.
  - intros (_ & _ & _ & _ & _ & H6). fold hlen in H6. rewrite decide_True in Ht' by done. done.
Qed.
End host.
