(* ===== verification/OvpnNatProofs.v ===== *)
(** * OpenVPN: address translation of clients, proved

    The packet is its first twelve bytes, the two addresses and the rest; [nat_addr]
    says what the rules make of one address, and the accumulated difference is that of
    the one's complement sums. *)
From S2P Require Import Prelude OvpnBuffer OvpnProto OvpnProtoProofs.
#[local] Open Scope bool_scope.
#[local] Open Scope Z_scope.

(** ** What the rules do to an address *)

(** The rule is for the destination. *)
Definition for_dest (direction : Z) (e : client_nat_entry) : bool := bool_decide (Z.lxor (cn_type e) direction ≠ 0).
Definition rule_from (direction : Z) (e : client_nat_entry) : Z :=
  if decide (direction ≠ 0) then foreign_network e else network e.
Definition rule_to (direction : Z) (e : client_nat_entry) : Z :=
  if decide (direction ≠ 0) then network e else foreign_network e.
Definition rule_applies (direction : Z) (dest : bool) (a : Z) (e : client_nat_entry) : bool :=
  bool_decide (for_dest direction e = dest) && bool_decide (Z.land a (netmask e) = rule_from direction e).
Definition translate (direction : Z) (e : client_nat_entry) (a : Z) : Z :=
  Z.lor (Z.land a (u32 (Z.lnot (netmask e)))) (rule_to direction e).

(** The first rule that applies. *)
Fixpoint nat_addr (direction : Z) (dest : bool) (l : list client_nat_entry) (a : Z) : Z :=
  match l with
  | [] => a
  | e :: l => if rule_applies direction dest a e then translate direction e a else nat_addr direction dest l a
  end.

Definition rule_ok (e : client_nat_entry) : Prop :=
  is_u32 (network e) ∧ is_u32 (netmask e) ∧ is_u32 (foreign_network e).

Lemma u32_land a b : is_u32 a → is_u32 (Z.land a b).
Proof.
  unfold is_u32. intros Ha. assert (Z.land a b = Z.land (Z.land a b) (Z.ones 32)) as ->.
  { rewrite <- Z.land_assoc, (Z.land_comm b), Z.land_assoc. f_equal. rewrite Z.land_ones by lia.
    rewrite Z.mod_small; lia. }
  rewrite Z.land_ones by lia. change 4294967296 with (2 ^ 32). apply Z.mod_pos_bound. lia.
Qed.
Lemma u32_lor a b : is_u32 a → is_u32 b → is_u32 (Z.lor a b).
Proof.
  unfold is_u32. intros Ha Hb. assert (Z.lor a b = Z.land (Z.lor a b) (Z.ones 32)) as ->.
  { rewrite Z.land_lor_distr_l, !Z.land_ones by lia. rewrite !Z.mod_small; lia. }
  rewrite Z.land_ones by lia. change 4294967296 with (2 ^ 32). apply Z.mod_pos_bound. lia.
Qed.
Lemma translate_u32 direction e a : rule_ok e → is_u32 a → is_u32 (translate direction e a).
Proof.
  intros (H1 & _ & H3) Ha. unfold translate, rule_to. apply u32_lor; [by apply u32_land|]. by case_decide.
Qed.

Section host.
Context (little : bool).

(** ** Words of 32 bits *)

Lemma host32_bytes_ok v :
  is_u32 v → ∃ a b c d, host32_bytes little v = [a; b; c; d] ∧ Forall is_byte [a; b; c; d] ∧ host little [a; b; c; d] = v.
Proof.
  intros Hv. unfold host32_bytes, be32, host, from_be.
  pose proof (from_be_be32 v) as Hd. rewrite wrap_small in Hd by done. unfold from_be, be32 in Hd. cbn in Hd.
  destruct little; cbn; eexists _, _, _, _; (split; [done|]); (split; [|done]);
    repeat (apply Forall_cons; split; [apply u8_range|]); done.
Qed.

Lemma load32_mk pre c1 v c2 post :
  is_u32 v →
  load32 little (Z.of_nat (length pre) + Z.of_nat (length c1)) (mkbuf pre (c1 ++ host32_bytes little v ++ c2) post) =
  Ret (v, mkbuf pre (c1 ++ host32_bytes little v ++ c2) post).
Proof.
  intros Hv. destruct (host32_bytes_ok v Hv) as (a & b & c & d & E & _ & Hh). unfold load32.
  pose proof (peek_n_at pre (c1 ++ host32_bytes little v ++ c2) post (length c1) 4) as Hp. rewrite bindM_run.
  change (Z.of_nat 4) with 4 in Hp. rewrite Hp by (rewrite E, !length_app; cbn; lia). bret. unfold mret, M_ret.
  assert (slice (length c1) 4 (c1 ++ host32_bytes little v ++ c2) = [a; b; c; d]) as ->; [|by rewrite Hh].
  unfold slice. by rewrite drop_app_length, E.
Qed.
Lemma store32_mk pre c1 v v' c2 post :
  is_u32 v → is_u32 v' →
  store32 little (Z.of_nat (length pre) + Z.of_nat (length c1)) v' (mkbuf pre (c1 ++ host32_bytes little v ++ c2) post) =
  Ret (tt, mkbuf pre (c1 ++ host32_bytes little v' ++ c2) post).
Proof.
  intros Hv Hv'. destruct (host32_bytes_ok v Hv) as (a & b & c & d & E & _).
  destruct (host32_bytes_ok v' Hv') as (a' & b' & c' & d' & E' & Hb & _). unfold store32.
  rewrite poke_mk; [|by rewrite E'|rewrite E, E', !length_app; cbn; lia].
  do 3 f_equal. unfold splice. rewrite take_app_length, E, E'. f_equal. f_equal.
  rewrite drop_app_add. done.
Qed.

(** The difference of two addresses is that of their sums. *)
Lemma sum32 v :
  is_u32 v → same_sum (Z.land v 65535 + Z.shiftr v 16) (order little * osum (host32_bytes little v)) ∧
  0 ≤ Z.land v 65535 < 65536 ∧ 0 ≤ Z.shiftr v 16 < 65536.
Proof.
  intros Hv. destruct (host32_bytes_ok v Hv) as (a & b & c & d & E & Hb & Hh). rewrite E.
  change 65535 with (Z.ones 16). rewrite !Z.land_ones, Z.shiftr_div_pow2 by lia. change (2 ^ 16) with 65536.
  unfold is_u32 in Hv.
  pose proof (Z.mod_pos_bound v 65536 ltac:(lia)).
  assert (0 ≤ v / 65536 < 65536) as Hq by (split; [apply Z.div_pos; lia|apply Z.div_lt_upper_bound; lia]).
  split; [|done]. apply Forall_cons in Hb as [Ha Hb]. apply Forall_cons in Hb as [Hb' Hb]. apply Forall_cons in Hb as [Hc Hb].
  apply Forall_cons in Hb as [Hd _]. ints. unfold host, from_be in Hh. unfold order, osum. destruct little; cbn in *.
  - assert (v / 65536 = 256 * d + c) as -> by (symmetry; apply (Z.div_unique _ _ _ (256 * b + a)); lia).
    assert (v mod 65536 = 256 * b + a) as -> by (symmetry; apply (Z.mod_unique _ _ (256 * d + c)); lia).
    apply (same_sum_k _ _ (- (a + c))). lia.
  - assert (v / 65536 = 256 * a + b) as -> by (symmetry; apply (Z.div_unique _ _ _ (256 * c + d)); lia).
    assert (v mod 65536 = 256 * c + d) as -> by (symmetry; apply (Z.mod_unique _ _ (256 * a + b)); lia).
    apply (same_sum_k _ _ 0). lia.
Qed.

Lemma accumulate_ok acc v v' :
  is_u32 v → is_u32 v' → - 1000000 ≤ acc ≤ 1000000 →
  let acc' := SUB_CHECKSUM_32 (ADD_CHECKSUM_32 acc v) v' in
  - 131070 ≤ acc' - acc ≤ 131070 ∧
  same_sum acc' (acc + order little * (osum (host32_bytes little v) - osum (host32_bytes little v'))).
Proof.
  intros Hv Hv' Ha. cbv zeta. destruct (sum32 v Hv) as (H1 & H2 & H3). destruct (sum32 v' Hv') as (H4 & H5 & H6).
  unfold SUB_CHECKSUM_32, ADD_CHECKSUM_32.
  rewrite (s32_id (acc + _)) by (ints; lia). rewrite (s32_id (acc + _ + _)) by (ints; lia).
  rewrite (s32_id (acc + _ + _ - _)) by (ints; lia). rewrite s32_id by (ints; lia). split; [lia|].
  rewrite Z.mul_sub_distr_l, <- H1, <- H4. apply (same_sum_k _ _ 0). lia.
Qed.

(** ** The rules on a packet *)

Definition packet (hd : list Z) (s d : Z) (seg : list Z) : list Z :=
  hd ++ host32_bytes little s ++ host32_bytes little d ++ seg.
(** What has been changed: the source, the destination. *)
Definition log (bs bd : bool) : Z := (if bs then 1 else 0) + (if bd then 2 else 0).
Definition addr_sum (s d : Z) : Z := osum (host32_bytes little s) + osum (host32_bytes little d).
(** The accumulator, between the packet as it came and as it is. *)
Definition acc_ok (bs bd : bool) (acc s0 d0 s d : Z) : Prop :=
  - (131070 * ((if bs then 1 else 0) + (if bd then 1 else 0))) ≤ acc ≤ 131070 * ((if bs then 1 else 0) + (if bd then 1 else 0)) ∧
  same_sum acc (order little * (addr_sum s0 d0 - addr_sum s d)).

Lemma acc_ok_step_src bd acc s0 d0 s d s' :
  is_u32 s → is_u32 s' → acc_ok false bd acc s0 d0 s d →
  acc_ok true bd (SUB_CHECKSUM_32 (ADD_CHECKSUM_32 acc s) s') s0 d0 s' d.
Proof.
  intros Hs Hs' [Hb Ha]. assert (- 1000000 ≤ acc ≤ 1000000) as Hr by (destruct bd; lia).
  destruct (accumulate_ok acc s s' Hs Hs' Hr) as [H1 H2]. split; [destruct bd; lia|].
  rewrite H2, Ha. unfold addr_sum. apply (same_sum_k _ _ 0). lia.
Qed.
Lemma acc_ok_step_dst bs acc s0 d0 s d d' :
  is_u32 d → is_u32 d' → acc_ok bs false acc s0 d0 s d →
  acc_ok bs true (SUB_CHECKSUM_32 (ADD_CHECKSUM_32 acc d) d') s0 d0 s d'.
Proof.
  intros Hs Hs' [Hb Ha]. assert (- 1000000 ≤ acc ≤ 1000000) as Hr by (destruct bs; lia).
  destruct (accumulate_ok acc d d' Hs Hs' Hr) as [H1 H2]. split; [destruct bs; lia|].
  rewrite H2, Ha. unfold addr_sum. apply (same_sum_k _ _ 0). lia.
Qed.

Definition step_src (direction : Z) (e : client_nat_entry) (b : bool) (s : Z) : bool * Z :=
  if negb b && rule_applies direction false s e then (true, translate direction e s) else (b, s).
Definition step_dst (direction : Z) (e : client_nat_entry) (b : bool) (d : Z) : bool * Z :=
  if negb b && rule_applies direction true d e then (true, translate direction e d) else (b, d).

Lemma nat_body_ok pre hd seg post direction e bs bd acc s0 d0 s d :
  length hd = 12%nat → is_u32 s → is_u32 d → rule_ok e → acc_ok bs bd acc s0 d0 s d →
  let '(bs', s') := step_src direction e bs s in
  let '(bd', d') := step_dst direction e bd d in
  ∃ acc', nat_body little (Z.of_nat (length pre)) direction e (NS acc (log bs bd)) (mkbuf pre (packet hd s d seg) post) =
    Ret (NS acc' (log bs' bd'), mkbuf pre (packet hd s' d' seg) post) ∧
    is_u32 s' ∧ is_u32 d' ∧ acc_ok bs' bd' acc' s0 d0 s' d'.
Proof.
  intros Hhd Hs Hd He Hacc. unfold step_src, step_dst, rule_applies, for_dest, nat_body.
  change (if decide (direction ≠ 0) then (foreign_network e, network e) else (network e, foreign_network e))
    with (if decide (direction ≠ 0) then (foreign_network e, network e) else (network e, foreign_network e)).
  assert ((if decide (direction ≠ 0) then (foreign_network e, network e) else (network e, foreign_network e)) =
    (rule_from direction e, rule_to direction e)) as -> by (unfold rule_from, rule_to; by case_decide).
  destruct (decide (Z.lxor (cn_type e) direction ≠ 0)) as [Hx|Hx].
  - rewrite !(bool_decide_eq_true_2 (Z.lxor (cn_type e) direction ≠ 0)) by done.
    change (bool_decide (true = false)) with false. change (bool_decide (true = true)) with true.
    cbn [andb]. rewrite andb_false_r.
    pose proof (load32_mk pre (hd ++ host32_bytes little s) d seg post Hd) as Hload.
    rewrite <- app_assoc in Hload. fold (packet hd s d seg) in Hload.
    destruct (host32_bytes_ok s Hs) as (x1 & x2 & x3 & x4 & Es & _ & _).
    assert (Z.of_nat (length (hd ++ host32_bytes little s)) = ip_daddr) as Hlen by (rewrite Es, length_app, Hhd; done).
    rewrite Hlen in Hload. rewrite (bindM_Ret _ _ _ _ _ Hload). cbn [alog accumulate].
    assert (Z.land 2 (log bs bd) = 0 ↔ bd = false) as Hlog by (destruct bs, bd; vm_compute; intuition congruence).
    destruct (bool_decide_reflect (Z.land d (netmask e) = rule_from direction e)) as [Hm|Hm].
    + destruct bd; cbn [negb andb].
      * rewrite decide_False by (intros [_ H]; by apply Hlog in H). eexists. split; [done|]. done.
      * rewrite decide_True by (split; [done|by apply Hlog]).
        pose proof (store32_mk pre (hd ++ host32_bytes little s) d (translate direction e d) seg post Hd (translate_u32 _ _ _ He Hd)) as Hst.
        rewrite <- !app_assoc in Hst. fold (packet hd s d seg) (packet hd s (translate direction e d) seg) in Hst.
        rewrite Hlen in Hst. unfold translate in Hst at 1. cbv zeta. rewrite (bindM_Ret _ _ _ _ _ Hst).
        eexists. split; [unfold mret, M_ret; do 3 f_equal; by destruct bs|].
        split; [done|]. split; [by apply translate_u32|]. apply acc_ok_step_dst; [done|by apply translate_u32|done].
    + rewrite andb_false_r, decide_False by tauto. eexists. split; [done|]. done.
  - rewrite !(bool_decide_eq_false_2 (Z.lxor (cn_type e) direction ≠ 0)) by done.
    change (bool_decide (false = false)) with true. change (bool_decide (false = true)) with false.
    cbn [andb]. rewrite andb_false_r.
    pose proof (load32_mk pre hd s (host32_bytes little d ++ seg) post Hs) as Hload. fold (packet hd s d seg) in Hload.
    assert (Z.of_nat (length hd) = ip_saddr) as Hlen by (rewrite Hhd; done).
    rewrite Hlen in Hload. rewrite (bindM_Ret _ _ _ _ _ Hload). cbn [alog accumulate].
    assert (Z.land 1 (log bs bd) = 0 ↔ bs = false) as Hlog by (destruct bs, bd; vm_compute; intuition congruence).
    destruct (bool_decide_reflect (Z.land s (netmask e) = rule_from direction e)) as [Hm|Hm].
    + destruct bs; cbn [negb andb].
      * rewrite decide_False by (intros [_ H]; by apply Hlog in H). eexists. split; [done|]. done.
      * rewrite decide_True by (split; [done|by apply Hlog]).
        pose proof (store32_mk pre hd s (translate direction e s) (host32_bytes little d ++ seg) post Hs (translate_u32 _ _ _ He Hs)) as Hst.
        fold (packet hd s d seg) (packet hd (translate direction e s) d seg) in Hst.
        rewrite Hlen in Hst. unfold translate in Hst at 1. cbv zeta. rewrite (bindM_Ret _ _ _ _ _ Hst).
        eexists. split; [unfold mret, M_ret; do 3 f_equal; by destruct bd|].
        split; [by apply translate_u32|]. split; [done|]. apply acc_ok_step_src; [done|by apply translate_u32|done].
    + rewrite andb_false_r, decide_False by tauto. eexists. split; [done|]. done.
Qed.

(** The rules in turn on one address. *)
Fixpoint addr_run (direction : Z) (dest : bool) (l : list client_nat_entry) (b : bool) (a : Z) : bool * Z :=
  match l with
  | [] => (b, a)
  | e :: l =>
      if negb b && rule_applies direction dest a e then addr_run direction dest l true (translate direction e a)
      else addr_run direction dest l b a
  end.
Lemma addr_run_done direction dest l a : addr_run direction dest l true a = (true, a).
Proof. induction l; cbn; auto. Qed.
Lemma addr_run_ok direction dest l a :
  addr_run direction dest l false a = (existsb (rule_applies direction dest a) l, nat_addr direction dest l a).
Proof.
  induction l as [|e l IH]; [done|]. cbn [addr_run nat_addr existsb negb andb].
  destruct (rule_applies direction dest a e); cbn [orb]; [apply addr_run_done|done].
Qed.

Lemma nat_loop_ok pre hd seg post direction l : ∀ bs bd acc s0 d0 s d,
  length hd = 12%nat → is_u32 s → is_u32 d → Forall rule_ok l → acc_ok bs bd acc s0 d0 s d →
  let '(bs', s') := addr_run direction false l bs s in
  let '(bd', d') := addr_run direction true l bd d in
  ∃ acc', nat_loop little (Z.of_nat (length pre)) direction l (NS acc (log bs bd)) (mkbuf pre (packet hd s d seg) post) =
    Ret (NS acc' (log bs' bd'), mkbuf pre (packet hd s' d' seg) post) ∧
    is_u32 s' ∧ is_u32 d' ∧ acc_ok bs' bd' acc' s0 d0 s' d'.
Proof.
  induction l as [|e l IH]; intros bs bd acc s0 d0 s d Hhd Hs Hd Hl Ha; cbn [addr_run nat_loop].
  { exists acc. done. }
  apply Forall_cons in Hl as [He Hl].
  pose proof (nat_body_ok pre hd seg post direction e bs bd acc s0 d0 s d Hhd Hs Hd He Ha) as Hb.
  unfold step_src, step_dst in Hb.
  destruct (negb bs && rule_applies direction false s e), (negb bd && rule_applies direction true d e);
    destruct Hb as (acc1 & Hb & Hs1 & Hd1 & Ha1); rewrite (bindM_Ret _ _ _ _ _ Hb); by apply IH.
Qed.

(** ** The checks *)

Lemma osum_app_even l1 l2 : Nat.even (length l1) = true → osum (l1 ++ l2) = osum l1 + osum l2.
Proof.
  unfold osum. assert (∀ b, osum_from b (l1 ++ l2) = osum_from b l1 + osum_from (xorb b (Nat.odd (length l1))) l2) as H.
  { induction l1 as [|x l1 IH]; intros b; cbn [app osum_from length].
    - cbn. by rewrite xorb_false_r.
    - rewrite IH, Nat.odd_succ, <- Nat.negb_odd. destruct b, (Nat.odd (length l1)); cbn; lia. }
  intros He. rewrite H, <- Nat.negb_even, He. done.
Qed.

(** [c'] is [c] but for the check at [k], which takes the difference in. *)
Definition rechecked (acc : Z) (k : nat) (c c' : list Z) : Prop :=
  length c' = length c ∧ Forall is_byte c' ∧ (∀ i, i ≠ k → i ≠ S k → c' !! i = c !! i) ∧
  same_sum (order little * osum c') (order little * osum c + acc).

Lemma adjust_at_ok pre c1 c c2 post k acc :
  Forall is_byte c → (S k < length c)%nat → Nat.even k = true → - 1000000 ≤ acc ≤ 1000000 →
  ∃ c', adjust_at little (Z.of_nat (length pre) + Z.of_nat (length c1 + k)) acc (mkbuf pre (c1 ++ c ++ c2) post) =
    Ret (tt, mkbuf pre (c1 ++ c' ++ c2) post) ∧ rechecked acc k c c'.
Proof.
  intros Hb Hk He Ha. destruct (nth_byte c k Hb ltac:(lia)) as [H1 B1]. destruct (nth_byte c (S k) Hb ltac:(lia)) as [H2 B2].
  set (y1 := nth k c 0) in *. set (y2 := nth (S k) c 0) in *.
  assert (∀ i x, c !! i = Some x → (c1 ++ c ++ c2) !! (length c1 + i)%nat = Some x) as Hin.
  { intros i x Hx. rewrite lookup_app_r by lia. replace (length c1 + i - length c1)%nat with i by lia. by apply lookup_app_l_Some. }
  unfold adjust_at. erewrite bindM_Ret.
  2:{ apply (load16_mk little pre _ post (length c1 + k) y1 y2); [by apply Hin|].
      replace (S (length c1 + k)) with (length c1 + S k)%nat by lia. by apply Hin. }
  destruct (ADJUST_ok acc (host little [y1; y2])) as (r & Hr & Br & Hsum); [by apply host_u16|lia|].
  erewrite bindM_lift by exact Hr.
  destruct (store16_mk little pre (c1 ++ c ++ c2) post (length c1 + k) r Br) as (b1 & b2 & -> & Bb1 & Bb2 & Hh).
  { rewrite !length_app. lia. }
  exists (splice k [b1; b2] c). split.
  { do 3 f_equal. unfold splice. rewrite take_app_add, <- !app_assoc. f_equal.
    rewrite take_app_le by lia. f_equal. f_equal. cbn [length]. rewrite <- Nat.add_assoc, drop_app_add, drop_app_le by lia. done. }
  split; [apply length_splice_in; cbn; lia|]. split; [|split].
  - unfold splice. apply Forall_app. split; [by apply Forall_take|]. apply Forall_app. split; [by apply byte2|by apply Forall_drop].
  - intros i Hi1 Hi2. rewrite splice_lookup by (cbn; lia). cbn [length]. by rewrite decide_False by lia.
  - rewrite (osum_pair c k b1 b2 y1 y2) by done. rewrite !Z.mul_sub_distr_l, Z.mul_add_distr_l.
    rewrite <- (host_pair little b1 b2), <- (host_pair little y1 y2), Hh, Hsum. apply (same_sum_k _ _ 0). lia.
Qed.

(** Where the check of the segment is. *)
Definition check_offset (hd seg : list Z) : option nat :=
  if decide (nth 9 hd 0 = 6) then if decide (20 ≤ length seg)%nat then Some 16%nat else None
  else if decide (nth 9 hd 0 = 17) then if decide (8 ≤ length seg)%nat then Some 6%nat else None
  else None.

Lemma length_ip_packet hd s d seg : is_u32 s → is_u32 d → length (packet hd s d seg) = (length hd + 8 + length seg)%nat.
Proof.
  intros Hs Hd. unfold packet. destruct (host32_bytes_ok s Hs) as (? & ? & ? & ? & -> & _).
  destruct (host32_bytes_ok d Hd) as (? & ? & ? & ? & -> & _). rewrite !length_app. cbn. lia.
Qed.

Lemma rechecked_sum acc k c c' s0 d0 s d :
  rechecked acc k c c' → same_sum acc (order little * (addr_sum s0 d0 - addr_sum s d)) →
  same_sum (osum c' + addr_sum s d) (osum c + addr_sum s0 d0).
Proof.
  intros (_ & _ & _ & Hc) Ha. apply (order_cancel little). rewrite !Z.mul_add_distr_l, Hc, Ha.
  apply (same_sum_k _ _ 0). lia.
Qed.

Lemma transform_ok pre hd s d seg post direction l :
  length hd = 12%nat → Forall is_byte hd → Forall is_byte seg → is_u32 s → is_u32 d → Forall rule_ok l →
  let s' := nat_addr direction false l s in
  let d' := nat_addr direction true l d in
  ∃ hd' seg', client_nat_transform little l direction (mkbuf pre (packet hd s d seg) post) =
      Ret (tt, mkbuf pre (packet hd' s' d' seg') post) ∧
    length hd' = 12%nat ∧ length seg' = length seg ∧
    (∀ i, i ≠ 10%nat → i ≠ 11%nat → hd' !! i = hd !! i) ∧
    same_sum (osum hd' + addr_sum s' d') (osum hd + addr_sum s d) ∧
    match check_offset hd seg with
    | Some k => (∀ i, i ≠ k → i ≠ S k → seg' !! i = seg !! i) ∧
        same_sum (osum seg' + addr_sum s' d') (osum seg + addr_sum s d)
    | None => seg' = seg
    end.
Proof.
  intros Hhd Hbh Hbs Hs Hd Hl. cbv zeta.
  assert (acc_ok false false 0 s d s d) as Ha0 by (split; [lia|apply (same_sum_k _ _ 0); lia]).
  pose proof (nat_loop_ok pre hd seg post direction l false false 0 s d s d Hhd Hs Hd Hl Ha0) as Hloop.
  rewrite !addr_run_ok in Hloop. destruct Hloop as (acc & Hloop & Hs' & Hd' & Ha).
  unfold client_nat_transform. change (offset (mkbuf pre (packet hd s d seg) post)) with (Z.of_nat (length pre)).
  change (log false false) with 0 in Hloop. rewrite (bindM_Ret _ _ _ _ _ Hloop). cbn [alog accumulate].
  set (s' := nat_addr direction false l s) in *. set (d' := nat_addr direction true l d) in *.
  set (bs := existsb (rule_applies direction false s) l) in *. set (bd := existsb (rule_applies direction true d) l) in *.
  destruct (decide (log bs bd ≠ 0)) as [Hlog|Hlog].
  2:{ assert (s' = s ∧ d' = d) as [-> ->].
      { subst s' d'. pose proof (addr_run_ok direction false l s) as E1. pose proof (addr_run_ok direction true l d) as E2.
        fold bs in E1. fold bd in E2.
        assert (∀ dest a, existsb (rule_applies direction dest a) l = false → nat_addr direction dest l a = a) as Hn.
        { intros dest a. clear. induction l as [|e l IH]; [done|]. cbn. destruct (rule_applies direction dest a e); cbn; [done|auto]. }
        destruct bs eqn:Hbs1, bd eqn:Hbd1; try (exfalso; apply Hlog; vm_compute; congruence). split; by apply Hn. }
      exists hd, seg. split_and!; try done. destruct (check_offset hd seg); done. }
  assert (- 1000000 ≤ acc ≤ 1000000) as Hacc by (destruct Ha as [Ha _]; destruct bs, bd; lia).
  destruct Ha as [_ Hsum].
  destruct (adjust_at_ok pre [] hd (host32_bytes little s' ++ host32_bytes little d' ++ seg) post 10 acc) as (hd' & Hadj & Hre);
    [done|lia|done|done|].
  cbn [app length Nat.add] in Hadj. fold (packet hd s' d' seg) (packet hd' s' d' seg) in Hadj.
  change ip_check with (Z.of_nat 10). rewrite (bindM_Ret _ _ _ _ _ Hadj).
  pose proof Hre as (Hl' & Hb' & Hk' & _).
  assert (nth 9 hd' 0 = nth 9 hd 0) as H9 by (apply nth_lookup_eq, Hk'; lia).
  change ip_protocol with (Z.of_nat 9).
  destruct (nth_byte hd' 9 Hb' ltac:(lia)) as [H9' _].
  erewrite bindM_Ret by (apply peek_mk; unfold packet; rewrite <- app_assoc; by apply lookup_app_l_Some).
  rewrite bindM_run. unfold get. rewrite bind_Ret. cbv beta iota.
  rewrite buf_len_mk, length_ip_packet, Hl', Hhd, H9 by done. unfold check_offset.
  pose proof (rechecked_sum acc 10 hd hd' s d s' d' Hre Hsum) as Hhsum.
  assert (∀ k, (S k < length seg)%nat → Nat.even k = true →
    ∃ seg', adjust_at little (Z.of_nat (length pre) + Z.of_nat (20 + k)) acc (mkbuf pre (packet hd' s' d' seg) post) =
      Ret (tt, mkbuf pre (packet hd' s' d' seg') post) ∧ rechecked acc k seg seg') as Hseg.
  { intros k Hk Hev.
    destruct (adjust_at_ok pre (hd' ++ host32_bytes little s' ++ host32_bytes little d') seg [] post k acc) as (seg' & E & Hre');
      [done..|]. exists seg'. split; [|done].
    assert (length (hd' ++ host32_bytes little s' ++ host32_bytes little d') = 20%nat) as Hl20.
    { pose proof (length_ip_packet hd' s' d' [] Hs' Hd') as Hp. unfold packet in Hp. rewrite app_nil_r in Hp. rewrite Hp, Hl', Hhd. done. }
    rewrite Hl20, !app_nil_r, <- !app_assoc in E. exact E. }
  change OPENVPN_IPPROTO_TCP with 6. change OPENVPN_IPPROTO_UDP with 17.
  change (sizeof_iphdr + sizeof_tcphdr) with 40. change (sizeof_iphdr + sizeof_udphdr) with 28.
  assert (∀ k, (S k < length seg)%nat → Nat.even k = true → ∀ p, p = Z.of_nat (length pre) + Z.of_nat (20 + k) →
    ∃ hd2 seg2, adjust_at little p acc (mkbuf pre (packet hd' s' d' seg) post) = Ret (tt, mkbuf pre (packet hd2 s' d' seg2) post) ∧
    length hd2 = 12%nat ∧ length seg2 = length seg ∧ (∀ i, i ≠ 10%nat → i ≠ 11%nat → hd2 !! i = hd !! i) ∧
    same_sum (osum hd2 + addr_sum s' d') (osum hd + addr_sum s d) ∧
    (∀ i, i ≠ k → i ≠ S k → seg2 !! i = seg !! i) ∧ same_sum (osum seg2 + addr_sum s' d') (osum seg + addr_sum s d)) as Hdone.
  { intros k Hk Hev p ->. destruct (Hseg k Hk Hev) as (seg' & E & Hre'). exists hd', seg'.
    pose proof (rechecked_sum acc k seg seg' s d s' d' Hre' Hsum) as Hssum. destruct Hre' as (Hls & _ & Hks & _).
    split; [exact E|]. split; [lia|]. done. }
  assert (∃ hd2 seg2, mret (M := M buffer) tt (mkbuf pre (packet hd' s' d' seg) post) = Ret (tt, mkbuf pre (packet hd2 s' d' seg2) post) ∧
    length hd2 = 12%nat ∧ length seg2 = length seg ∧ (∀ i, i ≠ 10%nat → i ≠ 11%nat → hd2 !! i = hd !! i) ∧
    same_sum (osum hd2 + addr_sum s' d') (osum hd + addr_sum s d) ∧ seg2 = seg) as Hnone.
  { exists hd', seg. split; [done|]. split; [lia|]. done. }
  destruct (decide (nth 9 hd 0 = 6)).
  - destruct (decide (20 ≤ length seg)%nat); [rewrite decide_True by lia|by rewrite decide_False by lia].
    apply (Hdone 16%nat); [lia|done|]. unfold sizeof_iphdr, tcp_check. lia.
  - destruct (decide (nth 9 hd 0 = 17)); [|done].
    destruct (decide (8 ≤ length seg)%nat); [rewrite decide_True by lia|by rewrite decide_False by lia].
    apply (Hdone 6%nat); [lia|done|]. unfold sizeof_iphdr, udp_check. lia.
Qed.
End host.
