(* ===== verification/OvpnProtoProps.v ===== *)
(** * OpenVPN: what is promised of IP packets

    The MSS option and the addresses of a packet change, its checks stay right: every
    statement is for either byte order of the host. *)
From S2P Require Import Prelude OvpnBuffer OvpnProto OvpnProtoProofs OvpnNatProofs.
#[local] Open Scope bool_scope.
#[local] Open Scope Z_scope.

(** ** Translation and back *)

Definition normal_rule (e : client_nat_entry) : Prop :=
  rule_ok e ∧ (cn_type e = CN_SNAT ∨ cn_type e = CN_DNAT) ∧
  Z.land (network e) (netmask e) = network e ∧ Z.land (foreign_network e) (netmask e) = foreign_network e.
(** The foreign networks of the rules of a type do not meet. *)
Definition apart (l : list client_nat_entry) : Prop :=
  ∀ e1 e2 a, e1 ∈ l → e2 ∈ l → cn_type e1 = cn_type e2 →
    Z.land a (netmask e1) = foreign_network e1 → Z.land a (netmask e2) = foreign_network e2 → e1 = e2.

Lemma u32_land_id a : is_u32 a → Z.land a (Z.ones 32) = a.
Proof. intros Ha. rewrite Z.land_ones by lia. apply Z.mod_small. unfold is_u32 in Ha. lia. Qed.
Lemma land_not_u32 m : is_u32 m → u32 (Z.lnot m) = Z.ldiff (Z.ones 32) m.
Proof.
  intros Hm. unfold wrap. rewrite <- Z.land_ones, Z.land_comm by lia. symmetry. apply Z.ldiff_land.
Qed.

(** Replacing the bits under the mask, and what is under the mask then. *)
Lemma masked_in m f x : is_u32 m → Z.land f m = f → Z.land (Z.lor (Z.land x (u32 (Z.lnot m))) f) m = f.
Proof.
  intros Hm Hf. rewrite (land_not_u32 m Hm). apply Z.bits_inj'. intros n Hn.
  rewrite <- Hf at 2. rewrite !Z.land_spec, Z.lor_spec, Z.land_spec, Z.ldiff_spec.
  destruct (Z.testbit x n), (Z.testbit (Z.ones 32) n), (Z.testbit m n), (Z.testbit f n); done.
Qed.
Lemma masked_back m f x :
  is_u32 x → is_u32 m → Z.land f m = f →
  Z.lor (Z.land (Z.lor (Z.land x (u32 (Z.lnot m))) f) (u32 (Z.lnot m))) (Z.land x m) = x.
Proof.
  intros Hx Hm Hf. rewrite (land_not_u32 m Hm). rewrite <- (u32_land_id x Hx) at 2 3.
  apply Z.bits_inj'. intros n Hn. rewrite <- Hf.
  rewrite !Z.lor_spec, !Z.land_spec, !Z.lor_spec, !Z.land_spec, !Z.ldiff_spec.
  destruct (Z.testbit x n), (Z.testbit (Z.ones 32) n), (Z.testbit m n), (Z.testbit f n); done.
Qed.

Lemma for_dest_turn e : cn_type e = CN_SNAT ∨ cn_type e = CN_DNAT →
  for_dest CN_INCOMING e = negb (for_dest CN_OUTGOING e).
Proof. unfold for_dest. intros [-> | ->]; done. Qed.
Lemma for_dest_type e1 e2 : for_dest CN_OUTGOING e1 = for_dest CN_OUTGOING e2 →
  cn_type e1 = CN_SNAT ∨ cn_type e1 = CN_DNAT → cn_type e2 = CN_SNAT ∨ cn_type e2 = CN_DNAT → cn_type e1 = cn_type e2.
Proof. unfold for_dest. by intros H [H1|H1] [H2|H2]; rewrite H1, H2 in *. Qed.

Lemma nat_addr_first direction dest l a e :
  e ∈ l → rule_applies direction dest a e = true →
  (∀ e', e' ∈ l → rule_applies direction dest a e' = true → e' = e) →
  nat_addr direction dest l a = translate direction e a.
Proof.
  induction l as [|x l IH]; intros Hin Ha Hu; [by apply elem_of_nil in Hin|]. cbn.
  destruct (rule_applies direction dest a x) eqn:Hx.
  - rewrite (Hu x); [done|by left|done].
  - apply elem_of_cons in Hin as [->|Hin]; [congruence|]. apply IH; [done|done|]. intros e' He'. apply Hu. by right.
Qed.
Lemma nat_addr_none direction dest l a :
  (∀ e, e ∈ l → rule_applies direction dest a e = false) → nat_addr direction dest l a = a.
Proof.
  induction l as [|x l IH]; intros H; [done|]. cbn. rewrite (H x) by (by left). apply IH. intros e He. apply H. by right.
Qed.
Lemma nat_addr_cases direction dest l a :
  (∃ e, e ∈ l ∧ rule_applies direction dest a e = true ∧ nat_addr direction dest l a = translate direction e a) ∨
  (∀ e, e ∈ l → rule_applies direction dest a e = false) ∧ nat_addr direction dest l a = a.
Proof.
  induction l as [|x l IH]; [right; split; [intros e He; by apply elem_of_nil in He|done]|]. cbn.
  destruct (rule_applies direction dest a x) eqn:Hx; [left; exists x; split; [by left|done]|].
  destruct IH as [(e & He & H)|[H ->]]; [left; exists e; split; [by right|done]|right; split; [|done]].
  intros e [->|He]%elem_of_cons; auto.
Qed.

Lemma nat_addr_back dest l a :
  Forall normal_rule l → apart l → is_u32 a →
  (∀ e, e ∈ l → for_dest CN_OUTGOING e = dest → Z.land a (netmask e) ≠ foreign_network e ∨ rule_applies CN_OUTGOING dest a e = true) →
  nat_addr CN_INCOMING (negb dest) l (nat_addr CN_OUTGOING dest l a) = a.
Proof.
  intros Hl Hap Ha Hfree. rewrite Forall_forall in Hl.
  assert (∀ e b, e ∈ l → rule_applies CN_INCOMING (negb dest) b e = true →
    for_dest CN_OUTGOING e = dest ∧ Z.land b (netmask e) = foreign_network e) as Hin.
  { intros e b He H. unfold rule_applies in H. apply andb_true_iff in H as [H1 H2].
    apply bool_decide_eq_true in H1. apply bool_decide_eq_true in H2. destruct (Hl e He) as (_ & Ht & _).
    rewrite (for_dest_turn e Ht) in H1. split; [by destruct (for_dest CN_OUTGOING e), dest|]. exact H2. }
  destruct (nat_addr_cases CN_OUTGOING dest l a) as [(e & He & Hap1 & ->)|[Hnone ->]].
  - unfold rule_applies in Hap1. apply andb_true_iff in Hap1 as [H1 H2].
    apply bool_decide_eq_true in H1. apply bool_decide_eq_true in H2. change (rule_from CN_OUTGOING e) with (network e) in H2.
    destruct (Hl e He) as ((_ & Hm & _) & Ht & Hn & Hf).
    assert (Z.land (translate CN_OUTGOING e a) (netmask e) = foreign_network e) as Hback by (by apply masked_in).
    rewrite (nat_addr_first _ _ _ _ e He).
    + unfold translate. change (rule_to CN_INCOMING e) with (network e). change (rule_to CN_OUTGOING e) with (foreign_network e).
      rewrite <- H2. by apply masked_back.
    + unfold rule_applies. rewrite (for_dest_turn e Ht), H1. change (rule_from CN_INCOMING e) with (foreign_network e).
      rewrite Hback. by rewrite !bool_decide_eq_true_2.
    + intros e' He' Happ. destruct (Hin e' _ He' Happ) as [Hd Hm']. destruct (Hl e' He') as (_ & Ht' & _).
      apply (Hap e' e (translate CN_OUTGOING e a)); [done|done| |done|done]. apply for_dest_type; [congruence|done|done].
  - apply nat_addr_none. intros e He. apply not_true_is_false. intros Happ. destruct (Hin e a He Happ) as [Hd Hm].
    destruct (Hfree e He Hd) as [Hne|Ht]; [done|]. by rewrite (Hnone e He) in Ht.
Qed.

(** ** Properties *)

(** The check of the header of twelve bytes and the addresses is right; that of the segment
    with its pseudo header is. *)
Definition header_right (little : bool) (hd : list Z) (s d : Z) : Prop := same_sum (osum hd + addr_sum little s d) 0.
Definition segment_right (little : bool) (hd : list Z) (s d : Z) (seg : list Z) : Prop :=
  same_sum (osum seg + addr_sum little s d + nth 9 hd 0 + Z.of_nat (length seg)) 0.
(** The header has no options: its check is that of twenty bytes. *)
Definition no_options (hd : list Z) : Prop := nth 0 hd 0 = 69.
(** The packet is no fragment, its segment is there, and a UDP datagram has a check. *)
Definition whole (hd seg : list Z) : Prop :=
  no_options hd ∧ Z.land (nth 6 hd 0) 63 = 0 ∧ nth 7 hd 0 = 0 ∧
  (nth 9 hd 0 = 6 ∧ (20 ≤ length seg)%nat ∨ nth 9 hd 0 = 17 ∧ (8 ≤ length seg)%nat ∧ (nth 6 seg 0 ≠ 0 ∨ nth 7 seg 0 ≠ 0)).

(** C31: client NAT changes each address by the first rule for it, once, and leaves
    everything else but the two checks.  The check of a header without options is right
    afterwards exactly when it was; so is the check of a TCP segment or UDP datagram that
    is whole ([whole]: no options, no fragment, and UDP with a check).  Of other packets
    nothing is said here: there the code adjusts bytes that are no check. *)
Theorem client_nat_correct little pre hd s d seg post direction l :
  length hd = 12%nat → Forall is_byte hd → Forall is_byte seg → is_u32 s → is_u32 d → Forall rule_ok l →
  let s' := nat_addr direction false l s in
  let d' := nat_addr direction true l d in
  ∃ hd' seg', client_nat_transform little l direction (mkbuf pre (packet little hd s d seg) post) =
      Ret (tt, mkbuf pre (packet little hd' s' d' seg') post) ∧
    length hd' = 12%nat ∧ length seg' = length seg ∧
    (∀ i, i ≠ 10%nat → i ≠ 11%nat → hd' !! i = hd !! i) ∧
    match check_offset hd seg with
    | Some k => ∀ i, i ≠ k → i ≠ S k → seg' !! i = seg !! i
    | None => seg' = seg
    end ∧
    (no_options hd → header_right little hd' s' d' ↔ header_right little hd s d) ∧
    (whole hd seg → segment_right little hd' s' d' seg' ↔ segment_right little hd s d seg).
Proof.
  intros H1 H2 H3 H4 H5 H6 s' d'. destruct (transform_ok little pre hd s d seg post direction l H1 H2 H3 H4 H5 H6) as (hd' & seg' & E & Hl & Hls & Hk & Hsum & Hseg).
  fold s' d' in E, Hsum, Hseg. exists hd', seg'. split; [exact E|]. split; [done|]. split; [done|]. split; [done|].
  split; [destruct (check_offset hd seg); [apply Hseg|done]|]. split.
  - intros _. unfold header_right. by rewrite Hsum.
  - intros (_ & _ & _ & Hp). unfold segment_right. rewrite Hls, (nth_lookup_eq hd' hd 9) by (apply Hk; lia).
    assert (∃ k, check_offset hd seg = Some k) as [k Ek].
    { unfold check_offset. destruct Hp as [(-> & Hn)|(-> & Hn & _)]; repeat case_decide; done || lia || by eexists. }
    rewrite Ek in Hseg. destruct Hseg as [_ Hseg]. by rewrite Hseg.
Qed.

(** The answer to a translated packet is translated back: with normalised rules whose
    foreign networks do not meet, and addresses outside them unless translated, the
    incoming direction undoes the outgoing one on both addresses. *)
Theorem client_nat_roundtrip little pre hd1 hd2 s d seg1 seg2 post l :
  length hd1 = 12%nat → Forall is_byte hd1 → Forall is_byte seg1 →
  length hd2 = 12%nat → Forall is_byte hd2 → Forall is_byte seg2 →
  is_u32 s → is_u32 d → Forall normal_rule l → apart l →
  (∀ e, e ∈ l → for_dest CN_OUTGOING e = false → Z.land s (netmask e) ≠ foreign_network e ∨ rule_applies CN_OUTGOING false s e = true) →
  (∀ e, e ∈ l → for_dest CN_OUTGOING e = true → Z.land d (netmask e) ≠ foreign_network e ∨ rule_applies CN_OUTGOING true d e = true) →
  ∃ s' d' hd1' seg1' hd2' seg2',
    client_nat_transform little l CN_OUTGOING (mkbuf pre (packet little hd1 s d seg1) post) =
      Ret (tt, mkbuf pre (packet little hd1' s' d' seg1') post) ∧
    client_nat_transform little l CN_INCOMING (mkbuf pre (packet little hd2 d' s' seg2) post) =
      Ret (tt, mkbuf pre (packet little hd2' d s seg2') post).
Proof.
  intros H1 H2 H3 H4 H5 H6 Hs Hd Hl Hap Hfs Hfd.
  assert (Forall rule_ok l) as Hr by (eapply Forall_impl; [exact Hl|]; by intros e [He _]).
  destruct (transform_ok little pre hd1 s d seg1 post CN_OUTGOING l H1 H2 H3 Hs Hd Hr) as (hd1' & seg1' & E1 & _).
  assert (is_u32 (nat_addr CN_OUTGOING false l s) ∧ is_u32 (nat_addr CN_OUTGOING true l d)) as [Hs' Hd'].
  { rewrite Forall_forall in Hr. split;
      [destruct (nat_addr_cases CN_OUTGOING false l s) as [(e & He & _ & ->)|[_ ->]]|
       destruct (nat_addr_cases CN_OUTGOING true l d) as [(e & He & _ & ->)|[_ ->]]];
      [apply translate_u32; auto|done|apply translate_u32; auto|done]. }
  destruct (transform_ok little pre hd2 _ _ seg2 post CN_INCOMING l H4 H5 H6 Hd' Hs' Hr) as (hd2' & seg2' & E2 & _).
  pose proof (nat_addr_back false l s Hl Hap Hs Hfs) as Es. pose proof (nat_addr_back true l d Hl Hap Hd Hfd) as Ed.
  cbn [negb] in Es, Ed. rewrite Es, Ed in E2.
  by exists (nat_addr CN_OUTGOING false l s), (nat_addr CN_OUTGOING true l d), hd1', seg1', hd2', seg2'.
Qed.

(** In a packet that opens a TCP connection mss_fixup_ipv4 lowers every MSS option to
    the maximum and changes nothing else but the check, which stays as right as it was
    when the options are at even offsets; it leaves every other packet alone. *)
Theorem mss_fixup_ipv4_correct little maxmss pre c post :
  post ≠ [] → Forall is_byte (c ++ post) →
  let hlen := Z.to_nat (OPENVPN_IPH_GET_LEN (nth 0 c 0)) in
  ∃ c', mss_fixup_ipv4 little maxmss (mkbuf pre c post) = Ret (tt, mkbuf pre c' post) ∧
    (¬ syn4 c → c' = c) ∧
    (syn4 c → take hlen c' = take hlen c ∧
       lowered (u16 maxmss) (segment_mss (drop hlen c) post) (drop hlen c) (drop hlen c')).
Proof. apply ipv4_ok. Qed.

(** An IPv6 packet whose payload claims to be TCP and is too short for its header ends
    the program: mss_fixup_ipv6 looks at the flags before the length, and
    mss_fixup_dowork asserts the length. *)
Theorem mss_fixup_ipv6_aborts little maxmss pre c post :
  Forall is_byte c → (54 ≤ length c < 60)%nat → syn6 c →
  mss_fixup_ipv6 little maxmss (mkbuf pre c post) = Abort.
Proof.
  intros Hb Hl (_ & Hlen & Hnext & Hflags). unfold mss_fixup_ipv6. rewrite buf_len_mk.
  change sizeof_ipv6hdr with 40. rewrite decide_False by lia.
  change (offset (mkbuf pre c post)) with (Z.of_nat (length pre)).
  change ip6_payload_len with (Z.of_nat 4). change ip6_nexthdr with (Z.of_nat 6).
  rewrite (load16_field little pre c post 4) by (done || lia). bret. rewrite buf_len_mk.
  rewrite ntohs_host by (apply nth_byte; done || lia). rewrite decide_False by lia.
  rewrite (peek_field pre c post 6) by (done || lia). bret. rewrite Hnext. change OPENVPN_IPPROTO_TCP with 6. rewrite decide_False by (intros H6; by apply H6).
  unfold on_copy. rewrite bindM_run. unfold buf_advance.
  rewrite decide_False by (rewrite valid_mk; cbn [mkbuf len]; intros [?|[?|?]]; done || lia). bret.
  rewrite bindM_run. unfold get. bret. cbn [mkbuf capacity offset len data]. unfold peek at 1. rewrite bindM_run.
  cbn [data of_option]. bret. unfold tcp_flags. rewrite decide_True by lia.
  unfold load. replace (Z.to_nat (Z.of_nat (length pre) + 40 + 13)) with (length pre + 53)%nat by lia.
  rewrite lookup_app_r by lia. replace (length pre + 53 - length pre)%nat with 53%nat by lia.
  destruct (nth_byte c 53 Hb ltac:(lia)) as [H53 _]. rewrite (lookup_app_l_Some _ _ _ _ H53). cbn [of_option]. bret.
  change OPENVPN_TCPH_SYN_MASK with 2. rewrite decide_True by done. unfold mss_fixup_dowork, ASSERT, buf_len, buf_valid. cbn [data len].
  rewrite bool_decide_eq_true_2 by (split; [by eexists|lia]). unfold sizeof_tcphdr. by rewrite decide_False by lia.
Qed.

(** ** Packets that meet the hypotheses *)

(** A UDP datagram from 10.0.0.1 to 10.1.2.3, and a rule that makes 192.168.0.0 of
    10.0.0.0 under a mask of sixteen bits. *)
Definition udp_head : list Z := [69; 0; 0; 28; 0; 0; 0; 0; 64; 17; 100; 205].
Definition udp_seg : list Z := [0; 53; 0; 53; 0; 8; 233; 111].
Definition src_rule : client_nat_entry := {| cn_type := CN_SNAT; network := 167772160; netmask := 4294901760; foreign_network := 3232235520 |}.

Lemma bytes_forall l : forallb (λ b, (0 <=? b) && (b <? 256)) l = true → Forall is_byte l.
Proof. rewrite forallb_forall, Forall_forall. intros H b Hb. apply list_elem_of_In, H in Hb. apply andb_true_iff in Hb. unfold is_byte. lia. Qed.

Lemma src_rule_normal : Forall normal_rule [src_rule].
Proof. apply Forall_singleton. split; [unfold rule_ok, is_u32; cbn; lia|]. split; [by left|]. by vm_compute. Qed.

Lemma client_nat_correct_witness :
  ∃ hd' seg', client_nat_transform false [src_rule] CN_OUTGOING (mkbuf [] (packet false udp_head 167772161 167838211 udp_seg) []) =
      Ret (tt, mkbuf [] (packet false hd' 3232235521 167838211 seg') []) ∧
    header_right false hd' 3232235521 167838211 ∧ segment_right false hd' 3232235521 167838211 seg'.
Proof.
  destruct (client_nat_correct false [] udp_head 167772161 167838211 udp_seg [] CN_OUTGOING [src_rule])
    as (hd' & seg' & H1 & _ & _ & _ & _ & H2 & H3); [done|by apply bytes_forall|by apply bytes_forall|done|done| |].
  - apply Forall_singleton. unfold rule_ok, is_u32; cbn; lia.
  - exists hd', seg'. split; [exact H1|]. split.
    + apply H2; [reflexivity|]. vm_compute. reflexivity.
    + apply H3; [|vm_compute; reflexivity]. split; [reflexivity|]. split; [reflexivity|]. split; [reflexivity|].
      right. split; [reflexivity|]. split; [cbn; lia|]. left. discriminate.
Defined.

Lemma client_nat_roundtrip_witness :
  ∃ s' d' hd1' seg1' hd2' seg2',
    client_nat_transform false [src_rule] CN_OUTGOING (mkbuf [] (packet false udp_head 167772161 167838211 udp_seg) []) =
      Ret (tt, mkbuf [] (packet false hd1' s' d' seg1') []) ∧
    client_nat_transform false [src_rule] CN_INCOMING (mkbuf [] (packet false udp_head d' s' udp_seg) []) =
      Ret (tt, mkbuf [] (packet false hd2' 167838211 167772161 seg2') []).
Proof.
  apply (client_nat_roundtrip false [] udp_head udp_head 167772161 167838211 udp_seg udp_seg [] [src_rule]);
    [done|by apply bytes_forall|by apply bytes_forall|done|by apply bytes_forall|by apply bytes_forall|done|done
    |exact src_rule_normal| | |].
  - intros e1 e2 a H1 H2 _ _ _. apply list_elem_of_singleton in H1, H2. congruence.
  - intros e He _. apply list_elem_of_singleton in He as ->. by right.
  - intros e He Hd. apply list_elem_of_singleton in He as ->. done.
Defined.

(** A segment that opens a connection with an MSS of 1460. *)
Definition syn_packet : list Z :=
  [69; 0; 0; 44; 0; 0; 0; 0; 64; 6; 0; 0; 10; 0; 0; 1; 10; 1; 2; 3] ++
  [0; 80; 0; 80; 0; 0; 0; 0; 0; 0; 0; 0; 96; 2; 0; 0; 0; 0; 0; 0; 2; 4; 5; 180].

Lemma mss_fixup_ipv4_correct_witness :
  ∃ c', mss_fixup_ipv4 true 1300 (mkbuf [] syn_packet [0]) = Ret (tt, mkbuf [] c' [0]) ∧
    take 20 c' = take 20 syn_packet ∧ lowered 1300 [20%nat] (drop 20 syn_packet) (drop 20 c').
Proof.
  destruct (mss_fixup_ipv4_correct true 1300 [] syn_packet [0]) as (c' & H1 & _ & H2); [done|by apply bytes_forall|].
  exists c'. split; [exact H1|]. apply H2. unfold syn4. split; [vm_compute; lia|]. by repeat split; vm_compute.
Defined.

(** An IPv6 packet with fourteen bytes of a TCP header. *)
Definition short_syn : list Z :=
  [96; 0; 0; 0; 0; 14; 6; 64] ++ replicate 32 0 ++ [0; 80; 0; 80; 0; 0; 0; 0; 0; 0; 0; 0; 80; 2].
Lemma mss_fixup_ipv6_aborts_witness : mss_fixup_ipv6 true 1300 (mkbuf [] short_syn []) = Abort.
Proof.
  apply (mss_fixup_ipv6_aborts true 1300 [] short_syn []); [by apply bytes_forall|vm_compute; lia|].
  unfold syn6. split; [vm_compute; lia|]. by repeat split; vm_compute.
Defined.

(** After one NOP the MSS option is at an odd offset: its two bytes are in two words of
    the sum, and the check that follows the value as one word is wrong. *)
Definition odd_syn : list Z :=
  [69; 0; 0; 48; 0; 0; 0; 0; 64; 6; 0; 0; 10; 0; 0; 1; 10; 1; 2; 3] ++
  [0; 80; 0; 80; 0; 0; 0; 0; 0; 0; 0; 0; 112; 2; 0; 0; 0; 0; 0; 0; 1; 2; 4; 5; 180; 1; 1; 1].
Example mss_fixup_odd_option :
  match mss_fixup_ipv4 true 1300 (mkbuf [] odd_syn [0]) with
  | Ret (_, Buf _ _ _ (Some p)) => mss_of (drop 20 p) 21 = 1300 ∧ osum (drop 20 (take 48 p)) mod 65535 ≠ osum (drop 20 odd_syn) mod 65535
  | _ => False
  end.
Proof. vm_compute. split; [done|discriminate]. Qed.
