(* ===== verification/OvpnMroute.v ===== *)
(** * OpenVPN: addresses behind clients

    Models [openvpn/src/src/openvpn/mroute.c] and [mroute.h]: the addresses a packet
    carries, masks, and the set of prefix lengths in use; with [netbits_to_netmask] and
    [netmask_to_netbits] of [route.h] and [route.c].

    A [struct mroute_addr] keeps all twenty bytes of its array.  The caller's outputs are
    an argument and a result; a null pointer is [None].  [little] is the byte order of
    the host. *)
From S2P Require Import Prelude OvpnBuffer OvpnPacketId OvpnList OvpnProto.
#[local] Open Scope bool_scope.
#[local] Open Scope Z_scope.

Definition MROUTE_EXTRACT_SUCCEEDED : Z := 1.
Definition MROUTE_EXTRACT_BCAST : Z := 2.
Definition MROUTE_EXTRACT_MCAST : Z := 4.
Definition MROUTE_EXTRACT_IGMP : Z := 8.
Definition MROUTE_SEC_SHIFT : Z := 4.

Definition MR_MAX_ADDR_LEN : nat := 20.
Definition MR_ADDR_NONE : Z := 0.
Definition MR_ADDR_ETHER : Z := 1.
Definition MR_ADDR_IPV4 : Z := 2.
Definition MR_ADDR_IPV6 : Z := 3.
Definition MR_ADDR_MASK : Z := 3.
Definition MR_WITH_PORT : Z := 4.
Definition MR_WITH_NETBITS : Z := 8.
Definition MR_ARP : Z := 16.

Record mroute_addr := MA { ma_len : Z; ma_type : Z; ma_netbits : Z; ma_addr : list Z }.

Definition mroute_addr_init : mroute_addr := MA 0 0 0 (replicate MR_MAX_ADDR_LEN 0).
Definition mroute_addr_reset (ma : mroute_addr) : mroute_addr := MA 0 MR_ADDR_NONE (ma_netbits ma) (ma_addr ma).

(** The first bytes of the array are overwritten. *)
Definition set_addr (len type netbits : Z) (bs : list Z) (ma : mroute_addr) : mroute_addr :=
  MA len type netbits (splice 0 bs (ma_addr ma)).

Definition mroute_addr_equal (a1 a2 : mroute_addr) : bool :=
  if decide (ma_type a1 ≠ ma_type a2) then false
  else if decide (ma_netbits a1 ≠ ma_netbits a2) then false
  else if decide (ma_len a1 ≠ ma_len a2) then false
  else bool_decide (take (Z.to_nat (ma_len a1)) (ma_addr a1) = take (Z.to_nat (ma_len a1)) (ma_addr a2)).

(** The memory from the field [type] on. *)
Definition mroute_addr_hash_ptr (a : mroute_addr) : list Z := ma_type a :: ma_netbits a :: ma_addr a.
Definition mroute_addr_hash_len (a : mroute_addr) : Z := ma_len a + 2.
Definition mroute_addr_hash_function (key : mroute_addr) (iv : Z) : outcome Z :=
  hash_func (mroute_addr_hash_ptr key) (mroute_addr_hash_len key) iv.
Definition mroute_addr_compare_function (key1 key2 : mroute_addr) : bool := mroute_addr_equal key1 key2.
(** The functions of the tables of addresses. *)
#[export] Instance mroute_addr_hashable : Hashable mroute_addr := {|
  hash_function key iv := match mroute_addr_hash_function key iv with Ret h => h | _ => 0 end;
  compare_function := mroute_addr_compare_function;
|}.

Definition is_mac_mcast_addr (mac : list Z) : outcome bool :=
  b ← array_get mac 0;
  Ret (negb (bool_decide (Z.land b 1 = 0))).
Definition is_mac_mcast_maddr (addr : mroute_addr) : outcome bool :=
  if decide (Z.land (ma_type addr) MR_ADDR_MASK = MR_ADDR_ETHER) then is_mac_mcast_addr (ma_addr addr) else Ret false.

(** [not_all_zeros] and [not_all_ones]. *)
Definition learnable_body (addr : mroute_addr) (i : nat) (st : bool * bool) : outcome (bool * bool) :=
  b ← array_get (ma_addr addr) i;
  Ret (if decide (b ≠ 0) then true else st.1, if decide (b ≠ 255) then true else st.2).
Definition mroute_learnable_address (addr : mroute_addr) : outcome bool :=
  '(not_all_zeros, not_all_ones) ← for_ (Z.to_nat (ma_len addr)) 0 (learnable_body addr) (false, false);
  if not_all_zeros && not_all_ones then mc ← is_mac_mcast_maddr addr; Ret (negb mc) else Ret false.

(** ** Masks *)

Definition IPV4_NETMASK_HOST : Z := 4294967295.
Definition netbits_to_netmask (netbits : Z) : Z :=
  let addrlen := 32 in
  if decide (netbits > 0 ∧ netbits ≤ addrlen) then u32 (Z.shiftl IPV4_NETMASK_HOST (addrlen - netbits)) else 0.

(** The search from [i], with [n] lengths left. *)
Fixpoint netbits_loop (netmask : Z) (n : nat) (i : Z) : option Z :=
  match n with
  | O => None
  | S n =>
      if decide (netbits_to_netmask i = netmask) then Some (if decide (i = 32) then -1 else i)
      else netbits_loop netmask n (i + 1)
  end.
(** [*netbits] where the C result is true. *)
Definition netmask_to_netbits (network netmask : Z) : option Z :=
  if decide (Z.land network netmask = network) then netbits_loop netmask 33 0 else None.

(** ** The prefix lengths in use *)

Definition MR_HELPER_NET_LEN : nat := 129.
Record iroute := IR { network : Z; netbits : Z }.
(** The length is an [unsigned int]. *)
Record iroute_ipv6 := IR6 { network6 : list Z; netbits6 : Z }.

Record mroute_helper := MH {
  cache_generation : Z;
  ageable_ttl_secs : Z;
  n_net_len : Z;
  net_len : list Z;
  net_len_refcount : list Z;
}.
Definition mroute_helper_init (ageable_ttl_secs : Z) : mroute_helper :=
  MH 0 ageable_ttl_secs 0 (replicate MR_HELPER_NET_LEN 0) (replicate MR_HELPER_NET_LEN 0).

(** The lengths [n - 1], ..., [0]; [j] of them are stored. *)
Fixpoint regenerate_loop (counts : list Z) (n : nat) (j : nat) (lens : list Z) : outcome (nat * list Z) :=
  match n with
  | O => Ret (j, lens)
  | S i =>
      c ← array_get counts i;
      if decide (c > 0) then lens ← array_set lens j (u8 (Z.of_nat i)); regenerate_loop counts i (S j) lens
      else regenerate_loop counts i j lens
  end.
Definition mroute_helper_regenerate (mh : mroute_helper) : outcome mroute_helper :=
  '(j, lens) ← regenerate_loop (net_len_refcount mh) MR_HELPER_NET_LEN 0 (net_len mh);
  Ret (MH (cache_generation mh) (ageable_ttl_secs mh) (Z.of_nat j) lens (net_len_refcount mh)).

Definition set_count (n c : Z) (mh : mroute_helper) : outcome mroute_helper :=
  l ← array_set (net_len_refcount mh) (Z.to_nat n) c;
  Ret (MH (u32 (cache_generation mh + 1)) (ageable_ttl_secs mh) (n_net_len mh) (net_len mh) l).

(** [mroute_helper_add_iroute] from the check of the length on. *)
Definition add_netbits (n : Z) (mh : mroute_helper) : outcome mroute_helper :=
  ASSERT (n < Z.of_nat MR_HELPER_NET_LEN);;
  c ← array_get (net_len_refcount mh) (Z.to_nat n);
  c ← int (c + 1);
  mh ← set_count n c mh;
  if decide (c = 1) then mroute_helper_regenerate mh else Ret mh.
Definition del_netbits (n : Z) (mh : mroute_helper) : outcome mroute_helper :=
  ASSERT (n < Z.of_nat MR_HELPER_NET_LEN);;
  c ← array_get (net_len_refcount mh) (Z.to_nat n);
  c ← int (c - 1);
  mh ← set_count n c mh;
  ASSERT (c >= 0);;
  if decide (c = 0) then mroute_helper_regenerate mh else Ret mh.

Definition mroute_helper_add_iroute (ir : iroute) (mh : mroute_helper) : outcome mroute_helper :=
  if decide (netbits ir >= 0) then add_netbits (netbits ir) mh else Ret mh.
Definition mroute_helper_del_iroute (ir : iroute) (mh : mroute_helper) : outcome mroute_helper :=
  if decide (netbits ir >= 0) then del_netbits (netbits ir) mh else Ret mh.
Definition mroute_helper_add_iroute6 (ir6 : iroute_ipv6) (mh : mroute_helper) : outcome mroute_helper :=
  if decide (netbits6 ir6 >= 0) then add_netbits (netbits6 ir6) mh else Ret mh.
Definition mroute_helper_del_iroute6 (ir6 : iroute_ipv6) (mh : mroute_helper) : outcome mroute_helper :=
  if decide (netbits6 ir6 >= 0) then del_netbits (netbits6 ir6) mh else Ret mh.

Section host.
Context (little : bool).

Definition ntohl (v : Z) : Z := from_be (host32_bytes little v).
Definition htonl (v : Z) : Z := host little (be32 v).

(** ** Reading and writing addresses *)

(** [*(in_addr_t * )ma->addr]. *)
Definition addr_word (ma : mroute_addr) : outcome Z :=
  if decide (4 ≤ length (ma_addr ma))%nat then Ret (host little (take 4 (ma_addr ma))) else Undef.

Definition mroute_extract_in_addr_t (src : Z) (dest : mroute_addr) : mroute_addr :=
  set_addr 4 MR_ADDR_IPV4 0 (host32_bytes little (htonl src)) dest.
Definition in_addr_t_from_mroute_addr (addr : mroute_addr) : outcome Z :=
  if decide (Z.land (ma_type addr) MR_ADDR_MASK = MR_ADDR_IPV4 ∧ ma_netbits addr = 0 ∧ ma_len addr = 4)
  then w ← addr_word addr; Ret (ntohl w) else Ret 0.

Definition mroute_get_in_addr_t (src mask : Z) (ma : option mroute_addr) : option mroute_addr :=
  set_addr 4 (u8 (Z.lor MR_ADDR_IPV4 mask)) 0 (host32_bytes little src) <$> ma.
Definition mroute_get_in6_addr (src : list Z) (mask : Z) (ma : option mroute_addr) : option mroute_addr :=
  set_addr 16 (u8 (Z.lor MR_ADDR_IPV6 mask)) 0 src <$> ma.

(** One round of clearing: the byte, and the bits left. *)
Definition mask_body (st : list Z * Z * Z) : outcome (list Z * Z * Z + list Z * Z) :=
  let '(a, byte, bits_to_clear) := st in
  if decide (byte >= 0 ∧ bits_to_clear > 0) then
    if decide (bits_to_clear >= 8) then
      a ← array_set a (Z.to_nat byte) 0;
      Ret (inl (a, byte - 1, bits_to_clear - 8))
    else
      b ← array_get a (Z.to_nat byte);
      a ← array_set a (Z.to_nat byte) (u8 (Z.land b (u32 (Z.shiftl IPV4_NETMASK_HOST bits_to_clear))));
      Ret (inl (a, byte - 1, 0))
  else Ret (inr (a, bits_to_clear)).
Definition mroute_addr_mask_host_bits (ma : mroute_addr) : outcome mroute_addr :=
  w ← addr_word ma;
  let addr := ntohl w in
  if decide (Z.land (ma_type ma) MR_ADDR_MASK = MR_ADDR_IPV4) then
    let addr := Z.land addr (netbits_to_netmask (ma_netbits ma)) in
    Ret (set_addr (ma_len ma) (ma_type ma) (ma_netbits ma) (host32_bytes little (htonl addr)) ma)
  else if decide (Z.land (ma_type ma) MR_ADDR_MASK = MR_ADDR_IPV6) then
    '(a, bits_to_clear) ← loop (S (Z.to_nat (ma_len ma))) mask_body (ma_addr ma, ma_len ma - 1, 128 - ma_netbits ma);
    ASSERT (bits_to_clear = 0);;
    Ret (MA (ma_len ma) (ma_type ma) (ma_netbits ma) a)
  else Abort.

(** ** The addresses of a packet *)

Definition IP_MCAST_SUBNET_MASK : Z := u32 (Z.shiftl 240 24).
Definition IP_MCAST_NETWORK : Z := u32 (Z.shiftl 224 24).
Definition mroute_is_mcast (addr : Z) : bool :=
  bool_decide (Z.land addr (htonl IP_MCAST_SUBNET_MASK) = htonl IP_MCAST_NETWORK).
Definition mroute_is_mcast_ipv6 (addr : list Z) : outcome bool :=
  b ← array_get addr 0; Ret (bool_decide (b = 255)).

Definition sizeof_arp : Z := 28.
Definition arp_mac_addr_type : Z := 0.
Definition arp_proto_addr_type : Z := 2.
Definition arp_mac_addr_size : Z := 4.
Definition arp_proto_addr_size : Z := 5.
Definition arp_ip_src : Z := 14.
Definition arp_ip_dest : Z := 24.
Definition OPENVPN_ETH_P_ARP : Z := 2054.
Definition OPENVPN_IPPROTO_IGMP : Z := 2.
Definition ip6_saddr : Z := 8.
Definition ip6_daddr : Z := 24.
Definition eth_dest : Z := 0.
Definition eth_source : Z := 6.

(** The flags, the source and the destination. *)
Definition addrs : Type := Z * option mroute_addr * option mroute_addr.

Definition mroute_extract_addr_arp (src dest : option mroute_addr) : M buffer addrs :=
  buf ← get;
  if decide (buf_len buf >= sizeof_arp) then
    let arp := offset buf in
    mt ← load16 little (arp + arp_mac_addr_type);
    pt ← load16 little (arp + arp_proto_addr_type);
    ms ← peek (arp + arp_mac_addr_size);
    ps ← peek (arp + arp_proto_addr_size);
    if decide (mt = htons little 1 ∧ pt = htons little 2048 ∧ ms = 6 ∧ ps = 4) then
      ip_src ← load32 little (arp + arp_ip_src);
      ip_dest ← load32 little (arp + arp_ip_dest);
      let ret := if mroute_is_mcast ip_dest then Z.lor 0 MROUTE_EXTRACT_MCAST else 0 in
      mret (Z.lor ret MROUTE_EXTRACT_SUCCEEDED, mroute_get_in_addr_t ip_src MR_ARP src, mroute_get_in_addr_t ip_dest MR_ARP dest)
    else mret (0, src, dest)
  else mret (0, src, dest).

Definition mroute_extract_addr_ipv4 (src dest : option mroute_addr) : M buffer addrs :=
  buf ← get;
  let ip := offset buf in
  if decide (buf_len buf >= 1) then
    v ← peek ip;
    if decide (OPENVPN_IPH_GET_VER v = 4) then
      if decide (buf_len buf >= sizeof_iphdr) then
        saddr ← load32 little (ip + ip_saddr);
        daddr ← load32 little (ip + ip_daddr);
        protocol ← peek (ip + ip_protocol);
        let ret := if mroute_is_mcast daddr then Z.lor 0 MROUTE_EXTRACT_MCAST else 0 in
        let ret := if decide (protocol = OPENVPN_IPPROTO_IGMP) then Z.lor ret MROUTE_EXTRACT_IGMP else ret in
        mret (Z.lor ret MROUTE_EXTRACT_SUCCEEDED, mroute_get_in_addr_t saddr 0 src, mroute_get_in_addr_t daddr 0 dest)
      else mret (0, src, dest)
    else if decide (OPENVPN_IPH_GET_VER v = 6) then
      if decide (buf_len buf >= sizeof_ipv6hdr) then
        saddr ← peek_n (ip + ip6_saddr) 16;
        daddr ← peek_n (ip + ip6_daddr) 16;
        mc ← lift (mroute_is_mcast_ipv6 daddr);
        let ret := if mc : bool then Z.lor 0 MROUTE_EXTRACT_MCAST else 0 in
        mret (Z.lor ret MROUTE_EXTRACT_SUCCEEDED, mroute_get_in6_addr saddr 0 src, mroute_get_in6_addr daddr 0 dest)
      else mret (0, src, dest)
    else mret (0, src, dest)
  else mret (0, src, dest).

(** The addresses of the frame, and those of the packet in it. *)
Definition mroute_extract_addr_ether (src dest esrc edest : option mroute_addr) : M buffer (addrs * option mroute_addr * option mroute_addr) :=
  buf ← get;
  if decide (buf_len buf >= sizeof_ethhdr) then
    let eth := offset buf in
    source ← peek_n (eth + eth_source) 6;
    to ← peek_n (eth + eth_dest) 6;
    let src := set_addr 6 MR_ADDR_ETHER 0 source <$> src in
    bc ← lift (match dest with Some _ => is_mac_mcast_addr to | None => Ret false end);
    let dest := set_addr 6 MR_ADDR_ETHER 0 to <$> dest in
    let ret := if bc : bool then Z.lor 0 MROUTE_EXTRACT_BCAST else 0 in
    let ret := Z.lor ret MROUTE_EXTRACT_SUCCEEDED in
    if decide (esrc ≠ None ∨ edest ≠ None) then
      '(sec, esrc, edest) ← on_copy
        (ok ← buf_advance sizeof_ethhdr;
         if ok : bool then
           proto ← load16 little (eth + eth_proto);
           if decide (ntohs little proto = OPENVPN_ETH_P_IPV4) then mroute_extract_addr_ipv4 esrc edest
           else if decide (ntohs little proto = OPENVPN_ETH_P_ARP) then mroute_extract_addr_arp esrc edest
           else mret (0, esrc, edest)
         else mret (0, esrc, edest));
      mret (Z.lor ret (Z.shiftl sec MROUTE_SEC_SHIFT), src, dest, esrc, edest)
    else mret (ret, src, dest, esrc, edest)
  else mret (0, src, dest, esrc, edest).

Definition mroute_extract_addr_from_packet (src dest esrc edest : option mroute_addr) (tunnel_type : Z) :
    M buffer (addrs * option mroute_addr * option mroute_addr) :=
  if decide (tunnel_type = DEV_TYPE_TUN) then
    r ← mroute_extract_addr_ipv4 src dest; mret (r, esrc, edest)
  else if decide (tunnel_type = DEV_TYPE_TAP) then mroute_extract_addr_ether src dest esrc edest
  else mret (0, src, dest, esrc, edest).

(** ** The other end of the transport *)

(** The address and port of a [struct openvpn_sockaddr], as they are in memory. *)
Inductive openvpn_sockaddr := In4 (addr port : list Z) | In6 (addr port : list Z) | OtherFamily.

(** Nothing is written to [addr] when the family is another. *)
Definition mroute_extract_openvpn_sockaddr (osaddr : openvpn_sockaddr) (use_port : bool) (addr : mroute_addr) : bool * mroute_addr :=
  match osaddr with
  | In4 a p =>
      (true, if use_port then set_addr 6 (Z.lor MR_ADDR_IPV4 MR_WITH_PORT) 0 (a ++ p) addr
             else set_addr 4 MR_ADDR_IPV4 0 a addr)
  | In6 a p =>
      (true, if use_port then set_addr 18 (Z.lor MR_ADDR_IPV6 MR_WITH_PORT) 0 (a ++ p) addr
             else set_addr 16 MR_ADDR_IPV6 0 a addr)
  | OtherFamily => (false, addr)
  end.
End host.
