(* ===== verification/OvpnMrouteProofs.v ===== *)
(** * OpenVPN: addresses behind clients, proved

    The number an address is ([addr_value]), what a mask leaves of it ([clear_host]), the
    lengths in use as a list ([used]), addresses as keys of a hash table, and the
    addresses of a packet ([addrs_of]). *)
From Stdlib Require Import Sorted.
From S2P Require Import Prelude OvpnBuffer OvpnPacketId OvpnList OvpnProto OvpnProtoProofs OvpnNatProofs OvpnPool OvpnPoolProofs OvpnMroute.
#[local] Open Scope bool_scope.
#[local] Open Scope Z_scope.

(** ** Numbers and their bytes *)

Lemma is_byte_all l : Forall is_byte l → ∀ i x, l !! i = Some x → is_byte x.
Proof. intros H. by apply Forall_lookup. Qed.

Lemma be_val_4 a b c d : be_val [a; b; c; d] = 16777216 * a + 65536 * b + 256 * c + d.
Proof. unfold be_val. cbn. lia. Qed.

Lemma be_val_split x v n : be_val x = v → (n ≤ length x)%nat → Forall is_byte x →
  be_val (take n x) = v / 256 ^ Z.of_nat (length x - n).
Proof.
  intros <- Hn Hb. rewrite <- (take_drop n x) at 2. rewrite be_val_app, length_drop.
  assert (0 ≤ be_val (drop n x) < 256 ^ Z.of_nat (length x - n)) as Hr.
  { rewrite <- length_drop. by apply be_val_range, Forall_drop. }
  apply (Z.div_unique _ _ _ (be_val (drop n x))); lia.
Qed.

(** Two strings of as many bytes are the same when the numbers are. *)
Lemma be_val_inj x y : length x = length y → Forall is_byte x → Forall is_byte y → be_val x = be_val y → x = y.
Proof.
  revert y. induction x as [|a x IH] using rev_ind; intros y Hl Hx Hy He.
  - symmetry in Hl. by apply nil_length_inv in Hl as ->.
  - destruct y as [|b y _] using rev_ind; [by rewrite length_app in Hl; cbn in Hl; lia|].
    rewrite !length_app in Hl. cbn in Hl. apply Forall_app in Hx as [Hx Ha]. apply Forall_app in Hy as [Hy Hb].
    rewrite !be_val_snoc in He. rewrite Forall_singleton in Ha, Hb. ints. f_equal; [apply IH; [lia|done..|lia]|].
    f_equal. lia.
Qed.

(** The bits above the last [k]. *)
Lemma land_high v n k : 0 ≤ n → 0 ≤ k → 0 ≤ v < 2 ^ (n + k) →
  Z.land v (Z.shiftl (Z.ones n) k) = v - v mod 2 ^ k.
Proof.
  intros Hn Hk Hv.
  assert (v - v mod 2 ^ k = Z.shiftl (Z.shiftr v k) k) as ->.
  { rewrite Z.shiftl_mul_pow2, Z.shiftr_div_pow2 by done. pose proof (Z.div_mod v (2 ^ k) ltac:(lia)). lia. }
  apply Z.bits_inj'. intros i Hi. rewrite Z.land_spec. destruct (decide (i < k)).
  - rewrite !Z.shiftl_spec_low by lia. by rewrite andb_false_r.
  - rewrite !Z.shiftl_spec_high, Z.shiftr_spec by lia. replace (i - k + k) with i by lia.
    destruct (decide (i < n + k)).
    + rewrite Z.ones_spec_low by lia. by rewrite andb_true_r.
    + rewrite Z.ones_spec_high by lia. rewrite andb_false_r. symmetry.
      destruct (decide (v = 0)) as [->|]; [apply Z.bits_0|]. apply Z.bits_above_log2; [lia|].
      apply Z.log2_lt_pow2; [lia|]. eapply Z.lt_le_trans; [apply Hv|]. apply Z.pow_le_mono_r; lia.
Qed.

(** What is left of [v], of [w] bits, under a prefix of [n]. *)
Definition clear_host (w n v : Z) : Z := if decide (n ≤ w) then v - v mod 2 ^ (w - n) else 0.

Lemma netmask_ok n : 0 < n ≤ 32 → netbits_to_netmask n = Z.shiftl (Z.ones n) (32 - n).
Proof.
  intros Hn. unfold netbits_to_netmask. rewrite decide_True by lia. unfold wrap, IPV4_NETMASK_HOST.
  change 4294967295 with (Z.ones 32). rewrite <- Z.land_ones by lia. apply Z.bits_inj'. intros i Hi.
  rewrite Z.land_spec. destruct (decide (i < 32 - n)).
  - by rewrite !Z.shiftl_spec_low by lia.
  - rewrite !Z.shiftl_spec_high by lia. rewrite !Z.testbit_ones by lia.
    repeat match goal with |- context [?a <=? ?b] => destruct (Z.leb_spec a b) | |- context [?a <? ?b] => destruct (Z.ltb_spec a b) end; try done; lia.
Qed.
Lemma netmask_land n v : 0 ≤ n → 0 ≤ v < 2 ^ 32 → Z.land v (netbits_to_netmask n) = clear_host 32 n v.
Proof.
  intros Hn Hv. unfold clear_host. destruct (decide (n = 0)) as [->|]; [|destruct (decide (n ≤ 32))].
  - change (netbits_to_netmask 0) with 0. rewrite Z.land_0_r, decide_True by lia. rewrite Z.mod_small by lia. lia.
  - rewrite netmask_ok by lia. rewrite land_high by (done || lia || (replace (n + (32 - n)) with 32 by lia; done)). done.
  - unfold netbits_to_netmask. rewrite decide_False by lia. by rewrite Z.land_0_r.
Qed.

Lemma netmask_inj i j : 0 ≤ i ≤ 32 → 0 ≤ j ≤ 32 → netbits_to_netmask i = netbits_to_netmask j → i = j.
Proof.
  intros Hi Hj. assert (∀ n, 0 ≤ n ≤ 32 → netbits_to_netmask n = 2 ^ 32 - 2 ^ (32 - n)) as Hv.
  { intros n Hn. destruct (decide (n = 0)) as [->|]; [done|]. rewrite netmask_ok, Z.shiftl_mul_pow2 by lia.
    rewrite Z.ones_equiv. pose proof (Z.pow_add_r 2 n (32 - n)) as Hp. replace (n + (32 - n)) with 32 in Hp by lia. lia. }
  rewrite !Hv by done. intros He. assert (2 ^ (32 - i) = 2 ^ (32 - j)) as Hp by lia.
  apply Z.pow_inj_r in Hp; lia.
Qed.
Lemma netbits_loop_ok m n i :
  0 ≤ i → i ≤ m ≤ 32 → (Z.to_nat (m - i) < n)%nat →
  netbits_loop (netbits_to_netmask m) n i = Some (if decide (m = 32) then -1 else m).
Proof.
  revert i. induction n as [|n IH]; intros i Hi Hm Hn; [lia|]. cbn. destruct (decide (i = m)) as [->|].
  - by rewrite decide_True.
  - rewrite decide_False. { apply IH; lia. } intros He. apply netmask_inj in He; lia.
Qed.

(** ** Masks *)

Lemma mod_256 a x P : 0 < P → 0 ≤ x < 256 → (256 * a + x) mod (256 * P) = 256 * (a mod P) + x.
Proof.
  intros HP Hx. symmetry. apply (Z.mod_unique _ _ (a / P)).
  - left. pose proof (Z.mod_pos_bound a P HP). lia.
  - pose proof (Z.div_mod a P ltac:(lia)). lia.
Qed.

(** Clearing [bits] bits at the end of [t]. *)
Lemma mask_loop_ok t : ∀ bits zs fuel,
  Forall is_byte t → 0 ≤ bits ≤ 8 * Z.of_nat (length t) → (length t < fuel)%nat →
  ∃ t', loop fuel mask_body (t ++ zs, Z.of_nat (length t) - 1, bits) = Ret (t' ++ zs, 0) ∧
    length t' = length t ∧ Forall is_byte t' ∧ be_val t' = be_val t - be_val t mod 2 ^ bits.
Proof.
  induction t as [|x t IH] using rev_ind; intros bits zs fuel Hb Hbits Hf; (destruct fuel as [|fuel]; [lia|]); rewrite loop_S; cbn [mask_body].
  { cbn in Hbits. assert (bits = 0) as -> by lia. rewrite decide_False by lia. bret. by exists []. }
  apply Forall_app in Hb as [Hb Hx]. rewrite Forall_singleton in Hx. rewrite length_app in *. cbn [length] in *.
  destruct (decide (bits = 0)) as [->|Hne].
  { rewrite decide_False by lia. bret. exists (t ++ [x]). rewrite length_app, Z.mod_1_r, Z.sub_0_r. cbn. split; [done|]. split; [done|].
    split; [|done]. apply Forall_app. by rewrite Forall_singleton. }
  rewrite decide_True by lia. rewrite <- app_assoc. cbn [app].
  replace (Z.to_nat (Z.of_nat (length t + 1) - 1)) with (length t) by lia. destruct (decide (bits >= 8)).
  - rewrite array_set_ok by (rewrite length_app; cbn; lia). bret. rewrite insert_app_r_alt, Nat.sub_diag by lia.
    change (<[0%nat := 0]> (x :: zs)) with (0 :: zs). replace (Z.of_nat (length t + 1) - 1 - 1) with (Z.of_nat (length t) - 1) by lia.
    destruct (IH (bits - 8) (0 :: zs) fuel) as (t' & -> & Hl & Hb' & Hv); [done|lia|lia|].
    exists (t' ++ [0]). rewrite <- app_assoc, length_app. cbn. split; [done|]. split; [lia|].
    split; [apply Forall_app; rewrite Forall_singleton; split; [done|ints; lia]|].
    rewrite !be_val_snoc, Hv. replace bits with (8 + (bits - 8)) at 2 by lia. rewrite Z.pow_add_r by lia.
    change (2 ^ 8) with 256. ints. rewrite mod_256 by (lia || (apply Z.pow_pos_nonneg; lia)). lia.
  - unfold array_get. rewrite list_lookup_middle by done. cbn [of_option]. bret.
    rewrite array_set_ok by (rewrite length_app; cbn; lia). bret. rewrite insert_app_r_alt, Nat.sub_diag by lia.
    set (y := u8 _). change (<[0%nat := y]> (x :: zs)) with (y :: zs).
    destruct fuel as [|fuel]; [lia|]. rewrite loop_S. cbn [mask_body]. rewrite decide_False by lia. bret.
    assert (y = x - x mod 2 ^ bits ∧ is_byte y) as [Hy Hyb].
    { split; [|apply u8_range]. subst y. ints.
      assert (bits = 1 ∨ bits = 2 ∨ bits = 3 ∨ bits = 4 ∨ bits = 5 ∨ bits = 6 ∨ bits = 7) as Hc by lia.
      pose proof (byte_all (λ x, forallb (λ b, u8 (Z.land x (u32 (Z.shiftl IPV4_NETMASK_HOST b))) =? x - x mod 2 ^ b) [1; 2; 3; 4; 5; 6; 7]) eq_refl x Hx) as Hall.
      rewrite forallb_forall in Hall. apply Z.eqb_eq, Hall. cbn. lia. }
    exists (t ++ [y]). rewrite <- app_assoc, length_app. cbn. split; [done|]. split; [done|].
    split; [apply Forall_app; by rewrite Forall_singleton|].
    rewrite !be_val_snoc, Hy. ints.
    assert ((256 * be_val t + x) mod 2 ^ bits = x mod 2 ^ bits) as ->; [|lia].
    replace 256 with (2 ^ (8 - bits) * 2 ^ bits) by (rewrite <- Z.pow_add_r by lia; replace (8 - bits + bits) with 8 by lia; done).
    rewrite Z.add_comm. replace (2 ^ (8 - bits) * 2 ^ bits * be_val t) with (2 ^ (8 - bits) * be_val t * 2 ^ bits) by lia.
    apply Z.mod_add. pose proof (Z.pow_pos_nonneg 2 bits). lia.
Qed.

(** The number an address is, and its width. *)
Definition addr_value (ma : mroute_addr) : Z := be_val (take (Z.to_nat (ma_len ma)) (ma_addr ma)).
Definition addr_width (ma : mroute_addr) : Z := 8 * ma_len ma.
Definition family (ma : mroute_addr) : Z := Z.land (ma_type ma) MR_ADDR_MASK.
Definition wf_addr (ma : mroute_addr) : Prop :=
  length (ma_addr ma) = MR_MAX_ADDR_LEN ∧ Forall is_byte (ma_addr ma) ∧ is_byte (ma_type ma) ∧ is_byte (ma_netbits ma) ∧
  0 ≤ ma_len ma ≤ 20.
(** An address that has a mask. *)
Definition ip_addr (ma : mroute_addr) : Prop :=
  wf_addr ma ∧ (family ma = MR_ADDR_IPV4 ∧ ma_len ma = 4 ∨ family ma = MR_ADDR_IPV6 ∧ ma_len ma = 16).

Lemma addr_value_range ma : wf_addr ma → 0 ≤ addr_value ma < 2 ^ addr_width ma.
Proof.
  intros (Hl & Hb & _ & _ & Hlen). unfold addr_value, addr_width. unfold MR_MAX_ADDR_LEN in Hl.
  pose proof (be_val_range (take (Z.to_nat (ma_len ma)) (ma_addr ma)) ltac:(by apply Forall_take)) as H.
  rewrite length_take in H. replace (Z.of_nat _) with (ma_len ma) in H by lia.
  change 256 with (2 ^ 8) in H. by rewrite <- Z.pow_mul_r in H by lia.
Qed.

Section host.
Context (little : bool).

Lemma host_word a b c d : Forall is_byte [a; b; c; d] →
  is_u32 (host little [a; b; c; d]) ∧ host32_bytes little (host little [a; b; c; d]) = [a; b; c; d].
Proof.
  intros Hb. repeat (apply Forall_cons in Hb as [? Hb]).
  assert (is_u32 (host little [a; b; c; d])) as Hu by (unfold host, from_be, is_u32 in *; ints; destruct little; cbn; lia).
  split; [done|]. destruct (host32_bytes_ok little _ Hu) as (a' & b' & c' & d' & -> & Hb' & He).
  repeat (apply Forall_cons in Hb' as [? Hb']). unfold host, from_be in He. ints.
  destruct little; cbn in He; repeat f_equal; lia.
Qed.
Lemma ntohl_word a b c d : Forall is_byte [a; b; c; d] → ntohl little (host little [a; b; c; d]) = be_val [a; b; c; d].
Proof. intros Hb. unfold ntohl. destruct (host_word _ _ _ _ Hb) as [_ ->]. done. Qed.
Lemma htonl_bytes v : is_u32 v → host32_bytes little (htonl little v) = be32 v.
Proof.
  intros Hv. unfold htonl, be32. apply host_word. repeat (apply Forall_cons; split; [apply u8_range|]). done.
Qed.
Lemma be_val_be32 v : is_u32 v → be_val (be32 v) = v.
Proof. intros Hv. change (from_be (be32 v) = v). rewrite from_be_be32. by apply wrap_small. Qed.

Lemma addr_word_ok ma : wf_addr ma → ∃ w, addr_word little ma = Ret w ∧ ntohl little w = be_val (take 4 (ma_addr ma)).
Proof.
  intros (Hl & Hb & _). unfold addr_word. unfold MR_MAX_ADDR_LEN in Hl. rewrite decide_True by lia. eexists. split; [done|].
  destruct (ma_addr ma) as [|a [|b [|c [|d t]]]]; cbn in Hl; try lia. cbn [take]. apply ntohl_word.
  repeat (apply Forall_cons in Hb as [? Hb]). by repeat (apply Forall_cons; split; [done|]).
Qed.

(** Setting the first bytes. *)
Lemma set_addr_wf len type netbits bs ma :
  wf_addr ma → Forall is_byte bs → (length bs ≤ 20)%nat → is_byte type → is_byte netbits → 0 ≤ len ≤ 20 →
  wf_addr (set_addr len type netbits bs ma).
Proof.
  intros (Hl & Hb & _) Hbs Hn Ht Hnb Hlen. unfold wf_addr, set_addr, splice. cbn [ma_addr ma_type ma_netbits ma_len take app].
  rewrite take_0. cbn [app plus]. rewrite length_app, length_drop. unfold MR_MAX_ADDR_LEN in *. split; [lia|]. split; [|done].
  apply Forall_app. split; [done|]. by apply Forall_drop.
Qed.
Lemma set_addr_value len type netbits bs ma : Z.of_nat (length bs) = len → addr_value (set_addr len type netbits bs ma) = be_val bs.
Proof. intros <-. unfold addr_value, set_addr, splice. cbn [ma_addr ma_len]. rewrite take_0. cbn [app]. by rewrite Nat2Z.id, take_app_length. Qed.

Lemma mask_ok ma :
  ip_addr ma → 0 ≤ ma_netbits ma ≤ 128 →
  ∃ ma', mroute_addr_mask_host_bits little ma = Ret ma' ∧ wf_addr ma' ∧
    ma_len ma' = ma_len ma ∧ ma_type ma' = ma_type ma ∧ ma_netbits ma' = ma_netbits ma ∧
    addr_value ma' = clear_host (addr_width ma) (ma_netbits ma) (addr_value ma).
Proof.
  intros [Hw Hf] Hn. pose proof (addr_value_range _ Hw) as Hr. unfold mroute_addr_mask_host_bits.
  destruct (addr_word_ok ma Hw) as (w & -> & Hword). bret. destruct Hf as [[Hf Hl]|[Hf Hl]]; unfold family in Hf.
  - rewrite Hf, decide_True by done. rewrite Hword.
    assert (be_val (take 4 (ma_addr ma)) = addr_value ma) as -> by (unfold addr_value; by rewrite Hl).
    unfold addr_width in *. rewrite Hl in *. change (8 * 4) with 32 in *. rewrite netmask_land by lia.
    assert (is_u32 (clear_host 32 (ma_netbits ma) (addr_value ma))) as Hu.
    { unfold clear_host, is_u32. destruct (decide (ma_netbits ma ≤ 32)); [|lia].
      pose proof (Z.mod_le (addr_value ma) (2 ^ (32 - ma_netbits ma)) ltac:(lia) ltac:(apply Z.pow_pos_nonneg; lia)).
      pose proof (Z.mod_pos_bound (addr_value ma) (2 ^ (32 - ma_netbits ma)) ltac:(apply Z.pow_pos_nonneg; lia)).
      change (2 ^ 32) with 4294967296 in Hr. lia. }
    rewrite htonl_bytes by done. eexists. split; [done|]. split; [|split; [done|]; split; [done|]; split; [done|]].
    + destruct Hw as (? & ? & ? & ? & ?). apply set_addr_wf; [done|apply be32_bytes|by rewrite length_be32; lia|done|done|lia].
    + rewrite set_addr_value by (by rewrite length_be32). by apply be_val_be32.
  - rewrite Hf. rewrite decide_False by done. rewrite decide_True by done. destruct Hw as (Hla & Hb & Ht & Hnb & _).
    rewrite Hl in *. unfold MR_MAX_ADDR_LEN in Hla. pose proof (take_drop 16 (ma_addr ma)) as Htd.
    destruct (mask_loop_ok (take 16 (ma_addr ma)) (128 - ma_netbits ma) (drop 16 (ma_addr ma)) (S (Z.to_nat 16))) as (t' & Hrun & Hlt & Hbt & Hv).
    { by apply Forall_take. } { rewrite length_take. lia. } { rewrite length_take. lia. }
    rewrite length_take in Hrun, Hlt. replace (Z.of_nat (16 `min` length (ma_addr ma)) - 1) with (16 - 1) in Hrun by lia.
    rewrite Htd in Hrun. rewrite Hrun. bret. rewrite ASSERT_ok by done. bret. eexists. split; [done|]. split; [|split; [done|]; split; [done|]; split; [done|]].
    + unfold wf_addr, MR_MAX_ADDR_LEN. cbn [ma_addr ma_type ma_netbits ma_len]. rewrite length_app, length_drop. split; [lia|]. split; [|split; [done|]; split; [done|lia]].
      apply Forall_app. split; [done|]. by apply Forall_drop.
    + unfold addr_value at 1. cbn [ma_addr ma_len]. change (Z.to_nat 16) with 16%nat. rewrite take_app_length' by lia. rewrite Hv.
      unfold clear_host, addr_width, addr_value. rewrite Hl. change (8 * 16) with 128. change (Z.to_nat 16) with 16%nat.
      by rewrite decide_True by lia.
Qed.
End host.

(** ** Addresses as keys *)

Lemma bind_cong {A B} (m m' : outcome A) (f g : A → outcome B) : m = m' → (∀ a, f a = g a) → (m ≫= f) = (m' ≫= g).
Proof. intros ->. apply bind_ext. Qed.
Lemma load_ext k k' p : k !! p = k' !! p → load k p = load k' p.
Proof. unfold load. by intros ->. Qed.
Lemma word_ext k k' p : (∀ i, (i < 4)%nat → k !! (p + i)%nat = k' !! (p + i)%nat) → word k p = word k' p.
Proof.
  intros H. unfold word. rewrite (load_ext k k' p) by (rewrite <- (Nat.add_0_r p); apply H; lia).
  by rewrite (load_ext k k' (p + 1)), (load_ext k k' (p + 2)), (load_ext k k' (p + 3)) by (apply H; lia).
Qed.
Lemma tail_byte_ext k k' p len i n x :
  (∀ j, Z.of_nat j < len → k !! (p + j)%nat = k' !! (p + j)%nat) → tail_byte k p len i n x = tail_byte k' p len i n x.
Proof. intros H. unfold tail_byte. case_decide; [|done]. by rewrite (load_ext k k') by (apply H; lia). Qed.

(** The hash depends on as many bytes as it is told. *)
Lemma hash_func_ext k k' len iv : (∀ i, Z.of_nat i < len → k !! i = k' !! i) → hash_func k len iv = hash_func k' len iv.
Proof.
  intros H. unfold hash_func. generalize (S (Z.to_nat (len / 12))) as fuel. intros fuel.
  assert (∀ p l abc, (Z.of_nat p + l = len) →
    loop fuel (hash_body k) (p, l, abc) = loop fuel (hash_body k') (p, l, abc) ∧
    ∀ p' l' abc', loop fuel (hash_body k') (p, l, abc) = Ret (p', l', abc') → Z.of_nat p' + l' = len) as Hl.
  { induction fuel as [|fuel IH]; intros p l [[a b] c] Hp; [done|]. rewrite !loop_S. cbn [hash_body]. case_decide.
    - rewrite (word_ext k k' p), (word_ext k k' (p + 4)), (word_ext k k' (p + 8)) by (intros i Hi; apply H; lia).
      destruct (word k' p) as [x| | |]; [bret|by split..].
      destruct (word k' (p + 4)) as [y| | |]; [bret|by split..].
      destruct (word k' (p + 8)) as [z| | |]; [bret|by split..]. apply IH. lia.
    - bret. split; [done|]. intros p' l' abc' E. injection E as <- <- <-. done. }
  destruct (Hl 0%nat len (2654435769, 2654435769, iv)) as [-> Hr]; [lia|].
  destruct (loop fuel (hash_body k') _) as [[[p l] [[a b] c]]| | |]; [|done..]. specialize (Hr _ _ _ eq_refl). bret. cbv zeta.
  repeat (apply bind_cong; [apply tail_byte_ext; intros j Hj; apply H; lia|intros ?]). done.
Qed.

Lemma addr_equal_spec a1 a2 : mroute_addr_equal a1 a2 = true ↔
  ma_type a1 = ma_type a2 ∧ ma_netbits a1 = ma_netbits a2 ∧ ma_len a1 = ma_len a2 ∧
  take (Z.to_nat (ma_len a1)) (ma_addr a1) = take (Z.to_nat (ma_len a1)) (ma_addr a2).
Proof. unfold mroute_addr_equal. repeat case_decide; rewrite ?bool_decide_eq_true; naive_solver. Qed.

#[export] Instance mroute_addr_laws : HashLaws mroute_addr.
Proof.
  split; cbn; unfold mroute_addr_compare_function.
  - intros k. by apply addr_equal_spec.
  - intros k k' (H1 & H2 & H3 & H4)%addr_equal_spec. apply addr_equal_spec. rewrite <- H3. done.
  - intros k1 k2 k3 (H1 & H2 & H3 & H4)%addr_equal_spec (I1 & I2 & I3 & I4)%addr_equal_spec.
    apply addr_equal_spec. rewrite H1, H2, H3. rewrite H3 in H4. by rewrite H4.
  - intros k k' iv (H1 & H2 & H3 & H4)%addr_equal_spec. unfold mroute_addr_hash_function, mroute_addr_hash_len.
    rewrite <- H3. rewrite (hash_func_ext (mroute_addr_hash_ptr k) (mroute_addr_hash_ptr k')); [done|].
    intros i Hi. unfold mroute_addr_hash_ptr. destruct i as [|[|i]]; cbn; [by rewrite H1|by rewrite H2|].
    assert (i < Z.to_nat (ma_len k))%nat as Hlt by lia.
    by rewrite <- (lookup_take_lt (ma_addr k) (Z.to_nat (ma_len k))), H4, lookup_take_lt by done.
Qed.

(** The hash of a well-formed address is computed. *)
Lemma addr_hash_ok a iv : wf_addr a → is_u32 iv → ∃ h, mroute_addr_hash_function a iv = Ret h ∧ is_u32 h.
Proof.
  intros (Hl & _ & _ & _ & Hlen) Hiv. apply hash_func_ok; [|done]. unfold mroute_addr_hash_len, mroute_addr_hash_ptr, MR_MAX_ADDR_LEN in *.
  cbn [length]. lia.
Qed.

(** ** The prefix lengths in use *)

(** The lengths below [n] with a reference, the longest first. *)
Fixpoint used_below (counts : list Z) (n : nat) : list Z :=
  match n with
  | O => []
  | S i => if decide (nth i counts 0 > 0) then Z.of_nat i :: used_below counts i else used_below counts i
  end.
Definition used (mh : mroute_helper) : list Z := used_below (net_len_refcount mh) MR_HELPER_NET_LEN.
Definition count_of (n : Z) (mh : mroute_helper) : Z := nth (Z.to_nat n) (net_len_refcount mh) 0.

Definition helper_ok (mh : mroute_helper) : Prop :=
  length (net_len_refcount mh) = MR_HELPER_NET_LEN ∧ length (net_len mh) = MR_HELPER_NET_LEN ∧
  Forall (λ c, 0 ≤ c ≤ INT_MAX) (net_len_refcount mh) ∧ n_net_len mh = Z.of_nat (length (used mh)) ∧
  take (length (used mh)) (net_len mh) = used mh ∧ is_u32 (cache_generation mh).

Lemma used_below_length counts n : (length (used_below counts n) ≤ n)%nat.
Proof. induction n as [|n IH]; cbn; [done|]. case_decide; cbn; lia. Qed.
Lemma elem_of_used counts n x : x ∈ used_below counts n ↔ 0 ≤ x < Z.of_nat n ∧ nth (Z.to_nat x) counts 0 > 0.
Proof.
  induction n as [|n IH]; cbn [used_below]; [split; [by intros H%elem_of_nil|lia]|].
  destruct (decide (nth n counts 0 > 0)) as [Hn|Hn].
  - rewrite elem_of_cons, IH. split.
    + intros [->|[Hx Hc]]; [rewrite Nat2Z.id; split; [lia|done]|split; [lia|done]].
    + intros [Hx Hc]. destruct (decide (x = Z.of_nat n)) as [->|]; [by left|right]. split; [lia|done].
  - rewrite IH. split; [intros [Hx Hc]; split; [lia|done]|]. intros [Hx Hc]. split; [|done].
    destruct (decide (x = Z.of_nat n)) as [->|]; [|lia]. by rewrite Nat2Z.id in Hc.
Qed.
Lemma used_sorted counts n : StronglySorted (λ a b, a > b) (used_below counts n).
Proof.
  induction n as [|n IH]; cbn; [constructor|]. case_decide; [|done]. constructor; [done|].
  apply Forall_forall. intros x Hx%elem_of_used. lia.
Qed.
Lemma used_ext counts counts' n : (∀ i, (i < n)%nat → nth i counts 0 > 0 ↔ nth i counts' 0 > 0) → used_below counts n = used_below counts' n.
Proof.
  induction n as [|n IH]; cbn; [done|]. intros H. rewrite IH by (intros; apply H; lia).
  pose proof (H n ltac:(lia)). destruct (decide (nth n counts 0 > 0)), (decide (nth n counts' 0 > 0)); tauto || done.
Qed.

Lemma regenerate_loop_ok counts n : ∀ j lens,
  (n ≤ length counts)%nat → (j + n ≤ length lens)%nat → (n ≤ 256)%nat →
  regenerate_loop counts n j lens =
  Ret ((j + length (used_below counts n))%nat,
       take j lens ++ used_below counts n ++ drop (j + length (used_below counts n)) lens).
Proof.
  induction n as [|n IH]; intros j lens Hc Hl Hn; cbn [regenerate_loop used_below].
  { cbn. rewrite Nat.add_0_r. by rewrite take_drop. }
  unfold array_get. destruct (lookup_lt_is_Some_2 counts n) as [c Hcn]; [lia|]. rewrite Hcn. cbn [of_option]. bret.
  rewrite nth_lookup, Hcn. cbn [default from_option id]. destruct (decide (c > 0)) as [Hpos|Hpos].
  - rewrite array_set_ok by lia. bret. rewrite IH by (rewrite ?length_insert; lia). cbn [length].
    rewrite (wrap_small 8) by lia. f_equal. f_equal; [lia|].
    assert (take (S j) (<[j := Z.of_nat n]> lens) = take j lens ++ [Z.of_nat n]) as ->.
    { rewrite (take_S_r _ _ (Z.of_nat n)) by (apply list_lookup_insert_eq; lia). by rewrite take_insert_ge by lia. }
    rewrite <- app_assoc. cbn [app]. do 3 f_equal. rewrite drop_insert_lt by lia. f_equal. lia.
  - by rewrite IH by lia.
Qed.

Lemma regenerate_ok mh :
  length (net_len_refcount mh) = MR_HELPER_NET_LEN → length (net_len mh) = MR_HELPER_NET_LEN →
  Forall (λ c, 0 ≤ c ≤ INT_MAX) (net_len_refcount mh) → is_u32 (cache_generation mh) →
  ∃ mh', mroute_helper_regenerate mh = Ret mh' ∧ helper_ok mh' ∧ net_len_refcount mh' = net_len_refcount mh ∧
    cache_generation mh' = cache_generation mh ∧ ageable_ttl_secs mh' = ageable_ttl_secs mh.
Proof.
  intros Hc Hl Hp Hg. unfold mroute_helper_regenerate, helper_ok, used.
  assert (MR_HELPER_NET_LEN ≤ 256)%nat as Hle by (unfold MR_HELPER_NET_LEN; lia).
  generalize dependent MR_HELPER_NET_LEN. intros N Hc Hl Hle.
  rewrite regenerate_loop_ok by lia. bret. eexists. split; [done|]. split; [|done].
  pose proof (used_below_length (net_len_refcount mh) N) as Hu.
  cbn [net_len_refcount net_len n_net_len cache_generation].
  rewrite take_0, Nat.add_0_l. cbn [app]. split; [done|]. split; [rewrite length_app, length_drop; lia|].
  split; [done|]. split; [done|]. split; [|done]. by rewrite take_app_length.
Qed.

Lemma helper_init_ok ttl : helper_ok (mroute_helper_init ttl).
Proof.
  unfold helper_ok, used. split; [done|]. split; [done|]. split; [apply Forall_replicate; ints; lia|]. split; [done|]. split; [done|].
  cbn. unfold is_u32. lia.
Qed.

Lemma nth_insert_eq (l : list Z) i x : (i < length l)%nat → nth i (<[i := x]> l) 0 = x.
Proof. intros H. rewrite nth_lookup, list_lookup_insert_eq by done. done. Qed.
Lemma nth_insert_ne (l : list Z) i j x : i ≠ j → nth j (<[i := x]> l) 0 = nth j l 0.
Proof. intros H. by rewrite !nth_lookup, list_lookup_insert_ne. Qed.

Lemma set_count_ok n c mh : helper_ok mh → 0 ≤ n < 129 →
  set_count n c mh = Ret (MH (u32 (cache_generation mh + 1)) (ageable_ttl_secs mh) (n_net_len mh) (net_len mh)
    (<[Z.to_nat n := c]> (net_len_refcount mh))).
Proof. intros (Hc & _) Hn. unfold set_count. unfold MR_HELPER_NET_LEN in Hc. rewrite array_set_ok by lia. by bret. Qed.
Lemma count_get n mh : helper_ok mh → 0 ≤ n < 129 → array_get (net_len_refcount mh) (Z.to_nat n) = Ret (count_of n mh) ∧ 0 ≤ count_of n mh ≤ INT_MAX.
Proof.
  intros (Hc & _ & Hp & _) Hn. unfold MR_HELPER_NET_LEN in Hc. unfold array_get, count_of.
  destruct (lookup_lt_is_Some_2 (net_len_refcount mh) (Z.to_nat n)) as [c Hcn]; [lia|]. rewrite nth_lookup, Hcn. split; [done|].
  cbn. rewrite Forall_lookup in Hp. by apply (Hp _ _ Hcn).
Qed.

(** A helper with one count changed to [c], regenerated when it has to be. *)
Lemma recount_ok n c (regen : bool) mh :
  helper_ok mh → 0 ≤ n < 129 → 0 ≤ c ≤ INT_MAX → (regen = false → c > 0 ↔ count_of n mh > 0) →
  ∃ mh', (mh ← set_count n c mh; if regen then mroute_helper_regenerate mh else Ret mh) = Ret mh' ∧ helper_ok mh' ∧
    (∀ k, 0 ≤ k → count_of k mh' = if decide (k = n) then c else count_of k mh) ∧
    cache_generation mh' = u32 (cache_generation mh + 1) ∧ ageable_ttl_secs mh' = ageable_ttl_secs mh.
Proof.
  intros Hok Hn Hc Hr. rewrite set_count_ok by done. bret. pose proof Hok as (Hlc & Hll & Hp & Hnn & Htk & Hg).
  set (mh1 := MH _ _ _ _ _).
  assert (∀ k, 0 ≤ k → count_of k mh1 = if decide (k = n) then c else count_of k mh) as Hcount.
  { intros k Hk. unfold count_of, mh1. cbn. case_decide as Hkn.
    - subst k. apply nth_insert_eq. unfold MR_HELPER_NET_LEN in Hlc. lia.
    - apply nth_insert_ne. lia. }
  assert (Forall (λ c, 0 ≤ c ≤ INT_MAX) (net_len_refcount mh1)) as Hp1 by (by apply Forall_insert).
  destruct regen.
  - destruct (regenerate_ok mh1) as (mh' & -> & Hok' & Hcs & Hg' & Ht); [cbn; by rewrite length_insert|done|done|apply u32_range|].
    exists mh'. split; [done|]. split; [done|]. split; [|by rewrite Hg', Ht]. intros k Hk. rewrite <- Hcount by done.
    unfold count_of. by rewrite Hcs.
  - exists mh1. split; [done|]. split; [|done].
    assert (used mh1 = used mh) as Hu.
    { apply used_ext. intros i Hi. specialize (Hcount (Z.of_nat i) ltac:(lia)). specialize (Hr eq_refl).
      unfold count_of in Hcount, Hr. rewrite Nat2Z.id in Hcount. rewrite Hcount. case_decide as Hin; [|done]. rewrite <- Hin, Nat2Z.id in Hr. done. }
    split; [cbn; by rewrite length_insert|]. split; [done|]. split; [done|]. rewrite Hu. split; [done|]. split; [done|]. apply u32_range.
Qed.

Lemma add_netbits_ok n mh :
  helper_ok mh → 0 ≤ n < 129 → count_of n mh < INT_MAX →
  ∃ mh', add_netbits n mh = Ret mh' ∧ helper_ok mh' ∧
    (∀ k, 0 ≤ k → count_of k mh' = count_of k mh + if decide (k = n) then 1 else 0) ∧
    cache_generation mh' = u32 (cache_generation mh + 1) ∧ ageable_ttl_secs mh' = ageable_ttl_secs mh.
Proof.
  intros Hok Hn Hmax. unfold add_netbits. rewrite ASSERT_ok by (unfold MR_HELPER_NET_LEN; lia). bret.
  destruct (count_get n mh Hok Hn) as [-> Hc]. bret. rewrite int_ok by (ints; lia). bret.
  destruct (recount_ok n (count_of n mh + 1) (bool_decide (count_of n mh + 1 = 1)) mh) as (mh' & E & Hok' & Hk & Hg); [done|done|lia| |].
  { intros H%bool_decide_eq_false. lia. }
  exists mh'. split; [|split; [done|split; [|done]]].
  - rewrite <- E. apply bind_ext. intros mh1. by case_bool_decide; case_decide.
  - intros k H0. rewrite Hk by done. destruct (decide (k = n)) as [->|]; lia.
Qed.
Lemma del_netbits_ok n mh :
  helper_ok mh → 0 ≤ n < 129 → 0 < count_of n mh →
  ∃ mh', del_netbits n mh = Ret mh' ∧ helper_ok mh' ∧
    (∀ k, 0 ≤ k → count_of k mh' = count_of k mh - if decide (k = n) then 1 else 0) ∧
    cache_generation mh' = u32 (cache_generation mh + 1) ∧ ageable_ttl_secs mh' = ageable_ttl_secs mh.
Proof.
  intros Hok Hn Hpos. unfold del_netbits. rewrite ASSERT_ok by (unfold MR_HELPER_NET_LEN; lia). bret.
  destruct (count_get n mh Hok Hn) as [-> Hc]. bret.
  rewrite int_ok by (ints; lia). bret.
  destruct (recount_ok n (count_of n mh - 1) (bool_decide (count_of n mh - 1 = 0)) mh) as (mh' & E & Hok' & Hk & Hg); [done|done|ints; lia| |].
  { intros H%bool_decide_eq_false. lia. }
  exists mh'. split; [|split; [done|split; [|done]]].
  - rewrite <- E. apply bind_ext. intros mh1. rewrite ASSERT_ok by lia. bret. by case_bool_decide; case_decide.
  - intros k H0. rewrite Hk by done. destruct (decide (k = n)) as [->|]; lia.
Qed.

Lemma count_used n mh : helper_ok mh → 0 ≤ n < 129 → n ∈ used mh ↔ 0 < count_of n mh.
Proof. intros _ Hn. unfold used. rewrite elem_of_used. unfold MR_HELPER_NET_LEN, count_of. lia. Qed.

(** ** Networks and their lengths *)

Lemma netmask_to_netbits_ok v n : 0 ≤ n ≤ 32 → 0 ≤ v < 2 ^ 32 →
  netmask_to_netbits v (netbits_to_netmask n) =
  if decide (clear_host 32 n v = v) then Some (if decide (n = 32) then -1 else n) else None.
Proof.
  intros Hn Hv. unfold netmask_to_netbits. rewrite netmask_land by lia.
  destruct (decide (clear_host 32 n v = v)); [|done]. apply netbits_loop_ok; lia.
Qed.
Lemma netbits_loop_inv m n i r : 0 ≤ i → i + Z.of_nat n ≤ 33 → netbits_loop m n i = Some r →
  ∃ k, 0 ≤ k ≤ 32 ∧ m = netbits_to_netmask k ∧ r = if decide (k = 32) then -1 else k.
Proof.
  revert i. induction n as [|n IH]; intros i Hi Hn; cbn [netbits_loop]; [done|]. case_decide as Hm.
  - intros [= <-]. exists i. split; [lia|]. done.
  - apply IH; lia.
Qed.
Lemma netmask_to_netbits_inv v m r : 0 ≤ v < 2 ^ 32 → netmask_to_netbits v m = Some r →
  -1 ≤ r < 32 ∧ ∃ k, 0 ≤ k ≤ 32 ∧ m = netbits_to_netmask k ∧ clear_host 32 k v = v ∧ r = if decide (k = 32) then -1 else k.
Proof.
  intros Hv. unfold netmask_to_netbits. case_decide as Hm; [|done]. intros (k & Hk & -> & ->)%netbits_loop_inv; [|lia..].
  rewrite netmask_land in Hm by lia. split; [case_decide; lia|]. by exists k.
Qed.

(** ** Which addresses are learned *)

Definition learnable (ma : mroute_addr) : bool :=
  let a := take (Z.to_nat (ma_len ma)) (ma_addr ma) in
  existsb (λ b, negb (bool_decide (b = 0))) a && existsb (λ b, negb (bool_decide (b = 255))) a &&
  negb (bool_decide (family ma = MR_ADDR_ETHER) && negb (bool_decide (Z.land (nth 0 (ma_addr ma) 0) 1 = 0))).

Lemma learnable_loop_ok ma n : ∀ pre rest st,
  ma_addr ma = pre ++ rest → (n ≤ length rest)%nat →
  for_ n (length pre) (learnable_body ma) st =
  Ret (st.1 || existsb (λ b, negb (bool_decide (b = 0))) (take n rest), st.2 || existsb (λ b, negb (bool_decide (b = 255))) (take n rest)).
Proof.
  induction n as [|n IH]; intros pre rest [z o] Ha Hn; cbn [for_].
  { rewrite take_0. cbn. by rewrite !orb_false_r. }
  destruct rest as [|b rest]; cbn in Hn; [lia|]. 
  assert (learnable_body ma (length pre) (z, o) = Ret (if decide (b ≠ 0) then true else z, if decide (b ≠ 255) then true else o)) as ->.
  { unfold learnable_body, array_get. by rewrite Ha, list_lookup_middle. }
  bret. cbn [fst snd take existsb].
  pose proof (IH (pre ++ [b]) rest (if decide (b ≠ 0) then true else z, if decide (b ≠ 255) then true else o)) as H.
  rewrite length_app, Nat.add_1_r in H. rewrite H; [|by rewrite <- app_assoc|lia]. cbn [fst snd].
  assert (∀ k y, (if decide (b ≠ k) then true else y) = y || negb (bool_decide (b = k))) as Hk.
  { intros k y. destruct (decide (b = k)) as [->|Hne].
    - rewrite bool_decide_true by done. rewrite decide_False by (intros Hn'; by apply Hn'). by destruct y.
    - rewrite bool_decide_false by done. rewrite decide_True by done. by destruct y. }
  by rewrite !Hk, !orb_assoc.
Qed.
Lemma learnable_ok ma : wf_addr ma → mroute_learnable_address ma = Ret (learnable ma).
Proof.
  intros (Hl & Hb & _ & _ & Hlen). unfold mroute_learnable_address, learnable. unfold MR_MAX_ADDR_LEN in Hl.
  pose proof (learnable_loop_ok ma (Z.to_nat (ma_len ma)) [] (ma_addr ma) (false, false) eq_refl ltac:(lia)) as H.
  cbn [length fst snd orb] in H. rewrite H. bret. destruct (_ && _); [|done]. unfold is_mac_mcast_maddr, family, is_mac_mcast_addr, array_get.
  destruct (decide (Z.land (ma_type ma) MR_ADDR_MASK = MR_ADDR_ETHER)) as [He|He];
    [rewrite bool_decide_true by done|by rewrite bool_decide_false].
  destruct (ma_addr ma) as [|x t]; [done|]. done.
Qed.

(** ** The addresses of a packet *)

Section packets.
Context (little : bool).

Lemma mcast_word a b c d : Forall is_byte [a; b; c; d] →
  mroute_is_mcast little (host little [a; b; c; d]) = bool_decide (Z.land a 240 = 224).
Proof.
  intros Hb. repeat (apply Forall_cons in Hb as [? Hb]). unfold mroute_is_mcast. apply bool_decide_ext.
  assert (Z.land a 240 = 16 * (a / 16)) as Ha.
  { pose proof (byte_all (λ a, Z.land a 240 =? 16 * (a / 16)) eq_refl a ltac:(done)) as Hq. by apply Z.eqb_eq in Hq. }
  destruct little; unfold host, from_be; cbn [rev app foldl].
  - set (v := 256 * _ + a).
    change (htonl true IP_MCAST_SUBNET_MASK) with 240. change (htonl true IP_MCAST_NETWORK) with 224.
    assert (Z.land v 240 = Z.land a 240) as ->; [|done].
    change 240 with (Z.land (Z.ones 8) 240). rewrite !Z.land_assoc, !Z.land_ones by lia. f_equal. ints.
    subst v. change (2 ^ 8) with 256. rewrite Z.add_comm, Z.mul_comm, Z.mod_add by lia. done.
  - set (v := 256 * _ + d).
    change (htonl false IP_MCAST_SUBNET_MASK) with (Z.shiftl (Z.ones 4) 28). change (htonl false IP_MCAST_NETWORK) with 3758096384.
    assert (v = 16777216 * a + (65536 * b + 256 * c + d)) as Hv by (subst v; lia). ints.
    rewrite land_high by (change (2 ^ (4 + 28)) with 4294967296; lia). change (2 ^ 28) with 268435456.
    pose proof (Z.div_mod v 268435456 ltac:(lia)). pose proof (Z.mod_pos_bound v 268435456 ltac:(lia)).
    pose proof (Z.div_mod a 16 ltac:(lia)). pose proof (Z.mod_pos_bound a 16 ltac:(lia)). rewrite Ha.
    assert (v / 268435456 = a / 16) by (symmetry; apply (Z.div_unique _ _ _ (16777216 * (a mod 16) + (65536 * b + 256 * c + d))); lia).
    lia.
Qed.

Lemma slice_4 c i : (i + 4 ≤ length c)%nat → slice i 4 c = [nth i c 0; nth (i + 1) c 0; nth (i + 2) c 0; nth (i + 3) c 0].
Proof.
  intros H. unfold slice. rewrite <- (take_drop i c) at 2 3 4 5. set (t := drop i c).
  assert (length (take i c) = i) as Hl by (rewrite length_take; lia).
  assert (4 ≤ length t)%nat as Ht by (subst t; rewrite length_drop; lia).
  rewrite !app_nth2 by lia. rewrite Hl. replace (i - i)%nat with 0%nat by lia. replace (i + 1 - i)%nat with 1%nat by lia.
  replace (i + 2 - i)%nat with 2%nat by lia. replace (i + 3 - i)%nat with 3%nat by lia.
  by destruct t as [|? [|? [|? [|? t]]]]; cbn in Ht; try lia.
Qed.
Lemma slice_bytes i n c : Forall is_byte c → Forall is_byte (slice i n c).
Proof. intros. unfold slice. by apply Forall_take, Forall_drop. Qed.
Lemma length_slice {A} i n (c : list A) : (i + n ≤ length c)%nat → length (slice i n c) = n.
Proof. intros. unfold slice. rewrite length_take, length_drop. lia. Qed.

Lemma load32_field pre c post i :
  Forall is_byte c → (i + 4 ≤ length c)%nat →
  load32 little (Z.of_nat (length pre) + Z.of_nat i) (mkbuf pre c post) = Ret (host little (slice i 4 c), mkbuf pre c post).
Proof.
  intros Hb Hi. unfold load32. rewrite bindM_run. pose proof (peek_n_at pre c post i 4 Hi) as H. change (Z.of_nat 4) with 4 in H.
  rewrite H. by bret.
Qed.
Lemma host_slice c i : Forall is_byte c → (i + 4 ≤ length c)%nat →
  host32_bytes little (host little (slice i 4 c)) = slice i 4 c ∧
  mroute_is_mcast little (host little (slice i 4 c)) = bool_decide (Z.land (nth i c 0) 240 = 224).
Proof.
  intros Hb Hi. pose proof (slice_bytes i 4 c Hb) as Hs. rewrite slice_4 in Hs |- * by done. split; [by apply host_word|].
  by apply mcast_word.
Qed.

Definition flag (b : bool) (f : Z) : Z := if b then f else 0.
(** What an IP packet says. *)
Definition ip_addrs (c : list Z) (src dest : option mroute_addr) : addrs :=
  let v := OPENVPN_IPH_GET_VER (nth 0 c 0) in
  if decide (v = 4 ∧ (20 ≤ length c)%nat) then
    (flag (bool_decide (Z.land (nth 16 c 0) 240 = 224)) 4 + flag (bool_decide (nth 9 c 0 = 2)) 8 + 1,
     set_addr 4 2 0 (slice 12 4 c) <$> src, set_addr 4 2 0 (slice 16 4 c) <$> dest)
  else if decide (v = 6 ∧ (40 ≤ length c)%nat) then
    (flag (bool_decide (nth 24 c 0 = 255)) 4 + 1, set_addr 16 3 0 (slice 8 16 c) <$> src, set_addr 16 3 0 (slice 24 16 c) <$> dest)
  else (0, src, dest).

Lemma extract_ipv4_ok pre c post src dest :
  Forall is_byte c →
  mroute_extract_addr_ipv4 little src dest (mkbuf pre c post) = Ret (ip_addrs c src dest, mkbuf pre c post).
Proof.
  intros Hb. unfold mroute_extract_addr_ipv4, ip_addrs. rewrite bindM_run. unfold get. bret. rewrite buf_len_mk.
  change (offset (mkbuf pre c post)) with (Z.of_nat (length pre)). destruct (decide (Z.of_nat (length c) >= 1)) as [H1|H1].
  2:{ rewrite !decide_False by lia. done. }
  rewrite bindM_run. pose proof (peek_field pre c post 0 Hb ltac:(lia)) as Hp. rewrite Z.add_0_r in Hp. rewrite Hp. bret.
  set (v := OPENVPN_IPH_GET_VER (nth 0 c 0)). change sizeof_iphdr with 20. change sizeof_ipv6hdr with 40.
  change ip_saddr with (Z.of_nat 12). change ip_daddr with (Z.of_nat 16). change ip_protocol with (Z.of_nat 9).
  change ip6_saddr with (Z.of_nat 8). change ip6_daddr with (Z.of_nat 24).
  destruct (decide (v = 4)) as [Hv|Hv].
  - destruct (decide (Z.of_nat (length c) >= 20)) as [H20|H20].
    2:{ rewrite !(decide_False (P := _ ∧ _)) by lia. done. }
    rewrite decide_True by lia.
    erewrite bindM_Ret by (apply load32_field; done || lia). erewrite bindM_Ret by (apply load32_field; done || lia).
    erewrite bindM_Ret by (apply peek_field; done || lia). unfold mroute_get_in_addr_t.
    destruct (host_slice c 12 Hb ltac:(lia)) as [-> _]. destruct (host_slice c 16 Hb ltac:(lia)) as [-> ->].
    unfold mret, M_ret. do 3 f_equal. f_equal. change OPENVPN_IPPROTO_IGMP with 2.
    unfold flag. repeat case_bool_decide; case_decide; done.
  - rewrite (decide_False (P := v = 4 ∧ _)) by tauto. destruct (decide (v = 6)) as [Hv6|Hv6].
    + destruct (decide (Z.of_nat (length c) >= 40)) as [H40|H40].
      2:{ rewrite !(decide_False (P := _ ∧ _)) by lia. done. }
      rewrite decide_True by lia. change 16 with (Z.of_nat 16) at 1 2.
      erewrite bindM_Ret by (apply peek_n_at; lia). erewrite bindM_Ret by (apply peek_n_at; lia).
      assert (mroute_is_mcast_ipv6 (slice 24 16 c) = Ret (bool_decide (nth 24 c 0 = 255))) as Hm.
      { unfold mroute_is_mcast_ipv6, array_get, slice. rewrite lookup_take_lt, lookup_drop by lia.
        destruct (nth_byte c 24 Hb ltac:(lia)) as [H24 _]. change (24 + 0)%nat with 24%nat. by rewrite H24. }
      erewrite bindM_lift by exact Hm. unfold mret, M_ret, mroute_get_in6_addr. do 3 f_equal. f_equal. unfold flag. by case_bool_decide.
    + by rewrite (decide_False (P := v = 6 ∧ _)) by tauto.
Qed.

(** What an ARP packet says. *)
Definition arp_addrs (c : list Z) (src dest : option mroute_addr) : addrs :=
  if decide ((28 ≤ length c)%nat ∧ take 6 c = [0; 1; 8; 0; 6; 4]) then
    (flag (bool_decide (Z.land (nth 24 c 0) 240 = 224)) 4 + 1, set_addr 4 18 0 (slice 14 4 c) <$> src, set_addr 4 18 0 (slice 24 4 c) <$> dest)
  else (0, src, dest).

Lemma host16_inj a b x y : Forall is_byte [a; b; x; y] → host little [a; b] = host little [x; y] ↔ a = x ∧ b = y.
Proof.
  intros Hb. repeat (apply Forall_cons in Hb as [? Hb]). ints. unfold host, from_be. destruct little; cbn; lia.
Qed.
Lemma take_6 c : (6 ≤ length c)%nat → take 6 c = [nth 0 c 0; nth 1 c 0; nth 2 c 0; nth 3 c 0; nth 4 c 0; nth 5 c 0].
Proof. intros H. by destruct c as [|? [|? [|? [|? [|? [|? c]]]]]]; cbn in H; try lia. Qed.

Lemma extract_arp_ok pre c post src dest :
  Forall is_byte c →
  mroute_extract_addr_arp little src dest (mkbuf pre c post) = Ret (arp_addrs c src dest, mkbuf pre c post).
Proof.
  intros Hb. unfold mroute_extract_addr_arp, arp_addrs. rewrite bindM_run. unfold get. bret. rewrite buf_len_mk.
  change (offset (mkbuf pre c post)) with (Z.of_nat (length pre)). change sizeof_arp with 28.
  destruct (decide (Z.of_nat (length c) >= 28)) as [H1|H1]; [|by rewrite decide_False by lia].
  change arp_mac_addr_type with (Z.of_nat 0). change arp_proto_addr_type with (Z.of_nat 2).
  change arp_mac_addr_size with (Z.of_nat 4). change arp_proto_addr_size with (Z.of_nat 5).
  change arp_ip_src with (Z.of_nat 14). change arp_ip_dest with (Z.of_nat 24).
  erewrite bindM_Ret by (apply load16_field; done || lia). erewrite bindM_Ret by (apply load16_field; done || lia).
  erewrite bindM_Ret by (apply peek_field; done || lia). erewrite bindM_Ret by (apply peek_field; done || lia).
  change (htons little 1) with (host little [0; 1]). change (htons little 2048) with (host little [8; 0]).
  rewrite take_6 by lia.
  assert (∀ i, (i < 28)%nat → is_byte (nth i c 0)) as Hn by (intros i Hi; apply nth_byte; [done|lia]).
  assert (host little [nth 0 c 0; nth 1 c 0] = host little [0; 1] ↔ nth 0 c 0 = 0 ∧ nth 1 c 0 = 1) as E1.
  { apply host16_inj. repeat (apply Forall_cons; split; [first [apply Hn; lia|ints; lia]|]). done. }
  assert (host little [nth 2 c 0; nth 3 c 0] = host little [8; 0] ↔ nth 2 c 0 = 8 ∧ nth 3 c 0 = 0) as E2.
  { apply host16_inj. repeat (apply Forall_cons; split; [first [apply Hn; lia|ints; lia]|]). done. }
  match goal with |- context [decide (?A ∧ ?B ∧ ?C ∧ ?D)] => destruct (decide (A ∧ B ∧ C ∧ D)) as [(I1 & I2 & I3 & I4)|Hno] end.
  - apply E1 in I1 as [I1 I1']. apply E2 in I2 as [I2 I2']. rewrite decide_True by (split; [lia|congruence]).
    erewrite bindM_Ret by (apply load32_field; done || lia). erewrite bindM_Ret by (apply load32_field; done || lia).
    destruct (host_slice c 14 Hb ltac:(lia)) as [Es _]. destruct (host_slice c 24 Hb ltac:(lia)) as [Ed Em].
    unfold mroute_get_in_addr_t, mret, M_ret. rewrite Es, Ed, Em. do 3 f_equal. f_equal. unfold flag. by case_bool_decide.
  - rewrite decide_False; [done|]. intros [_ E]. injection E as I0 I1 I2 I3 I4 I5. apply Hno. by rewrite E1, E2.
Qed.

(** Reading does not depend on where the content begins. *)
Lemma load16_data b b' p v : data b = data b' → load16 little p b = Ret (v, b) → load16 little p b' = Ret (v, b').
Proof.
  unfold load16, peek_n. rewrite !bindM_run. intros <-. destruct (data b) as [d|]; [|done]. cbn [of_option]. rewrite !bind_Ret.
  destruct (decide _); [|done]. bret. unfold mret, M_ret. by intros [= ->].
Qed.

(** What a frame says, and the packet in it when it is asked for. *)
Definition ether_addrs (c : list Z) (src dest esrc edest : option mroute_addr) : addrs * option mroute_addr * option mroute_addr :=
  if decide (14 ≤ length c)%nat then
    let ret := flag (bool_decide (dest ≠ None ∧ Z.land (nth 0 c 0) 1 ≠ 0)) 2 + 1 in
    let src := set_addr 6 1 0 (slice 6 6 c) <$> src in
    let dest := set_addr 6 1 0 (slice 0 6 c) <$> dest in
    if decide (esrc ≠ None ∨ edest ≠ None) then
      let proto := 256 * nth 12 c 0 + nth 13 c 0 in
      let '(sec, esrc, edest) :=
        if decide (proto = 2048) then ip_addrs (drop 14 c) esrc edest
        else if decide (proto = 2054) then arp_addrs (drop 14 c) esrc edest
        else (0, esrc, edest) in
      (Z.lor ret (Z.shiftl sec 4), src, dest, esrc, edest)
    else (ret, src, dest, esrc, edest)
  else (0, src, dest, esrc, edest).

Lemma extract_ether_ok pre c post src dest esrc edest :
  Forall is_byte c →
  mroute_extract_addr_ether little src dest esrc edest (mkbuf pre c post) = Ret (ether_addrs c src dest esrc edest, mkbuf pre c post).
Proof.
  intros Hb. unfold mroute_extract_addr_ether, ether_addrs. rewrite bindM_run. unfold get. bret. rewrite buf_len_mk.
  change (offset (mkbuf pre c post)) with (Z.of_nat (length pre)). change sizeof_ethhdr with 14.
  destruct (decide (Z.of_nat (length c) >= 14)) as [H1|H1]; [|by rewrite decide_False by lia]. rewrite decide_True by lia.
  change eth_source with (Z.of_nat 6). change eth_dest with (Z.of_nat 0). change eth_proto with (Z.of_nat 12).
  erewrite bindM_Ret by (change 6 with (Z.of_nat 6); apply peek_n_at; lia).
  erewrite bindM_Ret by (change 6 with (Z.of_nat 6); apply peek_n_at; lia).
  assert (is_mac_mcast_addr (slice 0 6 c) = Ret (negb (bool_decide (Z.land (nth 0 c 0) 1 = 0)))) as Hm.
  { unfold is_mac_mcast_addr, array_get, slice. rewrite drop_0, lookup_take_lt by lia.
    destruct (nth_byte c 0 Hb ltac:(lia)) as [-> _]. done. }
  assert ((match dest with Some _ => is_mac_mcast_addr (slice 0 6 c) | None => Ret false end) =
    Ret (bool_decide (dest ≠ None ∧ Z.land (nth 0 c 0) 1 ≠ 0))) as Hd.
  { destruct dest; [rewrite Hm; f_equal; repeat case_bool_decide; naive_solver|]. by rewrite bool_decide_false by naive_solver. }
  erewrite bindM_lift by exact Hd.
  assert ((let ret := if bool_decide (dest ≠ None ∧ Z.land (nth 0 c 0) 1 ≠ 0) then Z.lor 0 MROUTE_EXTRACT_BCAST else 0 in
    Z.lor ret MROUTE_EXTRACT_SUCCEEDED) = flag (bool_decide (dest ≠ None ∧ Z.land (nth 0 c 0) 1 ≠ 0)) 2 + 1) as Hret
    by (unfold flag; by case_bool_decide).
  cbv zeta in Hret |- *. rewrite Hret. destruct (decide (esrc ≠ None ∨ edest ≠ None)); [|done].
  set (sec := if decide (256 * nth 12 c 0 + nth 13 c 0 = 2048) then _ else _).
  rewrite (bindM_Ret _ _ _ sec (mkbuf pre c post)); [clearbody sec; by destruct sec as [[? ?] ?]|].
  assert (length (drop 14 c) = (length c - 14)%nat) as Hl by (by rewrite length_drop).
  rewrite <- (take_drop 14 c) at 2. change 14 with (Z.of_nat 14). apply on_copy_segment; [lia|done|].
  assert (load16 little (Z.of_nat (length pre) + Z.of_nat 12) (mkbuf (pre ++ take 14 c) (drop 14 c) post) =
    Ret (host little [nth 12 c 0; nth 13 c 0], mkbuf (pre ++ take 14 c) (drop 14 c) post)) as Hproto.
  { apply (load16_data (mkbuf pre c post)); [|apply load16_field; done || lia]. cbn [mkbuf data].
    by rewrite <- app_assoc, (app_assoc (take 14 c)), take_drop. }
  erewrite bindM_Ret by exact Hproto. rewrite ntohs_host by (apply nth_byte; done || lia).
  unfold sec. change OPENVPN_ETH_P_IPV4 with 2048. change OPENVPN_ETH_P_ARP with 2054.
  destruct (decide (_ = 2048)); [apply extract_ipv4_ok; by apply Forall_drop|].
  destruct (decide (_ = 2054)); [apply extract_arp_ok; by apply Forall_drop|done].
Qed.
End packets.
