(* ===== verification/OvpnPf.v ===== *)
(** * OpenVPN: packet filters of clients

    Models [openvpn/src/src/openvpn/pf.c] with the tests of [pf-inline.h], the common name
    of a session as [ssl_verify.c] and [ssl_verify.h] keep it, and [openvpn_inet_aton] of
    [socket.c].

    A string is the bytes before its NUL, in an array all the bytes of the array.  The
    linked lists of rules are lists; what is freed is left out, and so are messages. *)
From S2P Require Import Prelude OvpnBuffer OvpnPacketId OvpnList OvpnProto OvpnMroute.
#[local] Open Scope bool_scope.
#[local] Open Scope Z_scope.

(** ** Common names *)

Record tls_session := TlsName { common_name : option (list Z); common_name_hashval : Z }.

Definition set_common_name (name : option (list Z)) (session : tls_session) : outcome tls_session :=
  let session := match common_name session with Some _ => TlsName None 0 | None => session end in
  match name with
  | Some cn =>
      h ← (if decide (cn ≠ []) then hash_func (cn ++ [0]) (Z.of_nat (length cn) + 1) 0 else Ret 0);
      Ret (TlsName (Some cn) h)
  | None => Ret session
  end.
(** The active session of a [struct tls_multi]. *)
Definition tls_common_name_hash (multi : option tls_session) : option (list Z * Z) :=
  match multi with
  | Some s =>
      match common_name s with
      | Some cn => if decide (cn ≠ []) then Some (cn, common_name_hashval s) else None
      | None => None
      end
  | None => None
  end.

(** ** The sets of rules *)

Record ipv4_subnet := Subnet { sn_exclude : bool; sn_network : Z; sn_netmask : Z }.
Record pf_subnet_set := Sns { sns_default_allow : bool; sns_list : list ipv4_subnet }.
Record pf_cn := PfCn { pc_exclude : bool; pc_cn : list Z }.
#[export] Instance pf_cn_eq_dec : EqDecision pf_cn.
Proof. solve_decision. Defined.

Definition cname : Type := list Z.
Definition cn_hash_function (key : cname) (iv : Z) : outcome Z := hash_func (key ++ [0]) (Z.of_nat (length key) + 1) iv.
Definition cn_compare_function (key1 key2 : cname) : bool := bool_decide (key1 = key2).
#[export] Instance cname_hashable : Hashable cname := {|
  hash_function key iv := match cn_hash_function key iv with Ret h => h | _ => 0 end;
  compare_function := cn_compare_function;
|}.

Record pf_cn_set := Cns { cns_default_allow : bool; cns_list : list pf_cn; cns_hash_table : option (hash cname pf_cn) }.
Record pf_set := PfSet { pf_kill : bool; pf_sns : pf_subnet_set; pf_cns : pf_cn_set }.
Record pf_context := PfContext { pf_enabled : bool; pf_pfs : option pf_set }.

Definition pf_kill_test (pfs : pf_set) : bool := pf_kill pfs.

(** ** Reading a rule *)

(** [sscanf] with [%u]: blanks, a sign, digits.  A number that does not fit is undefined;
    [None] when there is none, else the number and what follows it. *)
Fixpoint skip_space (s : list Z) : list Z :=
  match s with c :: t => if isspace c then skip_space t else s | [] => [] end.
Fixpoint digits (s : list Z) (v : Z) : Z * list Z :=
  match s with c :: t => if isdigit c then digits t (10 * v + (c - 48)) else (v, s) | [] => (v, []) end.
Definition scan_number (s : list Z) : option (Z * list Z) :=
  let s := skip_space s in
  let '(neg, s) := match s with c :: t => if decide (c = 45) then (true, t) else if decide (c = 43) then (false, t) else (false, s) | [] => (false, []) end in
  match s with
  | c :: _ => if isdigit c then let '(v, t) := digits s 0 in Some (if neg : bool then - v else v, t) else None
  | [] => None
  end.
Definition scan_u (s : list Z) : outcome (option (Z * list Z)) :=
  match scan_number s with
  | Some (v, t) => if decide (- 4294967295 ≤ v ≤ 4294967295) then Ret (Some (u32 v, t)) else Undef
  | None => Ret None
  end.
Definition scan_d (s : list Z) : outcome (option (Z * list Z)) :=
  match scan_number s with
  | Some (v, t) => if decide (INT_MIN ≤ v ≤ INT_MAX) then Ret (Some (v, t)) else Undef
  | None => Ret None
  end.
(** [.%u] after a number; [None] as soon as something does not match. *)
Definition scan_dot (r : option (list Z * list Z)) : outcome (option (list Z * list Z)) :=
  match r with
  | Some (ns, c :: t) =>
      if decide (c = 46) then
        n ← scan_u t;
        Ret (match n with Some (n, t) => Some (ns ++ [n], t) | None => None end)
      else Ret None
  | _ => Ret None
  end.
Definition scan_quad (s : list Z) : outcome (option (list Z)) :=
  a ← scan_u s;
  r ← scan_dot (match a with Some (a, t) => Some ([a], t) | None => None end);
  r ← scan_dot r;
  r ← scan_dot r;
  Ret (match r with Some (ns, _) => Some ns | None => None end).

Definition OIA_HOSTNAME : Z := 0.
Definition OIA_IP : Z := 1.
Definition OIA_ERROR : Z := -1.
Definition CC_DIGIT_DOT (c : Z) : bool := isdigit c || bool_decide (c = 46).
(** The address is the number it is in host order. *)
Definition openvpn_inet_aton (dotted_quad : list Z) : outcome (Z * Z) :=
  q ← scan_quad dotted_quad;
  let bad := if forallb CC_DIGIT_DOT dotted_quad then OIA_ERROR else OIA_HOSTNAME in
  match q with
  | Some [a; b; c; d] =>
      if decide (a < 256 ∧ b < 256 ∧ c < 256 ∧ d < 256)
      then Ret (OIA_IP, Z.lor (Z.lor (Z.lor (Z.shiftl a 24) (Z.shiftl b 16)) (Z.shiftl c 8)) d)
      else Ret (bad, 0)
  | _ => Ret (bad, 0)
  end.

(** The part before the first [c], and the part after it. *)
Fixpoint split_at (c : Z) (s : list Z) : option (list Z * list Z) :=
  match s with
  | [] => None
  | x :: t =>
      if decide (x = c) then Some ([], t)
      else match split_at c t with Some (u, v) => Some (x :: u, v) | None => None end
  end.

Definition add_client (line : list Z) (exclude : bool) (l : list pf_cn) : list pf_cn := l ++ [PfCn exclude line].

(** "unknown" *)
Definition str_unknown : list Z := [117; 110; 107; 110; 111; 119; 110].
(** [None] where the C result is false. *)
Definition add_subnet (line : list Z) (exclude : bool) (l : list ipv4_subnet) : outcome (option (list ipv4_subnet)) :=
  if decide (line ≠ str_unknown) then
    let '(line, div) := match split_at 47 line with Some (line, div) => (line, Some div) | None => (line, None) end in
    netbits ← (match div with
               | Some div =>
                   n ← scan_d div;
                   Ret (match n with
                        | Some (n, _) => if decide (n < 0 ∨ n > 32) then None else Some n
                        | None => None
                        end)
               | None => Ret (Some 32)
               end);
    match netbits with
    | None => Ret None
    | Some netbits =>
        '(r, network) ← openvpn_inet_aton line;
        if decide (r ≠ OIA_IP) then Ret None
        else
          let netmask := netbits_to_netmask netbits in
          Ret (Some (l ++ [Subnet exclude (Z.land network netmask) netmask]))
    end
  else Ret (Some (l ++ [Subnet exclude 0 IPV4_NETMASK_HOST])).

(** ** The table of common names *)

Fixpoint genhash_loop (l : list pf_cn) (h : hash cname pf_cn) (status : bool) : outcome (hash cname pf_cn * bool) :=
  match l with
  | [] => Ret (h, status)
  | e :: l =>
      '(ok, h) ← hash_add (pc_cn e : cname) e false h;
      genhash_loop l h (if ok : bool then status else false)
  end.
Definition genhash (cns : pf_cn_set) (n_clients : Z) : outcome (bool * pf_cn_set) :=
  let n_buckets := if decide (n_clients < 16) then 16 else n_clients in
  h ← hash_init n_buckets 0;
  '(h, status) ← genhash_loop (cns_list cns) h true;
  Ret (status, Cns (cns_default_allow cns) (cns_list cns) (Some h)).

(** ** Reading a set *)

Definition PF_MAX_LINE_LEN : nat := 256.
Definition MODE_UNDEF : Z := 0.
Definition MODE_CLIENTS : Z := 1.
Definition MODE_SUBNETS : Z := 2.

Record pf_parser := Parser {
  pp_mode : Z;
  pp_n_clients : Z;
  pp_n_errors : Z;
  pp_cn_default : bool;
  pp_cns : list pf_cn;
  pp_sn_default : bool;
  pp_sns : list ipv4_subnet;
}.
(** How the loop over the lines ends. *)
Inductive pf_end := EndOfLines | GotoDone | GotoKill.

Definition to_lower (c : Z) : Z := if decide (65 ≤ c ≤ 90) then c + 32 else c.
(** [!strcasecmp]. *)
Definition same_nocase (s t : list Z) : bool := bool_decide (map to_lower s = map to_lower t).

(** "[clients accept]" *)
Definition tag_clients_accept : list Z := [91; 99; 108; 105; 101; 110; 116; 115; 32; 97; 99; 99; 101; 112; 116; 93].
(** "[clients drop]" *)
Definition tag_clients_drop : list Z := [91; 99; 108; 105; 101; 110; 116; 115; 32; 100; 114; 111; 112; 93].
(** "[subnets accept]" *)
Definition tag_subnets_accept : list Z := [91; 115; 117; 98; 110; 101; 116; 115; 32; 97; 99; 99; 101; 112; 116; 93].
(** "[subnets drop]" *)
Definition tag_subnets_drop : list Z := [91; 115; 117; 98; 110; 101; 116; 115; 32; 100; 114; 111; 112; 93].
(** "[end]" *)
Definition tag_end : list Z := [91; 101; 110; 100; 93].
(** "[kill]" *)
Definition tag_kill : list Z := [91; 107; 105; 108; 108; 93].

Definition set_mode (mode : Z) (cn_default sn_default : bool) (p : pf_parser) : pf_parser :=
  Parser mode (pp_n_clients p) (pp_n_errors p) cn_default (pp_cns p) sn_default (pp_sns p).
Definition pf_error (p : pf_parser) : outcome pf_parser :=
  n ← int (pp_n_errors p + 1);
  Ret (Parser (pp_mode p) (pp_n_clients p) n (pp_cn_default p) (pp_cns p) (pp_sn_default p) (pp_sns p)).

(** A line after its [+] or [-]. *)
Definition pf_rule (line : list Z) (exclude : bool) (p : pf_parser) : outcome pf_parser :=
  if decide (line = []) then pf_error p
  else if decide (pp_mode p = MODE_CLIENTS) then
    n ← int (pp_n_clients p + 1);
    Ret (Parser (pp_mode p) n (pp_n_errors p) (pp_cn_default p) (add_client line exclude (pp_cns p)) (pp_sn_default p) (pp_sns p))
  else if decide (pp_mode p = MODE_SUBNETS) then
    l ← add_subnet line exclude (pp_sns p);
    match l with
    | Some l => Ret (Parser (pp_mode p) (pp_n_clients p) (pp_n_errors p) (pp_cn_default p) (pp_cns p) (pp_sn_default p) l)
    | None => pf_error p
    end
  else if decide (pp_mode p = MODE_UNDEF) then Ret p
  else Abort.

(** A line, after its trailing blanks have been cut. *)
Definition pf_line (allow_kill : bool) (line : list Z) (p : pf_parser) : outcome (pf_end * pf_parser) :=
  match line with
  | [] => Ret (EndOfLines, p)
  | c :: rest =>
      if decide (c = 35) then Ret (EndOfLines, p)
      else if decide (c = 43 ∨ c = 45) then
        p ← pf_rule rest (bool_decide (c = 45)) p;
        Ret (EndOfLines, p)
      else if decide (c = 91) then
        if same_nocase line tag_clients_accept then Ret (EndOfLines, set_mode MODE_CLIENTS true (pp_sn_default p) p)
        else if same_nocase line tag_clients_drop then Ret (EndOfLines, set_mode MODE_CLIENTS false (pp_sn_default p) p)
        else if same_nocase line tag_subnets_accept then Ret (EndOfLines, set_mode MODE_SUBNETS (pp_cn_default p) true p)
        else if same_nocase line tag_subnets_drop then Ret (EndOfLines, set_mode MODE_SUBNETS (pp_cn_default p) false p)
        else if same_nocase line tag_end then Ret (GotoDone, p)
        else if allow_kill && same_nocase line tag_kill then Ret (GotoKill, p)
        else p ← pf_error (set_mode MODE_UNDEF (pp_cn_default p) (pp_sn_default p) p); Ret (EndOfLines, p)
      else p ← pf_error p; Ret (EndOfLines, p)
  end.

(** [BSTR(&be->buf)]: the string at the content of the entry; what follows the content is read too. *)
Definition entry_string (e : buffer) : outcome (list Z) :=
  p ← of_option (buf_bptr e);
  d ← of_option (data e);
  let s := drop (Z.to_nat p) d in
  n ← strlen_at s;
  Ret (take n s).
(** The array [line], and the string in it. *)
Definition pf_read_line (e : buffer) : outcome (list Z) :=
  s ← entry_string e;
  line ← rm_trailing_chars (strncpynt_bytes s PF_MAX_LINE_LEN) [13; 10; 9; 32];
  n ← strlen_at line;
  Ret (take n line).
Fixpoint pf_lines (allow_kill : bool) (es : list buffer) (p : pf_parser) : outcome (pf_end * pf_parser) :=
  match es with
  | [] => Ret (EndOfLines, p)
  | e :: es =>
      line ← pf_read_line e;
      '(r, p) ← pf_line allow_kill line p;
      match r with EndOfLines => pf_lines allow_kill es p | _ => Ret (r, p) end
  end.

Definition pf_init (bl : option buffer_list) (allow_kill : bool) : outcome (option pf_set) :=
  match bl with
  | Some bl =>
      '(r, p) ← pf_lines allow_kill (bl_entries bl) (Parser MODE_UNDEF 0 0 false [] false []);
      match r with
      | GotoKill => Ret (Some (PfSet true (Sns false []) (Cns false [] None)))
      | _ =>
          p ← (match r with EndOfLines => pf_error p | _ => Ret p end);
          let cns := Cns (pp_cn_default p) (pp_cns p) None in
          '(ok, cns) ← (if decide (pp_n_errors p = 0) then genhash cns (pp_n_clients p) else Ret (false, cns));
          Ret (if ok : bool then Some (PfSet false (Sns (pp_sn_default p) (pp_sns p)) cns) else None)
      end
  | None => Ret None
  end.
Definition pf_load_from_buffer_list (config : option buffer_list) (c : pf_context) : outcome (bool * pf_context) :=
  pfs ← pf_init config false;
  Ret (match pfs with Some pfs => (true, PfContext (pf_enabled c) (Some pfs)) | None => (false, c) end).

(** ** The tests *)

(** The lookup moves the rule to the front of its bucket. *)
Definition lookup_cn_rule (h : hash cname pf_cn) (cn : cname) (cn_hash : Z) : outcome (option pf_cn * hash cname pf_cn) :=
  let i := bucket_index h cn_hash in
  b ← of_option (buckets h !! i);
  '(he, b) ← hash_lookup_fast cn cn_hash b;
  Ret (fmap (M := option) he_value he, set_bucket i b (n_elements h) h).

Definition set_table (h : hash cname pf_cn) (pfs : pf_set) : pf_set :=
  PfSet (pf_kill pfs) (pf_sns pfs) (Cns (cns_default_allow (pf_cns pfs)) (cns_list (pf_cns pfs)) (Some h)).
Definition pf_cn_test (pfs : option pf_set) (tm : option tls_session) : outcome (bool * option pf_set) :=
  match pfs with
  | Some s =>
      if pf_kill s then Ret (false, pfs)
      else
        match tls_common_name_hash tm with
        | Some (cn, cn_hash) =>
            h ← of_option (cns_hash_table (pf_cns s));
            '(rule, h) ← lookup_cn_rule h cn cn_hash;
            Ret (match rule with Some rule => negb (pc_exclude rule) | None => cns_default_allow (pf_cns s) end,
                 Some (set_table h s))
        | None => Ret (false, pfs)
        end
  | None => Ret (false, pfs)
  end.

(** One half of [pf_c2c_test]: the filter of one end against the name of the other. *)
Definition pf_end_test (pf : pf_context) (tm : option tls_session) : outcome (bool * pf_context) :=
  if pf_enabled pf then '(ok, pfs) ← pf_cn_test (pf_pfs pf) tm; Ret (ok, PfContext (pf_enabled pf) pfs)
  else Ret (true, pf).

Fixpoint subnet_walk (l : list ipv4_subnet) (addr : Z) (default : bool) : bool :=
  match l with
  | [] => default
  | se :: l => if decide (Z.land addr (sn_netmask se) = sn_network se) then negb (sn_exclude se) else subnet_walk l addr default
  end.
Definition pf_addr_test_dowork (little : bool) (src : pf_context) (dest : mroute_addr) : outcome bool :=
  match pf_pfs src with
  | Some pfs =>
      if pf_kill pfs then Ret false
      else
        addr ← in_addr_t_from_mroute_addr little dest;
        Ret (subnet_walk (sns_list (pf_sns pfs)) addr (sns_default_allow (pf_sns pfs)))
  | None => Ret false
  end.
Definition pf_addr_test (little : bool) (src : pf_context) (dest : mroute_addr) : outcome bool :=
  if pf_enabled src then pf_addr_test_dowork little src dest else Ret true.
