(* ===== verification/OvpnPfProofs.v ===== *)
(** * OpenVPN: packet filters, proved

    The table of common names is the list of rules by name ([names_ok]); reading a filter
    that is written out gives its rules back ([pf_init_written]).  The properties are at
    the end. *)
From S2P Require Import Prelude OvpnBuffer OvpnPacketId OvpnList OvpnProto OvpnProtoProofs OvpnMroute OvpnMrouteProofs OvpnPf.
#[local] Open Scope bool_scope.
#[local] Open Scope Z_scope.

(** ** Names as keys *)

#[export] Instance cname_laws : HashLaws cname.
Proof.
  split; cbn; unfold cn_compare_function.
  - intros k. by apply bool_decide_eq_true.
  - intros k k' ->%bool_decide_eq_true. by apply bool_decide_eq_true.
  - intros k1 k2 k3 ->%bool_decide_eq_true ->%bool_decide_eq_true. by apply bool_decide_eq_true.
  - by intros k k' iv ->%bool_decide_eq_true.
Qed.

Lemma cn_hash_ok (k : cname) iv : is_u32 iv → ∃ h, cn_hash_function k iv = Ret h ∧ is_u32 h.
Proof. intros. apply hash_func_ok; [rewrite length_app; cbn; lia|done]. Qed.

(** The first rule for a name. *)
Fixpoint rule_of (l : list pf_cn) (cn : list Z) : option pf_cn :=
  match l with
  | [] => None
  | e :: l => if decide (pc_cn e = cn) then Some e else rule_of l cn
  end.
Lemma rule_of_none l cn : rule_of l cn = None ↔ cn ∉ pc_cn <$> l.
Proof.
  induction l as [|e l IH]; cbn; [split; [by intros _ ?%elem_of_nil|done]|]. rewrite not_elem_of_cons. case_decide; [subst; naive_solver|].
  rewrite IH. naive_solver.
Qed.

(** The loop adds the first rule of each name, and tells whether there was another. *)
Lemma genhash_loop_ok l : ∀ h status,
  wf_hash h → n_elements h + Z.of_nat (length l) ≤ INT_MAX →
  ∃ h' status', genhash_loop l h status = Ret (h', status') ∧ wf_hash h' ∧ iv h' = iv h ∧
    (∀ k : cname, assoc h' k = match assoc h k with Some e => Some e | None => rule_of l k end) ∧
    (status' = true ↔ status = true ∧ NoDup (pc_cn <$> l) ∧ ∀ k : cname, k ∈ pc_cn <$> l → assoc h k = None).
Proof.
  induction l as [|e l IH]; intros h status Hw Hn; cbn [genhash_loop].
  { exists h, status. split; [done|]. split; [done|]. split; [done|]. split; [intros k; by destruct (assoc h k)|].
    split; [intros ->|tauto]. split; [done|]. split; [constructor|]. by intros k ?%elem_of_nil. }
  cbn [length] in Hn. destruct (assoc h (pc_cn e : cname)) as [e0|] eqn:Ea.
  - destruct (hash_add_old h (pc_cn e : cname) e e0 false Hw Ea) as (h1 & -> & Hw1 & Hiv1 & Hn1 & Ha1). bret.
    destruct (IH h1 false Hw1) as (h2 & st & -> & Hw2 & Hiv2 & Ha2 & Hst); [lia|]. exists h2, st. split; [done|]. split; [done|]. split; [congruence|].
    cbn [andb] in Ha1. split.
    + intros k. rewrite Ha2, Ha1. cbn. case_decide as Hk; [subst k; by rewrite Ea|done].
    + rewrite Hst. split; [by intros [? _]|]. intros (_ & _ & Hno). rewrite (Hno (pc_cn e)) in Ea; [done|by left].
  - destruct (hash_add_new h (pc_cn e : cname) e false Hw) as (h1 & -> & Hw1 & Hiv1 & Hn1 & Ha1); [unfold small; lia|done|]. bret.
    destruct (IH h1 status Hw1) as (h2 & st & -> & Hw2 & Hiv2 & Ha2 & Hst); [lia|]. exists h2, st. split; [done|]. split; [done|]. split; [congruence|].
    assert (∀ k : cname, assoc h1 k = if decide (pc_cn e = k) then Some e else assoc h k) as Ha1'.
    { intros k. rewrite Ha1. cbn. unfold cn_compare_function. case_decide; [by rewrite bool_decide_eq_true_2|by rewrite bool_decide_eq_false_2]. }
    split.
    + intros k. rewrite Ha2, Ha1'. cbn. case_decide as Hk; [subst k; by rewrite Ea|done].
    + rewrite Hst. cbn. rewrite NoDup_cons. split.
      * intros (-> & Hnd & Hno). split; [done|]. split; [split; [|done]|].
        -- intros Hin. specialize (Hno _ Hin). rewrite Ha1' in Hno. by rewrite decide_True in Hno.
        -- intros k [->|Hk]%elem_of_cons; [done|]. specialize (Hno k Hk). rewrite Ha1' in Hno. by case_decide.
      * intros (-> & [Hni Hnd] & Hno). split; [done|]. split; [done|]. intros k Hk. rewrite Ha1'. destruct (decide (pc_cn e = k)) as [<-|]; [done|].
        apply Hno. by right.
Qed.

(** The table says what the list says. *)
Definition names_ok (s : pf_cn_set) : Prop :=
  ∃ h, cns_hash_table s = Some h ∧ wf_hash h ∧ iv h = 0 ∧ ∀ k : cname, assoc h k = rule_of (cns_list s) k.

Lemma genhash_ok d l : Z.of_nat (length l) ≤ 2 ^ 30 →
  ∃ s, genhash (Cns d l None) (Z.of_nat (length l)) = Ret (bool_decide (NoDup (pc_cn <$> l)), s) ∧
    names_ok s ∧ cns_default_allow s = d ∧ cns_list s = l.
Proof.
  intros Hl. unfold genhash. change (2 ^ 30) with 1073741824 in Hl. cbn [cns_list cns_default_allow].
  destruct (hash_init_ok (K := cname) (V := pf_cn) (if decide (Z.of_nat (length l) < 16) then 16 else Z.of_nat (length l)) 0) as (h & E & Hw & _ & Hn & Ha).
  { change (2 ^ 30) with 1073741824. case_decide; lia. }
  assert (iv h = 0) as Hiv.
  { unfold hash_init in E. apply bind_Ret_inv in E as (? & _ & E). apply bind_Ret_inv in E as (? & _ & E). by injection E as <-. }
  rewrite E. bret. destruct (genhash_loop_ok l h true Hw) as (h' & st & -> & Hw' & Hiv' & Ha' & Hst); [ints; lia|]. bret.
  eexists. split; [do 2 f_equal|].
  - destruct (decide (NoDup (pc_cn <$> l))) as [Hnd|Hnd].
    + rewrite bool_decide_eq_true_2 by done. apply Hst. split; [done|]. split; [done|]. intros; apply Ha.
    + rewrite bool_decide_eq_false_2 by done. apply not_true_iff_false. intros (_ & ? & _)%Hst. done.
  - split; [|done]. exists h'. split; [done|]. split; [done|]. split; [congruence|]. intros k. by rewrite Ha', Ha.
Qed.

(** ** The tests *)

(** The hash of a session's name is that of its name. *)
Definition session_ok (tm : option tls_session) : Prop :=
  ∀ cn h, tls_common_name_hash tm = Some (cn, h) → cn_hash_function cn 0 = Ret h.
(** What the rules of [s] say of a session. *)
Definition name_verdict (s : pf_set) (tm : option tls_session) : bool :=
  if pf_kill s then false
  else match tls_common_name_hash tm with
       | Some (cn, _) => match rule_of (cns_list (pf_cns s)) cn with Some e => negb (pc_exclude e) | None => cns_default_allow (pf_cns s) end
       | None => false
       end.
Definition filter_ok (s : pf_set) : Prop := pf_kill s = true ∨ names_ok (pf_cns s).
(** Two sets with the same rules. *)
Definition same_rules (s s' : pf_set) : Prop :=
  pf_kill s' = pf_kill s ∧ pf_sns s' = pf_sns s ∧ cns_default_allow (pf_cns s') = cns_default_allow (pf_cns s) ∧ cns_list (pf_cns s') = cns_list (pf_cns s).

Lemma set_common_name_ok name ts :
  ∃ ts', set_common_name name ts = Ret ts' ∧ session_ok (Some ts') ∧ (∀ cn, name = Some cn → common_name ts' = Some cn).
Proof.
  unfold set_common_name. destruct name as [cn|].
  - destruct (decide (cn ≠ [])) as [Hcn|Hcn].
    + destruct (cn_hash_ok cn 0) as (h & E & _); [by split|]. unfold cn_hash_function in E. rewrite E. bret.
      eexists. split; [done|]. split; [|by intros ? [= <-]]. intros c h'. cbn. rewrite decide_True by done. by intros [= <- <-].
    + bret. eexists. split; [done|]. split; [|by intros ? [= <-]]. intros c h'. cbn. by rewrite decide_False.
  - eexists. split; [done|]. split; [|done]. intros c h'. cbn. destruct (common_name ts) eqn:E; cbn; [done|]. by rewrite E.
Qed.

Lemma cn_test_ok s tm : filter_ok s → session_ok tm →
  ∃ s', pf_cn_test (Some s) tm = Ret (name_verdict s tm, Some s') ∧ filter_ok s' ∧ same_rules s s'.
Proof.
  intros Hf Hs. unfold pf_cn_test, name_verdict. destruct (pf_kill s) eqn:Ek; [by exists s|].
  destruct Hf as [Hf|(h & Hh & Hw & Hiv & Ha)]; [congruence|].
  destruct (tls_common_name_hash tm) as [[cn hv]|] eqn:Et; [|exists s; split; [done|]; split; [right; by exists h|done]].
  rewrite Hh. cbn [of_option]. bret.
  assert (hv = hash_value h (cn : cname)) as ->.
  { pose proof (Hs _ _ Et) as E. unfold hash_value. cbn. by rewrite Hiv, E. }
  destruct (lookup_bucket_ok h (cn : cname) Hw) as (b & he & b' & Hb & E & [Hv _] & Hw' & _ & Has).
  unfold lookup_cn_rule. fold (key_index h (cn : cname)). rewrite Hb. cbn [of_option]. bret. rewrite E. bret.
  eexists. split; [by rewrite Hv, Ha|]. split; [right|done]. eexists. split; [done|]. split; [done|]. split; [done|].
  intros k. cbn. by rewrite Has, Ha.
Qed.

(** A filter, or none that is read yet. *)
Definition context_ok (pf : pf_context) : Prop := ∀ s, pf_pfs pf = Some s → filter_ok s.
Definition end_verdict (pf : pf_context) (tm : option tls_session) : bool :=
  negb (pf_enabled pf) || match pf_pfs pf with Some s => name_verdict s tm | None => false end.
(** What the rules of a client say of the other end of its packets, by the number the
    address is: 0 when it is not an IPv4 address. *)
Definition addr_number (a : mroute_addr) : Z :=
  if decide (family a = MR_ADDR_IPV4 ∧ ma_netbits a = 0 ∧ ma_len a = 4) then addr_value a else 0.
Definition addr_verdict (pf : pf_context) (v : Z) : bool :=
  negb (pf_enabled pf) ||
  match pf_pfs pf with
  | Some s => negb (pf_kill s) && subnet_walk (sns_list (pf_sns s)) v (sns_default_allow (pf_sns s))
  | None => false
  end.
Lemma addr_test_ok little pf a : wf_addr a → pf_addr_test little pf a = Ret (addr_verdict pf (addr_number a)).
Proof.
  intros Hw. unfold pf_addr_test, addr_verdict, pf_addr_test_dowork. destruct (pf_enabled pf); [|done]. cbn [negb orb].
  destruct (pf_pfs pf) as [s|]; [|done]. destruct (pf_kill s); [done|]. cbn [negb andb].
  unfold in_addr_t_from_mroute_addr, addr_number, family. case_decide as Hd; [|done].
  destruct (addr_word_ok little a Hw) as (w & -> & Ew). bret. destruct Hd as (_ & _ & Hl). unfold addr_value. by rewrite Hl, Ew.
Qed.

(** The same filter; only the order within its table may differ. *)
Record same_pf (pf pf' : pf_context) : Prop := {
  same_pf_ok : context_ok pf → context_ok pf';
  same_pf_enabled : pf_enabled pf' = pf_enabled pf;
  same_pf_names : ∀ tm, end_verdict pf' tm = end_verdict pf tm;
  same_pf_addrs : ∀ v, addr_verdict pf' v = addr_verdict pf v;
}.
Lemma same_pf_refl pf : same_pf pf pf.
Proof. by split. Qed.
Lemma same_pf_trans pf1 pf2 pf3 : same_pf pf1 pf2 → same_pf pf2 pf3 → same_pf pf1 pf3.
Proof. intros [A1 B1 C1 D1] [A2 B2 C2 D2]. split; [tauto|congruence|..]; intros; congruence. Qed.

Lemma end_test_ok pf tm : context_ok pf → session_ok tm →
  ∃ pf', pf_end_test pf tm = Ret (end_verdict pf tm, pf') ∧ same_pf pf pf'.
Proof.
  intros Hc Hs. unfold pf_end_test. destruct (pf_enabled pf) eqn:Een.
  2: { exists pf. split; [|apply same_pf_refl]. unfold end_verdict. by rewrite Een. }
  unfold end_verdict. rewrite Een. cbn [negb orb]. destruct (pf_pfs pf) as [s|] eqn:Es.
  - destruct (cn_test_ok s tm (Hc _ Es) Hs) as (s' & -> & Hf & (R1 & R2 & R3 & R4)). bret. eexists. split; [done|].
    split; [by intros _ ? [= <-]|by rewrite Een|..].
    + intros tm'. unfold end_verdict, name_verdict. cbn. by rewrite Een, Es, R1, R3, R4.
    + intros v. unfold addr_verdict. cbn. by rewrite Een, Es, R1, R2.
  - eexists. split; [done|]. split; [done|by rewrite Een|..]; intros; unfold end_verdict, addr_verdict; cbn; by rewrite Een, Es.
Qed.
