(* ===== verification/OvpnMulti.v ===== *)
(** * OpenVPN: the internal routing table of a server

    Models the routing of [openvpn/src/src/openvpn/multi.c] with the inline functions of
    [multi.h]: which client is behind a virtual address, how routes are learned, cached,
    aged and reaped, and where a packet between clients goes.

    Clients ([struct multi_instance]) and routes ([struct multi_route]) live in heaps,
    where freeing one deletes it: its use after that is undefined.  The table [vhash]
    maps addresses to names of routes.  The clock is an argument, and so is [script],
    the answer of the learn-address plugin and script to an operation. *)
From stdpp Require Import gmap.
From S2P Require Import Prelude OvpnBuffer OvpnPacketId OvpnFrame OvpnList OvpnMbuf OvpnProto OvpnMroute OvpnPf.
#[local] Open Scope bool_scope.
#[local] Open Scope Z_scope.

Definition MULTI_ROUTE_CACHE : Z := 1.
Definition MULTI_ROUTE_AGEABLE : Z := 2.

Record multi_route := Route {
  mr_addr : mroute_addr;
  mr_instance : nat;
  mr_flags : Z;
  mr_generation : Z;
  mr_last_reference : Z;
}.
Record multi_instance := Instance {
  mi_halt : bool;
  mi_refcount : Z;
  mi_route_count : Z;
  mi_did_iroutes : bool;
  mi_iroutes : list iroute;
  mi_iroutes_ipv6 : list iroute_ipv6;
  mi_max_routes : Z;
  mi_tls : option tls_session;
  mi_pf : pf_context;
  mi_deferred : option mbuf_set;
}.
Record multi_reap := Reap { bucket_base : Z; buckets_per_pass : Z; last_call : Z }.
Record multi_context := Multi {
  m_vhash : hash mroute_addr nat;
  m_routes : gmap nat multi_route;
  m_instances : gmap nat multi_instance;
  m_helper : mroute_helper;
  m_reaper : multi_reap;
  m_local : mroute_addr;
}.

Definition set_vhash (h : hash mroute_addr nat) (m : multi_context) : multi_context :=
  Multi h (m_routes m) (m_instances m) (m_helper m) (m_reaper m) (m_local m).
Definition set_routes (r : gmap nat multi_route) (m : multi_context) : multi_context :=
  Multi (m_vhash m) r (m_instances m) (m_helper m) (m_reaper m) (m_local m).
Definition set_instances (i : gmap nat multi_instance) (m : multi_context) : multi_context :=
  Multi (m_vhash m) (m_routes m) i (m_helper m) (m_reaper m) (m_local m).
Definition set_helper (h : mroute_helper) (m : multi_context) : multi_context :=
  Multi (m_vhash m) (m_routes m) (m_instances m) h (m_reaper m) (m_local m).
Definition set_reaper (r : multi_reap) (m : multi_context) : multi_context :=
  Multi (m_vhash m) (m_routes m) (m_instances m) (m_helper m) r (m_local m).

Definition set_counts (refcount route_count : Z) (i : multi_instance) : multi_instance :=
  Instance (mi_halt i) refcount route_count (mi_did_iroutes i) (mi_iroutes i) (mi_iroutes_ipv6 i)
    (mi_max_routes i) (mi_tls i) (mi_pf i) (mi_deferred i).
Definition set_halt (halt did_iroutes : bool) (i : multi_instance) : multi_instance :=
  Instance halt (mi_refcount i) (mi_route_count i) did_iroutes (mi_iroutes i) (mi_iroutes_ipv6 i)
    (mi_max_routes i) (mi_tls i) (mi_pf i) (mi_deferred i).
Definition set_pf (pf : pf_context) (i : multi_instance) : multi_instance :=
  Instance (mi_halt i) (mi_refcount i) (mi_route_count i) (mi_did_iroutes i) (mi_iroutes i) (mi_iroutes_ipv6 i)
    (mi_max_routes i) (mi_tls i) pf (mi_deferred i).

Definition get_instance (i : nat) (m : multi_context) : outcome multi_instance := of_option (m_instances m !! i).
Definition put_instance (i : nat) (x : multi_instance) (m : multi_context) : multi_context :=
  set_instances (<[i := x]> (m_instances m)) m.

(** ** References and quotas *)

Definition route_quota_inc (mi : nat) (m : multi_context) : outcome multi_context :=
  x ← get_instance mi m;
  n ← int (mi_route_count x + 1);
  Ret (put_instance mi (set_counts (mi_refcount x) n x) m).
Definition route_quota_dec (mi : nat) (m : multi_context) : outcome multi_context :=
  x ← get_instance mi m;
  n ← int (mi_route_count x - 1);
  Ret (put_instance mi (set_counts (mi_refcount x) n x) m).
Definition route_quota_test (mi : nat) (m : multi_context) : outcome bool :=
  x ← get_instance mi m;
  Ret (if decide (mi_route_count x >= mi_max_routes x) then false else true).

Definition multi_instance_inc_refcount (mi : nat) (m : multi_context) : outcome multi_context :=
  x ← get_instance mi m;
  n ← int (mi_refcount x + 1);
  Ret (put_instance mi (set_counts n (mi_route_count x) x) m).
Definition multi_instance_dec_refcount (mi : nat) (m : multi_context) : outcome multi_context :=
  x ← get_instance mi m;
  n ← int (mi_refcount x - 1);
  Ret (if decide (n ≤ 0) then set_instances (delete mi (m_instances m)) m
       else put_instance mi (set_counts n (mi_route_count x) x) m).

Definition multi_route_del (route : nat) (m : multi_context) : outcome multi_context :=
  r ← of_option (m_routes m !! route);
  let mi := mr_instance r in
  m ← route_quota_dec mi m;
  m ← multi_instance_dec_refcount mi m;
  Ret (set_routes (delete route (m_routes m)) m).

Definition multi_route_defined (now : Z) (m : multi_context) (r : multi_route) : outcome bool :=
  x ← get_instance (mr_instance r) m;
  Ret (if mi_halt x then false
       else if decide (Z.land (mr_flags r) MULTI_ROUTE_CACHE ≠ 0 ∧ mr_generation r ≠ cache_generation (m_helper m)) then false
       else if decide (Z.land (mr_flags r) MULTI_ROUTE_AGEABLE ≠ 0 ∧ mr_last_reference r + ageable_ttl_secs (m_helper m) < now) then false
       else true).

(** ** Learning a route *)

(** The operations the plugin or script is told of. *)
Inductive learn_op := LearnAdd | LearnUpdate | LearnDelete.

Section learn.
Context (little : bool) (script : option nat → learn_op → mroute_addr → bool).

Definition learn_address_script (mi : option nat) (op : learn_op) (addr : mroute_addr) : bool := script mi op addr.

(** [newroute] in the heap, with its reference and its share of the quota. *)
Definition alloc_route (mi : nat) (newroute : multi_route) (m : multi_context) : outcome (nat * multi_context) :=
  m ← multi_instance_inc_refcount mi m;
  m ← route_quota_inc mi m;
  let id := fresh (dom (m_routes m)) in
  Ret (id, set_routes (<[id := newroute]> (m_routes m)) m).

(** The owner of the route, and the state afterwards. *)
Definition multi_learn_addr (now : Z) (mi : nat) (addr : mroute_addr) (flags : Z) (m : multi_context) :
    outcome (option nat * multi_context) :=
  let hv := hash_value (m_vhash m) addr in
  let bucket := bucket_index (m_vhash m) hv in
  b ← of_option (buckets (m_vhash m) !! bucket);
  '(he, b) ← hash_lookup_fast addr hv b;
  let m := set_vhash (set_bucket bucket b (n_elements (m_vhash m)) (m_vhash m)) m in
  owner ← (match he with
           | Some he =>
               r ← of_option (m_routes m !! he_value he);
               def ← multi_route_defined now m r;
               Ret (if def : bool then Some (mr_instance r) else None)
           | None => Ret None
           end);
  ok ← (if decide (owner ≠ Some mi) then mroute_learnable_address addr else Ret false);
  if ok && negb (mroute_addr_equal addr (m_local m)) then
    let newroute := Route addr mi flags
      (if decide (Z.land flags MULTI_ROUTE_CACHE ≠ 0) then cache_generation (m_helper m) else 0) now in
    quota ← route_quota_test mi m;
    match he with
    | Some he =>
        if quota && learn_address_script (Some mi) LearnUpdate addr then
          '(id, m) ← alloc_route mi newroute m;
          m ← multi_route_del (he_value he) m;
          b ← of_option (buckets (m_vhash m) !! bucket);
          let h := set_bucket bucket (HE id (Some addr) (he_hash_value he) :: tail b) (n_elements (m_vhash m)) (m_vhash m) in
          Ret (Some mi, set_vhash h m)
        else Ret (owner, m)
    | None =>
        if quota && learn_address_script (Some mi) LearnAdd addr then
          '(id, m) ← alloc_route mi newroute m;
          h ← hash_add_fast bucket addr hv id (m_vhash m);
          Ret (Some mi, set_vhash h m)
        else Ret (owner, m)
    end
  else Ret (owner, m).

(** ** Looking an address up *)

(** A route and whether it is defined. *)
Definition find_route (now : Z) (addr : mroute_addr) (m : multi_context) : outcome (option (nat * multi_route) * multi_context) :=
  '(id, h) ← hash_lookup addr (m_vhash m);
  let m := set_vhash h m in
  match id with
  | Some id =>
      r ← of_option (m_routes m !! id);
      def ← multi_route_defined now m r;
      Ret (if def : bool then Some (id, r) else None, m)
  | None => Ret (None, m)
  end.

(** The cycle through the prefix lengths, with [lens] left of them. *)
Fixpoint cidr_loop (now : Z) (addr : mroute_addr) (lens : list Z) (m : multi_context) : outcome (option nat * multi_context) :=
  match lens with
  | [] => Ret (None, m)
  | n :: lens =>
      let tryaddr := MA (ma_len addr) (u8 (Z.lor (ma_type addr) MR_WITH_NETBITS)) n (ma_addr addr) in
      tryaddr ← mroute_addr_mask_host_bits little tryaddr;
      '(route, m) ← find_route now tryaddr m;
      match route with
      | Some (_, r) =>
          let mi := mr_instance r in
          '(_, m) ← multi_learn_addr now mi addr (Z.lor MULTI_ROUTE_CACHE MULTI_ROUTE_AGEABLE) m;
          Ret (Some mi, m)
      | None => cidr_loop now addr lens m
      end
  end.

Definition multi_get_instance_by_virtual_addr (now : Z) (addr : mroute_addr) (cidr_routing : bool) (m : multi_context) :
    outcome (option nat * multi_context) :=
  if mroute_addr_equal addr (m_local m) then Ret (None, m)
  else
    '(route, m) ← find_route now addr m;
    '(ret, m) ←
      (match route with
       | Some (id, r) =>
           let r' := Route (mr_addr r) (mr_instance r) (mr_flags r) (mr_generation r) now in
           Ret (Some (mr_instance r), set_routes (<[id := r']> (m_routes m)) m)
       | None =>
           if cidr_routing then cidr_loop now addr (take (Z.to_nat (n_net_len (m_helper m))) (net_len (m_helper m))) m
           else Ret (None, m)
       end);
    match ret with
    | Some mi => x ← get_instance mi m; ASSERT (mi_halt x = false);; Ret (ret, m)
    | None => Ret (ret, m)
    end.

(** ** The routes of a client *)

Definition multi_learn_in_addr_t (now : Z) (mi : nat) (a netbits : Z) (m : multi_context) : outcome (option nat * multi_context) :=
  let '(_, addr) := mroute_extract_openvpn_sockaddr (In4 (host32_bytes little (htonl little a)) [0; 0]) false mroute_addr_init in
  let addr := if decide (netbits >= 0) then MA (ma_len addr) (u8 (Z.lor (ma_type addr) MR_WITH_NETBITS)) (u8 netbits) (ma_addr addr) else addr in
  multi_learn_addr now mi addr 0 m.
(** [netbits6] came as an [unsigned int] and is an [int] here. *)
Definition multi_learn_in6_addr (now : Z) (mi : nat) (a6 : list Z) (netbits : Z) (m : multi_context) : outcome (option nat * multi_context) :=
  let addr := set_addr 16 MR_ADDR_IPV6 0 a6 mroute_addr_init in
  addr ← (if decide (netbits >= 0)
          then mroute_addr_mask_host_bits little (MA (ma_len addr) (u8 (Z.lor (ma_type addr) MR_WITH_NETBITS)) (u8 netbits) (ma_addr addr))
          else Ret addr);
  multi_learn_addr now mi addr 0 m.

Definition add_iroute (now : Z) (mi : nat) (ir : iroute) (m : multi_context) : outcome multi_context :=
  h ← mroute_helper_add_iroute ir (m_helper m);
  '(_, m) ← multi_learn_in_addr_t now mi (network ir) (netbits ir) (set_helper h m);
  Ret m.
Definition add_iroute6 (now : Z) (mi : nat) (ir6 : iroute_ipv6) (m : multi_context) : outcome multi_context :=
  h ← mroute_helper_add_iroute6 ir6 (m_helper m);
  '(_, m) ← multi_learn_in6_addr now mi (network6 ir6) (s32 (netbits6 ir6)) (set_helper h m);
  Ret m.
(** On a tun device. *)
Definition multi_add_iroutes (now : Z) (mi : nat) (m : multi_context) : outcome multi_context :=
  x ← get_instance mi m;
  let m := put_instance mi (set_halt (mi_halt x) true x) m in
  m ← foldM (add_iroute now mi) (mi_iroutes x) m;
  foldM (add_iroute6 now mi) (mi_iroutes_ipv6 x) m.
End learn.

Definition multi_del_iroutes (mi : nat) (m : multi_context) : outcome multi_context :=
  x ← get_instance mi m;
  h ← foldM mroute_helper_del_iroute (mi_iroutes x) (m_helper m);
  h ← foldM mroute_helper_del_iroute6 (mi_iroutes_ipv6 x) h;
  Ret (set_helper h m).

(** [multi_create_instance] and [multi_close_instance], as far as routes are concerned. *)
Definition multi_create_routing (x : multi_instance) (m : multi_context) : nat * multi_context :=
  let id := fresh (dom (m_instances m)) in
  (id, put_instance id (set_counts 1 0 (set_halt false false x)) m).
Definition multi_close_routing (mi : nat) (m : multi_context) : outcome multi_context :=
  x ← get_instance mi m;
  ASSERT (mi_halt x = false);;
  let m := put_instance mi (set_halt true (mi_did_iroutes x) x) m in
  m ← (if mi_did_iroutes x then
         m ← multi_del_iroutes mi m;
         y ← get_instance mi m;
         Ret (put_instance mi (set_halt (mi_halt y) false y) m)
       else Ret m);
  multi_instance_dec_refcount mi m.

(** ** Reaping *)

Definition REAP_DIVISOR : Z := 256.
Definition REAP_MIN : Z := 16.
Definition REAP_MAX : Z := 1024.
Definition reap_buckets_per_pass (n_buckets : Z) : Z := constrain_int (n_buckets / REAP_DIVISOR) REAP_MIN REAP_MAX.
Definition multi_reap_new (now buckets_per_pass : Z) : multi_reap := Reap 0 buckets_per_pass now.

(** A route of the range; deleted when it is no longer defined.  The script's answer to
    "delete" is not used. *)
Definition reap_body (now : Z) (m : multi_context) (he : hash_element mroute_addr nat) : outcome (multi_context * bool) :=
  r ← of_option (m_routes m !! he_value he);
  def ← multi_route_defined now m r;
  if def : bool then Ret (m, false) else m ← multi_route_del (he_value he) m; Ret (m, true).
Definition multi_reap_range (now start_bucket end_bucket : Z) (m : multi_context) : outcome multi_context :=
  let '(start_bucket, end_bucket) := if decide (start_bucket < 0) then (0, n_buckets (m_vhash m)) else (start_bucket, end_bucket) in
  hi ← hash_iterator_init_range (m_vhash m) start_bucket end_bucket;
  '(m, h) ← hash_walk (reap_body now) m (m_vhash m) hi;
  Ret (set_vhash h m).
Definition multi_reap_all (now : Z) (m : multi_context) : outcome multi_context := multi_reap_range now (-1) 0 m.
Definition multi_reap_process_dowork (now : Z) (m : multi_context) : outcome multi_context :=
  let mr := m_reaper m in
  let base := if decide (bucket_base mr >= n_buckets (m_vhash m)) then 0 else bucket_base mr in
  m ← multi_reap_range now base (base + buckets_per_pass mr) m;
  b ← int (base + buckets_per_pass mr);
  Ret (set_reaper (Reap b (buckets_per_pass mr) now) m).
Definition multi_reap_process (now : Z) (m : multi_context) : outcome multi_context :=
  if decide (last_call (m_reaper m) ≠ now) then multi_reap_process_dowork now m else Ret m.

Definition stale_body (now ageing_time : Z) (m : multi_context) (he : hash_element mroute_addr nat) : outcome (multi_context * bool) :=
  r ← of_option (m_routes m !! he_value he);
  def ← multi_route_defined now m r;
  if def && bool_decide (now - mr_last_reference r >= ageing_time)
  then m ← multi_route_del (he_value he) m; Ret (m, true) else Ret (m, false).
Definition check_stale_routes (now ageing_time : Z) (m : multi_context) : outcome multi_context :=
  hi ← hash_iterator_init_range (m_vhash m) 0 (n_buckets (m_vhash m));
  '(m, h) ← hash_walk (stale_body now ageing_time) m (m_vhash m) hi;
  Ret (set_vhash h m).

(** ** The table when the server starts *)

Definition MULTI_CACHE_ROUTE_TTL : Z := 60.

(** [multi_init], as far as routes are concerned; [random] is the table's. *)
Definition multi_init_routing (little : bool) (virtual_hash_size random now local : Z) : outcome multi_context :=
  h ← hash_init virtual_hash_size random;
  Ret (Multi h ∅ ∅ (mroute_helper_init MULTI_CACHE_ROUTE_TTL)
         (multi_reap_new now (reap_buckets_per_pass virtual_hash_size))
         (mroute_extract_in_addr_t little local mroute_addr_init)).
