(* ===== verification/OvpnMultiProofs.v ===== *)
(** * OpenVPN: the internal routing table of a server, proved

    Sums over heaps ([msum]), what the counters of a client count ([heap_ok]), how the
    table and the heap of routes correspond ([table_ok]), which prefix lengths are in use
    ([helper_inv]), and the two facts routing depends on: what a route to a network says
    ([nets_ok]) and what a cached route says ([caches_ok]). *)
From Stdlib Require Import Sorted.
From stdpp Require Import gmap.
From S2P Require Import Prelude OvpnBuffer OvpnPacketId OvpnFrame OvpnList OvpnMbuf OvpnPool OvpnProto OvpnProtoProofs OvpnMroute OvpnMrouteProofs OvpnPf OvpnMulti.
#[local] Open Scope bool_scope.
#[local] Open Scope Z_scope.

(** ** Sums over a heap *)

Definition msum {A} (f : A → Z) (m : gmap nat A) : Z := map_fold (λ _ x acc, f x + acc) 0 m.

Section msum.
Context {A : Type} (f : A → Z).
Implicit Types (m : gmap nat A).

Lemma msum_empty : msum f ∅ = 0.
Proof. done. Qed.
Lemma msum_insert m i x : m !! i = None → msum f (<[i := x]> m) = f x + msum f m.
Proof. intros. unfold msum. by rewrite (map_fold_insert_L (λ _ x acc, f x + acc) 0) by (done || (intros; lia)). Qed.
Lemma msum_delete m i x : m !! i = Some x → msum f (delete i m) = msum f m - f x.
Proof.
  intros Hi. unfold msum. rewrite (map_fold_delete_L (λ _ x acc, f x + acc) 0 i x m) by (done || (intros; lia)). lia.
Qed.
Lemma msum_update m i x y : m !! i = Some x → msum f (<[i := y]> m) = msum f m - f x + f y.
Proof.
  intros Hi. rewrite <- insert_delete_eq, msum_insert by apply lookup_delete_eq.
  rewrite (msum_delete _ _ x) by done. lia.
Qed.
Lemma msum_same m i x y : m !! i = Some x → f y = f x → msum f (<[i := y]> m) = msum f m.
Proof. intros Hi Hf. rewrite (msum_update _ _ x) by done. lia. Qed.
Lemma msum_nonneg m : (∀ x, 0 ≤ f x) → 0 ≤ msum f m.
Proof.
  intros Hf. induction m as [|i x m Hi IH] using map_ind; [done|].
  rewrite msum_insert by done. specialize (Hf x). lia.
Qed.
Lemma msum_le m i x : (∀ x, 0 ≤ f x) → m !! i = Some x → f x ≤ msum f m.
Proof.
  intros Hf Hi. pose proof (msum_nonneg (delete i m) Hf). rewrite (msum_delete _ _ x) in H by done. lia.
Qed.
Lemma msum_pos m : (∀ x, 0 ≤ f x) → 0 < msum f m → ∃ i x, m !! i = Some x ∧ 0 < f x.
Proof.
  intros Hf. induction m as [|i x m Hi IH] using map_ind; [rewrite msum_empty; lia|].
  rewrite msum_insert by done. intros Hp. destruct (decide (0 < f x)).
  - exists i, x. by rewrite lookup_insert_eq.
  - destruct IH as (j & y & Hj & Hy); [specialize (Hf x); lia|]. exists j, y. split; [|done].
    rewrite lookup_insert_ne; [done|]. intros ->. congruence.
Qed.
End msum.

(** ** Which routes are in force *)

Definition alive (m : multi_context) (i : nat) : bool :=
  match m_instances m !! i with Some x => negb (mi_halt x) | None => false end.
Definition cached (r : multi_route) : Prop := Z.land (mr_flags r) MULTI_ROUTE_CACHE ≠ 0.
Definition expired (now : Z) (m : multi_context) (r : multi_route) : Prop :=
  Z.land (mr_flags r) MULTI_ROUTE_AGEABLE ≠ 0 ∧ mr_last_reference r + ageable_ttl_secs (m_helper m) < now.
Definition defined (now : Z) (m : multi_context) (r : multi_route) : bool :=
  alive m (mr_instance r) && negb (bool_decide (cached r ∧ mr_generation r ≠ cache_generation (m_helper m)))
  && negb (bool_decide (expired now m r)).

Lemma route_defined_ok now m r x :
  m_instances m !! mr_instance r = Some x → multi_route_defined now m r = Ret (defined now m r).
Proof.
  intros Hx. unfold multi_route_defined, defined, alive, get_instance. rewrite Hx. cbn [of_option]. bret. f_equal.
  destruct (mi_halt x); [done|]. cbn [negb andb]. unfold cached, expired. rewrite !bool_decide_decide. by repeat case_decide.
Qed.

Lemma defined_alive now m r : defined now m r = true → alive m (mr_instance r) = true.
Proof. unfold defined. rewrite !andb_true_iff. tauto. Qed.

(** A route that is neither cached nor ageable lives as long as its client. *)
Lemma defined_static now m r : mr_flags r = 0 → defined now m r = alive m (mr_instance r).
Proof.
  intros Hf. unfold defined, cached, expired. rewrite Hf, Z.land_0_l.
  rewrite !bool_decide_false by (intros [? _]; done). by rewrite !andb_true_r.
Qed.

(** ** The counters of a client *)

Definition owns (i : nat) (r : multi_route) : Z := if decide (mr_instance r = i) then 1 else 0.
Definition owned (i : nat) (m : multi_context) : Z := msum (owns i) (m_routes m).
Lemma owns_nonneg i r : 0 ≤ owns i r.
Proof. unfold owns. case_decide; lia. Qed.

Definition counted (m : multi_context) (i : nat) (x : multi_instance) : Prop :=
  mi_route_count x = owned i m ∧ mi_refcount x = owned i m + (if mi_halt x then 0 else 1) ∧ 0 < mi_refcount x.
Definition limited (x : multi_instance) : Prop := mi_route_count x ≤ mi_max_routes x < INT_MAX ∧ (mi_halt x = true → mi_did_iroutes x = false).
Record heap_ok (m : multi_context) : Prop := {
  heap_counted : ∀ i x, m_instances m !! i = Some x → counted m i x;
  heap_limited : ∀ i x, m_instances m !! i = Some x → limited x;
  heap_owner : ∀ id r, m_routes m !! id = Some r → ∃ x, m_instances m !! mr_instance r = Some x;
}.

(** How often a client uses a prefix length. *)
Definition lengths (x : multi_instance) : list Z :=
  filter (λ n, 0 ≤ n) (netbits <$> mi_iroutes x) ++ (netbits6 <$> mi_iroutes_ipv6 x).
Definition times (n : Z) (l : list Z) : Z := Z.of_nat (length (filter (λ x, x = n) l)).
Definition uses (n : Z) (x : multi_instance) : Z := if mi_did_iroutes x then times n (lengths x) else 0.
Lemma times_nonneg n l : 0 ≤ times n l.
Proof. unfold times. lia. Qed.
Lemma uses_nonneg n x : 0 ≤ uses n x.
Proof. unfold uses. pose proof (times_nonneg n (lengths x)). destruct (mi_did_iroutes x); lia. Qed.

(** Everything but counters and clients that are gone is as it was. *)
Record frame (m m' : multi_context) : Prop := {
  frame_helper : m_helper m' = m_helper m;
  frame_local : m_local m' = m_local m;
  frame_reaper : m_reaper m' = m_reaper m;
  frame_alive : ∀ i, alive m' i = alive m i;
  frame_static : ∀ i x', m_instances m' !! i = Some x' → ∃ x, m_instances m !! i = Some x ∧ ∃ a b, x' = set_counts a b x;
  frame_uses : ∀ n, msum (uses n) (m_instances m') = msum (uses n) (m_instances m);
}.

Lemma frame_same m m' :
  m_helper m' = m_helper m → m_local m' = m_local m → m_reaper m' = m_reaper m → m_instances m' = m_instances m → frame m m'.
Proof.
  intros Hh Hl Hr Hi. split; [done..| | |]; unfold alive; rewrite Hi; [done| |done].
  intros i x Hx. exists x. split; [done|]. exists (mi_refcount x), (mi_route_count x). by destruct x.
Qed.
Lemma frame_refl m : frame m m.
Proof. by apply frame_same. Qed.
Lemma frame_trans m1 m2 m3 : frame m1 m2 → frame m2 m3 → frame m1 m3.
Proof.
  intros [Ha1 Hb1 Hc1 Hd1 He1 Hf1] [Ha2 Hb2 Hc2 Hd2 He2 Hf2]. split; try congruence.
  - intros i x (y & Hy & a & b & ->)%He2. destruct (He1 _ _ Hy) as (z & Hz & c & d & ->). exists z. split; [done|]. by exists a, b.
Qed.
Lemma frame_defined now m m' r : frame m m' → defined now m' r = defined now m r.
Proof. intros Hf. unfold defined, expired. by rewrite (frame_alive _ _ Hf), (frame_helper _ _ Hf). Qed.

(** The same clients are there, counters apart. *)
Definition folk (m m' : multi_context) : Prop :=
  (∀ i, alive m' i = alive m i) ∧
  ∀ i x', m_instances m' !! i = Some x' → ∃ x, m_instances m !! i = Some x ∧ ∃ a b, x' = set_counts a b x.
Lemma folk_refl m : folk m m.
Proof. split; [done|]. intros i x Hx. exists x. split; [done|]. exists (mi_refcount x), (mi_route_count x). by destruct x. Qed.
Lemma folk_trans m1 m2 m3 : folk m1 m2 → folk m2 m3 → folk m1 m3.
Proof.
  intros [A1 S1] [A2 S2]. split; [intros i; by rewrite A2|]. intros i x (y & Hy & a & b & ->)%S2. destruct (S1 _ _ Hy) as (z & Hz & c & d & ->).
  exists z. split; [done|]. by exists a, b.
Qed.
Lemma frame_folk m m' : frame m m' → folk m m'.
Proof. intros []. by split. Qed.

(** Changing the counters of a client. *)
Lemma frame_counts m i x a b :
  m_instances m !! i = Some x → frame m (put_instance i (set_counts a b x) m).
Proof.
  intros Hx. split; [done..| | |].
  - intros j. unfold alive. cbn. destruct (decide (j = i)) as [->|]; [by rewrite lookup_insert_eq, Hx|by rewrite lookup_insert_ne].
  - cbn. intros j y. destruct (decide (j = i)) as [->|]; [rewrite lookup_insert_eq|rewrite lookup_insert_ne by done].
    + intros [= <-]. exists x. split; [done|]. by exists a, b.
    + intros Hy. exists y. split; [done|]. exists (mi_refcount y), (mi_route_count y). by destruct y.
  - intros n. cbn. by apply (msum_same _ _ _ x).
Qed.

(** A client that is gone leaves the heap. *)
Lemma frame_gone m i x :
  m_instances m !! i = Some x → mi_halt x = true → mi_did_iroutes x = false → frame m (set_instances (delete i (m_instances m)) m).
Proof.
  intros Hx Hh Hd. split; [done..| | |].
  - intros j. unfold alive. cbn. destruct (decide (j = i)) as [->|]; [by rewrite lookup_delete_eq, Hx, Hh|by rewrite lookup_delete_ne].
  - cbn. intros j y. destruct (decide (j = i)) as [->|]; [by rewrite lookup_delete_eq|rewrite lookup_delete_ne by done].
    intros Hy. exists y. split; [done|]. exists (mi_refcount y), (mi_route_count y). by destruct y.
  - intros n. cbn. rewrite (msum_delete _ _ _ x) by done. unfold uses at 2. rewrite Hd. lia.
Qed.

(** ** A route comes, a route goes *)

(** The heaps keep their count when route [r] comes or goes with the counters of its
    client. *)
Lemma owned_other i m r id : mr_instance r ≠ i → m_routes m !! id = None → msum (owns i) (<[id := r]> (m_routes m)) = owned i m.
Proof. intros Hne Hid. rewrite msum_insert by done. unfold owned, owns at 1. rewrite decide_False by done. lia. Qed.

Lemma owned_pos m id r : m_routes m !! id = Some r → 0 < owned (mr_instance r) m.
Proof.
  intros Hr. pose proof (msum_le (owns (mr_instance r)) _ _ _ (owns_nonneg _) Hr) as Hle.
  unfold owns at 1 in Hle. rewrite decide_True in Hle by done. unfold owned. lia.
Qed.

Lemma alloc_ok m i x r :
  heap_ok m → m_instances m !! i = Some x → mi_halt x = false → mi_route_count x < mi_max_routes x → mr_instance r = i →
  ∃ id m', alloc_route i r m = Ret (id, m') ∧ m_routes m !! id = None ∧ m_routes m' = <[id := r]> (m_routes m) ∧
    m_vhash m' = m_vhash m ∧ frame m m' ∧ heap_ok m'.
Proof.
  intros [Hc Hl Ho] Hx Hh Hq <-. pose proof (Hc _ _ Hx) as (Hrc & Href & Hpos). pose proof (Hl _ _ Hx) as [Hlim Hdid].
  pose proof (msum_nonneg (owns (mr_instance r)) (m_routes m) (owns_nonneg _)) as Hnn. fold (owned (mr_instance r) m) in Hnn.
  rewrite Hh in Href. set (i := mr_instance r) in *. set (id := fresh (dom (m_routes m))).
  assert (m_routes m !! id = None) as Hid by (apply not_elem_of_dom, is_fresh).
  exists id. unfold alloc_route, multi_instance_inc_refcount, route_quota_inc, get_instance.
  rewrite Hx. cbn [of_option]. bret. rewrite int_ok by (ints; lia). bret.
  cbn [put_instance set_instances m_instances]. rewrite lookup_insert_eq. cbn [of_option]. bret.
  cbn [set_counts mi_route_count mi_refcount]. rewrite int_ok by (ints; lia). bret.
  eexists. split; [done|]. split; [done|]. split; [done|]. split; [done|].
  unfold put_instance, set_routes, set_instances. cbn. rewrite insert_insert_eq.
  split; [|split].
  - eapply frame_trans; [by apply (frame_counts m i x (mi_refcount x + 1) (mi_route_count x + 1))|by apply frame_same].
  - cbn. intros j y. unfold counted, owned. cbn. destruct (decide (j = i)) as [->|Hne].
    + rewrite lookup_insert_eq. intros [= <-]. cbn. rewrite msum_insert by done. fold (owned i m).
      unfold owns. rewrite (decide_True (P := mr_instance r = i)) by done. rewrite Hh. lia.
    + rewrite lookup_insert_ne by done. intros Hy. rewrite owned_other by done. by apply (Hc _ _ Hy).
  - cbn. intros j y. destruct (decide (j = i)) as [->|Hne].
    + rewrite lookup_insert_eq. intros [= <-]. unfold limited. cbn. split; [lia|congruence].
    + rewrite lookup_insert_ne by done. apply Hl.
  - cbn. intros j y. destruct (decide (j = id)) as [->|Hne].
    + rewrite lookup_insert_eq. intros [= <-]. fold i. rewrite lookup_insert_eq. by eexists.
    + rewrite lookup_insert_ne by done. intros Hy. destruct (decide (mr_instance y = i)) as [->|].
      * rewrite lookup_insert_eq. by eexists.
      * rewrite lookup_insert_ne by done. by eapply Ho.
Qed.

Lemma route_del_ok m id r :
  heap_ok m → m_routes m !! id = Some r →
  ∃ m', multi_route_del id m = Ret m' ∧ m_routes m' = delete id (m_routes m) ∧ m_vhash m' = m_vhash m ∧ frame m m' ∧ heap_ok m'.
Proof.
  intros Hok Hr. pose proof Hok as [Hc Hl Ho]. destruct (Ho _ _ Hr) as [x Hx].
  pose proof (Hc _ _ Hx) as (Hrc & Href & Hpos). pose proof (Hl _ _ Hx) as [Hlim Hdid].
  pose proof (owned_pos m id r Hr) as Hown. set (i := mr_instance r) in *.
  assert (∀ j, msum (owns j) (delete id (m_routes m)) = owned j m - owns j r) as Hdel by (intros; by apply msum_delete).
  assert (∀ j, j ≠ i → owns j r = 0) as Hoth by (intros; unfold owns; by rewrite decide_False by (fold i; congruence)).
  assert (owns i r = 1) as Hone by (unfold owns; by rewrite decide_True).
  unfold multi_route_del. rewrite Hr. cbn [of_option]. bret. fold i.
  unfold route_quota_dec, multi_instance_dec_refcount, get_instance. rewrite Hx. cbn [of_option]. bret.
  rewrite int_ok by (ints; destruct (mi_halt x); lia). bret. cbn [put_instance set_instances m_instances]. rewrite lookup_insert_eq.
  cbn [of_option]. bret. cbn [set_counts mi_refcount mi_route_count]. rewrite int_ok by (ints; destruct (mi_halt x); lia). bret.
  eexists. split; [done|]. case_decide as Hgone; (split; [done|]; split; [done|]; unfold put_instance, set_instances, set_routes; cbn).
  - assert (mi_halt x = true) as Hh by (destruct (mi_halt x); [done|lia]). rewrite Hh in *. rewrite delete_insert_eq.
    split; [eapply frame_trans; [by apply (frame_gone m i x); auto|by apply frame_same]|]. split; cbn.
    + intros j y. destruct (decide (j = i)) as [->|Hne]; [by rewrite lookup_delete_eq|rewrite lookup_delete_ne by done].
      intros Hy. unfold counted, owned. cbn. rewrite Hdel, Hoth by done. pose proof (Hc _ _ Hy) as Hcy. unfold counted in Hcy. lia.
    + intros j y. destruct (decide (j = i)) as [->|Hne]; [by rewrite lookup_delete_eq|rewrite lookup_delete_ne by done]. apply Hl.
    + intros j y. destruct (decide (j = id)) as [->|Hne]; [by rewrite lookup_delete_eq|rewrite lookup_delete_ne by done]. intros Hy.
      destruct (decide (mr_instance y = i)) as [Heq|]; [|rewrite lookup_delete_ne by done; by eapply Ho]. exfalso.
      pose proof (msum_le (owns i) _ _ _ (owns_nonneg _) (eq_trans (lookup_delete_ne _ _ _ (not_eq_sym Hne)) Hy)) as Hle.
      rewrite Hdel in Hle. unfold owns at 1 in Hle. rewrite decide_True in Hle by done. lia.
  - rewrite insert_insert_eq. split; [|split; cbn].
    + eapply frame_trans; [by apply (frame_counts m i x (mi_refcount x - 1) (mi_route_count x - 1))|by apply frame_same].
    + intros j y. unfold counted, owned. cbn. rewrite Hdel. destruct (decide (j = i)) as [->|Hne].
      * rewrite lookup_insert_eq. intros [= <-]. cbn. destruct (mi_halt x); lia.
      * rewrite lookup_insert_ne by done. intros Hy. rewrite Hoth by done. pose proof (Hc _ _ Hy) as Hcy. unfold counted in Hcy. lia.
    + intros j y. destruct (decide (j = i)) as [->|Hne]; [rewrite lookup_insert_eq|rewrite lookup_insert_ne by done; apply Hl].
      intros [= <-]. unfold limited. cbn. split; [lia|done].
    + intros j y. destruct (decide (j = id)) as [->|Hne]; [by rewrite lookup_delete_eq|rewrite lookup_delete_ne by done]. intros Hy.
      destruct (decide (mr_instance y = i)) as [->|]; [rewrite lookup_insert_eq; by eexists|rewrite lookup_insert_ne by done; by eapply Ho].
Qed.

(** ** The table and the heap of routes *)

Section assoc.
Context {K V : Type} `{HashLaws K}.
Lemma assoc_compare (h : hash K V) k k' : compare_function k k' = true → assoc h k' = assoc h k.
Proof. intros E. unfold assoc. rewrite (key_index_compare h k k' E). by rewrite (hits_compare k k' _ E). Qed.
End assoc.

Lemma equal_refl a : mroute_addr_equal a a = true.
Proof. exact (compare_refl a). Qed.
Lemma equal_sym a b : mroute_addr_equal a b = true → mroute_addr_equal b a = true.
Proof. exact (compare_sym a b). Qed.
Lemma equal_trans a b c : mroute_addr_equal a b = true → mroute_addr_equal b c = true → mroute_addr_equal a c = true.
Proof. exact (compare_trans a b c). Qed.
Lemma assoc_equal (h : hash mroute_addr nat) k k' : mroute_addr_equal k k' = true → assoc h k' = assoc h k.
Proof. exact (assoc_compare h k k'). Qed.

Lemma key_index_equal (h : hash mroute_addr nat) k k' : mroute_addr_equal k k' = true → key_index h k = key_index h k'.
Proof. exact (key_index_compare h k k'). Qed.

Record table_ok (m : multi_context) : Prop := {
  table_wf : wf_hash (m_vhash m);
  table_sound : ∀ k id, assoc (m_vhash m) k = Some id → ∃ r, m_routes m !! id = Some r ∧ mroute_addr_equal k (mr_addr r) = true;
  table_complete : ∀ id r, m_routes m !! id = Some r → assoc (m_vhash m) (mr_addr r) = Some id;
  table_addr : ∀ id r, m_routes m !! id = Some r → wf_addr (mr_addr r);
}.

(** Two tables that say the same of every key. *)
Lemma table_ok_ext m m' :
  table_ok m → wf_hash (m_vhash m') → (∀ k, assoc (m_vhash m') k = assoc (m_vhash m) k) → m_routes m' = m_routes m → table_ok m'.
Proof.
  intros [Hw Hs Hc Ha] Hw' He Hr. split; [done| | |]; intros *; rewrite ?He, Hr; [apply Hs|apply Hc|apply Ha].
Qed.
Lemma heap_ok_ext m m' : heap_ok m → m_routes m' = m_routes m → m_instances m' = m_instances m → heap_ok m'.
Proof. intros [Hc Hl Ho] Hr Hi. split; unfold counted, owned; rewrite ?Hr, ?Hi; done. Qed.

(** The client a route in force leads to. *)
Definition owner_at (now : Z) (m : multi_context) (k : mroute_addr) : option nat :=
  id ← assoc (m_vhash m) k;
  r ← m_routes m !! id;
  if defined now m r then Some (mr_instance r) else None.

Lemma owner_alive now m k i : owner_at now m k = Some i → alive m i = true.
Proof.
  unfold owner_at. destruct (assoc _ k) as [id|]; [|done]. cbn. destruct (m_routes m !! id) as [r|]; [|done]. cbn.
  destruct (defined now m r) eqn:E; [|done]. intros [= <-]. by eapply defined_alive.
Qed.

Definition quota (m : multi_context) (i : nat) : bool :=
  match m_instances m !! i with Some x => negb (bool_decide (mi_route_count x >= mi_max_routes x)) | None => false end.
Lemma quota_ok m i : alive m i = true → route_quota_test i m = Ret (quota m i).
Proof.
  unfold alive, route_quota_test, quota, get_instance. destruct (m_instances m !! i) as [x|]; [|done]. intros _. cbn [of_option]. bret.
  f_equal. rewrite bool_decide_decide. by case_decide.
Qed.

Section learn.
Context (script : option nat → learn_op → mroute_addr → bool).

Definition wanted (now : Z) (i : nat) (addr : mroute_addr) (m : multi_context) : bool :=
  bool_decide (owner_at now m addr ≠ Some i) && learnable addr && negb (mroute_addr_equal addr (m_local m)).
Definition learns (now : Z) (i : nat) (addr : mroute_addr) (m : multi_context) : bool :=
  wanted now i addr m && (quota m i && script (Some i) (if assoc (m_vhash m) addr then LearnUpdate else LearnAdd) addr).
Definition new_route (now : Z) (i : nat) (addr : mroute_addr) (flags : Z) (m : multi_context) : multi_route :=
  Route addr i flags (if decide (Z.land flags MULTI_ROUTE_CACHE ≠ 0) then cache_generation (m_helper m) else 0) now.
(** The routes without the one under [addr]. *)
Definition routes_but (addr : mroute_addr) (m : multi_context) : gmap nat multi_route :=
  match assoc (m_vhash m) addr with Some id => delete id (m_routes m) | None => m_routes m end.

(** What learning leaves: as before, or with the new route in the place of the old one. *)
Record learned (now : Z) (i : nat) (addr : mroute_addr) (flags : Z) (m m' : multi_context) : Prop := {
  learned_heap : heap_ok m';
  learned_table : table_ok m';
  learned_frame : frame m m';
  learned_size : n_elements (m_vhash m) ≤ n_elements (m_vhash m') ≤ n_elements (m_vhash m) + 1;
  learned_routes : if learns now i addr m
    then ∃ id, m_routes m !! id = None ∧ m_routes m' = <[id := new_route now i addr flags m]> (routes_but addr m)
    else m_routes m' = m_routes m;
}.

Lemma vhash_only m h : frame m (set_vhash h m).
Proof. by apply frame_same. Qed.

Lemma routes_but_lookup addr m j y : table_ok m →
  routes_but addr m !! j = Some y ↔ m_routes m !! j = Some y ∧ mroute_addr_equal addr (mr_addr y) = false.
Proof.
  intros [Hw Hs Hc Ha]. unfold routes_but. destruct (assoc (m_vhash m) addr) as [o|] eqn:Eo.
  - destruct (Hs _ _ Eo) as (z & Hz & Haz). rewrite lookup_delete_Some. split.
    + intros [Hne Hy]. split; [done|]. apply not_true_iff_false. intros E. pose proof (Hc _ _ Hy) as Hk. rewrite (assoc_equal _ addr) in Hk by done. congruence.
    + intros [Hy E]. split; [|done]. intros ->. rewrite Hz in Hy. injection Hy as ->. congruence.
  - split; [|tauto]. intros Hy. split; [done|]. apply not_true_iff_false. intros E.
    pose proof (Hc _ _ Hy) as Hk. rewrite (assoc_equal _ addr) in Hk by done. congruence.
Qed.
(** The routes with [r] in the place of the one under its address. *)
Lemma replaced_lookup addr id r m j y : table_ok m → m_routes m !! id = None →
  <[id := r]> (routes_but addr m) !! j = Some y ↔
  j = id ∧ y = r ∨ m_routes m !! j = Some y ∧ mroute_addr_equal addr (mr_addr y) = false.
Proof.
  intros Ht Hid. rewrite lookup_insert_Some, routes_but_lookup by done. split; [naive_solver|].
  intros [[-> ->]|[Hy E]]; [by left|right]. split; [congruence|done].
Qed.

(** The new route is under [addr], in the place of the old one. *)
Lemma table_replaced m m' id r addr :
  table_ok m → m_routes m !! id = None → m_routes m' = <[id := r]> (routes_but addr m) → mr_addr r = addr → wf_addr addr →
  wf_hash (m_vhash m') → (∀ k, assoc (m_vhash m') k = if mroute_addr_equal addr k then Some id else assoc (m_vhash m) k) → table_ok m'.
Proof.
  intros Ht Hid Hr <- Hwa Hw' Has. set (addr := mr_addr r) in *. pose proof Ht as [Hw Hs Hc Ha].
  pose proof (λ j y, replaced_lookup addr id r m j y Ht Hid) as Hl. rewrite <- Hr in Hl. split; [done|..].
  - intros k j. rewrite Has. destruct (mroute_addr_equal addr k) eqn:E.
    + intros [= <-]. exists r. split; [apply Hl; by left|]. by apply equal_sym.
    + intros Hk. destruct (Hs _ _ Hk) as (y & Hy & Hky). exists y. split; [|done]. apply Hl. right. split; [done|].
      apply not_true_iff_false. intros Ey. apply not_true_iff_false in E. apply E. eapply equal_trans; [done|by apply equal_sym].
  - intros j y [[-> ->]|[Hy E]]%Hl; rewrite Has; [fold addr; by rewrite equal_refl|]. rewrite E. by apply Hc.
  - intros j y [[-> ->]|[Hy E]]%Hl; [done|by eapply Ha].
Qed.

(** The answer of the search. *)
Lemma old_owner now m he addr b :
  heap_ok m → table_ok m → found (m_vhash m) addr he b →
  (match he with
   | Some he => r ← of_option (m_routes m !! he_value he); def ← multi_route_defined now m r;
       Ret (if def : bool then Some (mr_instance r) else None)
   | None => Ret None
   end) = Ret (owner_at now m addr).
Proof.
  intros Hok Ht [Hv _]. unfold owner_at. rewrite <- Hv. destruct he as [e|]; [|done]. cbn.
  destruct (table_sound _ Ht addr (he_value e)) as (r & Hr & _); [by rewrite <- Hv|]. rewrite Hr. cbn [of_option mbind option_bind]. bret.
  destruct (heap_owner _ Hok _ _ Hr) as [x Hx]. rewrite (route_defined_ok _ _ _ x) by done. by bret.
Qed.

Lemma learn_ok now i addr flags m :
  heap_ok m → table_ok m → small (m_vhash m) → alive m i = true → wf_addr addr →
  ∃ m', multi_learn_addr script now i addr flags m = Ret (if learns now i addr m then Some i else owner_at now m addr, m') ∧
    learned now i addr flags m m'.
Proof.
  intros Hok Ht Hsm Hal Hwa. pose proof (table_wf _ Ht) as Hw.
  destruct (lookup_bucket_ok (m_vhash m) addr Hw) as (b & he & b' & Hb & E & Hfo & Hw' & Hb' & Has).
  unfold multi_learn_addr. fold (key_index (m_vhash m) addr). rewrite Hb. cbn [of_option]. bret. rewrite E. bret.
  set (h1 := set_bucket (key_index (m_vhash m) addr) b' (n_elements (m_vhash m)) (m_vhash m)) in *.
  assert (heap_ok (set_vhash h1 m)) as Hok1 by by eapply heap_ok_ext.
  assert (table_ok (set_vhash h1 m)) as Ht1 by by eapply table_ok_ext.
  assert (key_index h1 addr = key_index (m_vhash m) addr) as Hki by done.
  assert (hash_value h1 addr = hash_value (m_vhash m) addr) as Hhv by done.
  assert (found (m_vhash (set_vhash h1 m)) addr he b') as Hfo1 by (destruct Hfo as [Hv Hfo]; split; [by rewrite Hv; cbn; rewrite Has|done]).
  rewrite (old_owner now (set_vhash h1 m) he addr b' Hok1 Ht1 Hfo1).
  assert (owner_at now (set_vhash h1 m) addr = owner_at now m addr) as -> by (unfold owner_at; cbn; by rewrite Has).
  bret. rewrite learnable_ok by done.
  assert ((if decide (owner_at now m addr ≠ Some i) then Ret (learnable addr) else Ret false) =
    Ret (bool_decide (owner_at now m addr ≠ Some i) && learnable addr)) as ->
    by (rewrite bool_decide_decide; by case_decide).
  bret. cbn [m_local set_vhash]. fold (wanted now i addr m).
  assert (∀ m', heap_ok m' → table_ok m' → m_instances m' = m_instances m → m_routes m' = m_routes m → n_elements (m_vhash m') = n_elements (m_vhash m) →
    frame m m' → learns now i addr m = false → learned now i addr flags m m') as Hsame.
  { intros m' ? ? ? Hr Hn ? Hl. split; try done; [lia|]. by rewrite Hl. }
  destruct (wanted now i addr m) eqn:Ep.
  2: { assert (learns now i addr m = false) as Hl by (unfold learns; by rewrite Ep). rewrite Hl.
    eexists. split; [done|]. apply Hsame; try done. apply vhash_only. }
  rewrite quota_ok by done. change (quota (set_vhash h1 m) i) with (quota m i). bret.
  unfold alive in Hal. destruct (m_instances m !! i) as [x|] eqn:Hx; [|done].
  set (r := Route addr i flags _ now).
  assert (∀ op, quota m i && script (Some i) op addr = true → ∃ id m2, alloc_route i r (set_vhash h1 m) = Ret (id, m2) ∧
    m_routes m !! id = None ∧ m_routes m2 = <[id := r]> (m_routes m) ∧ m_vhash m2 = h1 ∧ frame m m2 ∧ heap_ok m2) as Halloc.
  { intros op Hq. apply andb_true_iff in Hq as [Hq _]. unfold quota in Hq. rewrite Hx in Hq.
    apply negb_true_iff, bool_decide_eq_false in Hq.
    destruct (alloc_ok (set_vhash h1 m) i x r) as (id & m2 & ? & ? & ? & ? & Hf & ?);
      [done|done|by apply negb_true_iff|lia|done|]. exists id, m2. split_and!; try done.
    eapply frame_trans; [apply vhash_only|done]. }
  destruct Hfo as [Hv Hfo]. destruct he as [e|]; cbn in Hv.
  - assert (learns now i addr m = quota m i && script (Some i) LearnUpdate addr) as Hl by (unfold learns; by rewrite Ep, <- Hv). rewrite Hl.
    unfold learn_address_script. destruct (quota m i && script (Some i) LearnUpdate addr) eqn:Eq.
    2: { eexists. split; [done|]. apply Hsame; try done. apply vhash_only. }
    destruct (Halloc _ Eq) as (id & m2 & -> & Hid & Hr2 & Hv2 & Hf2 & Hok2). bret.
    destruct (table_sound _ Ht addr (he_value e)) as (old & Hold & _); [done|].
    assert (he_value e ≠ id) as Hne by congruence.
    destruct (route_del_ok m2 (he_value e) old Hok2) as (m3 & -> & Hr3 & Hv3 & Hf3 & Hok3).
    { rewrite Hr2. by rewrite lookup_insert_ne. }
    bret. rewrite Hv3, Hv2, Hb'. cbn [of_option]. bret. destruct Hfo as (b2 & -> & Hm). cbn [tail].
    destruct (put_head h1 addr addr id e b2 Hw' Hb' Hm (equal_refl addr)) as [Hw4 Has4]. rewrite Hki in Hw4, Has4.
    eexists. split; [done|].
    assert (m_routes m3 = <[id := r]> (delete (he_value e) (m_routes m))) as Hr4 by (by rewrite Hr3, Hr2, delete_insert_ne).
    split.
    + by eapply heap_ok_ext.
    + eapply (table_replaced m _ id r addr); try done.
      * cbn. rewrite Hr4. unfold routes_but. by rewrite <- Hv.
      * cbn. intros k. rewrite Has4. by rewrite Has.
    + eapply frame_trans; [done|]. eapply frame_trans; [done|apply vhash_only].
    + cbn. lia.
    + rewrite Hl. exists id. split; [done|].
      cbn. rewrite Hr4. unfold routes_but. by rewrite <- Hv.
  - assert (learns now i addr m = quota m i && script (Some i) LearnAdd addr) as Hl by (unfold learns; by rewrite Ep, <- Hv). rewrite Hl.
    unfold learn_address_script. destruct (quota m i && script (Some i) LearnAdd addr) eqn:Eq.
    2: { eexists. split; [done|]. apply Hsame; try done. apply vhash_only. }
    destruct (Halloc _ Eq) as (id & m2 & -> & Hid & Hr2 & Hv2 & Hf2 & Hok2). bret. rewrite Hv2.
    destruct (put_new h1 addr id b' Hw' Hsm Hb' Hfo) as (E4 & Hw4 & Has4). rewrite Hki, Hhv in E4, Hw4, Has4. rewrite E4. bret.
    eexists. split; [done|]. split.
    + by eapply heap_ok_ext.
    + eapply (table_replaced m _ id r addr); try done.
      * cbn. rewrite Hr2. unfold routes_but. by rewrite <- Hv.
      * cbn. intros k. rewrite Has4. by rewrite Has.
    + eapply frame_trans; [done|apply vhash_only].
    + cbn. lia.
    + rewrite Hl. exists id. split; [done|].
      cbn. rewrite Hr2. unfold routes_but. by rewrite <- Hv.
Qed.
End learn.

(** ** Networks, and what a cached route says *)

Definition is_net (a : mroute_addr) : Prop := Z.land (ma_type a) MR_WITH_NETBITS ≠ 0.
(** An address of a packet. *)
Definition host_addr (a : mroute_addr) : Prop := ip_addr a ∧ ¬ is_net a.
(** Network [net] contains [a]. *)
Definition covers (net a : mroute_addr) : Prop :=
  ma_type net = Z.lor (ma_type a) MR_WITH_NETBITS ∧ ma_len net = ma_len a ∧
  clear_host (addr_width a) (ma_netbits net) (addr_value a) = addr_value net.

(** The networks of the clients that are there, and their own addresses. *)
Definition net_live (m : multi_context) (net : mroute_addr) (i : nat) : Prop :=
  ∃ id r, m_routes m !! id = Some r ∧ mr_addr r = net ∧ mr_instance r = i ∧ is_net net ∧ alive m i = true.
Definition host_live (m : multi_context) (a : mroute_addr) (i : nat) : Prop :=
  ∃ id r, m_routes m !! id = Some r ∧ mroute_addr_equal a (mr_addr r) = true ∧ mr_flags r = 0 ∧ mr_instance r = i ∧ alive m i = true.

(** Client [i] has the longest prefix for [a]. *)
Definition longest (m : multi_context) (a : mroute_addr) (i : nat) : Prop :=
  ∃ net, net_live m net i ∧ covers net a ∧
    ∀ net' i', net_live m net' i' → covers net' a → ma_netbits net' ≤ ma_netbits net.
Definition uncovered (m : multi_context) (a : mroute_addr) : Prop := ∀ net i, net_live m net i → ¬ covers net a.
(** Where packets to [a] belong. *)
Definition routed (m : multi_context) (a : mroute_addr) (o : option nat) : Prop :=
  match o with
  | Some i => host_live m a i ∨ (∀ j, ¬ host_live m a j) ∧ longest m a i
  | None => (∀ j, ¬ host_live m a j) ∧ uncovered m a
  end.

Definition net_ok (m : multi_context) (r : multi_route) : Prop :=
  ip_addr (mr_addr r) ∧ 0 ≤ ma_netbits (mr_addr r) ≤ addr_width (mr_addr r) ∧
  clear_host (addr_width (mr_addr r)) (ma_netbits (mr_addr r)) (addr_value (mr_addr r)) = addr_value (mr_addr r) ∧
  ∀ x, m_instances m !! mr_instance r = Some x → mi_halt x = false → mi_did_iroutes x = true ∧ ma_netbits (mr_addr r) ∈ lengths x.
Definition cache_ok (m : multi_context) (r : multi_route) : Prop :=
  host_addr (mr_addr r) ∧ mr_generation r ≤ cache_generation (m_helper m) ∧
  (mr_generation r = cache_generation (m_helper m) → alive m (mr_instance r) = true → longest m (mr_addr r) (mr_instance r)).
Definition route_ok (m : multi_context) (r : multi_route) : Prop :=
  mr_flags r = 0 ∧ (is_net (mr_addr r) → net_ok m r) ∨ mr_flags r = 3 ∧ cache_ok m r.
Definition routes_ok (m : multi_context) : Prop := ∀ id r, m_routes m !! id = Some r → route_ok m r.
(** The lengths of [l] are still to be counted. *)
Record helper_left (l : list Z) (m : multi_context) : Prop := {
  helper_valid : helper_ok (m_helper m);
  helper_counts : ∀ n, 0 ≤ n → count_of n (m_helper m) + times n l = msum (uses n) (m_instances m);
  helper_lengths : ∀ i x n, m_instances m !! i = Some x → n ∈ lengths x → 0 ≤ n < 129;
}.
Definition helper_inv : multi_context → Prop := helper_left [].
(** The invariant of the routing table. *)
Record routing_ok (m : multi_context) : Prop := {
  routing_heap : heap_ok m;
  routing_table : table_ok m;
  routing_helper : helper_inv m;
  routing_routes : routes_ok m;
}.

(** *** Equal addresses *)

Lemma equal_value a b : mroute_addr_equal a b = true →
  ma_type b = ma_type a ∧ ma_len b = ma_len a ∧ ma_netbits b = ma_netbits a ∧ addr_value b = addr_value a.
Proof. intros (Ht & Hn & Hl & Hb)%addr_equal_spec. unfold addr_value. by rewrite <- Hl, Hb. Qed.
Lemma value_equal a b : wf_addr a → wf_addr b →
  ma_type a = ma_type b → ma_netbits a = ma_netbits b → ma_len a = ma_len b → addr_value a = addr_value b → mroute_addr_equal a b = true.
Proof.
  intros (La & Ba & _ & _ & Na) (Lb & Bb & _ & _ & Nb) Ht Hn Hl Hv. apply addr_equal_spec. split_and!; try done.
  unfold addr_value in Hv. rewrite <- Hl in Hv. apply be_val_inj; [rewrite !length_take; lia|by apply Forall_take..|done].
Qed.
Lemma covers_equal net a b : mroute_addr_equal a b = true → covers net b → covers net a.
Proof. intros (Ht & Hl & _ & Hv)%equal_value (H1 & H2 & H3). unfold covers, addr_width in *. by rewrite <- Ht, <- Hl, <- Hv. Qed.
Lemma longest_equal m a b i : mroute_addr_equal a b = true → longest m b i → longest m a i.
Proof.
  intros He (net & Hn & Hc & Hmax). exists net. split; [done|]. split; [by eapply covers_equal|].
  intros net' i' Hn' Hc'. eapply Hmax; [done|]. eapply covers_equal; [|done]. by apply equal_sym.
Qed.
Lemma is_net_equal a b : mroute_addr_equal a b = true → is_net a ↔ is_net b.
Proof. intros (Ht & _)%equal_value. unfold is_net. by rewrite Ht. Qed.

(** *** States in which packets go the same way *)

Definition same_nets (m m' : multi_context) : Prop := ∀ net i, net_live m' net i ↔ net_live m net i.
Definition same_hosts (m m' : multi_context) : Prop := ∀ a i, host_live m' a i ↔ host_live m a i.
Lemma same_longest m m' a i : same_nets m m' → longest m a i → longest m' a i.
Proof.
  intros Hs (net & Hn & Hc & Hmax). exists net. split; [by apply Hs|]. split; [done|].
  intros net' i' Hn'%Hs. eauto.
Qed.
Lemma same_nets_sym m m' : same_nets m m' → same_nets m' m.
Proof. intros Hs net i. by rewrite (Hs net i). Qed.
Lemma same_routed m m' a o : same_nets m m' → same_hosts m m' → routed m a o → routed m' a o.
Proof.
  intros Hn Hh. unfold routed, uncovered. destruct o as [i|].
  - intros [H|[H1 H2]]; [left; by apply Hh|right]. split; [intros j Hj%Hh; by eapply H1|by eapply same_longest].
  - intros [H1 H2]. split; [intros j Hj%Hh; by eapply H1|]. intros net i Hl%Hn. by eapply H2.
Qed.

(** Packets go the same way, to the same clients. *)
Record same_way (m m' : multi_context) : Prop := {
  same_way_nets : same_nets m m';
  same_way_hosts : same_hosts m m';
  same_way_alive : ∀ i, alive m' i = alive m i;
  same_way_local : m_local m' = m_local m;
}.

(** The facts about routes when the nets are the same. *)
Lemma frame_net_ok m m' r : frame m m' → net_ok m r → net_ok m' r.
Proof.
  intros Hf (Hi & Hb & Hc & Ho). split; [done|]. split; [done|]. split; [done|].
  intros y Hy Hh. destruct (frame_static _ _ Hf _ _ Hy) as (x & Hx & a & b & ->). by apply (Ho x).
Qed.
Lemma frame_route_ok m m' r : frame m m' → same_nets m m' → route_ok m r → route_ok m' r.
Proof.
  intros Hf Hs [[H0 Hn]|[H3 (Ha & Hg & Hl)]]; [left|right]; (split; [done|]).
  - intros Hi. eapply frame_net_ok; [done|by apply Hn].
  - unfold cache_ok. rewrite (frame_helper _ _ Hf), (frame_alive _ _ Hf). split; [done|]. split; [done|].
    intros. eapply same_longest; [done|by apply Hl].
Qed.
Lemma frame_helper_inv m m' l : frame m m' → helper_left l m → helper_left l m'.
Proof.
  intros Hf [H1 H2 H3]. split; rewrite ?(frame_helper _ _ Hf); [done| |].
  - intros n Hn. rewrite (frame_uses _ _ Hf). by apply H2.
  - intros i y n Hy. destruct (frame_static _ _ Hf _ _ Hy) as (x & Hx & a & b & ->). by apply (H3 i x).
Qed.

(** The prefix length of a network in force is in use. *)
Lemma net_used m net i : routing_ok m → net_live m net i → ma_netbits net ∈ used (m_helper m).
Proof.
  intros [Hh Ht [Hv Hc Hl] Hr] (id & r & Hid & <- & <- & Hn & Hal).
  destruct (Hr _ _ Hid) as [[_ Hok]|[_ ((_ & Hno) & _)]]; [|done]. destruct (Hok Hn) as (Hip & Hb & _ & Ho).
  unfold alive in Hal. destruct (m_instances m !! mr_instance r) as [x|] eqn:Hx; [|done].
  apply negb_true_iff in Hal. destruct (Ho x eq_refl Hal) as [Hd Hin]. pose proof (Hl _ _ _ Hx Hin).
  apply count_used; [done|lia|]. specialize (Hc (ma_netbits (mr_addr r)) ltac:(lia)). change (times _ []) with 0 in Hc.
  pose proof (msum_le (uses (ma_netbits (mr_addr r))) _ _ _ (uses_nonneg _) Hx) as Hle.
  unfold uses at 1 in Hle. rewrite Hd in Hle. unfold times in Hle.
  destruct (filter (λ x0, x0 = ma_netbits (mr_addr r)) (lengths x)) eqn:E; [|cbn in Hle; lia].
  assert (ma_netbits (mr_addr r) ∈ filter (λ x0, x0 = ma_netbits (mr_addr r)) (lengths x)) as Hf by (by apply list_elem_of_filter).
  rewrite E in Hf. by apply elem_of_nil in Hf.
Qed.

(** ** Searching *)

Definition live_route (now : Z) (m : multi_context) (k : mroute_addr) : option (nat * multi_route) :=
  id ← assoc (m_vhash m) k; r ← m_routes m !! id; if defined now m r then Some (id, r) else None.

Lemma live_route_spec now m k id r : table_ok m →
  live_route now m k = Some (id, r) ↔ m_routes m !! id = Some r ∧ mroute_addr_equal k (mr_addr r) = true ∧ defined now m r = true.
Proof.
  intros [Hw Hs Hc Ha]. unfold live_route. split.
  - destruct (assoc (m_vhash m) k) as [j|] eqn:E; [|done]. cbn. destruct (Hs _ _ E) as (y & Hy & Hk). rewrite Hy. cbn.
    destruct (defined now m y) eqn:Ed; [|done]. by intros [= <- <-].
  - intros (Hr & Hk & Hd). rewrite <- (assoc_equal _ k (mr_addr r)) by done. rewrite (Hc _ _ Hr). cbn. rewrite Hr. cbn. by rewrite Hd.
Qed.
Lemma owner_live now m k : owner_at now m k = (λ p, mr_instance p.2) <$> live_route now m k.
Proof.
  unfold owner_at, live_route. destruct (assoc _ k) as [id|]; [|done]. cbn. destruct (m_routes m !! id) as [r|]; [|done]. cbn.
  by destruct (defined now m r).
Qed.

(** Only the order within the table has changed. *)
Record reordered (m m' : multi_context) : Prop := {
  reordered_wf : wf_hash (m_vhash m');
  reordered_assoc : ∀ k, assoc (m_vhash m') k = assoc (m_vhash m) k;
  reordered_size : n_elements (m_vhash m') = n_elements (m_vhash m);
  reordered_routes : m_routes m' = m_routes m;
  reordered_instances : m_instances m' = m_instances m;
  reordered_frame : frame m m';
}.
Lemma reordered_refl m : wf_hash (m_vhash m) → reordered m m.
Proof. intros. split; try done. apply frame_refl. Qed.
Lemma reordered_trans m1 m2 m3 : reordered m1 m2 → reordered m2 m3 → reordered m1 m3.
Proof.
  intros [? H1 ? ? ? ?] [? H2 ? ? ? ?]. split; [done|intros k; by rewrite H2, H1|congruence..|by eapply frame_trans].
Qed.
Lemma reordered_heap m m' : reordered m m' → heap_ok m → heap_ok m'.
Proof. intros [] ?. by eapply heap_ok_ext. Qed.
Lemma reordered_table m m' : reordered m m' → table_ok m → table_ok m'.
Proof. intros [] ?. by eapply table_ok_ext. Qed.
Lemma reordered_live now m m' k : reordered m m' → live_route now m' k = live_route now m k.
Proof.
  intros Hr. unfold live_route. rewrite (reordered_assoc _ _ Hr), (reordered_routes _ _ Hr).
  destruct (assoc _ k) as [id|]; [|done]. cbn. destruct (m_routes m !! id); [|done]. cbn. by rewrite (frame_defined now m m') by apply Hr.
Qed.
Lemma frame_net_live m m' net i : frame m m' → m_routes m' = m_routes m → net_live m' net i ↔ net_live m net i.
Proof. intros Hf Hr. unfold net_live. rewrite Hr. by setoid_rewrite (frame_alive _ _ Hf). Qed.
Lemma frame_host_live m m' a i : frame m m' → m_routes m' = m_routes m → host_live m' a i ↔ host_live m a i.
Proof. intros Hf Hr. unfold host_live. rewrite Hr. by setoid_rewrite (frame_alive _ _ Hf). Qed.
Lemma reordered_routing m m' : reordered m m' → routing_ok m → routing_ok m'.
Proof.
  intros Hr [H1 H2 H3 H4]. pose proof (reordered_frame _ _ Hr) as Hf. pose proof (reordered_routes _ _ Hr) as Ho. split.
  - by eapply reordered_heap.
  - by eapply reordered_table.
  - by eapply frame_helper_inv.
  - unfold routes_ok; rewrite Ho. intros id r Hid. eapply frame_route_ok; [done| |by eapply H4]. intros net i. by apply frame_net_live.
Qed.

Lemma find_route_ok now k m :
  heap_ok m → table_ok m → ∃ m', find_route now k m = Ret (live_route now m k, m') ∧ reordered m m'.
Proof.
  intros Hok Ht. destruct (hash_lookup_ok (m_vhash m) k (table_wf _ Ht)) as (h & E & Hw & _ & Hn & Ha).
  exists (set_vhash h m). unfold find_route, live_route. rewrite E. bret. split; [|split; try done; apply vhash_only].
  destruct (assoc (m_vhash m) k) as [id|] eqn:Ek; [|done]. cbn.
  destruct (table_sound _ Ht _ _ Ek) as (r & Hr & _). rewrite Hr. cbn.
  destruct (heap_owner _ Hok _ _ Hr) as [x Hx]. rewrite (route_defined_ok now (set_vhash h m) r x) by done. bret.
  assert (defined now (set_vhash h m) r = defined now m r) as -> by done. by destruct (defined now m r).
Qed.

(** ** The address of a network *)

Section host.
Context (little : bool).

Lemma with_netbits t : is_byte t → is_byte (Z.lor t MR_WITH_NETBITS) ∧ Z.land (Z.lor t MR_WITH_NETBITS) MR_ADDR_MASK = Z.land t MR_ADDR_MASK.
Proof.
  intros Ht. pose proof (byte_all (λ t, (0 <=? Z.lor t MR_WITH_NETBITS) && (Z.lor t MR_WITH_NETBITS <? 256) &&
    (Z.land (Z.lor t MR_WITH_NETBITS) MR_ADDR_MASK =? Z.land t MR_ADDR_MASK)) eq_refl t Ht) as Hq.
  rewrite !andb_true_iff, Z.leb_le, Z.ltb_lt, Z.eqb_eq in Hq. unfold is_byte. tauto.
Qed.

Lemma try_key a n :
  ip_addr a → 0 ≤ n ≤ 128 →
  ∃ k, mroute_addr_mask_host_bits little (MA (ma_len a) (u8 (Z.lor (ma_type a) MR_WITH_NETBITS)) n (ma_addr a)) = Ret k ∧
    wf_addr k ∧ ma_type k = Z.lor (ma_type a) MR_WITH_NETBITS ∧ ma_len k = ma_len a ∧ ma_netbits k = n ∧
    addr_value k = clear_host (addr_width a) n (addr_value a).
Proof.
  intros [(Hl & Hb & Hty & Hnb & Hlen) Hfam] Hn. destruct (with_netbits _ Hty) as [Hb8 Hmask]. rewrite u8_id by done.
  destruct (mask_ok little (MA (ma_len a) (Z.lor (ma_type a) MR_WITH_NETBITS) n (ma_addr a))) as (k & E & Hwf & H1 & H2 & H3 & H4).
  - split; [split_and!; cbn; first [done|ints; lia]|]. unfold family in *. cbn. by rewrite Hmask.
  - done.
  - exists k. by split_and!.
Qed.

(** The key answers to the network that contains the address. *)
Lemma try_covers a n k net :
  wf_addr k → ma_type k = Z.lor (ma_type a) MR_WITH_NETBITS → ma_len k = ma_len a → ma_netbits k = n →
  addr_value k = clear_host (addr_width a) n (addr_value a) → wf_addr net →
  mroute_addr_equal k net = true ↔ covers net a ∧ ma_netbits net = n.
Proof.
  intros Hk Ht Hl Hn Hv Hnet. split.
  - intros (H1 & H2 & H3 & H4)%equal_value. unfold covers. rewrite H1, H2, H3, H4, Ht, Hl, Hn, Hv. done.
  - intros ((H1 & H2 & H3) & H4). apply value_equal; try done; congruence.
Qed.
End host.

(** ** Learning the address of a host *)

Section host_learn.
Context (script : option nat → learn_op → mroute_addr → bool).

(** The routes afterwards. *)
Lemma learned_lookup now i addr flags m m' : table_ok m → learned script now i addr flags m m' → learns script now i addr m = true →
  ∃ id, m_routes m !! id = None ∧ ∀ j y, m_routes m' !! j = Some y ↔
    j = id ∧ y = new_route now i addr flags m ∨ m_routes m !! j = Some y ∧ mroute_addr_equal addr (mr_addr y) = false.
Proof.
  intros Ht [_ _ _ _ Hr] Hl. rewrite Hl in Hr. destruct Hr as (id & Hid & Hr). exists id. split; [done|].
  intros j y. rewrite Hr. by apply replaced_lookup.
Qed.

Lemma learned_same_nets now i addr flags m m' : table_ok m → learned script now i addr flags m m' → ¬ is_net addr → same_nets m m'.
Proof.
  intros Ht Hl Hnn net j. pose proof (learned_frame _ _ _ _ _ _ _ Hl) as Hf. destruct (learns script now i addr m) eqn:E.
  2: { apply frame_net_live; [done|]. pose proof (learned_routes _ _ _ _ _ _ _ Hl) as Hr. by rewrite E in Hr. }
  destruct (learned_lookup _ _ _ _ _ _ Ht Hl E) as (id & Hid & Hlk). unfold net_live. setoid_rewrite (frame_alive _ _ Hf). split.
  - intros (k & r & [[-> ->]|[Hr _]]%Hlk & <- & Hi & Hn & Ha); [done|]. by exists k, r.
  - intros (k & r & Hr & <- & Hi & Hn & Ha). exists k, r. split_and!; try done. apply Hlk. right. split; [done|].
    apply not_true_iff_false. intros He. apply Hnn. by apply (is_net_equal _ _ He).
Qed.

(** A route keeps what it says when a host address is learned. *)
Lemma learned_routes_ok now i addr flags m m' :
  table_ok m → routes_ok m → learned script now i addr flags m m' → ¬ is_net addr → route_ok m' (new_route now i addr flags m) → routes_ok m'.
Proof.
  intros Ht Hro Hl Hnn Hnew. pose proof (learned_frame _ _ _ _ _ _ _ Hl) as Hf.
  pose proof (learned_same_nets _ _ _ _ _ _ Ht Hl Hnn) as Hs.
  assert (∀ id r, m_routes m !! id = Some r → route_ok m' r) as Hold.
  { intros id r Hr. eapply frame_route_ok; [done|done|by eapply Hro]. }
  destruct (learns script now i addr m) eqn:E.
  - destruct (learned_lookup _ _ _ _ _ _ Ht Hl E) as (id & Hid & Hlk). intros j r [[-> ->]|[Hr _]]%Hlk; [done|by eapply Hold].
  - pose proof (learned_routes _ _ _ _ _ _ _ Hl) as Hr. rewrite E in Hr. unfold routes_ok. rewrite Hr. apply Hold.
Qed.
Lemma learned_routing now i addr flags m m' :
  routing_ok m → learned script now i addr flags m m' → ¬ is_net addr → route_ok m' (new_route now i addr flags m) → routing_ok m'.
Proof.
  intros [H1 H2 H3 H4] Hl Hnn Hnew. pose proof (learned_frame _ _ _ _ _ _ _ Hl) as Hf.
  split; [by eapply learned_heap|by eapply learned_table|by eapply frame_helper_inv|by eapply learned_routes_ok].
Qed.

(** Caching changes no host of a client. *)
Lemma cached_same_hosts now i addr m m' :
  table_ok m → learned script now i addr 3 m m' → owner_at now m addr = None → same_hosts m m'.
Proof.
  intros Ht Hl Hnone a j. pose proof (learned_frame _ _ _ _ _ _ _ Hl) as Hf. destruct (learns script now i addr m) eqn:E.
  2: { apply frame_host_live; [done|]. pose proof (learned_routes _ _ _ _ _ _ _ Hl) as Hr. by rewrite E in Hr. }
  destruct (learned_lookup _ _ _ _ _ _ Ht Hl E) as (id & Hid & Hlk). unfold host_live. setoid_rewrite (frame_alive _ _ Hf). split.
  - intros (k & r & [[-> ->]|[Hr _]]%Hlk & Ha & Hfl & Hi & Hal); [done|]. by exists k, r.
  - intros (k & r & Hr & Ha & Hfl & <- & Hal). exists k, r. split_and!; try done. apply Hlk. right. split; [done|].
    apply not_true_iff_false. intros He. rewrite owner_live in Hnone.
    rewrite (proj2 (live_route_spec now m addr k r Ht)) in Hnone; [done|]. split; [done|]. split; [done|]. by rewrite defined_static.
Qed.
End host_learn.

(** ** Looking an address up *)

Section lookup.
Context (little : bool) (script : option nat → learn_op → mroute_addr → bool).

Lemma netbits_is_net a k : is_byte (ma_type a) → ma_type k = Z.lor (ma_type a) MR_WITH_NETBITS → is_net k.
Proof.
  intros Hb Hk. unfold is_net. rewrite Hk.
  pose proof (byte_all (λ t, negb (Z.land (Z.lor t MR_WITH_NETBITS) MR_WITH_NETBITS =? 0)) eq_refl _ Hb) as Hq.
  by apply negb_true_iff, Z.eqb_neq in Hq.
Qed.

(** Searching for a network of length [n] that contains [a]. *)
Lemma try_live now a n k m :
  routing_ok m → host_addr a →
  wf_addr k → ma_type k = Z.lor (ma_type a) MR_WITH_NETBITS → ma_len k = ma_len a → ma_netbits k = n →
  addr_value k = clear_host (addr_width a) n (addr_value a) →
  match live_route now m k with
  | Some (_, r) => net_live m (mr_addr r) (mr_instance r) ∧ covers (mr_addr r) a ∧ ma_netbits (mr_addr r) = n
  | None => ∀ net i, net_live m net i → covers net a → ma_netbits net ≠ n
  end.
Proof.
  intros [Hh Ht Hhe Hr] [Hip Hho] Hk H1 H2 H3 H4. pose proof Hip as [(_ & _ & Hb & _) _].
  pose proof (netbits_is_net a k Hb H1) as Hnet. destruct (live_route now m k) as [[id r]|] eqn:E.
  - apply live_route_spec in E as (Hid & Hkr & Hd); [|done]. split.
    + exists id, r. split_and!; try done; [by apply (is_net_equal _ _ Hkr)|by eapply defined_alive].
    + by apply (try_covers a n k) in Hkr; [..|by eapply table_addr].
  - intros net i (id & r & Hid & <- & <- & Hn & Hal) Hc Hnb.
    assert (live_route now m k = Some (id, r)); [|congruence]. apply live_route_spec; [done|]. split; [done|]. split.
    + apply (try_covers a n k); try done. by eapply table_addr.
    + destruct (Hr _ _ Hid) as [[Hf _]|[_ ((_ & Hno) & _)]]; [by rewrite defined_static|done].
Qed.

Lemma cidr_loop_ok now a lens : ∀ m,
  routing_ok m → host_addr a → Forall (λ n, 0 ≤ n ≤ 128) lens →
  (∃ m', cidr_loop little script now a lens m = Ret (None, m') ∧ reordered m m' ∧
     ∀ net i, net_live m net i → covers net a → ma_netbits net ∉ lens) ∨
  (∃ m1 net i pre post, lens = pre ++ ma_netbits net :: post ∧ reordered m m1 ∧ net_live m net i ∧ covers net a ∧
     (∀ net' i', net_live m net' i' → covers net' a → ma_netbits net' ∉ pre) ∧
     cidr_loop little script now a lens m = ('(_, m') ← multi_learn_addr script now i a 3 m1; Ret (Some i, m'))).
Proof.
  induction lens as [|n lens IH]; intros m Hm Ha Hl.
  { left. exists m. split; [done|]. split; [apply reordered_refl; apply Hm|]. intros. apply not_elem_of_nil. }
  apply Forall_cons in Hl as [Hn Hl]. destruct (try_key little a n (proj1 Ha) Hn) as (k & Ek & Hk & K1 & K2 & K3 & K4).
  pose proof (try_live now a n k m Hm Ha Hk K1 K2 K3 K4) as Hlive. cbn [cidr_loop]. rewrite Ek. bret.
  destruct (find_route_ok now k m (routing_heap _ Hm) (routing_table _ Hm)) as (m1 & -> & Hre). bret.
  destruct (live_route now m k) as [[id r]|].
  - right. destruct Hlive as (H1 & H2 & H3). exists m1, (mr_addr r), (mr_instance r), [], lens. rewrite H3. split_and!; try done.
    intros. apply not_elem_of_nil.
  - assert (∀ net i, net_live m1 net i ↔ net_live m net i) as Hsn by (intros; by apply frame_net_live; apply Hre).
    destruct (IH m1 (reordered_routing _ _ Hre Hm) Ha Hl) as [(m' & -> & Hre' & Hno)|(m2 & net & i & pre & post & -> & Hre' & H1 & H2 & H3 & ->)].
    + left. exists m'. split; [done|]. split; [by eapply reordered_trans|]. intros net i Hnl Hc. apply not_elem_of_cons. split; [by eapply Hlive|].
      eapply Hno; [by apply Hsn|done].
    + right. exists m2, net, i, (n :: pre), post. split; [done|]. split; [by eapply reordered_trans|]. split; [by apply Hsn|]. split; [done|].
      split; [|done]. intros net' i' Hnl Hc. apply not_elem_of_cons. split; [by eapply Hlive|]. eapply H3; [by apply Hsn|done].
Qed.

Lemma used_range mh n : helper_ok mh → n ∈ used mh → 0 ≤ n ≤ 128.
Proof.
  intros _. unfold used. rewrite elem_of_used. assert (Z.of_nat MR_HELPER_NET_LEN = 129) as -> by reflexivity.
  intros [Hn _]. lia.
Qed.

Lemma used_desc mh : StronglySorted (λ a b, a > b) (used mh).
Proof. apply used_sorted. Qed.

(** The last use of a route changes nothing of where packets go. *)
Definition touch (now : Z) (r : multi_route) : multi_route := Route (mr_addr r) (mr_instance r) (mr_flags r) (mr_generation r) now.
Definition touched (now : Z) (id : nat) (r : multi_route) (m : multi_context) : multi_context :=
  set_routes (<[id := touch now r]> (m_routes m)) m.
Lemma touched_lookup now id r m j y : m_routes m !! id = Some r →
  m_routes (touched now id r m) !! j = Some y → ∃ z, m_routes m !! j = Some z ∧ mr_addr y = mr_addr z ∧ mr_instance y = mr_instance z ∧
    mr_flags y = mr_flags z ∧ mr_generation y = mr_generation z.
Proof.
  intros Hr. cbn. destruct (decide (j = id)) as [->|Hne]; [rewrite lookup_insert_eq|rewrite lookup_insert_ne by done].
  - intros [= <-]. by exists r.
  - intros Hy. by exists y.
Qed.
Lemma touched_lookup_inv now id r m j z : m_routes m !! id = Some r →
  m_routes m !! j = Some z → ∃ y, m_routes (touched now id r m) !! j = Some y ∧ mr_addr y = mr_addr z ∧ mr_instance y = mr_instance z ∧
    mr_flags y = mr_flags z ∧ mr_generation y = mr_generation z.
Proof.
  intros Hr Hz. cbn. destruct (decide (j = id)) as [->|Hne]; [rewrite lookup_insert_eq|rewrite lookup_insert_ne by done].
  - exists (touch now r). split; [done|]. rewrite Hr in Hz. by injection Hz as <-.
  - by exists z.
Qed.

Lemma touched_routing now id r m : routing_ok m → m_routes m !! id = Some r →
  routing_ok (touched now id r m) ∧ same_nets m (touched now id r m) ∧ same_hosts m (touched now id r m).
Proof.
  intros [[Hc Hlim Ho] [Hw Hs Hco Ha] Hhe Hro] Hr. set (m' := touched now id r m).
  assert (frame m m') as Hf by by apply frame_same.
  assert (same_nets m m') as Hsn.
  { intros net i. unfold net_live. split.
    - intros (j & y & Hy & <- & <- & ? & ?). destruct (touched_lookup _ _ _ _ _ _ Hr Hy) as (z & Hz & E1 & E2 & _). exists j, z. by rewrite E1, E2 in *.
    - intros (j & z & Hz & <- & <- & ? & ?). destruct (touched_lookup_inv now _ _ _ _ _ Hr Hz) as (y & Hy & E1 & E2 & _). exists j, y. by rewrite E1, E2 in *. }
  split; [|split; [done|]].
  - split; [split|split|by eapply frame_helper_inv|].
    + intros i x Hx. unfold counted, owned. cbn. rewrite (msum_same _ _ _ r) by done. by apply Hc.
    + done.
    + intros j y Hy. destruct (touched_lookup _ _ _ _ _ _ Hr Hy) as (z & Hz & _ & E & _). rewrite E. by eapply Ho.
    + done.
    + intros k j Hk. destruct (Hs _ _ Hk) as (z & Hz & Hkz). destruct (touched_lookup_inv now _ _ _ _ _ Hr Hz) as (y & Hy & E & _). exists y. by rewrite E.
    + intros j y Hy. destruct (touched_lookup _ _ _ _ _ _ Hr Hy) as (z & Hz & E & _). rewrite E. by apply Hco.
    + intros j y Hy. destruct (touched_lookup _ _ _ _ _ _ Hr Hy) as (z & Hz & E & _). rewrite E. by eapply Ha.
    + intros j y Hy. destruct (touched_lookup _ _ _ _ _ _ Hr Hy) as (z & Hz & E1 & E2 & E3 & E4).
      pose proof (frame_route_ok _ _ _ Hf Hsn (Hro _ _ Hz)) as Hz'. unfold route_ok, net_ok, cache_ok in *. by rewrite E1, E2, E3, E4.
  - intros a i. unfold host_live. split.
    + intros (j & y & Hy & ? & ? & <- & ?). destruct (touched_lookup _ _ _ _ _ _ Hr Hy) as (z & Hz & E1 & E2 & E3 & _). exists j, z. by rewrite E1, E2, E3 in *.
    + intros (j & z & Hz & ? & ? & <- & ?). destruct (touched_lookup_inv now _ _ _ _ _ Hr Hz) as (y & Hy & E1 & E2 & E3 & _). exists j, y. by rewrite E1, E2, E3 in *.
Qed.

(** What a lookup leaves: packets go where they went, and the routes to networks are
    what they were. *)
Record looked_up (m m' : multi_context) : Prop := {
  looked_routing : routing_ok m';
  looked_frame : frame m m';
  looked_nets : same_nets m m';
  looked_hosts : same_hosts m m';
  looked_size : n_elements (m_vhash m') ≤ n_elements (m_vhash m) + 1;
  looked_kept : ∀ id r, m_routes m' !! id = Some r → is_net (mr_addr r) → m_routes m !! id = Some r;
}.
Lemma looked_same_way m m' : looked_up m m' → same_way m m'.
Proof. intros [H Hf ? ? ? ?]. split; [done|done|by apply frame_alive|by apply frame_local]. Qed.
Lemma reordered_looked m m' : reordered m m' → routing_ok m → looked_up m m'.
Proof.
  intros Hr Hm. pose proof (reordered_frame _ _ Hr). pose proof (reordered_routes _ _ Hr). split; [by eapply reordered_routing|done| | | |].
  - intros net i. by apply frame_net_live.
  - intros a i. by apply frame_host_live.
  - rewrite (reordered_size _ _ Hr). lia.
  - intros id r Hi _. by rewrite (reordered_routes _ _ Hr) in Hi.
Qed.

Lemma net_live_alive m net i : net_live m net i → alive m i = true.
Proof. intros (id & r & _ & _ & _ & _ & H). exact H. Qed.
Lemma alive_instance m i : alive m i = true → ∃ x, m_instances m !! i = Some x ∧ mi_halt x = false.
Proof. unfold alive. destruct (m_instances m !! i) as [x|]; [|done]. intros ?%negb_true_iff. by exists x. Qed.

(** The route found for the address itself. *)
Lemma own_route now a m id r :
  routing_ok m → live_route now m a = Some (id, r) → routed m a (Some (mr_instance r)).
Proof.
  intros [Hh Ht Hhe Hr] Hl. apply live_route_spec in Hl as (Hid & Ha & Hd); [|done].
  destruct (Hr _ _ Hid) as [[Hf _]|[Hf (Hho & Hg & Hlo)]].
  - left. exists id, r. split_and!; try done. by eapply defined_alive.
  - right. split.
    + intros j (id' & r' & Hid' & Ha' & Hf' & _). pose proof (table_complete _ Ht _ _ Hid) as E1. pose proof (table_complete _ Ht _ _ Hid') as E2.
      rewrite (assoc_equal _ a) in E1, E2 by done. assert (id = id') as <- by congruence. rewrite Hid in Hid'. injection Hid' as <-. congruence.
    + eapply longest_equal; [done|]. unfold defined in Hd. rewrite !andb_true_iff in Hd. destruct Hd as [[Hal Hgen] _].
      apply Hlo; [|done]. apply negb_true_iff, bool_decide_eq_false in Hgen. destruct (decide (mr_generation r = cache_generation (m_helper m))); [done|].
      exfalso. apply Hgen. split; [|done]. unfold cached. by rewrite Hf.
Qed.

Lemma no_route_no_host now m a : routing_ok m → live_route now m a = None → ∀ j, ¬ host_live m a j.
Proof.
  intros Hm Hn j (id & r & Hid & Ha & Hf & <- & Hal).
  rewrite (proj2 (live_route_spec now m a id r (routing_table _ Hm))) in Hn; [done|]. split_and!; try done. by rewrite defined_static.
Qed.

(** The first prefix found is the longest. *)
Lemma first_longest m net i a pre post :
  routing_ok m → used (m_helper m) = pre ++ ma_netbits net :: post → net_live m net i → covers net a →
  (∀ net' i', net_live m net' i' → covers net' a → ma_netbits net' ∉ pre) → longest m a i.
Proof.
  intros Hm Hu Hn Hc Hpre. exists net. split; [done|]. split; [done|]. intros net' i' Hn' Hc'.
  pose proof (net_used _ _ _ Hm Hn') as Hin. pose proof (used_desc (m_helper m)) as Hs.
  rewrite Hu in Hin, Hs. apply elem_of_app in Hin as [Hin|Hin]; [by destruct (Hpre _ _ Hn' Hc')|].
  apply elem_of_cons in Hin as [->|Hin]; [lia|]. clear Hu Hpre. induction pre as [|p pre IH]; cbn in Hs; apply StronglySorted_inv in Hs as [Hs Hfo]; [|by apply IH].
  rewrite Forall_forall in Hfo. specialize (Hfo _ Hin). lia.
Qed.

Lemma lookup_ok now a m :
  routing_ok m → small (m_vhash m) → host_addr a →
  ∃ o m', multi_get_instance_by_virtual_addr little script now a true m = Ret (o, m') ∧ looked_up m m' ∧
    (if mroute_addr_equal a (m_local m) then o = None else routed m a o).
Proof.
  intros Hm Hsm Ha. unfold multi_get_instance_by_virtual_addr. destruct (mroute_addr_equal a (m_local m)) eqn:Eloc.
  { exists None, m. split; [done|]. split; [|done]. apply reordered_looked; [apply reordered_refl; apply Hm|done]. }
  destruct (find_route_ok now a m (routing_heap _ Hm) (routing_table _ Hm)) as (m1 & -> & Hre). bret.
  pose proof (reordered_looked _ _ Hre Hm) as [Hm1 Hf1 Hn1 Hh1 Hs1 Hk1]. destruct (live_route now m a) as [[id r]|] eqn:El.
  - bret. fold (touch now r). fold (touched now id r m1). exists (Some (mr_instance r)), (touched now id r m1).
    pose proof (own_route now a m id r Hm El) as Hro. apply live_route_spec in El as (Hid & Hra & Hd); [|apply Hm].
    assert (m_routes m1 !! id = Some r) as Hid1 by (by rewrite (reordered_routes _ _ Hre)).
    destruct (touched_routing now id r m1 Hm1 Hid1) as (Hm2 & Hn2 & Hh2).
    assert (alive m1 (mr_instance r) = true) as Hal by (rewrite (frame_alive _ _ Hf1); by eapply defined_alive).
    destruct (alive_instance _ _ Hal) as (x & Hx & Hhalt).
    split; [|split; [|done]].
    + unfold get_instance. cbn. rewrite Hx. cbn [of_option]. bret. rewrite ASSERT_ok by done. by bret.
    + split; [done|eapply frame_trans; [done|by apply frame_same]| | | |].
      * intros net i. by rewrite (Hn2 net i), (Hn1 net i).
      * intros b i. by rewrite (Hh2 b i), (Hh1 b i).
      * cbn. rewrite (reordered_size _ _ Hre). lia.
      * intros id' r'. unfold touched. cbn [m_routes set_routes]. intros [[<- <-]|[_ Hi]]%lookup_insert_Some Hn; [|by apply Hk1].
        destruct (proj2 Ha). by apply (is_net_equal _ _ Hra).
  - pose proof (helper_valid _ _ (routing_helper _ Hm1)) as Hhe. pose proof Hhe as (_ & _ & _ & Hnl & Htk & _).
    rewrite Hnl, Nat2Z.id, Htk.
    assert (∀ j, ¬ host_live m1 a j) as Hno by (intros j Hj%Hh1; exact (no_route_no_host now m a Hm El j Hj)).
    destruct (cidr_loop_ok now a (used (m_helper m1)) m1 Hm1 Ha) as [(m2 & -> & Hre2 & Hun)|(m2 & net & i & pre & post & Hu & Hre2 & Hnl2 & Hcov & Hpre & ->)].
    + apply Forall_forall. intros n Hn. by eapply used_range.
    + bret. exists None, m2. split; [done|]. split; [apply reordered_looked; [by eapply reordered_trans|done]|].
      apply (same_routed m1); [by apply same_nets_sym|intros ??; by rewrite (Hh1 _ _)|]. split; [done|].
      intros net i Hn Hc. eapply Hun; [done|done|by eapply net_used].
    + pose proof (reordered_looked _ _ Hre2 Hm1) as [Hm2 Hf2 Hn2 Hh2 Hs2 Hk2].
      assert (longest m1 a i) as Hlo by (by eapply first_longest).
      assert (alive m2 i = true) as Hal by (rewrite (frame_alive _ _ Hf2); exact (net_live_alive _ _ _ Hnl2)).
      destruct (learn_ok script now i a 3 m2) as (m3 & -> & Hl); [apply Hm2|apply Hm2| |done|apply Ha|].
      { unfold small in *. rewrite (reordered_size _ _ Hre2), (reordered_size _ _ Hre). done. }
      bret. assert (owner_at now m2 a = None) as Hown.
      { rewrite owner_live, (reordered_live now m1 m2), (reordered_live now m m1), El by done. done. }
      pose proof (learned_frame _ _ _ _ _ _ _ Hl) as Hf3.
      pose proof (learned_same_nets _ _ _ _ _ _ _ (routing_table _ Hm2) Hl (proj2 Ha)) as Hn3.
      pose proof (cached_same_hosts _ _ _ _ _ _ (routing_table _ Hm2) Hl Hown) as Hh3.
      exists (Some i), m3. assert (alive m3 i = true) as Hal3 by (by rewrite (frame_alive _ _ Hf3)).
      destruct (alive_instance _ _ Hal3) as (x & Hx & Hhalt). split; [|split].
      * unfold get_instance. rewrite Hx. cbn [of_option]. bret. rewrite ASSERT_ok by done. by bret.
      * split.
        -- eapply learned_routing; [done|done|apply Ha|]. right. split; [done|]. split; [done|]. cbn.
           rewrite (decide_True (P := Z.land 3 MULTI_ROUTE_CACHE ≠ 0)), (frame_helper _ _ Hf3) by done. split; [lia|]. intros _ _. eapply same_longest; [done|]. by eapply same_longest.
        -- eapply frame_trans; [done|]. by eapply frame_trans.
        -- intros x1 x2. by rewrite (Hn3 _ _), (Hn2 _ _), (Hn1 _ _).
        -- intros x1 x2. by rewrite (Hh3 _ _), (Hh2 _ _), (Hh1 _ _).
        -- pose proof (learned_size _ _ _ _ _ _ _ Hl). pose proof (reordered_size _ _ Hre2). pose proof (reordered_size _ _ Hre). lia.
        -- intros id r Hi Hn. apply Hk1; [|done]. apply Hk2; [|done]. pose proof (learned_routes _ _ _ _ _ _ _ Hl) as Hro.
           destruct (learns script now i a m2); [|by rewrite Hro in Hi]. destruct Hro as (id' & _ & Hro). rewrite Hro in Hi.
           apply lookup_insert_Some in Hi as [[<- <-]|[_ Hi]]; [by destruct (proj2 Ha Hn)|]. by apply (routes_but_lookup a m2 id r (routing_table _ Hm2)) in Hi as [Hi _].
      * apply (same_routed m1); [by apply same_nets_sym|intros ??; by rewrite (Hh1 _ _)|]. right. by split.
Qed.
End lookup.

(** ** Packets have one way to go *)

Lemma route_unique m a id id' r r' : table_ok m → m_routes m !! id = Some r → m_routes m !! id' = Some r' →
  mroute_addr_equal a (mr_addr r) = true → mroute_addr_equal a (mr_addr r') = true → r = r'.
Proof.
  intros Ht Hr Hr' Ha Ha'. pose proof (table_complete _ Ht _ _ Hr) as E. pose proof (table_complete _ Ht _ _ Hr') as E'.
  rewrite (assoc_equal _ a) in E, E' by done. congruence.
Qed.
Lemma host_unique m a i j : table_ok m → host_live m a i → host_live m a j → i = j.
Proof. intros Ht (id & r & Hr & Ha & _ & <- & _) (id' & r' & Hr' & Ha' & _ & <- & _). by rewrite (route_unique m a id id' r r'). Qed.
Lemma longest_unique m a i j : table_ok m → longest m a i → longest m a j → i = j.
Proof.
  intros Ht (net & Hn & Hc & Hmax) (net' & Hn' & Hc' & Hmax').
  assert (ma_netbits net = ma_netbits net') as Hb by (pose proof (Hmax _ _ Hn' Hc'); pose proof (Hmax' _ _ Hn Hc); lia).
  destruct Hn as (id & r & Hr & <- & <- & _). destruct Hn' as (id' & r' & Hr' & <- & <- & _).
  assert (mroute_addr_equal (mr_addr r) (mr_addr r') = true) as He.
  { destruct Hc as (H1 & H2 & H3), Hc' as (H1' & H2' & H3'). apply value_equal; [by eapply table_addr|by eapply table_addr|congruence..]. }
  by rewrite (route_unique m (mr_addr r) id id' r r' Ht Hr Hr' (equal_refl _) He).
Qed.
Lemma routed_unique m a o o' : table_ok m → routed m a o → routed m a o' → o = o'.
Proof.
  intros Ht. unfold routed, uncovered. destruct o as [i|], o' as [j|]; [| | |done].
  - intros [H|[Hn H]] [H'|[Hn' H']]; [by rewrite (host_unique m a i j)|by destruct (Hn' i)|by destruct (Hn j)|by rewrite (longest_unique m a i j)].
  - intros [H|[Hn (net & Hl & Hc & _)]] [Hn' Hu]; [by destruct (Hn' i)|by destruct (Hu net i)].
  - intros [Hn' Hu] [H|[Hn (net & Hl & Hc & _)]]; [by destruct (Hn' j)|by destruct (Hu net j)].
Qed.
