(* ===== verification/OvpnMultiOpsProofs.v ===== *)
(** * OpenVPN: changes of the routing table, proved

    Each change of the table (a client that comes or goes, its addresses and networks,
    reaping) is computed and keeps [routing_ok]. *)
From stdpp Require Import gmap.
From S2P Require Import Prelude OvpnBuffer OvpnPacketId OvpnFrame OvpnList OvpnMbuf OvpnPool OvpnPoolProofs OvpnProto OvpnProtoProofs OvpnNatProofs OvpnMroute OvpnMrouteProofs OvpnPf OvpnMulti OvpnMultiProofs.
#[local] Open Scope bool_scope.
#[local] Open Scope Z_scope.

(** ** Addresses of hosts *)

Section host_ops.
Context (little : bool) (script : option nat → learn_op → mroute_addr → bool).

(** A client's own address. *)
Lemma learn_host_ok now i addr m :
  routing_ok m → small (m_vhash m) → alive m i = true → wf_addr addr → ¬ is_net addr →
  ∃ m', multi_learn_addr script now i addr 0 m = Ret (if learns script now i addr m then Some i else owner_at now m addr, m') ∧
    learned script now i addr 0 m m' ∧ routing_ok m'.
Proof.
  intros Hm Hsm Hal Hwf Hnn. destruct (learn_ok script now i addr 0 m) as (m' & E & Hl); [apply Hm|apply Hm|done..|].
  exists m'. split; [done|]. split; [done|]. eapply learned_routing; [done|done|done|]. by left.
Qed.

Definition in_addr (a n : Z) : mroute_addr :=
  let addr := (mroute_extract_openvpn_sockaddr (In4 (host32_bytes little (htonl little a)) [0; 0]) false mroute_addr_init).2 in
  if decide (n >= 0) then MA (ma_len addr) (u8 (Z.lor (ma_type addr) MR_WITH_NETBITS)) (u8 n) (ma_addr addr) else addr.

Lemma init_wf : wf_addr mroute_addr_init.
Proof. split; [done|]. split; [by apply Forall_replicate|]. by repeat split. Qed.

Lemma in_addr_ok a n : is_u32 a → n < 256 →
  wf_addr (in_addr a n) ∧ ma_len (in_addr a n) = 4 ∧ addr_value (in_addr a n) = a ∧
  (if decide (n >= 0) then ma_type (in_addr a n) = 10 ∧ ma_netbits (in_addr a n) = n else ma_type (in_addr a n) = 2 ∧ ma_netbits (in_addr a n) = 0).
Proof.
  intros Ha Hn. unfold in_addr. cbn [mroute_extract_openvpn_sockaddr snd]. rewrite htonl_bytes by done.
  assert (wf_addr (set_addr 4 MR_ADDR_IPV4 0 (be32 a) mroute_addr_init)) as (W1 & W2 & W3 & W4 & W5).
  { apply set_addr_wf; [apply init_wf|apply be32_bytes|rewrite length_be32; lia|done|done|done]. }
  assert (addr_value (set_addr 4 MR_ADDR_IPV4 0 (be32 a) mroute_addr_init) = a) as Hv by (rewrite set_addr_value by done; by apply be_val_be32).
  case_decide.
  - rewrite (u8_id n) by (ints; lia). split; [|done]. split; [done|]. split; [done|]. split; [done|]. split; [|done]. cbn. ints. lia.
  - split; [|done]. by split_and!.
Qed.

Lemma in_addr_net a n : is_u32 a → n < 256 → is_net (in_addr a n) ↔ 0 ≤ n.
Proof.
  intros Ha Hn. destruct (in_addr_ok a n Ha Hn) as (_ & _ & _ & Ht). unfold is_net.
  case_decide; destruct Ht as [-> _]; cbn; (split; [lia|done] || (split; [done|lia])).
Qed.

Lemma learn_in_addr_eq now i a n m : multi_learn_in_addr_t little script now i a n m = multi_learn_addr script now i (in_addr a n) 0 m.
Proof. done. Qed.

Definition in6_addr (a6 : list Z) (n : Z) : mroute_addr :=
  if decide (n >= 0) then
    match mroute_addr_mask_host_bits little (MA 16 11 (u8 n) (splice 0 a6 (ma_addr mroute_addr_init))) with Ret k => k | _ => mroute_addr_init end
  else set_addr 16 MR_ADDR_IPV6 0 a6 mroute_addr_init.

Lemma in6_addr_ok a6 n : length a6 = 16%nat → Forall is_byte a6 → n ≤ 128 →
  wf_addr (in6_addr a6 n) ∧ ma_len (in6_addr a6 n) = 16 ∧
  (if decide (n >= 0) then ma_type (in6_addr a6 n) = 11 ∧ ma_netbits (in6_addr a6 n) = n ∧
       addr_value (in6_addr a6 n) = clear_host 128 n (be_val a6) ∧
       mroute_addr_mask_host_bits little (MA 16 11 (u8 n) (splice 0 a6 (ma_addr mroute_addr_init))) = Ret (in6_addr a6 n)
   else ma_type (in6_addr a6 n) = 3 ∧ ma_netbits (in6_addr a6 n) = 0 ∧ addr_value (in6_addr a6 n) = be_val a6).
Proof.
  intros Hl Hb Hn. unfold in6_addr. case_decide.
  - assert (wf_addr (set_addr 16 11 n a6 mroute_addr_init)) as W.
    { apply set_addr_wf; [apply init_wf|done|lia|ints; lia|ints; lia|lia]. }
    rewrite (u8_id n) by (ints; lia).
    destruct (mask_ok little (set_addr 16 11 n a6 mroute_addr_init)) as (k & E & K1 & K2 & K3 & K4 & K5).
    { split; [done|]. by right. }
    { cbn. lia. }
    change (MA 16 11 n (splice 0 a6 (ma_addr mroute_addr_init))) with (set_addr 16 11 n a6 mroute_addr_init). rewrite E.
    split; [done|]. split; [done|]. split; [done|]. split; [done|]. split; [|done].
    rewrite K5, set_addr_value by (by rewrite Hl). done.
  - split; [|split; [done|]].
    + apply set_addr_wf; [apply init_wf|done|lia|done|done|lia].
    + split; [done|]. split; [done|]. apply set_addr_value. by rewrite Hl.
Qed.

Lemma learn_in6_addr_eq now i a6 n m : length a6 = 16%nat → Forall is_byte a6 → n ≤ 128 →
  multi_learn_in6_addr little script now i a6 n m = multi_learn_addr script now i (in6_addr a6 n) 0 m.
Proof.
  intros Hl Hb Hn. destruct (in6_addr_ok a6 n Hl Hb Hn) as (_ & _ & Hk). unfold multi_learn_in6_addr. revert Hk.
  unfold in6_addr. case_decide; intros Hk; [|done]. destruct Hk as (_ & _ & _ & Hk).
  change (u8 (Z.lor (ma_type (set_addr 16 MR_ADDR_IPV6 0 a6 mroute_addr_init)) MR_WITH_NETBITS)) with 11.
  cbn [set_addr ma_len ma_addr]. rewrite Hk. by bret.
Qed.

(** ** Networks of a client *)

Lemma clear_host_idem w n v : clear_host w n (clear_host w n v) = clear_host w n v.
Proof.
  unfold clear_host. case_decide; [|done]. rewrite (Zminus_mod_idemp_r v v), Z.sub_diag, Zmod_0_l. lia.
Qed.


Definition lens4 (irs : list iroute) : list Z := filter (λ n, 0 ≤ n) (netbits <$> irs).
Definition iroute_ok (ir : iroute) : Prop :=
  -1 ≤ netbits ir < 32 ∧ is_u32 (network ir) ∧ (0 ≤ netbits ir → clear_host 32 (netbits ir) (network ir) = network ir).
Definition iroute6_ok (ir : iroute_ipv6) : Prop :=
  length (network6 ir) = 16%nat ∧ Forall is_byte (network6 ir) ∧ 0 ≤ netbits6 ir ≤ 128.

(** The reaper's own state. *)
Definition reaper_ok (m : multi_context) : Prop := 0 ≤ bucket_base (m_reaper m) ∧ 0 ≤ buckets_per_pass (m_reaper m) ≤ REAP_MAX.

(** While the networks of client [i] are added: the lengths [l] of its [L] are left, and
    there is room for [k] more routes. *)
Record adding (i : nat) (L l : list Z) (m : multi_context) : Prop := {
  adding_heap : heap_ok m;
  adding_table : table_ok m;
  adding_helper : helper_left l m;
  adding_routes : routes_ok m;
  adding_reaper : reaper_ok m;
  adding_client : ∃ x, m_instances m !! i = Some x ∧ mi_halt x = false ∧ mi_did_iroutes x = true ∧ lengths x = L;
}.
Definition room (k : Z) (m : multi_context) : Prop :=
  n_elements (m_vhash m) + k ≤ INT_MAX ∧ cache_generation (m_helper m) + k < 2 ^ 32 ∧ ∀ n, 0 ≤ n → msum (uses n) (m_instances m) ≤ INT_MAX.

Lemma times_cons n x l : times n (x :: l) = (if decide (x = n) then 1 else 0) + times n l.
Proof. unfold times. rewrite filter_cons. case_decide; cbn [length]; lia. Qed.
Lemma times_app n l l' : times n (l ++ l') = times n l + times n l'.
Proof. unfold times. rewrite filter_app, length_app. lia. Qed.

(** A length is counted; cached routes are of an earlier generation afterwards. *)
Definition stale (m : multi_context) : Prop :=
  ∀ id r, m_routes m !! id = Some r → mr_flags r = 3 → mr_generation r < cache_generation (m_helper m).
Lemma count_step i L n l m :
  adding i L (n :: l) m → room 1 m → n ∈ L →
  ∃ h, add_netbits n (m_helper m) = Ret h ∧ adding i L l (set_helper h m) ∧ stale (set_helper h m) ∧
    cache_generation h = cache_generation (m_helper m) + 1.
Proof.
  intros [H1 H2 [Hv Hc Hl] H4 Hre (x & Hx & Hh & Hd & HL)] (R1 & R2 & R3) Hn. subst L.
  pose proof (Hl _ _ _ Hx Hn) as Hr. pose proof (Hc n (proj1 Hr)) as Hcn. rewrite times_cons, decide_True in Hcn by done.
  pose proof (times_nonneg n l). specialize (R3 n (proj1 Hr)).
  destruct (add_netbits_ok n (m_helper m) Hv Hr) as (h & E & Hv' & Hc' & Hg & Ht); [ints; lia|]. exists h.
  pose proof Hv as (_ & _ & _ & _ & _ & Hgr). unfold is_u32 in Hgr. rewrite (wrap_small 32) in Hg by lia.
  assert (∀ id r, m_routes m !! id = Some r → mr_flags r = 3 → mr_generation r < cache_generation h) as Hst.
  { intros id r Hr' Hf. destruct (H4 _ _ Hr') as [[Hf0 _]|[_ (_ & Hge & _)]]; [congruence|lia]. }
  split; [done|]. split; [|done]. split.
  - by eapply heap_ok_ext.
  - apply (table_ok_ext m); [done|apply H2|done|done].
  - split; [done| |done]. cbn. intros k Hk. rewrite Hc' by done. specialize (Hc k Hk). rewrite times_cons in Hc.
    repeat case_decide; subst; try done; lia.
  - intros id r Hr'. destruct (H4 _ _ Hr') as [[Hf Hnet]|[Hf (Ha & Hge & Hlo)]]; [by left|right]. split; [done|]. split; [done|].
    specialize (Hst _ _ Hr' Hf). cbn. split; [lia|]. intros Heq. lia.
  - done.
  - by exists x.
Qed.

(** A network is learned when no cached route is valid. *)
Lemma learned_net_routes_ok now i addr m m' :
  table_ok m → routes_ok m → stale m → learned script now i addr 0 m m' → net_ok m' (new_route now i addr 0 m) → routes_ok m'.
Proof.
  intros Ht Hro Hst Hl Hnew. pose proof (learned_frame _ _ _ _ _ _ _ Hl) as Hf.
  assert (∀ id r, m_routes m !! id = Some r → route_ok m' r) as Hold.
  { intros id r Hr. destruct (Hro _ _ Hr) as [[H0 Hn]|[H3 (Ha & Hg & Hlo)]]; [left|right]; (split; [done|]).
    - intros Hin. eapply frame_net_ok; [done|by apply Hn].
    - specialize (Hst _ _ Hr H3). unfold cache_ok. rewrite (frame_helper _ _ Hf). split; [done|]. split; [done|]. lia. }
  destruct (learns script now i addr m) eqn:E.
  - destruct (learned_lookup _ _ _ _ _ _ _ Ht Hl E) as (id & Hid & Hlk). intros j r [[-> ->]|[Hr _]]%Hlk; [by left|by eapply Hold].
  - pose proof (learned_routes _ _ _ _ _ _ _ Hl) as Hr. rewrite E in Hr. unfold routes_ok. rewrite Hr. apply Hold.
Qed.

(** The state after learning one of the networks. *)
Lemma adding_learned i L l now addr m m' :
  adding i L l m → learned script now i addr 0 m m' → routes_ok m' → adding i L l m'.
Proof.
  intros [H1 H2 H3 H4 Hre (x & Hx & Hh & Hd & HL)] Hl Hro. pose proof (learned_frame _ _ _ _ _ _ _ Hl) as Hf.
  split; [by eapply learned_heap|by eapply learned_table|by eapply frame_helper_inv|done|unfold reaper_ok; by rewrite (frame_reaper _ _ Hf)|].
  assert (alive m i = true) as Hal by (unfold alive; by rewrite Hx, Hh). rewrite <- (frame_alive _ _ Hf) in Hal.
  unfold alive in Hal. destruct (m_instances m' !! i) as [y|] eqn:Hy; [|done].
  destruct (frame_static _ _ Hf _ _ Hy) as (z & Hz & a & b & ->). rewrite Hx in Hz. injection Hz as <-. by eexists.
Qed.
Lemma room_learned k now i addr m m' : room (k + 1) m → learned script now i addr 0 m m' → room k m'.
Proof.
  intros (R1 & R2 & R3) Hl. pose proof (learned_frame _ _ _ _ _ _ _ Hl) as Hf. pose proof (learned_size _ _ _ _ _ _ _ Hl).
  unfold room. rewrite (frame_helper _ _ Hf). split; [lia|]. split; [lia|]. intros n Hn. rewrite (frame_uses _ _ Hf). by apply R3.
Qed.

(** One network: its length is counted, its route learned. *)
Lemma add_net_ok now i L n l addr k m :
  adding i L (n :: l) m → room (k + 1) m → 0 ≤ k → n ∈ L → is_net addr →
  ip_addr addr → ma_netbits addr = n → n ≤ addr_width addr → clear_host (addr_width addr) n (addr_value addr) = addr_value addr →
  ∃ h o m', add_netbits n (m_helper m) = Ret h ∧ multi_learn_addr script now i addr 0 (set_helper h m) = Ret (o, m') ∧
    adding i L l m' ∧ room k m' ∧ learned script now i addr 0 (set_helper h m) m' ∧
    cache_generation h ≤ cache_generation (m_helper m) + 1.
Proof.
  intros Had Hroom Hk Hn Hnet Hip Hnb Hw Hc. destruct Hroom as (R1 & R2 & R3).
  destruct (count_step i L n l m Had) as (h & E & Had2 & Hst & Hg); [split; [lia|split; [lia|done]]|done|]. exists h.
  pose proof Had2 as [H1 H2 H3 H4 _ (x & Hx & Hh & Hd & HL)].
  destruct (learn_ok script now i addr 0 (set_helper h m) H1 H2) as (m' & E2 & Hl).
  { unfold small. cbn. lia. }
  { unfold alive. by rewrite Hx, Hh. }
  { apply Hip. }
  eexists _, m'. split; [done|]. split; [done|]. pose proof (learned_frame _ _ _ _ _ _ _ Hl) as Hf. split; [|split; [|split; [done|lia]]].
  - eapply adding_learned; [done|done|]. eapply learned_net_routes_ok; [done..|]. split; [done|]. cbn [new_route mr_addr mr_instance].
    assert (0 ≤ n) as Hn0. { destruct H3 as [_ _ Hl3]. rewrite <- HL in Hn. by destruct (Hl3 _ _ _ Hx Hn). }
    rewrite Hnb. split; [lia|]. split; [done|].
    intros y Hy _. destruct (frame_static _ _ Hf _ _ Hy) as (z & Hz & a & b & ->). rewrite Hx in Hz. injection Hz as <-.
    split; [done|]. change (lengths (set_counts a b x)) with (lengths x). by rewrite HL.
  - pose proof (learned_size _ _ _ _ _ _ _ Hl) as Hsz. cbn in Hsz. unfold room. rewrite (frame_helper _ _ Hf). cbn. split; [lia|]. split; [lia|].
    intros j Hj. rewrite (frame_uses _ _ Hf). by apply R3.
Qed.

Lemma in_addr_ip a n : is_u32 a → n < 256 → ip_addr (in_addr a n).
Proof.
  intros Ha Hn. destruct (in_addr_ok a n Ha Hn) as (W & Hl & _ & Ht). split; [done|]. left. split; [|done].
  unfold family. case_decide; by destruct Ht as [-> _].
Qed.

Lemma add_iroute_ok now i L ir l k m :
  adding i L (lens4 [ir] ++ l) m → room (k + 1) m → 0 ≤ k → iroute_ok ir → (∀ n, n ∈ lens4 [ir] → n ∈ L) →
  ∃ h m', add_iroute little script now i ir m = Ret m' ∧ adding i L l m' ∧ room k m' ∧
    learned script now i (in_addr (network ir) (netbits ir)) 0 (set_helper h m) m' ∧
    cache_generation h ≤ cache_generation (m_helper m) + 1.
Proof.
  intros Had Hroom Hk (Hn & Hnw & Hc) HL. unfold add_iroute, mroute_helper_add_iroute.
  destruct (in_addr_ok (network ir) (netbits ir) Hnw ltac:(lia)) as (W & Hlen & Hv & Ht). pose proof Hroom as (R1 & R2 & R3).
  destruct (decide (netbits ir >= 0)) as [Hge|Hlt].
  - assert (lens4 [ir] ++ l = netbits ir :: l) as E by (unfold lens4; cbn; by rewrite decide_True by lia). rewrite E in Had.
    destruct (add_net_ok now i L (netbits ir) l (in_addr (network ir) (netbits ir)) k m) as (h & o & m' & -> & E2 & Had' & Hroom' & Hl & Hgen);
      [done|done|done|apply HL; rewrite <- (app_nil_r (lens4 [ir])), (app_inv_tail l (lens4 [ir]) [netbits ir] E); by left|apply in_addr_net; [done|lia|lia]|apply in_addr_ip; [done|lia]|apply Ht|..].
    + unfold addr_width. rewrite Hlen. lia.
    + unfold addr_width. rewrite Hlen, Hv. apply Hc. lia.
    + bret. rewrite learn_in_addr_eq, E2. bret. by exists h, m'.
  - assert (lens4 [ir] ++ l = l) as E by (unfold lens4; cbn; by rewrite decide_False by lia). rewrite E in Had. bret.
    assert (set_helper (m_helper m) m = m) as -> by (by destruct m). rewrite learn_in_addr_eq.
    pose proof Had as [H1 H2 H3 H4 _ (x & Hx & Hh & Hd & HL2)].
    assert (¬ is_net (in_addr (network ir) (netbits ir))) as Hnn by (rewrite in_addr_net by (done || lia); lia).
    destruct (learn_ok script now i (in_addr (network ir) (netbits ir)) 0 m H1 H2) as (m' & -> & Hl).
    { unfold small. lia. }
    { unfold alive. by rewrite Hx, Hh. }
    { done. }
    bret. exists (m_helper m), m'. assert (set_helper (m_helper m) m = m) as -> by (by destruct m).
    split; [done|]. split; [|split; [by eapply room_learned|split; [done|lia]]]. eapply adding_learned; [done|done|]. eapply learned_routes_ok; [done..|]. left. split; [done|]. done.
Qed.

Lemma add_iroute6_ok now i L ir l k m :
  adding i L ([netbits6 ir] ++ l) m → room (k + 1) m → 0 ≤ k → iroute6_ok ir → (∀ n, n ∈ [netbits6 ir] → n ∈ L) →
  ∃ h m', add_iroute6 little script now i ir m = Ret m' ∧ adding i L l m' ∧ room k m' ∧
    learned script now i (in6_addr (network6 ir) (netbits6 ir)) 0 (set_helper h m) m' ∧
    cache_generation h ≤ cache_generation (m_helper m) + 1.
Proof.
  intros Had Hroom Hk (Hl6 & Hb & Hn) HL. unfold add_iroute6, mroute_helper_add_iroute6. rewrite decide_True by lia. rewrite s32_id by (ints; lia).
  destruct (in6_addr_ok (network6 ir) (netbits6 ir) Hl6 Hb ltac:(lia)) as (W & Hlen & Ht). rewrite decide_True in Ht by lia.
  destruct Ht as (Hty & Hnb & Hv & _). pose proof Hroom as (R1 & R2 & R3).
  destruct (add_net_ok now i L (netbits6 ir) l (in6_addr (network6 ir) (netbits6 ir)) k m) as (h & o & m' & -> & E2 & Had' & Hroom' & Hl & Hgen); try done.
  - apply HL. by left.
  - unfold is_net. by rewrite Hty.
  - split; [done|]. right. split; [|done]. unfold family. by rewrite Hty.
  - unfold addr_width. rewrite Hlen. lia.
  - unfold addr_width. rewrite Hlen, Hv. apply clear_host_idem.
  - bret. rewrite learn_in6_addr_eq by (done || lia). rewrite E2. bret. by exists h, m'.
Qed.

(** *** A list of networks *)

(** Client [i] has the network [net]. *)
Definition has_net (m : multi_context) (net : mroute_addr) (i : nat) : Prop :=
  ∃ net', mroute_addr_equal net net' = true ∧ net_live m net' i.
(** It may have [k] more routes. *)
Definition allowance (k : Z) (i : nat) (m : multi_context) : Prop :=
  ∃ x, m_instances m !! i = Some x ∧ owned i m + k ≤ mi_max_routes x.

Lemma has_net_learned now i addr m m' net : table_ok m → learned script now i addr 0 m m' → has_net m net i → has_net m' net i.
Proof.
  intros Ht Hl (net' & He & id & r & Hr & <- & Hi & Hn & Hal). pose proof (learned_frame _ _ _ _ _ _ _ Hl) as Hf. rewrite <- (frame_alive _ _ Hf) in Hal.
  destruct (learns script now i addr m) eqn:E.
  - destruct (learned_lookup _ _ _ _ _ _ _ Ht Hl E) as (id2 & Hid & Hlk). destruct (mroute_addr_equal addr (mr_addr r)) eqn:Ea.
    + exists addr. split; [eapply equal_trans; [done|by apply equal_sym]|]. exists id2, (new_route now i addr 0 m).
      split; [apply Hlk; by left|]. split_and!; try done. by apply (is_net_equal _ _ Ea).
    + exists (mr_addr r). split; [done|]. exists id, r. split_and!; try done. apply Hlk. by right.
  - pose proof (learned_routes _ _ _ _ _ _ _ Hl) as Hr'. rewrite E in Hr'. exists (mr_addr r). split; [done|]. exists id, r. by rewrite Hr'.
Qed.

Lemma owned_learned now i addr m m' : learned script now i addr 0 m m' → owned i m' ≤ owned i m + 1.
Proof.
  intros Hl. pose proof (learned_routes _ _ _ _ _ _ _ Hl) as Hr. unfold owned. destruct (learns script now i addr m); [|rewrite Hr; lia].
  destruct Hr as (id & Hid & ->). assert (msum (owns i) (routes_but addr m) ≤ msum (owns i) (m_routes m) ∧ routes_but addr m !! id = None) as [Hle Hno].
  { unfold routes_but. destruct (assoc (m_vhash m) addr) as [o|]; [|by split]. split; [|by rewrite lookup_delete_None; right].
    destruct (m_routes m !! o) as [r|] eqn:Ho; [|by rewrite delete_id by done].
    rewrite (msum_delete _ _ _ r) by done. pose proof (owns_nonneg i r). lia. }
  rewrite msum_insert by done. unfold owns at 1. case_decide; lia.
Qed.
Lemma allowance_learned k now i addr m m' : learned script now i addr 0 m m' → alive m i = true → allowance (k + 1) i m → allowance k i m'.
Proof.
  intros Hl Hal (x & Hx & Hq). pose proof (learned_frame _ _ _ _ _ _ _ Hl) as Hf. rewrite <- (frame_alive _ _ Hf) in Hal.
  destruct (alive_instance _ _ Hal) as (y & Hy & _). destruct (frame_static _ _ Hf _ _ Hy) as (z & Hz & a & b & ->).
  rewrite Hx in Hz. injection Hz as <-. eexists. split; [done|]. pose proof (owned_learned _ _ _ _ _ Hl). cbn. lia.
Qed.

(** A network that can be learned is the client's afterwards. *)
Lemma learned_has_net now i addr m m' :
  heap_ok m → table_ok m → alive m i = true → learned script now i addr 0 m m' → (∀ op a, script (Some i) op a = true) → allowance 1 i m →
  is_net addr → learnable addr = true → mroute_addr_equal addr (m_local m) = false → has_net m' addr i.
Proof.
  intros Hh Ht Hal Hl Hsc (x & Hx & Hq) Hn Hle Hlo. destruct (decide (owner_at now m addr = Some i)) as [Ho|Ho].
  - eapply has_net_learned; [done|done|]. rewrite owner_live in Ho. destruct (live_route now m addr) as [[id r]|] eqn:E; [|done].
    injection Ho as <-. apply live_route_spec in E as (Hr & He & _); [|done]. exists (mr_addr r). split; [done|]. exists id, r. split_and!; try done.
    by apply (is_net_equal _ _ He).
  - assert (learns script now i addr m = true) as E.
    { unfold learns, wanted, quota. rewrite Hx, Hsc, Hle, Hlo, bool_decide_eq_true_2 by done. destruct (heap_counted _ Hh _ _ Hx) as (-> & _).
      rewrite bool_decide_eq_false_2 by lia. done. }
    destruct (learned_lookup _ _ _ _ _ _ _ Ht Hl E) as (id & Hid & Hlk). exists addr. split; [apply equal_refl|].
    exists id, (new_route now i addr 0 m). split; [apply Hlk; by left|]. split_and!; try done. by rewrite (frame_alive _ _ (learned_frame _ _ _ _ _ _ _ Hl)).
Qed.

Section fold.
Context {B : Type} (now : Z) (i : nat) (L : list Z) (step : B → multi_context → outcome multi_context)
  (lens : B → list Z) (addr : B → mroute_addr) (good : B → Prop).
Hypothesis (Hstep : ∀ x l k m, adding i L (lens x ++ l) m → room (k + 1) m → 0 ≤ k → good x → (∀ n, n ∈ lens x → n ∈ L) →
  ∃ h m', step x m = Ret m' ∧ adding i L l m' ∧ room k m' ∧ learned script now i (addr x) 0 (set_helper h m) m' ∧
    cache_generation h ≤ cache_generation (m_helper m) + 1).

(** What the client has afterwards. *)
Definition gets (xs : list B) (m m' : multi_context) : Prop :=
  m_local m' = m_local m ∧ folk m m' ∧ cache_generation (m_helper m') ≤ cache_generation (m_helper m) + Z.of_nat (length xs) ∧
  ((∀ op a, script (Some i) op a = true) → ∀ k, 0 ≤ k → allowance (Z.of_nat (length xs) + k) i m → allowance k i m' ∧
   (∀ net, has_net m net i → has_net m' net i) ∧
   ∀ x, x ∈ xs → is_net (addr x) → learnable (addr x) = true → mroute_addr_equal (addr x) (m_local m) = false → has_net m' (addr x) i).

Lemma fold_step x xs l h m m1 m' : adding i L l m → learned script now i (addr x) 0 (set_helper h m) m1 →
  cache_generation h ≤ cache_generation (m_helper m) + 1 → gets xs m1 m' → gets (x :: xs) m m'.
Proof.
  intros [Hh Ht _ _ _ (y & Hy & Hhalt & _)] Hl Hgen (Hlo & Hfo & Hge & Hg).
  pose proof (learned_frame _ _ _ _ _ _ _ Hl) as Hf. pose proof (frame_local _ _ Hf) as Hlo1. pose proof (frame_helper _ _ Hf) as Hhe. cbn in Hlo1, Hhe.
  assert (heap_ok (set_helper h m)) as Hh' by by eapply heap_ok_ext.
  assert (table_ok (set_helper h m)) as Ht' by (apply (table_ok_ext m); [done|apply Ht|done|done]).
  assert (alive (set_helper h m) i = true) as Hal by (unfold alive; cbn; by rewrite Hy, Hhalt).
  split; [by rewrite Hlo|]. split; [eapply folk_trans; [exact (frame_folk _ _ Hf)|done]|].
  split; [rewrite Hhe in Hge; cbn [length]; lia|]. intros Hsc k Hk (z & Hz & Ha). cbn [length] in Ha.
  assert (∀ j, j ≤ Z.of_nat (S (length xs)) + k → allowance j i (set_helper h m)) as Hall.
  { intros j Hj. exists z. split; [done|]. change (owned i (set_helper h m)) with (owned i m). lia. }
  destruct (Hg Hsc k Hk) as (H1 & H2 & H3); [eapply allowance_learned; [done|done|apply Hall; lia]|].
  split; [done|]. split.
  - intros net Hnet. apply H2. by eapply has_net_learned.
  - intros x' [->|Hx']%elem_of_cons Hn Hle Hnl.
    + apply H2. eapply (learned_has_net now i (addr x) (set_helper h m)); try done. apply Hall. lia.
    + apply H3; try done. by rewrite Hlo1.
Qed.

Lemma fold_ok xs : ∀ l k m,
  adding i L (concat (map lens xs) ++ l) m → room (Z.of_nat (length xs) + k) m → 0 ≤ k → Forall good xs → (∀ n, n ∈ concat (map lens xs) → n ∈ L) →
  ∃ m', foldM step xs m = Ret m' ∧ adding i L l m' ∧ room k m' ∧ gets xs m m'.
Proof.
  induction xs as [|x xs IH]; intros l k m Had Hroom Hk Hok HL; cbn [foldM].
  { exists m. split; [done|]. split; [done|]. split; [done|]. split; [done|]. split; [apply folk_refl|]. split; [cbn; lia|]. intros _ k' Hk' Ha. split; [done|]. split; [done|]. by intros x Hx%elem_of_nil. }
  apply Forall_cons in Hok as [Hx Hok]. cbn [map concat] in Had, HL. rewrite <- app_assoc in Had.
  destruct (Hstep x (concat (map lens xs) ++ l) (Z.of_nat (length xs) + k) m Had) as (h & m1 & -> & Had1 & Hroom1 & Hl & Hgen).
  - cbn [length] in Hroom. by replace (Z.of_nat (length xs) + k + 1) with (Z.of_nat (S (length xs)) + k) by lia.
  - lia.
  - done.
  - intros n Hn. apply HL, elem_of_app. by left.
  - bret. destruct (IH l k m1 Had1 Hroom1 Hk Hok) as (m' & -> & Had' & Hroom' & Hg).
    { intros n Hn. apply HL, elem_of_app. by right. }
    exists m'. split; [done|]. split; [done|]. split; [done|]. by eapply fold_step.
Qed.
End fold.

(** A client replaced by one that differs in what routes do not depend on. *)
Lemma put_instance_alive m i x y j : m_instances m !! i = Some x → mi_halt y = mi_halt x → alive (put_instance i y m) j = alive m j.
Proof.
  intros Hx Hh. unfold alive. cbn. destruct (decide (j = i)) as [->|]; [by rewrite lookup_insert_eq, Hx, Hh|by rewrite lookup_insert_ne].
Qed.

Lemma adding_start m i x :
  routing_ok m → reaper_ok m → m_instances m !! i = Some x → mi_halt x = false → mi_did_iroutes x = false →
  adding i (lengths x) (lengths x) (put_instance i (set_halt (mi_halt x) true x) m).
Proof.
  intros [[Hc Hlim Ho] Ht [Hv Hco Hlen] Hro] Hre Hx Hh Hd. set (y := set_halt (mi_halt x) true x). set (m1 := put_instance i y m).
  assert (∀ j, alive m1 j = alive m j) as Hal by (intros; by apply (put_instance_alive m i x)).
  assert (∀ j z, m_instances m1 !! j = Some z → j = i ∧ z = y ∨ j ≠ i ∧ m_instances m !! j = Some z) as Hl.
  { intros j z. cbn. destruct (decide (j = i)) as [->|]; [rewrite lookup_insert_eq; intros [= <-]; by left|rewrite lookup_insert_ne by done; by right]. }
  split.
  - split.
    + intros j z [[-> ->]|[_ Hz]]%Hl; [by apply (Hc _ _ Hx)|by apply (Hc _ _ Hz)].
    + intros j z [[-> ->]|[_ Hz]]%Hl; [|by eapply Hlim]. destruct (Hlim _ _ Hx) as [Hl1 _]. split; [done|]. cbn. congruence.
    + intros id r Hr. cbn. destruct (Ho _ _ Hr) as [z Hz]. destruct (decide (mr_instance r = i)) as [->|];
        [rewrite lookup_insert_eq; by eexists|rewrite lookup_insert_ne by done; by eexists].
  - apply (table_ok_ext m); [done|apply Ht|done|done].
  - split; [done| |].
    + intros n Hn. cbn. rewrite (msum_update _ _ _ x) by done. specialize (Hco n Hn). change (times n []) with 0 in Hco.
      assert (uses n x = 0) as Hux by (unfold uses; by rewrite Hd). assert (uses n y = times n (lengths x)) as Huy by done. lia.
    + intros j z n [[-> ->]|[_ Hz]]%Hl; [by apply (Hlen i x)|by apply (Hlen j z)].
  - intros id r Hr. assert (same_nets m m1) as Hsn by (intros net j; unfold net_live; by setoid_rewrite Hal).
    destruct (Hro _ _ Hr) as [[Hf Hnet]|[Hf (Ha & Hg & Hlo)]]; [left|right]; (split; [done|]).
    + intros Hn. destruct (Hnet Hn) as (N1 & N2 & N3 & N4). split; [done|]. split; [done|]. split; [done|].
      intros z Hz Hhz. destruct (Hl _ _ Hz) as [[E ->]|[_ Hz']]; [|by apply (N4 z)]. destruct (N4 x) as [Hd' _]; [by rewrite E|done|congruence].
    + split; [done|]. split; [done|]. intros Hge Hali. eapply same_longest; [done|]. apply Hlo; [done|]. by rewrite <- Hal.
  - done.
  - exists y. cbn. by rewrite lookup_insert_eq.
Qed.
Lemma adding_done i L m : adding i L [] m → routing_ok m ∧ reaper_ok m.
Proof. by intros []. Qed.

(** What the table and the counts have room for. *)
Definition iroutes_fit (x : multi_instance) (m : multi_context) : Prop :=
  let k := Z.of_nat (length (mi_iroutes x) + length (mi_iroutes_ipv6 x)) in
  n_elements (m_vhash m) + k ≤ INT_MAX ∧ cache_generation (m_helper m) + k < 2 ^ 32 ∧
  ∀ n, 0 ≤ n → count_of n (m_helper m) + times n (lengths x) ≤ INT_MAX.
Definition iroutes_ok (x : multi_instance) : Prop := Forall iroute_ok (mi_iroutes x) ∧ Forall iroute6_ok (mi_iroutes_ipv6 x).

Lemma lens4_concat irs : lens4 irs = concat (map (λ ir, lens4 [ir]) irs).
Proof. unfold lens4. induction irs as [|ir irs IH]; [done|]. cbn [map concat]. rewrite <- IH, <- filter_app. done. Qed.
Lemma lens6_concat irs : netbits6 <$> irs = concat (map (λ ir, [netbits6 ir]) irs).
Proof. induction irs as [|ir irs IH]; [done|]. cbn. by rewrite <- IH. Qed.

(** The networks of a client, as addresses. *)
Definition networks (x : multi_instance) : list mroute_addr :=
  ((λ ir, in_addr (network ir) (netbits ir)) <$> mi_iroutes x) ++ ((λ ir, in6_addr (network6 ir) (netbits6 ir)) <$> mi_iroutes_ipv6 x).

Lemma add_iroutes_ok now i x m :
  routing_ok m → reaper_ok m → m_instances m !! i = Some x → mi_halt x = false → mi_did_iroutes x = false → iroutes_ok x → iroutes_fit x m →
  ∃ m', multi_add_iroutes little script now i m = Ret m' ∧ routing_ok m' ∧ reaper_ok m' ∧ folk (put_instance i (set_halt (mi_halt x) true x) m) m' ∧
    cache_generation (m_helper m') ≤ cache_generation (m_helper m) + Z.of_nat (length (mi_iroutes x) + length (mi_iroutes_ipv6 x)) ∧
    ((∀ op a, script (Some i) op a = true) → mi_route_count x + Z.of_nat (length (networks x)) ≤ mi_max_routes x →
     ∀ net, net ∈ networks x → is_net net → learnable net = true → mroute_addr_equal net (m_local m) = false → has_net m' net i).
Proof.
  intros Hm Hre Hx Hh Hd [Hi4 Hi6] (F1 & F2 & F3). unfold multi_add_iroutes, get_instance. rewrite Hx. cbn [of_option]. bret.
  pose proof (adding_start m i x Hm Hre Hx Hh Hd) as Had. set (m1 := put_instance i (set_halt (mi_halt x) true x) m) in *.
  assert (lengths x = lens4 (mi_iroutes x) ++ (netbits6 <$> mi_iroutes_ipv6 x)) as HL by done. rewrite lens4_concat, lens6_concat in HL.
  assert (room (Z.of_nat (length (mi_iroutes x)) + Z.of_nat (length (mi_iroutes_ipv6 x))) m1) as Hroom.
  { split; [cbn; lia|]. split; [cbn; lia|]. intros n Hn. destruct Had as [_ _ [_ Hc _] _ _ _]. specialize (Hc n Hn). specialize (F3 n Hn).
    change (m_helper m1) with (m_helper m) in Hc. lia. }
  rewrite HL in Had at 2.
  destruct (fold_ok now i (lengths x) (add_iroute little script now i) (λ ir, lens4 [ir]) (λ ir, in_addr (network ir) (netbits ir)) iroute_ok
    (add_iroute_ok now i (lengths x)) (mi_iroutes x) _ (Z.of_nat (length (mi_iroutes_ipv6 x))) m1 Had)
    as (m2 & -> & Had2 & Hroom2 & Hg2); [done|lia|done|intros n Hn; rewrite HL; apply elem_of_app; by left|]. bret.
  rewrite <- (app_nil_r (concat _)) in Had2. rewrite <- (Z.add_0_r (Z.of_nat _)) in Hroom2.
  destruct (fold_ok now i (lengths x) (add_iroute6 little script now i) (λ ir, [netbits6 ir]) (λ ir, in6_addr (network6 ir) (netbits6 ir)) iroute6_ok
    (add_iroute6_ok now i (lengths x)) (mi_iroutes_ipv6 x) [] 0 m2 Had2 Hroom2)
    as (m3 & -> & Had3 & _ & Hg3); [lia|done|intros n Hn; rewrite HL; apply elem_of_app; by right|].
  exists m3. split; [done|]. destruct (adding_done _ _ _ Had3) as [? ?]. destruct Hg2 as (Hlo2 & Hfo2 & Hge2 & Hg2). destruct Hg3 as (Hlo3 & Hfo3 & Hge3 & Hg3).
  split; [done|]. split; [done|]. split; [by eapply folk_trans|]. split; [change (m_helper m1) with (m_helper m) in Hge2; lia|].
  intros Hsc Hq.  unfold networks in Hq. rewrite length_app, !length_fmap in Hq.
  destruct (Hg2 Hsc (Z.of_nat (length (mi_iroutes_ipv6 x)))) as (A2 & K2 & G2); [lia| |].
  { exists (set_halt (mi_halt x) true x). split; [cbn; apply lookup_insert_eq|]. destruct (heap_counted _ (routing_heap _ Hm) _ _ Hx) as (Hrc & _).
    change (owned i m1) with (owned i m). cbn. lia. }
  destruct (Hg3 Hsc 0) as (_ & K3 & G3); [lia|by rewrite Z.add_0_r|].
  intros net Hn Hnet Hle Hnl. apply elem_of_app in Hn as [(ir & -> & Hir)%list_elem_of_fmap|(ir & -> & Hir)%list_elem_of_fmap].
  - apply K3. by apply G2.
  - apply G3; try done. by rewrite Hlo2.
Qed.
End host_ops.

(** ** A client leaves *)

Lemma del_iroutes_eq irs h : foldM mroute_helper_del_iroute irs h = foldM del_netbits (lens4 irs) h.
Proof.
  revert h. induction irs as [|ir irs IH]; intros h; [done|]. cbn [foldM]. unfold lens4. cbn [fmap list_fmap].
  rewrite filter_cons. destruct (decide (0 ≤ netbits ir)) as [Hn|Hn].
  - cbn [foldM]. apply bind_cong; [|exact IH]. unfold mroute_helper_del_iroute. by rewrite decide_True by lia.
  - assert (mroute_helper_del_iroute ir h = Ret h) as -> by (unfold mroute_helper_del_iroute; by rewrite decide_False by lia). bret. apply IH.
Qed.
Lemma del_iroutes6_eq irs h : Forall (λ ir, 0 ≤ netbits6 ir) irs → foldM mroute_helper_del_iroute6 irs h = foldM del_netbits (netbits6 <$> irs) h.
Proof.
  intros Hf. revert h. induction Hf as [|ir irs Hir Hf IH]; intros h; [done|]. cbn [foldM fmap list_fmap].
  apply bind_cong; [|exact IH]. unfold mroute_helper_del_iroute6. by rewrite decide_True by lia.
Qed.

Lemma del_lengths_ok l : ∀ h, helper_ok h → (∀ n, 0 ≤ n → times n l ≤ count_of n h) → Forall (λ n, 0 ≤ n < 129) l →
  ∃ h', foldM del_netbits l h = Ret h' ∧ helper_ok h' ∧ (∀ n, 0 ≤ n → count_of n h' = count_of n h - times n l) ∧
    cache_generation h' = u32 (cache_generation h + Z.of_nat (length l)).
Proof.
  induction l as [|x l IH]; intros h Hh Hc Hf; cbn [foldM].
  - exists h. split; [done|]. split; [done|]. split; [intros n _; unfold times; cbn; lia|]. destruct Hh as (_ & _ & _ & _ & _ & Hg).
    rewrite Z.add_0_r. by rewrite (wrap_small 32).
  - apply Forall_cons in Hf as [Hx Hf].
    assert (0 < count_of x h) as Hpos.
    { specialize (Hc x (proj1 Hx)). rewrite times_cons, decide_True in Hc by done. pose proof (times_nonneg x l). lia. }
    destruct (del_netbits_ok x h Hh Hx Hpos) as (h1 & -> & Hh1 & Hc1 & Hg1 & _). bret.
    destruct (IH h1 Hh1) as (h2 & -> & Hh2 & Hc2 & Hg2); [|done|].
    + intros n Hn. specialize (Hc n Hn). rewrite times_cons in Hc. rewrite Hc1 by done. repeat case_decide; congruence || lia.
    + exists h2. split; [done|]. split; [done|]. split.
      * intros n Hn. rewrite Hc2, Hc1, times_cons by done. repeat case_decide; congruence || lia.
      * rewrite Hg2, Hg1. unfold wrap. rewrite Zplus_mod_idemp_l. cbn [length]. f_equal. lia.
Qed.

Lemma times_zero n l : n ∉ l → times n l = 0.
Proof.
  intros Hn. unfold times. destruct (filter (λ x, x = n) l) as [|y l'] eqn:E; [done|]. exfalso. apply Hn.
  assert (y ∈ filter (λ x, x = n) l) as Hy by (rewrite E; by left). by apply list_elem_of_filter in Hy as [-> Hy].
Qed.

(** The state once a client is halted, its lengths are uncounted, and its reference is
    given back. *)
Definition closed (i : nat) (x : multi_instance) (h : mroute_helper) (m m' : multi_context) : Prop :=
  m_vhash m' = m_vhash m ∧ m_routes m' = m_routes m ∧ m_helper m' = h ∧ m_local m' = m_local m ∧ m_reaper m' = m_reaper m ∧
  m_instances m' = if decide (owned i m ≤ 0) then delete i (m_instances m)
                   else <[i := set_counts (owned i m) (mi_route_count x) (set_halt true false x)]> (m_instances m).

Lemma close_ok i x m :
  routing_ok m → m_instances m !! i = Some x → mi_halt x = false → Forall (λ ir, 0 ≤ netbits6 ir) (mi_iroutes_ipv6 x) →
  ∃ h m', multi_close_routing i m = Ret m' ∧ closed i x h m m' ∧ helper_ok h ∧ (∀ n, 0 ≤ n → count_of n h = count_of n (m_helper m) - uses n x) ∧
    cache_generation h = u32 (cache_generation (m_helper m) + if mi_did_iroutes x then Z.of_nat (length (lengths x)) else 0).
Proof.
  intros [[Hc Hlim Ho] Ht [Hv Hco Hlen] Hro] Hx Hh H6. destruct (Hc _ _ Hx) as (Hrc & Href & _). rewrite Hh in Href.
  destruct (Hlim _ _ Hx) as [Hmax _]. pose proof (msum_nonneg (owns i) (m_routes m) (owns_nonneg _)) as Hnn. fold (owned i m) in Hnn.
  unfold multi_close_routing, get_instance. rewrite Hx. cbn [of_option]. bret. rewrite ASSERT_ok by done. bret.
  assert (∀ m1 y, m_instances m1 = <[i := y]> (m_instances m) → mi_refcount y = owned i m + 1 → mi_route_count y = mi_route_count x →
    mi_halt y = true → (∃ a b, y = set_counts a b (set_halt true false x)) →
    multi_instance_dec_refcount i m1 = Ret (set_instances (if decide (owned i m ≤ 0) then delete i (m_instances m)
      else <[i := set_counts (owned i m) (mi_route_count x) (set_halt true false x)]> (m_instances m)) m1)) as Hdec.
  { intros m1 y Hm1 Hr1 Hr2 _ (a & b & ->). unfold multi_instance_dec_refcount, get_instance. rewrite Hm1, lookup_insert_eq. cbn [of_option]. bret.
    rewrite Hr1, Hr2, int_ok by (ints; lia). bret. replace (owned i m + 1 - 1) with (owned i m) by lia. f_equal.
    case_decide; unfold put_instance; rewrite ?Hm1; f_equal; [apply delete_insert_eq|by rewrite insert_insert_eq]. }
  destruct (mi_did_iroutes x) eqn:Hd.
  - unfold multi_del_iroutes, get_instance. cbn [put_instance set_instances m_instances]. rewrite lookup_insert_eq. cbn [of_option]. bret.
    cbn [set_halt mi_iroutes mi_iroutes_ipv6 m_helper put_instance set_instances].
    destruct (del_lengths_ok (lengths x) (m_helper m) Hv) as (h & E & Hh' & Hch & Hg).
    { intros n Hn. specialize (Hco n Hn). change (times n []) with 0 in Hco. pose proof (msum_le (uses n) _ _ _ (uses_nonneg n) Hx) as Hle.
      unfold uses at 1 in Hle. rewrite Hd in Hle. lia. }
    { apply Forall_forall. intros n Hn. by eapply Hlen. }
    unfold lengths in E. rewrite foldM_app in E. rewrite del_iroutes_eq.
    apply bind_Ret_inv in E as (h1 & E1 & E2). fold (lens4 (mi_iroutes x)) in E1. rewrite E1. bret. rewrite del_iroutes6_eq by done. rewrite E2. bret.
    cbn [set_helper m_instances put_instance set_instances]. rewrite lookup_insert_eq. cbn [of_option]. bret.
    eexists h, _. split; [erewrite Hdec; [done|..]|].
    + cbn. by rewrite insert_insert_eq.
    + cbn. lia.
    + done.
    + done.
    + exists (mi_refcount x), (mi_route_count x). by destruct x.
    + split; [done|]. split; [done|]. split; [|done]. intros n Hn. rewrite Hch by done. unfold uses. by rewrite Hd.
  - bret. eexists (m_helper m), _. split; [erewrite Hdec; [done|..]|].
    + done.
    + cbn. lia.
    + done.
    + done.
    + exists (mi_refcount x), (mi_route_count x). destruct x. cbn in *. by rewrite Hd.
    + split; [done|]. split; [done|]. split; [intros n Hn; unfold uses; rewrite Hd; lia|]. rewrite Z.add_0_r.
      destruct Hv as (_ & _ & _ & _ & _ & Hg). by rewrite (wrap_small 32).
Qed.

(** Who is there afterwards. *)
Lemma closed_instances i x h m m' j z : closed i x h m m' → m_instances m' !! j = Some z →
  j ≠ i ∧ m_instances m !! j = Some z ∨ j = i ∧ 0 < owned i m ∧ z = set_counts (owned i m) (mi_route_count x) (set_halt true false x).
Proof.
  intros (_ & _ & _ & _ & _ & Hi). rewrite Hi. case_decide.
  - destruct (decide (j = i)) as [->|]; [by rewrite lookup_delete_eq|rewrite lookup_delete_ne by done; by left].
  - destruct (decide (j = i)) as [->|]; [rewrite lookup_insert_eq|rewrite lookup_insert_ne by done; by left].
    intros [= <-]. right. split; [done|]. split; [lia|done].
Qed.
Lemma closed_alive i x h m m' j : closed i x h m m' → alive m' j = if decide (j = i) then false else alive m j.
Proof.
  intros (_ & _ & _ & _ & _ & Hi). unfold alive. rewrite Hi. destruct (decide (j = i)) as [->|].
  - case_decide; [by rewrite lookup_delete_eq|by rewrite lookup_insert_eq].
  - case_decide; [by rewrite lookup_delete_ne|by rewrite lookup_insert_ne].
Qed.

Lemma closed_routing i x h m m' :
  routing_ok m → m_instances m !! i = Some x → mi_halt x = false → closed i x h m m' →
  helper_ok h → (∀ n, 0 ≤ n → count_of n h = count_of n (m_helper m) - uses n x) →
  cache_generation h = cache_generation (m_helper m) + (if mi_did_iroutes x then Z.of_nat (length (lengths x)) else 0) → routing_ok m'.
Proof.
  intros [[Hc Hlim Ho] [Tw Ts Tc Ta] [Hv Hco Hlen] Hro] Hx Hh Hcl Hvh Hch Hg.
  pose proof (λ j z, closed_instances i x h m m' j z Hcl) as Hin. pose proof (λ j, closed_alive i x h m m' j Hcl) as Hal.
  destruct Hcl as (Ev & Er & Eh & El & Ere & Ei). destruct (Hc _ _ Hx) as (Hrc & _). destruct (Hlim _ _ Hx) as [Hmax _].
  split.
  - split.
    + unfold counted, owned. rewrite Er. intros j z [[Hne Hz]|(-> & Hpos & ->)]%Hin; [by apply (Hc _ _ Hz)|].
      cbn. fold (owned i m). split; [done|]. lia.
    + intros j z [[Hne Hz]|(-> & Hpos & ->)]%Hin; [by eapply Hlim|]. by split.
    + rewrite Er. intros id r Hr. rewrite Ei. destruct (Ho _ _ Hr) as [z Hz].
      assert (0 < owned (mr_instance r) m) as Hp by by eapply owned_pos.
      destruct (decide (mr_instance r = i)) as [E|Hne].
      * rewrite E in *. rewrite decide_False by lia. rewrite lookup_insert_eq. by eexists.
      * case_decide; [rewrite lookup_delete_ne by done|rewrite lookup_insert_ne by done]; by eexists.
  - split; by rewrite ?Ev, ?Er.
  - split.
    + by rewrite Eh.
    + intros n Hn. change (times n []) with 0. rewrite Eh, Ei, Hch by done. specialize (Hco n Hn). change (times n []) with 0 in Hco.
      case_decide; [rewrite (msum_delete _ _ _ x) by done; lia|rewrite (msum_update _ _ _ x) by done].
      assert (uses n (set_counts (owned i m) (mi_route_count x) (set_halt true false x)) = 0) as -> by done. lia.
    + intros j z n [[Hne Hz]|(-> & _ & ->)]%Hin; [by apply (Hlen j z)|by apply (Hlen i x)].
  - unfold routes_ok. rewrite Er. intros id r Hr. destruct (Hro _ _ Hr) as [[Hf Hnet]|[Hf (Ha & Hge & Hlo)]]; [left|right]; (split; [done|]).
    + intros Hn. destruct (Hnet Hn) as (N1 & N2 & N3 & N4). split; [done|]. split; [done|]. split; [done|].
      intros z [[Hne Hz]|(E & _ & ->)]%Hin Hhz; [by apply N4|done].
    + unfold cache_ok. rewrite Eh, Hal. split; [done|]. split; [rewrite Hg; case_match; lia|]. intros Hcur Hali.
      case_decide as Hne; [done|].
      assert ((if mi_did_iroutes x then Z.of_nat (length (lengths x)) else 0) = 0) as Hz by (case_match; lia).
      eapply same_longest; [|apply Hlo; [lia|done]]. intros net j. unfold net_live. rewrite Er. split.
      * intros (k & y & Hy & ? & Hyj & ? & Hayj). rewrite Hal in Hayj. case_decide; [done|]. by exists k, y.
      * intros (k & y & Hy & <- & <- & Hyn & Hay). exists k, y. split_and!; try done. rewrite Hal. destruct (decide (mr_instance y = i)) as [E|]; [exfalso|exact Hay].
        destruct (Hro _ _ Hy) as [[_ Hn]|[_ ((_ & Hno) & _)]]; [|done]. destruct (Hn Hyn) as (_ & _ & _ & N4).
        destruct (N4 x) as [Hd Hl]; [by rewrite E|done|]. rewrite Hd in Hz. destruct (lengths x); [by apply elem_of_nil in Hl|cbn in Hz; lia].
Qed.

(** ** A client comes *)

Lemma create_ok x m :
  routing_ok m → 0 ≤ mi_max_routes x < INT_MAX → iroutes_ok x →
  let '(i, m') := multi_create_routing x m in
  m_instances m !! i = None ∧ routing_ok m' ∧ m_instances m' = <[i := set_counts 1 0 (set_halt false false x)]> (m_instances m) ∧
  m_routes m' = m_routes m ∧ m_vhash m' = m_vhash m ∧ m_helper m' = m_helper m ∧ m_local m' = m_local m ∧ m_reaper m' = m_reaper m.
Proof.
  intros [[Hc Hlim Ho] [Tw Ts Tc Ta] [Hv Hco Hlen] Hro] Hmax [Hi4 Hi6]. unfold multi_create_routing.
  set (i := fresh (dom (m_instances m))). assert (m_instances m !! i = None) as Hi by (apply not_elem_of_dom, is_fresh).
  set (y := set_counts 1 0 (set_halt false false x)). split; [done|]. split; [|by split_and!].
  assert (∀ id r, m_routes m !! id = Some r → mr_instance r ≠ i) as Hnone.
  { intros id r Hr E. destruct (Ho _ _ Hr) as [z Hz]. congruence. }
  assert (owned i m = 0) as Hown.
  { pose proof (msum_nonneg (owns i) (m_routes m) (owns_nonneg i)) as Hnn. unfold owned.
    destruct (decide (0 < msum (owns i) (m_routes m))) as [Hp|]; [|lia]. destruct (msum_pos _ _ (owns_nonneg i) Hp) as (id & r & Hr & Hpos).
    unfold owns in Hpos. destruct (decide (mr_instance r = i)); [|lia]. by destruct (Hnone _ _ Hr). }
  set (m' := put_instance i y m).
  assert (∀ j z, m_instances m' !! j = Some z → j = i ∧ z = y ∨ j ≠ i ∧ m_instances m !! j = Some z) as Hl.
  { intros j z. cbn. destruct (decide (j = i)) as [->|]; [rewrite lookup_insert_eq; intros [= <-]; by left|rewrite lookup_insert_ne by done; by right]. }
  assert (∀ id r, m_routes m !! id = Some r → alive m' (mr_instance r) = alive m (mr_instance r)) as Hal.
  { intros id r Hr. unfold alive. cbn. rewrite lookup_insert_ne; [done|]. intros E. by destruct (Hnone _ _ Hr). }
  split.
  - split.
    + intros j z [[-> ->]|[_ Hz]]%Hl; [|by apply (Hc _ _ Hz)]. unfold counted. change (owned i m') with (owned i m). rewrite Hown. cbn. lia.
    + intros j z [[-> ->]|[_ Hz]]%Hl; [|by eapply Hlim]. by split.
    + intros id r Hr. cbn. rewrite lookup_insert_ne by (intros E; by destruct (Hnone _ _ Hr)). by eapply Ho.
  - by split.
  - split; [done| |].
    + intros n Hn. cbn. rewrite msum_insert by done. rewrite <- (Hco n Hn). assert (uses n y = 0) as -> by done. change (times n []) with 0. lia.
    + intros j z n [[-> ->]|[_ Hz]]%Hl; [|by apply (Hlen j z)]. change (lengths y) with (lengths x). unfold lengths. intros [Hin|Hin]%elem_of_app.
      * apply list_elem_of_filter in Hin as [Hn (ir & -> & Hir)%list_elem_of_fmap]. rewrite Forall_forall in Hi4. destruct (Hi4 _ Hir) as ([_ ?] & _). lia.
      * apply list_elem_of_fmap in Hin as (ir & -> & Hir). rewrite Forall_forall in Hi6. destruct (Hi6 _ Hir) as (_ & _ & ?). lia.
  - intros id r Hr. destruct (Hro _ _ Hr) as [[Hf Hnet]|[Hf (Ha & Hge & Hlo)]]; [left|right]; (split; [done|]).
    + intros Hn. destruct (Hnet Hn) as (N1 & N2 & N3 & N4). split; [done|]. split; [done|]. split; [done|].
      intros z [[E ->]|[_ Hz]]%Hl; [by destruct (Hnone _ _ Hr)|by apply N4].
    + split; [done|]. split; [done|]. intros Hcur Hali. rewrite (Hal _ _ Hr) in Hali. eapply same_longest; [|by apply Hlo].
      intros net j. unfold net_live. split.
      * intros (k & q & Hq & ? & <- & ? & Hq'). rewrite (Hal _ _ Hq) in Hq'. by exists k, q.
      * intros (k & q & Hq & ? & <- & ? & Hq'). exists k, q. rewrite (Hal _ _ Hq). by split_and!.
Qed.

(** ** The elements of the table *)

Lemma elem_rest {K V} hi (h : hash K V) lo e :
  e ∈ rest hi h lo ↔ ∃ i b, (lo ≤ i < hi)%nat ∧ buckets h !! i = Some b ∧ e ∈ b.
Proof.
  unfold rest. rewrite list_elem_of_In, in_concat. split.
  - intros (b & Hb & He). apply list_elem_of_In, list_elem_of_lookup in Hb as [i Hi]. rewrite lookup_drop in Hi.
    apply lookup_take_Some in Hi as [Hi Hlt]. exists (lo + i)%nat, b. split; [lia|]. split; [done|]. by apply list_elem_of_In.
  - intros (i & b & Hi & Hb & He). exists b. split; [|by apply list_elem_of_In]. apply list_elem_of_In, list_elem_of_lookup. exists (i - lo)%nat.
    rewrite lookup_drop. replace (lo + (i - lo))%nat with i by lia. apply lookup_take_Some. split; [done|lia].
Qed.

(** A table whose values tell the keys they are stored under. *)
Section keyed.
Context (h : hash mroute_addr nat) (key : nat → option mroute_addr).
Hypothesis (Hw : wf_hash h) (Hs : ∀ k id, assoc h k = Some id → ∃ a, key id = Some a ∧ mroute_addr_equal k a = true).

(** An element is in the bucket of its key. *)
Lemma elem_key i b e : buckets h !! i = Some b → e ∈ b →
  ∃ a, key (he_value e) = Some a ∧ matches a e = true ∧ key_index h a = i.
Proof.
  intros Hb He. pose proof Hw as (_ & _ & _ & _ & Hbs). destruct (Hbs _ _ Hb) as [Hf Hu].
  rewrite Forall_forall in Hf. destruct (Hf _ He) as (k & Hk & _ & Hi).
  assert (matches k e = true) as Hm by (unfold matches; rewrite Hk; apply equal_refl).
  assert (e ∈ hits k b) as Hh by (by apply list_elem_of_filter).
  assert (hits k b = [e]) as Hh1.
  { specialize (Hu k). destruct (hits k b) as [|x [|y l]]; [by apply elem_of_nil in Hh| |cbn in Hu; lia]. by apply list_elem_of_singleton in Hh as ->. }
  destruct (Hs k (he_value e)) as (a & Ha & Hka).
  { unfold assoc, key_index. rewrite Hi, Hb. cbn [default from_option id]. by rewrite Hh1. }
  exists a. split; [done|]. split; [|rewrite <- (key_index_equal _ _ _ Hka); exact Hi].
  unfold matches. rewrite Hk. by apply equal_sym.
Qed.
Lemma bucket_nodup b : uniq b → (∀ e, e ∈ b → ∃ a, key (he_value e) = Some a ∧ matches a e = true) → NoDup (he_value <$> b).
Proof.
  induction b as [|e b IH]; intros Hu Hr; [constructor|]. cbn. apply NoDup_cons. split.
  - intros (e2 & Heq & He2)%list_elem_of_fmap. destruct (Hr e) as (a & Hr1 & Hm1); [by left|]. destruct (Hr e2) as (a2 & Hr2 & Hm2); [by right|].
    rewrite <- Heq, Hr1 in Hr2. injection Hr2 as <-. specialize (Hu a). rewrite hits_cons, Hm1 in Hu. cbn in Hu.
    assert (e2 ∈ hits a b) as Hin by (by apply list_elem_of_filter). destruct (hits a b); [by apply elem_of_nil in Hin|cbn in Hu; lia].
  - apply IH; [by eapply uniq_tail|]. intros e' He'. apply Hr. by right.
Qed.
Lemma keyed_nodup hi : (hi ≤ length (buckets h))%nat →
  ∀ n lo, (hi - lo ≤ n)%nat → (lo ≤ hi)%nat → NoDup (he_value <$> rest hi h lo).
Proof.
  intros Hhi. induction n as [|n IH]; intros lo Hn Hlo.
  { assert (lo = hi) as -> by lia. rewrite (rest_hi hi hi) by lia. constructor. }
  destruct (decide (lo = hi)) as [->|]; [rewrite (rest_hi hi hi) by lia; constructor|].
  destruct (lookup_lt_is_Some_2 (buckets h) lo) as [b Hb]; [lia|]. rewrite (rest_S hi _ lo b) by (done || lia).
  pose proof Hw as (_ & _ & _ & _ & Hbs). destruct (Hbs _ _ Hb) as [_ Hu]. rewrite fmap_app. apply NoDup_app. split_and!.
  - apply bucket_nodup; [done|]. intros e He. destruct (elem_key lo b e Hb He) as (a & ? & ? & _). by exists a.
  - intros x (e & -> & He)%list_elem_of_fmap (e2 & Heq & He2)%list_elem_of_fmap. destruct (elem_key lo b e Hb He) as (a & Ha & _ & Hi).
    apply elem_rest in He2 as (i & b2 & Hi2 & Hb2 & He2). destruct (elem_key i b2 e2 Hb2 He2) as (a2 & Ha2 & _ & Hi3).
    rewrite <- Heq, Ha in Ha2. injection Ha2 as <-. lia.
  - apply IH; lia.
Qed.
(** A value is among the elements of a range when its key is. *)
Lemma keyed_value hi lo id a : key id = Some a → assoc h a = Some id →
  id ∈ he_value <$> rest hi h lo ↔ (lo ≤ key_index h a < hi)%nat.
Proof.
  intros Hk Ha. split.
  - intros (e & -> & (i & b & Hi & Hb & He)%elem_rest)%list_elem_of_fmap. destruct (elem_key i b e Hb He) as (a2 & Ha2 & _ & Hi2).
    rewrite Hk in Ha2. injection Ha2 as <-. lia.
  - intros Hi. destruct (bucket_of h a Hw) as (b & Hb & _).
    unfold assoc in Ha. rewrite Hb in Ha. change (default [] (Some b)) with b in Ha. destruct (hits a b) as [|e l] eqn:Hh; [done|]. injection Ha as <-.
    assert (e ∈ hits a b) as He by (rewrite Hh; by left). apply list_elem_of_filter in He as [_ He].
    apply list_elem_of_fmap. exists e. split; [done|]. apply elem_rest. by exists (key_index h a), b.
Qed.
End keyed.

(** The routes, by their addresses. *)
Definition route_key (m : multi_context) (id : nat) : option mroute_addr := mr_addr <$> m_routes m !! id.
Lemma route_keyed m : table_ok m → ∀ k id, assoc (m_vhash m) k = Some id → ∃ a, route_key m id = Some a ∧ mroute_addr_equal k a = true.
Proof. intros Ht k id (r & Hr & He)%(table_sound _ Ht). exists (mr_addr r). unfold route_key. by rewrite Hr. Qed.
Lemma elem_route m i b e : table_ok m → buckets (m_vhash m) !! i = Some b → e ∈ b →
  ∃ r, m_routes m !! he_value e = Some r ∧ matches (mr_addr r) e = true ∧ key_index (m_vhash m) (mr_addr r) = i.
Proof.
  intros Ht Hb He. destruct (elem_key (m_vhash m) (route_key m) (table_wf _ Ht) (route_keyed m Ht) i b e Hb He) as (a & Ha & Hm & Hi).
  unfold route_key in Ha. destruct (m_routes m !! he_value e) as [r|]; [|done]. injection Ha as <-. by exists r.
Qed.
Lemma rest_nodup m hi lo : table_ok m → (lo ≤ hi ≤ length (buckets (m_vhash m)))%nat → NoDup (he_value <$> rest hi (m_vhash m) lo).
Proof.
  intros Ht Hr. eapply (keyed_nodup (m_vhash m) (route_key m) (table_wf _ Ht) (route_keyed m Ht)); [|done|]; lia.
Qed.
Lemma rest_value m hi lo id r : table_ok m → m_routes m !! id = Some r →
  id ∈ he_value <$> rest hi (m_vhash m) lo ↔ (lo ≤ key_index (m_vhash m) (mr_addr r) < hi)%nat.
Proof.
  intros Ht Hr. apply (keyed_value (m_vhash m) (route_key m) (table_wf _ Ht) (route_keyed m Ht)); [unfold route_key; by rewrite Hr|].
  by apply (table_complete _ Ht).
Qed.

(** ** Deleting the routes of a range *)

(** Routes deleted by a walk are those of the range that are [gone]. *)
Section reap.
Context (m : multi_context) (gone : multi_route → bool) (f : multi_context → hash_element mroute_addr nat → outcome (multi_context * bool)).
Hypothesis (Hf : ∀ a e r, heap_ok a → frame m a → m_routes a !! he_value e = Some r →
  f a e = if gone r then m ← multi_route_del (he_value e) a; Ret (m, true) else Ret (a, false)).

Definition marked (id : nat) : Prop := (match m_routes m !! id with Some r => gone r | None => false end) = true.
#[export] Instance marked_dec id : Decision (marked id).
Proof. unfold marked. apply _. Defined.

Definition walk_inv (all : list nat) (a : multi_context) (l : list (hash_element mroute_addr nat)) : Prop :=
  heap_ok a ∧ frame m a ∧ m_vhash a = m_vhash m ∧ NoDup (he_value <$> l) ∧ (∀ id, id ∈ he_value <$> l → id ∈ all ∧ is_Some (m_routes m !! id)) ∧
  ∀ id r, m_routes a !! id = Some r ↔ m_routes m !! id = Some r ∧ (gone r = true → id ∉ all ∨ id ∈ he_value <$> l).

Lemma walk_inv_step all a e l : walk_inv all a (e :: l) → ∃ a', f a e = Ret (a', bool_decide (marked (he_value e))) ∧ walk_inv all a' l.
Proof.
  intros (Hok & Hfr & Hv & Hnd & Hin & Hr). cbn in Hnd. apply NoDup_cons in Hnd as [Hni Hnd].
  destruct (Hin (he_value e)) as [Hall [r Hmr]]; [by left|].
  assert (m_routes a !! he_value e = Some r) as Har by (apply Hr; split; [done|]; intros _; right; by left).
  rewrite (Hf a e r) by done.
  assert (bool_decide (marked (he_value e)) = gone r) as -> 
    by (destruct (gone r) eqn:Hg; [apply bool_decide_eq_true|apply bool_decide_eq_false]; unfold marked; rewrite Hmr, Hg; done).
  destruct (gone r) eqn:Hg.
  - destruct (route_del_ok a (he_value e) r Hok Har) as (a' & -> & Hr' & Hv' & Hfr' & Hok'). bret. exists a'. split; [done|].
    split; [done|]. split; [by eapply frame_trans|]. split; [congruence|]. split; [done|]. split; [intros id Hid; apply Hin; by right|].
    intros id y. rewrite Hr', lookup_delete_Some, Hr. cbn. setoid_rewrite elem_of_cons. split.
    + intros (Hne & Hy & Hor). split; [done|]. intros Hgy. destruct (Hor Hgy) as [|[->|]]; [by left|done|by right].
    + intros [Hy Hor]. split; [|split; [done|intros Hgy; destruct (Hor Hgy); [by left|right; by right]]]. intros <-.
      rewrite Hmr in Hy. injection Hy as <-. by destruct (Hor Hg).
  - exists a. split; [done|]. split; [done|]. split; [done|]. split; [done|]. split; [done|]. split; [intros id Hid; apply Hin; by right|].
    intros id y. rewrite Hr. cbn. setoid_rewrite elem_of_cons. split.
    + intros [Hy Hor]. split; [done|]. intros Hgy. destruct (Hor Hgy) as [|[->|]]; [by left| |by right].
      rewrite Hmr in Hy. injection Hy as <-. congruence.
    + intros [Hy Hor]. split; [done|]. intros Hgy. destruct (Hor Hgy); [by left|right; by right].
Qed.

Lemma walk_ok lo hi :
  heap_ok m → table_ok m → (lo ≤ hi ≤ length (buckets (m_vhash m)))%nat →
  ∃ m1 h1, hash_walk f m (m_vhash m) (HI (Z.of_nat lo - 1) None None None false (Z.of_nat hi)) = Ret (m1, h1) ∧
    heap_ok (set_vhash h1 m1) ∧ table_ok (set_vhash h1 m1) ∧ frame m (set_vhash h1 m1) ∧ n_elements h1 ≤ n_elements (m_vhash m) ∧
    n_buckets h1 = n_buckets (m_vhash m) ∧
    ∀ id r, m_routes m1 !! id = Some r ↔
      m_routes m !! id = Some r ∧ ¬ (gone r = true ∧ (lo ≤ key_index (m_vhash m) (mr_addr r) < hi)%nat).
Proof.
  intros Hok Ht Hrange. set (all := he_value <$> rest hi (m_vhash m) lo).
  destruct (hash_walk_ok marked lo hi (m_vhash m) (table_wf _ Ht) Hrange f (walk_inv all) (walk_inv_step all) m)
    as (m1 & E & (Hok1 & Hf1 & Hv1 & _ & _ & Hr1)).
  { split; [done|]. split; [apply frame_refl|]. split; [done|]. split; [by apply rest_nodup|]. split.
    - intros id Hid. split; [done|]. apply list_elem_of_fmap in Hid as (e & -> & (i & b & _ & Hb & He)%elem_rest).
      destruct (elem_route m i b e Ht Hb He) as (r & Hr & _). by eexists.
    - intros id r. split; [|by intros [? _]]. intros Hr. split; [done|]. intros _. destruct (decide (id ∈ all)); [by right|by left]. }
  exists m1, (cleaned marked lo (m_vhash m) hi). split; [done|].
  assert (∀ id r, m_routes m1 !! id = Some r ↔
      m_routes m !! id = Some r ∧ ¬ (gone r = true ∧ (lo ≤ key_index (m_vhash m) (mr_addr r) < hi)%nat)) as Hl.
  { intros id r. rewrite Hr1. split; intros [Hr Hg]; (split; [done|]).
    - intros [Hgr Hki]. destruct (Hg Hgr) as [Hn|Hn%elem_of_nil]; [|done]. apply Hn. by apply (rest_value m hi lo id r).
    - intros Hgr. left. intros Hin%(rest_value m hi lo id r); [|done|done]. by apply Hg. }
  pose proof Ht as [Hw Hs Hc Ha].
  split; [by eapply heap_ok_ext|]. split; [|split; [eapply frame_trans; [done|by apply frame_same]|split; [|split; [done|done]]]].
  - split.
    + apply (cleaned_wf _ lo hi); done.
    + cbn. intros k id. rewrite (cleaned_assoc _ lo hi) by done. destruct (assoc (m_vhash m) k) as [j|] eqn:Ej; [|done]. cbn.
      destruct (Hs _ _ Ej) as (r & Hr & Hkr). case_decide as Hd; [done|]. intros [= <-]. exists r. split; [|done]. apply Hl. split; [done|].
      intros [Hg Hki]. apply Hd. rewrite (key_index_equal _ _ _ Hkr). split; [done|]. unfold marked. by rewrite Hr.
    + cbn. intros id r [Hr Hg]%Hl. rewrite (cleaned_assoc _ lo hi) by done. rewrite (Hc _ _ Hr). cbn. rewrite decide_False; [done|].
      intros [Hki Hm]. apply Hg. split; [|done]. unfold marked in Hm. by rewrite Hr in Hm.
    + cbn. intros id r [Hr _]%Hl. by eapply Ha.
  - cbn [cleaned n_elements]. pose proof Hw as (_ & _ & _ & [Hn _] & _). rewrite Hn. apply inj_le. by apply (concat_clean _ lo hi).
Qed.
End reap.

(** ** Reaping *)

Lemma range_ok (h : hash mroute_addr nat) s e : wf_hash h → 0 ≤ s ≤ e → s ≤ n_buckets h →
  ∃ lo hi, hash_iterator_init_range h s e = Ret (HI (Z.of_nat lo - 1) None None None false (Z.of_nat hi)) ∧
    (lo ≤ hi ≤ length (buckets h))%nat ∧ Z.of_nat lo = s ∧ Z.of_nat hi = Z.min e (n_buckets h).
Proof.
  intros (_ & _ & Hl & _) Hs Hn. exists (Z.to_nat s), (Z.to_nat (Z.min e (n_buckets h))). unfold hash_iterator_init_range.
  assert ((if decide (e > n_buckets h) then n_buckets h else e) = Z.min e (n_buckets h)) as -> by (case_decide; lia).
  rewrite ASSERT_ok by lia. bret. rewrite !Z2Nat.id by lia. split; [done|]. split; lia.
Qed.

(** Only routes that are not in force have gone. *)
Lemma gone_routes m m' (gone : multi_route → bool) :
  routing_ok m → heap_ok m' → table_ok m' → frame m m' → n_elements (m_vhash m') ≤ n_elements (m_vhash m) + 1 →
  (∀ r, gone r = true → mr_flags r = 0 → alive m (mr_instance r) = false) →
  (∀ id r, m_routes m' !! id = Some r → m_routes m !! id = Some r) →
  (∀ id r, m_routes m !! id = Some r → gone r = false → m_routes m' !! id = Some r) → looked_up m m'.
Proof.
  intros [H1 H2 H3 H4] Hh Ht Hf Hsz Hg Hsub Hsup.
  assert (∀ id r, m_routes m !! id = Some r → mr_flags r = 0 → alive m (mr_instance r) = true → m_routes m' !! id = Some r) as Hkeep.
  { intros id r Hr Hfl Hal. apply Hsup; [done|]. destruct (gone r) eqn:E; [|done]. rewrite (Hg r) in Hal; done. }
  assert (same_nets m m') as Hsn.
  { intros net i. unfold net_live. setoid_rewrite (frame_alive _ _ Hf). split.
    - intros (id & r & Hr%Hsub & H). by exists id, r.
    - intros (id & r & Hr & <- & <- & Hn & Hal). exists id, r. split_and!; try done. apply Hkeep; [done| |done].
      destruct (H4 _ _ Hr) as [[? _]|[_ ((_ & Hno) & _)]]; done. }
  split; [split; [done|done|by eapply frame_helper_inv|]|done|done| |done|by intros id r Hr%Hsub _].
  - intros id r Hr%Hsub. eapply frame_route_ok; [done|done|by eapply H4].
  - intros a i. unfold host_live. setoid_rewrite (frame_alive _ _ Hf). split.
    + intros (id & r & Hr%Hsub & H). by exists id, r.
    + intros (id & r & Hr & ? & ? & <- & ?). exists id, r. split_and!; try done. by apply Hkeep.
Qed.

(** What a pass over buckets [s] to [e] leaves. *)
Lemma reap_range_ok now s e m :
  routing_ok m → (s < 0 ∨ s ≤ e ∧ s ≤ n_buckets (m_vhash m)) →
  ∃ m', multi_reap_range now s e m = Ret m' ∧ looked_up m m' ∧ n_buckets (m_vhash m') = n_buckets (m_vhash m) ∧
    ∀ id r, m_routes m' !! id = Some r ↔ m_routes m !! id = Some r ∧
      (defined now m r = true ∨ ¬ (s < 0 ∨ s ≤ Z.of_nat (key_index (m_vhash m) (mr_addr r)) < e)).
Proof.
  intros Hm Hs. pose proof Hm as [H1 H2 H3 H4]. pose proof (table_wf _ H2) as Hw. unfold multi_reap_range.
  assert (0 ≤ n_buckets (m_vhash m)) as Hn0 by (destruct Hw as (_ & _ & <- & _); lia).
  set (p := if decide (s < 0) then (0, n_buckets (m_vhash m)) else (s, e)).
  assert (∃ s' e', p = (s', e') ∧ 0 ≤ s' ≤ e' ∧ s' ≤ n_buckets (m_vhash m) ∧
    ∀ k, k < n_buckets (m_vhash m) → 0 ≤ k → (s' ≤ k < e' ↔ (s < 0 ∨ s ≤ k < e))) as (s' & e' & -> & Hs' & Hn & Hk).
  { unfold p. case_decide; eexists _, _; (split; [done|]); (split; [lia|]); (split; [lia|]); lia. }
  destruct (range_ok (m_vhash m) s' e' Hw Hs' Hn) as (lo & hi & -> & Hr & Hlo & Hhi). bret.
  destruct (walk_ok m (λ r, negb (defined now m r)) (reap_body now)) with (lo := lo) (hi := hi) as (m1 & h1 & -> & Hok & Ht & Hf & Hsz & Hnb & Hl); try done.
  { intros a el r Ha Hf Hr'. unfold reap_body. rewrite Hr'. cbn [of_option]. bret. destruct (heap_owner _ Ha _ _ Hr') as [x Hx].
    rewrite (route_defined_ok now a r x) by done. bret. rewrite (frame_defined now m a) by done. by destruct (defined now m r). }
  bret. exists (set_vhash h1 m1). split; [done|]. cbn [set_vhash m_vhash m_routes].
  assert (∀ id r, m_routes m1 !! id = Some r ↔ m_routes m !! id = Some r ∧
      (defined now m r = true ∨ ¬ (s < 0 ∨ s ≤ Z.of_nat (key_index (m_vhash m) (mr_addr r)) < e))) as Hl'.
  { intros id r. rewrite Hl. pose proof (key_index_lt (m_vhash m) (mr_addr r) Hw) as Hki. destruct Hw as (_ & _ & Hlen & _).
    apply Nat2Z.inj_lt in Hki. rewrite Hlen in Hki. generalize dependent (key_index (m_vhash m) (mr_addr r)). intros k Hki.
    rewrite <- (Hk (Z.of_nat k)) by lia. assert ((lo ≤ k < hi)%nat ↔ s' ≤ Z.of_nat k < e') as -> by lia.
    destruct (defined now m r); naive_solver. }
  split; [|by split]. eapply (gone_routes m _ (λ r, negb (defined now m r))); try done.
  - cbn. lia.
  - intros r Hg Hfl. rewrite defined_static in Hg by done. by apply negb_true_iff.
  - intros id r [Hr' _]%Hl'. done.
  - intros id r Hr' Hg. apply Hl'. split; [done|]. left. by apply negb_false_iff.
Qed.

Lemma reap_per_pass n : REAP_MIN ≤ reap_buckets_per_pass n ≤ REAP_MAX.
Proof. by apply constrain_int_ok. Qed.

(** The reaper's state is of no matter to the routes. *)
Lemma set_reaper_ok r m : routing_ok m → routing_ok (set_reaper r m).
Proof. intros [[] [] [] H]. by split; [split|split|split|]. Qed.

Lemma reap_process_ok now m :
  routing_ok m → reaper_ok m →
  ∃ m', multi_reap_process now m = Ret m' ∧ routing_ok m' ∧ reaper_ok m' ∧ same_way m m' ∧ folk m m' ∧ m_helper m' = m_helper m ∧
    n_elements (m_vhash m') ≤ n_elements (m_vhash m) + 1.
Proof.
  intros Hm [Hb Hp]. unfold multi_reap_process. case_decide.
  2: { exists m. split_and!; [done..|apply folk_refl|done|lia]. }
  unfold multi_reap_process_dowork. set (base := if decide (bucket_base (m_reaper m) >= n_buckets (m_vhash m)) then 0 else bucket_base (m_reaper m)).
  pose proof (table_wf _ (routing_table _ Hm)) as ((p & Hp2 & Hn) & _).
  assert (0 < n_buckets (m_vhash m) ≤ 2 ^ 30) as Hnb by (rewrite Hn; split; [apply Z.pow_pos_nonneg; lia|apply Z.pow_le_mono_r; lia]).
  change (2 ^ 30) with 1073741824 in Hnb.
  assert (0 ≤ base < n_buckets (m_vhash m)) as Hbase by (unfold base; case_decide; lia).
  destruct (reap_range_ok now base (base + buckets_per_pass (m_reaper m)) m Hm) as (m1 & -> & Hl & _); [right; lia|]. bret.
  unfold REAP_MAX in Hp. rewrite int_ok by (ints; lia). bret. eexists. split; [done|].
  pose proof (looked_routing _ _ Hl) as Hm1. split; [by apply set_reaper_ok|]. split; [split; cbn; unfold REAP_MAX; lia|].
  split; [destruct (looked_same_way _ _ Hl) as [? ? ? ?]; by split|]. split; [apply (frame_folk _ _ (looked_frame _ _ Hl))|].
  split; [apply (frame_helper _ _ (looked_frame _ _ Hl))|apply (looked_size _ _ Hl)].
Qed.

(** The check of stale routes deletes the routes in force that were not looked up for
    [ageing] seconds. *)
Lemma stale_ok now ageing m :
  heap_ok m → table_ok m →
  ∃ m', check_stale_routes now ageing m = Ret m' ∧ heap_ok m' ∧ table_ok m' ∧ frame m m' ∧
    ∀ id r, m_routes m' !! id = Some r ↔ m_routes m !! id = Some r ∧ (defined now m r = true → now - mr_last_reference r < ageing).
Proof.
  intros Hok Ht. pose proof (table_wf _ Ht) as Hw. pose proof Hw as (_ & _ & Hlen & _). unfold check_stale_routes.
  destruct (range_ok (m_vhash m) 0 (n_buckets (m_vhash m)) Hw) as (lo & hi & -> & Hr & Hlo & Hhi); [lia|lia|]. bret.
  set (gone := λ r, defined now m r && bool_decide (now - mr_last_reference r >= ageing)).
  destruct (walk_ok m gone (stale_body now ageing)) with (lo := lo) (hi := hi) as (m1 & h1 & -> & Hok1 & Ht1 & Hf & _ & _ & Hl); try done.
  { intros a el r Ha Hf Hr'. unfold stale_body. rewrite Hr'. cbn [of_option]. bret. destruct (heap_owner _ Ha _ _ Hr') as [x Hx].
    rewrite (route_defined_ok now a r x) by done. bret. rewrite (frame_defined now m a) by done. by destruct (gone r) eqn:E; unfold gone in E; rewrite E. }
  bret. exists (set_vhash h1 m1). split; [done|]. split; [done|]. split; [done|]. split; [done|].
  intros id r. cbn [set_vhash m_routes]. rewrite Hl. pose proof (key_index_lt (m_vhash m) (mr_addr r) Hw) as Hki.
  apply Nat2Z.inj_lt in Hki. rewrite Hlen in Hki. generalize dependent (key_index (m_vhash m) (mr_addr r)). intros k Hki.
  unfold gone. rewrite andb_true_iff, bool_decide_eq_true. assert ((lo ≤ k < hi)%nat) by lia. split; intros [? Hn]; (split; [done|]).
  - intros Hd. destruct (decide (now - mr_last_reference r < ageing)); [done|]. destruct Hn. split; [split; [done|lia]|done].
  - intros [[Hd Hge] _]. specialize (Hn Hd). lia.
Qed.
