(* ===== verification/OvpnMultiProps.v ===== *)
(** * OpenVPN: properties of the routing of a server

    The table as a transition system: clients come, learn their addresses, add their
    networks and leave, packets are looked up, the reaper passes.  [routing_is_safe] shows
    that no such event fails in a state that events lead to; the others, what a lookup
    answers and what leaves it alone. *)
From stdpp Require Import gmap.
From S2P Require Import Prelude OvpnBuffer OvpnPacketId OvpnFrame OvpnList OvpnMbuf OvpnPool OvpnProto OvpnNatProofs OvpnMroute OvpnMrouteProofs OvpnPf OvpnMulti OvpnMultiProofs OvpnMultiOpsProofs.
#[local] Open Scope bool_scope.
#[local] Open Scope Z_scope.

(** ** Events *)

Inductive event :=
  | Comes (x : multi_instance)
  | Address (i : nat) (a : Z)
  | Address6 (i : nat) (a6 : list Z)
  | Networks (i : nat)
  | Goes (i : nat)
  | Lookup (a : mroute_addr)
  | Reaps.

Section events.
Context (little : bool).

(** What an event does at time [now], when [script] answers for the learn-address script. *)
Definition run (script : option nat → learn_op → mroute_addr → bool) (now : Z) (e : event) (m : multi_context) : outcome multi_context :=
  match e with
  | Comes x => Ret (multi_create_routing x m).2
  | Address i a => '(_, m) ← multi_learn_in_addr_t little script now i a (-1) m; Ret m
  | Address6 i a6 => '(_, m) ← multi_learn_in6_addr little script now i a6 (-1) m; Ret m
  | Networks i => multi_add_iroutes little script now i m
  | Goes i => multi_close_routing i m
  | Lookup a => '(_, m) ← multi_get_instance_by_virtual_addr little script now a true m; Ret m
  | Reaps => multi_reap_process now m
  end.

(** What the rest of the server keeps to, and that no counter is at its end: the routes
    stay fewer than [INT_MAX], and the generation below 2^32. *)
Definition fits (e : event) (m : multi_context) : Prop :=
  match e with
  | Comes x => 0 ≤ mi_max_routes x < INT_MAX ∧ iroutes_ok x
  | Address i a => alive m i = true ∧ is_u32 a ∧ small (m_vhash m)
  | Address6 i a6 => alive m i = true ∧ length a6 = 16%nat ∧ Forall is_byte a6 ∧ small (m_vhash m)
  | Networks i => alive m i = true ∧ ∀ x, m_instances m !! i = Some x → mi_did_iroutes x = false ∧ iroutes_ok x ∧ iroutes_fit x m
  | Goes i => alive m i = true ∧ ∀ x, m_instances m !! i = Some x → iroutes_ok x ∧
      cache_generation (m_helper m) + Z.of_nat (length (lengths x)) < 2 ^ 32
  | Lookup a => host_addr a ∧ small (m_vhash m)
  | Reaps => True
  end.

Inductive reachable : multi_context → Prop :=
  | starts size random now local m : 0 < size ≤ 2 ^ 30 →
      multi_init_routing little size random now local = Ret m → reachable m
  | happens script now e m m' : reachable m → fits e m → run script now e m = Ret m' → reachable m'.

(** ** The invariant *)

Definition server_ok (m : multi_context) : Prop := routing_ok m ∧ reaper_ok m.

Lemma count_init n ttl : count_of n (mroute_helper_init ttl) = 0.
Proof.
  unfold count_of. cbn [mroute_helper_init net_len_refcount]. rewrite nth_lookup.
  destruct (replicate _ 0 !! Z.to_nat n) eqn:E; [by apply lookup_replicate in E as [-> _]|done].
Qed.
Lemma start_ok size random now local : 0 < size ≤ 2 ^ 30 →
  ∃ m, multi_init_routing little size random now local = Ret m ∧ server_ok m.
Proof.
  intros Hs. unfold multi_init_routing. destruct (hash_init_ok (K := mroute_addr) (V := nat) size random Hs) as (h & -> & Hw & _ & _ & Hn). bret.
  eexists. split; [done|]. split.
  - split.
    + split; by intros.
    + split; [done|..]; cbn; [by intros k id; rewrite Hn|by intros..].
    + split; [apply helper_init_ok| |by intros]. intros n Hn0. cbn [m_helper m_instances]. change (times n []) with 0. rewrite msum_empty.
      by rewrite count_init.
    + by intros id r.
  - split; [done|]. cbn. pose proof (reap_per_pass size). unfold REAP_MIN in *. lia.
Qed.

Lemma server_event_ok script now e m : server_ok m → fits e m → ∃ m', run script now e m = Ret m' ∧ server_ok m'.
Proof.
  intros [Hm [Hr1 Hr2]] Hf. destruct e as [x|i a|i a6|i|i|a|]; cbn [fits run] in *.
  - destruct Hf as [Hmax Hi]. pose proof (create_ok x m Hm Hmax Hi) as Hc. destruct (multi_create_routing x m) as [i m']. cbn [snd].
    destruct Hc as (_ & Hm' & _ & _ & _ & _ & _ & Hre). exists m'. split; [done|]. split; [done|]. unfold reaper_ok. by rewrite Hre.
  - destruct Hf as (Hal & Ha & Hs). rewrite learn_in_addr_eq. destruct (in_addr_ok little a (-1) Ha ltac:(lia)) as (Hw & _).
    destruct (learn_host_ok script now i (in_addr little a (-1)) m Hm Hs Hal Hw) as (m' & -> & Hl & Hm').
    { rewrite in_addr_net by (done || lia). lia. }
    bret. exists m'. split; [done|]. split; [done|]. unfold reaper_ok. by rewrite (frame_reaper _ _ (learned_frame _ _ _ _ _ _ _ Hl)).
  - destruct Hf as (Hal & Hl6 & Hb & Hs). rewrite learn_in6_addr_eq by (done || lia). destruct (in6_addr_ok little a6 (-1) Hl6 Hb ltac:(lia)) as (Hw & _ & Ht).
    rewrite decide_False in Ht by lia. destruct Ht as [Ht _].
    destruct (learn_host_ok script now i (in6_addr little a6 (-1)) m Hm Hs Hal Hw) as (m' & -> & Hl & Hm').
    { unfold is_net. rewrite Ht. intros Hn. by apply Hn. }
    bret. exists m'. split; [done|]. split; [done|]. unfold reaper_ok. by rewrite (frame_reaper _ _ (learned_frame _ _ _ _ _ _ _ Hl)).
  - destruct Hf as (Hal & Hf). destruct (alive_instance _ _ Hal) as (x & Hx & Hh). destruct (Hf x Hx) as (Hd & Hi & Hfit).
    destruct (add_iroutes_ok little script now i x m Hm (conj Hr1 Hr2) Hx Hh Hd Hi Hfit) as (m' & -> & Hm' & Hre & _). by exists m'.
  - destruct Hf as (Hal & Hf). destruct (alive_instance _ _ Hal) as (x & Hx & Hh). destruct (Hf x Hx) as ((Hi4 & Hi6) & Hg).
    destruct (close_ok i x m Hm Hx Hh) as (h & m' & -> & Hc & Hho & Hch & Hgh).
    { eapply Forall_impl; [done|]. by intros ir (_ & _ & ? & _). }
    exists m'. split; [done|]. pose proof (helper_valid _ _ (routing_helper _ Hm)) as (_ & _ & _ & _ & _ & Hgr). unfold is_u32 in Hgr.
    split; [eapply closed_routing; try done|].
    + rewrite Hgh. apply (wrap_small 32). case_match; lia.
    + destruct Hc as (_ & _ & _ & _ & Hre & _). unfold reaper_ok. by rewrite Hre.
  - destruct Hf as [Ha Hs]. destruct (lookup_ok little script now a m Hm Hs Ha) as (o & m' & -> & Hl & _). bret. exists m'. split; [done|].
    split; [by apply Hl|]. unfold reaper_ok. by rewrite (frame_reaper _ _ (looked_frame _ _ Hl)).
  - destruct (reap_process_ok now m Hm (conj Hr1 Hr2)) as (m' & -> & Hm' & Hre & _). by exists m'.
Qed.

Lemma reachable_ok m : reachable m → server_ok m.
Proof.
  induction 1 as [size random now local m Hs E|script now e m m' _ IH Hf E].
  - destruct (start_ok size random now local Hs) as (m1 & E1 & H). congruence.
  - destruct (server_event_ok script now e m IH Hf) as (m1 & E1 & H). congruence.
Qed.

(** ** Properties *)

(** C5: No event of a server's routing fails.  From the empty table of [multi_init], in
    any order of clients that come, learn addresses, add networks and leave, of lookups and
    of passes of the reaper, at any times and whatever the learn-address script answers,
    the next event is computed: nothing freed is used, no counter of references or of
    prefix lengths goes below zero, no assertion fails. *)
Theorem routing_is_safe script now e m :
  reachable m → fits e m → ∃ m', run script now e m = Ret m' ∧ reachable m'.
Proof.
  intros Hr Hf. destruct (server_event_ok script now e m (reachable_ok _ Hr) Hf) as (m' & E & _).
  exists m'. split; [done|]. by eapply happens.
Qed.

(** C6: Looking an address up answers the client whose own address it is, else the one with
    the longest prefix that contains it among the networks of the clients that are there,
    else none; and that answer is the only right one.  The cache of host routes, however
    old and after whatever changes, never shows: neither in the answer nor in where
    packets go afterwards. *)
Theorem lookup_is_longest_prefix script now a m :
  reachable m → host_addr a → small (m_vhash m) →
  ∃ o m', multi_get_instance_by_virtual_addr little script now a true m = Ret (o, m') ∧ same_way m m' ∧
    (if mroute_addr_equal a (m_local m) then o = None else ∀ o', routed m a o' ↔ o' = o).
Proof.
  intros Hr Ha Hs. destruct (reachable_ok _ Hr) as [Hm _]. destruct (lookup_ok little script now a m Hm Hs Ha) as (o & m' & E & Hl & Ho).
  exists o, m'. split; [done|]. split; [by apply looked_same_way|]. destruct (mroute_addr_equal a (m_local m)); [done|].
  intros o'. split; [|by intros ->]. intros Ho'. by eapply routed_unique; [apply Hm|..].
Qed.

(** C15: When a client leaves, nothing goes to it any more, and what went to other clients
    still does. *)
Theorem leaving_takes_only_its_own script now i m :
  reachable m → fits (Goes i) m →
  ∃ m', run script now (Goes i) m = Ret m' ∧ (∀ a, ¬ routed m' a (Some i)) ∧
    ∀ a j, j ≠ i → routed m a (Some j) → routed m' a (Some j).
Proof.
  intros Hr (Hal & Hf). destruct (reachable_ok _ Hr) as [Hm _]. destruct (alive_instance _ _ Hal) as (x & Hx & Hh). destruct (Hf x Hx) as ((Hi4 & Hi6) & Hg).
  destruct (close_ok i x m Hm Hx Hh) as (h & m' & E & Hc & _).
  { eapply Forall_impl; [done|]. by intros ir (_ & _ & ? & _). }
  exists m'. split; [done|]. pose proof (λ j, closed_alive i x h m m' j Hc) as Ha. destruct Hc as (_ & Er & _).
  assert (∀ net j, net_live m' net j ↔ j ≠ i ∧ net_live m net j) as Hn.
  { intros net j. unfold net_live. rewrite Er, Ha. case_decide as Hji.
    - split; [by intros (? & ? & ? & ? & ? & ? & ?)|tauto].
    - naive_solver. }
  assert (∀ a j, host_live m' a j ↔ j ≠ i ∧ host_live m a j) as Hho.
  { intros a j. unfold host_live. rewrite Er, Ha. case_decide as Hji.
    - split; [by intros (? & ? & ? & ? & ? & ? & ?)|tauto].
    - naive_solver. }
  split.
  - intros a [H|[_ (net & H & _)]]; [by apply Hho in H as [? _]|by apply Hn in H as [? _]].
  - intros a j Hji [H|[Hno (net & H & Hcov & Hmax)]]; [left; by apply Hho|right]. split.
    + intros k [_ Hk]%Hho. by eapply Hno.
    + exists net. split; [by apply Hn|]. split; [done|]. intros net' i' [_ Hn']%Hn. by eapply Hmax.
Qed.

(** C16: The networks of a client are routed to it: when its quota has room for them and
    the script agrees, each network that can be learned has a route to the client once all
    are added, also where another client had it before. *)
Theorem networks_are_learned script now i x m :
  reachable m → fits (Networks i) m → m_instances m !! i = Some x →
  (∀ op a, script (Some i) op a = true) → mi_route_count x + Z.of_nat (length (networks little x)) ≤ mi_max_routes x →
  ∃ m', run script now (Networks i) m = Ret m' ∧
    ∀ net, net ∈ networks little x → is_net net → learnable net = true → mroute_addr_equal net (m_local m) = false → has_net m' net i.
Proof.
  intros Hr (Hal & Hf) Hx Hsc Hq. destruct (reachable_ok _ Hr) as [Hm Hre]. destruct (alive_instance _ _ Hal) as (y & Hy & Hh).
  rewrite Hx in Hy. injection Hy as <-. destruct (Hf x Hx) as (Hd & Hi & Hfit).
  destruct (add_iroutes_ok little script now i x m Hm Hre Hx Hh Hd Hi Hfit) as (m' & E & _ & _ & _ & _ & Hg). exists m'. split; [done|]. by apply Hg.
Qed.

(** A full pass of the reaper deletes exactly the routes that are not in force, and
    changes nothing of where packets go. *)
Theorem reaping_deletes_the_dead now m :
  reachable m →
  ∃ m', multi_reap_all now m = Ret m' ∧ same_way m m' ∧
    ∀ id r, m_routes m' !! id = Some r ↔ m_routes m !! id = Some r ∧ defined now m r = true.
Proof.
  intros Hr. destruct (reachable_ok _ Hr) as [Hm _].
  destruct (reap_range_ok now (-1) 0 m Hm) as (m' & E & Hl & _ & Hi); [by left|]. exists m'. split; [done|]. split; [by apply looked_same_way|].
  intros id r. rewrite Hi. assert (-1 < 0) by lia. naive_solver.
Qed.

(** A network of zeros is never learned, whatever its length: a client's default route
    [iroute 0.0.0.0 0.0.0.0] is counted among the prefix lengths and has no effect. *)
Theorem default_network_is_not_learned script now i n m :
  reachable m → alive m i = true → small (m_vhash m) → 0 ≤ n < 32 →
  ∃ o m', multi_learn_in_addr_t little script now i 0 n m = Ret (o, m') ∧ m_routes m' = m_routes m.
Proof.
  intros Hr Hal Hs Hn. destruct (reachable_ok _ Hr) as [Hm _]. rewrite learn_in_addr_eq.
  destruct (in_addr_ok little 0 n ltac:(by split) ltac:(lia)) as (Hw & Hl & Hv & _).
  destruct (learn_ok script now i (in_addr little 0 n) 0 m) as (m' & E & H); [apply Hm|apply Hm|done..|].
  eexists _, m'. split; [done|]. pose proof (learned_routes _ _ _ _ _ _ _ H) as Hro.
  assert (learnable (in_addr little 0 n) = false) as Hle.
  { unfold learnable, in_addr. cbn [mroute_extract_openvpn_sockaddr snd]. rewrite htonl_bytes by done. by case_decide. }
  unfold learns, wanted in Hro. by rewrite Hle, andb_false_r in Hro.
Qed.
(** *** The check of stale routes *)

(** Packets are routed, each at its time. *)
Definition lookups (script : option nat → learn_op → mroute_addr → bool) (l : list (Z * mroute_addr)) (m : multi_context) : outcome multi_context :=
  foldM (λ '(now, a) m, '(_, m) ← multi_get_instance_by_virtual_addr little script now a true m; Ret m) l m.
Lemma lookups_ok script l m :
  routing_ok m → Forall (λ p, host_addr p.2) l → n_elements (m_vhash m) + Z.of_nat (length l) < INT_MAX →
  ∃ m', lookups script l m = Ret m' ∧ routing_ok m' ∧ same_nets m m' ∧
    ∀ id r, m_routes m' !! id = Some r → is_net (mr_addr r) → m_routes m !! id = Some r.
Proof.
  revert m. induction l as [|[now a] l IH]; intros m Hm Hl Hn; [by exists m|].
  apply Forall_cons in Hl as [Ha Hl]. cbn [length] in Hn. ints.
  destruct (lookup_ok little script now a m Hm) as (o & m1 & E & [H1 Hf Hs _ Hsz Hk] & _); [unfold small; ints; lia|done|].
  destruct (IH m1 H1 Hl) as (m2 & E2 & H2 & Hs2 & Hk2); [ints; lia|]. exists m2. split; [|split; [done|split]].
  - unfold lookups. cbn [foldM]. rewrite E. bret. exact E2.
  - intros net i. by rewrite (Hs2 net i), (Hs net i).
  - intros id r Hi Hnet. apply Hk; [|done]. by apply Hk2.
Qed.
(** The route to a network is in force while its client is there. *)
Lemma net_defined now m id r : routing_ok m → m_routes m !! id = Some r → is_net (mr_addr r) → alive m (mr_instance r) = true → defined now m r = true.
Proof.
  intros Hm Hr Hn Hal. destruct (routing_routes _ Hm _ _ Hr) as [[Hf _]|[_ ((_ & Hno) & _)]]; [|done].
  unfold defined, cached, expired. rewrite Hal, Hf. done.
Qed.

(** C40: The check of stale routes does not know which networks are in use.  Whatever packets
    were routed before it, a client's network stays exactly when its route was made less
    than [ageing] seconds ago: the lookups that go through a network refresh the routes of
    hosts only, so that networks in use are cut off. *)
Theorem stale_check_cuts_networks script l now ageing m :
  reachable m → Forall (λ p, host_addr p.2) l → n_elements (m_vhash m) + Z.of_nat (length l) < INT_MAX →
  ∃ m1 m2, lookups script l m = Ret m1 ∧ check_stale_routes now ageing m1 = Ret m2 ∧
    ∀ net i, net_live m2 net i ↔
      alive m i = true ∧ is_net net ∧
      ∃ id r, m_routes m !! id = Some r ∧ mr_addr r = net ∧ mr_instance r = i ∧ now - mr_last_reference r < ageing.
Proof.
  intros Hr Hl Hn. destruct (reachable_ok _ Hr) as [Hm _]. destruct (lookups_ok script l m Hm Hl Hn) as (m1 & E1 & Hm1 & Hs & Hk).
  destruct (stale_ok now ageing m1) as (m2 & E2 & _ & _ & Hf & Hst); [apply Hm1|apply Hm1|]. exists m1, m2. split; [done|]. split; [done|].
  intros net i. split.
  - intros (id & r & Hi & <- & <- & Hnet & Hal). rewrite (frame_alive _ _ Hf) in Hal. apply Hst in Hi as [Hi Hd].
    assert (net_live m (mr_addr r) (mr_instance r)) as Hlive by (apply Hs; by exists id, r).
    split; [by eapply net_live_alive|]. split; [done|]. exists id, r. split; [by apply Hk|]. split; [done|]. split; [done|].
    apply Hd. by eapply net_defined.
  - intros (Hal & Hnet & id & r & Hi & <- & <- & Hd).
    assert (net_live m1 (mr_addr r) (mr_instance r)) as (id1 & r1 & Hi1 & Ha1 & _ & _ & Hal1) by (apply Hs; by exists id, r).
    assert (m_routes m !! id1 = Some r1) as Hi0 by (apply Hk; [done|by rewrite Ha1]).
    assert (r1 = r) as -> by (apply (route_unique m (mr_addr r) id1 id); [apply Hm|done|done|rewrite Ha1; apply equal_refl|apply equal_refl]).
    exists id1, r. split; [apply Hst; split; [done|by intros]|]. split; [done|]. split; [done|]. split; [done|]. by rewrite (frame_alive _ _ Hf).
Qed.
End events.

(** *** Witnesses *)

Section witnesses.

Definition agrees : option nat → learn_op → mroute_addr → bool := λ _ _ _, true.
(** A client with the network 10.0.0.0/8 on a server whose address is 10.8.0.1. *)
Definition a_client : multi_instance := Instance false 0 0 false [IR 167772160 8] [] 256 None (PfContext false None) None.
Definition nothing : multi_context := Multi (Hash 0 0 0 0 []) ∅ ∅ (mroute_helper_init 0) (Reap 0 0 0) mroute_addr_init.
Definition state (o : outcome multi_context) : multi_context := match o with Ret m => m | _ => nothing end.
Definition demo0 : multi_context := Eval vm_compute in state (multi_init_routing true 4 7 0 168296449).
Definition demo1 : multi_context := Eval vm_compute in state (run true agrees 1 (Comes a_client) demo0).
Definition demo2 : multi_context := Eval vm_compute in state (run true agrees 2 (Networks 0) demo1).
(** 10.1.1.1. *)
Definition an_address : mroute_addr := Eval vm_compute in in_addr true 167837953 (-1).

Lemma times_le n l : times n l ≤ Z.of_nat (length l).
Proof. unfold times. apply inj_le, length_filter. Qed.

Lemma demo0_reachable : reachable true demo0.
Proof. apply (starts true 4 7 0 168296449); [lia|]. vm_compute. reflexivity. Qed.
Lemma a_client_ok c : mi_iroutes c = [IR 167772160 8] → mi_iroutes_ipv6 c = [] → iroutes_ok c.
Proof.
  intros H4 H6. unfold iroutes_ok. rewrite H4, H6. split; [|done]. apply Forall_singleton. split; [cbn; lia|]. split; [by split|]. intros _. reflexivity.
Qed.
Lemma demo1_reachable : reachable true demo1.
Proof.
  apply (happens true agrees 1 (Comes a_client) demo0); [apply demo0_reachable| |vm_compute; reflexivity].
  split; [by split|]. by apply a_client_ok.
Qed.
Lemma demo1_networks : fits (Networks 0) demo1.
Proof.
  split; [reflexivity|]. intros x Hx. assert (x = set_counts 1 0 a_client) as -> by (vm_compute in Hx; by injection Hx as <-).
  split; [reflexivity|]. split; [by apply a_client_ok|]. split; [vm_compute; congruence|]. split; [vm_compute; reflexivity|].
  intros n _. assert (m_helper demo1 = mroute_helper_init 60) as -> by reflexivity. rewrite count_init.
  pose proof (times_le n (lengths (set_counts 1 0 a_client))) as H. change (Z.of_nat (length (lengths (set_counts 1 0 a_client)))) with 1 in H. ints. lia.
Qed.
Lemma demo2_reachable : reachable true demo2.
Proof.
  apply (happens true agrees 2 (Networks 0) demo1); [apply demo1_reachable|apply demo1_networks|vm_compute; reflexivity].
Qed.
Lemma an_address_host : host_addr an_address.
Proof.
  assert (an_address = in_addr true 167837953 (-1)) as -> by reflexivity.
  split; [apply in_addr_ip; [by split|lia]|]. rewrite in_addr_net; [lia|by split|lia].
Qed.

Lemma routing_is_safe_witness : ∃ m', run true agrees 2 (Networks 0) demo1 = Ret m' ∧ reachable true m'.
Proof. exact (routing_is_safe true agrees 2 (Networks 0) demo1 demo1_reachable demo1_networks). Defined.

Lemma lookup_is_longest_prefix_witness :
  ∃ o m', multi_get_instance_by_virtual_addr true agrees 3 an_address true demo2 = Ret (o, m') ∧ o = Some 0%nat ∧ routed demo2 an_address o.
Proof.
  destruct (lookup_is_longest_prefix true agrees 3 an_address demo2 demo2_reachable an_address_host) as (o & m' & E & _ & Hr).
  - vm_compute. reflexivity.
  - exists o, m'. split; [exact E|]. split; [vm_compute in E; congruence|]. change (∀ o', routed demo2 an_address o' ↔ o' = o) in Hr. by apply Hr.
Defined.

Lemma demo2_goes : fits (Goes 0) demo2.
Proof.
  split; [reflexivity|]. intros x Hx. vm_compute in Hx. injection Hx as <-. split; [by apply a_client_ok|]. vm_compute. reflexivity.
Qed.
Lemma leaving_takes_only_its_own_witness : ∃ m', run true agrees 3 (Goes 0) demo2 = Ret m' ∧ ∀ a, ¬ routed m' a (Some 0%nat).
Proof.
  destruct (leaving_takes_only_its_own true agrees 3 0 demo2 demo2_reachable demo2_goes) as (m' & E & H & _). by exists m'.
Defined.

Lemma networks_are_learned_witness : ∃ m', run true agrees 2 (Networks 0) demo1 = Ret m' ∧ has_net m' (in_addr true 167772160 8) 0.
Proof.
  destruct (networks_are_learned true agrees 2 0 (set_counts 1 0 a_client) demo1 demo1_reachable demo1_networks) as (m' & E & H).
  - reflexivity.
  - reflexivity.
  - vm_compute. congruence.
  - exists m'. split; [exact E|]. apply H; [by left| |reflexivity|reflexivity]. rewrite in_addr_net; [lia|by split|lia].
Defined.

Lemma reaping_deletes_the_dead_witness : ∃ m', multi_reap_all 3 demo2 = Ret m' ∧ same_way demo2 m'.
Proof. destruct (reaping_deletes_the_dead true 3 demo2 demo2_reachable) as (m' & E & H & _). by exists m'. Defined.

Lemma default_network_is_not_learned_witness :
  ∃ o m', multi_learn_in_addr_t true agrees 3 0 0 0 demo2 = Ret (o, m') ∧ m_routes m' = m_routes demo2.
Proof. apply (default_network_is_not_learned true agrees 3 0 0 demo2 demo2_reachable); [reflexivity|vm_compute; reflexivity|lia]. Defined.

(** 10.1.1.1 is looked up every 50 seconds and answered; then the check, told to delete
    routes not used for 100 seconds, deletes the network 10.0.0.0/8 of the client. *)
Lemma stale_check_cuts_networks_witness :
  net_live demo2 (in_addr true 167772160 8) 0 ∧
  ∃ m1 m2, lookups true agrees [(50, an_address); (100, an_address); (150, an_address)] demo2 = Ret m1 ∧
    check_stale_routes 160 100 m1 = Ret m2 ∧ ∀ net i, ¬ net_live m2 net i.
Proof.
  assert (∃ r, m_routes demo2 = {[0%nat := r]} ∧ mr_last_reference r = 2 ∧ mr_addr r = in_addr true 167772160 8 ∧ mr_instance r = 0%nat) as (r & Er & Hl & Ha & Hi)
    by (eexists; split; [vm_compute; reflexivity|]; repeat split; vm_compute; reflexivity).
  split.
  { exists 0%nat, r. rewrite Er, lookup_singleton_eq. split; [done|]. split; [done|]. split; [done|]. split; [vm_compute; discriminate|reflexivity]. }
  destruct (stale_check_cuts_networks true agrees [(50, an_address); (100, an_address); (150, an_address)] 160 100 demo2 demo2_reachable)
    as (m1 & m2 & E1 & E2 & H); [by repeat (apply Forall_cons; split; [apply an_address_host|])|vm_compute; reflexivity|].
  exists m1, m2. split; [exact E1|]. split; [exact E2|].
  intros net i (_ & _ & id & r' & Hr & _ & _ & Hd)%H. rewrite Er in Hr. apply lookup_singleton_Some in Hr as [_ <-]. lia.
Defined.
End witnesses.
