(* ===== verification/OvpnSwitch.v ===== *)
(** * OpenVPN: the server as a switch

    Models where [openvpn/src/src/openvpn/multi.c] sends a packet: from a client to other
    clients or to the tun/tap device ([multi_process_incoming_link], once the packet is
    decrypted), and from the device to a client ([multi_process_incoming_tun], until it is
    encrypted), with the broadcast, the output queue and the packet filters of
    [pf-inline.h], and [register_activity] of [forward-inline.h].

    What the stack holds where the C code declares addresses is an argument: [junk_src],
    [junk_dest] and, for the addresses inside a frame, [junk_ext]. *)
From stdpp Require Import gmap.
From S2P Require Import Prelude OvpnBuffer OvpnPacketId OvpnFrame OvpnList OvpnMbuf OvpnProto OvpnMroute OvpnPf OvpnMulti.
#[local] Open Scope bool_scope.
#[local] Open Scope Z_scope.

(** Of a client's [struct context]: [--inactive] and what it has counted. *)
Record inactivity := Inactivity {
  inactivity_timeout : Z;
  inactivity_minimum_bytes : Z;
  inactivity_bytes : Z;
  inactivity_interval : event_timeout;
}.
(** What a [struct multi_context] has beside the routing table. *)
Record multi_switch := Switch {
  s_multi : multi_context;
  s_iter : hash mroute_addr nat;
  s_mbuf : mbuf_set;
  s_heap : gmap nat mbuf_buffer;
  s_activity : gmap nat inactivity;
  s_enable_c2c : bool;
  s_tcp_queue_limit : Z;
}.
Definition set_multi (m : multi_context) (s : multi_switch) : multi_switch :=
  Switch m (s_iter s) (s_mbuf s) (s_heap s) (s_activity s) (s_enable_c2c s) (s_tcp_queue_limit s).
Definition set_iter (h : hash mroute_addr nat) (s : multi_switch) : multi_switch :=
  Switch (s_multi s) h (s_mbuf s) (s_heap s) (s_activity s) (s_enable_c2c s) (s_tcp_queue_limit s).
Definition set_queue (ms : mbuf_set) (h : gmap nat mbuf_buffer) (s : multi_switch) : multi_switch :=
  Switch (s_multi s) (s_iter s) ms h (s_activity s) (s_enable_c2c s) (s_tcp_queue_limit s).
Definition set_activity (a : gmap nat inactivity) (s : multi_switch) : multi_switch :=
  Switch (s_multi s) (s_iter s) (s_mbuf s) (s_heap s) a (s_enable_c2c s) (s_tcp_queue_limit s).

Definition register_activity (now size : Z) (c : inactivity) : outcome inactivity :=
  if decide (inactivity_timeout c ≠ 0) then
    n ← int (inactivity_bytes c + size);
    Ret (if decide (n >= inactivity_minimum_bytes c)
         then Inactivity (inactivity_timeout c) (inactivity_minimum_bytes c) 0 (event_timeout_reset now (inactivity_interval c))
         else Inactivity (inactivity_timeout c) (inactivity_minimum_bytes c) n (inactivity_interval c))
  else Ret c.
Definition client_activity (now size : Z) (i : nat) (s : multi_switch) : outcome multi_switch :=
  c ← of_option (s_activity s !! i);
  c ← register_activity now size c;
  Ret (set_activity (<[i := c]> (s_activity s)) s).

(** ** The packet filters of both ends *)

Definition pf_c2c_test (src dest : nat) (m : multi_context) : outcome (bool * multi_context) :=
  x ← get_instance src m;
  y ← get_instance dest m;
  '(ok, pf) ← pf_end_test (mi_pf x) (mi_tls y);
  let m := put_instance src (set_pf pf x) m in
  if ok : bool then
    x ← get_instance src m;
    y ← get_instance dest m;
    '(ok, pf) ← pf_end_test (mi_pf y) (mi_tls x);
    Ret (ok, put_instance dest (set_pf pf y) m)
  else Ret (false, m).

(** ** The output queue *)

Definition multi_output_queue_ready (s : multi_switch) (mi : multi_instance) : bool :=
  match mi_deferred mi with
  | Some q => bool_decide (ms_len q ≤ u32 (s_tcp_queue_limit s))
  | None => true
  end.
Definition multi_add_mbuf (mi mb : nat) (s : multi_switch) : outcome multi_switch :=
  x ← get_instance mi (s_multi s);
  if multi_output_queue_ready s x then
    '(ms, h) ← mbuf_add_item (MI (Some mb) (Some mi)) (s_mbuf s) (s_heap s);
    Ret (set_queue ms h s)
  else Ret s.

Definition MF_UNICAST : Z := 1.
Definition set_flags (mb : nat) (f : Z) (h : gmap nat mbuf_buffer) : outcome (gmap nat mbuf_buffer) :=
  m ← of_option (h !! mb);
  Ret (<[mb := MB (mb_buf m) (mb_refcount m) f]> h).

Definition multi_unicast (buf : buffer) (mi : nat) (s : multi_switch) : outcome multi_switch :=
  if decide (buf_len buf > 0) then
    '(mb, h) ← mbuf_alloc_buf buf (s_heap s);
    h ← set_flags mb MF_UNICAST h;
    s ← multi_add_mbuf mi mb (set_queue (s_mbuf s) h s);
    h ← mbuf_free_buf (Some mb) (s_heap s);
    Ret (set_queue (s_mbuf s) h s)
  else Ret s.

Section switch.
Context (little : bool) (script : option nat → learn_op → mroute_addr → bool) (junk_src junk_dest junk_ext : mroute_addr).

(** A client of the list; nothing is removed from the list. *)
Definition bcast_body (mb : nat) (sender : option nat) (sender_addr : option mroute_addr)
    (s : multi_switch) (he : hash_element mroute_addr nat) : outcome (multi_switch * bool) :=
  let mi := he_value he in
  x ← get_instance mi (s_multi s);
  if decide (Some mi ≠ sender) then
    if negb (mi_halt x) then
      '(ok, m) ← (match sender with Some i => pf_c2c_test i mi (s_multi s) | None => Ret (true, s_multi s) end);
      let s := set_multi m s in
      if ok : bool then
        x ← get_instance mi (s_multi s);
        ok ← (match sender_addr with Some a => pf_addr_test little (mi_pf x) a | None => Ret true end);
        if ok : bool then s ← multi_add_mbuf mi mb s; Ret (s, false) else Ret (s, false)
      else Ret (s, false)
    else Ret (s, false)
  else Ret (s, false).
Definition multi_bcast (buf : buffer) (sender : option nat) (sender_addr : option mroute_addr) (s : multi_switch) : outcome multi_switch :=
  if decide (buf_len buf > 0) then
    '(mb, h) ← mbuf_alloc_buf buf (s_heap s);
    let s := set_queue (s_mbuf s) h s in
    hi ← hash_iterator_init (s_iter s);
    '(s, iter) ← hash_walk (bcast_body mb sender sender_addr) s (s_iter s) hi;
    h ← mbuf_free_buf (Some mb) (s_heap s);
    Ret (set_iter iter (set_queue (s_mbuf s) h s))
  else Ret s.

(** ** From a client *)

Definition lookup (now : Z) (a : mroute_addr) (cidr_routing : bool) (s : multi_switch) : outcome (option nat * multi_switch) :=
  '(o, m) ← multi_get_instance_by_virtual_addr little script now a cidr_routing (s_multi s);
  Ret (o, set_multi m s).
(** [c->c2.to_tun.len = 0]. *)
Definition drop_packet (b : buffer) : buffer := Buf (capacity b) (offset b) 0 (data b).

(** To another client, when the filters of both ends let it pass; no longer to the device. *)
Definition client_to_client (now : Z) (i j : nat) (to_tun : buffer) (s : multi_switch) : outcome (buffer * multi_switch) :=
  '(ok, m) ← pf_c2c_test i j (s_multi s);
  let s := set_multi m s in
  s ← (if ok : bool
       then s ← multi_unicast to_tun j s; client_activity now (buf_len to_tun) i s
       else Ret s);
  Ret (drop_packet to_tun, s).
(** To the device, when the filter of the client lets it pass. *)
Definition client_to_device (i : nat) (dest : mroute_addr) (to_tun : buffer) (s : multi_switch) : outcome buffer :=
  if decide (len to_tun ≠ 0) then
    x ← get_instance i (s_multi s);
    ok ← pf_addr_test little (mi_pf x) dest;
    Ret (if ok : bool then to_tun else drop_packet to_tun)
  else Ret to_tun.

(** A packet of client [i] in [to_tun]. *)
Definition from_client_tun (now : Z) (i : nat) (to_tun : buffer) (s : multi_switch) : outcome (buffer * multi_switch) :=
  '((flags, src, dest, _, _), to_tun) ← mroute_extract_addr_from_packet little (Some junk_src) (Some junk_dest) None None DEV_TYPE_TUN to_tun;
  src ← of_option src;
  dest ← of_option dest;
  '(to_tun, s) ←
    (if decide (Z.land flags MROUTE_EXTRACT_SUCCEEDED = 0) then Ret (drop_packet to_tun, s)
     else
       '(o, s) ← lookup now src true s;
       if decide (o ≠ Some i) then Ret (drop_packet to_tun, s)
       else if s_enable_c2c s then
         if decide (Z.land flags MROUTE_EXTRACT_MCAST ≠ 0) then
           s ← multi_bcast to_tun (Some i) None s;
           Ret (to_tun, s)
         else
           ASSERT (Z.land flags MROUTE_EXTRACT_BCAST = 0);;
           '(o, s) ← lookup now dest true s;
           match o with
           | Some j => client_to_client now i j to_tun s
           | None => Ret (to_tun, s)
           end
       else Ret (to_tun, s));
  to_tun ← client_to_device i dest to_tun s;
  Ret (to_tun, s).

(** A frame of client [i] in [to_tun]. *)
Definition from_client_tap (now : Z) (i : nat) (to_tun : buffer) (s : multi_switch) : outcome (buffer * multi_switch) :=
  '((flags, src, dest, _, edest), to_tun) ←
    mroute_extract_addr_from_packet little (Some junk_src) (Some junk_dest) None (Some (mroute_addr_reset junk_ext)) DEV_TYPE_TAP to_tun;
  src ← of_option src;
  dest ← of_option dest;
  edest ← of_option edest;
  if decide (Z.land flags MROUTE_EXTRACT_SUCCEEDED ≠ 0) then
    '(o, m) ← multi_learn_addr script now i src 0 (s_multi s);
    let s := set_multi m s in
    if decide (o = Some i) then
      '(to_tun, s) ←
        (if s_enable_c2c s then
           if decide (Z.land flags (Z.lor MROUTE_EXTRACT_BCAST MROUTE_EXTRACT_MCAST) ≠ 0) then
             s ← multi_bcast to_tun (Some i) None s;
             Ret (to_tun, s)
           else
             '(o, s) ← lookup now dest false s;
             match o with
             | Some j => client_to_client now i j to_tun s
             | None => Ret (to_tun, s)
             end
         else Ret (to_tun, s));
      to_tun ← client_to_device i edest to_tun s;
      Ret (to_tun, s)
    else Ret (drop_packet to_tun, s)
  else Ret (drop_packet to_tun, s).

(** [multi_process_incoming_link], after the packet of [m->pending] has been decrypted. *)
Definition multi_process_incoming_link (dev_type now : Z) (i : nat) (to_tun : buffer) (s : multi_switch) : outcome (buffer * multi_switch) :=
  if decide (dev_type = DEV_TYPE_TUN) then from_client_tun now i to_tun s
  else if decide (dev_type = DEV_TYPE_TAP) then from_client_tap now i to_tun s
  else Ret (to_tun, s).

(** ** From the device *)

Definition buf_reset_len (b : buffer) : buffer := Buf (capacity b) 0 0 (data b).

(** When no client is pending.  The packet in [buf] goes to the queue, or to one client: the client that is pending
    then, and what its buffer [c2_buf] becomes. *)
Definition multi_process_incoming_tun (dev_type now : Z) (buf : buffer) (c2_buf : nat → buffer) (s : multi_switch) :
    outcome (option (nat * buffer) * multi_switch) :=
  if decide (buf_len buf > 0) then
    let e1 := if decide (dev_type = DEV_TYPE_TUN) then None else Some (mroute_addr_reset junk_ext) in
    '((flags, src, dest, e1, _), buf) ← mroute_extract_addr_from_packet little (Some junk_src) (Some junk_dest) e1 None dev_type buf;
    src ← of_option src;
    dest ← of_option dest;
    e2 ← (if decide (dev_type = DEV_TYPE_TUN) then Ret src else of_option e1);
    if decide (Z.land flags MROUTE_EXTRACT_SUCCEEDED ≠ 0) then
      if decide (Z.land flags (Z.lor MROUTE_EXTRACT_BCAST MROUTE_EXTRACT_MCAST) ≠ 0) then
        s ← multi_bcast buf None (Some e2) s;
        Ret (None, s)
      else
        '(o, s) ← lookup now dest (bool_decide (dev_type = DEV_TYPE_TUN)) s;
        match o with
        | Some j =>
            x ← get_instance j (s_multi s);
            ok ← pf_addr_test little (mi_pf x) e2;
            Ret (Some (j, if ok && multi_output_queue_ready s x then buf else buf_reset_len (c2_buf j)), s)
        | None => Ret (None, s)
        end
    else Ret (None, s)
  else Ret (None, s).
End switch.
