(* ===== verification/OvpnSwitchProofs.v ===== *)
(** * OpenVPN: the server as a switch, proved

    What the filters of two clients say of each other ([c2c_verdict]) and which changes
    leave it alone ([quiet], [same_clients]); the output queue as a list of packets and
    their clients ([queue_shows]); and what unicast and broadcast put there. *)
From stdpp Require Import gmap.
From S2P Require Import Prelude OvpnBuffer OvpnPacketId OvpnFrame OvpnList OvpnMbuf OvpnMbufProofs OvpnProto OvpnProtoProofs OvpnMroute OvpnMrouteProofs OvpnPf OvpnPfProofs OvpnMulti OvpnMultiProofs OvpnMultiOpsProofs OvpnSwitch.
#[local] Open Scope bool_scope.
#[local] Open Scope Z_scope.

(** ** Clients and their filters *)

(** The session and the filter of every client are as the code leaves them. *)
Definition parties_ok (m : multi_context) : Prop :=
  ∀ i x, m_instances m !! i = Some x → session_ok (mi_tls x) ∧ context_ok (mi_pf x).
(** The filters of both ends let a packet from [i] to [j] pass. *)
Definition c2c_verdict (m : multi_context) (i j : nat) : bool :=
  match m_instances m !! i, m_instances m !! j with
  | Some x, Some y => end_verdict (mi_pf x) (mi_tls y) && end_verdict (mi_pf y) (mi_tls x)
  | _, _ => false
  end.
(** The filter of [i] lets it talk to an address. *)
Definition host_verdict (m : multi_context) (i : nat) (a : mroute_addr) : bool :=
  match m_instances m !! i with Some x => addr_verdict (mi_pf x) (addr_number a) | None => false end.

(** The same client, its counters apart. *)
Record same_client (x x' : multi_instance) : Prop := {
  same_client_tls : mi_tls x' = mi_tls x;
  same_client_deferred : mi_deferred x' = mi_deferred x;
  same_client_pf : same_pf (mi_pf x) (mi_pf x');
  same_client_networks : mi_iroutes x' = mi_iroutes x ∧ mi_iroutes_ipv6 x' = mi_iroutes_ipv6 x ∧ mi_did_iroutes x' = mi_did_iroutes x;
}.
Lemma same_client_refl x : same_client x x.
Proof. split; [done..|apply same_pf_refl|done]. Qed.
Lemma same_client_trans x y z : same_client x y → same_client y z → same_client x z.
Proof. intros [? ? H1 N1] [? ? H2 N2]. split; [congruence..|by eapply same_pf_trans|intuition congruence]. Qed.
Lemma same_client_verdict x x' tm : same_client x x' → end_verdict (mi_pf x') tm = end_verdict (mi_pf x) tm.
Proof. intros [_ _ [_ _ H _] _]. apply H. Qed.
Lemma same_client_addr x x' v : same_client x x' → addr_verdict (mi_pf x') v = addr_verdict (mi_pf x) v.
Proof. intros [_ _ [_ _ _ H] _]. apply H. Qed.

(** Packets go the same way, to the same clients, with the same filters. *)
Record same_clients (m m' : multi_context) : Prop := {
  sc_way : same_way m m';
  sc_client : ∀ i x x', alive m i = true → m_instances m !! i = Some x → m_instances m' !! i = Some x' → same_client x x';
  sc_reaper : m_reaper m' = m_reaper m;
  sc_helper : m_helper m' = m_helper m;
}.
Lemma same_way_refl m : same_way m m.
Proof. split; done. Qed.
Lemma same_way_trans m1 m2 m3 : same_way m1 m2 → same_way m2 m3 → same_way m1 m3.
Proof.
  intros [A1 B1 C1 D1] [A2 B2 C2 D2]. split; [intros ??; by rewrite (A2 _ _), (A1 _ _)|intros ??; by rewrite (B2 _ _), (B1 _ _)|intros ?; by rewrite C2, C1|congruence].
Qed.
Lemma same_clients_trans m1 m2 m3 : same_clients m1 m2 → same_clients m2 m3 → same_clients m1 m3.
Proof.
  intros [W1 C1 R1 H1] [W2 C2 R2 H2]. split; [by eapply same_way_trans| |congruence..]. intros i x z Ha Hx Hz.
  assert (alive m2 i = true) as Ha2 by (by rewrite (same_way_alive _ _ W1)).
  destruct (alive_instance _ _ Ha2) as (y & Hy & _). eapply same_client_trans; [by eapply C1|by eapply C2].
Qed.

Section same_verdicts.
Context (m m' : multi_context) (Hs : same_clients m m').

Lemma same_instance i x : alive m i = true → m_instances m !! i = Some x →
  ∃ x', m_instances m' !! i = Some x' ∧ same_client x x'.
Proof.
  intros Ha Hx. assert (alive m' i = true) as Ha' by (by rewrite (same_way_alive _ _ (sc_way _ _ Hs))).
  destruct (alive_instance _ _ Ha') as (x' & Hx' & _). exists x'. split; [done|]. by eapply sc_client.
Qed.
Lemma same_c2c i j : alive m i = true → alive m j = true → c2c_verdict m' i j = c2c_verdict m i j.
Proof.
  intros Hi Hj. destruct (alive_instance _ _ Hi) as (x & Hx & _), (alive_instance _ _ Hj) as (y & Hy & _).
  destruct (same_instance i x Hi Hx) as (x' & Hx' & Sx), (same_instance j y Hj Hy) as (y' & Hy' & Sy).
  unfold c2c_verdict. rewrite Hx, Hy, Hx', Hy', (same_client_tls _ _ Sx), (same_client_tls _ _ Sy).
  by rewrite (same_client_verdict x x'), (same_client_verdict y y').
Qed.
Lemma same_host i a : alive m i = true → host_verdict m' i a = host_verdict m i a.
Proof.
  intros Hi. destruct (alive_instance _ _ Hi) as (x & Hx & _). destruct (same_instance i x Hi Hx) as (x' & Hx' & Sx).
  unfold host_verdict. rewrite Hx, Hx'. by apply same_client_addr.
Qed.
Lemma same_has_way a o : routed m' a o ↔ routed m a o.
Proof.
  destruct (sc_way _ _ Hs) as [Hn Hh _ _]. split; apply same_routed; try done; [by apply same_nets_sym|]. intros ? ?. by rewrite (Hh _ _).
Qed.
End same_verdicts.

(** Lookups change counters only. *)
Lemma frame_same_clients m m' : frame m m' → same_way m m' → same_clients m m'.
Proof.
  intros Hf Hw. split; [done| |by apply frame_reaper|by apply frame_helper]. intros i x x' _ Hx Hx'. destruct (frame_static _ _ Hf _ _ Hx') as (y & Hy & a & b & ->).
  rewrite Hx in Hy. injection Hy as <-. split; [done..|apply same_pf_refl|done].
Qed.
Lemma frame_parties m m' : frame m m' → parties_ok m → parties_ok m'.
Proof. intros Hf Hp i x' Hx'. destruct (frame_static _ _ Hf _ _ Hx') as (x & Hx & a & b & ->). by apply (Hp i x). Qed.

(** Only the tables of filters have changed. *)
Record quiet (m m' : multi_context) : Prop := {
  quiet_clients : same_clients m m';
  quiet_routing : routing_ok m → routing_ok m';
  quiet_parties : parties_ok m → parties_ok m';
  quiet_vhash : m_vhash m' = m_vhash m;
  quiet_there : ∀ i, is_Some (m_instances m' !! i) ↔ is_Some (m_instances m !! i);
}.
Lemma quiet_refl m : quiet m m.
Proof. split; try done. split; [apply same_way_refl| |done..]. intros i x x' _ Hx Hx'. rewrite Hx in Hx'. injection Hx' as <-. apply same_client_refl. Qed.
Lemma quiet_trans m1 m2 m3 : quiet m1 m2 → quiet m2 m3 → quiet m1 m3.
Proof.
  intros [A1 B1 C1 D1 E1] [A2 B2 C2 D2 E2]. split; [by eapply same_clients_trans|tauto|tauto|congruence|]. intros i. by rewrite E2, E1.
Qed.

Lemma set_pf_alive i x pf m j : m_instances m !! i = Some x → alive (put_instance i (set_pf pf x) m) j = alive m j.
Proof.
  intros Hx. unfold alive. cbn. destruct (decide (j = i)) as [->|]; [by rewrite lookup_insert_eq, Hx|by rewrite lookup_insert_ne].
Qed.
Lemma set_pf_instance i x pf m j y' : m_instances m !! i = Some x → m_instances (put_instance i (set_pf pf x) m) !! j = Some y' →
  ∃ y, m_instances m !! j = Some y ∧ (y' = y ∨ j = i ∧ y' = set_pf pf y).
Proof.
  intros Hx. cbn. destruct (decide (j = i)) as [->|]; [rewrite lookup_insert_eq|rewrite lookup_insert_ne by done].
  - intros [= <-]. exists x. auto.
  - intros Hy. exists y'. auto.
Qed.
(** A client replaced by one that is the same to the routes. *)
Lemma put_routing i x y m :
  m_instances m !! i = Some x → mi_halt y = mi_halt x → mi_refcount y = mi_refcount x → mi_route_count y = mi_route_count x →
  mi_max_routes y = mi_max_routes x → mi_did_iroutes y = mi_did_iroutes x → (mi_did_iroutes x = true → lengths y = lengths x) →
  (∀ n, n ∈ lengths y → 0 ≤ n < 129) → routing_ok m → routing_ok (put_instance i y m).
Proof.
  intros Hx Hh H1 H2 H3 Hd Hle Hrange [[Hc Hl Ho] [Tw Ts Tc Ta] [Hv Hco Hlen] Hro]. set (m' := put_instance i y m).
  assert (∀ j, alive m' j = alive m j) as Hal by (intros; by apply (put_instance_alive m i x)).
  assert (∀ net j, net_live m' net j ↔ net_live m net j) as Hnl.
  { intros net j. unfold net_live. change (m_routes m') with (m_routes m). by setoid_rewrite Hal. }
  assert (∀ j z, m_instances m' !! j = Some z → j = i ∧ z = y ∨ j ≠ i ∧ m_instances m !! j = Some z) as Hin.
  { intros j z Hz. cbn in Hz. apply lookup_insert_Some in Hz as [[<- <-]|[Hne Hz]]; [by left|by right]. }
  split; [split| |split|].
  - intros j z [[-> ->]|[_ Hz]]%Hin; [|apply (Hc _ _ Hz)]. unfold counted. rewrite H1, H2, Hh. apply (Hc _ _ Hx).
  - intros j z [[-> ->]|[_ Hz]]%Hin; [|apply (Hl _ _ Hz)]. unfold limited. rewrite H2, H3, Hh, Hd. apply (Hl _ _ Hx).
  - intros id r Hr. destruct (Ho _ _ Hr) as [z Hz]. cbn. destruct (decide (mr_instance r = i)) as [->|]; [rewrite lookup_insert_eq|rewrite lookup_insert_ne by done]; eauto.
  - done.
  - done.
  - intros n Hn. change (m_helper m') with (m_helper m). rewrite (Hco n Hn). cbn. rewrite (msum_same _ _ _ x); [done|done|].
    unfold uses. rewrite Hd. destruct (mi_did_iroutes x); [by rewrite Hle|done].
  - intros j z n [[-> ->]|[_ Hz]]%Hin; [apply Hrange|apply (Hlen _ _ _ Hz)].
  - intros id r Hr. destruct (Hro _ _ Hr) as [[H0 Hn]|[H4 (Ha & Hg & Hlo)]]; [left|right]; (split; [done|]).
    + intros Hi. destruct (Hn Hi) as (N1 & N2 & N3 & N4). split; [done|]. split; [done|]. split; [done|].
      intros z Hz Hhz. destruct (Hin _ _ Hz) as [[E ->]|[_ Hz']]; [|by apply (N4 z)]. rewrite E in N4.
      destruct (N4 x Hx) as [D1 D2]; [congruence|]. rewrite Hd, Hle by done. done.
    + unfold cache_ok. change (m_helper m') with (m_helper m). rewrite Hal. split; [done|]. split; [done|]. intros He Hlv.
      apply (same_longest m m'); [|by apply Hlo]. intros net j. apply Hnl.
Qed.
Lemma set_pf_routing i x pf m : m_instances m !! i = Some x → routing_ok m → routing_ok (put_instance i (set_pf pf x) m).
Proof. intros Hx Hm. apply (put_routing i x); try done. intros n. apply (helper_lengths _ _ (routing_helper _ Hm) i x n Hx). Qed.
Lemma set_pf_quiet i x pf m : m_instances m !! i = Some x → same_pf (mi_pf x) pf → quiet m (put_instance i (set_pf pf x) m).
Proof.
  intros Hx Hpf. pose proof (set_pf_alive i x pf m) as Hal. split.
  - split; [split| |done..].
    + intros net j. unfold net_live. cbn [m_routes put_instance set_instances]. by setoid_rewrite (λ j, Hal j Hx).
    + intros a j. unfold host_live. cbn [m_routes put_instance set_instances]. by setoid_rewrite (λ j, Hal j Hx).
    + intros j. by apply Hal.
    + done.
    + intros j y y' _ Hy Hy'. destruct (set_pf_instance _ _ _ _ _ _ Hx Hy') as (z & Hz & Hor). rewrite Hy in Hz. injection Hz as <-.
      destruct Hor as [->|[-> ->]]; [apply same_client_refl|]. rewrite Hx in Hy. injection Hy as <-. by split.
  - by apply set_pf_routing.
  - intros Hp j y' Hy'. destruct (set_pf_instance _ _ _ _ _ _ Hx Hy') as (y & Hy & Hor). destruct (Hp _ _ Hy) as [H1 H2].
    destruct Hor as [->|[-> ->]]; [done|]. split; [done|]. rewrite Hx in Hy. injection Hy as <-. cbn. by apply Hpf.
  - done.
  - intros j. cbn. destruct (decide (j = i)) as [->|]; [rewrite lookup_insert_eq, Hx|rewrite lookup_insert_ne by done; done].
    split; intros; by eexists.
Qed.

Lemma c2c_test_ok i j m : parties_ok m → is_Some (m_instances m !! i) → is_Some (m_instances m !! j) →
  ∃ m', pf_c2c_test i j m = Ret (c2c_verdict m i j, m') ∧ quiet m m'.
Proof.
  intros Hp [x Hx] [y Hy]. destruct (Hp _ _ Hx) as [Sx Cx], (Hp _ _ Hy) as [Sy Cy].
  unfold pf_c2c_test, c2c_verdict, get_instance. rewrite Hx, Hy. cbn [of_option]. bret.
  destruct (end_test_ok (mi_pf x) (mi_tls y) Cx Sy) as (pf & -> & Hpf). bret.
  pose proof (set_pf_quiet i x pf m Hx Hpf) as Hq. destruct (end_verdict (mi_pf x) (mi_tls y)); cbn [andb]; [|by eexists].
  set (m1 := put_instance i (set_pf pf x) m) in *.
  assert (m_instances m1 !! i = Some (set_pf pf x)) as Hx1 by apply lookup_insert_eq. rewrite Hx1. cbn [of_option]. bret.
  assert (∃ y1, m_instances m1 !! j = Some y1 ∧ mi_tls y1 = mi_tls y ∧ same_pf (mi_pf y) (mi_pf y1)) as (y1 & Hy1 & Ht & Hpf1).
  { destruct (decide (j = i)) as [->|].
    - exists (set_pf pf x). split; [done|]. rewrite Hx in Hy. injection Hy as <-. done.
    - exists y. split; [|split; [done|apply same_pf_refl]]. subst m1. cbn. by rewrite lookup_insert_ne. }
  rewrite Hy1. cbn [of_option]. bret. destruct (end_test_ok (mi_pf y1) (mi_tls (set_pf pf x))) as (pf' & -> & Hpf'); [by apply Hpf1|done|]. bret.
  eexists. split; [do 2 f_equal; apply Hpf1|]. eapply quiet_trans; [done|]. by apply set_pf_quiet.
Qed.

(** ** The output queue *)

(** A full queue loses its oldest packet, with what is left of clients that are gone
    before it. *)
Fixpoint drop_oldest {A} (Q : list (option A)) : list (option A) :=
  match Q with [] => [] | Some _ :: Q => Q | None :: Q => drop_oldest Q end.
Definition push {A} (cap : Z) (Q : list (option A)) (e : A) : list (option A) :=
  (if decide (Z.of_nat (length Q) = cap) then drop_oldest Q else Q) ++ [Some e].
(** There is room, or a packet to lose. *)
Definition has_room {A} (cap : Z) (Q : list (option A)) : Prop := Z.of_nat (length Q) ≠ cap ∨ ∃ e, Some e ∈ Q.
Lemma push_room {A} cap (Q : list (option A)) e : has_room cap (push cap Q e).
Proof. right. exists e. apply elem_of_app. right. by left. Qed.

(** An element of the queue, by what the heap holds. *)
Definition shown (h : gmap nat mbuf_buffer) (e : option (nat * nat)) (E : option (list Z * nat)) : Prop :=
  match e, E with
  | Some (b, j), Some (c, j') => j' = j ∧ ∃ m, h !! b = Some m ∧ content (mb_buf m) = c
  | None, None => True
  | _, _ => False
  end.
(** The queue of [s] shows packets [Q]; [ext] counts the references from elsewhere. *)
Definition queue_shows (ext : nat → Z) (s : multi_switch) (Q : list (option (list Z * nat))) : Prop :=
  ∃ q, queue_is (s_mbuf s) q ∧ heap_counts (s_heap s) (λ x, refs x q + ext x) ∧ Forall2 (shown (s_heap s)) q Q.

(** What is left in the heap is what it was. *)
Definition kept (h h' : gmap nat mbuf_buffer) : Prop :=
  ∀ b m', h' !! b = Some m' → ∃ m, h !! b = Some m ∧ mb_buf m' = mb_buf m.
Lemma kept_refl h : kept h h.
Proof. intros b m Hm. by exists m. Qed.
Lemma heap_kept_trans h1 h2 h3 : kept h1 h2 → kept h2 h3 → kept h1 h3.
Proof. intros K1 K2 b m3 (m2 & H2 & E2)%K2. destruct (K1 _ _ H2) as (m1 & H1 & E1). exists m1. split; [done|congruence]. Qed.
Lemma kept_insert h b m r f : h !! b = Some m → kept h (<[b := MB (mb_buf m) r f]> h).
Proof.
  intros Hm x m'. destruct (decide (x = b)) as [->|]; [rewrite lookup_insert_eq; intros [= <-]; by exists m|].
  rewrite lookup_insert_ne by done. intros. by exists m'.
Qed.
Lemma free_kept mb h h' : mbuf_free_buf mb h = Ret h' → kept h h'.
Proof.
  unfold mbuf_free_buf. destruct mb as [b|]; [|intros [= <-]; apply kept_refl].
  destruct (h !! b) as [m|] eqn:Em; [|done]. cbn [of_option]. bret. intros E. apply bind_Ret_inv in E as (n & _ & E). injection E as <-.
  case_decide; [|by apply kept_insert]. intros x m' [_ Hx]%lookup_delete_Some. by exists m'.
Qed.
Lemma add_kept item ms h ms' h' : mbuf_add_item item ms h = Ret (ms', h') → kept h h'.
Proof.
  unfold mbuf_add_item. intros E. apply bind_Ret_inv in E as ([ms1 h1] & E1 & E). apply bind_Ret_inv in E as ([] & _ & E).
  apply bind_Ret_inv in E as (ms2 & _ & E). apply bind_Ret_inv in E as (i & _ & E). apply bind_Ret_inv in E as (m & Em & E).
  apply bind_Ret_inv in E as (r & _ & E). injection E as _ <-. destruct (h1 !! i) as [m0|] eqn:Hi; [|done]. injection Em as <-.
  eapply heap_kept_trans; [|by apply kept_insert]. case_decide; [|injection E1 as _ <-; apply kept_refl].
  apply bind_Ret_inv in E1 as ([[rm|] ms0] & _ & E1); [|done]. apply bind_Ret_inv in E1 as (h0 & E1 & E). injection E as _ <-. by eapply free_kept.
Qed.

Lemma refs_elem b j q : Some (b, j) ∈ q → 0 < refs b q.
Proof.
  intros [i Hi]%list_elem_of_lookup. rewrite <- (take_drop_middle q i _ Hi). rewrite refs_app, refs_cons. cbn [ref].
  rewrite decide_True by done. pose proof (refs_nonneg b (take i q)). pose proof (refs_nonneg b (drop (S i) q)). lia.
Qed.
Lemma refs_length b q : refs b q ≤ Z.of_nat (length q).
Proof. induction q as [|[[b' c]|] q IH]; [done|..]; rewrite refs_cons; cbn [ref length]; [case_decide|]; lia. Qed.
(** Every packet of the queue is still in the heap. *)
Lemma shown_kept h h' q Q ext : (∀ x, 0 ≤ ext x) → heap_counts h' (λ x, refs x q + ext x) → kept h h' →
  Forall2 (shown h) q Q → Forall2 (shown h') q Q.
Proof.
  intros Hext Hh Hk H. apply Forall2_same_length_lookup. split; [by eapply Forall2_length|].
  intros i e E He HE. pose proof (Forall2_lookup_lr _ _ _ _ _ _ H He HE) as Hs. destruct e as [[b j]|], E as [[c j']|]; try done.
  destruct Hs as (-> & m & Hm & Hc). split; [done|]. pose proof (refs_elem b j q) as Hp.
  specialize (Hh b). specialize (Hext b). assert (0 < refs b q) by (apply Hp; by apply list_elem_of_lookup_2 in He).
  destruct (h' !! b) as [m'|] eqn:Em'; [|lia]. exists m'. split; [done|]. destruct (Hk _ _ Em') as (m0 & Hm0 & ->). congruence.
Qed.

Lemma shown_drop h q Q : Forall2 (shown h) q Q →
  match drop_first q with Some (_, q') => Forall2 (shown h) q' (drop_oldest Q) | None => (∀ E, E ∈ Q → E = None) end.
Proof.
  induction 1 as [|[[b j]|] [[c j']|] q Q Hs H IH]; cbn; [by intros ? ?%elem_of_nil|done..|].
  destruct (drop_first q) as [[? ?]|]; [done|]. intros E [->|HE]%elem_of_cons; [done|auto].
Qed.
Lemma room_ok h q Q cap : Forall2 (shown h) q Q → has_room cap Q →
  ∃ q', make_room cap q = Some q' ∧ Forall2 (shown h) q' (if decide (Z.of_nat (length Q) = cap) then drop_oldest Q else Q).
Proof.
  intros H Hr. unfold make_room. rewrite (Forall2_length _ _ _ H). case_decide as Hc; [|by exists q].
  pose proof (shown_drop _ _ _ H) as Hd. destruct (drop_first q) as [[p q']|]; [by exists q'|].
  destruct Hr as [Hr|[e He]]; [done|]. by apply Hd in He.
Qed.
Lemma room_refs cap q q' b : make_room cap q = Some q' → refs b q' ≤ refs b q.
Proof.
  unfold make_room. case_decide; [|intros [= ->]; lia]. destruct (drop_first q) as [[[b0 c0] q1]|] eqn:E; [|done]. intros [= <-].
  rewrite (drop_first_refs _ _ _ b E). cbn [ref]. case_decide; lia.
Qed.

(** A packet in the heap is put in the queue for a client. *)
Lemma add_shows ext s Q b j m c :
  (∀ x, 0 ≤ ext x) → 0 < ext b < 1000 → queue_shows ext s Q → s_heap s !! b = Some m → content (mb_buf m) = c → has_room (ms_capacity (s_mbuf s)) Q →
  ∃ ms h, mbuf_add_item (MI (Some b) (Some j)) (s_mbuf s) (s_heap s) = Ret (ms, h) ∧
    queue_shows ext (set_queue ms h s) (push (ms_capacity (s_mbuf s)) Q (c, j)) ∧ ms_capacity ms = ms_capacity (s_mbuf s) ∧
    ∃ m', h !! b = Some m' ∧ content (mb_buf m') = c.
Proof.
  intros Hext Hb (q & [r Hq] & Hh & Hs) Hm Hc Hr. pose proof Hq as (Hr30 & Hcap & _ & _ & _ & Hlen & _). pose proof (pow_bound r Hr30) as Hp.
  pose proof (refs_length b q) as Hrl.
  pose proof (add_ok r (s_mbuf s) q (s_heap s) ext b j Hq Hext Hh ltac:(lia) ltac:(ints; lia)) as Ha.
  rewrite Hcap in Hr |- *. destruct (room_ok _ _ _ _ Hs Hr) as (q' & Eq & Hs'). rewrite Eq in Ha. destruct Ha as (ms & h & E & Hq' & Hh').
  exists ms, h. split; [done|]. pose proof (add_kept _ _ _ _ _ E) as Hk.
  assert (∃ m', h !! b = Some m' ∧ content (mb_buf m') = c) as (m' & Hm' & Hc').
  { pose proof (Hh' b) as Hhb. cbv beta in Hhb. rewrite refs_app, refs_cons in Hhb. cbn [ref] in Hhb. rewrite decide_True in Hhb by done. change (refs b []) with 0 in Hhb.
    pose proof (refs_nonneg b q').
    destruct (h !! b) as [m'|] eqn:Em'; [|lia]. exists m'. split; [done|]. destruct (Hk _ _ Em') as (m0 & Hm0 & ->). congruence. }
  split; [|split; [destruct Hq' as (_ & -> & _); congruence|by exists m']].
  exists (q' ++ [Some (b, j)]). split; [by exists r|]. split; [done|]. cbn [set_queue s_heap].
  eapply (shown_kept (s_heap s)); [done|done|done|]. unfold push. apply Forall2_app; [done|]. apply Forall2_cons. split; [|done]. split; [done|]. by exists m.
Qed.

(** A reference of the code's own to packet [b]. *)
Definition held (b : nat) (ext : nat → Z) : nat → Z := λ x, ext x + (if decide (b = x) then 1 else 0).
Lemma held_nonneg b ext x : (∀ x, 0 ≤ ext x) → 0 ≤ held b ext x.
Proof. intros H. specialize (H x). unfold held. case_decide; lia. Qed.

Lemma clone_content b : wf_buf b → Forall is_byte (content b) → ∃ b', clone_buf b = Ret b' ∧ content b' = content b.
Proof.
  intros Hw Hb. destruct (wf_buf_mk b Hw) as (pre & post & -> & _). rewrite content_mk in *. set (c := content b) in *. clearbody c.
  unfold clone_buf. rewrite buf_len_mk. cbn [offset capacity len mkbuf].
  pose proof (peek_n_at pre c post 0 (length c) ltac:(lia)) as Hp. rewrite Z.add_0_r in Hp. rewrite Hp. bret.
  rewrite !Nat2Z.id. unfold slice. rewrite drop_0, firstn_all.
  assert (replicate (length pre + length c + length post) 0 =
    replicate (length pre) 0 ++ replicate (length c) 0 ++ replicate (length post) 0) as Hr.
  { rewrite <- !replicate_add. f_equal. lia. }
  rewrite Hr. pose proof (fill_mid (replicate (length pre) 0) (replicate (length c) 0) c (replicate (length post) 0) Hb) as Hf.
  rewrite !length_replicate in Hf. rewrite Hf by done. bret. eexists. split; [done|].
  change (content (Buf (Z.of_nat (length pre + length c + length post)) (Z.of_nat (length pre)) (Z.of_nat (length c))
    (Some (replicate (length pre) 0 ++ c ++ replicate (length post) 0))) = c).
  unfold content, slice. cbn [data offset len default from_option id]. rewrite !Nat2Z.id.
  pose proof (drop_app_length (replicate (length pre) 0) (c ++ replicate (length post) 0)) as Hd. rewrite length_replicate in Hd. rewrite Hd.
  by rewrite take_app_length.
Qed.

Lemma alloc_shows ext s Q b : (∀ x, 0 ≤ ext x) → queue_shows ext s Q → wf_buf b → Forall is_byte (content b) →
  ∃ mb h m, mbuf_alloc_buf b (s_heap s) = Ret (mb, h) ∧ h !! mb = Some m ∧ content (mb_buf m) = content b ∧ ext mb = 0 ∧
    queue_shows (held mb ext) (set_queue (s_mbuf s) h s) Q.
Proof.
  intros Hext (q & Hq & Hh & Hs) Hw Hb. unfold mbuf_alloc_buf. destruct (clone_content b Hw Hb) as (b' & -> & Hc). bret.
  set (mb := fresh (dom (s_heap s))). assert (s_heap s !! mb = None) as Hfr by (apply not_elem_of_dom, is_fresh).
  pose proof (Hh mb) as Hmb. rewrite Hfr in Hmb. pose proof (refs_nonneg mb q). pose proof (Hext mb).
  exists mb, (<[mb := MB b' 1 0]> (s_heap s)), (MB b' 1 0). split; [done|]. split; [apply lookup_insert_eq|]. split; [done|]. split; [lia|].
  assert (heap_counts (<[mb := MB b' 1 0]> (s_heap s)) (λ x, refs x q + held mb ext x)) as Hh'.
  { intros x. unfold held. destruct (decide (mb = x)) as [<-|Hne]; [rewrite lookup_insert_eq; cbn; ints; lia|].
    rewrite lookup_insert_ne by done. specialize (Hh x). destruct (s_heap s !! x); lia. }
  exists q. split; [done|]. split; [done|]. cbn [set_queue s_heap]. apply Forall2_same_length_lookup. split; [by eapply Forall2_length|].
  intros i e E He HE. pose proof (Forall2_lookup_lr _ _ _ _ _ _ Hs He HE) as Hsh. destruct e as [[x j]|], E as [[c j']|]; try done.
  destruct Hsh as (-> & m & Hm & Hcm). split; [done|]. exists m. split; [|done]. rewrite lookup_insert_ne; [done|]. intros ->. congruence.
Qed.

Lemma counts_change ext s Q h : (∀ x, 0 ≤ ext x) → queue_shows ext s Q → kept (s_heap s) h →
  (∀ q, heap_counts (s_heap s) (λ x, refs x q + ext x) → heap_counts h (λ x, refs x q + ext x)) → queue_shows ext (set_queue (s_mbuf s) h s) Q.
Proof.
  intros Hext (q & Hq & Hh & Hs) Hk Hc. exists q. split; [done|]. split; [by apply Hc|]. by eapply shown_kept; [|by apply Hc|..].
Qed.

Lemma flags_shows ext s Q mb m f : (∀ x, 0 ≤ ext x) → queue_shows ext s Q → s_heap s !! mb = Some m →
  ∃ h m', set_flags mb f (s_heap s) = Ret h ∧ h !! mb = Some m' ∧ mb_buf m' = mb_buf m ∧ queue_shows ext (set_queue (s_mbuf s) h s) Q.
Proof.
  intros Hext Hs Hm. unfold set_flags. rewrite Hm. cbn [of_option]. bret. eexists _, _. split; [done|]. split; [apply lookup_insert_eq|]. split; [done|].
  apply counts_change; [done|done|by apply kept_insert|]. intros q Hh x. specialize (Hh x).
  destruct (decide (mb = x)) as [<-|]; [rewrite lookup_insert_eq; rewrite Hm in Hh; done|by rewrite lookup_insert_ne].
Qed.

Lemma free_shows ext s Q mb : (∀ x, 0 ≤ ext x) → queue_shows (held mb ext) s Q →
  ∃ h, mbuf_free_buf (Some mb) (s_heap s) = Ret h ∧ queue_shows ext (set_queue (s_mbuf s) h s) Q.
Proof.
  intros Hext (q & Hq & Hh & Hs). destruct (free_ok (s_heap s) _ mb (λ x, refs x q + ext x) Hh) as (h & E & Hh').
  - unfold held. rewrite decide_True by done. pose proof (refs_nonneg mb q). pose proof (Hext mb). lia.
  - intros x. unfold held. lia.
  - exists h. split; [done|]. exists q. split; [done|]. split; [done|]. eapply shown_kept; [done|done|by eapply free_kept|done].
Qed.

(** The output of the client is not congested. *)
Definition ready (s : multi_switch) (j : nat) : bool :=
  match m_instances (s_multi s) !! j with Some x => multi_output_queue_ready s x | None => false end.
Definition offer (s : multi_switch) (Q : list (option (list Z * nat))) (c : list Z) (j : nat) : list (option (list Z * nat)) :=
  if ready s j then push (ms_capacity (s_mbuf s)) Q (c, j) else Q.
Lemma offer_room s Q c j : has_room (ms_capacity (s_mbuf s)) Q → has_room (ms_capacity (s_mbuf s)) (offer s Q c j).
Proof. intros H. unfold offer. destruct (ready s j); [apply push_room|done]. Qed.

(** Nothing but the queue is changed. *)
Definition queued (s s' : multi_switch) : Prop :=
  ∃ ms h, s' = set_queue ms h s ∧ ms_capacity ms = ms_capacity (s_mbuf s).
Lemma queued_trans s1 s2 s3 : queued s1 s2 → queued s2 s3 → queued s1 s3.
Proof. intros (ms & h & -> & E) (ms' & h' & -> & E'). exists ms', h'. split; [done|]. cbn in E'. congruence. Qed.
Lemma queued_here s h : queued s (set_queue (s_mbuf s) h s).
Proof. by exists (s_mbuf s), h. Qed.

Lemma add_mbuf_ok ext s Q j mb m c :
  (∀ x, 0 ≤ ext x) → 0 < ext mb < 1000 → queue_shows ext s Q → s_heap s !! mb = Some m → content (mb_buf m) = c →
  has_room (ms_capacity (s_mbuf s)) Q → is_Some (m_instances (s_multi s) !! j) →
  ∃ s', multi_add_mbuf j mb s = Ret s' ∧ queued s s' ∧ queue_shows ext s' (offer s Q c j) ∧
    ∃ m', s_heap s' !! mb = Some m' ∧ content (mb_buf m') = c.
Proof.
  intros Hext Hmb Hq Hm Hc Hr [x Hx]. unfold multi_add_mbuf, offer, ready, get_instance. rewrite Hx. cbn [of_option]. bret.
  destruct (multi_output_queue_ready s x).
  - destruct (add_shows ext s Q mb j m c) as (ms & h & -> & Hs & Hcap & Hm'); [done..|]. bret. eexists. split; [done|]. split; [by exists ms, h|]. done.
  - exists s. split; [done|]. split; [exists (s_mbuf s), (s_heap s); by destruct s|]. split; [done|]. by exists m.
Qed.

Lemma unicast_ok ext s Q j b :
  (∀ x, 0 ≤ ext x) → queue_shows ext s Q → wf_buf b → Forall is_byte (content b) → content b ≠ [] →
  has_room (ms_capacity (s_mbuf s)) Q → is_Some (m_instances (s_multi s) !! j) →
  ∃ s', multi_unicast b j s = Ret s' ∧ queued s s' ∧ queue_shows ext s' (offer s Q (content b) j).
Proof.
  intros Hext Hq Hw Hb Hne Hr Hj. unfold multi_unicast.
  assert (buf_len b > 0) as Hl.
  { destruct (wf_buf_mk b Hw) as (pre & post & E & _). rewrite E, buf_len_mk. destruct (content b); [done|cbn; lia]. }
  rewrite decide_True by done. destruct (alloc_shows ext s Q b Hext Hq Hw Hb) as (mb & h & m & -> & Hm & Hc & He & Hs1). bret.
  pose proof (λ x, held_nonneg mb ext x Hext) as Hext1.
  destruct (flags_shows _ _ _ mb m MF_UNICAST Hext1 Hs1 Hm) as (h2 & m2 & E & Hm2 & Hb2 & Hs2). cbn [set_queue s_heap] in E. rewrite E. bret.
  assert (queued s (set_queue (s_mbuf s) h2 s)) as Hq2 by apply queued_here.
  destruct (add_mbuf_ok (held mb ext) (set_queue (s_mbuf s) h2 s) Q j mb m2 (content b)) as (s3 & -> & Hq3 & Hs3 & _); [done| |done|done|congruence|done|done|].
  { unfold held. rewrite decide_True by done. lia. }
  bret. destruct (free_shows ext s3 _ mb Hext Hs3) as (h4 & -> & Hs4). bret. eexists. split; [done|].
  split; [|done]. eapply queued_trans; [exact Hq2|]. eapply queued_trans; [exact Hq3|]. apply queued_here.
Qed.

(** ** Broadcast *)

(** The routing, the queue and the counts may have changed, and nothing a packet goes by. *)
Record switched (s s' : multi_switch) : Prop := {
  switched_clients : same_clients (s_multi s) (s_multi s');
  switched_iter : s_iter s' = s_iter s;
  switched_c2c : s_enable_c2c s' = s_enable_c2c s;
  switched_limit : s_tcp_queue_limit s' = s_tcp_queue_limit s;
  switched_capacity : ms_capacity (s_mbuf s') = ms_capacity (s_mbuf s);
}.
Lemma switched_trans s1 s2 s3 : switched s1 s2 → switched s2 s3 → switched s1 s3.
Proof. intros [A1 ? ? ? ?] [A2 ? ? ? ?]. split; [by eapply same_clients_trans|congruence..]. Qed.
Lemma switched_multi s m : same_clients (s_multi s) m → switched s (set_multi m s).
Proof. by split. Qed.
Lemma switched_queued s s' : queued s s' → switched s s'.
Proof. intros (ms & h & -> & E). split; try done. apply quiet_clients, quiet_refl. Qed.
Lemma switched_refl s : switched s s.
Proof. split; try done. apply quiet_clients, quiet_refl. Qed.

Lemma switched_alive s s' j : switched s s' → alive (s_multi s') j = alive (s_multi s) j.
Proof. intros H. apply (same_way_alive _ _ (sc_way _ _ (switched_clients _ _ H))). Qed.
Lemma switched_ready s s' j : switched s s' → alive (s_multi s) j = true → ready s' j = ready s j.
Proof.
  intros H Ha. destruct (alive_instance _ _ Ha) as (x & Hx & _). destruct (same_instance _ _ (switched_clients _ _ H) j x Ha Hx) as (x' & Hx' & Sx).
  unfold ready, multi_output_queue_ready. by rewrite Hx, Hx', (same_client_deferred _ _ Sx), (switched_limit _ _ H).
Qed.
Lemma switched_offer s s' Q c j : switched s s' → alive (s_multi s) j = true → offer s' Q c j = offer s Q c j.
Proof. intros H Ha. unfold offer. by rewrite (switched_ready s s'), (switched_capacity _ _ H). Qed.

Definition members (s : multi_switch) : list nat := he_value <$> concat (buckets (s_iter s)).
Definition members_ok (s : multi_switch) : Prop := wf_hash (s_iter s) ∧ Forall (λ j, alive (s_multi s) j = true) (members s).
Lemma switched_members s s' : switched s s' → members_ok s → members_ok s'.
Proof.
  intros H [Hw Hm]. unfold members_ok, members. rewrite (switched_iter _ _ H). split; [done|].
  eapply Forall_impl; [done|]. intros j. by rewrite (switched_alive s s').
Qed.

(** Client [j] is to get what [sender], or the host at address [addr], sends to all. *)
Definition bcast_to (s : multi_switch) (sender : option nat) (addr : option mroute_addr) (j : nat) : bool :=
  bool_decide (Some j ≠ sender) && alive (s_multi s) j &&
  (match sender with Some i => c2c_verdict (s_multi s) i j | None => true end) &&
  (match addr with Some a => host_verdict (s_multi s) j a | None => true end).
Definition offered (s : multi_switch) (Q : list (option (list Z * nat))) (c : list Z) (js : list nat) : list (option (list Z * nat)) :=
  foldl (λ Q j, offer s Q c j) Q js.
Lemma offered_room s Q c js : has_room (ms_capacity (s_mbuf s)) Q → has_room (ms_capacity (s_mbuf s)) (offered s Q c js).
Proof. revert Q. induction js as [|j js IH]; intros Q H; [done|]. cbn. by apply IH, offer_room. Qed.
Lemma offered_snoc s Q c js j : offered s Q c (js ++ [j]) = offer s (offered s Q c js) c j.
Proof. unfold offered. by rewrite foldl_app. Qed.

Section bcast.
Context (little : bool) (ext : nat → Z) (s0 : multi_switch) (Q : list (option (list Z * nat))) (mb : nat) (c : list Z).
Context (sender : option nat) (addr : option mroute_addr).
Hypothesis (Hext : ∀ x, 0 ≤ ext x) (Hmb : 0 < ext mb < 1000) (Hm0 : members_ok s0).
Hypothesis (Hroom : has_room (ms_capacity (s_mbuf s0)) Q).
Hypothesis (Hsender : ∀ i, sender = Some i → alive (s_multi s0) i = true) (Haddr : ∀ a, addr = Some a → wf_addr a).

(** The clients before the rest of the walk have been served. *)
Definition served (s : multi_switch) (l : list (hash_element mroute_addr nat)) : Prop :=
  ∃ pre, members s0 = pre ++ (he_value <$> l) ∧ switched s0 s ∧ quiet (s_multi s0) (s_multi s) ∧ s_activity s = s_activity s0 ∧
    parties_ok (s_multi s) ∧ queue_shows ext s (offered s0 Q c (filter (λ j, bcast_to s0 sender addr j = true) pre)) ∧
    ∃ m, s_heap s !! mb = Some m ∧ content (mb_buf m) = c.

(** A client that does not get the packet. *)
Lemma served_skip s s' e l : served s (e :: l) → bcast_to s0 sender addr (he_value e) = false →
  quiet (s_multi s) (s_multi s') → s' = set_multi (s_multi s') s → served s' l.
Proof.
  intros (pre & Hall & Hsw & Hqu & Hac & Hp & Hs & Hm) Hno Hq ->. exists (pre ++ [he_value e]). rewrite <- app_assoc. split; [done|].
  split; [eapply switched_trans; [done|]; apply switched_multi, Hq|]. split; [by eapply quiet_trans|]. split; [done|].
  split; [by apply Hq|]. rewrite filter_app, filter_cons, filter_nil, Hno, decide_False by done. by rewrite app_nil_r.
Qed.
Lemma served_serve s s' e l : served s (e :: l) → bcast_to s0 sender addr (he_value e) = true →
  quiet (s_multi s) (s_multi s') → s' = set_multi (s_multi s') s →
  ∃ s2, multi_add_mbuf (he_value e) mb s' = Ret s2 ∧ served s2 l.
Proof.
  intros (pre & Hall & Hsw & Hqu & Hac & Hp & Hs & (m & Hm & Hc)) Hyes Hq E.
  assert (alive (s_multi s0) (he_value e) = true) as Hal.
  { unfold bcast_to in Hyes. rewrite !andb_true_iff in Hyes. apply Hyes. }
  assert (switched s0 s') as Hsw' by (rewrite E; eapply switched_trans; [done|]; apply switched_multi, Hq).
  assert (s_mbuf s' = s_mbuf s) as E1 by (rewrite E; done). assert (s_heap s' = s_heap s) as E2 by (rewrite E; done).
  destruct (add_mbuf_ok ext s' (offered s0 Q c (filter (λ j, bcast_to s0 sender addr j = true) pre)) (he_value e) mb m c) as (s2 & -> & Hq2 & Hs2 & Hm2);
    [done|done| |by rewrite E2|done| | |].
  { unfold queue_shows. rewrite E1, E2. exact Hs. }
  { rewrite (switched_capacity _ _ Hsw'). by apply offered_room. }
  { rewrite <- (switched_alive s0 s') in Hal by done. destruct (alive_instance _ _ Hal) as (x & Hx & _). by eexists. }
  exists s2. split; [done|]. rewrite (switched_offer s0 s') in Hs2 by done. destruct Hq2 as (ms & h & -> & Hcap).
  exists (pre ++ [he_value e]). rewrite <- app_assoc. split; [done|].
  split; [eapply switched_trans; [done|]; apply switched_queued; by exists ms, h|]. split; [by eapply quiet_trans|].
  split; [by rewrite E|]. split; [by apply Hq|]. rewrite filter_app, filter_cons, filter_nil, Hyes, decide_True by done. by rewrite offered_snoc.
Qed.

Lemma bcast_step s e l : served s (e :: l) →
  ∃ s', bcast_body little mb sender addr s e = Ret (s', false) ∧ served s' l.
Proof.
  intros Hsv. pose proof Hsv as (pre & Hall & Hsw & Hqu & Hac & Hp & _). set (j := he_value e) in *.
  assert (alive (s_multi s0) j = true) as Hal.
  { destruct Hm0 as [_ Hm]. rewrite Hall, Forall_app in Hm. destruct Hm as [_ Hm]. cbn in Hm. by apply Forall_cons in Hm as [Hm _]. }
  assert (alive (s_multi s) j = true) as Hals by (by rewrite (switched_alive s0 s)).
  destruct (alive_instance _ _ Hals) as (x & Hx & Hh). unfold bcast_body, get_instance. fold j. rewrite Hx. cbn [of_option]. bret.
  assert (set_multi (s_multi s) s = s) as Heta by (by destruct s). pose proof (quiet_refl (s_multi s)) as Hqr.
  destruct (decide (Some j ≠ sender)) as [Hne|Heq].
  2: { exists s. split; [done|]. eapply served_skip; [done| |done|done]. unfold bcast_to. by rewrite bool_decide_eq_false_2. }
  rewrite Hh. cbn [negb].
  assert (∃ m', (match sender with Some i => pf_c2c_test i j (s_multi s) | None => Ret (true, s_multi s) end) =
    Ret (match sender with Some i => c2c_verdict (s_multi s0) i j | None => true end, m') ∧ quiet (s_multi s) m') as (m' & -> & Hq).
  { destruct sender as [i|]; [|by exists (s_multi s)]. specialize (Hsender i eq_refl).
    assert (alive (s_multi s) i = true) as Hi by (by rewrite (switched_alive s0 s)). destruct (alive_instance _ _ Hi) as (y & Hy & _).
    destruct (c2c_test_ok i j (s_multi s) Hp) as (m' & -> & Hq); [by eexists..|]. exists m'. split; [|done].
    do 2 f_equal. apply same_c2c; [apply Hsw|done|done]. }
  bret. set (c2c := match sender with Some i => _ | None => true end) in *.
  destruct c2c eqn:Ec2c.
  2: { exists (set_multi m' s). split; [done|]. eapply served_skip; [done| |done|done]. unfold bcast_to. fold j c2c. by rewrite Ec2c, andb_false_r. }
  assert (∃ x', m_instances m' !! j = Some x' ∧ same_client x x') as (x' & Hx' & Sx) by (eapply same_instance; [by apply Hq|done|done]).
  cbn [set_multi s_multi]. rewrite Hx'. cbn [of_option]. bret.
  assert ((match addr with Some a => pf_addr_test little (mi_pf x') a | None => Ret true end) =
    Ret (match addr with Some a => host_verdict (s_multi s0) j a | None => true end)) as ->.
  { destruct addr as [a|]; [|done]. rewrite addr_test_ok by auto. f_equal. rewrite <- (same_host (s_multi s0) (s_multi s)); [|by apply Hsw|done].
    unfold host_verdict. rewrite Hx. by apply same_client_addr. }
  bret. set (adr := match addr with Some a => _ | None => true end) in *.
  assert (bcast_to s0 sender addr j = adr) as Hto by (unfold bcast_to; fold c2c adr; by rewrite bool_decide_eq_true_2, Hal, Ec2c).
  destruct adr.
  - destruct (served_serve s (set_multi m' s) e l Hsv Hto Hq eq_refl) as (s2 & E & Hs2). fold j in E. rewrite E. bret. by exists s2.
  - exists (set_multi m' s). split; [done|]. by eapply served_skip.
Qed.
End bcast.

Lemma bcast_ok little ext s Q b sender addr :
  (∀ x, 0 ≤ ext x) → queue_shows ext s Q → wf_buf b → Forall is_byte (content b) → content b ≠ [] →
  has_room (ms_capacity (s_mbuf s)) Q → members_ok s → parties_ok (s_multi s) →
  (∀ i, sender = Some i → alive (s_multi s) i = true) → (∀ a, addr = Some a → wf_addr a) →
  ∃ s', multi_bcast little b sender addr s = Ret s' ∧ switched s s' ∧ quiet (s_multi s) (s_multi s') ∧ s_activity s' = s_activity s ∧
    queue_shows ext s' (offered s Q (content b) (filter (λ j, bcast_to s sender addr j = true) (members s))).
Proof.
  intros Hext Hq Hw Hb Hne Hr Hm Hp Hse Ha. unfold multi_bcast.
  assert (buf_len b > 0) as Hl.
  { destruct (wf_buf_mk b Hw) as (pre & post & E & _). rewrite E, buf_len_mk. destruct (content b); [done|cbn; lia]. }
  rewrite decide_True by done. destruct (alloc_shows ext s Q b Hext Hq Hw Hb) as (mb & h & m & -> & Hmb & Hc & He & Hs1). bret.
  set (s1 := set_queue (s_mbuf s) h s) in *. pose proof (λ x, held_nonneg mb ext x Hext) as Hext1.
  destruct (hash_visit_ok (bcast_body little mb sender addr) (served (held mb ext) s1 Q mb (content b) sender addr) (s_iter s1) s1)
    as (hi & s2 & -> & Ew & (pre & Hall & Hsw & Hqu & Hac & Hp2 & Hs2 & _)).
  - apply Hm.
  - intros s' e l. apply bcast_step; try done. unfold held. rewrite decide_True by done. lia.
  - exists []. split; [done|]. split; [apply switched_refl|]. split; [apply quiet_refl|]. split; [done|]. split; [done|]. split; [done|]. by exists m.
  - bret. rewrite Ew. bret. destruct (free_shows ext s2 _ mb Hext Hs2) as (h4 & -> & Hs4). bret. eexists. split; [done|].
    cbn in Hall. rewrite app_nil_r in Hall. rewrite <- Hall in Hs4.
    split; [|split; [done|split; [done|exact Hs4]]].
    destruct Hsw as [A1 A2 A3 A4 A5]. split; done.
Qed.

(** ** The state between packets *)

Definition activity_ok (s : multi_switch) : Prop :=
  ∀ i, alive (s_multi s) i = true → ∃ a, s_activity s !! i = Some a ∧
    0 ≤ inactivity_bytes a ≤ Z.max 0 (inactivity_minimum_bytes a) ∧ inactivity_minimum_bytes a ≤ INT_MAX - BUF_SIZE_MAX.
Record switch_ok (s : multi_switch) : Prop := {
  sw_routing : routing_ok (s_multi s);
  sw_parties : parties_ok (s_multi s);
  sw_members : members_ok s;
  sw_activity : activity_ok s;
}.
(** The routing table may grow by [n] routes. *)
Definition roomy (n : Z) (s : multi_switch) : Prop := n_elements (m_vhash (s_multi s)) + n < INT_MAX.
(** It has grown by [n] routes at most. *)
Definition grown (n : Z) (s s' : multi_switch) : Prop := n_elements (m_vhash (s_multi s')) ≤ n_elements (m_vhash (s_multi s)) + n.
Lemma quiet_grown n s s' : 0 ≤ n → quiet (s_multi s) (s_multi s') → grown n s s'.
Proof. intros Hn H. unfold grown. rewrite (quiet_vhash _ _ H). lia. Qed.

(** The client whose packets [a] may be the address of. *)
Definition owner (m : multi_context) (a : mroute_addr) (o : option nat) : Prop :=
  if mroute_addr_equal a (m_local m) then o = None else routed m a o.
Lemma owner_unique m a o o' : table_ok m → owner m a o → owner m a o' → o = o'.
Proof. unfold owner. destruct (mroute_addr_equal _ _); [congruence|]. apply routed_unique. Qed.
Lemma same_owner m m' a o : same_clients m m' → owner m' a o ↔ owner m a o.
Proof. intros Hs. unfold owner. rewrite (same_way_local _ _ (sc_way _ _ Hs)). destruct (mroute_addr_equal _ _); [done|]. by apply same_has_way. Qed.

Lemma activity_kept s s' : switched s s' → s_activity s' = s_activity s → activity_ok s → activity_ok s'.
Proof. intros Hs Ha H i. rewrite (switched_alive s s'), Ha by done. apply H. Qed.
Lemma switch_queue_ok s s' : queued s s' → switch_ok s → switch_ok s'.
Proof.
  intros Hq [A B C D]. pose proof (switched_queued _ _ Hq) as Hs. destruct Hq as (ms & h & -> & E).
  split; [done|done|by eapply switched_members|by eapply activity_kept].
Qed.
Lemma switch_quiet_ok s s' : switched s s' → quiet (s_multi s) (s_multi s') → s_activity s' = s_activity s → switch_ok s → switch_ok s'.
Proof. intros Hs Hq Ha [A B C D]. split; [by apply Hq|by apply Hq|by eapply switched_members|by eapply activity_kept]. Qed.

Lemma activity_step now n i s : switch_ok s → alive (s_multi s) i = true → 0 ≤ n < BUF_SIZE_MAX →
  ∃ s', client_activity now n i s = Ret s' ∧ switch_ok s' ∧ switched s s' ∧ s_multi s' = s_multi s ∧ s_mbuf s' = s_mbuf s ∧ s_heap s' = s_heap s.
Proof.
  intros [A B C D] Hal Hn. destruct (D i Hal) as (a & Ha & Hb & Hmin). unfold client_activity. rewrite Ha. cbn [of_option]. bret.
  assert (∃ a', register_activity now n a = Ret a' ∧ inactivity_minimum_bytes a' = inactivity_minimum_bytes a ∧
    0 ≤ inactivity_bytes a' ≤ Z.max 0 (inactivity_minimum_bytes a)) as (a' & -> & E & Hb').
  { unfold register_activity. case_decide; [|by exists a]. unfold BUF_SIZE_MAX in *.
    rewrite int_ok by (ints; lia). bret. eexists. split; [done|]. case_decide; cbn; [split; [done|lia]|split; [done|lia]]. }
  bret. eexists. split; [done|]. assert (switched s (set_activity (<[i:=a']> (s_activity s)) s)) as Hs by (split; try done; apply quiet_clients, quiet_refl).
  split; [|by split_and!]. split; [done|done|by eapply switched_members|]. intros j Hj. cbn.
  destruct (decide (j = i)) as [->|]; [rewrite lookup_insert_eq; exists a'; by rewrite E|]. rewrite lookup_insert_ne by done. by apply D.
Qed.

Section lookup.
Context (little : bool) (script : option nat → learn_op → mroute_addr → bool).

(** What learning and looking up leave, of the switch. *)
Lemma learned_switch s m : switch_ok s → frame (s_multi s) m → same_way (s_multi s) m → routing_ok m → switch_ok (set_multi m s) ∧ switched s (set_multi m s).
Proof.
  intros [A B C D] Hf Hw Hr. assert (switched s (set_multi m s)) as Hs by (by apply switched_multi, frame_same_clients).
  split; [|done]. split; [done|by eapply frame_parties|by eapply switched_members|by eapply activity_kept].
Qed.

Lemma lookup_switch now a n s : switch_ok s → roomy (n + 1) s → 0 < n → host_addr a →
  ∃ o s', lookup little script now a true s = Ret (o, s') ∧ switch_ok s' ∧ switched s s' ∧ (roomy n s' ∧ grown 1 s s') ∧
    s_mbuf s' = s_mbuf s ∧ s_heap s' = s_heap s ∧ owner (s_multi s) a o.
Proof.
  intros Hs Hr Hn Ha. unfold lookup. destruct (lookup_ok little script now a (s_multi s)) as (o & m & -> & Hl & Ho); [apply Hs| |done|].
  { unfold small, roomy in *. lia. }
  bret. exists o, (set_multi m s). split; [done|].
  destruct (learned_switch s m Hs (looked_frame _ _ Hl) (looked_same_way _ _ Hl) (looked_routing _ _ Hl)) as [H1 H2].
  split; [done|]. split; [done|]. split; [|done]. unfold roomy, grown in *. cbn. pose proof (looked_size _ _ Hl). lia.
Qed.
End lookup.

(** ** The addresses of a packet *)

Definition version (c : list Z) : Z := OPENVPN_IPH_GET_VER (nth 0 c 0).
Definition ip_packet (c : list Z) : Prop := version c = 4 ∧ (20 ≤ length c)%nat ∨ version c = 6 ∧ (40 ≤ length c)%nat.
#[export] Instance ip_packet_dec c : Decision (ip_packet c).
Proof. unfold ip_packet. apply _. Defined.
Definition multicast (c : list Z) : bool :=
  if decide (version c = 4) then bool_decide (Z.land (nth 16 c 0) 240 = 224) else bool_decide (nth 24 c 0 = 255).
(** The bytes of an address, in a structure that held [junk]. *)
Definition packet_addr (junk : mroute_addr) (c : list Z) (i4 i6 : nat) : mroute_addr :=
  if decide (version c = 4) then set_addr 4 2 0 (slice i4 4 c) junk else set_addr 16 3 0 (slice i6 16 c) junk.
Definition packet_src (junk : mroute_addr) (c : list Z) : mroute_addr := packet_addr junk c 12 8.
Definition packet_dest (junk : mroute_addr) (c : list Z) : mroute_addr := packet_addr junk c 16 24.
(** A [struct mroute_addr] with any content. *)
Definition any_addr (a : mroute_addr) : Prop := length (ma_addr a) = 20%nat ∧ Forall is_byte (ma_addr a).

Lemma any_set len type bs a : any_addr a → Forall is_byte bs → length bs = Z.to_nat len → 0 < len ≤ 16 → is_byte type → wf_addr (set_addr len type 0 bs a).
Proof.
  intros [Hl Hb] Hbs Hn Hlen Ht. change (set_addr len type 0 bs a) with (set_addr len type 0 bs (MA 0 0 0 (ma_addr a))).
  apply set_addr_wf; [|done|lia|done|ints; lia|lia]. unfold wf_addr. cbn. split_and!; done || (ints; lia).
Qed.
Lemma packet_addr_host junk c i4 i6 : any_addr junk → Forall is_byte c → ip_packet c → (i4 ≤ 16)%nat → (i6 ≤ 24)%nat → host_addr (packet_addr junk c i4 i6).
Proof.
  intros Hj Hb Hip H4 H6. unfold packet_addr, host_addr, ip_addr, is_net. case_decide as Hv.
  - destruct Hip as [[_ Hl]|[Hv6 _]]; [|congruence]. split; [|cbn; intros Hn; by apply Hn]. split; [|left; by split].
    apply any_set; [done|by apply slice_bytes|apply length_slice; lia|lia|ints; lia].
  - destruct Hip as [[Hv4 _]|[_ Hl]]; [done|]. split; [|cbn; intros Hn; by apply Hn]. split; [|right; by split].
    apply any_set; [done|by apply slice_bytes|apply length_slice; lia|lia|ints; lia].
Qed.

Lemma ip_addrs_eq c src dest :
  if decide (ip_packet c) then
    ∃ f, ip_addrs c (Some src) (Some dest) = (f, Some (packet_src src c), Some (packet_dest dest c)) ∧
      Z.land f MROUTE_EXTRACT_SUCCEEDED = 1 ∧ Z.land f MROUTE_EXTRACT_BCAST = 0 ∧ Z.land f MROUTE_EXTRACT_MCAST = (if multicast c then 4 else 0)
  else ip_addrs c (Some src) (Some dest) = (0, Some src, Some dest).
Proof.
  destruct (decide (ip_packet c)) as [H|H]; unfold ip_packet in H;
    unfold ip_addrs, packet_src, packet_dest, packet_addr, multicast, version in *; set (v := OPENVPN_IPH_GET_VER (nth 0 c 0)) in *.
  - destruct H as [[Hv Hl]|[Hv Hl]].
    + rewrite (decide_True (P := v = 4 ∧ _)) by done. rewrite !(decide_True (P := v = 4)) by done. eexists. split; [done|].
      unfold flag. by destruct (bool_decide (Z.land _ _ = 224)), (bool_decide (nth 9 c 0 = 2)).
    + rewrite (decide_False (P := v = 4 ∧ _)) by lia. rewrite (decide_True (P := v = 6 ∧ _)) by done. rewrite !(decide_False (P := v = 4)) by lia.
      eexists. split; [done|]. unfold flag. by destruct (bool_decide (nth 24 c 0 = 255)).
  - rewrite (decide_False (P := v = 4 ∧ _)) by tauto. by rewrite (decide_False (P := v = 6 ∧ _)) by tauto.
Qed.

(** ** A packet of a client *)

(** Client [i] may have sent the packet. *)
Definition genuine (junk : mroute_addr) (m : multi_context) (i : nat) (c : list Z) : Prop :=
  ip_packet c ∧ owner m (packet_src junk c) (Some i).
(** The clients it goes to, when its destination is the address of [od]. *)
Definition recipients (s : multi_switch) (i : nat) (c : list Z) (od : option nat) : list nat :=
  if s_enable_c2c s then
    if multicast c then filter (λ j, bcast_to s (Some i) None j = true) (members s)
    else match od with Some j => if c2c_verdict (s_multi s) i j then [j] else [] | None => [] end
  else [].
(** It goes to the device. *)
Definition to_device (junk : mroute_addr) (s : multi_switch) (i : nat) (c : list Z) (od : option nat) : bool :=
  host_verdict (s_multi s) i (packet_dest junk c) && negb (s_enable_c2c s && negb (multicast c) && bool_decide (od ≠ None)).

Lemma wf_len b : wf_buf b → len b = Z.of_nat (length (content b)) ∧ 0 ≤ len b < BUF_SIZE_MAX ∧ buf_len b = len b.
Proof.
  intros Hw. destruct (wf_buf_mk b Hw) as (pre & post & E & Hl). rewrite E, buf_len_mk, content_mk. cbn [mkbuf len]. lia.
Qed.
Lemma content_dropped b : content (drop_packet b) = [].
Proof. unfold content, drop_packet, slice. cbn. by rewrite take_0. Qed.

Lemma to_device_ok little i dest b s : wf_buf b → content b ≠ [] → wf_addr dest → is_Some (m_instances (s_multi s) !! i) →
  ∃ b', client_to_device little i dest b s = Ret b' ∧ b' = if host_verdict (s_multi s) i dest then b else drop_packet b.
Proof.
  intros Hw Hne Hd [x Hx]. destruct (wf_len b Hw) as (Hl & _). unfold client_to_device, host_verdict, get_instance.
  rewrite decide_True by (rewrite Hl; destruct (content b); [done|cbn; lia]). rewrite Hx. cbn [of_option]. bret.
  rewrite addr_test_ok by done. bret. by eexists.
Qed.
Lemma dropped_stays little i dest b s : client_to_device little i dest (drop_packet b) s = Ret (drop_packet b).
Proof. done. Qed.

Lemma alive_there m i : alive m i = true → is_Some (m_instances m !! i).
Proof. intros (x & Hx & _)%alive_instance. by exists x. Qed.
Lemma c2c_verdict_alive s i j x : m_instances (s_multi s) !! i = Some x → c2c_verdict (s_multi s) i j = true → is_Some (m_instances (s_multi s) !! j).
Proof. unfold c2c_verdict. intros ->. destruct (m_instances (s_multi s) !! j); [|done]. by eexists. Qed.

(** Handing a packet to a client. *)
Lemma to_client_ok ext now i j b s Q : (∀ x, 0 ≤ ext x) → switch_ok s → alive (s_multi s) i = true → alive (s_multi s) j = true →
  wf_buf b → Forall is_byte (content b) → content b ≠ [] → queue_shows ext s Q → has_room (ms_capacity (s_mbuf s)) Q →
  ∃ s', client_to_client now i j b s = Ret (drop_packet b, s') ∧ switch_ok s' ∧ switched s s' ∧ m_vhash (s_multi s') = m_vhash (s_multi s) ∧
    queue_shows ext s' (offered s Q (content b) (if c2c_verdict (s_multi s) i j then [j] else [])).
Proof.
  intros Hext Hs Hi Hj Hw Hb Hne Hq Hr. unfold client_to_client.
  destruct (c2c_test_ok i j (s_multi s) (sw_parties _ Hs) (alive_there _ _ Hi) (alive_there _ _ Hj)) as (m & -> & Hqu). bret.
  set (s1 := set_multi m s). assert (switched s s1) as Hs1 by (by apply switched_multi, Hqu).
  assert (switch_ok s1) as Ho1 by (by eapply switch_quiet_ok). pose proof (quiet_vhash _ _ Hqu) as Hv.
  assert (queue_shows ext s1 Q) as Hq1 by done.
  destruct (c2c_verdict (s_multi s) i j); [|bret; exists s1; by split_and!].
  assert (alive (s_multi s1) j = true) as Hj1 by (by rewrite (switched_alive s s1)). assert (alive (s_multi s1) i = true) as Hi1 by (by rewrite (switched_alive s s1)).
  destruct (unicast_ok ext s1 Q j b Hext Hq1 Hw Hb Hne Hr (alive_there _ _ Hj1)) as (s2 & -> & Hq2 & Hs2). bret.
  pose proof (switched_queued _ _ Hq2) as Hsw2. pose proof (switch_queue_ok _ _ Hq2 Ho1) as Ho2.
  assert (s_multi s2 = s_multi s1) as Em by (by destruct Hq2 as (? & ? & -> & _)).
  destruct (activity_step now (buf_len b) i s2 Ho2) as (s3 & -> & Ho3 & Hsw3 & Em3 & Eb3 & Eh3); [by rewrite Em|destruct (wf_len b Hw) as (_ & ? & ->); lia|].
  bret. exists s3. split; [done|]. split; [done|]. split; [eapply switched_trans; [exact Hs1|]; by eapply switched_trans|].
  split; [by rewrite Em3, Em|]. rewrite (switched_offer s s1) in Hs2 by done. cbn [offered foldl]. unfold queue_shows. by rewrite Eb3, Eh3.
Qed.

Lemma owner_alive_client m a j : owner m a (Some j) → alive m j = true.
Proof.
  unfold owner. destruct (mroute_addr_equal _ _); [done|]. intros [(id & r & _ & _ & _ & _ & H)|[_ (net & H & _)]]; [done|by eapply net_live_alive].
Qed.
Lemma switched_offered s s' Q c js : switched s s' → Forall (λ j, alive (s_multi s) j = true) js → offered s' Q c js = offered s Q c js.
Proof.
  intros Hs H. revert Q. induction H as [|j js Hj H IH]; intros Q; [done|].
  change (offered s' (offer s' Q c j) c js = offered s (offer s Q c j) c js). rewrite (switched_offer s s') by done. apply IH.
Qed.
Definition sender_alive (s : multi_switch) (sender : option nat) : Prop := ∀ i, sender = Some i → alive (s_multi s) i = true.
Lemma switched_bcast s s' sender addr : switched s s' → members_ok s → sender_alive s sender →
  filter (λ j, bcast_to s' sender addr j = true) (members s') = filter (λ j, bcast_to s sender addr j = true) (members s).
Proof.
  intros Hs [_ Hm] Hse. unfold members in *. rewrite (switched_iter _ _ Hs). induction Hm as [|j js Hj Hm IH]; [done|].
  rewrite !filter_cons, IH. assert (bcast_to s' sender addr j = bcast_to s sender addr j) as ->; [|done].
  unfold bcast_to. rewrite (switched_alive s s') by done. f_equal; [f_equal|].
  - destruct sender as [i|]; [|done]. apply same_c2c; [apply Hs|by apply Hse|done].
  - destruct addr as [a|]; [|done]. apply same_host; [apply Hs|done].
Qed.
Lemma bcast_alive s sender addr : members_ok s → Forall (λ j, alive (s_multi s) j = true) (filter (λ j, bcast_to s sender addr j = true) (members s)).
Proof.
  intros [_ Hm]. rewrite Forall_forall in *. intros j [_ Hj]%list_elem_of_filter. by apply Hm.
Qed.

Section client.
Context (little : bool) (script : option nat → learn_op → mroute_addr → bool) (junk_src junk_dest : mroute_addr).
Hypothesis (Hjs : any_addr junk_src) (Hjd : any_addr junk_dest).

(** The packet of a client that may have sent it, once its source has been looked up. *)
Lemma forward_ok ext now i b s Q :
  (∀ x, 0 ≤ ext x) → switch_ok s → roomy 2 s → alive (s_multi s) i = true → wf_buf b → Forall is_byte (content b) → ip_packet (content b) →
  queue_shows ext s Q → has_room (ms_capacity (s_mbuf s)) Q → ∀ f, Z.land f MROUTE_EXTRACT_BCAST = 0 →
  Z.land f MROUTE_EXTRACT_MCAST = (if multicast (content b) then 4 else 0) →
  ∃ b1 s1 s' od, (if s_enable_c2c s then
         if decide (Z.land f MROUTE_EXTRACT_MCAST ≠ 0) then
           s ← multi_bcast little b (Some i) None s; Ret (b, s)
         else
           ASSERT (Z.land f MROUTE_EXTRACT_BCAST = 0);;
           '(o, s) ← lookup little script now (packet_dest junk_dest (content b)) true s;
           match o with Some j => client_to_client now i j b s | None => Ret (b, s) end
       else Ret (b, s)) = Ret (b1, s1) ∧
    switch_ok s1 ∧ switched s s1 ∧ owner (s_multi s) (packet_dest junk_dest (content b)) od ∧
    queue_shows ext s1 (offered s Q (content b) (recipients s i (content b) od)) ∧
    b1 = (if s_enable_c2c s && negb (multicast (content b)) && bool_decide (od ≠ None) then drop_packet b else b) ∧
    client_to_device little i (packet_dest junk_dest (content b)) b1 s1 = Ret s' ∧
    content s' = (if to_device junk_dest s i (content b) od then content b else []) ∧ grown 1 s s1.
Proof.
  intros Hext Hs Hr Hal Hw Hb Hip Hq Hroom f Hbc Hmc. set (c := content b) in *. set (dest := packet_dest junk_dest c) in *.
  assert (c ≠ []) as Hne by (intros E; rewrite E in Hip; destruct Hip as [[_ H]|[_ H]]; cbn in H; lia).
  assert (host_addr dest) as Hd by (apply packet_addr_host; [done..|lia|lia]).
  destruct (lookup_switch little script now dest 1 s Hs) as (od & s2 & El & Ho2 & Hsw2 & [_ Hg2] & Eb2 & Eh2 & Hown); [done|lia|done|].
  assert (∀ b1 s1, switched s s1 → b1 = (if s_enable_c2c s && negb (multicast c) && bool_decide (od ≠ None) then drop_packet b else b) →
    ∃ s', client_to_device little i dest b1 s1 = Ret s' ∧ content s' = (if to_device junk_dest s i c od then c else [])) as Hend.
  { intros b1 s1 Hsw ->. unfold to_device. fold dest. destruct (s_enable_c2c s && negb (multicast c) && bool_decide (od ≠ None)).
    - rewrite dropped_stays, andb_false_r. eexists. split; [done|]. apply content_dropped.
    - rewrite andb_true_r. assert (alive (s_multi s1) i = true) as Hi1 by (by rewrite (switched_alive s s1)).
      destruct (to_device_ok little i dest b s1 Hw Hne) as (b' & -> & ->); [apply Hd|by apply alive_there|].
      rewrite (same_host (s_multi s) (s_multi s1)); [|apply Hsw|done]. eexists. split; [done|].
      destruct (host_verdict (s_multi s) i dest); [done|apply content_dropped]. }
  unfold recipients. destruct (s_enable_c2c s) eqn:Ec; [destruct (multicast c) eqn:Em|].
  - rewrite decide_True by (by rewrite Hmc).
    destruct (bcast_ok little ext s Q b (Some i) None Hext Hq Hw Hb Hne Hroom) as (s1 & -> & Hsw & Hqu & Ha & Hq1);
      [apply Hs|apply Hs|by intros ? [= <-]|done|]. bret.
    destruct (Hend b s1 Hsw eq_refl) as (s' & Hs' & Hc'). exists b, s1, s', od.
    split; [done|]. split; [by eapply switch_quiet_ok|]. split_and!; [done..|by apply quiet_grown].
  - rewrite decide_False by (rewrite Hmc; tauto). rewrite (ASSERT_ok (Z.land f MROUTE_EXTRACT_BCAST = 0)) by done. bret. rewrite El. bret.
    assert (queue_shows ext s2 Q) as Hq2 by (unfold queue_shows; by rewrite Eb2, Eh2).
    destruct od as [j|].
    + pose proof (owner_alive_client _ _ _ Hown) as Hj.
      destruct (to_client_ok ext now i j b s2 Q) as (s3 & -> & Ho3 & Hsw3 & Ev3 & Hq3); [done|done|by rewrite (switched_alive s s2)..|done|done|done|done|by rewrite Eb2|].
      assert (switched s s3) as Hsw by (by eapply switched_trans).
      destruct (Hend (drop_packet b) s3 Hsw eq_refl) as (s' & Hs' & Hc'). exists (drop_packet b), s3, s', (Some j).
      split; [done|]. split; [done|]. split; [done|]. split; [done|]. split; [|split_and!; [done..|unfold grown in *; by rewrite Ev3]].
      rewrite (same_c2c (s_multi s) (s_multi s2)) in Hq3 by (apply Hsw2 || done). fold c in Hq3.
      rewrite (switched_offered s s2) in Hq3; [done|done|]. destruct (c2c_verdict (s_multi s) i j); [by apply Forall_singleton|done].
    + destruct (Hend b s2 Hsw2 eq_refl) as (s' & Hs' & Hc'). exists b, s2, s', None. by split_and!.
  - destruct (Hend b s (switched_refl s) eq_refl) as (s' & Hs' & Hc'). exists b, s, s', od. split; [done|]. split; [done|]. split; [apply switched_refl|]. split_and!; [done..|unfold grown; lia].
Qed.

Lemma from_client_tun_ok ext now i b s Q :
  (∀ x, 0 ≤ ext x) → switch_ok s → roomy 3 s → alive (s_multi s) i = true → wf_buf b → Forall is_byte (content b) →
  queue_shows ext s Q → has_room (ms_capacity (s_mbuf s)) Q →
  ∃ b' s', from_client_tun little script junk_src junk_dest now i b s = Ret (b', s') ∧ switch_ok s' ∧ switched s s' ∧
    (¬ genuine junk_src (s_multi s) i (content b) → queue_shows ext s' Q ∧ content b' = []) ∧
    (genuine junk_src (s_multi s) i (content b) → ∃ od, owner (s_multi s) (packet_dest junk_dest (content b)) od ∧
       queue_shows ext s' (offered s Q (content b) (recipients s i (content b) od)) ∧
       content b' = if to_device junk_dest s i (content b) od then content b else []) ∧ grown 2 s s' ∧
    ∃ js, Forall (λ j, alive (s_multi s) j = true) js ∧ queue_shows ext s' (offered s Q (content b) js).
Proof.
  intros Hext Hs Hr Hal Hw Hb Hq Hroom. unfold from_client_tun, mroute_extract_addr_from_packet.
  destruct (wf_buf_mk b Hw) as (pre & post & E & _). set (c := content b) in *.
  assert (mroute_extract_addr_ipv4 little (Some junk_src) (Some junk_dest) b = Ret (ip_addrs c (Some junk_src) (Some junk_dest), b)) as Hx
    by (rewrite E; by apply extract_ipv4_ok).
  rewrite decide_True by done. rewrite bindM_run, Hx. bret. pose proof (ip_addrs_eq c junk_src junk_dest) as Ha. unfold mret, M_ret. bret.
  destruct (decide (ip_packet c)) as [Hip|Hip].
  2: { rewrite Ha. cbn [of_option]. bret. rewrite decide_True by done. bret. rewrite dropped_stays. bret. exists (drop_packet b), s.
       split; [done|]. split; [done|]. split; [apply switched_refl|]. split; [intros _; split; [done|apply content_dropped]|]. split; [by intros [? _]|]. split; [unfold grown; lia|by exists []]. }
  destruct Ha as (f & -> & H1 & H2 & H4). cbn [of_option]. bret. rewrite decide_False by (by rewrite H1).
  assert (host_addr (packet_src junk_src c)) as Hh by (apply packet_addr_host; [done..|lia|lia]).
  destruct (lookup_switch little script now (packet_src junk_src c) 2 s Hs) as (os & s1 & -> & Ho1 & Hsw1 & [Hr1 Hg1] & Eb1 & Eh1 & Hown); [done|lia|done|]. bret.
  assert (queue_shows ext s1 Q) as Hq1 by (unfold queue_shows; by rewrite Eb1, Eh1).
  destruct (decide (os ≠ Some i)) as [Hos|Hos].
  { bret. rewrite dropped_stays. bret. exists (drop_packet b), s1. split; [done|]. split; [done|]. split; [done|].
    split; [intros _; split; [done|apply content_dropped]|]. split; [|split; [unfold grown in *; lia|by exists []]]. intros [_ Hg]. destruct Hos. by eapply owner_unique; [apply Hs|..]. }
  assert (os = Some i) as -> by (destruct (decide (os = Some i)); [done|tauto]).
  assert (alive (s_multi s1) i = true) as Hal1 by (by rewrite (switched_alive s s1)).
  assert (has_room (ms_capacity (s_mbuf s1)) Q) as Hroom1 by (by rewrite Eb1).
  destruct (forward_ok ext now i b s1 Q Hext Ho1 Hr1 Hal1 Hw Hb Hip Hq1 Hroom1 f H2 H4) as (b1 & s2 & b' & od & Ef & Ho2 & Hsw2 & Hod & Hq2 & _ & Ed & Hc & Hg2).
  fold c in Ef, Hod, Hq2, Ed, Hc. rewrite Ef. bret. rewrite Ed. bret. exists b', s2. split; [done|]. split; [done|]. split; [by eapply switched_trans|].
  split; [intros Hn; destruct Hn; by split|].
  apply (same_owner (s_multi s) (s_multi s1)) in Hod; [|apply Hsw1].
  assert (recipients s1 i c od = recipients s i c od) as Hrec.
  { unfold recipients. rewrite (switched_c2c _ _ Hsw1). destruct (s_enable_c2c s); [|done].
    destruct (multicast c); [apply switched_bcast; [done|apply Hs|by intros ? [= <-]]|]. destruct od as [j|]; [|done].
    rewrite (same_c2c (s_multi s) (s_multi s1)); [done|apply Hsw1|done|by eapply owner_alive_client]. }
  assert (Forall (λ j, alive (s_multi s) j = true) (recipients s i c od)) as Hral.
  { unfold recipients. destruct (s_enable_c2c s); [|done]. destruct (multicast c); [apply bcast_alive, Hs|]. destruct od as [j|]; [|done].
    destruct (c2c_verdict (s_multi s) i j); [|done]. apply Forall_singleton. by eapply owner_alive_client. }
  rewrite Hrec, (switched_offered s s1) in Hq2 by done. split; [|split; [unfold grown in *; lia|by exists (recipients s i c od)]].
  intros _. exists od. split; [done|]. split; [done|]. rewrite Hc.
  unfold to_device. by rewrite (switched_c2c _ _ Hsw1), (same_host (s_multi s) (s_multi s1)) by (apply Hsw1 || done).
Qed.
End client.

(** ** A packet of the device *)

Section device.
Context (little : bool) (script : option nat → learn_op → mroute_addr → bool) (junk_src junk_dest junk_ext : mroute_addr).
Hypothesis (Hjs : any_addr junk_src) (Hjd : any_addr junk_dest).

Lemma from_device_ok ext now b c2_buf s Q :
  (∀ x, 0 ≤ ext x) → switch_ok s → roomy 2 s → wf_buf b → Forall is_byte (content b) → queue_shows ext s Q → has_room (ms_capacity (s_mbuf s)) Q →
  ∃ o s', multi_process_incoming_tun little script junk_src junk_dest junk_ext DEV_TYPE_TUN now b c2_buf s = Ret (o, s') ∧ switch_ok s' ∧ switched s s' ∧
    (¬ ip_packet (content b) → o = None ∧ queue_shows ext s' Q) ∧
    (ip_packet (content b) → multicast (content b) = true → o = None ∧ queue_shows ext s' (offered s Q (content b)
       (filter (λ j, bcast_to s None (Some (packet_src junk_src (content b))) j = true) (members s)))) ∧
    (ip_packet (content b) → multicast (content b) = false → ∃ od, owner (s_multi s) (packet_dest junk_dest (content b)) od ∧ queue_shows ext s' Q ∧
       o = (λ j, (j, if host_verdict (s_multi s) j (packet_src junk_src (content b)) && ready s j then b else buf_reset_len (c2_buf j))) <$> od) ∧ grown 1 s s'.
Proof.
  intros Hext Hs Hr Hw Hb Hq Hroom. unfold multi_process_incoming_tun, mroute_extract_addr_from_packet.
  destruct (wf_buf_mk b Hw) as (pre & post & E & _). set (c := content b) in *. rewrite !(decide_True (P := DEV_TYPE_TUN = DEV_TYPE_TUN)) by done.
  assert (mroute_extract_addr_ipv4 little (Some junk_src) (Some junk_dest) b = Ret (ip_addrs c (Some junk_src) (Some junk_dest), b)) as Hx
    by (rewrite E; by apply extract_ipv4_ok).
  destruct (decide (buf_len b > 0)) as [Hl|Hl].
  2: { exists None, s. split; [done|]. split; [done|]. split; [apply switched_refl|]. destruct (wf_len b Hw) as (L1 & _ & L2). fold c in L1.
       assert (¬ ip_packet c) by (intros [[_ H]|[_ H]]; lia). split_and!; [done..|unfold grown; lia]. }
  rewrite bindM_run, Hx. bret. pose proof (ip_addrs_eq c junk_src junk_dest) as Ha. unfold mret, M_ret. bret.
  destruct (decide (ip_packet c)) as [Hip|Hip].
  2: { rewrite Ha. cbn [of_option]. bret. rewrite (decide_True (P := DEV_TYPE_TUN = DEV_TYPE_TUN)) by done. bret. rewrite (decide_False (P := Z.land 0 MROUTE_EXTRACT_SUCCEEDED ≠ 0)) by (intros Hn; by apply Hn). exists None, s.
       split; [done|]. split; [done|]. split; [apply switched_refl|]. split_and!; [done..|unfold grown; lia]. }
  destruct Ha as (f & -> & H1 & H2 & H4). cbn [of_option]. bret. rewrite (decide_True (P := DEV_TYPE_TUN = DEV_TYPE_TUN)) by done. bret. rewrite decide_True by (by rewrite H1).
  assert (host_addr (packet_src junk_src c)) as Hh by (apply packet_addr_host; [done..|lia|lia]).
  assert (host_addr (packet_dest junk_dest c)) as Hd by (apply packet_addr_host; [done..|lia|lia]).
  assert (c ≠ []) as Hne by (intros Ec; rewrite Ec in Hip; destruct Hip as [[_ H]|[_ H]]; cbn in H; lia).
  assert (Z.land f (Z.lor MROUTE_EXTRACT_BCAST MROUTE_EXTRACT_MCAST) = if multicast c then 4 else 0) as ->.
  { rewrite Z.land_lor_distr_r, H2, H4. by destruct (multicast c). }
  destruct (multicast c) eqn:Em.
  - rewrite decide_True by done.
    destruct (bcast_ok little ext s Q b None (Some (packet_src junk_src c)) Hext Hq Hw Hb Hne Hroom) as (s1 & -> & Hsw & Hqu & Hac & Hq1);
      [apply Hs|apply Hs|done|intros a [= <-]; apply Hh|]. bret. exists None, s1.
    split; [done|]. split; [by eapply switch_quiet_ok|]. split_and!; [done..|by apply quiet_grown].
  - rewrite decide_False by tauto. rewrite bool_decide_eq_true_2 by done.
    destruct (lookup_switch little script now (packet_dest junk_dest c) 1 s Hs) as (od & s1 & -> & Ho1 & Hsw1 & [_ Hg1] & Eb1 & Eh1 & Hown); [done|lia|done|]. bret.
    assert (queue_shows ext s1 Q) as Hq1 by (unfold queue_shows; by rewrite Eb1, Eh1).
    destruct od as [j|].
    + pose proof (owner_alive_client _ _ _ Hown) as Hj. assert (alive (s_multi s1) j = true) as Hj1 by (by rewrite (switched_alive s s1)).
      destruct (alive_instance _ _ Hj1) as (x & Hx1 & _). unfold get_instance. rewrite Hx1. cbn [of_option]. bret. rewrite addr_test_ok by apply Hh. bret.
      eexists _, s1. split; [done|]. split; [done|]. split; [done|]. split; [done|]. split; [done|]. split; [|done]. intros _ _. exists (Some j). split; [done|]. split; [done|].
      cbn. rewrite <- (switched_ready s s1), <- (same_host (s_multi s) (s_multi s1)) by (apply Hsw1 || done). unfold host_verdict, ready. by rewrite Hx1.
    + exists None, s1. split; [done|]. split; [done|]. split; [done|]. split; [done|]. split; [done|]. split; [|done]. intros _ _. by exists None.
Qed.
End device.
