(* ===== verification/OvpnSwitchProps.v ===== *)
(** * OpenVPN: properties of the server as a switch

    What becomes of a packet of a client and of one from the device, on a tun device: which
    clients it is queued for and whether it reaches the device.  [switch_ok] is the state
    between two packets; each theorem shows that it is kept.  The queue is the list of
    packets and clients it shows ([queue_shows]). *)
From stdpp Require Import gmap.
From S2P Require Import Prelude OvpnBuffer OvpnPacketId OvpnFrame OvpnList OvpnMbuf OvpnMbufProofs OvpnProto OvpnMroute OvpnMrouteProofs OvpnPf OvpnPfProofs OvpnMulti OvpnMultiProofs OvpnMultiOpsProofs OvpnMultiProps OvpnSwitch OvpnSwitchProofs.
#[local] Open Scope bool_scope.
#[local] Open Scope Z_scope.

Section properties.
Context (little : bool) (script : option nat → learn_op → mroute_addr → bool) (junk_src junk_dest junk_ext : mroute_addr).
(** The references to packets from elsewhere. *)
Context (ext : nat → Z).

(** C7: A client cannot send from an address that is not its own: a packet whose source
    the routing table does not give to the client that sent it, or that is not a whole IP
    packet, is queued for nobody and does not reach the device, whatever else it holds;
    where packets go and whom the filters let talk stays as it was. *)
Theorem spoofed_packets_go_nowhere now i b s Q :
  any_addr junk_src → any_addr junk_dest → (∀ x, 0 ≤ ext x) → switch_ok s → roomy 3 s → alive (s_multi s) i = true →
  wf_buf b → Forall is_byte (content b) → queue_shows ext s Q → has_room (ms_capacity (s_mbuf s)) Q →
  ¬ genuine junk_src (s_multi s) i (content b) →
  ∃ b' s', multi_process_incoming_link little script junk_src junk_dest junk_ext DEV_TYPE_TUN now i b s = Ret (b', s') ∧
    switch_ok s' ∧ switched s s' ∧ queue_shows ext s' Q ∧ content b' = [].
Proof.
  intros Hjs Hjd Hext Hs Hr Hal Hw Hb Hq Hroom Hg.
  destruct (from_client_tun_ok little script junk_src junk_dest Hjs Hjd ext now i b s Q) as (b' & s' & E & Ho & Hsw & Hno & _); [done..|].
  exists b', s'. unfold multi_process_incoming_link. rewrite decide_True by done. by destruct (Hno Hg).
Qed.

(** C8: A packet that a client may send goes where the configuration says.  Between
    clients: a multicast packet is queued for every other client, one with the address of
    a client for that client, each time only when the filters of both ends let it pass and
    the output of the receiver is not congested; to the device, unless a client was its
    destination, when the filter of the sender lets it pass.  Without
    [--client-to-client] every packet goes to the device. *)
Theorem client_packets_are_switched now i b s Q :
  any_addr junk_src → any_addr junk_dest → (∀ x, 0 ≤ ext x) → switch_ok s → roomy 3 s → alive (s_multi s) i = true →
  wf_buf b → Forall is_byte (content b) → queue_shows ext s Q → has_room (ms_capacity (s_mbuf s)) Q →
  genuine junk_src (s_multi s) i (content b) →
  ∃ b' s' od, multi_process_incoming_link little script junk_src junk_dest junk_ext DEV_TYPE_TUN now i b s = Ret (b', s') ∧
    switch_ok s' ∧ switched s s' ∧ owner (s_multi s) (packet_dest junk_dest (content b)) od ∧
    queue_shows ext s' (offered s Q (content b) (recipients s i (content b) od)) ∧
    content b' = if to_device junk_dest s i (content b) od then content b else [].
Proof.
  intros Hjs Hjd Hext Hs Hr Hal Hw Hb Hq Hroom Hg.
  destruct (from_client_tun_ok little script junk_src junk_dest Hjs Hjd ext now i b s Q) as (b' & s' & E & Ho & Hsw & _ & Hyes & _); [done..|].
  destruct (Hyes Hg) as (od & H1 & H2 & H3).
  exists b', s', od. unfold multi_process_incoming_link. by rewrite decide_True by done.
Qed.

(** C21: A packet from the device reaches the client its destination is routed to, or all
    clients when it is multicast, if the filter of the client lets the source talk to it
    and its output is not congested; other packets are dropped. *)
Theorem device_packets_reach_their_client now b c2_buf s Q :
  any_addr junk_src → any_addr junk_dest → (∀ x, 0 ≤ ext x) → switch_ok s → roomy 2 s →
  wf_buf b → Forall is_byte (content b) → queue_shows ext s Q → has_room (ms_capacity (s_mbuf s)) Q →
  ∃ o s', multi_process_incoming_tun little script junk_src junk_dest junk_ext DEV_TYPE_TUN now b c2_buf s = Ret (o, s') ∧
    switch_ok s' ∧ switched s s' ∧
    if decide (ip_packet (content b)) then
      if multicast (content b) then
        o = None ∧ queue_shows ext s' (offered s Q (content b)
          (filter (λ j, bcast_to s None (Some (packet_src junk_src (content b))) j = true) (members s)))
      else ∃ od, owner (s_multi s) (packet_dest junk_dest (content b)) od ∧ queue_shows ext s' Q ∧
        o = (λ j, (j, if host_verdict (s_multi s) j (packet_src junk_src (content b)) && ready s j then b else buf_reset_len (c2_buf j))) <$> od
    else o = None ∧ queue_shows ext s' Q.
Proof.
  intros Hjs Hjd Hext Hs Hr Hw Hb Hq Hroom.
  destruct (from_device_ok little script junk_src junk_dest junk_ext Hjs Hjd ext now b c2_buf s Q) as (o & s' & E & Ho & Hsw & H1 & H2 & H3 & _); [done..|].
  exists o, s'. split; [done|]. split; [done|]. split; [done|]. case_decide; [|by apply H1]. destruct (multicast (content b)); auto.
Qed.
End properties.

(** *** Witnesses *)

Section witnesses.

(** A second client, with the address 10.8.0.2, that does not talk to [eve]. *)
Definition name_eve : list Z := [101; 118; 101].
Definition no_eve : outcome pf_context :=
  '(_, cns) ← genhash (Cns true [PfCn true name_eve] None) 1;
  Ret (PfContext true (Some (PfSet false (Sns true [Subnet true 167837696 (netbits_to_netmask 24)]) cns))).
Definition b_client : multi_instance :=
  Instance false 0 0 false [] [] 256 None (match no_eve with Ret pf => pf | _ => PfContext false None end) None.
Definition demo3 : multi_context := Eval vm_compute in state (run true agrees 3 (Comes b_client) demo2).
Definition demo4 : multi_context := Eval vm_compute in state (run true agrees 4 (Address 1 168296450) demo3).

Definition iter_of (l : list (mroute_addr * nat)) : hash mroute_addr nat :=
  match (h ← hash_init 4 0; foldM (λ '(a, i) h, '(_, h) ← hash_add a i false h; Ret h) l h) with Ret h => h | _ => Hash 0 0 0 0 [] end.
(** The transport addresses 1.1.1.1:1 and 2.2.2.2:2. *)
Definition real_addr (n : Z) : mroute_addr := (mroute_extract_openvpn_sockaddr (In4 [n; n; n; n] [0; n]) true mroute_addr_init).2.
Definition idle : inactivity := Inactivity 0 0 0 (ET false 0 0).
Definition demo_switch : multi_switch := Eval vm_compute in
  Switch demo4 (iter_of [(real_addr 1, 0%nat); (real_addr 2, 1%nat)]) (match mbuf_init 4 with Ret ms => ms | _ => MS 0 0 0 0 [] end) ∅
    {[0%nat := idle; 1%nat := idle]} true 64.
(** From 10.1.1.1 to 10.8.0.2. *)
Definition a_packet : buffer := mkbuf [] [69; 0; 0; 20; 0; 0; 0; 0; 64; 17; 0; 0; 10; 1; 1; 1; 10; 8; 0; 2] [].
Definition no_ext : nat → Z := λ _, 0.

Lemma demo3_reachable : reachable true demo3.
Proof.
  apply (happens true agrees 3 (Comes b_client) demo2); [apply demo2_reachable| |vm_compute; reflexivity]. split; [by split|]. split; by constructor.
Qed.
Lemma demo4_reachable : reachable true demo4.
Proof.
  apply (happens true agrees 4 (Address 1 168296450) demo3); [apply demo3_reachable| |vm_compute; reflexivity]. split; [reflexivity|]. split; [by split|]. vm_compute. reflexivity.
Qed.
Lemma demo4_instances : m_instances demo4 = <[1%nat := set_counts 2 1 b_client]> (<[0%nat := set_counts 2 1 (set_halt false true a_client)]> ∅).
Proof. vm_compute. reflexivity. Qed.
Lemma b_filter_ok : context_ok (mi_pf b_client).
Proof.
  intros s Hs. right. destruct (genhash_ok true [PfCn true name_eve] ltac:(vm_compute; congruence)) as (cns & E & Hn & _ & _). change (Z.of_nat _) with 1 in E.
  unfold b_client, no_eve in Hs. cbn [mi_pf] in Hs. rewrite E, bind_Ret in Hs. cbn [pf_pfs] in Hs. by injection Hs as <-.
Qed.
Lemma demo4_parties : parties_ok demo4.
Proof.
  intros i x. rewrite demo4_instances. intros [[<- <-]|[_ [[<- <-]|[_ H]]%lookup_insert_Some]]%lookup_insert_Some.
  - split; [done|]. apply b_filter_ok.
  - split; [done|]. by intros s.
  - done.
Qed.
Lemma demo_members : members_ok demo_switch.
Proof.
  destruct (hash_init_ok (K := mroute_addr) (V := nat) 4 0 ltac:(change (2 ^ 30) with 1073741824; lia)) as (h & E & Hw & _ & Hn & Ha).
  destruct (hash_add_new h (real_addr 1) 0%nat false Hw) as (h1 & E1 & Hw1 & _ & Hn1 & Ha1); [unfold small; ints; lia|by rewrite Ha|].
  destruct (hash_add_new h1 (real_addr 2) 1%nat false Hw1) as (h2 & E2 & Hw2 & _); [unfold small; ints; lia|rewrite Ha1, Ha; reflexivity|].
  assert (iter_of [(real_addr 1, 0%nat); (real_addr 2, 1%nat)] = h2) as Eh.
  { unfold iter_of. rewrite E, bind_Ret. cbn [foldM]. rewrite E1, !bind_Ret, E2, !bind_Ret. done. }
  assert (s_iter demo_switch = h2) as Ei by (rewrite <- Eh; vm_compute; reflexivity).
  split; [by rewrite Ei|]. assert (members demo_switch = [0%nat; 1%nat]) as -> by (vm_compute; reflexivity).
  by repeat constructor.
Qed.
Lemma demo_switch_ok : switch_ok demo_switch.
Proof.
  split; [apply (reachable_ok true), demo4_reachable|apply demo4_parties|apply demo_members|].
  intros i. change (s_multi demo_switch) with demo4. unfold alive. rewrite demo4_instances. intros Hi.
  assert (i = 1%nat ∨ i = 0%nat) as [->| ->].
  { destruct (decide (i = 1%nat)); [by left|]. destruct (decide (i = 0%nat)); [by right|]. rewrite !lookup_insert_ne in Hi by done. done. }
  - exists idle. split; [vm_compute; reflexivity|]. unfold BUF_SIZE_MAX. cbn. ints. lia.
  - exists idle. split; [vm_compute; reflexivity|]. unfold BUF_SIZE_MAX. cbn. ints. lia.
Qed.
Lemma demo_queue : queue_shows no_ext demo_switch [].
Proof.
  destruct (mbuf_init_ok 4 ltac:(change (2 ^ 30) with 1073741824; lia)) as (ms & E & Hq & _). exists []. split; [|split; [|constructor]].
  - assert (s_mbuf demo_switch = ms) as ->; [|done]. assert ((match mbuf_init 4 with Ret ms => ms | _ => MS 0 0 0 0 [] end) = ms) as <- by (by rewrite E).
    vm_compute. reflexivity.
  - intros x. cbn. done.
Qed.
Lemma init_any : any_addr mroute_addr_init.
Proof. split; [reflexivity|]. by repeat constructor. Qed.
Lemma a_packet_wf : wf_buf a_packet ∧ Forall is_byte (content a_packet).
Proof. split; [apply wf_mk; cbn; unfold BUF_SIZE_MAX; lia|]. unfold a_packet. rewrite content_mk. by repeat (apply Forall_cons; split; [ints; lia|]). Qed.

(** Who has 10.1.1.1. *)
Lemma demo_source o : owner demo4 (packet_src mroute_addr_init (content a_packet)) o ↔ o = Some 0%nat.
Proof.
  destruct (reachable_ok true _ demo4_reachable) as [Hm _].
  destruct (lookup_ok true agrees 5 (packet_src mroute_addr_init (content a_packet)) demo4 Hm) as (o' & m' & E & _ & Ho).
  - vm_compute. reflexivity.
  - apply packet_addr_host; [apply init_any|apply a_packet_wf|left; split; [reflexivity|vm_compute; lia]|lia|lia].
  - assert (o' = Some 0%nat) as -> by (vm_compute in E; congruence). split; [|intros ->; exact Ho]. intros Ho'. by eapply owner_unique; [apply Hm|..].
Qed.

Lemma spoofed_packets_go_nowhere_witness :
  ∃ b' s', multi_process_incoming_link true agrees mroute_addr_init mroute_addr_init mroute_addr_init DEV_TYPE_TUN 5 1 a_packet demo_switch = Ret (b', s') ∧
    queue_shows no_ext s' [] ∧ content b' = [].
Proof.
  destruct (spoofed_packets_go_nowhere true agrees mroute_addr_init mroute_addr_init mroute_addr_init no_ext 5 1 a_packet demo_switch [])
    as (b' & s' & E & _ & _ & H1 & H2).
  - apply init_any.
  - apply init_any.
  - done.
  - apply demo_switch_ok.
  - vm_compute. reflexivity.
  - vm_compute. reflexivity.
  - apply a_packet_wf.
  - apply a_packet_wf.
  - apply demo_queue.
  - left. vm_compute. congruence.
  - intros [_ H]. apply demo_source in H. congruence.
  - exists b', s'. split; [exact E|]. split; [exact H1|exact H2].
Defined.

Lemma client_packets_are_switched_witness :
  ∃ b' s', multi_process_incoming_link true agrees mroute_addr_init mroute_addr_init mroute_addr_init DEV_TYPE_TUN 5 0 a_packet demo_switch = Ret (b', s') ∧
    content b' = [] ∧ ∃ od, owner demo4 (packet_dest mroute_addr_init (content a_packet)) od.
Proof.
  destruct (client_packets_are_switched true agrees mroute_addr_init mroute_addr_init mroute_addr_init no_ext 5 0 a_packet demo_switch [])
    as (b' & s' & od & E & _ & _ & H1 & _ & H3).
  - apply init_any.
  - apply init_any.
  - done.
  - apply demo_switch_ok.
  - vm_compute. reflexivity.
  - vm_compute. reflexivity.
  - apply a_packet_wf.
  - apply a_packet_wf.
  - apply demo_queue.
  - left. vm_compute. congruence.
  - split; [left; split; [reflexivity|vm_compute; lia]|]. by apply demo_source.
  - exists b', s'. split; [exact E|]. split; [|exists od; exact H1]. vm_compute in E. injection E as <- _. reflexivity.
Defined.

Lemma device_packets_reach_their_client_witness :
  ∃ s' od, multi_process_incoming_tun true agrees mroute_addr_init mroute_addr_init mroute_addr_init DEV_TYPE_TUN 5 a_packet (λ _, a_packet) demo_switch =
      Ret ((λ j, (j, if host_verdict demo4 j (packet_src mroute_addr_init (content a_packet)) && ready demo_switch j then a_packet else buf_reset_len a_packet)) <$> od, s') ∧
    owner demo4 (packet_dest mroute_addr_init (content a_packet)) od.
Proof.
  destruct (device_packets_reach_their_client true agrees mroute_addr_init mroute_addr_init mroute_addr_init no_ext 5 a_packet (λ _, a_packet) demo_switch [])
    as (o & s' & E & _ & _ & H).
  - apply init_any.
  - apply init_any.
  - done.
  - apply demo_switch_ok.
  - vm_compute. reflexivity.
  - apply a_packet_wf.
  - apply a_packet_wf.
  - apply demo_queue.
  - left. vm_compute. congruence.
  - rewrite decide_True in H by (left; split; [reflexivity|vm_compute; lia]).
    change (∃ od, owner demo4 (packet_dest mroute_addr_init (content a_packet)) od ∧ queue_shows no_ext s' [] ∧
      o = (λ j, (j, if host_verdict demo4 j (packet_src mroute_addr_init (content a_packet)) && ready demo_switch j then a_packet else buf_reset_len a_packet)) <$> od) in H.
    destruct H as (od & H1 & _ & ->). exists s', od. split; [exact E|exact H1].
Defined.
End witnesses.
