(* ===== verification/OvpnServer.v ===== *)
(** * OpenVPN: the clients of a UDP server

    Models how a server keeps its clients, in [openvpn/src/src/openvpn/multi.c] and
    [mudp.c]: a client is created by the first packet from its transport address, enters
    the tables of addresses, gets a virtual address and its routes when it has
    authenticated, is woken by the scheduler, and leaves all of these when it is closed.

    It composes the switch (with the routing table and the output queue), the tables, the
    scheduler, the pool of addresses and the limit on new connections.  What the parts not
    modelled decide is an argument: signals, authentication, the options of a client, and
    whether [tls_pre_decrypt_lite] likes a packet.  The fields of [struct multi_instance]
    that are not in [OvpnMulti.multi_instance] are a [client]; both are gone when the
    instance is freed.  [MANAGEMENT_DEF_AUTH] and TCP are left out. *)
From stdpp Require Import gmap.
From S2P Require Import Prelude OvpnBuffer OvpnPacketId OvpnFrame OvpnList OvpnMbuf OvpnTime OvpnSchedule OvpnPool OvpnProto OvpnMroute OvpnPf OvpnMulti OvpnSwitch.
#[local] Open Scope bool_scope.
#[local] Open Scope Z_scope.

Record client := Client {
  k_real : mroute_addr;
  k_did_real_hash : bool;
  k_did_iter : bool;
  k_established : bool;
  k_n_clients_delta : Z;
  k_vaddr_handle : Z;
  k_ifconfig_defined : bool;
  k_ifconfig_local : Z;
  k_ifconfig_remote_netmask : Z;
  k_ifconfig_ipv6 : option (list Z);
}.
Record server := Server {
  v_switch : multi_switch;
  v_hash : hash mroute_addr nat;
  v_clients : gmap nat client;
  v_schedule : schedule;
  v_pool : option ifconfig_pool;
  v_limiter : frequency_limit;
  v_pending : option nat;
  v_earliest_wakeup : option nat;
  v_n_clients : Z;
  v_max_clients : Z;
}.

Definition set_switch (s : multi_switch) (v : server) : server :=
  Server s (v_hash v) (v_clients v) (v_schedule v) (v_pool v) (v_limiter v) (v_pending v) (v_earliest_wakeup v) (v_n_clients v) (v_max_clients v).
Definition set_hash (h : hash mroute_addr nat) (v : server) : server :=
  Server (v_switch v) h (v_clients v) (v_schedule v) (v_pool v) (v_limiter v) (v_pending v) (v_earliest_wakeup v) (v_n_clients v) (v_max_clients v).
Definition set_clients (c : gmap nat client) (v : server) : server :=
  Server (v_switch v) (v_hash v) c (v_schedule v) (v_pool v) (v_limiter v) (v_pending v) (v_earliest_wakeup v) (v_n_clients v) (v_max_clients v).
Definition set_schedule (s : schedule) (v : server) : server :=
  Server (v_switch v) (v_hash v) (v_clients v) s (v_pool v) (v_limiter v) (v_pending v) (v_earliest_wakeup v) (v_n_clients v) (v_max_clients v).
Definition set_pool (p : option ifconfig_pool) (v : server) : server :=
  Server (v_switch v) (v_hash v) (v_clients v) (v_schedule v) p (v_limiter v) (v_pending v) (v_earliest_wakeup v) (v_n_clients v) (v_max_clients v).
Definition set_limiter (f : frequency_limit) (v : server) : server :=
  Server (v_switch v) (v_hash v) (v_clients v) (v_schedule v) (v_pool v) f (v_pending v) (v_earliest_wakeup v) (v_n_clients v) (v_max_clients v).
Definition multi_set_pending (mi : option nat) (v : server) : server :=
  Server (v_switch v) (v_hash v) (v_clients v) (v_schedule v) (v_pool v) (v_limiter v) mi (v_earliest_wakeup v) (v_n_clients v) (v_max_clients v).
Definition set_earliest_wakeup (mi : option nat) (v : server) : server :=
  Server (v_switch v) (v_hash v) (v_clients v) (v_schedule v) (v_pool v) (v_limiter v) (v_pending v) mi (v_n_clients v) (v_max_clients v).
Definition set_n_clients (n : Z) (v : server) : server :=
  Server (v_switch v) (v_hash v) (v_clients v) (v_schedule v) (v_pool v) (v_limiter v) (v_pending v) (v_earliest_wakeup v) n (v_max_clients v).

Definition v_multi (v : server) : multi_context := s_multi (v_switch v).
Definition with_multi (m : multi_context) (v : server) : server := set_switch (set_multi m (v_switch v)) v.

(** The client, while its instance is there. *)
Definition get_client (i : nat) (v : server) : outcome client :=
  _ ← get_instance i (v_multi v);
  of_option (v_clients v !! i).
Definition put_client (i : nat) (k : client) (v : server) : server := set_clients (<[i := k]> (v_clients v)) v.

(** *** Updates of fields *)
Definition set_did (real_hash iter : bool) (k : client) : client :=
  Client (k_real k) real_hash iter (k_established k) (k_n_clients_delta k) (k_vaddr_handle k) (k_ifconfig_defined k)
    (k_ifconfig_local k) (k_ifconfig_remote_netmask k) (k_ifconfig_ipv6 k).
Definition set_established (e : bool) (delta : Z) (k : client) : client :=
  Client (k_real k) (k_did_real_hash k) (k_did_iter k) e delta (k_vaddr_handle k) (k_ifconfig_defined k)
    (k_ifconfig_local k) (k_ifconfig_remote_netmask k) (k_ifconfig_ipv6 k).
Definition set_handle (h : Z) (k : client) : client :=
  Client (k_real k) (k_did_real_hash k) (k_did_iter k) (k_established k) (k_n_clients_delta k) h (k_ifconfig_defined k)
    (k_ifconfig_local k) (k_ifconfig_remote_netmask k) (k_ifconfig_ipv6 k).
Definition set_ifconfig (d : bool) (l r : Z) (k : client) : client :=
  Client (k_real k) (k_did_real_hash k) (k_did_iter k) (k_established k) (k_n_clients_delta k) (k_vaddr_handle k) d l r (k_ifconfig_ipv6 k).
Definition set_ifconfig_ipv6 (a6 : option (list Z)) (k : client) : client :=
  Client (k_real k) (k_did_real_hash k) (k_did_iter k) (k_established k) (k_n_clients_delta k) (k_vaddr_handle k) (k_ifconfig_defined k)
    (k_ifconfig_local k) (k_ifconfig_remote_netmask k) a6.

(** ** Closing *)

(** No pointer is left to an instance that is closed. *)
Definition forget_pending (mi : nat) (v : server) : server := if decide (v_pending v = Some mi) then multi_set_pending None v else v.
Definition forget_wakeup (mi : nat) (v : server) : server := if decide (v_earliest_wakeup v = Some mi) then set_earliest_wakeup None v else v.

(** An entry is no deeper in the scheduler than there are entries. *)
Definition depth (s : schedule) : nat := S (base.size (s_mem s)).
Definition leave_pool (now : Z) (k : client) (hard : bool) (v : server) : outcome server :=
  match v_pool v with
  | Some p => '(_, p) ← ifconfig_pool_release now (k_vaddr_handle k) hard p; Ret (set_pool (Some p) v)
  | None => Ret v
  end.
Definition leave_iroutes (mi : nat) (m : multi_context) : outcome multi_context :=
  x ← get_instance mi m;
  if mi_did_iroutes x then
    m ← multi_del_iroutes mi m;
    x ← get_instance mi m;
    Ret (put_instance mi (set_halt (mi_halt x) false x) m)
  else Ret m.
(** Unless the server shuts down, what else knows the client. *)
Definition leave (now : Z) (mi : nat) (k : client) (v : server) : outcome server :=
  v ← (if k_did_real_hash k then
         '(ok, h) ← hash_remove (k_real k) (v_hash v);
         ASSERT (ok = true);;
         Ret (set_hash h v)
       else Ret v);
  v ← (if k_did_iter k then
         '(ok, h) ← hash_remove (k_real k) (s_iter (v_switch v));
         ASSERT (ok = true);;
         Ret (set_switch (set_iter h (v_switch v)) v)
       else Ret v);
  s ← schedule_remove_entry (depth (v_schedule v)) mi (v_schedule v);
  v ← leave_pool now k false (set_schedule s v);
  m ← leave_iroutes mi (v_multi v);
  '(ms, h) ← mbuf_dereference_instance (Some mi) (s_mbuf (v_switch v)) (s_heap (v_switch v));
  Ret (set_switch (set_queue ms h (set_multi m (v_switch v))) v).
Definition multi_close_instance (now : Z) (mi : nat) (shutdown : bool) (v : server) : outcome server :=
  x ← get_instance mi (v_multi v);
  ASSERT (mi_halt x = false);;
  k ← get_client mi v;
  n ← int (v_n_clients v + k_n_clients_delta k);
  let v := with_multi (put_instance mi (set_halt true (mi_did_iroutes x) x) (v_multi v)) v in
  let v := put_client mi (set_established (k_established k) 0 k) (set_n_clients n v) in
  let v := forget_wakeup mi (forget_pending mi v) in
  v ← (if negb shutdown then leave now mi k v else Ret v);
  m ← multi_instance_dec_refcount mi (v_multi v);
  Ret (with_multi m v).

(** ** Virtual addresses *)

Definition TOP_NET30 : Z := 1.
Definition TOP_P2P : Z := 2.
Definition TOP_SUBNET : Z := 3.

(** The tun/tap device. *)
Record tun_info := Tun { tt_type : Z; tt_topology : Z; tt_local : Z; tt_remote_netmask : Z; tt_local_ipv6 : list Z; tt_ipv6 : bool }.
(** The options of a client that matter here; [o_push_ifconfig] is [--ifconfig-push]. *)
Record client_options := Options {
  o_push_ifconfig : option (Z * Z);
  o_push_ifconfig_ipv6 : option (list Z);
  o_duplicate_cn : bool;
  o_ifconfig_pool_netmask : Z;
  o_ifconfig_ipv6_pool_defined : bool;
}.

Definition tls_common_name (multi : option tls_session) : option (list Z) := fst <$> tls_common_name_hash multi.

(** What is pushed to a client as its netmask or its peer. *)
Definition pushed_netmask (tun : tun_info) (o : client_options) (local old : Z) : Z :=
  if decide (tt_type tun = DEV_TYPE_TAP ∨ tt_type tun = DEV_TYPE_TUN ∧ tt_topology tun = TOP_SUBNET) then
    if decide (o_ifconfig_pool_netmask o = 0) then tt_remote_netmask tun else o_ifconfig_pool_netmask o
  else if decide (tt_type tun = DEV_TYPE_TUN) then
    if decide (tt_topology tun = TOP_P2P) then tt_local tun
    else if decide (tt_topology tun = TOP_NET30) then local
    else old
  else old.

(** An IPv4 address for client [k]: its own, or one of the pool. *)
Definition select_ipv4 (now : Z) (tun : tun_info) (o : client_options) (mi : nat) (k : client) (v : server) : outcome server :=
  match o_push_ifconfig o with
  | Some (local, remote_netmask) =>
      '(k, v) ← (if decide (k_vaddr_handle k >= 0) then v ← leave_pool now k true v; Ret (set_handle (-1) k, v) else Ret (k, v));
      Ret (put_client mi (set_ifconfig true local remote_netmask k) v)
  | None =>
      match v_pool v with
      | Some p =>
          if decide (k_vaddr_handle k < 0) then
            x ← get_instance mi (v_multi v);
            '(h, l, p) ← ifconfig_pool_acquire now true (if o_duplicate_cn o then None else tls_common_name (mi_tls x)) p;
            let k := set_handle h k in
            let k :=
              match l with
              | Some l =>
                  let netmask := pushed_netmask tun o (local l) (k_ifconfig_remote_netmask k) in
                  let k := set_ifconfig (if decide (netmask ≠ 0) then true else k_ifconfig_defined k) (remote l) netmask k in
                  if o_ifconfig_ipv6_pool_defined o then set_ifconfig_ipv6 (Some (default (replicate 16 0) (remote_ipv6 l))) k else k
              | None => k
              end in
            Ret (put_client mi k (set_pool (Some p) v))
          else Ret v
      | None => Ret v
      end
  end.
Definition multi_select_virtual_addr (now : Z) (tun : tun_info) (o : client_options) (mi : nat) (v : server) : outcome server :=
  k ← get_client mi v;
  v ← select_ipv4 now tun o mi k v;
  match o_push_ifconfig_ipv6 o with
  | Some a6 =>
      if tt_ipv6 tun then k ← get_client mi v; Ret (put_client mi (set_ifconfig_ipv6 (Some a6) k) v) else Ret v
  | None => Ret v
  end.

(** ** A client has authenticated *)

(** A client of the list with the name [new_cn] is closed and leaves the list. *)
Definition delete_dup_body (now : Z) (new_mi : nat) (new_cn : list Z) (v : server) (he : hash_element mroute_addr nat) :
    outcome (server * bool) :=
  let mi := he_value he in
  x ← get_instance mi (v_multi v);
  if decide (mi ≠ new_mi ∧ mi_halt x = false ∧ tls_common_name (mi_tls x) = Some new_cn) then
    k ← get_client mi v;
    v ← multi_close_instance now mi false (put_client mi (set_did (k_did_real_hash k) false k) v);
    Ret (v, true)
  else Ret (v, false).
Definition multi_delete_dup (now : Z) (new_mi : nat) (v : server) : outcome server :=
  x ← get_instance new_mi (v_multi v);
  match tls_common_name (mi_tls x) with
  | Some new_cn =>
      hi ← hash_iterator_init (s_iter (v_switch v));
      '(v, iter) ← hash_walk (delete_dup_body now new_mi new_cn) v (s_iter (v_switch v)) hi;
      Ret (set_switch (set_iter iter (v_switch v)) v)
  | None => Ret v
  end.

(** What the authentication of a client comes to: whether its name may be used twice, its
    options each time addresses are selected (after the configuration file, and after
    each script or plugin that leaves options), whether it is let in, and its networks. *)
Record connection := Connection {
  cn_duplicate_cn : bool;
  cn_options : list client_options;
  cn_succeeded : bool;
  cn_iroutes : list iroute;
  cn_iroutes_ipv6 : list iroute_ipv6;
}.
Definition set_networks (irs : list iroute) (irs6 : list iroute_ipv6) (x : multi_instance) : multi_instance :=
  Instance (mi_halt x) (mi_refcount x) (mi_route_count x) (mi_did_iroutes x) irs irs6 (mi_max_routes x) (mi_tls x) (mi_pf x) (mi_deferred x).

Section events.
Context (little : bool) (script : option nat → learn_op → mroute_addr → bool) (random : nat → Z) (tun : tun_info).

(** The routes of a client on a tun device. *)
Definition connect_routes (now : Z) (mi : nat) (v : server) : outcome server :=
  k ← get_client mi v;
  m ← (if k_ifconfig_defined k
       then '(_, m) ← multi_learn_in_addr_t little script now mi (k_ifconfig_local k) (-1) (v_multi v); Ret m
       else Ret (v_multi v));
  m ← (match k_ifconfig_ipv6 k with
       | Some a6 => '(_, m) ← multi_learn_in6_addr little script now mi a6 (-1) m; Ret m
       | None => Ret m
       end);
  m ← multi_add_iroutes little script now mi m;
  Ret (with_multi m v).
(** [None]: not authenticated. *)
Definition multi_connection_established (now : Z) (mi : nat) (c : option connection) (v : server) : outcome server :=
  match c with
  | Some c =>
      v ← (if cn_duplicate_cn c then Ret v else multi_delete_dup now mi v);
      k ← get_client mi v;
      let v := put_client mi (set_handle (-1) k) v in
      v ← foldM (λ o v, multi_select_virtual_addr now tun o mi v) (cn_options c) v;
      x ← get_instance mi (v_multi v);
      let v := with_multi (put_instance mi (set_networks (cn_iroutes c) (cn_iroutes_ipv6 c) x) (v_multi v)) v in
      v ← (if cn_succeeded c && bool_decide (tt_type tun = DEV_TYPE_TUN) then connect_routes now mi v else Ret v);
      n ← int (v_n_clients v + 1);
      k ← get_client mi v;
      d ← int (k_n_clients_delta k - 1);
      Ret (put_client mi (set_established true d k) (set_n_clients n v))
  | None => Ret v
  end.

(** ** After an event of a client *)

Definition compute_wakeup_sigma (delta : timeval) : Z :=
  if decide (tv_sec delta < 1) then u32 (Z.shiftr (tv_usec delta) 3)
  else if decide (tv_sec delta < 600) then u32 (Z.shiftl (tv_sec delta) 17)
  else 120000000.
(** [fuel] is for the search of a place in the scheduler, which draws again while two
    entries have the same time and priority. *)
Definition multi_schedule_context_wakeup (fuel : nat) (mi : nat) (time delta : timeval) (v : server) : outcome server :=
  _ ← get_client mi v;
  s ← schedule_add_entry random fuel mi (tv_add time delta) (compute_wakeup_sigma delta) (v_schedule v);
  Ret (set_schedule s v).

Definition MPP_PRE_SELECT : Z := 1.
Definition MPP_CONDITIONAL_PRE_SELECT : Z := 2.
Definition MPP_CLOSE_ON_SIGNAL : Z := 4.
(** What the client's context says as the function proceeds: a signal, before and after
    [pre_select] and at the end; output waiting, at the beginning and at the end; the TLS
    session and the packet filter as [pre_select] leaves them; the time, the time until the
    client is to be woken, and its connection when it is established. *)
Record post := Post {
  p_sig0 : bool;
  p_sig1 : bool;
  p_sig2 : bool;
  p_any_out0 : bool;
  p_any_out2 : bool;
  p_tls : option tls_session;
  p_pf : pf_context;
  p_time : timeval;
  p_delta : timeval;
  p_established : bool;
  p_connection : option connection;
}.
Definition set_session (t : option tls_session) (pf : pf_context) (x : multi_instance) : multi_instance :=
  Instance (mi_halt x) (mi_refcount x) (mi_route_count x) (mi_did_iroutes x) (mi_iroutes x) (mi_iroutes_ipv6 x) (mi_max_routes x) t pf (mi_deferred x).
Definition take_session (mi : nat) (p : post) (v : server) : outcome server :=
  x ← get_instance mi (v_multi v);
  Ret (with_multi (put_instance mi (set_session (p_tls p) (p_pf p) x) (v_multi v)) v).
(** After [pre_select]: the client is woken in time, and established when it may be. *)
Definition schedule_and_establish (now : Z) (fuel : nat) (mi : nat) (p : post) (v : server) : outcome server :=
  v ← multi_schedule_context_wakeup fuel mi (p_time p) (p_delta p) v;
  k ← get_client mi v;
  if negb (k_established k) && p_established p then multi_connection_established now mi (p_connection p) v else Ret v.
Definition multi_process_post (now : Z) (fuel : nat) (mi : nat) (p : post) (flags : Z) (v : server) : outcome (bool * server) :=
  v ← (if negb (p_sig0 p) && (bool_decide (Z.land flags MPP_PRE_SELECT ≠ 0) || bool_decide (Z.land flags MPP_CONDITIONAL_PRE_SELECT ≠ 0) && negb (p_any_out0 p)) then
         v ← take_session mi p v;
         if negb (p_sig1 p) then schedule_and_establish now fuel mi p v else Ret v
       else Ret v);
  if p_sig2 p then
    if decide (Z.land flags MPP_CLOSE_ON_SIGNAL ≠ 0) then v ← multi_close_instance now mi false v; Ret (false, v)
    else Ret (true, v)
  else Ret (true, multi_set_pending (if p_any_out2 p then Some mi else None) v).

(** ** Creation *)

(** [x] is what the instance inherits from the server; [sig], whether a signal came. *)
Definition multi_create_instance (now : Z) (fuel : nat) (real : mroute_addr) (x : multi_instance) (sig : bool) (a : inactivity) (p : post) (v : server) :
    outcome (option nat * server) :=
  let '(i, m) := multi_create_routing x (v_multi v) in
  let v := set_switch (set_activity (<[i := a]> (s_activity (v_switch v))) (set_multi m (v_switch v))) v in
  let s := v_schedule v in
  let v := set_schedule (Sched (s_earliest_wakeup s) (s_root s) (<[i := SE (TV 0 0) 0 None None None]> (s_mem s)) (s_draws s)) v in
  let v := put_client i (Client real false false false 0 (-1) false 0 0 None) v in
  let err v := v ← multi_close_instance now i false v; Ret (None, v) in
  if sig then err v
  else if decide (n_elements (v_hash v) >= v_max_clients v) then err v
  else
    '(ok, h) ← hash_add real i false (s_iter (v_switch v));
    let v := set_switch (set_iter h (v_switch v)) v in
    if negb ok then err v
    else
      k ← get_client i v;
      '(ok, v) ← multi_process_post now fuel i p MPP_PRE_SELECT (put_client i (set_did (k_did_real_hash k) true k) v);
      if negb ok then err v else Ret (Some i, v).

(** The client of a packet's transport address: a known one, or a new one when the
    packet may begin a connection ([lite]) and they do not come too fast. *)
Definition multi_get_create_instance_udp (now : Z) (fuel : nat) (from : openvpn_sockaddr) (junk : mroute_addr) (lite : bool)
    (x : multi_instance) (sig : bool) (a : inactivity) (p : post) (v : server) : outcome (option nat * server) :=
  let '(ok, real) := mroute_extract_openvpn_sockaddr from true junk in
  '(mi, v) ←
    (if ok : bool then
       let hv := hash_value (v_hash v) real in
       let bucket := bucket_index (v_hash v) hv in
       b ← of_option (buckets (v_hash v) !! bucket);
       '(he, b) ← hash_lookup_fast real hv b;
       let v := set_hash (set_bucket bucket b (n_elements (v_hash v)) (v_hash v)) v in
       match he with
       | Some he => Ret (Some (he_value he), v)
       | None =>
           if lite then
             '(allowed, f) ← frequency_limit_event_allowed now (v_limiter v);
             let v := set_limiter f v in
             if allowed : bool then
               '(mi, v) ← multi_create_instance now fuel real x sig a p v;
               match mi with
               | Some i =>
                   k ← get_client i v;
                   h ← hash_add_fast bucket (k_real k) hv i (v_hash v);
                   Ret (Some i, put_client i (set_did true (k_did_iter k) k) (set_hash h v))
               | None => Ret (None, v)
               end
             else Ret (None, v)
           else Ret (None, v)
       end
     else Ret (None, v));
  match mi with
  | Some i => x ← get_instance i (v_multi v); ASSERT (mi_halt x = false);; Ret (mi, v)
  | None => Ret (mi, v)
  end.
End events.

(** ** Output *)

(** The next packet of the queue and its client, in whose context it is encrypted. *)
Definition multi_get_queue (v : server) : outcome (option (nat * mbuf_buffer) * server) :=
  '(item, ms) ← mbuf_extract_item (s_mbuf (v_switch v));
  match item with
  | Some item =>
      mi ← of_option (mi_instance item);
      _ ← get_client mi v;
      b ← of_option (mi_buffer item);
      mb ← of_option (s_heap (v_switch v) !! b);
      h ← mbuf_free_buf (Some b) (s_heap (v_switch v));
      Ret (Some (mi, mb), set_switch (set_queue ms h (v_switch v)) v)
  | None => Ret (None, set_switch (set_queue ms (s_heap (v_switch v)) (v_switch v)) v)
  end.

(** ** Waiting *)

Definition REAP_MAX_WAKEUP : Z := 10.
(** The time to wait at [current], and the client to be served then. *)
Definition multi_get_timeout (current : timeval) (v : server) : outcome (timeval * server) :=
  '(r, s) ← schedule_get_earliest_wakeup (depth (v_schedule v)) (v_schedule v);
  let v := set_schedule s v in
  match r with
  | Some (mi, tv) =>
      dest ← tv_delta 3 current tv;
      if decide (tv_sec dest >= REAP_MAX_WAKEUP) then Ret (TV REAP_MAX_WAKEUP 0, set_earliest_wakeup None v)
      else Ret (dest, set_earliest_wakeup (Some mi) v)
  | None => Ret (TV REAP_MAX_WAKEUP 0, set_earliest_wakeup None v)
  end.
