(* ===== verification/OvpnServerLoop.v ===== *)
(** * OpenVPN: the event loop of a UDP server

    Models [multi_init] in [openvpn/src/src/openvpn/multi.c], the handlers of the events of
    a UDP server in [multi.c] and [mudp.c], and the loop of
    [tunnel_server_udp_single_threaded], with the waiting of [io_wait] in [forward.c].  One
    iteration waits until a client is to be woken or something can be read or written,
    and handles that.

    What is read, encrypted or decrypted, what becomes of the context of a client and what
    the system answers are arguments ([link_input], [tun_input], [post], [io_answer]).
    Signals end the loop; printing the status, the file of the pool, the management
    interface and [gremlin] are left out. *)
From stdpp Require Import gmap.
From S2P Require Import Prelude OvpnBuffer OvpnPacketId OvpnFrame OvpnList OvpnMbuf OvpnTime OvpnSchedule OvpnPool OvpnProto OvpnMroute OvpnPf OvpnMulti OvpnSwitch OvpnServer.
#[local] Open Scope bool_scope.
#[local] Open Scope Z_scope.

(** ** The server when it starts *)

(** The options of [multi_init], and the device's address. *)
Record server_options := ServerOptions {
  so_dev : Z;
  so_topology : Z;
  so_real_hash_size : Z;
  so_virtual_hash_size : Z;
  so_cf_max : Z;
  so_cf_per : Z;
  so_n_bcast_buf : Z;
  so_pool : option (Z * Z);
  so_duplicate_cn : bool;
  so_ipv6_pool : option (list Z * Z);
  so_local : Z;
  so_max_clients : Z;
  so_tcp_queue_limit : Z;
  so_enable_c2c : bool;
}.
Definition init_pool (o : server_options) : outcome (option ifconfig_pool) :=
  match so_pool o with
  | Some (start, end_) =>
      let pool_type := if decide (so_dev o = DEV_TYPE_TUN ∧ so_topology o = TOP_NET30) then IFCONFIG_POOL_30NET else IFCONFIG_POOL_INDIV in
      let '(base, bits) := default (replicate 16 0, 0) (so_ipv6_pool o) in
      p ← ifconfig_pool_init pool_type start end_ (so_duplicate_cn o) (bool_decide (is_Some (so_ipv6_pool o))) base bits;
      Ret (Some p)
  | None => Ret None
  end.
(** [r1], [r2] and [r3] are what [get_random] answers. *)
Definition multi_init (little : bool) (o : server_options) (r1 r2 r3 now : Z) : outcome server :=
  h ← hash_init (so_real_hash_size o) r1;
  m ← multi_init_routing little (so_virtual_hash_size o) r2 now (so_local o);
  iter ← hash_init 1 r3;
  f ← frequency_limit_init (so_cf_max o) (so_cf_per o);
  ms ← mbuf_init (so_n_bcast_buf o);
  p ← init_pool o;
  Ret (Server (Switch m iter ms ∅ ∅ (so_enable_c2c o) (so_tcp_queue_limit o)) h ∅ (schedule_init ∅ 0) p f None None 0 (so_max_clients o)).

(** ** Events *)

(** What comes with a packet from the socket: its address, what is there before it is
    extracted, what [tls_pre_decrypt_lite] says, a new instance and how its creation goes,
    the packet, and what it is decrypted to. *)
Record link_input := LinkInput {
  li_from : openvpn_sockaddr;
  li_junk : mroute_addr;
  li_lite : bool;
  li_instance : multi_instance;
  li_sig : bool;
  li_activity : inactivity;
  li_new : post;
  li_packet : buffer;
  li_decrypted : buffer;
}.
(** A packet from the device, and what the buffer of the client that gets it is like. *)
Record tun_input := TunInput { ti_packet : buffer; ti_c2_buf : nat → buffer }.

Section loop.
Context (little : bool) (script : option nat → learn_op → mroute_addr → bool) (random : nat → Z) (tun : tun_info).
Context (junk_src junk_dest junk_ext : mroute_addr).

Definition process_post := multi_process_post little script random tun.

(** [multi_process_incoming_link] without an instance; also what is in [to_tun] of the
    client, unless there is no packet. *)
Definition udp_incoming_link (now : Z) (fuel : nat) (li : link_input) (p : post) (flags : Z) (v : server) :
    outcome (bool * option (nat * buffer) * server) :=
  match v_pending v with
  | Some _ => Ret (true, None, v)
  | None =>
      '(mi, v) ← multi_get_create_instance_udp little script random tun now fuel (li_from li) (li_junk li) (li_lite li)
        (li_instance li) (li_sig li) (li_activity li) (li_new li) v;
      let v := multi_set_pending mi v in
      match mi with
      | Some i =>
          '(to_tun, v) ←
            (if decide (buf_len (li_packet li) > 0) then
               '(b, s) ← multi_process_incoming_link little script junk_src junk_dest junk_ext (tt_type tun) now i (li_decrypted li) (v_switch v);
               Ret (Some (i, b), set_switch s v)
             else Ret (None, v));
          '(ret, v) ← process_post now fuel i p flags v;
          Ret (ret, to_tun, v)
      | None => Ret (true, None, v)
      end
  end.

(** [multi_process_incoming_tun]; also the client that gets the packet, and the packet in
    its buffer before encryption. *)
Definition udp_incoming_tun (now : Z) (fuel : nat) (ti : tun_input) (p : post) (flags : Z) (v : server) :
    outcome (bool * option (nat * buffer) * server) :=
  if decide (buf_len (ti_packet ti) > 0) then
    match v_pending v with
    | Some _ => Ret (true, None, v)
    | None =>
        '(o, s) ← multi_process_incoming_tun little script junk_src junk_dest junk_ext (tt_type tun) now (ti_packet ti) (ti_c2_buf ti) (v_switch v);
        let v := set_switch s v in
        match o with
        | Some (i, b) =>
            '(ret, v) ← process_post now fuel i p flags (multi_set_pending (Some i) v);
            Ret (ret, Some (i, b), v)
        | None => Ret (true, None, v)
        end
    end
  else Ret (true, None, v).

(** The client that sends; with a packet when it is one of the queue. *)
Definition multi_process_outgoing_link_pre (v : server) : outcome (option (nat * option mbuf_buffer) * server) :=
  match v_pending v with
  | Some i => Ret (Some (i, None), v)
  | None =>
      if mbuf_defined (Some (s_mbuf (v_switch v))) then
        '(o, v) ← multi_get_queue v;
        Ret (match o with Some (i, mb) => Some (i, Some mb) | None => None end, v)
      else Ret (None, v)
  end.
Definition multi_process_outgoing_link (now : Z) (fuel : nat) (p : post) (flags : Z) (v : server) :
    outcome (option (nat * option mbuf_buffer) * server) :=
  '(o, v) ← multi_process_outgoing_link_pre v;
  match o with
  | Some (i, _) => '(_, v) ← process_post now fuel i p flags v; Ret (o, v)
  | None => Ret (None, v)
  end.
Definition multi_process_outgoing_tun (now : Z) (fuel : nat) (p : post) (flags : Z) (v : server) : outcome (bool * server) :=
  match v_pending v with
  | Some mi => process_post now fuel mi p flags v
  | None => Abort
  end.
Definition multi_process_timeout (now : Z) (fuel : nat) (p : post) (flags : Z) (v : server) : outcome (bool * server) :=
  match v_earliest_wakeup v with
  | Some mi => '(ret, v) ← process_post now fuel mi p flags v; Ret (ret, set_earliest_wakeup None v)
  | None => Ret (true, v)
  end.

(** [stale]: the ageing time, when it is time to look for stale routes. *)
Definition multi_process_per_second_timers_dowork (now : Z) (stale : option Z) (v : server) : outcome server :=
  m ← multi_reap_process now (v_multi v);
  m ← (match stale with Some ageing_time => check_stale_routes now ageing_time m | None => Ret m end);
  Ret (with_multi m v).
Definition multi_process_per_second_timers (now : Z) (stale : option Z) (trigger : Z) (v : server) : outcome (Z * server) :=
  if decide (trigger ≠ now) then v ← multi_process_per_second_timers_dowork now stale v; Ret (now, v) else Ret (trigger, v).

(** *** Waiting for input and output *)

Definition EVENT_READ : Z := 1.
Definition EVENT_WRITE : Z := 2.
Definition SOCKET_READ : Z := 1.
Definition SOCKET_WRITE : Z := 2.
Definition TUN_READ : Z := 4.
Definition TUN_WRITE : Z := 8.
Definition ES_ERROR : Z := 16.
Definition ES_TIMEOUT : Z := 32.
Definition IOW_TO_TUN : Z := 1.
Definition IOW_TO_LINK : Z := 2.
Definition IOW_READ_TUN : Z := 4.
Definition IOW_READ_LINK : Z := 8.
Definition IOW_SHAPER : Z := 16.
Definition IOW_CHECK_RESIDUAL : Z := 32.
Definition IOW_FRAG : Z := 64.
Definition IOW_MBUF : Z := 128.
Definition IOW_READ_TUN_FORCE : Z := 256.
Definition IOW_WAIT_SIGNAL : Z := 512.
Definition IOW_READ : Z := Z.lor IOW_READ_TUN IOW_READ_LINK.

(** What the context and the system say while it waits: a signal before, the delay of the
    shaper when there is one, a fragment that waits, data left in the socket, and the
    events, each with its shift; [None] is an error of [event_wait], which answers events
    that were asked for only. *)
Record io_answer := IoAnswer {
  io_signal : bool;
  io_shaper : option Z;
  io_to_link_frag : bool;
  io_residual : bool;
  io_events : option (list (Z * Z));
}.
(** The events asked for: of the socket, and of the device. *)
Definition io_wait_request (flags : Z) (a : io_answer) : Z * Z :=
  let ask (b : bool) (x ev : Z) := if b then Z.lor x ev else x in
  let to_link := bool_decide (Z.land flags IOW_TO_LINK ≠ 0) in
  let to_tun := bool_decide (Z.land flags IOW_TO_TUN ≠ 0) in
  let delay := Z.max 0 (default 0 (io_shaper a)) in
  let socket := ask (to_link && (bool_decide (Z.land flags IOW_SHAPER = 0) || bool_decide (delay < 1000))) 0 EVENT_WRITE in
  let tuntap := ask (negb to_link && negb (bool_decide (Z.land flags IOW_FRAG ≠ 0) && io_to_link_frag a)
                     && bool_decide (Z.land flags IOW_READ_TUN ≠ 0)) 0 EVENT_READ in
  let tuntap := ask to_tun tuntap EVENT_WRITE in
  let socket := ask (negb to_tun && bool_decide (Z.land flags IOW_READ_LINK ≠ 0)) socket EVENT_READ in
  let socket := ask (bool_decide (Z.land flags IOW_MBUF ≠ 0)) socket EVENT_WRITE in
  let tuntap := ask (bool_decide (Z.land flags IOW_READ_TUN_FORCE ≠ 0)) tuntap EVENT_READ in
  (socket, tuntap).
Definition event_set_status (es : list (Z * Z)) : Z :=
  foldl (λ s '(shift, rwflags), Z.lor s (Z.shiftl (Z.land rwflags 3) shift)) 0 es.
Definition io_wait_dowork (flags : Z) (a : io_answer) : Z :=
  if negb (io_signal a) then
    if bool_decide (Z.land flags IOW_CHECK_RESIDUAL = 0) || negb (io_residual a) then
      match io_events a with
      | Some [] => ES_TIMEOUT
      | Some es => event_set_status es
      | None => ES_ERROR
      end
    else SOCKET_READ
  else ES_ERROR.
Definition io_wait (fast_io : bool) (flags : Z) (a : io_answer) : Z :=
  if fast_io && bool_decide (Z.land flags (Z.lor (Z.lor IOW_TO_TUN IOW_TO_LINK) IOW_MBUF) ≠ 0) then
    let ret := if decide (Z.land flags IOW_TO_TUN ≠ 0) then TUN_WRITE else 0 in
    if decide (Z.land flags (Z.lor IOW_TO_LINK IOW_MBUF) ≠ 0) then Z.lor ret SOCKET_WRITE else ret
  else io_wait_dowork flags a.

(** [tun_out] and [link_out]: the pending client has output. *)
Definition p2mp_iow_flags (tun_out link_out : bool) (v : server) : Z :=
  match v_pending v with
  | Some _ =>
      let flags := if tun_out then Z.lor IOW_WAIT_SIGNAL IOW_TO_TUN else IOW_WAIT_SIGNAL in
      if link_out then Z.lor flags IOW_TO_LINK else flags
  | None => if mbuf_defined (Some (s_mbuf (v_switch v))) then Z.lor IOW_WAIT_SIGNAL IOW_MBUF else Z.lor IOW_WAIT_SIGNAL IOW_READ
  end.

(** ** The loop *)

(** What an iteration meets: the time before and after it waits; output of the pending
    client; the answer to [io_wait]; a signal to the server, after waiting and after
    reading; and the input. *)
Record turn := Turn {
  t_current : timeval;
  t_now : Z;
  t_tun_out : bool;
  t_link_out : bool;
  t_fast_io : bool;
  t_answer : io_answer;
  t_signal : bool;
  t_read_signal : bool;
  t_stale : option Z;
  t_link : link_input;
  t_tun : tun_input;
  t_post : post;
}.
Definition multi_process_io_udp (fuel : nat) (t : turn) (status : Z) (v : server) : outcome server :=
  let mpp_flags := Z.lor (if t_fast_io t then MPP_CONDITIONAL_PRE_SELECT else MPP_PRE_SELECT) MPP_CLOSE_ON_SIGNAL in
  if decide (Z.land status SOCKET_WRITE ≠ 0) then
    '(_, v) ← multi_process_outgoing_link (t_now t) fuel (t_post t) mpp_flags v; Ret v
  else if decide (Z.land status TUN_WRITE ≠ 0) then
    '(_, v) ← multi_process_outgoing_tun (t_now t) fuel (t_post t) mpp_flags v; Ret v
  else if decide (Z.land status SOCKET_READ ≠ 0) then
    if t_read_signal t then Ret v
    else '(_, v) ← udp_incoming_link (t_now t) fuel (t_link t) (t_post t) mpp_flags v; Ret v
  else if decide (Z.land status TUN_READ ≠ 0) then
    if t_read_signal t then Ret v
    else '(_, v) ← udp_incoming_tun (t_now t) fuel (t_tun t) (t_post t) mpp_flags v; Ret v
  else Ret v.
(** An iteration of the loop; [trigger] is [per_second_trigger]. *)
Definition server_turn (fuel : nat) (t : turn) (trigger : Z) (v : server) : outcome (Z * server) :=
  '(_, v) ← multi_get_timeout (t_current t) v;
  let status := io_wait (t_fast_io t) (p2mp_iow_flags (t_tun_out t) (t_link_out t) v) (t_answer t) in
  if t_signal t then Ret (trigger, v)
  else
    '(trigger, v) ← multi_process_per_second_timers (t_now t) (t_stale t) trigger v;
    v ← (if decide (status = ES_TIMEOUT) then
           '(_, v) ← multi_process_timeout (t_now t) fuel (t_post t) (Z.lor MPP_PRE_SELECT MPP_CLOSE_ON_SIGNAL) v; Ret v
         else multi_process_io_udp fuel t status v);
    Ret (trigger, v).
End loop.
