(* ===== verification/OvpnServerProofs.v ===== *)
(** * OpenVPN: the clients of a UDP server, proved

    What each component holds is stated about the clients there are, a finite map: the
    tables lead to them ([table_of]), the entries in use of the pool are theirs
    ([pool_holds]), and only they are scheduled or wait in the queue.  [tracks] puts these
    together; the operations are steps on the map. *)
From stdpp Require Import gmap.
From S2P Require Import Prelude OvpnBuffer OvpnPacketId OvpnFrame OvpnList OvpnMbuf OvpnMbufProofs OvpnTime OvpnSchedule OvpnScheduleProofs OvpnScheduleProps OvpnPool OvpnPoolProofs OvpnProto OvpnProtoProofs OvpnMroute OvpnMrouteProofs OvpnPf OvpnPfProofs OvpnMulti OvpnMultiProofs OvpnMultiOpsProofs OvpnSwitch OvpnSwitchProofs OvpnServer.
#[local] Open Scope bool_scope.
#[local] Open Scope Z_scope.

(** ** Tables of transport addresses *)

(** The geometry of a table, which no operation changes. *)
Definition shape {K V} (h : hash K V) : Z * Z * Z := (n_buckets h, mask h, iv h).
Lemma shape_index {K V} `{Hashable K} (h h' : hash K V) k : shape h' = shape h → key_index h' k = key_index h k ∧ hash_value h' k = hash_value h k.
Proof. unfold shape, key_index, hash_value, bucket_index. by intros [= _ -> ->]. Qed.
Lemma remove_shape {K V} `{Hashable K} (h h' : hash K V) k b : hash_remove k h = Ret (b, h') → shape h' = shape h.
Proof.
  unfold hash_remove, hash_remove_fast. destruct (buckets h !! _); [|done]. cbn [of_option]. bret.
  destruct (hash_search _ _ _) as [[j|]| | |]; try done; bret; [destruct (int _); [bret|done..]|]; by intros [= _ <-].
Qed.
Lemma assoc_none {K V} `{Hashable K} (h : hash K V) k b : assoc h k = None → buckets h !! key_index h k = Some b → hits k b = [].
Proof. unfold assoc. intros Ha Hb. rewrite Hb in Ha. change (default [] (Some b)) with b in Ha. destruct (hits k b); [done|discriminate Ha]. Qed.

Section tables.
Context (flag : client → bool).

(** The table leads to exactly the clients with the flag, by their transport addresses. *)
Definition table_of (C : gmap nat client) (h : hash mroute_addr nat) : Prop :=
  wf_hash h ∧ (∀ i k, C !! i = Some k → flag k = true → assoc h (k_real k) = Some i) ∧
  ∀ a i, assoc h a = Some i → ∃ k, C !! i = Some k ∧ flag k = true ∧ mroute_addr_equal a (k_real k) = true.

Lemma table_same C h i j a : table_of C h → assoc h a = Some i → assoc h a = Some j → i = j.
Proof. congruence. Qed.

Lemma table_skip C h i : (∀ k, C !! i = Some k → flag k = false) → table_of C h → table_of (delete i C) h.
Proof.
  intros Hf (Hw & Hc & Hs). split; [done|]. split.
  - intros j k [_ Hj]%lookup_delete_Some. by apply Hc.
  - intros a j Ha. destruct (Hs a j Ha) as (k & Hk & Hfk & He). exists k. split; [|done]. rewrite lookup_delete_ne; [done|].
    intros ->. specialize (Hf k Hk). congruence.
Qed.
Lemma table_remove C h i k : table_of C h → C !! i = Some k → flag k = true →
  ∃ h', hash_remove (k_real k) h = Ret (true, h') ∧ table_of (delete i C) h' ∧ shape h' = shape h ∧ n_elements h' = n_elements h - 1.
Proof.
  intros (Hw & Hc & Hs) Hk Hf. pose proof (Hc _ _ Hk Hf) as Ha.
  destruct (hash_remove_ok h (k_real k) Hw) as (h' & E & Hw' & _ & Hn & Ha'). exists h'.
  rewrite bool_decide_eq_true_2 in E by congruence. rewrite decide_False in Hn by congruence.
  split; [done|]. split; [|split; [by eapply remove_shape|done]]. split; [done|]. split.
  - intros j k' [Hne Hj]%lookup_delete_Some Hf'. rewrite Ha'. pose proof (Hc _ _ Hj Hf') as Haj.
    destruct (compare_function (k_real k) (k_real k')) eqn:Ec; [|done]. exfalso. apply Hne.
    rewrite (assoc_equal h (k_real k)) in Haj by done. congruence.
  - intros a j. rewrite Ha'. destruct (compare_function (k_real k) a) eqn:Ec; [done|]. intros Haj.
    destruct (Hs a j Haj) as (k' & Hk' & Hf' & He). exists k'. split; [|done]. rewrite lookup_delete_ne; [done|]. intros <-.
    rewrite Hk in Hk'. injection Hk' as <-. apply equal_sym in He. change (mroute_addr_equal (k_real k) a = false) in Ec. congruence.
Qed.
(** A client changes, but for its flag and its address. *)
Lemma table_update C h i k k' : table_of C h → C !! i = Some k → flag k' = flag k → k_real k' = k_real k → table_of (<[i := k']> C) h.
Proof.
  intros (Hw & Hc & Hs) Hk Hf Hr. split; [done|]. split.
  - intros j kj [[<- <-]|[_ Hj]]%lookup_insert_Some; [|by apply Hc]. rewrite Hf, Hr. by apply Hc.
  - intros a j Ha. destruct (Hs a j Ha) as (kj & Hj & Hfj & He). destruct (decide (j = i)) as [->|].
    + exists k'. rewrite lookup_insert_eq. rewrite Hk in Hj. injection Hj as <-. by rewrite Hf, Hr.
    + exists kj. by rewrite lookup_insert_ne.
Qed.
(** A client without the flag. *)
Lemma table_without C h i k : table_of C h → (∀ k0, C !! i = Some k0 → flag k0 = false) → flag k = false → table_of (<[i := k]> C) h.
Proof.
  intros (Hw & Hc & Hs) Hi Hf. split; [done|]. split.
  - intros j kj [[<- <-]|[_ Hj]]%lookup_insert_Some; [congruence|by apply Hc].
  - intros a j Ha. destruct (Hs a j Ha) as (kj & Hj & Hfj & He). exists kj. split; [|done]. rewrite lookup_insert_ne; [done|].
    intros ->. specialize (Hi kj Hj). congruence.
Qed.
(** A client gets its flag when the table has got it. *)
Lemma table_with C h h' i k k' : table_of C h → C !! i = Some k → flag k = false → flag k' = true → k_real k' = k_real k →
  assoc h (k_real k) = None → wf_hash h' → (∀ a, assoc h' a = if compare_function (k_real k) a then Some i else assoc h a) →
  table_of (<[i := k']> C) h'.
Proof.
  intros (Hw & Hc & Hs) Hk Hf Hf' Hr Ha Hw' Ha'. split; [done|]. split.
  - intros j kj [[<- <-]|[Hne Hj]]%lookup_insert_Some Hfj; rewrite Ha'.
    + rewrite Hr. change (compare_function (k_real k) (k_real k)) with (mroute_addr_equal (k_real k) (k_real k)). by rewrite equal_refl.
    + destruct (compare_function (k_real k) (k_real kj)) eqn:Ec; [|by apply Hc]. pose proof (Hc _ _ Hj Hfj) as Haj.
      rewrite (assoc_equal h (k_real k)) in Haj by done. congruence.
  - intros a j. rewrite Ha'. destruct (compare_function (k_real k) a) eqn:Ec.
    + intros [= <-]. exists k'. rewrite lookup_insert_eq, Hr. split; [done|]. split; [done|]. by apply equal_sym.
    + intros Haj. destruct (Hs a j Haj) as (kj & Hj & Hfj & He). exists kj. split; [|done]. rewrite lookup_insert_ne; [done|].
      intros <-. rewrite Hk in Hj. injection Hj as <-. congruence.
Qed.

(** Looking an address up only moves an element. *)
Lemma table_lookup C h a b he b' : table_of C h → buckets h !! key_index h a = Some b →
  wf_hash (set_bucket (key_index h a) b' (n_elements h) h) → (∀ k', assoc (set_bucket (key_index h a) b' (n_elements h) h) k' = assoc h k') →
  found h a he b' → table_of C (set_bucket (key_index h a) b' (n_elements h) h).
Proof.
  intros (Hw & Hc & Hs) Hb Hw' Ha' _. split; [done|]. split; intros *; rewrite Ha'; [apply Hc|apply Hs].
Qed.
End tables.

(** *** Its values *)

Definition values (h : hash mroute_addr nat) : list nat := he_value <$> concat (buckets h).
Definition real_of (C : gmap nat client) (i : nat) : option mroute_addr := k_real <$> C !! i.

Lemma rest_all (h : hash mroute_addr nat) : rest (length (buckets h)) h 0 = concat (buckets h).
Proof. unfold rest. by rewrite drop_0, firstn_all. Qed.
Lemma table_keyed flag C h : table_of flag C h → ∀ k id, assoc h k = Some id → ∃ a, real_of C id = Some a ∧ mroute_addr_equal k a = true.
Proof. intros (_ & _ & Hs) k id (c & Hc & _ & He)%Hs. exists (k_real c). unfold real_of. by rewrite Hc. Qed.
Lemma table_values flag C h : table_of flag C h → NoDup (values h) ∧ ∀ j, j ∈ values h ↔ ∃ k, C !! j = Some k ∧ flag k = true.
Proof.
  intros Ht. pose proof Ht as (Hw & Hc & Hs). pose proof (table_keyed flag C h Ht) as Hk. unfold values. rewrite <- rest_all. split.
  - eapply (keyed_nodup h (real_of C) Hw Hk); [done|done|lia].
  - intros j. split.
    + intros (e & -> & (i & b & _ & Hb & He)%elem_rest)%list_elem_of_fmap. destruct (elem_key h (real_of C) Hw Hk i b e Hb He) as (a & Ha & Hm & Hi).
      pose proof Hw as (_ & _ & _ & _ & Hbs). destruct (Hbs _ _ Hb) as [_ Hu]. specialize (Hu a).
      assert (e ∈ hits a b) as Hin by (by apply list_elem_of_filter).
      assert (assoc h a = Some (he_value e)) as Hae.
      { unfold assoc. rewrite Hi, Hb. change (default [] (Some b)) with b.
        destruct (hits a b) as [|x [|y l]]; [by apply elem_of_nil in Hin| |cbn in Hu; lia]. by apply list_elem_of_singleton in Hin as ->. }
      destruct (Hs _ _ Hae) as (k & Hk' & Hf & _). by exists k.
    + intros (k & Hj & Hf). apply (keyed_value h (real_of C) Hw Hk _ _ j (k_real k)); [unfold real_of; by rewrite Hj|by apply Hc|].
      pose proof (key_index_lt h (k_real k) Hw). lia.
Qed.

(** ** The pool *)

(** The entries in use are the clients' own, each with one. *)
Definition pool_of (C : gmap nat client) (p : ifconfig_pool) : Prop :=
  pool_ok p ∧
  (∀ i k, C !! i = Some k → k_vaddr_handle k = -1 ∨
     ∃ n e, k_vaddr_handle k = Z.of_nat n ∧ plist p !! n = Some e ∧ in_use e = true) ∧
  (∀ n e, plist p !! n = Some e → in_use e = true → ∃ i k, C !! i = Some k ∧ k_vaddr_handle k = Z.of_nat n) ∧
  ∀ i j k k', C !! i = Some k → C !! j = Some k' → 0 ≤ k_vaddr_handle k → k_vaddr_handle k = k_vaddr_handle k' → i = j.
Definition pool_holds (C : gmap nat client) (o : option ifconfig_pool) : Prop :=
  match o with Some p => pool_of C p | None => ∀ i k, C !! i = Some k → k_vaddr_handle k = -1 end.

(** Changing a client but for its handle. *)
Lemma pool_update C o i k k' : pool_holds C o → C !! i = Some k → k_vaddr_handle k' = k_vaddr_handle k → pool_holds (<[i := k']> C) o.
Proof.
  intros Hp Hk Hh. assert (∀ j kj, <[i := k']> C !! j = Some kj → ∃ kj0, C !! j = Some kj0 ∧ k_vaddr_handle kj = k_vaddr_handle kj0) as Hl.
  { intros j kj [[<- <-]|[_ Hj]]%lookup_insert_Some; eauto. }
  destruct o as [p|]; cbn in *.
  - destruct Hp as (Hok & Hu & Hc & Hd). split; [done|]. split; [|split].
    + intros j kj (kj0 & Hj & ->)%Hl. by apply (Hu j).
    + intros n e Hn He. destruct (Hc n e Hn He) as (j & kj & Hj & Hhj). exists j. destruct (decide (j = i)) as [->|].
      * exists k'. rewrite lookup_insert_eq. rewrite Hk in Hj. injection Hj as <-. by rewrite Hh.
      * exists kj. by rewrite lookup_insert_ne.
    + intros j1 j2 k1 k2 (k1' & H1 & ->)%Hl (k2' & H2 & ->)%Hl. by apply Hd.
  - intros j kj (kj0 & Hj & ->)%Hl. by apply (Hp j).
Qed.
(** A client without an address comes or goes. *)
Lemma pool_without C o i k : pool_holds C o → C !! i = None → k_vaddr_handle k = -1 → pool_holds (<[i := k]> C) o.
Proof.
  intros Hp Hi Hh. destruct o as [p|]; cbn in *.
  - destruct Hp as (Hok & Hu & Hc & Hd). split; [done|]. split; [|split].
    + intros j kj [[<- <-]|[_ Hj]]%lookup_insert_Some; [by left|by apply (Hu j)].
    + intros n e Hn He. destruct (Hc n e Hn He) as (j & kj & Hj & Hhj). exists j, kj. rewrite lookup_insert_ne; [done|congruence].
    + intros j1 j2 k1 k2 [[<- <-]|[_ H1]]%lookup_insert_Some [[<- <-]|[_ H2]]%lookup_insert_Some; [done|lia|lia|by apply Hd].
  - intros j kj [[<- <-]|[_ Hj]]%lookup_insert_Some; [done|by apply (Hp j)].
Qed.
(** Other clients' handles are not in use by a client that had [n]. *)
Definition others (C C' : gmap nat client) (i : nat) : Prop := ∀ j, j ≠ i → C' !! j = C !! j.

(** The client's entry is free again. *)
Lemma pool_release now hard C C' p i k :
  pool_of C p → C !! i = Some k → others C C' i → (∀ k', C' !! i = Some k' → k_vaddr_handle k' = -1) →
  ∃ b p', ifconfig_pool_release now (k_vaddr_handle k) hard p = Ret (b, p') ∧ pool_of C' p'.
Proof.
  intros (Hok & Hu & Hc & Hd) Hk Ho Hi. destruct (Hu i k Hk) as [Hh|(n & e & Hh & He & Hin)]; rewrite Hh.
  - exists false, p. split; [done|]. split; [done|]. split; [|split].
    + intros j kj Hj. destruct (decide (j = i)) as [->|Hne]; [left; by apply Hi|]. rewrite Ho in Hj by done. by apply (Hu j).
    + intros m e Hm He. destruct (Hc m e Hm He) as (j & kj & Hj & Hhj). exists j, kj. rewrite Ho; [done|]. intros ->. rewrite Hk in Hj. injection Hj as <-. lia.
    + intros j1 j2 k1 k2 H1 H2 Hp He. destruct (decide (j1 = i)) as [->|]; [rewrite (Hi _ H1) in *; lia|].
      destruct (decide (j2 = i)) as [->|]; [rewrite (Hi _ H2) in *; lia|]. rewrite Ho in H1, H2 by done. by eapply Hd.
  - rewrite (release_ok now n hard p e Hok He). eexists _, _. split; [done|]. split; [by apply set_entry_ok|]. pose proof (lookup_lt_Some _ _ _ He) as Hlt. split; [|split].
    + intros j kj Hj. destruct (decide (j = i)) as [->|Hne]; [left; by apply Hi|]. rewrite Ho in Hj by done.
      destruct (Hu j kj Hj) as [|(m & e' & Hm & He' & Hin')]; [by left|right]. exists m, e'. split; [done|]. cbn. rewrite list_lookup_insert_ne; [done|].
      intros <-. apply Hne. eapply Hd; [done|done|lia|congruence].
    + cbn. intros m e' [(<- & <- & _)|[Hne Hm]]%list_lookup_insert_Some Hin'; [done|]. destruct (Hc m e' Hm Hin') as (j & kj & Hj & Hhj).
      exists j, kj. rewrite Ho; [done|]. intros ->. rewrite Hk in Hj. injection Hj as <-. lia.
    + intros j1 j2 k1 k2 H1 H2 Hp He'. destruct (decide (j1 = i)) as [->|]; [rewrite (Hi _ H1) in *; lia|].
      destruct (decide (j2 = i)) as [->|]; [rewrite (Hi _ H2) in *; lia|]. rewrite Ho in H1, H2 by done. by eapply Hd.
Qed.

(** What a lease may hold. *)
Definition lease_ok (l : option lease) : Prop :=
  match l with Some l => is_u32 (remote l) ∧ (∀ b, remote_ipv6 l = Some b → length b = 16%nat ∧ Forall is_byte b) | None => True end.

(** A client without an entry gets a free one, or none. *)
Lemma pool_acquire now cn C p i k :
  pool_of C p → C !! i = Some k → k_vaddr_handle k < 0 →
  ∃ h l p', ifconfig_pool_acquire now true cn p = Ret (h, l, p') ∧ lease_ok l ∧ ∀ k', k_vaddr_handle k' = h → pool_of (<[i := k']> C) p'.
Proof.
  intros Hp Hk Hneg. pose proof Hp as (Hok & Hu & Hc & Hd). destruct (acquire_ok now true p cn Hok) as (r & l & p' & E & _ & Hr).
  exists (handle r), l, p'. split; [done|]. assert (k_vaddr_handle k = -1) as Hh by (destruct (Hu i k Hk) as [|(n & e & H & _)]; [done|lia]).
  destruct r as [n|]; cbn [handle].
  2: { destruct Hr as [-> ->]. split; [done|]. intros k' Hk'. apply (pool_update C (Some p) i k); [done|done|congruence]. }
  destruct Hr as (e & a6 & He & Hin & -> & -> & H6). pose proof (lookup_lt_Some _ _ _ He) as Hlt. split.
  { pose proof (remote_between p (Z.of_nat n) Hok). destruct Hok as (Hl & Hs & _ & Hb & Hmax & _). unfold step_of in *. split.
    - cbn. unfold is_u32. case_decide; lia.
    - cbn. intros b ->. apply H6. }
  intros k' Hk'. split; [by apply set_entry_ok|]. split; [|split].
  - intros j kj [[<- <-]|[Hne Hj]]%lookup_insert_Some.
    + right. exists n. eexists. split; [done|]. cbn. by rewrite list_lookup_insert_eq.
    + destruct (Hu j kj Hj) as [|(m & e' & Hm & He' & Hin')]; [by left|right]. exists m, e'. split; [done|]. cbn. rewrite list_lookup_insert_ne; [done|congruence].
  - cbn. intros m e' [(<- & <- & _)|[Hne Hm]]%list_lookup_insert_Some Hin'; [exists i, k'; by rewrite lookup_insert_eq|].
    destruct (Hc m e' Hm Hin') as (j & kj & Hj & Hhj). exists j, kj. rewrite lookup_insert_ne; [done|]. intros ->. rewrite Hk in Hj. injection Hj as <-. lia.
  - assert (∀ j kj, C !! j = Some kj → k_vaddr_handle kj ≠ Z.of_nat n) as Hfree.
    { intros j kj Hj Hn. destruct (Hu j kj Hj) as [|(m & e' & Hm & He' & Hin')]; [lia|]. assert (m = n) as -> by lia. congruence. }
    intros j1 j2 k1 k2 [[<- <-]|[Hn1 H1]]%lookup_insert_Some [[<- <-]|[Hn2 H2]]%lookup_insert_Some Hpos Heq; [done| | |by eapply Hd].
    + destruct (Hfree _ _ H2). congruence.
    + destruct (Hfree _ _ H1). congruence.
Qed.

(** ** The scheduler *)

(** Every client has its entry, and only clients are scheduled. *)
Definition schedule_of (C : gmap nat client) (s : schedule) : Prop :=
  treap_ok s ∧ (∀ i, is_Some (C !! i) → is_Some (s_mem s !! i)) ∧ ∀ i, is_Some (scheduled s !! i) → is_Some (C !! i).

Lemma scheduled_depth s : (S (base.size (scheduled s)) ≤ depth s)%nat.
Proof.
  unfold depth. rewrite <- !size_dom. apply le_n_S, subseteq_size. intros i. rewrite !elem_of_dom, lookup_scheduled.
  destruct (s_mem s !! i); [done|]. by intros [].
Qed.
Lemma schedule_close C s i : schedule_of C s → is_Some (C !! i) →
  ∃ s', schedule_remove_entry (depth s) i s = Ret s' ∧ schedule_of (delete i C) s'.
Proof.
  intros (Ht & Hm & Hc) Hi. destruct (remove_meets_spec (λ _, 0) i s Ht (Hm i Hi)) as (s' & r & n & E & -> & Ht' & [_ Hd] & He).
  specialize (E (depth s) (scheduled_depth s)). cbn [run_op] in E. apply bind_Ret_inv in E as (s1 & E & [= _ ->]). exists s'. split; [done|].
  split; [done|]. split.
  - intros j. rewrite lookup_delete_is_Some, (He j). intros [_ Hj]. by apply Hm.
  - intros j. rewrite Hd, !lookup_delete_is_Some. intros [Hne Hj]. by split; [|apply Hc].
Qed.
Lemma schedule_wake random C s i tv sigma : schedule_of C s → is_Some (C !! i) → fresh_draw random s i →
  ∃ s' n, (∀ fuel, (n ≤ fuel)%nat → schedule_add_entry random fuel i tv sigma s = Ret s') ∧ schedule_of C s'.
Proof.
  intros (Ht & Hm & Hc) Hi Hf. destruct (add_meets_spec random i tv sigma s Ht (conj (Hm i Hi) Hf)) as (s' & r & n & E & _ & Ht' & [_ Hd] & He).
  exists s', n. split.
  { intros fuel Hfu. specialize (E fuel Hfu). cbn [run_op] in E. by apply bind_Ret_inv in E as (s1 & E & [= _ ->]). }
  split; [done|]. split; [intros j; rewrite (He j); apply Hm|]. intros j. rewrite Hd.
  destruct (near_enough _ _ _ _); [apply Hc|]. rewrite lookup_insert_is_Some. intros [<-|[_ Hj]]; [done|by apply Hc].
Qed.
Lemma schedule_next C s : schedule_of C s →
  ∃ r s', schedule_get_earliest_wakeup (depth s) s = Ret (r, s') ∧ schedule_of C s' ∧
    match r with
    | Some (i, tv) => is_Some (C !! i) ∧ scheduled s !! i = Some tv ∧ ∀ j tv', scheduled s !! j = Some tv' → tv_lt tv' tv = false
    | None => scheduled s = ∅
    end.
Proof.
  intros (Ht & Hm & Hc). destruct (earliest_meets_spec (λ _, 0) s Ht) as (s' & r & n & E & -> & Ht' & [Hd Hr] & He).
  exists r, s'. split; [apply E, scheduled_depth|]. split.
  - split; [done|]. rewrite Hd. split; [intros j; rewrite (He j); apply Hm|done].
  - destruct r as [[i tv]|]; [|done]. destruct Hr as [Hi Hle]. split; [apply Hc; by rewrite Hi|done].
Qed.

(** A new client's entry is not scheduled. *)
Definition with_entry (i : nat) (s : schedule) : schedule :=
  Sched (s_earliest_wakeup s) (s_root s) (<[i := SE (TV 0 0) 0 None None None]> (s_mem s)) (s_draws s).
Lemma with_entry_ok i s : treap_ok s → scheduled s !! i = None → treap_ok (with_entry i s) ∧ scheduled (with_entry i s) = scheduled s.
Proof.
  intros (t & HT & HS & He) Hi. assert (i ∉ ids t) as Hni by (rewrite (scheduled_in s t i HT), Hi; by intros []).
  assert (∀ j, j ∈ ids t → s_mem (with_entry i s) !! j = s_mem s !! j) as Hsame.
  { intros j Hj. cbn. rewrite lookup_insert_ne; [done|]. intros ->. by apply Hni. }
  destruct HT as ((Hr & Hnd & Hsat) & Hh & Hidle). split.
  - exists t. split; [|split; [|done]].
    + split; [split; [done|split; [done|]]|split].
      * eapply sat_links_ext; [|done]. intros j Hj. by rewrite Hsame.
      * revert Hh. apply heap_ext. intros j Hj. unfold pri_of. by rewrite Hsame.
      * intros j Hj Hnj. unfold idle, lk, pri_of. cbn. destruct (decide (j = i)) as [->|]; [by rewrite lookup_insert_eq|].
        cbn in Hj. rewrite lookup_insert_ne in * by done. by apply Hidle.
    + apply (sorted_impl (before s)); [|done]. intros j k Hj Hk. apply before_data; by rewrite Hsame.
  - apply map_eq. intros j. rewrite !lookup_scheduled. cbn. destruct (decide (j = i)) as [->|]; [|by rewrite lookup_insert_ne].
    rewrite lookup_insert_eq. cbn. symmetry. rewrite <- lookup_scheduled. exact Hi.
Qed.
Lemma schedule_enter C s i k : schedule_of C s → C !! i = None → schedule_of (<[i := k]> C) (with_entry i s).
Proof.
  intros (Ht & Hm & Hc) Hi. destruct (with_entry_ok i s Ht) as [Ht' Hs].
  { apply eq_None_not_Some. intros Hs%Hc. rewrite Hi in Hs. by destruct Hs. }
  split; [done|]. rewrite Hs. split.
  - intros j. rewrite lookup_insert_is_Some. intros [<-|[Hne Hj]]; cbn; [by rewrite lookup_insert_eq|rewrite lookup_insert_ne by done; by apply Hm].
  - intros j Hj. rewrite lookup_insert_is_Some'. right. by apply Hc.
Qed.
Lemma schedule_update C s i k k' : schedule_of C s → C !! i = Some k → schedule_of (<[i := k']> C) s.
Proof.
  intros (Ht & Hm & Hc) Hk. split; [done|]. split; [intros j Hj; apply Hm|intros j Hj; apply lookup_insert_is_Some'; right; by apply Hc].
  apply lookup_insert_is_Some' in Hj as [<-|]; [by rewrite Hk|done].
Qed.

(** ** The queue *)

Definition forget_packets (c : nat) (E : option (list Z * nat)) : option (list Z * nat) :=
  match E with Some (_, c') => if decide (c' = c) then None else E | None => None end.
Lemma shown_forget h q Q c : Forall2 (shown h) q Q → Forall2 (shown h) (map (forget c) q) (map (forget_packets c) Q).
Proof.
  induction 1 as [|e E q Q He _ IH]; cbn; [constructor|]. apply Forall2_cons. split; [|done].
  destruct e as [[b j]|], E as [[p j']|]; try done. destruct He as [-> He]. cbn. case_decide; [done|]. by split.
Qed.
Lemma dereference_kept c n : ∀ i ms h ms' h', for_ n i (dereference_body (Some c)) (ms, h) = Ret (ms', h') → kept h h'.
Proof.
  induction n as [|n IH]; intros i ms h ms' h'; cbn [for_]; [intros [= <- <-]; apply kept_refl|].
  intros ([ms1 h1] & E & E2)%bind_Ret_inv. eapply heap_kept_trans; [|by eapply IH].
  unfold dereference_body in E. apply bind_Ret_inv in E as (x & _ & E). case_decide; [|injection E as <- <-; apply kept_refl].
  apply bind_Ret_inv in E as (h2 & Ef & E). apply bind_Ret_inv in E as (ms2 & _ & [= _ <-]).
  destruct (OvpnMbuf.mi_buffer x) as [b|]; [by eapply free_kept|]. injection Ef as <-. apply kept_refl.
Qed.
(** The packets of a client that leaves are forgotten; what the others are to get is kept. *)
Lemma dereference_shows ext s Q c : (∀ x, 0 ≤ ext x) → queue_shows ext s Q →
  ∃ ms h, mbuf_dereference_instance (Some c) (s_mbuf s) (s_heap s) = Ret (ms, h) ∧
    queue_shows ext (set_queue ms h s) (map (forget_packets c) Q) ∧ ms_capacity ms = ms_capacity (s_mbuf s).
Proof.
  intros Hext (q & [r Hq] & Hc & Hsh). pose proof Hq as (_ & Hcap & _ & _ & Hn & _).
  destruct (dereference_ok r c ext (length q) 0 (s_mbuf s) q (s_heap s) Hq) as (ms & h & E & Hq' & Hc'); [lia|done|done|].
  rewrite drop_0, take_0 in *. cbn [app] in *. exists ms, h. unfold mbuf_dereference_instance. rewrite Hn, Nat2Z.id. split; [done|]. split.
  - exists (map (forget c) q). split; [by exists r|]. split; [done|].
    eapply shown_kept; [done|done|by eapply dereference_kept|by apply shown_forget].
  - destruct Hq' as (_ & Hcap' & _). cbn. congruence.
Qed.
(** The packets of clients only. *)
Definition addressed (C : gmap nat client) (Q : list (option (list Z * nat))) : Prop := ∀ p j, Some (p, j) ∈ Q → is_Some (C !! j).
Lemma addressed_forget C Q i : addressed C Q → addressed (delete i C) (map (forget_packets i) Q).
Proof.
  intros HQ p j (e & He & Hin)%list_elem_of_fmap. destruct e as [[p' j']|]; [|done]. cbn in He. case_decide; [done|]. injection He as <- <-.
  apply lookup_delete_is_Some. split; [done|by eapply HQ].
Qed.
(** The oldest packet that still has a client, and what is after it. *)
Fixpoint next_packet (Q : list (option (list Z * nat))) : option (list Z * nat * list (option (list Z * nat))) :=
  match Q with [] => None | Some p :: Q => Some (p, Q) | None :: Q => next_packet Q end.
Lemma shown_next h q Q : Forall2 (shown h) q Q →
  match drop_first q with
  | Some ((b, j), q') => ∃ c Q' m, next_packet Q = Some ((c, j), Q') ∧ h !! b = Some m ∧ content (mb_buf m) = c ∧ Forall2 (shown h) q' Q'
  | None => next_packet Q = None
  end.
Proof.
  induction 1 as [|e E q Q He Hs IH]; [done|]. cbn. destruct e as [[b j]|], E as [[c j']|]; try done.
  destruct He as [-> (m & Hm & Hc)]. by exists c, Q, m.
Qed.
Lemma next_addressed C Q p j Q' : addressed C Q → next_packet Q = Some ((p, j), Q') → is_Some (C !! j) ∧ addressed C Q'.
Proof.
  intros HQ. induction Q as [|[[p' j']|] Q IH]; cbn; [done| |].
  - intros [= -> -> <-]. split; [eapply HQ; by left|]. intros p' j' Hin. eapply HQ. by right.
  - apply IH. intros p' j' Hin. eapply HQ. by right.
Qed.
Lemma extract_shows ext s Q : (∀ x, 0 ≤ ext x) → queue_shows ext s Q →
  match next_packet Q with
  | Some ((c, j), Q') => ∃ ms b m h, mbuf_extract_item (s_mbuf s) = Ret (Some (MI (Some b) (Some j)), ms) ∧ s_heap s !! b = Some m ∧
      content (mb_buf m) = c ∧ mbuf_free_buf (Some b) (s_heap s) = Ret h ∧ queue_shows ext (set_queue ms h s) Q' ∧ ms_capacity ms = ms_capacity (s_mbuf s)
  | None => ∃ ms, mbuf_extract_item (s_mbuf s) = Ret (None, ms) ∧ queue_shows ext (set_queue ms (s_heap s) s) [] ∧ ms_capacity ms = ms_capacity (s_mbuf s)
  end.
Proof.
  intros Hext (q & [r Hq] & Hc & Hsh). pose proof Hq as (_ & Hcap & _ & _ & Hn & _). unfold mbuf_extract_item.
  destruct (extract_ok r q (s_mbuf s) (S (Z.to_nat (ms_len (s_mbuf s)))) Hq ltac:(lia)) as (ms & -> & Hq').
  pose proof (shown_next _ _ _ Hsh) as Hs. pose proof (proj1 (proj2 Hq')) as Hcap'. destruct (drop_first q) as [[[b j] q']|] eqn:Ed.
  - destruct Hs as (c & Q' & m & -> & Hm & Hmc & Hs). pose proof (λ x, drop_first_refs q (b, j) q' x Ed) as Hr.
    destruct (free_ok (s_heap s) _ b (λ x, refs x q' + ext x) Hc) as (h & Ef & Hh).
    { rewrite Hr. cbn. rewrite decide_True by done. pose proof (refs_nonneg b q'). specialize (Hext b). lia. }
    { intros x. rewrite Hr. cbn. lia. }
    exists ms, b, m, h. split_and!; [done..| |congruence]. exists q'. split; [by exists r|]. split; [done|].
    eapply shown_kept; [done|done|by eapply free_kept|done].
  - rewrite Hs. exists ms. split; [done|]. split; [|congruence]. exists []. split; [by exists r|]. split; [|constructor].
    eapply counts_ext; [|done]. intros x. cbn. by rewrite (drop_first_none q x Ed).
Qed.

(** ** Routes *)

(** What the prefix lengths in use may still cost: closing a client that has [n] of them
    advances the generation by [n]. *)
Definition owes (x : multi_instance) : Z := if mi_did_iroutes x then Z.of_nat (length (lengths x)) else 0.
Definition dues (m : multi_context) : Z := cache_generation (m_helper m) + msum owes (m_instances m).
Lemma owes_nonneg x : 0 ≤ owes x.
Proof. unfold owes. destruct (mi_did_iroutes x); lia. Qed.

(** [multi_close_instance], as far as routes are concerned, in the two steps it takes. *)
Lemma close_split i x m :
  routing_ok m → m_instances m !! i = Some x → mi_halt x = false → iroutes_ok x → dues m < 2 ^ 32 →
  let m0 := put_instance i (set_halt true (mi_did_iroutes x) x) m in
  ∃ h m1 m2, (if mi_did_iroutes x then
       m ← multi_del_iroutes i m0; y ← get_instance i m; Ret (put_instance i (set_halt (mi_halt y) false y) m)
     else Ret m0) = Ret m1 ∧
    multi_instance_dec_refcount i m1 = Ret m2 ∧ is_Some (m_instances m1 !! i) ∧ closed i x h m m2 ∧ routing_ok m2 ∧ dues m2 = dues m ∧
    ∀ n, 0 ≤ n → count_of n h ≤ count_of n (m_helper m).
Proof.
  intros Hm Hx Hh [Hi4 Hi6] Hd m0. destruct (close_ok i x m Hm Hx Hh) as (h & m2 & E & Hc & Hho & Hch & Hgh).
  { eapply Forall_impl; [done|]. by intros ir (_ & _ & ? & _). }
  assert (cache_generation h = cache_generation (m_helper m) + owes x) as Hg.
  { rewrite Hgh. pose proof (msum_le owes _ _ _ owes_nonneg Hx). pose proof (helper_valid _ _ (routing_helper _ Hm)) as (_ & _ & _ & _ & _ & Hgr).
    unfold dues, is_u32, owes in *. apply (wrap_small 32). destruct (mi_did_iroutes x); lia. }
  unfold multi_close_routing, get_instance in E. rewrite Hx in E. cbn [of_option] in E. rewrite bind_Ret, ASSERT_ok, bind_Ret in E by done.
  apply bind_Ret_inv in E as (m1 & E1 & E2). exists h, m1, m2. split; [exact E1|]. split; [exact E2|]. split.
  { unfold multi_instance_dec_refcount, get_instance in E2. destruct (m_instances m1 !! i); [done|discriminate E2]. }
  split; [done|]. split; [by eapply closed_routing|]. split.
  - unfold dues. pose proof Hc as (_ & _ & -> & _ & _ & ->). rewrite Hg. case_decide.
    + rewrite (msum_delete _ _ _ _ Hx). lia.
    + rewrite (msum_update _ _ _ _ _ Hx). unfold owes at 4. cbn. lia.
  - intros n Hn. rewrite Hch by done. pose proof (uses_nonneg n x). lia.
Qed.

(** ** The clients of a server *)

Definition client_ok (k : client) : Prop :=
  k_n_clients_delta k = (if k_established k then -1 else 0) ∧ is_u32 (k_ifconfig_local k) ∧
  ∀ a6, k_ifconfig_ipv6 k = Some a6 → length a6 = 16%nat ∧ Forall is_byte a6.

(** The server has the clients [C], and [Q] waits in its queue. *)
Record tracks (ext : nat → Z) (C : gmap nat client) (Q : list (option (list Z * nat))) (v : server) : Prop := {
  tr_alive : ∀ i, alive (v_multi v) i = true ↔ is_Some (C !! i);
  tr_clients : ∀ i k, C !! i = Some k → v_clients v !! i = Some k;
  tr_client : ∀ i k, C !! i = Some k → client_ok k;
  tr_routing : routing_ok (v_multi v);
  tr_reaper : reaper_ok (v_multi v);
  tr_parties : parties_ok (v_multi v);
  tr_networks : ∀ i x, m_instances (v_multi v) !! i = Some x → mi_halt x = false → iroutes_ok x;
  tr_activity : activity_ok (v_switch v);
  tr_real : table_of k_did_real_hash C (v_hash v);
  tr_schedule : schedule_of C (v_schedule v);
  tr_queue : queue_shows ext (v_switch v) Q;
  tr_addressed : addressed C Q;
  tr_pool : pool_holds C (v_pool v);
  tr_pending : ∀ i, v_pending v = Some i → is_Some (C !! i);
  tr_wakeup : ∀ i, v_earliest_wakeup v = Some i → is_Some (C !! i);
  tr_count : v_n_clients v = - msum k_n_clients_delta C ∧ v_n_clients v ≤ INT_MAX;
}.
Definition iter_of_clients (C : gmap nat client) (v : server) : Prop := table_of k_did_iter C (s_iter (v_switch v)).

(** The routing table has at most grown by [n], and nothing has become dearer. *)
Record no_dearer (m m' : multi_context) : Prop := {
  nd_size : n_elements (m_vhash m') ≤ n_elements (m_vhash m);
  nd_dues : dues m' ≤ dues m;
  nd_counts : ∀ n, 0 ≤ n → count_of n (m_helper m') ≤ count_of n (m_helper m);
}.
Lemma no_dearer_refl m : no_dearer m m.
Proof. by split. Qed.
Lemma no_dearer_trans m1 m2 m3 : no_dearer m1 m2 → no_dearer m2 m3 → no_dearer m1 m3.
Proof. intros [A1 B1 C1] [A2 B2 C2]. split; [lia|lia|]. intros n Hn. specialize (C1 n Hn). specialize (C2 n Hn). lia. Qed.

(** What the closing of a client does not touch. *)
Record undisturbed (i : nat) (v v' : server) : Prop := {
  ud_shape : shape (v_hash v') = shape (v_hash v);
  ud_hash : n_elements (v_hash v') ≤ n_elements (v_hash v);
  ud_max : v_max_clients v' = v_max_clients v;
  ud_limiter : v_limiter v' = v_limiter v;
  ud_instances : ∀ j, j ≠ i → m_instances (v_multi v') !! j = m_instances (v_multi v) !! j;
  ud_capacity : ms_capacity (s_mbuf (v_switch v')) = ms_capacity (s_mbuf (v_switch v));
  ud_dearer : no_dearer (v_multi v) (v_multi v');
}.

Ltac fields := cbn [v_switch v_hash v_clients v_schedule v_pool v_limiter v_pending v_earliest_wakeup v_n_clients v_max_clients
  set_switch set_hash set_clients set_schedule set_pool set_limiter multi_set_pending set_earliest_wakeup set_n_clients v_multi with_multi put_client
  s_multi s_iter s_mbuf s_heap s_activity s_enable_c2c s_tcp_queue_limit set_multi set_iter set_queue set_activity].

Lemma get_instance_ok m i x : m_instances m !! i = Some x → get_instance i m = Ret x.
Proof. unfold get_instance. by intros ->. Qed.
Lemma get_client_ok ext C Q v i k : tracks ext C Q v → C !! i = Some k → get_client i v = Ret k.
Proof.
  intros Ht Hk. destruct (alive_instance (v_multi v) i) as (x & Hx & _); [apply (tr_alive _ _ _ _ Ht); by rewrite Hk|].
  unfold get_client, get_instance. rewrite Hx. cbn [of_option]. bret. by rewrite (tr_clients _ _ _ _ Ht _ _ Hk).
Qed.

Lemma msum_bounds (C : gmap nat client) : (∀ i k, C !! i = Some k → client_ok k) → msum k_n_clients_delta C ≤ 0.
Proof.
  induction C as [|i k C Hi IH] using map_ind; intros H; [by rewrite msum_empty|]. rewrite msum_insert by done.
  assert (k_n_clients_delta k ≤ 0) by (destruct (H i k) as (-> & _); [by rewrite lookup_insert_eq|destruct (k_established k); lia]).
  assert (msum k_n_clients_delta C ≤ 0); [|lia]. apply IH. intros j kj Hj. apply (H j). rewrite lookup_insert_ne; [done|congruence].
Qed.

Section close.
Context (ext : nat → Z).
Hypothesis (Hext : ∀ x, 0 ≤ ext x).

(** What is left of the clients' own state when one is gone. *)
Lemma closed_parties i x h m m' : m_instances m !! i = Some x → closed i x h m m' → parties_ok m → parties_ok m'.
Proof. intros Hx Hc Hp j z [[_ Hz]|(-> & _ & ->)]%(closed_instances _ _ _ _ _ _ _ Hc); [by apply (Hp j)|by apply (Hp i x)]. Qed.

Lemma leave_pool_ok now hard C C' i k v :
  pool_holds C (v_pool v) → C !! i = Some k → others C C' i → (∀ k', C' !! i = Some k' → k_vaddr_handle k' = -1) →
  ∃ p, leave_pool now k hard v = Ret (set_pool p v) ∧ pool_holds C' p.
Proof.
  intros Hp Hk Ho Hi. unfold leave_pool. destruct (v_pool v) as [p|] eqn:Ev.
  - destruct (pool_release now hard C C' p i k Hp Hk Ho Hi) as (b & p' & -> & Hp'). bret. by exists (Some p').
  - exists None. split; [destruct v; cbn in *; by subst|]. intros j kj Hj. destruct (decide (j = i)) as [->|]; [by apply Hi|].
    rewrite Ho in Hj by done. by apply (Hp j).
Qed.

(** The components the client leaves, when its instance [x] in [m0] has been halted. *)
Lemma leave_ok now C Q v i k m0 m1 :
  v_multi v = m0 → leave_iroutes i m0 = Ret m1 → C !! i = Some k →
  table_of k_did_real_hash C (v_hash v) → (k_did_iter k = true → iter_of_clients C v) → schedule_of C (v_schedule v) →
  pool_holds C (v_pool v) → queue_shows ext (v_switch v) Q →
  ∃ h it s p ms hp, leave now i k v = Ret (Server (Switch m1 it ms hp (s_activity (v_switch v)) (s_enable_c2c (v_switch v)) (s_tcp_queue_limit (v_switch v)))
      h (v_clients v) s p (v_limiter v) (v_pending v) (v_earliest_wakeup v) (v_n_clients v) (v_max_clients v)) ∧
    table_of k_did_real_hash (delete i C) h ∧ shape h = shape (v_hash v) ∧ n_elements h ≤ n_elements (v_hash v) ∧
    (if k_did_iter k then table_of k_did_iter (delete i C) it else it = s_iter (v_switch v)) ∧
    schedule_of (delete i C) s ∧ pool_holds (delete i C) p ∧
    (∀ s0, s_mbuf s0 = ms → s_heap s0 = hp → queue_shows ext s0 (map (forget_packets i) Q)) ∧ ms_capacity ms = ms_capacity (s_mbuf (v_switch v)).
Proof.
  intros <- E1 Hk Hreal Hit Hsc Hpo Hq. unfold leave.
  assert (∃ h, (if k_did_real_hash k then '(ok, h) ← hash_remove (k_real k) (v_hash v); ASSERT (ok = true);; Ret (set_hash h v) else Ret v) = Ret (set_hash h v) ∧
    table_of k_did_real_hash (delete i C) h ∧ shape h = shape (v_hash v) ∧ n_elements h ≤ n_elements (v_hash v)) as (h & -> & H1 & H2 & H3).
  { destruct (k_did_real_hash k) eqn:Ef.
    - destruct (table_remove k_did_real_hash C (v_hash v) i k Hreal Hk Ef) as (h & -> & H1 & H2 & H3). bret. rewrite ASSERT_ok by done. bret.
      exists h. split_and!; [done..|lia].
    - exists (v_hash v). split; [by destruct v|]. split_and!; [|done..]. apply table_skip; [|done]. intros k0 Hk0. congruence. }
  bret.
  assert (∃ it, (if k_did_iter k then '(ok, h0) ← hash_remove (k_real k) (s_iter (v_switch (set_hash h v))); ASSERT (ok = true);;
      Ret (set_switch (set_iter h0 (v_switch (set_hash h v))) (set_hash h v)) else Ret (set_hash h v)) = Ret (set_switch (set_iter it (v_switch v)) (set_hash h v)) ∧
    if k_did_iter k then table_of k_did_iter (delete i C) it else it = s_iter (v_switch v)) as (it & -> & H4).
  { destruct (k_did_iter k) eqn:Ef.
    - destruct (table_remove k_did_iter C (s_iter (v_switch v)) i k (Hit eq_refl) Hk Ef) as (it & E & H4 & _). fields. rewrite E. bret. rewrite ASSERT_ok by done. bret. by exists it.
    - exists (s_iter (v_switch v)). split; [by destruct v as [[]]|done]. }
  bret. fields. destruct (schedule_close C (v_schedule v) i Hsc) as (s & -> & H5); [by rewrite Hk|]. bret.
  destruct (leave_pool_ok now false C (delete i C) i k (set_schedule s (set_switch (set_iter it (v_switch v)) (set_hash h v)))) as (p & -> & H6);
    [done|done|intros j Hj; by rewrite lookup_delete_ne|intros k'; by rewrite lookup_delete_eq|].
  bret. fields. change (s_multi (v_switch v)) with (v_multi v). rewrite E1. bret. destruct (dereference_shows ext (v_switch v) Q i Hext Hq) as (ms & hp & -> & H7 & H8). bret.
  exists h, it, s, p, ms, hp. split; [done|]. split_and!; try done. intros s0 <- <-. exact H7.
Qed.

(** No pointer to the client is kept aside. *)
Definition aside (i : nat) (v : server) : server := forget_wakeup i (forget_pending i v).
Lemma aside_same i v : v_switch (aside i v) = v_switch v ∧ v_hash (aside i v) = v_hash v ∧ v_clients (aside i v) = v_clients v ∧
  v_schedule (aside i v) = v_schedule v ∧ v_pool (aside i v) = v_pool v ∧ v_limiter (aside i v) = v_limiter v ∧
  v_n_clients (aside i v) = v_n_clients v ∧ v_max_clients (aside i v) = v_max_clients v.
Proof. unfold aside, forget_wakeup, forget_pending. by repeat case_decide. Qed.
Lemma aside_gone i v j : (v_pending (aside i v) = Some j → j ≠ i ∧ v_pending v = Some j) ∧
  (v_earliest_wakeup (aside i v) = Some j → j ≠ i ∧ v_earliest_wakeup v = Some j).
Proof.
  unfold aside, forget_wakeup, forget_pending. destruct v. repeat (case_decide; cbn in *); split; intros Hj; try done; (split; [intros ->|]; congruence).
Qed.

Lemma close_client now C Q v i k :
  tracks ext C Q v → C !! i = Some k → dues (v_multi v) < 2 ^ 32 → (k_did_iter k = true → iter_of_clients C v) →
  ∃ v', multi_close_instance now i false v = Ret v' ∧ tracks ext (delete i C) (map (forget_packets i) Q) v' ∧ undisturbed i v v' ∧
    (if k_did_iter k then iter_of_clients (delete i C) v' else s_iter (v_switch v') = s_iter (v_switch v)).
Proof.
  intros Ht Hk Hd Hit. pose proof Ht as [Hal Hcl Hco Hro Hre Hpa Hne Hac Hreal Hsc Hq Had Hpo Hpe Hwa [Hn Hmax]].
  destruct (alive_instance (v_multi v) i) as (x & Hx & Hh); [apply Hal; by rewrite Hk|].
  destruct (close_split i x (v_multi v) Hro Hx Hh (Hne i x Hx Hh) Hd) as (h & m1 & m2 & E1 & E2 & Hi1 & Hc & Hr2 & Hd2 & Hct).
  pose proof (msum_delete k_n_clients_delta _ _ _ Hk) as Hdel. pose proof (Hco _ _ Hk) as (Hdk & _).
  assert (msum k_n_clients_delta (delete i C) ≤ 0) as Hle by (apply msum_bounds; intros j kj [_ Hj]%lookup_delete_Some; by apply (Hco j)).
  assert (k_n_clients_delta k ≤ 0) as Hdk0 by (destruct (k_established k); lia).
  unfold multi_close_instance. rewrite (get_instance_ok _ _ _ Hx). bret. rewrite ASSERT_ok by done. bret. rewrite (get_client_ok ext C Q v i k Ht Hk). bret.
  rewrite int_ok by (ints; lia). bret. cbn [negb].
  set (m0 := put_instance i (set_halt true (mi_did_iroutes x) x) (v_multi v)) in *.
  set (v1 := put_client i _ _). change (forget_wakeup i (forget_pending i v1)) with (aside i v1).
  pose proof (aside_same i v1) as (Asw & Ah & Acl & As & Ap & Ali & An & Amax). pose proof (aside_gone i v1) as Ag.
  destruct (leave_ok now C Q (aside i v1) i k m0 m1) as (h' & it & s & p & ms & hp & -> & L1 & L2 & L3 & L4 & L5 & L6 & L7 & L8).
  { unfold v_multi. by rewrite Asw. }
  { unfold leave_iroutes. rewrite (get_instance_ok m0 i (set_halt true (mi_did_iroutes x) x)) by (subst m0; apply lookup_insert_eq). bret. exact E1. }
  { done. }
  { by rewrite Ah. }
  { unfold iter_of_clients. by rewrite Asw. }
  { by rewrite As. }
  { by rewrite Ap. }
  { by rewrite Asw. }
  bret. fields. rewrite E2. bret. eexists. split; [done|]. rewrite Ah, Asw in *. pose proof (λ j, closed_alive _ _ _ _ _ j Hc) as Hal2.
  pose proof (λ j z, closed_instances _ _ _ _ _ j z Hc) as Hin2. pose proof Hc as (Cv & Cr & Ch & Cl & Cre & Ci).
  split; [|split]; fields.
  - split; fields.
    + intros j. rewrite Hal2, lookup_delete_is_Some. destruct (decide (j = i)) as [->|]; [by split; [|intros []]|]. rewrite Hal. naive_solver.
    + rewrite Acl. intros j kj [Hj Hkj]%lookup_delete_Some. subst v1. fields. rewrite lookup_insert_ne by done. by apply Hcl.
    + intros j kj [_ Hkj]%lookup_delete_Some. by apply (Hco j).
    + done.
    + unfold reaper_ok. by rewrite Cre.
    + by eapply closed_parties.
    + intros j z Hz Hhz. destruct (Hin2 j z Hz) as [[_ Hz']|(_ & _ & ->)]; [by apply (Hne j)|done].
    + intros j. fields. rewrite Hal2. destruct (decide (j = i)); [done|]. apply Hac.
    + done.
    + done.
    + by apply L7.
    + by apply addressed_forget.
    + done.
    + intros j [Hj Hp]%Ag. apply lookup_delete_is_Some. split; [done|by apply Hpe].
    + intros j [Hj Hp]%Ag. apply lookup_delete_is_Some. split; [done|by apply Hwa].
    + rewrite An. subst v1. fields. lia.
  - split; fields; try done.
    + intros j Hj. unfold v_multi in Ci. rewrite Ci. case_decide; [by rewrite lookup_delete_ne|by rewrite lookup_insert_ne].
    + split; [by rewrite Cv|by rewrite Hd2|]. by rewrite Ch.
  - destruct (k_did_iter k); done.
Qed.

(** *** Changes that leave the clients alone *)

Lemma tracks_iter C Q v it : tracks ext C Q v → tracks ext C Q (set_switch (set_iter it (v_switch v)) v).
Proof. intros [? ? ? ? ? ? ? ? ? ? ? ? ? ? ? ?]. by split. Qed.
(** The same client, but for its virtual addresses. *)
Definition kin (k k' : client) : Prop :=
  k_real k' = k_real k ∧ k_did_real_hash k' = k_did_real_hash k ∧ k_n_clients_delta k' = k_n_clients_delta k.
Lemma tracks_address C Q v i k k' p :
  tracks ext C Q v → C !! i = Some k → kin k k' → client_ok k' → pool_holds (<[i := k']> C) p →
  tracks ext (<[i := k']> C) Q (put_client i k' (set_pool p v)).
Proof.
  intros [Hal Hcl Hco Hro Hre Hpa Hne Hac Hreal Hsc Hq Had Hpo Hpe Hwa [Hn Hmax]] Hk (Ha & Hr & Hd) Hok Hp.
  assert (∀ j, is_Some (<[i := k']> C !! j) ↔ is_Some (C !! j)) as Hiff.
  { intros j. rewrite lookup_insert_is_Some'. split; [intros [<-|]; [by rewrite Hk|done]|by right]. }
  split; fields; try done.
  - intros j. by rewrite Hiff.
  - intros j kj [[<- <-]|[Hne' Hj]]%lookup_insert_Some; [by rewrite lookup_insert_eq|rewrite lookup_insert_ne by done; by apply Hcl].
  - intros j kj [[<- <-]|[Hne' Hj]]%lookup_insert_Some; [done|by apply (Hco j)].
  - by eapply table_update.
  - by eapply schedule_update.
  - intros q j Hj. rewrite Hiff. by eapply Had.
  - intros j Hj. rewrite Hiff. by apply Hpe.
  - intros j Hj. rewrite Hiff. by apply Hwa.
  - by rewrite (msum_same _ _ _ k).
Qed.
Lemma tracks_update C Q v i k k' :
  tracks ext C Q v → C !! i = Some k → kin k k' → k_vaddr_handle k' = k_vaddr_handle k → client_ok k' →
  tracks ext (<[i := k']> C) Q (put_client i k' v).
Proof.
  intros Ht Hk Hkin Hh Hok. replace v with (set_pool (v_pool v) v) at 2 by by destruct v.
  eapply tracks_address; try done. eapply pool_update; [apply (tr_pool _ _ _ _ Ht)|done|done].
Qed.

(** *** Clients with the name of a new one *)

Definition name_of (m : multi_context) (i : nat) : option (list Z) := x ← m_instances m !! i; tls_common_name (mi_tls x).
(** [j] has the name of [i], and is another client. *)
Definition dup (m : multi_context) (i j : nat) : bool := bool_decide (j ≠ i ∧ is_Some (name_of m i) ∧ name_of m j = name_of m i).
Definition without (g : nat → bool) (C : gmap nat client) : gmap nat client := filter (λ p, g p.1 = false) C.
Definition forget_where (g : nat → bool) (Q : list (option (list Z * nat))) : list (option (list Z * nat)) :=
  map (λ E, match E with Some (_, j) => if g j then None else E | None => None end) Q.

Lemma without_lookup g C j : without g C !! j = if g j then None else C !! j.
Proof.
  unfold without. destruct (g j) eqn:Eg.
  - apply map_lookup_filter_None. right. intros k _. cbn. congruence.
  - destruct (C !! j) as [k|] eqn:E; [apply map_lookup_filter_Some; by split|apply map_lookup_filter_None; by left].
Qed.
Lemma without_more g g' C i : (∀ j, g' j = g j || bool_decide (j = i)) → without g' C = delete i (without g C).
Proof.
  intros Hg. apply map_eq. intros j. rewrite without_lookup, Hg. destruct (decide (j = i)) as [->|].
  - by rewrite bool_decide_eq_true_2, orb_true_r, lookup_delete_eq.
  - by rewrite bool_decide_eq_false_2, orb_false_r, lookup_delete_ne, without_lookup.
Qed.
Lemma forget_more g g' Q i : (∀ j, g' j = g j || bool_decide (j = i)) → forget_where g' Q = map (forget_packets i) (forget_where g Q).
Proof.
  intros Hg. unfold forget_where. rewrite map_map. apply map_ext. intros [[p j]|]; [|done]. rewrite Hg. destruct (g j); [done|]. cbn.
  destruct (decide (j = i)) as [->|]; [by rewrite bool_decide_eq_true_2|by rewrite bool_decide_eq_false_2].
Qed.
Lemma without_ext g g' C : (∀ j, is_Some (C !! j) → g j = g' j) → without g C = without g' C.
Proof. intros Hg. apply map_eq. intros j. rewrite !without_lookup. destruct (C !! j) eqn:E; [by rewrite Hg by by rewrite E|by destruct (g j), (g' j)]. Qed.
Lemma forget_ext g g' C Q : addressed C Q → (∀ j, is_Some (C !! j) → g j = g' j) → forget_where g Q = forget_where g' Q.
Proof.
  intros HQ Hg. unfold forget_where. apply map_ext_in. intros [[p j]|] Hin; [|done]. apply list_elem_of_In in Hin. rewrite Hg; [done|by eapply HQ].
Qed.
Lemma without_none g C : (∀ j, is_Some (C !! j) → g j = false) → without g C = C.
Proof. intros Hg. apply map_eq. intros j. rewrite without_lookup. destruct (C !! j) eqn:E; [by rewrite Hg by by rewrite E|by destruct (g j)]. Qed.
Lemma forget_none g Q : (∀ p j, Some (p, j) ∈ Q → g j = false) → forget_where g Q = Q.
Proof.
  intros Hg. unfold forget_where. rewrite <- (map_id Q) at 2. apply map_ext_in. intros [[p j]|] Hin; [|done]. apply list_elem_of_In in Hin. by rewrite (Hg p j).
Qed.

(** What no closing touches, whosoever. *)
Record unmoved (v v' : server) : Prop := {
  um_shape : shape (v_hash v') = shape (v_hash v);
  um_hash : n_elements (v_hash v') ≤ n_elements (v_hash v);
  um_max : v_max_clients v' = v_max_clients v;
  um_limiter : v_limiter v' = v_limiter v;
  um_capacity : ms_capacity (s_mbuf (v_switch v')) = ms_capacity (s_mbuf (v_switch v));
}.
Lemma unmoved_refl v : unmoved v v.
Proof. by split. Qed.
Lemma unmoved_trans v1 v2 v3 : unmoved v1 v2 → unmoved v2 v3 → unmoved v1 v3.
Proof. intros [A1 B1 C1 D1 E1] [A2 B2 C2 D2 E2]. split; congruence || lia. Qed.
Lemma undisturbed_unmoved i v v' : undisturbed i v v' → unmoved v v'.
Proof. intros []. by split. Qed.

Section dups.
Context (now : Z) (C0 : gmap nat client) (Q0 : list (option (list Z * nat))) (v0 : server) (i : nat).
Hypothesis (Ht0 : tracks ext C0 Q0 v0) (Hi0 : iter_of_clients C0 v0) (Hd0 : dues (v_multi v0) < 2 ^ 32).
Let m0 := v_multi v0.

(** The clients of the list that have been visited, and have the name. *)
Definition visited (pre : list nat) (j : nat) : bool := dup m0 i j && bool_decide (j ∈ pre).
Definition sweeping (a : server) (l : list (hash_element mroute_addr nat)) : Prop :=
  ∃ pre, values (s_iter (v_switch v0)) = pre ++ (he_value <$> l) ∧
    tracks ext (without (visited pre) C0) (forget_where (visited pre) Q0) a ∧ s_iter (v_switch a) = s_iter (v_switch v0) ∧ unmoved v0 a ∧
    no_dearer m0 (v_multi a) ∧ ∀ j, visited pre j = false → m_instances (v_multi a) !! j = m_instances m0 !! j.

Lemma visited_snoc pre j h : visited (pre ++ [j]) h = if dup m0 i j then visited pre h || bool_decide (h = j) else visited pre h.
Proof.
  unfold visited. rewrite (bool_decide_ext (h ∈ pre ++ [j]) (h ∈ pre ∨ h = j)) by (rewrite elem_of_app, list_elem_of_singleton; done).
  rewrite bool_decide_or. destruct (dup m0 i h) eqn:E1; destruct (dup m0 i j) eqn:E2; cbn; try done.
  - destruct (bool_decide_reflect (h = j)) as [->|]; [congruence|]. by rewrite orb_false_r.
  - destruct (bool_decide_reflect (h = j)) as [->|]; [congruence|done].
Qed.
Lemma sweep_step cn a e l : name_of m0 i = Some cn → sweeping a (e :: l) →
  ∃ a', delete_dup_body now i cn a e = Ret (a', bool_decide (dup m0 i (he_value e) = true)) ∧ sweeping a' l.
Proof.
  intros Hcn (pre & Hpre & Ht & Hit & Hum & Hnd & Hin). set (j := he_value e) in *.
  destruct (table_values _ _ _ Hi0) as [Hdup Hval]. rewrite Hpre in Hdup. cbn in Hdup.
  assert (j ∉ pre) as Hni.
  { apply NoDup_app in Hdup as (_ & Hno & _). intros Hj. apply (Hno j Hj). by left. }
  assert (visited pre j = false) as Hvj by (unfold visited; rewrite bool_decide_eq_false_2 by done; by rewrite andb_false_r).
  destruct (Hval j) as [(k & Hk & _) _]; [rewrite Hpre; apply elem_of_app; right; by left|].
  assert (without (visited pre) C0 !! j = Some k) as Hka by by rewrite without_lookup, Hvj.
  destruct (alive_instance (v_multi a) j) as (x & Hx & Hh); [apply (tr_alive _ _ _ _ Ht); by rewrite Hka|].
  assert (m_instances m0 !! j = Some x) as Hx0 by by rewrite <- Hin.
  unfold delete_dup_body. fold j. rewrite (get_instance_ok _ _ _ Hx). bret.
  assert (values (s_iter (v_switch v0)) = (pre ++ [j]) ++ (he_value <$> l)) as Hpre' by by rewrite <- app_assoc.
  assert (dup m0 i j = bool_decide (j ≠ i ∧ mi_halt x = false ∧ tls_common_name (mi_tls x) = Some cn)) as Edup.
  { unfold dup. apply bool_decide_ext. rewrite Hcn. unfold name_of at 1. rewrite Hx0. cbn. naive_solver. }
  destruct (decide (j ≠ i ∧ mi_halt x = false ∧ tls_common_name (mi_tls x) = Some cn)) as [Hc|Hc].
  - rewrite (bool_decide_eq_true_2 _ Hc) in Edup. rewrite (get_client_ok ext _ _ a j k Ht Hka). bret.
    set (k' := set_did (k_did_real_hash k) false k).
    assert (tracks ext (<[j := k']> (without (visited pre) C0)) (forget_where (visited pre) Q0) (put_client j k' a)) as Ht'.
    { apply (tracks_update _ _ _ _ k); try done. apply (tr_client _ _ _ _ Ht0 _ _ Hk). }
    destruct (close_client now _ _ _ j k' Ht') as (a' & -> & Ht2 & Hu & Hit2); [by rewrite lookup_insert_eq|pose proof (nd_dues _ _ Hnd) as Hle; change (dues (v_multi a) < 2 ^ 32); unfold m0 in Hle; lia|done|].
    bret. exists a'. rewrite Edup. split; [by rewrite bool_decide_eq_true_2|]. exists (pre ++ [j]). split; [done|].
    assert (∀ h, visited (pre ++ [j]) h = visited pre h || bool_decide (h = j)) as Hv by (intros h; by rewrite visited_snoc, Edup).
    rewrite (without_more _ _ _ _ Hv), (forget_more _ _ _ _ Hv). rewrite delete_insert_eq in Ht2. split; [done|]. split; [by rewrite Hit2|].
    split; [apply (unmoved_trans _ (put_client j k' a)); [by destruct Hum; split|by eapply undisturbed_unmoved]|]. split; [eapply no_dearer_trans; [done|apply (ud_dearer _ _ _ Hu)]|].
    intros h Hvh. rewrite Hv in Hvh. apply orb_false_iff in Hvh as [Hvh Hne]. apply bool_decide_eq_false in Hne.
    rewrite (ud_instances _ _ _ Hu) by done. by apply Hin.
  - rewrite (bool_decide_eq_false_2 _ Hc) in Edup. exists a. rewrite Edup. split; [by rewrite bool_decide_eq_false_2|]. exists (pre ++ [j]).
    split; [done|]. assert (∀ h, visited (pre ++ [j]) h = visited pre h) as Hv by (intros h; by rewrite visited_snoc, Edup).
    rewrite (without_ext _ _ _ (λ h _, Hv h)), (forget_ext _ _ _ _ (tr_addressed _ _ _ _ Ht0) (λ h _, Hv h)). split; [done|]. split; [done|].
    split; [done|]. split; [done|]. intros h. rewrite Hv. apply Hin.
Qed.
End dups.

Lemma table_cleaned flag C h g : table_of flag C h →
  table_of flag (without g C) (cleaned (λ x, g x = true) 0 h (length (buckets h))).
Proof.
  intros (Hw & Hc & Hs). assert (∀ a, assoc (cleaned (λ x, g x = true) 0 h (length (buckets h))) a = (x ← assoc h a; if g x then None else Some x)) as Ha.
  { intros a. rewrite (cleaned_assoc _ 0 (length (buckets h)) h Hw) by lia. destruct (assoc h a) as [x|]; [|done]. cbn. pose proof (key_index_lt h a Hw).
    destruct (g x); [rewrite decide_True by (split; [lia|done])|rewrite decide_False by (intros [_ ?]; done)]; done. }
  split; [apply (cleaned_wf _ 0 (length (buckets h))); [done|lia]|]. split.
  - intros j k Hj Hf. rewrite without_lookup in Hj. destruct (g j) eqn:Eg; [done|]. rewrite Ha, (Hc j k Hj Hf). cbn. by rewrite Eg.
  - intros a j. rewrite Ha. destruct (assoc h a) as [x|] eqn:Ex; [|done]. cbn. destruct (g x) eqn:Eg; [done|]. intros [= <-].
    destruct (Hs a x Ex) as (k & Hk & Hf & He). exists k. by rewrite without_lookup, Eg.
Qed.

(** The other clients with the name of [i] are closed, and nothing else happens. *)
Lemma delete_dup_ok now C Q v i :
  tracks ext C Q v → iter_of_clients C v → (∀ j k, C !! j = Some k → k_did_iter k = true) → dues (v_multi v) < 2 ^ 32 → is_Some (C !! i) →
  let g := dup (v_multi v) i in
  ∃ v', multi_delete_dup now i v = Ret v' ∧ tracks ext (without g C) (forget_where g Q) v' ∧ iter_of_clients (without g C) v' ∧ unmoved v v' ∧
    no_dearer (v_multi v) (v_multi v') ∧ ∀ j, g j = false → m_instances (v_multi v') !! j = m_instances (v_multi v) !! j.
Proof.
  intros Ht Hit Hall Hd Hi g. destruct (alive_instance (v_multi v) i) as (x & Hx & _); [by apply (tr_alive _ _ _ _ Ht)|].
  unfold multi_delete_dup. rewrite (get_instance_ok _ _ _ Hx). bret. destruct (tls_common_name (mi_tls x)) as [cn|] eqn:Hcn.
  2: { assert (∀ j, g j = false) as Hg.
    { intros j. apply bool_decide_eq_false. unfold name_of at 1. rewrite Hx. cbn. rewrite Hcn. by intros (_ & [] & _). }
    exists v. rewrite without_none, forget_none by done. split; [done|]. split; [done|]. split; [done|]. split; [apply unmoved_refl|].
    split; [apply no_dearer_refl|done]. }
  assert (name_of (v_multi v) i = Some cn) as Hname by (unfold name_of; by rewrite Hx).
  pose proof Hit as (Hw & _). rewrite hash_iterator_init_ok by done. bret.
  assert (∀ j, visited v i [] j = false) as Hv0 by (intros j; unfold visited; by rewrite bool_decide_eq_false_2, andb_false_r by apply not_elem_of_nil).
  destruct (hash_walk_ok (λ j, g j = true) 0 (length (buckets (s_iter (v_switch v)))) _ Hw ltac:(lia) (delete_dup_body now i cn)
    (sweeping C Q v i) (λ a e l, sweep_step now C Q v i Ht Hit Hd cn a e l Hname) v) as (a & E & Ha).
  { rewrite rest_all. exists []. split; [done|]. rewrite (without_none (visited v i [])), (forget_none (visited v i [])) by done.
    split; [done|]. split; [done|]. split; [apply unmoved_refl|]. split; [apply no_dearer_refl|done]. }
  destruct Hw as (_ & _ & Hl & _). rewrite Hl in E. change (Z.of_nat 0) with 0 in E. rewrite E. bret. eexists. split; [done|].
  destruct Ha as (pre & Hpre & Ht' & Hit' & Hum & Hnd & Hin). rewrite app_nil_r in Hpre. cbn in Hpre.
  assert (∀ j, is_Some (C !! j) → visited v i pre j = g j) as Hvis.
  { intros j [k Hk]. unfold visited. fold g. rewrite bool_decide_eq_true_2, andb_true_r; [done|]. rewrite <- Hpre.
    apply (table_values _ _ _ Hit). exists k. split; [done|by eapply Hall]. }
  rewrite (without_ext _ _ _ Hvis), (forget_ext _ _ _ _ (tr_addressed _ _ _ _ Ht) Hvis) in Ht'.
  split; [by apply tracks_iter|]. split; [by apply table_cleaned|]. split; [by destruct Hum|]. split; [done|].
  intros j Hj. apply Hin. unfold visited. fold g. by rewrite Hj.
Qed.
End close.
