(* ===== verification/OvpnServerOpsProofs.v ===== *)
(** * OpenVPN: the operations on the clients of a UDP server, proved

    Selecting addresses, the establishment of a connection, what follows an event of a
    client, creation, output and waiting, each as a step on the clients. *)
From stdpp Require Import gmap.
From S2P Require Import Prelude OvpnBuffer OvpnPacketId OvpnFrame OvpnList OvpnMbuf OvpnMbufProofs OvpnTime OvpnSchedule OvpnScheduleProofs OvpnScheduleProps OvpnPool OvpnPoolProofs OvpnProto OvpnProtoProofs OvpnMroute OvpnMrouteProofs OvpnPf OvpnPfProofs OvpnMulti OvpnMultiProofs OvpnMultiOpsProofs OvpnSwitch OvpnSwitchProofs OvpnServer OvpnServerProofs.
#[local] Open Scope bool_scope.
#[local] Open Scope Z_scope.

Section ops.
Context (ext : nat → Z).
Hypothesis (Hext : ∀ x, 0 ≤ ext x).

(** ** Virtual addresses *)

Definition options_ok (o : client_options) : Prop :=
  (∀ l n, o_push_ifconfig o = Some (l, n) → is_u32 l) ∧
  ∀ a6, o_push_ifconfig_ipv6 o = Some a6 → length a6 = 16%nat ∧ Forall is_byte a6.
(** The rest of the server is as it was. *)
Definition only_addresses (v v' : server) : Prop :=
  v_switch v' = v_switch v ∧ v_hash v' = v_hash v ∧ v_schedule v' = v_schedule v ∧ v_limiter v' = v_limiter v ∧
  v_pending v' = v_pending v ∧ v_n_clients v' = v_n_clients v ∧ v_max_clients v' = v_max_clients v.
Definition readdressed (k k' : client) : Prop := kin k k' ∧ k_did_iter k' = k_did_iter k ∧ k_established k' = k_established k.

Lemma select_ipv4_ok now tun o C Q v i k :
  tracks ext C Q v → C !! i = Some k → options_ok o →
  ∃ v' k', select_ipv4 now tun o i k v = Ret v' ∧ tracks ext (<[i := k']> C) Q v' ∧ readdressed k k' ∧ only_addresses v v'.
Proof.
  intros Ht Hk [Ho4 Ho6]. pose proof (tr_client _ _ _ _ Ht _ _ Hk) as (K1 & K2 & K3). pose proof (tr_pool _ _ _ _ Ht) as Hp.
  unfold select_ipv4. destruct (o_push_ifconfig o) as [[l n]|] eqn:Ep.
  - pose proof (Ho4 l n eq_refl) as Hl. destruct (decide (k_vaddr_handle k >= 0)) as [Hh|Hh].
    + set (k' := set_ifconfig true l n (set_handle (-1) k)).
      destruct (leave_pool_ok now true C (<[i := k']> C) i k v Hp Hk) as (p & -> & Hp'); [intros j Hj; by rewrite lookup_insert_ne|rewrite lookup_insert_eq; by intros ? [= <-]|].
      bret. exists (put_client i k' (set_pool p v)), k'. split; [done|]. split; [by apply (tracks_address _ _ _ _ _ k)|done].
    + bret. set (k' := set_ifconfig true l n k). exists (put_client i k' v), k'. split; [done|]. split; [by apply (tracks_update _ _ _ _ _ k)|done].
  - assert (∃ v' k', Ret v = Ret v' ∧ tracks ext (<[i := k']> C) Q v' ∧ readdressed k k' ∧ only_addresses v v') as Hsame.
    { exists v, k. by rewrite insert_id. }
    destruct (v_pool v) as [p|] eqn:Ev; [|done]. destruct (decide (k_vaddr_handle k < 0)) as [Hneg|]; [|done]. clear Hsame.
    destruct (alive_instance (v_multi v) i) as (x & Hx & _); [apply (tr_alive _ _ _ _ Ht); by rewrite Hk|].
    rewrite (get_instance_ok _ _ _ Hx). bret. set (cn := if o_duplicate_cn o then _ else _).
    destruct (pool_acquire now cn C p i k Hp Hk Hneg) as (h & ls & p' & -> & Hls & Hp'). bret. cbv zeta. match goal with |- context [put_client i ?K (set_pool _ _)] => set (k' := K) end.
    exists (put_client i k' (set_pool (Some p') v)), k'. split; [done|].
    assert (k_vaddr_handle k' = h ∧ readdressed k k' ∧ client_ok k') as (H1 & H2 & H3).
    { subst k'. destruct ls as [ls|]; cbn; [|done]. destruct Hls as [L1 L2]. destruct (o_ifconfig_ipv6_pool_defined o); [|done]. split; [done|]. split; [done|].
      split; [done|]. split; [done|]. cbn. intros a6 [= <-]. destruct (remote_ipv6 ls) as [b|]; cbn; [by apply L2|by split; [|repeat constructor]]. }
    split; [|done]. apply (tracks_address _ _ _ _ _ k); [done|done|apply H2|done|]. by apply Hp'.
Qed.
Lemma select_ok now tun o C Q v i k :
  tracks ext C Q v → C !! i = Some k → options_ok o →
  ∃ v' k', multi_select_virtual_addr now tun o i v = Ret v' ∧ tracks ext (<[i := k']> C) Q v' ∧ readdressed k k' ∧ only_addresses v v'.
Proof.
  intros Ht Hk Ho. unfold multi_select_virtual_addr. rewrite (get_client_ok ext C Q v i k Ht Hk). bret.
  destruct (select_ipv4_ok now tun o C Q v i k Ht Hk Ho) as (v1 & k1 & -> & Ht1 & Hk1 & Hv1). bret.
  destruct (o_push_ifconfig_ipv6 o) as [a6|] eqn:E6; [|by exists v1, k1]. destruct (tt_ipv6 tun); [|by exists v1, k1].
  assert (<[i := k1]> C !! i = Some k1) as Hi by apply lookup_insert_eq.
  rewrite (get_client_ok ext _ Q v1 i k1 Ht1 Hi). bret. set (k2 := set_ifconfig_ipv6 (Some a6) k1). exists (put_client i k2 v1), k2. split; [done|].
  split; [|split; [|done]].
  2: { destruct Hk1 as ((A & B & D) & E & F). by split. }
  rewrite <- (insert_insert_eq C i k2 k1). apply (tracks_update _ _ _ _ _ k1); try done.
  destruct (tr_client _ _ _ _ Ht1 _ _ Hi) as (A & B & _). split; [done|]. split; [done|]. cbn. intros b [= <-]. by apply (proj2 Ho).
Qed.
Lemma select_all now tun i os : ∀ C Q v k,
  tracks ext C Q v → C !! i = Some k → Forall options_ok os →
  ∃ v' k', foldM (λ o v, multi_select_virtual_addr now tun o i v) os v = Ret v' ∧ tracks ext (<[i := k']> C) Q v' ∧ readdressed k k' ∧ only_addresses v v'.
Proof.
  induction os as [|o os IH]; intros C Q v k Ht Hk Ho; cbn [foldM].
  { exists v, k. rewrite insert_id by done. done. }
  apply Forall_cons in Ho as [Ho Hos]. destruct (select_ok now tun o C Q v i k Ht Hk Ho) as (v1 & k1 & -> & Ht1 & ((A1 & B1 & D1) & E1 & F1) & Hv1). bret.
  destruct (IH _ _ _ k1 Ht1 (lookup_insert_eq _ _ _) Hos) as (v2 & k2 & -> & Ht2 & ((A2 & B2 & D2) & E2 & F2) & Hv2). rewrite insert_insert_eq in Ht2.
  exists v2, k2. split; [done|]. split; [done|]. split; [split; [split_and!|split]; congruence|]. unfold only_addresses in *. intuition congruence.
Qed.

(** ** Routes *)

Lemma msum_agree {A} (f : A → Z) (m m' : gmap nat A) : (∀ i, from_option f 0 (m' !! i) = from_option f 0 (m !! i)) → msum f m' = msum f m.
Proof.
  revert m'. induction m as [|i x m Hi IH] using map_ind; intros m' Ha.
  - rewrite msum_empty. induction m' as [|i x m' Hi IH] using map_ind; [by rewrite msum_empty|]. rewrite msum_insert by done.
    pose proof (Ha i) as Hx. rewrite lookup_insert_eq, lookup_empty in Hx. cbn in Hx. rewrite Hx, IH; [done|]. intros j. rewrite lookup_empty.
    destruct (decide (j = i)) as [->|]; [by rewrite Hi|]. specialize (Ha j). by rewrite lookup_insert_ne, lookup_empty in Ha by done.
  - rewrite msum_insert by done. pose proof (Ha i) as Hx. rewrite lookup_insert_eq in Hx. cbn in Hx.
    assert (∀ j, from_option f 0 (delete i m' !! j) = from_option f 0 (m !! j)) as Hrest.
    { intros j. destruct (decide (j = i)) as [->|]; [by rewrite lookup_delete_eq, Hi|]. rewrite lookup_delete_ne by done. rewrite Ha. by rewrite lookup_insert_ne. }
    destruct (m' !! i) as [y|] eqn:Ey; cbn in Hx.
    + rewrite <- (IH _ Hrest), (msum_delete f m' i y Ey). lia.
    + rewrite delete_id in Hrest by done. rewrite (IH m' Hrest). lia.
Qed.
Lemma folk_owes m m' : heap_ok m → folk m m' → msum owes (m_instances m') = msum owes (m_instances m).
Proof.
  intros Hm [Ha Hs]. apply msum_agree. intros i. destruct (m_instances m' !! i) as [z|] eqn:Ez.
  - destruct (Hs i z Ez) as (y & -> & a & b & ->). done.
  - destruct (m_instances m !! i) as [y|] eqn:Ey; [|done]. cbn. pose proof (Ha i) as Hai. unfold alive in Hai. rewrite Ez, Ey in Hai.
    destruct (heap_limited _ Hm _ _ Ey) as [_ Hh]. unfold owes. rewrite Hh; [done|]. destruct (mi_halt y); [done|by cbn in Hai].
Qed.

(** The routes change, and of the clients what routes depend on. *)
Lemma tracks_multi C Q v m :
  tracks ext C Q v → routing_ok m → reaper_ok m → (∀ i, alive m i = alive (v_multi v) i) →
  (∀ j z, m_instances m !! j = Some z → ∃ y, m_instances (v_multi v) !! j = Some y ∧ mi_tls z = mi_tls y ∧ mi_pf z = mi_pf y ∧ mi_halt z = mi_halt y ∧
     (mi_halt z = false → iroutes_ok z)) → tracks ext C Q (with_multi m v).
Proof.
  intros [Hal Hcl Hco Hro Hre Hpa Hne Hac Hreal Hsc Hq Had Hpo Hpe Hwa Hn] Hro' Hre' Hal' Hin. split; fields; try done.
  - intros i. by rewrite Hal'.
  - intros j z Hz. destruct (Hin j z Hz) as (y & Hy & -> & -> & _). by apply (Hpa j).
  - intros j z Hz Hh. destruct (Hin j z Hz) as (y & Hy & _ & _ & _ & H). by apply H.
  - intros j. fields. rewrite Hal'. apply Hac.
Qed.
Lemma tracks_folk C Q v m : tracks ext C Q v → folk (v_multi v) m → routing_ok m → reaper_ok m → tracks ext C Q (with_multi m v).
Proof.
  intros Ht [Ha Hs] Hro Hre. apply tracks_multi; try done. intros j z Hz. destruct (Hs j z Hz) as (y & Hy & a & b & ->).
  exists y. split; [done|]. split; [done|]. split; [done|]. split; [done|]. intros Hh. by apply (tr_networks _ _ _ _ Ht j y Hy).
Qed.

Section connect.
Context (little : bool) (script : option nat → learn_op → mroute_addr → bool) (now : Z).

(** The table has room for [n] more routes, and the counts of prefix lengths for those of a client. *)
Record affords (irs : list iroute) (irs6 : list iroute_ipv6) (m : multi_context) : Prop := {
  af_size : n_elements (m_vhash m) + 2 + Z.of_nat (length irs + length irs6) ≤ INT_MAX;
  af_dues : dues m + 2 * Z.of_nat (length irs + length irs6) < 2 ^ 32;
  af_counts : ∀ n, 0 ≤ n → count_of n (m_helper m) + times n (filter (λ n, 0 ≤ n) (netbits <$> irs) ++ (netbits6 <$> irs6)) ≤ INT_MAX;
}.
Lemma affords_cheaper irs irs6 m m' : no_dearer m m' → affords irs irs6 m → affords irs irs6 m'.
Proof. intros [A B C] [D E F]. split; [lia|lia|]. intros n Hn. specialize (C n Hn). specialize (F n Hn). lia. Qed.
Lemma generation_dues m : cache_generation (m_helper m) ≤ dues m.
Proof. unfold dues. pose proof (msum_nonneg owes (m_instances m) owes_nonneg). lia. Qed.

(** A client's own address, or a network without its bits. *)
Lemma learn_own C Q v i k addr : tracks ext C Q v → C !! i = Some k → wf_addr addr → ¬ is_net addr → n_elements (m_vhash (v_multi v)) < INT_MAX →
  ∃ o m, multi_learn_addr script now i addr 0 (v_multi v) = Ret (o, m) ∧ tracks ext C Q (with_multi m v) ∧ folk (v_multi v) m ∧ m_helper m = m_helper (v_multi v) ∧
    n_elements (m_vhash m) ≤ n_elements (m_vhash (v_multi v)) + 1.
Proof.
  intros Ht Hk Hw Hn Hsm. destruct (learn_host_ok script now i addr (v_multi v)) as (m & E & Hl & Hm); [apply Ht|exact Hsm|apply (tr_alive _ _ _ _ Ht); by rewrite Hk|done|done|].
  pose proof (learned_frame _ _ _ _ _ _ _ Hl) as Hf. eexists _, m. split; [exact E|]. split; [|split; [by apply frame_folk|split; [by apply frame_helper|apply (learned_size _ _ _ _ _ _ _ Hl)]]].
  apply tracks_folk; [done|by apply frame_folk|done|]. unfold reaper_ok. rewrite (frame_reaper _ _ Hf). apply Ht.
Qed.

Lemma lengths_le x : Z.of_nat (length (lengths x)) ≤ Z.of_nat (length (mi_iroutes x) + length (mi_iroutes_ipv6 x)).
Proof.
  unfold lengths. rewrite length_app, length_fmap. pose proof (length_filter (λ n, 0 ≤ n) (netbits <$> mi_iroutes x)) as Hl. rewrite length_fmap in Hl. lia.
Qed.

(** The other clients are as they were, counters apart. *)
Definition same_others (i : nat) (m m' : multi_context) : Prop :=
  ∀ j z, m_instances m' !! j = Some z → ∃ y, m_instances m !! j = Some y ∧ mi_tls z = mi_tls y ∧ mi_pf z = mi_pf y ∧ mi_halt z = mi_halt y ∧
    mi_iroutes z = mi_iroutes y ∧ mi_iroutes_ipv6 z = mi_iroutes_ipv6 y ∧ (j ≠ i → mi_did_iroutes z = mi_did_iroutes y).
Lemma folk_others i m m' : folk m m' → same_others i m m'.
Proof. intros [_ Hs] j z Hz. destruct (Hs j z Hz) as (y & Hy & a & b & ->). by exists y. Qed.
Lemma same_others_trans i m1 m2 m3 : same_others i m1 m2 → same_others i m2 m3 → same_others i m1 m3.
Proof.
  intros H1 H2 j z Hz. destruct (H2 j z Hz) as (y & Hy & A2 & B2 & D2 & E2 & F2 & G2). destruct (H1 j y Hy) as (x & Hx & A1 & B1 & D1 & E1 & F1 & G1).
  exists x. split; [done|]. split_and!; try congruence. intros Hj. rewrite G2, G1; done.
Qed.

Lemma connect_routes_ok C Q v i k x :
  tracks ext C Q v → C !! i = Some k → m_instances (v_multi v) !! i = Some x → mi_did_iroutes x = false →
  affords (mi_iroutes x) (mi_iroutes_ipv6 x) (v_multi v) →
  ∃ m, connect_routes little script now i v = Ret (with_multi m v) ∧ tracks ext C Q (with_multi m v) ∧ same_others i (v_multi v) m ∧
    dues m ≤ dues (v_multi v) + 2 * Z.of_nat (length (mi_iroutes x) + length (mi_iroutes_ipv6 x)).
Proof.
  intros Ht Hk Hx Hd [F1 F2 F3]. set (K := Z.of_nat _) in *. pose proof (tr_client _ _ _ _ Ht _ _ Hk) as (_ & K2 & K3).
  assert (0 ≤ K) as HK by lia. unfold connect_routes. rewrite (get_client_ok ext C Q v i k Ht Hk). bret.
  assert (∃ m1, (if k_ifconfig_defined k then '(_, m) ← multi_learn_in_addr_t little script now i (k_ifconfig_local k) (-1) (v_multi v); Ret m else Ret (v_multi v)) = Ret m1 ∧
    tracks ext C Q (with_multi m1 v) ∧ folk (v_multi v) m1 ∧ m_helper m1 = m_helper (v_multi v) ∧ n_elements (m_vhash m1) ≤ n_elements (m_vhash (v_multi v)) + 1)
    as (m1 & -> & T1 & P1 & G1 & S1).
  { destruct (k_ifconfig_defined k).
    - rewrite learn_in_addr_eq. destruct (in_addr_ok little (k_ifconfig_local k) (-1) K2 ltac:(lia)) as (Hw & _).
      destruct (learn_own C Q v i k (in_addr little (k_ifconfig_local k) (-1)) Ht Hk Hw) as (o & m1 & -> & H); [rewrite in_addr_net by (done || lia); lia|lia|].
      bret. by exists m1.
    - exists (v_multi v). split; [done|]. split; [by destruct v as [[]]|]. split; [apply folk_refl|]. split; [done|lia]. }
  bret. set (v1 := with_multi m1 v) in *.
  assert (∃ m2, (match k_ifconfig_ipv6 k with Some a6 => '(_, m) ← multi_learn_in6_addr little script now i a6 (-1) m1; Ret m | None => Ret m1 end) = Ret m2 ∧
    tracks ext C Q (with_multi m2 v) ∧ folk m1 m2 ∧ m_helper m2 = m_helper m1 ∧ n_elements (m_vhash m2) ≤ n_elements (m_vhash m1) + 1)
    as (m2 & -> & T2 & P2 & G2 & S2).
  { destruct (k_ifconfig_ipv6 k) as [a6|].
    - destruct (K3 a6 eq_refl) as [L6 B6]. rewrite learn_in6_addr_eq by (done || lia). destruct (in6_addr_ok little a6 (-1) L6 B6 ltac:(lia)) as (Hw & _ & Hty).
      rewrite decide_False in Hty by lia. destruct Hty as [Hty _].
      destruct (learn_own C Q v1 i k (in6_addr little a6 (-1)) T1 Hk Hw) as (o & m2 & E & H); [unfold is_net; rewrite Hty; intros Hn; by apply Hn|change (v_multi v1) with m1; lia|].
      change (v_multi v1) with m1 in E. rewrite E. bret. by exists m2.
    - exists m1. split; [done|]. split; [done|]. split; [apply folk_refl|]. split; [done|lia]. }
  bret. pose proof (folk_trans _ _ _ P1 P2) as P12.
  assert (∃ a b, m_instances m2 !! i = Some (set_counts a b x)) as (a & b & Hx2).
  { destruct (alive_instance m2 i) as (z & Hz & _); [apply (tr_alive _ _ _ _ T2); by rewrite Hk|].
    destruct (proj2 P12 i z Hz) as (y & Hy & a & b & ->). rewrite Hx in Hy. injection Hy as <-. by exists a, b. }
  set (x2 := set_counts a b x) in *.
  assert (mi_halt x = false) as Hh.
  { destruct (alive_instance (v_multi v) i) as (z & Hz & Hh); [apply (tr_alive _ _ _ _ Ht); by rewrite Hk|]. congruence. }
  destruct (add_iroutes_ok little script now i x2 m2) as (m3 & -> & R3 & Re3 & P3 & Ge3 & _);
    [apply (tr_routing _ _ _ _ T2)|apply (tr_reaper _ _ _ _ T2)|done|done|done|apply (tr_networks _ _ _ _ Ht i x Hx Hh)| |].
  { pose proof (generation_dues (v_multi v)). split; [cbn; lia|]. rewrite G2, G1. split; [cbn; lia|]. intros n Hn. specialize (F3 n Hn). cbn. exact F3. }
  bret. exists m3. split; [done|].
  set (m20 := put_instance i (set_halt (mi_halt x2) true x2) m2) in *.
  assert (same_others i (v_multi v) m3) as Hso.
  { apply (same_others_trans i _ m20); [|by apply folk_others]. apply (same_others_trans i _ m2); [by apply folk_others|].
    intros j z Hz. cbn in Hz. apply lookup_insert_Some in Hz as [[<- <-]|[Hne Hz]]; [by exists x2|by exists z]. }
  split; [|split; [done|]].
  - apply tracks_multi; try done.
    + intros j. rewrite (proj1 P3), <- (proj1 P12). subst m20. by apply (put_instance_alive m2 i x2).
    + intros j z Hz. destruct (Hso j z Hz) as (y & Hy & A & B & D & E & F & _). exists y. split; [done|]. split; [done|]. split; [done|]. split; [done|].
      intros Hhz. unfold iroutes_ok. rewrite E, F. apply (tr_networks _ _ _ _ Ht j y Hy). congruence.
  - unfold dues. rewrite <- (folk_owes _ _ (routing_heap _ (tr_routing _ _ _ _ Ht)) P12).
    assert (msum owes (m_instances m3) = msum owes (m_instances m20)) as ->.
    { apply msum_agree. intros j. destruct (m_instances m3 !! j) as [z|] eqn:Ez.
      - destruct (proj2 P3 j z Ez) as (y & -> & a' & b' & ->). done.
      - destruct (m_instances m20 !! j) as [y|] eqn:Ey; [|done]. pose proof (proj1 P3 j) as Ha. unfold alive in Ha. rewrite Ez, Ey in Ha.
        subst m20. cbn in Ey. apply lookup_insert_Some in Ey as [[<- <-]|[Hne Ey]]; [cbn in Ha; by rewrite Hh in Ha|].
        destruct (heap_limited _ (routing_heap _ (tr_routing _ _ _ _ T2)) _ _ Ey) as [_ Hl]. cbn. unfold owes. rewrite Hl; [done|]. by destruct (mi_halt y). }
    subst m20. cbn [put_instance set_instances m_instances]. rewrite (msum_update _ _ _ _ _ Hx2). unfold owes at 2 3. subst x2. cbn [set_counts set_halt mi_did_iroutes].
    rewrite Hd. rewrite G2, G1 in Ge3. pose proof (lengths_le x) as Hl. change (lengths (set_halt (mi_halt (set_counts a b x)) true (set_counts a b x))) with (lengths x).
    cbn in Ge3. fold K in Hl. lia.
Qed.

(** ** A client has authenticated *)

Definition connection_ok (c : connection) : Prop :=
  Forall options_ok (cn_options c) ∧ Forall iroute_ok (cn_iroutes c) ∧ Forall iroute6_ok (cn_iroutes_ipv6 c).
(** A client whose connection is not established has nothing from it yet. *)
Definition pristine (k : client) (m : multi_context) (i : nat) : Prop :=
  k_vaddr_handle k = -1 ∧ ∀ x, m_instances m !! i = Some x → mi_did_iroutes x = false.

Lemma tracks_networks C Q v i x irs irs6 :
  tracks ext C Q v → m_instances (v_multi v) !! i = Some x → mi_did_iroutes x = false → Forall iroute_ok irs → Forall iroute6_ok irs6 →
  tracks ext C Q (with_multi (put_instance i (set_networks irs irs6 x) (v_multi v)) v).
Proof.
  intros Ht Hx Hd Hi4 Hi6. apply tracks_multi; [done| |apply (tr_reaper _ _ _ _ Ht)| |].
  - apply (put_routing i x); try done; [by rewrite Hd| |apply Ht]. change (lengths (set_networks irs irs6 x)) with (lens4 irs ++ (netbits6 <$> irs6)).
    intros n [Hn|Hn]%elem_of_app.
    + apply list_elem_of_filter in Hn as [H0 (ir & -> & Hir)%list_elem_of_fmap]. rewrite Forall_forall in Hi4. destruct (Hi4 _ Hir) as ([_ ?] & _). lia.
    + apply list_elem_of_fmap in Hn as (ir & -> & Hir). rewrite Forall_forall in Hi6. destruct (Hi6 _ Hir) as (_ & _ & ?). lia.
  - intros j. by apply (put_instance_alive _ i x).
  - intros j z Hz. cbn in Hz. apply lookup_insert_Some in Hz as [[<- <-]|[Hne Hz]]; [by exists x|].
    exists z. split; [done|]. split; [done|]. split; [done|]. split; [done|]. by apply (tr_networks _ _ _ _ Ht j).
Qed.

(** The client counts as one of those that are established. *)
Lemma tracks_counted C Q v i k :
  tracks ext C Q v → C !! i = Some k → k_established k = false → v_n_clients v < INT_MAX →
  let k' := set_established true (-1) k in
  tracks ext (<[i := k']> C) Q (put_client i k' (set_n_clients (v_n_clients v + 1) v)).
Proof.
  intros Ht Hk He Hn k'. pose proof (tr_client _ _ _ _ Ht _ _ Hk) as (K1 & K2 & K3). rewrite He in K1.
  assert (∀ j, is_Some (<[i := k']> C !! j) ↔ is_Some (C !! j)) as Hiff.
  { intros j. rewrite lookup_insert_is_Some'. split; [intros [<-|]; [by rewrite Hk|done]|by right]. }
  destruct Ht as [Hal Hcl Hco Hro Hre Hpa Hne Hac Hreal Hsc Hq Had Hpo Hpe Hwa [Hcn Hmax]]. split; fields; try done.
  - intros j. by rewrite Hiff.
  - intros j kj [[<- <-]|[Hne' Hj]]%lookup_insert_Some; [by rewrite lookup_insert_eq|rewrite lookup_insert_ne by done; by apply Hcl].
  - intros j kj [[<- <-]|[Hne' Hj]]%lookup_insert_Some; [by split|by apply (Hco j)].
  - by eapply table_update.
  - by eapply schedule_update.
  - intros q j Hj. rewrite Hiff. by eapply Had.
  - by eapply pool_update.
  - intros j Hj. rewrite Hiff. by apply Hpe.
  - intros j Hj. rewrite Hiff. by apply Hwa.
  - rewrite (msum_update _ _ _ k) by done. cbn. lia.
Qed.

Lemma dup_self m i : dup m i i = false.
Proof. apply bool_decide_eq_false. by intros []. Qed.

(** The clients that are closed for a connection. *)
Definition ousted (c : connection) (m : multi_context) (i : nat) : nat → bool :=
  if cn_duplicate_cn c then λ _, false else dup m i.

Lemma msum_without g C : (∀ i k, C !! i = Some k → client_ok k) → msum k_n_clients_delta C ≤ msum k_n_clients_delta (without g C).
Proof.
  induction C as [|i k C Hi IH] using map_ind; intros Hok; [by rewrite without_none by (intros j []; by rewrite lookup_empty in *)|].
  rewrite msum_insert by done. destruct (Hok i k) as (Hk & _); [by rewrite lookup_insert_eq|].
  assert (k_n_clients_delta k ≤ 0) by (rewrite Hk; destruct (k_established k); lia).
  assert (msum k_n_clients_delta C ≤ msum k_n_clients_delta (without g C)) as H1.
  { apply IH. intros j kj Hj. apply (Hok j). rewrite lookup_insert_ne; [done|congruence]. }
  assert (without g (<[i := k]> C) = if g i then without g C else <[i := k]> (without g C)) as ->.
  { apply map_eq. intros j. rewrite without_lookup. destruct (decide (j = i)) as [->|].
    - rewrite lookup_insert_eq. destruct (g i) eqn:E; [by rewrite without_lookup, E|by rewrite lookup_insert_eq].
    - rewrite lookup_insert_ne by done. destruct (g i); [by rewrite without_lookup|by rewrite lookup_insert_ne, without_lookup]. }
  destruct (g i) eqn:E; [lia|]. rewrite msum_insert; [lia|]. by rewrite without_lookup, E.
Qed.
Lemma oust_ok C Q v i c :
  tracks ext C Q v → iter_of_clients C v → (∀ j k, C !! j = Some k → k_did_iter k = true) → dues (v_multi v) < 2 ^ 32 → is_Some (C !! i) →
  let g := ousted c (v_multi v) i in
  ∃ v', (if cn_duplicate_cn c then Ret v else multi_delete_dup now i v) = Ret v' ∧ tracks ext (without g C) (forget_where g Q) v' ∧
    iter_of_clients (without g C) v' ∧ unmoved v v' ∧ no_dearer (v_multi v) (v_multi v') ∧ v_n_clients v' ≤ v_n_clients v ∧
    ∀ j, g j = false → m_instances (v_multi v') !! j = m_instances (v_multi v) !! j.
Proof.
  intros Ht Hit Hall Hd Hi. unfold ousted. destruct (cn_duplicate_cn c).
  - exists v. rewrite without_none, forget_none by done. split_and!; try done.
  - destruct (delete_dup_ok ext Hext now C Q v i Ht Hit Hall Hd Hi) as (v' & E & Ht' & Hit' & Hum & Hnd & Hin).
    exists v'. split_and!; try done. destruct (tr_count _ _ _ _ Ht) as [-> _]. destruct (tr_count _ _ _ _ Ht') as [-> _].
    pose proof (msum_without (dup (v_multi v) i) C (tr_client _ _ _ _ Ht)). lia.
Qed.

(** What [multi_connection_established] may use. *)
Record may_connect (c : connection) (v : server) : Prop := {
  mc_ok : connection_ok c;
  mc_affords : affords (cn_iroutes c) (cn_iroutes_ipv6 c) (v_multi v);
  mc_count : v_n_clients v < INT_MAX;
}.
(** The client is now [k'], the clients [g] are gone, and the others are as they were. *)
Record connected (g : nat → bool) (i : nat) (k k' : client) (v v' : server) : Prop := {
  cd_established : k_established k' = true;
  cd_real : k_real k' = k_real k;
  cd_did : k_did_real_hash k' = k_did_real_hash k ∧ k_did_iter k' = k_did_iter k;
  cd_unmoved : unmoved v v';
  cd_others : ∀ j z, j ≠ i → g j = false → m_instances (v_multi v') !! j = Some z →
    ∃ y, m_instances (v_multi v) !! j = Some y ∧ mi_tls z = mi_tls y ∧ mi_did_iroutes z = mi_did_iroutes y;
}.

Lemma iter_update C v v' i k k' : iter_of_clients C v → C !! i = Some k → k_did_iter k' = k_did_iter k → k_real k' = k_real k →
  s_iter (v_switch v') = s_iter (v_switch v) → iter_of_clients (<[i := k']> C) v'.
Proof. unfold iter_of_clients. intros Hi Hk H1 H2 ->. by eapply table_update. Qed.

Context (tun : tun_info).

Lemma established_ok C Q v i k c :
  tracks ext C Q v → iter_of_clients C v → (∀ j k, C !! j = Some k → k_did_iter k = true) → C !! i = Some k → k_established k = false →
  pristine k (v_multi v) i → may_connect c v →
  let g := ousted c (v_multi v) i in
  ∃ v' k', multi_connection_established little script tun now i (Some c) v = Ret v' ∧
    tracks ext (<[i := k']> (without g C)) (forget_where g Q) v' ∧ iter_of_clients (<[i := k']> (without g C)) v' ∧ connected g i k k' v v' ∧
    dues (v_multi v') < 2 ^ 32.
Proof.
  intros Ht Hit Hall Hk He [Hh Hd] [(Oos & Oi4 & Oi6) Haf Hcount] g. unfold multi_connection_established.
  assert (dues (v_multi v) < 2 ^ 32) as Hdues by (destruct Haf; lia).
  destruct (oust_ok C Q v i c Ht Hit Hall Hdues) as (v1 & -> & T1 & I1 & U1 & N1 & L1 & M1); [by rewrite Hk|]. fold g in T1, I1, M1. bret.
  assert (g i = false) as Hgi by (unfold g, ousted; destruct (cn_duplicate_cn c); [done|apply dup_self]).
  assert (without g C !! i = Some k) as Hk1 by by rewrite without_lookup, Hgi.
  rewrite (get_client_ok ext _ _ v1 i k T1 Hk1). bret. set (k2 := set_handle (-1) k).
  assert (tracks ext (<[i := k2]> (without g C)) (forget_where g Q) (put_client i k2 v1)) as T2.
  { apply (tracks_update _ _ _ _ _ k); try done. apply (tr_client _ _ _ _ Ht _ _ Hk). }
  destruct (select_all now tun i (cn_options c) _ _ _ k2 T2 (lookup_insert_eq _ _ _) Oos) as (v3 & k3 & -> & T3 & ((A3 & B3 & D3) & E3 & G3) & V3). bret.
  rewrite insert_insert_eq in T3. destruct V3 as (Vs & Vh & Vsc & Vl & Vp & Vn & Vm). cbn in Vs, Vh, Vl, Vm, Vn.
  assert (v_multi v3 = v_multi v1) as Vmu by (unfold v_multi; by rewrite Vs).
  destruct (alive_instance (v_multi v3) i) as (x & Hx & Hhx); [apply (tr_alive _ _ _ _ T3); by rewrite lookup_insert_eq|].
  rewrite (get_instance_ok _ _ _ Hx). bret.
  assert (mi_did_iroutes x = false) as Hdx by (apply Hd; rewrite <- M1 by done; by rewrite <- Vmu).
  pose proof (tracks_networks _ _ v3 i x (cn_iroutes c) (cn_iroutes_ipv6 c) T3 Hx Hdx Oi4 Oi6) as T4.
  set (x4 := set_networks (cn_iroutes c) (cn_iroutes_ipv6 c) x) in *. set (v4 := with_multi _ v3) in *.
  assert (m_instances (v_multi v4) !! i = Some x4) as Hx4 by (cbn; apply lookup_insert_eq).
  assert (no_dearer (v_multi v) (v_multi v4)) as N4.
  { eapply no_dearer_trans; [done|]. rewrite <- Vmu. split; [done| |done]. unfold dues. cbn. rewrite (msum_same _ _ _ x); [done|done|]. unfold owes. cbn. by rewrite Hdx. }
  assert (∀ j z, j ≠ i → m_instances (v_multi v4) !! j = Some z → m_instances (v_multi v1) !! j = Some z) as M4.
  { intros j z Hj Hz. cbn in Hz. rewrite lookup_insert_ne in Hz by done. by rewrite Vmu in Hz. }
  assert (∃ m5, (if cn_succeeded c && bool_decide (tt_type tun = DEV_TYPE_TUN) then connect_routes little script now i v4 else Ret v4) = Ret (with_multi m5 v4) ∧
    tracks ext (<[i := k3]> (without g C)) (forget_where g Q) (with_multi m5 v4) ∧ same_others i (v_multi v4) m5 ∧
    dues m5 ≤ dues (v_multi v4) + 2 * Z.of_nat (length (cn_iroutes c) + length (cn_iroutes_ipv6 c))) as (m5 & -> & T5 & S5 & D5).
  { destruct (cn_succeeded c && bool_decide (tt_type tun = DEV_TYPE_TUN)).
    - destruct (connect_routes_ok _ _ v4 i k3 x4 T4 (lookup_insert_eq _ _ _) Hx4 Hdx) as (m5 & -> & H); [by eapply affords_cheaper|]. by exists m5.
    - exists (v_multi v4). assert (with_multi (v_multi v4) v4 = v4) as -> by (by destruct v4 as [[]]). split; [done|]. split; [done|].
      split; [apply folk_others, folk_refl|lia]. }
  bret. set (v5 := with_multi m5 v4) in *. assert (v_n_clients v5 < INT_MAX) as Hn5 by (change (v_n_clients v5) with (v_n_clients v3); lia).
  assert (k_established k3 = false) as He3 by (by rewrite G3). assert (k_n_clients_delta k3 = 0) as Hd3.
  { destruct (tr_client _ _ _ _ T3 i k3) as (-> & _); [apply lookup_insert_eq|]. by rewrite He3. }
  destruct (tr_count _ _ _ _ T5) as [Hcn Hcm]. assert (0 ≤ v_n_clients v5) as Hpos.
  { rewrite Hcn. pose proof (msum_bounds _ (tr_client _ _ _ _ T5)). lia. }
  rewrite (int_ok (v_n_clients v5 + 1)) by (ints; lia). bret. rewrite (get_client_ok ext _ _ v5 i k3 T5 (lookup_insert_eq _ _ _)). bret. rewrite Hd3.
  rewrite int_ok by (ints; lia). bret. change (0 - 1) with (-1). set (k6 := set_established true (-1) k3).
  pose proof (tracks_counted _ _ v5 i k3 T5 (lookup_insert_eq _ _ _) He3 Hn5) as T6. cbv zeta in T6. fold k6 in T6. rewrite insert_insert_eq in T6.
  eexists _, k6. split; [done|]. split; [exact T6|]. split; [|split].
  - eapply (iter_update _ v1 _ i k); [done|done|exact E3|exact A3|]. cbn. by rewrite Vs.
  - split; [done|exact A3|by split|..].
    + eapply unmoved_trans; [done|]. split; cbn; rewrite ?Vh, ?Vm, ?Vl, ?Vs; done.
    + intros j z Hj Hg Hz. change (m_instances m5 !! j = Some z) in Hz. destruct (S5 j z Hz) as (y & Hy & A & _ & _ & _ & _ & B). exists y. rewrite <- M1 by done.
      split; [by apply M4|]. split; [done|by apply B].
  - change (dues m5 < 2 ^ 32). destruct Haf. pose proof (nd_dues _ _ N4). lia.
Qed.

(** ** Between two operations *)

Definition settled (C : gmap nat client) (v : server) : Prop :=
  ∀ j k, C !! j = Some k → k_established k = false → pristine k (v_multi v) j.
Record serves (C : gmap nat client) (Q : list (option (list Z * nat))) (v : server) : Prop := {
  sv_tracks : tracks ext C Q v;
  sv_iter : iter_of_clients C v;
  sv_listed : ∀ j k, C !! j = Some k → k_did_iter k = true;
  sv_settled : settled C v;
  sv_dues : dues (v_multi v) < 2 ^ 32;
}.

Lemma serves_established C Q v i k c :
  serves C Q v → C !! i = Some k → k_established k = false → may_connect c v →
  let g := ousted c (v_multi v) i in
  ∃ v' k', multi_connection_established little script tun now i (Some c) v = Ret v' ∧
    serves (<[i := k']> (without g C)) (forget_where g Q) v' ∧ connected g i k k' v v'.
Proof.
  intros [Ht Hit Hall Hse Hdu] Hk He Hmc g. destruct (established_ok C Q v i k c Ht Hit Hall Hk He (Hse i k Hk He) Hmc) as (v' & k' & E & T' & I' & Hc & D').
  fold g in T', I', Hc. exists v', k'. split; [done|]. split; [|done]. destruct Hc as [Ce Cr [_ Ci] _ Co]. split; try done.
  - intros j kj [[<- <-]|[Hne Hj]]%lookup_insert_Some; [rewrite Ci; by eapply Hall|]. rewrite without_lookup in Hj. destruct (g j); [done|by eapply Hall].
  - intros j kj [[<- <-]|[Hne Hj]]%lookup_insert_Some Hej; [congruence|]. rewrite without_lookup in Hj. destruct (g j) eqn:Eg; [done|].
    destruct (Hse j kj Hj Hej) as [P1 P2]. split; [done|]. intros z Hz. destruct (Co j z) as (y & Hy & _ & ->); [done|done|done|by apply P2].
Qed.
Lemma serves_close C Q v i k :
  serves C Q v → C !! i = Some k →
  ∃ v', multi_close_instance now i false v = Ret v' ∧ serves (delete i C) (map (forget_packets i) Q) v' ∧ undisturbed i v v'.
Proof.
  intros [Ht Hit Hall Hse Hdu] Hk. destruct (close_client ext Hext now C Q v i k Ht Hk Hdu (λ _, Hit)) as (v' & E & T' & U' & I').
  rewrite (Hall i k Hk) in I'. exists v'. split; [done|]. split; [|done]. split; try done.
  - intros j kj [_ Hj]%lookup_delete_Some. by eapply Hall.
  - intros j kj [Hne Hj]%lookup_delete_Some Hej. destruct (Hse j kj Hj Hej) as [P1 P2]. split; [done|]. intros z. rewrite (ud_instances _ _ _ U') by done. apply P2.
  - pose proof (nd_dues _ _ (ud_dearer _ _ _ U')). lia.
Qed.

(** ** After an event of a client *)

Context (random : nat → Z).

Lemma serves_schedule C Q v s : serves C Q v → schedule_of C s → serves C Q (set_schedule s v).
Proof. intros [[] ? ? ? ?] Hs. by split. Qed.
Lemma serves_pending C Q v o : serves C Q v → (∀ i, o = Some i → is_Some (C !! i)) → serves C Q (multi_set_pending o v).
Proof. intros [[] ? ? ? ?] Hs. by split. Qed.

(** What [pre_select] may leave of a client's session and filter. *)
Definition session_fits (p : post) : Prop := session_ok (p_tls p) ∧ context_ok (p_pf p).
(** [pre_select] is called. *)
Definition prepares (p : post) (flags : Z) : bool :=
  negb (p_sig0 p) && (bool_decide (Z.land flags MPP_PRE_SELECT ≠ 0) || bool_decide (Z.land flags MPP_CONDITIONAL_PRE_SELECT ≠ 0) && negb (p_any_out0 p)).
Definition renewed (i : nat) (p : post) (m : multi_context) : multi_context :=
  match m_instances m !! i with Some x => put_instance i (set_session (p_tls p) (p_pf p) x) m | None => m end.
Definition prepared (i : nat) (p : post) (flags : Z) (m : multi_context) : multi_context := if prepares p flags then renewed i p m else m.

Lemma renewed_ok C Q v i k p :
  serves C Q v → C !! i = Some k → session_fits p →
  take_session i p v = Ret (with_multi (renewed i p (v_multi v)) v) ∧ serves C Q (with_multi (renewed i p (v_multi v)) v) ∧
  no_dearer (v_multi v) (renewed i p (v_multi v)).
Proof.
  intros [Ht Hit Hall Hse Hdu] Hk [Hss Hco]. assert (alive (v_multi v) i = true) as Ha by (apply (tr_alive _ _ _ _ Ht); by rewrite Hk).
  assert (∃ x, m_instances (v_multi v) !! i = Some x ∧ mi_halt x = false) as (x & Hx & Hh).
  { unfold alive in Ha. destruct (m_instances (v_multi v) !! i) as [x|]; [|done]. exists x. split; [done|by destruct (mi_halt x)]. }
  unfold take_session, renewed. rewrite (get_instance_ok _ _ _ Hx), bind_Ret, Hx. set (y := set_session (p_tls p) (p_pf p) x).
  assert (dues (put_instance i y (v_multi v)) = dues (v_multi v)) as Ed by (unfold dues; cbn; by rewrite (msum_same _ _ _ x)).
  assert (∀ j, alive (put_instance i y (v_multi v)) j = alive (v_multi v) j) as Hal by (intros j; by apply (put_instance_alive _ i x)).
  split; [done|]. split; [|split; [done|change (v_multi v) with (v_multi v); lia|done]]. split; [|done|done| |fields; change (s_multi (v_switch v)) with (v_multi v); lia].
  - assert (routing_ok (put_instance i y (v_multi v))) as Hr'.
    { apply (put_routing i x); try done; [by intros n; apply (helper_lengths _ _ (routing_helper _ (tr_routing _ _ _ _ Ht)) i x)|apply Ht]. }
    destruct Ht as [Hal0 Hcl Hcok Hro Hre Hpa Hne Hac Hreal Hsc Hq Had Hpo Hpe Hwa Hn]. split; fields; try done.
    + intros j. rewrite Hal. apply Hal0.
    + intros j z Hz. cbn in Hz. revert Hz. intros [[<- <-]|[Hnj Hz]]%lookup_insert_Some; [done|by apply (Hpa j)].
    + intros j z Hz. cbn in Hz. revert Hz. intros [[<- <-]|[Hnj Hz]]%lookup_insert_Some; [by apply (Hne i x)|by apply (Hne j)].
    + intros j. fields. rewrite Hal. apply Hac.
  - intros j kj Hj He. destruct (Hse j kj Hj He) as [P1 P2]. split; [done|]. intros z. fields. cbn.
    intros [[<- <-]|[_ Hz]]%lookup_insert_Some; [exact (P2 x Hx)|by apply P2].
Qed.

(** [pre_select] is called, and there was no signal. *)
Definition selects (p : post) (flags : Z) : bool := prepares p flags && negb (p_sig1 p).
(** The connection that is established, if any. *)
Definition connects (k : client) (p : post) (flags : Z) : option connection :=
  if selects p flags && negb (k_established k) && p_established p then p_connection p else None.
Definition gone_for (o : option connection) (m : multi_context) (i : nat) : nat → bool :=
  match o with Some c => ousted c m i | None => λ _, false end.
Definition closes (p : post) (flags : Z) : bool := p_sig2 p && bool_decide (Z.land flags MPP_CLOSE_ON_SIGNAL ≠ 0).
(** The client itself afterwards. *)
Definition became (o : option connection) (k k' : client) : Prop :=
  k_real k' = k_real k ∧ k_did_real_hash k' = k_did_real_hash k ∧ k_did_iter k' = k_did_iter k ∧
  k_established k' = if o then true else k_established k.

(** Apart from the connection, nothing becomes dearer. *)
Definition calm (o : option connection) (v v' : server) : Prop := unmoved v v' ∧ (o = None → no_dearer (v_multi v) (v_multi v')).
Lemma calm_after o v1 v2 v3 : unmoved v1 v2 → no_dearer (v_multi v1) (v_multi v2) → calm o v2 v3 → calm o v1 v3.
Proof. intros H1 H2 [H3 H4]. split; [by eapply unmoved_trans|]. intros Ho. eapply no_dearer_trans; [done|by apply H4]. Qed.

Lemma schedule_and_establish_ok C Q v i k p flags :
  serves C Q v → C !! i = Some k → fresh_draw random (v_schedule v) i → selects p flags = true →
  (∀ c, connects k p flags = Some c → may_connect c v) →
  let g := gone_for (connects k p flags) (v_multi v) i in
  ∃ v' k' n, (∀ fuel, (n ≤ fuel)%nat → schedule_and_establish little script random tun now fuel i p v = Ret v') ∧ calm (connects k p flags) v v' ∧
    became (connects k p flags) k k' ∧ serves (<[i := k']> (without g C)) (forget_where g Q) v'.
Proof.
  intros Hs Hk Hfr Hsel Hmc g.
  destruct (schedule_wake random C (v_schedule v) i (tv_add (p_time p) (p_delta p)) (compute_wakeup_sigma (p_delta p)) (tr_schedule _ _ _ _ (sv_tracks _ _ _ Hs)))
    as (s & n & E & Hsc); [by rewrite Hk|done|].
  pose proof (serves_schedule C Q v s Hs Hsc) as Hs1. set (v1 := set_schedule s v) in *.
  assert (∀ fuel, (n ≤ fuel)%nat → schedule_and_establish little script random tun now fuel i p v =
    if negb (k_established k) && p_established p then multi_connection_established little script tun now i (p_connection p) v1 else Ret v1) as E1.
  { intros fuel Hf. unfold schedule_and_establish, multi_schedule_context_wakeup. rewrite (get_client_ok ext C Q v i k (sv_tracks _ _ _ Hs) Hk). bret.
    rewrite E by done. bret. fold v1. rewrite (get_client_ok ext C Q v1 i k (sv_tracks _ _ _ Hs1) Hk). by bret. }
  assert (connects k p flags = None → ∃ v' k' n, (∀ fuel : nat, (n ≤ fuel)%nat → Ret v1 = Ret v') ∧ calm (connects k p flags) v v' ∧
    became (connects k p flags) k k' ∧ serves (<[i := k']> (without g C)) (forget_where g Q) v') as Hsame.
  { intros Hn. exists v1, k, 0%nat. subst g. rewrite Hn. cbn [gone_for]. rewrite without_none, forget_none, insert_id by done. by split_and!. }
  unfold connects in Hsame, Hmc |- *. subst g. unfold connects in Hsame |- *. rewrite Hsel in *. cbn [andb] in *.
  destruct (negb (k_established k) && p_established p) eqn:Eb.
  2: { destruct (Hsame eq_refl) as (v' & k' & m & Em & H). exists v', k', (n + m)%nat. split; [|done]. intros fuel Hf. rewrite E1 by lia. apply Em with fuel. lia. }
  apply andb_true_iff in Eb as [He%negb_true_iff _]. destruct (p_connection p) as [c|] eqn:Ec.
  - destruct (serves_established C Q v1 i k c Hs1 Hk He) as (v' & k' & Ev & Hv' & Hcd); [destruct (Hmc c eq_refl); by split|].
    exists v', k', n. split; [intros fuel Hf; by rewrite E1|]. destruct Hcd as [Ce Cr [Cd1 Cd2] Cu _]. split; [|split; [done|exact Hv']].
    split; [|done]. eapply unmoved_trans; [|exact Cu]. by split.
  - destruct (Hsame eq_refl) as (v' & k' & m & Em & H). exists v', k', (n + m)%nat. split; [|done]. intros fuel Hf. rewrite E1 by lia. cbn. apply Em with fuel. lia.
Qed.

Lemma may_connect_renewed c v i p : no_dearer (v_multi v) (renewed i p (v_multi v)) → may_connect c v → may_connect c (with_multi (renewed i p (v_multi v)) v).
Proof. intros Hn [H1 H2 H3]. split; [done|by eapply affords_cheaper|done]. Qed.

(** Until the signal is looked at. *)
Lemma pre_post_ok C Q v i k p flags :
  serves C Q v → C !! i = Some k → session_fits p → fresh_draw random (v_schedule v) i →
  (∀ c, connects k p flags = Some c → may_connect c v) →
  let g := gone_for (connects k p flags) (prepared i p flags (v_multi v)) i in
  ∃ v' k' n, (∀ fuel, (n ≤ fuel)%nat →
    (if prepares p flags then
       v ← take_session i p v;
       if negb (p_sig1 p) then schedule_and_establish little script random tun now fuel i p v else Ret v
     else Ret v) = Ret v') ∧ calm (connects k p flags) v v' ∧ became (connects k p flags) k k' ∧ serves (<[i := k']> (without g C)) (forget_where g Q) v'.
Proof.
  intros Hs Hk Hss Hfr Hmc g.
  assert (∀ v1, serves C Q v1 → connects k p flags = None → serves (<[i := k]> (without g C)) (forget_where g Q) v1) as Hsame.
  { intros v1 Hs1 Hn. subst g. rewrite Hn. cbn [gone_for]. by rewrite without_none, forget_none, insert_id. }
  assert (selects p flags = false → connects k p flags = None) as Hcn by (intros E; unfold connects; by rewrite E).
  subst g. unfold selects, prepared in *. destruct (prepares p flags) eqn:Ep.
  - destruct (renewed_ok C Q v i k p Hs Hk Hss) as (E & Hs0 & Hd). setoid_rewrite E. setoid_rewrite bind_Ret.
    set (v0 := with_multi (renewed i p (v_multi v)) v) in *. destruct (p_sig1 p) eqn:E1; cbn [negb andb] in *.
    + exists v0, k, 0%nat. split; [done|]. split; [split; [by split|done]|]. rewrite Hcn by done. split; [done|]. by rewrite <- Hcn by done; apply Hsame, Hcn.
    + assert (selects p flags = true) as Hsel by (unfold selects; by rewrite Ep, E1).
      destruct (schedule_and_establish_ok C Q v0 i k p flags Hs0 Hk Hfr Hsel) as (v' & k' & n & E' & U & B & S').
      { intros c Hc. apply may_connect_renewed; auto. }
      exists v', k', n. split; [done|]. split; [|done]. apply (calm_after _ v v0); [by split|exact Hd|exact U].
  - exists v, k, 0%nat. split; [done|]. split; [by split|]. rewrite Hcn by done. split; [done|]. by rewrite <- Hcn by done; apply Hsame, Hcn.
Qed.

Lemma post_ok C Q v i k p flags :
  serves C Q v → C !! i = Some k → session_fits p → fresh_draw random (v_schedule v) i →
  (∀ c, connects k p flags = Some c → may_connect c v) →
  let g := gone_for (connects k p flags) (prepared i p flags (v_multi v)) i in
  ∃ v' n, (∀ fuel, (n ≤ fuel)%nat → multi_process_post little script random tun now fuel i p flags v = Ret (negb (closes p flags), v')) ∧ calm (connects k p flags) v v' ∧
    if closes p flags then serves (delete i (without g C)) (map (forget_packets i) (forget_where g Q)) v'
    else ∃ k', became (connects k p flags) k k' ∧ serves (<[i := k']> (without g C)) (forget_where g Q) v'.
Proof.
  intros Hs Hk Hss Hfr Hmc g. unfold multi_process_post. fold (prepares p flags).
  destruct (pre_post_ok C Q v i k p flags Hs Hk Hss Hfr Hmc) as (v1 & k1 & n & E & U1 & B1 & S1). fold g in S1.
  unfold closes. destruct (p_sig2 p); cbn [andb].
  - destruct (decide (Z.land flags MPP_CLOSE_ON_SIGNAL ≠ 0)) as [Hf|Hf].
    + rewrite (bool_decide_eq_true_2 _ Hf). destruct (serves_close _ _ v1 i k1 S1 (lookup_insert_eq _ _ _)) as (v2 & E2 & S2 & U2). rewrite delete_insert_eq in S2.
      exists v2, n. split; [intros fuel Hfu; rewrite E by done; bret; rewrite E2; by bret|]. split; [|done].
      destruct U1 as [U1 D1]. split; [eapply unmoved_trans; [done|by eapply undisturbed_unmoved]|].
      intros Ho. eapply no_dearer_trans; [by apply D1|apply (ud_dearer _ _ _ U2)].
    + rewrite (bool_decide_eq_false_2 _ Hf). exists v1, n. split; [intros fuel Hfu; rewrite E by done; by bret|]. split; [done|]. by exists k1.
  - set (o := if p_any_out2 p then Some i else None). exists (multi_set_pending o v1), n. split; [intros fuel Hfu; rewrite E by done; by bret|].
    split; [destruct U1 as [U1 D1]; split; [eapply unmoved_trans; [done|by split]|done]|]. exists k1. split; [done|]. apply serves_pending; [done|]. subst o. destruct (p_any_out2 p); [|done].
    intros j [= <-]. by rewrite lookup_insert_eq.
Qed.
End connect.
End ops.
