(* ===== verification/OvpnServerEventProofs.v ===== *)
(** * OpenVPN: the events of a UDP server, proved

    A client is created, found by its transport address, woken, and gets its packets; each
    as a step on the clients. *)
From stdpp Require Import gmap.
From S2P Require Import Prelude OvpnBuffer OvpnPacketId OvpnFrame OvpnList OvpnMbuf OvpnMbufProofs OvpnTime OvpnSchedule OvpnScheduleProofs OvpnScheduleProps OvpnPool OvpnPoolProofs OvpnProto OvpnProtoProofs OvpnMroute OvpnMrouteProofs OvpnPf OvpnPfProofs OvpnMulti OvpnMultiProofs OvpnMultiOpsProofs OvpnSwitch OvpnSwitchProofs OvpnServer OvpnServerProofs OvpnServerOpsProofs.
#[local] Open Scope bool_scope.
#[local] Open Scope Z_scope.

(** ** Tables of all clients *)

(** A table of all clients has as many elements as there are clients. *)
Lemma table_size flag C h : table_of flag C h → (∀ i k, C !! i = Some k → flag k = true) → n_elements h = Z.of_nat (base.size C).
Proof.
  intros Ht Hall. destruct (table_values _ _ _ Ht) as [Hnd Hv]. destruct Ht as ((_ & _ & _ & [-> _] & _) & _).
  f_equal. rewrite <- (length_fmap he_value). fold (values h). rewrite <- size_dom, <- (size_list_to_set (C := gset nat)) by done.
  f_equal. apply set_eq. intros j. rewrite elem_of_list_to_set, Hv, elem_of_dom. split; [intros (k & -> & _); done|].
  intros [k Hk]. exists k. split; [done|by eapply Hall].
Qed.
(** Two tables of all clients have the same addresses. *)
Lemma tables_agree flag flag' C h h' a :
  table_of flag C h → table_of flag' C h' → (∀ i k, C !! i = Some k → flag' k = true) → assoc h' a = None → assoc h a = None.
Proof.
  intros (_ & _ & Hs) (_ & Hc & _) Hall Hn. destruct (assoc h a) as [i|] eqn:E; [|done]. destruct (Hs _ _ E) as (k & Hk & _ & Heq).
  rewrite <- (assoc_equal h' a (k_real k)) in Hn by done. rewrite (Hc i k Hk) in Hn; [done|by eapply Hall].
Qed.

(** Fewer clients. *)
Lemma size_less (C C' : gmap nat client) : (∀ j, is_Some (C' !! j) → is_Some (C !! j)) → (base.size C' ≤ base.size C)%nat.
Proof. intros H. rewrite <- !(size_dom (D := gset nat)). apply subseteq_size. intros j. rewrite !elem_of_dom. apply H. Qed.

Section events.
Context (ext : nat → Z).
Hypothesis (Hext : ∀ x, 0 ≤ ext x).
Context (little : bool) (script : option nat → learn_op → mroute_addr → bool) (now : Z) (tun : tun_info) (random : nat → Z).

(** ** A client comes *)

(** What an instance may inherit from the server. *)
Record inherits (x : multi_instance) (a : inactivity) : Prop := {
  in_routes : 0 ≤ mi_max_routes x < INT_MAX;
  in_networks : iroutes_ok x;
  in_session : session_ok (mi_tls x) ∧ context_ok (mi_pf x);
  in_activity : 0 ≤ inactivity_bytes a ≤ Z.max 0 (inactivity_minimum_bytes a) ∧ inactivity_minimum_bytes a ≤ INT_MAX - BUF_SIZE_MAX;
}.
Definition newcomer (real : mroute_addr) : client := Client real false false false 0 (-1) false 0 0 None.
Definition new_id (v : server) : nat := fresh (dom (m_instances (v_multi v)) : gset nat).
(** The server once the instance is allocated. *)
Definition entered (real : mroute_addr) (x : multi_instance) (a : inactivity) (v : server) : server :=
  let i := new_id v in let m := (multi_create_routing x (v_multi v)).2 in
  put_client i (newcomer real) (set_schedule (with_entry i (v_schedule v))
    (set_switch (set_activity (<[i := a]> (s_activity (v_switch v))) (set_multi m (v_switch v))) v)).

Lemma new_absent C Q v : tracks ext C Q v → m_instances (v_multi v) !! new_id v = None ∧ C !! new_id v = None.
Proof.
  intros Ht. assert (m_instances (v_multi v) !! new_id v = None) as Hn by exact (proj1 (not_elem_of_dom (D := gset nat) _ _) (is_fresh (dom (m_instances (v_multi v)) : gset nat))). split; [done|].
  apply eq_None_not_Some. intros Ha%(tr_alive _ _ _ _ Ht). unfold alive in Ha. by rewrite Hn in Ha.
Qed.
Lemma tracks_entered C Q v real x a :
  tracks ext C Q v → inherits x a → tracks ext (<[new_id v := newcomer real]> C) Q (entered real x a v).
Proof.
  intros Ht [Hr Hn [Hs Hp] Ha]. destruct (new_absent _ _ _ Ht) as [Hni HCi]. set (i := new_id v) in *.
  destruct Ht as [Hal Hcl Hco Hro Hre Hpa Hne Hac Hreal Hsc Hq Had Hpo Hpe Hwa [Hcn Hmax]].
  pose proof (create_ok x (v_multi v) Hro Hr Hn) as (_ & Hro' & Hi' & _). fold i in Hi', Hro'.
  unfold entered. fold i. set (m := (multi_create_routing x (v_multi v)).2) in *. change (put_instance _ _ _) with m in Hi', Hro'.
  assert (∀ j, is_Some (<[i := newcomer real]> C !! j) ↔ j = i ∨ is_Some (C !! j)) as Hiff by (intros j; rewrite lookup_insert_is_Some'; naive_solver).
  assert (∀ j, alive m j = if decide (j = i) then true else alive (v_multi v) j) as Hal'.
  { intros j. unfold alive. rewrite Hi'. case_decide as Hj; [subst j; by rewrite lookup_insert_eq|by rewrite lookup_insert_ne]. }
  split; fields; try done.
  - intros j. rewrite Hiff, Hal'. case_decide as Hj; [subst j; split; [by left|done]|]. rewrite Hal. naive_solver.
  - intros j kj [[<- <-]|[Hne' Hj]]%lookup_insert_Some; [by rewrite lookup_insert_eq|rewrite lookup_insert_ne by done; by apply Hcl].
  - intros j kj [[<- <-]|[Hne' Hj]]%lookup_insert_Some; [by split|by apply (Hco j)].
  - intros j z. rewrite Hi'. intros [[<- <-]|[Hne' Hj]]%lookup_insert_Some; [done|by apply (Hpa j)].
  - intros j z. rewrite Hi'. intros [[<- <-]|[Hne' Hj]]%lookup_insert_Some; [done|by apply (Hne j)].
  - intros j. fields. rewrite Hal'. case_decide as Hj; [subst j; intros _; exists a; by rewrite lookup_insert_eq|].
    rewrite lookup_insert_ne by done. apply Hac.
  - apply table_without; [done| |done]. intros k0. by rewrite HCi.
  - by apply schedule_enter.
  - intros q j Hj. rewrite Hiff. right. by eapply Had.
  - by apply pool_without.
  - intros j Hj. rewrite Hiff. right. by apply Hpe.
  - intros j Hj. rewrite Hiff. right. by apply Hwa.
  - rewrite msum_insert by done. cbn [newcomer k_n_clients_delta]. lia.
Qed.

(** Where the newcomer is put, nothing else changes. *)
Lemma entered_multi C Q v real x a :
  tracks ext C Q v → let m := v_multi (entered real x a v) in
  m_instances m = <[new_id v := set_counts 1 0 (set_halt false false x)]> (m_instances (v_multi v)) ∧
  m_vhash m = m_vhash (v_multi v) ∧ m_helper m = m_helper (v_multi v) ∧ dues m = dues (v_multi v).
Proof.
  intros Ht m. destruct (new_absent _ _ _ Ht) as [Hni _]. split_and!; [done..|]. unfold dues.
  change (m_helper m) with (m_helper (v_multi v)). change (m_instances m) with (<[new_id v := set_counts 1 0 (set_halt false false x)]> (m_instances (v_multi v))).
  rewrite msum_insert by done. assert (owes (set_counts 1 0 (set_halt false false x)) = 0) as -> by done. lia.
Qed.
Lemma entered_dearer C Q v real x a : tracks ext C Q v → no_dearer (v_multi v) (v_multi (entered real x a v)).
Proof.
  intros Ht. destruct (entered_multi C Q v real x a Ht) as (_ & E1 & E2 & E3). split; [by rewrite E1|by rewrite E3|intros n Hn; by rewrite E2].
Qed.
Lemma entered_unmoved real x a v : unmoved v (entered real x a v).
Proof. by split. Qed.
Lemma forget_absent C Q i : addressed C Q → C !! i = None → map (forget_packets i) Q = Q.
Proof.
  intros Ha Hi. transitivity (forget_where (λ j, bool_decide (j = i)) Q).
  { rewrite (forget_more (λ _, false) _ Q i) by done. by rewrite (forget_none (λ _, false)) by done. }
  apply forget_none. intros p j Hin. apply bool_decide_eq_false_2. intros ->. destruct (Ha _ _ Hin). congruence.
Qed.
(** The instance is given up. *)
Lemma rejected_ok C Q v real x a :
  serves ext C Q v → inherits x a →
  ∃ v', multi_close_instance now (new_id v) false (entered real x a v) = Ret v' ∧ serves ext C Q v' ∧ calm None v v'.
Proof.
  intros [Ht Hit Hall Hse Hdu] Hin. destruct (new_absent _ _ _ Ht) as [Hni HCi]. pose proof (tracks_entered _ _ _ real x a Ht Hin) as Ht1.
  destruct (entered_multi C Q v real x a Ht) as (Ei & Eh & Ehp & Ed).
  destruct (close_client ext Hext now _ Q _ (new_id v) _ Ht1 (lookup_insert_eq _ _ _)) as (v' & E & T' & U' & I'); [by rewrite Ed|done|].
  rewrite delete_insert_id, (forget_absent C) in T' by (done || by apply (tr_addressed _ _ _ _ Ht)). cbn [newcomer k_did_iter] in I'.
  exists v'. split; [done|]. split.
  - split; try done.
    + unfold iter_of_clients. rewrite I'. exact Hit.
    + intros j k Hj He. destruct (Hse j k Hj He) as [P1 P2]. split; [done|]. intros z. assert (j ≠ new_id v) by congruence.
      rewrite (ud_instances _ _ _ U'), Ei, lookup_insert_ne by done. apply P2.
    + pose proof (nd_dues _ _ (ud_dearer _ _ _ U')). lia.
  - split; [eapply unmoved_trans; [apply (entered_unmoved real x a)|by eapply undisturbed_unmoved]|]. intros _. eapply no_dearer_trans; [|apply (ud_dearer _ _ _ U')].
    by apply (entered_dearer C Q).
Qed.
(** The instance is in the list, and its context is about to be prepared. *)
Definition listed (real : mroute_addr) (x : multi_instance) (a : inactivity) (h : hash mroute_addr nat) (v : server) : server :=
  let v1 := entered real x a v in put_client (new_id v) (set_did false true (newcomer real)) (set_switch (set_iter h (v_switch v1)) v1).
Lemma listed_ok C Q v real x a :
  serves ext C Q v → inherits x a → assoc (s_iter (v_switch v)) real = None → small (s_iter (v_switch v)) →
  ∃ h, hash_add real (new_id v) false (s_iter (v_switch v)) = Ret (true, h) ∧
    serves ext (<[new_id v := set_did false true (newcomer real)]> C) Q (listed real x a h v).
Proof.
  intros [Ht Hit Hall Hse Hdu] Hin Ha Hsm. destruct (new_absent _ _ _ Ht) as [Hni HCi]. pose proof (tracks_entered _ _ _ real x a Ht Hin) as Ht1.
  destruct (entered_multi C Q v real x a Ht) as (Ei & _ & _ & Ed).
  destruct (hash_add_new (s_iter (v_switch v)) real (new_id v) false) as (h & Eh & Hw & _ & _ & Has); [apply Hit|done|done|].
  exists h. split; [done|]. unfold listed. set (v1 := entered real x a v) in *. set (k := set_did false true (newcomer real)).
  assert (tracks ext (<[new_id v := k]> C) Q (put_client (new_id v) k (set_switch (set_iter h (v_switch v1)) v1))) as Ht2.
  { rewrite <- (insert_insert_eq C (new_id v) k (newcomer real)). eapply tracks_update; [by apply tracks_iter|apply lookup_insert_eq|done|done|by split]. }
  split; [done|..].
  - unfold iter_of_clients. fields. rewrite <- (insert_insert_eq C (new_id v) k (newcomer real)).
    apply (table_with k_did_iter _ (s_iter (v_switch v)) h (new_id v) (newcomer real) k); try done; [|by rewrite lookup_insert_eq].
    apply table_without; [done| |done]. intros k0. by rewrite HCi.
  - intros j kj [[<- <-]|[_ Hj]]%lookup_insert_Some; [done|by eapply Hall].
  - intros j kj [[<- <-]|[Hne Hj]]%lookup_insert_Some He.
    + split; [done|]. intros z. fields. change (v_multi v1) with (v_multi (entered real x a v)) in *. fold v1 in Ei.
      change (s_multi (v_switch v1)) with (v_multi v1). rewrite Ei, lookup_insert_eq. by intros [= <-].
    + destruct (Hse j kj Hj He) as [P1 P2]. split; [done|]. intros z. fields. change (s_multi (v_switch v1)) with (v_multi v1).
      rewrite Ei, lookup_insert_ne by done. apply P2.
  - fields. change (s_multi (v_switch v1)) with (v_multi v1). by rewrite Ed.
Qed.

Lemma may_connect_listed C Q v real x a h c : tracks ext C Q v → may_connect c v → may_connect c (listed real x a h v).
Proof.
  intros Ht [H1 H2 H3]. split; [done| |done].
  eapply affords_cheaper; [|exact H2]. by apply (entered_dearer C Q v real x a).
Qed.
Lemma fresh_listed real x a h v : fresh_draw random (v_schedule v) (new_id v) → fresh_draw random (v_schedule (listed real x a h v)) (new_id v).
Proof.
  intros (k & Hk & H). exists k. split; [done|]. intros i Hne Hi. unfold pri_of in *. cbn in Hi |- *.
  rewrite lookup_insert_ne in * by done. by apply H.
Qed.

(** No client is accepted any more. *)
Definition is_full (v : server) : bool := bool_decide (n_elements (v_hash v) >= v_max_clients v).
(** The new client, about to be prepared, and those that are closed for it. *)
Definition fresh_client (real : mroute_addr) : client := set_did false true (newcomer real).
Definition gone_for_new (real : mroute_addr) (x : multi_instance) (a : inactivity) (p : post) (v : server) : nat → bool :=
  gone_for (connects (fresh_client real) p MPP_PRE_SELECT) (prepared (new_id v) p MPP_PRE_SELECT (v_multi (entered real x a v))) (new_id v).

Lemma create_steps C Q v real x sig a p h vr fuel :
  tracks ext C Q v → inherits x a → multi_close_instance now (new_id v) false (entered real x a v) = Ret vr →
  (is_full v = false → hash_add real (new_id v) false (s_iter (v_switch v)) = Ret (true, h)) →
  multi_create_instance little script random tun now fuel real x sig a p v =
    if sig || is_full v then Ret (None, vr)
    else multi_process_post little script random tun now fuel (new_id v) p MPP_PRE_SELECT (listed real x a h v) ≫= λ '(ok, v2),
      if negb ok then v3 ← multi_close_instance now (new_id v) false v2; Ret (None, v3) else Ret (Some (new_id v), v2).
Proof.
  intros Ht Hin Er Eh. unfold multi_create_instance. cbn [multi_create_routing]. cbv zeta. fold (new_id v). change (put_client (new_id v) (Client real false false false 0 (-1) false 0 0 None) _) with (entered real x a v).
  destruct sig; [cbn [orb]; rewrite Er; by bret|]. cbn [orb]. change (v_hash (entered real x a v)) with (v_hash v).
  change (v_max_clients (entered real x a v)) with (v_max_clients v). unfold is_full. case_decide as Hf.
  { rewrite Er. bret. by rewrite (bool_decide_eq_true_2 _ Hf). }
  rewrite (bool_decide_eq_false_2 _ Hf). change (s_iter (v_switch (entered real x a v))) with (s_iter (v_switch v)).
  rewrite (Eh (bool_decide_eq_false_2 _ Hf)). bret. cbn [negb]. rewrite (get_client_ok ext _ Q _ (new_id v) (newcomer real) (tracks_iter ext _ Q _ h (tracks_entered C Q v real x a Ht Hin))) by apply lookup_insert_eq.
  by bret.
Qed.
Lemma create_instance_ok C Q v real x sig a p :
  serves ext C Q v → inherits x a → session_fits p → assoc (s_iter (v_switch v)) real = None → (is_full v = false → small (s_iter (v_switch v))) →
  fresh_draw random (v_schedule v) (new_id v) → (∀ c, connects (fresh_client real) p MPP_PRE_SELECT = Some c → may_connect c v) →
  let g := gone_for_new real x a p v in
  ∃ o v' n, (∀ fuel, (n ≤ fuel)%nat → multi_create_instance little script random tun now fuel real x sig a p v = Ret (o, v')) ∧ calm (connects (fresh_client real) p MPP_PRE_SELECT) v v' ∧
    if sig || is_full v then o = None ∧ serves ext C Q v'
    else o = Some (new_id v) ∧ ∃ k', became (connects (fresh_client real) p MPP_PRE_SELECT) (fresh_client real) k' ∧
      serves ext (<[new_id v := k']> (without g C)) (forget_where g Q) v'.
Proof.
  intros Hs Hin Hss Ha Hsm Hfr Hmc g. pose proof (sv_tracks _ _ _ _ Hs) as Ht. destruct (new_absent _ _ _ Ht) as [_ HCi].
  destruct (rejected_ok C Q v real x a Hs Hin) as (vr & Er & Hr & [Ur Dr]).
  assert (∀ o, calm o v vr) as Hcalm by (intros o; split; [done|intros _; by apply Dr]).
  destruct (is_full v) eqn:Ef.
  { rewrite orb_true_r. exists None, vr, 0%nat. split; [intros fuel _|split; [apply Hcalm|by split]].
    by rewrite (create_steps C Q v real x sig a p (s_iter (v_switch v)) vr fuel Ht Hin Er), Ef, orb_true_r by (rewrite Ef; done). }
  destruct (listed_ok C Q v real x a Hs Hin Ha (Hsm eq_refl)) as (h & Eh & Hl).
  assert (∀ fuel, _) as E by exact (λ fuel, create_steps C Q v real x sig a p h vr fuel Ht Hin Er (λ _, Eh)). rewrite Ef, orb_false_r in E. rewrite orb_false_r.
  destruct sig.
  { exists None, vr, 0%nat. split; [done|]. split; [apply Hcalm|by split]. }
  destruct (post_ok ext Hext little script now tun random _ Q _ (new_id v) (fresh_client real) p MPP_PRE_SELECT Hl) as (v' & n & Ep & Up & Hv');
    [apply lookup_insert_eq|done|by apply fresh_listed|intros c Hc; eapply may_connect_listed; [done|by apply Hmc]|].
  assert (closes p MPP_PRE_SELECT = false) as Hcl by (unfold closes; destruct (p_sig2 p); done). rewrite Hcl in Ep, Hv'.
  exists (Some (new_id v)), v', n. split; [intros fuel Hf; rewrite E, Ep by done; by bret|].
  split; [apply (calm_after _ v (listed real x a h v)); [by split|by apply (entered_dearer C Q v real x a)|exact Up]|]. split; [done|]. destruct Hv' as (k' & Hb & Hv'). exists k'. split; [done|].
  change (v_multi (listed real x a h v)) with (v_multi (entered real x a v)) in Hv'. fold (gone_for_new real x a p v) g in Hv'.
  assert (without g (<[new_id v := fresh_client real]> C) = <[new_id v := fresh_client real]> (without g C)) as Ew.
  { apply map_eq. intros j. rewrite without_lookup. destruct (decide (j = new_id v)) as [->|].
    - rewrite !lookup_insert_eq. assert (g (new_id v) = false) as ->; [|done]. subst g. unfold gone_for_new, gone_for, ousted.
      destruct (connects _ _ _) as [c|]; [|done]. destruct (cn_duplicate_cn c); [done|apply dup_self].
    - by rewrite !lookup_insert_ne, without_lookup. }
  change (set_did false true (newcomer real)) with (fresh_client real) in Hv'. by rewrite Ew, insert_insert_eq in Hv'.
Qed.

(** ** A packet comes *)

(** Every client of [C] is in the tables. *)
Record running (C : gmap nat client) (Q : list (option (list Z * nat))) (v : server) : Prop := {
  rn_serves : serves ext C Q v;
  rn_real : ∀ i k, C !! i = Some k → k_did_real_hash k = true;
  rn_size : Z.of_nat (base.size C) ≤ v_max_clients v < INT_MAX;
}.

Lemma tracks_hash C Q v h : tracks ext C Q v → table_of k_did_real_hash C h → tracks ext C Q (set_hash h v).
Proof. intros [] Hh. by split. Qed.
Lemma serves_hash C Q v h f : serves ext C Q v → table_of k_did_real_hash C h → serves ext C Q (set_limiter f (set_hash h v)).
Proof. intros [[] ? ? ? ?] Hh. by split. Qed.

(** The table has got the client. *)
Lemma tracks_hashed C Q v i k h :
  tracks ext C Q v → C !! i = Some k → table_of k_did_real_hash (<[i := set_did true (k_did_iter k) k]> C) h →
  tracks ext (<[i := set_did true (k_did_iter k) k]> C) Q (put_client i (set_did true (k_did_iter k) k) (set_hash h v)).
Proof.
  intros [Hal Hcl Hco Hro Hre Hpa Hne Hac Hreal Hsc Hq Had Hpo Hpe Hwa [Hn Hmax]] Hk Hh. set (k' := set_did true (k_did_iter k) k) in *.
  assert (∀ j, is_Some (<[i := k']> C !! j) ↔ is_Some (C !! j)) as Hiff.
  { intros j. rewrite lookup_insert_is_Some'. split; [intros [<-|]; [by rewrite Hk|done]|by right]. }
  split; fields; try done.
  - intros j. by rewrite Hiff.
  - intros j kj [[<- <-]|[Hne' Hj]]%lookup_insert_Some; [by rewrite lookup_insert_eq|rewrite lookup_insert_ne by done; by apply Hcl].
  - intros j kj [[<- <-]|[Hne' Hj]]%lookup_insert_Some; [by apply (Hco i k)|by apply (Hco j)].
  - by eapply schedule_update.
  - intros q j Hj. rewrite Hiff. by eapply Had.
  - by eapply pool_update.
  - intros j Hj. rewrite Hiff. by apply Hpe.
  - intros j Hj. rewrite Hiff. by apply Hwa.
  - by rewrite (msum_same _ _ _ k).
Qed.
Lemma serves_hashed C Q v i k h :
  serves ext C Q v → C !! i = Some k → table_of k_did_real_hash (<[i := set_did true (k_did_iter k) k]> C) h →
  serves ext (<[i := set_did true (k_did_iter k) k]> C) Q (put_client i (set_did true (k_did_iter k) k) (set_hash h v)).
Proof.
  intros [Ht Hit Hall Hse Hdu] Hk Hh. split; [by apply tracks_hashed|by eapply iter_update| | |done].
  - intros j kj [[<- <-]|[_ Hj]]%lookup_insert_Some; [by apply (Hall i k)|by eapply Hall].
  - intros j kj [[<- <-]|[_ Hj]]%lookup_insert_Some He; [by apply (Hse i k)|by apply (Hse j kj)].
Qed.
(** The new client is put where its address has been looked up. *)
Lemma put_real C Q v0 v i k :
  serves ext C Q v → C !! i = Some k → k_did_real_hash k = false → shape (v_hash v) = shape (v_hash v0) → small (v_hash v) →
  (∀ j kj, C !! j = Some kj → j ≠ i → mroute_addr_equal (k_real k) (k_real kj) = false) →
  ∃ h, hash_add_fast (key_index (v_hash v0) (k_real k)) (k_real k) (hash_value (v_hash v0) (k_real k)) i (v_hash v) = Ret h ∧
    serves ext (<[i := set_did true (k_did_iter k) k]> C) Q (put_client i (set_did true (k_did_iter k) k) (set_hash h v)).
Proof.
  intros Hs Hk Hf Hsh Hsm Hother. destruct (shape_index (v_hash v0) (v_hash v) (k_real k) Hsh) as [<- <-].
  pose proof (tr_real _ _ _ _ (sv_tracks _ _ _ _ Hs)) as Htab. pose proof Htab as (Hw & Hc & Hl).
  assert (assoc (v_hash v) (k_real k) = None) as Hno.
  { destruct (assoc (v_hash v) (k_real k)) as [j|] eqn:E; [|done]. destruct (Hl _ _ E) as (kj & Hj & Hfj & He).
    destruct (decide (j = i)) as [->|Hne]; [congruence|]. by rewrite (Hother j kj Hj Hne) in He. }
  destruct (bucket_of (v_hash v) (k_real k) Hw) as (b & Hb & _). pose proof (assoc_none _ _ _ Hno Hb) as Hh.
  destruct (put_new (v_hash v) (k_real k) i b Hw Hsm Hb Hh) as (-> & Hw' & Ha). eexists. split; [done|].
  apply serves_hashed; [done|done|]. by eapply table_with.
Qed.

(** [real] is the transport address of client [i]. *)
Definition comes_from (C : gmap nat client) (real : mroute_addr) (i : nat) : Prop :=
  ∃ k, C !! i = Some k ∧ mroute_addr_equal real (k_real k) = true.
Lemma comes_from_assoc C h real i : table_of k_did_real_hash C h → (∀ i k, C !! i = Some k → k_did_real_hash k = true) →
  comes_from C real i ↔ assoc h real = Some i.
Proof.
  intros (_ & Hc & Hs) Hall. split.
  - intros (k & Hk & He). rewrite <- (assoc_equal h real (k_real k)) by done. apply Hc; [done|by eapply Hall].
  - intros (k & Hk & _ & He)%Hs. by exists k.
Qed.
Lemma live_instance C Q v i k : tracks ext C Q v → C !! i = Some k → ∃ x, get_instance i (v_multi v) = Ret x ∧ mi_halt x = false.
Proof.
  intros Ht Hk. assert (alive (v_multi v) i = true) as Ha by (apply (tr_alive _ _ _ _ Ht); by rewrite Hk). unfold alive in Ha.
  destruct (m_instances (v_multi v) !! i) as [x|] eqn:Ex; [|done]. exists x. split; [by apply get_instance_ok|by destruct (mi_halt x)].
Qed.

(** A client of an unknown address, once it may come. *)
Lemma come_ok C Q v0 v real x sig a p :
  running C Q v → shape (v_hash v) = shape (v_hash v0) → inherits x a → session_fits p → (∀ i, ¬ comes_from C real i) →
  fresh_draw random (v_schedule v) (new_id v) → (∀ c, connects (fresh_client real) p MPP_PRE_SELECT = Some c → may_connect c v) →
  let g := gone_for_new real x a p v in
  ∃ o v' n, (∀ fuel, (n ≤ fuel)%nat →
    ('(mi, v) ← multi_create_instance little script random tun now fuel real x sig a p v;
     match mi with
     | Some i =>
         k ← get_client i v;
         h ← hash_add_fast (key_index (v_hash v0) real) (k_real k) (hash_value (v_hash v0) real) i (v_hash v);
         Ret (Some i, put_client i (set_did true (k_did_iter k) k) (set_hash h v))
     | None => Ret (None, v)
     end) = Ret (o, v')) ∧
    (connects (fresh_client real) p MPP_PRE_SELECT = None → no_dearer (v_multi v) (v_multi v')) ∧
    if sig || is_full v then o = None ∧ running C Q v'
    else o = Some (new_id v) ∧ ∃ k', k_real k' = real ∧ running (<[new_id v := k']> (without g C)) (forget_where g Q) v'.
Proof.
  intros [Hs Hre Hmax] Hsh Hin Hss Hno Hfr Hmc g. pose proof (sv_tracks _ _ _ _ Hs) as Ht. destruct (new_absent _ _ _ Ht) as [_ HCi].
  pose proof (tr_real _ _ _ _ Ht) as Hth.
  assert (assoc (v_hash v) real = None) as Hn.
  { destruct (assoc (v_hash v) real) as [i|] eqn:E; [|done]. apply (comes_from_assoc C) in E; [by destruct (Hno i)|done|done]. }
  assert (n_elements (s_iter (v_switch v)) = n_elements (v_hash v)) as Hsize.
  { rewrite (table_size _ C _ (sv_iter _ _ _ _ Hs) (sv_listed _ _ _ _ Hs)). by rewrite (table_size _ C _ Hth Hre). }
  pose proof (tables_agree _ _ _ _ _ real (sv_iter _ _ _ _ Hs) Hth Hre Hn) as Hni.
  assert (is_full v = false → small (v_hash v)) as Hsm.
  { unfold is_full, small. intros Hf%bool_decide_eq_false. lia. }
  destruct (create_instance_ok C Q v real x sig a p Hs Hin Hss Hni) as (o & v1 & n & E & [U Dc] & Hv1); [unfold small; by rewrite Hsize|done|done|].
  pose proof (um_max _ _ U) as Um. destruct (sig || is_full v) eqn:Eb.
  { destruct Hv1 as [-> Hv1]. exists None, v1, n. split; [intros fuel Hf; rewrite E by done; by bret|]. split; [done|]. split; [done|]. split; [done|done|by rewrite Um]. }
  destruct Hv1 as (-> & k' & (Kr & Kh & Ki & _) & Hv1). apply orb_false_elim in Eb as [_ Hf].
  destruct (put_real _ _ v0 v1 (new_id v) k' Hv1) as (h & Eh & Hv2); [apply lookup_insert_eq|by rewrite Kh|rewrite (um_shape _ _ U); done|..].
  { pose proof (um_hash _ _ U). specialize (Hsm Hf). unfold small in *. lia. }
  { rewrite Kr. intros j kj [[<- _]|[_ Hj]]%lookup_insert_Some Hne; [done|]. apply not_true_iff_false. intros He. apply (Hno j). exists kj. split; [|done].
    fold g in Hj. rewrite without_lookup in Hj. by destruct (g j). }
  rewrite insert_insert_eq in Hv2. change (k_real (fresh_client real)) with real in Kr. rewrite Kr in Eh.
  exists (Some (new_id v)), (put_client (new_id v) (set_did true (k_did_iter k') k') (set_hash h v1)), n. split.
  { intros fuel Hfu. rewrite E by done. bret. rewrite (get_client_ok ext _ _ _ (new_id v) k' (sv_tracks _ _ _ _ Hv1)) by apply lookup_insert_eq. bret.
    rewrite Kr, Eh. by bret. }
  split; [done|]. split; [done|]. exists (set_did true (k_did_iter k') k'). split; [done|]. split; [done| |].
  2: { cbn [put_client set_hash set_clients v_max_clients]. rewrite Um. split; [|lia]. unfold is_full in Hf. apply bool_decide_eq_false in Hf.
    rewrite (table_size _ C _ Hth Hre) in Hf. pose proof (size_less C (without g C)) as Hle.
    assert (base.size (without g C) ≤ base.size C)%nat by (apply Hle; intros j; rewrite without_lookup; by destruct (g j)).
    assert (base.size (<[new_id v := set_did true (k_did_iter k') k']> (without g C)) ≤ S (base.size (without g C)))%nat; [|lia].
    rewrite map_size_insert. case_match; unfold id; lia. }
  intros j kj [[<- <-]|[_ Hj]]%lookup_insert_Some; [done|]. fold g in Hj. rewrite without_lookup in Hj. destruct (g j); [done|by eapply Hre].
Qed.

Lemma known_or_not C Q v (ok : bool) real : running C Q v → (∃ i, ok = true ∧ comes_from C real i) ∨ ∀ i, ok = true → ¬ comes_from C real i.
Proof.
  intros Hr. pose proof (comes_from_assoc C (v_hash v) real) as H. pose proof (tr_real _ _ _ _ (sv_tracks _ _ _ _ (rn_serves _ _ _ Hr))) as Ht.
  destruct ok; [|by right]. destruct (assoc (v_hash v) real) as [i|] eqn:Ea.
  - left. exists i. split; [done|]. apply H; [done|apply Hr|done].
  - right. intros i _ Hi. apply H in Hi; [congruence|done|apply Hr].
Qed.
Lemma running_moved C Q v h f : running C Q v → table_of k_did_real_hash C h → running C Q (set_limiter f (set_hash h v)).
Proof. intros [Hs Hr Hm] Hh. split; [by apply serves_hash|done|done]. Qed.
Lemma may_connect_moved c h f v : may_connect c v → may_connect c (set_limiter f (set_hash h v)).
Proof. intros []. by split. Qed.
Lemma found_live C Q v i k : tracks ext C Q v → C !! i = Some k →
  (x ← get_instance i (v_multi v); ASSERT (mi_halt x = false);; Ret (Some i, v)) = Ret (Some i, v).
Proof. intros Ht Hk. destruct (live_instance _ _ _ _ _ Ht Hk) as (x & Ex & Hx). rewrite Ex, bind_Ret, ASSERT_ok by done. by rewrite bind_Ret. Qed.

(** The client of a packet: the one with its address, or a new one. *)
Lemma get_create_ok C Q v from junk lite x sig a p allowed f :
  running C Q v → inherits x a → session_fits p → frequency_limit_event_allowed now (v_limiter v) = Ret (allowed, f) →
  fresh_draw random (v_schedule v) (new_id v) →
  let '(ok, real) := mroute_extract_openvpn_sockaddr from true junk in
  (∀ c, connects (fresh_client real) p MPP_PRE_SELECT = Some c → may_connect c v) →
  let g := gone_for_new real x a p v in
  ∃ o v' n, (∀ fuel, (n ≤ fuel)%nat →
      multi_get_create_instance_udp little script random tun now fuel from junk lite x sig a p v = Ret (o, v')) ∧
    (connects (fresh_client real) p MPP_PRE_SELECT = None → no_dearer (v_multi v) (v_multi v')) ∧
    (∀ i, ok = true → comes_from C real i → o = Some i ∧ running C Q v') ∧
    ((∀ i, ok = true → ¬ comes_from C real i) →
      if ok && lite && allowed && negb sig && negb (is_full v)
      then o = Some (new_id v) ∧ ∃ k', k_real k' = real ∧ running (<[new_id v := k']> (without g C)) (forget_where g Q) v'
      else o = None ∧ running C Q v').
Proof.
  intros Hrn Hin Hss Hfl Hfr. unfold multi_get_create_instance_udp. destruct (mroute_extract_openvpn_sockaddr from true junk) as [ok real].
  cbv beta iota zeta. intros Hmc. set (g := gone_for_new real x a p v).
  pose proof Hrn as [Hs Hre Hmax]. pose proof (sv_tracks _ _ _ _ Hs) as Ht. pose proof (tr_real _ _ _ _ Ht) as Hth.
  destruct ok; [|exists None, v, 0%nat; by split_and!].
  destruct (lookup_bucket_ok (v_hash v) real (proj1 Hth)) as (b & he & b' & Hb & El & Hfo & Hw & _ & Ha). fold (key_index (v_hash v) real).
  pose proof (table_lookup _ C _ real b he b' Hth Hb Hw Ha Hfo) as Hth'. destruct Hfo as [Hv _].
  set (h1 := set_bucket _ b' _ _) in *. rewrite Hb. cbn [of_option].
  assert (∀ i, comes_from C real i ↔ he_value <$> he = Some i) as Hcf by (intros i; rewrite Hv; by apply comes_from_assoc).
  setoid_rewrite bind_Ret. rewrite El. setoid_rewrite bind_Ret. destruct he as [e|]; fold h1.
  - pose proof (running_moved C Q v h1 (v_limiter v) Hrn Hth') as Hr1. change (set_limiter (v_limiter v) (set_hash h1 v)) with (set_hash h1 v) in Hr1.
    destruct (proj2 (Hcf (he_value e)) eq_refl) as (k & Hk & Hek). exists (Some (he_value e)), (set_hash h1 v), 0%nat. split.
    { intros fuel _. bret. by eapply found_live; [apply Hr1|]. }
    split; [done|]. split; [intros i _ [= ->]%Hcf; by split|]. intros Hno. destruct (Hno (he_value e) eq_refl). by exists k.
  - assert (∀ i, ¬ comes_from C real i) as Hno by (intros i Hi%Hcf; done). cbn [andb].
    assert (running C Q (set_hash h1 v)) as Hr1 by exact (running_moved C Q v h1 (v_limiter v) Hrn Hth').
    destruct lite; [|exists None, (set_hash h1 v), 0%nat; by split_and!; [intros fuel _; bret| |intros i _ []%Hno|]].
    change (v_limiter (set_hash h1 v)) with (v_limiter v). rewrite Hfl. setoid_rewrite bind_Ret. cbv beta iota.
    pose proof (running_moved C Q v h1 f Hrn Hth') as Hr2. set (v2 := set_limiter f (set_hash h1 v)) in *.
    destruct allowed; [|exists None, v2, 0%nat; by split_and!; [intros fuel _; bret| |intros i _ []%Hno|]].
    destruct (come_ok C Q v v2 real x sig a p Hr2 eq_refl Hin Hss Hno Hfr) as (o & v' & n & E & Hd & Hv'); [intros c Hc; by apply may_connect_moved, Hmc|].
    exists o, v', n. cbn [andb]. rewrite <- negb_orb. change (is_full v) with (is_full v2). change (new_id v) with (new_id v2).
    split; [|split; [done|split; [intros i _ []%Hno|intros _; by destruct (sig || is_full v2)]]].
    intros fuel Hf. setoid_rewrite E; [|done]. bret. destruct (sig || is_full v2); [by destruct Hv' as [-> _]|].
    destruct Hv' as (-> & k' & _ & Hv'). eapply found_live; [apply Hv'|apply lookup_insert_eq].
Qed.
End events.
