(* ===== verification/OvpnServerLoopProofs.v ===== *)
(** * OpenVPN: the event loop of a UDP server, proved

    Each handler keeps the server running: it computes, with enough fuel for the scheduler,
    and the clients there are afterwards are those there were, but for one that comes and
    those that leave ([evolves]). *)
From stdpp Require Import gmap.
From S2P Require Import Prelude OvpnBuffer OvpnPacketId OvpnFrame OvpnList OvpnMbuf OvpnMbufProofs OvpnTime OvpnSchedule OvpnScheduleProofs OvpnScheduleProps OvpnPool OvpnPoolProofs OvpnProto OvpnProtoProofs OvpnMroute OvpnMrouteProofs OvpnPf OvpnPfProofs OvpnMulti OvpnMultiProofs OvpnMultiOpsProofs OvpnSwitch OvpnSwitchProofs OvpnServer OvpnServerLoop OvpnServerProofs OvpnServerOpsProofs OvpnServerEventProofs.
#[local] Open Scope bool_scope.
#[local] Open Scope Z_scope.

(** ** Clients that come and leave *)

(** A client keeps its transport address, and its connection once it is established; at
    most one is new, with the transport address [a]. *)
Definition evolves (a : option mroute_addr) (C C' : gmap nat client) : Prop :=
  ∀ i k', C' !! i = Some k' →
    (∃ k, C !! i = Some k ∧ k_real k' = k_real k ∧ (k_established k = true → k_established k' = true)) ∨
    C !! i = None ∧ a = Some (k_real k').
Lemma evolves_refl a C : evolves a C C.
Proof. intros i k Hk. left. by exists k. Qed.
Lemma evolves_weak a C C' : evolves None C C' → evolves a C C'.
Proof. intros H i k' Hk'. destruct (H i k' Hk') as [|[_ ?]]; [by left|done]. Qed.
Lemma evolves_after a C C1 C2 : evolves a C C1 → evolves None C1 C2 → evolves a C C2.
Proof.
  intros H1 H2 i k2 Hk2. destruct (H2 i k2 Hk2) as [(k1 & Hk1 & Hr & He)|[_ ?]]; [|done].
  destruct (H1 i k1 Hk1) as [(k & Hk & Hr' & He')|[Hn Ha]]; [left|right]; [|by rewrite Hr].
  exists k. split; [done|]. split; [congruence|auto].
Qed.
Lemma evolves_before a C C1 C2 : evolves None C C1 → evolves a C1 C2 → (∀ i, C1 !! i = None → is_Some (C2 !! i) → C !! i = None) → evolves a C C2.
Proof.
  intros H1 H2 Hn i k2 Hk2. destruct (H2 i k2 Hk2) as [(k1 & Hk1 & Hr & He)|[Hn1 Ha]]; [|right; split; [by eapply Hn|done]].
  destruct (H1 i k1 Hk1) as [(k & Hk & Hr' & He')|[_ ?]]; [left|done]. exists k. split; [done|]. split; [congruence|auto].
Qed.
Lemma evolves_without g C : evolves None C (without g C).
Proof. intros i k Hk. rewrite without_lookup in Hk. left. exists k. by destruct (g i). Qed.
Lemma evolves_delete C i : evolves None C (delete i C).
Proof. intros j k [_ Hk]%lookup_delete_Some. left. by exists k. Qed.
Lemma evolves_update C i k k' o : C !! i = Some k → became o k k' → evolves None C (<[i := k']> C).
Proof.
  intros Hk (Hr & _ & _ & He) j kj [[<- <-]|[_ Hj]]%lookup_insert_Some; [left; exists k|left; by exists kj].
  split; [done|]. split; [done|]. intros E. rewrite He. by destruct o.
Qed.
Lemma evolves_connected g C i k k' o : C !! i = Some k → g i = false → became o k k' → evolves None C (<[i := k']> (without g C)).
Proof.
  intros Hk Hg Hb. eapply evolves_after; [apply (evolves_without g)|]. eapply evolves_update; [|done]. by rewrite without_lookup, Hg.
Qed.
Lemma evolves_fewer a C C' : evolves a C C' → a = None → ∀ j, is_Some (C' !! j) → is_Some (C !! j).
Proof. intros H -> j [k Hk]. destruct (H j k Hk) as [(k0 & -> & _)|[_ ?]]; done. Qed.

(** ** Numbers that are drawn *)

Section draws.
Context (random : nat → Z).

(** The source of random numbers does not avoid what few numbers there are for ever. *)
Definition lively : Prop := ∀ (n : nat) (F : list Z), Z.of_nat (length F) < INT_MAX → ∃ k, (n ≤ k)%nat ∧ drawn random k ∉ F.

Lemma idle_pri s i : treap_ok s → scheduled s !! i = None → is_Some (s_mem s !! i) → pri_of s i = 0.
Proof.
  intros (t & HT & _) Hi Hm. assert (i ∉ ids t) as Hni by (rewrite (scheduled_in s t i HT), Hi; by intros []).
  destruct HT as (_ & _ & Hidle). by destruct (Hidle i Hm Hni).
Qed.
Lemma lively_fresh C s i : lively → schedule_of C s → Z.of_nat (base.size C) < INT_MAX → fresh_draw random s i.
Proof.
  intros Hl (Ht & _ & Hc) Hn. set (F := pri_of s <$> (map_to_list C).*1).
  destruct (Hl (s_draws s) F) as (k & Hk & HF); [subst F; by rewrite !length_fmap, length_map_to_list|].
  exists k. split; [done|]. intros j Hne Hj E. pose proof (drawn_pos random k) as Hp. destruct (scheduled s !! j) as [tv|] eqn:Es.
  - apply HF. rewrite <- E. apply list_elem_of_fmap_2. destruct (Hc j) as [kj Hkj]; [by rewrite Es|].
    apply list_elem_of_fmap. exists (j, kj). split; [done|]. by apply elem_of_map_to_list.
  - rewrite (idle_pri s j Ht Es Hj) in E. lia.
Qed.
End draws.

Section loop.
Context (ext : nat → Z).
Hypothesis (Hext : ∀ x, 0 ≤ ext x).
Context (little : bool) (script : option nat → learn_op → mroute_addr → bool) (random : nat → Z) (tun : tun_info).
Hypothesis (Hlively : lively random).

(** ** What the routing table may need *)

(** At most [n] routes more than before. *)
Record drifted (n : Z) (m m' : multi_context) : Prop := {
  dr_size : n_elements (m_vhash m') ≤ n_elements (m_vhash m) + n;
  dr_dues : dues m' ≤ dues m;
  dr_counts : ∀ l, 0 ≤ l → count_of l (m_helper m') ≤ count_of l (m_helper m);
}.
Lemma no_dearer_drifted m m' : no_dearer m m' → drifted 0 m m'.
Proof. intros [A B D]. split; [lia|done|done]. Qed.
Lemma drifted_refl m : drifted 0 m m.
Proof. apply no_dearer_drifted, no_dearer_refl. Qed.
Lemma drifted_trans n1 n2 m1 m2 m3 : drifted n1 m1 m2 → drifted n2 m2 m3 → drifted (n1 + n2) m1 m3.
Proof. intros [A1 B1 D1] [A2 B2 D2]. split; [lia|lia|]. intros l Hl. specialize (D1 l Hl). specialize (D2 l Hl). lia. Qed.
(** There is room for the networks of the connection of [p], if any, after [n] routes. *)
Definition room_for (n : Z) (p : post) (m : multi_context) : Prop :=
  ∀ c, p_connection p = Some c → connection_ok c ∧
    n_elements (m_vhash m) + n + 2 + Z.of_nat (length (cn_iroutes c) + length (cn_iroutes_ipv6 c)) ≤ INT_MAX ∧
    dues m + 2 * Z.of_nat (length (cn_iroutes c) + length (cn_iroutes_ipv6 c)) < 2 ^ 32 ∧
    ∀ l, 0 ≤ l → count_of l (m_helper m) + times l (filter (λ n, 0 ≤ n) (netbits <$> cn_iroutes c) ++ (netbits6 <$> cn_iroutes_ipv6 c)) ≤ INT_MAX.
(** No more are established than there are clients. *)
Lemma count_clients C Q v : tracks ext C Q v → v_n_clients v ≤ Z.of_nat (base.size C).
Proof.
  intros Ht. rewrite (proj1 (tr_count _ _ _ _ Ht)). pose proof (tr_client _ _ _ _ Ht) as Hok. clear Ht.
  induction C as [|i k C Hi IH] using map_ind; [rewrite msum_empty; cbn; lia|].
  rewrite msum_insert, map_size_insert_None by done. destruct (Hok i k (lookup_insert_eq _ _ _)) as (E & _).
  assert (- msum k_n_clients_delta C ≤ Z.of_nat (base.size C)) as H; [|destruct (k_established k); lia].
  apply IH. intros j kj Hj. apply (Hok j). rewrite lookup_insert_ne; [done|congruence].
Qed.
Lemma room_connects C Q v n m k p flags : running ext C Q v → room_for n p m → drifted n m (v_multi v) →
  ∀ c, connects k p flags = Some c → may_connect c v.
Proof.
  intros Hr Hroom [D1 D2 D3] c Hc. assert (p_connection p = Some c) as Hp.
  { unfold connects in Hc. by destruct (_ && _). }
  destruct (Hroom c Hp) as (R1 & R2 & R3 & R4). split; [done| |].
  - split; [lia|lia|]. intros l Hl. specialize (R4 l Hl). specialize (D3 l Hl). lia.
  - pose proof (count_clients _ _ _ (sv_tracks _ _ _ _ (rn_serves _ _ _ _ Hr))). pose proof (rn_size _ _ _ _ Hr). lia.
Qed.

(** ** After an event *)

Lemma running_fresh C Q v i : running ext C Q v → fresh_draw random (v_schedule v) i.
Proof.
  intros Hr. eapply lively_fresh; [done|apply (tr_schedule _ _ _ _ (sv_tracks _ _ _ _ (rn_serves _ _ _ _ Hr)))|].
  pose proof (rn_size _ _ _ _ Hr). lia.
Qed.
Lemma gone_self o i m : gone_for o m i i = false.
Proof. unfold gone_for, ousted. destruct o as [c|]; [|done]. destruct (cn_duplicate_cn c); [done|apply dup_self]. Qed.

Lemma post_running now C Q v i k p flags :
  running ext C Q v → C !! i = Some k → session_fits p → room_for 0 p (v_multi v) →
  ∃ v' n C' Q', (∀ fuel, (n ≤ fuel)%nat → multi_process_post little script random tun now fuel i p flags v = Ret (negb (closes p flags), v')) ∧
    running ext C' Q' v' ∧ evolves None C C' ∧ (closes p flags = true → C' !! i = None).
Proof.
  intros Hr Hk Hss Hroom. pose proof Hr as [Hs Hre Hsz].
  destruct (post_ok ext Hext little script now tun random C Q v i k p flags Hs Hk Hss) as (v' & n & E & [[_ _ Um _ _] _] & Hv');
    [by eapply running_fresh|eapply (room_connects C Q v 0 (v_multi v)); [done|done|apply drifted_refl]|].
  set (g := gone_for _ _ i) in *. assert (g i = false) as Hg by apply gone_self.
  assert (∀ C' Q', serves ext C' Q' v' → evolves None C C' → (∀ j k', C' !! j = Some k' → k_did_real_hash k' = true) → running ext C' Q' v') as Hrun.
  { intros C' Q' Hs' Hev Hre'. split; [done|done|]. rewrite Um. pose proof (size_less C C' (evolves_fewer _ _ _ Hev eq_refl)). lia. }
  destruct (closes p flags) eqn:Ecl.
  - exists v', n, (delete i (without g C)), (map (forget_packets i) (forget_where g Q)). split; [done|].
    assert (evolves None C (delete i (without g C))) as Hev by (eapply evolves_after; [apply evolves_without|apply evolves_delete]).
    split; [|split; [done|by rewrite lookup_delete_eq]]. apply Hrun; [done|done|].
    intros j k' [_ Hj]%lookup_delete_Some. rewrite without_lookup in Hj. destruct (g j); [done|by eapply Hre].
  - destruct Hv' as (k' & Hb & Hv'). exists v', n, (<[i := k']> (without g C)), (forget_where g Q). split; [done|].
    assert (evolves None C (<[i := k']> (without g C))) as Hev by by eapply evolves_connected.
    split; [|by split]. apply Hrun; [done|done|]. destruct Hb as (_ & Hh & _).
    intros j kj [[<- <-]|[_ Hj]]%lookup_insert_Some; [rewrite Hh; by eapply Hre|]. rewrite without_lookup in Hj. destruct (g j); [done|by eapply Hre].
Qed.

(** ** What changes the switch only *)

Lemma same_owes m m' : heap_ok m → heap_ok m' → same_clients m m' → msum owes (m_instances m') = msum owes (m_instances m).
Proof.
  intros Hm Hm' Hsc. apply msum_agree. intros i. pose proof (same_way_alive _ _ (sc_way _ _ Hsc) i) as Ha.
  assert (∀ m x, heap_ok m → m_instances m !! i = Some x → alive m i = false → owes x = 0) as Hdead.
  { intros m0 x H0 Hx Hd. unfold alive in Hd. rewrite Hx in Hd. apply negb_false_iff in Hd. unfold owes.
    by rewrite (proj2 (heap_limited _ H0 _ _ Hx) Hd). }
  destruct (alive m i) eqn:Eal.
  - destruct (alive_instance _ _ Eal) as (x & Hx & _), (alive_instance _ _ Ha) as (x' & Hx' & _). rewrite Hx, Hx'. cbn.
    destruct (same_client_networks _ _ (sc_client _ _ Hsc i x x' Eal Hx Hx')) as (E1 & E2 & E3). unfold owes, lengths. by rewrite E1, E2, E3.
  - destruct (m_instances m !! i) as [x|] eqn:Hx, (m_instances m' !! i) as [x'|] eqn:Hx'; cbn; rewrite ?(Hdead m x), ?(Hdead m' x'); done.
Qed.
Lemma switched_drifted n s s' : switch_ok s → switch_ok s' → switched s s' → grown n s s' → drifted n (s_multi s) (s_multi s').
Proof.
  intros Ho Ho' Hsw Hg. pose proof (sc_helper _ _ (switched_clients _ _ Hsw)) as Hh. split; [done| |by rewrite Hh].
  unfold dues. rewrite Hh, (same_owes (s_multi s)); [done|apply Ho|apply Ho'|apply Hsw].
Qed.
Lemma running_switch C Q v : running ext C Q v → switch_ok (v_switch v) ∧ queue_shows ext (v_switch v) Q.
Proof.
  intros [[Ht Hit _ _ _] _ _]. split; [|apply Ht]. split; [apply Ht|apply Ht| |apply Ht]. split; [apply Hit|].
  destruct (table_values _ _ _ Hit) as [_ Hv]. apply Forall_forall. intros j Hj. apply (tr_alive _ _ _ _ Ht).
  destruct (proj1 (Hv j) Hj) as (k & -> & _). done.
Qed.
Lemma running_switched n C Q Q' v s : running ext C Q v → switch_ok s → switched (v_switch v) s → grown n (v_switch v) s →
  queue_shows ext s Q' → addressed C Q' → running ext C Q' (set_switch s v).
Proof.
  intros Hr Ho Hsw Hg Hq Had. pose proof (running_switch _ _ _ Hr) as [Ho0 _]. destruct (switched_drifted n _ _ Ho0 Ho Hsw Hg) as [_ Hd _].
  pose proof Hr as [[[Hal Hcl Hco Hro Hre Hpa Hne Hac Hreal Hsc Hq0 Had0 Hpo Hpe Hwa Hn] Hit Hall Hse Hdu] Hrl Hsz].
  pose proof (switched_clients _ _ Hsw) as Hsame. pose proof (λ j, switched_alive _ _ j Hsw) as Hali.
  assert (∀ j x, m_instances (s_multi s) !! j = Some x → mi_halt x = false → ∃ x0, m_instances (v_multi v) !! j = Some x0 ∧ mi_halt x0 = false ∧ same_client x0 x) as Hback.
  { intros j x Hx Hh. assert (alive (v_multi v) j = true) as Ha by (change (v_multi v) with (s_multi (v_switch v)); rewrite <- Hali; unfold alive; by rewrite Hx, Hh).
    destruct (alive_instance _ _ Ha) as (x0 & Hx0 & Hh0). exists x0. split; [done|]. split; [done|]. by eapply sc_client. }
  split; [|done|done]. split; [|unfold iter_of_clients; fields; by rewrite (switched_iter _ _ Hsw)|done| |fields; by eapply Z.le_lt_trans].
  - split; fields; try done; [intros j; rewrite Hali; apply Hal|apply Ho| |apply Ho| |apply Ho].
    + change (reaper_ok (s_multi s)). unfold reaper_ok. rewrite (sc_reaper _ _ Hsame). exact Hre.
    + intros j x Hx Hh. destruct (Hback j x Hx Hh) as (x0 & Hx0 & Hh0 & [_ _ _ (E1 & E2 & _)]). unfold iroutes_ok. rewrite E1, E2. by apply (Hne j).
  - intros j k Hj He. destruct (Hse j k Hj He) as [P1 P2]. split; [done|]. intros x Hx. change (v_multi (set_switch s v)) with (s_multi s) in Hx.
    assert (mi_halt x = false) as Hh.
    { assert (alive (s_multi s) j = true) as Ha by (rewrite Hali; apply Hal; by rewrite Hj). unfold alive in Ha. rewrite Hx in Ha. by destruct (mi_halt x). }
    destruct (Hback j x Hx Hh) as (x0 & Hx0 & _ & [_ _ _ (_ & _ & ->)]). by apply P2.
Qed.

Lemma running_pending C Q v o : running ext C Q v → (∀ i, o = Some i → is_Some (C !! i)) → running ext C Q (multi_set_pending o v).
Proof. intros [Hs Hr Hz] Ho. split; [by apply serves_pending|done|done]. Qed.
Lemma running_wakeup C Q v o : running ext C Q v → (∀ i, o = Some i → is_Some (C !! i)) → running ext C Q (set_earliest_wakeup o v).
Proof. intros [[[] ? ? ? ?] Hr Hz] Ho. by split. Qed.
Lemma running_schedule C Q v s : running ext C Q v → schedule_of C s → running ext C Q (set_schedule s v).
Proof. intros [Hs Hr Hz] Ho. split; [by apply serves_schedule|done|done]. Qed.
Lemma pending_client C Q v i : running ext C Q v → v_pending v = Some i → ∃ k, C !! i = Some k.
Proof. intros [[Ht _ _ _ _] _ _] Hp. apply (tr_pending _ _ _ _ Ht i Hp). Qed.

(** An empty queue has room, whatever its capacity. *)
Lemma empty_room v : queue_shows ext (v_switch v) [] → has_room (ms_capacity (s_mbuf (v_switch v))) (@nil (option (list Z * nat))).
Proof.
  intros (q & [r (Hr & Hc & _)] & _). left. rewrite Hc. cbn. pose proof (Z.pow_pos_nonneg 2 r). lia.
Qed.
Lemma drop_oldest_elem {A} (Q : list (option A)) e : e ∈ drop_oldest Q → e ∈ Q.
Proof.
  induction Q as [|[x|] Q IH]; cbn; [done|intros; by right|intros Hin; right; by apply IH].
Qed.
(** Packets are offered to clients only. *)
Lemma offered_addressed C s c js : ∀ Q, addressed C Q → Forall (λ j, is_Some (C !! j)) js → addressed C (offered s Q c js).
Proof.
  induction js as [|j js IH]; intros Q HQ Hjs; [done|]. apply Forall_cons in Hjs as [Hj Hjs]. cbn. apply IH; [|done].
  intros p x Hin. unfold offer in Hin. destruct (ready s j); [|by eapply HQ]. unfold push in Hin.
  apply elem_of_app in Hin as [Hin|Hin]; [|apply list_elem_of_singleton in Hin; by injection Hin as -> ->].
  case_decide; [|by eapply HQ]. by eapply HQ, drop_oldest_elem.
Qed.

(** ** A packet from the socket *)

(** What a packet and what may be created for it are like: a new client is not
    established by the packet it is created for. *)
Record link_fits (li : link_input) : Prop := {
  lf_inherits : inherits (li_instance li) (li_activity li);
  lf_session : session_fits (li_new li);
  lf_new : p_established (li_new li) = false;
  lf_packet : wf_buf (li_decrypted li) ∧ Forall is_byte (content (li_decrypted li));
}.
Definition came_from (li : link_input) : option mroute_addr :=
  let '(ok, real) := mroute_extract_openvpn_sockaddr (li_from li) true (li_junk li) in if ok then Some real else None.

Lemma not_established k p flags : p_established p = false → connects k p flags = None.
Proof. intros E. unfold connects. by rewrite E, andb_false_r. Qed.

(** The client of the packet. *)
Lemma found_client now C Q v li allowed f :
  running ext C Q v → link_fits li → frequency_limit_event_allowed now (v_limiter v) = Ret (allowed, f) →
  ∃ o v' n C', (∀ fuel, (n ≤ fuel)%nat →
      multi_get_create_instance_udp little script random tun now fuel (li_from li) (li_junk li) (li_lite li)
        (li_instance li) (li_sig li) (li_activity li) (li_new li) v = Ret (o, v')) ∧
    running ext C' Q v' ∧ evolves (came_from li) C C' ∧ no_dearer (v_multi v) (v_multi v') ∧ (∀ i, o = Some i → is_Some (C' !! i)).
Proof.
  intros Hr [Hin Hse Hne _] Hfl. unfold came_from.
  pose proof (get_create_ok ext Hext little script now tun random C Q v (li_from li) (li_junk li) (li_lite li) (li_instance li) (li_sig li) (li_activity li) (li_new li)
    allowed f Hr Hin Hse Hfl (running_fresh _ _ _ _ Hr)) as H.
  destruct (mroute_extract_openvpn_sockaddr (li_from li) true (li_junk li)) as [ok real]. cbv beta iota zeta in H.
  assert (∀ g, gone_for_new real (li_instance li) (li_activity li) (li_new li) v = g → g = λ _, false) as Hg.
  { intros g <-. unfold gone_for_new. by rewrite not_established. }
  destruct H as (o & v' & n & E & Hd & Hold & Hnew); [intros c Hc; by rewrite not_established in Hc|].
  specialize (Hd (not_established _ _ _ Hne)).
  destruct (known_or_not ext C Q v ok real Hr) as [(i & Hok & Hi)|Hno].
  - destruct (Hold i Hok Hi) as [-> Hr']. exists (Some i), v', n, C. split; [done|]. split; [done|]. split; [apply evolves_refl|]. split; [done|].
    intros j [= <-]. by destruct Hi as (k & -> & _).
  - specialize (Hnew Hno). destruct (ok && li_lite li && allowed && negb (li_sig li) && negb (is_full v)) eqn:Eb.
    2: { destruct Hnew as [-> Hr']. exists None, v', n, C. split; [done|]. split; [done|]. split; [apply evolves_refl|]. by split. }
    destruct Hnew as (-> & k' & Hk' & Hr'). rewrite (Hg _ eq_refl), without_none, forget_none in Hr' by done.
    exists (Some (new_id v)), v', n, (<[new_id v := k']> C). split; [done|]. split; [done|]. split; [|split; [done|intros j [= <-]; by rewrite lookup_insert_eq]].
    repeat (apply andb_prop in Eb as [Eb _]). rewrite Eb. destruct (new_absent ext C Q v (sv_tracks _ _ _ _ (rn_serves _ _ _ _ Hr))) as [_ HCi].
    intros j kj [[<- <-]|[_ Hj]]%lookup_insert_Some; [right|left; by exists kj]. split; [done|by rewrite Hk'].
Qed.

Context (junk_src junk_dest junk_ext : mroute_addr).
Hypothesis (Hjs : any_addr junk_src) (Hjd : any_addr junk_dest) (Htun : tt_type tun = DEV_TYPE_TUN).

Lemma alive_clients C Q v js : running ext C Q v → Forall (λ j, alive (s_multi (v_switch v)) j = true) js → Forall (λ j, is_Some (C !! j)) js.
Proof. intros [[Ht _ _ _ _] _ _] H. eapply Forall_impl; [exact H|]. intros j. apply (tr_alive _ _ _ _ Ht). Qed.
Lemma room_drifted n1 n2 p m m' : 0 ≤ n1 → room_for (n1 + n2) p m → drifted n1 m m' → room_for n2 p m'.
Proof.
  intros Hn Hr [D1 D2 D3] c Hc. destruct (Hr c Hc) as (R1 & R2 & R3 & R4). split; [done|]. split; [lia|]. split; [lia|].
  intros l Hl. specialize (R4 l Hl). specialize (D3 l Hl). lia.
Qed.

(** The packet of a client is switched. *)
Lemma switch_packet now C v i li :
  running ext C [] v → is_Some (C !! i) → link_fits li → roomy 3 (v_switch v) →
  ∃ o v' Q', (if decide (buf_len (li_packet li) > 0) then
      '(b, s) ← multi_process_incoming_link little script junk_src junk_dest junk_ext (tt_type tun) now i (li_decrypted li) (v_switch v);
      Ret (Some (i, b), set_switch s v)
    else Ret (None, v)) = Ret (o, v') ∧ running ext C Q' v' ∧ drifted 2 (v_multi v) (v_multi v').
Proof.
  intros Hr Hi [_ _ _ [Hw Hb]] Hroom. destruct (running_switch _ _ _ Hr) as [Hso Hq].
  case_decide; [|exists None, v, []; split; [done|split; [done|]]; split; [lia|done|done]].
  assert (alive (s_multi (v_switch v)) i = true) as Ha by (by apply (tr_alive _ _ _ _ (sv_tracks _ _ _ _ (rn_serves _ _ _ _ Hr)))).
  destruct (from_client_tun_ok little script junk_src junk_dest Hjs Hjd ext now i (li_decrypted li) (v_switch v) [] Hext Hso Hroom Ha Hw Hb Hq (empty_room v Hq))
    as (b' & s' & E & Ho & Hsw & _ & _ & Hg & js & Hjs' & Hq').
  unfold multi_process_incoming_link. rewrite decide_True by done. rewrite E. exists (Some (i, b')), (set_switch s' v), (offered (v_switch v) [] (content (li_decrypted li)) js).
  split; [by bret|]. split; [|by apply switched_drifted]. eapply running_switched; [done|done|done|done|done|].
  apply offered_addressed; [by intros p j ?%elem_of_nil|by eapply alive_clients].
Qed.
(** A packet from the socket. *)
Lemma link_ok now C v li p flags allowed f :
  running ext C [] v → v_pending v = None → link_fits li → session_fits p → roomy 3 (v_switch v) → room_for 2 p (v_multi v) →
  frequency_limit_event_allowed now (v_limiter v) = Ret (allowed, f) →
  ∃ r v' n C' Q', (∀ fuel, (n ≤ fuel)%nat → udp_incoming_link little script random tun junk_src junk_dest junk_ext now fuel li p flags v = Ret (r, v')) ∧
    running ext C' Q' v' ∧ evolves (came_from li) C C'.
Proof.
  intros Hr Hp Hli Hse Hroom Hrf Hfl. destruct (found_client now C [] v li allowed f Hr Hli Hfl) as (o & v1 & n1 & C1 & E1 & Hr1 & Hev1 & Hd1 & Ho).
  unfold udp_incoming_link. rewrite Hp. pose proof (running_pending C1 [] v1 o Hr1 Ho) as Hr1'. set (v1' := multi_set_pending o v1) in *.
  destruct o as [i|].
  2: { exists (true, None), v1', n1, C1, []. split; [intros fuel Hf; rewrite E1 by done; by bret|]. by split. }
  destruct (switch_packet now C1 v1' i li Hr1' (Ho i eq_refl) Hli) as (o & v2 & Q2 & E2 & Hr2 & Hd2).
  { pose proof (nd_size _ _ Hd1). unfold roomy in *. change (s_multi (v_switch v1')) with (v_multi v1). change (s_multi (v_switch v)) with (v_multi v) in Hroom. lia. }
  destruct (Ho i eq_refl) as [k Hk].
  assert (room_for 0 p (v_multi v2)) as Hrf2.
  { eapply (room_drifted 2 0); [lia| |exact Hd2]. change (v_multi v1') with (v_multi v1). eapply (room_drifted 0 2); [done|done|]. by apply no_dearer_drifted. }
  destruct (post_running now C1 Q2 v2 i k p flags Hr2 Hk Hse Hrf2) as (v3 & n3 & C3 & Q3 & E3 & Hr3 & Hev3 & _).
  exists (negb (closes p flags), o), v3, (n1 + n3)%nat, C3, Q3. split; [|split; [done|by eapply evolves_after]].
  intros fuel Hf. rewrite E1 by lia. bret. fold v1'. rewrite E2. bret. unfold process_post. rewrite E3 by lia. by bret.
Qed.

(** ** A packet from the device *)

Record tun_fits (ti : tun_input) : Prop := { tf_packet : wf_buf (ti_packet ti) ∧ Forall is_byte (content (ti_packet ti)) }.
Lemma route_packet now C v ti :
  running ext C [] v → tun_fits ti → roomy 2 (v_switch v) →
  ∃ o s Q', multi_process_incoming_tun little script junk_src junk_dest junk_ext (tt_type tun) now (ti_packet ti) (ti_c2_buf ti) (v_switch v) = Ret (o, s) ∧
    running ext C Q' (set_switch s v) ∧ drifted 1 (v_multi v) (s_multi s) ∧ (∀ i b, o = Some (i, b) → is_Some (C !! i)).
Proof.
  intros Hr [[Hw Hb]] Hroom. destruct (running_switch _ _ _ Hr) as [Hso Hq]. rewrite Htun.
  destruct (from_device_ok little script junk_src junk_dest junk_ext Hjs Hjd ext now (ti_packet ti) (ti_c2_buf ti) (v_switch v) [] Hext Hso Hroom Hw Hb Hq (empty_room v Hq))
    as (o & s & E & Ho & Hsw & H1 & H2 & H3 & Hg). set (c := content (ti_packet ti)) in *.
  assert (∀ Q', queue_shows ext s Q' → addressed C Q' → (∀ i b, o = Some (i, b) → is_Some (C !! i)) → ∃ o' s' Q', Ret (o, s) = Ret (o', s') ∧
    running ext C Q' (set_switch s' v) ∧ drifted 1 (v_multi v) (s_multi s') ∧ (∀ i b, o' = Some (i, b) → is_Some (C !! i))) as Hend.
  { intros Q' Hq' Ha Hc. exists o, s, Q'. split; [done|]. split; [by eapply running_switched|]. split; [by apply switched_drifted|done]. }
  rewrite E. assert (addressed C []) as Hnil by (by intros p j ?%elem_of_nil).
  destruct (decide (ip_packet c)) as [Hip|Hip]; [destruct (multicast c) eqn:Em|].
  - destruct (H2 Hip eq_refl) as [-> Hq']. eapply Hend; [done| |done]. apply offered_addressed; [done|]. eapply alive_clients; [done|]. apply bcast_alive, Hso.
  - destruct (H3 Hip eq_refl) as (od & Hown & Hq' & ->). eapply Hend; [done|done|]. intros i b Hi. destruct od as [j|]; [|done]. injection Hi as <- _.
    apply (tr_alive _ _ _ _ (sv_tracks _ _ _ _ (rn_serves _ _ _ _ Hr))). by apply (owner_alive_client _ _ _ Hown).
  - destruct (H1 Hip) as [-> Hq']. by eapply Hend.
Qed.
Lemma tun_ok now C v ti p flags :
  running ext C [] v → tun_fits ti → session_fits p → roomy 2 (v_switch v) → room_for 1 p (v_multi v) →
  ∃ r v' n C' Q', (∀ fuel, (n ≤ fuel)%nat → udp_incoming_tun little script random tun junk_src junk_dest junk_ext now fuel ti p flags v = Ret (r, v')) ∧
    running ext C' Q' v' ∧ evolves None C C'.
Proof.
  intros Hr Hti Hse Hroom Hrf. unfold udp_incoming_tun. case_decide.
  2: { exists (true, None), v, 0%nat, C, []. split; [done|]. split; [done|apply evolves_refl]. }
  destruct (v_pending v).
  { exists (true, None), v, 0%nat, C, []. split; [done|]. split; [done|apply evolves_refl]. }
  destruct (route_packet now C v ti Hr Hti Hroom) as (o & s & Q1 & E1 & Hr1 & Hd1 & Ho). rewrite E1. setoid_rewrite bind_Ret. cbv zeta iota beta.
  destruct o as [[i b]|].
  2: { exists (true, None), (set_switch s v), 0%nat, C, Q1. split; [done|]. split; [done|apply evolves_refl]. }
  destruct (Ho i b eq_refl) as [k Hk]. pose proof (running_pending C Q1 _ (Some i) Hr1) as Hr2. set (v2 := multi_set_pending (Some i) (set_switch s v)) in *.
  destruct (post_running now C Q1 v2 i k p flags) as (v3 & n3 & C3 & Q3 & E3 & Hr3 & Hev3 & _);
    [apply Hr2; intros j [= <-]; by rewrite Hk|done|done|eapply (room_drifted 1 0); [lia|done|exact Hd1]|].
  exists (negb (closes p flags), Some (i, b)), v3, n3, C3, Q3. split; [|by split].
  intros fuel Hf. unfold process_post. rewrite E3 by done. by bret.
Qed.

(** ** Output *)

Lemma running_queue C Q Q' v ms h : running ext C Q v → queue_shows ext (set_queue ms h (v_switch v)) Q' → addressed C Q' →
  running ext C Q' (set_switch (set_queue ms h (v_switch v)) v).
Proof. intros [[[] ? ? ? ?] ? ?] Hq Ha. by split. Qed.
(** The next packet, in the order they were queued, that still has a client. *)
Lemma get_queue_ok C Q v : running ext C Q v →
  match next_packet Q with
  | Some ((c, i), Q') => ∃ mb v', multi_get_queue v = Ret (Some (i, mb), v') ∧ content (mb_buf mb) = c ∧ is_Some (C !! i) ∧ running ext C Q' v' ∧ v_multi v' = v_multi v
  | None => ∃ v', multi_get_queue v = Ret (None, v') ∧ running ext C [] v' ∧ v_multi v' = v_multi v
  end.
Proof.
  intros Hr. pose proof (sv_tracks _ _ _ _ (rn_serves _ _ _ _ Hr)) as Ht. pose proof (extract_shows ext (v_switch v) Q Hext (tr_queue _ _ _ _ Ht)) as H.
  unfold multi_get_queue. destruct (next_packet Q) as [[[c i] Q']|] eqn:En.
  - destruct H as (ms & b & m & h & E1 & Hb & Hc & E2 & Hq & _). destruct (next_addressed _ _ _ _ _ (tr_addressed _ _ _ _ Ht) En) as [[k Hk] Ha].
    rewrite E1. bret. cbn [of_option mi_instance mi_buffer]. bret. rewrite (get_client_ok ext C Q v i k Ht Hk). bret. rewrite Hb. cbn [of_option]. bret.
    rewrite E2. bret. exists m, (set_switch (set_queue ms h (v_switch v)) v). split; [done|]. split; [done|]. split; [by rewrite Hk|]. split; [by eapply running_queue|done].
  - destruct H as (ms & E1 & Hq & _). rewrite E1. bret. eexists. split; [done|]. split; [|done]. eapply running_queue; [done|done|]. by intros p j ?%elem_of_nil.
Qed.
Lemma outgoing_link_ok now C Q v p flags :
  running ext C Q v → session_fits p → room_for 0 p (v_multi v) →
  ∃ r v' n C' Q', (∀ fuel, (n ≤ fuel)%nat → multi_process_outgoing_link little script random tun now fuel p flags v = Ret (r, v')) ∧
    running ext C' Q' v' ∧ evolves None C C'.
Proof.
  intros Hr Hse Hrf. unfold multi_process_outgoing_link.
  assert (∃ o v1 Q1, multi_process_outgoing_link_pre v = Ret (o, v1) ∧ running ext C Q1 v1 ∧ v_multi v1 = v_multi v ∧ ∀ i mb, o = Some (i, mb) → is_Some (C !! i))
    as (o & v1 & Q1 & -> & Hr1 & Em & Ho).
  { unfold multi_process_outgoing_link_pre. destruct (v_pending v) as [i|] eqn:Ep.
    - destruct (pending_client _ _ _ _ Hr Ep) as [k Hk]. exists (Some (i, None)), v, Q. split_and!; [done..|]. intros j mb [= <- _]. by rewrite Hk.
    - destruct (mbuf_defined _); [|by exists None, v, Q; split_and!].
      pose proof (get_queue_ok C Q v Hr) as H. destruct (next_packet Q) as [[[c i] Q']|].
      + destruct H as (mb & v1 & -> & _ & Hi & Hr1 & Em). exists (Some (i, Some mb)), v1, Q'. split; [by bret|]. split_and!; [done..|]. by intros j mb' [= <- _].
      + destruct H as (v1 & -> & Hr1 & Em). exists None, v1, []. split; [by bret|]. by split_and!. }
  setoid_rewrite bind_Ret. destruct o as [[i mb]|].
  2: { exists None, v1, 0%nat, C, Q1. split; [done|]. split; [done|apply evolves_refl]. }
  destruct (Ho i mb eq_refl) as [k Hk]. destruct (post_running now C Q1 v1 i k p flags Hr1 Hk Hse) as (v3 & n3 & C3 & Q3 & E3 & Hr3 & Hev3 & _); [by rewrite Em|].
  exists (Some (i, mb)), v3, n3, C3, Q3. split; [|by split]. intros fuel Hf. unfold process_post. rewrite E3 by done. by bret.
Qed.
Lemma outgoing_tun_ok now C Q v p flags :
  running ext C Q v → v_pending v ≠ None → session_fits p → room_for 0 p (v_multi v) →
  ∃ r v' n C' Q', (∀ fuel, (n ≤ fuel)%nat → multi_process_outgoing_tun little script random tun now fuel p flags v = Ret (r, v')) ∧
    running ext C' Q' v' ∧ evolves None C C'.
Proof.
  intros Hr Hp Hse Hrf. unfold multi_process_outgoing_tun. destruct (v_pending v) as [i|] eqn:Ep; [|done]. destruct (pending_client _ _ _ _ Hr Ep) as [k Hk].
  destruct (post_running now C Q v i k p flags Hr Hk Hse Hrf) as (v3 & n3 & C3 & Q3 & E3 & Hr3 & Hev3 & _). by exists (negb (closes p flags)), v3, n3, C3, Q3.
Qed.

(** ** Waiting *)

Lemma timeout_ok now C Q v p flags :
  running ext C Q v → session_fits p → room_for 0 p (v_multi v) →
  ∃ r v' n C' Q', (∀ fuel, (n ≤ fuel)%nat → multi_process_timeout little script random tun now fuel p flags v = Ret (r, v')) ∧
    running ext C' Q' v' ∧ evolves None C C'.
Proof.
  intros Hr Hse Hrf. unfold multi_process_timeout. destruct (v_earliest_wakeup v) as [i|] eqn:Ep.
  2: { exists true, v, 0%nat, C, Q. split; [done|]. split; [done|apply evolves_refl]. }
  destruct (tr_wakeup _ _ _ _ (sv_tracks _ _ _ _ (rn_serves _ _ _ _ Hr)) i Ep) as [k Hk].
  destruct (post_running now C Q v i k p flags Hr Hk Hse Hrf) as (v3 & n3 & C3 & Q3 & E3 & Hr3 & Hev3 & _).
  exists (negb (closes p flags)), (set_earliest_wakeup None v3), n3, C3, Q3. split; [|split; [by apply running_wakeup|done]].
  intros fuel Hf. unfold process_post. rewrite E3 by done. by bret.
Qed.
Lemma timers_ok now trigger C Q v :
  running ext C Q v → ∃ t v', multi_process_per_second_timers now None trigger v = Ret (t, v') ∧ running ext C Q v' ∧ drifted 1 (v_multi v) (v_multi v') ∧
    v_switch v' = set_multi (v_multi v') (v_switch v) ∧ v_pending v' = v_pending v ∧ v_limiter v' = v_limiter v.
Proof.
  intros Hr. unfold multi_process_per_second_timers, multi_process_per_second_timers_dowork. case_decide.
  2: { exists trigger, v. split; [done|]. split; [done|]. split; [split; [lia|done|done]|]. split; [|done]. by destruct v as [[]]. }
  pose proof Hr as [[Ht Hit Hall Hse Hdu] Hrl Hsz].
  destruct (reap_process_ok now (v_multi v) (tr_routing _ _ _ _ Ht) (tr_reaper _ _ _ _ Ht)) as (m & -> & Hm & Hrp & _ & Hfo & Hh & Hn). bret.
  pose proof (tracks_folk ext C Q v m Ht Hfo Hm Hrp) as Ht'. exists now, (with_multi m v).
  assert (dues m = dues (v_multi v)) as Ed by (unfold dues; rewrite Hh, (folk_owes (v_multi v)); [done|apply (tr_routing _ _ _ _ Ht)|done]).
  split; [done|]. split; [|split; [change (drifted 1 (v_multi v) m); split; [done|lia|by rewrite Hh]|done]]. split; [|done|done]. split; try done; [|by change (v_multi (with_multi m v)) with m; rewrite Ed].
  intros j k Hj He. destruct (Hse j k Hj He) as [P1 P2]. split; [done|]. intros z Hz. destruct (proj2 Hfo j z Hz) as (y & Hy & x1 & x2 & ->). by apply (P2 y).
Qed.

(** *** The time to wait *)

Definition normal (tv : timeval) : Prop := 0 ≤ tv_usec tv < 1000000.
(** Times whose difference is a number of seconds. *)
Definition near (t1 t2 : timeval) : Prop := normal t1 ∧ normal t2 ∧ INT_MIN < tv_sec t2 - tv_sec t1 ≤ INT_MAX.
Lemma borrow sec usec : -1000000 < usec < 0 → INT_MIN < sec ≤ INT_MAX → tv_delta_body (sec, usec) = Ret (inl (sec - 1, usec + 1000000)).
Proof. intros Hu Hs. ints. unfold tv_delta_body. rewrite decide_True by lia. rewrite !int_ok by (ints; lia). by bret. Qed.
Lemma no_borrow sec usec : 0 ≤ usec → tv_delta_body (sec, usec) = Ret (inr (sec, usec)).
Proof. intros Hu. unfold tv_delta_body. by rewrite decide_False by lia. Qed.
Lemma tv_delta_ok t1 t2 : near t1 t2 → ∃ d, tv_delta 3 t1 t2 = Ret d ∧ normal d ∧ 0 ≤ tv_sec d ∧ us d = Z.max 0 (us t2 - us t1).
Proof.
  intros (N1 & N2 & Hs). unfold normal in *. ints. unfold tv_delta, us. rewrite !s32_id by (ints; lia).
  assert (∀ s u, 0 ≤ u < 1000000 → ∃ d, Ret (if decide (s < 0) then TV 0 0 else TV s u) = Ret d ∧ 0 ≤ tv_usec d < 1000000 ∧ 0 ≤ tv_sec d ∧ tv_sec d * 1000000 + tv_usec d = Z.max 0 (s * 1000000 + u)) as Hend.
  { intros s u Hu. case_decide; eexists; (split; [done|]); cbn; lia. }
  destruct (decide (tv_usec t2 - tv_usec t1 < 0)) as [Hn|Hn].
  - rewrite loop_S, borrow by (ints; lia). bret. rewrite loop_S, no_borrow by lia. bret.
    destruct (Hend (tv_sec t2 - tv_sec t1 - 1) (tv_usec t2 - tv_usec t1 + 1000000)) as (d & -> & Hd1 & Hd2 & Hd3); [lia|]. exists d. split_and!; [done|lia..].
  - rewrite loop_S, no_borrow by lia. bret.
    destruct (Hend (tv_sec t2 - tv_sec t1) (tv_usec t2 - tv_usec t1)) as (d & -> & Hd1 & Hd2 & Hd3); [lia|]. exists d. split_and!; [done|lia..].
Qed.

(** At most ten seconds, and no longer than until the first client is to be woken; that
    client is kept, unless the ten seconds are up first. *)
Lemma get_timeout_ok C Q v current :
  running ext C Q v → (∀ i tv, scheduled (v_schedule v) !! i = Some tv → near current tv) →
  ∃ t v', multi_get_timeout current v = Ret (t, v') ∧ running ext C Q v' ∧
    v_switch v' = v_switch v ∧ v_pending v' = v_pending v ∧ v_limiter v' = v_limiter v ∧
    us t ≤ REAP_MAX_WAKEUP * 1000000 ∧
    (∀ i tv, scheduled (v_schedule v) !! i = Some tv → us t ≤ Z.max 0 (us tv - us current)) ∧
    (us t = REAP_MAX_WAKEUP * 1000000 ∧ v_earliest_wakeup v' = None ∨
     ∃ i tv, scheduled (v_schedule v) !! i = Some tv ∧ v_earliest_wakeup v' = Some i ∧ us t = Z.max 0 (us tv - us current)).
Proof.
  intros Hr Hnear. destruct (schedule_next C (v_schedule v) (tr_schedule _ _ _ _ (sv_tracks _ _ _ _ (rn_serves _ _ _ _ Hr)))) as (r & s & E & Hs & Hsp).
  unfold multi_get_timeout. rewrite E. bret. cbv zeta. pose proof (running_schedule C Q v s Hr Hs) as Hr1. set (v1 := set_schedule s v) in *.
  assert (running ext C Q (set_earliest_wakeup None v1)) as Hnone by by apply running_wakeup.
  destruct r as [[i tv]|].
  2: { eexists _, _. split; [done|]. split; [done|]. do 3 (split; [done|]). split; [done|]. rewrite Hsp. split; [intros j tv Hj; by rewrite lookup_empty in Hj|by left]. }
  destruct Hsp as (Hi & Htv & Hmin). destruct (tv_delta_ok current tv (Hnear i tv Htv)) as (d & -> & Hd1 & Hd2 & Hd3). bret.
  assert (∀ j tv', scheduled (v_schedule v) !! j = Some tv' → us tv ≤ us tv') as Hle.
  { intros j tv' Hj. pose proof (Hmin j tv' Hj) as Hlt. destruct (Hnear i tv Htv) as (_ & N1 & _), (Hnear j tv' Hj) as (_ & N2 & _).
    unfold tv_lt in Hlt. unfold normal, us in *. repeat case_decide; try done; lia. }
  assert (us d = tv_sec d * 1000000 + tv_usec d) as Eus by done. unfold normal, REAP_MAX_WAKEUP in *. case_decide as Hten.
  - eexists _, _. split; [done|]. split; [done|]. do 3 (split; [done|]). split; [done|]. split; [|by left].
    intros j tv' Hj. specialize (Hle j tv' Hj). change (us (TV 10 0)) with 10000000. lia.
  - exists d, (set_earliest_wakeup (Some i) v1). split; [done|]. split; [apply running_wakeup; [done|by intros j [= <-]]|]. do 3 (split; [done|]).
    split; [lia|]. split; [intros j tv' Hj; specialize (Hle j tv' Hj); lia|]. right. by exists i, tv.
Qed.

(** *** What is waited for *)

Lemma land_bit a n : 0 ≤ n → Z.land a (2 ^ n) ≠ 0 → Z.testbit a n = true.
Proof.
  intros Hn H. destruct (Z.testbit a n) eqn:E; [done|]. destruct H. apply Z.bits_inj'. intros k Hk.
  rewrite Z.land_spec, Z.pow2_bits_eqb, Z.bits_0 by done. destruct (Z.eqb_spec n k) as [<-|]; [by rewrite E|apply andb_false_r].
Qed.
(** [event_wait] answers events that were asked for; signals and the management interface
    have shifts of their own. *)
Definition answers (flags : Z) (a : io_answer) : Prop :=
  ∀ es shift rw, io_events a = Some es → (shift, rw) ∈ es →
    shift = 0 ∧ Z.land (Z.land rw 3) (io_wait_request flags a).1 = Z.land rw 3 ∨
    shift = 2 ∧ Z.land (Z.land rw 3) (io_wait_request flags a).2 = Z.land rw 3 ∨ 4 ≤ shift.
Lemma status_bit es n : 0 ≤ n → Z.testbit (event_set_status es) n = true → ∃ shift rw, (shift, rw) ∈ es ∧ Z.testbit (Z.shiftl (Z.land rw 3) shift) n = true.
Proof.
  intros Hn. unfold event_set_status. assert (∀ s, Z.testbit (foldl (λ s '(shift, rwflags), Z.lor s (Z.shiftl (Z.land rwflags 3) shift)) s es) n = true →
    Z.testbit s n = true ∨ ∃ shift rw, (shift, rw) ∈ es ∧ Z.testbit (Z.shiftl (Z.land rw 3) shift) n = true) as H.
  { induction es as [|[shift rw] es IH]; intros s; cbn; [by left|]. intros [H|(sh & r & Hin & H)]%IH; [|right; exists sh, r; split; [by right|done]].
    rewrite Z.lor_spec in H. apply orb_true_iff in H as [H|H]; [by left|]. right. exists shift, rw. split; [by left|done]. }
  intros [H0|]%H; [by rewrite Z.bits_0 in H0|done].
Qed.
Lemma three_bits rw n : 2 ≤ n ∨ n < 0 → Z.testbit (Z.land rw 3) n = false.
Proof.
  intros [Hn|Hn]; [|by apply Z.testbit_neg_r]. rewrite Z.land_spec. change 3 with (Z.ones 2). rewrite Z.ones_spec_high by lia. apply andb_false_r.
Qed.
(** An event that has happened was asked for. *)
Lemma asked flags a es n : answers flags a → io_events a = Some es → 0 ≤ n < 4 → Z.land (event_set_status es) (2 ^ n) ≠ 0 →
  if decide (n < 2) then Z.testbit (io_wait_request flags a).1 n = true else Z.testbit (io_wait_request flags a).2 (n - 2) = true.
Proof.
  intros Ha He Hn H%land_bit; [|lia]. apply status_bit in H as (shift & rw & Hin & H); [|lia]. rewrite Z.shiftl_spec in H by lia.
  destruct (Ha es shift rw He Hin) as [[-> Hr]|[[-> Hr]|Hsh]].
  - case_decide; [|rewrite three_bits in H by lia; done]. rewrite Z.sub_0_r, <- Hr, Z.land_spec in H. by apply andb_true_iff in H as [_ ->].
  - case_decide; [rewrite three_bits in H by lia; done|]. rewrite <- Hr, Z.land_spec in H. by apply andb_true_iff in H as [_ ->].
  - rewrite three_bits in H by lia. done.
Qed.

(** No output waits. *)
Definition reading (v : server) : Prop := v_pending v = None ∧ ms_len (s_mbuf (v_switch v)) = 0.
Lemma request_bits tun_out link_out a v : let r := io_wait_request (p2mp_iow_flags tun_out link_out v) a in
  (Z.testbit r.1 0 = true → reading v) ∧ (Z.testbit r.2 0 = true → reading v) ∧ (Z.testbit r.2 1 = true → v_pending v ≠ None).
Proof.
  cbv zeta. unfold reading, p2mp_iow_flags. destruct (v_pending v) as [i|].
  - destruct tun_out, link_out; (split_and!; [intros H; by vm_compute in H|intros H; by vm_compute in H|done]).
  - cbn [mbuf_defined]. destruct (decide (ms_len (s_mbuf (v_switch v)) = 0)) as [E|E].
    + rewrite bool_decide_eq_true_2 by done. split_and!; [done|done|intros H; by vm_compute in H].
    + rewrite bool_decide_eq_false_2 by done. split_and!; intros H; by vm_compute in H.
Qed.
Lemma fast_bits tun_out link_out a v : let flags := p2mp_iow_flags tun_out link_out v in
  bool_decide (Z.land flags (Z.lor (Z.lor IOW_TO_TUN IOW_TO_LINK) IOW_MBUF) ≠ 0) = true →
  let status := io_wait true flags a in
  Z.land status SOCKET_READ = 0 ∧ Z.land status TUN_READ = 0 ∧ (Z.land status TUN_WRITE ≠ 0 → v_pending v ≠ None).
Proof.
  cbv zeta. unfold p2mp_iow_flags. destruct (v_pending v) as [i|]; [destruct tun_out, link_out|destruct (mbuf_defined _)]; intros H; vm_compute in H; try done; by split_and!.
Qed.
Lemma no_residual tun_out link_out v : Z.land (p2mp_iow_flags tun_out link_out v) IOW_CHECK_RESIDUAL = 0.
Proof. unfold p2mp_iow_flags. destruct (v_pending v); [by destruct tun_out, link_out|by destruct (mbuf_defined _)]. Qed.
(** Packets are read only while no output waits; the device is written to only when a
    client is pending. *)
Lemma waits_for fast tun_out link_out a v :
  let flags := p2mp_iow_flags tun_out link_out v in let status := io_wait fast flags a in
  answers flags a →
  (Z.land status SOCKET_READ ≠ 0 → reading v) ∧ (Z.land status TUN_READ ≠ 0 → reading v) ∧ (Z.land status TUN_WRITE ≠ 0 → v_pending v ≠ None).
Proof.
  intros flags status Ha. pose proof (request_bits tun_out link_out a v) as Hrq. pose proof (fast_bits tun_out link_out a v) as Hfast. fold flags in Hrq, Hfast. cbv zeta in Hrq, Hfast.
  destruct (fast && bool_decide (Z.land flags (Z.lor (Z.lor IOW_TO_TUN IOW_TO_LINK) IOW_MBUF) ≠ 0)) eqn:Ef.
  - apply andb_true_iff in Ef as [Et Hf]. subst status. rewrite Et. by destruct (Hfast Hf) as (-> & -> & H).
  - subst status. unfold io_wait. rewrite Ef. unfold io_wait_dowork. rewrite (bool_decide_eq_true_2 _ (no_residual tun_out link_out v)). cbn [orb].
    destruct (io_signal a); [by split_and!|]. cbn [negb]. destruct (io_events a) as [[|e es]|] eqn:Ee; [by split_and!| |by split_and!].
    destruct Hrq as (R1 & R2 & R3). split_and!; intros H.
    + apply R1. by apply (asked flags a (e :: es) 0).
    + apply R2. by apply (asked flags a (e :: es) 2).
    + apply R3. by apply (asked flags a (e :: es) 3).
Qed.
Lemma reading_empty v Q : queue_shows ext (v_switch v) Q → reading v → Q = [].
Proof.
  intros (q & [r (_ & _ & _ & _ & Hl & _)] & _ & Hsh) [_ E]. rewrite E in Hl. destruct q; [|cbn in Hl; lia]. by inversion Hsh.
Qed.

(** ** An iteration of the loop *)

(** What one iteration needs. *)
Record turn_fits (t : turn) (v : server) : Prop := {
  tf_times : ∀ i tv, scheduled (v_schedule v) !! i = Some tv → near (t_current t) tv;
  tf_answer : answers (p2mp_iow_flags (t_tun_out t) (t_link_out t) v) (t_answer t);
  tf_stale : t_stale t = None;
  tf_link : link_fits (t_link t);
  tf_tun : tun_fits (t_tun t);
  tf_post : session_fits (t_post t);
  tf_room : n_elements (m_vhash (v_multi v)) + 4 < INT_MAX;
  tf_connects : room_for 3 (t_post t) (v_multi v);
  tf_limiter : INT_MIN ≤ fl_n (v_limiter v) < INT_MAX;
}.
Lemma limiter_answers now f : INT_MIN ≤ fl_n f < INT_MAX → ∃ b f', frequency_limit_event_allowed now f = Ret (b, f').
Proof.
  intros Hn. unfold frequency_limit_event_allowed. case_decide; [|by exists true, f]. cbv zeta. rewrite int_ok; [bret; eauto|].
  ints. case_decide; cbn; lia.
Qed.

Lemma io_ok C Q v t status :
  running ext C Q v → link_fits (t_link t) → tun_fits (t_tun t) → session_fits (t_post t) →
  roomy 3 (v_switch v) → room_for 2 (t_post t) (v_multi v) → INT_MIN ≤ fl_n (v_limiter v) < INT_MAX →
  (Z.land status SOCKET_READ ≠ 0 → reading v) → (Z.land status TUN_READ ≠ 0 → reading v) → (Z.land status TUN_WRITE ≠ 0 → v_pending v ≠ None) →
  ∃ v' n C' Q', (∀ fuel, (n ≤ fuel)%nat → multi_process_io_udp little script random tun junk_src junk_dest junk_ext fuel t status v = Ret v') ∧
    running ext C' Q' v' ∧ evolves (came_from (t_link t)) C C'.
Proof.
  intros Hr Hl Ht Hse Hroom Hrf Hfl Hsr Htr Htw. unfold multi_process_io_udp. cbv zeta. set (flags := Z.lor _ MPP_CLOSE_ON_SIGNAL).
  assert (room_for 0 (t_post t) (v_multi v)) as Hrf0 by (eapply (room_drifted 2 0); [lia|done|]; split; [lia|done|done]).
  assert (∃ v' n C' Q', (∀ fuel : nat, (n ≤ fuel)%nat → Ret v = Ret v') ∧ running ext C' Q' v' ∧ evolves (came_from (t_link t)) C C') as Hstay.
  { exists v, 0%nat, C, Q. split; [done|]. split; [done|apply evolves_refl]. }
  repeat case_decide; try done.
  - destruct (outgoing_link_ok (t_now t) C Q v (t_post t) flags Hr Hse Hrf0) as (r & v' & n & C' & Q' & E & Hr' & Hev).
    exists v', n, C', Q'. split; [intros fuel Hf; rewrite E by done; by bret|]. split; [done|by apply evolves_weak].
  - destruct (outgoing_tun_ok (t_now t) C Q v (t_post t) flags Hr) as (r & v' & n & C' & Q' & E & Hr' & Hev); [auto..|].
    exists v', n, C', Q'. split; [intros fuel Hf; rewrite E by done; by bret|]. split; [done|by apply evolves_weak].
  - destruct (t_read_signal t); [done|]. assert (reading v) as Hrd by auto. pose proof (reading_empty v Q (proj2 (running_switch _ _ _ Hr)) Hrd) as ->.
    destruct (limiter_answers (t_now t) (v_limiter v) Hfl) as (b & f & Ef).
    destruct (link_ok (t_now t) C v (t_link t) (t_post t) flags b f Hr (proj1 Hrd) Hl Hse Hroom Hrf Ef) as (r & v' & n & C' & Q' & E & Hr' & Hev).
    exists v', n, C', Q'. split; [intros fuel Hf; rewrite E by done; by bret|]. by split.
  - destruct (t_read_signal t); [done|]. assert (reading v) as Hrd by auto. pose proof (reading_empty v Q (proj2 (running_switch _ _ _ Hr)) Hrd) as ->.
    destruct (tun_ok (t_now t) C v (t_tun t) (t_post t) flags Hr Ht Hse) as (r & v' & n & C' & Q' & E & Hr' & Hev); [unfold roomy in *; lia|eapply (room_drifted 1 1); [lia|done|]; split; [lia|done|done]|].
    exists v', n, C', Q'. split; [intros fuel Hf; rewrite E by done; by bret|]. split; [done|by apply evolves_weak].
Qed.

Lemma turn_ok C Q v t trigger :
  running ext C Q v → turn_fits t v →
  ∃ trigger' v' n C' Q', (∀ fuel, (n ≤ fuel)%nat →
      server_turn little script random tun junk_src junk_dest junk_ext fuel t trigger v = Ret (trigger', v')) ∧
    running ext C' Q' v' ∧ evolves (came_from (t_link t)) C C'.
Proof.
  intros Hr [F1 F2 F3 F4 F5 F6 F7 F8 F9]. unfold server_turn.
  destruct (get_timeout_ok C Q v (t_current t) Hr F1) as (tv & v1 & -> & Hr1 & Es1 & Ep1 & El1 & _). setoid_rewrite bind_Ret. cbv beta iota zeta.
  assert (p2mp_iow_flags (t_tun_out t) (t_link_out t) v1 = p2mp_iow_flags (t_tun_out t) (t_link_out t) v) as Efl by (unfold p2mp_iow_flags; by rewrite Es1, Ep1).
  rewrite Efl. destruct (waits_for (t_fast_io t) (t_tun_out t) (t_link_out t) (t_answer t) v F2) as (W1 & W2 & W3).
  set (status := io_wait _ _ _) in *. destruct (t_signal t).
  { exists trigger, v1, 0%nat, C, Q. split; [done|]. split; [done|apply evolves_refl]. }
  rewrite F3. destruct (timers_ok (t_now t) trigger C Q v1 Hr1) as (tr & v2 & -> & Hr2 & Hd2 & Es2 & Ep2 & El2). setoid_rewrite bind_Ret. cbv beta iota.
  assert (v_multi v1 = v_multi v) as Em1 by (unfold v_multi; by rewrite Es1). rewrite Em1 in Hd2.
  assert (reading v → reading v2) as Hrd by (unfold reading; rewrite Ep2, Ep1, Es2, Es1; done).
  assert (∃ v' n C' Q', (∀ fuel, (n ≤ fuel)%nat →
    (if decide (status = ES_TIMEOUT) then
       '(_, v) ← multi_process_timeout little script random tun (t_now t) fuel (t_post t) (Z.lor MPP_PRE_SELECT MPP_CLOSE_ON_SIGNAL) v2; Ret v
     else multi_process_io_udp little script random tun junk_src junk_dest junk_ext fuel t status v2) = Ret v') ∧
    running ext C' Q' v' ∧ evolves (came_from (t_link t)) C C') as (v3 & n & C3 & Q3 & E3 & Hr3 & Hev3).
  { case_decide.
    - destruct (timeout_ok (t_now t) C Q v2 (t_post t) (Z.lor MPP_PRE_SELECT MPP_CLOSE_ON_SIGNAL) Hr2 F6) as (r & v3 & n & C3 & Q3 & E3 & Hr3 & Hev3).
      { eapply (room_drifted 3 0); [lia|done|]. destruct Hd2. split; [lia|done|done]. }
      exists v3, n, C3, Q3. split; [intros fuel Hf; rewrite E3 by done; by bret|]. split; [done|by apply evolves_weak].
    - apply (io_ok C Q v2 t status Hr2 F4 F5 F6); [|by eapply (room_drifted 1 2)|by rewrite El2, El1|auto..|by rewrite Ep2, Ep1].
      unfold roomy. destruct Hd2 as [Hd2 _ _]. change (s_multi (v_switch v2)) with (v_multi v2). lia. }
  exists tr, v3, n, C3, Q3. split; [intros fuel Hf; rewrite E3 by done; by bret|]. by split.
Qed.
End loop.
