(* ===== verification/OvpnServerProps.v ===== *)
(** * OpenVPN: properties of a UDP server

    A server that [multi_init] makes and that goes through iterations of its loop
    ([reachable]), at any times, with any input and whatever signals, TLS sessions, options
    of clients, scripts and random numbers come.  [running] says what holds between two
    iterations, whatever happened before.  The bounds an iteration needs are [turn_fits]. *)
From stdpp Require Import gmap.
From S2P Require Import Prelude OvpnBuffer OvpnPacketId OvpnFrame OvpnList OvpnMbuf OvpnMbufProofs OvpnTime OvpnSchedule OvpnScheduleProofs OvpnScheduleProps OvpnPool OvpnPoolProofs OvpnProto OvpnProtoProofs OvpnMroute OvpnMrouteProofs OvpnPf OvpnPfProofs OvpnMulti OvpnMultiProofs OvpnMultiOpsProofs OvpnMultiProps OvpnSwitch OvpnSwitchProofs OvpnServer OvpnServerLoop OvpnServerProofs OvpnServerOpsProofs OvpnServerEventProofs OvpnServerLoopProofs.
#[local] Open Scope bool_scope.
#[local] Open Scope Z_scope.

(** ** The start *)

(** What the options are checked for before [multi_init]. *)
Record options_fit (o : server_options) : Prop := {
  of_real : 0 < so_real_hash_size o ≤ 2 ^ 30;
  of_virtual : 0 < so_virtual_hash_size o ≤ 2 ^ 30;
  of_freq : 0 ≤ so_cf_max o ∧ 0 ≤ so_cf_per o;
  of_bcast : 0 < so_n_bcast_buf o ≤ 2 ^ 30;
  of_pool : ∀ start end_, so_pool o = Some (start, end_) → is_u32 start ∧ is_u32 end_;
  of_pool6 : ∀ base bits, so_ipv6_pool o = Some (base, bits) → length base = 16%nat ∧ Forall is_byte base;
  of_init : ∃ p, init_pool o = Ret p;
  of_clients : 0 ≤ so_max_clients o < INT_MAX;
}.
(** Nothing but the queue refers to a packet. *)
Definition unshared : nat → Z := λ _, 0.
Lemma unshared_ok x : 0 ≤ unshared x.
Proof. done. Qed.

Lemma empty_table flag h : wf_hash h → (∀ a : mroute_addr, assoc h a = None) → table_of flag ∅ h.
Proof. intros Hw Hn. split; [done|]. split; [done|]. intros a i. by rewrite Hn. Qed.
Lemma empty_schedule : schedule_of ∅ (schedule_init ∅ 0).
Proof.
  split; [|split; [by intros i []|]].
  - exists L. split; [|split; [by constructor|by left]]. split; [split; [done|split; [by constructor|by constructor]]|]. split; [done|].
    intros i []. done.
  - intros i [tv Hi]. rewrite lookup_scheduled in Hi. done.
Qed.
Lemma empty_pool o p : options_fit o → init_pool o = Ret p → pool_holds ∅ p.
Proof.
  intros Ho. unfold init_pool. destruct (so_pool o) as [[start end_]|] eqn:Ep; [|by intros [= <-]].
  destruct (of_pool _ Ho _ _ Ep) as [Hst Hen].
  assert (∃ base bits, default (replicate 16 0, 0) (so_ipv6_pool o) = (base, bits) ∧ length base = 16%nat ∧ Forall is_byte base) as (base & bits & -> & Hl & Hb).
  { destruct (so_ipv6_pool o) as [[base bits]|] eqn:E6; [exists base, bits; split; [done|by apply (of_pool6 _ Ho) in E6]|].
    eexists _, _. split; [done|]. split; [done|by repeat constructor]. }
  intros H. apply bind_Ret_inv in H as (p0 & H & [= <-]). apply init_ok in H as (Hok & Hfree & _); [|done..].
  split; [done|]. split; [by intros|]. split; [|by intros]. intros n e He Hu. rewrite Forall_forall in Hfree.
  apply list_elem_of_lookup_2, Hfree in He. by subst e.
Qed.
Lemma server_starts little o r1 r2 r3 now : options_fit o → ∃ v, multi_init little o r1 r2 r3 now = Ret v ∧ running unshared ∅ [] v.
Proof.
  intros Ho. destruct (of_init _ Ho) as [p Hp]. unfold multi_init.
  destruct (hash_init_ok (K := mroute_addr) (V := nat) (so_real_hash_size o) r1 (of_real _ Ho)) as (h & -> & Hw & _ & Hn & Ha). bret.
  destruct (start_ok little (so_virtual_hash_size o) r2 now (so_local o) (of_virtual _ Ho)) as (m & Em & Hm & Hre). rewrite Em. bret.
  destruct (hash_init_ok (K := mroute_addr) (V := nat) 1 r3 ltac:(done)) as (it & -> & Hwi & _ & _ & Hai). bret.
  destruct (of_freq _ Ho) as [Hf1 Hf2]. unfold frequency_limit_init. rewrite ASSERT_ok by lia. bret.
  destruct (mbuf_init_ok (so_n_bcast_buf o) (of_bcast _ Ho)) as (ms & -> & Hq & _). bret. rewrite Hp. bret. eexists. split; [done|].
  assert (m_instances m = ∅ ∧ cache_generation (m_helper m) = 0) as [Ei Eg].
  { unfold multi_init_routing in Em. apply bind_Ret_inv in Em as (h0 & _ & [= <-]). done. }
  assert (∀ i, alive m i = false) as Hal by (intros i; unfold alive; by rewrite Ei).
  split; [|by intros|split; [apply Ho|apply Ho]]. split; [|by apply empty_table|by intros|by intros j k Hj|].
  2: { fields. unfold dues. rewrite Ei, Eg, msum_empty. done. }
  split; fields; try done.
  - intros i. rewrite Hal. split; [done|]. by intros [].
  - intros i x. by rewrite Ei.
  - intros i x. by rewrite Ei.
  - intros i. fields. by rewrite Hal.
  - by apply empty_table.
  - apply empty_schedule.
  - exists []. split; [done|]. split; [|constructor]. intros b. fields. done.
  - by intros q j ?%elem_of_nil.
  - by eapply empty_pool.
Qed.

(** ** The loop *)

Section properties.
Context (little : bool) (o : server_options) (random : nat → Z) (tun : tun_info).

(** The server after some iterations, and the second of its timers.  In each the script
    answers as it likes; [fuel] is enough. *)
Inductive reachable : Z → server → Prop :=
  | starts r1 r2 r3 now v : multi_init little o r1 r2 r3 now = Ret v → reachable 0 v
  | turns script junk_src junk_dest junk_ext t trigger v trigger' v' n :
      reachable trigger v → any_addr junk_src → any_addr junk_dest → turn_fits t v →
      (∀ fuel, (n ≤ fuel)%nat → server_turn little script random tun junk_src junk_dest junk_ext fuel t trigger v = Ret (trigger', v')) →
      reachable trigger' v'.

Hypothesis (Ho : options_fit o) (Hlively : lively random) (Htun : tt_type tun = DEV_TYPE_TUN).

Lemma reachable_running trigger v : reachable trigger v → ∃ C Q, running unshared C Q v.
Proof.
  induction 1 as [r1 r2 r3 now v E|script js jd je t trigger v trigger' v' n _ (C & Q & IH) Hjs Hjd Ht E].
  - destruct (server_starts little o r1 r2 r3 now Ho) as (v1 & E1 & Hr). exists ∅, []. congruence.
  - destruct (turn_ok unshared unshared_ok little script random tun Hlively js jd je Hjs Hjd Htun C Q v t trigger IH Ht) as (tr & v1 & m & C' & Q' & E1 & Hr & _).
    specialize (E (n + m)%nat ltac:(lia)). specialize (E1 (n + m)%nat ltac:(lia)). exists C', Q'. congruence.
Qed.

(** C1: The event loop of a UDP server never fails.  From [multi_init], after any
    iterations, with packets of any clients and of the device, timeouts, signals, clients
    that connect, disconnect or are replaced by one with their name, the next iteration
    is computed: no assertion fails, nothing freed is used, no counter wraps; with enough
    draws for the scheduler it ends. *)
Theorem server_never_fails script junk_src junk_dest junk_ext t trigger v :
  reachable trigger v → any_addr junk_src → any_addr junk_dest → turn_fits t v →
  ∃ trigger' v' n, (∀ fuel, (n ≤ fuel)%nat →
      server_turn little script random tun junk_src junk_dest junk_ext fuel t trigger v = Ret (trigger', v')) ∧
    reachable trigger' v'.
Proof.
  intros Hv Hjs Hjd Ht. destruct (reachable_running trigger v Hv) as (C & Q & Hr).
  destruct (turn_ok unshared unshared_ok little script random tun Hlively junk_src junk_dest junk_ext Hjs Hjd Htun C Q v t trigger Hr Ht)
    as (tr & v' & n & C' & Q' & E & _). exists tr, v', n. split; [done|]. eapply turns; [exact Hv|exact Hjs|exact Hjd|exact Ht|exact E].
Qed.

(** *** What the server knows of its clients *)

Definition live_clients (v : server) : gmap nat client := filter (λ p, alive (v_multi v) p.1 = true) (v_clients v).
Lemma live_is C Q v : running unshared C Q v → live_clients v = C.
Proof.
  intros [[Ht _ _ _ _] _ _]. apply map_eq. intros i. unfold live_clients. destruct (C !! i) as [k|] eqn:Hk.
  - apply map_lookup_filter_Some. split; [by apply (tr_clients _ _ _ _ Ht)|]. apply (tr_alive _ _ _ _ Ht i). by rewrite Hk.
  - apply map_lookup_filter_None. right. intros k _ Ha%(tr_alive _ _ _ _ Ht i). rewrite Hk in Ha. by destruct Ha.
Qed.
(** What is kept about clients in all the places agrees with the clients there are. *)
Record books_agree (v : server) : Prop := {
  bk_there : ∀ i, is_Some (live_clients v !! i) ↔ alive (v_multi v) i = true;
  bk_hash : ∀ a i, assoc (v_hash v) a = Some i ↔ comes_from (live_clients v) a i;
  bk_iter : NoDup (members (v_switch v)) ∧ ∀ i, i ∈ members (v_switch v) ↔ is_Some (live_clients v !! i);
  bk_pool : pool_holds (live_clients v) (v_pool v);
  bk_routes : ∀ a i, routed (v_multi v) a (Some i) → is_Some (live_clients v !! i);
  bk_schedule : ∀ i tv, scheduled (v_schedule v) !! i = Some tv → is_Some (live_clients v !! i);
  bk_queue : ∃ Q, queue_shows unshared (v_switch v) Q ∧ addressed (live_clients v) Q;
  bk_pending : ∀ i, v_pending v = Some i ∨ v_earliest_wakeup v = Some i → is_Some (live_clients v !! i);
  bk_count : v_n_clients v = Z.of_nat (base.size (filter (λ p, k_established p.2 = true) (live_clients v)));
  bk_limit : Z.of_nat (base.size (live_clients v)) ≤ v_max_clients v;
}.
Lemma count_established (C : gmap nat client) : (∀ i k, C !! i = Some k → client_ok k) →
  - msum k_n_clients_delta C = Z.of_nat (base.size (filter (λ p, k_established p.2 = true) C)).
Proof.
  induction C as [|i k C Hi IH] using map_ind; intros Hok; [by rewrite msum_empty, map_filter_empty|].
  assert (∀ j kj, C !! j = Some kj → client_ok kj) as Hok' by (intros j kj Hj; apply (Hok j); rewrite lookup_insert_ne; [done|congruence]).
  specialize (IH Hok'). rewrite msum_insert by done. destruct (Hok i k (lookup_insert_eq _ _ _)) as (E & _).
  destruct (k_established k) eqn:Ee.
  - rewrite map_filter_insert_True by done. rewrite map_size_insert_None; [lia|]. apply map_lookup_filter_None. by left.
  - rewrite map_filter_insert_False by (cbn; by rewrite Ee). rewrite delete_id by done. lia.
Qed.
Lemma running_books C Q v : running unshared C Q v → books_agree v.
Proof.
  intros Hr. pose proof (live_is _ _ _ Hr) as E. pose proof Hr as [[Ht Hit Hall _ _] Hre [Hsz _]]. destruct (table_values _ _ _ Hit) as [Hnd Hv].
  split; rewrite ?E.
  - intros i. by rewrite (tr_alive _ _ _ _ Ht).
  - intros a i. symmetry. apply comes_from_assoc; [apply Ht|done].
  - split; [done|]. intros i. split; [intros (k & -> & _)%Hv; done|]. intros [k Hk]. apply Hv. exists k. split; [done|by eapply Hall].
  - apply Ht.
  - intros a i Hro. apply (tr_alive _ _ _ _ Ht). destruct Hro as [(id & r & _ & _ & _ & _ & H)|[_ (net & H & _)]]; [done|by eapply net_live_alive].
  - intros i tv Hi. destruct (tr_schedule _ _ _ _ Ht) as (_ & _ & H). apply H. by rewrite Hi.
  - exists Q. split; apply Ht.
  - intros i [Hi|Hi]; [by apply (tr_pending _ _ _ _ Ht)|by apply (tr_wakeup _ _ _ _ Ht)].
  - rewrite (proj1 (tr_count _ _ _ _ Ht)). apply count_established, (tr_client _ _ _ _ Ht).
  - done.
Qed.

(** C2: Whatever happened before, the places where a server keeps clients agree on who is
    there: the table of transport addresses leads from each address to the client that
    has it and to no other, the list has each client once, each address of the pool that
    is in use is one client's, and routes, the scheduler, the queue and the pointers kept
    aside lead only to clients that are there; the count is the number of those that are
    established, and there are never more clients than [--max-clients]. *)
Theorem server_books_agree trigger v : reachable trigger v → books_agree v.
Proof. intros Hv. destruct (reachable_running trigger v Hv) as (C & Q & Hr). by eapply running_books. Qed.

(** *** Events *)

(** C9: A packet from the socket goes to the client that has its transport address.  When
    there is none, one instance is created with that address and all tables know it,
    provided the packet may begin a connection, new connections do not come too fast, no
    signal came and the server is not full; otherwise nobody is added.  The other clients
    stay as they are. *)
Theorem packet_finds_its_client script now li allowed f trigger v :
  reachable trigger v → link_fits li → frequency_limit_event_allowed now (v_limiter v) = Ret (allowed, f) →
  let '(ok, real) := mroute_extract_openvpn_sockaddr (li_from li) true (li_junk li) in
  ∃ r v' n, (∀ fuel, (n ≤ fuel)%nat →
      multi_get_create_instance_udp little script random tun now fuel (li_from li) (li_junk li) (li_lite li)
        (li_instance li) (li_sig li) (li_activity li) (li_new li) v = Ret (r, v')) ∧ books_agree v' ∧
    (∀ i, ok = true → comes_from (live_clients v) real i → r = Some i ∧ live_clients v' = live_clients v) ∧
    ((∀ i, ok = true → ¬ comes_from (live_clients v) real i) →
      if ok && li_lite li && allowed && negb (li_sig li) && negb (is_full v)
      then ∃ i k, r = Some i ∧ live_clients v !! i = None ∧ k_real k = real ∧ live_clients v' = <[i := k]> (live_clients v)
      else r = None ∧ live_clients v' = live_clients v).
Proof.
  intros Hv [Hin Hse Hne _] Hfl. destruct (reachable_running trigger v Hv) as (C & Q & Hr).
  pose proof (get_create_ok unshared unshared_ok little script now tun random C Q v (li_from li) (li_junk li) (li_lite li) (li_instance li) (li_sig li)
    (li_activity li) (li_new li) allowed f Hr Hin Hse Hfl (running_fresh unshared random Hlively _ _ _ _ Hr)) as H.
  destruct (mroute_extract_openvpn_sockaddr _ true _) as [ok real]. cbv beta iota zeta in H. unfold gone_for_new in H. rewrite not_established in H by done.
  destruct H as (r & v' & n & E & _ & Hold & Hnew); [done|]. rewrite (live_is _ _ _ Hr). exists r, v', n. split; [done|]. cbn [gone_for] in Hnew.
  assert ((∃ i, ok = true ∧ comes_from C real i) ∨ ∀ i, ok = true → ¬ comes_from C real i) as [(i & Hok & Hi)|Hno] by (by eapply known_or_not).
  - destruct (Hold i Hok Hi) as [-> Hr']. split; [by eapply running_books|]. rewrite (live_is _ _ _ Hr'). split; [|intros Hno; by destruct (Hno i Hok)].
    intros j Hj1 Hj2. by destruct (Hold j Hj1 Hj2).
  - specialize (Hnew Hno). destruct (_ && _).
    + destruct Hnew as (-> & k' & Hk' & Hr'). rewrite without_none, forget_none in Hr' by done. split; [by eapply running_books|].
      split; [intros i Hok Hi; by destruct (Hno i Hok)|]. intros _. exists (new_id v), k'. split; [done|]. split; [|split; [done|by apply live_is in Hr']].
      apply (new_absent unshared C Q v), Hr.
    + destruct Hnew as [-> Hr']. split; [by eapply running_books|]. rewrite (live_is _ _ _ Hr'). split; [intros i Hok Hi; by destruct (Hno i Hok)|done].
Qed.

(** C17: A client whose context got a signal is closed after its event: its instance is
    no longer there, in none of the places that [books_agree] tells of, and its packets
    leave the queue; every other client is there as it was, and what waits for it stays
    in its order. *)
Theorem closed_client_is_gone script now i k p flags trigger v :
  reachable trigger v → live_clients v !! i = Some k → session_fits p → connects k p flags = None → closes p flags = true →
  ∃ v' n, (∀ fuel, (n ≤ fuel)%nat → multi_process_post little script random tun now fuel i p flags v = Ret (false, v')) ∧
    books_agree v' ∧ live_clients v' = delete i (live_clients v) ∧
    ∃ Q, queue_shows unshared (v_switch v) Q ∧ queue_shows unshared (v_switch v') (map (forget_packets i) Q).
Proof.
  intros Hv Hk Hse Hc Hcl. destruct (reachable_running trigger v Hv) as (C & Q & Hr). rewrite (live_is _ _ _ Hr) in *.
  destruct (post_ok unshared unshared_ok little script now tun random C Q v i k p flags (rn_serves _ _ _ _ Hr) Hk Hse) as (v' & n & E & [[_ _ Um _ _] _] & Hv');
    [by eapply running_fresh|by rewrite Hc|]. rewrite Hc, Hcl in *. cbn [gone_for negb] in *. rewrite without_none, forget_none in Hv' by done.
  assert (running unshared (delete i C) (map (forget_packets i) Q) v') as Hr'.
  { split; [done| |]; [intros j kj [_ Hj]%lookup_delete_Some; by eapply (rn_real _ _ _ _ Hr)|]. rewrite Um. pose proof (rn_size _ _ _ _ Hr).
    pose proof (size_less C (delete i C) (evolves_fewer _ _ _ (evolves_delete C i) eq_refl)). lia. }
  exists v', n. split; [done|]. split; [by eapply running_books|]. split; [by eapply live_is|]. exists Q.
  split; [apply (tr_queue _ _ _ _ (sv_tracks _ _ _ _ (rn_serves _ _ _ _ Hr)))|apply (tr_queue _ _ _ _ (sv_tracks _ _ _ _ Hv'))].
Qed.

(** C10: When a connection is established without [--duplicate-cn], the clients that stay
    are exactly those that do not have the new client's name, and the new client. *)
Theorem names_stay_unique script now i k c trigger v :
  reachable trigger v → live_clients v !! i = Some k → k_established k = false → may_connect c v → cn_duplicate_cn c = false →
  ∃ v', multi_connection_established little script tun now i (Some c) v = Ret v' ∧ books_agree v' ∧
    (∃ k', live_clients v' !! i = Some k' ∧ k_established k' = true ∧ k_real k' = k_real k) ∧
    ∀ j, j ≠ i → live_clients v' !! j = if decide (is_Some (name_of (v_multi v) i) ∧ name_of (v_multi v) j = name_of (v_multi v) i) then None else live_clients v !! j.
Proof.
  intros Hv Hk He Hmc Hdup. destruct (reachable_running trigger v Hv) as (C & Q & Hr). rewrite (live_is _ _ _ Hr) in *.
  destruct (serves_established unshared unshared_ok little script now tun C Q v i k c (rn_serves _ _ _ _ Hr) Hk He Hmc) as (v' & k' & E & Hs & [Ce Crl [Ch _] Cu _]).
  unfold ousted in Hs. rewrite Hdup in Hs. set (g := dup (v_multi v) i) in *.
  assert (running unshared (<[i := k']> (without g C)) (forget_where g Q) v') as Hr'.
  { split; [done| |].
    - intros j kj [[<- <-]|[_ Hj]]%lookup_insert_Some; [rewrite Ch; by eapply (rn_real _ _ _ _ Hr)|]. rewrite without_lookup in Hj.
      destruct (g j); [done|by eapply (rn_real _ _ _ _ Hr)].
    - rewrite (um_max _ _ Cu). pose proof (rn_size _ _ _ _ Hr). pose proof (size_less C (<[i := k']> (without g C))) as Hle.
      assert (base.size (<[i := k']> (without g C)) ≤ base.size C)%nat; [|lia]. apply Hle. intros j [<-|Hj]%lookup_insert_is_Some'; [by rewrite Hk|].
      rewrite without_lookup in Hj. destruct (g j); [by destruct Hj|done]. }
  exists v'. split; [done|]. split; [by eapply running_books|]. rewrite (live_is _ _ _ Hr'). split; [exists k'; by rewrite lookup_insert_eq|].
  intros j Hne. rewrite lookup_insert_ne, without_lookup by done. subst g. unfold dup. case_decide as Hd; [by rewrite bool_decide_eq_true_2|].
  rewrite bool_decide_eq_false_2 by tauto. done.
Qed.

(** C19: A server waits ten seconds at most, and not beyond the time the first client of the
    scheduler is to be woken; that client is kept for when the time is up. *)
Theorem waits_for_the_first current trigger v :
  reachable trigger v → (∀ i tv, scheduled (v_schedule v) !! i = Some tv → near current tv) →
  ∃ t v', multi_get_timeout current v = Ret (t, v') ∧ books_agree v' ∧ live_clients v' = live_clients v ∧
    us t ≤ 10000000 ∧ (∀ i tv, scheduled (v_schedule v) !! i = Some tv → us t ≤ Z.max 0 (us tv - us current)) ∧
    (us t = 10000000 ∧ v_earliest_wakeup v' = None ∨
     ∃ i tv, scheduled (v_schedule v) !! i = Some tv ∧ v_earliest_wakeup v' = Some i ∧ us t = Z.max 0 (us tv - us current)).
Proof.
  intros Hv Hnear. destruct (reachable_running trigger v Hv) as (C & Q & Hr).
  destruct (get_timeout_ok unshared C Q v current Hr Hnear) as (t & v' & E & Hr' & _ & _ & _ & H). exists t, v'. split; [done|].
  split; [by eapply running_books|]. split; [|done]. by rewrite (live_is _ _ _ Hr), (live_is _ _ _ Hr').
Qed.

(** C18: Packets are read from the socket or the device only while no client has output and
    the queue is empty, so that there is always room for what they are sent to; and the
    device is written to only when a client is pending.  This is why the assertions of the
    queue and of [multi_process_outgoing_tun] hold. *)
Theorem reads_only_when_idle fast tun_out link_out a trigger v :
  reachable trigger v → answers (p2mp_iow_flags tun_out link_out v) a →
  let status := io_wait fast (p2mp_iow_flags tun_out link_out v) a in
  (Z.land status SOCKET_READ ≠ 0 ∨ Z.land status TUN_READ ≠ 0 →
    v_pending v = None ∧ queue_shows unshared (v_switch v) [] ∧ 0 < ms_capacity (s_mbuf (v_switch v))) ∧
  (Z.land status TUN_WRITE ≠ 0 → ∃ i, v_pending v = Some i ∧ is_Some (live_clients v !! i)).
Proof.
  intros Hv Ha status. destruct (reachable_running trigger v Hv) as (C & Q & Hr). destruct (running_switch _ _ _ _ Hr) as [_ Hq].
  destruct (waits_for fast tun_out link_out a v Ha) as (W1 & W2 & W3). split.
  - intros Hrd. assert (reading v) as Hi by (destruct Hrd; auto). pose proof (reading_empty _ _ _ Hq Hi) as ->. split; [apply Hi|]. split; [done|].
    destruct Hq as (q & [r (Hb & Hc & _)] & _). rewrite Hc. apply Z.pow_pos_nonneg; lia.
  - intros Hw. destruct (v_pending v) as [i|] eqn:Ep; [|by destruct (W3 Hw)]. exists i. split; [done|].
    apply (bk_pending v); [by eapply running_books|by left].
Qed.

(** C20: Packets leave the queue in the order they came, each for its client; those whose
    client has gone are passed over. *)
Theorem queue_in_order trigger v :
  reachable trigger v →
  ∃ Q, queue_shows unshared (v_switch v) Q ∧ addressed (live_clients v) Q ∧
  match next_packet Q with
  | Some ((c, i), Q') => ∃ mb v', multi_get_queue v = Ret (Some (i, mb), v') ∧ content (mb_buf mb) = c ∧
      queue_shows unshared (v_switch v') Q' ∧ live_clients v' = live_clients v ∧ books_agree v'
  | None => ∃ v', multi_get_queue v = Ret (None, v') ∧ queue_shows unshared (v_switch v') [] ∧ live_clients v' = live_clients v ∧ books_agree v'
  end.
Proof.
  intros Hv. destruct (reachable_running trigger v Hv) as (C & Q & Hr). rewrite (live_is _ _ _ Hr). exists Q.
  pose proof (get_queue_ok unshared unshared_ok C Q v Hr) as H. split; [apply (running_switch _ _ _ _ Hr)|]. split; [apply (sv_tracks _ _ _ _ (rn_serves _ _ _ _ Hr))|].
  destruct (next_packet Q) as [[[c i] Q']|].
  - destruct H as (mb & v' & E & Hc & _ & Hr' & _). exists mb, v'. split; [done|]. split; [done|]. split; [apply (running_switch _ _ _ _ Hr')|].
    split; [by eapply live_is|by eapply running_books].
  - destruct H as (v' & E & Hr' & _). exists v'. split; [done|]. split; [apply (running_switch _ _ _ _ Hr')|]. split; [by eapply live_is|by eapply running_books].
Qed.
End properties.

(** *** Witnesses *)

Section witnesses.

(** Random numbers that go round. *)
Definition cycling (n : nat) : Z := Z.of_nat n mod 2 ^ 31.
Lemma left_out (l F : list Z) : NoDup l → (length F < length l)%nat → ∃ x, x ∈ l ∧ x ∉ F.
Proof.
  intros Hnd Hl. destruct (decide (Forall (λ x, x ∈ F) l)) as [Hall|Hn].
  - assert (l ⊆ F) as Hsub by (intros x Hx; rewrite Forall_forall in Hall; by apply Hall).
    pose proof (submseteq_length l F (NoDup_submseteq l F Hnd Hsub)). lia.
  - apply not_Forall_Exists in Hn; [|solve_decision]. apply Exists_exists in Hn as (x & Hx & Hnx). by exists x.
Qed.
Lemma cycling_lively : lively cycling.
Proof.
  intros n F HF. destruct (left_out (seqZ 1 INT_MAX) F) as (x & Hx & HxF); [apply NoDup_seqZ|rewrite length_seqZ; lia|].
  apply elem_of_seqZ in Hx. ints. exists (Z.to_nat (Z.of_nat n * 2147483648 + x)). split; [lia|].
  assert (drawn cycling (Z.to_nat (Z.of_nat n * 2147483648 + x)) = x) as ->; [|done].
  unfold drawn, cycling. rewrite Z2Nat.id by lia. change (2 ^ 31) with 2147483648. rewrite Z.add_comm, Z.mod_add, Z.mod_small by lia.
  rewrite (wrap_small 32) by lia. by rewrite decide_False by lia.
Qed.

(** A server for two clients with the addresses 10.8.0.2 to 10.8.0.12. *)
Definition small_options : server_options :=
  ServerOptions DEV_TYPE_TUN TOP_SUBNET 4 4 0 0 4 (Some (168296450, 168296460)) false None 168296449 2 64 true.
Definition small_tun : tun_info := Tun DEV_TYPE_TUN TOP_SUBNET 168296449 4294967040 [] false.
Definition no_server : server :=
  Server (Switch nothing (Hash 0 0 0 0 []) (MS 0 0 0 0 []) ∅ ∅ false 0) (Hash 0 0 0 0 []) ∅ (schedule_init ∅ 0) None (FL 0 0 0 0) None None 0 0.
Definition server_of {A} (x : outcome (A * server)) : server := match x with Ret (_, v) => v | _ => no_server end.
Definition server0 : server := Eval vm_compute in match multi_init true small_options 7 7 7 0 with Ret v => v | _ => no_server end.
Definition plain : multi_instance := Instance false 0 0 false [] [] 256 None (PfContext false None) None.
(** A session of a client called "a". *)
Definition a_session : tls_session := Eval vm_compute in match set_common_name (Some [97]) (TlsName None 0) with Ret t => t | _ => TlsName None 0 end.
Definition no_filter : pf_context := PfContext false None.
Definition a_post (sig : bool) : post := Post false false sig false false (Some a_session) no_filter (TV 100 0) (TV 5 0) false None.
Definition first_packet : buffer := mkbuf [] [69; 0; 0; 20; 0; 0; 0; 0; 64; 17; 0; 0; 10; 1; 1; 1; 10; 8; 0; 2] [].
Definition a_link (ip : list Z) : link_input :=
  LinkInput (In4 ip [0; 1]) mroute_addr_init true plain false (Inactivity 0 0 0 (ET false 0 0)) (a_post false) first_packet first_packet.
(** A packet from a client's address comes. *)
Definition a_turn (ip : list Z) : turn :=
  Turn (TV 100 0) 100 false false false (IoAnswer false None false false (Some [(0, 1)])) false false None (a_link ip)
    (TunInput first_packet (λ _, first_packet)) (a_post false).
Definition turned (ip : list Z) (trigger : Z) (v : server) : outcome (Z * server) :=
  server_turn true agrees cycling small_tun mroute_addr_init mroute_addr_init mroute_addr_init 8 (a_turn ip) trigger v.
Definition server1 : server := Eval vm_compute in server_of (turned [1; 1; 1; 1] 0 server0).
(** Two clients with the same name. *)
Definition server2 : server := Eval vm_compute in server_of (turned [2; 2; 2; 2] 100 server1).

Lemma small_options_fit : options_fit small_options.
Proof.
  split; cbn; try lia; try done.
  - by intros start end_ [= <- <-].
  - by eexists.
Qed.
Lemma any_init : any_addr mroute_addr_init.
Proof. split; [done|]. by repeat constructor. Qed.
Lemma server0_reachable : reachable true small_options cycling small_tun 0 server0.
Proof. eapply (starts _ _ _ _ 7 7 7 0). vm_compute. reflexivity. Qed.
Lemma a_session_fits sig : session_fits (a_post sig).
Proof. split; [intros cn h [= <- <-]; vm_compute; reflexivity|by intros s]. Qed.
Lemma bytes4 a b c d : is_byte a → is_byte b → is_byte c → is_byte d → Forall is_byte [a; b; c; d].
Proof. intros. by rewrite !Forall_cons, Forall_nil. Qed.
Lemma a_link_fits ip : length ip = 4%nat → Forall is_byte ip → link_fits (a_link ip).
Proof.
  intros Hl Hb. split; [|apply a_session_fits|done|split; [by apply wf_mk|by repeat constructor]].
  split; [split; [done|by repeat constructor]|by split| |].
  - split; [by intros cn h|by intros s].
  - split; cbn; [lia|]. unfold BUF_SIZE_MAX. ints. lia.
Qed.
Lemma a_turn_fits ip v :
  length ip = 4%nat → Forall is_byte ip → (∀ i tv, scheduled (v_schedule v) !! i = Some tv → near (TV 100 0) tv) →
  p2mp_iow_flags false false v = Z.lor IOW_WAIT_SIGNAL IOW_READ → n_elements (m_vhash (v_multi v)) + 4 < INT_MAX → INT_MIN ≤ fl_n (v_limiter v) < INT_MAX →
  turn_fits (a_turn ip) v.
Proof.
  intros Hl Hb Hs Hf Hn Hfl. split; [done| |done|by apply a_link_fits| |apply a_session_fits|done|by intros c|done].
  - intros es shift rw [= <-] [= -> ->]%list_elem_of_singleton. left. split; [done|]. cbn [a_turn t_tun_out t_link_out t_answer]. rewrite Hf. vm_compute. reflexivity.
  - split. split; [by apply wf_mk|by repeat constructor].
Qed.
Lemma server1_reachable : reachable true small_options cycling small_tun 100 server1.
Proof.
  eapply (turns _ _ _ _ agrees mroute_addr_init mroute_addr_init mroute_addr_init (a_turn [1; 1; 1; 1]) 0 server0 _ _ 8);
    [apply server0_reachable|apply any_init|apply any_init| |].
  - apply a_turn_fits; [done|by apply bytes4| |vm_compute; reflexivity|done|done]. intros i tv Hi. assert (scheduled (v_schedule server0) = ∅) as E by (vm_compute; reflexivity). by rewrite E in Hi.
  - intros fuel Hf. do 8 (destruct fuel as [|fuel]; [lia|]). vm_compute. reflexivity.
Qed.
Lemma server2_reachable : reachable true small_options cycling small_tun 100 server2.
Proof.
  eapply (turns _ _ _ _ agrees mroute_addr_init mroute_addr_init mroute_addr_init (a_turn [2; 2; 2; 2]) 100 server1 _ _ 8);
    [apply server1_reachable|apply any_init|apply any_init| |].
  - apply a_turn_fits; [done|by apply bytes4| |vm_compute; reflexivity|done|done]. intros i tv Hi.
    assert (∃ t, scheduled (v_schedule server1) = {[0%nat := t]} ∧ near (TV 100 0) t) as (t & E & Ht).
    { eexists. split; [vm_compute; reflexivity|]. unfold near, normal. ints. cbn. lia. }
    rewrite E in Hi. by apply lookup_singleton_Some in Hi as [_ <-].
  - intros fuel Hf. do 8 (destruct fuel as [|fuel]; [lia|]). vm_compute. reflexivity.
Qed.
Definition client_of (i : nat) (v : server) : client := match live_clients v !! i with Some k => k | None => Client mroute_addr_init false false false 0 (-1) false 0 0 None end.
Definition client0 : client := Eval vm_compute in client_of 0 server2.
Definition client1 : client := Eval vm_compute in client_of 1 server2.
Lemma client0_there : live_clients server2 !! 0%nat = Some client0.
Proof. vm_compute. reflexivity. Qed.
Lemma client1_there : live_clients server2 !! 1%nat = Some client1.
Proof. vm_compute. reflexivity. Qed.

(** A third client comes. *)
Lemma server_never_fails_witness :
  ∃ trigger' v' n, (∀ fuel, (n ≤ fuel)%nat →
    server_turn true agrees cycling small_tun mroute_addr_init mroute_addr_init mroute_addr_init fuel (a_turn [3; 3; 3; 3]) 0 server0 = Ret (trigger', v')) ∧
  reachable true small_options cycling small_tun trigger' v'.
Proof.
  apply (server_never_fails true small_options cycling small_tun small_options_fit cycling_lively eq_refl agrees mroute_addr_init mroute_addr_init mroute_addr_init (a_turn [3; 3; 3; 3]) 0 server0 server0_reachable any_init any_init).
  apply a_turn_fits; [done|by apply bytes4| |vm_compute; reflexivity|done|done]. intros i tv Hi. assert (scheduled (v_schedule server0) = ∅) as E by (vm_compute; reflexivity). by rewrite E in Hi.
Defined.
Lemma server_books_agree_witness : books_agree server2 ∧ base.size (live_clients server2) = 2%nat.
Proof. split; [apply (server_books_agree true small_options cycling small_tun small_options_fit cycling_lively eq_refl 100 server2 server2_reachable)|vm_compute; reflexivity]. Defined.

(** The first packet of a third client. *)
Lemma packet_finds_its_client_witness :
  ∃ r v' n, (∀ fuel, (n ≤ fuel)%nat →
    multi_get_create_instance_udp true agrees cycling small_tun 100 fuel (In4 [3; 3; 3; 3] [0; 1]) mroute_addr_init true plain false (Inactivity 0 0 0 (ET false 0 0)) (a_post false) server2 = Ret (r, v')) ∧ books_agree v'.
Proof.
  destruct (packet_finds_its_client true small_options cycling small_tun small_options_fit cycling_lively eq_refl agrees 100 (a_link [3; 3; 3; 3]) true (v_limiter server2) 100 server2 server2_reachable)
    as (r & v' & n & E & H & _); [apply a_link_fits; [done|by apply bytes4]|vm_compute; reflexivity|]. exists r, v', n. split; [exact E|exact H].
Defined.
(** The first of the clients got a signal. *)
Lemma closed_client_is_gone_witness :
  ∃ v' n, (∀ fuel, (n ≤ fuel)%nat →
    multi_process_post true agrees cycling small_tun 100 fuel 0 (a_post true) (Z.lor MPP_PRE_SELECT MPP_CLOSE_ON_SIGNAL) server2 = Ret (false, v')) ∧
    live_clients v' = {[1%nat := client1]}.
Proof.
  destruct (closed_client_is_gone true small_options cycling small_tun small_options_fit cycling_lively eq_refl agrees 100 0 client0 (a_post true) (Z.lor MPP_PRE_SELECT MPP_CLOSE_ON_SIGNAL) 100 server2
    server2_reachable client0_there (a_session_fits true) eq_refl eq_refl) as (v' & n & E & _ & H & _). exists v', n. split; [exact E|]. rewrite H. vm_compute. reflexivity.
Defined.
(** The second client connects, with the name of the first. *)
Definition a_connection : connection := Connection false [Options None None false 0 false] true [IR 167837696 16] [].
Lemma nth_replicate_0 m n : nth m (replicate n 0) 0 = 0.
Proof. revert m. induction n; intros [|m]; cbn; auto. Qed.
Lemma a_connection_fits : may_connect a_connection server2.
Proof.
  split; [|split|done].
  - split; [|split; [|by constructor]].
    + apply Forall_singleton. split; [by intros l n|by intros a6].
    + apply Forall_singleton. split; [done|]. split; [done|]. intros _. vm_compute. reflexivity.
  - vm_compute. discriminate.
  - vm_compute. reflexivity.
  - intros n Hn. ints. unfold count_of. change (net_len_refcount (m_helper (v_multi server2))) with (replicate 129 0).
    rewrite nth_replicate_0. etransitivity; [apply Z.add_le_mono_l, times_le|]. vm_compute. discriminate.
Qed.
Lemma names_stay_unique_witness :
  ∃ v', multi_connection_established true agrees small_tun 100 1 (Some a_connection) server2 = Ret v' ∧ books_agree v' ∧
    (∃ k', live_clients v' !! 1%nat = Some k' ∧ k_established k' = true) ∧ live_clients v' !! 0%nat = None.
Proof.
  destruct (names_stay_unique true small_options cycling small_tun small_options_fit cycling_lively eq_refl agrees 100 1 client1 a_connection 100 server2 server2_reachable
    client1_there eq_refl a_connection_fits eq_refl) as (v' & E & H & (k' & Hk & He & _) & Hj).
  exists v'. split; [exact E|]. split; [exact H|]. split; [exists k'; split; [exact Hk|exact He]|]. rewrite Hj by discriminate. rewrite decide_True; [done|].
  assert (name_of (v_multi server2) 1 = Some [97] ∧ name_of (v_multi server2) 0 = Some [97]) as [E1 E0] by (split; vm_compute; reflexivity).
  rewrite E1, E0. split; [by exists [97]|done].
Defined.
Lemma waits_for_the_first_witness : ∃ t v', multi_get_timeout (TV 101 0) server1 = Ret (t, v') ∧ books_agree v' ∧ us t ≤ 5000000.
Proof.
  assert (∃ t, scheduled (v_schedule server1) = {[0%nat := t]} ∧ near (TV 101 0) t ∧ us t - 101000000 ≤ 5000000) as (tv & E & Hn & Hu).
  { eexists. split; [vm_compute; reflexivity|]. unfold near, normal, us. ints. cbn. lia. }
  destruct (waits_for_the_first true small_options cycling small_tun small_options_fit cycling_lively eq_refl (TV 101 0) 100 server1 server1_reachable) as (t & v' & Et & H & _ & _ & Hall & _).
  { intros i x Hi. rewrite E in Hi. by apply lookup_singleton_Some in Hi as [_ <-]. }
  exists t, v'. split; [exact Et|]. split; [exact H|]. specialize (Hall 0%nat tv). rewrite E in Hall. specialize (Hall (lookup_singleton_eq _ _)). change (us (TV 101 0)) with 101000000 in Hall. lia.
Defined.
Lemma reads_only_when_idle_witness :
  let status := io_wait false (p2mp_iow_flags false false server2) (IoAnswer false None false false (Some [(0, 1)])) in
  status = SOCKET_READ ∧ v_pending server2 = None ∧ 0 < ms_capacity (s_mbuf (v_switch server2)).
Proof.
  destruct (reads_only_when_idle true small_options cycling small_tun small_options_fit cycling_lively eq_refl false false false (IoAnswer false None false false (Some [(0, 1)])) 100 server2 server2_reachable) as [H _].
  - intros es shift rw [= <-] [= -> ->]%list_elem_of_singleton. left. split; [done|]. vm_compute. reflexivity.
  - split; [vm_compute; reflexivity|]. destruct H as (Hp & _ & Hc); [left; vm_compute; discriminate|]. split; [exact Hp|exact Hc].
Defined.
Lemma queue_in_order_witness : ∃ Q, queue_shows unshared (v_switch server2) Q ∧ addressed (live_clients server2) Q.
Proof.
  destruct (queue_in_order true small_options cycling small_tun small_options_fit cycling_lively eq_refl 100 server2 server2_reachable) as (Q & H1 & H2 & _). exists Q. split; [exact H1|exact H2].
Defined.
End witnesses.
